(* ===== verification/_CoqProject ===== *)
-Q . S2P
Prelude.v
Machine.v
ByteBuffer.v
MessageBuffer.v
HexUtils.v
NetUtils.v
UTF8Utils.v
OpenSSL.v
SRP6.v
Packet.v
AuthPacket.v
WorkPacket.v
AccountCache.v
PreparedStatement.v
Database.v
ClientSession.v
HandlersAuth.v
HandlersWork.v
Readers.v
SessionLoop.v
ServerLoop.v
Client.v
ClientSafety.v
ClientLoop.v
ClientProgram.v
Login.v
FmtUtf8.v
FmtInt.v
FmtWide.v
FmtPow10.v
FmtBigint.v
FmtDragon.v
FmtDragonbox.v
FmtCerts.v
FmtShortest.v
FmtShortFloat.v
FmtHelper.v
FmtEscape.v
FmtBuffer.v
FmtParse.v
FmtArgs.v
FmtFormat.v
FmtGroup.v
FmtFloat.v
FmtRoundtrip.v
FmtFixed.v
FmtCheck.v
TimeUtils.v
GeneratorUtils.v
Main.v
SessionThreads.v
CircularQ.v
MpmcQueue.v
SpdCommon.v
SpdLogger.v
ThreadPool.v
FileHelper.v
PatternFormatter.v
RotatingFile.v
DatedFile.v
Registry.v
Cfg.v
Sinks.v
DistSink.v
Logger.v
LoggerInit.v
PacketLog.v
LogCalls.v
