(* ===== verification/Prelude.v ===== *)
(** * Verification of the Purity server

    Purity is an asynchronous TCP server in C++ (Boost.Asio, OpenSSL, libpqxx)
    with a two-stage binary protocol: in the authentication stage a client
    proves itself with SRP6, in the work stage it exchanges pings and messages.
    The repository also holds an example client.  This library models the
    program file by file and proves what makes its parts correct; where the
    code does something else, the theorem says what it does.

    ** The program

    Bytes arrive in the [MessageBuffer] of a [ClientSession]; the reader of the
    session's stage takes one complete frame off it, parses it into an
    [AuthPacket] or a [WorkPacket] (a payload [ByteBuffer] behind a header) and
    dispatches it to [HandlersAuth] or [HandlersWork].  The authentication
    handlers use the session's [SRP6] object, the server's [AccountCache] and
    the connection pool [Database] (requests are [PreparedStatement]s), and
    answer through the session's write queue.  [Server] accepts connections,
    keeps the registry of open sessions and shuts everything down.  [Client]
    is the other end of the protocol.  Both log through [Logger], which hands
    JSON payloads to an asynchronous logger of spdlog (deps/spdlog-1.15.3): a
    message goes through a blocking queue to a worker thread, which writes it to
    the console and to a rotating file.

    ** Files

    - [Prelude] (this file): outcomes of C++ code (value, exception, undefined
      behaviour), the effect monad [M] with its notation and laws, lists with
      [Z] lengths, [std::vector] operations, tactics.
    - [Machine]: fixed width integers, byte orders of the host ([Host]),
      object representations, big- and little-endian encodings.
    - [ByteBuffer], [MessageBuffer], [Packet], [AuthPacket], [WorkPacket]:
      src/common/packet and the opcodes directories of the two stages.
    - [HexUtils], [NetUtils], [UTF8Utils], [TimeUtils], [GeneratorUtils],
      [Logger]: src/common/utils and src/common/Logger.hpp.
    - [OpenSSL], [SRP6]: the OpenSSL interface and src/common/srp6.
    - [PreparedStatement], [Database]: src/common/database (QueryResults
      included) with the libpqxx interface.
    - [AccountCache]: src/server/AccountCache.
    - [ClientSession]: src/server/ClientSession, AccountInfo, the members of
      Server, PacketUtils.
    - [HandlersAuth], [HandlersWork], [Readers]: src/server/SessionMode.
    - [SessionLoop]: one session as a transition system.
    - [SessionThreads]: its handlers on the threads of src/main_server.cpp, with
      the overlap of two of them.
    - [ServerLoop]: src/server/Server with all its sessions as one.
    - [Client], [ClientSafety], [ClientLoop], [ClientProgram]: src/Client, its read
      handlers on arbitrary input, the client as a transition system, and the
      program around it with its input thread (src/main_client.cpp).
    - [Login]: both programs composed.
    - [Main]: src/main_server.cpp and src/main_client.cpp as sequences of effects
      that may fail.
    - The bundled fmt (fmt/bundled/base.h, format.h, format-inl.h), format
      strings: [FmtInt] (integers), [FmtUtf8] (code points and display width),
      [FmtEscape] (escaped texts), [FmtBuffer] (memory and iterator buffers),
      [FmtParse] (the parser), [FmtArgs] (packed arguments), [FmtFormat]
      (formatting), [FmtGroup] (locales and digit grouping), [FmtCheck] (the check
      at compile time).
    - fmt, floating point numbers: [FmtWide] (128-bit integers and divisions by
      multiplication), [FmtPow10] (tables of powers of ten), [FmtBigint],
      [FmtDragon] (exact digits), [FmtDragonbox] (the shortest decimal) with its
      proof in [FmtCerts], [FmtShortest] and [FmtShortFloat], [FmtFloat] (the text
      of a float or a double) with its proofs in [FmtRoundtrip] and [FmtFixed].
    - [FmtHelper], [PatternFormatter]: spdlog's helpers for numbers and its
      pattern formatter, with the flags, padding, caches and pattern compiler.
    - [CircularQ], [MpmcQueue]: the queues of spdlog/details, the second as
      threads that interleave their critical sections, waits and notifications.
    - [SpdCommon], [SpdLogger], [ThreadPool]: levels, messages and the base sink;
      logger and backtracer; thread pool and asynchronous logger with clients,
      workers and destructor as a transition system.
    - [FileHelper], [RotatingFile], [DatedFile], [Sinks], [DistSink]: files with
      failing system calls, the rotating, daily, hourly and basic file sinks, the
      console and ring buffer sinks, and the sinks that distribute to others,
      filter duplicates, colour, or write to a stream or a callback.
    - [Registry], [Cfg]: the registry of loggers and its level configuration.
    - [LoggerInit], [PacketLog], [LogCalls]: constructor and methods of [Logger]
      over all of these; the dump of a packet to the log; every log call of the
      two programs.

    Definitions keep the names of the code.  An object is a [Record] of its
    members; a method is a function in [M], so what it changed before a [throw]
    stays changed; a local object is threaded through [on_local]; [try] is
    [try_catch], which does not catch undefined behaviour.  Bytes and characters
    are [Z], integers wrap where the code's do, [std::string] is a list of
    character codes.

    ** Interfaces and what is assumed

    - [OpenSSL.OpenSSL] with the laws [OpenSSLLaws]: digest length, big number
      conversions, modular arithmetic for a nonzero modulus.  [reference] is an
      executable instance with a real SHA-1.  Random bytes are arguments.
    - [Database.Pqxx] with the laws [PqxxLaws]: no libpqxx call is undefined,
      and asking whether a connection is open changes nothing; and with
      [PqxxObjects]: connecting makes a connection object that did not exist,
      destroying removes one, nothing else does either.  [Demo] and [Objects] are
      instances.
    - [Packet.PacketFormat] and [MessageBuffer.ByteQueue]: what the packet
      formats and the receive buffer promise to readers, session and client;
      [AuthPacket_format], [WorkPacket_format] and [MessageBuffer_queue]
      discharge them.
    - [SpdCommon.Sink] with the promise [SpdLogger.SinkSafe] (a sink may throw
      but has no undefined behaviour): loggers and the pool are verified against
      it; [stdout_safe], [rotating_safe] and [program_sink_safe] discharge it.
    - The file system and the console fail as an argument says, call by call;
      what [fmt] makes of a format string is an argument of the logging methods
      ([FmtFormat] models it; [PacketLog] and [LogCalls] put both together).
    - [FmtFormat.Locale]: what a locale writes for an integer;
      [FmtGroup.facet_locale] is what fmt makes of the [numpunct] facet of a locale.
    - Boost.Asio is modelled by the operations it has under way: an operation
      is pending until the system finishes it or closing the socket (setting
      the timer) aborts it; its handler runs later, as a step of its own, in any
      order with other steps.  On several threads, handlers of one session (and
      the event loop and the input thread of the client) may overlap, which C++
      leaves undefined where they share members: such a run ends in [Race]
      ([Overlap]).  Closing a socket without an error code and resolving an
      address may throw, as arguments say.
    - Clocks, name resolution and the calendar of the host ([mktime],
      [localtime], [gmtime]) are arguments, as are the random distributions
      ([GeneratorUtils.Distributions]), the steps of the main functions that may
      fail ([Main.Process]) and custom pattern flags
      ([PatternFormatter.CustomFlag]).  The database model takes the parser
      of timestamps as an argument that returns or throws; [TimeUtils] models it.

    ** Theorems

    - Encodings: what is written reads back, on hosts of any byte order
      ([bytebuffer_fields_roundtrip], [packet_roundtrip], [hex_roundtrip],
      [logger_roundtrip], [timestamp_roundtrip]); the bytes are the reference encoding
      ([bytebuffer_wire_format]); readers and parsers are safe and exact
      ([bytebuffer_read_safe], [packet_parse_exact], [is_valid_utf8_exact]).
    - Abstractions: the receive buffer is a FIFO byte queue
      ([messagebuffer_refines_byte_queue]), the cache a map with sliding
      expiry ([account_cache_refines_sliding_ttl], [cleanup_unobservable]), the
      SRP6 object with its BIGNUM pointers the numbers it points to
      ([srp6_refines_view], every public method with its result).
    - Authentication: the handshake agrees ([srp6_handshake_agrees]), every
      branch of the challenge handler ([logon_challenge_correct]), a login end
      to end ([login_end_to_end]); what the proof check accepts
      ([logon_proof_accepts_anything], [verify_server_proof_exact]).
    - The pool: every connection object is idle or held by one request
      ([pool_conservation]), and a request gives its connection or its
      replacement back ([execute_sync_conserves]), except by a failed reconnect
      ([outage_drains_pool]).
    - Transition systems: invariants by induction over the steps for the write
      path and the safety of all handlers of a session, as long as no two of
      them overlap ([session_write_fifo], [session_handlers_safe]; on two cores they
      can, [session_handlers_race], with the effect of [overlap_writes_twice]),
      framing ([on_read_one_packet]), the registry and
      the shutdown ([registry_exact], [stop_closes_everything]), the queue of
      the client ([client_write_fifo]) and its safety on arbitrary input
      ([client_read_safe], [client_program_safe], as long as the input thread and
      the event loop do not overlap, which they can: [client_threads_overlap]).
    - Logging: the program's log is complete and in order
      ([program_log_complete], [logger_methods_post]), from the queues
      ([circular_q_refines_ring], [mpmc_fifo], [mpmc_no_lost_wakeup]) over the
      pool ([pool_delivers_in_order], [pool_shutdown_completes]) and the logger
      ([logger_isolates_sinks], [backtrace_dump], [log_msg_buffer_keeps_text]) to
      the sinks, whose files hold exactly the lines they should
      ([rotating_keeps_newest], [daily_keeps_newest], [ringbuffer_last]); every operation of
      the registry does what it is for ([registry_invariant]) and level lists are read back
      ([load_levels_roundtrip]).
    - Formatting: integers are printed in decimal inside their buffer
      ([format_int_exact]), digits counted by table are digits
      ([fmt_count_digits_exact]); format strings are filled in with their
      arguments ([fmt_format_exact]), no format string is unsafe
      ([fmt_format_safe]), a string that passed the check at compile time is
      formatted ([fmt_checker_sound]), the log calls of the program write the
      texts they name ([program_logs_exact]), and a packet dump is exact
      ([raw_payload_logged]); a locale groups the digits of an integer
      ([localized_integer_exact]); a memory buffer holds the text written to it
      ([memory_buffer_refines_text]); a pattern compiles to what it says
      ([pattern_compile_exact]), padded fields have their width
      ([pattern_field_exact]), the caches of the formatter are invisible
      ([pattern_cache_exact]), and the default format is the documented pattern
      ([full_format_documented]).
    - Floating point: [to_decimal] gives the shortest decimal that is read back as
      the number, the closest of those ([to_decimal_shortest], every finite float
      and double: the products with rounded powers of ten are bounded away from
      integers by checked certificates); the text of a float or a double reads
      back as that number ([real_text_roundtrip]); a fixed number of digits is the exact value
      rounded half to even ([fixed_text_rounds], over [format_dragon_rounds] and
      [bigint_exact]).
    - The programs: however its set-up fails, the server logs the reason and
      shuts logging down last ([main_server_ends]); random integers cover their
      types ([random_draws_whole_type]).
    - Behaviour that is not what the code means to do is proved as it is:
      [second_packet_stalls], [write_handler_pops_empty_queue],
      [accept_error_ends_accepting], [double_failure_never_settles],
      [disconnect_reconnects], [signal_leaves_connection],
      [srp6_bignums_leaked], [summer_time_shifted],
      [truncated_timestamp_accepted] and others.

    ** Bounds and fuel

    These loops of the code take fuel, because they do not recurse on a
    structure: [read_nt_loop] gets the number of unread bytes, and more changes
    nothing ([bytebuffer_read_string_nt]); [case_loop] gets the length of the
    text, of which every round consumes at least one byte
    ([to_uppercase_correct] shows that all of it is converted);
    [foreach_pop] gets the number of stored messages, one of which every round
    removes ([backtrace_dump] shows that none is left); [create_dir_loop] gets the
    length of the path, through which every round advances; [compile_loop] gets
    the length of the pattern ([pattern_compile_exact]); [parse_format_string]
    and [specs_loop] get the length of the string ([fmt_format_safe]); [count_digits_loop] and
    [format_decimal_loop] get five rounds and the size of the buffer, enough for
    64 bits ([fmt_count_digits_exact], [format_int_exact]).  [divmod_loop] gets
    ten rounds, since a quotient is a digit; [assign_loop] four digits of 32
    bits for 128; [digits_loop] and [propagate] run over the digits asked for,
    [shortest_loop] gets a number of digits that the caller chooses; [print_pairs]
    four pairs for a segment of nine digits; [count_loop] and [separators_loop]
    the number of digits, past which no separator lies ([fixed_text_rounds],
    [localized_integer_exact] show that none of these runs out).  The JSON reader of
    [Logger], which is specification, gets the number of fields.  Vectors and
    files are shorter than [2 ^ 63] bytes ([max_vec], [max_storage], [healthy]);
    exhaustion of memory is not modelled.

    ** Not modelled

    Log calls inside the server and client models (their arguments are
    evaluated; [LoggerInit] says what such a call does), [debug_print], the scratch [BN_CTX], tests, and of the vendored spdlog the
    sinks that talk to the network, to databases or to system services, Windows
    code and, of [fmt], long double, wide characters, user types, named
    arguments and the headers the program does not include (chrono, ranges,
    color, printf, compile, std, os, ostream, xchar).  A floating point number is
    written by its own functions; the arguments of a format string are those the
    program passes.  What happens after two handlers began to
    overlap is outside the model, and so is a race between sessions: members of
    the server that sessions share are behind mutexes, and a handler is one step
    for the other sessions.  [ServerLoop] runs [stop] on a reachable state and not as a
    step, and an accept handler that throws ends the run.  An object of the
    logger registry that nobody points to stays in its heap, out of reach. *)

From Stdlib Require Export Ascii.
From stdpp Require Export base tactics numbers list gmap strings pretty.
From Stdlib Require Export ZArith Lia.

Open Scope Z_scope.

(** The ASCII codes of a string literal. *)
Definition chars (s : string) : list Z :=
  map (fun c => Z.of_N (Ascii.N_of_ascii c)) (String.list_ascii_of_string s).

(** ** Outcomes of C++ code

    A call returns a value, throws a standard exception, or performs an
    operation whose behaviour the language leaves undefined (an out of range
    access, [pop_front] of an empty container, ...). *)

Inductive exn :=
| out_of_range (what : string)
| runtime_error (what : string)
| invalid_argument (what : string)
| broken_connection (what : string)
| spdlog_ex (what : list Z)
| bad_alloc.

Inductive outcome (A : Type) :=
| Ok (a : A)
| Throw (e : exn)
| Undef.

Arguments Ok {A} a.
Arguments Throw {A} e.
Arguments Undef {A}.

#[export] Instance exn_eq_dec : EqDecision exn.
Proof. solve_decision. Defined.

#[export] Instance outcome_eq_dec `{EqDecision A} : EqDecision (outcome A).
Proof. solve_decision. Defined.

(** [ex.what()]. *)
Definition what (e : exn) : list Z :=
  match e with
  | out_of_range t | runtime_error t | invalid_argument t | broken_connection t => chars t
  | spdlog_ex t => t
  | bad_alloc => chars "std::bad_alloc"
  end.

(** ** The effect monad

    A member function that reads and updates an object of type [S] is a
    function [S -> outcome A * S]: the updates made before a [throw] stay in
    the returned state, as they do in C++. *)

Definition M (S A : Type) : Type := S -> outcome A * S.

Definition ret {S A} (a : A) : M S A := fun s => (Ok a, s).

Definition throw {S A} (e : exn) : M S A := fun s => (Throw e, s).

Definition undef {S A} : M S A := fun s => (Undef, s).

Definition bind {S A B} (m : M S A) (f : A -> M S B) : M S B := fun s =>
  match m s with
  | (Ok a, s') => f a s'
  | (Throw e, s') => (Throw e, s')
  | (Undef, s') => (Undef, s')
  end.

Definition get {S} : M S S := fun s => (Ok s, s).

Definition gets {S A} (f : S -> A) : M S A := fun s => (Ok (f s), s).

Definition modify {S} (f : S -> S) : M S unit := fun s => (Ok tt, f s).

(** [try { m } catch (const std::exception &) { h }]: undefined behaviour is
    not an exception and is not caught. *)
Definition try_catch {S A} (m : M S A) (h : exn -> M S A) : M S A := fun s =>
  match m s with
  | (Throw e, s') => h e s'
  | r => r
  end.

(** A member object's method run on the field of the enclosing object. *)
Definition zoom {S T A} (rd : S -> T) (wr : T -> S -> S) (m : M T A) : M S A :=
  fun s => let '(r, t) := m (rd s) in (r, wr t s).

(** The outcome of a stateless computation inside the monad. *)
Definition of_outcome {S A} (o : outcome A) : M S A := fun s => (o, s).

(** A method run on a local object: the object lives in the caller's frame and
    is lost when the method throws. *)
Definition on_local {S T A} (m : M T A) (t : T) : M S (A * T) := fun s =>
  match m t with
  | (Ok a, t') => (Ok (a, t'), s)
  | (Throw e, _) => (Throw e, s)
  | (Undef, _) => (Undef, s)
  end.

Declare Scope cpp_scope.
Delimit Scope cpp_scope with cpp.
Notation "'let!' x ':=' m 'in' k" := (bind m (fun x => k))
  (at level 10, x name, m at level 100, k at level 200) : cpp_scope.
Notation "'let!' ' p ':=' m 'in' k" := (bind m (fun p => k))
  (at level 10, p strict pattern, m at level 100, k at level 200) : cpp_scope.
Notation "'do!' m 'in' k" := (bind m (fun _ => k))
  (at level 10, m at level 100, k at level 200) : cpp_scope.
Open Scope cpp_scope.

Section monad_laws.
Context {S A B C : Type}.
Implicit Types (m : M S A) (s : S).

Lemma bind_ok m (f : A -> M S B) s s' a :
  m s = (Ok a, s') -> bind m f s = f a s'.
Proof. unfold bind. by intros ->. Qed.

Lemma bind_throw m (f : A -> M S B) s s' e :
  m s = (Throw e, s') -> bind m f s = (Throw e, s').
Proof. unfold bind. by intros ->. Qed.

Lemma bind_assoc m (f : A -> M S B) (g : B -> M S C) s :
  bind (bind m f) g s = bind m (fun a => bind (f a) g) s.
Proof. unfold bind. by destruct (m s) as [[] ?]. Qed.

Lemma bind_ok_inv m (f : A -> M S B) s s' b :
  bind m f s = (Ok b, s') -> exists a s1, m s = (Ok a, s1) /\ f a s1 = (Ok b, s').
Proof. unfold bind. destruct (m s) as [[] ?]; naive_solver. Qed.

Lemma on_local_ok {T} (m : M T A) t t' (a : A) s :
  m t = (Ok a, t') -> on_local m t s = (Ok (a, t'), s).
Proof. unfold on_local. by intros ->. Qed.

Lemma on_local_throw {T} (m : M T A) t t' e s :
  m t = (Throw e, t') -> on_local m t s = (Throw e, s).
Proof. unfold on_local. by intros ->. Qed.

Lemma try_catch_ok m h s s' a :
  m s = (Ok a, s') -> try_catch m h s = (Ok a, s').
Proof. unfold try_catch. by intros ->. Qed.

Lemma try_catch_throw m h s s' e :
  m s = (Throw e, s') -> try_catch m h s = h e s'.
Proof. unfold try_catch. by intros ->. Qed.
End monad_laws.

(** ** Successful runs *)

(** The computation succeeds in a state that satisfies [Q]. *)
Definition runs {S A} (m : M S A) (s : S) (Q : A -> S -> Prop) : Prop :=
  exists a s', m s = (Ok a, s') /\ Q a s'.

Lemma runs_bind {S A B} (m : M S A) (f : A -> M S B) s Q :
  runs m s (fun a s' => runs (f a) s' Q) -> runs (bind m f) s Q.
Proof. intros (a & s' & E & b & s'' & E' & HQ). exists b, s''. by rewrite (bind_ok _ _ _ _ _ E). Qed.

Lemma runs_ret {S A} (a : A) (s : S) (Q : A -> S -> Prop) : Q a s -> runs (ret a) s Q.
Proof. intros. by exists a, s. Qed.

Lemma runs_gets {S A} (f : S -> A) (s : S) (Q : A -> S -> Prop) : Q (f s) s -> runs (gets f) s Q.
Proof. intros. by exists (f s), s. Qed.

Lemma runs_modify {S} (f : S -> S) (s : S) (Q : unit -> S -> Prop) : Q tt (f s) -> runs (modify f) s Q.
Proof. intros. by exists tt, (f s). Qed.

Lemma runs_mono {S A} (m : M S A) s (Q Q' : A -> S -> Prop) :
  runs m s Q -> (forall a s', Q a s' -> Q' a s') -> runs m s Q'.
Proof. intros (a & s' & E & HQ) H. exists a, s'. auto. Qed.

(** No run of the computation is undefined. *)
Definition defined {S A} (m : M S A) : Prop := forall s, fst (m s) <> Undef.

Section defined_lemmas.
Context {S T A B : Type}.

Lemma defined_ret (a : A) : defined (S:=S) (ret a).
Proof. done. Qed.
Lemma defined_throw e : defined (S:=S) (A:=A) (throw e).
Proof. done. Qed.
Lemma defined_get : defined (@get S).
Proof. done. Qed.
Lemma defined_gets (f : S -> A) : defined (gets f).
Proof. done. Qed.
Lemma defined_modify (f : S -> S) : defined (modify f).
Proof. done. Qed.
Lemma defined_of_outcome (o : outcome A) : o <> Undef -> defined (S:=S) (of_outcome o).
Proof. by intros ? ?. Qed.
Lemma defined_bind (m : M S A) (f : A -> M S B) : defined m -> (forall a, defined (f a)) -> defined (bind m f).
Proof. intros Hm Hf s. unfold bind. specialize (Hm s). destruct (m s) as [[a|e|] s']; [apply Hf|done|done]. Qed.
Lemma defined_zoom (rd : S -> T) wr (m : M T A) : defined m -> defined (zoom rd wr m).
Proof. intros Hm s. unfold zoom. specialize (Hm (rd s)). by destruct (m (rd s)). Qed.
End defined_lemmas.
Create HintDb defined.
#[export] Hint Resolve defined_ret defined_throw defined_get defined_gets defined_modify defined_of_outcome
  defined_bind defined_zoom : defined.

(** Runs the first computation of a [bind], whose result [t] proves. *)
Tactic Notation "bind_step" "by" tactic3(t) := erewrite bind_ok by t; cbv beta iota.

(** ** Lists with [Z] lengths *)

Definition zlen {A} (l : list A) : Z := Z.of_nat (length l).
Arguments zlen : simpl never.

Lemma zlen_nil A : zlen (@nil A) = 0.
Proof. done. Qed.

Section zlen_lemmas.
Context {A : Type}.
Implicit Types l k : list A.

Lemma zlen_nonneg l : 0 <= zlen l.
Proof. unfold zlen. lia. Qed.

Lemma zlen_cons x l : zlen (x :: l) = 1 + zlen l.
Proof. unfold zlen. simpl. lia. Qed.

Lemma zlen_app l k : zlen (l ++ k) = zlen l + zlen k.
Proof. unfold zlen. rewrite length_app. lia. Qed.

Lemma zlen_rev l : zlen (rev l) = zlen l.
Proof. unfold zlen. by rewrite length_rev. Qed.

Lemma zlen_reverse l : zlen (reverse l) = zlen l.
Proof. unfold zlen. by rewrite length_reverse. Qed.

Lemma zlen_take n l : zlen (take n l) = Z.min (Z.of_nat n) (zlen l).
Proof. unfold zlen. rewrite length_take. lia. Qed.

Lemma zlen_drop n l : zlen (drop n l) = Z.max 0 (zlen l - Z.of_nat n).
Proof. unfold zlen. rewrite length_drop. lia. Qed.

Lemma zlen_replicate n (x : A) : zlen (replicate n x) = Z.of_nat n.
Proof. unfold zlen. by rewrite length_replicate. Qed.

Lemma zlen_0_inv l : zlen l = 0 -> l = [].
Proof. destruct l; [done|]. rewrite zlen_cons. pose proof (zlen_nonneg l). lia. Qed.

Lemma drop_zlen_app l k : drop (Z.to_nat (zlen l)) (l ++ k) = k.
Proof. unfold zlen. by rewrite Nat2Z.id, drop_app_length. Qed.

Lemma take_zlen_app l k : take (Z.to_nat (zlen l)) (l ++ k) = l.
Proof. unfold zlen. by rewrite Nat2Z.id, take_app_length. Qed.
End zlen_lemmas.

Create Rewrite HintDb zlen.
#[export] Hint Rewrite @zlen_nil @zlen_cons @zlen_app @zlen_rev @zlen_reverse
  @zlen_take @zlen_drop @zlen_replicate : zlen.

(** ** Vectors: the [std::vector] and [<cstring>] operations the code uses *)

(** [v.resize(n)]: truncates or appends value-initialised elements. *)
Definition vec_resize {A} (dflt : A) (n : Z) (l : list A) : list A :=
  take (Z.to_nat n) l ++ replicate (Z.to_nat n - length l)%nat dflt.

(** [memcpy(v.data() + off, src, n)] with the whole destination in range. *)
Definition overwrite {A} (off : Z) (src l : list A) : list A :=
  take (Z.to_nat off) l ++ src ++ drop (Z.to_nat off + length src) l.

(** The [n] elements from [off]: what [memcpy] reads from there. *)
Definition slice {A} (off n : Z) (l : list A) : list A :=
  take (Z.to_nat n) (drop (Z.to_nat off) l).

Section vec_lemmas.
Context {A : Type}.
Implicit Types l k : list A.

Lemma zlen_vec_resize d n l : 0 <= n -> zlen (vec_resize d n l) = n.
Proof. intros. unfold vec_resize, zlen. rewrite length_app, length_take, length_replicate. lia. Qed.

Lemma vec_resize_grow d n l :
  zlen l <= n -> vec_resize d n l = l ++ replicate (Z.to_nat (n - zlen l)) d.
Proof.
  unfold vec_resize, zlen. intros. rewrite take_ge by lia. do 2 f_equal. lia.
Qed.

Lemma zlen_overwrite off k l :
  0 <= off -> off + zlen k <= zlen l -> zlen (overwrite off k l) = zlen l.
Proof.
  unfold overwrite, zlen. rewrite !length_app, length_take, length_drop. lia.
Qed.

(** [resize(old + n)] followed by [memcpy] to the old end appends. *)
Lemma overwrite_resize_app d k l :
  overwrite (zlen l) k (vec_resize d (zlen l + zlen k) l) = l ++ k.
Proof.
  pose proof (zlen_nonneg k).
  rewrite vec_resize_grow by lia.
  unfold overwrite, zlen. rewrite Nat2Z.id.
  rewrite take_app_length, drop_ge, app_nil_r; [done|].
  rewrite length_app, length_replicate. lia.
Qed.

Lemma zlen_slice off n l :
  0 <= off -> 0 <= n -> off + n <= zlen l -> zlen (slice off n l) = n.
Proof. unfold slice, zlen. rewrite length_take, length_drop. lia. Qed.

Lemma slice_app_length l k r :
  slice (zlen l) (zlen k) (l ++ k ++ r) = k.
Proof. unfold slice. by rewrite drop_zlen_app, take_zlen_app. Qed.

Lemma slice_0 l n : slice 0 n l = take (Z.to_nat n) l.
Proof. done. Qed.

Lemma Forall_slice (P : A -> Prop) off n l : Forall P l -> Forall P (slice off n l).
Proof. intros. by apply Forall_take, Forall_drop. Qed.

Lemma Forall_vec_resize (P : A -> Prop) d n l :
  P d -> Forall P l -> Forall P (vec_resize d n l).
Proof. intros. apply Forall_app. split; [by apply Forall_take|by apply Forall_replicate]. Qed.

Lemma Forall_overwrite (P : A -> Prop) off k l :
  Forall P k -> Forall P l -> Forall P (overwrite off k l).
Proof.
  intros. unfold overwrite. rewrite !Forall_app.
  split_and!; auto using Forall_take, Forall_drop.
Qed.
End vec_lemmas.

(** Normalises [Z] lengths everywhere, then calls [lia]. *)
Ltac zlia := repeat autorewrite with zlen in *; lia.

(** Case analysis on the boolean and [decide] tests of an executable
    definition, turning integer comparisons into propositions for [lia]. *)
Ltac split_if :=
  match goal with
  | |- context [if ?b then _ else _] =>
      lazymatch b with
      | context [if _ then _ else _] => fail
      | _ => let E := fresh "E" in destruct b eqn:E
      end
  end.

Ltac bool_to_prop :=
  repeat match goal with
  | H : (_ <? _) = true |- _ => apply Z.ltb_lt in H
  | H : (_ <? _) = false |- _ => apply Z.ltb_ge in H
  | H : (_ <=? _) = true |- _ => apply Z.leb_le in H
  | H : (_ <=? _) = false |- _ => apply Z.leb_gt in H
  | H : (_ =? _) = true |- _ => apply Z.eqb_eq in H
  | H : (_ =? _) = false |- _ => apply Z.eqb_neq in H
  | H : (_ && _) = true |- _ => apply andb_prop in H as [? ?]
  | H : (_ || _) = false |- _ => apply orb_false_elim in H as [? ?]
  | H : negb _ = true |- _ => apply negb_true_iff in H
  | H : negb _ = false |- _ => apply negb_false_iff in H
  end.
