(* ===== verification/Machine.v ===== *)
(** * Machine integers and object representations

    The fixed width integers of [<cstdint>], [size_t], the byte order macros
    of [<endian.h>] and the object representation [std::memcpy] sees. *)

From S2P Require Import Prelude.

(** ** Fixed width integers: a [w]-bit value is a [Z], casts wrap around *)

Definition wrap (w z : Z) : Z := z mod 2 ^ w.
Definition u8 : Z -> Z := wrap 8.
Definition u16 : Z -> Z := wrap 16.
Definition u32 : Z -> Z := wrap 32.
Definition u64 : Z -> Z := wrap 64.

(** [static_cast<intN_t>] of an unsigned value of the same width. *)
Definition to_signed (w z : Z) : Z := if z <? 2 ^ (w - 1) then z else z - 2 ^ w.

Definition size_max : Z := 2 ^ 64.
Definition size_add (a b : Z) : Z := (a + b) mod size_max.
Definition size_sub (a b : Z) : Z := (a - b) mod size_max.

Definition byte_ok (b : Z) : Prop := 0 <= b < 256.
Abbreviation bytes_ok := (Forall byte_ok).

#[export] Instance byte_ok_dec b : Decision (byte_ok b).
Proof. unfold byte_ok. apply _. Defined.

(** ** Byte sequences of an integer, least significant byte first *)

Fixpoint le_bytes (n : nat) (v : Z) : list Z :=
  match n with
  | O => []
  | S n => v mod 256 :: le_bytes n (v / 256)
  end.

Fixpoint of_le_bytes (bs : list Z) : Z :=
  match bs with
  | [] => 0
  | b :: bs => b + 256 * of_le_bytes bs
  end.

Definition be_bytes (n : nat) (v : Z) : list Z := rev (le_bytes n v).
Definition of_be_bytes (bs : list Z) : Z := of_le_bytes (rev bs).

(** ** The host

    Byte order is the one implementation-defined property of the host the
    buffer code depends on; every theorem holds for both orders. *)

Inductive endian := little | big.
Class Host := host_endian : endian.

Section host.
Context {host : Host}.

(** The bytes [std::memcpy] copies out of (into) an [n]-byte unsigned object. *)
Definition object_bytes (n : nat) (v : Z) : list Z :=
  match host_endian with little => le_bytes n v | big => be_bytes n v end.

Definition object_value (bs : list Z) : Z :=
  match host_endian with little => of_le_bytes bs | big => of_be_bytes bs end.

Definition bswap (n : nat) (v : Z) : Z := of_be_bytes (le_bytes n v).

(** [htobe16/32/64], [htole16/32/64] and their inverses, [n] in bytes. *)
Definition htobe (n : nat) (v : Z) : Z :=
  match host_endian with little => bswap n v | big => v end.
Definition htole (n : nat) (v : Z) : Z :=
  match host_endian with little => v | big => bswap n v end.
Definition betoh : nat -> Z -> Z := htobe.
Definition letoh : nat -> Z -> Z := htole.
End host.

(** ** Lemmas *)

Section le_lemmas.

Lemma length_le_bytes n v : length (le_bytes n v) = n.
Proof. revert v; induction n; simpl; auto. Qed.

Lemma zlen_le_bytes n v : zlen (le_bytes n v) = Z.of_nat n.
Proof. unfold zlen. by rewrite length_le_bytes. Qed.

Lemma zlen_be_bytes n v : zlen (be_bytes n v) = Z.of_nat n.
Proof. unfold be_bytes. by rewrite zlen_rev, zlen_le_bytes. Qed.

Lemma le_bytes_ok n v : bytes_ok (le_bytes n v).
Proof.
  revert v; induction n as [|n IH]; intros v; simpl; constructor; [|apply IH].
  apply Z.mod_pos_bound. lia.
Qed.

Lemma be_bytes_ok n v : bytes_ok (be_bytes n v).
Proof. apply Forall_rev, le_bytes_ok. Qed.

Lemma of_le_bytes_app bs cs :
  of_le_bytes (bs ++ cs) = of_le_bytes bs + 256 ^ zlen bs * of_le_bytes cs.
Proof.
  induction bs as [|b bs IH]; simpl; [rewrite zlen_nil; lia|].
  rewrite IH, zlen_cons, Z.pow_add_r by (pose proof (zlen_nonneg bs); lia). lia.
Qed.

Lemma of_le_bytes_range bs :
  bytes_ok bs -> 0 <= of_le_bytes bs < 256 ^ zlen bs.
Proof.
  induction 1 as [|b bs Hb Hbs IH]; simpl; [rewrite zlen_nil; lia|].
  rewrite zlen_cons, Z.pow_add_r by (pose proof (zlen_nonneg bs); lia).
  unfold byte_ok in Hb. lia.
Qed.

Lemma of_le_le_bytes n v : of_le_bytes (le_bytes n v) = v mod 256 ^ Z.of_nat n.
Proof.
  revert v; induction n as [|n IH]; intros v; simpl le_bytes; simpl of_le_bytes.
  - by rewrite Z.mod_1_r.
  - rewrite IH, Nat2Z.inj_succ, Z.pow_succ_r, Z.rem_mul_r by lia. lia.
Qed.

Lemma le_of_le_bytes bs : bytes_ok bs -> le_bytes (length bs) (of_le_bytes bs) = bs.
Proof.
  induction 1 as [|b bs Hb Hbs IH]; simpl; [done|].
  unfold byte_ok in Hb.
  rewrite (Z.mul_comm 256), Z.mod_add, Z.mod_small, Z.div_add, Z.div_small by lia.
  by rewrite Z.add_0_l, IH.
Qed.

Lemma le_bytes_inj n v w :
  0 <= v < 256 ^ Z.of_nat n -> 0 <= w < 256 ^ Z.of_nat n ->
  le_bytes n v = le_bytes n w -> v = w.
Proof.
  intros Hv Hw E. apply (f_equal of_le_bytes) in E.
  by rewrite !of_le_le_bytes, !Z.mod_small in E by lia.
Qed.

Lemma le_bytes_mod n v : le_bytes n (v mod 256 ^ Z.of_nat n) = le_bytes n v.
Proof.
  rewrite <- of_le_le_bytes.
  rewrite <- (le_of_le_bytes (le_bytes n v)) at 2 by apply le_bytes_ok.
  by rewrite length_le_bytes.
Qed.

Lemma be_bytes_u16 v : be_bytes 2 (u16 v) = be_bytes 2 v.
Proof. unfold be_bytes. f_equal. apply (le_bytes_mod 2). Qed.

Lemma of_be_be_bytes n v : of_be_bytes (be_bytes n v) = v mod 256 ^ Z.of_nat n.
Proof. unfold of_be_bytes, be_bytes. by rewrite rev_involutive, of_le_le_bytes. Qed.

Lemma be_of_be_bytes bs : bytes_ok bs -> be_bytes (length bs) (of_be_bytes bs) = bs.
Proof.
  intros H. unfold be_bytes, of_be_bytes.
  rewrite <- (length_rev bs), le_of_le_bytes by (by apply Forall_rev).
  apply rev_involutive.
Qed.

(** A 16-bit value is two bytes on the wire. *)
Lemma be_pair v :
  0 <= v < 2 ^ 16 ->
  exists h l, be_bytes 2 v = [h; l] /\ byte_ok h /\ byte_ok l /\ of_be_bytes [h; l] = v.
Proof.
  intros Hv. pose proof (be_bytes_ok 2 v) as Hok. pose proof (of_be_be_bytes 2 v) as E.
  rewrite Z.mod_small in E by lia.
  unfold be_bytes in *. cbn [le_bytes rev app] in *. rewrite !Forall_cons in Hok.
  destruct_and!. eauto 10.
Qed.

Lemma be_pair_inv h l : byte_ok h -> byte_ok l -> be_bytes 2 (of_be_bytes [h; l]) = [h; l].
Proof. intros. apply (be_of_be_bytes [h; l]). by rewrite !Forall_cons. Qed.

Lemma of_be_bytes_range bs :
  bytes_ok bs -> 0 <= of_be_bytes bs < 256 ^ zlen bs.
Proof.
  intros H. rewrite <- zlen_rev. by apply of_le_bytes_range, Forall_rev.
Qed.
End le_lemmas.

#[export] Hint Rewrite zlen_le_bytes zlen_be_bytes : zlen.
#[export] Hint Resolve le_bytes_ok be_bytes_ok : core.

Section host_lemmas.
Context {host : Host}.

Lemma le_bytes_bswap n v : le_bytes n (bswap n v) = be_bytes n v.
Proof.
  unfold bswap, of_be_bytes. fold (be_bytes n v).
  rewrite <- (le_of_le_bytes (be_bytes n v)) at 2 by done.
  unfold be_bytes. by rewrite length_rev, length_le_bytes.
Qed.

Lemma object_bytes_htobe n v : object_bytes n (htobe n v) = be_bytes n v.
Proof.
  unfold object_bytes, htobe. destruct host_endian; [apply le_bytes_bswap|done].
Qed.

Lemma object_bytes_htole n v : object_bytes n (htole n v) = le_bytes n v.
Proof.
  unfold object_bytes, htole. destruct host_endian; [done|].
  unfold be_bytes. rewrite le_bytes_bswap. apply rev_involutive.
Qed.

Lemma betoh_object_value bs :
  bytes_ok bs -> betoh (length bs) (object_value bs) = of_be_bytes bs.
Proof.
  intros H. unfold betoh, htobe, object_value. destruct host_endian; [|done].
  unfold bswap. by rewrite le_of_le_bytes.
Qed.

Lemma letoh_object_value bs :
  bytes_ok bs -> letoh (length bs) (object_value bs) = of_le_bytes bs.
Proof.
  intros H. unfold letoh, htole, object_value. destruct host_endian; [done|].
  unfold bswap, of_be_bytes.
  rewrite <- (length_rev bs), le_of_le_bytes by (by apply Forall_rev).
  by rewrite rev_involutive.
Qed.
End host_lemmas.

(** Two's complement: casting to unsigned and back is the identity on the
    signed range. *)
Lemma to_signed_wrap w z :
  1 <= w -> - 2 ^ (w - 1) <= z < 2 ^ (w - 1) -> to_signed w (wrap w z) = z.
Proof.
  intros Hw Hz. unfold to_signed, wrap.
  assert (2 ^ w = 2 * 2 ^ (w - 1)) as E.
  { rewrite <- Z.pow_succ_r by lia. f_equal. lia. }
  destruct (decide (0 <= z)).
  - rewrite Z.mod_small by lia. destruct (Z.ltb_spec z (2 ^ (w - 1))); lia.
  - rewrite <- (Z.mod_add z 1), Z.mod_small by lia.
    destruct (Z.ltb_spec (z + 1 * 2 ^ w) (2 ^ (w - 1))); lia.
Qed.

Lemma wrap_small w z : 0 <= z < 2 ^ w -> wrap w z = z.
Proof. apply Z.mod_small. Qed.

Lemma wrap_range w z : 0 <= w -> 0 <= wrap w z < 2 ^ w.
Proof. intros. apply Z.mod_pos_bound, Z.pow_pos_nonneg; lia. Qed.

Lemma size_add_small a b : 0 <= a + b < size_max -> size_add a b = a + b.
Proof. apply Z.mod_small. Qed.

Lemma size_sub_small a b : 0 <= b <= a -> a < size_max -> size_sub a b = a - b.
Proof. intros. apply Z.mod_small. lia. Qed.

(** ** Facts about single bytes, by exhaustive evaluation *)

Definition all_bytes : list Z := seqZ 0 256.

Lemma byte_forall (P : Z -> bool) b :
  forallb P all_bytes = true -> byte_ok b -> P b = true.
Proof.
  rewrite forallb_forall. intros H Hb. apply H.
  apply list_elem_of_In, elem_of_seqZ. unfold byte_ok in Hb. lia.
Qed.

(** [std::toupper] and [std::tolower] in the "C" locale. *)
Definition toupper (c : Z) : Z := if (97 <=? c) && (c <=? 122) then c - 32 else c.
Definition tolower (c : Z) : Z := if (65 <=? c) && (c <=? 90) then c + 32 else c.
