(* ===== verification/ByteBuffer.v ===== *)
(** * ByteBuffer (src/common/packet/ByteBuffer.hpp)

    The growable byte buffer every packet payload lives in: typed writers
    append the object representation of a value after a byte order
    conversion, typed readers check the remaining length, copy the bytes back
    and advance [read_pos_].

    Log lines are not part of the state; the text [check_read] logs is
    [check_read_log].  Exhaustion of memory ([std::bad_alloc],
    [std::length_error]) is not modelled. *)

From S2P Require Import Prelude Machine.

Record ByteBuffer := mkByteBuffer { buffer_ : list Z; read_pos_ : Z }.

(** [ByteBuffer()] and [explicit ByteBuffer(const std::vector<uint8_t>&)]. *)
Definition ByteBuffer_default : ByteBuffer := mkByteBuffer [] 0.
Definition ByteBuffer_of (data : list Z) : ByteBuffer := mkByteBuffer data 0.

(** A [float] ([double]) is its 32 (64) bit object representation. *)
Record float := Float { float_bits : Z }.
Record double := Double { double_bits : Z }.

(** ** Diagnostics *)

Inductive ReadSource :=
| READ_UINT8 | READ_INT8
| READ_UINT16_BE | READ_UINT32_BE | READ_UINT64_BE
| READ_INT16_BE | READ_INT32_BE | READ_INT64_BE
| READ_FLOAT_BE | READ_DOUBLE_BE
| READ_UINT16_LE | READ_UINT32_LE | READ_UINT64_LE
| READ_INT16_LE | READ_INT32_LE | READ_INT64_LE
| READ_FLOAT_LE | READ_DOUBLE_LE
| READ_BOOL | READ_STRING_RAW | READ_BYTES | SKIP | READ_FIELD | UNKNOWN.

Definition read_source_to_string (source : ReadSource) : string :=
  match source with
  | READ_UINT8 => "read_uint8"
  | READ_INT8 => "read_int8"
  | READ_UINT16_BE => "read_uint16_be"
  | READ_UINT32_BE => "read_uint32_be"
  | READ_UINT64_BE => "read_uint64_be"
  | READ_INT16_BE => "read_int16_be"
  | READ_INT32_BE => "read_int32_be"
  | READ_INT64_BE => "read_int64_be"
  | READ_FLOAT_BE => "read_float_be"
  | READ_DOUBLE_BE => "read_double_be"
  | READ_UINT16_LE => "read_uint16_le"
  | READ_UINT32_LE => "read_uint32_le"
  | READ_UINT64_LE => "read_uint64_le"
  | READ_INT16_LE => "read_int16_le"
  | READ_INT32_LE => "read_int32_le"
  | READ_INT64_LE => "read_int64_le"
  | READ_FLOAT_LE => "read_float_le"
  | READ_DOUBLE_LE => "read_double_le"
  | READ_BOOL => "read_bool"
  | READ_STRING_RAW => "read_string_raw"
  | READ_BYTES => "read_bytes"
  | SKIP => "skip"
  | READ_FIELD => "ReadField"
  | UNKNOWN => "unknown"
  end.

Definition size (b : ByteBuffer) : Z := zlen (buffer_ b).
Definition data (b : ByteBuffer) : list Z := buffer_ b.
Definition read_pos (b : ByteBuffer) : Z := read_pos_ b.

(** The line [check_read] logs before it throws. *)
Definition check_read_log (sz : Z) (source : ReadSource) (b : ByteBuffer) : string :=
  "[ByteBuffer] Not enough data! Source: " +:+ read_source_to_string source
  +:+ " | Wanted: " +:+ pretty sz +:+ " bytes | ReadPos: " +:+ pretty (read_pos_ b)
  +:+ " | BufferSize: " +:+ pretty (size b).

(** [read_pos_ + size] is computed in [size_t] and wraps around. *)
Definition check_read (sz : Z) (source : ReadSource) : M ByteBuffer unit := fun b =>
  if size b <? size_add (read_pos_ b) sz
  then (Throw (out_of_range "ByteBuffer: not enough data to read"), b)
  else (Ok tt, b).

Section bytebuffer.
Context {host : Host}.

(** ** Write methods *)

(** [write_bytes(const uint8_t*, size_t)]: resize, then copy to the old end. *)
Definition write_bytes (bytes : list Z) (b : ByteBuffer) : ByteBuffer :=
  let old_size := size b in
  mkByteBuffer (overwrite old_size bytes (vec_resize 0 (old_size + zlen bytes) (buffer_ b)))
    (read_pos_ b).

Definition push_back (v : Z) (b : ByteBuffer) : ByteBuffer :=
  mkByteBuffer (buffer_ b ++ [v]) (read_pos_ b).

Definition write_uint8 (value : Z) : ByteBuffer -> ByteBuffer := push_back (u8 value).
Definition write_int8 (value : Z) : ByteBuffer -> ByteBuffer := push_back (u8 value).

Definition write_uint16_be (value : Z) : ByteBuffer -> ByteBuffer :=
  let be := htobe 2 value in write_bytes (object_bytes 2 be).
Definition write_int16_be (value : Z) : ByteBuffer -> ByteBuffer := write_uint16_be (u16 value).
Definition write_uint32_be (value : Z) : ByteBuffer -> ByteBuffer :=
  let be := htobe 4 value in write_bytes (object_bytes 4 be).
Definition write_int32_be (value : Z) : ByteBuffer -> ByteBuffer := write_uint32_be (u32 value).
Definition write_uint64_be (value : Z) : ByteBuffer -> ByteBuffer :=
  let be := htobe 8 value in write_bytes (object_bytes 8 be).
Definition write_int64_be (value : Z) : ByteBuffer -> ByteBuffer := write_uint64_be (u64 value).
Definition write_float_be (value : float) : ByteBuffer -> ByteBuffer :=
  write_uint32_be (float_bits value).
Definition write_double_be (value : double) : ByteBuffer -> ByteBuffer :=
  write_uint64_be (double_bits value).

Definition write_uint16_le (value : Z) : ByteBuffer -> ByteBuffer :=
  let le := htole 2 value in write_bytes (object_bytes 2 le).
Definition write_int16_le (value : Z) : ByteBuffer -> ByteBuffer := write_uint16_le (u16 value).
Definition write_uint32_le (value : Z) : ByteBuffer -> ByteBuffer :=
  let le := htole 4 value in write_bytes (object_bytes 4 le).
Definition write_int32_le (value : Z) : ByteBuffer -> ByteBuffer := write_uint32_le (u32 value).
Definition write_uint64_le (value : Z) : ByteBuffer -> ByteBuffer :=
  let le := htole 8 value in write_bytes (object_bytes 8 le).
Definition write_int64_le (value : Z) : ByteBuffer -> ByteBuffer := write_uint64_le (u64 value).
Definition write_float_le (value : float) : ByteBuffer -> ByteBuffer :=
  write_uint32_le (float_bits value).
Definition write_double_le (value : double) : ByteBuffer -> ByteBuffer :=
  write_uint64_le (double_bits value).

Definition write_bool (value : bool) : ByteBuffer -> ByteBuffer :=
  push_back (if value then 1 else 0).

(** A [std::string] is the list of its bytes. *)
Definition write_string_raw_be (str : list Z) : ByteBuffer -> ByteBuffer := write_bytes str.
Definition write_string_raw_le (str : list Z) : ByteBuffer -> ByteBuffer :=
  let reversed_str := rev str in write_bytes reversed_str.
Definition write_string_nt_be (str : list Z) (b : ByteBuffer) : ByteBuffer :=
  write_uint8 0 (write_string_raw_be str b).
Definition write_string_nt_le (str : list Z) (b : ByteBuffer) : ByteBuffer :=
  write_uint8 0 (write_string_raw_le str b).

(** ** Read methods *)

(** [read_pos_ += n], in [size_t]. *)
Definition advance (n : Z) : M ByteBuffer unit := modify (fun b =>
  mkByteBuffer (buffer_ b) (size_add (read_pos_ b) n)).

(** [std::memcpy(dst, &buffer_[read_pos_], n)]: forming the reference needs
    [read_pos_ < size()], the copy needs [n] bytes from there. *)
Definition copy_from_buffer (n : Z) : M ByteBuffer (list Z) := fun b =>
  if (read_pos_ b <? size b) && (read_pos_ b + n <=? size b)
  then (Ok (slice (read_pos_ b) n (buffer_ b)), b)
  else (Undef, b).

(** [buffer_[read_pos_++]]. *)
Definition next_byte : M ByteBuffer Z := fun b =>
  match buffer_ b !! Z.to_nat (read_pos_ b) with
  | Some v => (Ok v, mkByteBuffer (buffer_ b) (size_add (read_pos_ b) 1))
  | None => (Undef, b)
  end.

Definition read_uint8 : M ByteBuffer Z :=
  do! check_read 1 READ_UINT8 in next_byte.
Definition read_int8 : M ByteBuffer Z :=
  let! v := read_uint8 in ret (to_signed 8 v).

(** The common body of the multi-byte readers: check, copy, advance. *)
Definition read_object (n : nat) (source : ReadSource) : M ByteBuffer Z :=
  do! check_read (Z.of_nat n) source in
  let! bytes := copy_from_buffer (Z.of_nat n) in
  do! advance (Z.of_nat n) in
  ret (object_value bytes).

Definition read_uint16_be : M ByteBuffer Z :=
  let! be := read_object 2 READ_UINT16_BE in ret (betoh 2 be).
Definition read_int16_be : M ByteBuffer Z :=
  let! v := read_uint16_be in ret (to_signed 16 v).
Definition read_uint32_be : M ByteBuffer Z :=
  let! be := read_object 4 READ_UINT32_BE in ret (betoh 4 be).
Definition read_int32_be : M ByteBuffer Z :=
  let! v := read_uint32_be in ret (to_signed 32 v).
Definition read_uint64_be : M ByteBuffer Z :=
  let! be := read_object 8 READ_UINT64_BE in ret (betoh 8 be).
Definition read_int64_be : M ByteBuffer Z :=
  let! v := read_uint64_be in ret (to_signed 64 v).
Definition read_float_be : M ByteBuffer float :=
  let! int_val := read_uint32_be in ret (Float int_val).
Definition read_double_be : M ByteBuffer double :=
  let! int_val := read_uint64_be in ret (Double int_val).

Definition read_uint16_le : M ByteBuffer Z :=
  let! le := read_object 2 READ_UINT16_LE in ret (letoh 2 le).
Definition read_int16_le : M ByteBuffer Z :=
  let! v := read_uint16_le in ret (to_signed 16 v).
Definition read_uint32_le : M ByteBuffer Z :=
  let! le := read_object 4 READ_UINT32_LE in ret (letoh 4 le).
Definition read_int32_le : M ByteBuffer Z :=
  let! v := read_uint32_le in ret (to_signed 32 v).
Definition read_uint64_le : M ByteBuffer Z :=
  let! le := read_object 8 READ_UINT64_LE in ret (letoh 8 le).
Definition read_int64_le : M ByteBuffer Z :=
  let! v := read_uint64_le in ret (to_signed 64 v).
Definition read_float_le : M ByteBuffer float :=
  let! int_val := read_uint32_le in ret (Float int_val).
Definition read_double_le : M ByteBuffer double :=
  let! int_val := read_uint64_le in ret (Double int_val).

Definition read_bool : M ByteBuffer bool :=
  do! check_read 1 READ_BOOL in
  let! v := read_uint8 in ret (negb (v =? 0)).

(** The vector is built from two iterators: both must be in range. *)
Definition read_bytes (length : Z) : M ByteBuffer (list Z) :=
  do! check_read length READ_BYTES in
  let! b := get in
  if (read_pos_ b <=? size b) && (read_pos_ b + length <=? size b)
  then do! advance length in ret (slice (read_pos_ b) length (buffer_ b))
  else undef.

Definition read_string_raw_be (length : Z) : M ByteBuffer (list Z) :=
  do! check_read length READ_STRING_RAW in
  let! str := copy_from_buffer length in
  do! advance length in
  ret str.

Definition read_string_raw_le (length : Z) : M ByteBuffer (list Z) :=
  do! check_read length READ_STRING_RAW in
  let! str := copy_from_buffer length in
  do! advance length in
  ret (rev str).

(** [while (read_pos_ < buffer_.size()) { c = buffer_[read_pos_++];
    if (c == 0) break; str += c; }].  Each iteration advances [read_pos_], so
    [size - read_pos_] iterations are always enough. *)
Fixpoint read_nt_loop (fuel : nat) (str : list Z) : M ByteBuffer (list Z) := fun b =>
  match fuel with
  | O => (Ok str, b)
  | S fuel =>
      if read_pos_ b <? size b then
        (let! c := next_byte in
         if c =? 0 then ret str else read_nt_loop fuel (str ++ [c])) b
      else (Ok str, b)
  end.

Definition nt_fuel (b : ByteBuffer) : nat := Z.to_nat (size b - read_pos_ b).

Definition read_string_nt_be : M ByteBuffer (list Z) := fun b =>
  read_nt_loop (nt_fuel b) [] b.

Definition read_string_nt_le : M ByteBuffer (list Z) := fun b =>
  (let! str := read_nt_loop (nt_fuel b) [] in ret (rev str)) b.

(** ** Utility methods *)

Definition skip (bytes : Z) : M ByteBuffer unit :=
  do! check_read bytes SKIP in advance bytes.

Definition clear (b : ByteBuffer) : ByteBuffer := mkByteBuffer [] 0.
Definition reset_read (b : ByteBuffer) : ByteBuffer := mkByteBuffer (buffer_ b) 0.
End bytebuffer.

(** ** Reference wire format

    What the typed methods promise: every kind of field has an encoding that
    does not depend on the host, and a value domain. *)

Inductive value :=
| VInt (z : Z)
| VFloat (f : float)
| VDouble (d : double)
| VBool (v : bool)
| VBytes (l : list Z).

Inductive order := BE | LE.

Inductive kind :=
| KU8 | KI8
| KU16 (o : order) | KI16 (o : order)
| KU32 (o : order) | KI32 (o : order)
| KU64 (o : order) | KI64 (o : order)
| KFloat (o : order) | KDouble (o : order)
| KBool
| KRaw (o : order) (length : Z)
| KNt (o : order)
| KBytes (length : Z).

Definition enc_int (o : order) (n : nat) (v : Z) : list Z :=
  match o with BE => be_bytes n v | LE => le_bytes n v end.
Definition dec_int (o : order) (bs : list Z) : Z :=
  match o with BE => of_be_bytes bs | LE => of_le_bytes bs end.
Definition enc_str (o : order) (s : list Z) : list Z :=
  match o with BE => s | LE => rev s end.

Definition encode (k : kind) (v : value) : list Z :=
  match k, v with
  | (KU8 | KI8), VInt z => le_bytes 1 z
  | (KU16 o | KI16 o), VInt z => enc_int o 2 z
  | (KU32 o | KI32 o), VInt z => enc_int o 4 z
  | (KU64 o | KI64 o), VInt z => enc_int o 8 z
  | KFloat o, VFloat f => enc_int o 4 (float_bits f)
  | KDouble o, VDouble d => enc_int o 8 (double_bits d)
  | KBool, VBool v => [if v then 1 else 0]
  | KRaw o _, VBytes s => enc_str o s
  | KNt o, VBytes s => enc_str o s ++ [0]
  | KBytes _, VBytes s => s
  | _, _ => []
  end.

Definition in_unsigned (w z : Z) : Prop := 0 <= z < 2 ^ w.
Definition in_signed (w z : Z) : Prop := - 2 ^ (w - 1) <= z < 2 ^ (w - 1).

(** The values a field of each kind carries: the range of its C++ type, the
    announced length, no NUL inside a NUL-terminated string. *)
Definition in_domain (k : kind) (v : value) : Prop :=
  match k, v with
  | KU8, VInt z => in_unsigned 8 z
  | KI8, VInt z => in_signed 8 z
  | KU16 _, VInt z => in_unsigned 16 z
  | KI16 _, VInt z => in_signed 16 z
  | KU32 _, VInt z => in_unsigned 32 z
  | KI32 _, VInt z => in_signed 32 z
  | KU64 _, VInt z => in_unsigned 64 z
  | KI64 _, VInt z => in_signed 64 z
  | KFloat _, VFloat f => in_unsigned 32 (float_bits f)
  | KDouble _, VDouble d => in_unsigned 64 (double_bits d)
  | KBool, VBool _ => True
  | KRaw _ n, VBytes s => zlen s = n /\ 0 < n /\ bytes_ok s
  | KNt _, VBytes s => Forall (fun c => c <> 0) s /\ bytes_ok s
  | KBytes n, VBytes s => zlen s = n /\ bytes_ok s
  | _, _ => False
  end.

Section fields.
Context {host : Host}.

(** The method that writes (reads) a field of each kind. *)
Definition write_kind (k : kind) (v : value) : ByteBuffer -> ByteBuffer :=
  match k, v with
  | KU8, VInt z => write_uint8 z
  | KI8, VInt z => write_int8 z
  | KU16 BE, VInt z => write_uint16_be z
  | KU16 LE, VInt z => write_uint16_le z
  | KI16 BE, VInt z => write_int16_be z
  | KI16 LE, VInt z => write_int16_le z
  | KU32 BE, VInt z => write_uint32_be z
  | KU32 LE, VInt z => write_uint32_le z
  | KI32 BE, VInt z => write_int32_be z
  | KI32 LE, VInt z => write_int32_le z
  | KU64 BE, VInt z => write_uint64_be z
  | KU64 LE, VInt z => write_uint64_le z
  | KI64 BE, VInt z => write_int64_be z
  | KI64 LE, VInt z => write_int64_le z
  | KFloat BE, VFloat f => write_float_be f
  | KFloat LE, VFloat f => write_float_le f
  | KDouble BE, VDouble d => write_double_be d
  | KDouble LE, VDouble d => write_double_le d
  | KBool, VBool b => write_bool b
  | KRaw BE _, VBytes s => write_string_raw_be s
  | KRaw LE _, VBytes s => write_string_raw_le s
  | KNt BE, VBytes s => write_string_nt_be s
  | KNt LE, VBytes s => write_string_nt_le s
  | KBytes _, VBytes s => write_bytes s
  | _, _ => fun b => b
  end.

Definition read_kind (k : kind) : M ByteBuffer value :=
  match k with
  | KU8 => let! z := read_uint8 in ret (VInt z)
  | KI8 => let! z := read_int8 in ret (VInt z)
  | KU16 BE => let! z := read_uint16_be in ret (VInt z)
  | KU16 LE => let! z := read_uint16_le in ret (VInt z)
  | KI16 BE => let! z := read_int16_be in ret (VInt z)
  | KI16 LE => let! z := read_int16_le in ret (VInt z)
  | KU32 BE => let! z := read_uint32_be in ret (VInt z)
  | KU32 LE => let! z := read_uint32_le in ret (VInt z)
  | KI32 BE => let! z := read_int32_be in ret (VInt z)
  | KI32 LE => let! z := read_int32_le in ret (VInt z)
  | KU64 BE => let! z := read_uint64_be in ret (VInt z)
  | KU64 LE => let! z := read_uint64_le in ret (VInt z)
  | KI64 BE => let! z := read_int64_be in ret (VInt z)
  | KI64 LE => let! z := read_int64_le in ret (VInt z)
  | KFloat BE => let! f := read_float_be in ret (VFloat f)
  | KFloat LE => let! f := read_float_le in ret (VFloat f)
  | KDouble BE => let! d := read_double_be in ret (VDouble d)
  | KDouble LE => let! d := read_double_le in ret (VDouble d)
  | KBool => let! b := read_bool in ret (VBool b)
  | KRaw BE n => let! s := read_string_raw_be n in ret (VBytes s)
  | KRaw LE n => let! s := read_string_raw_le n in ret (VBytes s)
  | KNt BE => let! s := read_string_nt_be in ret (VBytes s)
  | KNt LE => let! s := read_string_nt_le in ret (VBytes s)
  | KBytes n => let! s := read_bytes n in ret (VBytes s)
  end.

Definition write_fields (fs : list (kind * value)) (b : ByteBuffer) : ByteBuffer :=
  foldl (fun b f => write_kind f.1 f.2 b) b fs.

Fixpoint read_fields (ks : list kind) : M ByteBuffer (list value) :=
  match ks with
  | [] => ret []
  | k :: ks => let! v := read_kind k in let! vs := read_fields ks in ret (v :: vs)
  end.
End fields.

(** A buffer the readers can meet: byte contents, cursor inside, and the size
    within [std::vector<uint8_t>::max_size()]. *)
Definition max_vec : Z := 2 ^ 63.
Definition wf (b : ByteBuffer) : Prop :=
  bytes_ok (buffer_ b) /\ 0 <= read_pos_ b <= size b /\ size b < max_vec.

(** The bytes a reader of each kind asks for ([None]: up to the NUL). *)
Definition wanted (k : kind) : option Z :=
  match k with
  | KU8 | KI8 | KBool => Some 1
  | KU16 _ | KI16 _ => Some 2
  | KU32 _ | KI32 _ | KFloat _ => Some 4
  | KU64 _ | KI64 _ | KDouble _ => Some 8
  | KRaw _ n | KBytes n => Some n
  | KNt _ => None
  end.

(** ** Lemmas on the writers *)

Definition moved (b : ByteBuffer) (n : Z) : ByteBuffer :=
  mkByteBuffer (buffer_ b) (read_pos_ b + n).

Definition appended (b : ByteBuffer) (bs : list Z) : ByteBuffer :=
  mkByteBuffer (buffer_ b ++ bs) (read_pos_ b).

Lemma write_bytes_appended bs b : write_bytes bs b = appended b bs.
Proof. unfold write_bytes, size, appended. by rewrite overwrite_resize_app. Qed.

Lemma appended_appended b bs cs : appended (appended b bs) cs = appended b (bs ++ cs).
Proof. unfold appended. simpl. by rewrite app_assoc. Qed.

Lemma appended_nil b : appended b [] = b.
Proof. unfold appended. rewrite app_nil_r. by destruct b. Qed.

Lemma enc_int_wrap o n w v :
  w = 8 * Z.of_nat n -> enc_int o n (wrap w v) = enc_int o n v.
Proof.
  intros ->. unfold wrap. rewrite Z.pow_mul_r by lia. change (2 ^ 8) with 256.
  destruct o; unfold enc_int, be_bytes; by rewrite le_bytes_mod.
Qed.

Section write_lemmas.
Context {host : Host}.

Lemma write_object_be n v b :
  write_bytes (object_bytes n (htobe n v)) b = appended b (enc_int BE n v).
Proof. by rewrite object_bytes_htobe, write_bytes_appended. Qed.

Lemma write_object_le n v b :
  write_bytes (object_bytes n (htole n v)) b = appended b (enc_int LE n v).
Proof. by rewrite object_bytes_htole, write_bytes_appended. Qed.

(** Every writer unfolds to one append of an object representation. *)
Ltac unfold_writer :=
  cbv [write_kind write_float_be write_float_le write_double_be write_double_le
    write_int16_be write_int16_le write_int32_be write_int32_le
    write_int64_be write_int64_le write_uint16_be write_uint16_le
    write_uint32_be write_uint32_le write_uint64_be write_uint64_le
    write_string_nt_be write_string_nt_le write_string_raw_be write_string_raw_le
    write_uint8 write_int8 write_bool u16 u32 u64];
  rewrite ?write_object_be, ?write_object_le, ?write_bytes_appended.

Lemma write_kind_appended k v b :
  in_domain k v -> write_kind k v b = appended b (encode k v).
Proof.
  intros Hd.
  destruct k as [| |[]|[]|[]|[]|[]|[]|[]|[]| |[] n|[]|n], v; try (by destruct Hd);
    unfold_writer; rewrite ?enc_int_wrap by done; try done.
  all: cbn [encode]; by rewrite <- appended_appended.
Qed.

Lemma write_fields_appended fs b :
  Forall (fun f => in_domain f.1 f.2) fs ->
  write_fields fs b = appended b (concat (map (fun f => encode f.1 f.2) fs)).
Proof.
  intros H; revert b.
  induction H as [|[k v] fs Hf Hfs IH]; intros b; simpl; [by rewrite appended_nil|].
  by rewrite write_kind_appended, IH, appended_appended.
Qed.
End write_lemmas.

(** ** Lemmas on the readers *)
Lemma check_read_pass b n source :
  wf b -> 0 <= n -> read_pos_ b + n <= size b -> check_read n source b = (Ok tt, b).
Proof.
  intros (_ & Hp & Hs) Hn Hle. unfold check_read, max_vec in *.
  rewrite size_add_small by (unfold size_max; lia).
  destruct (Z.ltb_spec (size b) (read_pos_ b + n)); [lia|done].
Qed.

Definition not_enough {A} (b : ByteBuffer) : outcome A * ByteBuffer :=
  (Throw (out_of_range "ByteBuffer: not enough data to read"), b).

Lemma check_read_fail b n source :
  wf b -> n < max_vec -> size b < read_pos_ b + n -> check_read n source b = not_enough b.
Proof.
  intros (_ & Hp & Hs) Hn Hlt. unfold check_read, max_vec in *.
  rewrite size_add_small by (unfold size_max; lia).
  destruct (Z.ltb_spec (size b) (read_pos_ b + n)); [done|lia].
Qed.

Lemma advance_moved b n :
  wf b -> 0 <= n -> read_pos_ b + n <= size b -> advance n b = (Ok tt, moved b n).
Proof.
  intros (_ & Hp & Hs) Hn Hle. unfold advance, modify, moved, max_vec in *.
  rewrite size_add_small by (unfold size_max; lia). done.
Qed.

Lemma copy_from_buffer_ok b n :
  wf b -> 0 < n -> read_pos_ b + n <= size b ->
  copy_from_buffer n b = (Ok (slice (read_pos_ b) n (buffer_ b)), b).
Proof.
  intros (_ & Hp & Hs) Hn Hle. unfold copy_from_buffer.
  destruct (Z.ltb_spec (read_pos_ b) (size b)); [|lia].
  destruct (Z.leb_spec (read_pos_ b + n) (size b)); [done|lia].
Qed.

Lemma next_byte_ok b v :
  wf b -> buffer_ b !! Z.to_nat (read_pos_ b) = Some v ->
  next_byte b = (Ok v, moved b 1).
Proof.
  intros (_ & Hp & Hs) E. unfold next_byte, moved. rewrite E.
  apply lookup_lt_Some in E.
  rewrite size_add_small; [done|]. unfold size_max, max_vec, size, zlen in *. lia.
Qed.

Lemma ByteBuffer_of_wf l : bytes_ok l -> zlen l < max_vec -> wf (ByteBuffer_of l).
Proof.
  intros. pose proof (zlen_nonneg l). unfold wf, size. simpl. split_and!; auto; lia.
Qed.

Lemma moved_wf b n : wf b -> 0 <= n -> read_pos_ b + n <= size b -> wf (moved b n).
Proof. intros (? & ? & ?) ? ?. repeat split; simpl; auto; unfold size in *; simpl; lia. Qed.

Lemma slice_wf_ok b n : wf b -> bytes_ok (slice (read_pos_ b) n (buffer_ b)).
Proof. intros (? & _). by apply Forall_slice. Qed.

Lemma slice_wf_length b n :
  wf b -> 0 <= n -> read_pos_ b + n <= size b ->
  length (slice (read_pos_ b) n (buffer_ b)) = Z.to_nat n.
Proof.
  intros (_ & ? & ?) ? ?. pose proof (zlen_slice (read_pos_ b) n (buffer_ b)) as E.
  unfold size, zlen in *. lia.
Qed.

Lemma slice_1 b v :
  buffer_ b !! Z.to_nat (read_pos_ b) = Some v -> slice (read_pos_ b) 1 (buffer_ b) = [v].
Proof.
  intros E. unfold slice. rewrite (drop_S _ v) by done. done.
Qed.

Section read_lemmas.
Context {host : Host}.

Lemma read_object_short b n source :
  wf b -> Z.of_nat n < max_vec -> size b < read_pos_ b + Z.of_nat n ->
  read_object n source b = not_enough b.
Proof.
  intros. unfold read_object. eapply bind_throw. by apply check_read_fail.
Qed.

(** The check, copy and advance every fixed size reader goes through. *)
Lemma checked_copy {A} b n source (k : list Z -> M ByteBuffer A) :
  wf b -> 0 < n -> read_pos_ b + n <= size b ->
  (do! check_read n source in let! x := copy_from_buffer n in do! advance n in k x) b
  = k (slice (read_pos_ b) n (buffer_ b)) (moved b n).
Proof.
  intros. erewrite bind_ok by (apply check_read_pass; auto; lia).
  erewrite bind_ok by (apply copy_from_buffer_ok; auto; lia).
  by erewrite bind_ok by (apply advance_moved; auto; lia).
Qed.

Lemma read_object_ok b n source :
  wf b -> (0 < n)%nat -> read_pos_ b + Z.of_nat n <= size b ->
  read_object n source b
  = (Ok (object_value (slice (read_pos_ b) (Z.of_nat n) (buffer_ b))), moved b (Z.of_nat n)).
Proof. intros. unfold read_object. by rewrite checked_copy by (auto; lia). Qed.

(** The multi-byte readers decode the next [n] bytes in the wire's order. *)
Lemma read_object_be b n source :
  wf b -> (0 < n)%nat -> read_pos_ b + Z.of_nat n <= size b ->
  (let! be := read_object n source in ret (betoh n be)) b
  = (Ok (of_be_bytes (slice (read_pos_ b) (Z.of_nat n) (buffer_ b))), moved b (Z.of_nat n)).
Proof.
  intros Hb Hn Hle. erewrite bind_ok by (by apply read_object_ok).
  unfold ret. rewrite <- betoh_object_value by by apply slice_wf_ok.
  rewrite slice_wf_length, Nat2Z.id by (auto; lia). done.
Qed.

Lemma read_object_le b n source :
  wf b -> (0 < n)%nat -> read_pos_ b + Z.of_nat n <= size b ->
  (let! le := read_object n source in ret (letoh n le)) b
  = (Ok (of_le_bytes (slice (read_pos_ b) (Z.of_nat n) (buffer_ b))), moved b (Z.of_nat n)).
Proof.
  intros Hb Hn Hle. erewrite bind_ok by (by apply read_object_ok).
  unfold ret. rewrite <- letoh_object_value by by apply slice_wf_ok.
  rewrite slice_wf_length, Nat2Z.id by (auto; lia). done.
Qed.

Lemma read_uint8_ok b :
  wf b -> read_pos_ b + 1 <= size b ->
  read_uint8 b = (Ok (of_le_bytes (slice (read_pos_ b) 1 (buffer_ b))), moved b 1).
Proof.
  intros Hb Hle. unfold read_uint8.
  erewrite bind_ok by (apply check_read_pass; auto; lia).
  destruct (lookup_lt_is_Some_2 (buffer_ b) (Z.to_nat (read_pos_ b))) as [v E].
  { destruct Hb as (_ & ? & _). unfold size, zlen in *. lia. }
  rewrite (slice_1 _ _ E), (next_byte_ok _ _ Hb E). simpl. do 2 f_equal. lia.
Qed.

Lemma read_bytes_ok b n :
  wf b -> 0 <= n -> read_pos_ b + n <= size b ->
  read_bytes n b = (Ok (slice (read_pos_ b) n (buffer_ b)), moved b n).
Proof.
  intros Hb Hn Hle. unfold read_bytes.
  erewrite bind_ok by (by apply check_read_pass).
  erewrite bind_ok by done.
  destruct (Z.leb_spec (read_pos_ b) (size b)); [|lia].
  destruct (Z.leb_spec (read_pos_ b + n) (size b)); [|lia]. simpl.
  erewrite bind_ok by (by apply advance_moved). done.
Qed.

Lemma read_bytes_short b n :
  wf b -> n < max_vec -> size b < read_pos_ b + n -> read_bytes n b = not_enough b.
Proof. intros. unfold read_bytes. eapply bind_throw. by apply check_read_fail. Qed.

Lemma read_string_raw_be_ok b n :
  wf b -> 0 < n -> read_pos_ b + n <= size b ->
  read_string_raw_be n b = (Ok (slice (read_pos_ b) n (buffer_ b)), moved b n).
Proof.
  intros. unfold read_string_raw_be. by rewrite checked_copy.
Qed.

Lemma read_string_raw_le_ok b n :
  wf b -> 0 < n -> read_pos_ b + n <= size b ->
  read_string_raw_le n b = (Ok (rev (slice (read_pos_ b) n (buffer_ b))), moved b n).
Proof.
  intros. unfold read_string_raw_le. by rewrite checked_copy.
Qed.
Lemma read_string_raw_short b n :
  wf b -> n < max_vec -> size b < read_pos_ b + n ->
  read_string_raw_be n b = not_enough b /\ read_string_raw_le n b = not_enough b.
Proof.
  intros. unfold read_string_raw_be, read_string_raw_le.
  split; eapply bind_throw; by apply check_read_fail.
Qed.

(** The NUL-terminated readers. *)
Definition starts_with_nul_or_empty (rest : list Z) : Prop :=
  match rest with [] => True | c :: _ => c = 0 end.

Definition nul_width (rest : list Z) : Z := match rest with [] => 0 | _ => 1 end.

Lemma nul_width_range rest : 0 <= nul_width rest <= zlen rest.
Proof. destruct rest as [|? rest]; simpl; [done|pose proof (zlen_nonneg rest); zlia]. Qed.

Lemma lookup_at_cursor (b : ByteBuffer) pre c rest :
  buffer_ b = pre ++ c :: rest -> read_pos_ b = zlen pre ->
  buffer_ b !! Z.to_nat (read_pos_ b) = Some c.
Proof. intros -> ->. unfold zlen. rewrite Nat2Z.id. by apply list_lookup_middle. Qed.

Lemma size_at_cursor b pre s :
  buffer_ b = pre ++ s -> read_pos_ b = zlen pre -> size b = read_pos_ b + zlen s.
Proof. intros E ->. unfold size. rewrite E. zlia. Qed.

Lemma read_nt_loop_ok s : forall pre rest fuel str b,
  wf b -> buffer_ b = pre ++ s ++ rest -> read_pos_ b = zlen pre ->
  Forall (fun c => c <> 0) s -> starts_with_nul_or_empty rest ->
  zlen s + nul_width rest <= Z.of_nat fuel ->
  read_nt_loop fuel str b = (Ok (str ++ s), moved b (zlen s + nul_width rest)).
Proof.
  induction s as [|c s IH]; intros pre rest fuel str b Hb E Hp Hs Hr Hf.
  - pose proof (size_at_cursor _ _ _ E Hp) as Hsz. simpl in *. rewrite app_nil_r.
    destruct rest as [|c rest]; simpl in *.
    + assert (moved b (zlen [] + 0) = b) as ->.
      { unfold moved. destruct b; simpl. f_equal. zlia. }
      destruct fuel; simpl; [done|]. rewrite Hsz.
      destruct (Z.ltb_spec (read_pos_ b) (read_pos_ b + zlen (@nil Z))); [zlia|done].
    + subst c. destruct fuel; [zlia|]. simpl. rewrite Hsz.
      destruct (Z.ltb_spec (read_pos_ b) (read_pos_ b + zlen (0 :: rest)));
        [|pose proof (zlen_nonneg rest); zlia].
      erewrite bind_ok by (eapply next_byte_ok; eauto using lookup_at_cursor). done.
  - apply Forall_cons in Hs as [Hc Hs].
    pose proof (size_at_cursor _ _ _ E Hp) as Hsz.
    pose proof (zlen_nonneg s). pose proof (zlen_nonneg rest).
    pose proof (nul_width_range rest).
    destruct fuel; [zlia|]. simpl. rewrite Hsz.
    destruct (Z.ltb_spec (read_pos_ b) (read_pos_ b + zlen ((c :: s) ++ rest))); [|zlia].
    erewrite bind_ok by (eapply next_byte_ok; eauto using lookup_at_cursor).
    destruct (Z.eqb_spec c 0); [done|].
    rewrite (IH (pre ++ [c]) rest); auto.
    + rewrite <- app_assoc. unfold moved. simpl. do 2 f_equal. zlia.
    + apply moved_wf; auto; zlia.
    + simpl. by rewrite E, <- app_assoc.
    + simpl. zlia.
    + zlia.
Qed.

(** Every buffer splits at the first NUL after the cursor. *)
Lemma split_at_nul (l : list Z) :
  exists s rest, l = s ++ rest /\ Forall (fun c => c <> 0) s /\ starts_with_nul_or_empty rest.
Proof.
  induction l as [|c l (s & rest & -> & Hs & Hr)].
  - by exists [], [].
  - destruct (decide (c = 0)) as [->|Hc].
    + by exists [], (0 :: s ++ rest).
    + exists (c :: s), rest. split_and!; auto.
Qed.

Lemma cursor_split b : wf b ->
  exists pre, buffer_ b = pre ++ drop (Z.to_nat (read_pos_ b)) (buffer_ b) /\ read_pos_ b = zlen pre.
Proof.
  intros (_ & ? & _). exists (take (Z.to_nat (read_pos_ b)) (buffer_ b)).
  rewrite take_drop. split; [done|]. unfold size in *. zlia.
Qed.

Lemma read_string_nt_ok b pre s rest :
  wf b -> buffer_ b = pre ++ s ++ rest -> read_pos_ b = zlen pre ->
  Forall (fun c => c <> 0) s -> starts_with_nul_or_empty rest ->
  read_string_nt_be b = (Ok s, moved b (zlen s + nul_width rest)) /\
  read_string_nt_le b = (Ok (rev s), moved b (zlen s + nul_width rest)).
Proof.
  intros Hb E Hp Hs Hr.
  assert (read_nt_loop (nt_fuel b) [] b = (Ok s, moved b (zlen s + nul_width rest))) as Hl.
  { rewrite (read_nt_loop_ok s pre rest); auto. unfold nt_fuel.
    rewrite (size_at_cursor _ _ _ E Hp). pose proof (zlen_nonneg s).
    pose proof (nul_width_range rest).
    zlia. }
  unfold read_string_nt_be, read_string_nt_le. rewrite Hl.
  split; [done|]. by erewrite bind_ok by exact Hl.
Qed.
End read_lemmas.

(** ** Decoding: the inverse of the reference encoding *)

Definition decode (k : kind) (bs : list Z) : value :=
  match k with
  | KU8 => VInt (of_le_bytes bs)
  | KI8 => VInt (to_signed 8 (of_le_bytes bs))
  | KU16 o | KU32 o | KU64 o => VInt (dec_int o bs)
  | KI16 o => VInt (to_signed 16 (dec_int o bs))
  | KI32 o => VInt (to_signed 32 (dec_int o bs))
  | KI64 o => VInt (to_signed 64 (dec_int o bs))
  | KFloat o => VFloat (Float (dec_int o bs))
  | KDouble o => VDouble (Double (dec_int o bs))
  | KBool => VBool (negb (of_le_bytes bs =? 0))
  | KRaw o _ | KNt o => VBytes (enc_str o bs)
  | KBytes _ => VBytes bs
  end.

(** The lengths a caller may pass: a raw string has at least one byte (see
    [read_string_raw_empty_at_end]), and no length exceeds any vector. *)
Definition length_ok (k : kind) : Prop :=
  match k with
  | KRaw _ n => 0 < n < max_vec
  | KBytes n => 0 <= n < max_vec
  | _ => True
  end.

Lemma length_ok_wanted k n : length_ok k -> wanted k = Some n -> 0 <= n < max_vec.
Proof. destruct k; simpl; intros; simplify_eq; unfold max_vec in *; lia. Qed.

Lemma dec_enc_int o n v : dec_int o (enc_int o n v) = v mod 256 ^ Z.of_nat n.
Proof. destruct o; [apply of_be_be_bytes|apply of_le_le_bytes]. Qed.

Lemma dec_enc_unsigned o n w v :
  w = 8 * Z.of_nat n -> in_unsigned w v -> dec_int o (enc_int o n v) = v.
Proof.
  intros -> H. rewrite dec_enc_int. apply Z.mod_small.
  unfold in_unsigned in H. by rewrite Z.pow_mul_r in H by lia.
Qed.

Lemma dec_enc_signed o n w v :
  w = 8 * Z.of_nat n -> 1 <= w -> in_signed w v -> to_signed w (dec_int o (enc_int o n v)) = v.
Proof.
  intros -> Hw H. rewrite dec_enc_int. change 256 with (2 ^ 8).
  rewrite <- Z.pow_mul_r by lia. by apply to_signed_wrap.
Qed.

Lemma rev_enc_str o s : enc_str o (enc_str o s) = s.
Proof. destruct o; simpl; [done|apply rev_involutive]. Qed.

Lemma zlen_enc_str o s : zlen (enc_str o s) = zlen s.
Proof. destruct o; simpl; [done|apply zlen_rev]. Qed.

Lemma decode_encode k v :
  in_domain k v -> (forall o, k <> KNt o) -> decode k (encode k v) = v.
Proof.
  intros Hd Hnt.
  destruct k as [| |o|o|o|o|o|o|o|o| |o n|o|n], v as [z|[z]|[z]|[]|s];
    try (by destruct Hd); cbn [decode encode float_bits double_bits];
    try (by destruct (Hnt o)); rewrite ?rev_enc_str; try done; do 2 f_equal;
    first [ by eapply dec_enc_unsigned | by apply dec_enc_signed
          | by apply (dec_enc_unsigned LE 1 8) | by apply (dec_enc_signed LE 1 8) | idtac ].
Qed.

Lemma zlen_enc_int o n v : zlen (enc_int o n v) = Z.of_nat n.
Proof. destruct o; [apply zlen_be_bytes|apply zlen_le_bytes]. Qed.

Lemma zlen_encode k v n :
  in_domain k v -> wanted k = Some n -> zlen (encode k v) = n.
Proof.
  destruct k as [| |o|o|o|o|o|o|o|o| |[] m|o|m], v as [| | |[]|]; simpl;
    intros Hd Hw; try (by destruct Hd); simplify_eq;
    rewrite ?zlen_enc_int; try done; destruct Hd as [? _]; zlia.
Qed.

Section kind_lemmas.
Context {host : Host}.

Lemma read_kind_fixed k n b :
  wf b -> length_ok k -> wanted k = Some n -> read_pos_ b + n <= size b ->
  read_kind k b = (Ok (decode k (slice (read_pos_ b) n (buffer_ b))), moved b n).
Proof.
  intros Hb Hl Hw Hle.
  destruct k as [| |[]|[]|[]|[]|[]|[]|[]|[]| |[] m|o|m]; simpl in Hw, Hl; simplify_eq;
    cbn [read_kind decode dec_int];
    unfold read_int8, read_int16_be, read_int16_le, read_int32_be, read_int32_le,
      read_int64_be, read_int64_le, read_float_be, read_float_le, read_double_be,
      read_double_le, read_bool.
  all: try by rewrite ?bind_assoc; erewrite bind_ok by (by apply read_uint8_ok).
  all: try by rewrite ?bind_assoc; erewrite bind_ok by (apply read_object_be; by auto with lia).
  all: try by rewrite ?bind_assoc; erewrite bind_ok by (apply read_object_le; by auto with lia).
  all: try by erewrite bind_ok by (apply read_string_raw_be_ok; auto; lia).
  all: try by erewrite bind_ok by (apply read_string_raw_le_ok; auto; lia).
  all: try by erewrite bind_ok by (apply read_bytes_ok; auto; lia).
  rewrite bind_assoc. erewrite bind_ok by (apply check_read_pass; auto; lia).
  rewrite bind_assoc. by erewrite bind_ok by (by apply read_uint8_ok).
Qed.

Lemma read_kind_short k n b :
  wf b -> length_ok k -> wanted k = Some n -> size b < read_pos_ b + n ->
  read_kind k b = not_enough b.
Proof.
  intros Hb Hl Hw Hlt. destruct (length_ok_wanted _ _ Hl Hw) as [_ Hn].
  destruct k as [| |[]|[]|[]|[]|[]|[]|[]|[]| |[] m|o|m]; simpl in Hw, Hl; simplify_eq;
    cbn [read_kind]; repeat eapply bind_throw;
    first [ by apply check_read_fail | by apply read_bytes_short ].
Qed.

Lemma read_kind_nt o b :
  wf b -> exists s rest,
    drop (Z.to_nat (read_pos_ b)) (buffer_ b) = s ++ rest /\
    Forall (fun c => c <> 0) s /\ starts_with_nul_or_empty rest /\
    read_kind (KNt o) b = (Ok (VBytes (enc_str o s)), moved b (zlen s + nul_width rest)) /\
    read_pos_ b + (zlen s + nul_width rest) <= size b.
Proof.
  intros Hb. destruct (cursor_split b Hb) as (pre & E & Hp).
  destruct (split_at_nul (drop (Z.to_nat (read_pos_ b)) (buffer_ b))) as (s & rest & Ed & Hs & Hr).
  exists s, rest. rewrite Ed in E.
  destruct (read_string_nt_ok b pre s rest Hb E Hp Hs Hr) as [Hbe Hle].
  split_and!; auto.
  - destruct o; cbn [read_kind]; by erewrite bind_ok by eassumption.
  - rewrite (size_at_cursor _ _ _ E Hp).
    pose proof (nul_width_range rest).
    zlia.
Qed.

(** One field read back from where it was written. *)
Lemma read_kind_encode k v b pre post :
  in_domain k v -> wf b -> buffer_ b = pre ++ encode k v ++ post -> read_pos_ b = zlen pre ->
  read_kind k b = (Ok v, moved b (zlen (encode k v))).
Proof.
  intros Hd Hb E Hp. destruct (wanted k) as [n|] eqn:Hw.
  - assert (length_ok k) as Hl.
    { pose proof (size_at_cursor _ _ _ E Hp) as Hsz. destruct Hb as (_ & ? & ?).
      pose proof (zlen_nonneg post). rewrite zlen_app, (zlen_encode _ _ _ Hd Hw) in Hsz.
      destruct k, v; simpl in Hd, Hw |- *; simplify_eq; try done;
        destruct_and?; pose proof (zlen_nonneg l); lia. }
    pose proof (zlen_encode _ _ _ Hd Hw) as Hz.
    rewrite (read_kind_fixed k n); auto.
    + rewrite <- Hz, Hp, E, slice_app_length, decode_encode; auto. intros o ->. done.
    + rewrite (size_at_cursor _ _ _ E Hp). pose proof (zlen_nonneg post). zlia.
  - destruct k as [| | | | | | | | | | |? ?|o|?]; try done.
    destruct v as [| | | |s]; try by destruct Hd.
    destruct Hd as [Hs Hok]. cbn [encode read_kind] in *.
    rewrite <- app_assoc in E.
    destruct (read_string_nt_ok b pre (enc_str o s) ([0] ++ post) Hb E Hp) as [Hbe Hle];
      [destruct o; simpl; auto using Forall_rev|done|].
    rewrite zlen_app. simpl in *. rewrite zlen_cons, zlen_nil.
    destruct o; simpl in *; rewrite ?rev_involutive in *; by erewrite bind_ok by eassumption.
Qed.
End kind_lemmas.

Lemma enc_int_ok o n v : bytes_ok (enc_int o n v).
Proof. destruct o; simpl; auto. Qed.

Lemma enc_str_ok o s : bytes_ok s -> bytes_ok (enc_str o s).
Proof. destruct o; simpl; auto using Forall_rev. Qed.

Lemma encode_ok k v : in_domain k v -> bytes_ok (encode k v).
Proof.
  destruct k, v as [| | |[]|]; cbn [encode in_domain]; intros Hd; try done;
    auto using enc_int_ok; destruct_and?; auto using enc_str_ok.
  all: try apply Forall_app; split_and?; auto using enc_str_ok.
  all: repeat constructor; unfold byte_ok; lia.
Qed.

Definition encode_fields (fs : list (kind * value)) : list Z :=
  concat (map (fun f => encode f.1 f.2) fs).

Abbreviation fields_ok := (Forall (fun f : kind * value => in_domain f.1 f.2)).

Lemma encode_fields_ok fs : fields_ok fs -> bytes_ok (encode_fields fs).
Proof.
  unfold encode_fields. induction 1 as [|f fs Hf Hfs IH]; simpl; [constructor|].
  apply Forall_app; auto using encode_ok.
Qed.

Lemma appended_wf b bs :
  wf b -> bytes_ok bs -> size (appended b bs) < max_vec -> wf (appended b bs).
Proof.
  intros (? & ? & ?) ? ?. unfold wf, size in *. simpl in *. rewrite Forall_app.
  pose proof (zlen_nonneg bs). split_and!; auto; zlia.
Qed.

Lemma read_fields_encode `{host : Host} fs : forall pre post b,
  fields_ok fs -> wf b -> buffer_ b = pre ++ encode_fields fs ++ post ->
  read_pos_ b = zlen pre ->
  read_fields (map fst fs) b = (Ok (map snd fs), moved b (zlen (encode_fields fs))).
Proof.
  induction fs as [|[k v] fs IH]; intros pre post b Hfs Hb E Hp; simpl.
  - unfold ret, moved, encode_fields. simpl. destruct b; simpl. do 2 f_equal. zlia.
  - apply Forall_cons in Hfs as [Hf Hfs]. simpl in Hf.
    unfold encode_fields in E. simpl in E. fold (encode_fields fs) in E.
    rewrite <- app_assoc in E.
    pose proof (size_at_cursor _ _ _ E Hp) as Hsz.
    pose proof (zlen_nonneg (encode k v)). pose proof (zlen_nonneg (encode_fields fs)).
    pose proof (zlen_nonneg post).
    erewrite bind_ok by (by eapply read_kind_encode).
    erewrite bind_ok.
    2:{ apply (IH (pre ++ encode k v) post); auto.
        - apply moved_wf; auto; zlia.
        - simpl. by rewrite E, <- app_assoc.
        - simpl. zlia. }
    unfold ret, moved, encode_fields. simpl. do 2 f_equal. zlia.
Qed.

(** ** Properties *)

(** C33: any sequence of typed fields (integers of every width and signedness,
    floats, booleans, raw and NUL-terminated strings, byte arrays, in either
    byte order) written to a buffer by one host reads back as the same values,
    consuming exactly what was written, on any other host. *)
Theorem bytebuffer_fields_roundtrip (hw hr : Host) (fs : list (kind * value)) (b : ByteBuffer) :
  fields_ok fs -> wf b -> read_pos_ b = size b ->
  size (write_fields (host := hw) fs b) < max_vec ->
  exists b',
    read_fields (host := hr) (map fst fs) (write_fields (host := hw) fs b) = (Ok (map snd fs), b') /\
    read_pos_ b' = size b' /\ buffer_ b' = buffer_ (write_fields (host := hw) fs b).
Proof.
  intros Hfs Hb Hp Hsz. rewrite write_fields_appended in * by done.
  fold (encode_fields fs) in *.
  exists (moved (appended b (encode_fields fs)) (zlen (encode_fields fs))). split_and!.
  - apply (read_fields_encode fs (buffer_ b) []); auto.
    + apply appended_wf; auto using encode_fields_ok.
    + simpl. by rewrite app_nil_r.
  - unfold size in *. simpl. zlia.
  - done.
Qed.

(** The fields of the repository's own buffer tests, written on a
    little-endian host and read on a big-endian one. *)
Lemma bytebuffer_fields_roundtrip_witness :
  let fs := [(KU16 BE, VInt 0x1234); (KU16 LE, VInt 0x1234); (KU32 BE, VInt 0x12345678);
             (KI32 LE, VInt (-5)); (KBool, VBool true);
             (KNt LE, VBytes [84; 101; 115; 116]); (KBytes 3, VBytes [0xAA; 0xBB; 0xCC])] in
  exists b',
    read_fields (host := big) (map fst fs) (write_fields (host := little) fs ByteBuffer_default)
      = (Ok (map snd fs), b') /\
    read_pos_ b' = size b' /\ buffer_ b' = buffer_ (write_fields (host := little) fs ByteBuffer_default).
Proof.
  intros fs. apply (bytebuffer_fields_roundtrip little big fs ByteBuffer_default).
  - repeat constructor; unfold byte_ok; simpl; unfold in_unsigned, in_signed; simpl; lia.
  - repeat split; simpl; done || constructor.
  - reflexivity.
  - vm_compute. reflexivity.
Defined.

(** The bytes the typed writers put on the wire are the reference
    encoding of the fields, appended to the old contents with the read cursor
    untouched, whatever the byte order of the host. *)
Theorem bytebuffer_wire_format (h : Host) (fs : list (kind * value)) (b : ByteBuffer) :
  fields_ok fs ->
  buffer_ (write_fields (host := h) fs b) = buffer_ b ++ concat (map (fun f => encode f.1 f.2) fs) /\
  read_pos_ (write_fields (host := h) fs b) = read_pos_ b.
Proof. intros H. by rewrite write_fields_appended. Qed.

Lemma bytebuffer_wire_format_witness :
  buffer_ (write_fields (host := big) [(KU16 LE, VInt 0x1234); (KNt LE, VBytes [65; 66])] ByteBuffer_default)
  = [0x34; 0x12; 66; 65; 0].
Proof.
  destruct (bytebuffer_wire_format big [(KU16 LE, VInt 0x1234); (KNt LE, VBytes [65; 66])]
    ByteBuffer_default) as [E _]; [|rewrite E; reflexivity].
  repeat constructor; unfold byte_ok; simpl; unfold in_unsigned; lia.
Defined.

(** On every well-formed buffer every typed reader either returns a value
    and advances the cursor by exactly its size, inside the buffer and with
    the contents unchanged, or throws [out_of_range] precisely when fewer
    bytes remain, leaving the buffer as it was; no reader reaches an out of
    range access. *)
Theorem bytebuffer_read_safe (h : Host) (k : kind) (b : ByteBuffer) :
  wf b -> length_ok k ->
  match read_kind (host := h) k b with
  | (Ok _, b') =>
      wf b' /\ buffer_ b' = buffer_ b /\ read_pos_ b <= read_pos_ b' /\
      (forall n, wanted k = Some n -> read_pos_ b' = read_pos_ b + n)
  | (Throw e, b') =>
      b' = b /\ e = out_of_range "ByteBuffer: not enough data to read" /\
      exists n, wanted k = Some n /\ size b < read_pos_ b + n
  | (Undef, _) => False
  end.
Proof.
  intros Hb Hl. destruct (wanted k) as [n|] eqn:Hw.
  - pose proof (length_ok_wanted _ _ Hl Hw).
    destruct (decide (read_pos_ b + n <= size b)).
    + rewrite (read_kind_fixed k n) by done. split_and!; [apply moved_wf; auto; lia|done|simpl; lia|].
      intros ? [= <-]. done.
    + rewrite (read_kind_short k n) by (done || lia). simpl. split_and!; auto.
      exists n. split; [done|lia].
  - assert (exists o, k = KNt o) as [o ->] by (destruct k; naive_solver).
    destruct (read_kind_nt o b Hb) as (s & rest & _ & _ & _ & -> & Hle).
    pose proof (zlen_nonneg s). pose proof (nul_width_range rest).
    split_and!; [apply moved_wf; auto; lia|done|simpl; lia|done].
Qed.

Lemma bytebuffer_read_safe_witness :
  wf (ByteBuffer_of [1; 2; 3]) /\
  exists b', read_kind (host := little) (KU32 BE) (ByteBuffer_of [1; 2; 3])
    = (Throw (out_of_range "ByteBuffer: not enough data to read"), b') /\ b' = ByteBuffer_of [1; 2; 3].
Proof.
  assert (wf (ByteBuffer_of [1; 2; 3])) as H.
  { repeat split; simpl; [|done..]. repeat constructor; lia. }
  split; [exact H|].
  pose proof (bytebuffer_read_safe little (KU32 BE) (ByteBuffer_of [1; 2; 3]) H I) as P.
  vm_compute in P. exists (ByteBuffer_of [1; 2; 3]). split; [reflexivity|apply P].
Defined.

(** The NUL-terminated readers always terminate normally: they return the
    bytes up to the first NUL after the cursor (reversed by the LE reader) or
    up to the end of the buffer, and leave the cursor after that NUL; running
    the loop with more fuel changes nothing. *)
Theorem bytebuffer_read_string_nt (b : ByteBuffer) (fuel : nat) :
  wf b -> (nt_fuel b <= fuel)%nat ->
  exists s rest,
    drop (Z.to_nat (read_pos_ b)) (buffer_ b) = s ++ rest /\
    Forall (fun c => c <> 0) s /\ starts_with_nul_or_empty rest /\
    read_string_nt_be b = (Ok s, moved b (zlen s + nul_width rest)) /\
    read_string_nt_le b = (Ok (rev s), moved b (zlen s + nul_width rest)) /\
    read_nt_loop fuel [] b = read_string_nt_be b.
Proof.
  intros Hb Hf. destruct (cursor_split b Hb) as (pre & E & Hp).
  destruct (split_at_nul (drop (Z.to_nat (read_pos_ b)) (buffer_ b))) as (s & rest & Ed & Hs & Hr).
  exists s, rest. rewrite Ed in E.
  destruct (read_string_nt_ok b pre s rest Hb E Hp Hs Hr) as [Hbe Hle].
  split_and!; auto. rewrite Hbe, (read_nt_loop_ok s pre rest); auto.
  unfold nt_fuel in Hf. rewrite (size_at_cursor _ _ _ E Hp) in Hf.
  pose proof (nul_width_range rest).
  zlia.
Qed.

Lemma bytebuffer_read_string_nt_witness :
  exists s rest, [72; 105; 0; 7] = s ++ rest /\
    read_string_nt_le (ByteBuffer_of [72; 105; 0; 7]) = (Ok (rev s), moved (ByteBuffer_of [72; 105; 0; 7]) (zlen s + nul_width rest)).
Proof.
  destruct (bytebuffer_read_string_nt (ByteBuffer_of [72; 105; 0; 7]) 4)
    as (s & rest & E & _ & _ & _ & Hle & _).
  - repeat split; simpl; [|done..]. repeat constructor; lia.
  - vm_compute. lia.
  - exists s, rest. split; [exact E|exact Hle].
Defined.

(** The bounds check adds in [size_t]: for a length close to [SIZE_MAX]
    the sum wraps, the check passes and [skip] moves the cursor backwards,
    while [read_bytes] and [read_string_raw_be] go on to an out of range
    access instead of throwing. *)
Theorem check_read_wraps :
  let b := mkByteBuffer [10; 20; 30; 40] 2 in
  let n := size_max - 1 in
  skip n b = (Ok tt, mkByteBuffer [10; 20; 30; 40] 1) /\
  (read_bytes n b).1 = Undef /\ (read_string_raw_be n b).1 = Undef.
Proof. vm_compute. auto. Qed.

(** An empty raw string read at the end of the buffer passes the bounds
    check and then forms [&buffer_[size()]], an out of range element access;
    an empty [read_bytes] there is fine. *)
Theorem read_string_raw_empty_at_end (b : ByteBuffer) :
  wf b -> read_pos_ b = size b ->
  (read_string_raw_be 0 b).1 = Undef /\ (read_string_raw_le 0 b).1 = Undef /\
  read_bytes 0 b = (Ok [], moved b 0).
Proof.
  intros Hb Hp. unfold read_string_raw_be, read_string_raw_le.
  split_and!; [erewrite bind_ok by (apply check_read_pass; auto; lia);
    unfold copy_from_buffer, bind; rewrite Hp, Z.ltb_irrefl; done..|].
  rewrite read_bytes_ok by (auto; lia). done.
Qed.

Lemma read_string_raw_empty_at_end_witness :
  (read_string_raw_be 0 ByteBuffer_default).1 = Undef.
Proof.
  apply (read_string_raw_empty_at_end ByteBuffer_default).
  - repeat split; simpl; done || constructor.
  - reflexivity.
Defined.
