(* ===== verification/MessageBuffer.v ===== *)
(** * MessageBuffer (src/common/packet/MessageBuffer.hpp)

    The session's receive buffer: a vector with a write position (end of the
    received bytes) and a read position (start of the unparsed ones).  Its
    contract towards the readers is a FIFO queue of bytes, stated as the class
    [ByteQueue] and discharged by [MessageBuffer_queue]. *)

From S2P Require Import Prelude Machine.

Record MessageBuffer := mkMessageBuffer {
  _wpos : Z;
  _rpos : Z;
  _storage : list Z }.

(** [explicit MessageBuffer(std::size_t initialSize = 4096)]. *)
Definition MessageBuffer_new (initialSize : Z) : MessageBuffer :=
  mkMessageBuffer 0 0 (replicate (Z.to_nat initialSize) 0).

Definition reset (mb : MessageBuffer) : MessageBuffer := mkMessageBuffer 0 0 (_storage mb).

Definition clear (mb : MessageBuffer) : MessageBuffer :=
  let mb := reset mb in mkMessageBuffer (_wpos mb) (_rpos mb) [].

Definition get_active_size (mb : MessageBuffer) : Z := size_sub (_wpos mb) (_rpos mb).
Definition get_remaining_space (mb : MessageBuffer) : Z := size_sub (zlen (_storage mb)) (_wpos mb).

Definition write_completed (bytes : Z) : M MessageBuffer unit := fun mb =>
  if get_remaining_space mb <? bytes
  then (Throw (runtime_error "MessageBuffer: write overflow"), mb)
  else (Ok tt, mkMessageBuffer (size_add (_wpos mb) bytes) (_rpos mb) (_storage mb)).

Definition read_completed (bytes : Z) : M MessageBuffer unit := fun mb =>
  if get_active_size mb <? bytes
  then (Throw (runtime_error "MessageBuffer: read overflow"), mb)
  else (Ok tt, mkMessageBuffer (_wpos mb) (size_add (_rpos mb) bytes) (_storage mb)).

(** [memmove(base(), read_ptr(), get_active_size())]. *)
Definition move_to_front (mb : MessageBuffer) : list Z :=
  overwrite 0 (slice (_rpos mb) (get_active_size mb) (_storage mb)) (_storage mb).

Definition normalize (mb : MessageBuffer) : MessageBuffer :=
  if negb (_rpos mb =? 0) then
    let storage :=
      if negb (_rpos mb =? _wpos mb) then move_to_front mb else _storage mb in
    mkMessageBuffer (size_sub (_wpos mb) (_rpos mb)) 0 storage
  else mb.

Definition ensure_free_space (min_free : Z) (mb : MessageBuffer) : MessageBuffer :=
  if get_remaining_space mb <? min_free then
    let mb := normalize mb in
    if get_remaining_space mb <? min_free then
      mkMessageBuffer (_wpos mb) (_rpos mb)
        (vec_resize 0 (size_add (zlen (_storage mb)) min_free) (_storage mb))
    else mb
  else mb.

(** What the socket does with [buffer(write_ptr(), get_remaining_space())]:
    it stores the received bytes from [write_ptr()] on. *)
Definition fill (bytes : list Z) (mb : MessageBuffer) : MessageBuffer :=
  mkMessageBuffer (_wpos mb) (_rpos mb) (overwrite (_wpos mb) bytes (_storage mb)).

(** The bytes between [read_ptr()] and [write_ptr()]. *)
Definition active (mb : MessageBuffer) : list Z :=
  slice (_rpos mb) (_wpos mb - _rpos mb) (_storage mb).

(** ** Invariant *)

Definition max_storage : Z := 2 ^ 63.

Definition wf (mb : MessageBuffer) : Prop :=
  0 <= _rpos mb <= _wpos mb /\ _wpos mb <= zlen (_storage mb) /\
  zlen (_storage mb) < max_storage /\ bytes_ok (_storage mb).

Section lemmas.
Implicit Types mb : MessageBuffer.

Lemma get_active_size_wf mb : wf mb -> get_active_size mb = _wpos mb - _rpos mb.
Proof.
  intros (? & ? & ? & _). apply size_sub_small; unfold max_storage, size_max in *; lia.
Qed.

Lemma get_remaining_space_wf mb :
  wf mb -> get_remaining_space mb = zlen (_storage mb) - _wpos mb.
Proof.
  intros (? & ? & ? & _). apply size_sub_small; unfold max_storage, size_max in *; lia.
Qed.

Lemma zlen_active mb : wf mb -> zlen (active mb) = _wpos mb - _rpos mb.
Proof. intros (? & ? & _). apply zlen_slice; lia. Qed.

Lemma active_ok mb : wf mb -> bytes_ok (active mb).
Proof. intros (_ & _ & _ & ?). by apply Forall_slice. Qed.

Lemma slice_overwrite_0 (k l : list Z) :
  zlen k <= zlen l -> slice 0 (zlen k) (overwrite 0 k l) = k.
Proof. intros. unfold overwrite. simpl. rewrite slice_0. apply take_zlen_app. Qed.

Lemma normalize_spec mb :
  wf mb ->
  wf (normalize mb) /\ active (normalize mb) = active mb /\ _rpos (normalize mb) = 0 /\
  zlen (_storage (normalize mb)) = zlen (_storage mb).
Proof.
  intros Hwf. pose proof (zlen_active _ Hwf) as Hz. pose proof (active_ok _ Hwf) as Hok.
  pose proof (get_active_size_wf _ Hwf) as Ha.
  unfold normalize. fold (get_active_size mb). rewrite Ha.
  destruct (Z.eqb_spec (_rpos mb) 0) as [E0|E0]; simpl; [done|].
  destruct Hwf as (? & ? & ? & ?).
  destruct (Z.eqb_spec (_rpos mb) (_wpos mb)) as [Ew|Ew]; simpl.
  - split_and!; simpl; auto; try lia.
    + repeat split; simpl; auto; lia.
    + unfold active. simpl. by rewrite Ew, Z.sub_diag.
  - unfold move_to_front. rewrite Ha. fold (active mb).
    assert (zlen (overwrite 0 (active mb) (_storage mb)) = zlen (_storage mb)) as El
      by (apply zlen_overwrite; lia).
    split_and!; simpl; auto.
    + unfold wf. simpl. rewrite El. split_and!; auto; try lia. by apply Forall_overwrite.
    + unfold active at 1. simpl. rewrite Z.sub_0_r, <- Hz.
      apply slice_overwrite_0. lia.
Qed.

(** [ensure_free_space] keeps the unread bytes, leaves at least [min_free]
    bytes of room, and grows the vector by at most [min_free]. *)
Lemma ensure_free_space_spec mb n :
  wf mb -> 0 <= n -> zlen (_storage mb) + n < max_storage ->
  let mb' := ensure_free_space n mb in
  wf mb' /\ active mb' = active mb /\ n <= get_remaining_space mb' /\
  zlen (_storage mb) <= zlen (_storage mb') <= zlen (_storage mb) + n.
Proof.
  intros Hwf Hn Hmax. simpl. unfold ensure_free_space.
  destruct (Z.ltb_spec (get_remaining_space mb) n); [|split_and!; auto; lia].
  destruct (normalize_spec mb Hwf) as (Hwf' & Hact & Hr & Hl).
  destruct (Z.ltb_spec (get_remaining_space (normalize mb)) n); [|split_and!; auto; lia].
  rewrite size_add_small by (unfold max_storage, size_max in *; pose proof (zlen_nonneg (_storage mb)); lia).
  destruct Hwf' as (? & ? & ? & ?).
  set (mb' := mkMessageBuffer _ _ _).
  assert (zlen (_storage mb') = zlen (_storage mb) + n) as El.
  { unfold mb'. simpl. rewrite zlen_vec_resize; pose proof (zlen_nonneg (_storage mb)); lia. }
  assert (wf mb') as Hwf'.
  { unfold wf. rewrite El. simpl. split_and!; auto; try lia.
    apply Forall_vec_resize; [unfold byte_ok; lia|done]. }
  split_and!; auto; try lia.
  - rewrite <- Hact. unfold active, mb', slice. simpl.
    rewrite vec_resize_grow by lia. rewrite Hr.
    change (Z.to_nat 0) with 0%nat. rewrite !drop_0. apply take_app_le.
    unfold zlen in *. lia.
  - rewrite get_remaining_space_wf, El by done. simpl. lia.
Qed.

Lemma zlen_fill mb bytes :
  wf mb -> zlen bytes <= get_remaining_space mb ->
  zlen (_storage (fill bytes mb)) = zlen (_storage mb).
Proof.
  intros Hwf. rewrite get_remaining_space_wf by done. destruct Hwf as (? & ? & ? & ?).
  intros. apply zlen_overwrite; lia.
Qed.

(** Received bytes are appended to the unread ones. *)
Lemma fill_spec mb bytes :
  wf mb -> bytes_ok bytes -> zlen bytes <= get_remaining_space mb ->
  exists mb', write_completed (zlen bytes) (fill bytes mb) = (Ok tt, mb') /\
    wf mb' /\ active mb' = active mb ++ bytes /\ _storage mb' = _storage (fill bytes mb).
Proof.
  intros Hwf Hb Hle. pose proof (zlen_fill _ _ Hwf Hle) as El.
  pose proof (zlen_nonneg bytes). pose proof Hle as Hle'.
  rewrite get_remaining_space_wf in Hle' by done.
  assert (wf (fill bytes mb)) as Hwff.
  { destruct Hwf as (? & ? & ? & ?). unfold wf. rewrite El.
    split_and!; simpl; auto; try lia. by apply Forall_overwrite. }
  unfold write_completed. rewrite (get_remaining_space_wf _ Hwff), El.
  simpl _wpos. destruct (Z.ltb_spec (zlen (_storage mb) - _wpos mb) (zlen bytes)); [lia|].
  eexists. split; [done|].
  destruct Hwf as (? & ? & ? & ?), Hwff as (_ & _ & _ & ?).
  rewrite size_add_small by (unfold max_storage, size_max in *; lia).
  split_and!; [| |done].
  - unfold wf. simpl in *. rewrite El. split_and!; auto; lia.
  - unfold active, slice, fill, overwrite. simpl.
    rewrite drop_app_le by (rewrite length_take; unfold zlen in *; lia).
    rewrite app_assoc, take_app_le by (rewrite !length_app, length_drop, length_take; unfold zlen in *; lia).
    rewrite take_ge by (rewrite length_app, length_drop, length_take; unfold zlen in *; lia).
    f_equal. rewrite skipn_firstn_comm. f_equal. lia.
Qed.

Lemma read_completed_spec mb n :
  wf mb -> 0 <= n <= zlen (active mb) ->
  exists mb', read_completed n mb = (Ok tt, mb') /\ wf mb' /\
    active mb' = drop (Z.to_nat n) (active mb) /\ _storage mb' = _storage mb.
Proof.
  intros Hwf. rewrite zlen_active by done. intros Hn.
  unfold read_completed. rewrite get_active_size_wf by done.
  destruct (Z.ltb_spec (_wpos mb - _rpos mb) n); [lia|].
  destruct Hwf as (? & ? & ? & ?).
  rewrite size_add_small by (unfold max_storage, size_max in *; lia).
  eexists. split; [done|]. split_and!; [|unfold active, slice; simpl|done].
  - repeat split; simpl; auto; lia.
  - rewrite skipn_firstn_comm, drop_drop. f_equal; [lia|]. f_equal. lia.
Qed.

Lemma read_completed_overflow mb n :
  wf mb -> zlen (active mb) < n ->
  read_completed n mb = (Throw (runtime_error "MessageBuffer: read overflow"), mb).
Proof.
  intros Hwf. rewrite zlen_active by done. intros Hn. unfold read_completed.
  rewrite get_active_size_wf by done. destruct (Z.ltb_spec (_wpos mb - _rpos mb) n); [done|lia].
Qed.

Lemma clear_spec mb : wf (clear mb) /\ active (clear mb) = [].
Proof. split; [|done]. repeat split; simpl; rewrite ?zlen_nil; auto; unfold max_storage; lia. Qed.

Lemma reset_spec mb : wf mb -> wf (reset mb) /\ active (reset mb) = [].
Proof.
  intros (? & ? & ? & ?). split; [|done].
  repeat split; simpl; auto; pose proof (zlen_nonneg (_storage mb)); lia.
Qed.

Lemma MessageBuffer_new_spec n :
  0 <= n < max_storage -> wf (MessageBuffer_new n) /\ active (MessageBuffer_new n) = [].
Proof.
  intros. split; [|done]. unfold MessageBuffer_new.
  split_and!; simpl; rewrite ?zlen_replicate; try lia.
  apply Forall_replicate. unfold byte_ok. lia.
Qed.
End lemmas.

(** ** The contract: a FIFO queue of bytes *)

(** What the session needs from its receive buffer.  [bq_reserve n] makes
    room, [bq_feed bs] is the socket storing [bs] and the completion handler
    accounting for them, [bq_consume n] removes a parsed packet. *)
Class ByteQueue (B : Type) := {
  bq_inv : B -> Prop;
  bq_contents : B -> list Z;
  bq_room : B -> Z;
  bq_capacity : B -> Z;
  bq_reserve : Z -> B -> B;
  bq_feed : list Z -> M B unit;
  bq_consume : Z -> M B unit;
  bq_reserve_law : forall n b, bq_inv b -> 0 <= n -> bq_capacity b + n < max_storage ->
    bq_inv (bq_reserve n b) /\ bq_contents (bq_reserve n b) = bq_contents b /\
    n <= bq_room (bq_reserve n b) /\ bq_capacity (bq_reserve n b) <= bq_capacity b + n;
  bq_feed_law : forall bs b, bq_inv b -> bytes_ok bs -> zlen bs <= bq_room b ->
    exists b', bq_feed bs b = (Ok tt, b') /\ bq_inv b' /\
      bq_contents b' = bq_contents b ++ bs /\ bq_capacity b' = bq_capacity b;
  bq_consume_law : forall n b, bq_inv b -> 0 <= n <= zlen (bq_contents b) ->
    exists b', bq_consume n b = (Ok tt, b') /\ bq_inv b' /\
      bq_contents b' = drop (Z.to_nat n) (bq_contents b) /\ bq_capacity b' = bq_capacity b;
  bq_consume_overflow : forall n b, bq_inv b -> zlen (bq_contents b) < n ->
    exists e, bq_consume n b = (Throw e, b) }.

Definition feed (bytes : list Z) : M MessageBuffer unit :=
  do! modify (fill bytes) in write_completed (zlen bytes).

#[export] Program Instance MessageBuffer_queue : ByteQueue MessageBuffer := {|
  bq_inv := wf;
  bq_contents := active;
  bq_room := get_remaining_space;
  bq_capacity mb := zlen (_storage mb);
  bq_reserve := ensure_free_space;
  bq_feed := feed;
  bq_consume := read_completed |}.
Next Obligation.
  intros n mb ? ? ?. destruct (ensure_free_space_spec mb n) as (? & ? & ? & ?); auto.
  split_and!; auto; lia.
Qed.
Next Obligation.
  intros bs mb ? ? ?. destruct (fill_spec mb bs) as (mb' & E & ? & ? & Es); auto.
  exists mb'. split_and!; auto. simpl. rewrite Es. by apply zlen_fill.
Qed.
Next Obligation.
  intros n mb ? ?. destruct (read_completed_spec mb n) as (mb' & E & ? & ? & Es); auto.
  exists mb'. split_and!; auto. simpl. by rewrite Es.
Qed.
Next Obligation. intros n mb ? ?. eexists. by apply read_completed_overflow. Qed.

(** ** Scripts of buffer operations and their list semantics *)

Inductive bq_op :=
| Receive (bytes : list Z)   (** reserve their size, then feed *)
| Consume (n : Z).

Section scripts.
Context `{BQ : ByteQueue B}.

Fixpoint bq_run (ops : list bq_op) : M B unit :=
  match ops with
  | [] => ret tt
  | Receive bytes :: ops =>
      do! modify (bq_reserve (zlen bytes)) in do! bq_feed bytes in bq_run ops
  | Consume n :: ops => do! bq_consume n in bq_run ops
  end.

(** The same script on a list of bytes: [None] when it consumes too much. *)
Fixpoint list_run (ops : list bq_op) (q : list Z) : option (list Z) :=
  match ops with
  | [] => Some q
  | Receive bytes :: ops => list_run ops (q ++ bytes)
  | Consume n :: ops =>
      if n <=? zlen q then list_run ops (drop (Z.to_nat n) q) else None
  end.

Definition op_ok (op : bq_op) : Prop :=
  match op with Receive bytes => bytes_ok bytes | Consume n => 0 <= n end.

Definition received (ops : list bq_op) : Z :=
  foldr (fun op acc => match op with Receive bytes => zlen bytes + acc | Consume _ => acc end) 0 ops.

Lemma received_nonneg ops : 0 <= received ops.
Proof.
  induction ops as [|[bs|n] ops IH]; simpl; [lia| |lia]. pose proof (zlen_nonneg bs). lia.
Qed.

Lemma bq_run_refines ops : forall b,
  bq_inv b -> Forall op_ok ops -> bq_capacity b + received ops < max_storage ->
  match list_run ops (bq_contents b) with
  | Some q => exists b', bq_run ops b = (Ok tt, b') /\ bq_inv b' /\ bq_contents b' = q
  | None => exists e b', bq_run ops b = (Throw e, b') /\ bq_inv b'
  end.
Proof.
  induction ops as [|[bs|n] ops IH]; intros b Hi Hok Hcap; simpl.
  - by exists b.
  - apply Forall_cons in Hok as [Hbs Hok]. simpl in *. pose proof (zlen_nonneg bs).
    pose proof (received_nonneg ops).
    destruct (bq_reserve_law (zlen bs) b) as (Hi1 & Hc1 & Hroom & Hcap1); auto; try lia.
    destruct (bq_feed_law bs (bq_reserve (zlen bs) b)) as (b2 & E2 & Hi2 & Hc2 & Hcap2); auto.
    specialize (IH b2 Hi2 Hok). rewrite Hc2, Hc1 in IH.
    erewrite bind_ok by done. erewrite bind_ok by done. apply IH. lia.
  - apply Forall_cons in Hok as [Hn Hok]. simpl in *.
    destruct (Z.leb_spec n (zlen (bq_contents b))).
    + destruct (bq_consume_law n b) as (b2 & E2 & Hi2 & Hc2 & Hcap2); auto.
      specialize (IH b2 Hi2 Hok). rewrite Hc2 in IH.
      erewrite bind_ok by done. apply IH. lia.
    + destruct (bq_consume_overflow n b) as [e E]; auto.
      exists e, b. by erewrite bind_throw by done.
Qed.
End scripts.

(** ** Properties *)

(** C6: the receive buffer implements a FIFO byte queue: any script of
    receptions and consumptions, run on the vector with its positions,
    normalisation and growth, leaves exactly the unread bytes the same script
    leaves on a list, and fails with the overflow exception exactly when the
    script consumes more than was received. *)
Theorem messagebuffer_refines_byte_queue (ops : list bq_op) (initial : Z) :
  0 <= initial -> Forall op_ok ops -> initial + received ops < max_storage ->
  match list_run ops [] with
  | Some q => exists mb, bq_run ops (MessageBuffer_new initial) = (Ok tt, mb) /\ wf mb /\ active mb = q
  | None => exists e mb, bq_run ops (MessageBuffer_new initial) = (Throw e, mb) /\ wf mb
  end.
Proof.
  intros Hi Hok Hcap. pose proof (received_nonneg ops).
  destruct (MessageBuffer_new_spec initial) as [Hwf Hact]; [lia|].
  pose proof (bq_run_refines ops (MessageBuffer_new initial) Hwf Hok) as H1.
  cbn [bq_contents bq_capacity bq_inv MessageBuffer_queue] in H1. rewrite Hact in H1.
  apply H1. simpl. rewrite zlen_replicate. lia.
Qed.

Lemma messagebuffer_refines_byte_queue_witness :
  exists mb, bq_run [Receive [1; 2; 3; 4]; Consume 3; Receive [5; 6; 7; 8; 9]; Consume 1]
    (MessageBuffer_new 4) = (Ok tt, mb) /\ wf mb /\ active mb = [5; 6; 7; 8; 9].
Proof.
  apply (messagebuffer_refines_byte_queue
    [Receive [1; 2; 3; 4]; Consume 3; Receive [5; 6; 7; 8; 9]; Consume 1] 4).
  - lia.
  - repeat constructor; simpl; lia.
  - vm_compute. reflexivity.
Defined.

(** [ensure_free_space] never loses or reorders unread bytes, always
    leaves the requested room, and never grows the vector by more than the
    request. *)
Theorem ensure_free_space_correct (mb : MessageBuffer) (min_free : Z) :
  wf mb -> 0 <= min_free -> zlen (_storage mb) + min_free < max_storage ->
  let mb' := ensure_free_space min_free mb in
  wf mb' /\ active mb' = active mb /\ min_free <= get_remaining_space mb' /\
  zlen (_storage mb) <= zlen (_storage mb') <= zlen (_storage mb) + min_free.
Proof. apply ensure_free_space_spec. Qed.

Lemma ensure_free_space_correct_witness :
  let mb := mkMessageBuffer 4 3 [1; 2; 3; 4] in
  active (ensure_free_space 2 mb) = [4] /\ _storage (ensure_free_space 2 mb) = [4; 2; 3; 4].
Proof.
  intros mb. destruct (ensure_free_space_correct mb 2) as (_ & E & _).
  - repeat split; simpl; try lia; [done|]. repeat constructor; lia.
  - lia.
  - vm_compute. reflexivity.
  - split; [rewrite E; reflexivity|reflexivity].
Defined.
