(* ===== verification/HexUtils.v ===== *)
(** * HexUtils (src/common/utils/HexUtils.hpp)

    Hexadecimal text and left padding.  A [std::string] is the list of its
    character codes. *)

From S2P Require Import Prelude Machine.

Definition hex_char_to_int (c : Z) : outcome Z :=
  if (48 <=? c) && (c <=? 57) then Ok (c - 48)
  else if (97 <=? c) && (c <=? 102) then Ok (c - 97 + 10)
  else if (65 <=? c) && (c <=? 70) then Ok (c - 65 + 10)
  else Throw (invalid_argument "Invalid hex character").

(** The loop of [hex_to_bytes], two characters per iteration; reading
    [hex[i + 1]] past the end is excluded by the parity check. *)
Fixpoint hex_pairs (hex : list Z) : outcome (list Z) :=
  match hex with
  | [] => Ok []
  | [_] => Undef
  | h :: l :: hex =>
      match hex_char_to_int h with
      | Ok hi =>
          match hex_char_to_int l with
          | Ok lo =>
              match hex_pairs hex with
              | Ok bytes => Ok (u8 (Z.lor (Z.shiftl hi 4) lo) :: bytes)
              | r => r
              end
          | Throw e => Throw e
          | Undef => Undef
          end
      | Throw e => Throw e
      | Undef => Undef
      end
  end.

Definition hex_to_bytes (hex : list Z) : outcome (list Z) :=
  if negb (zlen hex mod 2 =? 0)
  then Throw (invalid_argument "Hex string must have even length")
  else hex_pairs hex.

(** [oss << std::hex << std::setfill('0') << std::setw(2) << int(byte)]. *)
Definition hex_digit (d : Z) : Z := if d <? 10 then 48 + d else 87 + d.
Definition put_hex2 (b : Z) : list Z := [hex_digit (b / 16); hex_digit (b mod 16)].

Definition bytes_to_hex (bytes : list Z) : list Z := concat (map put_hex2 bytes).

(** [std::copy_backward] into a zero vector of the target size. *)
Definition pad_bytes_left (src : list Z) (target_size : Z) : outcome (list Z) :=
  if target_size <? zlen src
  then Throw (invalid_argument "[HexUtils] Source bytes longer than target size")
  else if zlen src =? target_size then Ok src
  else Ok (overwrite (target_size - zlen src) src (replicate (Z.to_nat target_size) 0)).

(** ** Lemmas *)

Definition is_hex_char (c : Z) : bool :=
  match hex_char_to_int c with Ok _ => true | _ => false end.

Lemma hex_digit_inv d : 0 <= d < 16 -> hex_char_to_int (hex_digit d) = Ok d.
Proof.
  intros. unfold hex_char_to_int, hex_digit.
  destruct (Z.ltb_spec d 10); repeat split_if; bool_to_prop; f_equal; lia.
Qed.

Lemma join_nibbles b : byte_ok b -> u8 (Z.lor (Z.shiftl (b / 16) 4) (b mod 16)) = b.
Proof.
  intros H. apply Z.eqb_eq.
  apply (byte_forall (fun b => u8 (Z.lor (Z.shiftl (b / 16) 4) (b mod 16)) =? b)); [|done].
  vm_compute. reflexivity.
Qed.

Lemma hex_pairs_bytes bs : bytes_ok bs -> hex_pairs (bytes_to_hex bs) = Ok bs.
Proof.
  induction 1 as [|b bs Hb Hbs IH]; [done|].
  unfold bytes_to_hex. simpl. fold (bytes_to_hex bs).
  pose proof (Z.mod_pos_bound b 16). unfold byte_ok in Hb.
  rewrite !hex_digit_inv, IH, join_nibbles; auto; try lia.
  split; [apply Z.div_pos|apply Z.div_lt_upper_bound]; lia.
Qed.

Lemma zlen_bytes_to_hex bs : zlen (bytes_to_hex bs) = 2 * zlen bs.
Proof. induction bs as [|b bs IH]; [done|]. unfold bytes_to_hex in *. simpl. zlia. Qed.

(** One character pair at a time: a value exists exactly for hex digits, and
    printing it gives the lower case of the digit. *)
Lemma hex_char_ok c d :
  hex_char_to_int c = Ok d -> 0 <= d < 16 /\ hex_digit d = tolower c.
Proof.
  unfold hex_char_to_int, hex_digit, tolower.
  repeat split_if; intros [= <-]; bool_to_prop; split; try lia; repeat split_if; bool_to_prop; lia.
Qed.

Lemma put_hex2_nibbles hi lo :
  0 <= hi < 16 -> 0 <= lo < 16 ->
  put_hex2 (u8 (Z.lor (Z.shiftl hi 4) lo)) = [hex_digit hi; hex_digit lo].
Proof.
  intros Hh Hl.
  replace (u8 (Z.lor (Z.shiftl hi 4) lo)) with (hi * 16 + lo).
  - unfold put_hex2. rewrite Z.div_add_l, Z.div_small, Z.add_0_r by lia.
    by rewrite Z.add_comm, Z.mod_add, Z.mod_small by lia.
  - symmetry. rewrite <- (join_nibbles (hi * 16 + lo)) by (unfold byte_ok; lia).
    rewrite Z.div_add_l, (Z.div_small lo), Z.add_0_r by lia.
    by rewrite (Z.add_comm (hi * 16)), Z.mod_add, (Z.mod_small lo) by lia.
Qed.

(** Two-step induction over character pairs. *)
Lemma pair_ind {A} (P : list A -> Prop) :
  P [] -> (forall x, P [x]) -> (forall x y l, P l -> P (x :: y :: l)) -> forall l, P l.
Proof.
  intros H0 H1 H2 l. enough (P l /\ forall x, P (x :: l)) by tauto.
  induction l as [|y l [IH IH']]; split; auto.
Qed.

Lemma hex_pairs_inv hex bs :
  hex_pairs hex = Ok bs -> bytes_ok bs /\ bytes_to_hex bs = map tolower hex.
Proof.
  revert bs. induction hex as [|c|h l hex IH] using pair_ind; intros bs; simpl.
  - by intros [= <-].
  - done.
  - destruct (hex_char_to_int h) as [hi| |] eqn:Eh; try done.
    destruct (hex_char_to_int l) as [lo| |] eqn:El; try done.
    destruct (hex_pairs hex) as [bs'| |]; try done. intros [= <-].
    destruct (IH bs') as [Hok Hx]; [done|].
    apply hex_char_ok in Eh as [Hh Eh], El as [Hl El].
    split; [constructor; [apply (wrap_range 8); lia|done]|].
    unfold bytes_to_hex in *. simpl map. rewrite concat_cons, put_hex2_nibbles, Hx by done.
    by rewrite Eh, El.
Qed.

(** Whether [hex_pairs] succeeds, on even lengths. *)
Lemma hex_pairs_ok_iff hex :
  zlen hex mod 2 = 0 ->
  if forallb is_hex_char hex then exists bs, hex_pairs hex = Ok bs
  else hex_pairs hex = Throw (invalid_argument "Invalid hex character").
Proof.
  induction hex as [|c|h l hex IH] using pair_ind; intros Hp.
  - by exists [].
  - rewrite zlen_cons, zlen_nil in Hp. done.
  - rewrite !zlen_cons, Z.add_assoc, Z.add_comm in Hp. change (1 + 1) with (1 * 2) in Hp.
    rewrite Z.mod_add in Hp by lia. specialize (IH Hp). simpl.
    assert (forall c, hex_char_to_int c = Throw (invalid_argument "Invalid hex character") \/
      exists d, hex_char_to_int c = Ok d) as Hc
      by (intros c; unfold hex_char_to_int; repeat split_if; eauto).
    unfold is_hex_char at 1 2.
    destruct (Hc h) as [->|[hi ->]], (Hc l) as [->|[lo ->]]; simpl; try done.
    destruct (forallb is_hex_char hex); [destruct IH as [bs ->]; eauto|by rewrite IH].
Qed.

Lemma pad_bytes_left_ok src n :
  zlen src <= n ->
  pad_bytes_left src n = Ok (replicate (Z.to_nat (n - zlen src)) 0 ++ src).
Proof.
  intros Hn. unfold pad_bytes_left. pose proof (zlen_nonneg src).
  destruct (Z.ltb_spec n (zlen src)); [lia|].
  destruct (Z.eqb_spec (zlen src) n) as [<-|]; [by rewrite Z.sub_diag|].
  f_equal. unfold overwrite. rewrite take_replicate, drop_ge, app_nil_r.
  - do 2 f_equal. lia.
  - rewrite length_replicate. unfold zlen in *. lia.
Qed.

Lemma of_le_bytes_zeros l n : of_le_bytes (l ++ replicate n 0) = of_le_bytes l.
Proof.
  rewrite of_le_bytes_app.
  assert (of_le_bytes (replicate n 0) = 0) as ->; [|lia].
  induction n; simpl; lia.
Qed.

Lemma of_be_bytes_pad n l : of_be_bytes (replicate n 0 ++ l) = of_be_bytes l.
Proof.
  unfold of_be_bytes. rewrite rev_app_distr.
  assert (rev (replicate n 0) = replicate n 0) as ->
    by (rewrite rev_alt; apply reverse_replicate).
  apply of_le_bytes_zeros.
Qed.

(** ** Properties *)

(** Hexadecimal text round trips: printing and parsing any byte sequence
    is the identity; parsing succeeds exactly on even-length strings of hex
    digits, and then printing gives the text back in lower case; every other
    input raises [invalid_argument]. *)
Theorem hex_roundtrip :
  (forall bs, bytes_ok bs -> hex_to_bytes (bytes_to_hex bs) = Ok bs) /\
  (forall hex, match hex_to_bytes hex with
     | Ok bs => bytes_ok bs /\ bytes_to_hex bs = map tolower hex /\
                zlen hex mod 2 = 0 /\ forallb is_hex_char hex = true
     | Throw e => (exists w, e = invalid_argument w) /\
                  (zlen hex mod 2 <> 0 \/ forallb is_hex_char hex = false)
     | Undef => False
     end).
Proof.
  split.
  - intros bs Hbs. unfold hex_to_bytes.
    rewrite zlen_bytes_to_hex, Z.mul_comm, Z.mod_mul by lia. by apply hex_pairs_bytes.
  - intros hex. unfold hex_to_bytes.
    destruct (Z.eqb_spec (zlen hex mod 2) 0) as [E|E]; simpl; [|eauto].
    pose proof (hex_pairs_ok_iff hex E) as H.
    destruct (forallb is_hex_char hex).
    + destruct H as [bs H]. rewrite H. destruct (hex_pairs_inv _ _ H). auto.
    + rewrite H. eauto.
Qed.

(** Left padding yields exactly the target size and keeps the big-endian
    value of the bytes; a source that is too long raises an exception instead
    of being truncated. *)
Theorem pad_bytes_left_correct (src : list Z) (n : Z) :
  match pad_bytes_left src n with
  | Ok r => zlen src <= n /\ zlen r = n /\ of_be_bytes r = of_be_bytes src /\
            drop (Z.to_nat (n - zlen src)) r = src
  | Throw e => n < zlen src /\ e = invalid_argument "[HexUtils] Source bytes longer than target size"
  | Undef => False
  end.
Proof.
  destruct (decide (zlen src <= n)) as [Hn|Hn].
  - rewrite pad_bytes_left_ok by done. split_and!; auto using of_be_bytes_pad.
    + zlia.
    + by rewrite drop_app_length' by (by rewrite length_replicate).
  - unfold pad_bytes_left. destruct (Z.ltb_spec n (zlen src)); [done|lia].
Qed.
