(* ===== verification/NetUtils.v ===== *)
(** * NetUtils (src/common/utils/NetUtils.hpp) *)

From S2P Require Import Prelude Machine.

Definition uint32_to_ip_be (ip_be : Z) : string :=
  let a := Z.land (Z.shiftr ip_be 24) 0xFF in
  let b := Z.land (Z.shiftr ip_be 16) 0xFF in
  let c := Z.land (Z.shiftr ip_be 8) 0xFF in
  let d := Z.land ip_be 0xFF in
  pretty a +:+ "." +:+ pretty b +:+ "." +:+ pretty c +:+ "." +:+ pretty d.

Definition uint32_to_ip_le (ip_le : Z) : string :=
  let a := Z.land ip_le 0xFF in
  let b := Z.land (Z.shiftr ip_le 8) 0xFF in
  let c := Z.land (Z.shiftr ip_le 16) 0xFF in
  let d := Z.land (Z.shiftr ip_le 24) 0xFF in
  pretty a +:+ "." +:+ pretty b +:+ "." +:+ pretty c +:+ "." +:+ pretty d.

(** The dotted quad of four octets. *)
Definition dotted (octets : list Z) : string :=
  match octets with
  | [a; b; c; d] => pretty a +:+ "." +:+ pretty b +:+ "." +:+ pretty c +:+ "." +:+ pretty d
  | _ => ""
  end.

(** ** Lemmas *)
Lemma land_255 v : Z.land v 0xFF = v mod 256.
Proof. change 0xFF with (Z.ones 8). by rewrite Z.land_ones. Qed.

Lemma ip_octets v :
  le_bytes 4 v = [Z.land v 0xFF; Z.land (Z.shiftr v 8) 0xFF;
                  Z.land (Z.shiftr v 16) 0xFF; Z.land (Z.shiftr v 24) 0xFF].
Proof.
  rewrite !land_255, !Z.shiftr_div_pow2 by lia. simpl.
  change (2 ^ 8) with 256. change (2 ^ 16) with (256 * 256). change (2 ^ 24) with (256 * 256 * 256).
  by rewrite <- !Z.div_div by lia.
Qed.

Lemma uint32_to_ip_be_dotted v : uint32_to_ip_be v = dotted (be_bytes 4 v).
Proof. unfold be_bytes. by rewrite ip_octets. Qed.

Lemma uint32_to_ip_le_dotted v : uint32_to_ip_le v = dotted (le_bytes 4 v).
Proof. by rewrite ip_octets. Qed.

(** Splitting at the first dot inverts the concatenation. *)
Fixpoint until_dot (s : string) : string * string :=
  match s with
  | EmptyString => ("", "")
  | String c s =>
      if decide (c = "."%char) then ("", s)
      else let '(p, r) := until_dot s in (String c p, r)
  end.

Fixpoint no_dot (s : string) : bool :=
  match s with
  | EmptyString => true
  | String c s => negb (bool_decide (c = "."%char)) && no_dot s
  end.

Lemma until_dot_app p r : no_dot p = true -> until_dot (p +:+ "." +:+ r) = (p, r).
Proof.
  induction p as [|c p IH]; simpl; [done|]. intros [Hc Hp]%andb_prop.
  apply negb_true_iff, bool_decide_eq_false in Hc.
  rewrite decide_False by done. by rewrite IH.
Qed.

Lemma octet_no_dot b : byte_ok b -> no_dot (pretty b) = true.
Proof. apply (byte_forall (fun b => no_dot (pretty b))). vm_compute. reflexivity. Qed.

Lemma dot_cancel a b r r' :
  byte_ok a -> byte_ok b -> pretty a +:+ "." +:+ r = pretty b +:+ "." +:+ r' -> a = b /\ r = r'.
Proof.
  intros Ha Hb E. apply (f_equal until_dot) in E.
  rewrite !until_dot_app in E by (by apply octet_no_dot).
  injection E as E ->. split; [|done]. by apply (inj pretty).
Qed.

Lemma dotted_inj xs ys :
  bytes_ok xs -> bytes_ok ys -> length xs = 4%nat -> length ys = 4%nat ->
  dotted xs = dotted ys -> xs = ys.
Proof.
  destruct xs as [|a [|b [|c [|d [|]]]]], ys as [|a' [|b' [|c' [|d' [|]]]]]; try done.
  rewrite !Forall_cons. intros (? & ? & ? & ? & _) (? & ? & ? & ? & _) _ _ E. unfold dotted in E.
  apply dot_cancel in E as [-> E]; auto. apply dot_cancel in E as [-> E]; auto.
  apply dot_cancel in E as [-> E]; auto. apply (inj pretty) in E as ->. done.
Qed.

(** ** Properties *)

(** The two address printers agree up to byte order (the LE printer of a
    byte-swapped address is the BE printer of the address), and the text
    determines the address: distinct 32-bit addresses print differently. *)
Theorem uint32_to_ip_faithful (ip ip' : Z) :
  0 <= ip < 2 ^ 32 -> 0 <= ip' < 2 ^ 32 ->
  uint32_to_ip_le (bswap 4 ip) = uint32_to_ip_be ip /\
  (uint32_to_ip_be ip = uint32_to_ip_be ip' -> ip = ip') /\
  (uint32_to_ip_le ip = uint32_to_ip_le ip' -> ip = ip').
Proof.
  intros H H'. rewrite !uint32_to_ip_be_dotted, !uint32_to_ip_le_dotted, le_bytes_bswap.
  assert (forall v w, 0 <= v < 2 ^ 32 -> 0 <= w < 2 ^ 32 ->
    dotted (le_bytes 4 v) = dotted (le_bytes 4 w) -> v = w) as Hle.
  { intros v w Hv Hw E. apply (le_bytes_inj 4); auto.
    apply dotted_inj; auto using length_le_bytes. }
  split_and!; auto. intros E. apply (le_bytes_inj 4); auto.
  apply dotted_inj in E; auto; [|by unfold be_bytes; rewrite length_rev, length_le_bytes..].
  unfold be_bytes in E. apply (f_equal (@rev Z)) in E. by rewrite !rev_involutive in E.
Qed.

Lemma uint32_to_ip_faithful_witness :
  uint32_to_ip_le (bswap 4 0x7F000001) = "127.0.0.1".
Proof.
  destruct (uint32_to_ip_faithful 0x7F000001 0) as [E _]; [lia|lia|].
  rewrite E. reflexivity.
Defined.
