(* ===== verification/UTF8Utils.v ===== *)
(** * UTF8Utils (src/common/utils/utf8utils/UTF8Utils.cpp)

    UTF-8 validation and ASCII case mapping of account names.  The loops walk
    an index [i] over the string; here they walk the suffix that starts at
    [i], so [i + k >= len] is "fewer than [k + 1] bytes left". *)

From Stdlib Require Import ZifyBool.
From S2P Require Import Prelude Machine.

Fixpoint is_valid_utf8 (bytes : list Z) : bool :=
  match bytes with
  | [] => true
  | c :: s1 =>
      if c <=? 0x7F then is_valid_utf8 s1
      else if Z.land c 0xE0 =? 0xC0 then
        match s1 with
        | b1 :: s2 =>
            if negb (Z.land b1 0xC0 =? 0x80) then false
            else if c <? 0xC2 then false
            else is_valid_utf8 s2
        | _ => false
        end
      else if Z.land c 0xF0 =? 0xE0 then
        match s1 with
        | b1 :: b2 :: s3 =>
            if negb (Z.land b1 0xC0 =? 0x80) then false
            else if negb (Z.land b2 0xC0 =? 0x80) then false
            else if (c =? 0xE0) && (b1 <? 0xA0) then false
            else if (c =? 0xED) && (0xA0 <=? b1) then false
            else is_valid_utf8 s3
        | _ => false
        end
      else if Z.land c 0xF8 =? 0xF0 then
        match s1 with
        | b1 :: b2 :: b3 :: s4 =>
            if negb (Z.land b1 0xC0 =? 0x80) then false
            else if negb (Z.land b2 0xC0 =? 0x80) then false
            else if negb (Z.land b3 0xC0 =? 0x80) then false
            else if (c =? 0xF0) && (b1 <? 0x90) then false
            else if 0xF4 <? c then false
            else is_valid_utf8 s4
        | _ => false
        end
      else false
  end.

(** The length of a multibyte sequence by its first byte. *)
Definition sequence_length (c : Z) : nat :=
  if Z.land c 0xE0 =? 0xC0 then 2
  else if Z.land c 0xF0 =? 0xE0 then 3
  else if Z.land c 0xF8 =? 0xF0 then 4
  else 1.

(** The loop shared by [to_lowercase] and [to_uppercase]: ASCII bytes go
    through [conv], a multibyte sequence is appended with [substr], which
    stops at the end of the string.  Every iteration consumes a byte, so the
    length of the string is enough fuel. *)
Fixpoint case_loop (conv : Z -> Z) (fuel : nat) (str : list Z) : list Z :=
  match fuel, str with
  | S fuel, c :: rest =>
      if c <=? 0x7F then conv c :: case_loop conv fuel rest
      else
        let length := sequence_length c in
        take length str ++ case_loop conv fuel (drop length str)
  | _, _ => []
  end.

Definition to_lowercase (str : list Z) : list Z := case_loop tolower (length str) str.
Definition to_uppercase (str : list Z) : list Z := case_loop toupper (length str) str.

(** ** Reference: the UTF-8 encoding of a code point *)

Definition utf8_encode (cp : Z) : list Z :=
  if cp <? 0x80 then [cp]
  else if cp <? 0x800 then [0xC0 + cp / 64; 0x80 + cp mod 64]
  else if cp <? 0x10000 then
    [0xE0 + cp / 4096; 0x80 + (cp / 64) mod 64; 0x80 + cp mod 64]
  else
    [0xF0 + cp / 262144; 0x80 + (cp / 4096) mod 64; 0x80 + (cp / 64) mod 64; 0x80 + cp mod 64].

(** Unicode scalar values, and the slightly larger range the code accepts. *)
Definition unicode_scalar (cp : Z) : Prop :=
  0 <= cp < 0x110000 /\ ~ (0xD800 <= cp < 0xE000).
Definition accepted (cp : Z) : Prop :=
  0 <= cp < 0x140000 /\ ~ (0xD800 <= cp < 0xE000).

Definition utf8_string (cps : list Z) : list Z := concat (map utf8_encode cps).

(** ** Lemmas: the mask tests are range tests *)
Lemma cont_test b : byte_ok b -> (Z.land b 0xC0 =? 0x80) = (0x80 <=? b) && (b <? 0xC0).
Proof.
  intros H. apply eqb_prop.
  apply (byte_forall (fun b => eqb (Z.land b 0xC0 =? 0x80) ((0x80 <=? b) && (b <? 0xC0)))); done.
Qed.

Lemma lead2_test c : byte_ok c -> (Z.land c 0xE0 =? 0xC0) = (0xC0 <=? c) && (c <? 0xE0).
Proof.
  intros H. apply eqb_prop.
  apply (byte_forall (fun b => eqb (Z.land b 0xE0 =? 0xC0) ((0xC0 <=? b) && (b <? 0xE0)))); done.
Qed.

Lemma lead3_test c : byte_ok c -> (Z.land c 0xF0 =? 0xE0) = (0xE0 <=? c) && (c <? 0xF0).
Proof.
  intros H. apply eqb_prop.
  apply (byte_forall (fun b => eqb (Z.land b 0xF0 =? 0xE0) ((0xE0 <=? b) && (b <? 0xF0)))); done.
Qed.

Lemma lead4_test c : byte_ok c -> (Z.land c 0xF8 =? 0xF0) = (0xF0 <=? c) && (c <? 0xF8).
Proof.
  intros H. apply eqb_prop.
  apply (byte_forall (fun b => eqb (Z.land b 0xF8 =? 0xF0) ((0xF0 <=? b) && (b <? 0xF8)))); done.
Qed.

Create Rewrite HintDb utf8.
#[export] Hint Rewrite cont_test lead2_test lead3_test lead4_test using (done || (unfold byte_ok; lia)) : utf8.

(** Decides the remaining comparisons by [lia]. *)
Ltac decide_cmp :=
  repeat (match goal with
  | |- context [?a <=? ?b] => destruct (Z.leb_spec a b); try lia
  | |- context [?a <? ?b] => destruct (Z.ltb_spec a b); try lia
  | |- context [?a =? ?b] => destruct (Z.eqb_spec a b); try lia
  end; simpl).

Lemma utf8_encode_ok cp : accepted cp -> bytes_ok (utf8_encode cp).
Proof.
  intros [H _]. unfold utf8_encode.
  repeat split_if; bool_to_prop; repeat constructor; Z.div_mod_to_equations; lia.
Qed.

Lemma utf8_encode_inv1 c : 0 <= c <= 0x7F -> utf8_encode c = [c].
Proof. intros. unfold utf8_encode. by decide_cmp. Qed.

Lemma utf8_encode_inv2 c b1 :
  0xC2 <= c < 0xE0 -> 0x80 <= b1 < 0xC0 ->
  utf8_encode ((c - 0xC0) * 64 + (b1 - 0x80)) = [c; b1].
Proof.
  intros. unfold utf8_encode. decide_cmp. repeat f_equal; Z.div_mod_to_equations; lia.
Qed.

Lemma utf8_encode_inv3 c b1 b2 :
  0xE0 <= c < 0xF0 -> 0x80 <= b1 < 0xC0 -> 0x80 <= b2 < 0xC0 -> (c = 0xE0 -> 0xA0 <= b1) ->
  utf8_encode ((c - 0xE0) * 4096 + (b1 - 0x80) * 64 + (b2 - 0x80)) = [c; b1; b2].
Proof.
  intros. unfold utf8_encode. decide_cmp. repeat f_equal; Z.div_mod_to_equations; lia.
Qed.

Lemma utf8_encode_inv4 c b1 b2 b3 :
  0xF0 <= c <= 0xF4 -> 0x80 <= b1 < 0xC0 -> 0x80 <= b2 < 0xC0 -> 0x80 <= b3 < 0xC0 ->
  (c = 0xF0 -> 0x90 <= b1) ->
  utf8_encode ((c - 0xF0) * 262144 + (b1 - 0x80) * 4096 + (b2 - 0x80) * 64 + (b3 - 0x80))
  = [c; b1; b2; b3].
Proof.
  intros. unfold utf8_encode. decide_cmp. repeat f_equal; Z.div_mod_to_equations; lia.
Qed.

(** An encoded code point is skipped by the validator. *)
Lemma is_valid_utf8_encode cp s :
  accepted cp -> is_valid_utf8 (utf8_encode cp ++ s) = is_valid_utf8 s.
Proof.
  intros Ha. pose proof (utf8_encode_ok cp Ha) as Hok. destruct Ha as [Hr Hs].
  unfold utf8_encode in *. pose proof (Z.mod_pos_bound cp 64 eq_refl).
  pose proof (Z.mod_pos_bound (cp / 64) 64 eq_refl).
  pose proof (Z.mod_pos_bound (cp / 4096) 64 eq_refl).
  repeat split_if; bool_to_prop; simpl; rewrite ?Forall_cons in Hok; destruct_and?;
    autorewrite with utf8; decide_cmp; try done; Z.div_mod_to_equations; lia.
Qed.

(** A non-empty accepted string starts with an encoded code point. *)
Lemma is_valid_utf8_cons c s :
  bytes_ok (c :: s) -> is_valid_utf8 (c :: s) = true ->
  exists cp rest, accepted cp /\ c :: s = utf8_encode cp ++ rest /\ is_valid_utf8 rest = true.
Proof.
  intros Hok. simpl. rewrite Forall_cons in Hok. destruct Hok as [Hc Hs].
  pose proof Hc as Hc'. unfold byte_ok in Hc'. autorewrite with utf8.
  destruct (Z.leb_spec c 0x7F).
  { intros Hv. exists c, s. rewrite utf8_encode_inv1 by lia.
    split_and!; auto. unfold accepted. lia. }
  destruct ((0xC0 <=? c) && (c <? 0xE0)) eqn:E2; bool_to_prop.
  { destruct s as [|b1 s]; [done|]. rewrite Forall_cons in Hs. destruct_and!.
    autorewrite with utf8. repeat split_if; try done. bool_to_prop. intros Hv.
    eexists _, s. rewrite (utf8_encode_inv2 c b1) by lia. split_and!; auto. unfold accepted. lia. }
  destruct ((0xE0 <=? c) && (c <? 0xF0)) eqn:E3; bool_to_prop.
  { destruct s as [|b1 [|b2 s]]; [done..|]. rewrite !Forall_cons in Hs. destruct_and!.
    autorewrite with utf8. clear E2. repeat split_if; try done. intros Hv.
    eexists _, s. rewrite (utf8_encode_inv3 c b1 b2) by lia.
    split_and!; auto; unfold accepted; lia. }
  destruct ((0xF0 <=? c) && (c <? 0xF8)) eqn:E4; bool_to_prop; [|done].
  destruct s as [|b1 [|b2 [|b3 s]]]; [done..|]. rewrite !Forall_cons in Hs. destruct_and!.
  autorewrite with utf8. clear E2 E3. repeat split_if; try done. intros Hv.
  eexists _, s. rewrite (utf8_encode_inv4 c b1 b2 b3) by lia.
  split_and!; auto; unfold accepted; lia.
Qed.

Lemma utf8_encode_nonempty cp : utf8_encode cp <> [].
Proof. unfold utf8_encode. by repeat split_if. Qed.

Lemma is_valid_utf8_sound s :
  bytes_ok s -> is_valid_utf8 s = true -> exists cps, Forall accepted cps /\ s = utf8_string cps.
Proof.
  induction s as [s IH] using (induction_ltof1 _ (@length Z)). unfold ltof in IH.
  intros Hok Hv. destruct s as [|c s]; [by exists []|].
  destruct (is_valid_utf8_cons c s Hok Hv) as (cp & rest & Ha & E & Hr).
  rewrite E in *. apply Forall_app in Hok as [_ Hok].
  destruct (IH rest) as (cps & Hcps & ->); auto.
  { rewrite length_app. pose proof (utf8_encode_nonempty cp).
    destruct (utf8_encode cp); [done|simpl; lia]. }
  exists (cp :: cps). split; [by constructor|done].
Qed.

Lemma is_valid_utf8_complete cps :
  Forall accepted cps -> is_valid_utf8 (utf8_string cps) = true.
Proof.
  unfold utf8_string. induction 1 as [|cp cps Ha Hcps IH]; simpl; [done|].
  by rewrite is_valid_utf8_encode.
Qed.

(** ** Case mapping *)

Definition ascii_map (conv : Z -> Z) (c : Z) : Z := if c <=? 0x7F then conv c else c.

Lemma ascii_map_high conv c : 0x7F < c -> ascii_map conv c = c.
Proof. intros. unfold ascii_map. destruct (Z.leb_spec c 0x7F); [lia|done]. Qed.

Lemma map_ascii_map_high conv r : Forall (fun b => 0x7F < b) r -> map (ascii_map conv) r = r.
Proof. induction 1; simpl; [done|]. by rewrite ascii_map_high, IHForall. Qed.

Lemma sequence_length_pos c : (1 <= sequence_length c)%nat.
Proof. unfold sequence_length. repeat split_if; lia. Qed.

Lemma case_loop_length conv fuel s :
  (length s <= fuel)%nat -> length (case_loop conv fuel s) = length s.
Proof.
  revert s. induction fuel as [|fuel IH]; intros [|c s] Hf; simpl in *; try done; try lia.
  destruct (c <=? 0x7F); simpl; [rewrite IH by lia; lia|].
  pose proof (sequence_length_pos c).
  rewrite length_app, length_take, IH by (rewrite length_drop; simpl; lia).
  rewrite length_drop. simpl. lia.
Qed.

Lemma utf8_encode_shape cp :
  accepted cp ->
  (exists c, utf8_encode cp = [c] /\ 0 <= c <= 0x7F) \/
  (exists c r, utf8_encode cp = c :: r /\ 0x7F < c /\ sequence_length c = length (c :: r) /\
     Forall (fun b => 0x7F < b) r).
Proof.
  intros Ha. pose proof (utf8_encode_ok cp Ha) as Hok. destruct Ha as [Hr Hs].
  unfold utf8_encode in *. pose proof (Z.mod_pos_bound cp 64 eq_refl).
  pose proof (Z.mod_pos_bound (cp / 64) 64 eq_refl).
  pose proof (Z.mod_pos_bound (cp / 4096) 64 eq_refl).
  repeat split_if; bool_to_prop; [left; eauto with lia|right..];
    rewrite ?Forall_cons in Hok; destruct_and?; do 2 eexists; (split; [reflexivity|]);
    (split; [Z.div_mod_to_equations; lia|]);
    (split; [|repeat constructor; lia]); unfold sequence_length; autorewrite with utf8;
    decide_cmp; try done; Z.div_mod_to_equations; lia.
Qed.

Lemma case_loop_utf8 conv cps : forall fuel,
  Forall accepted cps -> (length (utf8_string cps) <= fuel)%nat ->
  case_loop conv fuel (utf8_string cps) = map (ascii_map conv) (utf8_string cps).
Proof.
  induction cps as [|cp cps IH]; intros fuel Ha Hf; [by destruct fuel|].
  apply Forall_cons in Ha as [Hcp Ha]. unfold utf8_string in *. simpl in *.
  destruct (utf8_encode_shape cp Hcp) as [(c & E & Hc)|(c & r & E & Hc & Hl & Hr)];
    rewrite E in *; simpl in *; (destruct fuel; [lia|]); simpl.
  - unfold ascii_map at 1. destruct (Z.leb_spec c 0x7F); [|lia]. by rewrite IH by (auto; lia).
  - unfold ascii_map at 1. destruct (Z.leb_spec c 0x7F); [lia|].
    rewrite Hl. simpl. f_equal.
    rewrite take_app_length, drop_app_length, map_app, IH; auto.
    + by rewrite (map_ascii_map_high conv r).
    + rewrite length_app in Hf. lia.
Qed.

Lemma toupper_ascii c : 0 <= c <= 0x7F -> 0 <= toupper c <= 0x7F.
Proof. intros. unfold toupper. split_if; bool_to_prop; lia. Qed.

(** Mapping ASCII letters keeps an encoded string an encoded string. *)
Lemma utf8_string_map conv cps :
  (forall c, 0 <= c <= 0x7F -> 0 <= conv c <= 0x7F) -> Forall accepted cps ->
  map (ascii_map conv) (utf8_string cps) = utf8_string (map (ascii_map conv) cps) /\
  Forall accepted (map (ascii_map conv) cps).
Proof.
  intros Hconv. unfold utf8_string. induction 1 as [|cp cps Hcp Ha [IH1 IH2]]; simpl; [done|].
  rewrite map_app, IH1.
  destruct (decide (cp <= 0x7F)) as [Hlt|Hlt].
  - assert (0 <= cp <= 0x7F) as Hc by (destruct Hcp; lia). specialize (Hconv cp Hc).
    assert (ascii_map conv cp = conv cp) as Em
      by (unfold ascii_map; destruct (Z.leb_spec cp 0x7F); [done|lia]).
    rewrite utf8_encode_inv1 by done. simpl. rewrite Em, utf8_encode_inv1 by done.
    split; [done|]. constructor; [unfold accepted; lia|done].
  - rewrite ascii_map_high by lia. split; [|by constructor]. f_equal.
    destruct (utf8_encode_shape cp Hcp) as [(c & E & Hc)|(c & r & E & Hc & Hl & Hr)].
    + unfold utf8_encode in E. exfalso. revert E. repeat split_if; bool_to_prop; intros [= ]; lia.
    + rewrite E. apply map_ascii_map_high. by constructor.
Qed.

Lemma toupper_idempotent c : toupper (toupper c) = toupper c.
Proof. unfold toupper. repeat split_if; bool_to_prop; lia. Qed.

Lemma ascii_map_toupper_idempotent c :
  ascii_map toupper (ascii_map toupper c) = ascii_map toupper c.
Proof.
  unfold ascii_map. destruct (Z.leb_spec c 0x7F) as [H|H].
  - destruct (toupper c <=? 0x7F); [apply toupper_idempotent|done].
  - destruct (Z.leb_spec c 0x7F); [lia|done].
Qed.

(** ** Properties *)

(** C35: the validator accepts exactly the byte strings that are the UTF-8
    encoding (shortest form, no surrogates) of code points below U+140000; in
    particular it accepts the encoding of every sequence of Unicode scalar
    values. *)
Theorem is_valid_utf8_exact (s : list Z) :
  bytes_ok s ->
  (is_valid_utf8 s = true <-> exists cps, Forall accepted cps /\ s = utf8_string cps) /\
  (forall cps, Forall unicode_scalar cps -> s = utf8_string cps -> is_valid_utf8 s = true).
Proof.
  intros Hok. split; [split|].
  - by apply is_valid_utf8_sound.
  - intros (cps & Ha & ->). by apply is_valid_utf8_complete.
  - intros cps Hu ->. apply is_valid_utf8_complete. eapply Forall_impl; [exact Hu|].
    unfold unicode_scalar, accepted. lia.
Qed.

(** A two-letter Cyrillic name and an overlong encoding. *)
Lemma is_valid_utf8_exact_witness :
  is_valid_utf8 [0xD0; 0x9F; 0xD1; 0x83] = true /\
  ~ (exists cps, Forall accepted cps /\ [0xC0; 0x80] = utf8_string cps).
Proof.
  split.
  - apply (is_valid_utf8_exact [0xD0; 0x9F; 0xD1; 0x83]) with (cps := [0x41F; 0x443]).
    + repeat constructor; lia.
    + repeat constructor; lia.
    + reflexivity.
  - intros H. apply (is_valid_utf8_exact [0xC0; 0x80]) in H; [discriminate|].
    repeat constructor; lia.
Defined.

(** The check after a lead byte F4 is missing, so four-byte sequences for
    U+110000 to U+13FFFF, which are not Unicode characters, pass as valid. *)
Theorem is_valid_utf8_beyond_unicode (cp : Z) :
  0x110000 <= cp < 0x140000 ->
  is_valid_utf8 (utf8_encode cp) = true /\ ~ unicode_scalar cp.
Proof.
  intros H. split; [|unfold unicode_scalar; lia].
  rewrite <- (app_nil_r (utf8_encode cp)), is_valid_utf8_encode; [done|].
  unfold accepted. lia.
Qed.

Lemma is_valid_utf8_beyond_unicode_witness : is_valid_utf8 [0xF4; 0x90; 0x80; 0x80] = true.
Proof. apply (is_valid_utf8_beyond_unicode 0x110000). lia. Defined.

(** On a name that passed the validator, [to_uppercase] maps exactly the
    ASCII letters and leaves every byte of a multibyte character alone; the
    result has the same length, is again valid, and is a fixed point, so the
    cache and database key of an account does not depend on the letter case
    the client typed. *)
Theorem to_uppercase_correct (s : list Z) :
  bytes_ok s -> is_valid_utf8 s = true ->
  to_uppercase s = map (ascii_map toupper) s /\
  length (to_uppercase s) = length s /\
  is_valid_utf8 (to_uppercase s) = true /\
  to_uppercase (to_uppercase s) = to_uppercase s /\
  to_uppercase (to_lowercase s) = to_uppercase s.
Proof.
  intros Hok Hv. destruct (is_valid_utf8_sound s Hok Hv) as (cps & Ha & ->).
  assert (forall cps, Forall accepted cps ->
    to_uppercase (utf8_string cps) = map (ascii_map toupper) (utf8_string cps)) as Hup
    by (intros; by apply case_loop_utf8).
  destruct (utf8_string_map toupper cps toupper_ascii Ha) as [E Ha'].
  destruct (utf8_string_map tolower cps) as [El Hl]; auto.
  { intros c ?. unfold tolower. split_if; bool_to_prop; lia. }
  split_and!; auto.
  - by apply case_loop_length.
  - rewrite Hup, E by done. by apply is_valid_utf8_complete.
  - rewrite (Hup _ Ha), E, Hup, <- E, map_map by done.
    apply map_ext. apply ascii_map_toupper_idempotent.
  - unfold to_lowercase. rewrite case_loop_utf8, El, Hup, Hup, <- El, map_map by done.
    apply map_ext. intros c. unfold ascii_map. destruct (Z.leb_spec c 0x7F) as [H|H].
    + unfold tolower. repeat split_if; bool_to_prop; unfold toupper; repeat split_if; bool_to_prop; lia.
    + by destruct (Z.leb_spec c 0x7F); [lia|].
Qed.

Lemma to_uppercase_correct_witness : to_uppercase [98; 0xD1; 0x83; 66] = [66; 0xD1; 0x83; 66].
Proof.
  destruct (to_uppercase_correct [98; 0xD1; 0x83; 66]) as [E _].
  - repeat constructor; lia.
  - reflexivity.
  - rewrite E. reflexivity.
Defined.
