(* ===== verification/OpenSSL.v ===== *)
(** * The OpenSSL functions SRP6 calls

    OpenSSL is not part of the repository: its digest and big number
    functions are the operations of the class [OpenSSL], and what their manual
    pages promise is the class [OpenSSLLaws].  [reference] is an executable
    instance (SHA-1 as in FIPS 180-4, the arithmetic on [Z]), with its laws,
    which shows that the laws can hold and lets the code run on concrete
    inputs. *)

From Stdlib Require Import Zpow_facts.
From S2P Require Import Prelude Machine HexUtils.

Class OpenSSL := {
  (** [SHA1(d, n, md)]: the digest written to [md] *)
  SHA1 : list Z -> list Z;
  (** [BN_num_bytes], [BN_bn2bin], [BN_bin2bn], [BN_hex2bn], [BN_get_word] *)
  num_bytes : Z -> Z;
  bn2bin : Z -> list Z;
  bin2bn : list Z -> Z;
  hex2bn : list Z -> Z;
  get_word : Z -> Z;
  (** the value of [r] after [BN_mod_exp(r, a, p, m, ctx)], and so on: the
      first argument is the value [r] had before *)
  mod_exp : Z -> Z -> Z -> Z -> Z;
  mod_mul : Z -> Z -> Z -> Z -> Z;
  mod_add : Z -> Z -> Z -> Z -> Z }.

(** A zero modulus is an error the caller would see in the return value: the
    laws say nothing about it. *)
Class OpenSSLLaws (O : OpenSSL) := {
  SHA1_length : forall d, zlen (SHA1 d) = 20;
  SHA1_bytes : forall d, bytes_ok (SHA1 d);
  num_bytes_spec : forall v n, 0 <= v -> 0 <= n -> num_bytes v <= n <-> v < 256 ^ n;
  bn2bin_length : forall v, 0 <= v -> zlen (bn2bin v) = num_bytes v;
  bn2bin_bytes : forall v, bytes_ok (bn2bin v);
  bn2bin_value : forall v, 0 <= v -> of_be_bytes (bn2bin v) = v;
  bin2bn_value : forall s, bin2bn s = of_be_bytes s;
  hex2bn_value : forall hex bs, hex_to_bytes hex = Ok bs -> hex2bn hex = of_be_bytes bs;
  get_word_value : forall v, 0 <= v < 2 ^ 64 -> get_word v = v;
  mod_exp_value : forall r a p m, 0 <= p -> 0 < m -> mod_exp r a p m = (a ^ p) mod m;
  mod_mul_value : forall r a b m, 0 < m -> mod_mul r a b m = (a * b) mod m;
  mod_add_value : forall r a b m, 0 < m -> mod_add r a b m = (a + b) mod m }.

(** ** SHA-1, executable *)

Module Sha1.
Definition rotl (n x : Z) : Z := Z.lor (u32 (Z.shiftl x n)) (Z.shiftr x (32 - n)).
Definition lnot32 (x : Z) : Z := 2 ^ 32 - 1 - x.

Definition pad (msg : list Z) : list Z :=
  msg ++ [0x80] ++ replicate (Z.to_nat ((55 - zlen msg) mod 64)) 0 ++ be_bytes 8 (8 * zlen msg).

Fixpoint words (bs : list Z) : list Z :=
  match bs with
  | a :: b :: c :: d :: bs => of_be_bytes [a; b; c; d] :: words bs
  | _ => []
  end.

(** The message schedule, newest word first. *)
Fixpoint schedule (n : nat) (w : list Z) : list Z :=
  match n with
  | O => w
  | S n =>
      schedule n (rotl 1 (Z.lxor (Z.lxor (nth 2 w 0) (nth 7 w 0))
                                 (Z.lxor (nth 13 w 0) (nth 15 w 0))) :: w)
  end.

Definition round_fk (t b c d : Z) : Z * Z :=
  if t <? 20 then (Z.lor (Z.land b c) (Z.land (lnot32 b) d), 0x5A827999)
  else if t <? 40 then (Z.lxor (Z.lxor b c) d, 0x6ED9EBA1)
  else if t <? 60 then (Z.lor (Z.lor (Z.land b c) (Z.land b d)) (Z.land c d), 0x8F1BBCDC)
  else (Z.lxor (Z.lxor b c) d, 0xCA62C1D6).

Definition state : Type := Z * Z * Z * Z * Z.

Fixpoint rounds (t : Z) (w : list Z) (s : state) : state :=
  match w with
  | [] => s
  | x :: w =>
      let '(a, b, c, d, e) := s in
      let '(f, k) := round_fk t b c d in
      rounds (t + 1) w (u32 (rotl 5 a + f + e + k + x), a, rotl 30 b, c, d)
  end.

Definition block (s : state) (w : list Z) : state :=
  let '(a, b, c, d, e) := s in
  let '(a', b', c', d', e') := rounds 0 (rev (schedule 64 (rev w))) s in
  (u32 (a + a'), u32 (b + b'), u32 (c + c'), u32 (d + d'), u32 (e + e')).

Fixpoint blocks (n : nat) (w : list Z) (s : state) : state :=
  match n with
  | O => s
  | S n => blocks n (drop 16 w) (block s (take 16 w))
  end.

Definition init : state := (0x67452301, 0xEFCDAB89, 0x98BADCFE, 0x10325476, 0xC3D2E1F0).

Definition digest (msg : list Z) : list Z :=
  let p := pad msg in
  let '(a, b, c, d, e) := blocks (Z.to_nat (zlen p / 64)) (words p) init in
  be_bytes 4 a ++ be_bytes 4 b ++ be_bytes 4 c ++ be_bytes 4 d ++ be_bytes 4 e.

Lemma zlen_digest msg : zlen (digest msg) = 20.
Proof. unfold digest. destruct (blocks _ _ _) as [[[[a b] c] d] e]. zlia. Qed.

Lemma digest_ok msg : bytes_ok (digest msg).
Proof.
  unfold digest. destruct (blocks _ _ _) as [[[[a b] c] d] e]. rewrite !Forall_app. auto 10.
Qed.

(** The FIPS 180-4 test vector for "abc". *)
Example digest_abc :
  digest [97; 98; 99] =
  [0xa9; 0x99; 0x3e; 0x36; 0x47; 0x06; 0x81; 0x6a; 0xba; 0x3e;
   0x25; 0x71; 0x78; 0x50; 0xc2; 0x6c; 0x9c; 0xd0; 0xd8; 0x9d].
Proof. vm_compute. reflexivity. Qed.
End Sha1.

(** ** The reference instance *)

(** The number of bytes of a nonnegative value. *)
Definition byte_count (v : Z) : Z := if v =? 0 then 0 else Z.log2 v / 8 + 1.

Lemma byte_count_spec v n : 0 <= v -> 0 <= n -> byte_count v <= n <-> v < 256 ^ n.
Proof.
  intros Hv Hn. unfold byte_count. change 256 with (2 ^ 8). rewrite <- Z.pow_mul_r by lia.
  destruct (Z.eqb_spec v 0) as [->|Hnz].
  - split; [intros; apply Z.pow_pos_nonneg; lia|lia].
  - rewrite Z.log2_lt_pow2 by lia.
    assert (Z.log2 v / 8 + 1 <= n <-> Z.log2 v / 8 < n) as -> by lia.
    split; intros; [|apply Z.div_lt_upper_bound; lia].
    pose proof (Z.div_mod (Z.log2 v) 8). pose proof (Z.mod_pos_bound (Z.log2 v) 8). lia.
Qed.

Lemma byte_count_nonneg v : 0 <= byte_count v.
Proof.
  unfold byte_count. destruct (v =? 0); [lia|].
  pose proof (Z.log2_nonneg v). pose proof (Z.div_pos (Z.log2 v) 8). lia.
Qed.

Definition reference : OpenSSL := {|
  SHA1 := Sha1.digest;
  num_bytes := byte_count;
  bn2bin v := be_bytes (Z.to_nat (byte_count v)) v;
  bin2bn := of_be_bytes;
  hex2bn hex := match hex_to_bytes hex with Ok bs => of_be_bytes bs | _ => 0 end;
  get_word v := if v <? 2 ^ 64 then v else 2 ^ 64 - 1;
  mod_exp r a p m := if m =? 0 then r else Zpow_mod a p m;
  mod_mul r a b m := if m =? 0 then r else (a * b) mod m;
  mod_add r a b m := if m =? 0 then r else (a + b) mod m |}.

#[export] Instance reference_laws : OpenSSLLaws reference.
Proof.
  constructor; simpl.
  - apply Sha1.zlen_digest.
  - apply Sha1.digest_ok.
  - apply byte_count_spec.
  - intros v Hv. pose proof (byte_count_nonneg v). zlia.
  - done.
  - intros v Hv. rewrite of_be_be_bytes. pose proof (byte_count_nonneg v).
    apply Z.mod_small. split; [done|]. apply byte_count_spec; lia.
  - done.
  - by intros hex bs ->.
  - intros v Hv. destruct (Z.ltb_spec v (2 ^ 64)); lia.
  - intros r a p m Hp Hm. destruct (Z.eqb_spec m 0); [lia|]. by apply Zpow_mod_correct; lia.
  - intros r a b m Hm. destruct (Z.eqb_spec m 0); [lia|done].
  - intros r a b m Hm. destruct (Z.eqb_spec m 0); [lia|done].
Qed.

(** ** Consequences of the laws *)

Section consequences.
Context {O : OpenSSL} {L : OpenSSLLaws O}.

Lemma num_bytes_le v n : 0 <= v < 256 ^ n -> 0 <= n -> num_bytes v <= n.
Proof. intros [? ?] ?. by apply num_bytes_spec. Qed.

(** A value below [256 ^ n], padded to [n] bytes, is its big-endian form. *)
Lemma pad_bn2bin v n :
  0 <= v < 256 ^ n -> 0 <= n ->
  pad_bytes_left (bn2bin v) n = Ok (be_bytes (Z.to_nat n) v).
Proof.
  intros Hv Hn. pose proof (num_bytes_le v n Hv Hn).
  rewrite pad_bytes_left_ok by (rewrite bn2bin_length; lia). f_equal.
  rewrite <- (be_of_be_bytes (replicate _ 0 ++ bn2bin v)).
  - rewrite of_be_bytes_pad, bn2bin_value by lia. f_equal.
    rewrite length_app, length_replicate.
    assert (length (bn2bin v) = Z.to_nat (num_bytes v)) as ->
      by (rewrite <- bn2bin_length by lia; unfold zlen; lia).
    rewrite bn2bin_length by lia. pose proof (zlen_nonneg (bn2bin v)) as H0.
    rewrite bn2bin_length in H0 by lia. lia.
  - apply Forall_app. split; [apply Forall_replicate; unfold byte_ok; lia|apply bn2bin_bytes].
Qed.
End consequences.
