(* ===== verification/SRP6.v ===== *)
(** * SRP6 (src/common/srp6/SRP6.hpp, SRP6.cpp)

    The password protocol object of a session and of the client.  Its eight
    [BIGNUM*] members point into a heap of big numbers, so that aliasing,
    [BN_new], [BN_free] and lost pointers are what they are in the code; the
    abstract state [View] has the numbers themselves, and [rep] relates the
    two.  The bytes [RAND_bytes] produces are an argument of the operation
    that draws them.  [bn_ctx_] is scratch space of the library and is not
    modelled. *)

From Stdlib Require Import Zpow_facts.
From S2P Require Import Prelude Machine HexUtils OpenSSL.

(** ** State *)

Inductive member := v_ | b_ | B_ | N_ | g_ | k_ | a_ | A_.

#[export] Instance member_eq_dec : EqDecision member.
Proof. solve_decision. Defined.

(** A pointer is the number of a heap cell; 0 is [nullptr]. *)
Record SRP6 := mkSRP6 {
  salt_ : list Z;
  username_ : list Z;
  password_ : list Z;
  ptr : member -> nat;
  last_M1_ : list Z;
  cells : gmap nat Z;
  next_cell : nat }.

Definition set_salt (x : list Z) (s : SRP6) : SRP6 :=
  mkSRP6 x (username_ s) (password_ s) (ptr s) (last_M1_ s) (cells s) (next_cell s).
Definition set_username (x : list Z) (s : SRP6) : SRP6 :=
  mkSRP6 (salt_ s) x (password_ s) (ptr s) (last_M1_ s) (cells s) (next_cell s).
Definition set_password (x : list Z) (s : SRP6) : SRP6 :=
  mkSRP6 (salt_ s) (username_ s) x (ptr s) (last_M1_ s) (cells s) (next_cell s).
Definition set_ptr (m : member) (p : nat) (s : SRP6) : SRP6 :=
  mkSRP6 (salt_ s) (username_ s) (password_ s)
    (fun m' => if decide (m' = m) then p else ptr s m') (last_M1_ s) (cells s) (next_cell s).
Definition set_last_M1 (x : list Z) (s : SRP6) : SRP6 :=
  mkSRP6 (salt_ s) (username_ s) (password_ s) (ptr s) x (cells s) (next_cell s).
Definition set_cells (h : gmap nat Z) (n : nat) (s : SRP6) : SRP6 :=
  mkSRP6 (salt_ s) (username_ s) (password_ s) (ptr s) (last_M1_ s) h n.

(** ** BIGNUM objects *)

(** A [BIGNUM*] argument: a member, or a local variable holding a cell. *)
Inductive bn := Mem (m : member) | Tmp (p : nat).

Definition address (r : bn) (s : SRP6) : nat :=
  match r with Mem m => ptr s m | Tmp p => p end.

Definition BN_new : M SRP6 nat := fun s =>
  (Ok (next_cell s), set_cells (<[next_cell s := 0]> (cells s)) (S (next_cell s)) s).

(** [BN_free(nullptr)] does nothing; freeing a cell that is not allocated is
    undefined. *)
Definition BN_free (r : bn) : M SRP6 unit := fun s =>
  let p := address r s in
  if decide (p = 0%nat) then (Ok tt, s)
  else match cells s !! p with
       | Some _ => (Ok tt, set_cells (delete p (cells s)) (next_cell s) s)
       | None => (Undef, s)
       end.

Definition BN_value (r : bn) : M SRP6 Z := fun s =>
  match cells s !! address r s with Some x => (Ok x, s) | None => (Undef, s) end.

Definition BN_assign (r : bn) (x : Z) : M SRP6 unit := fun s =>
  match cells s !! address r s with
  | Some _ => (Ok tt, set_cells (<[address r s := x]> (cells s)) (next_cell s) s)
  | None => (Undef, s)
  end.

Section srp6.
Context {O : OpenSSL}.

Definition BN_bin2bn (s : list Z) (ret : bn) : M SRP6 unit := BN_assign ret (bin2bn s).
Definition BN_hex2bn (a : bn) (str : list Z) : M SRP6 unit := BN_assign a (hex2bn str).
Definition BN_set_word (a : bn) (w : Z) : M SRP6 unit := BN_assign a w.

(** [BN_bin2bn(s, len, nullptr)] allocates its result. *)
Definition BN_bin2bn_new (s : list Z) : M SRP6 nat :=
  let! p := BN_new in do! BN_bin2bn s (Tmp p) in ret p.

Definition BN_op3 (f : Z -> Z -> Z -> Z -> Z) (r a p m : bn) : M SRP6 unit :=
  let! r0 := BN_value r in
  let! x := BN_value a in
  let! y := BN_value p in
  let! z := BN_value m in
  BN_assign r (f r0 x y z).

Definition BN_mod_exp : bn -> bn -> bn -> bn -> M SRP6 unit := BN_op3 mod_exp.
Definition BN_mod_mul : bn -> bn -> bn -> bn -> M SRP6 unit := BN_op3 mod_mul.
Definition BN_mod_add : bn -> bn -> bn -> bn -> M SRP6 unit := BN_op3 mod_add.

(** [std::vector<uint8_t> raw(BN_num_bytes(r)); BN_bn2bin(r, raw.data());] *)
Definition bn_to_vector (r : bn) : M SRP6 (list Z) :=
  let! x := BN_value r in
  let raw := replicate (Z.to_nat (num_bytes x)) 0 in
  let! x := BN_value r in
  ret (overwrite 0 (bn2bin x) raw).

(** ** Construction and destruction *)

Definition N_hex : string := "B79B3E2A878DBEDF5AD53B139A99D8CEC8DA65FED1BD845FB70F6051754B8D36".

Definition calculate_k : M SRP6 nat :=
  let! N_bin := bn_to_vector (Mem N_) in
  let! g_bin := bn_to_vector (Mem g_) in
  let to_hash := N_bin ++ g_bin in
  let hash := SHA1 to_hash in
  let! result := BN_new in
  do! BN_bin2bn hash (Tmp result) in
  ret result.

Definition init_constants : M SRP6 unit :=
  do! BN_hex2bn (Mem N_) (chars N_hex) in
  do! BN_set_word (Mem g_) 7 in
  let! k := calculate_k in
  modify (set_ptr k_ k).

(** [m = BN_new();] *)
Definition new_member (m : member) : M SRP6 unit :=
  let! p := BN_new in modify (set_ptr m p).

(** The object before the constructor's body: every pointer is [nullptr]. *)
Definition SRP6_zero : SRP6 := mkSRP6 [] [] [] (fun _ => 0%nat) [] ∅ 1.

Definition SRP6_init : M SRP6 unit :=
  do! new_member v_ in
  do! new_member b_ in
  do! new_member B_ in
  do! new_member N_ in
  do! new_member g_ in
  do! new_member k_ in
  do! new_member a_ in
  do! new_member A_ in
  init_constants.

Definition SRP6_new : SRP6 := (SRP6_init SRP6_zero).2.

Definition SRP6_destroy : M SRP6 unit :=
  do! BN_free (Mem v_) in
  do! BN_free (Mem b_) in
  do! BN_free (Mem B_) in
  do! BN_free (Mem N_) in
  do! BN_free (Mem g_) in
  do! BN_free (Mem k_) in
  do! BN_free (Mem a_) in
  BN_free (Mem A_).

(** ** Account creation *)

(** [salt_bytes] is what [RAND_bytes] wrote. *)
Definition generate_salt_and_verifier_trinity (username password salt_bytes : list Z)
  : M SRP6 (list Z * list Z) :=
  let salt_vec := salt_bytes in
  let up := map toupper username in
  let up := up ++ [58] in
  let up := up ++ password in
  let inner_hash := SHA1 up in
  let to_hash := salt_vec ++ inner_hash in
  let x_hash := SHA1 to_hash in
  let! x := BN_bin2bn_new x_hash in
  let! v := BN_new in
  do! BN_mod_exp (Tmp v) (Mem g_) (Tmp x) (Mem N_) in
  let! verifier_vec := bn_to_vector (Tmp v) in
  do! BN_free (Tmp x) in
  do! BN_free (Tmp v) in
  ret (salt_vec, verifier_vec).

(** ** Server side *)

Definition set_only_username (username : list Z) : M SRP6 unit := modify (set_username username).

Definition load_verifier (salt verifier : list Z) : M SRP6 unit :=
  do! modify (set_salt salt) in
  BN_bin2bn verifier (Mem v_).

Definition generate_server_ephemeral (rand_bytes : list Z) : M SRP6 unit :=
  do! BN_bin2bn rand_bytes (Mem b_) in
  let! gb := BN_new in
  let! kv := BN_new in
  do! BN_mod_exp (Tmp gb) (Mem g_) (Mem b_) (Mem N_) in
  do! BN_mod_mul (Tmp kv) (Mem k_) (Mem v_) (Mem N_) in
  do! BN_mod_add (Mem B_) (Tmp kv) (Tmp gb) (Mem N_) in
  do! BN_free (Tmp gb) in
  BN_free (Tmp kv).

Definition get_padded (m : member) : M SRP6 (list Z) :=
  let! raw := bn_to_vector (Mem m) in
  of_outcome (pad_bytes_left raw 32).

Definition get_B_bytes : M SRP6 (list Z) := get_padded B_.
Definition get_N_bytes : M SRP6 (list Z) := get_padded N_.
Definition get_salt_bytes : M SRP6 (list Z) := gets salt_.
Definition get_generator : M SRP6 Z := let! g := BN_value (Mem g_) in ret (u8 (get_word g)).

Definition verify_client_proof (A_bytes M1_client : list Z) : M SRP6 (bool * list Z) :=
  let to_hash := A_bytes ++ M1_client in
  let hash := SHA1 to_hash in
  let M2 := hash in
  ret (true, M2).

(** ** Client side *)

Definition load_constants (N_bytes : list Z) (g_value : Z) : M SRP6 unit :=
  do! BN_bin2bn N_bytes (Mem N_) in
  do! BN_set_word (Mem g_) g_value in
  let! k := calculate_k in
  modify (set_ptr k_ k).

Definition load_salt (salt : list Z) : M SRP6 unit := modify (set_salt salt).

Definition set_credentials (username password : list Z) : M SRP6 unit :=
  do! modify (set_username username) in
  modify (set_password password).

Definition getUserName : M SRP6 (list Z) := gets username_.

Definition generate_client_ephemeral (rand_bytes : list Z) : M SRP6 unit :=
  do! BN_bin2bn rand_bytes (Mem a_) in
  BN_mod_exp (Mem A_) (Mem g_) (Mem a_) (Mem N_).

Definition get_last_M1 : M SRP6 (list Z) := gets last_M1_.
Definition get_A_bytes : M SRP6 (list Z) := get_padded A_.

Definition compute_M1 (B_bytes : list Z) : M SRP6 (list Z) :=
  let! A := get_A_bytes in
  let! salt := gets salt_ in
  let to_hash := A ++ B_bytes ++ salt in
  let hash := SHA1 to_hash in
  let m1_raw := hash in
  let! m1 := of_outcome (pad_bytes_left m1_raw 20) in
  do! modify (set_last_M1 m1) in
  gets last_M1_.

(** [std::equal(first1, last1, first2)]: the second range must be at least as
    long as the part of the first that is compared. *)
Fixpoint std_equal (l1 l2 : list Z) : outcome bool :=
  match l1, l2 with
  | [], _ => Ok true
  | x :: l1, y :: l2 => if x =? y then std_equal l1 l2 else Ok false
  | _ :: _, [] => Undef
  end.

Definition verify_server_proof (last_M1 M2_server : list Z) : M SRP6 bool :=
  let! A := get_A_bytes in
  let to_hash := A ++ last_M1 in
  let hash := SHA1 to_hash in
  of_outcome (std_equal M2_server hash).
End srp6.

(** ** The abstract object *)

(** The numbers the members point to, and how many allocated BIGNUMs no member
    points to any more. *)
Record View := mkView {
  w_salt : list Z;
  w_username : list Z;
  w_password : list Z;
  w_last_M1 : list Z;
  w_num : member -> Z;
  w_leaked : Z }.

Definition w_set (m : member) (x : Z) (w : View) : View :=
  mkView (w_salt w) (w_username w) (w_password w) (w_last_M1 w)
    (fun m' => if decide (m' = m) then x else w_num w m') (w_leaked w).
Definition w_set_salt (x : list Z) (w : View) : View :=
  mkView x (w_username w) (w_password w) (w_last_M1 w) (w_num w) (w_leaked w).
Definition w_set_username (x : list Z) (w : View) : View :=
  mkView (w_salt w) x (w_password w) (w_last_M1 w) (w_num w) (w_leaked w).
Definition w_set_password (x : list Z) (w : View) : View :=
  mkView (w_salt w) (w_username w) x (w_last_M1 w) (w_num w) (w_leaked w).
Definition w_set_last_M1 (x : list Z) (w : View) : View :=
  mkView (w_salt w) (w_username w) (w_password w) x (w_num w) (w_leaked w).
Definition w_leak (w : View) : View :=
  mkView (w_salt w) (w_username w) (w_password w) (w_last_M1 w) (w_num w) (w_leaked w + 1).

Definition members : list member := [v_; b_; B_; N_; g_; k_; a_; A_].

(** [s] represents [w], and owns the temporary cells [T] besides. *)
Record rep (s : SRP6) (w : View) (T : gmap nat Z) : Prop := {
  rep_salt : salt_ s = w_salt w;
  rep_username : username_ s = w_username w;
  rep_password : password_ s = w_password w;
  rep_last_M1 : last_M1_ s = w_last_M1 w;
  rep_num : forall m, cells s !! ptr s m = Some (w_num w m);
  rep_inj : forall m m', ptr s m = ptr s m' -> m = m';
  rep_fresh : forall p x, cells s !! p = Some x -> (0 < p < next_cell s)%nat;
  rep_tmp : forall p x, T !! p = Some x -> cells s !! p = Some x /\ forall m, ptr s m <> p;
  rep_size : Z.of_nat (size (cells s)) = 8 + w_leaked w + Z.of_nat (size T) }.

(** What a [bn] argument denotes, and the effect of assigning to it. *)
Definition peek (w : View) (T : gmap nat Z) (r : bn) : option Z :=
  match r with Mem m => Some (w_num w m) | Tmp p => T !! p end.
Definition poke_view (r : bn) (x : Z) (w : View) : View :=
  match r with Mem m => w_set m x w | Tmp _ => w end.
Definition poke_tmp (r : bn) (x : Z) (T : gmap nat Z) : gmap nat Z :=
  match r with Mem _ => T | Tmp p => <[p := x]> T end.

Lemma map_size_pos (h : gmap nat Z) p x : h !! p = Some x -> (0 < size h)%nat.
Proof.
  intros E. destruct (size h) eqn:Hs; [|lia].
  apply map_size_empty_inv in Hs. by rewrite Hs, lookup_empty in E.
Qed.

Section heap_lemmas.
Implicit Types (s : SRP6) (w : View) (T : gmap nat Z).

Lemma BN_value_rep s w T r x :
  rep s w T -> peek w T r = Some x -> BN_value r s = (Ok x, s).
Proof.
  intros Hr Hp. unfold BN_value. destruct r as [m|p]; simpl in *.
  - rewrite (rep_num _ _ _ Hr). by simplify_eq.
  - by destruct (rep_tmp _ _ _ Hr p x Hp) as [-> _].
Qed.

Lemma BN_new_rep s w T :
  rep s w T -> exists p, T !! p = None /\
    runs BN_new s (fun a s' => a = p /\ rep s' w (<[p := 0]> T)).
Proof.
  intros Hr. exists (next_cell s).
  assert (cells s !! next_cell s = None) as Hc.
  { destruct (cells s !! next_cell s) eqn:E; [|done]. apply (rep_fresh _ _ _ Hr) in E. lia. }
  assert (T !! next_cell s = None) as HT.
  { destruct (T !! next_cell s) eqn:E; [|done]. apply (rep_tmp _ _ _ Hr) in E as [? _]. congruence. }
  split; [done|]. eexists _, _. split; [done|]. split; [done|].
  destruct Hr as [? ? ? ? Hnum Hinj Hf Ht Hs]. constructor; simpl; auto.
  - intros m. rewrite lookup_insert_ne; [done|]. intros E. specialize (Hnum m). congruence.
  - intros p x. destruct (decide (p = next_cell s)) as [->|Hne].
    + intros _. destruct (next_cell s); [|lia]. specialize (Hf (ptr s v_) _ (Hnum v_)). lia.
    + rewrite lookup_insert_ne by done. intros E. apply Hf in E. lia.
  - intros p x. destruct (decide (p = next_cell s)) as [->|Hne].
    + rewrite !lookup_insert_eq. intros ->. split; [done|]. intros m E. specialize (Hnum m). congruence.
    + rewrite !lookup_insert_ne by done. apply Ht.
  - rewrite !map_size_insert_None by done. lia.
Qed.

Lemma BN_assign_rep s w T r x y :
  rep s w T -> peek w T r = Some y ->
  runs (BN_assign r x) s (fun _ s' => rep s' (poke_view r x w) (poke_tmp r x T)).
Proof.
  intros Hr Hp. unfold BN_assign.
  assert (cells s !! address r s = Some y) as Hc.
  { destruct r as [m|p]; simpl in *; [rewrite (rep_num _ _ _ Hr); by simplify_eq|].
    by destruct (rep_tmp _ _ _ Hr p y Hp). }
  exists tt. eexists. rewrite Hc. split; [done|].
  destruct Hr as [? ? ? ? Hnum Hinj Hf Ht Hs]. destruct r as [m|p]; simpl in *; constructor; simpl; auto.
  - intros m'. destruct (decide (m' = m)) as [->|]; [by rewrite lookup_insert_eq|].
    rewrite lookup_insert_ne; [done|]. intros E. by apply Hinj in E.
  - intros p z. destruct (decide (p = ptr s m)) as [->|];
      [intros _; eapply Hf; eauto|rewrite lookup_insert_ne by done; apply Hf].
  - intros p z E. destruct (Ht p z E) as [? Hne]. split; [|done]. by rewrite lookup_insert_ne.
  - by rewrite map_size_insert_Some by (by eexists).
  - intros m. destruct (Ht p y Hp) as [_ Hne]. rewrite lookup_insert_ne by (by apply not_eq_sym). done.
  - intros q z. destruct (decide (q = p)) as [->|];
      [intros _; eapply Hf; eauto|rewrite lookup_insert_ne by done; apply Hf].
  - intros q z. destruct (decide (q = p)) as [->|].
    + rewrite !lookup_insert_eq. intros ->. split; [done|]. by apply (Ht p y).
    + rewrite !lookup_insert_ne by done. apply Ht.
  - by rewrite !map_size_insert_Some by (by eexists).
Qed.

Lemma BN_free_rep s w T p x :
  rep s w T -> T !! p = Some x ->
  runs (BN_free (Tmp p)) s (fun _ s' => rep s' w (delete p T)).
Proof.
  intros Hr Hp. destruct (rep_tmp _ _ _ Hr p x Hp) as [Hc Hne].
  destruct Hr as [? ? ? ? Hnum Hinj Hf Ht Hs]. unfold BN_free. simpl.
  exists tt. eexists. destruct (decide (p = 0%nat)) as [->|]; [apply Hf in Hc; lia|].
  rewrite Hc. split; [done|]. constructor; simpl; auto.
  - intros m. by rewrite lookup_delete_ne by (by apply not_eq_sym).
  - intros q z. rewrite lookup_delete_Some. intros [_ E]. by apply Hf in E.
  - intros q z. rewrite !lookup_delete_Some. intros [? E]. destruct (Ht q z E). auto.
  - rewrite !map_size_delete_Some by (by eexists).
    pose proof (map_size_pos T p x Hp).
    pose proof (map_size_pos (cells s) p x Hc). lia.
Qed.

(** Overwriting a member pointer leaks the cell it had. *)
Lemma set_ptr_rep s w T m p x :
  rep s w T -> T !! p = Some x ->
  rep (set_ptr m p s) (w_leak (w_set m x w)) (delete p T).
Proof.
  intros Hr Hp. destruct (rep_tmp _ _ _ Hr p x Hp) as [Hc Hne].
  destruct Hr as [? ? ? ? Hnum Hinj Hf Ht Hs]. constructor; simpl; auto.
  - intros m'. by destruct (decide (m' = m)).
  - intros m1 m2. destruct (decide (m1 = m)), (decide (m2 = m)); intros E; subst; auto.
    + by destruct (Hne m2).
    + by destruct (Hne m1).
  - intros q z. rewrite lookup_delete_Some. intros [? E]. destruct (Ht q z E) as [? Hq].
    split; [done|]. intros m'. by destruct (decide (m' = m)).
  - rewrite map_size_delete_Some by (by eexists).
    pose proof (map_size_pos T p x Hp). lia.
Qed.
End heap_lemmas.

(** ** Every operation implements its specification on the abstract object *)

Section refinement.
Context {O : OpenSSL} {L : OpenSSLLaws O}.
Implicit Types (s : SRP6) (w : View) (T : gmap nat Z).

Lemma runs_value s w T r x (Q : Z -> SRP6 -> Prop) :
  rep s w T -> peek w T r = Some x -> Q x s -> runs (BN_value r) s Q.
Proof. intros Hr Hp HQ. exists x, s. by rewrite (BN_value_rep _ _ _ _ _ Hr Hp). Qed.

Lemma runs_new s w T (Q : nat -> SRP6 -> Prop) :
  rep s w T -> (forall p s', T !! p = None -> rep s' w (<[p := 0]> T) -> Q p s') -> runs BN_new s Q.
Proof.
  intros Hr HQ. destruct (BN_new_rep _ _ _ Hr) as (p & Hp & H).
  eapply runs_mono; [exact H|]. intros ? s' [-> ?]. auto.
Qed.

Lemma runs_assign s w T r x y (Q : unit -> SRP6 -> Prop) :
  rep s w T -> peek w T r = Some y ->
  (forall s', rep s' (poke_view r x w) (poke_tmp r x T) -> Q tt s') -> runs (BN_assign r x) s Q.
Proof.
  intros Hr Hp HQ. eapply runs_mono; [by eapply BN_assign_rep|]. intros [] s'. auto.
Qed.

Lemma runs_op3 f s w T r a p m r0 x y z (Q : unit -> SRP6 -> Prop) :
  rep s w T -> peek w T r = Some r0 -> peek w T a = Some x -> peek w T p = Some y ->
  peek w T m = Some z ->
  (forall s', rep s' (poke_view r (f r0 x y z) w) (poke_tmp r (f r0 x y z) T) -> Q tt s') ->
  runs (BN_op3 f r a p m) s Q.
Proof.
  intros Hr E0 E1 E2 E3 HQ. unfold BN_op3.
  repeat (eapply runs_bind, runs_value; [done|done|]). by eapply runs_assign.
Qed.

Lemma runs_free s w T p x (Q : unit -> SRP6 -> Prop) :
  rep s w T -> T !! p = Some x -> (forall s', rep s' w (delete p T) -> Q tt s') ->
  runs (BN_free (Tmp p)) s Q.
Proof. intros Hr Hp HQ. eapply runs_mono; [by eapply BN_free_rep|]. intros [] s'. auto. Qed.

Lemma runs_to_vector s w T r x (Q : list Z -> SRP6 -> Prop) :
  rep s w T -> peek w T r = Some x -> 0 <= x -> Q (bn2bin x) s -> runs (bn_to_vector r) s Q.
Proof.
  intros Hr Hp Hx HQ. unfold bn_to_vector.
  repeat (eapply runs_bind, runs_value; [done|done|]). apply runs_ret.
  replace (overwrite 0 _ _) with (bn2bin x); [done|].
  unfold overwrite. simpl. rewrite drop_ge, app_nil_r; [done|].
  rewrite length_replicate. pose proof (bn2bin_length x Hx). unfold zlen in *. lia.
Qed.

(** Looks a temporary up in a map of known temporaries. *)
Ltac tmp := simpl; simplify_map_eq; done.

(** The value [calculate_k] computes. *)
Definition k_value (N g : Z) : Z := of_be_bytes (SHA1 (bn2bin N ++ bn2bin g)).

Lemma runs_set_k s w (Q : unit -> SRP6 -> Prop) :
  rep s w ∅ -> 0 <= w_num w N_ -> 0 <= w_num w g_ ->
  (forall s', rep s' (w_leak (w_set k_ (k_value (w_num w N_) (w_num w g_)) w)) ∅ -> Q tt s') ->
  runs (let! k := calculate_k in modify (set_ptr k_ k)) s Q.
Proof.
  intros Hr HN Hg HQ. unfold calculate_k. do 2 (apply runs_bind).
  eapply runs_to_vector; [done|done|done|]. apply runs_bind.
  eapply runs_to_vector; [done|done|done|]. apply runs_bind.
  eapply runs_new; [done|]. intros p s1 _ Hr1. apply runs_bind.
  eapply runs_assign; [done|tmp|]. intros s2 Hr2. apply runs_ret, runs_modify, HQ.
  eapply (set_ptr_rep _ _ _ k_ p) in Hr2; [|tmp]. simpl in Hr2.
  rewrite insert_insert_eq, delete_insert_id, bin2bn_value in Hr2 by done. done.
Qed.

(** [load_constants]: the peer's modulus and generator, and [k] for them. *)
Definition spec_load_constants (N g : Z) (w : View) : View :=
  let w := w_set g_ g (w_set N_ N w) in w_leak (w_set k_ (k_value N g) w).

Lemma load_constants_spec s w N_bytes g :
  rep s w ∅ -> bytes_ok N_bytes -> 0 <= g ->
  runs (load_constants N_bytes g) s (fun _ s' =>
    rep s' (spec_load_constants (of_be_bytes N_bytes) g w) ∅).
Proof.
  intros Hr Hok Hg. unfold load_constants, BN_bin2bn, BN_set_word.
  apply runs_bind. eapply runs_assign; [done|done|]. intros s1 Hr1.
  apply runs_bind. eapply runs_assign; [done|done|]. intros s2 Hr2.
  eapply runs_set_k; [done|..]; simpl; rewrite ?bin2bn_value; auto.
  by apply of_be_bytes_range.
Qed.

Definition spec_load_verifier (salt verifier : list Z) (w : View) : View :=
  w_set v_ (of_be_bytes verifier) (w_set_salt salt w).

Lemma set_salt_rep s w T salt : rep s w T -> rep (set_salt salt s) (w_set_salt salt w) T.
Proof. by intros []; constructor. Qed.

Lemma load_verifier_spec s w salt verifier :
  rep s w ∅ ->
  runs (load_verifier salt verifier) s (fun _ s' => rep s' (spec_load_verifier salt verifier w) ∅).
Proof.
  intros Hr. unfold load_verifier, BN_bin2bn. apply runs_bind, runs_modify.
  eapply runs_assign; [by apply set_salt_rep|done|]. intros s'. by rewrite bin2bn_value.
Qed.

Definition spec_server_ephemeral (rand : list Z) (w : View) : View :=
  let b := of_be_bytes rand in
  w_set B_ ((w_num w k_ * w_num w v_ + w_num w g_ ^ b) mod w_num w N_) (w_set b_ b w).

Lemma generate_server_ephemeral_spec s w rand :
  rep s w ∅ -> 0 < w_num w N_ -> bytes_ok rand ->
  runs (generate_server_ephemeral rand) s (fun _ s' => rep s' (spec_server_ephemeral rand w) ∅).
Proof.
  intros Hr HN Hok. pose proof (of_be_bytes_range rand Hok).
  unfold generate_server_ephemeral, BN_bin2bn, BN_mod_exp, BN_mod_mul, BN_mod_add.
  apply runs_bind. eapply runs_assign; [done|done|]. intros s1 Hr1.
  apply runs_bind. eapply runs_new; [done|]. intros gb s2 Egb Hr2.
  apply runs_bind. eapply runs_new; [done|]. intros kv s3 Ekv Hr3. simpl in Egb, Ekv.
  assert (kv <> gb) by (intros ->; by rewrite lookup_insert_eq in Ekv).
  apply runs_bind. eapply runs_op3; [exact Hr3|tmp..|]. intros s4 Hr4.
  apply runs_bind. eapply runs_op3; [exact Hr4|tmp..|]. intros s5 Hr5.
  apply runs_bind. eapply runs_op3; [exact Hr5|tmp..|]. intros s6 Hr6.
  apply runs_bind. eapply runs_free; [exact Hr6|tmp|]. intros s7 Hr7.
  eapply runs_free; [exact Hr7|tmp|]. intros s8 Hr8. simpl in Hr8.
  rewrite bin2bn_value, mod_exp_value, mod_mul_value, mod_add_value in Hr8 by lia.
  rewrite Zplus_mod_idemp_l, Zplus_mod_idemp_r in Hr8.
  replace (delete kv _) with (∅ : gmap nat Z) in Hr8; [done|].
  apply map_eq. intros p. destruct (decide (p = kv)), (decide (p = gb)); subst; by simplify_map_eq.
Qed.

Definition spec_client_ephemeral (rand : list Z) (w : View) : View :=
  let a := of_be_bytes rand in
  w_set A_ (w_num w g_ ^ a mod w_num w N_) (w_set a_ a w).

Lemma generate_client_ephemeral_spec s w rand :
  rep s w ∅ -> 0 < w_num w N_ -> bytes_ok rand ->
  runs (generate_client_ephemeral rand) s (fun _ s' => rep s' (spec_client_ephemeral rand w) ∅).
Proof.
  intros Hr HN Hok. pose proof (of_be_bytes_range rand Hok).
  unfold generate_client_ephemeral, BN_bin2bn, BN_mod_exp.
  apply runs_bind. eapply runs_assign; [done|done|]. intros s1 Hr1.
  eapply runs_op3; [exact Hr1|tmp..|]. intros s2 Hr2. simpl in Hr2.
  by rewrite bin2bn_value, mod_exp_value in Hr2 by lia.
Qed.

(** The padded getters return the 32-byte big-endian form. *)
Lemma get_padded_spec s w T m :
  rep s w T -> 0 <= w_num w m < 256 ^ 32 ->
  get_padded m s = (Ok (be_bytes 32 (w_num w m)), s).
Proof.
  intros Hr Hx.
  destruct (runs_to_vector s w T (Mem m) (w_num w m) (fun a s' => a = bn2bin (w_num w m) /\ s' = s))
    as (a & s' & E & -> & ->); [done|done|lia|done|].
  unfold get_padded. rewrite (bind_ok _ _ _ _ _ E). unfold of_outcome.
  by rewrite pad_bn2bin by lia.
Qed.

Lemma get_generator_spec s w T :
  rep s w T -> 0 <= w_num w g_ < 256 -> get_generator s = (Ok (w_num w g_), s).
Proof.
  intros Hr Hg. unfold get_generator.
  rewrite (bind_ok _ _ _ _ _ (BN_value_rep _ _ _ (Mem g_) _ Hr eq_refl)).
  unfold ret. do 2 f_equal. rewrite get_word_value by lia. apply wrap_small. lia.
Qed.

Definition M1_of (A_bytes B_bytes salt : list Z) : list Z := SHA1 (A_bytes ++ B_bytes ++ salt).
Definition M2_of (A_bytes M1 : list Z) : list Z := SHA1 (A_bytes ++ M1).

Lemma set_last_M1_rep s w T x : rep s w T -> rep (set_last_M1 x s) (w_set_last_M1 x w) T.
Proof. by intros []; constructor. Qed.

Lemma compute_M1_spec s w B_bytes :
  rep s w ∅ -> 0 <= w_num w A_ < 256 ^ 32 ->
  let M1 := M1_of (be_bytes 32 (w_num w A_)) B_bytes (w_salt w) in
  compute_M1 B_bytes s = (Ok M1, set_last_M1 M1 s) /\ rep (set_last_M1 M1 s) (w_set_last_M1 M1 w) ∅.
Proof.
  intros Hr HA M1. split; [|by apply set_last_M1_rep].
  unfold compute_M1, get_A_bytes. rewrite (bind_ok _ _ _ _ _ (get_padded_spec _ _ _ _ Hr HA)).
  bind_step by done. rewrite (rep_salt _ _ _ Hr).
  bind_step by (unfold of_outcome; rewrite pad_bytes_left_ok by (by rewrite SHA1_length);
    by rewrite SHA1_length).
  done.
Qed.

Lemma std_equal_prefix l1 l2 :
  match std_equal l1 l2 with
  | Ok true => l1 `prefix_of` l2
  | Ok false => ~ l1 `prefix_of` l2
  | Throw _ => False
  | Undef => l2 `prefix_of` l1 /\ (length l2 < length l1)%nat
  end.
Proof.
  revert l2; induction l1 as [|x l1 IH]; intros [|y l2]; simpl.
  - done.
  - apply prefix_nil.
  - split; [apply prefix_nil|lia].
  - destruct (Z.eqb_spec x y) as [->|Hne].
    + specialize (IH l2). destruct (std_equal l1 l2) as [[]| |]; auto.
      * by apply prefix_cons.
      * intros H. by apply prefix_cons_inv_2 in H.
      * destruct IH. split; [by apply prefix_cons|lia].
    + intros H. by apply prefix_cons_inv_1 in H.
Qed.

Lemma std_equal_refl l : std_equal l l = Ok true.
Proof. induction l as [|x l IH]; simpl; [done|]. by rewrite Z.eqb_refl. Qed.

Lemma verify_server_proof_spec s w T M1 M2 :
  rep s w T -> 0 <= w_num w A_ < 256 ^ 32 ->
  verify_server_proof M1 M2 s = (std_equal M2 (M2_of (be_bytes 32 (w_num w A_)) M1), s).
Proof.
  intros Hr HA. unfold verify_server_proof, get_A_bytes.
  by rewrite (bind_ok _ _ _ _ _ (get_padded_spec _ _ _ _ Hr HA)).
Qed.
End refinement.

(** ** Construction, destruction and the invariant of a server object *)

Definition N_value : Z := 0xB79B3E2A878DBEDF5AD53B139A99D8CEC8DA65FED1BD845FB70F6051754B8D36.

Lemma N_hex_bytes : exists bs, hex_to_bytes (chars N_hex) = Ok bs /\ of_be_bytes bs = N_value.
Proof. eexists. split; vm_compute; reflexivity. Qed.

Lemma N_value_range : 0 < N_value < 256 ^ 32.
Proof. split; vm_compute; reflexivity. Qed.

Section lifetime.
Context {O : OpenSSL} {L : OpenSSLLaws O}.
Implicit Types (s : SRP6) (w : View).

(** After the eight [BN_new] of the constructor. *)
Definition SRP6_allocated : SRP6 :=
  mkSRP6 [] [] []
    (fun m => match m with v_ => 1 | b_ => 2 | B_ => 3 | N_ => 4 | g_ => 5 | k_ => 6 | a_ => 7 | A_ => 8 end%nat)
    [] (list_to_map (map (fun p => (p, 0)) (seq 1 8))) 9.

Definition View_zero : View := mkView [] [] [] [] (fun _ => 0) 0.

Lemma rep_ext s s' w T :
  rep s w T -> salt_ s' = salt_ s -> username_ s' = username_ s -> password_ s' = password_ s ->
  last_M1_ s' = last_M1_ s -> cells s' = cells s -> next_cell s' = next_cell s ->
  (forall m, ptr s' m = ptr s m) -> rep s' w T.
Proof.
  intros [] ? ? ? ? Ec En Ep. constructor; [congruence..| | | | |congruence].
  - intros m. by rewrite Ec, Ep.
  - intros m m'. rewrite !Ep. auto.
  - intros p x. rewrite Ec, En. eauto.
  - intros p x E. rewrite Ec. destruct (rep_tmp0 p x E) as [? Hne]. split; [done|].
    intros m. rewrite Ep. apply Hne.
Qed.

Lemma SRP6_allocated_rep : rep SRP6_allocated View_zero ∅.
Proof.
  constructor; try done.
  - by intros [].
  - by intros [] [].
  - intros p x E. apply elem_of_list_to_map_2 in E.
    apply list_elem_of_fmap in E as (q & [= -> ->] & E). apply elem_of_seq in E. simpl. lia.
Qed.

Definition spec_new : View :=
  w_leak (w_set k_ (k_value N_value 7) (w_set g_ 7 (w_set N_ N_value View_zero))).

Definition with_new_member (s : SRP6) (m : member) : SRP6 := (new_member m s).2.

Lemma bind_new_member m s (k : unit -> M SRP6 unit) :
  bind (new_member m) k s = k tt (with_new_member s m).
Proof. done. Qed.

Lemma SRP6_init_alloc :
  SRP6_init SRP6_zero = init_constants (foldl with_new_member SRP6_zero members) /\
  rep (foldl with_new_member SRP6_zero members) View_zero ∅.
Proof.
  split; [unfold SRP6_init; by rewrite !bind_new_member|].
  eapply rep_ext; [apply SRP6_allocated_rep|try (vm_compute; reflexivity)..].
  intros []; vm_compute; reflexivity.
Qed.

Lemma SRP6_new_rep : (SRP6_init SRP6_zero).1 = Ok tt /\ rep SRP6_new spec_new ∅.
Proof.
  unfold SRP6_new. destruct SRP6_init_alloc as [-> Hr]. revert Hr. generalize (foldl with_new_member SRP6_zero members) as s. intros s Hr.
  enough (runs init_constants s (fun _ s' => rep s' spec_new ∅)) as ([] & s' & -> & ?) by done.
  destruct N_hex_bytes as (bs & Ehex & Ebs).
  unfold init_constants, BN_hex2bn, BN_set_word.
  apply runs_bind. eapply runs_assign; [done|done|]. intros s1 Hr1.
  apply runs_bind. eapply runs_assign; [done|done|]. intros s2 Hr2.
  rewrite (hex2bn_value _ _ Ehex), Ebs in Hr2. pose proof N_value_range.
  eapply runs_set_k; [exact Hr2|simpl; lia..|]. intros s3 Hr3. exact Hr3.
Qed.

Lemma BN_free_member s m x :
  cells s !! ptr s m = Some x -> ptr s m <> 0%nat ->
  BN_free (Mem m) s = (Ok tt, set_cells (delete (ptr s m) (cells s)) (next_cell s) s).
Proof. intros E ?. unfold BN_free. simpl. destruct (decide (ptr s m = 0%nat)); [done|]. by rewrite E. Qed.

Fixpoint free_all (ms : list member) : M SRP6 unit :=
  match ms with [] => ret tt | m :: ms => do! BN_free (Mem m) in free_all ms end.

Lemma free_all_spec ms : forall s,
  NoDup ms -> (forall m m', ptr s m = ptr s m' -> m = m') ->
  (forall m, m ∈ ms -> ptr s m <> 0%nat /\ exists x, cells s !! ptr s m = Some x) ->
  runs (free_all ms) s (fun _ s' =>
    (size (cells s) = size (cells s') + length ms)%nat /\ cells s' ⊆ cells s).
Proof.
  induction ms as [|m ms IH]; intros s Hnd Hinj Hall; simpl.
  - apply runs_ret. split; [lia|done].
  - inversion Hnd as [|? ? Hm Hnd']; subst.
    destruct (Hall m) as (H0 & x & Hx); [left|]. apply runs_bind.
    eexists _, _. split; [by eapply BN_free_member|].
    eapply runs_mono; [apply IH; [done|done|]|].
    + intros m' Hm'. simpl. destruct (Hall m') as (? & y & Hy); [by right|].
      split; [done|]. exists y. rewrite lookup_delete_ne; [done|]. intros E. by apply Hinj in E as ->.
    + simpl. intros _ s' [Hs Hsub]. rewrite map_size_delete_Some in Hs by (by eexists).
      pose proof (map_size_pos _ _ _ Hx). split; [lia|].
      etrans; [done|]. apply delete_subseteq.
Qed.

Lemma SRP6_destroy_spec s w :
  rep s w ∅ -> runs SRP6_destroy s (fun _ s' =>
    Z.of_nat (size (cells s')) = w_leaked w /\ cells s' ⊆ cells s).
Proof.
  intros Hr. enough (runs (free_all members) s (fun _ s' =>
    Z.of_nat (size (cells s')) = w_leaked w /\ cells s' ⊆ cells s)) as (a & s' & E & ?).
  { exists a, s'. split; [|done]. revert E. unfold SRP6_destroy, members. simpl.
    unfold bind. repeat (destruct (BN_free _ _) as [[[]| |] ?]; [|done..]). by intros [= <- <-]. }
  eapply runs_mono; [apply free_all_spec|].
  - by apply (bool_decide_unpack (NoDup members)).
  - apply (rep_inj _ _ _ Hr).
  - intros m _. pose proof (rep_num _ _ _ Hr m) as E. split; [|eauto].
    apply (rep_fresh _ _ _ Hr) in E. lia.
  - simpl. intros _ s' [Hs ?]. split; [|done].
    pose proof (rep_size _ _ _ Hr) as Hz. rewrite map_size_empty in Hz. simpl in *. lia.
Qed.

(** The server never changes its constants; [B] is a residue. *)
Definition server_view (w : View) : Prop :=
  w_num w N_ = N_value /\ w_num w g_ = 7 /\ w_num w k_ = k_value N_value 7 /\
  0 <= w_num w B_ < 256 ^ 32.

Definition server_ok (s : SRP6) : Prop := exists w, rep s w ∅ /\ server_view w.

Lemma SRP6_new_server_ok : server_ok SRP6_new.
Proof. exists spec_new. split; [apply SRP6_new_rep|]. repeat split; simpl; lia. Qed.

Lemma set_username_rep s w T x : rep s w T -> rep (set_username x s) (w_set_username x w) T.
Proof. by intros []; constructor. Qed.

Lemma set_only_username_ok s u : server_ok s -> server_ok (set_username u s).
Proof. intros (w & ? & ?). exists (w_set_username u w). split; [by apply set_username_rep|done]. Qed.
End lifetime.

(** ** What the server and the account tool get *)

(** The public key the server sends, for verifier [v] and secret [b]. *)
Definition server_B `{O : OpenSSL} (verifier rand : list Z) : Z :=
  (k_value N_value 7 * of_be_bytes verifier + 7 ^ of_be_bytes rand) mod N_value.

(** The exponent derived from the credentials. *)
Definition x_value `{O : OpenSSL} (username password salt : list Z) : Z :=
  of_be_bytes (SHA1 (salt ++ SHA1 (map toupper username ++ [58] ++ password))).

Section server_lemmas.
Context {O : OpenSSL} {L : OpenSSLLaws O}.
Implicit Types (s : SRP6) (w : View).

Lemma mod_N_range x : 0 <= x mod N_value < 256 ^ 32.
Proof.
  pose proof N_value_range. pose proof (Z.mod_pos_bound x N_value). lia.
Qed.

Lemma server_challenge_spec s salt verifier rand :
  server_ok s -> bytes_ok rand ->
  exists s1 s2, load_verifier salt verifier s = (Ok tt, s1) /\
    generate_server_ephemeral rand s1 = (Ok tt, s2) /\ server_ok s2 /\
    username_ s2 = username_ s /\ salt_ s2 = salt /\
    get_B_bytes s2 = (Ok (be_bytes 32 (server_B verifier rand)), s2).
Proof.
  intros (w & Hr & HN & Hg & Hk & HB) Hok.
  destruct (load_verifier_spec s w salt verifier Hr) as ([] & s1 & E1 & Hr1).
  destruct (generate_server_ephemeral_spec s1 _ rand Hr1) as ([] & s2 & E2 & Hr2); auto.
  { simpl. rewrite HN. apply N_value_range. }
  assert (w_num (spec_server_ephemeral rand (spec_load_verifier salt verifier w)) B_
    = server_B verifier rand) as EB.
  { unfold spec_server_ephemeral, server_B. simpl. by rewrite HN, Hg, Hk. }
  pose proof (mod_N_range (k_value N_value 7 * of_be_bytes verifier + 7 ^ of_be_bytes rand)) as HBr.
  exists s1, s2. split_and!; auto.
  - eexists. split; [exact Hr2|]. unfold server_view. rewrite EB. auto.
  - by rewrite (rep_username _ _ _ Hr2), (rep_username _ _ _ Hr).
  - by rewrite (rep_salt _ _ _ Hr2).
  - unfold get_B_bytes. rewrite (get_padded_spec _ _ _ _ Hr2), EB; [done|by rewrite EB].
Qed.

Lemma server_constants s :
  server_ok s ->
  get_N_bytes s = (Ok (be_bytes 32 N_value), s) /\ get_generator s = (Ok 7, s) /\
  exists B, get_B_bytes s = (Ok B, s).
Proof.
  intros (w & Hr & HN & Hg & Hk & HB). pose proof N_value_range. split_and!.
  - unfold get_N_bytes. rewrite (get_padded_spec _ _ _ _ Hr); rewrite HN; [done|lia].
  - rewrite (get_generator_spec _ _ _ Hr); rewrite Hg; [done|lia].
  - eexists. by apply (get_padded_spec _ _ _ _ Hr).
Qed.

Ltac tmp := simpl; simplify_map_eq; done.

Lemma generate_salt_and_verifier_spec s w u p salt :
  rep s w ∅ -> 0 < w_num w N_ -> bytes_ok salt ->
  runs (generate_salt_and_verifier_trinity u p salt) s (fun r s' => rep s' w ∅ /\
    r = (salt, bn2bin (w_num w g_ ^ x_value u p salt mod w_num w N_))).
Proof.
  intros Hr HN Hok. unfold generate_salt_and_verifier_trinity. cbv zeta.
  rewrite <- !app_assoc.
  set (h := SHA1 (salt ++ _)). assert (of_be_bytes h = x_value u p salt) as Eh by done.
  assert (0 <= of_be_bytes h) as Hx by (apply of_be_bytes_range, SHA1_bytes).
  unfold BN_bin2bn_new, BN_bin2bn, BN_mod_exp. do 2 (apply runs_bind).
  eapply runs_new; [done|]. intros x s1 Ex Hr1. apply runs_bind.
  eapply runs_assign; [exact Hr1|tmp|]. intros s2 Hr2. apply runs_ret, runs_bind.
  simpl in Hr2. rewrite insert_insert_eq, bin2bn_value in Hr2.
  eapply runs_new; [exact Hr2|]. intros v s3 Ev Hr3. apply runs_bind.
  assert (v <> x) by (intros ->; by rewrite lookup_insert_eq in Ev).
  eapply runs_op3; [exact Hr3|tmp..|]. intros s4 Hr4. apply runs_bind.
  simpl in Hr4. rewrite mod_exp_value, Eh in Hr4 by lia.
  eapply runs_to_vector; [exact Hr4|tmp|by apply Z.mod_pos_bound|]. apply runs_bind.
  eapply runs_free; [exact Hr4|tmp|]. intros s5 Hr5. apply runs_bind.
  eapply runs_free; [exact Hr5|tmp|]. intros s6 Hr6. apply runs_ret. split; [|done].
  replace (delete v _) with (∅ : gmap nat Z) in Hr6; [done|].
  apply map_eq. intros q. destruct (decide (q = v)), (decide (q = x)); subst; by simplify_map_eq.
Qed.
End server_lemmas.

(** ** Scripts of calls *)

(** The public methods that return nothing, with the random bytes they draw. *)
Inductive command :=
| Cmd_set_only_username (username : list Z)
| Cmd_load_verifier (salt verifier : list Z)
| Cmd_generate_server_ephemeral (rand_bytes : list Z)
| Cmd_load_constants (N_bytes : list Z) (g_value : Z)
| Cmd_load_salt (salt : list Z)
| Cmd_set_credentials (username password : list Z)
| Cmd_generate_client_ephemeral (rand_bytes : list Z).

(** All public methods. *)
Inductive call :=
| Call_command (c : command)
| Call_generate_salt_and_verifier_trinity (username password salt_bytes : list Z)
| Call_compute_M1 (B_bytes : list Z)
| Call_verify_client_proof (A_bytes M1_client : list Z)
| Call_verify_server_proof (last_M1 M2_server : list Z)
| Call_get_B_bytes
| Call_get_N_bytes
| Call_get_A_bytes
| Call_get_salt_bytes
| Call_get_last_M1
| Call_get_generator
| Call_getUserName.

(** What a method returns. *)
Inductive answer :=
| Nothing
| Bytes (l : list Z)
| Byte (x : Z)
| Verdict (b : bool)
| Proof_answer (b : bool) (M2 : list Z)
| Account (salt verifier : list Z).

Section scripts.
Context {O : OpenSSL} {L : OpenSSLLaws O}.
Implicit Types (w : View).

Definition run_command (c : command) : M SRP6 unit :=
  match c with
  | Cmd_set_only_username u => set_only_username u
  | Cmd_load_verifier salt v => load_verifier salt v
  | Cmd_generate_server_ephemeral r => generate_server_ephemeral r
  | Cmd_load_constants n g => load_constants n g
  | Cmd_load_salt salt => load_salt salt
  | Cmd_set_credentials u p => set_credentials u p
  | Cmd_generate_client_ephemeral r => generate_client_ephemeral r
  end.

Definition run_call (c : call) : M SRP6 answer :=
  match c with
  | Call_command c => do! run_command c in ret Nothing
  | Call_generate_salt_and_verifier_trinity u p r =>
      let! a := generate_salt_and_verifier_trinity u p r in ret (Account a.1 a.2)
  | Call_compute_M1 b => let! m := compute_M1 b in ret (Bytes m)
  | Call_verify_client_proof a m => let! x := verify_client_proof a m in ret (Proof_answer x.1 x.2)
  | Call_verify_server_proof m1 m2 => let! b := verify_server_proof m1 m2 in ret (Verdict b)
  | Call_get_B_bytes => let! l := get_B_bytes in ret (Bytes l)
  | Call_get_N_bytes => let! l := get_N_bytes in ret (Bytes l)
  | Call_get_A_bytes => let! l := get_A_bytes in ret (Bytes l)
  | Call_get_salt_bytes => let! l := get_salt_bytes in ret (Bytes l)
  | Call_get_last_M1 => let! l := get_last_M1 in ret (Bytes l)
  | Call_get_generator => let! g := get_generator in ret (Byte g)
  | Call_getUserName => let! l := getUserName in ret (Bytes l)
  end.

Definition spec_command (c : command) (w : View) : View :=
  match c with
  | Cmd_set_only_username u => w_set_username u w
  | Cmd_load_verifier salt v => spec_load_verifier salt v w
  | Cmd_generate_server_ephemeral r => spec_server_ephemeral r w
  | Cmd_load_constants n g => spec_load_constants (of_be_bytes n) g w
  | Cmd_load_salt salt => w_set_salt salt w
  | Cmd_set_credentials u p => w_set_password p (w_set_username u w)
  | Cmd_generate_client_ephemeral r => spec_client_ephemeral r w
  end.

Definition spec_call (c : call) (w : View) : View :=
  match c with
  | Call_command c => spec_command c w
  | Call_compute_M1 b => w_set_last_M1 (M1_of (be_bytes 32 (w_num w A_)) b (w_salt w)) w
  | _ => w
  end.

(** What a call returns, of the abstract object. *)
Definition spec_answer (c : call) (w : View) : answer :=
  match c with
  | Call_command _ => Nothing
  | Call_generate_salt_and_verifier_trinity u p r => Account r (bn2bin (w_num w g_ ^ x_value u p r mod w_num w N_))
  | Call_compute_M1 b => Bytes (M1_of (be_bytes 32 (w_num w A_)) b (w_salt w))
  | Call_verify_client_proof a m => Proof_answer true (M2_of a m)
  | Call_verify_server_proof m1 m2 => Verdict (bool_decide (m2 `prefix_of` M2_of (be_bytes 32 (w_num w A_)) m1))
  | Call_get_B_bytes => Bytes (be_bytes 32 (w_num w B_))
  | Call_get_N_bytes => Bytes (be_bytes 32 (w_num w N_))
  | Call_get_A_bytes => Bytes (be_bytes 32 (w_num w A_))
  | Call_get_salt_bytes => Bytes (w_salt w)
  | Call_get_last_M1 => Bytes (w_last_M1 w)
  | Call_get_generator => Byte (w_num w g_)
  | Call_getUserName => Bytes (w_username w)
  end.

(** Arguments: random bytes are bytes, a modulus has 32 bytes and is not zero. *)
Definition command_ok (c : command) : Prop :=
  match c with
  | Cmd_generate_server_ephemeral r | Cmd_generate_client_ephemeral r => bytes_ok r
  | Cmd_load_constants n g =>
      bytes_ok n /\ zlen n = 32 /\ 0 < of_be_bytes n /\ 0 <= g < 256
  | _ => True
  end.

(** A server proof is not longer than the hash it is compared with, see [verify_server_proof_exact]. *)
Definition call_ok (c : call) : Prop :=
  match c with
  | Call_command c => command_ok c
  | Call_generate_salt_and_verifier_trinity _ _ r => bytes_ok r
  | Call_verify_server_proof _ m2 => zlen m2 <= 20
  | _ => True
  end.

Definition view_ok (w : View) : Prop :=
  0 < w_num w N_ < 256 ^ 32 /\ 0 <= w_num w g_ /\ 0 <= w_num w A_ < 256 ^ 32.

Definition readable (w : View) : Prop := view_ok w /\ 0 <= w_num w B_ < 256 ^ 32 /\ w_num w g_ < 256.

Fixpoint run_calls (cs : list call) : M SRP6 (list answer) :=
  match cs with [] => ret [] | c :: cs => let! a := run_call c in let! l := run_calls cs in ret (a :: l) end.

Definition spec_calls (cs : list call) (w : View) : View := foldl (fun w c => spec_call c w) w cs.

Fixpoint spec_answers (cs : list call) (w : View) : list answer :=
  match cs with [] => [] | c :: cs => spec_answer c w :: spec_answers cs (spec_call c w) end.

Lemma mod_range x n : 0 < n < 256 ^ 32 -> 0 <= x mod n < 256 ^ 32.
Proof. intros. pose proof (Z.mod_pos_bound x n). lia. Qed.

Lemma spec_command_ok c w : command_ok c -> view_ok w -> view_ok (spec_command c w).
Proof.
  intros Hc (HN & Hg & HA). pose proof (mod_range (w_num w g_ ^ of_be_bytes (match c with
    | Cmd_generate_client_ephemeral r => r | _ => [] end)) _ HN).
  destruct c; simpl in *; unfold view_ok; simpl; auto.
  destruct Hc as (Hb & Hl & ? & ?). pose proof (of_be_bytes_range _ Hb). rewrite Hl in *. lia.
Qed.

Lemma spec_call_readable c w : call_ok c -> readable w -> readable (spec_call c w).
Proof.
  intros Hc (Hv & HB & Hg). destruct c as [c| | | | | | | | | | |]; try done. split; [by apply spec_command_ok|].
  destruct Hv as (HN & _ & _). destruct c; simpl in *; auto; [|split; [done|tauto]]. split; [by apply mod_range|done].
Qed.

Lemma run_command_spec c s w :
  rep s w ∅ -> command_ok c -> view_ok w -> runs (run_command c) s (fun _ s' => rep s' (spec_command c w) ∅).
Proof.
  intros Hr Hc (HN & Hg & HA). destruct c; simpl in *.
  - by apply runs_modify, set_username_rep.
  - by apply load_verifier_spec.
  - apply generate_server_ephemeral_spec; auto. lia.
  - apply load_constants_spec; [done|tauto|lia].
  - by apply runs_modify, set_salt_rep.
  - apply runs_bind, runs_modify, runs_modify. by destruct Hr; constructor.
  - apply generate_client_ephemeral_spec; auto. lia.
Qed.

(** A comparison with a text that is not longer. *)
Lemma std_equal_short l1 l2 : (length l1 <= length l2)%nat -> std_equal l1 l2 = Ok (bool_decide (l1 `prefix_of` l2)).
Proof.
  intros Hl. pose proof (std_equal_prefix l1 l2) as H. destruct (std_equal l1 l2) as [[]| |];
    [by rewrite bool_decide_true|by rewrite bool_decide_false|done|lia].
Qed.

(** A getter returns what the abstract object says and changes nothing. *)
Lemma runs_answer {A} (m : M SRP6 A) (f : A -> answer) a s w :
  m s = (Ok a, s) -> rep s w ∅ -> runs (let! x := m in ret (f x)) s (fun r s' => r = f a /\ rep s' w ∅).
Proof. intros E Hr. exists (f a), s. by rewrite (bind_ok _ _ _ _ _ E). Qed.

Lemma run_call_spec c s w :
  rep s w ∅ -> call_ok c -> readable w -> runs (run_call c) s (fun r s' => r = spec_answer c w /\ rep s' (spec_call c w) ∅).
Proof.
  intros Hr Hc (Hv & HB & Hg8). pose proof Hv as (HN & Hg & HA).
  destruct c as [c|u p r|b|a m|m1 m2| | | | | | |]; cbn [run_call spec_answer spec_call].
  - apply runs_bind. eapply runs_mono; [by apply run_command_spec|]. intros [] s' Hr'. by apply runs_ret.
  - apply runs_bind. eapply runs_mono; [apply generate_salt_and_verifier_spec; [done|lia|done]|]. intros ? s' [? ->]. by apply runs_ret.
  - destruct (compute_M1_spec s w b Hr HA) as [E Hr']. eexists _, _. split; [by rewrite (bind_ok _ _ _ _ _ E)|done].
  - by apply (runs_answer (verify_client_proof a m) (fun x => Proof_answer x.1 x.2) (true, M2_of a m)).
  - apply runs_answer; [|done]. rewrite (verify_server_proof_spec s w ∅ m1 m2 Hr HA), std_equal_short; [done|].
    pose proof (SHA1_length (be_bytes 32 (w_num w A_) ++ m1)) as Hl. unfold M2_of, call_ok, zlen in *. lia.
  - apply runs_answer; [by apply (get_padded_spec s w ∅ B_)|done].
  - apply runs_answer; [|done]. apply (get_padded_spec s w ∅ N_ Hr). lia.
  - apply runs_answer; [by apply (get_padded_spec s w ∅ A_)|done].
  - apply runs_answer; [|done]. unfold get_salt_bytes, gets. by rewrite (rep_salt _ _ _ Hr).
  - apply runs_answer; [|done]. unfold get_last_M1, gets. by rewrite (rep_last_M1 _ _ _ Hr).
  - apply runs_answer; [|done]. by apply (get_generator_spec s w ∅).
  - apply runs_answer; [|done]. unfold getUserName, gets. by rewrite (rep_username _ _ _ Hr).
Qed.

Lemma run_calls_spec cs : forall s w,
  rep s w ∅ -> Forall call_ok cs -> readable w ->
  runs (run_calls cs) s (fun r s' => r = spec_answers cs w /\ rep s' (spec_calls cs w) ∅).
Proof.
  induction cs as [|c cs IH]; intros s w Hr Hcs Hw; simpl; [by apply runs_ret|].
  apply Forall_cons in Hcs as [? ?]. apply runs_bind.
  eapply runs_mono; [by apply run_call_spec|]. intros a s' [-> Hr']. apply runs_bind.
  eapply runs_mono; [apply IH; [done|done|by apply spec_call_readable]|]. intros l s2 [-> Hr2]. by apply runs_ret.
Qed.

(** One command of a longer program. *)
Lemma runs_command_bind {A} c s w (k : unit -> M SRP6 A) (Q : A -> SRP6 -> Prop) :
  rep s w ∅ -> command_ok c -> view_ok w ->
  (forall s', rep s' (spec_command c w) ∅ -> view_ok (spec_command c w) -> runs (k tt) s' Q) ->
  runs (bind (run_command c) k) s Q.
Proof.
  intros Hr Hc Hw Hk. apply runs_bind. eapply runs_mono; [by apply run_command_spec|].
  intros [] s' Hr'. apply Hk; [done|]. by apply spec_command_ok.
Qed.

Lemma N_call_ok : command_ok (Cmd_load_constants (be_bytes 32 N_value) 7).
Proof.
  pose proof N_value_range. split; [apply be_bytes_ok|]. split; [apply zlen_be_bytes|].
  rewrite of_be_be_bytes, Z.mod_small by (simpl; lia). lia.
Qed.

Lemma spec_new_ok : view_ok spec_new.
Proof. pose proof N_value_range. repeat split; simpl; lia. Qed.

Lemma spec_new_readable : readable spec_new.
Proof. split; [apply spec_new_ok|]. simpl. lia. Qed.

Definition is_load_constants (c : call) : bool :=
  match c with Call_command (Cmd_load_constants _ _) => true | _ => false end.

Lemma spec_calls_leaked cs : forall w,
  w_leaked (spec_calls cs w) = w_leaked w + zlen (filter is_load_constants cs).
Proof.
  unfold spec_calls. induction cs as [|c cs IH]; intros w; simpl; [zlia|].
  rewrite IH. destruct c as [[]| | | | | | | | | | |]; rewrite ?filter_cons; simpl; zlia.
Qed.
End scripts.

(** ** Properties *)

(** C32: the pointer-based object implements the abstract one: on a newly
    constructed object any sequence of calls of public methods runs
    without undefined behaviour or exception, each returns what the abstract semantics
    says, and the object then represents exactly its numbers, salt, names and proof;
    required of the arguments: random bytes are bytes, a modulus given to [load_constants] has
    32 bytes and is not zero, and a proof given to [verify_server_proof] has at most 20 bytes. *)
Theorem srp6_refines_view (O : OpenSSL) (L : OpenSSLLaws O) (cs : list call) :
  Forall call_ok cs ->
  (SRP6_init SRP6_zero).1 = Ok tt /\
  exists s, run_calls cs SRP6_new = (Ok (spec_answers cs spec_new), s) /\ rep s (spec_calls cs spec_new) ∅.
Proof.
  intros Hcs. destruct SRP6_new_rep as [E Hr]. split; [done|].
  destruct (run_calls_spec cs SRP6_new spec_new Hr Hcs spec_new_readable) as (l & s & ? & -> & ?). eauto.
Qed.

Definition demo_calls : list call :=
  [Call_command (Cmd_load_verifier [1; 2] [3]); Call_command (Cmd_generate_server_ephemeral [2]); Call_get_B_bytes; Call_verify_server_proof [1] []].

Lemma srp6_refines_view_witness :
  exists s, run_calls (O := reference) demo_calls (SRP6_new (O := reference)) =
    (Ok (spec_answers (O := reference) demo_calls (spec_new (O := reference))), s) /\
  rep s (spec_calls (O := reference) demo_calls (spec_new (O := reference))) ∅.
Proof.
  apply (srp6_refines_view reference reference_laws demo_calls).
  repeat constructor; unfold byte_ok; try lia; discriminate.
Defined.

(** The lifetime of the big numbers: constructing, using and destroying an
    object never frees a number twice, and leaves allocated exactly one number
    (the [k_] the constructor overwrites) plus one per [load_constants] call. *)
Theorem srp6_bignums_leaked (O : OpenSSL) (L : OpenSSLLaws O) (cs : list call) :
  Forall call_ok cs ->
  exists l s s', run_calls cs SRP6_new = (Ok l, s) /\ SRP6_destroy s = (Ok tt, s') /\
    Z.of_nat (base.size (cells s')) = 1 + zlen (filter is_load_constants cs).
Proof.
  intros Hcs. destruct SRP6_new_rep as [_ Hr].
  destruct (run_calls_spec cs SRP6_new spec_new Hr Hcs spec_new_readable) as (l & s & ? & _ & Hr').
  destruct (SRP6_destroy_spec _ _ Hr') as ([] & s' & ? & Hs & _).
  exists l, s, s'. split_and!; auto. by rewrite Hs, spec_calls_leaked.
Qed.

Lemma srp6_bignums_leaked_witness :
  exists l s s', run_calls (O := reference) [Call_command (Cmd_load_constants (be_bytes 32 23) 5)]
      (SRP6_new (O := reference)) = (Ok l, s) /\
    SRP6_destroy s = (Ok tt, s') /\ Z.of_nat (base.size (cells s')) = 2.
Proof.
  apply (srp6_bignums_leaked reference reference_laws [Call_command (Cmd_load_constants (be_bytes 32 23) 5)]).
  constructor; [|constructor]. split; [apply be_bytes_ok|].
  split; [reflexivity|]. split; [vm_compute; reflexivity|lia].
Defined.

(** The challenge numbers: on a server object, whatever verifier and random
    bytes are used, the public key is [(k v + g^b) mod N], and the getters
    return it and the modulus as exactly 32 bytes, without ever throwing. *)
Theorem srp6_server_challenge (O : OpenSSL) (L : OpenSSLLaws O) (s : SRP6)
    (salt verifier rand : list Z) :
  server_ok s -> bytes_ok rand ->
  exists s', (do! load_verifier salt verifier in generate_server_ephemeral rand) s = (Ok tt, s') /\
    server_ok s' /\
    get_B_bytes s' = (Ok (be_bytes 32 (server_B verifier rand)), s') /\
    0 <= server_B verifier rand < N_value /\
    get_N_bytes s' = (Ok (be_bytes 32 N_value), s') /\
    get_generator s' = (Ok 7, s') /\ get_salt_bytes s' = (Ok salt, s').
Proof.
  intros Hs Hok. destruct (server_challenge_spec s salt verifier rand Hs Hok)
    as (s1 & s2 & E1 & E2 & Hs2 & Hu & Hsalt & HB).
  destruct (server_constants s2 Hs2) as (? & ? & _). exists s2.
  rewrite (bind_ok _ _ _ _ _ E1). split_and!; auto.
  - apply Z.mod_pos_bound, N_value_range.
  - apply Z.mod_pos_bound, N_value_range.
  - unfold get_salt_bytes, gets. by rewrite Hsalt.
Qed.

Lemma srp6_server_challenge_witness :
  exists s', (do! load_verifier (O := reference) [1] [2] in
              generate_server_ephemeral (O := reference) [3]) (SRP6_new (O := reference)) = (Ok tt, s') /\
    get_B_bytes (O := reference) s' = (Ok (be_bytes 32 (server_B (O := reference) [2] [3])), s').
Proof.
  destruct (srp6_server_challenge reference reference_laws (SRP6_new (O := reference)) [1] [2] [3])
    as (s' & E & _ & HB & _).
  - apply SRP6_new_server_ok.
  - repeat constructor; unfold byte_ok; lia.
  - exists s'. split; [exact E|exact HB].
Defined.

(** C2: agreement of the two sides: for any salt, verifier and secrets, the
    proof the client computes from the server's challenge has the sizes of the
    wire format, and the server's answer to it passes the client's check. *)
Theorem srp6_handshake_agrees (O : OpenSSL) (L : OpenSSLLaws O)
    (username password salt verifier rand_b rand_a : list Z) :
  bytes_ok rand_b -> bytes_ok rand_a ->
  exists srv cli B A M1 M2,
    (do! load_verifier salt verifier in do! generate_server_ephemeral rand_b in get_B_bytes) SRP6_new
      = (Ok B, srv) /\
    (do! set_credentials username password in
     do! load_constants (be_bytes 32 N_value) 7 in
     do! load_salt salt in
     do! generate_client_ephemeral rand_a in
     let! A := get_A_bytes in
     let! M1 := compute_M1 B in
     ret (A, M1)) SRP6_new = (Ok (A, M1), cli) /\
    zlen B = 32 /\ zlen A = 32 /\ zlen M1 = 20 /\ last_M1_ cli = M1 /\
    verify_client_proof A M1 srv = (Ok (true, M2), srv) /\ zlen M2 = 20 /\
    verify_server_proof (last_M1_ cli) M2 cli = (Ok true, cli).
Proof.
  intros Hb Ha. pose proof N_value_range.
  destruct (server_challenge_spec SRP6_new salt verifier rand_b SRP6_new_server_ok Hb)
    as (s1 & s2 & E1 & E2 & Hs2 & _ & _ & HB).
  set (N := be_bytes 32 N_value).
  assert (runs (
     do! set_credentials username password in
     do! load_constants N 7 in
     do! load_salt salt in
     do! generate_client_ephemeral rand_a in
     let! A := get_A_bytes in
     let! M1 := compute_M1 (be_bytes 32 (server_B verifier rand_b)) in
     ret (A, M1)) SRP6_new (fun r s => exists w, rep s w ∅ /\ 0 <= w_num w A_ < 256 ^ 32 /\
       r.1 = be_bytes 32 (w_num w A_) /\ zlen r.2 = 20 /\ last_M1_ s = r.2))
    as ([A M1] & cli & Ecli & w & Hr & HA & EA & EM & El).
  { eapply runs_command_bind with (c := Cmd_set_credentials username password);
      [apply SRP6_new_rep|done|apply spec_new_ok|]. intros c1 Hr1 Hv1.
    eapply runs_command_bind with (c := Cmd_load_constants N 7); [done|apply N_call_ok|done|]. intros c2 Hr2 Hv2.
    eapply runs_command_bind with (c := Cmd_load_salt salt); [done|done|done|]. intros c3 Hr3 Hv3.
    eapply runs_command_bind with (c := Cmd_generate_client_ephemeral rand_a); [done|done|done|]. intros c4 Hr4 Hv4.
    destruct Hv4 as (_ & _ & HA).
    pose proof (get_padded_spec _ _ _ A_ Hr4 HA) as EA. unfold get_A_bytes.
    destruct (compute_M1_spec _ _ (be_bytes 32 (server_B verifier rand_b)) Hr4 HA) as [EM Hrm].
    eexists _, _. rewrite (bind_ok _ _ _ _ _ EA), (bind_ok _ _ _ _ _ EM). split; [done|].
    eexists. split_and!; [exact Hrm|apply HA|apply HA|done|apply SHA1_length|done]. }
  simpl in EA, EM, El. subst A M1.
  exists s2, cli, (be_bytes 32 (server_B verifier rand_b)), (be_bytes 32 (w_num w A_)), (last_M1_ cli),
    (M2_of (be_bytes 32 (w_num w A_)) (last_M1_ cli)).
  rewrite (bind_ok _ _ _ _ _ E1), (bind_ok _ _ _ _ _ E2), HB.
  split_and!; auto; try apply zlen_be_bytes; [apply SHA1_length|].
  rewrite (verify_server_proof_spec _ _ _ _ _ Hr HA). by rewrite std_equal_refl.
Qed.

Lemma srp6_handshake_agrees_witness :
  exists srv cli B A M1 M2,
    (do! load_verifier (O := reference) [5] [6] in
     do! generate_server_ephemeral (O := reference) [7] in
     get_B_bytes (O := reference)) (SRP6_new (O := reference)) = (Ok B, srv) /\
    verify_client_proof (O := reference) A M1 srv = (Ok (true, M2), srv) /\
    verify_server_proof (O := reference) M1 M2 cli = (Ok true, cli).
Proof.
  destruct (srp6_handshake_agrees reference reference_laws [97] [98] [5] [6] [7] [8])
    as (srv & cli & B & A & M1 & M2 & E1 & _ & _ & _ & _ & El & E2 & _ & E3).
  - repeat constructor; unfold byte_ok; lia.
  - repeat constructor; unfold byte_ok; lia.
  - rewrite El in E3. exists srv, cli, B, A, M1, M2. split; [exact E1|]. split; [exact E2|exact E3].
Defined.

(** The client's check of the server proof: it accepts exactly the prefixes
    of [SHA1(A | M1)], so a 20-byte proof is accepted only when it equals the
    hash, but a shorter (even an empty) one is accepted too, and a longer one
    that extends the hash makes [std::equal] read past the hash array. *)
Theorem verify_server_proof_exact (O : OpenSSL) (L : OpenSSLLaws O) (s : SRP6) (w : View)
    (M1 M2 : list Z) :
  rep s w ∅ -> 0 <= w_num w A_ < 256 ^ 32 ->
  let hash := M2_of (be_bytes 32 (w_num w A_)) M1 in
  match verify_server_proof M1 M2 s with
  | (Ok true, s') => s' = s /\ M2 `prefix_of` hash /\ (zlen M2 = 20 -> M2 = hash)
  | (Ok false, s') => s' = s /\ ~ M2 `prefix_of` hash
  | (Undef, s') => s' = s /\ hash `prefix_of` M2 /\ 20 < zlen M2
  | (Throw _, _) => False
  end.
Proof.
  intros Hr HA hash. rewrite (verify_server_proof_spec _ _ _ _ _ Hr HA). fold hash.
  assert (zlen hash = 20) as Hl by apply SHA1_length.
  pose proof (std_equal_prefix M2 hash) as H. destruct (std_equal M2 hash) as [[]| |]; auto.
  - split_and!; auto. intros Hz. destruct H as [k E].
    assert (zlen k = 0) as Hk by (apply (f_equal zlen) in E; rewrite zlen_app in E; lia).
    apply zlen_0_inv in Hk. by rewrite E, Hk, app_nil_r.
  - destruct H. split_and!; auto. unfold zlen in *. lia.
Qed.

Lemma verify_server_proof_exact_witness :
  verify_server_proof (O := reference) [1] [] (SRP6_new (O := reference))
    = (Ok true, SRP6_new (O := reference)) /\
  match verify_server_proof (O := reference) [1] [] (SRP6_new (O := reference)) with
  | (Ok true, s') => [] `prefix_of` M2_of (O := reference) (be_bytes 32 0) [1]
  | _ => False
  end.
Proof.
  pose proof (verify_server_proof_exact reference reference_laws (SRP6_new (O := reference))
    (spec_new (O := reference)) [1] [] (proj2 (SRP6_new_rep (O := reference))) ltac:(simpl; lia)) as H.
  assert (verify_server_proof (O := reference) [1] [] (SRP6_new (O := reference))
    = (Ok true, SRP6_new (O := reference))) as E
    by (apply (verify_server_proof_spec _ (spec_new (O := reference)) ∅ [1] []); [apply SRP6_new_rep|simpl; lia]).
  split; [exact E|]. rewrite E in H |- *. apply H.
Defined.

(** The server's check of the client proof is no check: every pair of
    byte strings is accepted, in every state. *)
Theorem verify_client_proof_accepts_all (O : OpenSSL) (s : SRP6) (A_bytes M1_client : list Z) :
  verify_client_proof A_bytes M1_client s = (Ok (true, SHA1 (A_bytes ++ M1_client)), s).
Proof. done. Qed.

(** Account creation: the verifier returned is the minimal big-endian form
    of [g^x mod N] with [x] the hash of the salt and the credentials, so it has
    at most 32 bytes, and fewer than the 32 the server and the table require
    whenever [g^x mod N] is below [2^248]. *)
Theorem generate_salt_and_verifier_correct (O : OpenSSL) (L : OpenSSLLaws O) (s : SRP6)
    (username password salt_bytes : list Z) :
  server_ok s -> bytes_ok salt_bytes ->
  let v := 7 ^ x_value username password salt_bytes mod N_value in
  exists verifier s',
    generate_salt_and_verifier_trinity username password salt_bytes s = (Ok (salt_bytes, verifier), s') /\
    server_ok s' /\ of_be_bytes verifier = v /\ zlen verifier <= 32 /\
    (zlen verifier < 32 <-> v < 2 ^ 248).
Proof.
  intros (w & Hr & HN & Hg & Hk & HB) Hok v.
  destruct (generate_salt_and_verifier_spec s w username password salt_bytes Hr) as (r & s' & E & Hr' & ->);
    [rewrite HN; apply N_value_range|done|].
  rewrite HN, Hg in E. fold v in E. pose proof (mod_N_range (7 ^ x_value username password salt_bytes)) as Hv.
  fold v in Hv. exists (bn2bin v), s'. split; [done|]. split; [by exists w|].
  rewrite bn2bin_value, bn2bin_length by lia. split; [done|]. split; [by apply num_bytes_le|].
  change (2 ^ 248) with (256 ^ 31). rewrite <- num_bytes_spec by lia. lia.
Qed.

Lemma generate_salt_and_verifier_correct_witness :
  exists verifier s',
    generate_salt_and_verifier_trinity (O := reference) [49] [49] [1; 2; 3] (SRP6_new (O := reference))
      = (Ok ([1; 2; 3], verifier), s') /\ zlen verifier <= 32.
Proof.
  destruct (generate_salt_and_verifier_correct reference reference_laws (SRP6_new (O := reference))
    [49] [49] [1; 2; 3]) as (v & s' & E & _ & _ & Hl & _).
  - apply SRP6_new_server_ok.
  - repeat constructor; unfold byte_ok; lia.
  - exists v, s'. split; [exact E|exact Hl].
Defined.

(** The modulus the server announces as a large prime is even, hence not
    prime. *)
Theorem srp6_modulus_not_prime (O : OpenSSL) (L : OpenSSLLaws O) (s : SRP6) :
  server_ok s ->
  exists N, get_N_bytes s = (Ok N, s) /\ (2 | of_be_bytes N) /\ ~ Z.prime (of_be_bytes N).
Proof.
  intros Hs. destruct (server_constants s Hs) as (E & _ & _). exists (be_bytes 32 N_value).
  pose proof N_value_range. split; [done|].
  rewrite of_be_be_bytes, Z.mod_small by (simpl; lia).
  assert (2 | N_value) as Hd by (by exists (N_value / 2); vm_compute).
  split; [done|]. intros Hp.
  destruct (Z.divide_prime_r _ _ Hp Hd) as [E2|[E2|[E2|E2]]]; by vm_compute in E2.
Qed.

Lemma srp6_modulus_not_prime_witness :
  exists N, get_N_bytes (O := reference) (SRP6_new (O := reference)) = (Ok N, SRP6_new (O := reference)) /\
    (2 | of_be_bytes N).
Proof.
  destruct (srp6_modulus_not_prime reference reference_laws (SRP6_new (O := reference))) as (N & E & H & _).
  - apply SRP6_new_server_ok.
  - exists N. split; [exact E|exact H].
Defined.

(** The README's sample account (login 1, password 1) does not carry the
    verifier the code computes for its salt. *)
Definition readme_salt : list Z := be_bytes 32 0x0A3E57EEA85D222817B72F5A6299B642D56DB174F522FF0F8C72172D1223AE63.
Definition readme_verifier : list Z := be_bytes 32 0xD08A4D3949264CFA1536E41EE8E0FCA3000D07B8BF3DCC1D524AA10535723689.

Example readme_account_mismatch :
  exists verifier s,
    generate_salt_and_verifier_trinity (O := reference) [49] [49] readme_salt (SRP6_new (O := reference))
      = (Ok (readme_salt, verifier), s) /\ verifier <> readme_verifier.
Proof.
  destruct (generate_salt_and_verifier_spec (O := reference) (SRP6_new (O := reference))
    (spec_new (O := reference)) [49] [49] readme_salt) as (r & s & E & _ & ->).
  - apply SRP6_new_rep.
  - apply N_value_range.
  - apply be_bytes_ok.
  - eexists _, s. split; [exact E|]. intros Heq. apply (f_equal of_be_bytes) in Heq.
    rewrite bn2bin_value in Heq by apply Z.mod_pos_bound, N_value_range.
    change (w_num spec_new g_) with 7 in Heq. change (w_num spec_new N_) with N_value in Heq.
    rewrite <- (Zpow_mod_correct 7) in Heq by done.
    assert ((Zpow_mod 7 (x_value (O := reference) [49] [49] readme_salt) N_value
      =? of_be_bytes readme_verifier) = false) as Hne by (vm_compute; reflexivity).
    rewrite Z.eqb_neq in Hne. exact (Hne Heq).
Qed.
