(* ===== verification/Packet.v ===== *)
(** * Packet (src/common/packet/Packet.hpp)

    The base class of the two packet formats: a payload [ByteBuffer] and the
    forwarding accessors.  [PacketBase] is the protected member [buffer_];
    the pure virtual [build_packet] and [deserialize] are the class
    [PacketFormat], whose laws the concrete formats discharge.
    [log_raw_payload], which uses the logger, is in [PacketLog]. *)

From S2P Require Import Prelude Machine ByteBuffer.

Class PacketBase (P : Type) := {
  raw : P -> ByteBuffer;
  set_raw : ByteBuffer -> P -> P;
  raw_set_raw : forall b p, raw (set_raw b p) = b }.

Section packet.
Context {host : Host} `{PB : PacketBase P}.

Definition serialize (p : P) : list Z := ByteBuffer.data (raw p).

(** A writer (reader) of the buffer, on the packet that owns it. *)
Definition on_buffer (f : ByteBuffer -> ByteBuffer) (p : P) : P := set_raw (f (raw p)) p.
Definition from_buffer {A} (m : M ByteBuffer A) : M P A := zoom raw set_raw m.

(** ** Write methods *)

Definition write_uint8 (value : Z) : P -> P := on_buffer (ByteBuffer.write_uint8 value).
Definition write_int8 (value : Z) : P -> P := on_buffer (ByteBuffer.write_int8 value).
Definition write_uint16_be (value : Z) : P -> P := on_buffer (ByteBuffer.write_uint16_be value).
Definition write_int16_be (value : Z) : P -> P := on_buffer (ByteBuffer.write_int16_be value).
Definition write_uint32_be (value : Z) : P -> P := on_buffer (ByteBuffer.write_uint32_be value).
Definition write_int32_be (value : Z) : P -> P := on_buffer (ByteBuffer.write_int32_be value).
Definition write_uint64_be (value : Z) : P -> P := on_buffer (ByteBuffer.write_uint64_be value).
Definition write_int64_be (value : Z) : P -> P := on_buffer (ByteBuffer.write_int64_be value).
Definition write_float_be (value : float) : P -> P := on_buffer (ByteBuffer.write_float_be value).
Definition write_double_be (value : double) : P -> P := on_buffer (ByteBuffer.write_double_be value).
Definition write_uint16_le (value : Z) : P -> P := on_buffer (ByteBuffer.write_uint16_le value).
Definition write_int16_le (value : Z) : P -> P := on_buffer (ByteBuffer.write_int16_le value).
Definition write_uint32_le (value : Z) : P -> P := on_buffer (ByteBuffer.write_uint32_le value).
Definition write_int32_le (value : Z) : P -> P := on_buffer (ByteBuffer.write_int32_le value).
Definition write_uint64_le (value : Z) : P -> P := on_buffer (ByteBuffer.write_uint64_le value).
Definition write_int64_le (value : Z) : P -> P := on_buffer (ByteBuffer.write_int64_le value).
Definition write_float_le (value : float) : P -> P := on_buffer (ByteBuffer.write_float_le value).
Definition write_double_le (value : double) : P -> P := on_buffer (ByteBuffer.write_double_le value).
Definition write_bool (value : bool) : P -> P := on_buffer (ByteBuffer.write_bool value).
Definition write_string_raw_be (str : (list Z)) : P -> P := on_buffer (ByteBuffer.write_string_raw_be str).
Definition write_string_raw_le (str : (list Z)) : P -> P := on_buffer (ByteBuffer.write_string_raw_le str).
Definition write_string_nt_be (str : (list Z)) : P -> P := on_buffer (ByteBuffer.write_string_nt_be str).
Definition write_string_nt_le (str : (list Z)) : P -> P := on_buffer (ByteBuffer.write_string_nt_le str).
Definition write_bytes (bytes : (list Z)) : P -> P := on_buffer (ByteBuffer.write_bytes bytes).

(** ** Read methods *)

Definition read_uint8 : M P Z := from_buffer ByteBuffer.read_uint8.
Definition read_int8 : M P Z := from_buffer ByteBuffer.read_int8.
Definition read_uint16_be : M P Z := from_buffer ByteBuffer.read_uint16_be.
Definition read_int16_be : M P Z := from_buffer ByteBuffer.read_int16_be.
Definition read_uint32_be : M P Z := from_buffer ByteBuffer.read_uint32_be.
Definition read_int32_be : M P Z := from_buffer ByteBuffer.read_int32_be.
Definition read_uint64_be : M P Z := from_buffer ByteBuffer.read_uint64_be.
Definition read_int64_be : M P Z := from_buffer ByteBuffer.read_int64_be.
Definition read_float_be : M P float := from_buffer ByteBuffer.read_float_be.
Definition read_double_be : M P double := from_buffer ByteBuffer.read_double_be.
Definition read_uint16_le : M P Z := from_buffer ByteBuffer.read_uint16_le.
Definition read_int16_le : M P Z := from_buffer ByteBuffer.read_int16_le.
Definition read_uint32_le : M P Z := from_buffer ByteBuffer.read_uint32_le.
Definition read_int32_le : M P Z := from_buffer ByteBuffer.read_int32_le.
Definition read_uint64_le : M P Z := from_buffer ByteBuffer.read_uint64_le.
Definition read_int64_le : M P Z := from_buffer ByteBuffer.read_int64_le.
Definition read_float_le : M P float := from_buffer ByteBuffer.read_float_le.
Definition read_double_le : M P double := from_buffer ByteBuffer.read_double_le.
Definition read_bool : M P bool := from_buffer ByteBuffer.read_bool.
Definition read_string_raw_be (length : Z) : M P (list Z) := from_buffer (ByteBuffer.read_string_raw_be length).
Definition read_string_raw_le (length : Z) : M P (list Z) := from_buffer (ByteBuffer.read_string_raw_le length).
Definition read_string_nt_be : M P (list Z) := from_buffer ByteBuffer.read_string_nt_be.
Definition read_string_nt_le : M P (list Z) := from_buffer ByteBuffer.read_string_nt_le.
Definition read_bytes (length : Z) : M P (list Z) := from_buffer (ByteBuffer.read_bytes length).

(** ** Utility methods *)

Definition skip (bytes : Z) : M P unit := from_buffer (ByteBuffer.skip bytes).
Definition read_pos (p : P) : Z := ByteBuffer.read_pos (raw p).
Definition size (p : P) : Z := ByteBuffer.size (raw p).
End packet.

Section echo.
Context {host : Host}.

(** Reading and echoing the four bytes of a ping. *)
Lemma read_uint32_le_payload (payload : list Z) :
  bytes_ok payload -> zlen payload < max_vec -> 4 <= zlen payload ->
  ByteBuffer.read_uint32_le (ByteBuffer_of payload)
    = (Ok (of_le_bytes (take 4 payload)), moved (ByteBuffer_of payload) 4).
Proof.
  intros Hok Hmax H4. unfold ByteBuffer.read_uint32_le.
  by rewrite read_object_le by (first [by apply ByteBuffer_of_wf|unfold ByteBuffer.size; simpl; lia]).
Qed.

Lemma read_uint32_le_short (payload : list Z) :
  bytes_ok payload -> zlen payload < 4 ->
  ByteBuffer.read_uint32_le (ByteBuffer_of payload) = not_enough (ByteBuffer_of payload).
Proof.
  intros Hok H4. unfold ByteBuffer.read_uint32_le. eapply bind_throw, read_object_short.
  - apply ByteBuffer_of_wf; [done|unfold max_vec; lia].
  - done.
  - unfold ByteBuffer.size. simpl. lia.
Qed.

Lemma echo_uint32_le (payload : list Z) :
  bytes_ok payload -> 4 <= zlen payload ->
  ByteBuffer.write_uint32_le (of_le_bytes (take 4 payload)) ByteBuffer_default
    = ByteBuffer_of (take 4 payload).
Proof.
  intros Hok H4. unfold ByteBuffer.write_uint32_le.
  rewrite object_bytes_htole, write_bytes_appended.
  pose proof (le_of_le_bytes (take 4 payload) (Forall_take _ _ _ Hok)) as E.
  rewrite length_take_le in E by (unfold zlen in H4; lia). by rewrite E.
Qed.
End echo.

(** ** The virtual interface

    [build_packet] frames the payload behind a header that ends in a 16-bit
    big-endian length; [deserialize] parses one complete frame.  The laws are
    what the readers, the session and the client rely on. *)

Class PacketFormat (P : Type) `{PacketBase P} := {
  header_size : Z;
  build_packet : P -> list Z;
  deserialize : list Z -> M P unit;
  (** the opcode is a value of its enumeration's underlying type *)
  opcode_ok : P -> Prop;
  build_packet_size : forall p, zlen (build_packet p) = header_size + size p;
  deserialize_build : forall p p0,
    opcode_ok p -> bytes_ok (buffer_ (raw p)) -> size p < 2 ^ 16 ->
    deserialize (build_packet p) p0 = (Ok tt, set_raw (ByteBuffer_of (buffer_ (raw p))) p);
  build_deserialize : forall frame p0 p',
    bytes_ok frame -> zlen frame < max_vec -> deserialize frame p0 = (Ok tt, p') ->
    build_packet p' = frame /\ opcode_ok p' /\ wf (raw p') /\ read_pos p' = 0;
  deserialize_defined : forall frame p0,
    bytes_ok frame -> zlen frame < max_vec -> (deserialize frame p0).1 <> Undef }.
