(* ===== verification/AuthPacket.v ===== *)
(** * AuthPacket and AuthOpcodes
    (src/server/SessionMode/authstage/opcodes/AuthPacket.hpp, AuthOpcodes.hpp)

    The packets of the authentication stage: one opcode byte, a 16-bit
    big-endian payload length, the payload. *)

From S2P Require Import Prelude Machine ByteBuffer Packet.

(** ** Opcodes *)

(** An [enum class : uint8_t]; [OTHER] stands for the values of the
    underlying type that have no enumerator, which [static_cast] can
    produce. *)
Inductive AuthOpcodes :=
| EMPTY_STAGE
| CMSG_PING
| SMSG_PONG
| CMSG_AUTH_LOGON_CHALLENGE
| SMSG_AUTH_LOGON_CHALLENGE
| CMSG_AUTH_LOGON_PROOF
| SMSG_AUTH_LOGON_PROOF
| SMSG_AUTH_RESPONSE
| OTHER (v : Z).

#[export] Instance AuthOpcodes_eq_dec : EqDecision AuthOpcodes.
Proof. solve_decision. Defined.

(** [static_cast<uint8_t>] and [static_cast<AuthOpcodes>]. *)
Definition opcode_to_uint8 (o : AuthOpcodes) : Z :=
  match o with
  | EMPTY_STAGE => 0x00
  | CMSG_PING => 0x01
  | SMSG_PONG => 0x02
  | CMSG_AUTH_LOGON_CHALLENGE => 0x03
  | SMSG_AUTH_LOGON_CHALLENGE => 0x04
  | CMSG_AUTH_LOGON_PROOF => 0x05
  | SMSG_AUTH_LOGON_PROOF => 0x06
  | SMSG_AUTH_RESPONSE => 0x07
  | OTHER v => v
  end.

Definition opcode_of_uint8 (v : Z) : AuthOpcodes :=
  if v =? 0x00 then EMPTY_STAGE
  else if v =? 0x01 then CMSG_PING
  else if v =? 0x02 then SMSG_PONG
  else if v =? 0x03 then CMSG_AUTH_LOGON_CHALLENGE
  else if v =? 0x04 then SMSG_AUTH_LOGON_CHALLENGE
  else if v =? 0x05 then CMSG_AUTH_LOGON_PROOF
  else if v =? 0x06 then SMSG_AUTH_LOGON_PROOF
  else if v =? 0x07 then SMSG_AUTH_RESPONSE
  else OTHER v.

Inductive AuthStatusCode := AUTH_SUCCESS | AUTH_FAILED.
Inductive AuthErrorCode := INTERNAL_ERROR | WRONG_USERNAME | WRONG_PASSWORD | DATABASE_BUSY.

Definition status_to_uint8 (c : AuthStatusCode) : Z :=
  match c with AUTH_SUCCESS => 0 | AUTH_FAILED => 1 end.
Definition error_to_uint8 (c : AuthErrorCode) : Z :=
  match c with
  | INTERNAL_ERROR => 0
  | WRONG_USERNAME => 1
  | WRONG_PASSWORD => 2
  | DATABASE_BUSY => 3
  end.

(** ** The packet *)

Record AuthPacket := mkAuthPacket { opcode_ : AuthOpcodes; payload_ : ByteBuffer }.

#[export] Program Instance AuthPacket_base : PacketBase AuthPacket := {|
  raw := payload_;
  set_raw b p := mkAuthPacket (opcode_ p) b |}.
Next Obligation. done. Qed.

(** [AuthPacket()] and [explicit AuthPacket(AuthOpcodes)]. *)
Definition AuthPacket_default : AuthPacket := mkAuthPacket EMPTY_STAGE ByteBuffer_default.
Definition AuthPacket_new (opcode : AuthOpcodes) : AuthPacket := mkAuthPacket opcode ByteBuffer_default.

Definition set_opcode (opcode : AuthOpcodes) (p : AuthPacket) : AuthPacket :=
  mkAuthPacket opcode (payload_ p).
Definition get_opcode (p : AuthPacket) : AuthOpcodes := opcode_ p.

Section auth_packet.
Context {host : Host}.

Definition build_packet (p : AuthPacket) : list Z :=
  let temp := ByteBuffer_default in
  let temp := ByteBuffer.write_uint8 (opcode_to_uint8 (opcode_ p)) temp in
  let temp := ByteBuffer.write_uint16_be (u16 (ByteBuffer.size (payload_ p))) temp in
  let temp := ByteBuffer.write_bytes (ByteBuffer.data (payload_ p)) temp in
  ByteBuffer.data temp.

Definition deserialize (raw_data : list Z) : M AuthPacket unit :=
  let temp := ByteBuffer_of raw_data in
  let! '(op, temp) := on_local ByteBuffer.read_uint8 temp in
  do! modify (set_opcode (opcode_of_uint8 op)) in
  let! '(length, temp) := on_local ByteBuffer.read_uint16_be temp in
  if negb (length =? size_sub (zlen raw_data) 3)
  then throw (runtime_error "AuthPacket::deserialize: payload length mismatch")
  else
    do! modify (on_buffer ByteBuffer.clear) in
    let! '(payload, temp) := on_local (ByteBuffer.read_bytes length) temp in
    modify (on_buffer (ByteBuffer.write_bytes payload)).
End auth_packet.

(** ** Lemmas *)

Definition auth_opcode_ok (p : AuthPacket) : Prop :=
  opcode_of_uint8 (opcode_to_uint8 (opcode_ p)) = opcode_ p /\
  0 <= opcode_to_uint8 (opcode_ p) < 256.

Lemma opcode_roundtrip v : opcode_to_uint8 (opcode_of_uint8 v) = v.
Proof. unfold opcode_of_uint8. repeat split_if; bool_to_prop; by subst. Qed.

Section auth_packet_lemmas.
Context {host : Host}.

Lemma build_packet_bytes p :
  build_packet p = [u8 (opcode_to_uint8 (opcode_ p))]
    ++ be_bytes 2 (ByteBuffer.size (payload_ p)) ++ buffer_ (payload_ p).
Proof.
  unfold build_packet, ByteBuffer.write_uint16_be. cbv zeta.
  rewrite object_bytes_htobe, !write_bytes_appended.
  unfold ByteBuffer.write_uint8, push_back, appended, ByteBuffer.data. cbn [buffer_ ByteBuffer_default].
  by rewrite be_bytes_u16, <- app_assoc.
Qed.

(** Parsing a frame of at least three bytes. *)
Lemma deserialize_frame op h l payload p0 :
  let frame := op :: h :: l :: payload in
  bytes_ok frame -> zlen frame < max_vec ->
  deserialize frame p0 =
    if of_be_bytes [h; l] =? zlen payload
    then (Ok tt, mkAuthPacket (opcode_of_uint8 op) (ByteBuffer_of payload))
    else (Throw (runtime_error "AuthPacket::deserialize: payload length mismatch"),
          set_opcode (opcode_of_uint8 op) p0).
Proof.
  intros frame Hok Hmax. pose proof (zlen_nonneg payload).
  assert (wf (ByteBuffer_of frame)) as Hwf by (by apply ByteBuffer_of_wf).
  assert (ByteBuffer.size (ByteBuffer_of frame) = 3 + zlen payload) as Hsz
    by (unfold ByteBuffer.size; simpl; unfold frame; zlia).
  unfold deserialize.
  bind_step by (eapply on_local_ok, read_uint8_ok; auto; simpl; lia).
  bind_step by done.
  assert (wf (moved (ByteBuffer_of frame) 1)) as Hwf1 by (apply moved_wf; auto; simpl; lia).
  bind_step by (eapply on_local_ok, read_object_be; auto; unfold ByteBuffer.size in *; simpl in *; lia).
  change (slice (read_pos_ (ByteBuffer_of frame)) 1 (buffer_ (ByteBuffer_of frame))) with [op].
  change (slice (read_pos_ (moved (ByteBuffer_of frame) 1)) (Z.of_nat 2)
    (buffer_ (moved (ByteBuffer_of frame) 1))) with [h; l].
  replace (size_sub (zlen frame) 3) with (zlen payload)
    by (rewrite size_sub_small; unfold frame, max_vec, size_max in *; zlia).
  destruct (Z.eqb_spec (of_be_bytes [h; l]) (zlen payload)) as [->|]; cbn [negb]; cbv iota.
  2:{ unfold throw. do 3 f_equal. simpl. lia. }
  bind_step by done.
  bind_step by (eapply on_local_ok, read_bytes_ok; auto;
    try apply moved_wf; auto; unfold ByteBuffer.size in *; simpl in *; lia).
  unfold modify. do 2 f_equal. unfold on_buffer. rewrite write_bytes_appended.
  unfold appended, ByteBuffer_of, slice. simpl.
  do 2 f_equal; [lia|]. rewrite drop_0. unfold zlen. by rewrite Nat2Z.id, firstn_all.
Qed.

Lemma deserialize_short frame p0 :
  bytes_ok frame -> zlen frame < 3 ->
  exists p', deserialize frame p0
    = (Throw (out_of_range "ByteBuffer: not enough data to read"), p').
Proof.
  intros Hok Hlt.
  destruct frame as [|op [|h [|l payload]]]; [eexists; reflexivity..|].
  pose proof (zlen_nonneg payload). zlia.
Qed.
End auth_packet_lemmas.

#[export] Program Instance AuthPacket_format `{host : Host} : PacketFormat AuthPacket := {|
  Packet.header_size := 3;
  Packet.build_packet := build_packet;
  Packet.deserialize := deserialize;
  Packet.opcode_ok := auth_opcode_ok |}.
Next Obligation.
  intros host p. rewrite build_packet_bytes, !zlen_app, zlen_be_bytes. unfold Packet.size.
  change (raw p) with (payload_ p). unfold ByteBuffer.size. zlia.
Qed.
Next Obligation.
  intros host [op [buf pos]] p0 [Hop1 Hop2] Hok Hsz. simpl in *.
  unfold Packet.size, ByteBuffer.size in Hsz. simpl in Hsz.
  rewrite build_packet_bytes. unfold ByteBuffer.size. cbn [opcode_ payload_ buffer_].
  pose proof (zlen_nonneg buf).
  destruct (be_pair (zlen buf)) as (h & l & -> & ? & ? & Hlen); [lia|]. cbn [app].
  rewrite deserialize_frame.
  - rewrite Hlen, Z.eqb_refl. unfold u8. rewrite wrap_small by (simpl; lia).
    by rewrite Hop1.
  - rewrite !Forall_cons. split_and!; auto. apply (wrap_range 8). lia.
  - unfold max_vec. zlia.
Qed.
Next Obligation.
  intros host frame p0 p' Hok Hmax E.
  destruct (decide (zlen frame < 3)) as [Hlt|Hge].
  { destruct (deserialize_short frame p0 Hok Hlt) as [? E']. congruence. }
  destruct frame as [|op [|h [|l payload]]]; try (exfalso; apply Hge; vm_compute; reflexivity).
  rewrite deserialize_frame in E by done.
  destruct (Z.eqb_spec (of_be_bytes [h; l]) (zlen payload)) as [Hlen|]; [|done].
  injection E as <-. rewrite !Forall_cons in Hok. destruct Hok as (? & ? & ? & ?).
  rewrite build_packet_bytes. unfold ByteBuffer.size.
  cbn [opcode_ payload_ buffer_ ByteBuffer_of]. rewrite opcode_roundtrip.
  rewrite <- Hlen, be_pair_inv by done.
  assert (u8 op = op) as -> by (apply wrap_small; unfold byte_ok in *; lia).
  split; [done|]. split; [|split; [|done]].
  - split; cbn [opcode_]; rewrite opcode_roundtrip; [done|unfold byte_ok in *; lia].
  - apply ByteBuffer_of_wf; [done|zlia].
Qed.
Next Obligation.
  intros host frame p0 Hok Hmax.
  destruct (decide (zlen frame < 3)) as [Hlt|Hge].
  { destruct (deserialize_short frame p0 Hok Hlt) as [? ->]. done. }
  destruct frame as [|op [|h [|l payload]]]; try (exfalso; apply Hge; vm_compute; reflexivity).
  rewrite deserialize_frame by done. by destruct (_ =? _).
Qed.
