(* ===== verification/WorkPacket.v ===== *)
(** * WorkPacket and WorkOpcodes
    (src/server/SessionMode/workstage/opcodes/WorkPacket.hpp, WorkOpcodes.hpp)

    The packets of the work stage: a 16-bit big-endian opcode, a 16-bit
    big-endian payload length, the payload.  The two formats meet in
    [AnyPacket], what [std::shared_ptr<const Packet>] points to. *)

From S2P Require Import Prelude Machine ByteBuffer Packet AuthPacket.

(** ** Opcodes: an [enum class : uint16_t] *)

Module WorkOp.
Inductive WorkOpcodes :=
| EMPTY_STAGE
| CMSG_PING
| SMSG_PONG
| CMSG_MESSAGE
| SMSG_MESSAGE
| OTHER (v : Z).

#[export] Instance WorkOpcodes_eq_dec : EqDecision WorkOpcodes.
Proof. solve_decision. Defined.

Definition opcode_to_uint16 (o : WorkOpcodes) : Z :=
  match o with
  | EMPTY_STAGE => 0x00
  | CMSG_PING => 0x01
  | SMSG_PONG => 0x02
  | CMSG_MESSAGE => 0x03
  | SMSG_MESSAGE => 0x04
  | OTHER v => v
  end.

Definition opcode_of_uint16 (v : Z) : WorkOpcodes :=
  if v =? 0x00 then EMPTY_STAGE
  else if v =? 0x01 then CMSG_PING
  else if v =? 0x02 then SMSG_PONG
  else if v =? 0x03 then CMSG_MESSAGE
  else if v =? 0x04 then SMSG_MESSAGE
  else OTHER v.

Lemma work_opcode_roundtrip v : opcode_to_uint16 (opcode_of_uint16 v) = v.
Proof. unfold opcode_of_uint16. repeat split_if; bool_to_prop; by subst. Qed.
End WorkOp.
Import WorkOp (WorkOpcodes, opcode_to_uint16, opcode_of_uint16).

(** ** The packet *)

Record WorkPacket := mkWorkPacket { opcode_ : WorkOpcodes; payload_ : ByteBuffer }.

#[export] Program Instance WorkPacket_base : PacketBase WorkPacket := {|
  raw := payload_;
  set_raw b p := mkWorkPacket (opcode_ p) b |}.
Next Obligation. done. Qed.

Definition WorkPacket_default : WorkPacket := mkWorkPacket WorkOp.EMPTY_STAGE ByteBuffer_default.
Definition WorkPacket_new (opcode : WorkOpcodes) : WorkPacket := mkWorkPacket opcode ByteBuffer_default.

Definition set_opcode (opcode : WorkOpcodes) (p : WorkPacket) : WorkPacket :=
  mkWorkPacket opcode (payload_ p).
Definition get_opcode (p : WorkPacket) : WorkOpcodes := opcode_ p.

Section work_packet.
Context {host : Host}.

Definition build_packet (p : WorkPacket) : list Z :=
  let temp := ByteBuffer_default in
  let temp := ByteBuffer.write_uint16_be (opcode_to_uint16 (opcode_ p)) temp in
  let temp := ByteBuffer.write_uint16_be (u16 (ByteBuffer.size (payload_ p))) temp in
  let temp := ByteBuffer.write_bytes (ByteBuffer.data (payload_ p)) temp in
  ByteBuffer.data temp.

Definition deserialize (raw_data : list Z) : M WorkPacket unit :=
  let temp := ByteBuffer_of raw_data in
  let! '(op, temp) := on_local ByteBuffer.read_uint16_be temp in
  do! modify (set_opcode (opcode_of_uint16 op)) in
  let! '(length, temp) := on_local ByteBuffer.read_uint16_be temp in
  if negb (length =? size_sub (zlen raw_data) 4)
  then throw (runtime_error "WorkPacket::deserialize: payload length mismatch")
  else
    do! modify (on_buffer ByteBuffer.clear) in
    let! '(payload, temp) := on_local (ByteBuffer.read_bytes length) temp in
    modify (on_buffer (ByteBuffer.write_bytes payload)).
End work_packet.

(** ** Lemmas *)

Definition work_opcode_ok (p : WorkPacket) : Prop :=
  opcode_of_uint16 (opcode_to_uint16 (opcode_ p)) = opcode_ p /\
  0 <= opcode_to_uint16 (opcode_ p) < 2 ^ 16.

Section work_packet_lemmas.
Context {host : Host}.

Lemma work_build_packet_bytes p :
  build_packet p = be_bytes 2 (opcode_to_uint16 (opcode_ p))
    ++ be_bytes 2 (ByteBuffer.size (payload_ p)) ++ buffer_ (payload_ p).
Proof.
  unfold build_packet, ByteBuffer.write_uint16_be. cbv zeta.
  rewrite !object_bytes_htobe, !write_bytes_appended.
  unfold appended, ByteBuffer.data. cbn [buffer_ ByteBuffer_default].
  by rewrite be_bytes_u16, <- app_assoc.
Qed.

(** Parsing a frame of at least four bytes. *)
Lemma work_deserialize_frame o1 o2 h l payload p0 :
  let frame := o1 :: o2 :: h :: l :: payload in
  bytes_ok frame -> zlen frame < max_vec ->
  deserialize frame p0 =
    if of_be_bytes [h; l] =? zlen payload
    then (Ok tt, mkWorkPacket (opcode_of_uint16 (of_be_bytes [o1; o2])) (ByteBuffer_of payload))
    else (Throw (runtime_error "WorkPacket::deserialize: payload length mismatch"),
          set_opcode (opcode_of_uint16 (of_be_bytes [o1; o2])) p0).
Proof.
  intros frame Hok Hmax. pose proof (zlen_nonneg payload).
  assert (wf (ByteBuffer_of frame)) as Hwf by (by apply ByteBuffer_of_wf).
  assert (ByteBuffer.size (ByteBuffer_of frame) = 4 + zlen payload) as Hsz
    by (unfold ByteBuffer.size; simpl; unfold frame; zlia).
  unfold deserialize.
  bind_step by (eapply on_local_ok, read_object_be; auto; simpl; lia).
  bind_step by done.
  assert (wf (moved (ByteBuffer_of frame) 2)) as Hwf1 by (apply moved_wf; auto; simpl; lia).
  bind_step by (eapply on_local_ok, read_object_be; auto; unfold ByteBuffer.size in *; simpl in *; lia).
  change (slice (read_pos_ (ByteBuffer_of frame)) (Z.of_nat 2) (buffer_ (ByteBuffer_of frame)))
    with [o1; o2].
  change (slice (read_pos_ (moved (ByteBuffer_of frame) (Z.of_nat 2))) (Z.of_nat 2)
    (buffer_ (moved (ByteBuffer_of frame) (Z.of_nat 2)))) with [h; l].
  replace (size_sub (zlen frame) 4) with (zlen payload)
    by (rewrite size_sub_small; unfold frame, max_vec, size_max in *; zlia).
  destruct (Z.eqb_spec (of_be_bytes [h; l]) (zlen payload)) as [->|]; cbn [negb]; cbv iota; [|done].
  bind_step by done.
  bind_step by (eapply on_local_ok, read_bytes_ok; auto;
    try apply moved_wf; auto; unfold ByteBuffer.size in *; simpl in *; lia).
  unfold modify, on_buffer. rewrite write_bytes_appended.
  unfold appended, ByteBuffer_of, slice, set_opcode. cbn -[of_be_bytes drop take].
  do 3 f_equal. change (Z.to_nat 4) with 4%nat. unfold zlen. rewrite Nat2Z.id.
  apply firstn_all.
Qed.

Lemma work_deserialize_short frame p0 :
  bytes_ok frame -> zlen frame < 4 ->
  exists p', deserialize frame p0
    = (Throw (out_of_range "ByteBuffer: not enough data to read"), p').
Proof.
  intros Hok Hlt.
  destruct frame as [|o1 [|o2 [|h [|l payload]]]].
  1-2: eexists; reflexivity.
  1-2: eexists; unfold deserialize; bind_step by (eapply on_local_ok, read_object_be;
    [apply ByteBuffer_of_wf; [done|unfold max_vec; zlia]|lia|done]); reflexivity.
  pose proof (zlen_nonneg payload). zlia.
Qed.
End work_packet_lemmas.

#[export] Program Instance WorkPacket_format `{host : Host} : PacketFormat WorkPacket := {|
  Packet.header_size := 4;
  Packet.build_packet := build_packet;
  Packet.deserialize := deserialize;
  Packet.opcode_ok := work_opcode_ok |}.
Next Obligation.
  intros host p. rewrite work_build_packet_bytes, !zlen_app, !zlen_be_bytes. unfold Packet.size.
  change (raw p) with (payload_ p). unfold ByteBuffer.size. zlia.
Qed.
Next Obligation.
  intros host [op [buf pos]] p0 [Hop1 Hop2] Hok Hsz. simpl in *.
  unfold Packet.size, ByteBuffer.size in Hsz. simpl in Hsz.
  rewrite work_build_packet_bytes. unfold ByteBuffer.size. cbn [opcode_ payload_ buffer_].
  pose proof (zlen_nonneg buf).
  destruct (be_pair (zlen buf)) as (h & l & -> & ? & ? & Hlen); [lia|].
  destruct (be_pair (opcode_to_uint16 op)) as (o1 & o2 & -> & ? & ? & Ho); [done|]. cbn [app].
  rewrite work_deserialize_frame.
  - by rewrite Hlen, Z.eqb_refl, Ho, Hop1.
  - rewrite !Forall_cons. by split_and!.
  - unfold max_vec. zlia.
Qed.
Next Obligation.
  intros host frame p0 p' Hok Hmax E.
  destruct (decide (zlen frame < 4)) as [Hlt|Hge].
  { destruct (work_deserialize_short frame p0 Hok Hlt) as [? E']. congruence. }
  destruct frame as [|o1 [|o2 [|h [|l payload]]]]; try (exfalso; apply Hge; vm_compute; reflexivity).
  rewrite work_deserialize_frame in E by done.
  destruct (Z.eqb_spec (of_be_bytes [h; l]) (zlen payload)) as [Hlen|]; [|done].
  injection E as <-. rewrite !Forall_cons in Hok. destruct Hok as (? & ? & ? & ? & ?).
  rewrite work_build_packet_bytes. unfold ByteBuffer.size.
  cbn [opcode_ payload_ buffer_ ByteBuffer_of]. rewrite WorkOp.work_opcode_roundtrip.
  rewrite <- Hlen, !be_pair_inv by done.
  split; [done|]. split; [|split; [|done]].
  - split; cbn [opcode_]; rewrite WorkOp.work_opcode_roundtrip; [done|].
    apply (of_be_bytes_range [o1; o2]). by rewrite !Forall_cons.
  - apply ByteBuffer_of_wf; [done|zlia].
Qed.
Next Obligation.
  intros host frame p0 Hok Hmax.
  destruct (decide (zlen frame < 4)) as [Hlt|Hge].
  { destruct (work_deserialize_short frame p0 Hok Hlt) as [? ->]. done. }
  destruct frame as [|o1 [|o2 [|h [|l payload]]]]; try (exfalso; apply Hge; vm_compute; reflexivity).
  rewrite work_deserialize_frame by done. by destruct (_ =? _).
Qed.

(** ** Dynamic dispatch *)

Inductive AnyPacket :=
| PAuth (p : AuthPacket)
| PWork (p : WorkPacket).

Definition any_build_packet `{host : Host} (p : AnyPacket) : list Z :=
  match p with
  | PAuth p => Packet.build_packet p
  | PWork p => Packet.build_packet p
  end.

(** ** Properties *)
Lemma auth_build_host (h h' : Host) p :
  AuthPacket.build_packet (host := h) p = AuthPacket.build_packet (host := h') p.
Proof. by rewrite !build_packet_bytes. Qed.

Lemma work_build_host (h h' : Host) p : build_packet (host := h) p = build_packet (host := h') p.
Proof. by rewrite !work_build_packet_bytes. Qed.

(** C5: a packet of either format with at most 65535 payload bytes, framed on
    one host and parsed on another into any packet object, arrives with its
    opcode and payload, and the receiver reads from the start of the
    payload. *)
Theorem packet_roundtrip (hw hr : Host) (p p0 : AuthPacket) (w w0 : WorkPacket) :
  auth_opcode_ok p -> bytes_ok (serialize p) -> Packet.size p < 2 ^ 16 ->
  work_opcode_ok w -> bytes_ok (serialize w) -> Packet.size w < 2 ^ 16 ->
  AuthPacket.deserialize (host := hr) (AuthPacket.build_packet (host := hw) p) p0
    = (Ok tt, mkAuthPacket (AuthPacket.get_opcode p) (ByteBuffer_of (serialize p))) /\
  deserialize (host := hr) (build_packet (host := hw) w) w0
    = (Ok tt, mkWorkPacket (get_opcode w) (ByteBuffer_of (serialize w))).
Proof.
  intros Hp Hpb Hps Hw Hwb Hws. split.
  - rewrite (auth_build_host hw hr).
    exact (deserialize_build (PacketFormat := AuthPacket_format (host := hr)) p p0 Hp Hpb Hps).
  - rewrite (work_build_host hw hr).
    exact (deserialize_build (PacketFormat := WorkPacket_format (host := hr)) w w0 Hw Hwb Hws).
Qed.

Lemma packet_roundtrip_witness :
  let p := mkAuthPacket CMSG_PING (ByteBuffer_of [1; 2; 3; 4]) in
  let w := mkWorkPacket (WorkOp.OTHER 0x1234) (ByteBuffer_of [9]) in
  AuthPacket.deserialize (host := big) (AuthPacket.build_packet (host := little) p) AuthPacket_default
    = (Ok tt, p) /\
  deserialize (host := big) (build_packet (host := little) w) WorkPacket_default = (Ok tt, w).
Proof.
  intros p w. apply (packet_roundtrip little big p AuthPacket_default w WorkPacket_default).
  - split; [reflexivity|simpl; lia].
  - repeat constructor; lia.
  - reflexivity.
  - split; [reflexivity|simpl; lia].
  - repeat constructor; lia.
  - reflexivity.
Defined.

(** C34: parsing is the exact inverse of framing: whatever bytes arrive, the
    parsers never read out of range, and a frame they accept is byte for byte
    the frame the parsed packet builds again. *)
Theorem packet_parse_exact (h : Host) (frame : list Z) (p0 : AuthPacket) (w0 : WorkPacket) :
  bytes_ok frame -> zlen frame < max_vec ->
  match AuthPacket.deserialize (host := h) frame p0 with
  | (Ok _, p) => AuthPacket.build_packet (host := h) p = frame /\ Packet.read_pos p = 0
  | (Throw _, _) => True
  | (Undef, _) => False
  end /\
  match deserialize (host := h) frame w0 with
  | (Ok _, w) => build_packet (host := h) w = frame /\ Packet.read_pos w = 0
  | (Throw _, _) => True
  | (Undef, _) => False
  end.
Proof.
  intros Hok Hmax. split.
  - pose proof (deserialize_defined (PacketFormat := AuthPacket_format) frame p0 Hok Hmax) as Hd.
    change (Packet.deserialize frame p0) with (AuthPacket.deserialize frame p0) in Hd.
    destruct (AuthPacket.deserialize frame p0) as [[[]| |] p] eqn:E; try done.
    destruct (build_deserialize (PacketFormat := AuthPacket_format) frame p0 p Hok Hmax E)
      as (? & _ & _ & ?). done.
  - pose proof (deserialize_defined (PacketFormat := WorkPacket_format) frame w0 Hok Hmax) as Hd.
    change (Packet.deserialize frame w0) with (deserialize frame w0) in Hd.
    destruct (deserialize frame w0) as [[[]| |] w] eqn:E; try done.
    destruct (build_deserialize (PacketFormat := WorkPacket_format) frame w0 w Hok Hmax E)
      as (? & _ & _ & ?). done.
Qed.

Lemma packet_parse_exact_witness :
  match AuthPacket.deserialize (host := little) [7; 0; 2; 1; 2] AuthPacket_default with
  | (Ok _, p) => AuthPacket.build_packet (host := little) p = [7; 0; 2; 1; 2] /\ Packet.read_pos p = 0
  | (Throw _, _) => True
  | (Undef, _) => False
  end.
Proof.
  apply (packet_parse_exact little [7; 0; 2; 1; 2] AuthPacket_default WorkPacket_default).
  - repeat constructor; lia.
  - reflexivity.
Defined.

(** [build_packet] truncates the payload size to 16 bits without a check:
    the frame of a payload of 65536 bytes or more announces the size modulo
    65536 and the peer's parser rejects it. *)
Theorem build_packet_truncates_length (h : Host) (p p0 : AuthPacket) :
  auth_opcode_ok p -> bytes_ok (serialize p) ->
  2 ^ 16 <= Packet.size p -> Packet.size p + 3 < max_vec ->
  exists p', AuthPacket.deserialize (host := h) (AuthPacket.build_packet (host := h) p) p0
    = (Throw (runtime_error "AuthPacket::deserialize: payload length mismatch"), p').
Proof.
  destruct p as [op [buf pos]]. unfold Packet.size, serialize, ByteBuffer.size. simpl.
  intros [_ Hop] Hok Hsz Hmax. simpl in Hop.
  rewrite build_packet_bytes. unfold ByteBuffer.size. cbn [AuthPacket.opcode_ AuthPacket.payload_ buffer_].
  rewrite <- be_bytes_u16. pose proof (wrap_range 16 (zlen buf)) as Hu.
  destruct (be_pair (u16 (zlen buf))) as (b1 & b2 & -> & ? & ? & Hlen); [apply Hu; lia|]. cbn [app].
  rewrite deserialize_frame.
  - rewrite Hlen. destruct (Z.eqb_spec (u16 (zlen buf)) (zlen buf)) as [E|]; [|eauto].
    unfold u16 in E. lia.
  - rewrite !Forall_cons. split_and!; auto. apply (wrap_range 8). lia.
  - zlia.
Qed.

Lemma build_packet_truncates_length_witness :
  exists p', AuthPacket.deserialize (host := little)
    (AuthPacket.build_packet (host := little) (mkAuthPacket CMSG_PING (ByteBuffer_of (replicate (Z.to_nat 65536) 0))))
    AuthPacket_default
    = (Throw (runtime_error "AuthPacket::deserialize: payload length mismatch"), p').
Proof.
  apply (build_packet_truncates_length little
    (mkAuthPacket CMSG_PING (ByteBuffer_of (replicate (Z.to_nat 65536) 0))) AuthPacket_default).
  - split; [reflexivity|simpl; lia].
  - apply Forall_replicate. unfold byte_ok. lia.
  - change (2 ^ 16 <= zlen (replicate (Z.to_nat 65536) 0)). rewrite zlen_replicate. lia.
  - change (zlen (replicate (Z.to_nat 65536) 0) + 3 < max_vec). rewrite zlen_replicate.
    unfold max_vec. lia.
Defined.
