(* ===== verification/AccountCache.v ===== *)
(** * AccountCache (src/server/AccountCache/AccountCache.hpp)

    The server's cache of (salt, verifier) pairs with a sliding time to live.
    Every public method holds [mutex_] for its whole body, so a method is one
    atomic step; the time [steady_clock::now()] returns is an argument.  Times
    and durations are nanoseconds, the unit the comparisons are made in. *)

From S2P Require Import Prelude Machine.

Record AccountCacheEntry := mkAccountCacheEntry {
  salt : list Z;
  verifier : list Z;
  last_access : Z }.

#[export] Instance AccountCacheEntry_eq_dec : EqDecision AccountCacheEntry.
Proof. solve_decision. Defined.

(** [cleanup_timer] is the expiry time of a pending [async_wait]. *)
Record AccountCache := mkAccountCache {
  cache_ : gmap (list Z) AccountCacheEntry;
  cleanup_timer_ : option Z;
  ttl_ : Z;
  cleanup_interval_ : Z }.

Definition set_cache (m : gmap (list Z) AccountCacheEntry) (c : AccountCache) : AccountCache :=
  mkAccountCache m (cleanup_timer_ c) (ttl_ c) (cleanup_interval_ c).
Definition set_timer (t : option Z) (c : AccountCache) : AccountCache :=
  mkAccountCache (cache_ c) t (ttl_ c) (cleanup_interval_ c).

Definition nanoseconds_per_second : Z := 1000000000.

(** [AccountCache(io_context, ttl, cleanup_interval)], durations in seconds. *)
Definition AccountCache_new (ttl cleanup_interval : Z) : AccountCache :=
  mkAccountCache ∅ None (ttl * nanoseconds_per_second) (cleanup_interval * nanoseconds_per_second).

Definition start_cleanup_timer (now : Z) (c : AccountCache) : AccountCache :=
  set_timer (Some (now + cleanup_interval_ c)) c.

Definition start (now : Z) (c : AccountCache) : AccountCache := start_cleanup_timer now c.

Definition stop (c : AccountCache) : AccountCache := set_timer None c.

Definition expired (ttl now : Z) (e : AccountCacheEntry) : bool := ttl <? now - last_access e.

Definition touch (now : Z) (e : AccountCacheEntry) : AccountCacheEntry :=
  mkAccountCacheEntry (salt e) (verifier e) now.

Definition get (now : Z) (username : list Z) : M AccountCache (option AccountCacheEntry) := fun c =>
  match cache_ c !! username with
  | None => (Ok None, c)
  | Some e =>
      if expired (ttl_ c) now e then (Ok None, c)
      else (Ok (Some (touch now e)), set_cache (<[username := touch now e]> (cache_ c)) c)
  end.

Definition put (now : Z) (username : list Z) (entry : AccountCacheEntry) (c : AccountCache) : AccountCache :=
  let new_entry := entry in
  let new_entry := touch now new_entry in
  set_cache (<[username := new_entry]> (cache_ c)) c.

Definition invalidate (username : list Z) (c : AccountCache) : AccountCache :=
  set_cache (delete username (cache_ c)) c.

(** The loop visits every element once and erases it when it has expired. *)
Fixpoint erase_expired (ttl now : Z) (elements : list (list Z * AccountCacheEntry))
    (m : gmap (list Z) AccountCacheEntry) : gmap (list Z) AccountCacheEntry :=
  match elements with
  | [] => m
  | (k, e) :: elements =>
      erase_expired ttl now elements (if expired ttl now e then delete k m else m)
  end.

Definition cleanup_expired_entries (now : Z) (c : AccountCache) : AccountCache :=
  set_cache (erase_expired (ttl_ c) now (map_to_list (cache_ c)) (cache_ c)) c.

(** The completion handler of the timer: a cancelled wait does nothing. *)
Definition on_cleanup_timer (ec : bool) (now : Z) (c : AccountCache) : AccountCache :=
  if negb ec then start_cleanup_timer now (cleanup_expired_entries now c)
  else c.

(** ** Lemmas *)
Lemma erase_expired_lookup ttl now elements : forall m u,
  NoDup (elements.*1) ->
  (forall k e, (k, e) ∈ elements -> m !! k = Some e) ->
  erase_expired ttl now elements m !! u =
    match m !! u with
    | Some e => if decide (u ∈ elements.*1) then (if expired ttl now e then None else Some e) else Some e
    | None => None
    end.
Proof.
  induction elements as [|[k e] els IH]; intros m u Hnd Hin; cbn [erase_expired].
  - destruct (m !! u); [|done]. destruct (decide (u ∈ [])) as [H|]; [by apply not_elem_of_nil in H|done].
  - rewrite fmap_cons in Hnd |- *. cbn [fst] in Hnd |- *. apply NoDup_cons in Hnd as [Hk Hnd].
    pose proof (Hin k e ltac:(left)) as Hke.
    set (m' := if expired ttl now e then delete k m else m).
    assert (forall k', k' <> k -> m' !! k' = m !! k') as Hm'.
    { intros k' ?. unfold m'. destruct (expired ttl now e); [by rewrite lookup_delete_ne|done]. }
    rewrite IH; [|done|].
    2:{ intros k' e' H'. rewrite Hm'; [apply Hin; by right|]. intros ->.
        apply Hk. apply list_elem_of_fmap. by exists (k, e'). }
    destruct (decide (u = k)) as [->|Hne].
    + rewrite Hke. rewrite (decide_True (P := k ∈ k :: els.*1)) by left.
      unfold m'. destruct (expired ttl now e); [by rewrite lookup_delete_eq|].
      rewrite Hke. by rewrite decide_False.
    + rewrite Hm' by done. destruct (m !! u) as [e'|]; [|done].
      destruct (decide (u ∈ els.*1)) as [Hu|Hu].
      * rewrite decide_True by (by right). done.
      * rewrite decide_False; [done|]. rewrite elem_of_cons. by intros [?|?].
Qed.

Lemma cleanup_lookup now c u :
  cache_ (cleanup_expired_entries now c) !! u =
    match cache_ c !! u with
    | Some e => if expired (ttl_ c) now e then None else Some e
    | None => None
    end.
Proof.
  unfold cleanup_expired_entries. simpl. rewrite erase_expired_lookup.
  - destruct (cache_ c !! u) as [e|] eqn:E; [|done]. rewrite decide_True; [done|].
    apply list_elem_of_fmap. exists (u, e). split; [done|]. by apply elem_of_map_to_list.
  - apply NoDup_fst_map_to_list.
  - intros k e. by rewrite elem_of_map_to_list.
Qed.

(** ** Histories *)

(** A call with the time at which it runs. *)
Inductive cache_call :=
| Get (username : list Z)
| Put (username : list Z) (entry : AccountCacheEntry)
| Invalidate (username : list Z)
| CleanupTimer (ec : bool).

Definition run_call (now : Z) (call : cache_call) (c : AccountCache) : AccountCache :=
  match call with
  | Get u => (get now u c).2
  | Put u e => put now u e c
  | Invalidate u => invalidate u c
  | CleanupTimer ec => on_cleanup_timer ec now c
  end.

(** Histories are newest first. *)
Fixpoint run_history (h : list (Z * cache_call)) (c : AccountCache) : AccountCache :=
  match h with
  | [] => c
  | (t, call) :: h => run_call t call (run_history h c)
  end.

(** The clock is steady. *)
Fixpoint steady (h : list (Z * cache_call)) (now : Z) : Prop :=
  match h with
  | [] => True
  | (t, _) :: h => t <= now /\ steady h t
  end.

(** ** The specification: what a lookup at time [now] should find

    The pair of the latest [Put] that was not invalidated, provided that every
    use since came within [ttl] of the previous one.  Timer runs do not
    appear. *)
Fixpoint live (ttl : Z) (h : list (Z * cache_call)) (u : list Z) (now : Z) : option (list Z * list Z) :=
  match h with
  | [] => None
  | (t, Put u' e) :: h =>
      if decide (u = u') then (if now - t <=? ttl then Some (salt e, verifier e) else None)
      else live ttl h u now
  | (t, Get u') :: h =>
      if decide (u = u')
      then match live ttl h u t with
           | Some p => if now - t <=? ttl then Some p else None
           | None => None
           end
      else live ttl h u now
  | (t, Invalidate u') :: h => if decide (u = u') then None else live ttl h u now
  | (_, CleanupTimer _) :: h => live ttl h u now
  end.

(** What the cache holds for [u] and would still serve at time [now]. *)
Definition served (c : AccountCache) (u : list Z) (now : Z) : option (list Z * list Z) :=
  match cache_ c !! u with
  | Some e => if expired (ttl_ c) now e then None else Some (salt e, verifier e)
  | None => None
  end.

Lemma get_served c u now :
  (get now u c).1 = Ok (option_map (fun p => mkAccountCacheEntry p.1 p.2 now) (served c u now)).
Proof. unfold get, served. destruct (cache_ c !! u) as [e|]; [|done]. by destruct (expired _ _ _). Qed.

Lemma run_call_ttl t call c : ttl_ (run_call t call c) = ttl_ c.
Proof.
  destruct call; simpl; auto.
  - unfold get. destruct (cache_ c !! username); [|done]. by destruct (expired _ _ _).
  - unfold on_cleanup_timer. by destruct ec.
Qed.

Lemma run_history_ttl h c : ttl_ (run_history h c) = ttl_ c.
Proof. induction h as [|[t call] h IH]; simpl; [done|]. by rewrite run_call_ttl. Qed.

Lemma expired_mono ttl t now e : t <= now -> expired ttl t e = true -> expired ttl now e = true.
Proof. unfold expired. rewrite !Z.ltb_lt. lia. Qed.

Lemma expired_touch ttl t now e : expired ttl now (touch t e) = negb (now - t <=? ttl).
Proof. unfold expired. simpl. by rewrite Z.leb_antisym, negb_involutive. Qed.

(** One call, seen through [served] at any later time. *)
Lemma served_run_call t call c u now :
  t <= now ->
  served (run_call t call c) u now =
    match call with
    | Put u' e =>
        if decide (u = u') then (if now - t <=? ttl_ c then Some (salt e, verifier e) else None)
        else served c u now
    | Get u' =>
        if decide (u = u')
        then match served c u t with
             | Some p => if now - t <=? ttl_ c then Some p else None
             | None => None
             end
        else served c u now
    | Invalidate u' => if decide (u = u') then None else served c u now
    | CleanupTimer _ => served c u now
    end.
Proof.
  intros Ht. destruct call as [u'|u' e|u'|ec]; simpl.
  - unfold served, get. destruct (decide (u = u')) as [<-|Hne].
    + destruct (cache_ c !! u) as [e|] eqn:E; simpl; [|by rewrite E].
      destruct (expired (ttl_ c) t e) eqn:Ex; simpl.
      * by rewrite E, (expired_mono _ _ _ _ Ht Ex).
      * rewrite lookup_insert_eq, expired_touch. by destruct (_ <=? _).
    + destruct (cache_ c !! u') as [e|]; simpl; [|done]. destruct (expired _ t e); simpl; [done|].
      by rewrite lookup_insert_ne.
  - unfold served, put. simpl. destruct (decide (u = u')) as [<-|Hne].
    + rewrite lookup_insert_eq, expired_touch. by destruct (_ <=? _).
    + by rewrite lookup_insert_ne.
  - unfold served, invalidate. simpl. destruct (decide (u = u')) as [<-|Hne].
    + by rewrite lookup_delete_eq.
    + by rewrite lookup_delete_ne.
  - unfold on_cleanup_timer. destruct ec; simpl; [done|].
    unfold served. change (cache_ (start_cleanup_timer t (cleanup_expired_entries t c)))
      with (cache_ (cleanup_expired_entries t c)).
    rewrite cleanup_lookup. destruct (cache_ c !! u) as [e|]; [|done].
    destruct (expired (ttl_ c) t e) eqn:Ex; simpl; [|done].
    by rewrite (expired_mono _ _ _ _ Ht Ex).
Qed.

Lemma served_live h c u now :
  steady h now -> cache_ c = ∅ -> served (run_history h c) u now = live (ttl_ c) h u now.
Proof.
  intros Hs Hc. revert now Hs. induction h as [|[t call] h IH]; intros now Hs; simpl.
  - unfold served. by rewrite Hc.
  - destruct Hs as [Ht Hs]. rewrite served_run_call by done. rewrite run_history_ttl.
    assert (served (run_history h c) u t = live (ttl_ c) h u t) as Et by auto.
    assert (served (run_history h c) u now = live (ttl_ c) h u now) as En.
    { apply IH. destruct h as [|[t' ?] h']; simpl in *; [done|]. destruct Hs. split; [lia|done]. }
    destruct call; by rewrite ?Et, ?En.
Qed.

(** ** Observational equivalence

    Two caches are equivalent from time [t] on when no lookup at a time from
    [t] on can tell them apart. *)

Definition cache_equiv (t : Z) (c d : AccountCache) : Prop :=
  ttl_ c = ttl_ d /\ forall u now, t <= now -> served c u now = served d u now.

#[export] Instance cache_equiv_equivalence t : Equivalence (cache_equiv t).
Proof.
  split.
  - intros c. split; auto.
  - intros c d [? H]. split; [done|]. intros. symmetry. auto.
  - intros c d e [? H1] [? H2]. split; [congruence|]. intros. rewrite H1 by done. auto.
Qed.

Lemma cache_equiv_mono t t' c d : t <= t' -> cache_equiv t c d -> cache_equiv t' c d.
Proof. intros ? [? H]. split; [done|]. intros. apply H. lia. Qed.

(** Every operation respects the equivalence. *)
#[export] Instance run_call_proper t call : Proper (cache_equiv t ==> cache_equiv t) (run_call t call).
Proof.
  intros c d [Ht H]. split; [by rewrite !run_call_ttl|]. intros u now Hnow.
  rewrite !served_run_call by done. destruct call; rewrite ?Ht, ?H by lia; done.
Qed.

(** Running the cleanup timer is unobservable. *)
Lemma cleanup_timer_equiv t ec c : cache_equiv t (on_cleanup_timer ec t c) c.
Proof.
  split; [by apply (run_call_ttl t (CleanupTimer ec))|]. intros u now Hnow.
  by apply (served_run_call t (CleanupTimer ec)).
Qed.

(** ** Properties *)

(** C7: the cache implements its sliding-TTL specification: after any history of
    lookups, insertions, invalidations and timer runs on a steady clock, a
    lookup returns exactly the pair the specification computes from the
    history, with its access time renewed. *)
Theorem account_cache_refines_sliding_ttl (ttl interval : Z) (h : list (Z * cache_call))
    (u : list Z) (now : Z) :
  steady h now ->
  (get now u (run_history h (AccountCache_new ttl interval))).1 =
    Ok (option_map (fun p => mkAccountCacheEntry p.1 p.2 now)
          (live (ttl * nanoseconds_per_second) h u now)).
Proof. intros Hs. rewrite get_served, served_live; done. Qed.

Lemma account_cache_refines_sliding_ttl_witness :
  (get 9000000000 [65] (run_history
     [(8000000000, CleanupTimer false); (5000000000, Get [65]);
      (1000000000, Put [65] (mkAccountCacheEntry [1] [2] 0))] (AccountCache_new 5 1))).1
  = Ok (Some (mkAccountCacheEntry [1] [2] 9000000000)).
Proof.
  rewrite account_cache_refines_sliding_ttl; [vm_compute; reflexivity|].
  simpl. lia.
Defined.

(** The cleanup timer is invisible: a cache on which it ran and one on which
    it did not answer every later history of calls the same way. *)
Theorem cleanup_unobservable (c : AccountCache) (t : Z) (ec : bool) (h : list (Z * cache_call))
    (u : list Z) (now : Z) :
  steady (h ++ [(t, CleanupTimer ec)]) now ->
  (get now u (run_history h (on_cleanup_timer ec t c))).1 = (get now u (run_history h c)).1.
Proof.
  intros Hs. rewrite !get_served. do 2 f_equal.
  enough (t <= now /\ cache_equiv now (run_history h (on_cleanup_timer ec t c)) (run_history h c))
    as [_ [_ H]] by (apply H; lia).
  revert now Hs. induction h as [|[t' call] h IH]; intros now Hs; simpl in *.
  - split; [lia|]. apply (cache_equiv_mono t); [lia|apply cleanup_timer_equiv].
  - destruct Hs as [Ht Hs]. destruct (IH t' Hs) as [? Heq]. split; [lia|].
    apply (cache_equiv_mono t'); [done|]. by rewrite Heq.
Qed.

Lemma cleanup_unobservable_witness :
  let c := run_history [(0, Put [66] (mkAccountCacheEntry [1] [2] 0))] (AccountCache_new 1 1) in
  (get 3000000000 [66] (run_history [] (on_cleanup_timer false 2000000000 c))).1
  = (get 3000000000 [66] (run_history [] c)).1 /\
  cache_ (on_cleanup_timer false 2000000000 c) = ∅.
Proof.
  intros c. split.
  - apply (cleanup_unobservable c 2000000000 false [] [66] 3000000000). simpl. lia.
  - vm_compute. reflexivity.
Defined.

(** Cleanup bounds the cache: after the timer has run, every entry left was
    used within the time to live, no live entry was dropped, and the timer is
    armed again one interval later; a cancelled wait changes nothing. *)
Theorem cleanup_expired_entries_correct (now : Z) (c : AccountCache) :
  (forall u e, cache_ (on_cleanup_timer false now c) !! u = Some e <->
     cache_ c !! u = Some e /\ now - last_access e <= ttl_ c) /\
  cleanup_timer_ (on_cleanup_timer false now c) = Some (now + cleanup_interval_ c) /\
  on_cleanup_timer true now c = c.
Proof.
  split; [|done]. intros u e.
  change (cache_ (on_cleanup_timer false now c)) with (cache_ (cleanup_expired_entries now c)).
  rewrite cleanup_lookup. unfold expired. destruct (cache_ c !! u) as [e'|]; [|by split; [|intros []]].
  destruct (Z.ltb_spec (ttl_ c) (now - last_access e')) as [Hlt|Hge].
  - split; [done|]. intros [[= <-] ?]. lia.
  - split; [intros [= <-]; auto|intros [[= <-] _]; auto].
Qed.
