(* ===== verification/PreparedStatement.v ===== *)
(** * PreparedStatement (src/common/database/PreparedStatement.hpp)

    A statement name with positional parameters; [None] is SQL [NULL].
    [debug_print] only prints and is not modelled. *)

From S2P Require Import Prelude Machine.

Record PreparedStatement := mkPreparedStatement {
  name_ : string;
  params_ : list (option (list Z)) }.

Definition PreparedStatement_new (name : string) : PreparedStatement := mkPreparedStatement name [].

Definition name (s : PreparedStatement) : string := name_ s.
Definition params (s : PreparedStatement) : list (option (list Z)) := params_ s.

Definition set_params (ps : list (option (list Z))) (s : PreparedStatement) : PreparedStatement :=
  mkPreparedStatement (name_ s) ps.

(** [index + 1] is computed in [size_t]. *)
Definition ensure_size (index : Z) (s : PreparedStatement) : PreparedStatement :=
  if zlen (params_ s) <=? index
  then set_params (vec_resize None (size_add index 1) (params_ s)) s
  else s.

(** [params_[index] = value]: out of range is undefined. *)
Definition store_param (index : Z) (value : option (list Z)) : M PreparedStatement unit := fun s =>
  if (0 <=? index) && (index <? zlen (params_ s))
  then (Ok tt, set_params (<[Z.to_nat index := value]> (params_ s)) s)
  else (Undef, s).

Definition set_value (index : Z) (value : option (list Z)) : M PreparedStatement unit :=
  do! modify (ensure_size index) in store_param index value.

(** The overloads of [set_param]: [std::to_string] of an integer, a string, a
    C string ([None] is a null pointer, on which [std::string(value)] is
    undefined), a string view. *)
Definition to_string (value : Z) : list Z :=
  map (fun c => Z.of_N (Ascii.N_of_ascii c)) (String.list_ascii_of_string (pretty value)).

Definition set_param_int (index value : Z) : M PreparedStatement unit :=
  set_value index (Some (to_string value)).
Definition set_param (index : Z) (value : list Z) : M PreparedStatement unit :=
  set_value index (Some value).

Fixpoint c_string (chars : list Z) : list Z :=
  match chars with
  | [] => []
  | c :: chars => if c =? 0 then [] else c :: c_string chars
  end.

Definition set_param_c_str (index : Z) (value : option (list Z)) : M PreparedStatement unit :=
  match value with
  | Some chars => set_value index (Some (c_string chars))
  | None => do! modify (ensure_size index) in undef
  end.
Definition set_param_view (index : Z) (value : list Z) : M PreparedStatement unit :=
  set_value index (Some value).
Definition set_null (index : Z) : M PreparedStatement unit := set_value index None.

Definition clear (s : PreparedStatement) : PreparedStatement := set_params [] s.

(** ** Lemmas *)
Lemma set_value_ok index value s :
  0 <= index < size_max - 1 ->
  set_value index value s =
    (Ok tt, set_params (<[Z.to_nat index := value]>
              (params_ s ++ replicate (Z.to_nat (index + 1 - zlen (params_ s))) None)) s).
Proof.
  intros Hi. unfold set_value. bind_step by done. unfold store_param, ensure_size.
  destruct (Z.leb_spec (zlen (params_ s)) index); simpl.
  - rewrite size_add_small by lia. rewrite vec_resize_grow by lia.
    rewrite (proj2 (Z.leb_le 0 index)) by lia. simpl.
    rewrite (proj2 (Z.ltb_lt _ _)) by zlia. done.
  - rewrite (proj2 (Z.leb_le 0 index)), (proj2 (Z.ltb_lt _ _)) by lia. simpl.
    replace (Z.to_nat (index + 1 - zlen (params_ s))) with 0%nat by lia.
    by rewrite app_nil_r.
Qed.

(** ** Properties *)

(** Setting a parameter stores exactly that value at that position, keeps
    every other parameter, and fills the positions skipped with [NULL]. *)
Theorem set_param_correct (index : Z) (value : list Z) (s : PreparedStatement) :
  0 <= index < size_max - 1 ->
  exists s', set_param index value s = (Ok tt, s') /\ name s' = name s /\
    zlen (params s') = Z.max (zlen (params s)) (index + 1) /\
    params s' !! Z.to_nat index = Some (Some value) /\
    forall j, j <> Z.to_nat index ->
      params s' !! j =
        match params s !! j with
        | Some p => Some p
        | None => if decide (Z.of_nat j < index) then Some None else None
        end.
Proof.
  intros Hi. unfold set_param. rewrite set_value_ok by done.
  eexists. split; [done|]. unfold params. simpl.
  set (gap := replicate (Z.to_nat (index + 1 - zlen (params_ s))) (None : option (list Z))).
  assert (length (params_ s ++ gap) = Z.to_nat (Z.max (zlen (params_ s)) (index + 1))) as Hl.
  { rewrite length_app. unfold gap. rewrite length_replicate. unfold zlen. lia. }
  pose proof (zlen_nonneg (params_ s)).
  split; [done|]. split; [|split].
  - unfold zlen at 1. rewrite length_insert, Hl. lia.
  - apply list_lookup_insert_eq. lia.
  - intros j Hj. rewrite list_lookup_insert_ne by done. rewrite lookup_app.
    destruct (params_ s !! j) as [p|] eqn:E; [done|]. apply lookup_ge_None in E.
    unfold gap. destruct (decide (Z.of_nat j < index)) as [Hlt|Hge].
    + rewrite lookup_replicate_2; [done|]. unfold zlen. lia.
    + apply lookup_ge_None. rewrite length_replicate. unfold zlen. lia.
Qed.

Lemma set_param_correct_witness :
  exists s', set_param 2 [65] (PreparedStatement_new "S") = (Ok tt, s') /\
    params s' = [None; None; Some [65]].
Proof.
  destruct (set_param_correct 2 [65] (PreparedStatement_new "S")) as (s' & E & _).
  - vm_compute. split; [discriminate|reflexivity].
  - exists s'. split; [exact E|]. vm_compute in E. injection E as <-. reflexivity.
Defined.
