(* ===== verification/Database.v ===== *)
(** * Database and QueryResults (src/common/database/Database.hpp, QueryResults.hpp)

    The pool of PostgreSQL connections.  libpqxx, the server behind it and the
    network are the class [Pqxx]: every operation may change the outside world
    and may throw.  Each section of the code that holds [mutex_] is one atomic
    step.  A caller that finds the queue empty sleeps on [cond_] with the lock
    released: it either runs the rest of [acquire_connection] later, in a state
    where the queue is not empty, or gives up at the timeout with the queue
    still empty; so [acquire_connection] applied to a state with an empty queue
    is the timeout. *)

From S2P Require Import Prelude Machine PreparedStatement.

(** ** libpqxx *)

Class Pqxx (World connection work row : Type) := {
  (** [pqxx::connection(conninfo)], [is_open], [disconnect], destructor *)
  pq_connect : list Z -> M World connection;
  pq_is_open : connection -> M World bool;
  pq_disconnect : connection -> M World unit;
  pq_destroy : connection -> World -> World;
  (** [conn.prepare(name, definition)] *)
  pq_prepare : connection -> string -> string -> M World unit;
  (** [pqxx::work(conn)], [prepared(name)(...).exec()], [commit], destructor *)
  pq_begin : connection -> M World work;
  pq_exec_prepared : work -> string -> list (option (list Z)) -> M World (list row);
  pq_commit : work -> M World unit;
  pq_end : work -> World -> World;
  (** fields of a row: [r[column].is_null()], [as<int64_t>()],
      [as<std::string>()], [pqxx::binarystring] *)
  pq_is_null : row -> string -> outcome bool;
  pq_as_int64 : row -> string -> outcome Z;
  pq_as_string : row -> string -> outcome (list Z);
  pq_binarystring : row -> string -> outcome (list Z);
  (** [r[0].as<int64_t>()] *)
  pq_first_int64 : row -> outcome Z }.

(** ** Rows *)

Record AccountsRow := mkAccountsRow {
  id : Z;
  name : option (list Z);
  salt : option (list Z);
  verifier : option (list Z);
  email : option (list Z);
  created_at : option Z }.

Inductive NothingRow := mkNothingRow.

Section rows.
Context `{PX : Pqxx World connection work row}.
(** [TimeUtils::parse_pg_timestamp], which depends on the time zone: an exception
    or a time ([TimeUtils] models it; times the clock cannot hold are not in
    the table). *)
Context (parse_pg_timestamp : list Z -> exn + Z).

(** [TimeUtils::parse_pg_timestamp_optional]: catches everything. *)
Definition parse_pg_timestamp_optional (timestamp : list Z) : option Z :=
  match timestamp with
  | [] => None
  | _ => match parse_pg_timestamp timestamp with inr t => Some t | inl _ => None end
  end.

(** [if (!r[column].is_null()) field = read(r[column]);] *)
Definition nullable {A} (r : row) (column : string) (read : row -> string -> outcome A)
  : M unit (option A) :=
  let! null := of_outcome (pq_is_null r column) in
  if negb null then let! v := of_outcome (read r column) in ret (Some v) else ret None.

Definition map_AccountsRow (r : row) : outcome AccountsRow :=
  ((let! i := of_outcome (pq_as_int64 r "id") in
    let id := u64 i in
    let! name := nullable r "username" pq_as_string in
    let! salt := nullable r "salt" pq_binarystring in
    let! verifier := nullable r "verifier" pq_binarystring in
    let! email := nullable r "email" pq_as_string in
    let! created := nullable r "created_at" pq_as_string in
    let created_at := match created with Some s => parse_pg_timestamp_optional s | None => None end in
    ret (mkAccountsRow id name salt verifier email created_at)) tt).1.

Definition map_NothingRow (r : row) : outcome NothingRow := Ok mkNothingRow.

Definition map_uint64 (r : row) : outcome Z :=
  match pq_first_int64 r with Ok i => Ok (u64 i) | Throw e => Throw e | Undef => Undef end.
End rows.

(** The [Struct] parameter of [execute_sync]: its row mapper, and the value
    returned without looking at the result when it is [NothingRow]. *)
Record RowMapper (row Struct : Type) := mkRowMapper {
  nothing : option Struct;
  map_row : row -> outcome Struct }.
Arguments mkRowMapper {row Struct}.
Arguments nothing {row Struct}.
Arguments map_row {row Struct}.

(** ** The pool *)

(** [Database] together with the world it acts on. *)
Record Database (World connection : Type) := mkDatabase {
  conninfo_ : list Z;
  connections_ : list connection;
  world : World }.
Arguments mkDatabase {World connection}.
Arguments conninfo_ {World connection}.
Arguments connections_ {World connection}.
Arguments world {World connection}.

Section database.
Context `{PX : Pqxx World connection work row}.
Abbreviation DB := (Database World connection).

Definition set_connections (l : list connection) (d : DB) : DB := mkDatabase (conninfo_ d) l (world d).
Definition set_world (w : World) (d : DB) : DB := mkDatabase (conninfo_ d) (connections_ d) w.
Definition in_world {A} (m : M World A) : M DB A := zoom world set_world m.
Definition destroy_connection (c : connection) : M DB unit :=
  modify (fun d => set_world (pq_destroy c (world d)) d).

(** A local object with a destructor: it is destroyed when the block is left
    normally and when it is left by an exception. *)
Definition with_destructor {S A} (m : M S A) (destructor : S -> S) : M S A := fun s =>
  match m s with
  | (Undef, s') => (Undef, s')
  | (r, s') => (r, destructor s')
  end.

(** A local [pqxx::work txn(conn)]. *)
Definition with_work {A} (c : connection) (body : work -> M DB A) : M DB A :=
  let! txn := in_world (pq_begin c) in
  with_destructor (body txn) (fun d => set_world (pq_end txn (world d)) d).

Definition prepare_all (c : connection) : M DB unit :=
  with_work c (fun txn =>
    do! in_world (pq_prepare c "SELECT_ACCOUNT_BY_USERNAME"
      "SELECT id, username, salt, verifier, email, created_at FROM accounts WHERE username = $1") in
    do! in_world (pq_prepare c "INSERT_ACCOUNT_BY_USERNAME"
      "INSERT INTO accounts (username, salt, verifier) VALUES ($1, $2, $3) RETURNING id") in
    in_world (pq_commit txn)).

(** [std::make_unique<pqxx::connection>(conninfo_)] followed by
    [prepare_all]; the connection is destroyed when the latter throws. *)
Definition open_connection : M DB connection := fun d =>
  (let! c := in_world (pq_connect (conninfo_ d)) in
   do! try_catch (prepare_all c) (fun e => do! destroy_connection c in throw e) in
   ret c) d.

Definition reconnect_connection : M DB connection := open_connection.

(** The constructor's loop. *)
Fixpoint establish (n : nat) : M DB unit :=
  match n with
  | O => ret tt
  | S n =>
      let! c := open_connection in
      do! modify (fun d => set_connections (connections_ d ++ [c]) d) in
      establish n
  end.

Definition Database_new (conninfo : list Z) (pool_size : nat) (w : World) : outcome unit * DB :=
  establish pool_size (mkDatabase conninfo [] w).

Fixpoint shutdown_loop (l : list connection) : M DB unit :=
  match l with
  | [] => ret tt
  | c :: l =>
      let! o := in_world (pq_is_open c) in
      do! (if o then in_world (pq_disconnect c) else ret tt) in
      do! modify (set_connections l) in
      do! destroy_connection c in
      shutdown_loop l
  end.

Definition shutdown : M DB unit := fun d => shutdown_loop (connections_ d) d.

Definition acquire_connection : M DB (option connection) := fun d =>
  match connections_ d with
  | [] => (Ok None, d)
  | conn :: rest =>
      (do! modify (set_connections rest) in
       let! o := in_world (pq_is_open conn) in
       if negb o then
         let! conn' := try_catch reconnect_connection (fun e => do! destroy_connection conn in throw e) in
         do! destroy_connection conn in
         ret (Some conn')
       else ret (Some conn)) d
  end.

Definition release_connection (conn : connection) (d : DB) : DB :=
  set_connections (connections_ d ++ [conn]) d.

Definition acquire_scoped_connection : M DB connection :=
  let! conn := acquire_connection in
  match conn with
  | Some c => ret c
  | None => throw (runtime_error "No DB connection available after timeout")
  end.

(** The body of the [try] block of [execute_sync]. *)
Definition execute_txn {Struct} (mp : RowMapper row Struct) (stmt : PreparedStatement)
    (conn : connection) : M DB (option Struct) :=
  with_work conn (fun txn =>
    let! result := in_world (pq_exec_prepared txn (PreparedStatement.name stmt) (params stmt)) in
    do! in_world (pq_commit txn) in
    match nothing mp with
    | Some s => ret (Some s)
    | None =>
        match result with
        | [] => ret None
        | r :: _ => let! s := of_outcome (map_row mp r) in ret (Some s)
        end
    end).

(** The part of [execute_sync] that runs while the connection is held. *)
Definition execute_held {Struct} (mp : RowMapper row Struct) (stmt : PreparedStatement)
    (conn : connection) : M DB (option Struct) :=
  try_catch (execute_txn mp stmt conn)
    (fun e =>
       match e with
       | broken_connection _ =>
           let! reconnect := reconnect_connection in
           do! destroy_connection reconnect in
           throw e
       | _ => throw e
       end).

Definition execute_sync {Struct} (mp : RowMapper row Struct) (stmt : PreparedStatement)
  : M DB (option Struct) :=
  let! conn := acquire_scoped_connection in
  with_destructor (execute_held mp stmt conn) (release_connection conn).
End database.

(** ** Lemmas *)

(** What the manual of libpqxx promises and the pool relies on: calls return or
    throw, and [is_open] is a [const noexcept] accessor. *)
Class PqxxLaws `(PX : Pqxx World connection work row) := {
  connect_defined : forall i w, (pq_connect i w).1 <> Undef;
  is_open_noexcept : forall c w, exists o, pq_is_open c w = (Ok o, w);
  disconnect_defined : forall c w, (pq_disconnect c w).1 <> Undef;
  prepare_defined : forall c n q w, (pq_prepare c n q w).1 <> Undef;
  begin_defined : forall c w, (pq_begin c w).1 <> Undef;
  exec_defined : forall t n ps w, (pq_exec_prepared t n ps w).1 <> Undef;
  commit_defined : forall t w, (pq_commit t w).1 <> Undef;
  is_null_defined : forall r c, pq_is_null r c <> Undef;
  as_int64_defined : forall r c, pq_as_int64 r c <> Undef;
  as_string_defined : forall r c, pq_as_string r c <> Undef;
  binarystring_defined : forall r c, pq_binarystring r c <> Undef }.

(** Connections are objects: the constructor makes a new one, the destructor ends it, and no other call makes or ends any.
    [live] are those that exist. *)
Class PqxxObjects `(PX : Pqxx World connection work row) := {
  live : World -> list connection;
  connect_live : forall i w, match pq_connect i w with
                             | (Ok c, w') => c ∉ live w /\ live w' ≡ₚ c :: live w
                             | (_, w') => live w' ≡ₚ live w
                             end;
  destroy_live : forall c l w, live w ≡ₚ c :: l -> live (pq_destroy c w) ≡ₚ l;
  disconnect_live : forall c w, live (pq_disconnect c w).2 ≡ₚ live w;
  prepare_live : forall c n q w, live (pq_prepare c n q w).2 ≡ₚ live w;
  begin_live : forall c w, live (pq_begin c w).2 ≡ₚ live w;
  exec_live : forall t n ps w, live (pq_exec_prepared t n ps w).2 ≡ₚ live w;
  commit_live : forall t w, live (pq_commit t w).2 ≡ₚ live w;
  end_live : forall t w, live (pq_end t w) ≡ₚ live w }.

Lemma map_AccountsRow_defined `{PX : Pqxx World connection work row} {PL : PqxxLaws PX}
    (parse : list Z -> exn + Z) (r : row) : map_AccountsRow parse r <> Undef.
Proof.
  assert (forall A B (o : outcome A) (k : A -> M unit B) u, o <> Undef ->
    (forall a u, (k a u).1 <> Undef) -> (bind (of_outcome o) k u).1 <> Undef) as Hb.
  { intros A B [a|e|] k u Ho Hk; unfold bind, of_outcome; auto. }
  assert (forall A B (col : string) (rd : row -> string -> outcome A) (k : option A -> M unit B) u,
    rd r col <> Undef -> (forall a u, (k a u).1 <> Undef) -> (bind (nullable r col rd) k u).1 <> Undef) as Hn.
  { intros A B col rd k u Hr Hk. unfold nullable. rewrite bind_assoc. apply Hb; [apply is_null_defined|].
    intros [] u'; simpl; [apply Hk|]. rewrite bind_assoc. apply Hb; [done|]. intros a u''. apply Hk. }
  unfold map_AccountsRow. apply Hb; [apply as_int64_defined|]. intros i u. cbv zeta.
  repeat (apply Hn; [first [apply as_string_defined|apply binarystring_defined]|intros ? ?]). done.
Qed.

Create HintDb neutral.

Section lemmas.
Context `{PX : Pqxx World connection work row} {PL : PqxxLaws PX}.
Abbreviation DB := (Database World connection).
Implicit Types d : DB.

(** The computation returns or throws, and leaves the queue and the connection
    string alone. *)
Definition neutral {A} (m : M DB A) : Prop := forall d,
  (m d).1 <> Undef /\ connections_ (m d).2 = connections_ d /\ conninfo_ (m d).2 = conninfo_ d.

Lemma neutral_in_world {A} (m : M World A) : (forall w, (m w).1 <> Undef) -> neutral (in_world m).
Proof.
  intros H d. unfold in_world, zoom. specialize (H (world d)). by destruct (m (world d)) as [r w].
Qed.

Lemma neutral_ret {A} (a : A) : neutral (ret a).
Proof. done. Qed.

Lemma neutral_throw {A} e : neutral (throw (A := A) e).
Proof. done. Qed.

Lemma neutral_bind {A B} (m : M DB A) (f : A -> M DB B) :
  neutral m -> (forall a, neutral (f a)) -> neutral (bind m f).
Proof.
  intros Hm Hf d. unfold bind. destruct (Hm d) as (H1 & H2 & H3).
  destruct (m d) as [[a|e|] d']; simpl in *; [|done..].
  destruct (Hf a d') as (? & -> & ->). by rewrite H2, H3.
Qed.

Lemma neutral_try_catch {A} (m : M DB A) h :
  neutral m -> (forall e, neutral (h e)) -> neutral (try_catch m h).
Proof.
  intros Hm Hh d. unfold try_catch. destruct (Hm d) as (H1 & H2 & H3).
  destruct (m d) as [[a|e|] d']; simpl in *; [done| |done].
  destruct (Hh e d') as (? & -> & ->). by rewrite H2, H3.
Qed.

Lemma neutral_of_outcome {A} (o : outcome A) : o <> Undef -> neutral (of_outcome o).
Proof. done. Qed.

Lemma neutral_destroy c : neutral (destroy_connection c).
Proof. done. Qed.

Lemma neutral_with_work {A} c (body : work -> M DB A) :
  (forall t, neutral (body t)) -> neutral (with_work c body).
Proof.
  intros Hb. apply neutral_bind; [apply neutral_in_world, begin_defined|].
  intros t d. unfold with_destructor. destruct (Hb t d) as (H1 & H2 & H3).
  by destruct (body t d) as [[a|e|] d'].
Qed.

#[local] Hint Resolve neutral_in_world neutral_ret neutral_throw neutral_bind neutral_try_catch
  neutral_of_outcome neutral_destroy neutral_with_work
  connect_defined prepare_defined commit_defined exec_defined disconnect_defined : neutral.

Lemma neutral_open : neutral open_connection.
Proof.
  intros d. unfold open_connection. revert d.
  assert (forall i, neutral (let! c := in_world (pq_connect i) in
    do! try_catch (prepare_all c) (fun e => do! destroy_connection c in throw e) in ret c)) as H.
  { intros i. apply neutral_bind; [eauto with neutral|]. intros c.
    apply neutral_bind; [|eauto with neutral].
    apply neutral_try_catch; [|eauto with neutral]. apply neutral_with_work. intros t.
    repeat (apply neutral_bind; [by eauto with neutral|intros _]). eauto with neutral. }
  intros d. apply H.
Qed.

Lemma neutral_execute_held {Struct} (mp : RowMapper row Struct) stmt c :
  (forall r, map_row mp r <> Undef) -> neutral (execute_held mp stmt c).
Proof.
  intros Hmp. unfold execute_held, execute_txn, reconnect_connection.
  apply neutral_try_catch.
  - apply neutral_with_work. intros t. apply neutral_bind; [eauto with neutral|]. intros rows.
    apply neutral_bind; [eauto with neutral|]. intros _.
    destruct (nothing mp); [eauto with neutral|]. destruct rows; eauto with neutral.
  - intros []; eauto using neutral_open with neutral.
Qed.

(** [acquire_connection] on a queue with a first connection [c]. *)
Lemma acquire_spec d c rest :
  connections_ d = c :: rest ->
  match acquire_connection d with
  | (Ok (Some c'), d') =>
      connections_ d' = rest /\ conninfo_ d' = conninfo_ d /\
      (pq_is_open c (world d) = (Ok true, world d) -> c' = c /\ world d' = world d)
  | (Ok None, _) => False
  | (Throw e, d') =>
      connections_ d' = rest /\ conninfo_ d' = conninfo_ d /\
      pq_is_open c (world d) = (Ok false, world d) /\
      exists d'', open_connection (set_connections rest d) = (Throw e, d'')
  | (Undef, _) => False
  end.
Proof.
  intros Ed. unfold acquire_connection. rewrite Ed. destruct (is_open_noexcept c (world d)) as [o Eo].
  bind_step by done. bind_step by (unfold in_world, zoom; simpl; by rewrite Eo).
  replace (set_world (world d) (set_connections rest d)) with (set_connections rest d) by done.
  destruct o; simpl; [done|]. unfold reconnect_connection.
  destruct (neutral_open (set_connections rest d)) as (H1 & H2 & H3).
  unfold bind at 1, try_catch. destruct (open_connection (set_connections rest d)) as [[c'|e|] d'] eqn:E; simpl in *.
  - rewrite H2, H3. split_and!; auto. by rewrite Eo.
  - rewrite H2, H3, Eo. eauto.
  - done.
Qed.

Lemma acquire_empty d : connections_ d = [] -> acquire_connection d = (Ok None, d).
Proof. intros E. unfold acquire_connection. by rewrite E. Qed.

Lemma execute_sync_empty {Struct} (mp : RowMapper row Struct) stmt d :
  connections_ d = [] ->
  execute_sync mp stmt d = (Throw (runtime_error "No DB connection available after timeout"), d).
Proof.
  intros E. unfold execute_sync, acquire_scoped_connection.
  apply bind_throw. by rewrite (bind_ok _ _ _ _ _ (acquire_empty _ E)).
Qed.

Lemma shutdown_defined d r d' : shutdown d = (r, d') -> r <> Undef.
Proof.
  unfold shutdown. generalize (connections_ d) as l. intros l. revert d.
  induction l as [|c l IH]; intros d; simpl; [by intros [= <- <-]|].
  destruct (is_open_noexcept c (world d)) as [o Eo].
  unfold bind at 1, in_world at 1, zoom. rewrite Eo. unfold bind at 1.
  assert (forall d, ((if o then in_world (pq_disconnect c) else ret tt) d).1 <> Undef) as Hd.
  { intros d1. destruct o; [|done]. apply neutral_in_world, disconnect_defined. }
  specialize (Hd (set_world (world d) d)).
  destruct ((if o then in_world (pq_disconnect c) else ret tt) (set_world (world d) d)) as [[u|e|] d1]; simpl in Hd; [|by intros [= <- <-]|done].
  apply IH.
Qed.

Lemma shutdown_loop_empty l : forall d d',
  shutdown_loop l d = (Ok tt, d') -> l <> [] -> connections_ d' = [].
Proof.
  induction l as [|c l IH]; intros d d' E Hne; [done|]. simpl in E.
  apply bind_ok_inv in E as (o & d1 & _ & E). apply bind_ok_inv in E as (u & d2 & _ & E).
  apply bind_ok_inv in E as (u' & d3 & E3 & E). apply bind_ok_inv in E as (u'' & d4 & E4 & E).
  injection E3 as _ <-. injection E4 as _ <-.
  destruct l as [|c' l]; [by injection E as <-|]. by eapply IH.
Qed.

Lemma shutdown_empty d d' : shutdown d = (Ok tt, d') -> connections_ d' = [].
Proof.
  unfold shutdown. intros E. destruct (connections_ d) as [|c l] eqn:El.
  - by injection E as <-.
  - by eapply shutdown_loop_empty.
Qed.

(** The connection a request gets when [c] is the first of the queue: [c] itself, or a new one when [c] is closed. *)
Definition replacement c rest d : outcome connection :=
  match (pq_is_open c (world d)).1 with
  | Ok true => Ok c
  | _ => (open_connection (set_connections rest d)).1
  end.

Lemma acquire_replacement d c rest :
  connections_ d = c :: rest ->
  match replacement c rest d with
  | Ok c' => exists d', acquire_connection d = (Ok (Some c'), d') /\ connections_ d' = rest
  | Throw e => exists d', acquire_connection d = (Throw e, d') /\ connections_ d' = rest
  | Undef => False
  end.
Proof.
  intros Ed. unfold replacement, acquire_connection. rewrite Ed. destruct (is_open_noexcept c (world d)) as [o Eo]. rewrite Eo.
  bind_step by done. bind_step by (unfold in_world, zoom; simpl; by rewrite Eo).
  replace (set_world (world d) (set_connections rest d)) with (set_connections rest d) by done.
  destruct o; simpl; [by eexists|]. unfold reconnect_connection. destruct (neutral_open (set_connections rest d)) as (H1 & H2 & H3).
  unfold bind, try_catch, destroy_connection, modify, throw, ret. destruct (open_connection (set_connections rest d)) as [[c'|e|] d']; simpl in *; [by (eexists; split; [done|exact H2])..|done].
Qed.

(** A whole request: the first connection is borrowed and comes back last; it
    is lost exactly when it was closed and reopening it threw. *)
Lemma execute_sync_pool {Struct} (mp : RowMapper row Struct) stmt d c rest :
  (forall r, map_row mp r <> Undef) -> connections_ d = c :: rest ->
  match acquire_connection d with
  | (Ok _, _) => exists c' d', (execute_sync mp stmt d).2 = d' /\ (execute_sync mp stmt d).1 <> Undef /\
      connections_ d' = rest ++ [c'] /\
      (pq_is_open c (world d) = (Ok true, world d) -> c' = c)
  | (Throw e, d') => execute_sync mp stmt d = (Throw e, d') /\ connections_ d' = rest /\
      pq_is_open c (world d) = (Ok false, world d)
  | (Undef, _) => False
  end.
Proof.
  intros Hmp Ed. pose proof (acquire_spec d c rest Ed) as H.
  unfold execute_sync, acquire_scoped_connection.
  destruct (acquire_connection d) as [[[c'|]|e|] d1] eqn:E; try done.
  - destruct H as (H1 & _ & H2). exists c'. eexists. split; [done|].
    rewrite bind_assoc, (bind_ok _ _ _ _ _ E). cbv beta iota. bind_step by done.
    destruct (neutral_execute_held mp stmt c' Hmp d1) as (H3 & H4 & H5). unfold with_destructor.
    destruct (execute_held mp stmt c' d1) as [[r|e|] d2]; simpl in *; try done.
    all: split_and!; [done|by rewrite H4, H1|intros Ho; by apply H2 in Ho as [? _]].
  - destruct H as (H1 & _ & H2 & _). split_and!; auto.
    rewrite bind_assoc. by apply bind_throw.
Qed.
End lemmas.

Section success.
Context `{PX : Pqxx World connection work row}.
Abbreviation DB := (Database World connection).

Lemma acquire_open (d : DB) c rest w0 :
  connections_ d = c :: rest -> pq_is_open c (world d) = (Ok true, w0) ->
  acquire_connection d = (Ok (Some c), mkDatabase (conninfo_ d) rest w0).
Proof.
  intros Ed Eo. unfold acquire_connection. rewrite Ed. bind_step by done.
  bind_step by (unfold in_world, zoom; simpl; by rewrite Eo). done.
Qed.

Lemma execute_held_ok {Struct} (mp : RowMapper row Struct) stmt c i l w0 w1 w2 w3 txn rows r :
  pq_begin c w0 = (Ok txn, w1) ->
  pq_exec_prepared txn (PreparedStatement.name stmt) (params stmt) w1 = (Ok rows, w2) ->
  pq_commit txn w2 = (Ok tt, w3) ->
  (match nothing mp with
   | Some s => ret (Some s)
   | None => match rows with [] => ret None
             | r :: _ => let! s := of_outcome (map_row mp r) in ret (Some s) end
   end : M DB _) (mkDatabase i l w3) = (Ok r, mkDatabase i l w3) ->
  execute_held mp stmt c (mkDatabase i l w0) = (Ok r, mkDatabase i l (pq_end txn w3)).
Proof.
  intros Eb Ex Ec Hr. unfold execute_held. apply try_catch_ok. unfold execute_txn, with_work.
  bind_step by (unfold in_world, zoom; simpl; by rewrite Eb). unfold with_destructor.
  bind_step by (unfold in_world, zoom; simpl; by rewrite Ex).
  bind_step by (unfold in_world, zoom; simpl; by rewrite Ec).
  unfold set_world. simpl. rewrite Hr. done.
Qed.
End success.

(** ** Connections are neither copied nor leaked *)

Section objects.
Context `{PX : Pqxx World connection work row} {PO : PqxxObjects PX}.
Abbreviation DB := (Database World connection).
Implicit Types d : DB.

(** The computation leaves as many connections as it found. *)
Definition keeps_live {A} (m : M DB A) : Prop := forall d, live (world (m d).2) ≡ₚ live (world d).

Lemma keeps_in_world {A} (m : M World A) : (forall w, live (m w).2 ≡ₚ live w) -> keeps_live (in_world m).
Proof. intros H d. unfold in_world, zoom. specialize (H (world d)). by destruct (m (world d)). Qed.

Lemma keeps_live_ret {A} (a : A) : keeps_live (ret a).
Proof. by intros d. Qed.

Lemma keeps_live_throw {A} e : keeps_live (throw (A := A) e).
Proof. by intros d. Qed.

Lemma keeps_live_of_outcome {A} (o : outcome A) : keeps_live (of_outcome o).
Proof. by intros d. Qed.

Lemma keeps_live_bind {A B} (m : M DB A) (f : A -> M DB B) : keeps_live m -> (forall a, keeps_live (f a)) -> keeps_live (bind m f).
Proof.
  intros Hm Hf d. unfold bind. specialize (Hm d). destruct (m d) as [[a|e|] d']; simpl in *; [|done..]. by rewrite (Hf a d').
Qed.

Lemma keeps_with_work {A} c (body : work -> M DB A) : (forall t, keeps_live (body t)) -> keeps_live (with_work c body).
Proof.
  intros Hb. apply keeps_live_bind; [apply keeps_in_world, begin_live|]. intros t d. unfold with_destructor. specialize (Hb t d).
  destruct (body t d) as [[a|e|] d']; simpl in *; rewrite ?end_live; done.
Qed.

Lemma keeps_prepare_all c : keeps_live (prepare_all c).
Proof.
  apply keeps_with_work. intros t. repeat (apply keeps_live_bind; [apply keeps_in_world, prepare_live|intros _]). apply keeps_in_world, commit_live.
Qed.

(** Opening gives a new connection, or none when it throws. *)
Lemma open_live d :
  match open_connection d with
  | (Ok c, d') => c ∉ live (world d) /\ live (world d') ≡ₚ c :: live (world d)
  | (Throw _, d') => live (world d') ≡ₚ live (world d)
  | (Undef, _) => True
  end.
Proof.
  unfold open_connection, bind at 1, in_world, zoom. pose proof (connect_live (conninfo_ d) (world d)) as Hc.
  destruct (pq_connect (conninfo_ d) (world d)) as [[c|e|] w]; [|done..]. destruct Hc as [Hn Hl]. unfold bind, try_catch.
  pose proof (keeps_prepare_all c (set_world w d)) as Hp. destruct (prepare_all c (set_world w d)) as [[[]|e|] d']; simpl in *; [|by apply destroy_live; rewrite Hp|done].
  split; [done|]. by rewrite Hp.
Qed.

(** A query leaves the connections alone; what it opens after a broken connection it destroys. *)
Lemma execute_held_live {Struct} (mp : RowMapper row Struct) stmt c d r d' :
  execute_held mp stmt c d = (r, d') -> r <> Undef -> live (world d') ≡ₚ live (world d).
Proof.
  assert (Ht : keeps_live (execute_txn mp stmt c)).
  { apply keeps_with_work. intros t. apply keeps_live_bind; [apply keeps_in_world, exec_live|]. intros rows.
    apply keeps_live_bind; [apply keeps_in_world, commit_live|]. intros _. destruct (nothing mp); [apply keeps_live_ret|].
    destruct rows; [apply keeps_live_ret|]. apply keeps_live_bind; [apply keeps_live_of_outcome|intros s; apply keeps_live_ret]. }
  unfold execute_held, try_catch. specialize (Ht d). destruct (execute_txn mp stmt c d) as [[s|e|] d1]; simpl in Ht; [by intros [= <- <-]| |by intros [= <- <-]].
  destruct e; try by intros [= <- <-]. unfold reconnect_connection, bind. pose proof (open_live d1) as Ho.
  destruct (open_connection d1) as [[c2|e2|] d2]; [|by intros [= <- <-] _; rewrite Ho|by intros [= <- <-]].
  intros [= <- <-] _. simpl. destruct Ho as [_ Ho]. by rewrite (destroy_live _ _ _ Ho).
Qed.

(** The queue and the connections held elsewhere are all there is: [others] of them besides the queue. *)
Definition owned (others : list connection) d : Prop := NoDup (live (world d)) /\ live (world d) ≡ₚ connections_ d ++ others.

Lemma acquire_live {PL : PqxxLaws PX} others d r d' :
  owned others d -> acquire_connection d = (r, d') ->
  match r with
  | Ok (Some c) => owned (c :: others) d'
  | _ => owned others d'
  end.
Proof.
  intros [Hnd Hl] E. destruct (connections_ d) as [|c rest] eqn:Ed.
  { unfold acquire_connection in E. rewrite Ed in E. injection E as <- <-. split; [done|]. by rewrite Ed. }
  revert E. unfold acquire_connection. rewrite Ed. destruct (is_open_noexcept c (world d)) as [o Eo].
  unfold bind at 1, modify. unfold bind at 1, in_world, zoom. cbn [world set_connections]. rewrite Eo. cbn [set_world].
  replace (set_world (world d) (set_connections rest d)) with (set_connections rest d) by done. destruct o; cbn [negb].
  { intros [= <- <-]. split; [done|]. simpl. rewrite Hl. simpl. solve_Permutation. }
  unfold bind at 1, try_catch, reconnect_connection. pose proof (open_live (set_connections rest d)) as Ho.
  destruct (neutral_open (set_connections rest d)) as (Hu & Hc & _).
  destruct (open_connection (set_connections rest d)) as [[c2|e2|] d2]; simpl in *; [| |done].
  - intros [= <- <-]. destruct Ho as [Hn Ho]. assert (Hp : live (pq_destroy c (world d2)) ≡ₚ c2 :: rest ++ others).
    { apply destroy_live. rewrite Ho, Hl. simpl. solve_Permutation. }
    split; simpl; rewrite Hp; [|rewrite Hc; simpl; solve_Permutation]. rewrite Hl in Hnd, Hn. simpl in *. apply NoDup_cons in Hnd as [_ Hnd].
    apply NoDup_cons. split; [set_solver|done].
  - intros [= <- <-]. assert (Hp : live (pq_destroy c (world d2)) ≡ₚ rest ++ others) by (apply destroy_live; by rewrite Ho, Hl).
    split; simpl; rewrite Hp; [|by rewrite Hc]. rewrite Hl in Hnd. simpl in Hnd. by apply NoDup_cons in Hnd as [_ Hnd].
Qed.

Lemma establish_live {PL : PqxxLaws PX} n others d d' : owned others d -> establish n d = (Ok tt, d') -> owned others d'.
Proof.
  revert d. induction n as [|n IH]; intros d Hd; cbn [establish]; [by intros [= <-]|].
  intros E. apply bind_ok_inv in E as (c & d1 & E1 & E). apply bind_ok_inv in E as ([] & d2 & E2 & E). injection E2 as <-. refine (IH _ _ E).
  pose proof (open_live d) as Ho. destruct (neutral_open d) as (_ & Hc & _). rewrite E1 in Ho, Hc. destruct Ho as [Hn Ho], Hd as [Hnd Hl]. simpl in Hc.
  split; simpl; rewrite Ho; [by apply NoDup_cons|]. rewrite Hl, Hc. solve_Permutation.
Qed.
End objects.

(** ** Threads sharing the pool *)

(** The pool, the running requests with the thread of each and the connection it holds, and how many
    connections were lost because reopening them threw. *)
Record Pool (World connection : Type) := mkPool {
  p_db : Database World connection;
  p_held : list (nat * connection);
  p_lost : nat }.
Arguments mkPool {World connection}.
Arguments p_db {World connection}.
Arguments p_held {World connection}.
Arguments p_lost {World connection}.

Section threads.
Context `{PX : Pqxx World connection work row} {PL : PqxxLaws PX}.
Abbreviation DB := (Database World connection).
Implicit Types d : DB.

(** One atomic step of the thread [t]: the two sections of [execute_sync] that
    hold [mutex_], and the query in between, which does not. *)
Inductive pool_step : Pool World connection -> Pool World connection -> Prop :=
| step_acquire t d held lost c d' :
    t ∉ map fst held -> acquire_connection d = (Ok (Some c), d') ->
    pool_step (mkPool d held lost) (mkPool d' ((t, c) :: held) lost)
| step_timeout t d held lost d' :
    t ∉ map fst held -> acquire_connection d = (Ok None, d') ->
    pool_step (mkPool d held lost) (mkPool d' held lost)
| step_acquire_throws t d held lost e d' :
    t ∉ map fst held -> acquire_connection d = (Throw e, d') ->
    pool_step (mkPool d held lost) (mkPool d' held (S lost))
| step_query t {Struct} (mp : RowMapper row Struct) stmt d held lost c r d' :
    (forall r, map_row mp r <> Undef) -> (t, c) ∈ held -> execute_held mp stmt c d = (r, d') ->
    pool_step (mkPool d held lost) (mkPool d' held lost)
| step_release t d held1 held2 lost c :
    pool_step (mkPool d (held1 ++ (t, c) :: held2) lost)
              (mkPool (release_connection c d) (held1 ++ held2) lost).

Definition pool_total (p : Pool World connection) : nat :=
  length (connections_ (p_db p)) + length (p_held p) + p_lost p.

Lemma pool_step_total p p' : pool_step p p' -> pool_total p' = pool_total p.
Proof.
  unfold pool_total.
  intros [t d held lost c d' _ E|t d held lost d' _ E|t d held lost e d' _ E|t Struct mp stmt d held lost c r d' Hmp Hc E|
    t d held1 held2 lost c]; simpl.
  - destruct (connections_ d) as [|c0 rest] eqn:Ed; [by rewrite acquire_empty in E|].
    pose proof (acquire_spec d c0 rest Ed) as H. rewrite E in H. destruct H as (-> & _). simpl. lia.
  - destruct (connections_ d) as [|c0 rest] eqn:Ed.
    + rewrite acquire_empty in E by done. injection E as <-. by rewrite Ed.
    + pose proof (acquire_spec d c0 rest Ed) as H. by rewrite E in H.
  - destruct (connections_ d) as [|c0 rest] eqn:Ed; [by rewrite acquire_empty in E|].
    pose proof (acquire_spec d c0 rest Ed) as H. rewrite E in H. destruct H as (-> & _). simpl. lia.
  - destruct (neutral_execute_held mp stmt c Hmp d) as (_ & H & _). rewrite E in H. simpl in H. by rewrite H.
  - rewrite !length_app. simpl. lia.
Qed.

(** Every connection is idle or held by one thread, or was there before the pool ([before]). *)
Definition pool_owned {PO : PqxxObjects PX} (before : list connection) (p : Pool World connection) : Prop :=
  owned (map snd (p_held p) ++ before) (p_db p) /\ NoDup (map fst (p_held p)).

Lemma pool_step_owned {PO : PqxxObjects PX} before p p' : pool_step p p' -> pool_owned before p -> pool_owned before p'.
Proof.
  intros [t d held lost c d' Ht E|t d held lost d' _ E|t d held lost e d' _ E|t Struct mp stmt d held lost c r d' Hmp Hc E|
    t d held1 held2 lost c] [Ho Hd]; simpl in *.
  - split; [exact (acquire_live _ _ _ _ Ho E)|]. by apply NoDup_cons.
  - split; [exact (acquire_live _ _ _ _ Ho E)|done].
  - split; [exact (acquire_live _ _ _ _ Ho E)|done].
  - destruct (neutral_execute_held mp stmt c Hmp d) as (Hu & Hq & _). rewrite E in Hu, Hq. simpl in Hu, Hq.
    pose proof (execute_held_live mp stmt c d r d' E Hu) as Hl. split; [|done]. destruct Ho as [Hn Ho]. split; simpl; rewrite Hl, ?Hq; done.
  - unfold pool_owned. simpl. rewrite !map_app in *. simpl in *. split.
    + destruct Ho as [Hn Ho]. split; simpl; [done|]. rewrite Ho. solve_Permutation.
    + apply NoDup_app in Hd as (H1 & H2 & H3). apply NoDup_cons in H3 as [H3 H4]. apply NoDup_app. split_and!; [done| |done]. set_solver.
Qed.

Lemma pool_steps_total p p' : rtc pool_step p p' -> pool_total p' = pool_total p.
Proof. induction 1 as [|p1 p2 p3 H _ IH]; [done|]. by rewrite IH, (pool_step_total _ _ H). Qed.

Lemma pool_steps_owned {PO : PqxxObjects PX} before p p' : rtc pool_step p p' -> pool_owned before p -> pool_owned before p'.
Proof. induction 1 as [|p1 p2 p3 H _ IH]; [done|]. intros Hp. by apply IH, (pool_step_owned before p1). Qed.

Lemma establish_length n d d' :
  establish n d = (Ok tt, d') -> length (connections_ d') = (length (connections_ d) + n)%nat.
Proof.
  revert d; induction n as [|n IH]; intros d; simpl.
  - intros [= <-]. lia.
  - intros E. apply bind_ok_inv in E as (c & d1 & E1 & E). apply bind_ok_inv in E as ([] & d2 & E2 & E).
    injection E2 as <-. apply IH in E. rewrite E. simpl. rewrite length_app. simpl.
    destruct (neutral_open d) as (_ & H & _). rewrite E1 in H. simpl in H. rewrite H. lia.
Qed.

(** Requests one after the other; each caller swallows the exception. *)
Fixpoint run_requests {Struct} (mp : RowMapper row Struct) (stmts : list PreparedStatement) (d : DB) : DB :=
  match stmts with
  | [] => d
  | stmt :: stmts => run_requests mp stmts (execute_sync mp stmt d).2
  end.
End threads.

(** ** A concrete database for the witnesses

    The server is up or down; every restart starts a new epoch, and a
    connection is open while the epoch in which it was made lasts. *)
Module Demo.
Record World := mkWorld { up : bool; epoch : nat; table : list (list Z * list (option (list Z))) }.

(** A query returns the parameters of the statement as a one-row result. *)
#[export] Instance demo_pqxx : Pqxx World nat nat (list (option (list Z))) := {|
  pq_connect _ w := (if up w then Ok (epoch w) else Throw (broken_connection "connection refused"), w);
  pq_is_open c w := (Ok (up w && (c =? epoch w)%nat), w);
  pq_disconnect _ w := (Ok tt, w);
  pq_destroy _ w := w;
  pq_prepare _ _ _ w := (Ok tt, w);
  pq_begin c w := (if up w && (c =? epoch w)%nat then Ok c else Throw (broken_connection "closed"), w);
  pq_exec_prepared _ _ ps w :=
    (Ok (match ps with
         | [Some u] => map snd (filter (fun r => bool_decide (r.1 = u)) (table w))
         | _ => []
         end), w);
  pq_commit _ w := (Ok tt, w);
  pq_end _ w := w;
  pq_is_null r c :=
    Ok (match r, c with
        | [Some _; _], "salt" => false
        | [_; Some _], "verifier" => false
        | _, _ => true
        end);
  pq_as_int64 _ _ := Ok 1;
  pq_as_string _ _ := Ok [];
  pq_binarystring r c :=
    Ok (match r, c with
        | [Some s; _], "salt" => s
        | [_; Some v], "verifier" => v
        | _, _ => []
        end);
  pq_first_int64 _ := Ok 1 |}.

#[export] Instance demo_laws : PqxxLaws demo_pqxx.
Proof.
  constructor; simpl; try done.
  - intros _ w. by destruct (up w).
  - intros c w. eauto.
  - intros c w. by destruct (_ && _).
Qed.

Definition accounts : RowMapper (list (option (list Z))) AccountsRow :=
  mkRowMapper None (map_AccountsRow (fun _ => inl (runtime_error "Failed to parse timestamp"))).

Definition select (u : list Z) : PreparedStatement := mkPreparedStatement "SELECT_ACCOUNT_BY_USERNAME" [Some u].

Definition world_up : World := mkWorld true 0 [([65], [Some [1]; Some [2]])].
Definition world_down : World := mkWorld false 1 [([65], [Some [1]; Some [2]])].
End Demo.

(** A database whose connections are numbered; queries return nothing. *)
Module Objects.
Record World := mkWorld { next_number : nat; existing : gset nat }.
(** The numbers given so far. *)
Definition alive (w : World) : gset nat := filter (fun n => n < next_number w)%nat (existing w).

Definition objects_pqxx : Pqxx World nat nat unit := {|
  pq_connect _ w := (Ok (next_number w), mkWorld (S (next_number w)) ({[next_number w]} ∪ alive w));
  pq_is_open _ w := (Ok true, w);
  pq_disconnect _ w := (Ok tt, w);
  pq_destroy c w := mkWorld (next_number w) (existing w ∖ {[c]});
  pq_prepare _ _ _ w := (Ok tt, w);
  pq_begin c w := (Ok c, w);
  pq_exec_prepared _ _ _ w := (Ok [], w);
  pq_commit _ w := (Ok tt, w);
  pq_end _ w := w;
  pq_is_null _ _ := Ok true;
  pq_as_int64 _ _ := Ok 0;
  pq_as_string _ _ := Ok [];
  pq_binarystring _ _ := Ok [];
  pq_first_int64 _ := Ok 0 |}.

Lemma objects_laws : PqxxLaws objects_pqxx.
Proof. constructor; simpl; try done. intros c w. eauto. Qed.

Lemma objects_objects : PqxxObjects objects_pqxx.
Proof.
  refine {| live w := elements (alive w) |}; try done.
  - intros i w. simpl. clear i. assert (next_number w ∉ alive w) as Hn by (unfold alive; rewrite elem_of_filter; lia).
    split; [by rewrite elem_of_elements|]. rewrite <- elements_union_singleton by done. apply elements_proper. unfold alive. simpl.
    intros n. rewrite !elem_of_filter, elem_of_union, elem_of_filter, elem_of_singleton. intuition lia.
  - intros c l w H. simpl. assert (Hc : c ∈ alive w) by (rewrite <- elem_of_elements, H; by constructor).
    apply (Permutation_cons_inv (a := c)). rewrite <- H, <- elements_union_singleton by (unfold alive; simpl; set_solver).
    apply elements_proper. unfold alive in *. simpl. intros n. rewrite elem_of_union, !elem_of_filter, elem_of_difference, elem_of_singleton in *.
    destruct (decide (n = c)); naive_solver.
Defined.

Definition empty : World := mkWorld 0 ∅.
Definition pool2 := Database_new (PX := objects_pqxx) [] 2 empty.
End Objects.

#[local] Existing Instances Demo.demo_pqxx Demo.demo_laws.

(** ** Properties *)

(** C8: no interleaving of requests duplicates or leaks a connection: from a
    pool of [n], after any steps of any number of threads, the connection
    objects that exist are the idle ones and those held by the running requests
    (and what existed before the pool), each of them once: no connection is idle
    and held, none is held by two threads, none is held by no one.  The idle, the
    held and the lost ones add up to [n]; so while nothing is borrowed a request
    times out only if all of them were lost. *)
Theorem pool_conservation `{PX : Pqxx World connection work row} (PL : PqxxLaws PX) (PO : PqxxObjects PX)
    (conninfo : list Z) (n : nat) (w : World) (d : Database World connection)
    (p : Pool World connection) :
  NoDup (live w) -> Database_new conninfo n w = (Ok tt, d) ->
  rtc pool_step (mkPool d [] 0%nat) p ->
  live (world (p_db p)) ≡ₚ connections_ (p_db p) ++ map snd (p_held p) ++ live w /\
  NoDup (connections_ (p_db p) ++ map snd (p_held p) ++ live w) /\ NoDup (map fst (p_held p)) /\
  (length (connections_ (p_db p)) + length (p_held p) + p_lost p = n)%nat /\
  (p_held p = [] -> acquire_connection (p_db p) = (Ok None, p_db p) -> p_lost p = n).
Proof.
  intros Hw Ed Hr. assert (Ho : pool_owned (live w) p).
  { apply (pool_steps_owned (live w) _ _ Hr). split; [|constructor]. apply (establish_live n (live w) (mkDatabase conninfo [] w)); [by split|done]. }
  destruct Ho as [[Hn Hl] Ht]. rewrite Hl in Hn. pose proof (pool_steps_total _ _ Hr) as Hp. unfold pool_total in Hp. simpl in Hp.
  rewrite (establish_length _ _ _ Ed) in Hp. simpl in Hp. split_and!; [done..|lia|].
  intros Hh Ha. destruct (connections_ (p_db p)) as [|c rest] eqn:E; [rewrite Hh in Hp; simpl in Hp; lia|].
  pose proof (acquire_spec (p_db p) c rest E) as H. by rewrite Ha in H.
Qed.

(** Two threads take the two connections of a pool. *)
Lemma pool_conservation_witness :
  exists d1 d2, Objects.pool2.1 = Ok tt /\
    acquire_connection (PX := Objects.objects_pqxx) Objects.pool2.2 = (Ok (Some 0%nat), d1) /\
    acquire_connection (PX := Objects.objects_pqxx) d1 = (Ok (Some 1%nat), d2) /\
    NoDup (connections_ d2 ++ [1; 0]%nat ++ []).
Proof.
  set (d := Objects.pool2.2). set (d1 := (acquire_connection (PX := Objects.objects_pqxx) d).2).
  set (d2 := (acquire_connection (PX := Objects.objects_pqxx) d1).2).
  assert (E1 : acquire_connection (PX := Objects.objects_pqxx) d = (Ok (Some 0%nat), d1)) by (vm_compute; reflexivity).
  assert (E2 : acquire_connection (PX := Objects.objects_pqxx) d1 = (Ok (Some 1%nat), d2)) by (vm_compute; reflexivity).
  exists d1, d2. split; [vm_compute; reflexivity|]. split; [exact E1|]. split; [exact E2|].
  apply (pool_conservation Objects.objects_laws Objects.objects_objects [] 2 Objects.empty d (mkPool d2 [(8, 1); (7, 0)]%nat 0)).
  - apply NoDup_nil_2.
  - vm_compute. reflexivity.
  - eapply rtc_l; [apply (step_acquire 7); [apply not_elem_of_nil|exact E1]|].
    eapply rtc_once, (step_acquire 8); [apply (bool_decide_unpack _); vm_compute; exact I|exact E2].
Defined.

(** A request on an open connection: the parameters are sent, the
    transaction is committed, the first row is mapped (no row gives
    [nullopt]), and the connection goes to the back of the queue. *)
Theorem execute_sync_success `{PX : Pqxx World connection work row} {Struct : Type}
    (mp : RowMapper row Struct) (stmt : PreparedStatement) (d : Database World connection)
    (c : connection) (rest : list connection) (txn : work) (rows : list row) (w0 w1 w2 w3 : World) :
  connections_ d = c :: rest ->
  pq_is_open c (world d) = (Ok true, w0) ->
  pq_begin c w0 = (Ok txn, w1) ->
  pq_exec_prepared txn (PreparedStatement.name stmt) (params stmt) w1 = (Ok rows, w2) ->
  pq_commit txn w2 = (Ok tt, w3) ->
  let d' := mkDatabase (conninfo_ d) (rest ++ [c]) (pq_end txn w3) in
  match nothing mp, rows with
  | Some s, _ => execute_sync mp stmt d = (Ok (Some s), d')
  | None, [] => execute_sync mp stmt d = (Ok None, d')
  | None, r :: _ =>
      forall s, map_row mp r = Ok s -> execute_sync mp stmt d = (Ok (Some s), d')
  end.
Proof.
  intros Ed Eo Eb Ex Ec d'.
  assert (forall r, (match nothing mp with
      | Some s => ret (Some s)
      | None => match rows with [] => ret None
                | r :: _ => let! s := of_outcome (map_row mp r) in ret (Some s) end
      end : M (Database World connection) _) (mkDatabase (conninfo_ d) rest w3)
      = (Ok r, mkDatabase (conninfo_ d) rest w3) -> execute_sync mp stmt d = (Ok r, d')) as Hrun.
  { intros r Hr. unfold execute_sync, acquire_scoped_connection. rewrite bind_assoc.
    bind_step by (by apply acquire_open). bind_step by done.
    unfold with_destructor. erewrite execute_held_ok; [|done..|exact Hr]. done. }
  destruct (nothing mp); [by apply Hrun|]. destruct rows as [|r rows]; [by apply Hrun|].
  intros s Es. apply Hrun. unfold of_outcome, bind. by rewrite Es.
Qed.

Lemma execute_sync_success_witness :
  exists s, execute_sync Demo.accounts (Demo.select [65]) (mkDatabase [] [0; 0]%nat Demo.world_up)
    = (Ok (Some s), mkDatabase [] [0; 0]%nat Demo.world_up) /\ salt s = Some [1] /\ verifier s = Some [2].
Proof.
  eexists. split.
  - pose proof (execute_sync_success Demo.accounts (Demo.select [65]) (mkDatabase [] [0; 0]%nat Demo.world_up)
      0%nat [0%nat] 0%nat [[Some [1]; Some [2]]] Demo.world_up Demo.world_up Demo.world_up Demo.world_up
      eq_refl eq_refl eq_refl eq_refl eq_refl) as H.
    apply H. reflexivity.
  - split; reflexivity.
Defined.

(** C37: every request, whatever the database does, ends in a result or an
    exception and gives its connection back to the end of the queue: the one
    it took from the front, or the one opened in its place when that was closed.  Only when
    it was closed and opening another throws, the pool is one connection smaller,
    and the request ends with that exception. *)
Theorem execute_sync_conserves `{PX : Pqxx World connection work row} (PL : PqxxLaws PX)
    {Struct : Type} (mp : RowMapper row Struct) (stmt : PreparedStatement)
    (d : Database World connection) :
  (forall r, map_row mp r <> Undef) ->
  (execute_sync mp stmt d).1 <> Undef /\
  match connections_ d with
  | [] => execute_sync mp stmt d = (Throw (runtime_error "No DB connection available after timeout"), d)
  | c :: rest =>
      match replacement c rest d with
      | Ok c' => connections_ (execute_sync mp stmt d).2 = rest ++ [c']
      | Throw e => (execute_sync mp stmt d).1 = Throw e /\ connections_ (execute_sync mp stmt d).2 = rest
      | Undef => False
      end
  end.
Proof.
  intros Hmp. destruct (connections_ d) as [|c rest] eqn:Ed; [by rewrite execute_sync_empty|].
  pose proof (acquire_replacement d c rest Ed) as H. unfold execute_sync, acquire_scoped_connection.
  destruct (replacement c rest d) as [c'|e|]; [| |done]; destruct H as (d1 & E & H1).
  - rewrite bind_assoc, (bind_ok _ _ _ _ _ E). cbv beta iota. bind_step by done.
    destruct (neutral_execute_held mp stmt c' Hmp d1) as (H3 & H4 & _). unfold with_destructor.
    destruct (execute_held mp stmt c' d1) as [[r|e|] d2]; simpl in *; (split; [done|]); by rewrite ?H4, ?H1.
  - rewrite bind_assoc, (bind_throw _ _ _ _ _ E). done.
Qed.

Lemma execute_sync_conserves_witness :
  (execute_sync Demo.accounts (Demo.select [65]) (mkDatabase [] [0]%nat Demo.world_down)).1 <> Undef /\
  connections_ (execute_sync Demo.accounts (Demo.select [65]) (mkDatabase [] [0]%nat Demo.world_down)).2 = [].
Proof.
  destruct (execute_sync_conserves Demo.demo_laws Demo.accounts (Demo.select [65])
    (mkDatabase [] [0]%nat Demo.world_down)) as [H _].
  - intros r. vm_compute. destruct r as [|[?|] [|[?|] [|? ?]]]; discriminate.
  - split; [exact H|reflexivity].
Defined.

(** An outage empties the pool for good: while the database refuses
    connections and the pooled ones are closed, every request throws and loses
    one, and once as many requests as the pool has connections have run, every
    later request fails with the timeout, also after the database is back. *)
Theorem outage_drains_pool `{PX : Pqxx World connection work row} (PL : PqxxLaws PX)
    {Struct : Type} (mp : RowMapper row Struct) (down : World -> Prop)
    (stmts : list PreparedStatement) (d : Database World connection) :
  (forall c w, down w -> pq_is_open c w = (Ok false, w)) ->
  (forall i w, down w -> exists e w', pq_connect i w = (Throw e, w') /\ down w') ->
  (forall c w, down w -> down (pq_destroy c w)) ->
  (forall r, map_row mp r <> Undef) ->
  down (world d) -> length stmts = length (connections_ d) ->
  connections_ (run_requests mp stmts d) = [] /\
  forall w stmt, execute_sync mp stmt (set_world w (run_requests mp stmts d))
    = (Throw (runtime_error "No DB connection available after timeout"),
       set_world w (run_requests mp stmts d)).
Proof.
  intros Hopen Hconn Hdest Hmp Hd Hlen.
  enough (connections_ (run_requests mp stmts d) = []) as E
    by (split; [done|]; intros w stmt; by apply execute_sync_empty).
  revert d Hd Hlen. induction stmts as [|stmt stmts IH]; intros d Hd Hlen; simpl in *.
  - by destruct (connections_ d).
  - destruct (connections_ d) as [|c rest] eqn:Ed; [done|].
    destruct (Hconn (conninfo_ d) (world d) Hd) as (e & w' & Ec & Hw').
    assert (acquire_connection d = (Throw e, mkDatabase (conninfo_ d) rest (pq_destroy c w'))) as Ea.
    { unfold acquire_connection. rewrite Ed. bind_step by done.
      bind_step by (unfold in_world, zoom; simpl; by rewrite Hopen).
      simpl. unfold reconnect_connection, open_connection, try_catch, bind, in_world, zoom. simpl.
      by rewrite Ec. }
    pose proof (execute_sync_pool mp stmt d c rest Hmp Ed) as H. rewrite Ea in H.
    destruct H as (-> & _ & _). apply IH; simpl; auto.
Qed.

Lemma outage_drains_pool_witness :
  execute_sync Demo.accounts (Demo.select [65])
    (set_world Demo.world_up (run_requests Demo.accounts [Demo.select [65]; Demo.select [66]]
       (mkDatabase [] [0; 0]%nat Demo.world_down)))
  = (Throw (runtime_error "No DB connection available after timeout"),
     set_world Demo.world_up (run_requests Demo.accounts [Demo.select [65]; Demo.select [66]]
       (mkDatabase [] [0; 0]%nat Demo.world_down))).
Proof.
  apply (outage_drains_pool Demo.demo_laws Demo.accounts (fun w => Demo.up w = false)
    [Demo.select [65]; Demo.select [66]] (mkDatabase [] [0; 0]%nat Demo.world_down)).
  - intros c w Hw. simpl. by rewrite Hw.
  - intros i w Hw. simpl. rewrite Hw. eauto.
  - auto.
  - intros r. vm_compute. destruct r as [|[?|] [|[?|] [|? ?]]]; discriminate.
  - reflexivity.
  - reflexivity.
Defined.
