(* ===== verification/ClientSession.v ===== *)
(** * ClientSession, its server and its pending operations
    (src/server/ClientSession/ClientSession.hpp, ClientSession.cpp,
    src/server/SessionMode/authstage/entity/AccountInfo.hpp, AccountInfo.cpp,
    the members of src/server/Server.hpp, src/common/utils/PacketUtils.hpp)

    The session object together with what Boost.Asio keeps for it: the
    asynchronous reads and writes under way and the closures posted to its
    executor.  An asynchronous operation is first [Pending]; the operating
    system completes it, or closing the socket aborts it; its handler runs
    later, as a step of its own, and sees the result recorded then.  Here
    a handler is a function; how handlers of one session run beside each other
    is the subject of [SessionThreads]. *)

From S2P Require Import Prelude Machine MessageBuffer SRP6 OpenSSL Packet AuthPacket WorkPacket.
From S2P Require Import AccountCache Database.

(** ** Data *)

Inductive SessionMode := AUTH_SESSION | WORK_SESSION.

#[export] Instance SessionMode_eq_dec : EqDecision SessionMode.
Proof. solve_decision. Defined.

(** The [boost::system::error_code]s the handlers distinguish. *)
Inductive error_code :=
| operation_aborted
| eof
| connection_reset
| not_connected
| bad_descriptor
| other_error.

#[export] Instance error_code_eq_dec : EqDecision error_code.
Proof. solve_decision. Defined.

Record AccountInfo := mkAccountInfo { srp_ : SRP6; isAuth : bool }.

(** An operation under way ([Pending]), or finished with its handler waiting
    to run: [Done] with what it produced, or [Failed] with an error. *)
Inductive status (A : Type) := Pending | Done (a : A) | Failed (ec : error_code).
Arguments Pending {A}.
Arguments Done {A} a.
Arguments Failed {A} ec.

(** An [async_write]: its buffer (the front of the queue when it started) and
    how many of its bytes the socket has taken. *)
Record write_op := mkWrite { w_data : list Z; w_sent : nat; w_status : status unit }.

(** An [async_read_some]: the size of its buffer; [Done] holds the bytes. *)
Record read_op := mkRead { r_room : Z; r_status : status (list Z) }.

Record ClientSession := mkClientSession {
  socket_open : bool;
  accountInfo_ : AccountInfo;
  read_buffer_ : MessageBuffer;
  write_queue_ : list (list Z);
  writing_ : bool;
  closed_ : bool;
  session_mode_ : SessionMode;
  (* what Boost.Asio and the peer have *)
  reads : list read_op;
  writes : list write_op;
  posted : list AnyPacket;
  wire : list Z }.

(** The server's members the sessions use; sessions are named by numbers. *)
Record Server (World connection : Type) := mkServer {
  sessions_ : gset nat;
  account_cache_ : AccountCache;
  db_ : Database World connection }.
Arguments mkServer {World connection}.
Arguments sessions_ {World connection}.
Arguments account_cache_ {World connection}.
Arguments db_ {World connection}.

(** A session running: itself, its number, and the server it refers to. *)
Record Ctx (World connection : Type) := mkCtx {
  self : nat;
  session : ClientSession;
  server : Server World connection }.
Arguments mkCtx {World connection}.
Arguments self {World connection}.
Arguments session {World connection}.
Arguments server {World connection}.

(** ** Field updates *)

Definition set_accountInfo (a : AccountInfo) (s : ClientSession) : ClientSession :=
  mkClientSession (socket_open s) a (read_buffer_ s) (write_queue_ s) (writing_ s) (closed_ s)
    (session_mode_ s) (reads s) (writes s) (posted s) (wire s).
Definition set_read_buffer (b : MessageBuffer) (s : ClientSession) : ClientSession :=
  mkClientSession (socket_open s) (accountInfo_ s) b (write_queue_ s) (writing_ s) (closed_ s)
    (session_mode_ s) (reads s) (writes s) (posted s) (wire s).
Definition set_write_queue (q : list (list Z)) (s : ClientSession) : ClientSession :=
  mkClientSession (socket_open s) (accountInfo_ s) (read_buffer_ s) q (writing_ s) (closed_ s)
    (session_mode_ s) (reads s) (writes s) (posted s) (wire s).
Definition set_writing (b : bool) (s : ClientSession) : ClientSession :=
  mkClientSession (socket_open s) (accountInfo_ s) (read_buffer_ s) (write_queue_ s) b (closed_ s)
    (session_mode_ s) (reads s) (writes s) (posted s) (wire s).
Definition set_closed (b : bool) (s : ClientSession) : ClientSession :=
  mkClientSession (socket_open s) (accountInfo_ s) (read_buffer_ s) (write_queue_ s) (writing_ s) b
    (session_mode_ s) (reads s) (writes s) (posted s) (wire s).
Definition set_mode (m : SessionMode) (s : ClientSession) : ClientSession :=
  mkClientSession (socket_open s) (accountInfo_ s) (read_buffer_ s) (write_queue_ s) (writing_ s)
    (closed_ s) m (reads s) (writes s) (posted s) (wire s).
Definition set_reads (l : list read_op) (s : ClientSession) : ClientSession :=
  mkClientSession (socket_open s) (accountInfo_ s) (read_buffer_ s) (write_queue_ s) (writing_ s)
    (closed_ s) (session_mode_ s) l (writes s) (posted s) (wire s).
Definition set_writes (l : list write_op) (s : ClientSession) : ClientSession :=
  mkClientSession (socket_open s) (accountInfo_ s) (read_buffer_ s) (write_queue_ s) (writing_ s)
    (closed_ s) (session_mode_ s) (reads s) l (posted s) (wire s).
Definition set_posted (l : list AnyPacket) (s : ClientSession) : ClientSession :=
  mkClientSession (socket_open s) (accountInfo_ s) (read_buffer_ s) (write_queue_ s) (writing_ s)
    (closed_ s) (session_mode_ s) (reads s) (writes s) l (wire s).
Definition set_wire (l : list Z) (s : ClientSession) : ClientSession :=
  mkClientSession (socket_open s) (accountInfo_ s) (read_buffer_ s) (write_queue_ s) (writing_ s)
    (closed_ s) (session_mode_ s) (reads s) (writes s) (posted s) l.

(** An operation still under way is aborted, a finished one stays finished. *)
Definition abort {A} (st : status A) : status A :=
  match st with Pending => Failed operation_aborted | _ => st end.

(** [socket_.cancel(ec)], [socket_.shutdown(both, ec)], [socket_.close(ec)]:
    the errors only reach the log. *)
Definition close_socket (s : ClientSession) : ClientSession :=
  mkClientSession false (accountInfo_ s) (read_buffer_ s) (write_queue_ s) (writing_ s) (closed_ s)
    (session_mode_ s)
    (map (fun r => mkRead (r_room r) (abort (r_status r))) (reads s))
    (map (fun w => mkWrite (w_data w) (w_sent w) (abort (w_status w))) (writes s))
    (posted s) (wire s).

(** ** AccountInfo *)

Definition AccountInfo_new `{O : OpenSSL} : AccountInfo := mkAccountInfo SRP6_new false.
Definition setIsAuthenticated (value : bool) (a : AccountInfo) : AccountInfo := mkAccountInfo (srp_ a) value.
Definition isAuthenticated (a : AccountInfo) : bool := isAuth a.
Definition handle_auth_state (a : AccountInfo) : AccountInfo := setIsAuthenticated true a.
Definition handle_close_state (a : AccountInfo) : AccountInfo := a.
Definition set_srp (x : SRP6) (a : AccountInfo) : AccountInfo := mkAccountInfo x (isAuth a).

(** ** Methods *)

(** [ClientSession(socket, server)]: the socket is connected. *)
Definition ClientSession_new `{O : OpenSSL} : ClientSession :=
  mkClientSession true AccountInfo_new (MessageBuffer_new 4096) [] false false AUTH_SESSION [] [] [] [].

Definition isOpened (s : ClientSession) : bool := negb (closed_ s).
Definition set_session_mode (mode : SessionMode) (s : ClientSession) : ClientSession := set_mode mode s.
Definition get_session_mode (s : ClientSession) : SessionMode := session_mode_ s.

Section methods.
Context {host : Host} {World connection : Type}.
Abbreviation ctx := (Ctx World connection).

Definition on_session (f : ClientSession -> ClientSession) (c : ctx) : ctx :=
  mkCtx (self c) (f (session c)) (server c).
Definition on_server (f : Server World connection -> Server World connection) (c : ctx) : ctx :=
  mkCtx (self c) (session c) (f (server c)).

(** A method of the session's [SRP6] object. *)
Definition with_srp {A} (m : M SRP6 A) : M ctx A :=
  zoom (fun c => srp_ (accountInfo_ (session c)))
       (fun x => on_session (fun s => set_accountInfo (set_srp x (accountInfo_ s)) s)) m.

(** [Server::remove_session]. *)
Definition remove_session (sid : nat) (s : Server World connection) : Server World connection :=
  mkServer (sessions_ s ∖ {[sid]}) (account_cache_ s) (db_ s).

Definition close : M ctx unit := fun c =>
  if closed_ (session c) then (Ok tt, c)
  else
    let c := on_session (set_closed true) c in
    let c := if decide (get_session_mode (session c) = WORK_SESSION)
             then on_session (fun s => set_accountInfo (handle_close_state (accountInfo_ s)) s) c else c in
    let c := on_session close_socket c in
    let c := on_session (fun s => set_read_buffer (MessageBuffer.clear (read_buffer_ s)) s) c in
    let c := on_session (set_write_queue []) c in
    (Ok tt, on_server (remove_session (self c)) c).

(** [async_read_some] on the free part of the buffer; on a closed socket it
    fails at once. *)
Definition do_read : M ctx unit :=
  do! modify (on_session (fun s => set_read_buffer (ensure_free_space 512 (read_buffer_ s)) s)) in
  modify (on_session (fun s =>
    set_reads (reads s ++ [mkRead (get_remaining_space (read_buffer_ s))
                            (if socket_open s then Pending else Failed bad_descriptor)]) s)).

(** [socket_.remote_endpoint()] throws when the peer is already gone. *)
Definition start (remote_endpoint : outcome unit) : M ctx unit :=
  do! of_outcome remote_endpoint in
  do! modify (on_session (set_session_mode AUTH_SESSION)) in
  do_read.

Definition send_packet (packet : AnyPacket) : M ctx unit := fun c =>
  if closed_ (session c) then (Ok tt, c)
  else (Ok tt, on_session (fun s => set_posted (posted s ++ [packet]) s) c).

(** [PacketUtils::send_packet_as<PacketType>(session, packet)]. *)
Definition send_packet_as (packet : AnyPacket) : M ctx unit := send_packet packet.

Definition do_write : M ctx unit := fun c =>
  match write_queue_ (session c) with
  | [] => (Ok tt, on_session (set_writing false) c)
  | front :: _ =>
      (Ok tt, on_session (fun s =>
         set_writes (writes s ++ [mkWrite front 0 (if socket_open s then Pending else Failed bad_descriptor)])
           (set_writing true s)) c)
  end.

Definition do_send_packet (packet : AnyPacket) : M ctx unit :=
  let full_packet := any_build_packet packet in
  do! modify (on_session (fun s => set_write_queue (write_queue_ s ++ [full_packet]) s)) in
  let! writing := gets (fun c => writing_ (session c)) in
  if negb writing then do_write else ret tt.

(** The completion handler of [async_write]; [pop_front] on an empty deque is
    undefined. *)
Definition on_write (ec : option error_code) : M ctx unit :=
  match ec with
  | Some _ => close
  | None => fun c =>
      match write_queue_ (session c) with
      | [] => (Undef, c)
      | _ :: rest => do_write (on_session (set_write_queue rest) c)
      end
  end.
End methods.
