(* ===== verification/HandlersAuth.v ===== *)
(** * HandlersAuth (src/server/SessionMode/authstage/handlers/HandlersAuth.cpp)

    The handlers of the authentication stage.  [handle_logon_challenge] is a
    coroutine without suspension points after its start; it is modelled as
    running to its end where [co_spawn] dispatches it, which is also the only
    place where its reference to the caller's packet is valid.  With
    [detached], an exception that leaves the coroutine is dropped.  Log lines
    are left out, the calls in their arguments are not. *)

From S2P Require Import Prelude Machine ByteBuffer MessageBuffer HexUtils UTF8Utils SRP6 OpenSSL.
From S2P Require Import Packet AuthPacket WorkPacket AccountCache PreparedStatement Database ClientSession.

(** What the clock and the random generator return during one handler. *)
Record Env := mkEnv {
  now_get : Z;          (** [steady_clock::now()] in [AccountCache::get] *)
  now_put : Z;          (** [steady_clock::now()] in [AccountCache::put] *)
  rand_bytes : list Z   (** [RAND_bytes] in [generate_server_ephemeral] *) }.

Definition env_ok (env : Env) : Prop := bytes_ok (rand_bytes env) /\ zlen (rand_bytes env) = 32.

Section handlers.
Context {host : Host} {O : OpenSSL} `{PX : Pqxx World connection work row}.
Context (parse_pg_timestamp : list Z -> exn + Z).
Abbreviation ctx := (Ctx World connection).

(** [session->server()->account_cache()] and [session->server()->db()]. *)
Definition with_cache {A} (m : M AccountCache A) : M ctx A :=
  zoom (fun c => account_cache_ (server c))
       (fun x => on_server (fun s => mkServer (sessions_ s) x (db_ s))) m.
Definition with_db {A} (m : M (Database World connection) A) : M ctx A :=
  zoom (fun c => db_ (server c))
       (fun x => on_server (fun s => mkServer (sessions_ s) (account_cache_ s) x)) m.

Definition PgRowMapper_AccountsRow : RowMapper row AccountsRow :=
  mkRowMapper None (map_AccountsRow parse_pg_timestamp).

(** The [SMSG_AUTH_RESPONSE] of a refusal. *)
Definition auth_failed (error : AuthErrorCode) : AuthPacket :=
  let reply := AuthPacket_new SMSG_AUTH_RESPONSE in
  let reply := Packet.write_uint8 (status_to_uint8 AUTH_FAILED) reply in
  Packet.write_uint8 (error_to_uint8 error) reply.

Definition send_auth (reply : AuthPacket) : M ctx unit := send_packet_as (PAuth reply).

Definition handle_ping (p : AuthPacket) : M ctx unit :=
  let! '(ping, p) := on_local Packet.read_uint32_le p in
  let reply := AuthPacket_new SMSG_PONG in
  let reply := Packet.write_uint32_le ping reply in
  send_auth reply.

(** The SRP part shared by the cached and the database branch: load the
    verifier, draw the ephemeral key, evaluate the arguments of the log line,
    build the challenge. *)
Definition send_challenge (env : Env) (salt verifier : list Z) : M ctx unit :=
  do! with_srp (load_verifier salt verifier) in
  do! with_srp (generate_server_ephemeral (rand_bytes env)) in
  do! with_srp get_B_bytes in
  do! with_srp get_generator in
  do! with_srp get_N_bytes in
  let reply := AuthPacket_new SMSG_AUTH_LOGON_CHALLENGE in
  let! B := with_srp get_B_bytes in
  let reply := Packet.write_bytes B reply in
  let! g := with_srp get_generator in
  let reply := Packet.write_uint8 g reply in
  let! N := with_srp get_N_bytes in
  let reply := Packet.write_bytes N reply in
  let reply := Packet.write_bytes salt reply in
  send_auth reply.

(** Salt and verifier of an account row, when both have 32 bytes. *)
Definition checked_credentials (user : AccountsRow) : option (list Z * list Z) :=
  match Database.salt user, Database.verifier user with
  | Some salt, Some verifier =>
      if negb (zlen salt =? 32) || negb (zlen verifier =? 32) then None else Some (salt, verifier)
  | _, _ => None
  end.

(** The [try] block: the account is not in the cache. *)
Definition challenge_from_db (env : Env) (username : list Z) : M ctx unit :=
  let stmt := PreparedStatement_new "SELECT_ACCOUNT_BY_USERNAME" in
  let! '(_, stmt) := on_local (set_param 0 username) stmt in
  let! user := with_db (execute_sync PgRowMapper_AccountsRow stmt) in
  match user with
  | None => send_auth (auth_failed WRONG_USERNAME)
  | Some user =>
      match checked_credentials user with
      | None => send_auth (auth_failed WRONG_PASSWORD)
      | Some (salt, verifier) =>
          do! with_cache (modify (put (now_put env) username (mkAccountCacheEntry salt verifier 0))) in
          send_challenge env salt verifier
      end
  end.

Definition handle_logon_challenge (env : Env) (p : AuthPacket) : M ctx unit :=
  let! username := try_catch
    (let! '(username, p) := on_local Packet.read_string_nt_le p in ret (Some username))
    (fun _ => do! send_auth (auth_failed INTERNAL_ERROR) in ret None) in
  match username with
  | None => ret tt
  | Some username =>
      if negb (is_valid_utf8 username) then send_auth (auth_failed WRONG_USERNAME)
      else
        let username := to_uppercase username in
        do! with_srp (set_only_username username) in
        let! cached := with_cache (AccountCache.get (now_get env) username) in
        match cached with
        | Some cached_user =>
            send_challenge env (AccountCache.salt cached_user) (AccountCache.verifier cached_user)
        | None =>
            try_catch (challenge_from_db env username)
              (fun _ => send_auth (auth_failed DATABASE_BUSY))
        end
  end.

Definition handle_logon_proof (p : AuthPacket) : M ctx unit :=
  try_catch
    (let! '(A_bytes, p) := on_local (Packet.read_bytes 32) p in
     let! '(M1_client, p) := on_local (Packet.read_bytes 20) p in
     let! '(ok, M2) := with_srp (verify_client_proof A_bytes M1_client) in
     if negb ok then send_auth (auth_failed WRONG_PASSWORD)
     else
       do! modify (on_session (set_session_mode WORK_SESSION)) in
       do! modify (on_session (fun s => set_accountInfo (handle_auth_state (accountInfo_ s)) s)) in
       let reply := AuthPacket_new SMSG_AUTH_LOGON_PROOF in
       let reply := Packet.write_bytes M2 reply in
       send_auth reply)
    (fun _ => send_auth (auth_failed INTERNAL_ERROR)).

Definition dispatch (env : Env) (p : AuthPacket) : M ctx unit :=
  match AuthPacket.get_opcode p with
  | CMSG_PING => handle_ping p
  | CMSG_AUTH_LOGON_CHALLENGE => try_catch (handle_logon_challenge env p) (fun _ => ret tt)
  | CMSG_AUTH_LOGON_PROOF => handle_logon_proof p
  | _ => ret tt
  end.
End handlers.

(** ** What the handlers should answer *)

Inductive verdict :=
| Reject (error : AuthErrorCode)
| Challenge (salt verifier : list Z).

(** The challenge packet: B, g, N, salt. *)
Definition challenge_payload `{O : OpenSSL} (salt verifier rand : list Z) : list Z :=
  be_bytes 32 (server_B verifier rand) ++ [7] ++ be_bytes 32 N_value ++ salt.

Definition reply_of `{O : OpenSSL} (env : Env) (v : verdict) : AuthPacket :=
  match v with
  | Reject error =>
      mkAuthPacket SMSG_AUTH_RESPONSE (ByteBuffer_of [status_to_uint8 AUTH_FAILED; error_to_uint8 error])
  | Challenge salt verifier =>
      mkAuthPacket SMSG_AUTH_LOGON_CHALLENGE (ByteBuffer_of (challenge_payload salt verifier (rand_bytes env)))
  end.

Section specification.
Context {O : OpenSSL} `{PX : Pqxx World connection work row}.
Context (parse_pg_timestamp : list Z -> exn + Z).

(** The verdict on an upper-cased username, with the server state after the
    cache lookup, the query and the cache update it takes. *)
Definition judge (env : Env) (username : list Z) (s : Server World connection)
  : verdict * Server World connection :=
  match AccountCache.get (now_get env) username (account_cache_ s) with
  | (Ok (Some e), cache) =>
      (Challenge (AccountCache.salt e) (AccountCache.verifier e), mkServer (sessions_ s) cache (db_ s))
  | (_, cache) =>
      match execute_sync (PgRowMapper_AccountsRow parse_pg_timestamp)
              (mkPreparedStatement "SELECT_ACCOUNT_BY_USERNAME" [Some username]) (db_ s) with
      | (Ok None, db) => (Reject WRONG_USERNAME, mkServer (sessions_ s) cache db)
      | (Ok (Some user), db) =>
          match checked_credentials user with
          | None => (Reject WRONG_PASSWORD, mkServer (sessions_ s) cache db)
          | Some (salt, verifier) =>
              (Challenge salt verifier,
               mkServer (sessions_ s)
                 (put (now_put env) username (mkAccountCacheEntry salt verifier 0) cache) db)
          end
      | (_, db) => (Reject DATABASE_BUSY, mkServer (sessions_ s) cache db)
      end
  end.

(** The context after one reply was posted and the SRP object changed. *)
Definition replied (reply : AnyPacket) (srp : SRP6) (sv : Server World connection)
    (c : Ctx World connection) : Ctx World connection :=
  mkCtx (self c)
    (set_posted (posted (session c) ++ [reply])
       (set_accountInfo (set_srp srp (accountInfo_ (session c))) (session c))) sv.
End specification.

(** ** Lemmas *)

Section lemmas.
Context {host : Host} {O : OpenSSL} {L : OpenSSLLaws O}.
Context `{PX : Pqxx World connection work row} {PL : PqxxLaws PX}.
Context (parse_pg_timestamp : list Z -> exn + Z).
Abbreviation ctx := (Ctx World connection).
Implicit Types c : ctx.

Definition put_srp (x : SRP6) c : ctx :=
  on_session (fun s => set_accountInfo (set_srp x (accountInfo_ s)) s) c.

Definition srp_of c : SRP6 := srp_ (accountInfo_ (session c)).

Lemma with_srp_ok {A} (m : M SRP6 A) a x c :
  m (srp_of c) = (Ok a, x) -> with_srp m c = (Ok a, put_srp x c).
Proof. unfold with_srp, zoom, srp_of. by intros ->. Qed.

Lemma put_srp_same c : put_srp (srp_of c) c = c.
Proof. by destruct c as [? [? [] ? ? ? ? ? ? ? ? ?] ?]. Qed.

Lemma with_srp_read {A} (m : M SRP6 A) a c :
  m (srp_of c) = (Ok a, srp_of c) -> with_srp m c = (Ok a, c).
Proof. intros E. by rewrite (with_srp_ok _ _ _ _ E), put_srp_same. Qed.

Lemma send_auth_open reply c :
  closed_ (session c) = false ->
  send_auth reply c = (Ok tt, on_session (fun s => set_posted (posted s ++ [PAuth reply]) s) c).
Proof. intros E. unfold send_auth, send_packet_as, send_packet. by rewrite E. Qed.

Lemma auth_failed_reply env error : auth_failed error = reply_of env (Reject error).
Proof. by destruct error. Qed.

Lemma send_challenge_spec env salt verifier c :
  closed_ (session c) = false -> server_ok (srp_of c) -> bytes_ok (rand_bytes env) ->
  exists srp, server_ok srp /\ username_ srp = username_ (srp_of c) /\
    send_challenge env salt verifier c =
      (Ok tt, replied (PAuth (reply_of env (Challenge salt verifier))) srp (server c) c).
Proof.
  intros Hc Hs Hr.
  destruct (server_challenge_spec (srp_of c) salt verifier (rand_bytes env) Hs Hr)
    as (s1 & s2 & E1 & E2 & Hs2 & Hu & Hsalt & HB).
  destruct (server_constants s2 Hs2) as (HN & Hg & _).
  exists s2. split; [done|]. split; [done|]. unfold send_challenge.
  bind_step by (by apply with_srp_ok). bind_step by (by apply with_srp_ok).
  set (c' := put_srp s2 _). assert (srp_of c' = s2) as Es by done.
  bind_step by (apply with_srp_read; by rewrite Es).
  bind_step by (apply with_srp_read; by rewrite Es).
  bind_step by (apply with_srp_read; by rewrite Es).
  bind_step by (apply with_srp_read; by rewrite Es).
  bind_step by (apply with_srp_read; by rewrite Es).
  bind_step by (apply with_srp_read; by rewrite Es).
  rewrite send_auth_open by done. f_equal. unfold replied, on_session. simpl.
  do 3 f_equal. unfold Packet.write_bytes, Packet.write_uint8, on_buffer. simpl.
  rewrite !write_bytes_appended. unfold ByteBuffer.write_uint8, push_back, appended, challenge_payload.
  cbn [buffer_ read_pos_ ByteBuffer_default]. rewrite app_nil_l, <- !app_assoc. done.
Qed.


(** A refusal, after the server state changed by [f]. *)
Lemma reject_reply env error c f :
  closed_ (session c) = false ->
  send_auth (auth_failed error) (on_server f c)
    = (Ok tt, replied (PAuth (reply_of env (Reject error))) (srp_of c) (f (server c)) c).
Proof.
  intros Hc. rewrite send_auth_open by done. rewrite (auth_failed_reply env).
  by destruct c as [? [? [] ? ? ? ? ? ? ? ? ?] ?].
Qed.

(** A lookup that finds nothing leaves the cache alone. *)
Lemma cache_miss now u cache cache' r :
  AccountCache.get now u cache = (r, cache') -> r = Ok None \/ (exists e, r = Ok (Some e)).
Proof.
  unfold AccountCache.get. destruct (cache_ cache !! u); [destruct (expired _ _ _)|]; naive_solver.
Qed.

(** The branch that asks the database, as [judge] describes it. *)
Lemma db_branch_spec env username c cache :
  closed_ (session c) = false -> server_ok (srp_of c) -> bytes_ok (rand_bytes env) ->
  AccountCache.get (now_get env) username cache = (Ok None, account_cache_ (server c)) ->
  let '(v, sv) := judge parse_pg_timestamp env username
                    (mkServer (sessions_ (server c)) cache (db_ (server c))) in
  exists srp, server_ok srp /\ username_ srp = username_ (srp_of c) /\
    try_catch (challenge_from_db parse_pg_timestamp env username)
      (fun _ => send_auth (auth_failed DATABASE_BUSY)) c
    = (Ok tt, replied (PAuth (reply_of env v)) srp sv c).
Proof.
  intros Hc Hs Hr Hget. unfold judge. cbn [account_cache_ db_ sessions_]. rewrite Hget.
  set (stmt := mkPreparedStatement _ _).
  set (q := execute_sync _ stmt _).
  assert (q.1 <> Undef) as Hq.
  { unfold q. destruct (connections_ (db_ (server c))) as [|cn rest] eqn:Ed.
    - by rewrite execute_sync_empty.
    - pose proof (execute_sync_pool (PgRowMapper_AccountsRow parse_pg_timestamp) stmt _ cn rest
        (map_AccountsRow_defined _) Ed) as H.
      destruct (acquire_connection _) as [[| |] ?]; [|destruct H as (-> & _); done|done].
      by destruct H as (? & ? & _ & ? & _). }
  unfold challenge_from_db, try_catch.
  bind_step by (apply on_local_ok; unfold set_param; rewrite set_value_ok by (unfold size_max; simpl; lia); reflexivity).
  unfold bind at 1, with_db at 1, zoom.
  change (execute_sync _ _ (db_ (server c))) with q.
  destruct q as [[[user|]|e|] db]; cbn [fst] in Hq; [| | |done].
  - destruct (checked_credentials user) as [[salt ver]|].
    + bind_step by reflexivity. set (c' := on_server _ _).
      destruct (send_challenge_spec env salt ver c') as (srp & ? & ? & E); auto.
      exists srp. rewrite E. done.
    + exists (srp_of c). by rewrite (reject_reply env).
  - exists (srp_of c). by rewrite (reject_reply env).
  - exists (srp_of c). by rewrite (reject_reply env).
Qed.

(** The username a packet carries: the string reader never fails. *)
Lemma read_username p :
  ByteBuffer.wf (AuthPacket.payload_ p) ->
  exists s rest p', drop (Z.to_nat (read_pos_ (AuthPacket.payload_ p))) (buffer_ (AuthPacket.payload_ p)) = s ++ rest /\
    Forall (fun b => b <> 0) s /\ starts_with_nul_or_empty rest /\
    Packet.read_string_nt_le p = (Ok (rev s), p').
Proof.
  intros Hw. destruct (cursor_split _ Hw) as (pre & E & Hp).
  destruct (split_at_nul (drop (Z.to_nat (read_pos_ (AuthPacket.payload_ p))) (buffer_ (AuthPacket.payload_ p))))
    as (s & rest & Ed & Hs & Hr).
  rewrite Ed in E. destruct (read_string_nt_ok _ pre s rest Hw E Hp Hs Hr) as [_ Hle].
  exists s, rest. eexists. split_and!; auto.
  unfold Packet.read_string_nt_le, from_buffer, zoom. simpl. by rewrite Hle.
Qed.

Lemma handle_logon_challenge_spec env p c :
  closed_ (session c) = false -> server_ok (srp_of c) -> bytes_ok (rand_bytes env) ->
  ByteBuffer.wf (AuthPacket.payload_ p) ->
  exists s rest, drop (Z.to_nat (read_pos_ (AuthPacket.payload_ p))) (buffer_ (AuthPacket.payload_ p)) = s ++ rest /\
    Forall (fun b => b <> 0) s /\ starts_with_nul_or_empty rest /\
    let username := rev s in
    if is_valid_utf8 username
    then
      let '(v, sv) := judge parse_pg_timestamp env (to_uppercase username) (server c) in
      exists srp, server_ok srp /\ username_ srp = to_uppercase username /\
        handle_logon_challenge parse_pg_timestamp env p c
          = (Ok tt, replied (PAuth (reply_of env v)) srp sv c)
    else
      handle_logon_challenge parse_pg_timestamp env p c
        = (Ok tt, replied (PAuth (reply_of env (Reject WRONG_USERNAME))) (srp_of c) (server c) c).
Proof.
  intros Hc Hs Hr Hw. destruct (read_username p Hw) as (s & rest & p' & Ed & Hnz & Hst & E).
  exists s, rest. split_and!; auto. cbv zeta. unfold handle_logon_challenge.
  assert (forall h : exn -> M ctx (option (list Z)),
    try_catch (let! '(u, _) := on_local Packet.read_string_nt_le p in ret (Some u)) h c
    = (Ok (Some (rev s)), c)) as Eread.
  { intros h. apply try_catch_ok. by bind_step by (by apply on_local_ok). }
  rewrite (bind_ok _ _ _ _ _ (Eread _)).
  destruct (is_valid_utf8 (rev s)); cbn [negb]; cbv zeta iota.
  2:{ by rewrite <- (reject_reply env WRONG_USERNAME c (fun s => s)) by done; destruct c. }
  set (U := to_uppercase (rev s)).
  bind_step by (by apply with_srp_ok).
  set (c1 := put_srp _ c).
  assert (server_ok (srp_of c1)) as Hs1 by (by apply set_only_username_ok).
  unfold bind at 1, with_cache, zoom. change (account_cache_ (server c1)) with (account_cache_ (server c)).
  destruct (AccountCache.get (now_get env) U (account_cache_ (server c))) as [r cache] eqn:Eget.
  destruct (cache_miss _ _ _ _ _ Eget) as [->|[e ->]].
  - set (c2 := on_server _ c1).
    pose proof (db_branch_spec env U c2 (account_cache_ (server c))) as H.
    specialize (H Hc Hs1 Hr Eget). unfold judge in *. cbn [account_cache_ db_ sessions_ server c2 on_server] in H.
    rewrite Eget in *. cbn [sessions_ db_ server c1 put_srp on_session] in H.
    destruct (execute_sync _ _ _) as [[[user|]|ex|] db]; [destruct (checked_credentials user) as [[? ?]|]| | |].
    all: destruct H as (srp & ? & ? & ->); exists srp; split_and!; auto.
  - set (c2 := on_server _ c1).
    destruct (send_challenge_spec env (AccountCache.salt e) (AccountCache.verifier e) c2) as (srp & ? & ? & E2); auto.
    unfold judge. rewrite Eget. exists srp. split_and!; auto.
Qed.

Lemma read_bytes_packet op b n :
  ByteBuffer.wf b -> 0 <= n -> read_pos_ b + n <= ByteBuffer.size b ->
  Packet.read_bytes n (mkAuthPacket op b)
    = (Ok (slice (read_pos_ b) n (buffer_ b)), mkAuthPacket op (moved b n)).
Proof. intros. unfold Packet.read_bytes, from_buffer, zoom. simpl. by rewrite read_bytes_ok. Qed.

Lemma read_bytes_packet_short op b n :
  ByteBuffer.wf b -> n < max_vec -> ByteBuffer.size b < read_pos_ b + n ->
  Packet.read_bytes n (mkAuthPacket op b)
    = (Throw (out_of_range "ByteBuffer: not enough data to read"), mkAuthPacket op b).
Proof. intros. unfold Packet.read_bytes, from_buffer, zoom. simpl. by rewrite read_bytes_short. Qed.

Lemma handle_ping_spec op payload c :
  closed_ (session c) = false -> bytes_ok payload -> zlen payload < max_vec ->
  handle_ping (mkAuthPacket op (ByteBuffer_of payload)) c =
    if 4 <=? zlen payload
    then (Ok tt, on_session (fun s => set_posted (posted s ++
            [PAuth (mkAuthPacket SMSG_PONG (ByteBuffer_of (take 4 payload)))]) s) c)
    else (Throw (out_of_range "ByteBuffer: not enough data to read"), c).
Proof.
  intros Hc Hok Hmax. unfold handle_ping, Packet.read_uint32_le, from_buffer.
  destruct (Z.leb_spec 4 (zlen payload)) as [H4|H4].
  - bind_step by (apply on_local_ok; unfold zoom; simpl; by rewrite read_uint32_le_payload).
    rewrite send_auth_open by done. unfold Packet.write_uint32_le, on_buffer. simpl.
    by rewrite echo_uint32_le.
  - apply bind_throw. eapply on_local_throw. unfold zoom. simpl. by rewrite read_uint32_le_short.
Qed.

Lemma handle_logon_proof_spec op payload c :
  closed_ (session c) = false -> bytes_ok payload -> zlen payload < max_vec ->
  handle_logon_proof (mkAuthPacket op (ByteBuffer_of payload)) c =
    if 52 <=? zlen payload
    then (Ok tt, on_session (fun s => set_posted (posted s ++
            [PAuth (mkAuthPacket SMSG_AUTH_LOGON_PROOF (ByteBuffer_of (SHA1 (take 52 payload))))])
            (set_accountInfo (setIsAuthenticated true (accountInfo_ s)) (set_mode WORK_SESSION s))) c)
    else (Ok tt, on_session (fun s => set_posted (posted s ++
            [PAuth (auth_failed INTERNAL_ERROR)]) s) c).
Proof.
  intros Hc Hok Hmax. unfold handle_logon_proof.
  pose proof (ByteBuffer_of_wf payload Hok Hmax) as Hw.
  assert (32 <= zlen payload -> ByteBuffer.wf (moved (ByteBuffer_of payload) 32)) as Hw'.
  { intros. apply moved_wf; auto; unfold ByteBuffer.size; simpl; lia. }
  destruct (Z.leb_spec 52 (zlen payload)) as [H52|H52]; [apply try_catch_ok|].
  - bind_step by (eapply on_local_ok, read_bytes_packet; auto; unfold ByteBuffer.size; simpl; lia).
    bind_step by (eapply on_local_ok, read_bytes_packet; try (apply Hw'; lia); unfold ByteBuffer.size; simpl; lia).
    bind_step by (by apply with_srp_read). cbn [negb].
    bind_step by done. bind_step by done. rewrite send_auth_open by done.
    unfold on_session, Packet.write_bytes, on_buffer. simpl. rewrite write_bytes_appended.
    unfold appended, slice. cbn [moved read_pos_ buffer_ ByteBuffer_of ByteBuffer_default app].
    by rewrite drop_0, take_take_drop.
  - destruct (Z.leb_spec 32 (zlen payload)) as [H32|H32].
    + erewrite try_catch_throw; [by rewrite send_auth_open|].
      bind_step by (eapply on_local_ok, read_bytes_packet; auto; unfold ByteBuffer.size; simpl; lia).
      eapply bind_throw, on_local_throw, read_bytes_packet_short;
        try (apply Hw'; lia); unfold ByteBuffer.size; simpl; done || lia.
    + erewrite try_catch_throw; [by rewrite send_auth_open|].
      eapply bind_throw, on_local_throw, read_bytes_packet_short;
        try done; unfold ByteBuffer.size; simpl; lia.
Qed.
End lemmas.

(** ** Properties *)

(** Every cached account has a salt and a verifier of 32 bytes. *)
Definition cache_ok (c : AccountCache) : Prop := forall u e,
  cache_ c !! u = Some e -> zlen (AccountCache.salt e) = 32 /\ zlen (AccountCache.verifier e) = 32.

Lemma checked_credentials_size user salt verifier :
  checked_credentials user = Some (salt, verifier) -> zlen salt = 32 /\ zlen verifier = 32.
Proof.
  unfold checked_credentials. destruct (Database.salt user) as [s|], (Database.verifier user) as [v|]; try done.
  destruct (Z.eqb_spec (zlen s) 32), (Z.eqb_spec (zlen v) 32); simpl; try done. intros [= <- <-]. done.
Qed.

Lemma get_cache_ok now u cache r cache' :
  cache_ok cache -> AccountCache.get now u cache = (r, cache') ->
  cache_ok cache' /\ forall e, r = Ok (Some e) -> zlen (AccountCache.salt e) = 32.
Proof.
  intros Hok. unfold AccountCache.get. destruct (cache_ cache !! u) as [e|] eqn:E.
  - destruct (Hok _ _ E) as [? ?]. destruct (expired _ _ _); intros [= <- <-]; (split; [|by intros ? [= <-]]); [done|].
    intros u' e'. simpl. destruct (decide (u = u')) as [<-|].
    + rewrite lookup_insert_eq. by intros [= <-].
    + rewrite lookup_insert_ne by done. apply Hok.
  - by intros [= <- <-].
Qed.

Lemma judge_ok `{PX : Pqxx World connection work row} parse env u (s : Server World connection) v s' :
  cache_ok (account_cache_ s) -> judge parse env u s = (v, s') ->
  cache_ok (account_cache_ s') /\ match v with Challenge salt _ => zlen salt = 32 | Reject _ => True end.
Proof.
  intros Hok. unfold judge.
  destruct (AccountCache.get (now_get env) u (account_cache_ s)) as [r cache] eqn:Eg.
  destruct (get_cache_ok _ _ _ _ _ Hok Eg) as [Hc He].
  destruct r as [[e|]| |]; [intros [= <- <-]; split; [done|by apply He]|..].
  all: destruct (execute_sync _ _ _) as [[[user|]| |] db].
  all: try (intros [= <- <-]; by split).
  all: destruct (checked_credentials user) as [[salt ver]|] eqn:Ec; intros [= <- <-]; (split; [|try done]).
  all: try done.
  all: try (by destruct (checked_credentials_size _ _ _ Ec)).
  all: destruct (checked_credentials_size _ _ _ Ec) as [? ?]; intros u' e'; simpl; destruct (decide (u = u')) as [<-|];
    [rewrite lookup_insert_eq; by intros [= <-]|rewrite lookup_insert_ne by done; apply Hc].
Qed.

Lemma judge_sessions `{PX : Pqxx World connection work row} parse env u (s : Server World connection) v s' :
  judge parse env u s = (v, s') -> sessions_ s' = sessions_ s.
Proof.
  unfold judge. destruct (AccountCache.get _ _ _) as [[[e|]| |] cache]; [by intros [= <- <-]|..].
  all: destruct (execute_sync _ _ _) as [[[user|]| |] db]; [|by intros [= <- <-]..].
  all: destruct (checked_credentials user) as [[? ?]|]; by intros [= <- <-].
Qed.

(** C29: a logon challenge on an open session is always answered with exactly
    one packet, whatever the packet, the cache, the database and its failures:
    a name that is not UTF-8 or unknown gives WRONG_USERNAME, a row with a bad
    salt or verifier WRONG_PASSWORD, a database exception DATABASE_BUSY, and a
    good account (from the cache, or from the database and then cached) the
    challenge B, g, N, salt.  Nothing else of the session changes but its SRP
    object, which keeps its invariant. *)
Theorem logon_challenge_correct (O : OpenSSL) (L : OpenSSLLaws O)
    `{PX : Pqxx World connection work row} (PL : PqxxLaws PX) (parse : list Z -> exn + Z)
    (env : Env) (p : AuthPacket) (c : Ctx World connection) :
  closed_ (session c) = false -> server_ok (srp_of c) -> env_ok env ->
  ByteBuffer.wf (AuthPacket.payload_ p) ->
  exists s rest, drop (Z.to_nat (Packet.read_pos p)) (serialize p) = s ++ rest /\
    Forall (fun b => b <> 0) s /\ starts_with_nul_or_empty rest /\
    let username := rev s in
    if is_valid_utf8 username
    then
      let '(v, sv) := judge parse env (to_uppercase username) (server c) in
      exists srp, server_ok srp /\ username_ srp = to_uppercase username /\
        handle_logon_challenge parse env p c = (Ok tt, replied (PAuth (reply_of env v)) srp sv c)
    else
      handle_logon_challenge parse env p c
        = (Ok tt, replied (PAuth (reply_of env (Reject WRONG_USERNAME))) (srp_of c) (server c) c).
Proof. intros Hc Hs [Hr _] Hw. by apply (handle_logon_challenge_spec parse env p c). Qed.

(** A server with a pool of one connection to the demo database. *)
Definition demo_ctx : Ctx Demo.World nat :=
  mkCtx 0 (ClientSession_new (O := reference))
    (mkServer {[0%nat]} (AccountCache_new 300 60) (mkDatabase [] [0%nat] Demo.world_up)).

Definition demo_env : Env := mkEnv 1 2 (replicate 32 7).

Lemma logon_challenge_correct_witness :
  let p := mkAuthPacket CMSG_AUTH_LOGON_CHALLENGE (ByteBuffer_of [66; 0]) in
  posted (session (handle_logon_challenge (O := reference) (PX := Demo.demo_pqxx)
    (fun _ => inr 0) demo_env p demo_ctx).2)
  = [PAuth (mkAuthPacket SMSG_AUTH_RESPONSE (ByteBuffer_of [1; 1]))].
Proof.
  intros p.
  destruct (logon_challenge_correct reference reference_laws Demo.demo_laws (fun _ => inr 0)
    demo_env p demo_ctx) as (s & rest & E & Hnz & Hst & H).
  - reflexivity.
  - apply SRP6_new_server_ok.
  - split; [repeat constructor; unfold byte_ok; lia|reflexivity].
  - apply ByteBuffer_of_wf; [repeat constructor; unfold byte_ok; lia|reflexivity].
  - assert (s = [66]) as ->.
    { destruct s as [|b [|b' s]]; simpl in E.
      - destruct rest; [discriminate|]. injection E as <- _. discriminate.
      - congruence.
      - injection E as _ <- _. rewrite !Forall_cons in Hnz. lia. }
    cbn [rev app] in H. destruct H as (srp & _ & _ & ->). reflexivity.
Defined.

(** The size of the challenge: the cache only ever holds accounts with
    32-byte salts and verifiers, and then every challenge sent, cached or not,
    has the 97 payload bytes the client reads. *)
Theorem challenge_size (O : OpenSSL) `{PX : Pqxx World connection work row}
    (parse : list Z -> exn + Z) (env : Env) (username : list Z) (s : Server World connection) :
  cache_ok (account_cache_ s) ->
  cache_ok (account_cache_ (judge parse env username s).2) /\
  match (judge parse env username s).1 with
  | Challenge salt verifier => zlen (serialize (reply_of env (Challenge salt verifier))) = 97
  | Reject error => zlen (serialize (reply_of env (Reject error))) = 2
  end.
Proof.
  intros Hok. destruct (judge parse env username s) as [v s'] eqn:E.
  destruct (judge_ok _ _ _ _ _ _ Hok E) as [? Hv]. split; [done|].
  destruct v as [error|salt ver]; cbn [fst]; [done|].
  change (serialize _) with (challenge_payload salt ver (rand_bytes env)).
  unfold challenge_payload. zlia.
Qed.

Lemma challenge_size_witness :
  cache_ok (account_cache_ (judge (PX := Demo.demo_pqxx) (fun _ => inr 0) demo_env [65] (server demo_ctx)).2).
Proof.
  apply (challenge_size reference (fun _ => inr 0) demo_env [65] (server demo_ctx)).
  intros u e E. discriminate.
Defined.

(** Any logon proof of at least 52 bytes authenticates the session and moves
    it to the work stage, in any state of the SRP object (also without a
    challenge, for any account or none), and is answered with
    [SHA1(A | M1)]; a shorter one gets INTERNAL_ERROR. *)
Theorem logon_proof_accepts_anything (O : OpenSSL) (World connection : Type)
    (op : AuthOpcodes) (payload : list Z) (c : Ctx World connection) :
  closed_ (session c) = false -> bytes_ok payload -> zlen payload < max_vec ->
  exists c', handle_logon_proof (mkAuthPacket op (ByteBuffer_of payload)) c = (Ok tt, c') /\
    srp_of c' = srp_of c /\ server c' = server c /\
    if 52 <=? zlen payload
    then isAuthenticated (accountInfo_ (session c')) = true /\
         session_mode_ (session c') = WORK_SESSION /\
         posted (session c') = posted (session c) ++
           [PAuth (mkAuthPacket SMSG_AUTH_LOGON_PROOF (ByteBuffer_of (SHA1 (take 52 payload))))]
    else session_mode_ (session c') = session_mode_ (session c) /\
         accountInfo_ (session c') = accountInfo_ (session c) /\
         posted (session c') = posted (session c) ++
           [PAuth (mkAuthPacket SMSG_AUTH_RESPONSE (ByteBuffer_of [1; 0]))].
Proof.
  intros Hc Hok Hmax. rewrite handle_logon_proof_spec by done.
  destruct (52 <=? zlen payload); eexists; split_and!; done.
Qed.

Lemma logon_proof_accepts_anything_witness :
  exists c', handle_logon_proof (O := reference)
    (mkAuthPacket CMSG_AUTH_LOGON_PROOF (ByteBuffer_of (replicate 52 0))) demo_ctx = (Ok tt, c') /\
    session_mode_ (session c') = WORK_SESSION /\ isAuthenticated (accountInfo_ (session c')) = true.
Proof.
  destruct (logon_proof_accepts_anything reference Demo.World nat CMSG_AUTH_LOGON_PROOF
    (replicate 52 0) demo_ctx) as (c' & E & _ & _ & H).
  - reflexivity.
  - repeat constructor; unfold byte_ok; lia.
  - reflexivity.
  - exists c'. split; [exact E|]. split; apply H.
Defined.
