(* ===== verification/HandlersWork.v ===== *)
(** * HandlersWork (src/server/SessionMode/workstage/handlers/HandlersWork.cpp)

    The handlers of the work stage. *)

From S2P Require Import Prelude Machine ByteBuffer Packet AuthPacket WorkPacket ClientSession.

Section handlers.
Context {host : Host} {World connection : Type}.
Abbreviation ctx := (Ctx World connection).

Definition handle_ping (p : WorkPacket) : M ctx unit :=
  let! '(ping, p) := on_local Packet.read_uint32_le p in
  let reply := WorkPacket_new WorkOp.SMSG_PONG in
  let reply := Packet.write_uint32_le ping reply in
  send_packet_as (PWork reply).

(** The message is only logged. *)
Definition handle_message (p : WorkPacket) : M ctx unit :=
  let! '(msg, p) := on_local Packet.read_string_nt_le p in
  ret tt.

Definition dispatch (p : WorkPacket) : M ctx unit :=
  match WorkPacket.get_opcode p with
  | WorkOp.CMSG_PING => handle_ping p
  | WorkOp.CMSG_MESSAGE => handle_message p
  | _ => ret tt
  end.
End handlers.

(** ** Lemmas *)

Section lemmas.
Context {host : Host} {World connection : Type}.
Implicit Types c : Ctx World connection.

Lemma work_ping_spec op payload c :
  closed_ (session c) = false -> bytes_ok payload -> zlen payload < max_vec ->
  handle_ping (mkWorkPacket op (ByteBuffer_of payload)) c =
    if 4 <=? zlen payload
    then (Ok tt, on_session (fun s => set_posted (posted s ++
            [PWork (mkWorkPacket WorkOp.SMSG_PONG (ByteBuffer_of (take 4 payload)))]) s) c)
    else (Throw (out_of_range "ByteBuffer: not enough data to read"), c).
Proof.
  intros Hc Hok Hmax. unfold handle_ping, Packet.read_uint32_le, from_buffer.
  destruct (Z.leb_spec 4 (zlen payload)) as [H4|H4].
  - bind_step by (apply on_local_ok; unfold zoom; simpl; by rewrite read_uint32_le_payload).
    unfold send_packet_as, send_packet. rewrite Hc. unfold Packet.write_uint32_le, on_buffer. simpl.
    by rewrite echo_uint32_le.
  - apply bind_throw. eapply on_local_throw. unfold zoom. simpl. by rewrite read_uint32_le_short.
Qed.

Lemma handle_message_spec op payload c :
  bytes_ok payload -> zlen payload < max_vec ->
  handle_message (mkWorkPacket op (ByteBuffer_of payload)) c = (Ok tt, c).
Proof.
  intros Hok Hmax. pose proof (ByteBuffer_of_wf payload Hok Hmax) as Hw.
  destruct (cursor_split _ Hw) as (pre & E & Hp).
  destruct (split_at_nul (drop (Z.to_nat (read_pos_ (ByteBuffer_of payload))) (buffer_ (ByteBuffer_of payload))))
    as (s & rest & Ed & Hs & Hr).
  rewrite Ed in E. destruct (read_string_nt_ok _ pre s rest Hw E Hp Hs Hr) as [_ Hle].
  unfold handle_message, Packet.read_string_nt_le, from_buffer.
  by bind_step by (apply on_local_ok; unfold zoom; simpl; by rewrite Hle).
Qed.
End lemmas.
