(* ===== verification/Readers.v ===== *)
(** * The packet readers and the read path of the session
    (src/server/SessionMode/authstage/reader/ReaderAuthSession.cpp,
    src/server/SessionMode/workstage/reader/ReaderWorkSession.cpp,
    ClientSession::process_read_buffer and the handler of do_read)

    What happens when bytes arrive: they are appended to the receive buffer,
    the reader of the current stage takes at most one complete packet off it,
    parses it and hands it to the handlers, and a new read is started. *)

From S2P Require Import Prelude Machine ByteBuffer MessageBuffer SRP6 OpenSSL Packet AuthPacket.
From S2P Require Import WorkPacket AccountCache PreparedStatement Database ClientSession HandlersAuth HandlersWork.

Section readers.
Context {host : Host} {O : OpenSSL} `{PX : Pqxx World connection work row}.
Context (parse_pg_timestamp : list Z -> exn + Z).
Abbreviation ctx := (Ctx World connection).

Definition with_buffer {A} (m : M MessageBuffer A) : M ctx A :=
  zoom (fun c => read_buffer_ (session c)) (fun b => on_session (set_read_buffer b)) m.

(** [data[i]] with [data = buffer.read_ptr()]. *)
Definition data_at (i : Z) : M MessageBuffer Z := fun b =>
  match _storage b !! Z.to_nat (_rpos b + i) with Some v => (Ok v, b) | None => (Undef, b) end.

(** [static_cast<uint16_t>(data[i]) << 8 | static_cast<uint16_t>(data[i + 1])] *)
Definition uint16_at (i : Z) : M MessageBuffer Z :=
  let! hi := data_at i in
  let! lo := data_at (i + 1) in
  ret (u16 (Z.lor (Z.shiftl hi 8) lo)).

(** [std::vector<uint8_t> full_packet(data, data + n)] *)
Definition copy_out (n : Z) : M MessageBuffer (list Z) := gets (fun b => slice (_rpos b) n (_storage b)).

Definition process_read_buffer_as_authserver (env : Env) : M ctx unit :=
  let! n := with_buffer (gets get_active_size) in
  if n <? 3 then ret tt
  else
    let! opcode := with_buffer (data_at 0) in
    let! size := with_buffer (uint16_at 1) in
    let! n := with_buffer (gets get_active_size) in
    if n <? 3 + size then ret tt
    else if 2048 <? size then close
    else
      let! full_packet := with_buffer (copy_out (3 + size)) in
      do! with_buffer (read_completed (3 + size)) in
      let packet := AuthPacket_default in
      try_catch
        (let! '(_, packet) := on_local (Packet.deserialize full_packet) packet in
         HandlersAuth.dispatch parse_pg_timestamp env packet)
        (fun _ => close).

Definition process_read_buffer_as_workserver : M ctx unit :=
  let! n := with_buffer (gets get_active_size) in
  if n <? 4 then ret tt
  else
    let! opcode := with_buffer (uint16_at 0) in
    let! size := with_buffer (uint16_at 2) in
    let! n := with_buffer (gets get_active_size) in
    if n <? 4 + size then ret tt
    else if 2048 <? size then close
    else
      let! full_packet := with_buffer (copy_out (4 + size)) in
      do! with_buffer (read_completed (4 + size)) in
      let packet := WorkPacket_default in
      try_catch
        (let! '(_, packet) := on_local (Packet.deserialize full_packet) packet in
         HandlersWork.dispatch packet)
        (fun _ => close).

Definition process_read_buffer (env : Env) : M ctx unit := fun c =>
  match session_mode_ (session c) with
  | AUTH_SESSION => process_read_buffer_as_authserver env c
  | WORK_SESSION => process_read_buffer_as_workserver c
  end.

(** The completion handler of [async_read_some]: the received bytes are in the
    buffer's free space when it runs. *)
Definition on_read (env : Env) (result : error_code + list Z) : M ctx unit :=
  match result with
  | inl ec => close
  | inr bytes => fun c =>
      if negb (isOpened (session c)) then (Ok tt, c)
      else
        (do! with_buffer (feed bytes) in
         do! process_read_buffer env in
         let! opened := gets (fun c => isOpened (session c)) in
         if opened then do_read else ret tt) c
  end.
End readers.

(** ** Framing, as a function of the unread bytes *)

Definition header_size (mode : SessionMode) : Z :=
  match mode with AUTH_SESSION => 3 | WORK_SESSION => 4 end.

(** The payload length announced by a complete header. *)
Definition announced (mode : SessionMode) (bytes : list Z) : option Z :=
  match mode, bytes with
  | AUTH_SESSION, _ :: h :: l :: _ => Some (of_be_bytes [h; l])
  | WORK_SESSION, _ :: _ :: h :: l :: _ => Some (of_be_bytes [h; l])
  | _, _ => None
  end.

Inductive framing :=
| Incomplete
| Oversize
| Frame (payload rest : list Z).

Definition next_frame (mode : SessionMode) (bytes : list Z) : framing :=
  match announced mode bytes with
  | None => Incomplete
  | Some n =>
      if zlen bytes <? header_size mode + n then Incomplete
      else if 2048 <? n then Oversize
      else Frame (slice (header_size mode) n bytes) (drop (Z.to_nat (header_size mode + n)) bytes)
  end.

(** ** Lemmas *)

Section lemmas.
Context {host : Host} {O : OpenSSL} `{PX : Pqxx World connection work row}.
Context (parse_pg_timestamp : list Z -> exn + Z).
Abbreviation ctx := (Ctx World connection).
Implicit Types c : ctx.

Definition put_buffer b c : ctx := on_session (set_read_buffer b) c.

Lemma put_buffer_same c : put_buffer (read_buffer_ (session c)) c = c.
Proof. by destruct c as [? [] ?]. Qed.

Lemma with_buffer_read {A} (m : M MessageBuffer A) a c :
  m (read_buffer_ (session c)) = (Ok a, read_buffer_ (session c)) -> with_buffer m c = (Ok a, c).
Proof. unfold with_buffer, zoom. intros ->. f_equal. apply put_buffer_same. Qed.

Lemma with_buffer_ok {A} (m : M MessageBuffer A) a b c :
  m (read_buffer_ (session c)) = (Ok a, b) -> with_buffer m c = (Ok a, put_buffer b c).
Proof. unfold with_buffer, zoom. by intros ->. Qed.

Lemma data_at_active b i v :
  MessageBuffer.wf b -> 0 <= i -> active b !! Z.to_nat i = Some v -> data_at i b = (Ok v, b).
Proof.
  intros (? & ? & _) Hi E. unfold data_at, active, slice in *.
  apply lookup_take_Some in E as [E _]. rewrite lookup_drop in E.
  replace (Z.to_nat (_rpos b + i)) with (Z.to_nat (_rpos b) + Z.to_nat i)%nat by lia. by rewrite E.
Qed.

Lemma shift_or_be h l : byte_ok h -> byte_ok l -> u16 (Z.lor (Z.shiftl h 8) l) = of_be_bytes [h; l].
Proof.
  intros Hh Hl. unfold of_be_bytes, byte_ok in *. simpl.
  rewrite Z.shiftl_mul_pow2 by lia.
  assert (Z.land (h * 2 ^ 8) l = 0) as Hd; [|rewrite <- Z.lxor_lor, <- Z.add_nocarry_lxor by done].
  2:{ unfold u16, wrap. rewrite Z.mod_small; lia. }
  - apply Z.bits_inj'. intros k Hk. rewrite Z.land_spec, Z.bits_0.
    destruct (decide (k < 8)).
    + by rewrite Z.mul_pow2_bits_low.
    + rewrite (Z.bits_above_log2 l k), andb_false_r; auto; [lia|].
      destruct (decide (l = 0)) as [->|]; [simpl; lia|]. apply Z.log2_lt_pow2; [lia|].
      apply Z.lt_le_trans with (2 ^ 8); [lia|]. apply Z.pow_le_mono_r; lia.
Qed.

Lemma uint16_at_active b i h l :
  MessageBuffer.wf b -> 0 <= i -> active b !! Z.to_nat i = Some h -> active b !! Z.to_nat (i + 1) = Some l ->
  uint16_at i b = (Ok (of_be_bytes [h; l]), b).
Proof.
  intros Hw Hi Eh El. pose proof (active_ok b Hw) as Hok. rewrite Forall_lookup in Hok.
  unfold uint16_at. bind_step by (by apply data_at_active).
  bind_step by (apply data_at_active; [done|lia|done]).
  unfold ret. by rewrite shift_or_be by eauto.
Qed.

Lemma copy_out_active b n :
  MessageBuffer.wf b -> 0 <= n <= zlen (active b) -> copy_out n b = (Ok (take (Z.to_nat n) (active b)), b).
Proof.
  intros Hw Hn. rewrite zlen_active in Hn by done. unfold copy_out, gets, active, slice.
  do 2 f_equal. rewrite take_take. f_equal. lia.
Qed.

Lemma active_size_read b : MessageBuffer.wf b -> get_active_size b = zlen (active b).
Proof. intros Hw. by rewrite get_active_size_wf, zlen_active. Qed.

(** The packet object the reader builds from a frame. *)
Definition auth_packet_of (bytes payload : list Z) : AuthPacket :=
  mkAuthPacket (opcode_of_uint8 (nth 0 bytes 0)) (ByteBuffer_of payload).
Definition work_packet_of (bytes payload : list Z) : WorkPacket :=
  mkWorkPacket (WorkOp.opcode_of_uint16 (of_be_bytes [nth 0 bytes 0; nth 1 bytes 0])) (ByteBuffer_of payload).

(** Taking a frame of [hd] header and [n] payload bytes off the buffer. *)
Lemma take_frame b n :
  MessageBuffer.wf b -> 0 <= n <= zlen (active b) ->
  exists b', read_completed n b = (Ok tt, b') /\ MessageBuffer.wf b' /\
    active b' = drop (Z.to_nat n) (active b) /\ zlen (_storage b') = zlen (_storage b).
Proof.
  intros Hw Hn. destruct (read_completed_spec b n Hw Hn) as (b' & ? & ? & ? & Es).
  exists b'. by rewrite Es.
Qed.

Lemma auth_reader_spec env c :
  MessageBuffer.wf (read_buffer_ (session c)) ->
  let bytes := active (read_buffer_ (session c)) in
  match next_frame AUTH_SESSION bytes with
  | Incomplete => process_read_buffer_as_authserver parse_pg_timestamp env c = (Ok tt, c)
  | Oversize => process_read_buffer_as_authserver parse_pg_timestamp env c = close c
  | Frame payload rest =>
      bytes_ok payload /\ zlen payload <= 2048 /\
      exists b', MessageBuffer.wf b' /\ active b' = rest /\
        zlen (_storage b') = zlen (_storage (read_buffer_ (session c))) /\
        process_read_buffer_as_authserver parse_pg_timestamp env c =
          try_catch (HandlersAuth.dispatch parse_pg_timestamp env (auth_packet_of bytes payload))
            (fun _ => close) (put_buffer b' c)
  end.
Proof.
  intros Hw bytes. pose proof (active_ok _ Hw) as Hok. fold bytes in Hok.
  pose proof (active_size_read _ Hw) as Hn. fold bytes in Hn.
  unfold process_read_buffer_as_authserver, next_frame.
  rewrite (bind_ok _ _ _ _ _ (with_buffer_read (gets get_active_size) _ c eq_refl)), Hn.
  destruct bytes as [|op [|h [|l tail]]] eqn:Eb; try reflexivity. subst bytes.
  pose proof (zlen_nonneg tail). rewrite (proj2 (Z.ltb_ge _ _)) by zlia. cbn [announced header_size].
  rewrite !Forall_cons in Hok. destruct Hok as (? & ? & ? & ?).
  pose proof (of_be_bytes_range [h; l]) as Hsz. set (n := of_be_bytes [h; l]) in *.
  assert (0 <= n) by (apply Hsz; rewrite !Forall_cons; auto).
  bind_step by (apply with_buffer_read, data_at_active; [done|done|by rewrite Eb]).
  bind_step by (apply with_buffer_read, uint16_at_active; [done|done|by rewrite Eb|by rewrite Eb]).
  rewrite (bind_ok _ _ _ _ _ (with_buffer_read (gets get_active_size) _ c eq_refl)), Hn. fold n.
  destruct (Z.ltb_spec (zlen (op :: h :: l :: tail)) (3 + n)) as [|Hlen]; [done|].
  destruct (Z.ltb_spec 2048 n); [done|].
  assert (zlen (slice 3 n (op :: h :: l :: tail)) = n) as Hpl by (apply zlen_slice; lia).
  assert (bytes_ok (slice 3 n (op :: h :: l :: tail))) as Hpok
    by (apply Forall_slice; rewrite !Forall_cons; auto).
  destruct (take_frame (read_buffer_ (session c)) (3 + n)) as (b' & Er & Hw' & Ha' & Hs'); [done|rewrite Eb; lia|].
  rewrite Eb in Ha'. split; [done|]. split; [lia|]. exists b'. split_and!; auto.
  bind_step by (apply with_buffer_read, copy_out_active; [done|rewrite Eb; lia]).
  bind_step by (by apply with_buffer_ok). rewrite Eb. unfold try_catch.
  assert (take (Z.to_nat (3 + n)) (op :: h :: l :: tail) = op :: h :: l :: slice 3 n (op :: h :: l :: tail)) as ->.
  { replace (Z.to_nat (3 + n)) with (3 + Z.to_nat n)%nat by lia. done. }
  rewrite (bind_ok _ _ (put_buffer b' c) (put_buffer b' c)
    (tt, mkAuthPacket (opcode_of_uint8 op) (ByteBuffer_of (slice 3 n (op :: h :: l :: tail))))); [done|].
  apply on_local_ok. change (Packet.deserialize ?f) with (AuthPacket.deserialize f).
  rewrite deserialize_frame; [fold n; by rewrite Hpl, Z.eqb_refl|rewrite !Forall_cons; auto|].
  unfold max_vec. zlia.
Qed.

Lemma work_reader_spec c :
  MessageBuffer.wf (read_buffer_ (session c)) ->
  let bytes := active (read_buffer_ (session c)) in
  match next_frame WORK_SESSION bytes with
  | Incomplete => process_read_buffer_as_workserver c = (Ok tt, c)
  | Oversize => process_read_buffer_as_workserver c = close c
  | Frame payload rest =>
      bytes_ok payload /\ zlen payload <= 2048 /\
      exists b', MessageBuffer.wf b' /\ active b' = rest /\
        zlen (_storage b') = zlen (_storage (read_buffer_ (session c))) /\
        process_read_buffer_as_workserver c =
          try_catch (HandlersWork.dispatch (work_packet_of bytes payload)) (fun _ => close) (put_buffer b' c)
  end.
Proof.
  intros Hw bytes. pose proof (active_ok _ Hw) as Hok. fold bytes in Hok.
  pose proof (active_size_read _ Hw) as Hn. fold bytes in Hn.
  unfold process_read_buffer_as_workserver, next_frame.
  rewrite (bind_ok _ _ _ _ _ (with_buffer_read (gets get_active_size) _ c eq_refl)), Hn.
  destruct bytes as [|o1 [|o2 [|h [|l tail]]]] eqn:Eb; try reflexivity. subst bytes.
  pose proof (zlen_nonneg tail). rewrite (proj2 (Z.ltb_ge _ _)) by zlia. cbn [announced header_size].
  rewrite !Forall_cons in Hok. destruct Hok as (? & ? & ? & ? & ?).
  pose proof (of_be_bytes_range [h; l]) as Hsz. set (n := of_be_bytes [h; l]) in *.
  assert (0 <= n) by (apply Hsz; rewrite !Forall_cons; auto).
  bind_step by (apply with_buffer_read, uint16_at_active; [done|done|by rewrite Eb|by rewrite Eb]).
  bind_step by (apply with_buffer_read, uint16_at_active; [done|done|by rewrite Eb|by rewrite Eb]).
  rewrite (bind_ok _ _ _ _ _ (with_buffer_read (gets get_active_size) _ c eq_refl)), Hn. fold n.
  destruct (Z.ltb_spec (zlen (o1 :: o2 :: h :: l :: tail)) (4 + n)) as [|Hlen]; [done|].
  destruct (Z.ltb_spec 2048 n); [done|].
  assert (zlen (slice 4 n (o1 :: o2 :: h :: l :: tail)) = n) as Hpl by (apply zlen_slice; lia).
  assert (bytes_ok (slice 4 n (o1 :: o2 :: h :: l :: tail))) as Hpok
    by (apply Forall_slice; rewrite !Forall_cons; auto).
  destruct (take_frame (read_buffer_ (session c)) (4 + n)) as (b' & Er & Hw' & Ha' & Hs'); [done|rewrite Eb; lia|].
  rewrite Eb in Ha'. split; [done|]. split; [lia|]. exists b'. split_and!; auto.
  bind_step by (apply with_buffer_read, copy_out_active; [done|rewrite Eb; lia]).
  bind_step by (by apply with_buffer_ok). rewrite Eb. unfold try_catch.
  assert (take (Z.to_nat (4 + n)) (o1 :: o2 :: h :: l :: tail)
    = o1 :: o2 :: h :: l :: slice 4 n (o1 :: o2 :: h :: l :: tail)) as ->.
  { replace (Z.to_nat (4 + n)) with (4 + Z.to_nat n)%nat by lia. done. }
  rewrite (bind_ok _ _ (put_buffer b' c) (put_buffer b' c)
    (tt, mkWorkPacket (WorkOp.opcode_of_uint16 (of_be_bytes [o1; o2]))
           (ByteBuffer_of (slice 4 n (o1 :: o2 :: h :: l :: tail))))); [done|].
  apply on_local_ok. change (Packet.deserialize ?f) with (WorkPacket.deserialize f).
  rewrite work_deserialize_frame; [fold n; by rewrite Hpl, Z.eqb_refl|rewrite !Forall_cons; auto 10|].
  unfold max_vec. zlia.
Qed.
End lemmas.
