(* ===== verification/SessionLoop.v ===== *)
(** * The session as a transition system

    The steps of one session: what the operating system does to its pending
    operations, the completion handlers and posted closures as they run, calls
    from outside, and changes of the server state by other sessions.  A handler
    is one step here; [SessionThreads] puts the handlers on threads.  The
    invariant [session_inv] is proved by induction over the steps; the write
    path, safety and framing theorems follow from it. *)

From S2P Require Import Prelude Machine ByteBuffer MessageBuffer SRP6 OpenSSL Packet AuthPacket.
From S2P Require Import WorkPacket AccountCache PreparedStatement Database ClientSession HandlersAuth HandlersWork Readers.

(** The receive buffer stays within the address space. *)
Definition buffer_fits (s : ClientSession) : Prop := zlen (_storage (read_buffer_ s)) + 512 < max_storage.

(** A frame with a ping that lacks the four bytes of its number. *)
Definition short_ping (mode : SessionMode) (bytes payload : list Z) : bool :=
  (zlen payload <? 4) &&
  match mode with
  | AUTH_SESSION => match AuthPacket.opcode_ (auth_packet_of bytes payload) with CMSG_PING => true | _ => false end
  | WORK_SESSION => match WorkPacket.opcode_ (work_packet_of bytes payload) with WorkOp.CMSG_PING => true | _ => false end
  end.

(** ** What a handler may change *)

Section effects.
Context {host : Host} {O : OpenSSL} {L : OpenSSLLaws O}.
Context `{PX : Pqxx World connection work row} {PL : PqxxLaws PX}.
Context (parse : list Z -> exn + Z).
Abbreviation ctx := (Ctx World connection).
Implicit Types c : ctx.

(** The session after a handler: packets posted, account and stage changed. *)
Definition handled (ps : list AnyPacket) c c' : Prop :=
  (self c' = self c /\ sessions_ (server c') = sessions_ (server c)) /\ exists acc mode,
    session c' = set_posted (posted (session c) ++ ps) (set_accountInfo acc (set_mode mode (session c))) /\
    server_ok (srp_ acc).

Lemma handled_nil c : server_ok (srp_of c) -> handled [] c c.
Proof.
  intros Hs. split; [done|]. exists (accountInfo_ (session c)), (session_mode_ (session c)).
  rewrite app_nil_r. split; [by destruct c as [? [] ?]|done].
Qed.

Lemma handled_post c p :
  server_ok (srp_of c) -> handled [p] c (on_session (fun s => set_posted (posted s ++ [p]) s) c).
Proof.
  intros Hs. split; [done|]. exists (accountInfo_ (session c)), (session_mode_ (session c)).
  split; [by destruct c as [? [] ?]|done].
Qed.

Lemma handled_replied c p srp sv :
  server_ok srp -> sessions_ sv = sessions_ (server c) -> handled [p] c (replied p srp sv c).
Proof.
  intros Hs Hv. split; [done|]. exists (set_srp srp (accountInfo_ (session c))), (session_mode_ (session c)).
  split; [by destruct c as [? [] ?]|done].
Qed.

(** The handlers of a parsed packet: they return or throw, and post at most
    one packet. *)
Definition dispatched (r : outcome unit * ctx) c : Prop :=
  exists ps, (length ps <= 1)%nat /\ handled ps c r.2 /\ r.1 <> Undef.

Lemma auth_dispatch_effect env op payload c :
  closed_ (session c) = false -> server_ok (srp_of c) -> env_ok env ->
  bytes_ok payload -> zlen payload <= 2048 ->
  dispatched (HandlersAuth.dispatch parse env (mkAuthPacket op (ByteBuffer_of payload)) c) c.
Proof.
  intros Hc Hs [Hr _] Hok Hlen. assert (zlen payload < max_vec) as Hmax by (unfold max_vec; lia).
  unfold HandlersAuth.dispatch. cbn [AuthPacket.get_opcode AuthPacket.opcode_].
  destruct op; try (exists []; split; [simpl; lia|]; split; [by apply handled_nil|done]).
  - rewrite handle_ping_spec by done. destruct (4 <=? zlen payload).
    + eexists [_]. split; [done|]. split; [by apply handled_post|done].
    + exists []. split; [simpl; lia|]. split; [by apply handled_nil|done].
  - pose proof (ByteBuffer_of_wf payload Hok Hmax) as Hw.
    destruct (handle_logon_challenge_spec parse env
      (mkAuthPacket CMSG_AUTH_LOGON_CHALLENGE (ByteBuffer_of payload)) c Hc Hs Hr Hw) as (s & rest & _ & _ & _ & H).
    cbv zeta in H. unfold try_catch. destruct (UTF8Utils.is_valid_utf8 (rev s)).
    + destruct (judge _ _ _ _) as [v sv] eqn:Ej. apply judge_sessions in Ej. destruct H as (srp & ? & _ & ->).
      eexists [_]. split; [done|]. split; [by apply handled_replied|done].
    + rewrite H. eexists [_]. split; [done|]. split; [by apply handled_replied|done].
  - rewrite handle_logon_proof_spec by done. destruct (52 <=? zlen payload).
    + eexists [_]. split; [done|]. split; [|done]. split; [done|].
      exists (setIsAuthenticated true (accountInfo_ (session c))), WORK_SESSION. done.
    + eexists [_]. split; [done|]. split; [by apply handled_post|done].
Qed.

Lemma work_dispatch_effect op payload c :
  closed_ (session c) = false -> server_ok (srp_of c) -> bytes_ok payload -> zlen payload <= 2048 ->
  dispatched (HandlersWork.dispatch (mkWorkPacket op (ByteBuffer_of payload)) c) c.
Proof.
  intros Hc Hs Hok Hlen. assert (zlen payload < max_vec) as Hmax by (unfold max_vec; lia).
  unfold HandlersWork.dispatch. cbn [WorkPacket.get_opcode WorkPacket.opcode_].
  destruct op; try (exists []; split; [simpl; lia|]; split; [by apply handled_nil|done]).
  - rewrite work_ping_spec by done. destruct (4 <=? zlen payload).
    + eexists [_]. split; [done|]. split; [by apply handled_post|done].
    + exists []. split; [simpl; lia|]. split; [by apply handled_nil|done].
  - rewrite handle_message_spec by done. exists []. split; [simpl; lia|]. split; [by apply handled_nil|done].
Qed.

(** A frame goes to the handlers of the stage, as a packet with the opcode of its header. *)
Definition handle_frame env (mode : SessionMode) (bytes payload : list Z) : M ctx unit :=
  match mode with
  | AUTH_SESSION => HandlersAuth.dispatch parse env (auth_packet_of bytes payload)
  | WORK_SESSION => HandlersWork.dispatch (work_packet_of bytes payload)
  end.

(** The handlers of a frame throw only for such a ping. *)
Lemma handle_frame_outcome env mode bytes payload c :
  closed_ (session c) = false -> server_ok (srp_of c) -> env_ok env -> bytes_ok payload -> zlen payload <= 2048 ->
  (handle_frame env mode bytes payload c).1 =
    if short_ping mode bytes payload then Throw (out_of_range "ByteBuffer: not enough data to read") else Ok tt.
Proof.
  intros Hc Hs [Hr _] Hok Hlen. assert (zlen payload < max_vec) as Hmax by (unfold max_vec; lia).
  unfold handle_frame, short_ping, auth_packet_of, work_packet_of. destruct mode.
  - unfold HandlersAuth.dispatch. cbn [AuthPacket.get_opcode AuthPacket.opcode_]. destruct (opcode_of_uint8 _);
      rewrite ?andb_false_r, ?andb_true_r; try done.
    + rewrite handle_ping_spec by done. destruct (Z.leb_spec 4 (zlen payload)), (Z.ltb_spec (zlen payload) 4); done || lia.
    + pose proof (ByteBuffer_of_wf payload Hok Hmax) as Hw.
      destruct (handle_logon_challenge_spec parse env
        (mkAuthPacket CMSG_AUTH_LOGON_CHALLENGE (ByteBuffer_of payload)) c Hc Hs Hr Hw) as (s & rest & _ & _ & _ & H).
      cbv zeta in H. unfold try_catch. destruct (UTF8Utils.is_valid_utf8 (rev s)); [|by rewrite H].
      destruct (judge _ _ _ _) as [v sv]. by destruct H as (srp & ? & _ & ->).
    + rewrite handle_logon_proof_spec by done. by destruct (52 <=? zlen payload).
  - unfold HandlersWork.dispatch. cbn [WorkPacket.get_opcode WorkPacket.opcode_]. destruct (WorkOp.opcode_of_uint16 _);
      rewrite ?andb_false_r, ?andb_true_r; try done.
    + rewrite work_ping_spec by done. destruct (Z.leb_spec 4 (zlen payload)), (Z.ltb_spec (zlen payload) 4); done || lia.
    + by rewrite handle_message_spec.
Qed.

Lemma handle_frame_effect env mode bytes payload c :
  closed_ (session c) = false -> server_ok (srp_of c) -> env_ok env -> bytes_ok payload -> zlen payload <= 2048 ->
  dispatched (handle_frame env mode bytes payload c) c.
Proof.
  intros Hc Hs He Hok Hlen. destruct mode; [by apply auth_dispatch_effect|by apply work_dispatch_effect].
Qed.

Lemma close_ok c : exists c', close c = (Ok tt, c') /\ closed_ (session c') = true.
Proof.
  unfold close. destruct (closed_ (session c)) eqn:E; [by exists c|].
  eexists. split; [done|]. by destruct (decide _).
Qed.

(** The readers turn an exception of the handlers into [close]. *)
Lemma dispatched_caught (m : M ctx unit) c :
  dispatched (m c) c ->
  exists ps c1, (length ps <= 1)%nat /\ handled ps c c1 /\
    (try_catch m (fun _ => close) c = (Ok tt, c1) \/ try_catch m (fun _ => close) c = close c1).
Proof.
  intros (ps & Hl & Hh & Hu). exists ps, (m c).2. split_and!; auto. unfold try_catch.
  destruct (m c) as [[[]|e|] c1]; simpl in *; auto. done.
Qed.

(** One call of [process_read_buffer] on an open session: at most one frame is
    consumed, at most one packet posted; the session ends up open, or closed by
    [close]. *)
Lemma process_read_buffer_effect env c :
  closed_ (session c) = false -> server_ok (srp_of c) -> env_ok env ->
  MessageBuffer.wf (read_buffer_ (session c)) ->
  exists b' ps c1, MessageBuffer.wf b' /\ (length ps <= 1)%nat /\
    zlen (_storage b') = zlen (_storage (read_buffer_ (session c))) /\
    active b' `suffix_of` active (read_buffer_ (session c)) /\
    handled ps (put_buffer b' c) c1 /\
    (process_read_buffer parse env c = (Ok tt, c1) \/ process_read_buffer parse env c = close c1).
Proof.
  intros Hc Hs He Hw. set (b := read_buffer_ (session c)).
  assert (forall r : outcome unit * ctx, r = (Ok tt, c) \/ r = close c -> exists b' ps c1,
    MessageBuffer.wf b' /\ (length ps <= 1)%nat /\ zlen (_storage b') = zlen (_storage b) /\
    active b' `suffix_of` active b /\ handled ps (put_buffer b' c) c1 /\ (r = (Ok tt, c1) \/ r = close c1)) as Hnone.
  { intros r Hr. exists b, [], c. split; [done|]. split; [simpl; lia|]. split_and!; auto.
    unfold b. rewrite put_buffer_same. by apply handled_nil. }
  unfold process_read_buffer. destruct (session_mode_ (session c)).
  - pose proof (auth_reader_spec parse env c Hw) as H. cbv zeta in H. fold b in H.
    unfold next_frame in H. destruct (announced _ _) as [n|]; [|rewrite H; auto].
    destruct (_ <? _); [rewrite H; auto|]. destruct (_ <? _); [rewrite H; auto|].
    destruct H as (Hp & Hl & b' & Hw' & Ha & Hst & ->).
    destruct (dispatched_caught (HandlersAuth.dispatch parse env (auth_packet_of (active b) _)) (put_buffer b' c)
      (auth_dispatch_effect env _ _ (put_buffer b' c) Hc Hs He Hp Hl)) as (ps & c1 & ? & ? & ?).
    exists b', ps, c1. split_and!; auto. rewrite Ha. apply suffix_drop.
  - pose proof (work_reader_spec c Hw) as H. cbv zeta in H. fold b in H.
    unfold next_frame in H. destruct (announced _ _) as [n|]; [|rewrite H; auto].
    destruct (_ <? _); [rewrite H; auto|]. destruct (_ <? _); [rewrite H; auto|].
    destruct H as (Hp & Hl & b' & Hw' & Ha & Hst & ->).
    destruct (dispatched_caught (HandlersWork.dispatch (work_packet_of (active b) _)) (put_buffer b' c)
      (work_dispatch_effect _ _ (put_buffer b' c) Hc Hs Hp Hl)) as (ps & c1 & ? & ? & ?).
    exists b', ps, c1. split_and!; auto. rewrite Ha. apply suffix_drop.
Qed.

(** The whole read handler: received bytes are appended, then one of the two
    ends above, and a new read is started while the session is open. *)
Lemma on_read_effect env bytes c :
  closed_ (session c) = false -> server_ok (srp_of c) -> env_ok env ->
  MessageBuffer.wf (read_buffer_ (session c)) -> bytes_ok bytes ->
  zlen bytes <= get_remaining_space (read_buffer_ (session c)) ->
  exists b' ps c1, MessageBuffer.wf b' /\ (length ps <= 1)%nat /\
    zlen (_storage b') = zlen (_storage (read_buffer_ (session c))) /\
    handled ps (put_buffer b' c) c1 /\
    (on_read parse env (inr bytes) c = do_read c1 \/
     exists c2, close c1 = (Ok tt, c2) /\ on_read parse env (inr bytes) c = (Ok tt, c2)).
Proof.
  intros Hc Hs He Hw Hb Hroom. unfold on_read, isOpened. rewrite Hc. cbn [negb].
  destruct (bq_feed_law (ByteQueue := MessageBuffer_queue) bytes (read_buffer_ (session c)) Hw Hb Hroom) as (b0 & Ef & Hw0 & Ha0 & Hst0).
  bind_step by (apply with_buffer_ok, Ef).
  destruct (process_read_buffer_effect env (put_buffer b0 c) Hc Hs He Hw0)
    as (b' & ps & c1 & Hw' & Hps & Hst & _ & Hh & Hp).
  exists b', ps, c1. split_and!; auto; [by rewrite Hst|].
  destruct Hh as (_ & acc & mode & Hses & _).
  destruct Hp as [Hp|Hp].
  - left. bind_step by exact Hp. bind_step by reflexivity. rewrite Hses. simpl. by rewrite Hc.
  - right. destruct (close_ok c1) as (c2 & E2 & Hcl). exists c2. split; [done|]. rewrite E2 in Hp.
    bind_step by exact Hp. bind_step by reflexivity. unfold isOpened. by rewrite Hcl.
Qed.
End effects.

(** ** The steps *)

(** What a finished operation reports to its handler. *)
Definition finished {A} (st : status A) : option (error_code + A) :=
  match st with Pending => None | Done a => Some (inr a) | Failed ec => Some (inl ec) end.

Definition error_of {A} (r : error_code + A) : option error_code :=
  match r with inl ec => Some ec | inr _ => None end.

Section steps.
Context {host : Host} {O : OpenSSL}.
Context `{PX : Pqxx World connection work row}.
Context (parse : list Z -> exn + Z).
Abbreviation ctx := (Ctx World connection).

(** What the operating system does to the operations under way. *)
Inductive os_step : ctx -> ctx -> Prop :=
| os_sends c l1 w l2 n :
    writes (session c) = l1 ++ w :: l2 -> w_status w = Pending ->
    (0 < n)%nat -> (w_sent w + n <= length (w_data w))%nat ->
    os_step c (on_session (fun s =>
      set_wire (wire s ++ take n (drop (w_sent w) (w_data w)))
        (set_writes (l1 ++ mkWrite (w_data w) (w_sent w + n) Pending :: l2) s)) c)
| os_write_done c l1 w l2 :
    writes (session c) = l1 ++ w :: l2 -> w_status w = Pending -> w_sent w = length (w_data w) ->
    os_step c (on_session (set_writes (l1 ++ mkWrite (w_data w) (w_sent w) (Done tt) :: l2)) c)
| os_write_fails c l1 w l2 ec :
    writes (session c) = l1 ++ w :: l2 -> w_status w = Pending ->
    os_step c (on_session (set_writes (l1 ++ mkWrite (w_data w) (w_sent w) (Failed ec) :: l2)) c)
| os_receives c l1 r l2 bytes :
    reads (session c) = l1 ++ r :: l2 -> r_status r = Pending ->
    bytes_ok bytes -> 0 < zlen bytes <= r_room r ->
    os_step c (on_session (set_reads (l1 ++ mkRead (r_room r) (Done bytes) :: l2)) c)
| os_read_fails c l1 r l2 ec :
    reads (session c) = l1 ++ r :: l2 -> r_status r = Pending ->
    os_step c (on_session (set_reads (l1 ++ mkRead (r_room r) (Failed ec) :: l2)) c).

(** The functions that use the members of the session: the handlers, the
    closure that [send_packet] posts, and [close] called by [Server::stop]. *)
Inductive job := read_handler | write_handler | posted_closure | close_call.

(** [job_runs j c ps c']: [j] runs from beginning to end; the packets [ps] were accepted by [send_packet]. *)
Inductive job_runs : job -> ctx -> list AnyPacket -> ctx -> Prop :=
| run_read_handler c l1 r l2 result env c' ps :
    reads (session c) = l1 ++ r :: l2 -> finished (r_status r) = Some result ->
    env_ok env -> buffer_fits (session c) ->
    on_read parse env result (on_session (set_reads (l1 ++ l2)) c) = (Ok tt, c') ->
    posted (session c') = posted (session c) ++ ps ->
    job_runs read_handler c ps c'
| run_write_handler c l1 w l2 result c' :
    writes (session c) = l1 ++ w :: l2 -> finished (w_status w) = Some result ->
    on_write (error_of result) (on_session (set_writes (l1 ++ l2)) c) = (Ok tt, c') ->
    job_runs write_handler c [] c'
| run_posted c p rest c' :
    posted (session c) = p :: rest ->
    do_send_packet p (on_session (set_posted rest) c) = (Ok tt, c') ->
    job_runs posted_closure c [] c'
| run_close c c' : close c = (Ok tt, c') -> job_runs close_call c [] c'.

(** [step c ps c']: one step, in which the packets [ps] were accepted by
    [send_packet]. *)
Inductive step : ctx -> list AnyPacket -> ctx -> Prop :=
| by_system c c' : os_step c c' -> step c [] c'
| by_job j c ps c' : job_runs j c ps c' -> step c ps c'
| call_send_packet c p c' :
    send_packet p c = (Ok tt, c') ->
    step c (if closed_ (session c) then [] else [p]) c'.

(** Traces, with the packets accepted on the way; between two steps of the
    session, other sessions may change the server. *)
Inductive steps : ctx -> list AnyPacket -> ctx -> Prop :=
| steps_refl c : steps c [] c
| steps_snoc c ps c' ps' c'' : steps c ps c' -> step c' ps' c'' -> steps c (ps ++ ps') c''
| steps_other c ps c' sv : steps c ps c' -> steps c ps (mkCtx (self c') (session c') sv).

(** ** The invariant *)

Definition frames (ps : list AnyPacket) : list Z := concat (map any_build_packet ps).

(** Bytes of the front of the queue already on the wire. *)
Definition in_flight (s : ClientSession) : nat :=
  match writes s with [w] => w_sent w | _ => 0%nat end.

(** What the peer has and will get: sent, queued, posted. *)
Definition stream (s : ClientSession) : list Z :=
  wire s ++ drop (in_flight s) (concat (write_queue_ s)) ++ frames (posted s).

Definition read_inv (s : ClientSession) : Prop :=
  if closed_ s then (length (reads s) <= 1)%nat /\ Forall (fun r => r_status r <> Pending) (reads s)
  else exists r, reads s = [r] /\ r_room r = get_remaining_space (read_buffer_ s) /\
         forall bytes, r_status r = Done bytes -> bytes_ok bytes /\ zlen bytes <= r_room r.

Definition write_inv (s : ClientSession) : Prop :=
  match writes s with
  | [] => closed_ s = false -> writing_ s = false /\ write_queue_ s = []
  | [w] =>
      writing_ s = true /\ (w_sent w <= length (w_data w))%nat /\
      (w_status w = Done tt -> w_sent w = length (w_data w)) /\
      if closed_ s then w_status w <> Pending
      else exists q, write_queue_ s = w_data w :: q
  | _ => False
  end.

Record core_inv (s : ClientSession) (sent : list AnyPacket) : Prop := {
  inv_srp : server_ok (srp_ (accountInfo_ s));
  inv_buffer : MessageBuffer.wf (read_buffer_ s);
  inv_socket : socket_open s = negb (closed_ s);
  inv_writes : write_inv s;
  inv_stream : if closed_ s then wire s `prefix_of` frames sent else stream s = frames sent }.

Definition session_inv (s : ClientSession) (sent : list AnyPacket) : Prop :=
  core_inv s sent /\ read_inv s.
End steps.

Section invariant.
Context {host : Host} {O : OpenSSL} {L : OpenSSLLaws O}.
Context `{PX : Pqxx World connection work row} {PL : PqxxLaws PX}.
Context (parse : list Z -> exn + Z).
Abbreviation ctx := (Ctx World connection).
Implicit Types (s : ClientSession) (c : ctx).

Lemma frames_app ps qs : frames (ps ++ qs) = frames ps ++ frames qs.
Proof. unfold frames. by rewrite map_app, concat_app. Qed.

(** The session [close] leaves. *)
Definition closed_session s : ClientSession :=
  set_write_queue [] (set_read_buffer (MessageBuffer.clear (read_buffer_ s)) (close_socket (set_closed true s))).

Lemma close_open c :
  closed_ (session c) = false ->
  close c = (Ok tt, mkCtx (self c) (closed_session (session c)) (remove_session (self c) (server c))).
Proof.
  intros E. unfold close. rewrite E. f_equal.
  destruct c as [i s sv]. simpl in *. by destruct (decide _); destruct s.
Qed.

Lemma close_closed c : closed_ (session c) = true -> close c = (Ok tt, c).
Proof. intros E. unfold close. by rewrite E. Qed.

Lemma abort_not_pending {A} (st : status A) : abort st <> Pending.
Proof. by destruct st. Qed.

Lemma core_inv_close s sent : closed_ s = false -> core_inv s sent -> core_inv (closed_session s) sent.
Proof.
  intros Hc [Hsrp Hb Hso Hw Hst]. rewrite Hc in Hst. constructor; simpl; auto.
  - apply clear_spec.
  - unfold write_inv in *. simpl. destruct (writes s) as [|w [|? ?]]; simpl; [done| |done].
    destruct Hw as (? & ? & Hd & _). split_and!; auto; [|apply abort_not_pending].
    intros E. apply Hd. by destruct (w_status w).
  - rewrite <- Hst. unfold stream. apply prefix_app_r. reflexivity.
Qed.

Lemma read_inv_close s : closed_ s = false -> (length (reads s) <= 1)%nat -> read_inv (closed_session s).
Proof.
  intros Hc Hl. unfold read_inv. simpl. rewrite length_map. split; [done|].
  apply Forall_map, Forall_true. intros r. apply abort_not_pending.
Qed.

(** Handlers only add to the end of the stream. *)
Lemma core_inv_handled s sent acc mode b ps :
  closed_ s = false -> core_inv s sent -> server_ok (srp_ acc) -> MessageBuffer.wf b ->
  core_inv (set_posted (posted s ++ ps) (set_accountInfo acc (set_mode mode (set_read_buffer b s)))) (sent ++ ps).
Proof.
  intros Hc [Hsrp Hb Hso Hw Hst] Hs Hwf. rewrite Hc in Hst. constructor; simpl; auto.
  rewrite Hc. unfold stream in *. simpl. rewrite !frames_app, <- Hst, <- !app_assoc. done.
Qed.

(** Starting a read. *)
Lemma do_read_inv c sent :
  closed_ (session c) = false -> core_inv (session c) sent -> reads (session c) = [] ->
  buffer_fits (session c) ->
  exists c', do_read c = (Ok tt, c') /\ session_inv (session c') sent /\ posted (session c') = posted (session c).
Proof.
  intros Hc [Hsrp Hb Hso Hw Hst] Hr Hfit. eexists. split; [done|]. split; [|done].
  destruct (ensure_free_space_spec (read_buffer_ (session c)) 512 Hb) as (Hwf & _); [lia|done|].
  split; [constructor; simpl; auto|].
  unfold read_inv. simpl. rewrite Hc, Hr, Hso. simpl. eexists. split; [done|]. split; [done|].
  by rewrite Hc.
Qed.

Lemma set_reads_core s l sent : core_inv s sent -> core_inv (set_reads l s) sent.
Proof. by intros []; constructor. Qed.

(** At most one write and one read are ever under way. *)
Lemma single_write s l1 w l2 :
  write_inv s -> writes s = l1 ++ w :: l2 -> l1 = [] /\ l2 = [] /\ writes s = [w].
Proof.
  unfold write_inv. intros Hw E. rewrite E in *.
  destruct l1 as [|? [|? ?]], l2 as [|? ?]; simpl in *; try done.
Qed.

Lemma single_read s l1 r l2 :
  read_inv s -> reads s = l1 ++ r :: l2 -> l1 = [] /\ l2 = [] /\ reads s = [r].
Proof.
  intros Hr E. assert (length (reads s) <= 1)%nat as Hl.
  { unfold read_inv in Hr. destruct (closed_ s); [by destruct Hr|]. destruct Hr as (? & -> & _). simpl. lia. }
  rewrite E in *. rewrite length_app in Hl. simpl in Hl.
  destruct l1, l2; simpl in *; try lia. done.
Qed.

Lemma read_inv_length s : read_inv s -> (length (reads s) <= 1)%nat.
Proof.
  unfold read_inv. destruct (closed_ s); [by intros []|]. intros (? & -> & _). simpl. lia.
Qed.

Lemma wire_prefix s sent : core_inv s sent -> wire s `prefix_of` frames sent.
Proof.
  intros [_ _ _ _ Hst]. destruct (closed_ s); [done|]. rewrite <- Hst. apply prefix_app_r. reflexivity.
Qed.

(** Closing, when a handler has already been taken off the write list. *)
Lemma core_inv_close_writes s sent :
  core_inv s sent -> core_inv (closed_session (set_writes [] s)) sent.
Proof.
  intros H. pose proof (wire_prefix _ _ H). destruct H as [Hsrp Hb Hso Hw Hst]. constructor; simpl; auto.
  - apply clear_spec.
  - done.
Qed.

(** Changing the progress of the one write. *)
Lemma core_inv_write_status s w st sent :
  core_inv s sent -> writes s = [w] -> st <> Pending -> (st = Done tt -> w_sent w = length (w_data w)) ->
  core_inv (set_writes [mkWrite (w_data w) (w_sent w) st] s) sent.
Proof.
  intros [Hsrp Hb Hso Hw Hst] E Hp Hd. constructor; simpl; auto.
  - unfold write_inv in *. rewrite E in Hw. simpl. destruct Hw as (? & ? & _ & Hq).
    split_and!; auto. by destruct (closed_ s).
  - unfold stream, in_flight in *. rewrite E in Hst. done.
Qed.

Lemma core_inv_sends s w n sent :
  core_inv s sent -> writes s = [w] -> w_status w = Pending -> (w_sent w + n <= length (w_data w))%nat ->
  core_inv (set_wire (wire s ++ take n (drop (w_sent w) (w_data w)))
    (set_writes [mkWrite (w_data w) (w_sent w + n) Pending] s)) sent.
Proof.
  intros [Hsrp Hb Hso Hw Hst] E Hp Hn. unfold write_inv in Hw. rewrite E in Hw.
  destruct Hw as (? & ? & _ & Hq). destruct (closed_ s) eqn:Hc; [done|]. destruct Hq as [q Hq].
  constructor; simpl; rewrite ?Hc; [done|done|done| |].
  - unfold write_inv. simpl. rewrite Hc. split_and!; [done|done|done|by exists q].
  - unfold stream, in_flight in *. simpl. rewrite E, Hq in Hst. rewrite Hq. simpl in *.
    rewrite <- Hst, <- app_assoc. f_equal. rewrite app_assoc. f_equal.
    rewrite !drop_app_le by lia. rewrite app_assoc. f_equal.
    rewrite <- drop_drop. apply take_drop.
Qed.

(** The write handler. *)
Lemma write_handler_inv c w result c' sent :
  session_inv (session c) sent -> writes (session c) = [w] -> finished (w_status w) = Some result ->
  on_write (error_of result) (on_session (set_writes []) c) = (Ok tt, c') ->
  session_inv (session c') sent.
Proof.
  intros [Hcore Hr] E Hf Hrun. destruct (closed_ (session c)) eqn:Hc.
  - (* already closed *)
    assert (forall q wr, closed_ (session c) = true -> (wr = [] \/ exists d, wr = [mkWrite d 0 (Failed bad_descriptor)]) ->
      session_inv (set_writes wr (set_writing (bool_decide (wr <> []) || writing_ (session c))
        (set_write_queue q (session c)))) sent) as Hgen.
    { intros q wr _ Hwr. destruct Hcore as [Hsrp Hb Hso Hw Hst]. split; [constructor; simpl; auto|].
      - unfold write_inv. simpl. destruct Hwr as [->|[d ->]]; [by rewrite Hc|].
        rewrite Hc. simpl. split_and!; try done; lia.
      - by rewrite Hc in Hst |- *.
      - done. }
    destruct result as [ec|[]]; simpl in Hrun.
    + rewrite close_closed in Hrun by done. injection Hrun as <-.
      pose proof (Hgen (write_queue_ (session c)) [] Hc (or_introl eq_refl)) as H.
      by destruct c as [? [] ?].
    + destruct (write_queue_ (session c)) as [|front rest]; [done|].
      unfold do_write in Hrun. simpl in Hrun. destruct rest as [|front' rest]; injection Hrun as <-; simpl.
      * destruct Hcore as [Hsrp Hb Hso Hw Hst]. split; [constructor; simpl; auto|done].
        -- unfold write_inv. simpl. by rewrite Hc.
        -- by rewrite Hc in Hst |- *.
      * assert (socket_open (session c) = false) as Hso by (rewrite (inv_socket _ _ Hcore), Hc; done).
        rewrite Hso. pose proof (Hgen (front' :: rest) [mkWrite front' 0 (Failed bad_descriptor)] Hc) as H.
        apply H. eauto.
  - (* open *)
    destruct result as [ec|[]]; simpl in Hrun.
    + rewrite close_open in Hrun by done. injection Hrun as <-. simpl. split; [by apply core_inv_close_writes|].
      apply read_inv_close; [done|]. by apply read_inv_length.
    + destruct Hcore as [Hsrp Hb Hso Hw Hst]. unfold write_inv in Hw. rewrite E, Hc in Hw.
      destruct Hw as (? & ? & Hd & q & Hq). rewrite Hc in Hst, Hso. rewrite Hq in Hrun. simpl in Hrun.
      assert (w_sent w = length (w_data w)) as Hsent by (destruct (w_status w) as [|[]|]; try done; auto).
      unfold stream, in_flight in Hst. rewrite E, Hq, Hsent in Hst. simpl in Hst. rewrite drop_app_length in Hst.
      unfold do_write in Hrun. simpl in Hrun. destruct q as [|front q]; injection Hrun as <-; simpl.
      * split; [|done]. by constructor; simpl; rewrite ?Hc.
      * rewrite Hso. simpl. split; [|done]. constructor; simpl; rewrite ?Hc; try done.
        unfold write_inv. simpl. rewrite Hc. split_and!; try done; [lia|by eexists].
Qed.

(** A posted closure. *)
Lemma posted_inv c p rest c' sent :
  session_inv (session c) sent -> posted (session c) = p :: rest ->
  do_send_packet p (on_session (set_posted rest) c) = (Ok tt, c') ->
  session_inv (session c') sent.
Proof.
  intros [[Hsrp Hb Hso Hw Hst] Hr] Hp. unfold do_send_packet. bind_step by reflexivity. bind_step by reflexivity.
  set (c1 := on_session _ _). assert (writing_ (session c1) = writing_ (session c)) as -> by done.
  destruct (writing_ (session c)) eqn:Ew; simpl.
  - intros [= <-]. split; [|done]. constructor; simpl; [done|done|done| |].
    + unfold write_inv in *. simpl. destruct (writes (session c)) as [|w [|? ?]]; [|destruct Hw as (? & ? & ? & Hq)|done].
      * intros Hc. destruct (Hw Hc). congruence.
      * split_and!; auto. destruct (closed_ (session c)); [done|]. destruct Hq as [q ->]. by eexists.
    + destruct (closed_ (session c)) eqn:Hc; [done|]. rewrite <- Hst. unfold stream, in_flight. simpl.
      rewrite Hp. unfold frames. simpl. rewrite concat_app. simpl. rewrite app_nil_r.
      unfold write_inv in Hw. rewrite Hc in Hw.
      destruct (writes (session c)) as [|w [|? ?]]; [destruct (Hw eq_refl); congruence|destruct Hw as (? & ? & _ & q & ->)|done].
      simpl. rewrite <- !app_assoc, !drop_app_le by lia. by rewrite <- !app_assoc.
  - assert (writes (session c) = []) as Ewr.
    { unfold write_inv in Hw. destruct (writes (session c)) as [|w [|? ?]]; [done| |done].
      destruct Hw as (? & _). congruence. }
    assert (exists front q, write_queue_ (session c) ++ [any_build_packet p] = front :: q) as (front & q & Eq).
    { destruct (write_queue_ (session c)); simpl; eauto. }
    unfold do_write. simpl. rewrite Eq. intros [= <-]. simpl. rewrite Eq, Hso, Ewr. simpl.
    split; [|done]. constructor; simpl; [done|done|done| |].
    + unfold write_inv. simpl. split_and!; try done; [lia|by destruct (closed_ (session c))|].
      destruct (closed_ (session c)); simpl; eauto.
    + destruct (closed_ (session c)) eqn:Hc; [done|]. rewrite <- Hst. unfold stream, in_flight. simpl.
      rewrite Hp, Ewr. unfold frames. simpl. unfold write_inv in Hw. rewrite Ewr in Hw. destruct (Hw Hc) as [_ Hq].
      rewrite Hq in Eq |- *. simpl in Eq. injection Eq as <- <-. simpl. by rewrite app_nil_r.
Qed.

Lemma on_read_closed env result c :
  closed_ (session c) = true -> on_read parse env result c = (Ok tt, c).
Proof.
  intros Hc. destruct result; simpl; [by apply close_closed|]. unfold isOpened. by rewrite Hc.
Qed.

(** The read handler. *)
Lemma read_handler_inv c r result env c' ps sent :
  session_inv (session c) sent -> reads (session c) = [r] -> finished (r_status r) = Some result ->
  env_ok env -> buffer_fits (session c) ->
  on_read parse env result (on_session (set_reads []) c) = (Ok tt, c') ->
  posted (session c') = posted (session c) ++ ps ->
  session_inv (session c') (sent ++ ps).
Proof.
  intros [Hcore Hr] E Hf He Hfit Hrun Hps.
  assert (core_inv (session (on_session (set_reads []) c)) sent) as Hcore0 by (by apply set_reads_core).
  set (c0 := on_session (set_reads []) c) in *.
  assert (closed_ (session c0) = closed_ (session c)) as Ec by done.
  assert (forall s, posted s = posted (session c) -> session c' = s -> session_inv s sent ->
    session_inv (session c') (sent ++ ps)) as Hsame.
  { intros s Hp Es Hs. rewrite Es, Hp in Hps. rewrite Es. rewrite <- (app_nil_r (posted (session c))) in Hps at 1.
    apply app_inv_head in Hps as <-. by rewrite app_nil_r. }
  destruct (closed_ (session c)) eqn:Hc.
  - assert (c' = c0) as ->.
    { rewrite on_read_closed in Hrun by done. congruence. }
    apply (Hsame (session c0)); [done|done|]. split; [done|]. unfold read_inv. rewrite Ec. split; [simpl; lia|done].
  - destruct result as [ec|bytes].
    + simpl in Hrun. rewrite close_open in Hrun by done. injection Hrun as <-.
      eapply Hsame; [|done|]; [done|]. split; [by apply core_inv_close|apply read_inv_close; [done|simpl; lia]].
    + unfold read_inv in Hr. rewrite Hc in Hr. destruct Hr as (r' & Er & Hroom & Hd).
      rewrite E in Er. injection Er as <-.
      assert (r_status r = Done bytes) as Est by (destruct (r_status r); simpl in Hf; congruence).
      destruct (Hd bytes Est) as [Hb Hlen]. rewrite Hroom in Hlen.
      destruct (on_read_effect parse env bytes c0) as (b' & ps' & c1 & Hw' & _ & Hst & Hh & Hend);
        [done|apply Hcore0|done|apply Hcore|done|done|].
      destruct Hh as (_ & acc & mode & Hses & Hsrp).
      assert (core_inv (session c1) (sent ++ ps')) as Hcore1.
      { rewrite Hses. by apply (core_inv_handled (session c0)). }
      assert (closed_ (session c1) = false) as Hc1 by (rewrite Hses; done).
      assert (posted (session c1) = posted (session c) ++ ps') as Hp1 by (rewrite Hses; done).
      assert (forall s, posted s = posted (session c1) -> session c' = s -> session_inv s (sent ++ ps') ->
        session_inv (session c') (sent ++ ps)) as Hdone.
      { intros s Hp Es Hs. rewrite Es, Hp, Hp1 in Hps. rewrite Es. by apply app_inv_head in Hps as <-. }
      destruct Hend as [Hend|(c2 & Hcl & Hend)]; rewrite Hend in Hrun.
      * destruct (do_read_inv c1 (sent ++ ps')) as (c3 & Er & Hinv & Hp3); [done|done|by rewrite Hses| |].
        { unfold buffer_fits in *. rewrite Hses. simpl. by rewrite Hst. }
        rewrite Er in Hrun. injection Hrun as <-. by apply (Hdone (session c3)).
      * injection Hrun as <-. rewrite close_open in Hcl by done. injection Hcl as <-.
        eapply Hdone; [|done|]; [done|]. split; [by apply core_inv_close|].
        apply read_inv_close; [done|]. rewrite Hses. simpl. lia.
Qed.

Lemma step_inv c ps c' sent :
  session_inv (session c) sent -> step parse c ps c' -> session_inv (session c') (sent ++ ps).
Proof.
  intros Hinv Hstep. destruct Hinv as [Hcore Hr].
  destruct Hstep as [c c' Hos|j c ps c' Hj|c p c' Hrun];
    [destruct Hos as [c l1 w l2 n E Hp Hn Hle|c l1 w l2 E Hp Hl|c l1 w l2 ec E Hp|c l1 r l2 bytes E Hp Hb Hlen|c l1 r l2 ec E Hp]
    |destruct Hj as [c l1 r l2 result env c' ps E Hf He Hfit Hrun Hps|c l1 w l2 result c' E Hf Hrun|c p rest c' Hp Hrun|c c' Hrun]|];
    rewrite ?app_nil_r.
  - destruct (single_write _ _ _ _ (inv_writes _ _ Hcore) E) as (-> & -> & Es).
    split; [by apply core_inv_sends|done].
  - destruct (single_write _ _ _ _ (inv_writes _ _ Hcore) E) as (-> & -> & Es).
    split; [by apply core_inv_write_status|done].
  - destruct (single_write _ _ _ _ (inv_writes _ _ Hcore) E) as (-> & -> & Es).
    split; [by apply core_inv_write_status|done].
  - destruct (single_read _ _ _ _ Hr E) as (-> & -> & Es). split; [by apply set_reads_core|].
    unfold read_inv in *. simpl. rewrite Es in Hr. destruct (closed_ (session c)).
    + destruct Hr as [_ Hr]. by apply Forall_cons in Hr as [? _].
    + destruct Hr as (r' & [= <-] & Hroom & _). eexists. split; [done|]. split; [done|].
      simpl. intros ? [= <-]. split; [done|lia].
  - destruct (single_read _ _ _ _ Hr E) as (-> & -> & Es). split; [by apply set_reads_core|].
    unfold read_inv in *. simpl. rewrite Es in Hr. destruct (closed_ (session c)).
    + destruct Hr as [_ Hr]. by apply Forall_cons in Hr as [? _].
    + destruct Hr as (r' & [= <-] & Hroom & _). eexists. split; [done|]. by split.
  - destruct (single_read _ _ _ _ Hr E) as (-> & -> & Es). by eapply read_handler_inv.
  - destruct (single_write _ _ _ _ (inv_writes _ _ Hcore) E) as (-> & -> & Es). by eapply write_handler_inv.
  - by eapply posted_inv.
  - destruct (closed_ (session c)) eqn:Hc.
    + rewrite close_closed in Hrun by done. injection Hrun as <-. by split.
    + rewrite close_open in Hrun by done. injection Hrun as <-.
      split; [by apply core_inv_close|apply read_inv_close; [done|by apply read_inv_length]].
  - unfold send_packet in Hrun. destruct (closed_ (session c)) eqn:Hc; injection Hrun as <-.
    + rewrite app_nil_r. by split.
    + split; [|done].
      pose proof (core_inv_handled _ _ (accountInfo_ (session c)) (session_mode_ (session c))
        (read_buffer_ (session c)) [p] Hc Hcore (inv_srp _ _ Hcore) (inv_buffer _ _ Hcore)) as H.
      by destruct c as [? [] ?].
Qed.

Lemma steps_inv c ps c' sent :
  session_inv (session c) sent -> steps parse c ps c' -> session_inv (session c') (sent ++ ps).
Proof.
  intros Hinv. induction 1 as [c|c ps c' ps' c'' Hs IH Hstep|c ps c' sv Hs IH]; [by rewrite app_nil_r| |by apply IH].
  rewrite app_assoc. eapply step_inv; eauto.
Qed.

(** What a step does to the server's registry of sessions: the session removes
    itself exactly when it closes. *)
Definition registered c c' : Prop :=
  self c' = self c /\
  if decide (closed_ (session c') = closed_ (session c))
  then sessions_ (server c') = sessions_ (server c)
  else closed_ (session c) = false /\ closed_ (session c') = true /\
       sessions_ (server c') = sessions_ (server c) ∖ {[self c]}.

Lemma registered_same c c' :
  self c' = self c -> closed_ (session c') = closed_ (session c) ->
  sessions_ (server c') = sessions_ (server c) -> registered c c'.
Proof. intros. split; [done|]. by rewrite decide_True. Qed.

Lemma close_registered c c' : close c = (Ok tt, c') -> registered c c'.
Proof.
  intros E. destruct (closed_ (session c)) eqn:Hc.
  - rewrite close_closed in E by done. injection E as <-. by apply registered_same.
  - rewrite close_open in E by done. injection E as <-. split; [done|].
    rewrite decide_False by (simpl; congruence). done.
Qed.

Lemma registered_pre c0 c c' :
  self c0 = self c -> closed_ (session c0) = closed_ (session c) ->
  sessions_ (server c0) = sessions_ (server c) -> registered c0 c' -> registered c c'.
Proof. unfold registered. by intros -> -> ->. Qed.

Lemma do_write_registered c c' : do_write c = (Ok tt, c') -> registered c c'.
Proof. unfold do_write. destruct (write_queue_ _); intros [= <-]; by apply registered_same. Qed.

Lemma step_registered c ps c' sent :
  session_inv (session c) sent -> step parse c ps c' -> registered c c'.
Proof.
  intros Hinv Hstep. pose proof Hinv as [Hcore Hr].
  destruct Hstep as [c c' Hos|j c ps c' Hj|c p c' Hrun];
    [destruct Hos; by apply registered_same
    |destruct Hj as [c l1 r l2 result env c' ps E Hf He Hfit Hrun Hps|c l1 w l2 result c' E Hf Hrun|c p rest c' Hp Hrun|c c' Hrun]|].
  - destruct (single_read _ _ _ _ Hr E) as (-> & -> & Es).
    change ([] ++ []) with (@nil read_op) in Hrun.
    apply (registered_pre (on_session (set_reads []) c)); [done..|]. set (c0 := on_session (set_reads []) c) in *.
    destruct (closed_ (session c)) eqn:Hc.
    { rewrite on_read_closed in Hrun by done. injection Hrun as <-. by apply registered_same. }
    destruct result as [ec|bytes]; [by apply close_registered|].
    unfold read_inv in Hr. rewrite Hc in Hr. destruct Hr as (r' & Er & Hroom & Hd).
    rewrite E in Er. injection Er as <-.
    assert (r_status r = Done bytes) as Est by (destruct (r_status r); simpl in Hf; congruence).
    destruct (Hd bytes Est) as [Hb Hlen]. rewrite Hroom in Hlen.
    destruct (on_read_effect parse env bytes c0) as (b' & ps' & c1 & _ & _ & _ & Hh & Hend);
      [done|apply Hcore|done|apply Hcore|done|done|].
    destruct Hh as ((Hself & Hreg) & acc & mode & Hses & _).
    apply (registered_pre c1); [done|by rewrite Hses|done|].
    destruct Hend as [Hend|(c2 & Hcl & Hend)]; rewrite Hend in Hrun; injection Hrun as <-.
    + by apply registered_same.
    + by apply close_registered.
  - apply (registered_pre (on_session (set_writes (l1 ++ l2)) c)); [done..|].
    destruct result as [ec|[]]; simpl in Hrun; [by apply close_registered|].
    destruct (write_queue_ (session c)) as [|front q]; [done|].
    apply do_write_registered in Hrun. by eapply registered_pre; [..|exact Hrun].
  - apply (registered_pre (on_session (set_posted rest) c)); [done..|].
    unfold do_send_packet, bind, modify, gets in Hrun. destruct (negb _) in Hrun.
    + apply do_write_registered in Hrun. by eapply registered_pre; [..|exact Hrun].
    + injection Hrun as <-. by apply registered_same.
  - by apply close_registered.
  - unfold send_packet in Hrun. destruct (closed_ (session c)) eqn:Hc; injection Hrun as <-; by apply registered_same.
Qed.

(** A new session, after [start]. *)
Lemma started_inv i sv c :
  start (Ok tt) (mkCtx i ClientSession_new sv) = (Ok tt, c) -> session_inv (session c) [].
Proof.
  intros Hs.
  change (do_read (on_session (set_session_mode AUTH_SESSION) (mkCtx i ClientSession_new sv)) = (Ok tt, c)) in Hs.
  destruct (do_read_inv (on_session (set_session_mode AUTH_SESSION) (mkCtx i ClientSession_new sv)) [])
    as (c' & E & Hinv & _); [done| |done| |].
  - destruct (MessageBuffer_new_spec 4096) as [? ?]; [unfold max_storage; lia|].
    constructor; [apply SRP6_new_server_ok|done|done|done|done].
  - vm_compute. reflexivity.
  - rewrite E in Hs. by injection Hs as <-.
Qed.
End invariant.

(** ** Properties *)
Lemma announced_range mode bytes n : bytes_ok bytes -> announced mode bytes = Some n -> 0 <= n < 2 ^ 16.
Proof.
  intros Hok E.
  destruct mode, bytes as [|b0 [|b1 [|b2 [|b3 bytes]]]]; cbn [announced] in E; try done; injection E as <-.
  all: rewrite !Forall_cons in Hok; apply (of_be_bytes_range [_; _]); rewrite !Forall_cons;
    split_and!; [tauto|tauto|constructor].
Qed.

Section properties.
Context {host : Host} {O : OpenSSL} {L : OpenSSLLaws O}.
Context `{PX : Pqxx World connection work row} {PL : PqxxLaws PX}.
Context (parse : list Z -> exn + Z).
Implicit Types c : Ctx World connection.

Lemma started_steps_inv i sv c0 ps c :
  start (Ok tt) (mkCtx i ClientSession_new sv) = (Ok tt, c0) -> steps parse c0 ps c ->
  session_inv (session c) ps.
Proof. intros Hs Ht. apply (steps_inv parse c0 ps c []); [by eapply started_inv|done]. Qed.

(** The write handler fails only on an empty queue. *)
Lemma write_handler_ok c w result :
  write_queue_ (session c) <> [] \/ error_of result <> None ->
  writes (session c) = [w] -> exists c', on_write (error_of (A := unit) result) (on_session (set_writes []) c) = (Ok tt, c').
Proof.
  intros Hq Hw. destruct result as [ec|[]]; simpl in *.
  - destruct (close_ok (on_session (set_writes []) c)) as (c' & E & _). eauto.
  - destruct (write_queue_ (session c)) as [|front rest]; [by destruct Hq|].
    unfold do_write. simpl. destruct rest; eauto.
Qed.

Lemma do_send_packet_ok p c : exists c', do_send_packet p c = (Ok tt, c').
Proof.
  unfold do_send_packet. bind_step by reflexivity. bind_step by reflexivity.
  destruct (negb _); [|eauto]. unfold do_write. destruct (write_queue_ _); eauto.
Qed.

Lemma on_read_ok env result c r sent :
  session_inv (session c) sent -> reads (session c) = [r] -> finished (r_status r) = Some result ->
  env_ok env -> buffer_fits (session c) ->
  exists c', on_read parse env result (on_session (set_reads []) c) = (Ok tt, c').
Proof.
  intros [Hcore Hr] E Hf He Hfit. set (c0 := on_session (set_reads []) c).
  destruct (closed_ (session c)) eqn:Hc.
  - exists c0. by apply on_read_closed.
  - destruct result as [ec|bytes].
    { destruct (close_ok c0) as (c' & Ec & _). eauto. }
    unfold read_inv in Hr. rewrite Hc in Hr. destruct Hr as (r' & Er & Hroom & Hd).
    rewrite E in Er. injection Er as <-.
    assert (r_status r = Done bytes) as Est by (destruct (r_status r); simpl in Hf; congruence).
    destruct (Hd bytes Est) as [Hb Hlen]. rewrite Hroom in Hlen.
    destruct (on_read_effect parse env bytes c0) as (b' & ps' & c1 & _ & _ & _ & _ & Hend);
      [done|apply Hcore|done|apply Hcore|done|done|].
    destruct Hend as [->|(c2 & _ & ->)]; eauto.
Qed.
End properties.

(** The write path is a FIFO. *)
Lemma steps_write_fifo {h : Host} {O : OpenSSL} {L : OpenSSLLaws O}
    `{PX : Pqxx World connection work row} {PL : PqxxLaws PX} (parse : list Z -> exn + Z)
    (i : nat) (sv : Server World connection) (c0 c : Ctx World connection) (ps : list AnyPacket) :
  start (Ok tt) (mkCtx i ClientSession_new sv) = (Ok tt, c0) ->
  steps parse c0 ps c ->
  wire (session c) `prefix_of` frames ps /\
  (length (writes (session c)) <= 1)%nat /\ (length (reads (session c)) <= 1)%nat /\
  (closed_ (session c) = false -> stream (session c) = frames ps).
Proof.
  intros Hs Ht. pose proof (started_steps_inv parse i sv c0 ps c Hs Ht) as [Hcore Hr]. split_and!.
  - by apply wire_prefix.
  - pose proof (inv_writes _ _ Hcore) as Hw. unfold write_inv in Hw.
    destruct (writes (session c)) as [|w [|? ?]]; simpl; [lia|lia|done].
  - by apply read_inv_length.
  - intros Hc. pose proof (inv_stream _ _ Hcore) as Hst. by rewrite Hc in Hst.
Qed.

(** A pong, sent and taken by the socket. *)
Definition demo_pong : AnyPacket := PAuth (mkAuthPacket SMSG_PONG (ByteBuffer_of [1; 2; 3; 4])).

Definition demo_started : Ctx Demo.World nat :=
  (start (Ok tt) (mkCtx 0 (ClientSession_new (O := reference)) (server demo_ctx))).2.

Definition demo_written : Ctx Demo.World nat :=
  on_session (fun s => set_wire [2; 0; 4; 1; 2; 3; 4]
    (set_writes [mkWrite [2; 0; 4; 1; 2; 3; 4] 7 (Done tt)]
      (set_writing true (set_write_queue [[2; 0; 4; 1; 2; 3; 4]] s)))) demo_started.

Lemma step_eq `{PX : Pqxx World connection work row} {host : Host} {O : OpenSSL} parse
    (c : Ctx World connection) ps c1 c2 : step parse c ps c1 -> c1 = c2 -> step parse c ps c2.
Proof. by intros ? <-. Qed.

Lemma demo_trace :
  steps (host := little) (O := reference) (PX := Demo.demo_pqxx) (fun _ => inr 0) demo_started [demo_pong] demo_written.
Proof.
  change [demo_pong] with ((((([] ++ [demo_pong]) ++ []) ++ []) ++ []) : list AnyPacket).
  eapply steps_snoc; [eapply steps_snoc; [eapply steps_snoc; [eapply steps_snoc; [apply steps_refl|]|]|]|].
  - apply (call_send_packet _ demo_started demo_pong). reflexivity.
  - eapply by_job, run_posted; reflexivity.
  - apply by_system, (os_sends _ [] (mkWrite [2; 0; 4; 1; 2; 3; 4] 0 Pending) [] 7); try reflexivity; simpl; lia.
  - eapply step_eq; [apply by_system, (os_write_done _ [] (mkWrite [2; 0; 4; 1; 2; 3; 4] 7 Pending) []); reflexivity|].
    reflexivity.
Qed.

(** In every reachable state every handler that can run returns normally, but for the handler of a write
    that succeeded when the queue was emptied meanwhile. *)
Lemma steps_handlers_safe {h : Host} {O : OpenSSL} {L : OpenSSLLaws O}
    `{PX : Pqxx World connection work row} {PL : PqxxLaws PX} (parse : list Z -> exn + Z)
    (i : nat) (sv : Server World connection) (c0 c : Ctx World connection) (ps : list AnyPacket) :
  start (Ok tt) (mkCtx i ClientSession_new sv) = (Ok tt, c0) ->
  steps parse c0 ps c ->
  (forall l1 r l2 result env,
     reads (session c) = l1 ++ r :: l2 -> finished (r_status r) = Some result ->
     env_ok env -> buffer_fits (session c) ->
     exists c', on_read parse env result (on_session (set_reads (l1 ++ l2)) c) = (Ok tt, c')) /\
  (forall p rest, posted (session c) = p :: rest ->
     exists c', do_send_packet p (on_session (set_posted rest) c) = (Ok tt, c')) /\
  (forall l1 w l2 result,
     writes (session c) = l1 ++ w :: l2 -> finished (w_status w) = Some result ->
     closed_ (session c) = false \/ write_queue_ (session c) <> [] \/ error_of result <> None ->
     exists c', on_write (error_of result) (on_session (set_writes (l1 ++ l2)) c) = (Ok tt, c')).
Proof.
  intros Hs Ht. pose proof (started_steps_inv parse i sv c0 ps c Hs Ht) as Hinv.
  destruct Hinv as [Hcore Hr] eqn:EI. split_and!.
  - intros l1 r l2 result env E Hf He Hfit. destruct (single_read _ _ _ _ Hr E) as (-> & -> & Es).
    by eapply on_read_ok.
  - intros p rest _. apply do_send_packet_ok.
  - intros l1 w l2 result E Hf Hq.
    pose proof (inv_writes _ _ Hcore) as Hw. destruct (single_write _ _ _ _ Hw E) as (-> & -> & Es).
    apply (write_handler_ok c w); [|done]. destruct Hq as [Hc|Hq]; [|done].
    unfold write_inv in Hw. rewrite Es, Hc in Hw. destruct Hw as (_ & _ & _ & q & ->). by left.
Qed.

(** That exception happens: a session whose write has just succeeded can be
    closed before the write handler runs; [close] empties the queue, the
    handler does not look at [closed_] and pops the front of an empty deque. *)
Theorem write_handler_pops_empty_queue :
  exists c, steps (host := little) (O := reference) (PX := Demo.demo_pqxx) (fun _ => inr 0)
      demo_started [demo_pong] c /\
    closed_ (session c) = true /\ write_queue_ (session c) = [] /\
    (exists w, writes (session c) = [w] /\ w_status w = Done tt) /\
    (on_write (error_of (inr tt)) (on_session (set_writes []) c)).1 = Undef.
Proof.
  exists (close demo_written).2. split_and!; try reflexivity.
  - change [demo_pong] with ([demo_pong] ++ []).
    eapply steps_snoc; [exact demo_trace|]. apply by_job with close_call, run_close. reflexivity.
  - eexists. split; reflexivity.
Qed.

(** The reader of the current stage, as a function of the unread bytes. *)
Lemma process_framing {h : Host} {O : OpenSSL} {L : OpenSSLLaws O}
    `{PX : Pqxx World connection work row} {PL : PqxxLaws PX} (parse : list Z -> exn + Z)
    (env : Env) (c : Ctx World connection) :
  closed_ (session c) = false -> server_ok (srp_of c) -> env_ok env ->
  MessageBuffer.wf (read_buffer_ (session c)) ->
  let bytes := active (read_buffer_ (session c)) in
  let mode := session_mode_ (session c) in
  match next_frame mode bytes with
  | Incomplete => process_read_buffer parse env c = (Ok tt, c)
  | Oversize => process_read_buffer parse env c = close c
  | Frame payload rest =>
      (exists header, bytes = header ++ payload ++ rest /\ zlen header = header_size mode) /\
      exists b' c1 ps, MessageBuffer.wf b' /\ active b' = rest /\ zlen (_storage b') = zlen (_storage (read_buffer_ (session c))) /\
        (handle_frame parse env mode bytes payload (put_buffer b' c)).2 = c1 /\ (length ps <= 1)%nat /\ handled ps (put_buffer b' c) c1 /\
        process_read_buffer parse env c = if short_ping mode bytes payload then close c1 else (Ok tt, c1)
  end.
Proof.
  intros Hc Hs He Hw bytes mode.
  assert (Hframe : forall payload rest, bytes_ok payload -> zlen payload <= 2048 ->
    (exists b', MessageBuffer.wf b' /\ active b' = rest /\ zlen (_storage b') = zlen (_storage (read_buffer_ (session c))) /\
       process_read_buffer parse env c = try_catch (handle_frame parse env mode bytes payload) (fun _ => close) (put_buffer b' c)) ->
    exists b' c1 ps, MessageBuffer.wf b' /\ active b' = rest /\ zlen (_storage b') = zlen (_storage (read_buffer_ (session c))) /\
      (handle_frame parse env mode bytes payload (put_buffer b' c)).2 = c1 /\ (length ps <= 1)%nat /\ handled ps (put_buffer b' c) c1 /\
      process_read_buffer parse env c = if short_ping mode bytes payload then close c1 else (Ok tt, c1)).
  { intros payload rest Hp Hl (b' & Hw' & Ha & Hst & ->). destruct (handle_frame_effect parse env mode bytes payload (put_buffer b' c)) as (ps & Hps & Hh & _); [done..|].
    pose proof (handle_frame_outcome parse env mode bytes payload (put_buffer b' c) Hc Hs He Hp Hl) as Ho. eexists b', _, ps. split_and!; [done..|].
    unfold try_catch. destruct (handle_frame parse env mode bytes payload (put_buffer b' c)) as [o c1]. simpl in Ho. subst o. by destruct (short_ping _ _ _). }
  assert (Hsplit : forall n, (zlen bytes <? header_size mode + n) = false -> 0 <= n -> exists header,
    bytes = header ++ slice (header_size mode) n bytes ++ drop (Z.to_nat (header_size mode + n)) bytes /\ zlen header = header_size mode).
  { intros n Hlt Hn. apply Z.ltb_ge in Hlt. exists (take (Z.to_nat (header_size mode)) bytes).
    assert (0 <= header_size mode) by (destruct mode; simpl; lia). split; [|zlia].
    unfold slice. rewrite Z2Nat.inj_add by lia. rewrite <- drop_drop, take_drop. by rewrite take_drop. }
  assert (Hspec : match next_frame mode bytes with
    | Incomplete => process_read_buffer parse env c = (Ok tt, c)
    | Oversize => process_read_buffer parse env c = close c
    | Frame payload rest => bytes_ok payload /\ zlen payload <= 2048 /\ exists b', MessageBuffer.wf b' /\ active b' = rest /\
        zlen (_storage b') = zlen (_storage (read_buffer_ (session c))) /\
        process_read_buffer parse env c = try_catch (handle_frame parse env mode bytes payload) (fun _ => close) (put_buffer b' c)
    end).
  { unfold process_read_buffer, handle_frame. fold mode. destruct mode; [apply (auth_reader_spec parse env c Hw)|apply (work_reader_spec c Hw)]. }
  revert Hspec. unfold next_frame. destruct (announced mode bytes) as [n|] eqn:En; [|done]. destruct (zlen bytes <? _) eqn:El; [done|].
  destruct (2048 <? n); [done|]. intros (Hp & Hl & Hb). split; [|by apply Hframe]. apply Hsplit; [done|].
  apply (announced_range mode bytes n); [by apply active_ok|done].
Qed.

(** C9: framing: when bytes arrive on an open session, the reader of the current
    stage takes exactly one complete frame off the unread bytes, hands it to the
    handlers of the stage, which post at most one packet for it, leaves the
    rest in the buffer and starts the next read with the session open; the
    session is closed after a frame only when that is a ping with fewer than four
    bytes, for which the handler throws.  An incomplete frame is left for later;
    a frame with more than 2048 payload bytes closes the session, but
    only once it has arrived in full.  The handler never throws. *)
Theorem on_read_one_packet (h : Host) (O : OpenSSL) (L : OpenSSLLaws O)
    `{PX : Pqxx World connection work row} (PL : PqxxLaws PX) (parse : list Z -> exn + Z)
    (env : Env) (bytes : list Z) (c : Ctx World connection) :
  closed_ (session c) = false -> server_ok (srp_of c) -> env_ok env ->
  MessageBuffer.wf (read_buffer_ (session c)) -> buffer_fits (session c) ->
  bytes_ok bytes -> zlen bytes <= get_remaining_space (read_buffer_ (session c)) ->
  let unread := active (read_buffer_ (session c)) ++ bytes in
  let mode := session_mode_ (session c) in
  exists c', on_read parse env (inr bytes) c = (Ok tt, c') /\
    match next_frame mode unread with
    | Incomplete =>
        closed_ (session c') = false /\ active (read_buffer_ (session c')) = unread /\
        posted (session c') = posted (session c)
    | Oversize => closed_ (session c') = true
    | Frame payload rest =>
        (exists header, unread = header ++ payload ++ rest /\ zlen header = header_size mode) /\
        exists b' c1 ps, active b' = rest /\ (handle_frame parse env mode unread payload (put_buffer b' c)).2 = c1 /\
          posted (session c1) = posted (session c) ++ ps /\ (length ps <= 1)%nat /\
          if short_ping mode unread payload then close c1 = (Ok tt, c') /\ closed_ (session c') = true
          else do_read c1 = (Ok tt, c') /\ closed_ (session c') = false /\ active (read_buffer_ (session c')) = rest /\
               posted (session c') = posted (session c1)
    end.
Proof.
  intros Hc Hs He Hw Hfit Hb Hroom unread mode.
  destruct (bq_feed_law (ByteQueue := MessageBuffer_queue) bytes (read_buffer_ (session c)) Hw Hb Hroom)
    as (b0 & Ef & Hw0 & Ha0 & Hst0).
  simpl in Ha0, Hst0. fold unread in Ha0. set (c0 := put_buffer b0 c).
  pose proof (process_framing parse env c0 Hc Hs He Hw0) as H. cbv zeta in H.
  change (read_buffer_ (session c0)) with b0 in H. rewrite Ha0 in H. change (session_mode_ (session c0)) with mode in H.
  assert (Erun : forall c1, process_read_buffer parse env c0 = (Ok tt, c1) -> on_read parse env (inr bytes) c =
    (if isOpened (session c1) then do_read c1 else (Ok tt, c1))).
  { intros c1 E1. unfold on_read, isOpened. rewrite Hc. cbn [negb]. bind_step by (apply with_buffer_ok, Ef).
    bind_step by exact E1. bind_step by reflexivity. by destruct (closed_ (session c1)). }
  assert (Hread : forall c1 : Ctx World connection, MessageBuffer.wf (read_buffer_ (session c1)) -> zlen (_storage (read_buffer_ (session c1))) = zlen (_storage b0) ->
    exists c', do_read c1 = (Ok tt, c') /\ closed_ (session c') = closed_ (session c1) /\ active (read_buffer_ (session c')) = active (read_buffer_ (session c1)) /\
      posted (session c') = posted (session c1)).
  { intros c1 Hw1 Hst1. destruct (ensure_free_space_spec (read_buffer_ (session c1)) 512 Hw1) as (_ & Hact & _); [lia| |].
    { rewrite Hst1, Hst0. exact Hfit. }
    eexists. split; [done|]. simpl. by rewrite Hact. }
  destruct (next_frame mode unread) as [| |payload rest].
  - destruct (Hread c0 Hw0 eq_refl) as (c' & Er & Hcl & Ha & Hp). exists c'. rewrite (Erun _ H). unfold isOpened. change (closed_ (session c0)) with (closed_ (session c)).
    rewrite Hc. cbn [negb]. split; [done|]. rewrite Hcl, Ha, Hp. simpl. by rewrite Hc, Ha0.
  - destruct (close_ok c0) as (c1 & E1 & Hcl). rewrite E1 in H. exists c1. rewrite (Erun _ H). unfold isOpened. by rewrite Hcl.
  - destruct H as (Hh & b' & c1 & ps & Hw' & Ha & Hst & Ec1 & Hl & Hd & E). pose proof Hd as (_ & acc & md & Hses & _).
    assert (Hc1 : closed_ (session c1) = false) by (rewrite Hses; exact Hc). assert (Hb1 : read_buffer_ (session c1) = b') by (by rewrite Hses).
    assert (Hp1 : posted (session c1) = posted (session c) ++ ps) by (by rewrite Hses).
    destruct (short_ping mode unread payload) eqn:Esp.
    + destruct (close_ok c1) as (c2 & E2 & Hcl). rewrite E2 in E. exists c2. rewrite (Erun _ E). unfold isOpened. rewrite Hcl. cbn [negb]. split; [done|].
      split; [exact Hh|]. exists b', c1, ps. split_and!; done.
    + destruct (Hread c1) as (c2 & Er & Hcl & Ha2 & Hp2); [by rewrite Hb1|by rewrite Hb1, Hst|]. exists c2. rewrite (Erun _ E). unfold isOpened. rewrite Hc1. cbn [negb].
      split; [done|]. split; [exact Hh|]. exists b', c1, ps. rewrite Hcl, Ha2, Hb1. split_and!; done.
Qed.

(** A ping frame of the authentication stage. *)
Definition demo_ping (id : Z) : list Z := [1; 0; 4; id; 0; 0; 0].

Definition demo_idle : Ctx Demo.World nat := on_session (set_reads []) demo_started.

Lemma demo_idle_ok :
  closed_ (session demo_idle) = false /\ server_ok (O := reference) (srp_of demo_idle) /\ env_ok demo_env /\
  MessageBuffer.wf (read_buffer_ (session demo_idle)) /\ buffer_fits (session demo_idle).
Proof.
  assert (session_inv (host := little) (O := reference) (session demo_started) []) as [Hcore _]
    by (apply (started_inv (O := reference) 0 (server demo_ctx) demo_started); reflexivity).
  split; [reflexivity|]. split; [apply Hcore|]. split; [|split; [apply Hcore|vm_compute; reflexivity]].
  split; [repeat constructor; unfold byte_ok; lia|reflexivity].
Qed.

Lemma on_read_one_packet_witness :
  exists c', on_read (host := little) (O := reference) (PX := Demo.demo_pqxx) (fun _ => inr 0) demo_env
      (inr (demo_ping 7 ++ demo_ping 8)) demo_idle = (Ok tt, c') /\
    closed_ (session c') = false /\ active (read_buffer_ (session c')) = demo_ping 8.
Proof.
  destruct demo_idle_ok as (H1 & H2 & H3 & H4 & H5).
  destruct (on_read_one_packet little reference reference_laws Demo.demo_laws (fun _ => inr 0) demo_env
    (demo_ping 7 ++ demo_ping 8) demo_idle H1 H2 H3 H4 H5) as (c' & E & H).
  - repeat constructor; unfold byte_ok; lia.
  - vm_compute. discriminate.
  - exists c'. split; [exact E|].
    change (next_frame _ _) with (Frame [7; 0; 0; 0] (demo_ping 8)) in H.
    destruct H as [_ (b' & c1 & ps & _ & _ & _ & _ & H)].
    assert (Es : short_ping (session_mode_ (session demo_idle)) (active (read_buffer_ (session demo_idle)) ++ demo_ping 7 ++ demo_ping 8) [7; 0; 0; 0]
      = false) by (vm_compute; reflexivity).
    rewrite Es in H. destruct H as (_ & H6 & H7 & _). split; [exact H6|exact H7].
Defined.

(** Two packets that arrive in one segment: the first is answered, the
    second, complete, stays in the buffer unanswered while the session waits
    for the peer to send more bytes. *)
Theorem second_packet_stalls :
  exists c', on_read (host := little) (O := reference) (PX := Demo.demo_pqxx) (fun _ => inr 0) demo_env
      (inr (demo_ping 7 ++ demo_ping 8)) demo_idle = (Ok tt, c') /\
    posted (session c') = [PAuth (mkAuthPacket SMSG_PONG (ByteBuffer_of [7; 0; 0; 0]))] /\
    next_frame (session_mode_ (session c')) (active (read_buffer_ (session c'))) = Frame [8; 0; 0; 0] [] /\
    exists room, reads (session c') = [mkRead room Pending].
Proof.
  set (r := on_read _ _ _ _). exists r.2. split; [|split; [|split]].
  - rewrite (surjective_pairing r) at 1. apply (f_equal (fun x => (x, r.2))). unfold r. vm_compute. reflexivity.
  - unfold r. vm_compute. reflexivity.
  - unfold r. vm_compute. reflexivity.
  - exists 4082. unfold r. vm_compute. reflexivity.
Qed.

(** A header that announces more than 2048 payload bytes does not close the
    session: until the whole announced packet (up to 65535 bytes) is there,
    the reader keeps the bytes and the session open. *)
Theorem oversize_header_accepted (h : Host) (O : OpenSSL)
    `{PX : Pqxx World connection work row} (parse : list Z -> exn + Z)
    (env : Env) (n : Z) (c : Ctx World connection) :
  MessageBuffer.wf (read_buffer_ (session c)) ->
  announced (session_mode_ (session c)) (active (read_buffer_ (session c))) = Some n ->
  2048 < n -> zlen (active (read_buffer_ (session c))) < header_size (session_mode_ (session c)) + n ->
  process_read_buffer parse env c = (Ok tt, c).
Proof.
  intros Hw Ha Hn Hl. unfold process_read_buffer. destruct (session_mode_ (session c)).
  - pose proof (auth_reader_spec parse env c Hw) as H. cbv zeta in H. unfold next_frame in H.
    rewrite Ha in H. by rewrite (proj2 (Z.ltb_lt _ _) Hl) in H.
  - pose proof (work_reader_spec c Hw) as H. cbv zeta in H. unfold next_frame in H.
    rewrite Ha in H. by rewrite (proj2 (Z.ltb_lt _ _) Hl) in H.
Qed.

Lemma oversize_header_accepted_witness :
  let c := put_buffer (mkMessageBuffer 3 0 (1 :: 255 :: 255 :: replicate 600 0)) demo_idle in
  process_read_buffer (host := little) (O := reference) (PX := Demo.demo_pqxx) (fun _ => inr 0) demo_env c
    = (Ok tt, c).
Proof.
  intros c. apply (oversize_header_accepted little reference (fun _ => inr 0) demo_env 65535 c).
  - split_and!; simpl; try lia; [vm_compute; discriminate|vm_compute; reflexivity|].
    repeat constructor; unfold byte_ok; lia.
  - reflexivity.
  - lia.
  - vm_compute. reflexivity.
Defined.
