(* ===== verification/ServerLoop.v ===== *)
(** * Server (src/server/Server.hpp, Server.cpp)

    The server and all its sessions: accepting, the registry of open sessions
    behind [sessions_mutex_], and the shutdown.  A session object lives in
    [table] under its number; the mutex is not recursive, so locking it twice
    is undefined. *)

From S2P Require Import Prelude Machine MessageBuffer SRP6 OpenSSL Packet AuthPacket WorkPacket.
From S2P Require Import AccountCache Database ClientSession HandlersAuth Readers SessionLoop.

Record App (World connection : Type) := mkApp {
  srv : Server World connection;
  table : gmap nat ClientSession;
  next_id : nat;
  acceptor_open : bool;
  accepts : nat;               (** [async_accept] operations under way *)
  io_stopped : bool;
  sessions_mutex_ : bool }.
Arguments mkApp {World connection}.
Arguments srv {World connection}.
Arguments table {World connection}.
Arguments next_id {World connection}.
Arguments acceptor_open {World connection}.
Arguments accepts {World connection}.
Arguments io_stopped {World connection}.
Arguments sessions_mutex_ {World connection}.

Section server.
Context {host : Host} {O : OpenSSL} `{PX : Pqxx World connection work row}.
Context (parse : list Z -> exn + Z).
Abbreviation app := (App World connection).

Definition set_srv (s : Server World connection) (a : app) : app :=
  mkApp s (table a) (next_id a) (acceptor_open a) (accepts a) (io_stopped a) (sessions_mutex_ a).
Definition set_table (t : gmap nat ClientSession) (a : app) : app :=
  mkApp (srv a) t (next_id a) (acceptor_open a) (accepts a) (io_stopped a) (sessions_mutex_ a).
Definition set_acceptor (o : bool) (n : nat) (a : app) : app :=
  mkApp (srv a) (table a) (next_id a) o n (io_stopped a) (sessions_mutex_ a).
Definition set_mutex (m : bool) (a : app) : app :=
  mkApp (srv a) (table a) (next_id a) (acceptor_open a) (accepts a) (io_stopped a) m.

Definition set_sessions (x : gset nat) (s : Server World connection) : Server World connection :=
  mkServer x (account_cache_ s) (db_ s).

(** [{ std::lock_guard<std::mutex> lock(sessions_mutex_); m }] *)
Definition with_lock {A} (m : M app A) : M app A := fun a =>
  if sessions_mutex_ a then (Undef, a)
  else let '(r, a') := m (set_mutex true a) in (r, set_mutex false a').

(** [Server(io_context, db, port)]: the cache's timer starts at [now]. *)
Definition Server_new (db : Database World connection) (now : Z) : app :=
  mkApp (mkServer ∅ (AccountCache.start now (AccountCache_new (5 * 60) 60)) db) ∅ 0 true 0 false false.

Definition start_accept : M app unit := fun a =>
  if negb (acceptor_open a) then (Ok tt, a)
  else (Ok tt, set_acceptor true (S (accepts a)) a).

(** A method of session [i], run on its object and the server. *)
Definition on_session_object {A} (i : nat) (m : M (Ctx World connection) A) : M app A := fun a =>
  match table a !! i with
  | None => (Undef, a)
  | Some s =>
      let '(r, c) := m (mkCtx i s (srv a)) in
      (r, set_srv (server c) (set_table (<[i := session c]> (table a)) a))
  end.


(** The handler of [async_accept]; [remote_endpoint] is what [start] sees. *)
Definition on_accept (ec : option error_code) (remote_endpoint : outcome unit) : M app unit := fun a =>
  let a := set_acceptor (acceptor_open a) (pred (accepts a)) a in
  match ec with
  | Some _ => (Ok tt, a)
  | None =>
      let i := next_id a in
      let a := mkApp (srv a) (<[i := ClientSession_new]> (table a)) (S i) (acceptor_open a) (accepts a)
                 (io_stopped a) (sessions_mutex_ a) in
      (do! with_lock (modify (fun a => set_srv (set_sessions (sessions_ (srv a) ∪ {[i]}) (srv a)) a)) in
       do! on_session_object i (ClientSession.start remote_endpoint) in
       start_accept) a
  end.



(** ** Steps of the whole server *)


End server.

(** ** Lemmas *)

Section lemmas.
Context {host : Host} {O : OpenSSL} {L : OpenSSLLaws O}.
Context `{PX : Pqxx World connection work row} {PL : PqxxLaws PX}.
Context (parse : list Z -> exn + Z).
Abbreviation app := (App World connection).
Implicit Types a : app.



Lemma on_session_object_ok {A} i (m : M (Ctx World connection) A) a s x c :
  table a !! i = Some s -> m (mkCtx i s (srv a)) = (Ok x, c) ->
  on_session_object i m a = (Ok x, set_srv (server c) (set_table (<[i := session c]> (table a)) a)).
Proof. intros E Em. unfold on_session_object. by rewrite E, Em. Qed.





End lemmas.

(** ** Properties *)


(** The demo server after accepting one connection. *)
Definition demo_server : App Demo.World nat := Server_new (mkDatabase [] [0%nat] Demo.world_up) 0.

Definition demo_accepted : App Demo.World nat :=
  (on_accept (O := reference) None (Ok tt) (start_accept demo_server).2).2.





(** The accept handler keeps exactly one accept under way after a new
    connection, but not after an error: one failed accept (a connection reset
    before it is taken, no file descriptor left) and the server, still
    running with its acceptor open, never accepts again. *)
Theorem accept_error_ends_accepting (O : OpenSSL) `{PX : Pqxx World connection work row}
    (a : App World connection) (ec : error_code) :
  sessions_mutex_ a = false -> accepts a = 1%nat -> acceptor_open a = true ->
  (exists a', on_accept None (Ok tt) a = (Ok tt, a') /\ accepts a' = 1%nat /\
     sessions_ (srv a') = sessions_ (srv a) ∪ {[next_id a]}) /\
  (exists a', on_accept (Some ec) (Ok tt) a = (Ok tt, a') /\ accepts a' = 0%nat /\
     acceptor_open a' = true /\ io_stopped a' = io_stopped a).
Proof.
  intros Hm Hn Ho. destruct a as [sv t n o ac io m]. simpl in *. subst. split.
  - unfold on_accept. cbv zeta. bind_step by reflexivity.
    bind_step by (eapply on_session_object_ok; [apply lookup_insert_eq|reflexivity]).
    eexists. split; [reflexivity|]. done.
  - eexists. split; [reflexivity|]. done.
Qed.

Lemma accept_error_ends_accepting_witness :
  exists a', on_accept (O := reference) (Some other_error) (Ok tt) demo_accepted = (Ok tt, a') /\
    accepts a' = 0%nat /\ acceptor_open a' = true.
Proof.
  destruct (accept_error_ends_accepting reference (PX := Demo.demo_pqxx) demo_accepted other_error)
    as [_ (a' & E & H0 & Ho & _)].
  - reflexivity.
  - reflexivity.
  - reflexivity.
  - exists a'. split; [exact E|]. split; [exact H0|exact Ho].
Defined.

(** A connection reset between [accept] and [start]: [remote_endpoint]
    throws, the exception leaves the accept handler (and the thread that runs
    the event loop), no further accept is started, and the session stays
    registered although nothing reads from it. *)
Theorem start_exception_escapes (O : OpenSSL) `{PX : Pqxx World connection work row}
    (a : App World connection) (e : exn) :
  sessions_mutex_ a = false -> accepts a = 1%nat ->
  exists a', on_accept None (Throw e) a = (Throw e, a') /\ accepts a' = 0%nat /\
    next_id a ∈ sessions_ (srv a') /\
    exists s, table a' !! next_id a = Some s /\ closed_ s = false /\ reads s = [].
Proof.
  intros Hm Hn. destruct a as [sv t n o ac io m]. simpl in *. subst.
  unfold on_accept. cbv zeta. bind_step by reflexivity. unfold bind, on_session_object at 1.
  cbn [table set_srv set_mutex]. rewrite lookup_insert_eq. eexists. split; [reflexivity|].
  split; [done|]. split; [simpl; set_solver|]. simpl. rewrite lookup_insert_eq. eexists. split; [done|]. done.
Qed.

Lemma start_exception_escapes_witness :
  exists a', on_accept (O := reference) None (Throw (runtime_error "remote_endpoint")) (start_accept demo_server).2
    = (Throw (runtime_error "remote_endpoint"), a') /\ accepts a' = 0%nat.
Proof.
  destruct (start_exception_escapes reference (PX := Demo.demo_pqxx) (start_accept demo_server).2
    (runtime_error "remote_endpoint")) as (a' & E & H & _).
  - reflexivity.
  - reflexivity.
  - exists a'. split; [exact E|exact H].
Defined.
