(* ===== verification/Client.v ===== *)
(** * Client (src/Client/Client.hpp, Client.cpp)

    The example client: connecting and reconnecting, the outgoing queue, the
    receive loop (a read of the header, then a read of the payload), the
    heartbeat and the client's half of the login.

    The object comes with what Boost.Asio keeps for it, as in [ClientSession]:
    pending connects, reads, writes and timer waits, posted closures.
    [async_connect] closes a socket that is open; setting or cancelling a
    timer aborts its pending waits; an aborted operation still runs its
    handler.  The event loop of the client has one thread, so a handler is one
    step.  Resolving the host name is an argument of [connect]; [host] and
    [port] only serve that; what closing the socket does, which throws when it fails, is the
    argument [closing] of the handlers that do it.  Random values are arguments; log lines are left
    out, the calls in their arguments are not. *)

From S2P Require Import Prelude Machine ByteBuffer MessageBuffer SRP6 OpenSSL Packet AuthPacket.
From S2P Require Import WorkPacket ClientSession.

(** ** Data *)

Inductive socket_state := SocketClosed | SocketConnecting | SocketConnected.

#[export] Instance socket_state_eq_dec : EqDecision socket_state.
Proof. solve_decision. Defined.

(** An [async_read] of exactly [r_size] bytes: the header of a packet, or the
    payload behind a header. *)
Inductive read_target := ReadHeader (mode : SessionMode) | ReadPayload (mode : SessionMode) (header : list Z).
Record read_op := mkRead { r_target : read_target; r_size : Z; r_status : status (list Z) }.

Record Client := mkClient {
  socket : socket_state;
  connected : bool;
  outgoing_queue : list (list Z);
  session_mode_ : SessionMode;
  srp_ : SRP6;
  (* what Boost.Asio and the peer of the current connection have *)
  connects : list (status unit);
  reads : list read_op;
  writes : list write_op;
  reconnect_timer : list (status unit);
  heartbeat_timer : list (status unit);
  posted : nat;
  wire : list Z }.

Definition set_socket (x : socket_state) (c : Client) : Client :=
  mkClient x (connected c) (outgoing_queue c) (session_mode_ c) (srp_ c) (connects c) (reads c) (writes c)
    (reconnect_timer c) (heartbeat_timer c) (posted c) (wire c).
Definition set_connected (x : bool) (c : Client) : Client :=
  mkClient (socket c) x (outgoing_queue c) (session_mode_ c) (srp_ c) (connects c) (reads c) (writes c)
    (reconnect_timer c) (heartbeat_timer c) (posted c) (wire c).
Definition set_queue (x : list (list Z)) (c : Client) : Client :=
  mkClient (socket c) (connected c) x (session_mode_ c) (srp_ c) (connects c) (reads c) (writes c)
    (reconnect_timer c) (heartbeat_timer c) (posted c) (wire c).
Definition set_session_mode (x : SessionMode) (c : Client) : Client :=
  mkClient (socket c) (connected c) (outgoing_queue c) x (srp_ c) (connects c) (reads c) (writes c)
    (reconnect_timer c) (heartbeat_timer c) (posted c) (wire c).
Definition set_srp (x : SRP6) (c : Client) : Client :=
  mkClient (socket c) (connected c) (outgoing_queue c) (session_mode_ c) x (connects c) (reads c) (writes c)
    (reconnect_timer c) (heartbeat_timer c) (posted c) (wire c).
Definition set_connects (x : list (status unit)) (c : Client) : Client :=
  mkClient (socket c) (connected c) (outgoing_queue c) (session_mode_ c) (srp_ c) x (reads c) (writes c)
    (reconnect_timer c) (heartbeat_timer c) (posted c) (wire c).
Definition set_reads (x : list read_op) (c : Client) : Client :=
  mkClient (socket c) (connected c) (outgoing_queue c) (session_mode_ c) (srp_ c) (connects c) x (writes c)
    (reconnect_timer c) (heartbeat_timer c) (posted c) (wire c).
Definition set_writes (x : list write_op) (c : Client) : Client :=
  mkClient (socket c) (connected c) (outgoing_queue c) (session_mode_ c) (srp_ c) (connects c) (reads c) x
    (reconnect_timer c) (heartbeat_timer c) (posted c) (wire c).
Definition set_reconnect_timer (x : list (status unit)) (c : Client) : Client :=
  mkClient (socket c) (connected c) (outgoing_queue c) (session_mode_ c) (srp_ c) (connects c) (reads c)
    (writes c) x (heartbeat_timer c) (posted c) (wire c).
Definition set_heartbeat_timer (x : list (status unit)) (c : Client) : Client :=
  mkClient (socket c) (connected c) (outgoing_queue c) (session_mode_ c) (srp_ c) (connects c) (reads c)
    (writes c) (reconnect_timer c) x (posted c) (wire c).
Definition set_posted (x : nat) (c : Client) : Client :=
  mkClient (socket c) (connected c) (outgoing_queue c) (session_mode_ c) (srp_ c) (connects c) (reads c)
    (writes c) (reconnect_timer c) (heartbeat_timer c) x (wire c).
Definition set_wire (x : list Z) (c : Client) : Client :=
  mkClient (socket c) (connected c) (outgoing_queue c) (session_mode_ c) (srp_ c) (connects c) (reads c)
    (writes c) (reconnect_timer c) (heartbeat_timer c) (posted c) x.

(** ** Operations of the socket and the timers *)

(** [socket.close()]: what is under way on the socket is aborted. *)
Definition close_socket (c : Client) : Client :=
  set_socket SocketClosed
    (set_connects (map abort (connects c))
    (set_reads (map (fun r => mkRead (r_target r) (r_size r) (abort (r_status r))) (reads c))
    (set_writes (map (fun w => mkWrite (w_data w) (w_sent w) (abort (w_status w))) (writes c)) c))).

(** The state of an operation just started: on a closed socket it fails. *)
Definition started {A} (c : Client) : status A :=
  if decide (socket c = SocketClosed) then Failed bad_descriptor else Pending.

Definition async_connect (c : Client) : Client :=
  let c := close_socket c in
  set_connects (connects c ++ [Pending]) (set_socket SocketConnecting c).

Definition async_read (target : read_target) (size : Z) (c : Client) : Client :=
  set_reads (reads c ++ [mkRead target size (started c)]) c.

Definition async_write (data : list Z) (c : Client) : Client :=
  set_writes (writes c ++ [mkWrite data 0 (started c)]) c.

(** [timer.cancel()], and [timer.expires_after(...); timer.async_wait(...)]. *)
Definition cancel (timer : list (status unit)) : list (status unit) := map abort timer.
Definition rearm (timer : list (status unit)) : list (status unit) := cancel timer ++ [Pending].

(** ** Methods *)

Section client.
Context {host : Host} {O : OpenSSL}.

(** [Client(io_context, host, port)]. *)
Definition Client_new : Client :=
  mkClient SocketClosed false [] AUTH_SESSION SRP6_new [] [] [] [] [] 0 [].

Definition get_session_mode (c : Client) : SessionMode := session_mode_ c.

Definition with_srp {A} (m : M SRP6 A) : M Client A := zoom srp_ set_srp m.

(** [resolver.resolve] throws when the name cannot be resolved. *)
Definition connect (resolved : outcome unit) : M Client unit :=
  do! of_outcome resolved in
  modify async_connect.

Definition disconnect : M Client unit := modify (fun c => set_posted (S (posted c)) c).

(** The closure [disconnect] posts. *)
Definition on_disconnect : M Client unit := modify (fun c =>
  let c := set_heartbeat_timer (cancel (heartbeat_timer c)) c in
  let c := set_reconnect_timer (cancel (reconnect_timer c)) c in
  let c := if decide (socket c = SocketClosed) then c else close_socket c in
  set_connected false c).

(** [socket.close()] without an error code throws when closing an open socket fails: [closing] is what it does then. *)
Definition close_or_throw (closing : outcome unit) : M Client unit := fun c =>
  (match closing with
   | Throw e => if decide (socket c = SocketClosed) then Ok tt else Throw e
   | o => o
   end, close_socket c).

Definition schedule_reconnect (closing : outcome unit) : M Client unit :=
  do! modify (set_connected false) in
  do! close_or_throw closing in
  modify (fun c => set_reconnect_timer (rearm (reconnect_timer c)) c).

(** The handler of the reconnect timer does not look at its error code. *)
Definition on_reconnect_timer (ec : option error_code) (resolved : outcome unit) : M Client unit :=
  connect resolved.

Definition flush_queue : M Client unit := fun c =>
  if negb (connected c) then (Ok tt, c)
  else match outgoing_queue c with
       | [] => (Ok tt, c)
       | front :: _ => (Ok tt, async_write front c)
       end.

(** The completion handler of [async_write]; [pop] of an empty queue is
    undefined. *)
Definition on_write (closing : outcome unit) (ec : option error_code) : M Client unit :=
  match ec with
  | Some _ => do! modify (set_connected false) in schedule_reconnect closing
  | None => fun c =>
      match outgoing_queue c with
      | [] => (Undef, c)
      | _ :: rest => flush_queue (set_queue rest c)
      end
  end.

Definition send_packet_impl (full_packet : list Z) : M Client unit := fun c =>
  if negb (connected c) then (Ok tt, set_queue (outgoing_queue c ++ [full_packet]) c)
  else
    let c := set_queue (outgoing_queue c ++ [full_packet]) c in
    if zlen (outgoing_queue c) =? 1 then flush_queue c else (Ok tt, c).

Definition send_packet (packet : AnyPacket) : M Client unit := send_packet_impl (any_build_packet packet).

Definition send_ping (ping_id : Z) : M Client unit :=
  let! mode := gets get_session_mode in
  if decide (mode = AUTH_SESSION)
  then send_packet (PAuth (Packet.write_uint32_le ping_id (AuthPacket_new AuthPacket.CMSG_PING)))
  else send_packet (PWork (Packet.write_uint32_le ping_id (WorkPacket_new WorkOp.CMSG_PING))).

Definition start_heartbeat : M Client unit :=
  modify (fun c => set_heartbeat_timer (rearm (heartbeat_timer c)) c).

Definition on_heartbeat_timer (ec : option error_code) (ping_id : Z) : M Client unit :=
  let! connected := gets connected in
  match ec with
  | None => if connected then do! send_ping ping_id in start_heartbeat else ret tt
  | Some _ => ret tt
  end.

Definition send_message (msg : list Z) : M Client unit :=
  let! mode := gets get_session_mode in
  if decide (mode = AUTH_SESSION) then ret tt
  else send_packet (PWork (Packet.write_string_nt_le msg (WorkPacket_new WorkOp.CMSG_MESSAGE))).

Definition handle_logon_challenge (username password : list Z) : M Client unit :=
  do! with_srp (set_credentials username password) in
  send_packet (PAuth (Packet.write_string_nt_le username (AuthPacket_new CMSG_AUTH_LOGON_CHALLENGE))).

(** ** Handling a packet *)

(** The body of the [try] block of [SMSG_AUTH_LOGON_CHALLENGE]. *)
Definition answer_challenge (rand_bytes : list Z) (p : AuthPacket) : M Client unit :=
  let! '(B, p) := on_local (Packet.read_bytes 32) p in
  let! '(g, p) := on_local Packet.read_uint8 p in
  let! '(N, p) := on_local (Packet.read_bytes 32) p in
  let! '(salt, p) := on_local (Packet.read_bytes 32) p in
  do! with_srp (load_constants N g) in
  do! with_srp (load_salt salt) in
  do! with_srp (generate_client_ephemeral rand_bytes) in
  let! padded_A := with_srp get_A_bytes in
  let! padded_M1 := with_srp (compute_M1 B) in
  let proof := AuthPacket_new CMSG_AUTH_LOGON_PROOF in
  let proof := Packet.write_bytes padded_A proof in
  let proof := Packet.write_bytes padded_M1 proof in
  send_packet (PAuth proof).

Definition handle_auth_packet (rand_bytes : list Z) (p : AuthPacket) : M Client unit :=
  match AuthPacket.get_opcode p with
  | AuthPacket.SMSG_PONG => ret tt
  | SMSG_AUTH_LOGON_CHALLENGE => try_catch (answer_challenge rand_bytes p) (fun _ => disconnect)
  | SMSG_AUTH_LOGON_PROOF =>
      let! '(M2_server, p) := on_local (Packet.read_bytes 20) p in
      let! M1 := with_srp get_last_M1 in
      let! ok := with_srp (verify_server_proof M1 M2_server) in
      if negb ok then disconnect else modify (set_session_mode WORK_SESSION)
  | SMSG_AUTH_RESPONSE =>
      let! '(authcode, p) := on_local Packet.read_uint8 p in
      let! '(errorcode, p) := on_local Packet.read_uint8 p in
      disconnect
  | _ => ret tt
  end.

Definition handle_work_packet (p : WorkPacket) : M Client unit :=
  match WorkPacket.get_opcode p with
  | WorkOp.SMSG_PONG => ret tt
  | WorkOp.SMSG_MESSAGE => let! '(_, p) := on_local Packet.read_string_nt_le p in ret tt
  | _ => ret tt
  end.

(** [PacketT packet; packet.deserialize(raw_packet); handle_packet(packet);]
    for the packet type of the stage. *)
Definition parse_and_handle (mode : SessionMode) (rand_bytes raw_packet : list Z) : M Client unit :=
  match mode with
  | AUTH_SESSION =>
      let! '(_, packet) := on_local (Packet.deserialize raw_packet) AuthPacket_default in
      handle_auth_packet rand_bytes packet
  | WORK_SESSION =>
      let! '(_, packet) := on_local (Packet.deserialize raw_packet) WorkPacket_default in
      handle_work_packet packet
  end.

(** ** The receive loop *)

Definition header_bytes (mode : SessionMode) : Z :=
  match mode with AUTH_SESSION => 3 | WORK_SESSION => 4 end.

Definition start_receive_loop : M Client unit := fun c =>
  (Ok tt, async_read (ReadHeader (session_mode_ c)) (header_bytes (session_mode_ c)) c).

Definition process_empty (mode : SessionMode) (rand_bytes header : list Z) : M Client unit :=
  let raw_packet := header in
  do! try_catch (parse_and_handle mode rand_bytes raw_packet) (fun _ => ret tt) in
  start_receive_loop.

Definition read_payload (mode : SessionMode) (header : list Z) (length : Z) : M Client unit :=
  modify (async_read (ReadPayload mode header) length).

(** [connected = false; schedule_reconnect(); return;] *)
Definition drop_connection (closing : outcome unit) : M Client unit := do! modify (set_connected false) in schedule_reconnect closing.

(** Element [i] of the header vector. *)
Definition header_at (i : nat) (header : list Z) : outcome Z :=
  match header !! i with Some b => Ok b | None => Undef end.

(** The handler of the header read; the two length bytes are the last ones. *)
Definition on_header (closing : outcome unit) (mode : SessionMode) (rand_bytes : list Z) (result : error_code + list Z)
  : M Client unit :=
  match result with
  | inl ec => drop_connection closing
  | inr header =>
      let i := match mode with AUTH_SESSION => 1 | WORK_SESSION => 2 end%nat in
      let! h := of_outcome (header_at i header) in
      let! l := of_outcome (header_at (S i) header) in
      let length := u16 (Z.lor (Z.shiftl h 8) l) in
      if 2048 <? length then drop_connection closing
      else if length =? 0 then process_empty mode rand_bytes header
      else read_payload mode header length
  end.

Definition on_payload (closing : outcome unit) (mode : SessionMode) (rand_bytes header : list Z) (result : error_code + list Z)
  : M Client unit :=
  match result with
  | inl ec => drop_connection closing
  | inr payload =>
      let raw_packet := header ++ payload in
      do! try_catch (parse_and_handle mode rand_bytes raw_packet) (fun _ => ret tt) in
      start_receive_loop
  end.

Definition on_read (closing : outcome unit) (rand_bytes : list Z) (target : read_target) (result : error_code + list Z)
  : M Client unit :=
  match target with
  | ReadHeader mode => on_header closing mode rand_bytes result
  | ReadPayload mode header => on_payload closing mode rand_bytes header result
  end.

(** The completion handler of [async_connect]. *)
Definition on_connect (closing : outcome unit) (ec : option error_code) : M Client unit :=
  match ec with
  | None =>
      do! modify (set_connected true) in
      do! start_receive_loop in
      do! flush_queue in
      start_heartbeat
  | Some _ => schedule_reconnect closing
  end.
End client.
