(* ===== verification/ClientSafety.v ===== *)
(** * The client's read handlers on arbitrary server bytes

    A small Hoare logic for methods that may throw but must not reach
    undefined behaviour, the SRP6 operations of the client in it (also with
    the modulus zero, about which the laws of OpenSSL say nothing), and the
    theorem that no bytes a server sends can make a read handler of the client
    throw or misbehave. *)

From S2P Require Import Prelude Machine ByteBuffer HexUtils SRP6 OpenSSL Packet AuthPacket WorkPacket ClientSession.
From S2P Require Import HandlersAuth Client.

(** [m] returns a value in [P] or throws, and keeps the invariant [I]. *)
Definition safe {S A} (I : S -> Prop) (m : M S A) (P : A -> Prop) : Prop := forall s, I s ->
  match m s with
  | (Ok a, s') => P a /\ I s'
  | (Throw _, s') => I s'
  | (Undef, _) => False
  end.

Section logic.
Context {S : Type} (I : S -> Prop).

Lemma safe_ret {A} (a : A) (P : A -> Prop) : P a -> safe I (ret a) P.
Proof. intros Ha s Hs. done. Qed.

Lemma safe_gets {A} (f : S -> A) (P : A -> Prop) : (forall s, I s -> P (f s)) -> safe I (gets f) P.
Proof. intros Hf s Hs. simpl. auto. Qed.

Lemma safe_modify (f : S -> S) (P : unit -> Prop) :
  (forall s, I s -> I (f s)) -> P tt -> safe I (modify f) P.
Proof. intros Hf HP s Hs. simpl. auto. Qed.

Lemma safe_of_outcome {A} (o : outcome A) (P : A -> Prop) :
  match o with Ok a => P a | Throw _ => True | Undef => False end -> safe I (of_outcome o) P.
Proof. intros H s Hs. unfold of_outcome. by destruct o. Qed.

Lemma safe_mono {A} (m : M S A) (P Q : A -> Prop) : safe I m P -> (forall a, P a -> Q a) -> safe I m Q.
Proof. intros Hm HPQ s Hs. specialize (Hm s Hs). destruct (m s) as [[] ?]; naive_solver. Qed.

Lemma safe_bind {A B} (m : M S A) (f : A -> M S B) (P : A -> Prop) (Q : B -> Prop) :
  safe I m P -> (forall a, P a -> safe I (f a) Q) -> safe I (bind m f) Q.
Proof.
  intros Hm Hf s Hs. specialize (Hm s Hs). unfold bind. destruct (m s) as [[a| |] s']; try done.
  destruct Hm as [Ha Hs']. exact (Hf a Ha s' Hs').
Qed.

Lemma safe_try_catch {A} (m : M S A) (h : exn -> M S A) (P : A -> Prop) :
  safe I m P -> (forall e, safe I (h e) P) -> safe I (try_catch m h) P.
Proof.
  intros Hm Hh s Hs. specialize (Hm s Hs). unfold try_catch. destruct (m s) as [[a|e|] s']; try done.
  exact (Hh e s' Hm).
Qed.

Lemma safe_on_local {T A} (m : M T A) (t : T) (P : A * T -> Prop) :
  match m t with (Ok a, t') => P (a, t') | (Throw _, _) => True | (Undef, _) => False end ->
  safe I (on_local m t) P.
Proof. intros H s Hs. unfold on_local. by destruct (m t) as [[] ?]. Qed.

(** A successful run, for a method that the caller wraps in a catch-all. *)
Lemma safe_caught (m : M S unit) (P : unit -> Prop) s :
  safe I m P -> I s -> exists s', try_catch m (fun _ => ret tt) s = (Ok tt, s') /\ I s'.
Proof.
  intros Hm Hs. specialize (Hm s Hs). unfold try_catch. destruct (m s) as [[[]|e|] s']; [|eauto|done].
  exists s'. by destruct Hm.
Qed.
End logic.

Lemma safe_zoom {S T A} (I : S -> Prop) (J : T -> Prop) (rd : S -> T) (wr : T -> S -> S) (m : M T A)
    (P : A -> Prop) :
  (forall s, I s -> J (rd s)) -> (forall s t, I s -> J t -> I (wr t s)) ->
  safe J m P -> safe I (zoom rd wr m) P.
Proof.
  intros HI HJ Hm s Hs. specialize (Hm _ (HI s Hs)). unfold zoom.
  destruct (m (rd s)) as [[a| |] t]; naive_solver.
Qed.

(** ** The SRP6 object *)

(** The pointers are valid; nothing is known about the numbers. *)
Definition srp_live (s : SRP6) : Prop := exists w, rep s w ∅.

Section srp6.
Context {O : OpenSSL} {L : OpenSSLLaws O}.

Lemma safe_of_runs {A} (m : M SRP6 A) (P : A -> Prop) :
  (forall s w, rep s w ∅ -> runs m s (fun a s' => P a /\ srp_live s')) -> safe srp_live m P.
Proof. intros H s (w & Hr). destruct (H s w Hr) as (a & s' & -> & ? & ?). done. Qed.

Lemma safe_set_credentials username password : safe srp_live (set_credentials username password) (fun _ => True).
Proof.
  apply safe_of_runs. intros s w Hr. apply runs_bind, runs_modify, runs_modify. split; [done|].
  exists (w_set_password password (w_set_username username w)). by destruct Hr; constructor.
Qed.

Lemma safe_load_constants N_bytes g :
  bytes_ok N_bytes -> 0 <= g -> safe srp_live (load_constants N_bytes g) (fun _ => True).
Proof.
  intros HN Hg. apply safe_of_runs. intros s w Hr.
  eapply runs_mono; [by apply load_constants_spec|]. intros ? s' Hr'. split; [done|]. eexists. exact Hr'.
Qed.

Lemma safe_load_salt salt : safe srp_live (load_salt salt) (fun _ => True).
Proof. apply safe_modify; [|done]. intros s (w & Hr). eexists. by apply set_salt_rep. Qed.

Lemma safe_generate_client_ephemeral rand_bytes :
  safe srp_live (generate_client_ephemeral rand_bytes) (fun _ => True).
Proof.
  apply safe_of_runs. intros s w Hr. unfold generate_client_ephemeral, BN_bin2bn, BN_mod_exp.
  apply runs_bind. eapply runs_assign; [done|done|]. intros s1 Hr1.
  eapply runs_op3; [exact Hr1|done..|]. intros s2 Hr2. split; [done|]. by eexists.
Qed.

(** [pad_bytes_left] throws on a number that is too long. *)
Lemma pad_bytes_left_defined src n : pad_bytes_left src n <> Undef.
Proof. unfold pad_bytes_left. by repeat split_if. Qed.

Lemma safe_get_padded m : safe srp_live (get_padded m) (fun _ => True).
Proof.
  unfold get_padded, bn_to_vector. eapply (safe_bind _ _ _ (fun _ => True)).
  - apply safe_of_runs. intros s w Hr.
    apply runs_bind. eapply runs_value; [done|done|]. apply runs_bind. eapply runs_value; [done|done|].
    apply runs_ret. split; [done|]. by eexists.
  - intros raw _. apply safe_of_outcome. pose proof (pad_bytes_left_defined raw 32).
    by destruct (pad_bytes_left raw 32).
Qed.

Lemma safe_compute_M1 B_bytes : safe srp_live (compute_M1 B_bytes) (fun _ => True).
Proof.
  unfold compute_M1, get_A_bytes. eapply safe_bind; [apply safe_get_padded|]. intros A _.
  eapply safe_bind; [by apply (safe_gets _ _ (fun _ => True))|]. intros salt _. cbv zeta.
  eapply (safe_bind _ _ _ (fun _ => True)).
  { apply safe_of_outcome. pose proof (pad_bytes_left_defined (SHA1 (A ++ B_bytes ++ salt)) 20).
    by destruct (pad_bytes_left _ 20). }
  intros m1 _. eapply safe_bind; [|intros ? _; by apply safe_gets].
  apply (safe_modify _ _ (fun _ => True)); [|done]. intros s (w & Hr). eexists. by apply set_last_M1_rep.
Qed.

(** A proof of at most 20 bytes is compared inside the hash. *)
Lemma safe_verify_server_proof M1 M2 :
  zlen M2 <= 20 -> safe srp_live (verify_server_proof M1 M2) (fun _ => True).
Proof.
  intros Hl. unfold verify_server_proof, get_A_bytes. eapply safe_bind; [apply safe_get_padded|].
  intros A _. cbv zeta. apply safe_of_outcome. pose proof (SHA1_length (A ++ M1)).
  pose proof (std_equal_prefix M2 (SHA1 (A ++ M1))) as He.
  destruct (std_equal _ _); try done. destruct He as [_ He]. unfold zlen in *. lia.
Qed.
End srp6.

(** ** Reading a packet *)

Definition packet_wf `{PB : PacketBase P} (p : P) : Prop := wf (raw p).

Section packets.
Context {host : Host} `{PB : PacketBase P}.
Implicit Types p : P.

Lemma safe_read_bytes {S} (I : S -> Prop) n p :
  packet_wf p -> 0 <= n < max_vec ->
  safe I (on_local (Packet.read_bytes n) p) (fun r => bytes_ok r.1 /\ zlen r.1 = n /\ packet_wf r.2).
Proof.
  intros Hw Hn. apply safe_on_local. unfold Packet.read_bytes, from_buffer, zoom.
  destruct (decide (read_pos_ (raw p) + n <= ByteBuffer.size (raw p))) as [Hle|Hgt].
  - rewrite read_bytes_ok by (done || lia). unfold packet_wf. simpl. rewrite raw_set_raw.
    split_and!; [by apply slice_wf_ok|destruct Hw as (_ & ? & _); apply zlen_slice; unfold ByteBuffer.size in *; lia|].
    apply moved_wf; (done || lia).
  - by rewrite read_bytes_short by (done || lia).
Qed.

Lemma safe_read_uint8 {S} (I : S -> Prop) p :
  packet_wf p -> safe I (on_local Packet.read_uint8 p) (fun r => 0 <= r.1 /\ packet_wf r.2).
Proof.
  intros Hw. apply safe_on_local. unfold Packet.read_uint8, from_buffer, zoom.
  destruct (decide (read_pos_ (raw p) + 1 <= ByteBuffer.size (raw p))) as [Hle|Hgt].
  - rewrite read_uint8_ok by done. unfold packet_wf. simpl. rewrite raw_set_raw.
    split; [|apply moved_wf; (done || lia)]. apply of_le_bytes_range. by apply slice_wf_ok.
  - unfold ByteBuffer.read_uint8. erewrite bind_throw; [done|].
    apply check_read_fail; [done|unfold max_vec; lia|lia].
Qed.

Lemma safe_read_string_nt_le {S} (I : S -> Prop) p :
  packet_wf p -> safe I (on_local Packet.read_string_nt_le p) (fun _ => True).
Proof.
  intros Hw. apply safe_on_local. unfold Packet.read_string_nt_le, from_buffer, zoom.
  destruct (cursor_split _ Hw) as (pre & E & Hp).
  destruct (split_at_nul (drop (Z.to_nat (read_pos_ (raw p))) (buffer_ (raw p)))) as (s & rest & Ed & Hs & Hr).
  rewrite Ed in E. destruct (read_string_nt_ok _ pre s rest Hw E Hp Hs Hr) as [_ Hle]. by rewrite Hle.
Qed.

Lemma safe_deserialize {S} (I : S -> Prop) `{PF : !PacketFormat P} frame p0 :
  bytes_ok frame -> zlen frame < max_vec ->
  safe I (on_local (Packet.deserialize frame) p0) (fun r => packet_wf r.2).
Proof.
  intros Hok Hmax. apply safe_on_local. pose proof (deserialize_defined frame p0 Hok Hmax) as Hd.
  destruct (Packet.deserialize frame p0) as [[[]| |] p'] eqn:E; [|done|done].
  by destruct (build_deserialize frame p0 p' Hok Hmax E) as (_ & _ & ? & _).
Qed.
End packets.

(** ** The handlers *)

(** The SRP6 object is intact; reads and reconnect waits are [R] and [T]. *)
Definition client_with (R : list read_op) (T : list (status unit)) (c : Client) : Prop :=
  srp_live (srp_ c) /\ reads c = R /\ reconnect_timer c = T.

(** A read as the client starts it. *)
Definition read_sized (r : read_op) : Prop :=
  match r_target r with
  | ReadHeader mode => r_size r = header_bytes mode
  | ReadPayload mode header => bytes_ok header /\ zlen header = header_bytes mode /\ r_size r <= 2048
  end.

(** What a finished read hands to its handler. *)
Definition result_ok (target : read_target) (result : error_code + list Z) : Prop :=
  match result with
  | inl _ => True
  | inr bytes => bytes_ok bytes /\
      match target with
      | ReadHeader mode => zlen bytes = header_bytes mode
      | ReadPayload mode header => bytes_ok header /\ zlen header + zlen bytes < max_vec
      end
  end.

Section handlers.
Context {host : Host} {O : OpenSSL} {L : OpenSSLLaws O}.
Context (R : list read_op) (T : list (status unit)).
Abbreviation client_live := (client_with R T).

Lemma safe_with_srp {A} (m : M SRP6 A) (P : A -> Prop) : safe srp_live m P -> safe client_live (with_srp m) P.
Proof. apply safe_zoom; unfold client_with; naive_solver. Qed.

Lemma flush_queue_live c : client_live c -> exists c', flush_queue c = (Ok tt, c') /\ client_live c'.
Proof.
  intros Hc. unfold flush_queue. destruct (connected c); simpl; [|eauto].
  destruct (outgoing_queue c); eauto.
Qed.

Lemma safe_send_packet p : safe client_live (send_packet p) (fun _ => True).
Proof.
  intros c Hc. unfold send_packet, send_packet_impl. destruct (connected c); simpl; [|done].
  destruct (_ =? 1); [|done].
  by destruct (flush_queue_live (set_queue (outgoing_queue c ++ [any_build_packet p]) c) Hc) as (c' & -> & ?).
Qed.

Lemma safe_disconnect : safe client_live disconnect (fun _ => True).
Proof. by apply safe_modify. Qed.

Lemma safe_answer_challenge rand_bytes p :
  packet_wf p -> safe client_live (answer_challenge rand_bytes p) (fun _ => True).
Proof.
  intros Hp. unfold answer_challenge.
  eapply safe_bind; [apply safe_read_bytes; [done|unfold max_vec; lia]|]. intros [B p1] (HB & _ & Hp1). simpl in *.
  eapply safe_bind; [by apply safe_read_uint8|]. intros [g p2] (Hg & Hp2). simpl in *.
  eapply safe_bind; [apply safe_read_bytes; [done|unfold max_vec; lia]|]. intros [N p3] (HN & _ & Hp3). simpl in *.
  eapply safe_bind; [apply safe_read_bytes; [done|unfold max_vec; lia]|]. intros [salt p4] _.
  eapply safe_bind; [by apply safe_with_srp, safe_load_constants|]. intros _ _.
  eapply safe_bind; [apply safe_with_srp, safe_load_salt|]. intros _ _.
  eapply safe_bind; [apply safe_with_srp, safe_generate_client_ephemeral|]. intros _ _.
  eapply safe_bind; [apply safe_with_srp, safe_get_padded|]. intros A _.
  eapply safe_bind; [apply safe_with_srp, safe_compute_M1|]. intros M1 _.
  apply safe_send_packet.
Qed.

Lemma safe_handle_auth_packet rand_bytes p :
  packet_wf p -> safe client_live (handle_auth_packet rand_bytes p) (fun _ => True).
Proof.
  intros Hp. unfold handle_auth_packet. destruct (AuthPacket.get_opcode p); try by apply safe_ret.
  - apply safe_try_catch; [by apply safe_answer_challenge|]. intros _. apply safe_disconnect.
  - eapply safe_bind; [apply safe_read_bytes; [done|unfold max_vec; lia]|]. intros [M2 p1] (_ & Hl & _). simpl in *.
    eapply safe_bind; [by apply safe_with_srp, (safe_gets _ _ (fun _ => True))|]. intros M1 _.
    eapply safe_bind; [apply safe_with_srp, safe_verify_server_proof; lia|]. intros ok _.
    destruct ok; simpl; [by apply safe_modify|apply safe_disconnect].
  - eapply safe_bind; [by apply safe_read_uint8|]. intros [a p1] (_ & Hp1). simpl in *.
    eapply safe_bind; [by apply safe_read_uint8|]. intros [e p2] _. apply safe_disconnect.
Qed.

Lemma safe_handle_work_packet p : packet_wf p -> safe client_live (handle_work_packet p) (fun _ => True).
Proof.
  intros Hp. unfold handle_work_packet. destruct (WorkPacket.get_opcode p); try by apply safe_ret.
  eapply safe_bind; [by apply safe_read_string_nt_le|]. intros [? ?] _. by apply safe_ret.
Qed.

Lemma safe_parse_and_handle mode rand_bytes raw :
  bytes_ok raw -> zlen raw < max_vec -> safe client_live (parse_and_handle mode rand_bytes raw) (fun _ => True).
Proof.
  intros Hok Hmax. unfold parse_and_handle. destruct mode; cbv iota.
  - eapply safe_bind; [by apply (safe_deserialize (P := AuthPacket))|]. intros [? p] Hp.
    by apply safe_handle_auth_packet.
  - eapply safe_bind; [by apply (safe_deserialize (P := WorkPacket))|]. intros [? p] Hp.
    by apply safe_handle_work_packet.
Qed.

(** Handling a frame, then the next header read. *)
Lemma handle_frame_ok mode rand_bytes raw c :
  client_live c -> bytes_ok raw -> zlen raw < max_vec ->
  exists c1, try_catch (parse_and_handle mode rand_bytes raw) (fun _ => ret tt) c = (Ok tt, c1) /\ client_live c1.
Proof.
  intros Hc Hok Hmax. eapply safe_caught; [by apply safe_parse_and_handle|done].
Qed.

End handlers.

(** ** Properties *)
Lemma started_open {A} c (a : A) : started c <> Done a.
Proof. unfold started. by destruct (decide _). Qed.

(** A read handler starts the next read, or gives the connection up. *)
Lemma read_handler_ok (h : Host) (O : OpenSSL) (L : OpenSSLLaws O) (closing : outcome unit) (rand_bytes : list Z)
    (target : read_target) (result : error_code + list Z) (c : Client) :
  srp_live (srp_ c) -> result_ok target result ->
  (exists c', on_read closing rand_bytes target result c = (Ok tt, c') /\ srp_live (srp_ c') /\
    (exists r, reads c' = reads c ++ [r] /\ read_sized r /\ forall b, r_status r <> Done b) /\ reconnect_timer c' = reconnect_timer c) \/
  on_read closing rand_bytes target result c = drop_connection closing c.
Proof.
  intros Hc Hr. set (I := client_with (reads c) (reconnect_timer c)).
  assert (I c) as HI by done.
  assert (forall mode raw, bytes_ok raw -> zlen raw < max_vec ->
    exists c1, try_catch (parse_and_handle mode rand_bytes raw) (fun _ => ret tt) c = (Ok tt, c1) /\ I c1) as Hf.
  { intros. by apply handle_frame_ok. }
  destruct result as [ec|bytes].
  { right. by destruct target. }
  destruct target as [mode|mode header]; simpl in *.
  - destruct Hr as [Hok Hl].
    assert (exists h l, header_at (match mode with AUTH_SESSION => 1 | WORK_SESSION => 2 end) bytes = Ok h /\
      header_at (S (match mode with AUTH_SESSION => 1 | WORK_SESSION => 2 end)) bytes = Ok l) as (hb & lb & Eh & El).
    { unfold header_at. destruct mode, bytes as [|? [|? [|? [|? ?]]]]; unfold zlen in Hl; simpl in *; try lia; eauto. }
    bind_step by (by rewrite Eh). bind_step by (by rewrite El). cbv zeta. set (n := u16 _).
    destruct (Z.ltb_spec 2048 n) as [|Hn]; [by right|]. left.
    destruct (n =? 0).
    + destruct (Hf mode bytes Hok) as (c1 & E & Hs & ER & ET); [destruct mode; simpl in Hl; unfold max_vec; lia|].
      unfold process_empty. bind_step by exact E. eexists. split; [done|]. split; [done|].
      simpl. rewrite ER, ET. split; [|done]. eexists. split; [done|]. split; [done|apply started_open].
    + eexists. split; [done|]. split; [done|]. simpl. split; [|done]. eexists. split; [done|]. split; [|apply started_open].
      split; [done|]. split; [done|]. simpl. lia.
  - destruct Hr as (Hok & Hh & Hmax).
    destruct (Hf mode (header ++ bytes)) as (c1 & E & Hs & ER & ET); [by apply Forall_app|zlia|].
    left. bind_step by exact E. eexists. split; [done|]. split; [done|]. simpl. rewrite ER, ET. split; [|done]. eexists. split; [done|]. split; [done|apply started_open].
Qed.

(** No bytes a server sends can break the client: on a header or payload
    of the size asked for, whatever it contains, on the end of the stream and
    on every error, the read handler returns without an exception (unless closing the socket
    throws) and without
    undefined behaviour, and either the next read is under way and nothing is
    scheduled, or the connection is given up and a reconnect is scheduled. *)
Theorem client_read_safe (h : Host) (O : OpenSSL) (L : OpenSSLLaws O) (rand_bytes : list Z)
    (target : read_target) (result : error_code + list Z) (c : Client) :
  srp_live (srp_ c) -> result_ok target result ->
  exists c', on_read (Ok tt) rand_bytes target result c = (Ok tt, c') /\ srp_live (srp_ c') /\
    ((exists r, reads c' = reads c ++ [r]) /\ reconnect_timer c' = reconnect_timer c \/
     connected c' = false /\ socket c' = SocketClosed /\ reconnect_timer c' = rearm (reconnect_timer c)).
Proof.
  intros Hc Hr. destruct (read_handler_ok h O L (Ok tt) rand_bytes target result c Hc Hr) as [(c' & E & Hs & (r & Er & _) & ?)| ->]; eexists; (split; [done|]).
  - split; [done|]. left. eauto.
  - split; [done|]. by right.
Qed.

Lemma client_read_safe_witness :
  exists c', on_read (host := little) (O := reference) (Ok tt) [] (ReadHeader AUTH_SESSION) (inr [255; 0; 0])
    (Client_new (O := reference)) = (Ok tt, c').
Proof.
  destruct (client_read_safe little reference reference_laws [] (ReadHeader AUTH_SESSION) (inr [255; 0; 0])
    (Client_new (O := reference))) as (c' & E & _).
  - exists (spec_new (O := reference)). apply (SRP6_new_rep (O := reference)).
  - split; [|reflexivity]. repeat constructor; unfold byte_ok; lia.
  - exists c'. exact E.
Defined.
