(* ===== verification/ClientLoop.v ===== *)
(** * The client as a transition system

    The steps of the client while one connection lasts: what the operating
    system does to its pending operations, the handlers as they run, in any
    order, and the calls of the program that owns it.  Establishing the next
    connection is the separate relation [establish].  Shown: the outgoing
    queue is a FIFO that survives the loss of the connection, no packet of the
    server can make a read handler throw or reach undefined behaviour, and
    what happens on and after a disconnect. *)

From S2P Require Import Prelude Machine ByteBuffer MessageBuffer SRP6 OpenSSL Packet AuthPacket.
From S2P Require Import WorkPacket AccountCache Database ClientSession HandlersAuth Readers SessionLoop Client.

Section steps.
Context {host : Host} {O : OpenSSL}.
Implicit Types c : Client.

(** What the operating system does to the operations under way, without establishing a connection. *)
Inductive os_step : Client -> Client -> Prop :=
| os_sends c l1 w l2 n :
    socket c = SocketConnected -> writes c = l1 ++ w :: l2 -> w_status w = Pending ->
    (0 < n)%nat -> (w_sent w + n <= length (w_data w))%nat ->
    os_step c (set_wire (wire c ++ take n (drop (w_sent w) (w_data w)))
      (set_writes (l1 ++ mkWrite (w_data w) (w_sent w + n) Pending :: l2) c))
| os_write_done c l1 w l2 :
    writes c = l1 ++ w :: l2 -> w_status w = Pending -> w_sent w = length (w_data w) ->
    os_step c (set_writes (l1 ++ mkWrite (w_data w) (w_sent w) (Done tt) :: l2) c)
| os_write_fails c l1 w l2 ec :
    writes c = l1 ++ w :: l2 -> w_status w = Pending ->
    os_step c (set_writes (l1 ++ mkWrite (w_data w) (w_sent w) (Failed ec) :: l2) c)
| os_receives c l1 r l2 bytes :
    socket c = SocketConnected -> reads c = l1 ++ r :: l2 -> r_status r = Pending ->
    bytes_ok bytes -> zlen bytes = r_size r ->
    os_step c (set_reads (l1 ++ mkRead (r_target r) (r_size r) (Done bytes) :: l2) c)
| os_read_fails c l1 r l2 ec :
    reads c = l1 ++ r :: l2 -> r_status r = Pending ->
    os_step c (set_reads (l1 ++ mkRead (r_target r) (r_size r) (Failed ec) :: l2) c)
| os_connect_fails c l1 l2 ec :
    connects c = l1 ++ Pending :: l2 ->
    os_step c (set_connects (l1 ++ Failed ec :: l2) c)
| reconnect_fires c l1 l2 :
    reconnect_timer c = l1 ++ Pending :: l2 ->
    os_step c (set_reconnect_timer (l1 ++ Done tt :: l2) c)
| heartbeat_fires c l1 l2 :
    heartbeat_timer c = l1 ++ Pending :: l2 ->
    os_step c (set_heartbeat_timer (l1 ++ Done tt :: l2) c).

(** [handler_step c fs c']: a handler runs on the event loop, other than that of an established connection, and
    the frames [fs] are added to the outgoing queue.  A handler that throws is not a step: it ends the process. *)
Inductive handler_step : Client -> list (list Z) -> Client -> Prop :=
| run_read_handler c l1 r l2 result closing rand_bytes c' fs :
    reads c = l1 ++ r :: l2 -> finished (r_status r) = Some result ->
    on_read closing rand_bytes (r_target r) result (set_reads (l1 ++ l2) c) = (Ok tt, c') ->
    outgoing_queue c' = outgoing_queue c ++ fs ->
    handler_step c fs c'
| run_write_handler c l1 w l2 result closing c' :
    writes c = l1 ++ w :: l2 -> finished (w_status w) = Some result ->
    on_write closing (error_of result) (set_writes (l1 ++ l2) c) = (Ok tt, c') ->
    handler_step c [] c'
| run_connect_failed c l1 l2 ec closing c' :
    connects c = l1 ++ Failed ec :: l2 ->
    on_connect closing (Some ec) (set_connects (l1 ++ l2) c) = (Ok tt, c') ->
    handler_step c [] c'
| run_reconnect_handler c l1 st l2 result resolved c' :
    reconnect_timer c = l1 ++ st :: l2 -> finished st = Some result ->
    on_reconnect_timer (error_of result) resolved (set_reconnect_timer (l1 ++ l2) c) = (Ok tt, c') ->
    handler_step c [] c'
| run_heartbeat_handler c l1 st l2 result ping_id c' fs :
    heartbeat_timer c = l1 ++ st :: l2 -> finished st = Some result ->
    on_heartbeat_timer (error_of result) ping_id (set_heartbeat_timer (l1 ++ l2) c) = (Ok tt, c') ->
    outgoing_queue c' = outgoing_queue c ++ fs ->
    handler_step c fs c'
| run_disconnect c n c' :
    posted c = S n -> on_disconnect (set_posted n c) = (Ok tt, c') -> handler_step c [] c'.

(** A step of either kind. *)
Inductive loop_step : Client -> list (list Z) -> Client -> Prop :=
| by_system c c' : os_step c c' -> loop_step c [] c'
| by_handler c fs c' : handler_step c fs c' -> loop_step c fs c'.

(** With the calls of the program that owns the client. *)
Inductive step : Client -> list (list Z) -> Client -> Prop :=
| on_loop c fs c' : loop_step c fs c' -> step c fs c'
| call_disconnect c c' : disconnect c = (Ok tt, c') -> step c [] c'
| call_send_message c msg c' fs :
    send_message msg c = (Ok tt, c') -> outgoing_queue c' = outgoing_queue c ++ fs -> step c fs c'
| call_logon_challenge c username password c' fs :
    handle_logon_challenge username password c = (Ok tt, c') ->
    outgoing_queue c' = outgoing_queue c ++ fs -> step c fs c'.

Inductive steps : Client -> list (list Z) -> Client -> Prop :=
| steps_refl c : steps c [] c
| steps_snoc c fs c' fs' c'' : steps c fs c' -> step c' fs' c'' -> steps c (fs ++ fs') c''.

(** A connection attempt succeeds: the stream to the new peer is empty. *)
Inductive establish : Client -> Client -> Prop :=
| os_connected c l1 l2 :
    connects c = l1 ++ Pending :: l2 ->
    establish c (set_wire [] (set_socket SocketConnected (set_connects (l1 ++ Done tt :: l2) c)))
| run_connect_handler c l1 l2 closing c' :
    connects c = l1 ++ Done tt :: l2 ->
    on_connect closing None (set_connects (l1 ++ l2) c) = (Ok tt, c') ->
    establish c c'.

(** ** The write path of one connection *)

(** [total] are the frames queued when the connection was established and
    since; those taken off the queue are on the wire in full. *)
Definition conn_inv c (total : list (list Z)) : Prop :=
  exists sent, total = sent ++ outgoing_queue c /\
    match writes c with
    | [] => (connected c = true -> outgoing_queue c = []) /\
            exists part, wire c = concat sent ++ part /\ part `prefix_of` concat (outgoing_queue c)
    | [w] => (exists q, outgoing_queue c = w_data w :: q) /\
             wire c = concat sent ++ take (w_sent w) (w_data w) /\
             (w_sent w <= length (w_data w))%nat /\
             (w_status w = Done tt -> w_sent w = length (w_data w))
    | _ => False
    end.

(** A method that only appends to the queue, whatever its outcome. *)
Definition appends {A} (m : M Client A) : Prop := forall c total,
  conn_inv c total -> exists fs, conn_inv (m c).2 (total ++ fs) /\
    outgoing_queue (m c).2 = outgoing_queue c ++ fs.

(** A change that the write path does not see. *)
Definition quiet (f : Client -> Client) : Prop := forall c,
  outgoing_queue (f c) = outgoing_queue c /\ wire (f c) = wire c /\
  (connected (f c) = true -> connected c = true) /\
  exists g, writes (f c) = map (fun w => mkWrite (w_data w) (w_sent w) (g (w_status w))) (writes c) /\
    (forall st, g st = Done tt -> st = Done tt).

Lemma quiet_inv f c total : quiet f -> conn_inv c total -> conn_inv (f c) total.
Proof.
  intros Hf (sent & E & H). destruct (Hf c) as (Eq & Ew & Hc & g & Eg & Hg).
  exists sent. rewrite Eq, Ew, Eg. split; [done|].
  destruct (writes c) as [|w [|? ?]]; simpl; [|naive_solver|done].
  destruct H as [? ?]. eauto.
Qed.

Lemma quiet_appends f : quiet f -> appends (modify f).
Proof.
  intros Hf c total H. exists []. rewrite !app_nil_r. simpl. split; [by apply quiet_inv|]. apply Hf.
Qed.

Lemma appends_ret {A} (a : A) : appends (ret a).
Proof. intros c total H. exists []. by rewrite !app_nil_r. Qed.

Lemma appends_gets {A} (f : Client -> A) : appends (gets f).
Proof. intros c total H. exists []. by rewrite !app_nil_r. Qed.

Lemma appends_of_outcome {A} (o : outcome A) : appends (of_outcome o).
Proof. intros c total H. exists []. by rewrite !app_nil_r. Qed.

Lemma appends_on_local {A T} (m : M T A) t : appends (on_local m t).
Proof.
  intros c total H. exists []. rewrite !app_nil_r. unfold on_local. by destruct (m t) as [[] ?].
Qed.

Lemma appends_bind {A B} (m : M Client A) (f : A -> M Client B) :
  appends m -> (forall a, appends (f a)) -> appends (bind m f).
Proof.
  intros Hm Hf c total H. destruct (Hm c total H) as (fs & Hi & Eq). unfold bind.
  destruct (m c) as [[a| |] c']; simpl in *; [|by exists fs..].
  destruct (Hf a c' _ Hi) as (fs' & Hi' & Eq'). exists (fs ++ fs').
  rewrite !app_assoc. split; [done|]. by rewrite Eq', Eq.
Qed.

Lemma appends_try_catch {A} (m : M Client A) h :
  appends m -> (forall e, appends (h e)) -> appends (try_catch m h).
Proof.
  intros Hm Hh c total H. destruct (Hm c total H) as (fs & Hi & Eq). unfold try_catch.
  destruct (m c) as [[a|e|] c']; simpl in *; [by exists fs| |by exists fs].
  destruct (Hh e c' _ Hi) as (fs' & Hi' & Eq'). exists (fs ++ fs').
  rewrite !app_assoc. split; [done|]. by rewrite Eq', Eq.
Qed.

Lemma appends_with_srp {A} (m : M SRP6 A) : appends (with_srp m).
Proof.
  intros c total H. exists []. rewrite !app_nil_r. unfold with_srp, zoom.
  destruct (m (srp_ c)) as [r s]. simpl. done.
Qed.

Lemma flush_queue_inv c sent :
  writes c = [] -> wire c = concat sent ->
  exists c', flush_queue c = (Ok tt, c') /\ conn_inv c' (sent ++ outgoing_queue c) /\
    outgoing_queue c' = outgoing_queue c.
Proof.
  intros Hw Hwire. unfold flush_queue. destruct (connected c) eqn:Ec; simpl.
  - destruct (outgoing_queue c) as [|front q] eqn:Eq; (eexists; split; [done|]; split; [|done]); exists sent.
    + rewrite Eq, Hw. split; [done|]. split; [done|]. exists []. by rewrite app_nil_r.
    + unfold async_write. simpl. rewrite Eq, Hw. simpl. split; [done|].
      rewrite take_0, app_nil_r. split_and!; [by eexists|done|lia|].
      unfold started. by destruct (decide _).
  - eexists; split; [done|]; split; [|done]. exists sent. split; [done|]. rewrite Hw, Ec.
    split; [done|]. exists []. rewrite app_nil_r. split; [done|]. apply prefix_nil.
Qed.

Lemma appends_send_packet_impl f : appends (send_packet_impl f).
Proof.
  intros c total (sent & -> & H). exists [f]. unfold send_packet_impl.
  rewrite <- app_assoc. destruct (connected c) eqn:Ec; simpl.
  - destruct (writes c) as [|w [|? ?]] eqn:Ew; [| |done].
    + destruct H as (Hq & part & Hwire & Hp). rewrite Hq in * by done. simpl in *.
      apply prefix_nil_inv in Hp as ->. rewrite app_nil_r in Hwire.
      destruct (flush_queue_inv (set_queue [f] c) sent Ew Hwire) as (c' & -> & Hi & Eq). simpl.
      split; [exact Hi|]. exact Eq.
    + destruct H as ((q & Eq) & Hwire & Hr).
      replace (zlen (outgoing_queue c ++ [f]) =? 1) with false
        by (symmetry; apply Z.eqb_neq; rewrite Eq; pose proof (zlen_nonneg q); simpl; zlia).
      simpl. split; [|done]. exists sent. split; [done|]. simpl. rewrite Ew. split; [|done].
      rewrite Eq. by eexists.
  - split; [|done]. exists sent. split; [done|]. simpl. rewrite Ec.
    destruct (writes c) as [|w [|? ?]] eqn:Ew; [| |done].
    + split; [done|]. destruct H as (_ & part & Hwire & Hp). exists part. split; [done|].
      rewrite concat_app. by apply prefix_app_r.
    + destruct H as ((q & Eq) & H). split; [|done]. rewrite Eq. by eexists.
Qed.

Lemma map_write_id (l : list write_op) : l = map (fun w => mkWrite (w_data w) (w_sent w) (w_status w)) l.
Proof. induction l as [|[] l IH]; simpl; congruence. Qed.

Ltac quiet_tac :=
  let x := fresh "c" in intros x; simpl; split_and!; try done;
  first [exists (fun st => st); split; [apply map_write_id|done]
        |exists abort; split; [done|]; by intros []].

Lemma quiet_id : quiet (fun c => c).
Proof. quiet_tac. Qed.

Lemma appends_disconnect : appends disconnect.
Proof. apply quiet_appends. quiet_tac. Qed.

Lemma appends_on_disconnect : appends on_disconnect.
Proof.
  apply quiet_appends. intros c. simpl.
  destruct (decide (socket c = SocketClosed)); simpl; split_and!; try done.
  - exists (fun st => st). split; [apply map_write_id|done].
  - exists abort. split; [done|]. by intros [].
Qed.

Lemma appends_close_or_throw closing : appends (close_or_throw closing).
Proof.
  intros c total H. exists []. rewrite !app_nil_r. simpl. split; [|done]. apply (quiet_inv close_socket); [quiet_tac|done].
Qed.

Lemma appends_set_connected : appends (modify (set_connected false)).
Proof. apply quiet_appends. quiet_tac. Qed.

Lemma appends_schedule_reconnect closing : appends (schedule_reconnect closing).
Proof.
  apply appends_bind; [apply appends_set_connected|]. intros _. apply appends_bind; [apply appends_close_or_throw|]. intros _.
  apply quiet_appends. quiet_tac.
Qed.

Lemma appends_connect resolved : appends (connect resolved).
Proof.
  apply appends_bind; [apply appends_of_outcome|]. intros _. apply quiet_appends. quiet_tac.
Qed.

Lemma appends_set_session_mode mode : appends (modify (set_session_mode mode)).
Proof. apply quiet_appends. quiet_tac. Qed.

Lemma appends_start_heartbeat : appends start_heartbeat.
Proof. apply quiet_appends. quiet_tac. Qed.

Lemma appends_start_receive_loop : appends start_receive_loop.
Proof.
  intros c total H. exists []. rewrite !app_nil_r. simpl. done.
Qed.

Lemma appends_read_payload mode header n : appends (read_payload mode header n).
Proof. apply quiet_appends. quiet_tac. Qed.

Create HintDb appends.
#[local] Hint Resolve appends_ret appends_gets appends_of_outcome appends_on_local appends_with_srp
  appends_send_packet_impl appends_disconnect appends_schedule_reconnect appends_connect
  appends_set_connected appends_set_session_mode appends_start_heartbeat appends_start_receive_loop
  appends_read_payload : appends.

(** Decomposes a method into the ones above. *)
Ltac appends_tac :=
  repeat first
    [ progress intros
    | solve [auto with appends]
    | apply appends_bind
    | apply appends_try_catch
    | match goal with
      | |- appends (match ?x with _ => _ end) => destruct x
      | |- appends (if ?x then _ else _) => destruct x
      end ].

Lemma appends_drop_connection closing : appends (drop_connection closing).
Proof. unfold drop_connection. appends_tac. Qed.

Lemma appends_send_packet p : appends (send_packet p).
Proof. apply appends_send_packet_impl. Qed.
#[local] Hint Resolve appends_drop_connection appends_send_packet : appends.

Lemma appends_parse_and_handle mode rand_bytes raw : appends (parse_and_handle mode rand_bytes raw).
Proof.
  unfold parse_and_handle, handle_auth_packet, handle_work_packet, answer_challenge. appends_tac.
Qed.
#[local] Hint Resolve appends_parse_and_handle : appends.

Lemma appends_on_read closing rand_bytes target result : appends (on_read closing rand_bytes target result).
Proof. unfold on_read, on_header, on_payload, process_empty. cbv zeta. appends_tac. Qed.

Lemma appends_on_heartbeat_timer ec ping_id : appends (on_heartbeat_timer ec ping_id).
Proof. unfold on_heartbeat_timer, send_ping. appends_tac. Qed.

Lemma appends_send_message msg : appends (send_message msg).
Proof. unfold send_message. appends_tac. Qed.

Lemma appends_handle_logon_challenge username password : appends (handle_logon_challenge username password).
Proof. unfold handle_logon_challenge. appends_tac. Qed.


Lemma appends_run {A} (m : M Client A) c total r c' fs :
  appends m -> conn_inv c total -> m c = (r, c') ->
  outgoing_queue c' = outgoing_queue c ++ fs -> conn_inv c' (total ++ fs).
Proof.
  intros Hm Hi E Eq. destruct (Hm c total Hi) as (fs' & Hi' & Eq'). rewrite E in *. simpl in *.
  rewrite Eq in Eq'. apply app_inv_head in Eq' as ->. done.
Qed.

Lemma conn_single_write c total l1 w l2 :
  conn_inv c total -> writes c = l1 ++ w :: l2 -> l1 = [] /\ l2 = [].
Proof.
  intros (sent & _ & H) E. rewrite E in H.
  destruct l1 as [|? [|? ?]]; [destruct l2| |]; done.
Qed.

(** Changing the progress of the one write under way. *)
Lemma conn_inv_progress c total w n st :
  conn_inv c total -> writes c = [w] -> (w_sent w <= n <= length (w_data w))%nat ->
  (st = Done tt -> n = length (w_data w)) ->
  conn_inv (set_wire (wire c ++ take (n - w_sent w) (drop (w_sent w) (w_data w)))
              (set_writes [mkWrite (w_data w) n st] c)) total.
Proof.
  intros (sent & E & H) Ew Hn Hst. rewrite Ew in H. destruct H as (Hq & Hwire & _ & _).
  exists sent. split; [done|]. simpl. split_and!; auto; [|lia].
  rewrite Hwire, <- app_assoc. f_equal. rewrite take_take_drop. f_equal. lia.
Qed.

Lemma conn_inv_status c total w st :
  conn_inv c total -> writes c = [w] -> (st = Done tt -> w_sent w = length (w_data w)) ->
  conn_inv (set_writes [mkWrite (w_data w) (w_sent w) st] c) total.
Proof.
  intros Hi Ew Hst. destruct Hi as (sent & E & H). rewrite Ew in H. destruct H as (Hq & Hwire & ? & ?).
  by exists sent.
Qed.

(** The outcome of giving a connection up. *)
Lemma schedule_reconnect_run closing c : (schedule_reconnect closing c).1 = Ok tt \/ (schedule_reconnect closing c).1 = closing.
Proof. unfold schedule_reconnect, bind, modify, close_or_throw. destruct closing as [[]|e|]; [by left| |by right]. destruct (decide _); [by left|by right]. Qed.

Lemma schedule_reconnect_queue closing c : outgoing_queue (schedule_reconnect closing c).2 = outgoing_queue c.
Proof. unfold schedule_reconnect, bind, modify, close_or_throw. destruct closing as [[]|e|]; [done| |done]. by destruct (decide _). Qed.

(** The handler of the one write: it never finds the queue empty. *)
Lemma on_write_inv closing c total w result :
  conn_inv c total -> writes c = [w] -> finished (w_status w) = Some result ->
  exists o c', on_write closing (error_of result) (set_writes [] c) = (o, c') /\ conn_inv c' total /\
    (o = Ok tt \/ error_of result <> None /\ o = closing).
Proof.
  intros (sent & -> & H) Ew Hf. rewrite Ew in H. destruct H as ((q & Eq) & Hwire & Hl & Hd).
  destruct result as [ec|[]]; simpl.
  - assert (conn_inv (set_connected false (set_writes [] c)) (sent ++ outgoing_queue c)) as Hi.
    { exists sent. split; [done|]. simpl. split; [done|]. exists (take (w_sent w) (w_data w)).
      split; [done|]. rewrite Eq. simpl. apply prefix_app_r, prefix_take. }
    unfold bind at 1, modify. pose proof (schedule_reconnect_run closing (set_connected false (set_writes [] c))) as Ho.
    pose proof (schedule_reconnect_queue closing (set_connected false (set_writes [] c))) as Hq.
    destruct (appends_schedule_reconnect closing _ _ Hi) as (fs & Hi' & Eq').
    destruct (schedule_reconnect closing (set_connected false (set_writes [] c))) as [o c']. simpl in *. exists o, c'. split; [done|].
    rewrite Hq, <- (app_nil_r (outgoing_queue c)) in Eq' at 1. apply app_inv_head in Eq' as <-.
    rewrite app_nil_r in Hi'. split; [done|]. destruct Ho; [by left|by right].
  - assert (w_status w = Done tt) as Hs by (destruct (w_status w) as [|[]|]; simpl in Hf; congruence).
    rewrite Eq. specialize (Hd Hs).
    destruct (flush_queue_inv (set_queue q (set_writes [] c)) (sent ++ [w_data w])) as (c' & E & Hi & _).
    + done.
    + simpl. rewrite Hwire, concat_app, Hd, firstn_all. simpl. by rewrite app_nil_r.
    + exists (Ok tt), c'. split; [done|]. rewrite <- app_assoc in Hi. split; [done|by left].
Qed.

(** A handler run after a change the write path does not see. *)
Lemma appends_after {A} (m : M Client A) f c total r c' fs :
  appends m -> quiet f -> conn_inv c total -> m (f c) = (r, c') ->
  outgoing_queue c' = outgoing_queue c ++ fs -> conn_inv c' (total ++ fs).
Proof.
  intros Hm Hf Hi E Eq. eapply (appends_run m (f c)); [done|by apply quiet_inv|exact E|].
  destruct (Hf c) as [-> _]. done.
Qed.

Lemma appends_after_nil {A} (m : M Client A) f c total r c' :
  appends m -> quiet f -> conn_inv c total -> m (f c) = (r, c') ->
  outgoing_queue c' = outgoing_queue c -> conn_inv c' total.
Proof.
  intros Hm Hf Hi E Eq. rewrite <- (app_nil_r total). eapply appends_after; eauto. by rewrite app_nil_r.
Qed.

Lemma conn_step_inv c fs c' total : conn_inv c total -> step c fs c' -> conn_inv c' (total ++ fs).
Proof.
  intros Hi Hs. destruct Hs as [c fs c' Hs|c c' Hd|c msg c' fs Hm Hq|c u p c' fs Hl Hq]; [destruct Hs as [c c' Hs|c fs c' Hs]; destruct Hs|..]; rewrite ?app_nil_r.
  all: try (match goal with H : writes _ = _ ++ _ :: _ |- _ =>
    destruct (conn_single_write _ _ _ _ _ Hi H) as [-> ->]; simpl in * end).
  - replace n with (w_sent w + n - w_sent w)%nat at 1 by lia. apply conn_inv_progress; auto; [lia|done].
  - by apply conn_inv_status.
  - by apply conn_inv_status.
  - apply (quiet_inv (set_reads _)); [quiet_tac|done].
  - apply (quiet_inv (set_reads _)); [quiet_tac|done].
  - apply (quiet_inv (set_connects _)); [quiet_tac|done].
  - apply (quiet_inv (set_reconnect_timer _)); [quiet_tac|done].
  - apply (quiet_inv (set_heartbeat_timer _)); [quiet_tac|done].
  - eapply (appends_after _ (set_reads _)); eauto using appends_on_read; quiet_tac.
  - match goal with H : on_write ?k _ _ = _ |- _ => edestruct (on_write_inv k) as (o & c2 & E & ? & _); [done|done|done|] end. congruence.
  - match goal with H : on_connect ?k _ ?x = _ |- _ => pose proof (schedule_reconnect_queue k x) as Hq;
      change (schedule_reconnect k x = (Ok tt, c')) in H; rewrite H in Hq end.
    eapply (appends_after_nil _ (set_connects _)); eauto using appends_schedule_reconnect; quiet_tac.
  - eapply (appends_after_nil _ (set_reconnect_timer _)); eauto using appends_connect; [quiet_tac|].
    match goal with H : on_reconnect_timer _ _ _ = _ |- _ =>
      apply bind_ok_inv in H as ([] & s1 & H1 & H2) end.
    injection H1 as -> <-. by injection H2 as <-.
  - eapply (appends_after _ (set_heartbeat_timer _)); eauto using appends_on_heartbeat_timer; quiet_tac.
  - eapply (appends_after_nil _ (set_posted _)); eauto using appends_on_disconnect; [quiet_tac|].
    match goal with H : on_disconnect _ = _ |- _ => injection H as <- end. simpl. by destruct (decide _).
  - eapply (appends_after_nil _ (fun c => c)); eauto using appends_disconnect; [quiet_tac|].
    match goal with H : disconnect _ = _ |- _ => by injection H as <- end.
  - eapply (appends_after _ (fun c => c)); eauto using appends_send_message; quiet_tac.
  - eapply (appends_after _ (fun c => c)); eauto using appends_handle_logon_challenge; quiet_tac.
Qed.

Lemma conn_steps_inv c fs c' : forall total, steps c fs c' -> conn_inv c total -> conn_inv c' (total ++ fs).
Proof.
  intros total Hs. induction Hs as [|c fs c' fs' c'' _ IH Hs]; intros Hi; [by rewrite app_nil_r|].
  rewrite app_assoc. eapply conn_step_inv; eauto.
Qed.

End steps.

(** ** Properties *)

(** C4: the outgoing queue of the client: from the moment a connection is
    established (nothing else under way), in every order of events, handlers
    and calls until the next one is, the frames taken off the queue are the
    oldest ones and are on the wire in full, the bytes on the wire are whole
    frames in queue order and a prefix of the next; at most one write is under
    way, and one is whenever the client is connected and has something to
    send; no completion handler finds the queue empty, and it throws only if the write failed and closing the
    socket throws.  So a packet given to
    the client while it is offline, or interrupted by a loss of the
    connection, stays queued and is sent from its first byte next time. *)
Theorem client_write_fifo (h : Host) (O : OpenSSL) (closing : outcome unit) (c c0 c' : Client) (fs : list (list Z)) :
  writes c = [] -> wire c = [] -> on_connect closing None c = (Ok tt, c0) -> steps c0 fs c' ->
  (exists sent, outgoing_queue c ++ fs = sent ++ outgoing_queue c' /\
     concat sent `prefix_of` wire c' /\ wire c' `prefix_of` concat (outgoing_queue c ++ fs)) /\
  (length (writes c') <= 1)%nat /\
  (connected c' = true -> outgoing_queue c' <> [] -> writes c' <> []) /\
  (forall l1 w l2 result, writes c' = l1 ++ w :: l2 -> finished (w_status w) = Some result ->
     closing = Ok tt \/ error_of result = None ->
     exists c'', on_write closing (error_of result) (set_writes (l1 ++ l2) c') = (Ok tt, c'')).
Proof.
  intros Hw Hwire E Hs.
  assert (conn_inv c0 (outgoing_queue c)) as Hi0.
  { unfold on_connect in E. rewrite (bind_ok _ _ _ _ _ (eq_refl : modify (set_connected true) c = _)) in E.
    erewrite bind_ok in E by reflexivity.
    apply bind_ok_inv in E as ([] & c1 & E1 & E2).
    match type of E1 with flush_queue ?x = _ =>
      destruct (flush_queue_inv x [] Hw Hwire) as (c1' & E1' & Hi & _) end.
    rewrite E1 in E1'. injection E1' as <-.
    eapply (appends_after_nil _ (fun c => c)); [apply appends_start_heartbeat|apply quiet_id|exact Hi|exact E2|].
    by injection E2 as <-. }
  pose proof (conn_steps_inv _ _ _ _ Hs Hi0) as Hi. split_and!.
  - destruct Hi as (sent & Et & H). exists sent. rewrite Et. split; [done|].
    destruct (writes c') as [|w [|? ?]]; [| |done].
    + destruct H as (_ & part & -> & Hp). split; [by apply prefix_app_r|].
      rewrite concat_app. by apply prefix_app.
    + destruct H as ((q & Eq) & -> & _). split; [by apply prefix_app_r|].
      rewrite concat_app, Eq. apply prefix_app. simpl. apply prefix_app_r, prefix_take.
  - destruct Hi as (sent & Et & H). destruct (writes c') as [|w [|? ?]]; simpl; lia || done.
  - destruct Hi as (sent & Et & H). intros Hc Hq Ew. rewrite Ew in H. by destruct H as [H _]; apply Hq, H.
  - intros l1 w l2 result Ew Hf Hk. destruct (conn_single_write _ _ _ _ _ Hi Ew) as [-> ->].
    destruct (on_write_inv closing _ _ _ _ Hi Ew Hf) as (o & c'' & Er & _ & Ho). exists c''. change ([] ++ []) with (@nil write_op). rewrite Er. naive_solver.
Qed.

(** A client with one queued packet whose connection attempt succeeded. *)
Definition demo_online : Client :=
  mkClient SocketConnected false [[1; 0; 0]] AUTH_SESSION SRP6_zero [] [] [] [] [] 0 [].
Definition demo_writing : Client := (on_connect (Ok tt) None demo_online).2.
Definition demo_sent : Client :=
  set_writes [mkWrite [1; 0; 0] 3 (Done tt)] (set_wire [1; 0; 0] demo_writing).

Lemma demo_sent_reachable : steps (host := little) (O := reference) demo_writing [] demo_sent.
Proof.
  apply (steps_snoc _ [] (set_wire [1; 0; 0] (set_writes [mkWrite [1; 0; 0] 3 Pending] demo_writing)) []).
  - apply (steps_snoc _ [] demo_writing []); [apply steps_refl|].
    apply on_loop, by_system, (os_sends demo_writing [] (mkWrite [1; 0; 0] 0 Pending) [] 3); reflexivity || (simpl; lia).
  - apply on_loop, by_system, (os_write_done (set_wire [1; 0; 0] (set_writes [mkWrite [1; 0; 0] 3 Pending] demo_writing))
      [] (mkWrite [1; 0; 0] 3 Pending) []); reflexivity.
Qed.

Lemma client_write_fifo_witness :
  wire demo_sent `prefix_of` concat (outgoing_queue demo_online ++ []) /\
  exists c'', on_write (Ok tt) (error_of (inr tt)) (set_writes ([] ++ []) demo_sent) = (Ok tt, c'').
Proof.
  destruct (client_write_fifo little reference (Ok tt) demo_online demo_writing demo_sent [])
    as ((sent & _ & _ & Hp) & _ & _ & Hw).
  - reflexivity.
  - reflexivity.
  - reflexivity.
  - exact demo_sent_reachable.
  - split; [exact Hp|]. apply (Hw [] (mkWrite [1; 0; 0] 3 (Done tt)) [] (inr tt)); [reflexivity|reflexivity|left; reflexivity].
Defined.

(** [disconnect] does not end the connection for good, closing the socket without an error: on an idle,
    connected client the closure it posts aborts the pending read, the handler
    of that read schedules a reconnect, and when the timer fires the client
    connects again; a reconnect that was scheduled before is not cancelled
    either, its handler, run with [operation_aborted], connects at once. *)
Theorem disconnect_reconnects (h : Host) (O : OpenSSL) (c : Client) (target : read_target) (size : Z)
    (rand_bytes : list Z) :
  socket c = SocketConnected -> reads c = [mkRead target size Pending] -> connects c = [] ->
  (reconnect_timer c = [] -> exists c1 c2 c3,
     on_disconnect c = (Ok tt, c1) /\ reads c1 = [mkRead target size (Failed operation_aborted)] /\
     on_read (Ok tt) rand_bytes target (inl operation_aborted) (set_reads [] c1) = (Ok tt, c2) /\
     reconnect_timer c2 = [Pending] /\
     on_reconnect_timer None (Ok tt) (set_reconnect_timer [] c2) = (Ok tt, c3) /\
     socket c3 = SocketConnecting /\ connects c3 = [Pending]) /\
  (reconnect_timer c = [Pending] -> exists c1 c2,
     on_disconnect c = (Ok tt, c1) /\ reconnect_timer c1 = [Failed operation_aborted] /\
     on_reconnect_timer (Some operation_aborted) (Ok tt) (set_reconnect_timer [] c1) = (Ok tt, c2) /\
     socket c2 = SocketConnecting /\ connects c2 = [Pending]).
Proof.
  intros Hs Hr Hc.
  assert (exists c1, on_disconnect c = (Ok tt, c1) /\
    reads c1 = [mkRead target size (Failed operation_aborted)] /\ connects c1 = [] /\
    reconnect_timer c1 = cancel (reconnect_timer c)) as (c1 & E1 & Er & Ec & Et).
  { eexists. split; [done|]. simpl. rewrite Hs. simpl. by rewrite Hr, Hc. }
  split; intros Ht; rewrite Ht in Et; simpl in Et.
  - exists c1, (drop_connection (Ok tt) (set_reads [] c1)).2. eexists.
    split; [done|]. split; [done|]. split; [by destruct target|]. split; [simpl; by rewrite Et|].
    split; [done|]. simpl. by rewrite Ec.
  - exists c1. eexists. split; [done|]. split; [done|]. split; [done|]. simpl. by rewrite Ec.
Qed.

Lemma disconnect_reconnects_witness :
  exists c1 c2 c3, on_disconnect (set_writes [] demo_writing) = (Ok tt, c1) /\
    on_read (host := little) (O := reference) (Ok tt) [] (ReadHeader AUTH_SESSION) (inl operation_aborted)
      (set_reads [] c1) = (Ok tt, c2) /\
    on_reconnect_timer None (Ok tt) (set_reconnect_timer [] c2) = (Ok tt, c3) /\
    socket c3 = SocketConnecting.
Proof.
  destruct (disconnect_reconnects little reference (set_writes [] demo_writing) (ReadHeader AUTH_SESSION) 3 [])
    as [H _]; [reflexivity|reflexivity|reflexivity|].
  destruct H as (c1 & c2 & c3 & E1 & _ & E2 & _ & E3 & E4 & _); [reflexivity|].
  exists c1, c2, c3. split; [exact E1|]. split; [exact E2|]. split; [exact E3|exact E4].
Defined.

(** The session mode survives a lost connection: a client that was logged
    in reads headers of the work stage from its new connection and sends work
    pings on it, while the new session of the server is in the
    authentication stage; the reader of that stage takes the ping for the
    beginning of a packet of 256 bytes and answers nothing. *)
Theorem reconnect_keeps_work_mode (h : Host) (O : OpenSSL) (c c0 : Client) (ping_id : Z) :
  session_mode_ c = WORK_SESSION -> outgoing_queue c = [] -> writes c = [] ->
  on_connect (Ok tt) None c = (Ok tt, c0) ->
  session_mode_ c0 = WORK_SESSION /\ (exists r, last (reads c0) = Some r /\ r_target r = ReadHeader WORK_SESSION) /\
  exists c1 frame, send_ping ping_id c0 = (Ok tt, c1) /\ outgoing_queue c1 = [frame] /\
    next_frame AUTH_SESSION frame = Incomplete.
Proof.
  intros Hm Hq Hw E.
  assert (c0 = set_heartbeat_timer (rearm (heartbeat_timer c))
    (async_read (ReadHeader WORK_SESSION) 4 (set_connected true c))) as ->.
  { unfold on_connect, bind, modify, flush_queue in E. simpl in E. rewrite Hq, Hm in E. by injection E as <-. }
  simpl. rewrite last_snoc. split_and!; [done|eauto|].
  unfold send_ping. bind_step by done. unfold get_session_mode. simpl. rewrite Hm. simpl.
  unfold send_packet, send_packet_impl. simpl. rewrite Hq. eexists _, _.
  split; [reflexivity|]. split; [reflexivity|].
  rewrite work_build_packet_bytes. unfold Packet.write_uint32_le, on_buffer. simpl.
  unfold ByteBuffer.write_uint32_le. rewrite object_bytes_htole, write_bytes_appended.
  unfold ByteBuffer.size, next_frame. simpl. reflexivity.
Qed.

Lemma reconnect_keeps_work_mode_witness :
  exists c1 frame, send_ping (host := little) 7
      (on_connect (Ok tt) None (set_queue [] (set_session_mode WORK_SESSION demo_online))).2 = (Ok tt, c1) /\
    outgoing_queue c1 = [frame] /\ next_frame AUTH_SESSION frame = Incomplete.
Proof.
  destruct (reconnect_keeps_work_mode little reference (set_queue [] (set_session_mode WORK_SESSION demo_online))
    (on_connect (Ok tt) None (set_queue [] (set_session_mode WORK_SESSION demo_online))).2 7) as (_ & _ & H);
    [reflexivity..|exact H].
Defined.

(** ** Two failures of one connection *)

(** Any step of the client, one that establishes a connection included. *)
Definition any_step `{host : Host} {O : OpenSSL} (c c' : Client) : Prop := step c [] c' \/ establish c c'.

(** Offline with nothing under way but two reconnect waits, one cancelled. *)
Definition torn (c : Client) : Prop :=
  socket c = SocketClosed /\ connected c = false /\ connects c = [] /\ reads c = [] /\ writes c = [] /\
  reconnect_timer c = [Failed operation_aborted; Pending].

(** A connection whose read and write both fail leaves two reconnect waits,
    the first cancelled by the second.  The handler of the cancelled one
    connects at once, so the client is connected again while the other wait is
    still pending; when that one fires the working connection is closed, its
    aborted read and the aborted connection attempt schedule a reconnect each,
    and the client is where it was: it drops every connection it makes. *)
Theorem double_failure_never_settles (h : Host) (O : OpenSSL) (c : Client) :
  outgoing_queue c = [] ->
  (forall target rand_bytes e1 e2, socket c = SocketConnected -> connects c = [] ->
     reads c = [] -> writes c = [] -> reconnect_timer c = [] ->
     exists c1 c2, on_read (Ok tt) rand_bytes target (inl e1) c = (Ok tt, c1) /\
       on_write (Ok tt) (Some e2) c1 = (Ok tt, c2) /\ torn c2) /\
  (torn c -> exists c1 c2,
     rtc any_step c c1 /\ connected c1 = true /\ socket c1 = SocketConnected /\ reconnect_timer c1 = [Pending] /\
     rtc any_step c1 c2 /\ torn c2 /\ outgoing_queue c2 = []).
Proof.
  intros Hq. split.
  - intros target rand_bytes e1 e2 Hs Hc Hr Hw Ht. exists (drop_connection (Ok tt) c).2. eexists.
    split; [by destruct target|]. split; [done|]. unfold torn. simpl. by rewrite Hc, Hr, Hw, Ht.
  - intros (Hs & Hn & Hc & Hr & Hw & Ht).
    destruct c as [sock conn q mode srp cs rs ws rt ht po wi]. simpl in *. subst.
    set (read := mkRead (ReadHeader mode) (header_bytes mode)).
    set (st s k cs rs rt ht w := mkClient s k [] mode srp cs rs [] rt ht po w).
    exists (st SocketConnected true [] [read Pending] [Pending] (rearm ht) []).
    exists (st SocketClosed false [] [] [Failed operation_aborted; Pending] (rearm ht) []).
    split_and!; try done.
    + eapply rtc_l; [left; apply on_loop, by_handler; eapply (run_reconnect_handler _ [] (Failed operation_aborted) [Pending] _ (Ok tt)); reflexivity|].
      eapply rtc_l; [right; apply (os_connected _ [] []); reflexivity|].
      apply rtc_once. right. eapply (run_connect_handler _ [] [] (Ok tt)); reflexivity.
    + eapply rtc_l; [left; apply on_loop, by_system, (reconnect_fires _ [] []); reflexivity|].
      eapply rtc_l; [left; apply on_loop, by_handler; eapply (run_reconnect_handler _ [] (Done tt) [] _ (Ok tt)); reflexivity|].
      eapply rtc_l; [left; apply on_loop, by_handler; eapply (run_read_handler _ [] (read (Failed operation_aborted)) [] _ (Ok tt) []);
        [reflexivity|reflexivity|reflexivity|reflexivity]|].
      apply rtc_once. left. apply on_loop, by_handler. eapply (run_connect_failed _ [] [] _ (Ok tt)); reflexivity.
Qed.

Lemma double_failure_never_settles_witness :
  let c := mkClient SocketClosed false [] AUTH_SESSION SRP6_zero [] [] [] [Failed operation_aborted; Pending] [] 0 [] in
  exists c1 c2, rtc (any_step (host := little) (O := reference)) c c1 /\ connected c1 = true /\
    rtc (any_step (host := little) (O := reference)) c1 c2 /\ torn c2.
Proof.
  intros c. destruct (double_failure_never_settles little reference c) as [_ H]; [reflexivity|].
  destruct H as (c1 & c2 & H1 & H2 & _ & _ & H3 & H4 & _); [repeat split|].
  exists c1, c2. split; [exact H1|]. split; [exact H2|]. split; [exact H3|exact H4].
Defined.
