(* ===== verification/ClientProgram.v ===== *)
(** * The client program (src/main_client.cpp)

    The objects and threads of the main function: the client, the timer that
    starts the login, the wait for signals and the thread that reads standard
    input.  Completion handlers run on the event loop until it is stopped; the
    input thread runs beside it and calls the client without synchronisation.
    When one of the two threads begins to use the client while the other has not
    finished, C++ leaves the behaviour undefined: the run ends in [Overlap].  The
    theorems are about the runs up to that point; without input there is none.  An
    exception that leaves a handler ends the process, see [Main]. *)

From S2P Require Import Prelude Machine ByteBuffer MessageBuffer SRP6 OpenSSL Packet AuthPacket.
From S2P Require Import WorkPacket ClientSession HandlersAuth Readers SessionLoop Client ClientSafety ClientLoop.

(** [reading]: standard input has not ended; [stopped]: [io.stop()] was called. *)
Record program := mkProgram {
  client : Client;
  timer1 : list (status unit);
  signals : list (status unit);
  reading : bool;
  stopped : bool }.

Definition set_client (c : Client) (p : program) : program := mkProgram c (timer1 p) (signals p) (reading p) (stopped p).
Definition set_timer1 (t : list (status unit)) (p : program) : program := mkProgram (client p) t (signals p) (reading p) (stopped p).
Definition set_signals (l : list (status unit)) (p : program) : program := mkProgram (client p) (timer1 p) l (reading p) (stopped p).
Definition set_reading (b : bool) (p : program) : program := mkProgram (client p) (timer1 p) (signals p) b (stopped p).
Definition set_stopped (b : bool) (p : program) : program := mkProgram (client p) (timer1 p) (signals p) (reading p) b.

Section program.
Context {host : Host} {O : OpenSSL}.

Definition on_client {A} (m : M Client A) : M program A := zoom client set_client m.

(** [main] up to [io.run()]; [resolved] is what resolving the address of the server does. *)
Definition start (resolved : outcome unit) : outcome program :=
  match connect resolved Client_new with
  | (Ok _, c) => Ok (mkProgram c [Pending] [Pending] true false)
  | (Throw e, _) => Throw e
  | (Undef, _) => Undef
  end.

(** The handler of the timer. *)
Definition on_timer1 (ec : option error_code) : M program unit :=
  match ec with
  | None => on_client (handle_logon_challenge [49] [49])
  | Some _ => ret tt
  end.

(** The handler of the signals. *)
Definition on_signal : M program unit :=
  do! on_client disconnect in
  modify (set_stopped true).

(** One round of the input thread. *)
Definition on_line (line : list Z) : M program unit := on_client (send_message line).

(** Who takes a step. *)
Inductive actor := the_system | loop_thread | input_thread.
#[export] Instance actor_eq_dec : EqDecision actor.
Proof. solve_decision. Defined.

(** One step of the program: an event, a handler, or a call of the input thread, from beginning to end. *)
Inductive pstep : actor -> program -> program -> Prop :=
| system_step p c' : os_step (client p) c' -> pstep the_system p (set_client c' p)
| system_connects p l1 l2 :
    connects (client p) = l1 ++ Pending :: l2 ->
    pstep the_system p (set_client (set_wire [] (set_socket SocketConnected (set_connects (l1 ++ Done tt :: l2) (client p)))) p)
| timer1_fires p : timer1 p = [Pending] -> pstep the_system p (set_timer1 [Done tt] p)
| signal_arrives p : signals p = [Pending] -> pstep the_system p (set_signals [Done tt] p)
| input_ends p : reading p = true -> pstep the_system p (set_reading false p)
| client_step p fs c' : stopped p = false -> handler_step (client p) fs c' -> pstep loop_thread p (set_client c' p)
| client_connected p l1 l2 closing c' :
    stopped p = false -> connects (client p) = l1 ++ Done tt :: l2 ->
    on_connect closing None (set_connects (l1 ++ l2) (client p)) = (Ok tt, c') -> pstep loop_thread p (set_client c' p)
| run_timer1 p st result p' :
    stopped p = false -> timer1 p = [st] -> finished st = Some result ->
    on_timer1 (error_of result) (set_timer1 [] p) = (Ok tt, p') -> pstep loop_thread p p'
| run_signal p st result p' :
    stopped p = false -> signals p = [st] -> finished st = Some result ->
    on_signal (set_signals [] p) = (Ok tt, p') -> pstep loop_thread p p'
| input_line p line p' : reading p = true -> bytes_ok line -> on_line line p = (Ok tt, p') -> pstep input_thread p p'.

(** The program and the thread that uses the client; or both threads at once. *)
Inductive pstate := Running (p : program) (busy : option actor) | Overlap.

(** [typing]: the user enters lines.  What a thread does, it does when it begins; the system goes on meanwhile. *)
Inductive run_step (typing : bool) : pstate -> pstate -> Prop :=
| event p busy p' : pstep the_system p p' -> run_step typing (Running p busy) (Running p' busy)
| begins t p p' :
    t <> the_system -> (t = input_thread -> typing = true) -> pstep t p p' -> run_step typing (Running p None) (Running p' (Some t))
| ends t p : run_step typing (Running p (Some t)) (Running p None)
| overlaps t t' p p' :
    t' <> the_system -> (t' = input_thread -> typing = true) -> t' <> t -> pstep t' p p' -> run_step typing (Running p (Some t)) Overlap.

(** ** Reads of a bounded size, an intact SRP6 object *)

Definition read_ok (r : read_op) : Prop := read_sized r /\ forall b, r_status r = Done b -> bytes_ok b /\ zlen b = r_size r.
Definition client_ok (c : Client) : Prop := srp_live (srp_ c) /\ Forall read_ok (reads c).

Context {L : OpenSSLLaws O}.

Lemma abort_ok rs : Forall read_ok rs -> Forall read_ok (map (fun r => mkRead (r_target r) (r_size r) (abort (r_status r))) rs).
Proof.
  intros H. apply Forall_map. eapply Forall_impl; [exact H|]. intros [t n st] [Hs Hb]. split; [exact Hs|]. intros b Eb. apply Hb. simpl in *. by destruct st.
Qed.

Lemma close_socket_ok c : client_ok c -> client_ok (close_socket c).
Proof. intros [Hs Hr]. split; [done|]. by apply abort_ok. Qed.

Lemma result_of_read c r result l1 l2 :
  client_ok c -> reads c = l1 ++ r :: l2 -> finished (r_status r) = Some result -> result_ok (r_target r) result.
Proof.
  intros [_ Hr] E Hf. rewrite E in Hr. apply Forall_app in Hr as [_ Hr]. apply Forall_cons in Hr as [[Hs Hb] _].
  destruct result as [ec|bytes]; [done|]. assert (Ed : r_status r = Done bytes) by (destruct (r_status r); simpl in Hf; congruence). destruct (Hb bytes Ed) as [Hok Hl].
  split; [done|]. unfold read_sized in Hs. destruct (r_target r) as [mode|mode header]; [congruence|]. destruct Hs as (Hh & El & Hn). split; [done|]. destruct mode; simpl in El; unfold max_vec; lia.
Qed.

Lemma removed_ok c l1 r l2 : client_ok c -> reads c = l1 ++ r :: l2 -> client_ok (set_reads (l1 ++ l2) c).
Proof. intros [Hs Hr] E. split; [done|]. simpl. rewrite E in Hr. apply Forall_app in Hr as [H1 H2]. apply Forall_cons in H2 as [_ H2]. by apply Forall_app. Qed.

Lemma replaced_ok c l1 r r' l2 : client_ok c -> reads c = l1 ++ r :: l2 -> read_ok r' -> client_ok (set_reads (l1 ++ r' :: l2) c).
Proof. intros [Hs Hr] E Hr'. split; [done|]. simpl. rewrite E in Hr. apply Forall_app in Hr as [H1 H2]. apply Forall_cons in H2 as [_ H2]. apply Forall_app. split; [done|]. by constructor. Qed.

Lemma sized_of c l1 r l2 : client_ok c -> reads c = l1 ++ r :: l2 -> read_sized r.
Proof. intros [_ Hr] E. rewrite E in Hr. apply Forall_app in Hr as [_ Hr]. apply Forall_cons in Hr as [[? _] _]. done. Qed.

(** ** Methods that return or throw what they may, and keep this *)

(** The exceptions that may leave a handler: those of closing the socket and of resolving the address of the server. *)
Section may_throw.
Context (closing resolved : outcome unit) (Hclosing : closing <> Undef) (Hresolved : resolved <> Undef).

Definition may_throw (e : exn) : Prop := closing = Throw e \/ resolved = Throw e.

Definition fine (m : M Client unit) : Prop := forall c, client_ok c ->
  match m c with
  | (Ok _, c') => client_ok c'
  | (Throw e, c') => client_ok c' /\ may_throw e
  | (Undef, _) => False
  end.

Lemma fine_ret : fine (ret tt).
Proof. by intros c Hc. Qed.
Lemma fine_modify f : (forall c, client_ok c -> client_ok (f c)) -> fine (modify f).
Proof. intros Hf c Hc. simpl. auto. Qed.
Lemma fine_bind (m k : M Client unit) : fine m -> fine k -> fine (do! m in k).
Proof. intros Hm Hk c Hc. specialize (Hm c Hc). unfold bind. destruct (m c) as [[[]|e|] c1]; [|done..]. by apply Hk. Qed.
Lemma fine_gets {A} (f : Client -> A) (k : A -> M Client unit) : (forall a, fine (k a)) -> fine (let! a := gets f in k a).
Proof. intros Hk c Hc. apply (Hk (f c) c Hc). Qed.

Lemma fine_flush_queue : fine flush_queue.
Proof. intros c Hc. unfold flush_queue. destruct (connected c); [|done]. by destruct (outgoing_queue c). Qed.
Lemma fine_send_packet p : fine (send_packet p).
Proof. intros c Hc. unfold send_packet, send_packet_impl. destruct (connected c); [|done]. cbn [negb]. destruct (_ =? 1); [by apply fine_flush_queue|done]. Qed.
Lemma fine_send_message msg : fine (send_message msg).
Proof. apply fine_gets. intros mode. destruct (decide _); [apply fine_ret|apply fine_send_packet]. Qed.
Lemma fine_disconnect : fine disconnect.
Proof. by apply fine_modify. Qed.
Lemma fine_start_heartbeat : fine start_heartbeat.
Proof. by apply fine_modify. Qed.
Lemma fine_heartbeat ec ping_id : fine (on_heartbeat_timer ec ping_id).
Proof.
  apply fine_gets. intros k. destruct ec; [apply fine_ret|]. destruct k; [|apply fine_ret]. apply fine_bind; [|apply fine_start_heartbeat].
  apply fine_gets. intros mode. destruct (decide _); apply fine_send_packet.
Qed.
Lemma fine_schedule_reconnect : fine (schedule_reconnect closing).
Proof.
  apply fine_bind; [by apply fine_modify|]. apply fine_bind; [|by apply fine_modify]. intros c Hc. unfold close_or_throw. apply close_socket_ok in Hc.
  destruct closing as [[]|e|] eqn:E; [done| |done]. destruct (decide _); [done|]. split; [done|]. by left.
Qed.
Lemma fine_drop_connection : fine (drop_connection closing).
Proof. apply fine_bind; [by apply fine_modify|apply fine_schedule_reconnect]. Qed.
Lemma fine_on_disconnect : fine on_disconnect.
Proof. apply fine_modify. intros c Hc. cbv zeta. destruct (decide _); [done|]. match goal with |- client_ok (set_connected _ (close_socket ?x)) => exact (close_socket_ok x Hc) end. Qed.
Lemma fine_connect : fine (connect resolved).
Proof.
  apply (fine_bind (of_outcome resolved)); [|apply fine_modify; intros c Hc; by apply (close_socket_ok c)].
  intros c Hc. unfold of_outcome. destruct resolved as [[]|e|] eqn:E; [done| |done]. split; [done|]. by right.
Qed.
Lemma fine_start_receive_loop : fine start_receive_loop.
Proof.
  intros c [Hs Hr]. split; [done|]. simpl. apply Forall_app. split; [done|]. constructor; [|done]. split; [done|]. intros b Eb. by destruct (started_open c b).
Qed.
Lemma fine_on_connect ec : fine (on_connect closing ec).
Proof.
  destruct ec; [apply fine_schedule_reconnect|]. apply fine_bind; [by apply fine_modify|]. apply fine_bind; [apply fine_start_receive_loop|]. apply fine_bind; [apply fine_flush_queue|apply fine_start_heartbeat].
Qed.
Lemma fine_logon username password : fine (handle_logon_challenge username password).
Proof.
  apply fine_bind; [|apply fine_send_packet]. intros c [Hs Hr]. pose proof (safe_set_credentials username password (srp_ c) Hs) as H. unfold with_srp, zoom. unfold set_credentials, bind, modify in *. simpl in *. by destruct H as [_ H].
Qed.

(** A read handler, on the result of a read of this client. *)
Lemma read_handler_fine c rand_bytes target result :
  client_ok c -> result_ok target result ->
  match on_read closing rand_bytes target result c with
  | (Ok _, c') => client_ok c'
  | (Throw e, c') => client_ok c' /\ may_throw e
  | (Undef, _) => False
  end.
Proof.
  intros [Hs Hr] Hres. destruct (read_handler_ok host O L closing rand_bytes target result c Hs Hres) as [(c' & -> & Hs' & (r & Er & Hsz & Hd) & _)| ->].
  - split; [done|]. rewrite Er. apply Forall_app. split; [done|]. constructor; [|done]. split; [done|]. intros b Eb. by destruct (Hd b).
  - by apply fine_drop_connection.
Qed.

(** The handler of a write may find the queue empty; where it returns, it keeps the rest. *)
Lemma on_write_keeps ec c c' : client_ok c -> on_write closing ec c = (Ok tt, c') -> client_ok c'.
Proof.
  intros Hc E. destruct ec as [ec|]; [pose proof (fine_drop_connection c Hc) as H; change (drop_connection closing c = (Ok tt, c')) in E; by rewrite E in H|].
  simpl in E. destruct (outgoing_queue c) as [|f q]; [done|]. pose proof (fine_flush_queue (set_queue q c) Hc) as H. by rewrite E in H.
Qed.

Lemma fine_run m (f : Client -> Client) c c' : fine m -> client_ok (f c) -> m (f c) = (Ok tt, c') -> client_ok c'.
Proof. intros Hm Hc E. specialize (Hm (f c) Hc). by rewrite E in Hm. Qed.

(** ** The program *)

Definition fine_program (m : M program unit) (p : program) : Prop :=
  match m p with
  | (Ok _, p') => client_ok (client p')
  | (Throw e, _) => may_throw e
  | (Undef, _) => False
  end.

Lemma on_client_fine m p : fine m -> client_ok (client p) -> fine_program (on_client m) p.
Proof. intros Hm Hc. specialize (Hm _ Hc). unfold fine_program, on_client, zoom. destruct (m (client p)) as [[[]|e|] c']; [done|by destruct Hm|done]. Qed.

Lemma on_signal_run p : client_ok (client p) -> exists c', on_signal p = (Ok tt, set_stopped true (set_client c' p)) /\ client_ok c'.
Proof. intros Hc. eexists. split; [reflexivity|]. done. Qed.
End may_throw.

Lemma os_step_keeps c c' : os_step c c' -> client_ok c -> client_ok c'.
Proof.
  intros Hs Hc. destruct Hs as [| | |c l1 r l2 bytes _ Er Hst Hok Hl|c l1 r l2 ec Er Hst| | |]; try done.
  - eapply replaced_ok; [done|exact Er|]. split; [exact (sized_of c l1 r l2 Hc Er)|]. intros b [= ->]. done.
  - eapply replaced_ok; [done|exact Er|]. split; [exact (sized_of c l1 r l2 Hc Er)|done].
Qed.

Lemma handler_step_keeps c fs c' : handler_step c fs c' -> client_ok c -> client_ok c'.
Proof.
  assert (Hdef : forall o : outcome unit, o <> Undef \/ o = Undef) by (intros []; (by right) || by left).
  intros Hs Hc. destruct Hs as [c l1 r l2 result closing rand c' fs Er Hf E _|c l1 w l2 result closing c' Ew Hf E|c l1 l2 ec closing c' Ec E|c l1 st l2 result resolved c' Et Hf E|c l1 st l2 result ping c' fs Et Hf E _|c n c' Ep E].
  - pose proof (result_of_read c r result l1 l2 Hc Er Hf) as Hres. pose proof (removed_ok c l1 r l2 Hc Er) as Hc0.
    destruct (Hdef closing) as [Hk| ->].
    + pose proof (read_handler_fine closing (Ok tt) Hk _ rand (r_target r) result Hc0 Hres) as H. by rewrite E in H.
    + destruct Hc0 as [Hs Hr]. destruct (read_handler_ok host O L Undef rand (r_target r) result (set_reads (l1 ++ l2) c) Hs Hres) as [(c2 & E2 & Hs' & (r2 & Er2 & Hsz & Hd) & _)|E2]; [|by rewrite E2 in E].
      rewrite E2 in E. injection E as <-. split; [done|]. rewrite Er2. apply Forall_app. split; [done|]. constructor; [|done]. split; [done|]. intros b Eb. by destruct (Hd b).
  - destruct (Hdef closing) as [Hk| ->]; [by apply (on_write_keeps closing (Ok tt) Hk (error_of result) (set_writes (l1 ++ l2) c))|].
    destruct (error_of result) as [ec|]; [done|]. by apply (on_write_keeps (Ok tt) (Ok tt) ltac:(done) None (set_writes (l1 ++ l2) c)).
  - destruct (Hdef closing) as [Hk| ->]; [|done]. by apply (fine_run closing (Ok tt) (on_connect closing (Some ec)) (set_connects (l1 ++ l2)) c c' (fine_on_connect _ _ Hk _)).
  - unfold on_reconnect_timer in E. destruct resolved as [[]|e|]; [|done|done]. by apply (fine_run (Ok tt) (Ok tt) (connect (Ok tt)) (set_reconnect_timer (l1 ++ l2)) c c' (fine_connect (Ok tt) (Ok tt) ltac:(done))).
  - by apply (fine_run (Ok tt) (Ok tt) _ (set_heartbeat_timer (l1 ++ l2)) c c' (fine_heartbeat _ _ (error_of result) ping)).
  - by apply (fine_run (Ok tt) (Ok tt) _ (set_posted n) c c' (fine_on_disconnect _ _)).
Qed.

(** The event loop runs exactly as long as the wait for signals. *)
Definition program_inv (p : program) : Prop :=
  client_ok (client p) /\ if stopped p then signals p = [] else exists st, signals p = [st].

Lemma program_ok m p p' : fine_program (Ok tt) (Ok tt) m p -> m p = (Ok tt, p') -> client_ok (client p').
Proof. unfold fine_program. intros H E. by rewrite E in H. Qed.

Lemma on_client_rest (m : M Client unit) p p' : on_client m p = (Ok tt, p') -> stopped p' = stopped p /\ signals p' = signals p.
Proof. unfold on_client, zoom. destruct (m (client p)). by intros [= -> <-]. Qed.

Lemma pstep_inv t p p' : pstep t p p' -> program_inv p -> program_inv p'.
Proof.
  intros Hs [Hc Hg]. unfold program_inv. destruct Hs as [p c' Ho|p l1 l2 E|p Ht|p Hp|p Hr|p fs c' Hn Hl|p l1 l2 closing c' Hn Ec E|p st result p' Hn Ht Hf E|p st result p' Hn Hp Hf E|p line p' Hr Hb E].
  - split; [by apply (os_step_keeps (client p))|done].
  - by split.
  - by split.
  - split; [done|]. simpl. rewrite Hp in Hg. destruct (stopped p); [done|eauto].
  - by split.
  - split; [by apply (handler_step_keeps (client p) fs)|done].
  - split; [|done]. by apply (fine_run (Ok tt) (Ok tt) (on_connect (Ok tt) None) (set_connects (l1 ++ l2)) (client p) c' (fine_on_connect (Ok tt) (Ok tt) ltac:(done) None)).
  - destruct (error_of result) as [ec|] eqn:Ee; cbn [on_timer1] in E; [injection E as <-; by split|].
    split; [by apply (program_ok _ (set_timer1 [] p) p' (on_client_fine _ _ _ (set_timer1 [] p) (fine_logon _ _ [49] [49]) Hc))|]. by destruct (on_client_rest _ _ _ E) as [-> ->].
  - destruct (on_signal_run (set_signals [] p) Hc) as (c' & E' & H'). rewrite E' in E. injection E as <-. by split.
  - split; [by apply (program_ok _ p p' (on_client_fine _ _ _ p (fine_send_message _ _ line) Hc))|]. by destruct (on_client_rest _ _ _ E) as [-> ->].
Qed.

Lemma program_start_inv p : start (Ok tt) = Ok p -> program_inv p.
Proof.
  assert (Hn : client_ok Client_new) by (split; [exists spec_new; apply SRP6_new_rep|constructor]). pose proof (fine_connect (Ok tt) (Ok tt) ltac:(done) Client_new Hn) as Hc.
  unfold start. destruct (connect (Ok tt) Client_new) as [[[]|e|] c]; [|done|done]. intros [= <-]. split; [exact Hc|by exists Pending].
Qed.

(** In a run the program keeps the invariant until the threads overlap, and that takes input. *)
Lemma run_inv typing p0 x : start (Ok tt) = Ok p0 -> rtc (run_step typing) (Running p0 None) x ->
  match x with
  | Running p busy => program_inv p /\ (busy = Some input_thread -> typing = true) /\ busy <> Some the_system
  | Overlap => typing = true
  end.
Proof.
  intros H0. apply (rtc_ind_r (fun x => match x with Running p busy => program_inv p /\ (busy = Some input_thread -> typing = true) /\ busy <> Some the_system | Overlap => typing = true end)).
  { split; [by apply program_start_inv|]. done. }
  intros y z _ Hs IH. destruct Hs as [p busy p' Hs|t p p' Hn Ht Hs|t p|t t' p p' Hn Ht Hne Hs].
  - destruct IH as [IH ?]. split; [by eapply pstep_inv|done].
  - destruct IH as [IH _]. split; [by eapply pstep_inv|]. split; [by intros [= ->]; auto|congruence].
  - destruct IH as [IH _]. by split.
  - destruct IH as (_ & Hb & Hb2). destruct t, t'; auto; done.
Qed.

(** What can begin next, apart from the handler of a write. *)
Inductive runnable (closing resolved : outcome unit) (p : program) : M program unit -> Prop :=
| can_read l1 r l2 result rand_bytes :
    reads (client p) = l1 ++ r :: l2 -> finished (r_status r) = Some result ->
    runnable closing resolved p (on_client (do! modify (set_reads (l1 ++ l2)) in on_read closing rand_bytes (r_target r) result))
| can_connect ec l1 st l2 :
    connects (client p) = l1 ++ st :: l2 -> runnable closing resolved p (on_client (do! modify (set_connects (l1 ++ l2)) in on_connect closing ec))
| can_reconnect ec l1 st l2 :
    reconnect_timer (client p) = l1 ++ st :: l2 ->
    runnable closing resolved p (on_client (do! modify (set_reconnect_timer (l1 ++ l2)) in on_reconnect_timer ec resolved))
| can_beat ec ping_id l1 st l2 :
    heartbeat_timer (client p) = l1 ++ st :: l2 ->
    runnable closing resolved p (on_client (do! modify (set_heartbeat_timer (l1 ++ l2)) in on_heartbeat_timer ec ping_id))
| can_disconnect n : posted (client p) = S n -> runnable closing resolved p (on_client (do! modify (set_posted n) in on_disconnect))
| can_log_on ec st : timer1 p = [st] -> runnable closing resolved p (do! modify (set_timer1 []) in on_timer1 ec)
| can_stop st : signals p = [st] -> runnable closing resolved p (do! modify (set_signals []) in on_signal)
| can_input line : reading p = true -> runnable closing resolved p (on_line line).

Lemma runnable_fine closing resolved p m :
  closing <> Undef -> resolved <> Undef -> client_ok (client p) -> runnable closing resolved p m -> fine_program closing resolved m p.
Proof.
  intros Hk Hv Hc Hm.
  assert (Hset : forall f m, fine closing resolved m -> client_ok (f (client p)) -> fine_program closing resolved (on_client (do! modify f in m)) p).
  { intros f k Hf Ho. specialize (Hf _ Ho). unfold fine_program, on_client, zoom, bind, modify. destruct (k (f (client p))) as [[[]|e|] c']; [done|by destruct Hf|done]. }
  destruct Hm as [l1 r l2 result rand_bytes Er Hf|ec l1 st l2 E|ec l1 st l2 E|ec ping l1 st l2 E|n E|ec st E|st E|line E].
  - pose proof (read_handler_fine closing resolved Hk (set_reads (l1 ++ l2) (client p)) rand_bytes (r_target r) result) as H.
    unfold fine_program, on_client, zoom, bind, modify. specialize (H ltac:(by eapply removed_ok) ltac:(by eapply result_of_read)).
    destruct (on_read closing rand_bytes (r_target r) result (set_reads (l1 ++ l2) (client p))) as [[[]|e|] c']; [done|by destruct H|done].
  - by apply Hset; [apply fine_on_connect|].
  - by apply Hset; [apply fine_connect|].
  - by apply Hset; [apply fine_heartbeat|].
  - by apply Hset; [apply fine_on_disconnect|].
  - destruct ec; [done|]. by apply (on_client_fine closing resolved (handle_logon_challenge [49] [49]) (set_timer1 [] p)); [apply fine_logon|].
  - done.
  - by apply on_client_fine; [apply fine_send_message|].
Qed.
End program.

(** C30: the client program: as long as the event loop and the input thread do not use the client at once (always, when the user enters
    nothing), in every state the program reaches, whatever the server, the user and the system do, what can begin next has no undefined
    behaviour, and no exception leaves it but that of closing the socket or of resolving the address of the
    server, so none when these succeed (the handler of a write
    is the subject of [client_write_fifo]): handlers of reads, connection attempts and timers, the posted disconnect, the start of the
    login, the handler of signals and the input thread.  The event loop has a signal to wait for until it is stopped, so
    it is the handler of signals, and nothing else, that ends it. *)
Theorem client_program_safe (h : Host) (O : OpenSSL) (L : OpenSSLLaws O) (typing : bool) (p0 : program) (x : pstate) :
  start (Ok tt) = Ok p0 -> rtc (run_step typing) (Running p0 None) x ->
  match x with
  | Running p _ =>
      (forall closing resolved m, closing <> Undef -> resolved <> Undef -> runnable closing resolved p m ->
         (m p).1 = Ok tt \/ exists e, (m p).1 = Throw e /\ (closing = Throw e \/ resolved = Throw e)) /\
      (stopped p = false <-> signals p <> [])
  | Overlap => typing = true
  end.
Proof.
  intros H0 Hs. pose proof (run_inv typing p0 x H0 Hs) as H. destruct x as [p busy|]; [|done]. destruct H as [[Hc Hg] _]. split.
  - intros closing resolved m Hk Hv Hm. pose proof (runnable_fine closing resolved p m Hk Hv Hc Hm) as Hf. unfold fine_program in Hf.
    destruct (m p) as [[[]|e|] p']; [by left| |done]. right. by exists e.
  - destruct (stopped p); [by rewrite Hg|destruct Hg as [st ->]; done].
Qed.

(** The program just started, and after a signal arrived. *)
Definition demo_start : program := mkProgram (async_connect (Client_new (O := reference))) [Pending] [Pending] true false.

Lemma client_program_safe_witness :
  start (O := reference) (Ok tt) = Ok demo_start /\
  rtc (run_step (host := little) (O := reference) false) (Running demo_start None) (Running (set_signals [Done tt] demo_start) None) /\
  ((do! modify (set_signals []) in on_signal) (set_signals [Done tt] demo_start)).1 = Ok tt.
Proof.
  assert (Hs : rtc (run_step (host := little) (O := reference) false) (Running demo_start None) (Running (set_signals [Done tt] demo_start) None))
    by (apply rtc_once, event, signal_arrives; reflexivity).
  split; [reflexivity|]. split; [exact Hs|].
  destruct (client_program_safe little reference reference_laws false demo_start (Running (set_signals [Done tt] demo_start) None) eq_refl Hs) as [H _].
  destruct (H (Ok tt) (Ok tt) (do! modify (set_signals []) in on_signal)) as [E|(e & _ & [E|E])]; [discriminate|discriminate| |exact E|discriminate|discriminate].
  apply (can_stop _ _ _ (Done tt)). reflexivity.
Defined.

(** With a line of input the two threads can overlap: the input thread is in [send_message] when the timer starts the login. *)
Theorem client_threads_overlap :
  rtc (run_step (host := little) (O := reference) true) (Running demo_start None) Overlap.
Proof.
  eapply rtc_l; [apply event, timer1_fires; reflexivity|].
  eapply rtc_l; [apply (begins _ input_thread); [done|done|]; apply (input_line _ []); [reflexivity|constructor|reflexivity]|].
  apply rtc_once, (overlaps _ input_thread loop_thread _ (on_timer1 (host := little) None (set_timer1 [] (set_timer1 [Done tt] demo_start))).2);
    [done|done|done|]. eapply (run_timer1 _ (Done tt) (inr tt)); reflexivity.
Qed.

(** ** The end of the program *)

Section stop.
Context {host : Host} {O : OpenSSL}.

(** What of the connection a stopped program leaves alone: the posted closures, and a socket that is connected. *)
Definition left_alone (c c' : Client) : Prop := posted c' = posted c /\ (socket c' = socket c \/ socket c' = SocketConnected).

Lemma send_message_leaves msg c c' : send_message msg c = (Ok tt, c') -> left_alone c c'.
Proof.
  unfold send_message, bind, gets. destruct (decide _); [intros [= <-]; by split; [|left]|].
  unfold send_packet, send_packet_impl. destruct (connected c) eqn:Ec; cbn [negb]; [|intros [= <-]; by split; [|left]].
  destruct (_ =? 1); [|intros [= <-]; by split; [|left]]. unfold flush_queue. cbn [connected set_queue]. rewrite Ec. cbn [negb].
  destruct (outgoing_queue (set_queue _ c)); intros [= <-]; by split; [|left].
Qed.

Lemma stopped_step t p p' : pstep t p p' -> stopped p = true -> stopped p' = true /\ left_alone (client p) (client p').
Proof.
  intros Hs Hst. destruct Hs as [q c' Ho|q l1 l2 _| | | |q fs c' Hn _|q l1 l2 closing c' Hn _ _|q st result q' Hn _ _ _|q st result q' Hn _ _ _|q line q' _ _ E]; try congruence.
  - split; [done|]. destruct Ho; by split; [|left].
  - split; [done|]. by split; [|right].
  - by split; [|split; [|left]].
  - by split; [|split; [|left]].
  - by split; [|split; [|left]].
  - unfold on_line, on_client, zoom in E. destruct (send_message line (client q)) as [r c'] eqn:Em. injection E as -> <-. split; [done|]. by apply (send_message_leaves line).
Qed.

Definition any_pstep (p p' : program) : Prop := exists t, pstep t p p'.

Lemma stopped_steps p p' : rtc any_pstep p p' -> stopped p = true -> stopped p' = true /\ left_alone (client p) (client p').
Proof.
  induction 1 as [q|q q1 q2 [t Hq] _ IH]; [by split; [|split; [|left]]|]. intros Hst. destruct (stopped_step t q q1 Hq Hst) as [Hst1 [Hp Hs]].
  destruct (IH Hst1) as [Hst2 [Hp2 Hs2]]. split; [done|]. split; [congruence|]. destruct Hs2 as [->|?]; [done|by right].
Qed.
End stop.

(** A signal does not shut the connection down: the handler posts the closure of [disconnect] to the event loop and then stops the loop,
    so whatever happens until the process ends, the closure does not run and an open socket stays open. *)
Theorem signal_leaves_connection (h : Host) (O : OpenSSL) (p p1 p2 : program) :
  on_signal p = (Ok tt, p1) -> rtc any_pstep p1 p2 ->
  stopped p2 = true /\ posted (client p2) = S (posted (client p)) /\
  (socket (client p2) = socket (client p) \/ socket (client p2) = SocketConnected).
Proof. intros E Hs. injection E as <-. destruct (stopped_steps _ _ Hs eq_refl) as [Hst [Hp Hk]]. done. Qed.

Lemma signal_leaves_connection_witness :
  let p := mkProgram demo_writing [] [] true false in
  exists p1, on_signal p = (Ok tt, p1) /\ stopped p1 = true /\ posted (client p1) = 1%nat /\ socket (client p1) = SocketConnected.
Proof.
  intros p. exists (on_signal p).2. split; [reflexivity|]. destruct (signal_leaves_connection little reference p (on_signal p).2 (on_signal p).2) as (H1 & H2 & H3); [reflexivity|apply rtc_refl|].
  split; [exact H1|]. split; [exact H2|]. destruct H3 as [H3|H3]; exact H3.
Defined.
