(* ===== verification/Login.v ===== *)
(** * The login, from the client's call to both sides in the work stage

    The client, the packet formats, the server's session with its receive
    buffer, reader and handlers, the account cache or database, and the SRP6
    objects of both sides, composed as the programs compose them.  What a
    frame does to the client is [deliver]: the pending header read completes,
    its handler starts the payload read, which completes. *)

From S2P Require Import Prelude Machine ByteBuffer MessageBuffer SRP6 OpenSSL Packet AuthPacket.
From S2P Require Import WorkPacket UTF8Utils AccountCache PreparedStatement Database ClientSession.
From S2P Require Import HandlersAuth Readers SessionLoop Client.

(** ** The client receives a frame *)

Section client.
Context {host : Host} {O : OpenSSL} {L : OpenSSLLaws O}.

(** The one pending read completes with the first bytes of [stream]. *)
Definition complete_read (rand_bytes stream : list Z) : M Client (list Z) := fun k =>
  match reads k with
  | [r] =>
      let n := Z.to_nat (r_size r) in
      if decide (n <= length stream)%nat
      then (do! on_read (Ok tt) rand_bytes (r_target r) (inr (take n stream)) in ret (drop n stream)) (set_reads [] k)
      else (Ok stream, k)
  | _ => (Ok stream, k)
  end.

(** A frame with a payload: two reads. *)
Definition deliver (rand_bytes frame : list Z) : M Client unit :=
  let! rest := complete_read rand_bytes frame in
  do! complete_read rand_bytes rest in
  ret tt.

Definition awaiting_header (k : Client) : Prop :=
  reads k = [mkRead (ReadHeader (session_mode_ k)) (header_bytes (session_mode_ k)) Pending] /\
  socket k = SocketConnected.

Lemma complete_read_ok rand_bytes k r bytes rest k' :
  reads k = [r] -> zlen bytes = r_size r ->
  on_read (Ok tt) rand_bytes (r_target r) (inr bytes) (set_reads [] k) = (Ok tt, k') ->
  complete_read rand_bytes (bytes ++ rest) k = (Ok rest, k').
Proof.
  intros Hr Hl E. unfold complete_read. rewrite Hr, <- Hl, take_zlen_app, drop_zlen_app.
  rewrite decide_True by (unfold zlen; rewrite length_app; lia).
  by bind_step by exact E.
Qed.

(** The authentication stage: the frame of a packet is handled as that
    packet, and the next header read is started. *)
Lemma deliver_auth_frame rand_bytes p k k' :
  awaiting_header k -> session_mode_ k = AUTH_SESSION ->
  auth_opcode_ok p -> bytes_ok (serialize p) -> 0 < Packet.size p <= 2048 ->
  handle_auth_packet rand_bytes (mkAuthPacket (AuthPacket.get_opcode p) (ByteBuffer_of (serialize p)))
    (set_reads [] k) = (Ok tt, k') ->
  deliver rand_bytes (any_build_packet (PAuth p)) k
    = (Ok tt, async_read (ReadHeader (session_mode_ k')) (header_bytes (session_mode_ k')) k').
Proof.
  intros [Hr Hs] Hm Hop Hok Hsz Hh. rewrite Hm in Hr.
  assert (Packet.deserialize (any_build_packet (PAuth p)) AuthPacket_default
    = (Ok tt, mkAuthPacket (AuthPacket.get_opcode p) (ByteBuffer_of (serialize p)))) as Ed.
  { unfold any_build_packet. rewrite deserialize_build by (done || lia). by destruct p. }
  assert (exists op h l, any_build_packet (PAuth p) = [op; h; l] ++ serialize p /\
    byte_ok h /\ byte_ok l /\ of_be_bytes [h; l] = Packet.size p) as (op & h & l & Ef & Hh1 & Hl1 & Hlen).
  { destruct (be_pair (Packet.size p)) as (h & l & E2 & ? & ? & Hlen); [lia|].
    exists (u8 (opcode_to_uint8 (AuthPacket.opcode_ p))), h, l. split; [|done].
    unfold any_build_packet. change (Packet.build_packet p) with (AuthPacket.build_packet p).
    rewrite build_packet_bytes. change (ByteBuffer.size (AuthPacket.payload_ p)) with (Packet.size p).
    by rewrite E2. }
  rewrite Ef in *. unfold deliver.
  set (k1 := async_read (ReadPayload AUTH_SESSION [op; h; l]) (Packet.size p) (set_reads [] k)).
  erewrite bind_ok; [|eapply (complete_read_ok _ _ _ [op; h; l] (serialize p) k1 Hr); [reflexivity|]].
  2:{ simpl. bind_step by reflexivity. bind_step by reflexivity. cbv zeta. rewrite shift_or_be, Hlen by done.
      by rewrite (proj2 (Z.ltb_ge _ _)), (proj2 (Z.eqb_neq _ _)) by lia. }
  erewrite bind_ok; [reflexivity|].
  rewrite <- (app_nil_r (serialize p)).
  eapply complete_read_ok; [reflexivity|reflexivity|].
  cbn [r_target on_read on_payload]. change (set_reads [] k1) with (set_reads [] k).
  erewrite bind_ok; [reflexivity|]. apply try_catch_ok.
  unfold parse_and_handle. bind_step by (apply on_local_ok, Ed). exact Hh.
Qed.

(** What the login changes: the SRP6 object and the queue. *)
Definition same_but_srp_queue (k k' : Client) : Prop :=
  reads k' = reads k /\ socket k' = socket k /\ session_mode_ k' = session_mode_ k.

Lemma send_packet_queued p k :
  exists k', send_packet p k = (Ok tt, k') /\ outgoing_queue k' = outgoing_queue k ++ [any_build_packet p] /\
    srp_ k' = srp_ k /\ same_but_srp_queue k k'.
Proof.
  unfold send_packet, send_packet_impl, flush_queue, same_but_srp_queue. simpl.
  destruct (connected k) eqn:Ec; simpl; [|eauto 10].
  destruct (_ =? 1); [|eauto 10].
  destruct (outgoing_queue k ++ [any_build_packet p]) eqn:E; [by destruct (outgoing_queue k)|].
  eexists. split; [done|]. simpl. done.
Qed.

Lemma with_srp_run {A} (m : M SRP6 A) k (Q : A -> SRP6 -> Prop) :
  runs m (srp_ k) Q -> exists a s, with_srp m k = (Ok a, set_srp s k) /\ Q a s.
Proof. intros (a & s & E & HQ). exists a, s. unfold with_srp, zoom. by rewrite E. Qed.

(** Reading [part] at the cursor of a packet. *)
Lemma read_bytes_part op (pre part post : list Z) (k : Client) n :
  bytes_ok (pre ++ part ++ post) -> zlen (pre ++ part ++ post) < max_vec -> zlen part = n ->
  on_local (Packet.read_bytes n) (mkAuthPacket op (mkByteBuffer (pre ++ part ++ post) (zlen pre))) k
    = (Ok (part, mkAuthPacket op (mkByteBuffer (pre ++ part ++ post) (zlen (pre ++ part)))), k).
Proof.
  intros Hok Hmax <-. pose proof (zlen_nonneg pre). pose proof (zlen_nonneg part). pose proof (zlen_nonneg post).
  apply on_local_ok. rewrite read_bytes_packet; simpl; [by rewrite slice_app_length, zlen_app| |done|].
  - split_and!; simpl; [done|lia|unfold ByteBuffer.size; simpl; zlia|done].
  - unfold ByteBuffer.size. simpl. zlia.
Qed.

Lemma read_uint8_part op (pre : list Z) x (post : list Z) (k : Client) :
  bytes_ok (pre ++ [x] ++ post) -> zlen (pre ++ [x] ++ post) < max_vec ->
  on_local Packet.read_uint8 (mkAuthPacket op (mkByteBuffer (pre ++ [x] ++ post) (zlen pre))) k
    = (Ok (x, mkAuthPacket op (mkByteBuffer (pre ++ [x] ++ post) (zlen (pre ++ [x])))), k).
Proof.
  intros Hok Hmax. pose proof (zlen_nonneg pre). pose proof (zlen_nonneg post).
  pose proof (slice_app_length pre [x] post : slice (zlen pre) 1 _ = _) as Es.
  apply on_local_ok. unfold Packet.read_uint8, from_buffer, zoom. cbn [raw AuthPacket_base AuthPacket.payload_].
  rewrite read_uint8_ok.
  - cbn [buffer_ read_pos_]. rewrite Es, zlen_app. cbn [of_le_bytes]. do 2 f_equal. lia.
  - split_and!; simpl; [done|lia|unfold ByteBuffer.size; simpl; zlia|done].
  - unfold ByteBuffer.size. simpl. zlia.
Qed.

(** The fields of a challenge of the right shape. *)
Lemma answer_challenge_fields rand_bytes op B g N salt (k : Client) :
  let payload := B ++ [g] ++ N ++ salt in
  bytes_ok payload -> zlen B = 32 -> zlen N = 32 -> zlen salt = 32 ->
  answer_challenge rand_bytes (mkAuthPacket op (ByteBuffer_of payload)) k =
  (do! with_srp (load_constants N g) in
   do! with_srp (load_salt salt) in
   do! with_srp (generate_client_ephemeral rand_bytes) in
   let! A := with_srp get_A_bytes in
   let! M1 := with_srp (compute_M1 B) in
   send_packet (PAuth (Packet.write_bytes M1 (Packet.write_bytes A (AuthPacket_new CMSG_AUTH_LOGON_PROOF))))) k.
Proof.
  intros payload Hok HB HN Hs.
  assert (zlen payload < max_vec) as Hmax by (unfold payload, max_vec; zlia).
  unfold answer_challenge, ByteBuffer_of.
  bind_step by (apply (read_bytes_part op [] B ([g] ++ N ++ salt)); done).
  bind_step by (apply (read_uint8_part op B g (N ++ salt)); done).
  assert (payload = (B ++ [g]) ++ N ++ salt) as E by (unfold payload; by rewrite <- app_assoc).
  cbn [app]. change (B ++ g :: N ++ salt) with payload.
  rewrite E in *.
  bind_step by (apply (read_bytes_part op (B ++ [g]) N salt); done).
  assert ((B ++ [g]) ++ N ++ salt = ((B ++ [g]) ++ N) ++ salt ++ []) as E' by (by rewrite app_nil_r, !app_assoc).
  rewrite E' in *. bind_step by (apply (read_bytes_part op ((B ++ [g]) ++ N) salt []); done).
  done.
Qed.

(** The client's answer to a challenge of the right shape. *)
Lemma answer_challenge_spec rand_bytes B g N salt (k : Client) w :
  rep (srp_ k) w ∅ -> view_ok w -> bytes_ok rand_bytes ->
  bytes_ok (B ++ [g] ++ N ++ salt) -> zlen B = 32 -> zlen N = 32 -> 0 < of_be_bytes N -> zlen salt = 32 ->
  exists k' w',
    answer_challenge rand_bytes
      (mkAuthPacket SMSG_AUTH_LOGON_CHALLENGE (ByteBuffer_of (B ++ [g] ++ N ++ salt))) k = (Ok tt, k') /\
    same_but_srp_queue k k' /\
    rep (srp_ k') w' ∅ /\ 0 <= w_num w' A_ < 256 ^ 32 /\ zlen (w_last_M1 w') = 20 /\ bytes_ok (w_last_M1 w') /\
    outgoing_queue k' = outgoing_queue k ++ [any_build_packet (PAuth
      (mkAuthPacket CMSG_AUTH_LOGON_PROOF (ByteBuffer_of (be_bytes 32 (w_num w' A_) ++ w_last_M1 w'))))].
Proof.
  intros Hr Hv Hra Hok HB HN HNp Hs. rewrite answer_challenge_fields by done.
  rewrite !Forall_app, Forall_singleton in Hok. destruct Hok as (_ & Hg & HNok & _).
  assert (command_ok (Cmd_load_constants N g)) as Hc1 by done.
  destruct (with_srp_run _ k _ (run_command_spec (Cmd_load_constants N g) _ _ Hr Hc1 Hv)) as ([] & s1 & E1 & Hr1).
  pose proof (spec_command_ok (Cmd_load_constants N g) w Hc1 Hv) as Hv1.
  bind_step by exact E1.
  destruct (with_srp_run _ (set_srp s1 k) _ (run_command_spec (Cmd_load_salt salt) _ _ Hr1 I Hv1))
    as ([] & s2 & E2 & Hr2).
  pose proof (spec_command_ok (Cmd_load_salt salt) _ I Hv1) as Hv2. bind_step by exact E2.
  destruct (with_srp_run _ (set_srp s2 (set_srp s1 k)) _
    (run_command_spec (Cmd_generate_client_ephemeral rand_bytes) _ _ Hr2 Hra Hv2)) as ([] & s3 & E3 & Hr3).
  pose proof (spec_command_ok (Cmd_generate_client_ephemeral rand_bytes) _ Hra Hv2) as (_ & _ & HA).
  bind_step by exact E3.
  set (k3 := set_srp s3 (set_srp s2 (set_srp s1 k))).
  set (w3 := spec_command (Cmd_generate_client_ephemeral rand_bytes) _) in *.
  assert (with_srp get_A_bytes k3 = (Ok (be_bytes 32 (w_num w3 A_)), k3)) as E4.
  { unfold with_srp, zoom, get_A_bytes. by rewrite (get_padded_spec _ _ _ A_ Hr3 HA). }
  bind_step by exact E4.
  destruct (compute_M1_spec s3 w3 B Hr3 HA) as [E5 Hr5]. cbv zeta in E5, Hr5.
  set (M1 := M1_of _ _ _) in *.
  assert (with_srp (compute_M1 B) k3 = (Ok M1, set_srp (set_last_M1 M1 s3) k3)) as E6.
  { unfold with_srp, zoom. change (srp_ k3) with s3. by rewrite E5. }
  bind_step by exact E6.
  destruct (send_packet_queued (PAuth (Packet.write_bytes M1 (Packet.write_bytes (be_bytes 32 (w_num w3 A_))
    (AuthPacket_new CMSG_AUTH_LOGON_PROOF)))) (set_srp (set_last_M1 M1 s3) k3)) as (k' & E7 & Eq & Es & Hsame).
  exists k', (w_set_last_M1 M1 w3). split; [exact E7|]. rewrite Es. split_and!; auto.
  - apply HA.
  - apply HA.
  - apply SHA1_length.
  - apply SHA1_bytes.
  - rewrite Eq. do 4 f_equal. unfold Packet.write_bytes, on_buffer. simpl.
    rewrite !write_bytes_appended. done.
Qed.

(** The server's proof for what the client sent. *)
Lemma accept_server_proof rand_bytes (k : Client) w :
  rep (srp_ k) w ∅ -> 0 <= w_num w A_ < 256 ^ 32 ->
  handle_auth_packet rand_bytes (mkAuthPacket SMSG_AUTH_LOGON_PROOF
    (ByteBuffer_of (SHA1 (be_bytes 32 (w_num w A_) ++ w_last_M1 w)))) k
  = (Ok tt, set_session_mode WORK_SESSION k).
Proof.
  intros Hr HA. unfold handle_auth_packet. cbn [AuthPacket.get_opcode AuthPacket.opcode_].
  set (hash := SHA1 _).
  pose proof (SHA1_length (be_bytes 32 (w_num w A_) ++ w_last_M1 w) : zlen hash = 20) as Hl.
  assert (hash = [] ++ hash ++ []) as E by (by rewrite app_nil_r).
  unfold ByteBuffer_of. rewrite E at 1.
  bind_step by (apply (read_bytes_part _ [] hash []); rewrite ?app_nil_r; simpl;
    [apply SHA1_bytes|unfold max_vec; lia|done]).
  bind_step by reflexivity. rewrite (rep_last_M1 _ _ _ Hr).
  erewrite bind_ok; [|unfold with_srp, zoom; by rewrite (verify_server_proof_spec _ _ _ _ _ Hr HA), std_equal_refl].
  simpl. unfold modify. by destruct k.
Qed.
(** The client with a known SRP6 state, waiting in the authentication stage. *)
Definition client_ready (k : Client) (w : View) : Prop :=
  awaiting_header k /\ session_mode_ k = AUTH_SESSION /\ rep (srp_ k) w ∅.

Lemma client_starts username password k w :
  client_ready k w -> view_ok w ->
  exists k' w', handle_logon_challenge username password k = (Ok tt, k') /\
    outgoing_queue k' = outgoing_queue k ++ [any_build_packet (PAuth
      (mkAuthPacket CMSG_AUTH_LOGON_CHALLENGE (ByteBuffer_of (rev username ++ [0]))))] /\
    client_ready k' w' /\ view_ok w'.
Proof.
  intros ([Hk1 Hk2] & Hm & Hr) Hv.
  destruct (with_srp_run _ k _ (run_command_spec (Cmd_set_credentials username password) _ _ Hr I Hv))
    as ([] & s1 & E1 & Hr1).
  destruct (send_packet_queued (PAuth (Packet.write_string_nt_le username (AuthPacket_new CMSG_AUTH_LOGON_CHALLENGE)))
    (set_srp s1 k)) as (k' & E2 & Eq & Es & Er & Eso & Em).
  exists k', (spec_command (Cmd_set_credentials username password) w).
  unfold handle_logon_challenge. bind_step by exact E1.
  split; [exact E2|]. rewrite Eq. split; [|split; [|by apply spec_command_ok]].
  - do 4 f_equal. unfold Packet.write_string_nt_le, on_buffer. simpl.
    unfold ByteBuffer.write_string_nt_le, ByteBuffer.write_string_raw_le. by rewrite write_bytes_appended.
  - split; [split; [rewrite Er, Em; exact Hk1|by rewrite Eso]|].
    split; [by rewrite Em|by rewrite Es].
Qed.

Lemma client_answers rand_a env salt verifier k w :
  client_ready k w -> view_ok w -> bytes_ok rand_a -> bytes_ok salt -> zlen salt = 32 ->
  exists k' w', deliver rand_a (any_build_packet (PAuth (reply_of env (Challenge salt verifier)))) k = (Ok tt, k') /\
    outgoing_queue k' = outgoing_queue k ++ [any_build_packet (PAuth
      (mkAuthPacket CMSG_AUTH_LOGON_PROOF (ByteBuffer_of (be_bytes 32 (w_num w' A_) ++ w_last_M1 w'))))] /\
    client_ready k' w' /\ 0 <= w_num w' A_ < 256 ^ 32 /\ zlen (w_last_M1 w') = 20 /\ bytes_ok (w_last_M1 w').
Proof.
  intros (Hk & Hm & Hr) Hv Hra Hsalt Hsl. pose proof N_value_range as HN.
  set (B := be_bytes 32 (server_B verifier (rand_bytes env))).
  assert (bytes_ok (B ++ [7] ++ be_bytes 32 N_value ++ salt)) as Hok.
  { apply Forall_app. split; [apply be_bytes_ok|]. cbn [app]. apply Forall_cons. split; [unfold byte_ok; lia|].
    apply Forall_app. split; [apply be_bytes_ok|done]. }
  destruct (answer_challenge_spec rand_a B 7 (be_bytes 32 N_value) salt (set_reads [] k) w Hr Hv Hra Hok)
    as (k2 & w2 & E4 & (Hr_2 & Hs_2 & Hm_2) & Hr2 & HA & HMl & HMok & Eq2);
    [apply zlen_be_bytes|apply zlen_be_bytes|rewrite of_be_be_bytes, Z.mod_small by (simpl; lia); lia|done|].
  assert (socket k2 = SocketConnected) as Hs2 by (rewrite Hs_2; apply Hk).
  eexists _, w2. split; [eapply deliver_auth_frame; [done|done|by repeat split|exact Hok| |]|].
  - change (0 < zlen (B ++ [7] ++ be_bytes 32 N_value ++ salt) <= 2048). unfold B. zlia.
  - apply try_catch_ok. exact E4.
  - split; [done|]. split; [|done]. split; [split; [|done]|split; [simpl; by rewrite Hm_2|done]].
    simpl. rewrite Hr_2. simpl. unfold started. by rewrite Hs2.
Qed.

Lemma client_accepts rand_a k w :
  client_ready k w -> 0 <= w_num w A_ < 256 ^ 32 ->
  exists k', deliver rand_a (any_build_packet (PAuth (mkAuthPacket SMSG_AUTH_LOGON_PROOF
      (ByteBuffer_of (SHA1 (be_bytes 32 (w_num w A_) ++ w_last_M1 w)))))) k = (Ok tt, k') /\
    session_mode_ k' = WORK_SESSION /\ awaiting_header k'.
Proof.
  intros (Hk & Hm & Hr) HA. set (hash := SHA1 _).
  pose proof (SHA1_length (be_bytes 32 (w_num w A_) ++ w_last_M1 w) : zlen hash = 20) as Hl.
  pose proof (accept_server_proof rand_a (set_reads [] k) w Hr HA) as E.
  eexists. split; [eapply deliver_auth_frame; [done|done|by repeat split|apply SHA1_bytes| |exact E]|].
  - change (0 < zlen hash <= 2048). lia.
  - destruct Hk as [_ Hs]. split; [done|]. split; [|done]. simpl. unfold started. simpl. by rewrite Hs.
Qed.
End client.

(** ** The server receives a frame *)
Lemma nul_split_unique (s rest s' rest' : list Z) :
  s ++ rest = s' ++ rest' -> Forall (fun b => b <> 0) s -> Forall (fun b => b <> 0) s' ->
  starts_with_nul_or_empty rest -> starts_with_nul_or_empty rest' -> s = s'.
Proof.
  revert s'. induction s as [|x s IH]; intros [|y s'] E Hs Hs' Hr Hr'; simpl in *.
  - done.
  - subst rest. apply Forall_cons in Hs' as [? _]. done.
  - subst rest'. apply Forall_cons in Hs as [? _]. done.
  - injection E as -> E. apply Forall_cons in Hs as [_ ?], Hs' as [_ ?]. f_equal. eauto.
Qed.

Section server.
Context {host : Host} {O : OpenSSL} {L : OpenSSLLaws O}.
Context `{PX : Pqxx World connection work row} {PL : PqxxLaws PX}.
Context (parse : list Z -> exn + Z) (env : Env).
Implicit Types c : Ctx World connection.

(** An open session of the authentication stage whose receive buffer holds
    nothing unread and has the room every read is started with. *)
Definition session_ready c : Prop :=
  closed_ (session c) = false /\ ClientSession.session_mode_ (session c) = AUTH_SESSION /\
  server_ok (srp_of c) /\ MessageBuffer.wf (read_buffer_ (session c)) /\
  active (read_buffer_ (session c)) = [] /\ 512 <= get_remaining_space (read_buffer_ (session c)).

(** A frame that arrives in one piece is dispatched as the packet it came
    from, and the next read is started. *)
Lemma server_receives p c :
  session_ready c -> auth_opcode_ok p -> bytes_ok (serialize p) -> Packet.size p <= 509 ->
  exists b', MessageBuffer.wf b' /\ active b' = [] /\
    zlen (_storage b') = zlen (_storage (read_buffer_ (session c))) /\
    forall c1, HandlersAuth.dispatch parse env
        (mkAuthPacket (AuthPacket.get_opcode p) (ByteBuffer_of (serialize p))) (put_buffer b' c) = (Ok tt, c1) ->
      closed_ (session c1) = false ->
      Readers.on_read parse env (inr (any_build_packet (PAuth p))) c = do_read c1.
Proof.
  intros (Hc & Hm & Hs & Hw & Ha & Hroom) [Hop1 Hop2] Hok Hsz.
  assert (0 <= Packet.size p) as H0 by apply zlen_nonneg.
  assert (exists h l, any_build_packet (PAuth p) = [opcode_to_uint8 (AuthPacket.opcode_ p); h; l] ++ serialize p /\
    byte_ok h /\ byte_ok l /\ of_be_bytes [h; l] = Packet.size p) as (h & l & Ef & Hh & Hl & Hlen).
  { destruct (be_pair (Packet.size p)) as (h & l & E2 & ? & ? & Hlen); [lia|]. exists h, l. split; [|done].
    unfold any_build_packet. change (Packet.build_packet p) with (AuthPacket.build_packet p).
    rewrite build_packet_bytes. change (ByteBuffer.size (AuthPacket.payload_ p)) with (Packet.size p).
    rewrite E2. unfold u8. by rewrite wrap_small by (simpl; lia). }
  rewrite Ef. set (op := opcode_to_uint8 _) in *.
  assert (bytes_ok ([op; h; l] ++ serialize p)) as Hfok by (cbn [app]; rewrite !Forall_cons; auto).
  assert (zlen (serialize p) = Packet.size p) as Hz by done.
  destruct (bq_feed_law (ByteQueue := MessageBuffer_queue) ([op; h; l] ++ serialize p) (read_buffer_ (session c)) Hw Hfok)
    as (b0 & Eb & Hw0 & Ha0 & Hst0); [change (zlen ([op; h; l] ++ serialize p) <= get_remaining_space (read_buffer_ (session c))); zlia|].
  cbn [bq_contents bq_capacity MessageBuffer_queue] in Ha0, Hst0. rewrite Ha in Ha0. cbn [app] in Ha0.
  pose proof (auth_reader_spec parse env (put_buffer b0 c) Hw0) as H. cbv zeta in H.
  change (read_buffer_ (session (put_buffer b0 c))) with b0 in H. rewrite Ha0 in H.
  assert (next_frame AUTH_SESSION (op :: h :: l :: serialize p) = Frame (serialize p) []) as Enf.
  { unfold next_frame. cbn [announced header_size]. rewrite Hlen.
    rewrite (proj2 (Z.ltb_ge _ _)) by zlia. rewrite (proj2 (Z.ltb_ge _ _)) by lia. f_equal.
    - rewrite <- Hz. rewrite <- (app_nil_r (serialize p)) at 2.
      apply (slice_app_length [op; h; l] (serialize p) []).
    - apply drop_ge. unfold zlen in Hz. simpl. lia. }
  rewrite Enf in H. destruct H as (_ & _ & b' & Hw' & Ha' & Hst' & Ep).
  exists b'. split_and!; [done|done|by rewrite Hst', Hst0|].
  intros c1 Ed Hc1. unfold Readers.on_read, isOpened. rewrite Hc. cbn [negb].
  bind_step by (apply with_buffer_ok, Eb).
  bind_step by (unfold process_read_buffer; change (ClientSession.session_mode_ (session (put_buffer b0 c)))
    with (ClientSession.session_mode_ (session c)); rewrite Hm, Ep; apply try_catch_ok;
    unfold auth_packet_of; cbn [nth]; rewrite Hop1; exact Ed).
  bind_step by reflexivity. by rewrite Hc1.
Qed.

(** The parts of the session the next read leaves alone. *)
Lemma do_read_frame c :
  MessageBuffer.wf (read_buffer_ (session c)) -> buffer_fits (session c) ->
  exists c', do_read c = (Ok tt, c') /\
    ClientSession.posted (session c') = ClientSession.posted (session c) /\ accountInfo_ (session c') = accountInfo_ (session c) /\
    closed_ (session c') = closed_ (session c) /\
    ClientSession.session_mode_ (session c') = ClientSession.session_mode_ (session c) /\
    MessageBuffer.wf (read_buffer_ (session c')) /\
    active (read_buffer_ (session c')) = active (read_buffer_ (session c)) /\
    512 <= get_remaining_space (read_buffer_ (session c')) /\
    zlen (_storage (read_buffer_ (session c'))) <= zlen (_storage (read_buffer_ (session c))) + 512.
Proof.
  intros Hw Hfit. unfold buffer_fits in Hfit.
  destruct (ensure_free_space_spec (read_buffer_ (session c)) 512 Hw) as (? & ? & ? & ? & ?); [lia|lia|].
  eexists. split; [reflexivity|]. simpl. by split_and!.
Qed.

(** The session answers a logon challenge for a known account. *)
Lemma server_answers_challenge username c salt verifier sv :
  session_ready c -> buffer_fits (session c) -> env_ok env ->
  bytes_ok username -> Forall (fun b => b <> 0) username -> zlen username <= 255 ->
  is_valid_utf8 username = true ->
  judge parse env (to_uppercase username) (server c) = (Challenge salt verifier, sv) ->
  exists c', Readers.on_read parse env
      (inr (any_build_packet (PAuth (mkAuthPacket CMSG_AUTH_LOGON_CHALLENGE (ByteBuffer_of (rev username ++ [0])))))) c
      = (Ok tt, c') /\
    ClientSession.posted (session c') = ClientSession.posted (session c) ++ [PAuth (reply_of env (Challenge salt verifier))] /\
    session_ready c' /\
    zlen (_storage (read_buffer_ (session c'))) <= zlen (_storage (read_buffer_ (session c))) + 512.
Proof.
  intros Hready Hfit [He _] Hu Hnz Hlen Hutf Hj.
  set (payload := rev username ++ [0]).
  assert (bytes_ok payload) as Hok.
  { apply Forall_app. split; [by apply Forall_rev|]. repeat constructor; unfold byte_ok; lia. }
  set (p := mkAuthPacket CMSG_AUTH_LOGON_CHALLENGE (ByteBuffer_of payload)).
  destruct (server_receives p c Hready) as (b' & Hw' & Ha' & Hst & Hrecv);
    [by repeat split|done|unfold Packet.size, ByteBuffer.size, p, payload; simpl; zlia|].
  destruct Hready as (Hc & Hm & Hs & _).
  destruct (handle_logon_challenge_spec parse env p (put_buffer b' c) Hc Hs He)
    as (s & rest & Ed & Hsnz & Hrest & H).
  { apply ByteBuffer_of_wf; [done|]. unfold payload, max_vec. zlia. }
  assert (s = rev username) as ->.
  { eapply (nul_split_unique s rest _ [0]); [by rewrite <- Ed|done|by apply Forall_rev|done|done]. }
  cbv zeta in H. rewrite rev_involutive, Hutf in H. change (server (put_buffer b' c)) with (server c) in H.
  rewrite Hj in H. destruct H as (srp & Hsrp & _ & E).
  set (c1 := replied _ srp sv (put_buffer b' c)) in *.
  rewrite (Hrecv c1); [|exact (try_catch_ok _ (fun _ => ret tt) _ _ _ E)|done].
  unfold buffer_fits in Hfit.
  destruct (do_read_frame c1) as (c' & Er & Ep & Eacc & Ec & Em & Hwf & Hact & Hroom & Hgrow).
  { done. } { unfold buffer_fits. change (read_buffer_ (session c1)) with b'. lia. }
  change (read_buffer_ (session c1)) with b' in *. rewrite Hst in Hgrow.
  exists c'. split; [done|]. split; [by rewrite Ep|]. split; [|lia].
  split_and!; [by rewrite Ec|by rewrite Em|unfold srp_of; rewrite Eacc; apply Hsrp|done|by rewrite Hact|done].
Qed.

(** The session accepts a proof of the wire size. *)
Lemma server_accepts_proof A M1 c :
  session_ready c -> buffer_fits (session c) -> bytes_ok A -> zlen A = 32 -> bytes_ok M1 -> zlen M1 = 20 ->
  exists c', Readers.on_read parse env
      (inr (any_build_packet (PAuth (mkAuthPacket CMSG_AUTH_LOGON_PROOF (ByteBuffer_of (A ++ M1)))))) c = (Ok tt, c') /\
    ClientSession.posted (session c') = ClientSession.posted (session c) ++
      [PAuth (mkAuthPacket SMSG_AUTH_LOGON_PROOF (ByteBuffer_of (SHA1 (A ++ M1))))] /\
    closed_ (session c') = false /\ ClientSession.session_mode_ (session c') = WORK_SESSION /\
    isAuthenticated (accountInfo_ (session c')) = true.
Proof.
  intros Hready Hfit HA HAl HM HMl.
  assert (bytes_ok (A ++ M1)) as Hok by (by apply Forall_app).
  assert (zlen (A ++ M1) = 52) as Hl by zlia.
  set (p := mkAuthPacket CMSG_AUTH_LOGON_PROOF (ByteBuffer_of (A ++ M1))).
  destruct (server_receives p c Hready) as (b' & Hw' & Ha' & Hst & Hrecv);
    [by repeat split|done|unfold Packet.size, ByteBuffer.size, p; simpl; lia|].
  destruct Hready as (Hc & Hm & Hs & _).
  pose proof (handle_logon_proof_spec CMSG_AUTH_LOGON_PROOF (A ++ M1) (put_buffer b' c) Hc Hok) as E.
  rewrite Hl in E. specialize (E eq_refl). rewrite take_ge in E by (unfold zlen in Hl; lia).
  change (52 <=? 52) with true in E. cbv iota in E.
  match type of E with _ = (_, ?x) => set (c1 := x) in * end.
  rewrite (Hrecv c1 E Hc). unfold buffer_fits in Hfit.
  destruct (do_read_frame c1) as (c' & Er & Ep & Eacc & Ec & Em & _).
  { done. } { unfold buffer_fits. change (read_buffer_ (session c1)) with b'. lia. }
  exists c'. split_and!; [done|by rewrite Ep|by rewrite Ec|by rewrite Em|by rewrite Eacc].
Qed.
End server.

(** Frames do not depend on the byte order of the host. *)
Lemma any_build_auth_host (h h' : Host) p :
  any_build_packet (host := h) (PAuth p) = any_build_packet (host := h') (PAuth p).
Proof. apply auth_build_host. Qed.

(** ** Properties *)

(** C1: a login, end to end: for an account the server knows (in its cache or
    in the database), with any password, salt, verifier and random values, and
    hosts of any byte order: the client's call queues one frame; the session
    that receives it posts the challenge; the client that receives that queues
    one frame with its proof; the session that receives it authenticates the
    account, enters the work stage and posts its own proof; and the client
    that receives that accepts it and enters the work stage too.  No handler
    on the way throws, and both sides wait for the next packet. *)
Theorem login_end_to_end (hs hc : Host) (O : OpenSSL) (L : OpenSSLLaws O)
    `{PX : Pqxx World connection work row} (PL : PqxxLaws PX) (parse : list Z -> exn + Z)
    (env : Env) (rand_a username password salt verifier : list Z)
    (c : Ctx World connection) (sv : Server World connection) (k : Client) (w : View) :
  session_ready c -> zlen (_storage (read_buffer_ (session c))) + 1024 < max_storage -> env_ok env ->
  client_ready k w -> view_ok w -> bytes_ok rand_a ->
  bytes_ok username -> Forall (fun b => b <> 0) username -> zlen username <= 255 ->
  is_valid_utf8 username = true ->
  judge parse env (to_uppercase username) (server c) = (Challenge salt verifier, sv) ->
  bytes_ok salt -> zlen salt = 32 ->
  exists k1 k2 k3 c1 c2 frame1 frame2 p1 p2,
    handle_logon_challenge (host := hc) username password k = (Ok tt, k1) /\
    outgoing_queue k1 = outgoing_queue k ++ [frame1] /\
    Readers.on_read (host := hs) parse env (inr frame1) c = (Ok tt, c1) /\
    ClientSession.posted (session c1) = ClientSession.posted (session c) ++ [p1] /\
    deliver (host := hc) rand_a (any_build_packet (host := hs) p1) k1 = (Ok tt, k2) /\
    outgoing_queue k2 = outgoing_queue k1 ++ [frame2] /\
    Readers.on_read (host := hs) parse env (inr frame2) c1 = (Ok tt, c2) /\
    ClientSession.posted (session c2) = ClientSession.posted (session c1) ++ [p2] /\
    closed_ (session c2) = false /\ ClientSession.session_mode_ (session c2) = WORK_SESSION /\
    isAuthenticated (accountInfo_ (session c2)) = true /\
    deliver (host := hc) rand_a (any_build_packet (host := hs) p2) k2 = (Ok tt, k3) /\
    session_mode_ k3 = WORK_SESSION /\ awaiting_header k3.
Proof.
  intros Hready Hfit He Hk Hv Hra Hu Hnz Hlen Hutf Hj Hsalt Hsl.
  destruct (client_starts (host := hc) username password k w Hk Hv) as (k1 & w1 & E1 & Eq1 & Hk1 & Hv1).
  destruct (server_answers_challenge (host := hs) parse env username c salt verifier sv)
    as (c1 & E2 & Ep1 & Hready1 & Hst1); [done|unfold buffer_fits; lia|done..|].
  destruct (client_answers (host := hc) rand_a env salt verifier k1 w1 Hk1 Hv1 Hra Hsalt Hsl)
    as (k2 & w2 & E3 & Eq2 & Hk2 & HA & HMl & HM).
  destruct (server_accepts_proof (host := hs) parse env (be_bytes 32 (w_num w2 A_)) (w_last_M1 w2) c1 Hready1)
    as (c2 & E4 & Ep2 & Hc2 & Hm2 & Hauth);
    [unfold buffer_fits; lia|apply be_bytes_ok|apply zlen_be_bytes|done|done|].
  destruct (client_accepts (host := hc) rand_a k2 w2 Hk2 HA) as (k3 & E5 & Hm3 & Hk3).
  rewrite (any_build_auth_host hs hc) in E2, E4. rewrite (any_build_auth_host hc hs) in E3, E5.
  exists k1, k2, k3, c1, c2. do 4 eexists. split_and!; eauto; apply Hk3.
Qed.

(** The server with the account "A" in its cache, and a client just connected. *)
Definition demo_cached : Ctx Demo.World nat :=
  mkCtx 0 (ClientSession_new (O := reference))
    (mkServer {[0%nat]}
       (put 0 [65] (mkAccountCacheEntry (replicate 32 1) (replicate 32 2) 0) (AccountCache_new 300 60))
       (mkDatabase [] [0%nat] Demo.world_up)).

Definition demo_client : Client :=
  mkClient SocketConnected true [] AUTH_SESSION (SRP6_new (O := reference)) []
    [mkRead (ReadHeader AUTH_SESSION) 3 Pending] [] [] [] 0 [].

Lemma login_end_to_end_witness :
  exists k1 frame1 c1 p1,
    handle_logon_challenge (host := little) [97] [98] demo_client = (Ok tt, k1) /\
    outgoing_queue k1 = [frame1] /\
    Readers.on_read (host := big) (O := reference) (PX := Demo.demo_pqxx) (fun _ => inr 0) demo_env
      (inr frame1) demo_cached = (Ok tt, c1) /\
    ClientSession.posted (session c1) = [p1].
Proof.
  destruct (login_end_to_end big little reference reference_laws Demo.demo_laws (fun _ => inr 0) demo_env
    (replicate 32 3) [97] [98] (replicate 32 1) (replicate 32 2) demo_cached
    (judge (PX := Demo.demo_pqxx) (fun _ => inr 0) demo_env [65] (server demo_cached)).2 demo_client
    (spec_new (O := reference)))
    as (k1 & k2 & k3 & c1 & c2 & f1 & f2 & p1 & p2 & E1 & E2 & E3 & E4 & _).
  - split; [reflexivity|]. split; [reflexivity|]. split; [apply SRP6_new_server_ok|].
    split; [apply MessageBuffer_new_spec; split; [discriminate|reflexivity]|]. split; [reflexivity|]. vm_compute. discriminate.
  - vm_compute. reflexivity.
  - split; [repeat constructor; unfold byte_ok; lia|reflexivity].
  - split; [split; reflexivity|]. split; [reflexivity|]. apply (SRP6_new_rep (O := reference)).
  - apply spec_new_ok.
  - repeat constructor; unfold byte_ok; lia.
  - repeat constructor; unfold byte_ok; lia.
  - repeat constructor; lia.
  - vm_compute. discriminate.
  - reflexivity.
  - reflexivity.
  - repeat constructor; unfold byte_ok; lia.
  - reflexivity.
  - exists k1, f1, c1, p1. split; [exact E1|]. split; [exact E2|]. split; [exact E3|exact E4].
Defined.
