(* ===== verification/FmtUtf8.v ===== *)
(** * fmt: code points of UTF-8 (fmt/bundled/format.h)

    The branchless decoder, the walk over the code points of a text, and the
    display width and code point index computed by it.  Positions are offsets
    in the text; reading beyond the text or the buffer is undefined. *)

From S2P Require Import Prelude Machine UTF8Utils.

(** ** The decoder *)

Definition masks : list Z := [0x00; 0x7f; 0x1f; 0x0f; 0x07].
Definition mins : list Z := [4194304; 0; 128; 2048; 65536].
Definition shiftc : list Z := [0; 18; 12; 6; 0].
Definition shifte : list Z := [0; 6; 4; 2; 0].
Definition lengths : list Z := replicate 16 1 ++ replicate 8 0 ++ [2; 2; 2; 2; 3; 3; 4; 0].
Definition at_index (table : list Z) (i : Z) : Z := nth (Z.to_nat i) table 0.

(** [utf8_decode]: the step to the next character, the code point and the
    error.  The code point has at most 25 bits before it is shifted. *)
Definition utf8_decode (s0 s1 s2 s3 : Z) : Z * Z * Z :=
  let len := at_index lengths (Z.shiftr s0 3) in
  let next := len + (if len =? 0 then 1 else 0) in
  let c := Z.shiftl (Z.land s0 (at_index masks len)) 18 in
  let c := Z.lor c (Z.shiftl (Z.land s1 0x3f) 12) in
  let c := Z.lor c (Z.shiftl (Z.land s2 0x3f) 6) in
  let c := Z.lor c (Z.shiftl (Z.land s3 0x3f) 0) in
  let c := Z.shiftr c (at_index shiftc len) in
  let e := Z.shiftl (Z.b2z (c <? at_index mins len)) 6 in
  let e := Z.lor e (Z.shiftl (Z.b2z (Z.shiftr c 11 =? 0x1b)) 7) in
  let e := Z.lor e (Z.shiftl (Z.b2z (0x10FFFF <? c)) 8) in
  let e := Z.lor e (Z.shiftr (Z.land s1 0xc0) 2) in
  let e := Z.lor e (Z.shiftr (Z.land s2 0xc0) 4) in
  let e := Z.lor e (Z.shiftr s3 6) in
  let e := Z.lxor e 0x2a in
  let e := Z.shiftr e (at_index shifte len) in
  (next, c, e).

Definition invalid_code_point : Z := 2 ^ 32 - 1.

(** ** The walk *)

Section walk.
Context {A : Type}.
(** The function that is called with the state, the code point, and the begin
    and the size of its view; it says whether to continue. *)
Context (f : A -> Z -> Z -> Z -> A * bool).

(** [decode], which reads at [buf_ptr] in [mem] for the text at [ptr]; [None]
    when the walk is to stop. *)
Definition decode (mem : list Z) (buf_ptr : nat) (ptr : Z) (a : A) : outcome (A * option nat) :=
  match mem !! buf_ptr, mem !! (buf_ptr + 1)%nat, mem !! (buf_ptr + 2)%nat, mem !! (buf_ptr + 3)%nat with
  | Some s0, Some s1, Some s2, Some s3 =>
      let '(next, cp, error) := utf8_decode s0 s1 s2 s3 in
      let error := negb (error =? 0) in
      let size := if error then 1 else next in
      let '(a, result) := f a (if error then invalid_code_point else cp) ptr size in
      Ok (a, if result then Some (buf_ptr + Z.to_nat size)%nat else None)
  | _, _, _, _ => Undef
  end.

Definition block_size : nat := 4.
Fixpoint block_loop (fuel : nat) (s : list Z) (p : nat) (a : A) : outcome (A * option nat) :=
  match fuel with
  | O => Undef
  | S fuel =>
      if bool_decide (p < length s - block_size + 1)%nat then
        match decode s p (Z.of_nat p) a with
        | Ok (a, Some p) => block_loop fuel s p a
        | Ok (a, None) => Ok (a, None)
        | Throw e => Throw e
        | Undef => Undef
        end
      else Ok (a, Some p)
  end.

Fixpoint tail_loop (fuel : nat) (buf : list Z) (num_chars_left buf_ptr : nat) (p : Z) (a : A) : outcome A :=
  match fuel with
  | O => Undef
  | S fuel =>
      match decode buf buf_ptr p a with
      | Ok (a, Some en) =>
          if bool_decide (en < num_chars_left)%nat
          then tail_loop fuel buf num_chars_left en (p + Z.of_nat (en - buf_ptr)) a else Ok a
      | Ok (a, None) => Ok a
      | Throw e => Throw e
      | Undef => Undef
      end
  end.

Definition for_each_codepoint (s : list Z) (a : A) : outcome A :=
  match (if bool_decide (block_size <= length s)%nat then block_loop (S (length s)) s 0 a else Ok (a, Some 0%nat)) with
  | Ok (a, None) => Ok a
  | Ok (a, Some p) =>
      let num_chars_left := (length s - p)%nat in
      if bool_decide (num_chars_left = 0)%nat then Ok a
      else
        let num_chars_left := Z.to_nat (Z.land (Z.of_nat num_chars_left) 3) in
        let buf := take num_chars_left (drop p s) ++ replicate (2 * block_size - 1 - num_chars_left) 0 in
        tail_loop (S num_chars_left) buf num_chars_left 0 (Z.of_nat p) a
  | Throw e => Throw e
  | Undef => Undef
  end.
End walk.

(** ** Width and index *)

Definition cp_width (cp : Z) : Z :=
  1 + Z.b2z ((0x1100 <=? cp) &&
    ((cp <=? 0x115f) || (cp =? 0x2329) || (cp =? 0x232a) ||
     ((0x2e80 <=? cp) && (cp <=? 0xa4cf) && negb (cp =? 0x303f)) ||
     ((0xac00 <=? cp) && (cp <=? 0xd7a3)) || ((0xf900 <=? cp) && (cp <=? 0xfaff)) ||
     ((0xfe10 <=? cp) && (cp <=? 0xfe19)) || ((0xfe30 <=? cp) && (cp <=? 0xfe6f)) ||
     ((0xff00 <=? cp) && (cp <=? 0xff60)) || ((0xffe0 <=? cp) && (cp <=? 0xffe6)) ||
     ((0x20000 <=? cp) && (cp <=? 0x2fffd)) || ((0x30000 <=? cp) && (cp <=? 0x3fffd)) ||
     ((0x1f300 <=? cp) && (cp <=? 0x1f64f)) || ((0x1f900 <=? cp) && (cp <=? 0x1f9ff)))).

Definition compute_width (s : list Z) : outcome Z :=
  for_each_codepoint (fun count cp _ _ => (count + cp_width cp, true)) s 0.

(** [code_point_index]: what is left of [n], and the result. *)
Definition code_point_index (s : list Z) (n : Z) : outcome Z :=
  match for_each_codepoint (fun '(n, result) _ begin _ =>
          if negb (n =? 0) then ((n - 1, result), true) else ((n, begin), false)) s (n, zlen s) with
  | Ok (_, result) => Ok result
  | Throw e => Throw e
  | Undef => Undef
  end.

(** ** The decoder is exact *)

(** Bits beside each other are added. *)
Lemma lor_high a b k : 0 <= k -> 0 <= b < 2 ^ k -> Z.lor (Z.shiftl a k) b = a * 2 ^ k + b.
Proof.
  intros Hk Hb. rewrite Z.shiftl_mul_pow2 by lia. symmetry. apply Z.add_nocarry_lor. apply Z.bits_inj'. intros i Hi.
  rewrite Z.land_spec, Z.bits_0. destruct (Z.lt_ge_cases i k).
  - by rewrite Z.mul_pow2_bits_low by lia.
  - destruct (Z.eq_dec b 0) as [->|]; [by rewrite Z.bits_0, andb_false_r|]. rewrite andb_comm, (Z.bits_above_log2 b i); [done|lia|].
    apply Z.log2_lt_pow2; [lia|]. apply Z.lt_le_trans with (2 ^ k); [lia|]. apply Z.pow_le_mono_r; lia.
Qed.
Lemma land_3f b : Z.land b 0x3f = b mod 64.
Proof. change 0x3f with (Z.ones 6). by rewrite Z.land_ones by lia. Qed.
Lemma land_c0 b : byte_ok b -> Z.land b 0xc0 = 64 * (b / 64).
Proof. intros Hb. apply Z.eqb_eq. apply (byte_forall (fun b => Z.land b 0xc0 =? 64 * (b / 64))); [vm_compute; reflexivity|done]. Qed.

(** The first byte: length and the bits it has of the code point. *)
Definition first_length (s0 : Z) : Z :=
  if s0 <? 0x80 then 1 else if s0 <? 0xc0 then 0 else if s0 <? 0xe0 then 2 else if s0 <? 0xf0 then 3 else if s0 <? 0xf8 then 4 else 0.
Definition first_bits (s0 : Z) : Z :=
  if s0 <? 0x80 then s0 else if s0 <? 0xc0 then 0 else if s0 <? 0xe0 then s0 - 0xc0 else if s0 <? 0xf0 then s0 - 0xe0 else if s0 <? 0xf8 then s0 - 0xf0 else 0.
Lemma first_byte s0 : byte_ok s0 ->
  at_index lengths (Z.shiftr s0 3) = first_length s0 /\ Z.land s0 (at_index masks (first_length s0)) = first_bits s0.
Proof.
  intros Hb. assert (H : (at_index lengths (Z.shiftr s0 3) =? first_length s0) && (Z.land s0 (at_index masks (first_length s0)) =? first_bits s0) = true).
  { apply (byte_forall (fun s0 => (at_index lengths (Z.shiftr s0 3) =? first_length s0) && (Z.land s0 (at_index masks (first_length s0)) =? first_bits s0)));
      [vm_compute; reflexivity|done]. }
  by apply andb_true_iff in H as [->%Z.eqb_eq ->%Z.eqb_eq].
Qed.

(** The error bits: the three tests on the code point, and the high bits of the tail bytes. *)
Definition error_bits (x y z : bool) (h1 h2 h3 : Z) : Z :=
  let e := Z.shiftl (Z.b2z x) 6 in
  let e := Z.lor e (Z.shiftl (Z.b2z y) 7) in
  let e := Z.lor e (Z.shiftl (Z.b2z z) 8) in
  let e := Z.lor e (Z.shiftr (64 * h1) 2) in
  let e := Z.lor e (Z.shiftr (64 * h2) 4) in
  Z.lxor (Z.lor e h3) 0x2a.
Definition error_free (k : Z) (x y z : bool) (h1 h2 h3 : Z) : bool :=
  negb (x || y || z) && ((k <? 2) || (h1 =? 2)) && ((k <? 3) || (h2 =? 2)) && ((k <? 4) || (h3 =? 2)).
Lemma error_bits_zero k x y z h1 h2 h3 :
  1 <= k <= 4 -> 0 <= h1 < 4 -> 0 <= h2 < 4 -> 0 <= h3 < 4 ->
  (Z.shiftr (error_bits x y z h1 h2 h3) (at_index shifte k) =? 0) = error_free k x y z h1 h2 h3.
Proof.
  intros Hk H1 H2 H3.
  assert (k = 1 \/ k = 2 \/ k = 3 \/ k = 4) as [-> |[-> |[-> | ->]]] by lia;
  assert (h1 = 0 \/ h1 = 1 \/ h1 = 2 \/ h1 = 3) as [-> |[-> |[-> | ->]]] by lia;
  assert (h2 = 0 \/ h2 = 1 \/ h2 = 2 \/ h2 = 3) as [-> |[-> |[-> | ->]]] by lia;
  assert (h3 = 0 \/ h3 = 1 \/ h3 = 2 \/ h3 = 3) as [-> |[-> |[-> | ->]]] by lia;
  destruct x, y, z; reflexivity.
Qed.

(** The code point as a number. *)
Definition code_value (s0 s1 s2 s3 : Z) : Z :=
  Z.shiftr (first_bits s0 * 2 ^ 18 + (s1 mod 64) * 2 ^ 12 + (s2 mod 64) * 2 ^ 6 + s3 mod 64) (at_index shiftc (first_length s0)).

Lemma utf8_decode_arith s0 s1 s2 s3 :
  byte_ok s0 -> byte_ok s1 -> byte_ok s2 -> byte_ok s3 ->
  let len := first_length s0 in
  let c := code_value s0 s1 s2 s3 in
  utf8_decode s0 s1 s2 s3 =
    (len + (if len =? 0 then 1 else 0), c,
     Z.shiftr (error_bits (c <? at_index mins len) (Z.shiftr c 11 =? 0x1b) (0x10FFFF <? c) (s1 / 64) (s2 / 64) (s3 / 64)) (at_index shifte len)).
Proof.
  intros H0 H1 H2 H3. unfold utf8_decode. destruct (first_byte s0 H0) as [-> ->]. cbv zeta.
  rewrite !land_3f, !land_c0 by done. change (Z.shiftl (s3 mod 64) 0) with (s3 mod 64).
  pose proof (Z.mod_pos_bound s1 64 eq_refl). pose proof (Z.mod_pos_bound s2 64 eq_refl). pose proof (Z.mod_pos_bound s3 64 eq_refl).
  assert (Hc : Z.lor (Z.lor (Z.lor (Z.shiftl (first_bits s0) 18) (Z.shiftl (s1 mod 64) 12)) (Z.shiftl (s2 mod 64) 6)) (s3 mod 64)
    = first_bits s0 * 2 ^ 18 + (s1 mod 64) * 2 ^ 12 + (s2 mod 64) * 2 ^ 6 + s3 mod 64).
  { rewrite (Z.shiftl_mul_pow2 (s1 mod 64)), (Z.shiftl_mul_pow2 (s2 mod 64)) by lia. rewrite lor_high by lia.
    replace (first_bits s0 * 2 ^ 18 + _) with (Z.shiftl (first_bits s0 * 64 + s1 mod 64) 12) by (rewrite Z.shiftl_mul_pow2; lia).
    rewrite lor_high by lia. replace ((first_bits s0 * 64 + s1 mod 64) * 2 ^ 12 + s2 mod 64 * 2 ^ 6) with (Z.shiftl ((first_bits s0 * 64 + s1 mod 64) * 64 + s2 mod 64) 6) by (rewrite Z.shiftl_mul_pow2; lia).
    rewrite lor_high by lia. rewrite Z.shiftl_mul_pow2 by lia. lia. }
  rewrite Hc. fold (code_value s0 s1 s2 s3). unfold error_bits. by rewrite (Z.shiftr_div_pow2 s3) by lia.
Qed.

Ltac eval_tables :=
  repeat match goal with
  | |- context [at_index ?t ?k] => let v := eval vm_compute in (at_index t k) in change (at_index t k) with v
  | H : context [at_index ?t ?k] |- _ => let v := eval vm_compute in (at_index t k) in change (at_index t k) with v in H
  end.

(** The values for the four lengths. *)
Lemma code_value_cases s0 s1 s2 s3 : byte_ok s0 -> byte_ok s1 -> byte_ok s2 -> byte_ok s3 ->
  code_value s0 s1 s2 s3 =
    if s0 <? 0x80 then s0
    else if s0 <? 0xc0 then (s1 mod 64) * 4096 + (s2 mod 64) * 64 + s3 mod 64
    else if s0 <? 0xe0 then (s0 - 0xc0) * 64 + s1 mod 64
    else if s0 <? 0xf0 then (s0 - 0xe0) * 4096 + (s1 mod 64) * 64 + s2 mod 64
    else if s0 <? 0xf8 then (s0 - 0xf0) * 262144 + (s1 mod 64) * 4096 + (s2 mod 64) * 64 + s3 mod 64
    else (s1 mod 64) * 4096 + (s2 mod 64) * 64 + s3 mod 64.
Proof.
  intros H0 H1 H2 H3. unfold code_value, first_bits, first_length.
  pose proof (Z.mod_pos_bound s1 64 eq_refl). pose proof (Z.mod_pos_bound s2 64 eq_refl). pose proof (Z.mod_pos_bound s3 64 eq_refl).
  rewrite !Z.shiftr_div_pow2 by (repeat split_if; vm_compute; congruence).
  unfold byte_ok in *. repeat split_if; bool_to_prop; eval_tables; Z.div_mod_to_equations; lia.
Qed.

Lemma high_continuation b : byte_ok b -> b / 64 = 2 <-> 0x80 <= b < 0xC0.
Proof. unfold byte_ok. intros. Z.div_mod_to_equations. lia. Qed.

Lemma continuation_mod b : 0x80 <= b < 0xC0 -> b mod 64 = b - 0x80.
Proof. intros. Z.div_mod_to_equations. lia. Qed.

(** When there is no error. *)
Lemma no_error s0 s1 s2 s3 next c e :
  byte_ok s0 -> byte_ok s1 -> byte_ok s2 -> byte_ok s3 -> utf8_decode s0 s1 s2 s3 = (next, c, e) ->
  c = code_value s0 s1 s2 s3 /\ 1 <= next <= 4 /\ (first_length s0 <> 0 -> next = first_length s0) /\
  (e = 0 <-> next = first_length s0 /\ at_index mins next <= c /\ c / 2 ^ 11 <> 0x1b /\ c <= 0x10FFFF /\
    (next < 2 \/ 0x80 <= s1 < 0xC0) /\ (next < 3 \/ 0x80 <= s2 < 0xC0) /\ (next < 4 \/ 0x80 <= s3 < 0xC0)).
Proof.
  intros H0 H1 H2 H3. rewrite utf8_decode_arith by done. cbv zeta. intros [= Hn Hc He].
  assert (Hh : forall b, byte_ok b -> 0 <= b / 64 < 4) by (unfold byte_ok; intros; Z.div_mod_to_equations; lia).
  assert (Hl : 0 <= first_length s0 <= 4) by (unfold first_length; repeat split_if; lia).
  split_and!; [done|by destruct (Z.eqb_spec (first_length s0) 0); lia..|by destruct (Z.eqb_spec (first_length s0) 0); lia|].
  destruct (Z.eqb_spec (first_length s0) 0) as [E|E].
  - rewrite E in *. subst next. split; [|lia]. intros ->. exfalso. change (at_index shifte 0) with (at_index shifte 4) in He.
    apply Z.eqb_eq in He. rewrite error_bits_zero in He by (try apply Hh; done || lia).
    assert (Hlt : code_value s0 s1 s2 s3 < 4194304).
    { rewrite code_value_cases by done. pose proof (Z.mod_pos_bound s1 64 eq_refl). pose proof (Z.mod_pos_bound s2 64 eq_refl). pose proof (Z.mod_pos_bound s3 64 eq_refl).
      unfold first_length, byte_ok in *. repeat split_if; bool_to_prop; lia. }
    change (at_index mins 0) with 4194304 in He. by rewrite (proj2 (Z.ltb_lt _ _) Hlt) in He.
  - rewrite Z.add_0_r in Hn. subst next e c. rewrite <- Z.eqb_eq, error_bits_zero by (try apply Hh; done || lia). unfold error_free.
    rewrite !andb_true_iff, !orb_true_iff, negb_true_iff, !orb_false_iff, !Z.ltb_ge, !Z.ltb_lt, !Z.eqb_eq, Z.eqb_neq, Z.shiftr_div_pow2, !high_continuation by (done || lia).
    tauto.
Qed.

(** A decoded code point is a scalar value in its shortest form. *)
Lemma utf8_decode_sound s0 s1 s2 s3 next c :
  byte_ok s0 -> byte_ok s1 -> byte_ok s2 -> byte_ok s3 -> utf8_decode s0 s1 s2 s3 = (next, c, 0) ->
  unicode_scalar c /\ utf8_encode c = take (Z.to_nat next) [s0; s1; s2; s3].
Proof.
  intros H0 H1 H2 H3 E. apply no_error in E as (-> & _ & _ & He); [|done..]. destruct (proj1 He eq_refl) as (Hn & Hx & Hy & Hz & Ht1 & Ht2 & Ht3). clear He.
  rewrite code_value_cases in * by done. unfold first_length, byte_ok in *.
  assert (Hs : forall c, 0 <= c <= 0x10FFFF -> c / 2 ^ 11 <> 0x1b -> unicode_scalar c).
  { intros c Hc Hd. split; [lia|]. intros ?. apply Hd. Z.div_mod_to_equations. lia. }
  repeat split_if; bool_to_prop; subst next; eval_tables; try lia.
  - split; [apply Hs; lia|apply utf8_encode_inv1; lia].
  - rewrite continuation_mod in * by lia. split; [apply Hs; lia|apply utf8_encode_inv2; lia].
  - rewrite !continuation_mod in * by lia. split; [apply Hs; lia|apply utf8_encode_inv3; lia].
  - rewrite !continuation_mod in * by lia. split; [apply Hs; lia|apply utf8_encode_inv4; lia].
Qed.

(** The bytes of an encoded code point. *)
Lemma utf8_encode_bytes s0 s1 s2 s3 c : 0 <= c < 0x110000 -> utf8_encode c `prefix_of` [s0; s1; s2; s3] ->
  (zlen (utf8_encode c) = 1 /\ c < 0x80 /\ s0 = c) \/
  (zlen (utf8_encode c) = 2 /\ 0x80 <= c /\ 0xC0 <= s0 < 0xE0 /\ 0x80 <= s1 < 0xC0 /\ c = (s0 - 0xC0) * 64 + (s1 - 0x80)) \/
  (zlen (utf8_encode c) = 3 /\ 0x800 <= c /\ 0xE0 <= s0 < 0xF0 /\ 0x80 <= s1 < 0xC0 /\ 0x80 <= s2 < 0xC0 /\
    c = (s0 - 0xE0) * 4096 + (s1 - 0x80) * 64 + (s2 - 0x80)) \/
  (zlen (utf8_encode c) = 4 /\ 0x10000 <= c /\ 0xF0 <= s0 < 0xF8 /\ 0x80 <= s1 < 0xC0 /\ 0x80 <= s2 < 0xC0 /\ 0x80 <= s3 < 0xC0 /\
    c = (s0 - 0xF0) * 262144 + (s1 - 0x80) * 4096 + (s2 - 0x80) * 64 + (s3 - 0x80)).
Proof.
  intros Hc [r Hp]. unfold utf8_encode, zlen in *. repeat split_if; bool_to_prop; cbn [length app] in *.
  - left. by injection Hp as -> _.
  - right; left. injection Hp as B0 B1 _. Z.div_mod_to_equations. lia.
  - right; right; left. injection Hp as B0 B1 B2 _. Z.div_mod_to_equations. lia.
  - right; right; right. injection Hp as B0 B1 B2 B3 _. Z.div_mod_to_equations. lia.
Qed.

(** An encoded scalar value is decoded. *)
Lemma utf8_decode_complete s0 s1 s2 s3 c :
  byte_ok s0 -> byte_ok s1 -> byte_ok s2 -> byte_ok s3 -> unicode_scalar c -> utf8_encode c `prefix_of` [s0; s1; s2; s3] ->
  utf8_decode s0 s1 s2 s3 = (zlen (utf8_encode c), c, 0).
Proof.
  intros H0 H1 H2 H3 [Hc Hs] Hp. destruct (utf8_decode s0 s1 s2 s3) as [[next c'] e] eqn:E. apply no_error in E as (Hv & _ & Hl & He); [|done..].
  rewrite code_value_cases in Hv by done. unfold first_length, byte_ok in *.
  assert (Hd : c / 2 ^ 11 <> 0x1b) by (intros ?; apply Hs; Z.div_mod_to_equations; lia).
  assert (Hgoal : next = zlen (utf8_encode c) /\ c' = c /\ e = 0); [|by destruct Hgoal as (-> & -> & ->)].
  destruct (utf8_encode_bytes _ _ _ _ _ Hc Hp) as [(-> & ? & ?)|[(-> & ? & ? & ? & ?)|[(-> & ? & ? & ? & ? & ?)|(-> & ? & ? & ? & ? & ? & ?)]]];
    repeat match goal with H : context [s0 <? ?k] |- _ => first [rewrite (proj2 (Z.ltb_lt s0 k)) in H by lia | rewrite (proj2 (Z.ltb_ge s0 k)) in H by lia] end;
    rewrite ?continuation_mod in Hv by lia; (assert (c' = c) as -> by lia); (split; [lia|split; [done|]]); apply He; rewrite Hl by lia; eval_tables; lia.
Qed.

(** ** The walk is exact *)

(** A text as encoded scalar values, and single bytes where none begins. *)
Inductive segments : list Z -> list (Z * list Z) -> Prop :=
| segments_nil : segments [] []
| segments_scalar cp s l :
    unicode_scalar cp -> segments s l -> segments (utf8_encode cp ++ s) ((cp, utf8_encode cp) :: l)
| segments_invalid b s l :
    (forall cp r, unicode_scalar cp -> ~ b :: s = utf8_encode cp ++ r) -> segments s l ->
    segments (b :: s) ((invalid_code_point, [b]) :: l).

(** Calls for the segments of the text at [p], until one says stop. *)
Fixpoint run {A} (f : A -> Z -> Z -> Z -> A * bool) (p : Z) (l : list (Z * list Z)) (a : A) : A :=
  match l with
  | [] => a
  | (cp, t) :: l => let '(a, result) := f a cp p (zlen t) in if result then run f (p + zlen t) l a else a
  end.

Lemma segments_cons s cp t l : segments s ((cp, t) :: l) -> (0 < length t)%nat /\ exists r, s = t ++ r /\ segments r l.
Proof.
  inversion 1; subst; [split; [|by eexists]|split; [simpl; lia|by eexists]]. pose proof (utf8_encode_nonempty cp). destruct (utf8_encode cp); simpl; [done|lia].
Qed.

Lemma segments_nil_inv l : segments [] l -> l = [].
Proof. destruct l as [|[cp t] l]; [done|]. intros H. apply segments_cons in H as (Ht & r & E & _). by destruct t; [simpl in Ht; lia|]. Qed.

Lemma utf8_encode_length c : (length (utf8_encode c) <= 4)%nat.
Proof. unfold utf8_encode. repeat split_if; simpl; lia. Qed.

(** The tail of an encoded code point has no zero byte. *)
Lemma utf8_encode_tail cp : 0 <= cp -> Forall (fun b => b <> 0) (tail (utf8_encode cp)).
Proof.
  intros Hc. pose proof (Z.mod_pos_bound cp 64 eq_refl). pose proof (Z.mod_pos_bound (cp / 64) 64 eq_refl). pose proof (Z.mod_pos_bound (cp / 4096) 64 eq_refl).
  unfold utf8_encode. repeat split_if; simpl; repeat constructor; lia.
Qed.

Lemma prefix_short (e u w : list Z) : (length e <= length u)%nat -> e `prefix_of` u ++ w -> e `prefix_of` u.
Proof.
  intros Hl [z Hz]. exists (drop (length e) u). apply (f_equal (take (length e))) in Hz.
  rewrite take_app_le, take_app_length in Hz by done. rewrite <- (take_drop (length e) u) at 1. by rewrite Hz.
Qed.

Lemma prefix_padded (e rest : list Z) k :
  rest <> [] -> Forall (fun b => b <> 0) (tail e) -> e `prefix_of` rest ++ replicate k 0 -> e `prefix_of` rest.
Proof.
  intros Hr Ht Hp. destruct (decide (length e <= length rest)%nat) as [Hl|Hl].
  - by eapply prefix_short.
  - exfalso. destruct e as [|x e]; [simpl in Hl; lia|]. simpl in Ht. destruct Hp as [z Hz].
    assert (Hx : (rest ++ replicate k 0) !! length rest = Some 0).
    { rewrite lookup_app_r, Nat.sub_diag by lia. apply lookup_replicate. split; [done|].
      apply (f_equal length) in Hz. rewrite !length_app, length_replicate in Hz. lia. }
    rewrite Hz, lookup_app_l in Hx by lia. destruct rest as [|y rest]; [done|]. simpl in Hx. rewrite Forall_lookup in Ht. by apply (Ht _ _ Hx).
Qed.

(** One call of [decode] at a segment. *)
Lemma decode_step {A} (f : A -> Z -> Z -> Z -> A * bool) mem p ptr a rest k cp t l :
  bytes_ok rest -> drop p mem = rest ++ replicate k 0 -> (4 <= length (drop p mem))%nat -> segments rest ((cp, t) :: l) ->
  decode f mem p ptr a = let '(a', result) := f a cp ptr (zlen t) in Ok (a', if result then Some (p + length t)%nat else None).
Proof.
  intros Hb Hd Hl Hs. assert (Hok : bytes_ok (drop p mem)).
  { rewrite Hd. apply Forall_app. split; [done|]. apply Forall_replicate. unfold byte_ok. lia. }
  pose proof (segments_cons _ _ _ _ Hs) as (Ht & r & Er & _). assert (Hr : rest <> []) by (rewrite Er; destruct t; simpl in *; [lia|done]).
  unfold decode. rewrite <- (Nat.add_0_r p) at 1. rewrite <- !lookup_drop.
  destruct (drop p mem) as [|s0 [|s1 [|s2 [|s3 w]]]] eqn:E; try (simpl in Hl; lia). cbn [lookup list_lookup].
  rewrite !Forall_cons in Hok. destruct Hok as (H0 & H1 & H2 & H3 & Hw).
  assert (Hpre : forall e : list Z, (length e <= 4)%nat -> e `prefix_of` [s0; s1; s2; s3] <-> e `prefix_of` rest ++ replicate k 0).
  { intros e He. rewrite <- Hd. change (s0 :: s1 :: s2 :: s3 :: w) with ([s0; s1; s2; s3] ++ w). split; [apply prefix_app_r|].
    by apply prefix_short. }
  inversion Hs as [|cp' s' l' Hu Hs' E1 E2|b s' l' Hno Hs' E1 E2]; subst.
  - rewrite (utf8_decode_complete _ _ _ _ cp) by (done || (apply Hpre; [apply utf8_encode_length|by apply prefix_app_r, prefix_app_r])).
    simpl. destruct (f a cp ptr _). unfold zlen. by rewrite Nat2Z.id.
  - destruct (utf8_decode s0 s1 s2 s3) as [[next c] e] eqn:Ed. destruct (Z.eqb_spec e 0) as [->|]; [exfalso|simpl; by destruct (f _ _ _ _)].
    apply utf8_decode_sound in Ed as [Hu He]; [|done..]. assert (Hp : utf8_encode c `prefix_of` b :: s').
    { apply (prefix_padded _ _ k); [done|apply utf8_encode_tail; apply Hu|]. rewrite E1. apply Hpre; [apply utf8_encode_length|]. rewrite He. apply prefix_take. }
    destruct Hp as [z Hz]. by apply (Hno c z).
Qed.

Lemma segments_exist s : bytes_ok s -> exists l, segments s l.
Proof.
  induction s as [s IH] using (induction_ltof1 _ (@length Z)). unfold ltof in IH. intros Hok.
  destruct s as [|b s]; [by exists []; constructor|].
  assert (Hdec : (exists cp r, unicode_scalar cp /\ b :: s = utf8_encode cp ++ r) \/ forall cp r, unicode_scalar cp -> ~ b :: s = utf8_encode cp ++ r).
  { assert (Hx : exists s0 s1 s2 s3 w, (b :: s) ++ replicate 3 0 = [s0; s1; s2; s3] ++ w /\ byte_ok s0 /\ byte_ok s1 /\ byte_ok s2 /\ byte_ok s3).
    { assert (Hz : byte_ok 0) by (unfold byte_ok; lia). rewrite Forall_cons in Hok. destruct Hok as [Hb Hs].
      destruct s as [|s1 [|s2 [|s3 s]]]; rewrite ?Forall_cons in Hs; destruct_and?;
        [exists b, 0, 0, 0, []|exists b, s1, 0, 0, [0]|exists b, s1, s2, 0, [0; 0]|exists b, s1, s2, s3, (s ++ [0; 0; 0])]; done. }
    destruct Hx as (s0 & s1 & s2 & s3 & w & Hw & H0 & H1 & H2 & H3). destruct (utf8_decode s0 s1 s2 s3) as [[next c] e] eqn:Ed.
    destruct (Z.eq_dec e 0) as [->|He].
    - left. apply utf8_decode_sound in Ed as [Hu He]; [|done..]. exists c. cut (utf8_encode c `prefix_of` b :: s); [intros [z Hz]; by exists z|].
      apply (prefix_padded _ _ 3); [done|apply utf8_encode_tail; apply Hu|]. rewrite Hw, He. by apply prefix_app_r, prefix_take.
    - right. intros cp r Hu Hr. apply He. rewrite (utf8_decode_complete _ _ _ _ cp) in Ed; [congruence|done..|].
      apply (prefix_short _ _ w); [apply utf8_encode_length|]. rewrite <- Hw, Hr, <- app_assoc. by apply prefix_app_r. }
  destruct Hdec as [(cp & r & Hu & E)|Hno].
  - rewrite E in *. apply Forall_app in Hok as [_ Hok]. destruct (IH r) as [l Hl]; [|done|by exists ((cp, utf8_encode cp) :: l); constructor].
    rewrite length_app. pose proof (utf8_encode_nonempty cp). destruct (utf8_encode cp); [done|simpl; lia].
  - rewrite Forall_cons in Hok. destruct (IH s) as [l Hl]; [simpl; lia|apply Hok|]. exists ((invalid_code_point, [b]) :: l). by constructor.
Qed.

Section walk_exact.
Context {A : Type} (f : A -> Z -> Z -> Z -> A * bool).

Lemma block_loop_exact fuel s p a l :
  bytes_ok s -> (block_size <= length s)%nat -> (p <= length s)%nat -> (length s - p < fuel)%nat -> segments (drop p s) l ->
  match block_loop f fuel s p a with
  | Ok (a', None) => run f (Z.of_nat p) l a = a'
  | Ok (a', Some p') => exists l', (p' <= length s)%nat /\ (length s - p' < block_size)%nat /\ segments (drop p' s) l' /\ run f (Z.of_nat p) l a = run f (Z.of_nat p') l' a'
  | _ => False
  end.
Proof.
  intros Hok H4 Hp Hf Hs. unfold block_size in *. revert p a l Hp Hf Hs. induction fuel as [|fuel IH]; intros p a l Hp Hf Hs; [lia|]. cbn [block_loop].
  case_bool_decide as Hlt; unfold block_size in Hlt; [|exists l; split_and!; [done|lia|done|done]]. destruct l as [|[cp t] l].
  { inversion Hs as [E| |]. apply (f_equal length) in E. rewrite length_drop in E. unfold block_size in *. simpl in E. lia. }
  pose proof (segments_cons _ _ _ _ Hs) as (Ht & r & Er & Hs').
  erewrite (decode_step f s p _ _ (drop p s) 0); [|by apply Forall_drop|by rewrite app_nil_r|rewrite length_drop; unfold block_size in *; lia|done].
  cbn [run]. destruct (f a cp (Z.of_nat p) (zlen t)) as [a' [|]]; [|done].
  pose proof (f_equal length Er) as El. rewrite length_drop, length_app in El.
  assert (Hd : drop (p + length t) s = r) by (by rewrite <- drop_drop, Er, drop_app_length).
  specialize (IH (p + length t)%nat a' l ltac:(lia) ltac:(lia) ltac:(by rewrite Hd)). unfold zlen. by rewrite <- Nat2Z.inj_add.
Qed.

Lemma tail_loop_exact fuel u k bp p a l :
  bytes_ok u -> (bp < length u)%nat -> (3 <= k)%nat -> (length u - bp < fuel)%nat -> segments (drop bp u) l ->
  tail_loop f fuel (u ++ replicate k 0) (length u) bp p a = Ok (run f p l a).
Proof.
  intros Hok Hb Hk Hf Hs. revert bp p a l Hb Hf Hs. induction fuel as [|fuel IH]; intros bp p a l Hb Hf Hs; [lia|]. cbn [tail_loop].
  destruct l as [|[cp t] l]. { inversion Hs as [E| |]. apply (f_equal length) in E. rewrite length_drop in E. simpl in E. lia. }
  pose proof (segments_cons _ _ _ _ Hs) as (Ht & r & Er & Hs').
  assert (Hd : drop bp (u ++ replicate k 0) = drop bp u ++ replicate k 0) by (apply drop_app_le; lia).
  erewrite (decode_step f _ bp _ _ (drop bp u) k); [|by apply Forall_drop|done|rewrite Hd, length_app, length_drop, length_replicate; lia|done].
  cbn [run]. destruct (f a cp p (zlen t)) as [a' [|]]; [|done].
  pose proof (f_equal length Er) as El. rewrite length_drop, length_app in El.
  assert (Hr : drop (bp + length t) u = r) by (by rewrite <- drop_drop, Er, drop_app_length).
  replace (p + Z.of_nat (bp + length t - bp)) with (p + zlen t) by (unfold zlen; lia). case_bool_decide as Hlt.
  - apply IH; [done|lia|by rewrite Hr].
  - assert (r = []) as -> by (rewrite <- Hr; apply drop_ge; lia). by rewrite (segments_nil_inv _ Hs').
Qed.

Lemma for_each_run s a l : bytes_ok s -> segments s l -> for_each_codepoint f s a = Ok (run f 0 l a).
Proof.
  intros Hok Hs. unfold for_each_codepoint.
  assert (Htail : forall p a l, (p <= length s)%nat -> (length s - p < block_size)%nat -> segments (drop p s) l ->
    (let num_chars_left := (length s - p)%nat in
     if bool_decide (num_chars_left = 0)%nat then Ok a
     else
       let num_chars_left := Z.to_nat (Z.land (Z.of_nat num_chars_left) 3) in
       let buf := take num_chars_left (drop p s) ++ replicate (2 * block_size - 1 - num_chars_left) 0 in
       tail_loop f (S num_chars_left) buf num_chars_left 0 (Z.of_nat p) a) = Ok (run f (Z.of_nat p) l a)).
  { intros p a' l' Hp Hb Hl. unfold block_size in *. cbv zeta. case_bool_decide as E.
    { rewrite drop_ge in Hl by lia. by rewrite (segments_nil_inv _ Hl). }
    replace (Z.to_nat (Z.land (Z.of_nat (length s - p)) 3)) with (length s - p)%nat
      by (change 3 with (Z.ones 2); rewrite Z.land_ones, Z.mod_small by lia; lia).
    rewrite take_ge by (rewrite length_drop; lia).
    rewrite <- (length_drop s p) at 1 3. apply tail_loop_exact; [by apply Forall_drop|rewrite length_drop; lia|lia|lia|done]. }
  case_bool_decide as H4.
  - pose proof (block_loop_exact (S (length s)) s 0 a l Hok H4 ltac:(lia) ltac:(lia) Hs) as H. change (Z.of_nat 0) with 0 in H.
    destruct (block_loop _ _ _ _ _) as [[a' [p|]]| |]; [|by rewrite H|done|done].
    destruct H as (l' & Hp & Hb & Hl & ->). by apply Htail.
  - unfold block_size in *. by apply (Htail 0%nat); [lia|lia|].
Qed.
End walk_exact.

Lemma segments_concat s l : segments s l -> s = concat (map snd l).
Proof. induction 1; simpl; [done|by f_equal|by f_equal]. Qed.

Lemma segments_utf8 cps : Forall unicode_scalar cps -> segments (utf8_string cps) (map (fun cp => (cp, utf8_encode cp)) cps).
Proof. unfold utf8_string. induction 1; simpl; by constructor. Qed.

Definition total_width (cps : list Z) : Z := foldr (fun cp w => cp_width cp + w) 0 cps.
Lemma run_width p l a : run (fun count cp _ _ => (count + cp_width cp, true)) p l a = a + total_width (map fst l).
Proof. revert p a. induction l as [|[cp t] l IH]; intros; simpl; [lia|]. rewrite IH. lia. Qed.

Lemma run_index p l n r : 0 <= n ->
  (run (fun '(n, result) (_ begin _ : Z) => if negb (n =? 0) then ((n - 1, result), true) else ((n, begin), false)) p l (n, r)).2 =
    if n <? zlen l then p + zlen (concat (map snd (take (Z.to_nat n) l))) else r.
Proof.
  revert p n. induction l as [|[cp t] l IH]; intros p n Hn; cbn [run].
  { rewrite (proj2 (Z.ltb_ge n (zlen []))) by (rewrite zlen_nil; lia). done. }
  destruct (Z.eqb_spec n 0) as [->|H0]; cbn [negb].
  - rewrite zlen_cons. pose proof (zlen_nonneg l). rewrite (proj2 (Z.ltb_lt 0 _)) by lia. simpl. rewrite zlen_nil. lia.
  - rewrite IH by lia. rewrite zlen_cons. replace (Z.to_nat n) with (S (Z.to_nat (n - 1))) by lia. cbn [take map concat snd]. rewrite zlen_app.
    destruct (Z.ltb_spec (n - 1) (zlen l)), (Z.ltb_spec n (1 + zlen l)); lia.
Qed.

Lemma compute_width_segments s l : bytes_ok s -> segments s l -> compute_width s = Ok (total_width (map fst l)).
Proof. intros Hok Hs. unfold compute_width. rewrite (for_each_run _ s 0 l Hok Hs), run_width. done. Qed.

Lemma code_point_index_segments s l n :
  bytes_ok s -> segments s l -> 0 <= n -> code_point_index s n = Ok (zlen (concat (map snd (take (Z.to_nat n) l)))).
Proof.
  intros Hok Hs Hn. unfold code_point_index. rewrite (for_each_run _ s _ l Hok Hs). destruct (run _ _ _ _) as [n' r] eqn:E.
  apply (f_equal snd) in E. rewrite run_index in E by done. cbn [snd] in E. rewrite <- E. destruct (Z.ltb_spec n (zlen l)); [done|].
  f_equal. rewrite (segments_concat s l Hs) at 1. by rewrite take_ge by (unfold zlen in *; lia).
Qed.

Lemma compute_width_ok s : bytes_ok s -> exists w, compute_width s = Ok w.
Proof. intros Hok. destruct (segments_exist s Hok) as [l Hl]. eexists. by apply compute_width_segments. Qed.
Lemma code_point_index_ok s n : bytes_ok s -> 0 <= n -> exists k, code_point_index s n = Ok k /\ 0 <= k <= zlen s.
Proof.
  intros Hok Hn. destruct (segments_exist s Hok) as [l Hl]. eexists. split; [by apply code_point_index_segments|].
  rewrite (segments_concat s l Hl). rewrite <- (take_drop (Z.to_nat n) l) at 3. rewrite map_app, concat_app, zlen_app.
  pose proof (zlen_nonneg (concat (map snd (drop (Z.to_nat n) l)))). pose proof (zlen_nonneg (concat (map snd (take (Z.to_nat n) l)))). lia.
Qed.

(** ** Properties *)

(** The branchless decoder reports no error exactly when the four bytes begin
    with the shortest encoding of a Unicode scalar value (no surrogate, below
    U+110000), and then gives that value and the length of its encoding. *)
Theorem utf8_decode_exact (s0 s1 s2 s3 : Z) :
  byte_ok s0 -> byte_ok s1 -> byte_ok s2 -> byte_ok s3 ->
  forall next c e, utf8_decode s0 s1 s2 s3 = (next, c, e) ->
    1 <= next <= 4 /\
    (e = 0 -> unicode_scalar c /\ utf8_encode c = take (Z.to_nat next) [s0; s1; s2; s3]) /\
    (forall cp, unicode_scalar cp -> utf8_encode cp `prefix_of` [s0; s1; s2; s3] -> e = 0 /\ c = cp /\ next = zlen (utf8_encode cp)).
Proof.
  intros H0 H1 H2 H3 next c e E. split_and!.
  1,2: by apply no_error in E as (_ & Hn & _); [apply Hn|..].
  - intros ->. by apply utf8_decode_sound in E.
  - intros cp Hu Hp. rewrite (utf8_decode_complete _ _ _ _ cp) in E by done. by injection E as <- <- <-.
Qed.

(** The euro sign, and an overlong encoding. *)
Lemma utf8_decode_exact_witness :
  unicode_scalar 0x20AC /\ utf8_decode 0xE2 0x82 0xAC 0x41 = (3, 0x20AC, 0) /\ (utf8_decode 0xC0 0x80 0x41 0x41).2 <> 0.
Proof.
  split_and!; [|reflexivity|vm_compute; congruence].
  apply (utf8_decode_exact 0xE2 0x82 0xAC 0x41) with (next := 3) (e := 0); [unfold byte_ok; lia..|reflexivity|reflexivity].
Defined.

(** The walk over a text visits its segments in order, with their positions,
    until the function says stop: encoded scalar values whole, and single bytes
    where no scalar value is encoded; every text has such segments, nothing is
    read outside the text or the padded buffer, and the walk ends. *)
Theorem for_each_codepoint_exact (s : list Z) :
  bytes_ok s ->
  (exists l, segments s l) /\
  (forall l, segments s l -> forall A (f : A -> Z -> Z -> Z -> A * bool) a, for_each_codepoint f s a = Ok (run f 0 l a)).
Proof. intros Hok. split; [by apply segments_exist|]. intros. by apply for_each_run. Qed.

(** A letter, the euro sign and a stray byte. *)
Lemma for_each_codepoint_exact_witness :
  (exists l, segments [0x41; 0xE2; 0x82; 0xAC; 0xFF] l) /\
  for_each_codepoint (fun l cp p n => (l ++ [(cp, p, n)], true)) [0x41; 0xE2; 0x82; 0xAC; 0xFF] [] =
    Ok [(0x41, 0, 1); (0x20AC, 1, 3); (invalid_code_point, 4, 1)].
Proof. split; [apply for_each_codepoint_exact; repeat (constructor; [unfold byte_ok; lia|]); constructor|reflexivity]. Defined.

(** Truncation by precision keeps whole characters, and the width is that of
    the characters: for a text that encodes scalar values, [code_point_index]
    is the length of the encoding of the first [n] and [compute_width] the
    sum of the widths. *)
Theorem text_measures_exact (cps : list Z) (n : Z) :
  Forall unicode_scalar cps -> 0 <= n ->
  compute_width (utf8_string cps) = Ok (total_width cps) /\
  code_point_index (utf8_string cps) n = Ok (zlen (utf8_string (take (Z.to_nat n) cps))).
Proof.
  intros Hu Hn. assert (Hok : bytes_ok (utf8_string cps)).
  { unfold utf8_string. apply Forall_concat, Forall_map. eapply Forall_impl; [exact Hu|]. intros cp [? ?]. apply utf8_encode_ok. unfold accepted. lia. }
  pose proof (segments_utf8 cps Hu) as Hs. split.
  - rewrite (compute_width_segments _ _ Hok Hs), map_map. cbn. by rewrite map_id.
  - rewrite (code_point_index_segments _ _ _ Hok Hs Hn). unfold utf8_string. by rewrite <- firstn_map, map_map, firstn_map.
Qed.

Lemma text_measures_exact_witness :
  compute_width (utf8_string [0x41; 0x20AC; 0x6F22]) = Ok 4 /\ code_point_index (utf8_string [0x41; 0x20AC; 0x6F22]) 2 = Ok 4.
Proof. apply (text_measures_exact [0x41; 0x20AC; 0x6F22] 2); [|lia]. repeat constructor; unfold unicode_scalar; lia. Defined.
