(* ===== verification/FmtInt.v ===== *)
(** * fmt: decimal numbers (spdlog/fmt/bundled/format.h)

    [count_digits] with its tables for 32 and 64 bits, [do_format_decimal], which
    writes two digits at a time from the end of a buffer, and [format_int].  The
    builtins [clz] count leading zeros; a write outside the buffer is undefined.
    The reference is the decimal notation [digits]. *)

From S2P Require Import Prelude Machine.

(** ** Reference *)

(** The decimal notation of a nonnegative number. *)
Definition digits (n : Z) : list Z := chars (pretty (Z.to_N n)).

(** The decimal notation of a number with its sign. *)
Definition decimal (n : Z) : list Z := if n <? 0 then chars "-" ++ digits (- n) else digits n.

(** ** Counting digits *)

Definition CLZ (x : Z) : Z := 31 - Z.log2 x.
Definition CLZLL (x : Z) : Z := 63 - Z.log2 x.

(** [FMT_INC(T)] with the number of characters of the literal [T]. *)
Definition FMT_INC (chars_of_T T : Z) : Z := Z.shiftl chars_of_T 32 - T.

Definition count_digits_table : list Z :=
  [FMT_INC 1 0; FMT_INC 1 0; FMT_INC 1 0;
   FMT_INC 2 10; FMT_INC 2 10; FMT_INC 2 10;
   FMT_INC 3 100; FMT_INC 3 100; FMT_INC 3 100;
   FMT_INC 4 1000; FMT_INC 4 1000; FMT_INC 4 1000;
   FMT_INC 5 10000; FMT_INC 5 10000; FMT_INC 5 10000;
   FMT_INC 6 100000; FMT_INC 6 100000; FMT_INC 6 100000;
   FMT_INC 7 1000000; FMT_INC 7 1000000; FMT_INC 7 1000000;
   FMT_INC 8 10000000; FMT_INC 8 10000000; FMT_INC 8 10000000;
   FMT_INC 9 100000000; FMT_INC 9 100000000; FMT_INC 9 100000000;
   FMT_INC 10 1000000000; FMT_INC 10 1000000000; FMT_INC 10 1000000000;
   FMT_INC 10 1000000000; FMT_INC 10 1000000000].

(** An element of a static table. *)
Definition table_at {A} (t : list A) (i : Z) : outcome A :=
  if 0 <=? i then match t !! Z.to_nat i with Some x => Ok x | None => Undef end else Undef.

Definition outcome_map {A B} (f : A -> B) (o : outcome A) : outcome B :=
  match o with Ok a => Ok (f a) | Throw e => Throw e | Undef => Undef end.
Definition obind {A B} (o : outcome A) (k : A -> outcome B) : outcome B :=
  match o with Ok a => k a | Throw e => Throw e | Undef => Undef end.
Declare Scope outcome_scope.
Delimit Scope outcome_scope with outcome.
Notation "'let?' x ':=' o 'in' k" := (obind o (fun x => k)) (at level 10, x name, o at level 100, k at level 200) : outcome_scope.
Notation "'let?' ' p ':=' o 'in' k" := (obind o (fun p => k)) (at level 10, p strict pattern, o at level 100, k at level 200) : outcome_scope.

(** [do_count_digits(uint32_t)]. *)
Definition do_count_digits32 (n : Z) : outcome Z :=
  outcome_map (fun inc => Z.shiftr (u64 (n + inc)) 32) (table_at count_digits_table (Z.lxor (CLZ (Z.lor n 1)) 31)).

Definition bsr2log10 : list Z :=
  [1; 1; 1; 2; 2; 2; 3; 3; 3; 4; 4; 4; 4; 5; 5; 5;
   6; 6; 6; 7; 7; 7; 7; 8; 8; 8; 9; 9; 9; 10; 10; 10;
   10; 11; 11; 11; 12; 12; 12; 13; 13; 13; 13; 14; 14; 14; 15; 15;
   15; 16; 16; 16; 16; 17; 17; 17; 18; 18; 18; 19; 19; 19; 19; 20].

(** [FMT_POWERS_OF_10(factor)]. *)
Definition powers_of_10 (factor : Z) : list Z :=
  [factor * 10; factor * 100; factor * 1000; factor * 10000; factor * 100000; factor * 1000000; factor * 10000000;
   factor * 100000000; factor * 1000000000].
Definition zero_or_powers_of_10 : list Z :=
  [0; 0] ++ powers_of_10 1 ++ powers_of_10 1000000000 ++ [10000000000000000000].

(** [do_count_digits(uint64_t)]. *)
Definition do_count_digits64 (n : Z) : outcome Z :=
  match table_at bsr2log10 (Z.lxor (CLZLL (Z.lor n 1)) 63) with
  | Ok t => outcome_map (fun p => t - Z.b2z (n <? p)) (table_at zero_or_powers_of_10 t)
  | o => o
  end.

(** [count_digits_fallback], for a number of at most [4 * fuel] digits. *)
Fixpoint count_digits_loop (fuel : nat) (n count : Z) : Z :=
  if n <? 10 then count
  else if n <? 100 then count + 1
  else if n <? 1000 then count + 2
  else if n <? 10000 then count + 3
  else match fuel with O => count | S fuel => count_digits_loop fuel (n / 10000) (count + 4) end.
Definition count_digits_fallback (n : Z) : Z := count_digits_loop 5 n 1.

(** [count_digits] for the unsigned types of 32 and 64 bits. *)
Definition count_digits (bits : Z) (n : Z) : outcome Z :=
  if bits =? 32 then do_count_digits32 n else do_count_digits64 n.

(** ** Writing digits *)

Definition digit_char (d : Z) : Z := 48 + d.

(** [digits2]: two characters of a table of two hundred. *)
Definition digits2_data : list Z :=
  chars "0001020304050607080910111213141516171819" ++
  chars "2021222324252627282930313233343536373839" ++
  chars "4041424344454647484950515253545556575859" ++
  chars "6061626364656667686970717273747576777879" ++
  chars "8081828384858687888990919293949596979899".
Definition digits2 (value : Z) : outcome (list Z) :=
  let l := slice (value * 2) 2 digits2_data in if zlen l =? 2 then Ok l else Undef.

(** Characters written to a buffer at an index; outside it is undefined. *)
Definition put_at (i : Z) (l : list Z) : M (list Z) unit := fun b =>
  if (0 <=? i) && (i + zlen l <=? zlen b) then (Ok tt, overwrite i l b) else (Undef, b).

Definition write2digits (n value : Z) : M (list Z) unit :=
  let! l := of_outcome (digits2 value) in put_at n l.

(** The loop and the end of [do_format_decimal]: the index of the first digit.
    Every round uses two characters, so the size bounds the rounds. *)
Fixpoint format_decimal_loop (fuel : nat) (value n : Z) : M (list Z) Z :=
  if 100 <=? value then
    match fuel with
    | O => undef
    | S fuel =>
        let n := u32 (n - 2) in
        do! write2digits n (value mod 100) in
        format_decimal_loop fuel (value / 100) n
    end
  else if 10 <=? value then
    let n := u32 (n - 2) in
    do! write2digits n value in ret n
  else
    let n := u32 (n - 1) in
    do! put_at n [digit_char value] in ret n.

Definition do_format_decimal (value size : Z) : M (list Z) Z := format_decimal_loop (Z.to_nat size) value (u32 size).

(** ** format_int *)

Definition buffer_size : Z := 19 + 3.

(** [buffer_] and the index of [str_] in it. *)
Record format_int := mkformat_int { buffer_ : list Z; str_ : Z }.

(** [format_unsigned] and [format_signed]: the value of a type of [bits] bits. *)
Definition format_unsigned (bits value : Z) : M (list Z) Z := do_format_decimal (wrap bits value) (buffer_size - 1).
Definition format_signed (bits value : Z) : M (list Z) Z :=
  let abs_value := wrap bits value in
  let negative := value <? 0 in
  let abs_value := if negative then wrap bits (0 - abs_value) else abs_value in
  let! begin := format_unsigned bits abs_value in
  if negative then do! put_at (begin - 1) [45] in ret (begin - 1) else ret begin.

(** The constructors; [buffer_] starts with indeterminate characters. *)
Definition format_int_new (signed : bool) (bits value : Z) (garbage : list Z) : outcome format_int :=
  match (if signed then format_signed bits value else format_unsigned bits value) garbage with
  | (Ok str, b) => Ok (mkformat_int b str)
  | (Throw e, _) => Throw e
  | (Undef, _) => Undef
  end.

Definition format_int_size (i : format_int) : Z := buffer_size - 1 - str_ i.
Definition format_int_data (i : format_int) : list Z := slice (str_ i) (format_int_size i) (buffer_ i).

(** ** Powers of two as base *)

(** [do_format_base2e]: the digits before the end of a buffer of [size] characters. *)
Definition base_digit (base_bits : Z) (upper : bool) (digit : Z) : Z :=
  if (base_bits <? 4) || (digit <? 10) then 48 + digit else (if upper then 55 else 87) + digit.
Fixpoint do_format_base2e (base_bits : Z) (size : nat) (upper : bool) (value : Z) (done : list Z) : outcome (list Z) :=
  match size with
  | O => Undef
  | S size =>
      let digit := Z.land value (Z.shiftl 1 base_bits - 1) in
      let done := base_digit base_bits upper digit :: done in
      let value := Z.shiftr value base_bits in
      if negb (value =? 0) then do_format_base2e base_bits size upper value done else Ok done
  end.

(** ** Decimal notation *)
Lemma chars_app s t : chars (s +:+ t) = chars s ++ chars t.
Proof. unfold chars. induction s as [|a s IH]; simpl; [done|]. by rewrite IH. Qed.

Lemma string_app_assoc (s t u : string) : (s +:+ t) +:+ u = s +:+ (t +:+ u).
Proof. induction s as [|a s IH]; [done|]. exact (f_equal (String a) IH). Qed.

Lemma pretty_N_go_app x s : pretty_N_go x s = pretty_N_go x "" +:+ s.
Proof.
  revert s. induction (N.lt_wf_0 x) as [x _ IH]; intros s.
  destruct (decide (x = 0)%N) as [->|Hx]; [done|].
  rewrite !(pretty_N_go_step x) by lia. rewrite IH by (apply N.div_lt; lia).
  rewrite (IH (x `div` 10)%N ltac:(apply N.div_lt; lia) (String _ "")). by rewrite string_app_assoc.
Qed.

Lemma pretty_N_char_code d : (d < 10)%N -> chars (String (pretty_N_char d) "") = [digit_char (Z.of_N d)].
Proof.
  intros. assert (d = 0 \/ d = 1 \/ d = 2 \/ d = 3 \/ d = 4 \/ d = 5 \/ d = 6 \/ d = 7 \/ d = 8 \/ d = 9)%N as Hd by lia.
  repeat destruct Hd as [->|Hd]; try reflexivity. by subst.
Qed.

Lemma digits_step n : 0 <= n -> digits n = if n <? 10 then [digit_char n] else digits (n / 10) ++ [digit_char (n mod 10)].
Proof.
  intros Hn. destruct (Z.ltb_spec n 10) as [Hl|Hl].
  - assert (Hd : Forall (fun d => digits d = [digit_char d]) (seqZ 0 10)) by (repeat constructor).
    rewrite Forall_forall in Hd. apply Hd, elem_of_seqZ. lia.
  - unfold digits, pretty, pretty_N. rewrite !decide_False by lia.
    rewrite (pretty_N_go_step (Z.to_N n)), pretty_N_go_app, chars_app by lia.
    rewrite pretty_N_char_code by (apply N.mod_lt; lia).
    rewrite Z2N.inj_div, N2Z.inj_mod, Z2N.id by lia. change (Z.to_N 10) with 10%N.
    rewrite decide_False; [done|]. pose proof (N.div_str_pos (Z.to_N n) 10 ltac:(lia)). lia.
Qed.

Lemma digits_small n : 0 <= n < 10 -> digits n = [digit_char n].
Proof. intros. rewrite digits_step by lia. by rewrite (proj2 (Z.ltb_lt _ _)) by lia. Qed.

Lemma digits_10 n : 10 <= n -> digits n = digits (n / 10) ++ [digit_char (n mod 10)].
Proof. intros. rewrite digits_step by lia. by rewrite (proj2 (Z.ltb_ge _ _)) by lia. Qed.

(** The last two digits. *)
Lemma digits_100 n : 100 <= n -> digits n = digits (n / 100) ++ [digit_char (n mod 100 / 10); digit_char (n mod 100 mod 10)].
Proof.
  intros. rewrite digits_10, (digits_10 (n / 10)) by (lia || (apply Z.div_le_lower_bound; lia)).
  rewrite Z.div_div, <- app_assoc by lia. unfold digit_char. cbn [app].
  replace (n / 10 mod 10) with (n mod 100 / 10) by (Z.div_mod_to_equations; lia).
  by replace (n mod 10) with (n mod 100 mod 10) by (Z.div_mod_to_equations; lia).
Qed.

Lemma digits_pos n : 0 <= n -> 1 <= zlen (digits n).
Proof.
  intros. destruct (Z.ltb_spec n 10); [by rewrite digits_small by lia|].
  rewrite digits_10, zlen_app by lia. pose proof (zlen_nonneg (digits (n / 10))). change (zlen [_]) with 1. lia.
Qed.

(** How many digits a number has. *)
Lemma digits_length d n : 1 <= d -> (d = 1 \/ 10 ^ (d - 1) <= n) -> 0 <= n < 10 ^ d -> zlen (digits n) = d.
Proof.
  intros Hd. revert n. pattern d. apply Z.right_induction with (z := 1); [solve_proper| |clear; intros d Hd IH|done].
  - intros n _ Hn. by rewrite digits_small by lia.
  - intros n Hl Hn. rewrite <- Z.add_1_r in *. destruct Hl as [?|Hl]; [lia|]. rewrite Z.add_simpl_r in Hl.
    assert (E : 10 ^ (d + 1) = 10 ^ d * 10) by (rewrite Z.pow_add_r by lia; lia).
    assert (10 ^ d = 10 ^ (d - 1) * 10) as Ed by (replace d with (d - 1 + 1) at 1 by lia; rewrite Z.pow_add_r by lia; lia).
    assert (0 < 10 ^ (d - 1)) by (apply Z.pow_pos_nonneg; lia).
    rewrite digits_10, zlen_app by lia. rewrite IH; [done| |].
    + right. apply Z.div_le_lower_bound; lia.
    + split; [apply Z.div_pos; lia|]. apply Z.div_lt_upper_bound; lia.
Qed.

Lemma decimal_pretty n : decimal n = chars (pretty n).
Proof. by destruct n. Qed.

(** ** The tables are right *)

(** The digits that the entry for [k] stands for, and the power of ten up to
    which a number with highest bit [k] has one digit less. *)
Definition entry_digits32 (k : Z) : Z := Z.min (k / 3 + 1) 10.
Definition threshold (d : Z) : Z := if d =? 1 then 0 else 10 ^ (d - 1).

(** Numbers of [k + 1] bits have [d] digits from the threshold on, and one less
    below it. *)
Definition spans (k d : Z) : bool :=
  (1 <=? d) && ((d =? 1) || (10 ^ (d - 2) <=? 2 ^ k)) && (2 ^ (k + 1) <=? 10 ^ d).

Definition check32 (k : Z) : bool :=
  let d := entry_digits32 k in
  bool_decide (table_at count_digits_table (Z.lxor (31 - k) 31) = Ok (d * 2 ^ 32 - threshold d)) && spans k d && (d <=? 10).
Definition check64 (k : Z) : bool :=
  match table_at bsr2log10 (Z.lxor (63 - k) 63) with
  | Ok t => spans k t && bool_decide (table_at zero_or_powers_of_10 t = Ok (threshold t))
  | _ => false
  end.

Lemma check_all (f : Z -> bool) n k :
  forallb (fun i => f (Z.of_nat i)) (seq 0 n) = true -> 0 <= k < Z.of_nat n -> f k = true.
Proof.
  intros H Hk. rewrite forallb_forall in H. rewrite <- (Z2Nat.id k) by lia. apply H, in_seq. lia.
Qed.

Lemma check32_ok k : 0 <= k < 32 -> check32 k = true.
Proof. apply (check_all check32 32). vm_compute. reflexivity. Qed.
Lemma check64_ok k : 0 <= k < 64 -> check64 k = true.
Proof. apply (check_all check64 64). vm_compute. reflexivity. Qed.

Lemma spans_digits k d n :
  spans k d = true -> 0 <= k -> 2 ^ k <= n < 2 ^ (k + 1) -> zlen (digits n) = if n <? threshold d then d - 1 else d.
Proof.
  unfold spans, threshold. intros H Hk Hn. apply andb_prop in H as [H H3]. apply andb_prop in H as [H1 H2].
  bool_to_prop. apply orb_prop in H2. assert (0 < 2 ^ k) by (apply Z.pow_pos_nonneg; lia).
  destruct (Z.eqb_spec d 1) as [->|Hd].
  - rewrite (proj2 (Z.ltb_ge _ _)) by lia. apply digits_length; [lia|by left|lia].
  - destruct H2 as [?|H2]; bool_to_prop; [lia|]. destruct (Z.ltb_spec n (10 ^ (d - 1))).
    + apply digits_length; [lia| |lia]. right. replace (d - 1 - 1) with (d - 2) by lia. lia.
    + apply digits_length; [lia|by right|lia].
Qed.

(** The highest bit of [n | 1]. *)
Lemma log2_or_1 n : 0 < n -> Z.log2 (Z.lor n 1) = Z.log2 n.
Proof. intros. rewrite Z.log2_lor by lia. change (Z.log2 1) with 0. pose proof (Z.log2_nonneg n). lia. Qed.

Lemma do_count_digits32_ok n : 0 <= n < 2 ^ 32 -> do_count_digits32 n = Ok (zlen (digits n)).
Proof.
  intros Hn. destruct (decide (n = 0)) as [->|]; [reflexivity|]. set (k := Z.log2 n).
  assert (Hk : 0 <= k < 32) by (split; [apply Z.log2_nonneg|apply Z.log2_lt_pow2; lia]).
  pose proof (Z.log2_spec n ltac:(lia)) as Hs. fold k in Hs. rewrite <- Z.add_1_r in Hs.
  pose proof (check32_ok k Hk) as Hc. unfold check32 in Hc.
  apply andb_prop in Hc as [Hc Hd]. apply andb_prop in Hc as [Ht Hsp]. apply bool_decide_eq_true in Ht. bool_to_prop.
  unfold do_count_digits32, CLZ. rewrite log2_or_1 by lia. fold k. rewrite Ht. simpl. f_equal.
  rewrite (spans_digits k _ n Hsp) by lia. set (d := entry_digits32 k) in *.
  assert (1 <= d) by (unfold spans in Hsp; bool_to_prop; lia).
  assert (0 <= threshold d <= 10 ^ 9).
  { unfold threshold. split_if; [lia|]. split; [apply Z.pow_nonneg; lia|apply Z.pow_le_mono_r; lia]. }
  unfold u64. rewrite wrap_small by lia. rewrite Z.shiftr_div_pow2 by lia. symmetry.
  destruct (Z.ltb_spec n (threshold d)); [apply Z.div_unique with (n - threshold d + 2 ^ 32)|apply Z.div_unique with (n - threshold d)]; lia.
Qed.

Lemma do_count_digits64_ok n : 0 <= n < 2 ^ 64 -> do_count_digits64 n = Ok (zlen (digits n)).
Proof.
  intros Hn. destruct (decide (n = 0)) as [->|]; [reflexivity|]. set (k := Z.log2 n).
  assert (Hk : 0 <= k < 64) by (split; [apply Z.log2_nonneg|apply Z.log2_lt_pow2; lia]).
  pose proof (Z.log2_spec n ltac:(lia)) as Hs. fold k in Hs. rewrite <- Z.add_1_r in Hs.
  pose proof (check64_ok k Hk) as Hc. unfold check64 in Hc.
  unfold do_count_digits64, CLZLL. rewrite log2_or_1 by lia. fold k.
  destruct (table_at bsr2log10 _) as [t|e|]; [|done..]. apply andb_prop in Hc as [Hsp Ht].
  apply bool_decide_eq_true in Ht. rewrite Ht. simpl. f_equal.
  rewrite (spans_digits k _ n Hsp) by lia. destruct (n <? threshold t); simpl; lia.
Qed.

Lemma digits_10000 n : 10000 <= n -> zlen (digits n) = 4 + zlen (digits (n / 10000)).
Proof.
  intros. rewrite digits_100, (digits_100 (n / 100)), !zlen_app by (lia || (apply Z.div_le_lower_bound; lia)).
  rewrite Z.div_div by lia. change (100 * 100) with 10000. unfold zlen. simpl. lia.
Qed.

Lemma count_digits_loop_ok fuel n c :
  0 <= n < 10 ^ (4 * Z.of_nat fuel + 4) -> count_digits_loop fuel n c = c + zlen (digits n) - 1.
Proof.
  revert n c. induction fuel as [|fuel IH]; intros n c Hn; simpl.
  - change (10 ^ (4 * Z.of_nat 0 + 4)) with 10000 in Hn.
    destruct (Z.ltb_spec n 10); [rewrite (digits_length 1) by lia; lia|].
    destruct (Z.ltb_spec n 100); [rewrite (digits_length 2) by lia; lia|].
    destruct (Z.ltb_spec n 1000); [rewrite (digits_length 3) by lia; lia|].
    destruct (Z.ltb_spec n 10000); [rewrite (digits_length 4) by lia; lia|lia].
  - destruct (Z.ltb_spec n 10); [rewrite (digits_length 1) by lia; lia|].
    destruct (Z.ltb_spec n 100); [rewrite (digits_length 2) by lia; lia|].
    destruct (Z.ltb_spec n 1000); [rewrite (digits_length 3) by lia; lia|].
    destruct (Z.ltb_spec n 10000); [rewrite (digits_length 4) by lia; lia|].
    rewrite IH, (digits_10000 n) by (lia || (split; [apply Z.div_pos; lia|]; apply Z.div_lt_upper_bound; [lia|];
      replace (4 * Z.of_nat (S fuel) + 4) with (4 + (4 * Z.of_nat fuel + 4)) in Hn by lia; rewrite Z.pow_add_r in Hn by lia; lia)). lia.
Qed.

(** Counting digits with bit tricks is exact: for every 32-bit and every
    64-bit number the table lookups stay in range and give the number of digits
    of its decimal notation, as does the division loop. *)
Theorem fmt_count_digits_exact (bits n : Z) :
  bits = 32 \/ bits = 64 -> 0 <= n < 2 ^ bits ->
  count_digits bits n = Ok (zlen (digits n)) /\ count_digits_fallback n = zlen (digits n).
Proof.
  intros Hb Hn. split.
  - unfold count_digits. destruct Hb as [->| ->]; simpl; [by apply do_count_digits32_ok|by apply do_count_digits64_ok].
  - unfold count_digits_fallback. rewrite count_digits_loop_ok; [lia|].
    assert (2 ^ bits <= 2 ^ 64) by (apply Z.pow_le_mono_r; lia).
    split; [lia|]. apply Z.lt_le_trans with (2 ^ 64); [lia|]. vm_compute. discriminate.
Qed.

Lemma fmt_count_digits_exact_witness :
  count_digits 64 18446744073709551615 = Ok 20 /\ count_digits_fallback 18446744073709551615 = 20.
Proof. destruct (fmt_count_digits_exact 64 18446744073709551615) as [H1 H2]; [by right|lia|]. by rewrite H1, H2. Defined.

(** ** The digits in the buffer *)
Lemma digits2_ok r : 0 <= r < 100 -> digits2 r = Ok [digit_char (r / 10); digit_char (r mod 10)].
Proof.
  intros Hr. set (f r := bool_decide (digits2 r = Ok [digit_char (r / 10); digit_char (r mod 10)])).
  assert (f r = true) as H by (apply (check_all f 100); [vm_compute; reflexivity|lia]). by apply bool_decide_eq_true in H.
Qed.

Lemma put_at_ok i l (b : list Z) : 0 <= i -> i + zlen l <= zlen b -> put_at i l b = (Ok tt, overwrite i l b).
Proof. intros. unfold put_at. by rewrite !(proj2 (Z.leb_le _ _)) by lia. Qed.

Lemma write2digits_ok n r (b : list Z) :
  0 <= r < 100 -> 0 <= n -> n + 2 <= zlen b ->
  write2digits n r b = (Ok tt, overwrite n [digit_char (r / 10); digit_char (r mod 10)] b).
Proof.
  intros. unfold write2digits, bind, of_outcome. rewrite digits2_ok by done. by apply put_at_ok.
Qed.

(** A buffer with [l] just before index [n]. *)
Definition ends_at (n : Z) (l b : list Z) : list Z := take (Z.to_nat (n - zlen l)) b ++ l ++ drop (Z.to_nat n) b.

Lemma ends_at_overwrite n k l (b : list Z) :
  zlen l = k -> 0 <= n - k -> overwrite (n - k) l b = ends_at n l b.
Proof. intros <- ?. unfold overwrite, ends_at. do 3 f_equal. unfold zlen in *. lia. Qed.

Lemma ends_at_ends_at n l1 l2 (b : list Z) :
  0 <= n - zlen l2 - zlen l1 -> n <= zlen b -> ends_at (n - zlen l2) l1 (ends_at n l2 b) = ends_at n (l1 ++ l2) b.
Proof.
  intros Hn Hb. unfold ends_at, zlen in *. rewrite length_app.
  rewrite take_app_le by (rewrite length_take; lia). rewrite take_take.
  rewrite drop_app_ge by (rewrite length_take; lia). rewrite length_take.
  replace (Z.to_nat (n - Z.of_nat (length l2)) - Z.to_nat (n - Z.of_nat (length l2)) `min` length b)%nat with O by lia.
  rewrite drop_0, <- !app_assoc. f_equal. f_equal. lia.
Qed.

Lemma zlen_ends_at n l (b : list Z) : 0 <= n - zlen l -> n <= zlen b -> zlen (ends_at n l b) = zlen b.
Proof. intros. unfold ends_at, zlen in *. rewrite !length_app, length_take, length_drop. lia. Qed.

Lemma format_decimal_loop_ok fuel value n b :
  0 <= value -> zlen (digits value) <= 2 * Z.of_nat fuel + 2 -> zlen (digits value) <= n <= zlen b -> n < 2 ^ 32 ->
  format_decimal_loop fuel value n b = (Ok (n - zlen (digits value)), ends_at n (digits value) b).
Proof.
  revert value n b. induction fuel as [|fuel IH]; intros value n b Hv Hf Hn H32; cbn [format_decimal_loop].
  all: destruct (Z.leb_spec 100 value) as [H100|H100].
  1: { exfalso. assert (3 <= zlen (digits value)); [|lia]. rewrite digits_100, zlen_app by lia.
       pose proof (digits_pos (value / 100) ltac:(apply Z.div_pos; lia)). change (zlen [_; _]) with 2. lia. }
  2: { rewrite (digits_100 value), zlen_app in * by lia. set (d2 := [digit_char _; digit_char _]) in *.
       change (zlen d2) with 2 in *. pose proof (zlen_nonneg (digits (value / 100))).
       unfold u32. rewrite wrap_small by lia.
       pose proof (Z.mod_pos_bound value 100 ltac:(lia)).
       erewrite bind_ok by (apply write2digits_ok; lia). fold d2.
       rewrite (ends_at_overwrite _ _ d2) by (done || lia). change (n - 2) with (n - zlen d2).
       rewrite IH; [|apply Z.div_pos; lia|lia| |change (zlen d2) with 2; lia].
       - rewrite ends_at_ends_at by (change (zlen d2) with 2; lia). f_equal. f_equal. change (zlen d2) with 2. lia.
       - rewrite zlen_ends_at by (change (zlen d2) with 2; lia). change (zlen d2) with 2. lia. }
  all: destruct (Z.leb_spec 10 value) as [H10|H10].
  1, 3: rewrite digits_10, digits_small in * by (lia || (split; [apply Z.div_pos; lia|apply Z.div_lt_upper_bound; lia]));
    cbn [app] in *; set (d2 := [digit_char _; digit_char _]) in *; change (zlen d2) with 2 in *;
    unfold u32; rewrite wrap_small by lia; erewrite bind_ok by (apply write2digits_ok; lia); fold d2;
    rewrite (ends_at_overwrite _ _ d2) by (done || lia); reflexivity.
  all: rewrite digits_small in * by lia; change (zlen [_]) with 1 in *; unfold u32; rewrite wrap_small by lia;
    erewrite bind_ok by (apply put_at_ok; [lia|change (zlen [_]) with 1; lia]);
    rewrite ends_at_overwrite by (done || lia); reflexivity.
Qed.

Lemma digits_length_le d n : 1 <= d -> 0 <= n < 10 ^ d -> zlen (digits n) <= d.
Proof.
  intros Hd. revert n. pattern d. apply Z.right_induction with (z := 1); [solve_proper| |clear; intros d Hd IH|done].
  - intros n Hn. by rewrite digits_small by lia.
  - intros n Hn. rewrite <- Z.add_1_r in *. destruct (Z.ltb_spec n 10); [rewrite digits_small by lia; change (zlen [_]) with 1; lia|].
    assert (E : 10 ^ (d + 1) = 10 ^ d * 10) by (rewrite Z.pow_add_r by lia; lia).
    rewrite digits_10, zlen_app by lia. change (zlen [_]) with 1.
    enough (zlen (digits (n / 10)) <= d) by lia. apply IH. split; [apply Z.div_pos; lia|apply Z.div_lt_upper_bound; lia].
Qed.

Lemma slice_ends_at n l (b : list Z) : 0 <= n - zlen l -> n <= zlen b -> slice (n - zlen l) (zlen l) (ends_at n l b) = l.
Proof.
  intros. unfold slice, ends_at. rewrite drop_app_ge by (rewrite length_take; lia). rewrite length_take.
  unfold zlen in *. replace (Z.to_nat (n - Z.of_nat (length l)) - Z.to_nat (n - Z.of_nat (length l)) `min` length b)%nat with O by lia.
  rewrite drop_0, Nat2Z.id. by rewrite take_app_length.
Qed.

Lemma do_format_decimal_ok v b :
  0 <= v < 2 ^ 64 -> zlen b = buffer_size ->
  do_format_decimal v (buffer_size - 1) b = (Ok (buffer_size - 1 - zlen (digits v)), ends_at (buffer_size - 1) (digits v) b) /\
  zlen (digits v) <= 20.
Proof.
  intros Hv Hb. assert (zlen (digits v) <= 20) as Hl.
  { apply digits_length_le; [lia|]. split; [lia|]. apply Z.lt_trans with (2 ^ 64); [lia|]. reflexivity. }
  split; [|done]. unfold do_format_decimal. change (u32 (buffer_size - 1)) with (buffer_size - 1).
  apply format_decimal_loop_ok; unfold buffer_size in *; lia.
Qed.

(** The types of [format_int]'s constructors. *)
Definition int_range (signed : bool) (bits value : Z) : Prop :=
  (bits = 32 \/ bits = 64) /\ if signed then - 2 ^ (bits - 1) <= value < 2 ^ (bits - 1) else 0 <= value < 2 ^ bits.

Lemma format_int_ok (signed : bool) (bits value : Z) (garbage : list Z) :
  int_range signed bits value -> zlen garbage = buffer_size ->
  exists i, format_int_new signed bits value garbage = Ok i /\ format_int_data i = decimal value /\
    format_int_size i = zlen (decimal value).
Proof.
  intros [Hb Hv] Hg. assert (2 ^ bits <= 2 ^ 64) by (apply Z.pow_le_mono_r; lia).
  assert (E2 : 2 ^ bits = 2 * 2 ^ (bits - 1)) by (rewrite <- Z.pow_succ_r by lia; f_equal; lia).
  assert (0 < 2 ^ (bits - 1)) by (apply Z.pow_pos_nonneg; lia).
  assert (Hu : forall v, 0 <= v < 2 ^ bits -> format_unsigned bits v garbage =
    (Ok (buffer_size - 1 - zlen (digits v)), ends_at (buffer_size - 1) (digits v) garbage) /\ zlen (digits v) <= 20).
  { intros v Hr. unfold format_unsigned. rewrite wrap_small by done. apply do_format_decimal_ok; [lia|done]. }
  assert (Hpos : 0 <= value -> (if signed then format_signed bits value else format_unsigned bits value) garbage
    = format_unsigned bits value garbage).
  { intros. destruct signed; [|done]. unfold format_signed. rewrite (wrap_small bits value) by lia.
    rewrite (proj2 (Z.ltb_ge _ _)) by lia. unfold bind. destruct (Hu value ltac:(lia)) as [-> _]. done. }
  unfold format_int_new, format_int_data, format_int_size, decimal. destruct (Z.ltb_spec value 0) as [Hneg|Hnn].
  - destruct signed; [|lia]. unfold format_signed. rewrite (proj2 (Z.ltb_lt _ _)) by lia.
    replace (wrap bits (0 - wrap bits value)) with (- value).
    2:{ unfold wrap. rewrite Zminus_mod_idemp_r. symmetry. rewrite Z.sub_0_l. apply Z.mod_small. lia. }
    destruct (Hu (- value) ltac:(lia)) as [E L]. unfold bind at 1. rewrite E.
    set (d := digits (- value)) in *. pose proof (digits_pos (- value) ltac:(lia)). fold d in H1.
    erewrite bind_ok by (apply put_at_ok; rewrite ?zlen_ends_at; unfold buffer_size in *; change (zlen [_]) with 1; lia).
    rewrite ends_at_overwrite, ends_at_ends_at by (unfold buffer_size in *; change (zlen [_]) with 1; (done || lia)).
    change (chars "-") with [45]. assert (Hz : zlen ([45] ++ d) = 1 + zlen d) by (by rewrite zlen_app).
    eexists. split; [reflexivity|]. simpl str_. simpl buffer_.
    replace (buffer_size - 1 - zlen d - 1) with (buffer_size - 1 - zlen ([45] ++ d)) by lia.
    replace (buffer_size - 1 - (buffer_size - 1 - zlen ([45] ++ d))) with (zlen ([45] ++ d)) by lia.
    split; [|done]. apply slice_ends_at; unfold buffer_size in *; lia.
  - rewrite Hpos by done. destruct (Hu value) as [E L]; [destruct signed; lia|]. rewrite E. eexists. split; [reflexivity|].
    simpl str_. simpl buffer_. replace (buffer_size - 1 - (buffer_size - 1 - zlen (digits value))) with (zlen (digits value)) by lia.
    split; [|done]. apply slice_ends_at; unfold buffer_size in *; lia.
Qed.

Lemma base2e_defined base size upper v done :
  1 <= base -> (1 <= size)%nat -> 0 <= v < 2 ^ (base * Z.of_nat size) -> exists d, do_format_base2e base size upper v done = Ok d.
Proof.
  intros Hb. revert v done. induction size as [|size IH]; intros v done Hs Hv; [lia|]. cbn [do_format_base2e].
  destruct (Z.eqb_spec (Z.shiftr v base) 0) as [E|E]; simpl; [by eexists|].
  rewrite Z.shiftr_div_pow2 in * by lia. assert (0 < 2 ^ base) by (apply Z.pow_pos_nonneg; lia).
  assert (0 <= v / 2 ^ base) by (apply Z.div_pos; lia).
  assert (Hd : v / 2 ^ base < 2 ^ (base * Z.of_nat size)).
  { apply Z.div_lt_upper_bound; [lia|]. rewrite <- Z.pow_add_r by lia. replace (base + base * Z.of_nat size) with (base * Z.of_nat (S size)) by lia. lia. }
  apply IH; [|lia]. destruct size; [|lia]. rewrite Z.mul_0_r, Z.pow_0_r in Hd. lia.
Qed.

(** C27: [format_int] writes every number of its six types in decimal: whatever
    the buffer held before, no write leaves it, and the text is the decimal
    notation with a minus sign for negative numbers, the smallest one included. *)
Theorem format_int_exact (signed : bool) (bits value : Z) (garbage : list Z) :
  int_range signed bits value -> zlen garbage = buffer_size ->
  exists i, format_int_new signed bits value garbage = Ok i /\ format_int_data i = decimal value /\
    format_int_size i = zlen (decimal value).
Proof. apply format_int_ok. Qed.

Lemma format_int_exact_witness :
  exists i, format_int_new true 32 (-2147483648) (replicate 22 0) = Ok i /\ format_int_data i = chars "-2147483648".
Proof.
  destruct (format_int_exact true 32 (-2147483648) (replicate 22 0)) as (i & E & D & _).
  - split; [by left|lia].
  - reflexivity.
  - exists i. split; [exact E|]. rewrite D. vm_compute. reflexivity.
Defined.
