(* ===== verification/FmtWide.v ===== *)
(** * fmt: wide integers and divisions without division (format.h, format-inl.h)

    The arithmetic under the formatting of floating-point numbers: 128-bit
    numbers made of two 64-bit halves, products of 64-bit numbers without a
    128-bit type, approximate logarithms, and divisions and divisibility tests
    by multiplication.  An assertion of the code that fails is undefined
    behaviour. *)

From S2P Require Import Prelude Machine FmtUtf8 FmtInt.

(** ** uint128_fallback *)

Record uint128_fallback := mk128 { high : Z; low : Z }.

(** The number it stands for. *)
Definition val128 (x : uint128_fallback) : Z := high x * 2 ^ 64 + low x.
Definition ok128 (x : uint128_fallback) : Prop := 0 <= high x < 2 ^ 64 /\ 0 <= low x < 2 ^ 64.

Definition of64 (value : Z) : uint128_fallback := mk128 0 value.
Definition eq128 (lhs rhs : uint128_fallback) : bool := (high lhs =? high rhs) && (low lhs =? low rhs).
Definition gt128 (lhs rhs : uint128_fallback) : bool :=
  if negb (high lhs =? high rhs) then high rhs <? high lhs else low rhs <? low lhs.
Definition or128 (lhs rhs : uint128_fallback) : uint128_fallback := mk128 (Z.lor (high lhs) (high rhs)) (Z.lor (low lhs) (low rhs)).
Definition and128 (lhs rhs : uint128_fallback) : uint128_fallback := mk128 (Z.land (high lhs) (high rhs)) (Z.land (low lhs) (low rhs)).
Definition not128 (n : uint128_fallback) : uint128_fallback := mk128 (u64 (Z.lnot (high n))) (u64 (Z.lnot (low n))).

(** [operator+=(uint128_fallback)] and [operator+]. *)
Definition add128 (x n : uint128_fallback) : outcome uint128_fallback :=
  let new_lo := u64 (low x + low n) in
  let new_hi := u64 (high x + high n + (if new_lo <? low x then 1 else 0)) in
  if high x <=? new_hi then Ok (mk128 new_hi new_lo) else Undef.

(** [operator+=(uint64_t)]. *)
Definition add64 (x : uint128_fallback) (n : Z) : uint128_fallback :=
  let lo := u64 (low x + n) in
  mk128 (u64 (high x + (if lo <? n then 1 else 0))) lo.

(** [operator*] with a 32-bit factor. *)
Definition mul32 (lhs : uint128_fallback) (rhs : Z) : outcome uint128_fallback :=
  if high lhs =? 0 then
    let hi := u64 (Z.shiftr (low lhs) 32 * rhs) in
    let lo := u64 (Z.land (low lhs) 0xffffffff * rhs) in
    let new_lo := u64 (u64 (Z.shiftl hi 32) + lo) in
    Ok (mk128 (u64 (Z.shiftr hi 32 + (if new_lo <? lo then 1 else 0))) new_lo)
  else Undef.

(** [operator-] with a 64-bit number. *)
Definition sub64 (lhs : uint128_fallback) (rhs : Z) : uint128_fallback :=
  mk128 (u64 (high lhs - (if low lhs <? rhs then 1 else 0))) (u64 (low lhs - rhs)).

(** Shifts of a 64-bit number by 64 or more are undefined. *)
Definition shl64 (x n : Z) : outcome Z := if (0 <=? n) && (n <? 64) then Ok (u64 (Z.shiftl x n)) else Undef.
Definition shr64 (x n : Z) : outcome Z := if (0 <=? n) && (n <? 64) then Ok (Z.shiftr x n) else Undef.

(** [operator>>] and [operator<<]; every call takes 64 off the shift. *)
Fixpoint shr128 (fuel : nat) (x : uint128_fallback) (shift : Z) : outcome uint128_fallback :=
  match fuel with
  | O => Undef
  | S fuel =>
      if shift =? 64 then Ok (mk128 0 (high x))
      else if 64 <? shift then shr128 fuel (mk128 0 (high x)) (shift - 64)
      else
        match shr64 (high x) shift, shl64 (high x) (64 - shift), shr64 (low x) shift with
        | Ok h, Ok c, Ok l => Ok (mk128 h (Z.lor c l))
        | _, _, _ => Undef
        end
  end.
Fixpoint shl128 (fuel : nat) (x : uint128_fallback) (shift : Z) : outcome uint128_fallback :=
  match fuel with
  | O => Undef
  | S fuel =>
      if shift =? 64 then Ok (mk128 (low x) 0)
      else if 64 <? shift then shl128 fuel (mk128 (low x) 0) (shift - 64)
      else
        match shl64 (high x) shift, shr64 (low x) (64 - shift), shl64 (low x) shift with
        | Ok h, Ok c, Ok l => Ok (mk128 (Z.lor h c) l)
        | _, _, _ => Undef
        end
  end.

(** ** Products *)

(** [umul128] where there is no 128-bit type. *)
Definition umul128 (x y : Z) : uint128_fallback :=
  let mask := 0xffffffff in
  let a := Z.shiftr x 32 in
  let b := Z.land x mask in
  let c := Z.shiftr y 32 in
  let d := Z.land y mask in
  let ac := u64 (a * c) in
  let bc := u64 (b * c) in
  let ad := u64 (a * d) in
  let bd := u64 (b * d) in
  let intermediate := u64 (Z.shiftr bd 32 + Z.land ad mask + Z.land bc mask) in
  mk128 (u64 (ac + Z.shiftr intermediate 32 + Z.shiftr ad 32 + Z.shiftr bc 32)) (u64 (u64 (Z.shiftl intermediate 32) + Z.land bd mask)).

Definition umul128_upper64 (x y : Z) : Z := high (umul128 x y).
Definition umul192_upper128 (x : Z) (y : uint128_fallback) : uint128_fallback :=
  add64 (umul128 x (high y)) (umul128_upper64 x (low y)).
Definition umul192_lower128 (x : Z) (y : uint128_fallback) : uint128_fallback :=
  let high_ := u64 (x * high y) in
  let high_low := umul128 x (low y) in
  mk128 (u64 (high_ + high high_low)) (low high_low).
Definition umul96_upper64 (x y : Z) : Z := umul128_upper64 (u64 (Z.shiftl x 32)) y.
Definition umul96_lower64 (x y : Z) : Z := u64 (x * y).

(** The rounded product of [fp] significands, without a 128-bit type. *)
Definition multiply_round (lhs rhs : Z) : Z :=
  let mask := 0xffffffff in
  let a := Z.shiftr lhs 32 in
  let b := Z.land lhs mask in
  let c := Z.shiftr rhs 32 in
  let d := Z.land rhs mask in
  let ac := u64 (a * c) in
  let bc := u64 (b * c) in
  let ad := u64 (a * d) in
  let bd := u64 (b * d) in
  let mid := u64 (Z.shiftr bd 32 + Z.land ad mask + Z.land bc mask + 2 ^ 31) in
  u64 (ac + Z.shiftr ad 32 + Z.shiftr bc 32 + Z.shiftr mid 32).

(** ** Logarithms *)

Definition floor_log10_pow2 (e : Z) : outcome Z := if (e <=? 2620) && (-2620 <=? e) then Ok (Z.shiftr (e * 315653) 20) else Undef.
Definition floor_log2_pow10 (e : Z) : outcome Z := if (e <=? 1233) && (-1233 <=? e) then Ok (Z.shiftr (e * 1741647) 19) else Undef.
Definition floor_log10_pow2_minus_log10_4_over_3 (e : Z) : outcome Z :=
  if (e <=? 2936) && (-2985 <=? e) then Ok (Z.shiftr (e * 631305 - 261663) 21) else Undef.

(** ** Divisions *)

Definition rotr (w n r : Z) : Z :=
  let r := Z.land r (w - 1) in
  Z.lor (Z.shiftr n r) (wrap w (Z.shiftl n (w - r))).

(** [div_small_pow10_infos]: divisor and shift. *)
Definition div_small_pow10_infos (N : Z) : Z * Z := if N =? 1 then (10, 16) else (100, 16).
Definition magic_number (N : Z) : Z := let '(divisor, shift) := div_small_pow10_infos N in u32 (Z.shiftl 1 shift) / divisor + 1.

(** Whether [n] is divisible, and the quotient. *)
Definition check_divisibility_and_divide_by_pow10 (N n : Z) : outcome (bool * Z) :=
  let '(divisor, shift) := div_small_pow10_infos N in
  if n <=? divisor * 10 then
    let n := u32 (n * magic_number N) in
    let comparison_mask := Z.shiftl 1 shift - 1 in
    Ok (Z.land n comparison_mask <? magic_number N, Z.shiftr n shift)
  else Undef.
Definition small_division_by_pow10 (N n : Z) : outcome Z :=
  let '(divisor, shift) := div_small_pow10_infos N in
  if n <=? divisor * 10 then Ok (Z.shiftr (u32 (n * magic_number N)) shift) else Undef.

(** [divide_by_10_to_kappa_plus_1] for both types. *)
Definition divide_by_100 (n : Z) : Z := u32 (Z.shiftr (u64 (n * 1374389535)) 37).
Definition divide_by_1000 (n : Z) : Z := Z.shiftr (umul128_upper64 n 2361183241434822607) 7.

(** The loop and the last step of [remove_trailing_zeros] for a width; a round divides
    by 100. *)
Fixpoint zeros_loop (fuel : nat) (w mod_inv_25 n s : Z) : outcome (Z * Z) :=
  match fuel with
  | O => Undef
  | S fuel =>
      let q := rotr w (wrap w (n * mod_inv_25)) 2 in
      if (2 ^ w - 1) / 100 <? q then Ok (n, s) else zeros_loop fuel w mod_inv_25 q (s + 2)
  end.
Definition zeros_last (w mod_inv_5 : Z) (r : outcome (Z * Z)) : outcome (Z * Z) :=
  match r with
  | Ok (n, s) =>
      let q := rotr w (wrap w (n * mod_inv_5)) 1 in
      if q <=? (2 ^ w - 1) / 10 then Ok (q, Z.lor s 1) else Ok (n, s)
  | r => r
  end.

(** The number without its trailing zeros, and how many were removed. *)
Definition remove_trailing_zeros32 (n s : Z) : outcome (Z * Z) :=
  if n =? 0 then Undef else zeros_last 32 0xcccccccd (zeros_loop 6 32 0xc28f5c29 n s).
Definition remove_trailing_zeros64 (n : Z) : outcome (Z * Z) :=
  if n =? 0 then Undef
  else
    let magic := 12379400392853802749 in
    let nm := umul128 n magic in
    if (Z.land (high nm) (Z.shiftl 1 (90 - 64) - 1) =? 0) && (low nm <? magic) then
      remove_trailing_zeros32 (u32 (Z.shiftr (high nm) (90 - 64))) 8
    else zeros_last 64 0xcccccccccccccccd (zeros_loop 11 64 0x8f5c28f5c28f5c29 n 0).

(** ** The arithmetic is exact *)

Local Notation W64 := 18446744073709551616.
Local Notation W32 := 4294967296.

Ltac bits :=
  unfold u64, u32, wrap in *; rewrite ?Z.shiftr_div_pow2, ?Z.shiftl_mul_pow2 in * by lia;
  change 4294967295 with (Z.ones 32) in *; rewrite ?Z.land_ones in * by lia;
  change (2 ^ 64) with W64 in *; change (2 ^ 32) with W32 in *; change (2 ^ 31) with 2147483648 in *.

(** The halves of a 64-bit number. *)
Lemma halves x : 0 <= x < W64 -> exists a b, 0 <= a < W32 /\ 0 <= b < W32 /\ x = a * W32 + b /\ x / W32 = a /\ x mod W32 = b.
Proof. intros Hx. exists (x / W32), (x mod W32). Z.div_mod_to_equations. lia. Qed.

(** A product of two 32-bit numbers. *)
Lemma mul_bound a b : 0 <= a < W32 -> 0 <= b < W32 -> 0 <= a * b <= (W32 - 1) * (W32 - 1).
Proof. intros. split; [lia|]. apply Z.mul_le_mono_nonneg; lia. Qed.

Lemma umul128_exact x y : 0 <= x < 2 ^ 64 -> 0 <= y < 2 ^ 64 -> ok128 (umul128 x y) /\ val128 (umul128 x y) = x * y.
Proof.
  intros Hx Hy. unfold umul128, ok128, val128. cbn [high low]. bits.
  destruct (halves x Hx) as (a & b & Ha & Hb & Ex & -> & ->). destruct (halves y Hy) as (c & d & Hc & Hd & Ey & -> & ->).
  pose proof (mul_bound a c Ha Hc). pose proof (mul_bound b c Hb Hc). pose proof (mul_bound a d Ha Hd). pose proof (mul_bound b d Hb Hd).
  assert (Exy : x * y = a * c * W64 + (a * d + b * c) * W32 + b * d) by (rewrite Ex, Ey; ring). rewrite Exy. clear Exy Ex Ey Hx Hy.
  generalize dependent (a * c). generalize dependent (b * c). generalize dependent (a * d). generalize dependent (b * d). clear. intros bd Hbd ad Had bc Hbc ac Hac.
  rewrite !(Z.mod_small ac), !(Z.mod_small bc), !(Z.mod_small ad), !(Z.mod_small bd) by lia.
  Z.div_mod_to_equations. lia.
Qed.

Lemma umul128_high x y : 0 <= x < 2 ^ 64 -> 0 <= y < 2 ^ 64 -> umul128_upper64 x y = x * y / 2 ^ 64 /\ low (umul128 x y) = x * y mod 2 ^ 64.
Proof.
  intros Hx Hy. destruct (umul128_exact x y Hx Hy) as [[Hh Hl] E]. unfold umul128_upper64, val128 in *. rewrite <- E. bits.
  Z.div_mod_to_equations. lia.
Qed.

Lemma add64_exact x n : ok128 x -> 0 <= n < 2 ^ 64 -> ok128 (add64 x n) /\ val128 (add64 x n) = (val128 x + n) mod 2 ^ 128.
Proof.
  destruct x as [h l]. unfold ok128, add64, val128. cbn [high low]. intros [Hh Hl] Hn. bits.
  change (2 ^ 128) with (W64 * W64). destruct (Z.ltb_spec ((l + n) mod W64) n); Z.div_mod_to_equations; lia.
Qed.

Lemma add128_exact x n : ok128 x -> ok128 n -> val128 x + val128 n < 2 ^ 128 ->
  exists r, add128 x n = Ok r /\ ok128 r /\ val128 r = val128 x + val128 n.
Proof.
  destruct x as [h l], n as [h' l']. unfold ok128, add128, val128. cbn [high low]. intros [Hh Hl] [Hh' Hl'] Hs. bits.
  change (2 ^ 128) with (W64 * W64) in Hs. set (c := if (l + l') mod W64 <? l then 1 else 0).
  assert (Hc : l + l' = c * W64 + (l + l') mod W64) by (subst c; destruct (Z.ltb_spec ((l + l') mod W64) l); Z.div_mod_to_equations; lia).
  assert (0 <= c <= 1) by (subst c; destruct (_ <? _); lia).
  assert (Hb : 0 <= (l + l') mod W64 < W64) by (apply Z.mod_pos_bound; lia).
  assert (Hsum : h + h' + c < W64) by lia. rewrite (Z.mod_small (h + h' + c)) by lia. rewrite (proj2 (Z.leb_le _ _)) by lia.
  eexists. split; [done|]. cbn [high low]. lia.
Qed.

Lemma sub64_exact x n : ok128 x -> 0 <= n < 2 ^ 64 -> ok128 (sub64 x n) /\ val128 (sub64 x n) = (val128 x - n) mod 2 ^ 128.
Proof.
  destruct x as [h l]. unfold ok128, sub64, val128. cbn [high low]. intros [Hh Hl] Hn. bits.
  change (2 ^ 128) with (W64 * W64). destruct (Z.ltb_spec l n); Z.div_mod_to_equations; lia.
Qed.

Lemma mul32_exact x n : ok128 x -> high x = 0 -> 0 <= n < 2 ^ 32 -> exists r, mul32 x n = Ok r /\ ok128 r /\ val128 r = val128 x * n.
Proof.
  destruct x as [h l]. unfold ok128, mul32, val128. cbn [high low]. intros [_ Hl] -> Hn. cbn [Z.eqb]. bits.
  destruct (halves l Hl) as (a & b & Ha & Hb & E & -> & ->). eexists. split; [done|]. cbn [high low].
  pose proof (mul_bound a n Ha Hn). pose proof (mul_bound b n Hb Hn). replace ((0 * W64 + l) * n) with (a * n * W32 + b * n) by (rewrite E; ring).
  generalize dependent (a * n). generalize dependent (b * n). clear. intros lo Hlo hi Hhi.
  rewrite !(Z.mod_small lo), !(Z.mod_small hi) by lia. destruct (Z.ltb_spec ((hi * W32 mod W64 + lo) mod W64) lo); Z.div_mod_to_equations; lia.
Qed.

(** ** Shifts *)
Lemma shl64_ok x n : 0 <= n < 64 -> shl64 x n = Ok (x * 2 ^ n mod 2 ^ 64).
Proof. intros Hn. unfold shl64. rewrite (proj2 (Z.leb_le _ _)), (proj2 (Z.ltb_lt _ _)) by lia. unfold u64, wrap. by rewrite Z.shiftl_mul_pow2 by lia. Qed.
Lemma shr64_ok x n : 0 <= n < 64 -> shr64 x n = Ok (x / 2 ^ n).
Proof. intros Hn. unfold shr64. rewrite (proj2 (Z.leb_le _ _)), (proj2 (Z.ltb_lt _ _)) by lia. by rewrite Z.shiftr_div_pow2 by lia. Qed.

(** Bits that do not overlap. *)
Lemma lor_parts a b k : 0 <= k -> 0 <= b < 2 ^ k -> Z.lor (a * 2 ^ k) b = a * 2 ^ k + b.
Proof. intros. rewrite <- lor_high by done. by rewrite Z.shiftl_mul_pow2. Qed.

(** The upper bits of a shifted number. *)
Lemma mul_pow_mod x n : 0 <= n <= 64 -> x * 2 ^ (64 - n) mod 2 ^ 64 = (x mod 2 ^ n) * 2 ^ (64 - n).
Proof.
  intros Hn. assert (E : 2 ^ 64 = 2 ^ n * 2 ^ (64 - n)) by (rewrite <- Z.pow_add_r by lia; f_equal; lia).
  rewrite E. apply Zmult_mod_distr_r.
Qed.

Lemma mul_pow_mod' x n : 0 <= n <= 64 -> x * 2 ^ n mod 2 ^ 64 = (x mod 2 ^ (64 - n)) * 2 ^ n.
Proof. intros Hn. pose proof (mul_pow_mod x (64 - n) ltac:(lia)) as E. by replace (64 - (64 - n)) with n in E by lia. Qed.

Lemma pow_split n : 0 <= n <= 64 -> 2 ^ 64 = 2 ^ n * 2 ^ (64 - n).
Proof. intros. rewrite <- Z.pow_add_r by lia. f_equal. lia. Qed.

(** Both shifts are exact for shifts of at least one bit; shifting by nothing
    would shift a half by 64. *)
Lemma shr128_small fuel x n : ok128 x -> 0 < n < 64 ->
  exists r, shr128 (S fuel) x n = Ok r /\ ok128 r /\ val128 r = val128 x / 2 ^ n.
Proof.
  destruct x as [h l]. intros [Hh Hl] Hn. cbn [high low shr128] in *. rewrite (proj2 (Z.eqb_neq _ _)), (proj2 (Z.ltb_ge _ _)) by lia.
  rewrite !shr64_ok, shl64_ok, mul_pow_mod by lia. pose proof (pow_split n ltac:(lia)) as E.
  assert (0 < 2 ^ n) by (apply Z.pow_pos_nonneg; lia). assert (0 < 2 ^ (64 - n)) by (apply Z.pow_pos_nonneg; lia).
  assert (0 <= l / 2 ^ n < 2 ^ (64 - n)) by (split; [apply Z.div_pos; lia|apply Z.div_lt_upper_bound; lia]).
  rewrite lor_parts by lia. eexists. split; [done|]. unfold ok128, val128. cbn [high low].
  pose proof (Z.mod_pos_bound h (2 ^ n) ltac:(lia)). assert (0 <= h / 2 ^ n <= h) by (split; [apply Z.div_pos; lia|apply Z.div_le_upper_bound; nia]).
  split; [split; [lia|]; split; [nia|rewrite E; nia]|].
  rewrite E. apply Z.div_unique with (l mod 2 ^ n); [left; apply Z.mod_pos_bound; lia|].
  pose proof (Z.div_mod h (2 ^ n) ltac:(lia)). pose proof (Z.div_mod l (2 ^ n) ltac:(lia)). nia.
Qed.

Lemma shl128_small fuel x n : ok128 x -> 0 < n < 64 ->
  exists r, shl128 (S fuel) x n = Ok r /\ ok128 r /\ val128 r = val128 x * 2 ^ n mod 2 ^ 128.
Proof.
  destruct x as [h l]. intros [Hh Hl] Hn. cbn [high low shl128] in *. rewrite (proj2 (Z.eqb_neq _ _)), (proj2 (Z.ltb_ge _ _)) by lia.
  rewrite !shl64_ok, shr64_ok, !mul_pow_mod' by lia. pose proof (pow_split n ltac:(lia)) as E.
  assert (0 < 2 ^ n) by (apply Z.pow_pos_nonneg; lia). assert (0 < 2 ^ (64 - n)) by (apply Z.pow_pos_nonneg; lia).
  assert (0 <= l / 2 ^ (64 - n) < 2 ^ n) by (split; [apply Z.div_pos; lia|apply Z.div_lt_upper_bound; lia]).
  rewrite lor_parts by lia. eexists. split; [done|]. unfold ok128, val128. cbn [high low].
  pose proof (Z.mod_pos_bound h (2 ^ (64 - n)) ltac:(lia)). pose proof (Z.mod_pos_bound l (2 ^ (64 - n)) ltac:(lia)).
  split; [split; (split; [nia|rewrite E; nia])|].
  assert (h mod 2 ^ (64 - n) * 2 ^ n + l / 2 ^ (64 - n) <= 2 ^ 64 - 1) by (rewrite E; nia).
  assert (0 <= l mod 2 ^ (64 - n) * 2 ^ n < 2 ^ 64) by (rewrite E; nia). change (2 ^ 128) with (2 ^ 64 * 2 ^ 64).
  apply Z.mod_unique with (h / 2 ^ (64 - n)); [left; split; nia|].
  pose proof (Z.div_mod h (2 ^ (64 - n)) ltac:(lia)) as Eh. pose proof (Z.div_mod l (2 ^ (64 - n)) ltac:(lia)) as El.
  rewrite Eh at 1. rewrite El at 1. rewrite E. ring.
Qed.

Lemma shr128_exact x n : ok128 x -> 0 < n < 128 -> exists r, shr128 2 x n = Ok r /\ ok128 r /\ val128 r = val128 x / 2 ^ n.
Proof.
  intros Hx Hn. destruct (Z.lt_ge_cases n 64); [apply shr128_small; [done|lia]|]. pose proof Hx as [Hh Hl].
  assert (Ev : val128 x / 2 ^ 64 = high x) by (unfold val128; bits; Z.div_mod_to_equations; lia).
  destruct (Z.eqb_spec n 64) as [->|Hne].
  - eexists. split; [reflexivity|]. rewrite Ev. unfold ok128, val128. cbn [high low]. lia.
  - cbn [shr128]. rewrite (proj2 (Z.eqb_neq n 64)), (proj2 (Z.ltb_lt 64 n)) by lia.
    destruct (shr128_small 0 (mk128 0 (high x)) (n - 64)) as (r & E & Hr & Hv); [done|lia|]. exists r. split; [exact E|]. split; [done|].
    rewrite Hv. replace n with (64 + (n - 64)) at 2 by lia. rewrite Z.pow_add_r, <- Z.div_div by (try apply Z.pow_nonzero; lia). by rewrite Ev.
Qed.

Lemma shl128_exact x n : ok128 x -> 0 < n < 128 -> exists r, shl128 2 x n = Ok r /\ ok128 r /\ val128 r = val128 x * 2 ^ n mod 2 ^ 128.
Proof.
  intros Hx Hn. destruct (Z.lt_ge_cases n 64); [apply shl128_small; [done|lia]|]. pose proof Hx as [Hh Hl].
  assert (Ev : val128 (mk128 (low x) 0) = val128 x * 2 ^ 64 mod 2 ^ 128).
  { unfold val128. cbn [high low]. bits. change (2 ^ 128) with (W64 * W64). rewrite Z.add_0_r, Zmult_mod_distr_r. f_equal. Z.div_mod_to_equations. lia. }
  destruct (Z.eqb_spec n 64) as [->|Hne].
  - eexists. split; [reflexivity|]. rewrite Ev. unfold ok128. cbn [high low]. split; [lia|done].
  - cbn [shl128]. rewrite (proj2 (Z.eqb_neq n 64)), (proj2 (Z.ltb_lt 64 n)) by lia.
    destruct (shl128_small 0 (mk128 (low x) 0) (n - 64)) as (r & E & Hr & Hv); [done|lia|]. exists r. split; [exact E|]. split; [done|].
    rewrite Hv, Ev, Zmult_mod_idemp_l, <- Z.mul_assoc, <- Z.pow_add_r by lia. do 3 f_equal. lia.
Qed.

(** The parts of a 192-bit product. *)
Lemma umul192_upper x y : 0 <= x < 2 ^ 64 -> ok128 y ->
  ok128 (umul192_upper128 x y) /\ val128 (umul192_upper128 x y) = x * val128 y / 2 ^ 64.
Proof.
  intros Hx [Hh Hl]. destruct (umul128_exact x (high y) Hx Hh) as [Ho Ev]. destruct (umul128_high x (low y) Hx Hl) as [Eu _].
  unfold umul192_upper128. rewrite Eu. assert (Hb : 0 <= x * low y / 2 ^ 64 < 2 ^ 64) by (split; [apply Z.div_pos; nia|apply Z.div_lt_upper_bound; nia]).
  destruct (add64_exact _ _ Ho Hb) as [Ho' Ea]. split; [done|]. rewrite Ea, Ev. unfold val128.
  replace (x * (high y * 2 ^ 64 + low y)) with (x * low y + x * high y * 2 ^ 64) by ring. rewrite Z.div_add by done.
  rewrite Z.mod_small; [lia|]. assert (x * high y <= (2 ^ 64 - 1) * (2 ^ 64 - 1)) by (apply Z.mul_le_mono_nonneg; lia). change (2 ^ 128) with (2 ^ 64 * 2 ^ 64). nia.
Qed.

Lemma umul192_lower x y : 0 <= x < 2 ^ 64 -> ok128 y ->
  ok128 (umul192_lower128 x y) /\ val128 (umul192_lower128 x y) = x * val128 y mod 2 ^ 128.
Proof.
  intros Hx [Hh Hl]. destruct (umul128_exact x (low y) Hx Hl) as [[Oh Ol] Ev]. unfold umul192_lower128, ok128, val128 in *. cbn [high low].
  set (h := high (umul128 x (low y))) in *. set (l := low (umul128 x (low y))) in *. unfold u64, wrap.
  pose proof (Z.mod_pos_bound ((x * high y) mod 2 ^ 64 + h) (2 ^ 64) ltac:(lia)). split; [lia|].
  replace (x * (high y * 2 ^ 64 + low y)) with ((x * high y + h) * 2 ^ 64 + l) by (rewrite Z.mul_add_distr_l, <- Ev; ring).
  rewrite Zplus_mod_idemp_l in *. change (2 ^ 128) with (2 ^ 64 * 2 ^ 64). change (2 ^ 64) with W64 in *.
  apply Z.mod_unique with ((x * high y + h) / W64); [left; lia|]. rewrite (Z.div_mod (x * high y + h) W64) at 1 by done. ring.
Qed.

(** ** Logarithms *)

(** A property of a range of integers is checked one by one. *)
Lemma check_range (f : Z -> bool) lo n k : forallb (fun i => f (lo + i)) (seqZ 0 n) = true -> lo <= k < lo + n -> f k = true.
Proof.
  intros Hf Hk. replace k with (lo + (k - lo)) by lia. rewrite forallb_forall in Hf. apply Hf. apply list_elem_of_In, elem_of_seqZ. lia.
Qed.

(** A property [C] of the powers [a ^ k] and [b ^ g k] is checked for [k = lo, lo + 1, ...];
    the powers are kept up to date instead of being computed anew. *)
Section walk.
Context (a b : Z) (g : Z -> Z) (C : Z -> Z -> bool).

Fixpoint walk (n : nat) (k p q : Z) : bool :=
  match n with
  | O => true
  | S n => C p q && (g k <=? g (k + 1)) && walk n (k + 1) (a * p) (b ^ (g (k + 1) - g k) * q)
  end.

Lemma walk_ok n k i : 0 <= k -> 0 <= g k -> walk n k (a ^ k) (b ^ g k) = true -> k <= i < k + Z.of_nat n -> C (a ^ i) (b ^ g i) = true /\ 0 <= g i.
Proof.
  revert k. induction n as [|n IH]; intros k Hk Hg Hw Hi; [lia|]. cbn [walk] in Hw.
  apply andb_prop in Hw as [Hw Hr]. apply andb_prop in Hw as [HC Hm]. apply Z.leb_le in Hm.
  destruct (Z.eq_dec i k) as [->|Hne]; [done|]. apply (IH (k + 1)); [lia|lia| |lia].
  rewrite <- Z.pow_succ_r, <- Z.pow_add_r in Hr by lia. unfold Z.succ in Hr. by replace (g (k + 1) - g k + g k) with (g (k + 1)) in Hr by lia.
Qed.
End walk.

(** The logarithms are the exact floors on their whole ranges: [10 ^ r <= 2 ^ e < 10 ^ (r + 1)],
    for negative exponents written with the inverse powers. *)
Lemma floor_log10_pow2_exact e : 0 <= e <= 2620 ->
  (exists r, floor_log10_pow2 e = Ok r /\ 0 <= r /\ 10 ^ r <= 2 ^ e < 10 * 10 ^ r) /\
  (exists r, floor_log10_pow2 (- e) = Ok (- r) /\ 0 <= r /\ 2 ^ e <= 10 ^ r < 10 * 2 ^ e).
Proof.
  intros He. unfold floor_log10_pow2. rewrite !(proj2 (Z.leb_le _ _)) by lia. cbn [andb]. split.
  - destruct (walk_ok 2 10 (fun e => Z.shiftr (e * 315653) 20) (fun p q => (q <=? p) && (p <? 10 * q)) 2621 0 e) as [Hc Hg]; [lia|done|vm_compute; reflexivity|lia|].
    eexists. split; [done|]. split; [done|]. apply andb_prop in Hc as [H1 H2]. apply Z.leb_le in H1. apply Z.ltb_lt in H2. lia.
  - destruct (walk_ok 2 10 (fun e => - Z.shiftr (- e * 315653) 20) (fun p q => (p <=? q) && (q <? 10 * p)) 2621 0 e) as [Hc Hg]; [lia|done|vm_compute; reflexivity|lia|].
    eexists. split; [f_equal; symmetry; apply Z.opp_involutive|]. split; [done|]. apply andb_prop in Hc as [H1 H2]. apply Z.leb_le in H1. apply Z.ltb_lt in H2. lia.
Qed.

Lemma floor_log2_pow10_exact e : 0 <= e <= 1233 ->
  (exists r, floor_log2_pow10 e = Ok r /\ 0 <= r /\ 2 ^ r <= 10 ^ e < 2 * 2 ^ r) /\
  (exists r, floor_log2_pow10 (- e) = Ok (- r) /\ 0 <= r /\ 10 ^ e <= 2 ^ r < 2 * 10 ^ e).
Proof.
  intros He. unfold floor_log2_pow10. rewrite !(proj2 (Z.leb_le _ _)) by lia. cbn [andb]. split.
  - destruct (walk_ok 10 2 (fun e => Z.shiftr (e * 1741647) 19) (fun p q => (q <=? p) && (p <? 2 * q)) 1234 0 e) as [Hc Hg]; [lia|done|vm_compute; reflexivity|lia|].
    eexists. split; [done|]. split; [done|]. apply andb_prop in Hc as [H1 H2]. apply Z.leb_le in H1. apply Z.ltb_lt in H2. lia.
  - destruct (walk_ok 10 2 (fun e => - Z.shiftr (- e * 1741647) 19) (fun p q => (p <=? q) && (q <? 2 * p)) 1234 0 e) as [Hc Hg]; [lia|done|vm_compute; reflexivity|lia|].
    eexists. split; [f_equal; symmetry; apply Z.opp_involutive|]. split; [done|]. apply andb_prop in Hc as [H1 H2]. apply Z.leb_le in H1. apply Z.ltb_lt in H2. lia.
Qed.

(** [log10(2 ^ e) - log10(4 / 3)] is the logarithm of [3 / 4 * 2 ^ e]. *)
Lemma floor_log10_4_over_3_exact :
  (forall e, 1 <= e <= 2936 -> exists r, floor_log10_pow2_minus_log10_4_over_3 e = Ok r /\ 0 <= r /\ 4 * 10 ^ r <= 3 * 2 ^ e < 40 * 10 ^ r) /\
  (forall e, 0 <= e <= 2985 -> exists r, floor_log10_pow2_minus_log10_4_over_3 (- e) = Ok (- r) /\ 0 <= r /\ 4 * 2 ^ e <= 3 * 10 ^ r < 40 * 2 ^ e).
Proof.
  split; intros e He; unfold floor_log10_pow2_minus_log10_4_over_3; rewrite !(proj2 (Z.leb_le _ _)) by lia; cbn [andb].
  - destruct (walk_ok 2 10 (fun e => Z.shiftr (e * 631305 - 261663) 21) (fun p q => (4 * q <=? 3 * p) && (3 * p <? 40 * q)) 2936 1 e) as [Hc Hg]; [lia|done|vm_compute; reflexivity|lia|].
    eexists. split; [done|]. split; [done|]. apply andb_prop in Hc as [H1 H2]. apply Z.leb_le in H1. apply Z.ltb_lt in H2. lia.
  - destruct (walk_ok 2 10 (fun e => - Z.shiftr (- e * 631305 - 261663) 21) (fun p q => (4 * p <=? 3 * q) && (3 * q <? 40 * p)) 2986 0 e) as [Hc Hg]; [lia|done|vm_compute; reflexivity|lia|].
    eexists. split; [f_equal; symmetry; apply Z.opp_involutive|]. split; [done|]. apply andb_prop in Hc as [H1 H2]. apply Z.leb_le in H1. apply Z.ltb_lt in H2. lia.
Qed.

(** ** Divisions *)
Lemma check_divisibility_exact N n : N = 1 \/ N = 2 -> 0 <= n <= 10 ^ (N + 1) ->
  check_divisibility_and_divide_by_pow10 N n = Ok (n mod 10 ^ N =? 0, n / 10 ^ N) /\ small_division_by_pow10 N n = Ok (n / 10 ^ N).
Proof.
  set (f N n := bool_decide (check_divisibility_and_divide_by_pow10 N n = Ok (n mod 10 ^ N =? 0, n / 10 ^ N) /\ small_division_by_pow10 N n = Ok (n / 10 ^ N))).
  assert (Hd : forall N n, f N n = true -> check_divisibility_and_divide_by_pow10 N n = Ok (n mod 10 ^ N =? 0, n / 10 ^ N) /\ small_division_by_pow10 N n = Ok (n / 10 ^ N))
    by (intros ? ? H; by apply bool_decide_eq_true in H).
  intros [-> | ->] Hn; apply Hd.
  - apply (check_range (f 1) 0 101); [vm_compute; reflexivity|simpl in Hn; lia].
  - apply (check_range (f 2) 0 1001); [vm_compute; reflexivity|simpl in Hn; lia].
Qed.

Lemma divide_by_100_exact n : 0 <= n < 2 ^ 32 -> divide_by_100 n = n / 100.
Proof. intros Hn. unfold divide_by_100. bits. change (2 ^ 37) with 137438953472. Z.div_mod_to_equations. lia. Qed.

(** The magic number is too large by 0.152 parts of [2 ^ 71]: the division is
    exact up to [2 ^ 63]. *)
Lemma divide_by_1000_exact n : 0 <= n < 2 ^ 63 -> divide_by_1000 n = n / 1000.
Proof.
  intros Hn. unfold divide_by_1000. destruct (umul128_high n 2361183241434822607) as [-> _]; [lia|lia|]. bits.
  change (2 ^ 63) with 9223372036854775808 in Hn. change (2 ^ 7) with 128. Z.div_mod_to_equations. lia.
Qed.

Example divide_by_1000_large : divide_by_1000 18446744073709550999 = 18446744073709551 /\ 18446744073709550999 / 1000 = 18446744073709550.
Proof. vm_compute. auto. Qed.

(** ** Trailing zeros *)

Section zeros.
(** A width, an odd number [d] with its inverse, and a power of two. *)
Context (w d p inv : Z).
Context (Hp : 0 < p < w) (Hd : 1 < d) (Hinv : d * inv mod 2 ^ w = 1) (Hland : Z.land p (w - 1) = p).

Lemma rotr_parts t : 0 <= t < 2 ^ w -> rotr w t p = (t mod 2 ^ p) * 2 ^ (w - p) + t / 2 ^ p.
Proof.
  intros Ht. unfold rotr. rewrite Hland. unfold wrap. rewrite Z.shiftr_div_pow2, Z.shiftl_mul_pow2 by lia.
  assert (E : 2 ^ w = 2 ^ p * 2 ^ (w - p)) by (rewrite <- Z.pow_add_r by lia; f_equal; lia). rewrite E, Zmult_mod_distr_r, Z.lor_comm.
  apply lor_parts; [lia|]. assert (0 < 2 ^ p) by (apply Z.pow_pos_nonneg; lia).
  split; [apply Z.div_pos; lia|apply Z.div_lt_upper_bound; lia].
Qed.

(** A multiple of [d * 2 ^ p] is divided by it, and nothing else becomes so small. *)
Lemma rotr_divides n : 0 <= n < 2 ^ w ->
  let q := rotr w (wrap w (n * inv)) p in
  (q <=? (2 ^ w - 1) / (d * 2 ^ p)) = (n mod (d * 2 ^ p) =? 0) /\ (n mod (d * 2 ^ p) = 0 -> q = n / (d * 2 ^ p)).
Proof.
  intros Hn q. assert (HP : 0 < 2 ^ p) by (apply Z.pow_pos_nonneg; lia). assert (HQ : 0 < 2 ^ (w - p)) by (apply Z.pow_pos_nonneg; lia).
  assert (E : 2 ^ w = 2 ^ p * 2 ^ (w - p)) by (rewrite <- Z.pow_add_r by lia; f_equal; lia). assert (HD : 0 < d * 2 ^ p) by lia.
  set (t := wrap w (n * inv)) in *. assert (Ht : 0 <= t < 2 ^ w) by (apply wrap_range; lia). assert (Eq : q = (t mod 2 ^ p) * 2 ^ (w - p) + t / 2 ^ p) by (apply rotr_parts, Ht).
  assert (Hdiv : n mod (d * 2 ^ p) = 0 -> q = n / (d * 2 ^ p)).
  { intros Hm. apply Z.mod_divide in Hm as [k Ek]; [|lia]. rewrite Ek, Z.div_mul by lia.
    assert (t = k * 2 ^ p) as Et.
    { unfold t, wrap. rewrite Ek. replace (k * (d * 2 ^ p) * inv) with (k * 2 ^ p * (d * inv)) by ring.
      rewrite <- Zmult_mod_idemp_r, Hinv, Z.mul_1_r. apply Z.mod_small. nia. }
    rewrite Eq, Et, Z.mod_mul, Z.div_mul by lia. lia. }
  clearbody q. split; [|done]. destruct (Z.eqb_spec (n mod (d * 2 ^ p)) 0) as [Hm|Hm].
  - rewrite (Hdiv Hm). apply Z.leb_le. apply Z.div_le_mono; lia.
  - apply Z.leb_gt. apply Z.nle_gt. intros Hle. apply Hm.
    assert ((2 ^ w - 1) / (d * 2 ^ p) < 2 ^ (w - p)) by (apply Z.div_lt_upper_bound; nia).
    assert (0 <= t / 2 ^ p) by (apply Z.div_pos; lia). pose proof (Z.mod_pos_bound t (2 ^ p) HP) as Hb.
    assert (t mod 2 ^ p = 0) as Ez by nia. rewrite Ez in Eq. assert (Et : t = 2 ^ p * q) by (rewrite (Z.div_mod t (2 ^ p)) by lia; lia).
    assert (Hle' : d * 2 ^ p * q <= 2 ^ w - 1) by (etransitivity; [apply Z.mul_le_mono_nonneg_l; [lia|exact Hle]|apply Z.mul_div_le; lia]).
    assert (n = d * 2 ^ p * q) as En; [|rewrite En, Z.mul_comm; apply Z.mod_mul; lia].
    rewrite <- (Z.mod_small n (2 ^ w)), <- (Z.mod_small (d * 2 ^ p * q) (2 ^ w)) by nia.
    replace (d * 2 ^ p * q) with (d * t) by (rewrite Et; ring). unfold t, wrap. rewrite Zmult_mod_idemp_r.
    replace (d * (n * inv)) with (n * (d * inv)) by ring. by rewrite <- Zmult_mod_idemp_r, Hinv, Z.mul_1_r.
Qed.
End zeros.

Section remove.
Context (w inv5 inv25 : Z).
Context (Hw : 2 < w) (H5 : 5 * inv5 mod 2 ^ w = 1) (H25 : 25 * inv25 mod 2 ^ w = 1) (L1 : Z.land 1 (w - 1) = 1) (L2 : Z.land 2 (w - 1) = 2).

Lemma zeros_loop_ok fuel n s : 0 < n < 2 ^ w -> n < 100 ^ Z.of_nat fuel ->
  exists n' j, zeros_loop fuel w inv25 n s = Ok (n', s + 2 * j) /\ 0 <= j /\ n = n' * 100 ^ j /\ n' mod 100 <> 0 /\ 0 < n'.
Proof.
  revert n s. induction fuel as [|fuel IH]; intros n s Hn Hf; [simpl in Hf; lia|]. cbn [zeros_loop].
  destruct (rotr_divides w 25 2 inv25 ltac:(lia) ltac:(lia) H25 L2 n ltac:(lia)) as [Hle Hq]. change (25 * 2 ^ 2) with 100 in *.
  set (q := rotr w (wrap w (n * inv25)) 2) in *. rewrite Z.ltb_antisym, Hle. destruct (Z.eqb_spec (n mod 100) 0) as [Hm|Hm]; cbn [negb].
  - assert (En : n = 100 * q) by (rewrite (Hq Hm); rewrite (Z.div_mod n 100) at 1 by lia; lia).
    rewrite Nat2Z.inj_succ, Z.pow_succ_r in Hf by lia. destruct (IH q (s + 2)) as (n' & j & E & Hj & Ej & Hz & Hp); [lia|lia|].
    exists n', (j + 1). replace (s + 2 * (j + 1)) with (s + 2 + 2 * j) by lia. split; [done|]. split; [lia|]. split; [|done].
    rewrite Z.pow_add_r by lia. lia.
  - exists n, 0. rewrite Z.mul_0_r, Z.add_0_r, Z.mul_1_r. repeat split; lia || done.
Qed.

Lemma zeros_ok fuel n s : 0 < n < 2 ^ w -> n < 100 ^ Z.of_nat fuel -> Z.even s = true ->
  exists n' k, zeros_last w inv5 (zeros_loop fuel w inv25 n s) = Ok (n', s + k) /\ 0 <= k /\ n = n' * 10 ^ k /\ n' mod 10 <> 0.
Proof.
  intros Hn Hf He. destruct (zeros_loop_ok fuel n s Hn Hf) as (m & j & -> & Hj & Em & Hz & Hp). cbn [zeros_last].
  assert (0 < 100 ^ j) by (apply Z.pow_pos_nonneg; lia). assert (Hm : 0 <= m < 2 ^ w) by nia.
  destruct (rotr_divides w 5 1 inv5 ltac:(lia) ltac:(lia) H5 L1 m Hm) as [Hle Hq]. change (5 * 2 ^ 1) with 10 in *.
  rewrite Hle. assert (Hpow : 100 ^ j = 10 ^ (2 * j)) by (rewrite Z.pow_mul_r by lia; done).
  destruct (Z.eqb_spec (m mod 10) 0) as [H0|H0].
  - rewrite (Hq H0). exists (m / 10), (2 * j + 1). split; [|split; [lia|split]].
    + do 2 f_equal. assert (He' : Z.even (s + 2 * j) = true) by (by rewrite Z.even_add_mul_2). apply Z.even_spec in He' as [h Eh].
      replace (s + 2 * j) with (h * 2 ^ 1) by lia. rewrite lor_parts by lia. lia.
    + rewrite Z.pow_add_r, <- Hpow by lia. assert (Hm10 : m = 10 * (m / 10)) by (rewrite (Z.div_mod m 10) at 1 by lia; lia).
      rewrite Em. rewrite Hm10 at 1. ring.
    + intros Hc. apply Hz. Z.div_mod_to_equations. lia.
  - exists m, (2 * j). split; [done|]. split; [lia|]. split; [by rewrite <- Hpow|done].
Qed.
End remove.

Lemma remove_trailing_zeros32_exact n s : 0 < n < 2 ^ 32 -> Z.even s = true ->
  exists n' k, remove_trailing_zeros32 n s = Ok (n', s + k) /\ 0 <= k /\ n = n' * 10 ^ k /\ n' mod 10 <> 0.
Proof.
  intros Hn He. unfold remove_trailing_zeros32. rewrite (proj2 (Z.eqb_neq n 0)) by lia.
  apply zeros_ok; try done. change (100 ^ Z.of_nat 6) with 1000000000000. lia.
Qed.

(** Below [2 ^ 32 * 10 ^ 8] the quotient by [10 ^ 8] fits the 32-bit variant. *)
Lemma remove_trailing_zeros64_exact n : 0 < n < 2 ^ 32 * 10 ^ 8 ->
  exists n' k, remove_trailing_zeros64 n = Ok (n', k) /\ 0 <= k /\ n = n' * 10 ^ k /\ n' mod 10 <> 0.
Proof.
  intros Hn. unfold remove_trailing_zeros64. rewrite (proj2 (Z.eqb_neq n 0)) by lia. set (m := 12379400392853802749).
  destruct (umul128_exact n m) as [[Oh Ol] Ev]; [lia|subst m; lia|]. set (nm := umul128 n m) in *. unfold val128 in Ev.
  change (Z.shiftl 1 (90 - 64) - 1) with (Z.ones 26). rewrite Z.land_ones by lia. rewrite Z.shiftr_div_pow2 by lia. change (90 - 64) with 26.
  set (q := n / 100000000). set (r := n mod 100000000). assert (Hq : n = 100000000 * q + r) by (apply Z.div_mod; lia).
  assert (Hr : 0 <= r < 100000000) by (apply Z.mod_pos_bound; lia). assert (0 <= q < 4294967296) by (subst q; Z.div_mod_to_equations; lia).
  assert (Enm : high nm * 2 ^ 64 + low nm = q * 2 ^ 90 + (q * 875776 + r * m)) by (rewrite Ev, Hq; subst m; ring).
  assert (Hb : 0 <= q * 875776 + r * m < 2 ^ 90) by (subst m; change (2 ^ 90) with 1237940039285380274899124224; lia).
  assert (Hh : high nm / 2 ^ 26 = q /\ high nm mod 2 ^ 26 * 2 ^ 64 + low nm = q * 875776 + r * m).
  { change (2 ^ 90) with 1237940039285380274899124224 in *. change (2 ^ 64) with W64 in *. change (2 ^ 26) with 67108864 in *. Z.div_mod_to_equations. lia. }
  destruct Hh as [-> Hlow]. change (2 ^ 64) with W64 in *. pose proof (Z.mod_pos_bound (high nm) (2 ^ 26) ltac:(done)) as Hm26.
  assert (Hdec : (high nm mod 2 ^ 26 =? 0) && (low nm <? m) = (r =? 0)).
  { destruct (Z.eqb_spec r 0) as [->|Hr0].
    - assert (high nm mod 2 ^ 26 = 0) as -> by lia. apply andb_true_intro. split; [done|]. apply Z.ltb_lt. subst m. lia.
    - apply andb_false_iff. destruct (Z.eqb_spec (high nm mod 2 ^ 26) 0) as [Hz|]; [right|by left]. apply Z.ltb_ge. subst m. lia. }
  rewrite Hdec. destruct (Z.eqb_spec r 0) as [Hr0|Hr0].
  - unfold u32, wrap. rewrite Z.mod_small by (change (2 ^ 32) with 4294967296; lia).
    destruct (remove_trailing_zeros32_exact q 8) as (n' & k & -> & Hk & Ek & Hz); [change (2 ^ 32) with 4294967296; lia|done|].
    exists n', (8 + k). split; [done|]. split; [lia|]. split; [|done]. rewrite Z.pow_add_r, Hq, Ek by lia. change (10 ^ 8) with 100000000. lia.
  - destruct (zeros_ok 64 0xcccccccccccccccd 0x8f5c28f5c28f5c29 ltac:(done) ltac:(done) ltac:(done) ltac:(done) ltac:(done) 11 n 0) as (n' & k & E & P);
      [lia|change (100 ^ Z.of_nat 11) with 10000000000000000000000; lia|done|]. exists n', k. split; [exact E|done].
Qed.

(** The helpers of the Dragonbox printer compute what their names say
    without dividing: products of 64-bit numbers in two halves, the upper and
    lower 128 bits of 192-bit products, the quotients by 100 and 1000 and
    divisibility by small powers of ten, the floors of the binary and decimal
    logarithms of powers on their whole ranges, and the removal of all trailing
    zeros. *)
Theorem dragonbox_helpers_exact (x n : Z) (y : uint128_fallback) (e : Z) :
  0 <= x < 2 ^ 64 -> ok128 y -> 0 < n < 2 ^ 32 * 10 ^ 8 -> 0 <= e <= 1233 ->
  val128 (umul128 x (low y)) = x * low y /\
  val128 (umul192_upper128 x y) = x * val128 y / 2 ^ 64 /\ val128 (umul192_lower128 x y) = x * val128 y mod 2 ^ 128 /\
  divide_by_1000 n = n / 1000 /\
  (exists r, floor_log2_pow10 e = Ok r /\ 2 ^ r <= 10 ^ e < 2 * 2 ^ r) /\ (exists r, floor_log10_pow2 e = Ok r /\ 10 ^ r <= 2 ^ e < 10 * 10 ^ r) /\
  (exists n' k, remove_trailing_zeros64 n = Ok (n', k) /\ 0 <= k /\ n = n' * 10 ^ k /\ n' mod 10 <> 0).
Proof.
  intros Hx Hy Hn He. pose proof Hy as [_ Hl]. split; [by apply umul128_exact|]. split; [by apply umul192_upper|]. split; [by apply umul192_lower|].
  split; [apply divide_by_1000_exact; lia|]. destruct (floor_log2_pow10_exact e He) as [(r & ? & _ & ?) _]. destruct (floor_log10_pow2_exact e ltac:(lia)) as [(r' & ? & _ & ?) _].
  split; [by exists r|]. split; [by exists r'|]. by apply remove_trailing_zeros64_exact.
Qed.

Lemma dragonbox_helpers_exact_witness :
  val128 (umul128 (2 ^ 64 - 1) (2 ^ 64 - 1)) = (2 ^ 64 - 1) * (2 ^ 64 - 1) /\ remove_trailing_zeros64 1230000000000 = Ok (123, 10).
Proof.
  destruct (dragonbox_helpers_exact (2 ^ 64 - 1) 1230000000000 (mk128 0 (2 ^ 64 - 1)) 5) as (E & _ & _ & _ & _ & _ & n' & k & Ez & _).
  - lia.
  - split; cbn [high low]; lia.
  - lia.
  - lia.
  - split; [exact E|]. rewrite Ez. rewrite <- Ez. vm_compute. reflexivity.
Defined.
