(* ===== verification/FmtBigint.v ===== *)
(** * fmt: big integers (class bigint of format.h)

    A number is a list of 32-bit digits, the lowest first, with an exponent:
    [bigits_[0] + bigits_[1] * 2 ^ 32 + ...] times [2 ^ (32 * exp_)].  (A comment
    in the code says [32 ^ exp_].)  The memory buffer of the digits is a list,
    see [FmtBuffer]; a digit outside of it is undefined behaviour, as is an
    assertion that fails. *)

From S2P Require Import Prelude Machine FmtInt FmtWide.

Definition bigit_bits : Z := 32.
Definition bigit (n : Z) : Z := u32 n.

Record bigint := mkbigint { bigits_ : list Z; exp_ : Z }.

Definition bigint_new : bigint := mkbigint [] 0.
Definition num_bigits (b : bigint) : Z := zlen (bigits_ b) + exp_ b.

Definition get_bigit (i : Z) (b : bigint) : Z :=
  if (exp_ b <=? i) && (i <? num_bigits b) then default 0 (bigits_ b !! Z.to_nat (i - exp_ b)) else 0.

(** ** Assignment *)

(** The loop of [assign(UInt)]: at least one digit; [fuel] digits suffice for numbers
    of [32 * fuel] bits. *)
Fixpoint assign_loop (fuel : nat) (n : Z) : list Z :=
  match fuel with
  | O => []
  | S fuel => bigit n :: (let n := Z.shiftr n bigit_bits in if negb (n =? 0) then assign_loop fuel n else [])
  end.
Definition assign (n : Z) : bigint := mkbigint (assign_loop 4 n) 0.
Definition assign_bigint (other : bigint) : bigint := other.
(** [operator=(Int)]. *)
Definition set_to (n : Z) : outcome bigint := if 0 <? n then Ok (assign n) else Undef.

(** ** Multiplication *)

(** The loop of [multiply(uint32_t)]: the digits and the carry. *)
Fixpoint multiply32_loop (value carry : Z) (l : list Z) : list Z * Z :=
  match l with
  | [] => ([], carry)
  | b :: l =>
      let result := u64 (b * value + carry) in
      let '(l, carry) := multiply32_loop value (bigit (Z.shiftr result bigit_bits)) l in
      (bigit result :: l, carry)
  end.
Definition multiply32 (value : Z) (b : bigint) : bigint :=
  let '(l, carry) := multiply32_loop value 0 (bigits_ b) in
  mkbigint (if negb (carry =? 0) then l ++ [carry] else l) (exp_ b).

(** [multiply(UInt)] for 64 and 128 bits: [w] is the width of [UInt]. *)
Section multiply_wide.
Context (w : Z).
Fixpoint multiply_loop (lower upper carry : Z) (l : list Z) : list Z * Z :=
  match l with
  | [] => ([], carry)
  | b :: l =>
      let result := wrap w (lower * b + bigit carry) in
      let carry := wrap w (Z.shiftl (upper * b) (w / 2 - bigit_bits) + Z.shiftr result bigit_bits + Z.shiftr carry bigit_bits) in
      let '(l, carry) := multiply_loop lower upper carry l in
      (bigit result :: l, carry)
  end.
(** The last loop: the digits of the carry. *)
Fixpoint carry_bigits (fuel : nat) (carry : Z) : list Z :=
  match fuel with
  | O => []
  | S fuel => if negb (carry =? 0) then bigit carry :: carry_bigits fuel (Z.shiftr carry bigit_bits) else []
  end.
Definition multiply_wide (value : Z) (b : bigint) : bigint :=
  let lower := wrap (w / 2) value in
  let upper := Z.shiftr value (w / 2) in
  let '(l, carry) := multiply_loop lower upper 0 (bigits_ b) in
  mkbigint (l ++ carry_bigits 4 carry) (exp_ b).
End multiply_wide.

(** [operator*=] for an [int] and for a 128-bit number. *)
Definition times_int (value : Z) (b : bigint) : outcome bigint := if 0 <? value then Ok (multiply32 value b) else Undef.
Definition times128 (value : Z) (b : bigint) : outcome bigint := if 0 <? value then Ok (multiply_wide 128 value b) else Undef.

(** ** Shifting *)

Fixpoint shift_loop (shift carry : Z) (l : list Z) : list Z * Z :=
  match l with
  | [] => ([], carry)
  | b :: l =>
      let c := Z.shiftr b (bigit_bits - shift) in
      let '(l, carry') := shift_loop shift c l in
      (u32 (u32 (Z.shiftl b shift) + carry) :: l, carry')
  end.
Definition shift_left (shift : Z) (b : bigint) : outcome bigint :=
  if 0 <=? shift then
    let exp := exp_ b + shift / bigit_bits in
    let shift := shift mod bigit_bits in
    if shift =? 0 then Ok (mkbigint (bigits_ b) exp)
    else
      let '(l, carry) := shift_loop shift 0 (bigits_ b) in
      Ok (mkbigint (if negb (carry =? 0) then l ++ [carry] else l) exp)
  else Undef.

(** ** Comparison *)

(** The loop of [compare], from the highest digits down: the lists are the digits
    that are left, the highest first.  The lower digits of the longer number
    decide when the common ones are equal. *)
Fixpoint compare_loop (l1 l2 : list Z) : Z :=
  match l1, l2 with
  | b1 :: l1, b2 :: l2 => if negb (b1 =? b2) then (if b2 <? b1 then 1 else -1) else compare_loop l1 l2
  | [], [] => 0
  | _ :: _, [] => 1
  | [], _ :: _ => -1
  end.
Definition compare (b1 b2 : bigint) : Z :=
  if negb (num_bigits b1 =? num_bigits b2) then (if num_bigits b2 <? num_bigits b1 then 1 else -1)
  else compare_loop (rev (bigits_ b1)) (rev (bigits_ b2)).

(** [add_compare]: the loop for [i = lo + n - 1, ..., lo]. *)
Fixpoint add_compare_loop (lhs1 lhs2 rhs : bigint) (n : nat) (lo borrow : Z) : Z :=
  match n with
  | O => if negb (borrow =? 0) then -1 else 0
  | S k =>
      let i := lo + Z.of_nat k in
      let sum := get_bigit i lhs1 + get_bigit i lhs2 in
      let rhs_bigit := get_bigit i rhs in
      if rhs_bigit + borrow <? sum then 1
      else
        let borrow := rhs_bigit + borrow - sum in
        if 1 <? borrow then -1 else add_compare_loop lhs1 lhs2 rhs k lo (Z.shiftl borrow bigit_bits)
  end.
Definition add_compare (lhs1 lhs2 rhs : bigint) : Z :=
  let max_lhs_bigits := Z.max (num_bigits lhs1) (num_bigits lhs2) in
  let num_rhs_bigits := num_bigits rhs in
  if max_lhs_bigits + 1 <? num_rhs_bigits then -1
  else if num_rhs_bigits <? max_lhs_bigits then 1
  else
    let min_exp := Z.min (Z.min (exp_ lhs1) (exp_ lhs2)) (exp_ rhs) in
    add_compare_loop lhs1 lhs2 rhs (Z.to_nat (num_rhs_bigits - min_exp)) min_exp 0.

(** ** Subtraction and division *)

(** [remove_leading_zeros]: one digit stays. *)
Fixpoint strip (l : list Z) : list Z :=
  match l with
  | [] => []
  | b :: l' => match l' with [] => l | _ => if b =? 0 then strip l' else l end
  end.
Definition remove_leading_zeros (l : list Z) : list Z := rev (strip (rev l)).

(** [subtract_bigits]: the new digit and the borrow. *)
Definition subtract_bigits (b other borrow : Z) : Z * Z :=
  let result := u64 (b - other - borrow) in
  (bigit result, bigit (Z.shiftr result (bigit_bits * 2 - 1))).

(** The loop of [subtract_aligned] from the position where [other] starts, with
    the step for the last borrow, which must find a digit. *)
Fixpoint subtract_loop (l other : list Z) (borrow : Z) : outcome (list Z) :=
  match other, l with
  | o :: other, b :: l =>
      let '(r, borrow) := subtract_bigits b o borrow in
      outcome_map (cons r) (subtract_loop l other borrow)
  | _ :: _, [] => Undef
  | [], b :: l =>
      if negb (borrow =? 0) then
        let '(r, borrow) := subtract_bigits b 0 borrow in
        if borrow =? 0 then Ok (r :: l) else Undef
      else Ok (b :: l)
  | [], [] => if borrow =? 0 then Ok [] else Undef
  end.
Definition subtract_aligned (other b : bigint) : outcome bigint :=
  if (exp_ b <=? exp_ other) && (0 <=? compare b other) then
    let n := Z.to_nat (exp_ other - exp_ b) in
    outcome_map (fun l => mkbigint (remove_leading_zeros (take n (bigits_ b) ++ l)) (exp_ b))
      (subtract_loop (drop n (bigits_ b)) (bigits_ other) 0)
  else Undef.

(** [align]: zeros at the bottom. *)
Definition align (other b : bigint) : bigint :=
  let exp_difference := exp_ b - exp_ other in
  if exp_difference <=? 0 then b
  else mkbigint (replicate (Z.to_nat exp_difference) 0 ++ bigits_ b) (exp_ b - exp_difference).

(** The loop of [divmod_assign]: every round takes the divisor off once. *)
Fixpoint divmod_loop (fuel : nat) (divisor b : bigint) (quotient : Z) : outcome (Z * bigint) :=
  match fuel with
  | O => Undef
  | S fuel =>
      match subtract_aligned divisor b with
      | Ok b => if 0 <=? compare b divisor then divmod_loop fuel divisor b (quotient + 1) else Ok (quotient + 1, b)
      | Throw e => Throw e
      | Undef => Undef
      end
  end.
Definition divmod_assign (fuel : nat) (divisor b : bigint) : outcome (Z * bigint) :=
  if compare b divisor <? 0 then Ok (0, b)
  else if default 0 (last (bigits_ divisor)) =? 0 then Undef
  else divmod_loop fuel divisor (align divisor b) 0.

(** ** Squaring and powers of ten *)

(** The sum of the products [n[i] * n[k - i]] for [i = lo, ..., lo + count - 1]. *)
Fixpoint cross_sum (n : list Z) (k lo : Z) (count : nat) (sum : Z) : Z :=
  match count with
  | O => sum
  | S count => cross_sum n k (lo + 1) count (wrap 128 (sum + default 0 (n !! Z.to_nat lo) * default 0 (n !! Z.to_nat (k - lo))))
  end.
(** The digits from [k] on: in the lower half [i] runs from 0 to [k], in the upper half
    from [k - num_bigits + 1] to [num_bigits - 1]. *)
Fixpoint square_loop (n : list Z) (count : nat) (k sum : Z) : list Z :=
  match count with
  | O => []
  | S count =>
      let num := zlen n in
      let lo := if k <? num then 0 else k - (num - 1) in
      let hi := if k <? num then k else num - 1 in
      let sum := cross_sum n k lo (Z.to_nat (hi - lo + 1)) sum in
      bigit sum :: square_loop n count (k + 1) (Z.shiftr sum bigit_bits)
  end.
Definition square (b : bigint) : bigint :=
  mkbigint (remove_leading_zeros (square_loop (bigits_ b) (2 * length (bigits_ b)) 0 0)) (exp_ b * 2).

(** The loop of [assign_pow10] over the lower bits of the exponent, the highest first. *)
Fixpoint pow5_loop (bits : nat) (exp : Z) (b : bigint) : outcome bigint :=
  match bits with
  | O => Ok b
  | S bits =>
      let b := square b in
      if Z.testbit exp (Z.of_nat bits) then
        match times_int 5 b with Ok b => pow5_loop bits exp b | o => o end
      else pow5_loop bits exp b
  end.
Definition assign_pow10 (exp : Z) : outcome bigint :=
  if 0 <=? exp then
    if exp =? 0 then set_to 1
    else
      match set_to 5 with
      | Ok b => match pow5_loop (Z.to_nat (Z.log2 exp)) exp b with Ok b => shift_left exp b | o => o end
      | o => o
      end
  else Undef.

(** ** Values *)

Local Notation R := 4294967296.

Fixpoint bval (l : list Z) : Z := match l with [] => 0 | b :: l => b + R * bval l end.
(** The number. *)
Definition value (b : bigint) : Z := bval (bigits_ b) * R ^ exp_ b.

Definition bigits_ok : list Z -> Prop := Forall (fun b => 0 <= b < R).
(** The highest digit is not zero. *)
Definition normal (l : list Z) : Prop := bigits_ok l /\ exists k b, l = k ++ [b] /\ b <> 0.
Definition wf (b : bigint) : Prop := normal (bigits_ b) /\ 0 <= exp_ b.

Lemma bigits_ok_app l k : bigits_ok (l ++ k) <-> bigits_ok l /\ bigits_ok k.
Proof. apply Forall_app. Qed.

Lemma bval_app l k : bval (l ++ k) = bval l + R ^ zlen l * bval k.
Proof.
  induction l as [|b l IH]; cbn [bval app]; [rewrite zlen_nil; lia|]. rewrite IH, zlen_cons, Z.pow_add_r by (pose proof (zlen_nonneg l); lia). lia.
Qed.

Lemma R_pow_pos n : 0 <= n -> 0 < R ^ n.
Proof. intros. by apply Z.pow_pos_nonneg. Qed.
Lemma R_pow_le a b : 0 <= a <= b -> R ^ a <= R ^ b.
Proof. intros. apply Z.pow_le_mono_r; lia. Qed.

Lemma bval_bound l : bigits_ok l -> 0 <= bval l < R ^ zlen l.
Proof.
  induction 1 as [|b l Hb _ IH]; cbn [bval]; [rewrite zlen_nil; simpl; lia|].
  rewrite zlen_cons, Z.pow_add_r by (pose proof (zlen_nonneg l); lia). lia.
Qed.

Lemma normal_bound l : normal l -> R ^ (zlen l - 1) <= bval l < R ^ zlen l /\ 1 <= zlen l.
Proof.
  intros [Ho (k & b & -> & Hb)]. pose proof (bval_bound _ Ho). apply bigits_ok_app in Ho as [Hk Hs]. inversion Hs as [|? ? Hb' _]; subst.
  pose proof (bval_bound _ Hk). rewrite bval_app, zlen_app in *. change (zlen [b]) with 1 in *. cbn [bval] in *. pose proof (zlen_nonneg k).
  replace (zlen k + 1 - 1) with (zlen k) by lia. pose proof (R_pow_pos (zlen k)). nia.
Qed.

Lemma normal_of_bound l : bigits_ok l -> 1 <= zlen l -> R ^ (zlen l - 1) <= bval l -> normal l.
Proof.
  intros Ho Hl Hv. split; [done|]. destruct l as [|b l] using rev_ind; [rewrite zlen_nil in Hl; lia|]. exists l, b. split; [done|]. intros ->.
  apply bigits_ok_app in Ho as [Hk _]. pose proof (bval_bound _ Hk). rewrite bval_app, zlen_app in Hv. change (zlen [0]) with 1 in Hv. cbn [bval] in Hv.
  replace (zlen l + 1 - 1) with (zlen l) in Hv by lia. lia.
Qed.

Lemma normal_pos l : normal l -> 0 < bval l.
Proof. intros H. destruct (normal_bound _ H). pose proof (R_pow_pos (zlen l - 1)). lia. Qed.

Lemma value_pos b : wf b -> 0 < value b.
Proof. intros [Hn He]. unfold value. pose proof (normal_pos _ Hn). pose proof (R_pow_pos (exp_ b) He). nia. Qed.

(** The value by the number of digits. *)
Lemma value_bound b : bigits_ok (bigits_ b) -> 0 <= exp_ b -> 0 <= value b < R ^ num_bigits b.
Proof.
  intros Ho He. unfold value, num_bigits. pose proof (bval_bound _ Ho). pose proof (R_pow_pos (exp_ b) He).
  rewrite Z.pow_add_r by (pose proof (zlen_nonneg (bigits_ b)); lia). nia.
Qed.
Lemma value_bound_wf b : wf b -> R ^ (num_bigits b - 1) <= value b < R ^ num_bigits b.
Proof.
  intros [Hn He]. split; [|by apply value_bound; [apply Hn|]]. unfold value, num_bigits. destruct (normal_bound _ Hn) as [? ?].
  replace (zlen (bigits_ b) + exp_ b - 1) with ((zlen (bigits_ b) - 1) + exp_ b) by lia. pose proof (R_pow_pos (exp_ b) He).
  rewrite Z.pow_add_r by lia. nia.
Qed.

(** ** Assignment *)
Lemma assign_loop_ok fuel n : 0 < n < R ^ Z.of_nat fuel -> normal (assign_loop fuel n) /\ bval (assign_loop fuel n) = n.
Proof.
  revert n. induction fuel as [|fuel IH]; intros n Hn; [simpl in Hn; lia|]. cbn [assign_loop]. unfold bigit, u32, wrap, bigit_bits.
  rewrite Z.shiftr_div_pow2 by lia. change (2 ^ 32) with R. rewrite Nat2Z.inj_succ, Z.pow_succ_r in Hn by lia.
  pose proof (Z.mod_pos_bound n R ltac:(lia)). pose proof (Z.div_mod n R ltac:(lia)). destruct (Z.eqb_spec (n / R) 0) as [Hz|Hz]; cbn [negb].
  - split; [split; [by apply Forall_singleton|exists [], (n mod R); split; [done|lia]]|]. cbn [bval]. lia.
  - destruct (IH (n / R)) as [[Ho (k & b & E & Hb)] Hv]; [split; [assert (0 <= n / R) by (apply Z.div_pos; lia); lia|apply Z.div_lt_upper_bound; lia]|].
    split; [split; [by constructor|exists (n mod R :: k), b; by rewrite E]|]. cbn [bval]. rewrite Hv. lia.
Qed.

Lemma assign_ok n : 0 < n < 2 ^ 128 -> wf (assign n) /\ value (assign n) = n.
Proof.
  intros Hn. destruct (assign_loop_ok 4 n) as [H1 H2]; [done|]. split; [by split|]. unfold value, assign. cbn [bigits_ exp_]. rewrite H2. apply Z.mul_1_r.
Qed.

(** ** Multiplication *)
Lemma multiply32_loop_ok v c l : 0 <= v < R -> 0 <= c < R -> bigits_ok l ->
  let '(l', c') := multiply32_loop v c l in
  bigits_ok l' /\ zlen l' = zlen l /\ 0 <= c' < R /\ bval l' + R ^ zlen l * c' = bval l * v + c.
Proof.
  intros Hv Hc Ho. revert c Hc. induction Ho as [|b l Hb _ IH]; intros c Hc; cbn [multiply32_loop].
  { rewrite zlen_nil. cbn [bval]. split; [constructor|]. split; [done|]. lia. }
  assert (Hbv : 0 <= b * v + c <= (R - 1) * (R - 1) + (R - 1)) by nia.
  assert (Er : u64 (b * v + c) = b * v + c) by (unfold u64; apply wrap_small; lia). rewrite Er. unfold bigit, u32, wrap, bigit_bits.
  rewrite Z.shiftr_div_pow2 by lia. change (2 ^ 32) with R. rewrite (Z.mod_small ((b * v + c) / R)) by (Z.div_mod_to_equations; lia).
  specialize (IH ((b * v + c) / R) ltac:(Z.div_mod_to_equations; lia)). destruct (multiply32_loop v _ l) as [l' c']. destruct IH as (Ho' & Hz & Hc' & Ev).
  split; [constructor; [apply Z.mod_pos_bound; lia|done]|]. rewrite !zlen_cons, Hz. split; [done|]. split; [done|]. cbn [bval].
  rewrite Z.pow_add_r by (pose proof (zlen_nonneg l); lia). pose proof (Z.div_mod (b * v + c) R ltac:(lia)). lia.
Qed.

(** A carry at the top. *)
Lemma normal_carry l c : bigits_ok l -> 0 <= c < R -> 1 <= zlen l -> R ^ (zlen l - 1) <= bval l + R ^ zlen l * c ->
  normal (if negb (c =? 0) then l ++ [c] else l) /\ bval (if negb (c =? 0) then l ++ [c] else l) = bval l + R ^ zlen l * c.
Proof.
  intros Ho Hc Hl Hv. destruct (Z.eqb_spec c 0) as [->|Hc0]; cbn [negb].
  - split; [|lia]. apply normal_of_bound; [done|done|lia].
  - split; [|rewrite bval_app; cbn [bval]; lia]. split; [apply bigits_ok_app; split; [done|by apply Forall_singleton]|]. by exists l, c.
Qed.

Lemma multiply32_ok v b : 0 < v < R -> wf b -> wf (multiply32 v b) /\ value (multiply32 v b) = value b * v /\ exp_ (multiply32 v b) = exp_ b.
Proof.
  intros Hv [Hn He]. destruct (normal_bound _ Hn) as [Hb Hl]. unfold multiply32. pose proof (multiply32_loop_ok v 0 (bigits_ b) ltac:(lia) ltac:(lia) (proj1 Hn)) as Hm.
  destruct (multiply32_loop v 0 (bigits_ b)) as [l c]. destruct Hm as (Ho & Hz & Hc & Ev). rewrite <- Hz in Ev.
  destruct (normal_carry l c Ho Hc) as [H1 H2]; [lia|rewrite Hz in *; nia|]. split; [by split|]. split; [|done].
  unfold value. cbn [bigits_ exp_]. rewrite H2, Ev, Hz in *. lia.
Qed.

Section wide_proofs.
Context (w : Z) (Hw : w = 64 \/ w = 128).
Local Notation Hf := (2 ^ (w / 2)).
Local Notation T := (2 ^ (w / 2 - 32)).

Lemma half_split : Hf = R * T /\ 0 < T /\ 2 ^ w = Hf * Hf /\ R <= Hf.
Proof. destruct Hw as [-> | ->]; vm_compute; split_and!; congruence. Qed.

(** The two halves of the factor give the digit and the carry of the whole product. *)
Lemma wide_step v b c : 0 <= v < 2 ^ w -> 0 <= b < R -> 0 <= c <= v ->
  let lower := wrap (w / 2) v in
  let upper := Z.shiftr v (w / 2) in
  let result := wrap w (lower * b + bigit c) in
  bigit result = (v * b + c) mod R /\
  wrap w (Z.shiftl (upper * b) (w / 2 - bigit_bits) + Z.shiftr result bigit_bits + Z.shiftr c bigit_bits) = (v * b + c) / R.
Proof.
  intros Hv Hb Hc. destruct half_split as (E1 & HT & E2 & HR). cbv zeta. unfold bigit, u32, bigit_bits.
  assert (0 <= w / 2) by (destruct Hw as [-> | ->]; done). assert (0 <= w / 2 - 32) by (destruct Hw as [-> | ->]; done).
  rewrite !Z.shiftr_div_pow2, Z.shiftl_mul_pow2 by lia. unfold wrap. change (2 ^ 32) with R.
  set (lo := v mod Hf). set (up := v / Hf). assert (Ev : v = Hf * up + lo) by (apply Z.div_mod; lia).
  assert (Hlo : 0 <= lo < Hf) by (apply Z.mod_pos_bound; lia). assert (Hup : 0 <= up) by (apply Z.div_pos; lia).
  pose proof (Z.mod_pos_bound c R ltac:(lia)) as Hcm. pose proof (Z.div_mod c R ltac:(lia)) as Ec.
  assert (Hr : 0 <= lo * b + c mod R < 2 ^ w) by (rewrite E2; nia). rewrite (Z.mod_small (lo * b + c mod R)) by done.
  assert (Es : v * b + c = (up * b * T + c / R) * R + (lo * b + c mod R)) by (rewrite Ev, E1; rewrite Ec at 1; ring).
  assert (Hq : (v * b + c) / R = up * b * T + c / R + (lo * b + c mod R) / R) by (rewrite Es, Z.div_add_l by lia; lia).
  split.
  - rewrite Es, (Z.add_comm ((up * b * T + c / R) * R)), Z.mod_add by lia. done.
  - replace (up * b * T + (lo * b + c mod R) / R + c / R) with ((v * b + c) / R) by lia. apply Z.mod_small.
    split; [apply Z.div_pos; nia|]. apply Z.le_lt_trans with v; [|lia]. apply Z.div_le_upper_bound; nia.
Qed.

Lemma multiply_loop_ok v c l : 0 <= v < 2 ^ w -> 0 <= c <= v -> bigits_ok l ->
  let '(l', c') := multiply_loop w (wrap (w / 2) v) (Z.shiftr v (w / 2)) c l in
  bigits_ok l' /\ zlen l' = zlen l /\ 0 <= c' <= v /\ bval l' + R ^ zlen l * c' = bval l * v + c.
Proof.
  intros Hv Hc Ho. revert c Hc. induction Ho as [|b l Hb _ IH]; intros c Hc; cbn [multiply_loop].
  { rewrite zlen_nil. cbn [bval]. split; [constructor|]. split; [done|]. lia. }
  destruct (wide_step v b c Hv Hb Hc) as [-> ->]. assert (Hq : 0 <= (v * b + c) / R <= v) by (split; [apply Z.div_pos; nia|apply Z.div_le_upper_bound; nia]).
  specialize (IH _ Hq). destruct (multiply_loop w _ _ _ l) as [l' c']. destruct IH as (Ho' & Hz & Hc' & Ev).
  split; [constructor; [apply Z.mod_pos_bound; lia|done]|]. rewrite !zlen_cons, Hz. split; [done|]. split; [done|]. cbn [bval].
  rewrite Z.pow_add_r by (pose proof (zlen_nonneg l); lia). pose proof (Z.div_mod (v * b + c) R ltac:(lia)). lia.
Qed.

Lemma carry_bigits_ok fuel c : 0 <= c < R ^ Z.of_nat fuel ->
  bigits_ok (carry_bigits fuel c) /\ bval (carry_bigits fuel c) = c /\ (c <> 0 -> normal (carry_bigits fuel c)) /\ (c = 0 -> carry_bigits fuel c = []).
Proof.
  revert c. induction fuel as [|fuel IH]; intros c Hc; cbn [carry_bigits]; [simpl in Hc; split_and!; [constructor|simpl; lia|lia|done]|].
  unfold bigit, u32, wrap, bigit_bits. rewrite Z.shiftr_div_pow2 by lia. change (2 ^ 32) with R. rewrite Nat2Z.inj_succ, Z.pow_succ_r in Hc by lia.
  pose proof (Z.mod_pos_bound c R ltac:(lia)). pose proof (Z.div_mod c R ltac:(lia)). assert (0 <= c / R) by (apply Z.div_pos; lia).
  destruct (Z.eqb_spec c 0) as [->|Hz]; cbn [negb]; [split_and!; [constructor|done|done|done]|].
  destruct (IH (c / R)) as (Ho & Hv & Hn & He); [split; [done|apply Z.div_lt_upper_bound; lia]|].
  split; [by constructor|]. split; [cbn [bval]; rewrite Hv; lia|]. split; [|done]. intros _. split; [by constructor|].
  destruct (Z.eq_dec (c / R) 0) as [E|E].
  - rewrite (He E). exists [], (c mod R). split; [done|]. lia.
  - destruct (Hn E) as [_ (k & b & -> & Hb)]. exists (c mod R :: k), b. done.
Qed.

Lemma multiply_wide_ok v b : 0 < v < 2 ^ w -> wf b ->
  wf (multiply_wide w v b) /\ value (multiply_wide w v b) = value b * v /\ exp_ (multiply_wide w v b) = exp_ b.
Proof.
  intros Hv [Hn He]. destruct (normal_bound _ Hn) as [Hb Hl]. unfold multiply_wide.
  pose proof (multiply_loop_ok v 0 (bigits_ b) ltac:(lia) ltac:(lia) (proj1 Hn)) as Hm.
  destruct (multiply_loop w _ _ 0 (bigits_ b)) as [l c]. destruct Hm as (Ho & Hz & Hc & Ev). rewrite <- Hz in Ev.
  assert (2 ^ w <= R ^ Z.of_nat 4) by (destruct Hw as [-> | ->]; vm_compute; congruence).
  destruct (carry_bigits_ok 4 c) as (Hco & Hcv & Hcn & Hce); [lia|]. assert (Eb : bval (l ++ carry_bigits 4 c) = bval (bigits_ b) * v) by (rewrite bval_app, Hcv; lia).
  split; [|split; [unfold value; cbn [bigits_ exp_]; rewrite Eb; lia|done]]. split; [|done]. cbn [bigits_].
  destruct (Z.eq_dec c 0) as [E|E].
  - rewrite (Hce E), app_nil_r in *. apply normal_of_bound; [done|lia|]. rewrite Eb, Hz. nia.
  - destruct (Hcn E) as [_ (k & x & Ek & Hx)]. split; [apply bigits_ok_app; auto|]. exists (l ++ k), x. by rewrite Ek, app_assoc.
Qed.
End wide_proofs.

(** ** Shifting *)
Lemma shift_loop_ok s c l : 0 < s < 32 -> 0 <= c < 2 ^ s -> bigits_ok l ->
  let '(l', c') := shift_loop s c l in
  bigits_ok l' /\ zlen l' = zlen l /\ 0 <= c' < 2 ^ s /\ bval l' + R ^ zlen l * c' = bval l * 2 ^ s + c.
Proof.
  intros Hs Hc Ho. assert (ER : R = 2 ^ s * 2 ^ (32 - s)) by (rewrite <- Z.pow_add_r by lia; change R with (2 ^ 32); f_equal; lia).
  assert (0 < 2 ^ s) by (apply Z.pow_pos_nonneg; lia). assert (0 < 2 ^ (32 - s)) by (apply Z.pow_pos_nonneg; lia).
  revert c Hc. induction Ho as [|b l Hb _ IH]; intros c Hc; cbn [shift_loop].
  { rewrite zlen_nil. cbn [bval]. split; [constructor|]. split; [done|]. lia. }
  unfold u32, wrap, bigit_bits. rewrite Z.shiftr_div_pow2, Z.shiftl_mul_pow2 by lia. change (2 ^ 32) with R.
  set (q := b / 2 ^ (32 - s)). set (r := b mod 2 ^ (32 - s)). assert (Eb : b = 2 ^ (32 - s) * q + r) by (apply Z.div_mod; lia).
  assert (Hr : 0 <= r < 2 ^ (32 - s)) by (apply Z.mod_pos_bound; lia). assert (Hq : 0 <= q < 2 ^ s) by (split; [apply Z.div_pos; lia|apply Z.div_lt_upper_bound; lia]).
  assert (Em : (b * 2 ^ s) mod R = r * 2 ^ s) by (by rewrite ER, (Z.mul_comm (2 ^ s)), Zmult_mod_distr_r).
  rewrite Em. assert (Hsum : 0 <= r * 2 ^ s + c < R) by (rewrite ER; nia). rewrite (Z.mod_small (r * 2 ^ s + c)) by done.
  specialize (IH q Hq). destruct (shift_loop s q l) as [l' c']. destruct IH as (Ho' & Hz & Hc' & Ev).
  split; [by constructor|]. rewrite !zlen_cons, Hz. split; [done|]. split; [done|]. cbn [bval].
  rewrite Z.pow_add_r by (pose proof (zlen_nonneg l); lia). rewrite Eb at 1. change (R ^ 1) with R. nia.
Qed.

Lemma shift_left_ok s b : 0 <= s -> wf b -> exists r, shift_left s b = Ok r /\ wf r /\ value r = value b * 2 ^ s /\ exp_ r = exp_ b + s / 32.
Proof.
  intros Hs [Hn He]. destruct (normal_bound _ Hn) as [Hb Hl]. unfold shift_left, bigit_bits. rewrite (proj2 (Z.leb_le _ _)) by done.
  assert (0 <= s / 32) by (apply Z.div_pos; lia). pose proof (Z.mod_pos_bound s 32 ltac:(lia)).
  assert (Ep : R ^ (exp_ b + s / 32) * 2 ^ (s mod 32) = R ^ exp_ b * 2 ^ s).
  { rewrite Z.pow_add_r, <- Z.mul_assoc by lia. f_equal. change R with (2 ^ 32). rewrite <- Z.pow_mul_r, <- Z.pow_add_r by lia. f_equal. pose proof (Z.div_mod s 32 ltac:(lia)). lia. }
  destruct (Z.eqb_spec (s mod 32) 0) as [Hz|Hz].
  - eexists. split; [done|]. split; [split; [done|cbn [exp_]; lia]|]. split; [|done]. unfold value. cbn [bigits_ exp_]. rewrite Hz, Z.mul_1_r in Ep. rewrite Ep. lia.
  - pose proof (shift_loop_ok (s mod 32) 0 (bigits_ b) ltac:(lia) ltac:(pose proof (Z.pow_pos_nonneg 2 (s mod 32)); lia) (proj1 Hn)) as Hm.
    destruct (shift_loop (s mod 32) 0 (bigits_ b)) as [l c]. destruct Hm as (Ho & Hzl & Hc & Ev). rewrite <- Hzl in Ev.
    assert (2 ^ (s mod 32) <= R) by (change R with (2 ^ 32); apply Z.pow_le_mono_r; lia). assert (0 < 2 ^ (s mod 32)) by (apply Z.pow_pos_nonneg; lia).
    destruct (normal_carry l c Ho) as [Hn1 Hn2]; [lia|lia|rewrite Hzl in *; nia|]. eexists. split; [done|]. split; [split; [done|cbn [exp_]; lia]|]. split; [|done].
    unfold value. cbn [bigits_ exp_]. rewrite Hn2, Ev. rewrite <- Z.mul_assoc, <- Ep. lia.
Qed.

(** ** Comparison *)

(** [compare] is the sign of the difference, and for equal numbers the one with
    the lower exponent counts as the larger. *)
Definition compares (c v1 v2 e1 e2 : Z) : Prop := (v1 < v2 -> c = -1) /\ (v2 < v1 -> c = 1) /\ (v1 = v2 -> c = Z.sgn (e2 - e1)).

Lemma bval_rev_cons b l : bval (rev (b :: l)) = bval (rev l) + b * R ^ zlen l.
Proof. cbn [rev]. rewrite bval_app, zlen_rev. cbn [bval]. lia. Qed.

Lemma compare_loop_ok l1 l2 e1 e2 : bigits_ok l1 -> bigits_ok l2 -> 0 <= e1 -> 0 <= e2 -> zlen l1 + e1 = zlen l2 + e2 ->
  compares (compare_loop l1 l2) (bval (rev l1) * R ^ e1) (bval (rev l2) * R ^ e2) e1 e2.
Proof.
  intros H1 H2 He1 He2. revert l2 H2. induction H1 as [|b1 l1 Hb1 Ho1 IH]; intros l2 H2 Hl.
  - destruct H2 as [|b2 l2 Hb2 Ho2]; cbn [compare_loop].
    + rewrite !zlen_nil in Hl. assert (e1 = e2) as -> by lia. unfold compares. rewrite Z.sub_diag. simpl. lia.
    + rewrite zlen_nil, zlen_cons in Hl. pose proof (zlen_nonneg l2). assert (Hr : bigits_ok (rev (b2 :: l2))) by (apply Forall_rev; by constructor).
      pose proof (bval_bound _ Hr). pose proof (R_pow_pos e2 He2). unfold compares. cbn [rev bval] in *. rewrite Z.mul_0_l.
      split; [lia|]. split; [nia|]. intros _. symmetry. apply Z.sgn_neg. lia.
  - destruct H2 as [|b2 l2 Hb2 Ho2]; cbn [compare_loop].
    + rewrite zlen_nil, zlen_cons in Hl. pose proof (zlen_nonneg l1). assert (Hr : bigits_ok (rev (b1 :: l1))) by (apply Forall_rev; by constructor).
      pose proof (bval_bound _ Hr). pose proof (R_pow_pos e1 He1). unfold compares. cbn [rev bval] in *. rewrite Z.mul_0_l.
      split; [nia|]. split; [lia|]. intros _. symmetry. apply Z.sgn_pos. lia.
    + rewrite !zlen_cons in Hl. specialize (IH l2 Ho2 ltac:(lia)). rewrite !bval_rev_cons.
      pose proof (bval_bound (rev l1) ltac:(by apply Forall_rev)) as B1. pose proof (bval_bound (rev l2) ltac:(by apply Forall_rev)) as B2.
      rewrite zlen_rev in B1, B2. pose proof (zlen_nonneg l1). pose proof (zlen_nonneg l2). pose proof (R_pow_pos e1 He1). pose proof (R_pow_pos e2 He2).
      assert (Ep : R ^ zlen l1 * R ^ e1 = R ^ zlen l2 * R ^ e2) by (rewrite <- !Z.pow_add_r by lia; f_equal; lia).
      set (P := R ^ zlen l1 * R ^ e1) in *.
      set (x1 := bval (rev l1) * R ^ e1) in *. set (x2 := bval (rev l2) * R ^ e2) in *.
      assert (0 <= x1 < P) by (subst x1 P; nia). assert (0 <= x2 < P) by (subst x2; rewrite Ep; nia).
      replace ((bval (rev l1) + b1 * R ^ zlen l1) * R ^ e1) with (x1 + b1 * P) by (subst x1 P; ring).
      replace ((bval (rev l2) + b2 * R ^ zlen l2) * R ^ e2) with (x2 + b2 * P) by (rewrite Ep; subst x2; ring).
      destruct (Z.eqb_spec b1 b2) as [->|Hne]; cbn [negb].
      * destruct IH as (I1 & I2 & I3). unfold compares. split; [intros; apply I1; lia|]. split; [intros; apply I2; lia|]. intros; apply I3; lia.
      * unfold compares. destruct (Z.ltb_spec b2 b1).
        -- assert (b2 * P + P <= b1 * P) by nia. lia.
        -- assert (b1 * P + P <= b2 * P) by nia. lia.
Qed.

(** A number of the kind the code computes with: normal, or the single digit 0
    with an exponent up to [e]. *)
Definition canonical (e : Z) (b : bigint) : Prop := wf b \/ (bigits_ b = [0] /\ 0 <= exp_ b <= e).

Lemma canonical_ok e b : canonical e b -> bigits_ok (bigits_ b) /\ 0 <= exp_ b /\ 0 <= value b.
Proof.
  intros [[[Ho Hn] He]|[E He]].
  - split; [done|]. split; [done|]. by apply value_bound.
  - unfold value. rewrite E. split; [by apply Forall_singleton|]. simpl. lia.
Qed.

Lemma compare_ok b1 b2 : canonical (exp_ b2) b1 -> wf b2 -> compares (compare b1 b2) (value b1) (value b2) (exp_ b1) (exp_ b2).
Proof.
  intros H1 H2. pose proof (canonical_ok _ _ H1) as (O1 & E1 & V1). pose proof (value_bound_wf _ H2) as B2. unfold compare.
  destruct (Z.eqb_spec (num_bigits b1) (num_bigits b2)) as [E|E]; cbn [negb].
  - pose proof (compare_loop_ok (rev (bigits_ b1)) (rev (bigits_ b2)) (exp_ b1) (exp_ b2)) as Hc. rewrite !rev_involutive, !zlen_rev in Hc.
    apply Hc; [by apply Forall_rev|apply Forall_rev, H2|done|apply H2|done].
  - pose proof (value_bound b1 O1 E1) as B1.
    assert (Hnn : forall b, 0 <= exp_ b -> 0 <= num_bigits b) by (intros b ?; unfold num_bigits; pose proof (zlen_nonneg (bigits_ b)); lia).
    pose proof (Hnn b1 E1). pose proof (Hnn b2 (proj2 H2)). destruct (Z.ltb_spec (num_bigits b2) (num_bigits b1)).
    + destruct H1 as [H1|[Ez He]].
      * pose proof (value_bound_wf _ H1). pose proof (R_pow_le (num_bigits b2) (num_bigits b1 - 1) ltac:(lia)). unfold compares. lia.
      * exfalso. unfold num_bigits in *. rewrite Ez in *. change (zlen [0]) with 1 in *. destruct (normal_bound _ (proj1 H2)). lia.
    + pose proof (R_pow_le (num_bigits b1) (num_bigits b2 - 1) ltac:(lia)). unfold compares. lia.
Qed.

(** Whether a number is at least another one of no smaller exponent. *)
Lemma compare_ge b1 b2 : canonical (exp_ b2) b1 -> wf b2 -> exp_ b1 <= exp_ b2 -> (0 <=? compare b1 b2) = (value b2 <=? value b1).
Proof.
  intros H1 H2 He. destruct (compare_ok b1 b2 H1 H2) as (C1 & C2 & C3). destruct (Z.leb_spec (value b2) (value b1)) as [Hv|Hv].
  - apply Z.leb_le. destruct (Z.eq_dec (value b1) (value b2)) as [E|E]; [rewrite (C3 E); apply Z.sgn_nonneg; lia|rewrite C2 by lia; lia].
  - apply Z.leb_gt. rewrite C1 by lia. lia.
Qed.

(** Equal numbers with different exponents are told apart. *)
Example compare_is_not_equality : value (mkbigint [0; 1] 0) = value (mkbigint [1] 1) /\ compare (mkbigint [0; 1] 0) (mkbigint [1] 1) = 1.
Proof. split; reflexivity. Qed.

(** ** Comparison of a sum *)
Lemma bval_digit l i : bigits_ok l -> 0 <= i -> default 0 (l !! Z.to_nat i) = bval l / R ^ i mod R.
Proof.
  intros Ho. revert i. induction Ho as [|b l Hb Ho IH]; intros i Hi; [by rewrite Z.div_0_l by (pose proof (R_pow_pos i Hi); lia)|].
  cbn [bval]. destruct (Z.eq_dec i 0) as [->|Hn].
  - simpl. rewrite Z.div_1_r. Z.div_mod_to_equations. lia.
  - replace (Z.to_nat i) with (S (Z.to_nat (i - 1))) by lia. cbn [lookup list_lookup]. rewrite IH by lia. f_equal.
    replace i with (1 + (i - 1)) at 2 by lia. rewrite Z.pow_add_r by lia. change (R ^ 1) with R. pose proof (R_pow_pos (i - 1)).
    rewrite <- Z.div_div by lia. f_equal. symmetry. rewrite Z.add_comm, Z.mul_comm, Z.div_add_l, (Z.div_small b) by lia. lia.
Qed.

Lemma get_bigit_ok b i : bigits_ok (bigits_ b) -> 0 <= exp_ b -> 0 <= i -> get_bigit i b = value b / R ^ i mod R.
Proof.
  intros Ho He Hi. unfold get_bigit, value. pose proof (bval_bound _ Ho) as Hb. pose proof (zlen_nonneg (bigits_ b)).
  destruct (Z.leb_spec (exp_ b) i); cbn [andb].
  - replace (R ^ i) with (R ^ (i - exp_ b) * R ^ exp_ b) by (rewrite <- Z.pow_add_r by lia; f_equal; lia).
    pose proof (R_pow_pos (exp_ b) He). rewrite Z.div_mul_cancel_r by (try apply Z.pow_nonzero; lia). rewrite <- bval_digit by (done || lia).
    unfold num_bigits. destruct (Z.ltb_spec i (zlen (bigits_ b) + exp_ b)); [done|]. rewrite lookup_ge_None_2; [done|]. unfold zlen in *. lia.
  - replace (R ^ exp_ b) with (R ^ (exp_ b - i - 1) * R * R ^ i) by (rewrite <- Z.mul_assoc, <- Z.pow_succ_r, <- Z.pow_add_r by lia; f_equal; lia).
    pose proof (R_pow_pos i Hi). rewrite !Z.mul_assoc, Z.div_mul by lia. by rewrite Z.mod_mul.
Qed.

Lemma next_digit v i : 0 <= v -> 0 <= i -> v / R ^ i = v / R ^ (i + 1) * R + v / R ^ i mod R.
Proof.
  intros Hv Hi. rewrite Z.pow_add_r by lia. change (R ^ 1) with R. rewrite <- Z.div_div by (pose proof (R_pow_pos i Hi); lia).
  pose proof (Z.div_mod (v / R ^ i) R ltac:(lia)). lia.
Qed.

Section sum.
Context (lhs1 lhs2 rhs : bigint).
Context (O1 : bigits_ok (bigits_ lhs1)) (O2 : bigits_ok (bigits_ lhs2)) (O3 : bigits_ok (bigits_ rhs)).
Context (E1 : 0 <= exp_ lhs1) (E2 : 0 <= exp_ lhs2) (E3 : 0 <= exp_ rhs).
Local Notation v1 := (value lhs1).
Local Notation v2 := (value lhs2).
Local Notation v3 := (value rhs).

Lemma add_compare_loop_ok n lo : 0 <= lo -> v1 mod R ^ lo = 0 -> v2 mod R ^ lo = 0 -> v3 mod R ^ lo = 0 ->
  let top := lo + Z.of_nat n in
  let d := v3 / R ^ top - (v1 / R ^ top + v2 / R ^ top) in
  0 <= d <= 1 -> add_compare_loop lhs1 lhs2 rhs n lo (if (n =? 0)%nat then d else d * R) = Z.sgn (v1 + v2 - v3).
Proof.
  intros Hlo M1 M2 M3. pose proof (value_bound _ O1 E1) as B1. pose proof (value_bound _ O2 E2) as B2. pose proof (value_bound _ O3 E3) as B3.
  induction n as [|k IH]; intros top d Hd; cbn [add_compare_loop].
  - subst top d. rewrite Z.add_0_r in *. pose proof (R_pow_pos lo Hlo).
    pose proof (Z.div_mod v1 (R ^ lo) ltac:(lia)). pose proof (Z.div_mod v2 (R ^ lo) ltac:(lia)). pose proof (Z.div_mod v3 (R ^ lo) ltac:(lia)).
    simpl Nat.eqb. cbv iota. destruct (Z.eqb_spec (v3 / R ^ lo - (v1 / R ^ lo + v2 / R ^ lo)) 0) as [Ez|Ez]; cbn [negb]; symmetry.
    + apply Z.sgn_null. nia.
    + apply Z.sgn_neg. nia.
  - set (i := lo + Z.of_nat k). assert (Hi : 0 <= i) by lia. assert (Et : top = i + 1) by (subst top i; lia).
    rewrite !get_bigit_ok by done. simpl Nat.eqb. cbv iota.
    pose proof (next_digit v1 i ltac:(lia) Hi) as N1. pose proof (next_digit v2 i ltac:(lia) Hi) as N2. pose proof (next_digit v3 i ltac:(lia) Hi) as N3.
    rewrite <- Et in N1, N2, N3. pose proof (R_pow_pos i Hi) as HP.
    set (d' := v3 / R ^ i - (v1 / R ^ i + v2 / R ^ i)).
    assert (Ed : v3 / R ^ i mod R + d * R - (v1 / R ^ i mod R + v2 / R ^ i mod R) = d') by (subst d d'; lia).
    pose proof (Z.div_mod v1 (R ^ i) ltac:(lia)). pose proof (Z.div_mod v2 (R ^ i) ltac:(lia)). pose proof (Z.div_mod v3 (R ^ i) ltac:(lia)).
    pose proof (Z.mod_pos_bound v1 (R ^ i) HP). pose proof (Z.mod_pos_bound v2 (R ^ i) HP). pose proof (Z.mod_pos_bound v3 (R ^ i) HP).
    destruct (Z.ltb_spec (v3 / R ^ i mod R + d * R) (v1 / R ^ i mod R + v2 / R ^ i mod R)); [symmetry; apply Z.sgn_pos; subst d'; nia|].
    rewrite Ed. destruct (Z.ltb_spec 1 d'); [symmetry; apply Z.sgn_neg; subst d'; nia|].
    unfold bigit_bits. rewrite Z.shiftl_mul_pow2 by lia. change (2 ^ 32) with R. cbv zeta in IH. fold i in IH. fold d' in IH. specialize (IH ltac:(lia)).
    destruct k as [|k]; [|exact IH]. simpl Nat.eqb in IH. cbv iota in IH. rewrite <- IH. cbn [add_compare_loop].
    destruct (Z.eqb_spec (d' * R) 0), (Z.eqb_spec d' 0); try done; lia.
Qed.

Definition not_above (b : bigint) : Prop := wf b \/ (value b = 0 /\ num_bigits b <= num_bigits rhs).

Lemma add_compare_ok : not_above lhs1 -> not_above lhs2 -> wf rhs -> add_compare lhs1 lhs2 rhs = Z.sgn (v1 + v2 - v3).
Proof.
  intros H1 H2 H3. pose proof (value_bound _ O1 E1) as B1. pose proof (value_bound _ O2 E2) as B2. pose proof (value_bound_wf _ H3) as B3.
  assert (Hnn : forall b, 0 <= exp_ b -> 0 <= num_bigits b) by (intros b ?; unfold num_bigits; pose proof (zlen_nonneg (bigits_ b)); lia).
  pose proof (Hnn lhs1 E1). pose proof (Hnn lhs2 E2). pose proof (Hnn rhs E3).
  unfold add_compare. set (m := Z.max (num_bigits lhs1) (num_bigits lhs2)).
  pose proof (R_pow_le (num_bigits lhs1) m ltac:(lia)). pose proof (R_pow_le (num_bigits lhs2) m ltac:(lia)).
  destruct (Z.ltb_spec (m + 1) (num_bigits rhs)).
  { pose proof (R_pow_le (m + 1) (num_bigits rhs - 1) ltac:(lia)) as Hle. rewrite Z.pow_add_r in Hle by lia. symmetry. apply Z.sgn_neg.
    pose proof (R_pow_pos m ltac:(lia)). change (R ^ 1) with R in Hle. lia. }
  destruct (Z.ltb_spec (num_bigits rhs) m).
  { symmetry. apply Z.sgn_pos. assert (Hbig : forall b, not_above b -> num_bigits b = m -> R ^ num_bigits rhs <= value b).
    { intros b [Hb|[_ Hb]] Em; [|lia]. pose proof (value_bound_wf _ Hb). pose proof (R_pow_le (num_bigits rhs) (num_bigits b - 1) ltac:(lia)). lia. }
    destruct (Z.max_spec (num_bigits lhs1) (num_bigits lhs2)) as [[_ Em]|[_ Em]].
    - pose proof (Hbig lhs2 H2 ltac:(subst m; lia)). lia.
    - pose proof (Hbig lhs1 H1 ltac:(subst m; lia)). lia. }
  set (lo := Z.min (Z.min (exp_ lhs1) (exp_ lhs2)) (exp_ rhs)). assert (Hlo : 0 <= lo) by lia.
  assert (Hdiv : forall b, lo <= exp_ b -> value b mod R ^ lo = 0).
  { intros b Hb. unfold value. replace (R ^ exp_ b) with (R ^ (exp_ b - lo) * R ^ lo) by (rewrite <- Z.pow_add_r by lia; f_equal; lia).
    rewrite Z.mul_assoc. apply Z.mod_mul. pose proof (R_pow_pos lo Hlo). lia. }
  assert (lo <= num_bigits rhs) by (unfold num_bigits; pose proof (zlen_nonneg (bigits_ rhs)); lia).
  pose proof (add_compare_loop_ok (Z.to_nat (num_bigits rhs - lo)) lo Hlo (Hdiv lhs1 ltac:(lia)) (Hdiv lhs2 ltac:(lia)) (Hdiv rhs ltac:(lia))) as Hl.
  cbv zeta in Hl. rewrite Z2Nat.id in Hl by lia. replace (lo + (num_bigits rhs - lo)) with (num_bigits rhs) in Hl by lia.
  pose proof (R_pow_le m (num_bigits rhs) ltac:(lia)). rewrite !Z.div_small in Hl by lia. specialize (Hl ltac:(lia)).
  by destruct (Z.to_nat _ =? 0)%nat.
Qed.
End sum.

(** ** Subtraction *)
Lemma strip_ok l : l <> [] -> bigits_ok l ->
  bval (rev (strip l)) = bval (rev l) /\ bigits_ok (strip l) /\ ((exists b k, strip l = b :: k /\ b <> 0) \/ strip l = [0]).
Proof.
  induction l as [|b l IH]; [done|]. intros _ Ho. inversion Ho as [|? ? Hb Ho']; subst. cbn [strip]. destruct l as [|x l].
  - split; [done|]. split; [done|]. destruct (Z.eq_dec b 0) as [->|]; [by right|left; by exists b, []].
  - destruct (Z.eqb_spec b 0) as [->|Hb0].
    + destruct (IH ltac:(done) Ho') as (E & Hs & Hc). split; [|done]. rewrite E, (bval_rev_cons 0). lia.
    + split; [done|]. split; [done|]. left. by exists b, (x :: l).
Qed.

Lemma remove_leading_zeros_ok l : l <> [] -> bigits_ok l ->
  bval (remove_leading_zeros l) = bval l /\ (normal (remove_leading_zeros l) \/ remove_leading_zeros l = [0]).
Proof.
  intros Hn Ho. unfold remove_leading_zeros. destruct (strip_ok (rev l)) as (E & Hs & Hc).
  - intros E. apply Hn. by apply (f_equal (@rev Z)) in E; rewrite rev_involutive in E.
  - by apply Forall_rev.
  - rewrite rev_involutive in E. split; [done|]. destruct Hc as [(b & k & Ek & Hb)|Ez]; [left|right; by rewrite Ez].
    rewrite Ek in *. split; [by apply Forall_rev|]. exists (rev k), b. done.
Qed.

Lemma subtract_bigits_ok b o w : 0 <= b < R -> 0 <= o < R -> 0 <= w <= 1 ->
  exists r w', subtract_bigits b o w = (r, w') /\ 0 <= r < R /\ 0 <= w' <= 1 /\ r = b - o - w + R * w'.
Proof.
  intros Hb Ho Hw. unfold subtract_bigits, bigit, u64, u32, wrap, bigit_bits. rewrite Z.shiftr_div_pow2 by lia. change (2 ^ 32) with R.
  change (2 ^ (32 * 2 - 1)) with 9223372036854775808. change (2 ^ 64) with 18446744073709551616.
  eexists _, _. split; [reflexivity|]. Z.div_mod_to_equations. lia.
Qed.

Lemma subtract_loop_ok other l w : bigits_ok l -> (other = [] \/ normal other) -> 0 <= w <= 1 -> bval other + w <= bval l -> zlen l <= zlen other + 1 ->
  exists l', subtract_loop l other w = Ok l' /\ bigits_ok l' /\ zlen l' = zlen l /\ bval l' = bval l - bval other - w.
Proof.
  revert l w. induction other as [|o other IH]; intros l w Hl Hn Hw Hv Hz.
  - destruct l as [|b l]; cbn [subtract_loop bval] in *.
    + assert (w = 0) as -> by lia. exists []. split; [done|]. split; [done|]. split; [done|]. cbn [bval]. lia.
    + inversion Hl as [|? ? Hb Hl']; subst. destruct (Z.eqb_spec w 0) as [->|Hw0]; cbn [negb].
      * exists (b :: l). split; [done|]. split; [done|]. split; [done|]. cbn [bval]. lia.
      * assert (l = []) as -> by (apply zlen_0_inv; rewrite zlen_cons, zlen_nil in Hz; pose proof (zlen_nonneg l); lia). cbn [bval] in Hv.
        destruct (subtract_bigits_ok b 0 w Hb ltac:(lia) Hw) as (r & w' & -> & Hr & Hw' & Er). assert (w' = 0) as -> by lia.
        exists [r]. split; [done|]. split; [by apply Forall_singleton|]. split; [done|]. cbn [bval]. lia.
  - destruct Hn as [|Hn]; [done|]. destruct (normal_bound _ Hn) as [Hnb _]. pose proof (normal_pos _ Hn) as Hpos. destruct Hn as [Ho (k & x & E & Hx)].
    inversion Ho as [|? ? Hob Ho']; subst. destruct l as [|b l]; cbn [bval] in *; [lia|]. inversion Hl as [|? ? Hb Hl']; subst. cbn [subtract_loop].
    destruct (subtract_bigits_ok b o w Hb Hob Hw) as (r & w' & -> & Hr & Hw' & Er). rewrite !zlen_cons in Hz.
    assert (Hn' : other = [] \/ normal other).
    { destruct k as [|y k]; simpl in E; injection E as -> ->; [by left|right]. split; [done|]. by exists k, x. }
    destruct (IH l w' Hl' Hn' Hw' ltac:(lia) ltac:(lia)) as (l' & -> & Ho1 & Hz1 & Ev). exists (r :: l'). split; [done|].
    split; [by constructor|]. rewrite !zlen_cons. split; [lia|]. cbn [bval]. lia.
Qed.

Lemma num_bigits_small b d : wf d -> canonical (exp_ d) b -> value b < R * value d -> num_bigits b <= num_bigits d + 1.
Proof.
  intros Hd Hc Hv. apply Z.nlt_ge. intros Hlt. pose proof (value_bound_wf _ Hd) as Bd. destruct Hc as [Hb|[E He]].
  - pose proof (value_bound_wf _ Hb) as Bb. assert (0 <= num_bigits d) by (unfold num_bigits; pose proof (zlen_nonneg (bigits_ d)); destruct Hd; lia).
    pose proof (R_pow_le (num_bigits d + 1) (num_bigits b - 1) ltac:(lia)) as Hle. rewrite Z.pow_add_r in Hle by lia. change (R ^ 1) with R in Hle. lia.
  - unfold num_bigits in *. rewrite E in Hlt. change (zlen [0]) with 1 in Hlt. destruct (normal_bound _ (proj1 Hd)). lia.
Qed.

Lemma subtract_aligned_ok b d : canonical (exp_ d) b -> wf d -> exp_ b <= exp_ d -> value d <= value b < R * value d ->
  exists r, subtract_aligned d b = Ok r /\ canonical (exp_ d) r /\ exp_ r = exp_ b /\ value r = value b - value d.
Proof.
  intros Hb Hd He Hv. pose proof (canonical_ok _ _ Hb) as (Ob & Eb & _). pose proof (num_bigits_small b d Hd Hb ltac:(lia)) as Hnum.
  unfold subtract_aligned. rewrite compare_ge by done. rewrite !(proj2 (Z.leb_le _ _)) by lia. cbn [andb].
  set (n := Z.to_nat (exp_ d - exp_ b)). rewrite <- (take_drop n (bigits_ b)) in Ob. apply bigits_ok_app in Ob as [Ot Od].
  pose proof (bval_app (take n (bigits_ b)) (drop n (bigits_ b))) as Ev. rewrite take_drop in Ev.
  pose proof (bval_bound _ Ot) as Bt. assert (Hzt : zlen (take n (bigits_ b)) <= Z.of_nat n) by (rewrite zlen_take; lia).
  pose proof (R_pow_le (zlen (take n (bigits_ b))) (Z.of_nat n) ltac:(pose proof (zlen_nonneg (take n (bigits_ b))); lia)) as Hple.
  pose proof (R_pow_pos (exp_ b) Eb) as HPb. pose proof (R_pow_pos (Z.of_nat n) ltac:(lia)) as HPn.
  assert (Ed : value d = bval (bigits_ d) * R ^ Z.of_nat n * R ^ exp_ b).
  { unfold value. rewrite <- Z.mul_assoc, <- Z.pow_add_r by lia. do 2 f_equal. subst n. lia. }
  pose proof (normal_pos _ (proj1 Hd)) as Hdpos.
  assert (Hge : bval (bigits_ d) * R ^ Z.of_nat n <= bval (bigits_ b)).
  { apply (Z.mul_le_mono_pos_r _ _ (R ^ exp_ b)); [done|]. rewrite <- Ed. apply Hv. }
  pose proof (Z.mul_le_mono_nonneg_r 1 (bval (bigits_ d)) (R ^ Z.of_nat n) ltac:(lia) ltac:(lia)) as Hmul.
  assert (Hlen : (n <= length (bigits_ b))%nat).
  { apply Nat.nlt_ge. intros Hlt. assert (Hbb : bval (bigits_ b) < R ^ Z.of_nat n); [|lia]. rewrite Ev, drop_ge by lia. cbn [bval]. rewrite Z.mul_0_r. lia. }
  assert (Ezt : zlen (take n (bigits_ b)) = Z.of_nat n) by (rewrite zlen_take; unfold zlen; lia). rewrite Ezt in *.
  assert (Hsub : bval (bigits_ d) <= bval (drop n (bigits_ b))) by nia.
  destruct (subtract_loop_ok (bigits_ d) (drop n (bigits_ b)) 0) as (l & -> & Ol & Zl & El);
    [done|right; apply Hd|lia|lia|rewrite zlen_drop; unfold num_bigits, zlen in *; lia|].
  cbn [outcome_map]. set (full := take n (bigits_ b) ++ l).
  assert (Of : bigits_ok full) by (apply bigits_ok_app; auto). assert (Hzd : 1 <= zlen (drop n (bigits_ b))).
  { destruct (drop n (bigits_ b)); [cbn [bval] in Hsub; lia|rewrite zlen_cons; pose proof (zlen_nonneg l0); lia]. }
  destruct (remove_leading_zeros_ok full) as [Evf Hcf]; [intros E; apply (f_equal zlen) in E; subst full; rewrite zlen_app, Zl, zlen_nil, Ezt in E; lia|done|].
  eexists. split; [done|]. split; [|split; [done|]].
  - destruct Hcf as [Hcf|Hcf]; [left; by split|right; cbn [bigits_ exp_]; split; [done|lia]].
  - unfold value at 1. cbn [bigits_ exp_]. rewrite Evf. subst full. rewrite bval_app, Ezt, El, Ed. unfold value. rewrite Ev. ring.
Qed.

(** ** Division *)
Lemma align_ok b d : wf b -> wf d -> canonical (exp_ d) (align d b) /\ exp_ (align d b) <= exp_ d /\ value (align d b) = value b.
Proof.
  intros Hb Hd. unfold align. destruct (Z.leb_spec (exp_ b - exp_ d) 0); [split; [by left|]; split; [lia|done]|].
  set (k := exp_ b - exp_ d) in *. assert (Hz : forall j, bval (replicate j 0) = 0) by (induction j as [|j IHj]; cbn [replicate bval]; lia).
  assert (Ev : value (mkbigint (replicate (Z.to_nat k) 0 ++ bigits_ b) (exp_ b - k)) = value b).
  { unfold value. cbn [bigits_ exp_]. rewrite bval_app, Hz, zlen_replicate, Z2Nat.id by lia. rewrite Z.add_0_l, (Z.mul_comm (R ^ k)), <- Z.mul_assoc, <- Z.pow_add_r by (destruct Hd; lia).
    do 2 f_equal. lia. }
  split; [|cbn [exp_]; split; [lia|done]]. left. destruct Hb as [[Ho (l & x & E & Hx)] He]. split; cbn [bigits_ exp_]; [|destruct Hd; lia].
  split; [apply bigits_ok_app; split; [apply Forall_replicate; lia|done]|]. exists (replicate (Z.to_nat k) 0 ++ l), x. by rewrite E, app_assoc.
Qed.

Lemma divmod_loop_ok fuel d b q : canonical (exp_ d) b -> wf d -> exp_ b <= exp_ d -> value d <= value b < R * value d -> value b < Z.of_nat fuel * value d ->
  exists r, divmod_loop fuel d b q = Ok (q + value b / value d, r) /\ canonical (exp_ d) r /\ exp_ r <= exp_ d /\ value r = value b mod value d.
Proof.
  intros Hb Hd. pose proof (value_pos d Hd) as Hpos. revert b q Hb. induction fuel as [|fuel IH]; intros b q Hb He Hv Hf; [lia|]. cbn [divmod_loop].
  destruct (subtract_aligned_ok b d Hb Hd He Hv) as (r & -> & Hr & Er & Vr). rewrite compare_ge by (done || lia).
  assert (Ediv : value b / value d = (value b - value d) / value d + 1) by (replace (value b) with ((value b - value d) + 1 * value d) at 1 by lia; rewrite Z.div_add by lia; lia).
  assert (Emod : value b mod value d = (value b - value d) mod value d) by (replace (value b) with ((value b - value d) + 1 * value d) at 1 by lia; rewrite Z.mod_add by lia; done).
  destruct (Z.leb_spec (value d) (value r)) as [Hle|Hlt].
  - destruct (IH r (q + 1) Hr ltac:(lia) ltac:(lia) ltac:(lia)) as (r' & -> & Hr' & Er' & Vr'). exists r'. split; [do 2 f_equal; rewrite Ediv, Vr; lia|].
    split; [done|]. split; [done|]. by rewrite Vr', Emod, Vr.
  - exists r. pose proof (canonical_ok _ _ Hr) as (_ & _ & Hr0). split; [do 2 f_equal; rewrite Ediv, Z.div_small by lia; lia|]. split; [done|]. split; [lia|].
    rewrite Emod, Z.mod_small by lia. done.
Qed.

(** Division is exact when the quotient is small and the numbers are not equal with
    a larger exponent on the left. *)
Lemma divmod_assign_ok fuel d b : canonical (exp_ d) b -> wf d -> (value b = value d -> exp_ b <= exp_ d) -> value b < R * value d -> value b < Z.of_nat fuel * value d ->
  exists r, divmod_assign fuel d b = Ok (value b / value d, r) /\ value r = value b mod value d /\ canonical (exp_ d) r /\
    (value b < value d -> r = b) /\ (exp_ b <= exp_ d \/ value d <= value b -> exp_ r <= exp_ d).
Proof.
  intros Hb Hd He Hv Hf. pose proof (value_pos d Hd) as Hpos. pose proof (canonical_ok _ _ Hb) as (Ob & Eb & Vb). unfold divmod_assign.
  destruct (compare_ok b d Hb Hd) as (C1 & C2 & C3). destruct (Z.lt_ge_cases (value b) (value d)) as [Hlt|Hge].
  - rewrite C1 by done. exists b. rewrite Z.div_small, Z.mod_small by lia. split_and!; [done..|lia].
  - assert (Hc : (compare b d <? 0) = false).
    { apply Z.ltb_ge. destruct (Z.eq_dec (value b) (value d)) as [E|E]; [rewrite (C3 E); apply Z.sgn_nonneg; specialize (He E); lia|rewrite C2 by lia; lia]. }
    rewrite Hc. destruct (proj1 Hd) as [_ (l & x & El & Hx)]. rewrite El, last_snoc. cbn [default from_option]. change (id x =? 0) with (x =? 0). rewrite (proj2 (Z.eqb_neq x 0)) by done.
    destruct Hb as [Hb|[Ez _]]; [|exfalso; unfold value in Hge at 2; rewrite Ez in Hge; simpl in Hge; lia].
    destruct (align_ok b d Hb Hd) as (Ha & Hae & Hav). destruct (divmod_loop_ok fuel d (align d b) 0 Ha Hd Hae ltac:(lia) ltac:(lia)) as (r & -> & Hr & Hre & Hrv).
    exists r. rewrite Hav in *. split_and!; [done..|lia|done].
Qed.

(** ** Squaring *)

(** The digit [i], zero outside, and a number as the sum of its digits. *)
Definition dig (l : list Z) (i : nat) : Z := default 0 (l !! i).
Fixpoint poly (f : nat -> Z) (n : nat) : Z := match n with O => 0 | S n => f O + R * poly (fun i => f (S i)) n end.
Fixpoint gsum (f : nat -> Z) (lo n : nat) : Z := match n with O => 0 | S n => f lo + gsum f (S lo) n end.
(** The coefficient [k] of a product. *)
Fixpoint coef (l m : list Z) (k : nat) : Z :=
  match l with [] => 0 | a :: l => a * dig m k + match k with O => 0 | S k => coef l m k end end.

Lemma poly_ext f g n : (forall i, f i = g i) -> poly f n = poly g n.
Proof. revert f g. induction n as [|n IH]; intros f g H; cbn [poly]; [done|]. rewrite H, (IH _ (fun i => g (S i))); [done|]. intros i. apply H. Qed.

Lemma poly_add f g n : poly (fun i => f i + g i) n = poly f n + poly g n.
Proof. revert f g. induction n as [|n IH]; intros f g; cbn [poly]; [done|]. rewrite (IH (fun i => f (S i)) (fun i => g (S i))). lia. Qed.

Lemma poly_scale a f n : poly (fun i => a * f i) n = a * poly f n.
Proof. revert f. induction n as [|n IH]; intros f; cbn [poly]; [lia|]. rewrite (IH (fun i => f (S i))). lia. Qed.

Lemma poly_zero n : poly (fun _ => 0) n = 0.
Proof. induction n as [|n IH]; cbn [poly]; lia. Qed.

Lemma poly_dig m n : (length m <= n)%nat -> poly (dig m) n = bval m.
Proof.
  revert n. induction m as [|b m IH]; intros n H; [apply poly_zero|]. destruct n as [|n]; cbn [length] in H; [lia|].
  cbn [poly bval]. change (dig (b :: m) 0) with b. rewrite (poly_ext _ (dig m)) by done. rewrite IH by lia. done.
Qed.

Lemma poly_coef l m n : (length l + length m <= n)%nat -> poly (coef l m) n = bval l * bval m.
Proof.
  revert n. induction l as [|a l IH]; intros n H; [apply poly_zero|]. cbn [length] in H. destruct n as [|n]; [lia|].
  rewrite (poly_ext _ (fun k => a * dig m k + match k with O => 0 | S k => coef l m k end)) by done.
  rewrite poly_add, poly_scale, poly_dig by lia. cbn [poly bval]. rewrite (poly_ext _ (coef l m)) by done. rewrite IH by lia. lia.
Qed.

Lemma gsum_ext f g lo n : (forall i, (lo <= i < lo + n)%nat -> f i = g i) -> gsum f lo n = gsum g lo n.
Proof. revert lo. induction n as [|n IH]; intros lo H; cbn [gsum]; [done|]. rewrite H, IH; [done| |lia]. intros i Hi. apply H. lia. Qed.

Lemma gsum_shift f lo n : gsum f (S lo) n = gsum (fun i => f (S i)) lo n.
Proof. revert lo. induction n as [|n IH]; intros lo; cbn [gsum]; [done|]. by rewrite IH. Qed.

Lemma gsum_app f lo a b : gsum f lo (a + b) = gsum f lo a + gsum f (lo + a) b.
Proof.
  revert lo. induction a as [|a IH]; intros lo; cbn [gsum Nat.add]; [by rewrite Nat.add_0_r|]. rewrite IH.
  replace (S lo + a)%nat with (lo + S a)%nat by lia. lia.
Qed.

Lemma gsum_zero f lo n : (forall i, (lo <= i < lo + n)%nat -> f i = 0) -> gsum f lo n = 0.
Proof. revert lo. induction n as [|n IH]; intros lo H; cbn [gsum]; [done|]. rewrite H, IH; [done| |lia]. intros i Hi. apply H. lia. Qed.

Lemma coef_gsum l m k : coef l m k = gsum (fun i => dig l i * dig m (k - i)) 0 (S k).
Proof.
  revert k. induction l as [|a l IH]; intros k; [symmetry; by apply gsum_zero|]. cbn [coef gsum]. change (dig (a :: l) 0) with a.
  rewrite Nat.sub_0_r. f_equal. destruct k as [|k]; [done|]. rewrite IH, gsum_shift. by apply gsum_ext.
Qed.

Lemma dig_bound l i : bigits_ok l -> 0 <= dig l i < R.
Proof. intros H. unfold dig. destruct (l !! i) eqn:E; simpl; [by apply (Forall_lookup_1 _ _ _ _ H E)|lia]. Qed.

Lemma dig_ge l i : (length l <= i)%nat -> dig l i = 0.
Proof. intros H. unfold dig. by rewrite lookup_ge_None_2. Qed.

Lemma cross_sum_ok n k lo count sum : bigits_ok n -> (lo + count <= S k)%nat -> 0 <= sum -> sum + Z.of_nat count * (R * R) < 2 ^ 128 ->
  cross_sum n (Z.of_nat k) (Z.of_nat lo) count sum = sum + gsum (fun i => dig n i * dig n (k - i)) lo count /\
  0 <= gsum (fun i => dig n i * dig n (k - i)) lo count <= Z.of_nat count * ((R - 1) * (R - 1)).
Proof.
  intros Hn. revert lo sum. induction count as [|count IH]; intros lo sum Hk Hs Hb; cbn [cross_sum gsum]; [lia|].
  pose proof (dig_bound n lo Hn) as H1. pose proof (dig_bound n (k - lo) Hn) as H2.
  pose proof (Z.mul_nonneg_nonneg (dig n lo) (dig n (k - lo)) ltac:(lia) ltac:(lia)) as H3.
  pose proof (Z.mul_le_mono_nonneg (dig n lo) (R - 1) (dig n (k - lo)) (R - 1) ltac:(lia) ltac:(lia) ltac:(lia) ltac:(lia)) as H4.
  replace (Z.of_nat k - Z.of_nat lo) with (Z.of_nat (k - lo)) by lia. rewrite !Nat2Z.id. fold (dig n lo) (dig n (k - lo)).
  rewrite wrap_small by lia. replace (Z.of_nat lo + 1) with (Z.of_nat (S lo)) by lia.
  destruct (IH (S lo) (sum + dig n lo * dig n (k - lo))) as [-> Hg]; [lia|lia|lia|]. split; lia.
Qed.

(** What one digit of the square adds. *)
Lemma cross_coef n k : let num := zlen n in
  let lo := if Z.of_nat k <? num then 0 else Z.of_nat k - (num - 1) in
  let hi := if Z.of_nat k <? num then Z.of_nat k else num - 1 in
  (k < 2 * length n)%nat ->
  gsum (fun i => dig n i * dig n (k - i)) (Z.to_nat lo) (Z.to_nat (hi - lo + 1)) = coef n n k /\ 0 <= lo /\ (Z.to_nat lo + Z.to_nat (hi - lo + 1) <= S k)%nat /\ hi - lo + 1 <= num.
Proof.
  intros num lo hi Hk. rewrite coef_gsum. subst num lo hi. unfold zlen. destruct (Z.ltb_spec (Z.of_nat k) (Z.of_nat (length n))) as [Hlt|Hge].
  - replace (Z.to_nat (Z.of_nat k - 0 + 1)) with (S k) by lia. change (Z.to_nat 0) with O. split; [done|lia].
  - split; [|lia]. set (lo := (k - (length n - 1))%nat). set (c := (2 * length n - 1 - k)%nat).
    replace (Z.to_nat (Z.of_nat k - (Z.of_nat (length n) - 1))) with lo by lia.
    replace (Z.to_nat (Z.of_nat (length n) - 1 - (Z.of_nat k - (Z.of_nat (length n) - 1)) + 1)) with c by lia.
    replace (S k) with (lo + (c + lo))%nat by lia. rewrite !gsum_app, Nat.add_0_l, (gsum_zero _ 0 lo), (gsum_zero _ (lo + c) lo); [lia| |];
      intros i Hi; [rewrite (dig_ge n i) by lia|rewrite (dig_ge n (k - i)) by lia]; lia.
Qed.

Lemma square_loop_ok n count k sum : bigits_ok n -> zlen n <= R -> (k + count <= 2 * length n)%nat -> 0 <= sum <= zlen n * R ->
  exists rest, bval (square_loop n count (Z.of_nat k) sum) + R ^ Z.of_nat count * rest = sum + poly (fun t => coef n n (k + t)) count /\
    0 <= rest /\ bigits_ok (square_loop n count (Z.of_nat k) sum) /\ zlen (square_loop n count (Z.of_nat k) sum) = Z.of_nat count.
Proof.
  intros Hn Hr. revert k sum. induction count as [|count IH]; intros k sum Hk Hs; cbn [square_loop poly].
  - exists sum. rewrite zlen_nil. cbn [bval]. split; [change (R ^ Z.of_nat 0) with 1; lia|]. split; [lia|]. split; [constructor|lia].
  - destruct (cross_coef n k ltac:(lia)) as (E & Hlo & Hc & Hle). cbv zeta in *.
    set (lo := if Z.of_nat k <? zlen n then 0 else Z.of_nat k - (zlen n - 1)) in *. set (hi := if Z.of_nat k <? zlen n then Z.of_nat k else zlen n - 1) in *.
    destruct (cross_sum_ok n k (Z.to_nat lo) (Z.to_nat (hi - lo + 1)) sum Hn Hc ltac:(lia)) as [Ec Hg]; [change (2 ^ 128) with (R * R * (R * R)); nia|].
    rewrite E in Ec, Hg. rewrite (Z2Nat.id lo) in Ec by lia. rewrite Ec. unfold bigit, u32, wrap, bigit_bits. rewrite Z.shiftr_div_pow2 by lia. change (2 ^ 32) with R.
    set (v := sum + coef n n k) in *. pose proof (zlen_nonneg n).
    assert (Hv : 0 <= v / R <= zlen n * R).
    { split; [apply Z.div_pos; lia|]. apply Z.div_le_upper_bound; [lia|]. unfold v. nia. }
    replace (Z.of_nat k + 1) with (Z.of_nat (S k)) by lia. destruct (IH (S k) (v / R) ltac:(lia) Hv) as (rest & Er & Hr0 & Ho & Hz).
    exists rest. rewrite zlen_cons, Hz. cbn [bval]. rewrite Nat.add_0_r. rewrite (poly_ext _ (fun t => coef n n (S k + t))) by (intros i; f_equal; lia).
    pose proof (Z.div_mod v R ltac:(lia)). pose proof (Z.mod_pos_bound v R ltac:(lia)).
    split; [rewrite (Nat2Z.inj_succ count), Z.pow_succ_r by lia; unfold v in *; lia|]. split; [done|]. split; [by constructor|lia].
Qed.

Lemma square_ok b : wf b -> zlen (bigits_ b) <= R -> wf (square b) /\ value (square b) = value b * value b.
Proof.
  intros Hb Hr. pose proof Hb as [[Ho Hn] He]. pose proof (normal_pos _ (proj1 Hb)) as Hpos. set (n := bigits_ b) in *.
  assert (Hlen : (0 < length n)%nat) by (destruct Hn as (k & x & -> & _); rewrite length_app; simpl; lia).
  destruct (square_loop_ok n (2 * length n) 0 0 Ho Hr ltac:(lia)) as (rest & Er & Hr0 & Hos & Hz); [pose proof (zlen_nonneg n); lia|].
  change (Z.of_nat 0) with 0 in *. set (sq := square_loop n (2 * length n) 0 0) in *.
  rewrite (poly_ext _ (coef n n)), poly_coef in Er by (done || lia). pose proof (bval_bound _ Hos) as Bs. pose proof (bval_bound _ Ho) as Bn.
  assert (Hp : R ^ Z.of_nat (2 * length n) = R ^ zlen n * R ^ zlen n) by (rewrite <- Z.pow_add_r by (unfold zlen; lia); f_equal; unfold zlen; lia).
  rewrite Hz, Hp in *. assert (rest = 0) as -> by nia. assert (Esq : bval sq = bval n * bval n) by lia.
  destruct (remove_leading_zeros_ok sq) as [Ev Hc]; [intros E; rewrite E, zlen_nil in Hz; lia|done|].
  assert (Hsqpos : 0 < bval sq) by (rewrite Esq; nia). assert (Ews : wf (square b)).
  { split; [|cbn [exp_ square]; lia]. destruct Hc as [Hc|Hc]; [apply Hc|]. rewrite Hc in Ev. simpl in Ev. lia. }
  split; [done|]. unfold value at 1. cbn [square bigits_ exp_]. fold n. fold sq. rewrite Ev, Esq. unfold value. fold n.
  replace (exp_ b * 2) with (exp_ b + exp_ b) by lia. rewrite Z.pow_add_r by lia. ring.
Qed.

(** ** Powers of ten *)
Lemma pow5_size b e : wf b -> exp_ b = 0 -> 0 <= e < 2 ^ 31 -> value b = 5 ^ e -> zlen (bigits_ b) <= R.
Proof.
  intros Hb E He Hv. pose proof (value_bound_wf _ Hb) as [Hlo _]. unfold num_bigits in Hlo. rewrite E, Z.add_0_r, Hv in Hlo.
  assert (H5 : 5 ^ e <= 2 ^ (3 * e)) by (rewrite Z.pow_mul_r by lia; apply Z.pow_le_mono_l; lia).
  destruct (Z.le_gt_cases (zlen (bigits_ b)) R) as [|Hgt]; [done|]. exfalso.
  change R with (2 ^ 32) in Hlo at 1. rewrite <- Z.pow_mul_r in Hlo by lia.
  assert (Hlt : 2 ^ (3 * e) < 2 ^ (32 * (zlen (bigits_ b) - 1))) by (apply Z.pow_lt_mono_r; lia). lia.
Qed.

Lemma pow5_loop_ok bits e b : 0 <= e < 2 ^ 31 -> wf b -> exp_ b = 0 -> value b = 5 ^ (e / 2 ^ Z.of_nat bits) ->
  exists r, pow5_loop bits e b = Ok r /\ wf r /\ exp_ r = 0 /\ value r = 5 ^ e.
Proof.
  intros He. revert b. induction bits as [|bits IH]; intros b Hb E Hv; cbn [pow5_loop].
  - exists b. change (2 ^ Z.of_nat 0) with 1 in Hv. rewrite Z.div_1_r in Hv. done.
  - assert (Hp : 0 < 2 ^ Z.of_nat bits) by (apply Z.pow_pos_nonneg; lia). assert (Hp1 : 0 < 2 ^ Z.of_nat (S bits)) by (apply Z.pow_pos_nonneg; lia). pose proof (Z.div_pos e (2 ^ Z.of_nat (S bits)) ltac:(lia) ltac:(lia)) as Hq.
    assert (Hq2 : e / 2 ^ Z.of_nat (S bits) <= e) by (apply Z.div_le_upper_bound; nia).
    destruct (square_ok b Hb (pow5_size b (e / 2 ^ Z.of_nat (S bits)) Hb E (conj Hq (Z.le_lt_trans _ _ _ Hq2 (proj2 He))) Hv)) as [Hs Vs].
    assert (Es : exp_ (square b) = 0) by (cbn [exp_ square]; lia).
    assert (Hd : e / 2 ^ Z.of_nat bits = 2 * (e / 2 ^ Z.of_nat (S bits)) + Z.b2z (Z.testbit e (Z.of_nat bits))).
    { rewrite Z.testbit_spec' by lia. rewrite Nat2Z.inj_succ, Z.pow_succ_r, (Z.mul_comm 2 (2 ^ _)), <- Z.div_div by lia. apply Z.div_mod. lia. }
    rewrite Hv, <- Z.pow_add_r in Vs by done. destruct (Z.testbit e (Z.of_nat bits)); cbn [Z.b2z] in Hd.
    + cbn [times_int]. destruct (multiply32_ok 5 (square b) ltac:(lia) Hs) as (Hm & Vm & Em). apply IH; [done|lia|].
      rewrite Vm, Vs, Hd, (Z.pow_add_r 5 (2 * _) 1), Z.pow_1_r by lia. f_equal. f_equal. lia.
    + apply IH; [done|lia|]. rewrite Vs, Hd. f_equal. lia.
Qed.

Lemma assign_pow10_ok e : 0 <= e < 2 ^ 31 -> exists r, assign_pow10 e = Ok r /\ wf r /\ value r = 10 ^ e /\ exp_ r = e / 32.
Proof.
  intros He. unfold assign_pow10. rewrite (proj2 (Z.leb_le 0 e)) by lia. destruct (Z.eqb_spec e 0) as [->|H0].
  - destruct (assign_ok 1 ltac:(done)) as [H1 H2]. by exists (assign 1).
  - cbn [set_to Z.ltb Z.compare]. destruct (assign_ok 5 ltac:(done)) as [H1 H2]. pose proof (Z.log2_spec e ltac:(lia)) as Hl. pose proof (Z.log2_nonneg e) as Hn.
    assert (Hq : e / 2 ^ Z.of_nat (Z.to_nat (Z.log2 e)) = 1).
    { rewrite Z2Nat.id by lia. rewrite Z.pow_succ_r in Hl by lia. symmetry. apply (Z.div_unique _ _ _ (e - 2 ^ Z.log2 e)); lia. }
    destruct (pow5_loop_ok (Z.to_nat (Z.log2 e)) e (assign 5) He H1 eq_refl) as (r & -> & Hr & Er & Vr); [by rewrite Hq|].
    destruct (shift_left_ok e r ltac:(lia) Hr) as (s & -> & Hs & Vs & Es). exists s. rewrite Vs, Vr, Es, Er, <- Z.pow_mul_l. done.
Qed.

(** ** The arithmetic as a whole *)

(** Bigint is exact integer arithmetic: assignment from a nonzero 128-bit
    number, multiplication by 32, 64 and 128-bit numbers, shifts, squares and
    [10 ^ e] produce well-formed numbers with the value of the integer operation;
    [compare] and [add_compare] give the sign of the difference (up to the order of the
    exponents for equal values), and [divmod_assign] returns quotient and remainder within
    as many rounds as the quotient. *)
Theorem bigint_exact b d v e s : wf b -> wf d -> 0 < v < 2 ^ 128 -> 0 <= e < 2 ^ 31 -> 0 <= s -> zlen (bigits_ b) <= R ->
  (wf (assign v) /\ value (assign v) = v) /\
  (v < R -> wf (multiply32 v b) /\ value (multiply32 v b) = value b * v) /\
  (v < 2 ^ 64 -> wf (multiply_wide 64 v b) /\ value (multiply_wide 64 v b) = value b * v) /\
  (wf (multiply_wide 128 v b) /\ value (multiply_wide 128 v b) = value b * v) /\
  (exists r, shift_left s b = Ok r /\ wf r /\ value r = value b * 2 ^ s) /\
  (wf (square b) /\ value (square b) = value b * value b) /\
  (exists r, assign_pow10 e = Ok r /\ wf r /\ value r = 10 ^ e) /\
  (compare b d = if value b =? value d then Z.sgn (exp_ d - exp_ b) else Z.sgn (value b - value d)) /\
  (exp_ b <= exp_ d -> value b < R * value d ->
    exists r, divmod_assign (S (Z.to_nat (value b / value d))) d b = Ok (value b / value d, r) /\ value r = value b mod value d).
Proof.
  intros Hb Hd Hv He Hs Hz. split; [by apply assign_ok|]. split; [intros Hv'; destruct (multiply32_ok v b ltac:(lia) Hb); tauto|].
  split; [intros Hv'; destruct (multiply_wide_ok 64 ltac:(by left) v b ltac:(lia) Hb); tauto|].
  split; [destruct (multiply_wide_ok 128 ltac:(by right) v b ltac:(lia) Hb); tauto|].
  split; [destruct (shift_left_ok s b Hs Hb) as (r & H); exists r; tauto|]. split; [by apply square_ok|].
  split; [destruct (assign_pow10_ok e He) as (r & H); exists r; tauto|].
  destruct (compare_ok b d ltac:(by left) Hd) as (C1 & C2 & C3). split.
  - destruct (Z.eqb_spec (value b) (value d)) as [E|E]; [by apply C3|]. destruct (Z.lt_ge_cases (value b) (value d)); [rewrite C1 by done|rewrite C2 by lia]; lia.
  - intros Hex Hlt. pose proof (value_pos d Hd) as Hpos. pose proof (value_pos b Hb) as Hbpos.
    destruct (divmod_assign_ok (S (Z.to_nat (value b / value d))) d b ltac:(by left) Hd ltac:(done) Hlt) as (r & H1 & H2 & _); [|by exists r].
    pose proof (Z.div_pos (value b) (value d) ltac:(lia) Hpos). rewrite Nat2Z.inj_succ, Z2Nat.id by lia.
    pose proof (Z.mul_succ_div_gt (value b) (value d) Hpos). lia.
Qed.

Lemma bigint_exact_witness : let b := assign (7 * 10 ^ 19 + 5) in let d := assign (10 ^ 19) in
  (exists r, assign_pow10 40 = Ok r /\ value r = 10 ^ 40) /\ compare b d = 1 /\
  exists r, divmod_assign 8 d b = Ok (7, r) /\ value r = 5.
Proof.
  intros b d. assert (Wb : wf b) by exact (proj1 (assign_ok 70000000000000000005 ltac:(by vm_compute))).
  assert (Wd : wf d) by exact (proj1 (assign_ok 10000000000000000000 ltac:(by vm_compute))).
  destruct (bigint_exact b d 1 40 0 Wb Wd ltac:(by vm_compute) ltac:(by vm_compute) ltac:(done) ltac:(by vm_compute)) as (_ & _ & _ & _ & _ & _ & Hp & Hc & Hd).
  split; [destruct Hp as (r & E & _ & V); exists r; exact (conj E V)|]. split; [rewrite Hc; vm_compute; reflexivity|].
  destruct Hd as (r & E & V); [vm_compute; discriminate|vm_compute; reflexivity|]. exists r.
  assert (Hq : value b / value d = 7) by (vm_compute; reflexivity). assert (Hm : value b mod value d = 5) by (vm_compute; reflexivity).
  rewrite Hq in E. rewrite Hm in V. exact (conj E V).
Defined.

(** Subtraction moves the last borrow one digit up and no further: the precondition of
    division, a quotient below [2 ^ 32], is needed. *)
Example one_borrow_only : wf (mkbigint [0; 0; 1] 0) /\ subtract_aligned (mkbigint [1] 0) (mkbigint [0; 0; 1] 0) = Undef.
Proof. split; [|done]. split; [|done]. split; [unfold bigits_ok; cbn [bigits_]; rewrite !Forall_cons; split_and!; (lia || constructor)|]. by exists [0; 0], 1. Qed.
