(* ===== verification/FmtDragon.v ===== *)
(** * fmt: exact digits of floating-point numbers (format_dragon of format.h)

    A number is [f * 2 ^ e]; [format_dragon] writes the decimal digits of it, either as
    many as asked for, correctly rounded, or as few as tell the number from its
    neighbours.  The text is a list of character codes. *)

From S2P Require Import Prelude Machine FmtInt FmtWide FmtBigint.

Local Open Scope outcome_scope.

(** ** Taking a number apart *)

(** What [std::numeric_limits] and [float_info] say of a type: the bits stored of the
    significand and of the exponent, and if the leading bit is implicit. *)
Record float_format := mkformat { num_significand_bits : Z; exponent_bits : Z; has_implicit_bit : bool; exponent_bias : Z }.
Definition binary32 : float_format := mkformat 23 8 true 127.
Definition binary64 : float_format := mkformat 52 11 true 1023.
Definition binary80 : float_format := mkformat 64 15 false 16383.
Definition binary128 : float_format := mkformat 112 15 true 16383.

Definition exponent_mask (t : float_format) : Z := Z.shiftl (Z.shiftl 1 (exponent_bits t) - 1) (num_significand_bits t).

Record basic_fp := mkfp { f : Z; e : Z }.

(** [basic_fp::assign] on the bits of a number: is the predecessor closer than the
    successor? *)
Definition fp_assign (t : float_format) (u : Z) : basic_fp * bool :=
  let num_float_significand_bits := num_significand_bits t in
  let implicit_bit := Z.shiftl 1 num_float_significand_bits in
  let significand_mask := implicit_bit - 1 in
  let f := Z.land u significand_mask in
  let biased_e := Z.shiftr (Z.land u (exponent_mask t)) num_float_significand_bits in
  let is_predecessor_closer := (f =? 0) && (1 <? biased_e) in
  let '(f, biased_e) := if biased_e =? 0 then (f, 1) else if has_implicit_bit t then (f + implicit_bit, biased_e) else (f, biased_e) in
  let e := biased_e - exponent_bias t - num_float_significand_bits in
  (mkfp f (if has_implicit_bit t then e else e + 1), is_predecessor_closer).

(** ** Precision *)

Definition max_int : Z := 2147483647.
(** [adjust_precision]. *)
Definition adjust_precision (precision exp10 : Z) : outcome Z :=
  if (0 <? exp10) && (max_int - exp10 <? precision) then Throw (runtime_error "number is too big") else Ok (precision + exp10).

(** ** The numbers of the algorithm *)

Definition predecessor_closer : Z := 1.
Definition fixup : Z := 2.
Definition fixed : Z := 4.
Definition has_flag (flags flag : Z) : bool := negb (Z.land flags flag =? 0).

(** [upper] is [None] where the pointer is [&lower]. *)
Record dragon := mkdragon { numerator : bigint; denominator : bigint; lower : bigint; upper_store : option bigint }.
Definition upper (d : dragon) : bigint := default (lower d) (upper_store d).

(** The first part: [value = numerator / denominator * 10 ^ exp10]. *)
Definition dragon_start (value : basic_fp) (is_predecessor_closer : bool) (exp10 : Z) : outcome dragon :=
  let shift := if is_predecessor_closer then 2 else 1 in
  if 0 <=? e value then
    let? n := set_to (f value) in
    let? n := shift_left (e value + shift) n in
    let? l := set_to 1 in
    let? l := shift_left (e value) l in
    let? u := (if is_predecessor_closer then let? u := set_to 1 in outcome_map Some (shift_left (e value + 1) u) else Ok None) in
    let? d := assign_pow10 exp10 in
    let? d := shift_left shift d in
    Ok (mkdragon n d l u)
  else if exp10 <? 0 then
    let? n := assign_pow10 (- exp10) in
    let l := assign_bigint n in
    let? u := (if is_predecessor_closer then outcome_map Some (shift_left 1 (assign_bigint n)) else Ok None) in
    let? n := times128 (f value) n in
    let? n := shift_left shift n in
    let? d := set_to 1 in
    let? d := shift_left (shift - e value) d in
    Ok (mkdragon n d l u)
  else
    let? n := set_to (f value) in
    let? n := shift_left shift n in
    let? d := assign_pow10 exp10 in
    let? d := shift_left (shift - e value) d in
    let? l := set_to 1 in
    let? u := (if is_predecessor_closer then outcome_map Some (set_to (Z.shiftl 1 1)) else Ok None) in
    Ok (mkdragon n d l u).

(** [numerator *= 10], and [lower] and [upper] with it. *)
Definition times10 (d : dragon) : outcome dragon :=
  outcome_map (fun n => mkdragon n (denominator d) (lower d) (upper_store d)) (times_int 10 (numerator d)).
Definition bounds_times10 (d : dragon) : outcome dragon :=
  let? l := times_int 10 (lower d) in
  let? u := match upper_store d with Some u => outcome_map Some (times_int 10 u) | None => Ok None end in
  Ok (mkdragon (numerator d) (denominator d) l u).
Definition set_numerator (n : bigint) (d : dragon) : dragon := mkdragon n (denominator d) (lower d) (upper_store d).

(** The second part, which corrects an exponent that is one too large: the numbers, [num_digits] and [exp10]. *)
Definition dragon_fixup (flags even num_digits exp10 : Z) (d : dragon) : outcome (dragon * Z * Z) :=
  if has_flag flags fixup then
    let? '(d, exp10) :=
      (if add_compare (numerator d) (upper d) (denominator d) + even <=? 0 then
         let? d := times10 d in
         let? d := (if num_digits <? 0 then bounds_times10 d else Ok d) in
         Ok (d, exp10 - 1)
       else Ok (d, exp10)) in
    let? num_digits := (if has_flag flags fixed then adjust_precision num_digits (exp10 + 1) else Ok num_digits) in
    Ok (d, num_digits, exp10)
  else Ok (d, num_digits, exp10).

(** ** The shortest digits *)

(** The rounds a division may take: a digit is at most 9. *)
Definition rounds : nat := 10.

Fixpoint shortest_loop (fuel : nat) (even : Z) (d : dragon) (data : list Z) : outcome (list Z) :=
  match fuel with
  | O => Undef
  | S fuel =>
      let? '(digit, n) := divmod_assign rounds (denominator d) (numerator d) in
      let d := set_numerator n d in
      let low := compare (numerator d) (lower d) - even <? 0 in
      let high := 0 <? add_compare (numerator d) (upper d) (denominator d) + even in
      if low || high then
        let up :=
          if negb low then true
          else if high then
            let result := add_compare (numerator d) (numerator d) (denominator d) in
            (0 <? result) || ((result =? 0) && negb (digit mod 2 =? 0))
          else false in
        Ok (data ++ [if up then 48 + digit + 1 else 48 + digit])
      else
        let? d := times10 d in
        let? d := bounds_times10 d in
        shortest_loop fuel even d (data ++ [48 + digit])
  end.

(** ** A given number of digits *)

(** The loop that writes [n] digits. *)
Fixpoint digits_loop (n : nat) (d : dragon) (buf : list Z) : outcome (list Z * dragon) :=
  match n with
  | O => Ok (buf, d)
  | S n =>
      let? '(digit, r) := divmod_assign rounds (denominator d) (numerator d) in
      let? d := times10 (set_numerator r d) in
      digits_loop n d (buf ++ [48 + digit])
  end.

Definition overflow : Z := 58.
(** The loop that moves the carry up, from index [i]. *)
Fixpoint propagate (i : nat) (buf : list Z) : list Z :=
  match i with
  | O => buf
  | S j => if default 0 (buf !! i) =? overflow then propagate j (<[j := default 0 (buf !! j) + 1]> (<[i := 48]> buf)) else buf
  end.

Definition dragon_digits (flags num_digits exp10 : Z) (d : dragon) : outcome (list Z * Z) :=
  let exp10 := exp10 - (num_digits - 1) in
  if num_digits <=? 0 then
    if num_digits =? 0 then
      let? den := times_int 10 (denominator d) in
      Ok ([if 0 <? add_compare (numerator d) (numerator d) den then 49 else 48], exp10)
    else Ok ([48], exp10)
  else
    let? '(buf, d) := digits_loop (Z.to_nat (num_digits - 1)) d [] in
    let? '(digit, r) := divmod_assign rounds (denominator d) (numerator d) in
    let result := add_compare r r (denominator d) in
    if (0 <? result) || ((result =? 0) && negb (digit mod 2 =? 0)) then
      if digit =? 9 then
        let buf := propagate (Z.to_nat (num_digits - 1)) (buf ++ [overflow]) in
        if default 0 (buf !! O) =? overflow then
          let buf := <[O := 49]> buf in
          Ok (if has_flag flags fixed then (buf ++ [48], exp10) else (buf, exp10 + 1))
        else Ok (buf, exp10)
      else Ok (buf ++ [48 + (digit + 1)], exp10)
    else Ok (buf ++ [48 + digit], exp10).

(** [format_dragon]: the text and the exponent of its last digit.  [fuel] bounds the number of
    shortest digits. *)
Definition format_dragon (fuel : nat) (value : basic_fp) (flags num_digits exp10 : Z) : outcome (list Z * Z) :=
  let? d := dragon_start value (has_flag flags predecessor_closer) exp10 in
  let even := Z.b2z (Z.land (f value) 1 =? 0) in
  let shortest := num_digits <? 0 in
  let? '(d, num_digits, exp10) := dragon_fixup flags even num_digits exp10 d in
  if shortest then
    let? data := shortest_loop fuel even d [] in
    Ok (data, exp10 - (zlen data - 1))
  else dragon_digits flags num_digits exp10 d.

(** ** Rounding *)

(** The fraction [a / b] rounded to an integer, half to even. *)
Definition rhe (a b : Z) : Z :=
  let q := a / b in
  let r := a mod b in
  if (b <? 2 * r) || ((2 * r =? b) && negb (q mod 2 =? 0)) then q + 1 else q.

(** The number in units of [10 ^ w]. *)
Definition p10 (x : Z) : Z := 10 ^ Z.max x 0.
Definition round_at (v : basic_fp) (w : Z) : Z :=
  rhe (f v * 2 ^ Z.max (e v) 0 * p10 (- w)) (2 ^ Z.max (- e v) 0 * p10 w).

Lemma rhe_scale a b c : 0 < b -> 0 < c -> rhe (a * c) (b * c) = rhe a b.
Proof.
  intros Hb Hc. unfold rhe. rewrite Z.div_mul_cancel_r, Z.mul_mod_distr_r by lia. rewrite Z.mul_assoc.
  assert (E1 : (b * c <? 2 * (a mod b) * c) = (b <? 2 * (a mod b))) by (apply Bool.eq_iff_eq_true; rewrite !Z.ltb_lt; nia).
  assert (E2 : (2 * (a mod b) * c =? b * c) = (2 * (a mod b) =? b)) by (apply Bool.eq_iff_eq_true; rewrite !Z.eqb_eq; nia).
  by rewrite E1, E2.
Qed.

Lemma rhe_ratio a b c d : 0 < b -> 0 < d -> a * d = c * b -> rhe a b = rhe c d.
Proof. intros Hb Hd H. rewrite <- (rhe_scale a b d), <- (rhe_scale c d b), H, (Z.mul_comm b d); done. Qed.

Lemma rhe_small a b : 0 < b -> 0 <= a < b -> rhe a b = if b <? 2 * a then 1 else 0.
Proof. intros Hb Ha. unfold rhe. rewrite Z.div_small, Z.mod_small by done. change (0 mod 2 =? 0) with true. rewrite andb_false_r, orb_false_r. by destruct (b <? 2 * a). Qed.

Lemma p10_pos x : 0 < p10 x.
Proof. apply Z.pow_pos_nonneg; lia. Qed.

(** The number of a text of digits. *)
Definition dval (l : list Z) : Z := fold_left (fun a c => 10 * a + (c - 48)) l 0.
Definition is_digit (c : Z) : Prop := 48 <= c <= 57.

Lemma dval_snoc l c : dval (l ++ [c]) = 10 * dval l + (c - 48).
Proof. unfold dval. by rewrite fold_left_app. Qed.

Lemma dval_app l k : dval (l ++ k) = dval l * 10 ^ zlen k + dval k.
Proof.
  induction k as [|c k IH] using rev_ind; [rewrite app_nil_r; change (zlen (@nil Z)) with 0; unfold dval at 3; simpl; lia|].
  rewrite app_assoc, !dval_snoc, IH, zlen_app. change (zlen [c]) with 1. rewrite Z.pow_add_r by (pose proof (zlen_nonneg k); lia). lia.
Qed.

Lemma dval_bound l : Forall is_digit l -> 0 <= dval l < 10 ^ zlen l.
Proof.
  induction l as [|c l IH] using rev_ind; intros H; [done|]. apply Forall_app in H as [H Hc]. inversion Hc as [|? ? Hd]; subst. red in Hd.
  rewrite dval_snoc, zlen_app. change (zlen [c]) with 1. rewrite Z.pow_add_r by (pose proof (zlen_nonneg l); lia). specialize (IH H). lia.
Qed.

Lemma dval_two a b l : dval (a :: b :: l) = (10 * (a - 48) + (b - 48)) * 10 ^ zlen l + dval l.
Proof. change (a :: b :: l) with ([a; b] ++ l). rewrite dval_app. f_equal. Qed.

(** The carry moves up and the number stays. *)
Lemma propagate_ok l c rest : Forall is_digit l -> 48 <= c <= 58 -> Forall is_digit rest ->
  exists c' l', propagate (length l) (l ++ c :: rest) = c' :: l' /\ 48 <= c' <= 58 /\ Forall is_digit l' /\
    dval (c' :: l') = dval (l ++ c :: rest) /\ length (c' :: l') = length (l ++ c :: rest).
Proof.
  revert c rest. induction l as [|d l IH] using rev_ind; intros c rest Hl Hc Hr.
  - exists c, rest. simpl. done.
  - apply Forall_app in Hl as [Hl Hd]. inversion Hd as [|? ? Hd1]; subst. red in Hd1. rewrite length_app, Nat.add_comm. cbn [length Nat.add propagate].
    rewrite <- app_assoc. cbn [app].
    assert (E1 : (l ++ d :: c :: rest) !! S (length l) = Some c) by (rewrite lookup_app_r by lia; by replace (S (length l) - length l)%nat with 1%nat by lia).
    rewrite E1, (list_lookup_middle l (c :: rest) d) by done. cbn [default from_option id]. unfold overflow, id. destruct (Z.eqb_spec c 58) as [->|Hne].
    + assert (E2 : <[length l := d + 1]> (<[S (length l) := 48]> (l ++ d :: 58 :: rest)) = l ++ d + 1 :: 48 :: rest).
      { replace (S (length l)) with (length l + 1)%nat by lia. rewrite insert_app_r. replace (length l) with (length l + 0)%nat by lia. by rewrite insert_app_r. }
      rewrite E2.
      destruct (IH (d + 1) (48 :: rest) Hl ltac:(lia) ltac:(constructor; [red; lia|done])) as (c' & l' & -> & Hc' & Hl' & Hv & Hlen).
      exists c', l'. split; [done|]. split; [done|]. split; [done|]. rewrite Hv. split; [|cbn [length] in Hlen; rewrite Hlen, !length_app; simpl; lia].
      rewrite !(dval_app l), !dval_two, !zlen_cons. lia.
    + destruct l as [|x l]; [exists d, (c :: rest)|exists x, (l ++ d :: c :: rest)]; (split; [done|]).
      * split; [lia|]. split; [|done]. constructor; [red; lia|done].
      * inversion Hl as [|? ? Hx Hl']; subst. red in Hx. split; [lia|]. split; [|done]. apply Forall_app. split; [done|].
        constructor; [red; lia|]. constructor; [red; lia|done].
Qed.

(** ** Steps of the algorithm *)

(** What the division needs: a numerator that is never equal to the denominator with a larger exponent. *)
Record dragon_ok (d : dragon) : Prop := {
  den_wf : wf (denominator d);
  num_ok : canonical (exp_ (denominator d)) (numerator d);
  num_exp : forall j, 0 <= j -> value (numerator d) * 10 ^ j = value (denominator d) -> exp_ (numerator d) <= exp_ (denominator d)
}.

Lemma canonical_times10 x b : canonical x b -> exists r, times_int 10 b = Ok r /\ canonical x r /\ value r = 10 * value b /\ exp_ r = exp_ b /\ (wf b -> wf r).
Proof.
  intros [H|[E H]].
  - destruct (multiply32_ok 10 b ltac:(lia) H) as (Hm & Vm & Em). exists (multiply32 10 b). split; [done|]. split; [by left|]. split; [lia|]. done.
  - exists (mkbigint [0] (exp_ b)). unfold times_int, multiply32. rewrite E. simpl. split; [done|]. split; [by right|]. unfold value. rewrite E. simpl. split; [done|].
    split; [done|]. intros [[_ (k & y & Ek & Hy)] _]. rewrite E in Ek. destruct k as [|z k]; [simpl in Ek; congruence|]. by destruct k.
Qed.

Lemma times10_ok d : dragon_ok d ->
  exists n, times10 d = Ok (set_numerator n d) /\ dragon_ok (set_numerator n d) /\ value n = 10 * value (numerator d).
Proof.
  intros [Hd Hn He]. destruct (canonical_times10 _ _ Hn) as (r & E & Hr & Vr & Er & _). exists r. unfold times10. rewrite E. split; [done|]. split; [|done].
  split; [done|done|]. simpl. intros j Hj. rewrite Vr, Er. intros Hv. apply (He (j + 1)); [lia|]. rewrite Z.pow_add_r by lia. lia.
Qed.

Lemma divmod_digit d : dragon_ok d -> value (numerator d) < 10 * value (denominator d) ->
  exists r, divmod_assign rounds (denominator d) (numerator d) = Ok (value (numerator d) / value (denominator d), r) /\
    value r = value (numerator d) mod value (denominator d) /\ dragon_ok (set_numerator r d).
Proof.
  intros [Hd Hn He] Hlt. pose proof (value_pos _ Hd) as Hp.
  destruct (divmod_assign_ok rounds _ _ Hn Hd) as (r & E & V & Hr & Hr1 & Hr2).
  - intros H. apply (He 0); lia.
  - lia.
  - change (Z.of_nat rounds) with 10. lia.
  - exists r. split; [done|]. split; [done|]. split; [done|done|]. simpl. intros j Hj Hv.
    destruct (Z.lt_ge_cases (value (numerator d)) (value (denominator d))) as [H|H]; [|apply Hr2; by right].
    rewrite (Hr1 H) in *. by apply (He j).
Qed.

Lemma not_above_num d : dragon_ok d -> not_above (denominator d) (numerator d).
Proof.
  intros [Hd Hn _]. destruct Hn as [H|[E H]]; [by left|right]. split; [unfold value; rewrite E; done|]. unfold num_bigits. rewrite E.
  destruct (normal_bound _ (proj1 Hd)). change (zlen [0]) with 1. lia.
Qed.

(** The comparison that rounds. *)
Lemma half_compare d : dragon_ok d -> add_compare (numerator d) (numerator d) (denominator d) = Z.sgn (2 * value (numerator d) - value (denominator d)).
Proof.
  intros Hd. pose proof (not_above_num d Hd) as Ha. destruct Hd as [Hd Hn He]. pose proof (canonical_ok _ _ Hn) as (On & En & _).
  rewrite add_compare_ok; try done; [f_equal; lia|apply Hd|apply Hd].
Qed.

Lemma digits_loop_ok n d buf : dragon_ok d -> value (numerator d) < 10 * value (denominator d) ->
  exists digs r, digits_loop n d buf = Ok (buf ++ digs, set_numerator r d) /\ dragon_ok (set_numerator r d) /\ length digs = n /\ Forall is_digit digs /\
    value r < 10 * value (denominator d) /\ value (numerator d) * 10 ^ Z.of_nat n = dval digs * (10 * value (denominator d)) + value r.
Proof.
  revert d buf. induction n as [|n IH]; intros d buf Hd Hlt.
  - exists [], (numerator d). rewrite app_nil_r. destruct d; cbn in *. unfold dval. simpl. split_and!; try done. lia.
  - cbn [digits_loop]. destruct (divmod_digit d Hd Hlt) as (r & -> & Vr & Hr). cbn [obind]. destruct (times10_ok _ Hr) as (m & -> & Hm & Vm). cbn [obind].
    pose proof (value_pos _ (den_wf d Hd)) as Hp. pose proof (canonical_ok _ _ (num_ok d Hd)) as (_ & _ & Hn0).
    set (q := value (numerator d) / value (denominator d)) in *. pose proof (Z.div_mod (value (numerator d)) (value (denominator d)) ltac:(lia)) as Hdm.
    pose proof (Z.mod_pos_bound (value (numerator d)) (value (denominator d)) Hp) as Hmb. fold q in Hdm. simpl in Vm.
    assert (Hq : 0 <= q < 10) by (split; [apply Z.div_pos; lia|apply Z.div_lt_upper_bound; lia]).
    destruct (IH (set_numerator m (set_numerator r d)) (buf ++ [48 + q]) Hm) as (digs & r' & E & Hr' & Hl & Hdg & Hlt' & Hv); [simpl; lia|].
    exists ((48 + q) :: digs), r'. rewrite E, <- app_assoc. split; [done|]. split; [done|]. split; [simpl; lia|]. split; [constructor; [red; lia|done]|]. split; [done|].
    change ((48 + q) :: digs) with ([48 + q] ++ digs). rewrite dval_app. unfold dval at 1. cbn [fold_left]. simpl in Hv. unfold zlen. rewrite Hl.
    rewrite Nat2Z.inj_succ, Z.pow_succ_r by lia. rewrite Vm, Vr in Hv. rewrite Hdm at 1. nia.
Qed.

Lemma rhe_of q r b : 0 < b -> 0 <= r < b -> rhe (q * b + r) b = if (0 <? Z.sgn (2 * r - b)) || ((Z.sgn (2 * r - b) =? 0) && negb (q mod 2 =? 0)) then q + 1 else q.
Proof.
  intros Hb Hr. unfold rhe. rewrite (Z.add_comm (q * b)), Z.div_add, Z.mod_add, Z.div_small, Z.mod_small, Z.add_0_l by lia.
  assert (E1 : (b <? 2 * r) = (0 <? Z.sgn (2 * r - b))) by (apply Bool.eq_iff_eq_true; rewrite !Z.ltb_lt; lia).
  assert (E2 : (2 * r =? b) = (Z.sgn (2 * r - b) =? 0)) by (apply Bool.eq_iff_eq_true; rewrite !Z.eqb_eq; lia).
  by rewrite E1, E2.
Qed.

(** The last digit, with the carry. *)
Lemma last_digit_ok flags digs digit up w : Forall is_digit digs -> 0 <= digit <= 9 ->
  let q := 10 * dval digs + digit in
  exists text x,
    (if up : bool then
      if digit =? 9 then
        let buf := propagate (length digs) (digs ++ [overflow]) in
        if default 0 (buf !! O) =? overflow then
          let buf := <[O := 49]> buf in
          Ok (if has_flag flags fixed then (buf ++ [48], w) else (buf, w + 1))
        else Ok (buf, w)
      else Ok (digs ++ [48 + (digit + 1)], w)
    else Ok (digs ++ [48 + digit], w)) = Ok (text, x) /\ Forall is_digit text /\
    dval text * 10 ^ (x - w) = (if up then q + 1 else q) /\
    (x = w \/ has_flag flags fixed = false /\ x = w + 1) /\ (zlen text = zlen digs + 1 \/ has_flag flags fixed = true /\ zlen text = zlen digs + 2).
Proof.
  intros Hd Hdig q. destruct up.
  - destruct (Z.eqb_spec digit 9) as [->|Hne].
    + destruct (propagate_ok digs 58 [] Hd ltac:(lia) ltac:(constructor)) as (c & l & E & Hc & Hl & Hv & Hlen). unfold overflow at 1. rewrite E. cbn [lookup list_lookup default from_option id insert list_insert].
      assert (Hz : zlen l = zlen digs) by (unfold zlen; rewrite length_app in Hlen; simpl in Hlen; lia). rewrite dval_snoc in Hv.
      assert (Ev : forall y, dval (y :: l) = (y - 48) * 10 ^ zlen l + dval l) by (intros y; change (y :: l) with ([y] ++ l); rewrite dval_app; unfold dval at 1; simpl; lia).
      unfold overflow. change (id c) with c. destruct (Z.eqb_spec c 58) as [->|Hc58].
      * pose proof (dval_bound l Hl) as Bl. pose proof (dval_bound digs Hd) as Bd. rewrite Hz in Bl. rewrite Ev, Hz in Hv.
        assert (Hl0 : dval l = 0) by lia. assert (H1 : Forall is_digit (49 :: l)) by (constructor; [red; lia|done]).
        destruct (has_flag flags fixed); eexists _, _; (split; [reflexivity|]).
        -- split; [apply Forall_app; split; [done|]; constructor; [red; lia|constructor]|]. rewrite dval_snoc, Ev, Hl0, !Z.sub_diag, Z.pow_0_r, Hz, zlen_app, !zlen_cons. change (zlen (@nil Z)) with 0.
           split; [rewrite Hl0 in Hv; subst q; lia|]. split; [by left|]. right. split; [done|lia].
        -- split; [done|]. rewrite Ev, Hl0, Hz, zlen_cons. replace (w + 1 - w) with 1 by lia. rewrite Z.pow_1_r. split; [rewrite Hl0 in Hv; subst q; lia|]. split; [by right|]. left. lia.
      * eexists _, _. split; [reflexivity|]. split; [constructor; [red; lia|done]|]. rewrite Z.sub_diag, Z.pow_0_r, zlen_cons. split; [subst q; lia|]. split; [by left|left; lia].
    + eexists _, _. split; [reflexivity|]. split; [apply Forall_app; split; [done|]; constructor; [red; lia|constructor]|].
      rewrite dval_snoc, Z.sub_diag, Z.pow_0_r, zlen_app. split; [subst q; lia|]. split; [by left|left; done].
  - eexists _, _. split; [reflexivity|]. split; [apply Forall_app; split; [done|]; constructor; [red; lia|constructor]|].
    rewrite dval_snoc, Z.sub_diag, Z.pow_0_r, zlen_app. split; [subst q; lia|]. split; [by left|left; done].
Qed.

Lemma dragon_digits_ok flags nd exp10 d : dragon_ok d -> value (numerator d) < 10 * value (denominator d) ->
  let w := exp10 - (nd - 1) in
  exists text x, dragon_digits flags nd exp10 d = Ok (text, x) /\ Forall is_digit text /\
    dval text * 10 ^ (x - w) = rhe (value (numerator d) * 10 ^ Z.max (nd - 1) 0) (value (denominator d) * 10 ^ Z.max (1 - nd) 0) /\
    (x = w \/ has_flag flags fixed = false /\ x = w + 1) /\ (zlen text = Z.max nd 1 \/ has_flag flags fixed = true /\ zlen text = Z.max nd 1 + 1).
Proof.
  intros Hd Hlt w. pose proof (value_pos _ (den_wf d Hd)) as Hp. pose proof (canonical_ok _ _ (num_ok d Hd)) as (On & En & Hn0). unfold dragon_digits. fold w.
  destruct (Z.leb_spec nd 0) as [Hle|Hgt].
  - replace (Z.max (nd - 1) 0) with 0 by lia. rewrite Z.pow_0_r, Z.mul_1_r. destruct (Z.eqb_spec nd 0) as [->|Hne].
    + destruct (canonical_times10 (exp_ (denominator d)) (denominator d) ltac:(left; apply Hd)) as (r & -> & _ & Vr & Er & Hr). cbn [obind]. specialize (Hr (den_wf d Hd)).
      assert (Hac : add_compare (numerator d) (numerator d) r = Z.sgn (2 * value (numerator d) - value r)).
      { assert (Hna : not_above r (numerator d)).
        { destruct (num_ok d Hd) as [H|[E H]]; [by left|right]. split; [unfold value; rewrite E; done|]. unfold num_bigits. rewrite E. destruct (normal_bound _ (proj1 Hr)). change (zlen [0]) with 1. lia. }
        rewrite add_compare_ok; try done; [f_equal; lia|apply Hr|apply Hr]. }
      rewrite Hac. eexists _, _. split; [reflexivity|]. change (10 ^ Z.max (1 - 0) 0) with 10. rewrite rhe_small by lia. rewrite Vr, Z.sub_diag, Z.mul_1_r.
      replace (0 <? Z.sgn (2 * value (numerator d) - 10 * value (denominator d))) with (value (denominator d) * 10 <? 2 * value (numerator d)) by (apply Bool.eq_iff_eq_true; rewrite !Z.ltb_lt; lia).
      destruct (value (denominator d) * 10 <? 2 * value (numerator d)); (split; [constructor; [red; lia|constructor]|]); (split; [reflexivity|]); (split; [by left|left; reflexivity]).
    + eexists _, _. split; [reflexivity|]. split; [constructor; [red; lia|constructor]|]. rewrite Z.sub_diag.
      assert (H100 : 10 ^ 2 <= 10 ^ Z.max (1 - nd) 0) by (apply Z.pow_le_mono_r; lia). change (10 ^ 2) with 100 in H100.
      rewrite rhe_small by nia. rewrite (proj2 (Z.ltb_ge _ _)) by nia. split; [reflexivity|]. split; [by left|]. left. change (zlen [48]) with 1. lia.
  - replace (Z.max (1 - nd) 0) with 0 by lia. replace (Z.max (nd - 1) 0) with (nd - 1) by lia. rewrite Z.pow_0_r, Z.mul_1_r.
    destruct (digits_loop_ok (Z.to_nat (nd - 1)) d [] Hd Hlt) as (digs & r & -> & Hr & Hlen & Hdg & Hlt' & Hv). rewrite Z2Nat.id in Hv by lia. cbn [obind].
    destruct (divmod_digit _ Hr Hlt') as (r2 & E2 & V2 & Hr2). rewrite E2. cbn [obind app]. simpl in V2. cbn [numerator denominator set_numerator] in *.
    pose proof (half_compare _ Hr2) as Hc. cbn [numerator denominator set_numerator] in Hc. rewrite Hc. clear Hc E2.
    pose proof (canonical_ok _ _ (num_ok _ Hr)) as (_ & _ & Hr0). cbn [numerator set_numerator] in Hr0.
    set (digit := value r / value (denominator d)) in *. pose proof (Z.div_mod (value r) (value (denominator d)) ltac:(lia)) as Hdm. fold digit in Hdm.
    pose proof (Z.mod_pos_bound (value r) (value (denominator d)) Hp) as Hmb. rewrite <- V2 in Hdm, Hmb.
    assert (Hq : 0 <= digit <= 9) by (split; [apply Z.div_pos; lia|apply Z.lt_succ_r, Z.div_lt_upper_bound; lia]).
    replace (value (numerator d) * 10 ^ (nd - 1)) with ((10 * dval digs + digit) * value (denominator d) + value r2) by lia.
    rewrite rhe_of by done. replace ((10 * dval digs + digit) mod 2) with (digit mod 2) by (rewrite <- (Z.mod_add digit (5 * dval digs) 2) by lia; f_equal; lia).
    destruct (last_digit_ok flags digs digit ((0 <? Z.sgn (2 * value r2 - value (denominator d))) || ((Z.sgn (2 * value r2 - value (denominator d)) =? 0) && negb (digit mod 2 =? 0))) w Hdg Hq) as (text & x & E & Ht & Hval & Hx & Hz).
    rewrite Hlen in E. exists text, x. split; [exact E|]. split; [done|]. split; [done|]. split; [done|]. unfold zlen in *. rewrite Hlen in Hz. lia.
Qed.

(** ** The start *)

Definition shift_of (closer : bool) : Z := if closer then 2 else 1.

(** The bounds: [upper] is a number of its own, twice [lower], only where the predecessor is closer. *)
Definition bounds_ok (closer : bool) (d : dragon) : Prop :=
  wf (lower d) /\ (if closer then exists u, upper_store d = Some u /\ wf u /\ value u = 2 * value (lower d) else upper_store d = None).

(** A power of ten with a large exponent of two has a large odd factor. *)
Lemma pow10_factor x n m : 0 <= n -> 0 <= m -> x * 2 ^ n = 10 ^ m -> 0 < x < 2 ^ 64 -> n <= 27.
Proof.
  intros Hn Hm E Hx. change 10 with (2 * 5) in E. rewrite Z.pow_mul_l in E. assert (H5 : 0 < 5 ^ m) by (apply Z.pow_pos_nonneg; lia).
  assert (Hnm : n <= m).
  { destruct (Z.le_gt_cases n m); [done|exfalso]. replace n with ((n - m - 1) + 1 + m) in E by lia. rewrite !Z.pow_add_r in E by lia.
    assert (H2 : 0 < 2 ^ m) by (apply Z.pow_pos_nonneg; lia). assert (E5 : 5 ^ m = x * 2 ^ (n - m - 1) * 2) by nia.
    apply (f_equal Z.even) in E5. rewrite Z.even_mul, orb_true_r in E5. destruct (Z.eq_dec m 0) as [->|Hm0]; [done|]. by rewrite Z.even_pow in E5 by lia. }
  apply Z.nlt_ge. intros Hgt. replace m with ((m - n) + n) in E at 1 by lia. rewrite Z.pow_add_r in E by lia.
  assert (H2 : 0 < 2 ^ n) by (apply Z.pow_pos_nonneg; lia). assert (H3 : 0 < 2 ^ (m - n)) by (apply Z.pow_pos_nonneg; lia). assert (Ex : x = 2 ^ (m - n) * 5 ^ m) by nia.
  assert (Hbig : 5 ^ 28 <= 5 ^ m) by (apply Z.pow_le_mono_r; lia). assert (2 ^ 64 < 5 ^ 28) by reflexivity. nia.
Qed.

Lemma set_to_ok n : 0 < n < 2 ^ 128 -> set_to n = Ok (assign n) /\ wf (assign n) /\ value (assign n) = n /\ exp_ (assign n) = 0.
Proof. intros Hn. unfold set_to. rewrite (proj2 (Z.ltb_lt 0 n)) by lia. destruct (assign_ok n Hn). done. Qed.

Ltac set_step n := let H := fresh in destruct (set_to_ok n ltac:(lia)) as (H & ? & ? & ?); rewrite H; clear H; cbn [obind].
Ltac shift_step s b := let r := fresh "r" in let H := fresh in destruct (shift_left_ok s b ltac:(lia) ltac:(assumption)) as (r & H & ? & ? & ?); rewrite H; clear H; cbn [obind outcome_map].
Ltac pow10_step x := let r := fresh "p" in let H := fresh in destruct (assign_pow10_ok x ltac:(lia)) as (r & H & ? & ? & ?); rewrite H; clear H; cbn [obind].

Lemma start_case1 v (closer : bool) k : 0 < f v < 2 ^ 64 -> 0 <= e v < 2 ^ 30 -> 0 <= k < 2 ^ 30 ->
  exists d, dragon_start v closer k = Ok d /\ dragon_ok d /\ bounds_ok closer d /\
    value (numerator d) = f v * 2 ^ (e v) * 2 ^ shift_of closer /\ value (denominator d) = 10 ^ k * 2 ^ shift_of closer /\ value (lower d) = 2 ^ e v.
Proof.
  intros Hf He Hk. unfold dragon_start. rewrite (proj2 (Z.leb_le 0 (e v))) by lia. fold (shift_of closer). assert (Hs : 1 <= shift_of closer <= 2) by (destruct closer; simpl; lia).
  set_step (f v). shift_step (e v + shift_of closer) (assign (f v)). set_step 1. shift_step (e v) (assign 1).
  assert (Hok : forall p r1, wf p -> wf r1 -> value p = 10 ^ k -> value r1 = value p * 2 ^ shift_of closer -> exp_ r1 = exp_ p + shift_of closer / 32 ->
    forall u, dragon_ok (mkdragon r r1 r0 u)).
  { intros p r1 Hp Hr1 Vp V1 E1 u. split; cbn [numerator denominator]; [done|by left|]. intros j Hj Hv. rewrite E1.
    replace (exp_ r) with ((e v + shift_of closer) / 32) by lia. replace (shift_of closer / 32) with 0 by (symmetry; apply Z.div_small; lia).
    rewrite V1, Vp in Hv. replace (value r) with (f v * 2 ^ e v * 2 ^ shift_of closer) in Hv by (rewrite <- Z.mul_assoc, <- Z.pow_add_r by lia; congruence).
    assert (Hps : 0 < 2 ^ shift_of closer) by (apply Z.pow_pos_nonneg; lia). assert (Hv' : f v * 2 ^ e v * 10 ^ j = 10 ^ k) by nia.
    assert (Hjk : j <= k). { apply Z.nlt_ge. intros Hlt. pose proof (Z.pow_lt_mono_r 10 k j ltac:(lia) ltac:(lia) Hlt). pose proof (Z.pow_pos_nonneg 2 (e v) ltac:(lia) ltac:(lia)).
      pose proof (Z.pow_pos_nonneg 10 k ltac:(lia) ltac:(lia)). assert (HX : 1 <= f v * 2 ^ e v) by nia. set (X := f v * 2 ^ e v) in *. set (J := 10 ^ j) in *. nia. }
    assert (Hm : f v * 2 ^ e v = 10 ^ (k - j)).
    { replace k with ((k - j) + j) in Hv' by lia. rewrite Z.pow_add_r in Hv' by lia. pose proof (Z.pow_pos_nonneg 10 j ltac:(lia) Hj). nia. }
    pose proof (pow10_factor (f v) (e v) (k - j) ltac:(lia) ltac:(lia) Hm Hf). rewrite Z.div_small by lia. destruct Hp. lia. }
  destruct closer; cbn [shift_of] in *; [shift_step (e v + 1) (assign 1)|cbn [obind]]; pow10_step k.
  - shift_step 2 p. eexists. split; [reflexivity|]. split; [by apply (Hok p)|]. split; [split; [done|]; eexists; split; [reflexivity|]; split; [done|]|].
    + cbn [lower]. match goal with H : value r0 = _ |- _ => rewrite H end. match goal with H : value r1 = _ |- _ => rewrite H end. rewrite Z.pow_add_r by lia. lia.
    + cbn [numerator denominator lower]. split_and!; [rewrite <- Z.mul_assoc, <- Z.pow_add_r by lia; congruence|congruence|lia].
  - shift_step 1 p. eexists. split; [reflexivity|]. split; [by apply (Hok p)|]. split; [by split|].
    cbn [numerator denominator lower]. split_and!; [rewrite <- Z.mul_assoc, <- Z.pow_add_r by lia; congruence|congruence|lia].
Qed.

Lemma pow2_mod_5 n : 0 <= n -> 2 ^ n mod 5 <> 0.
Proof.
  revert n. apply (natlike_ind (fun n => 2 ^ n mod 5 <> 0)); [done|]. intros n Hn IH. rewrite Z.pow_succ_r by done. Z.div_mod_to_equations. lia.
Qed.

Lemma start_case2 v (closer : bool) k : 0 < f v < 2 ^ 64 -> - 2 ^ 30 < e v < 0 -> - 2 ^ 30 < k < 0 ->
  exists d, dragon_start v closer k = Ok d /\ dragon_ok d /\ bounds_ok closer d /\
    value (numerator d) = f v * 10 ^ (- k) * 2 ^ shift_of closer /\ value (denominator d) = 2 ^ (- e v) * 2 ^ shift_of closer /\ value (lower d) = 10 ^ (- k).
Proof.
  intros Hf He Hk. unfold dragon_start. rewrite (proj2 (Z.leb_gt 0 (e v))), (proj2 (Z.ltb_lt k 0)) by lia. fold (shift_of closer). assert (Hs : 1 <= shift_of closer <= 2) by (destruct closer; simpl; lia).
  pow10_step (- k). unfold assign_bigint. cbv zeta.
  assert (Hu : exists u, (if closer then outcome_map Some (shift_left 1 p) else Ok None) = Ok u /\ if closer then exists y, u = Some y /\ wf y /\ value y = 2 * value p else u = None).
  { destruct closer; [|by exists None]. shift_step 1 p. eexists. split; [done|]. eexists. split; [done|]. split; [done|lia]. }
  destruct Hu as (u & -> & Hu). cbn [obind]. destruct (multiply_wide_ok 128 ltac:(by right) (f v) p ltac:(lia) ltac:(done)) as (Hm & Vm & Em).
  unfold times128. rewrite (proj2 (Z.ltb_lt 0 (f v))) by lia. cbn [obind]. shift_step (shift_of closer) (multiply_wide 128 (f v) p). set_step 1. shift_step (shift_of closer - e v) (assign 1).
  assert (Vn : value r = f v * 10 ^ (- k) * 2 ^ shift_of closer) by (match goal with H : value r = _ |- _ => rewrite H end; rewrite Vm; match goal with H : value p = _ |- _ => rewrite H end; ring).
  assert (Vd : value r0 = 2 ^ (- e v) * 2 ^ shift_of closer) by (match goal with H : value r0 = _ |- _ => rewrite H end; rewrite <- Z.pow_add_r by lia; match goal with H : value (assign 1) = _ |- _ => rewrite H end; rewrite Z.mul_1_l; f_equal; lia).
  eexists. split; [reflexivity|]. split; [|split; [split; [done|]|by split_and!]].
  - split; cbn [numerator denominator]; [done|by left|]. intros j Hj Hv. exfalso. rewrite Vn, Vd in Hv. assert (Hps : 0 < 2 ^ shift_of closer) by (apply Z.pow_pos_nonneg; lia).
    assert (Hv' : f v * 10 ^ (- k + j) = 2 ^ (- e v)) by (rewrite Z.pow_add_r by lia; nia). change 10 with (2 * 5) in Hv'. rewrite Z.pow_mul_l in Hv'.
    assert (Hd : (5 | 2 ^ (- e v))). { rewrite <- Hv'. apply Z.divide_mul_r, Z.divide_mul_r. exists (5 ^ (- k + j - 1)). rewrite Z.mul_comm, <- Z.pow_succ_r by lia. f_equal. lia. }
    apply Z.mod_divide in Hd; [|lia]. by apply (pow2_mod_5 (- e v)) in Hd; [|lia].
  - destruct closer; [|done]. destruct Hu as (y & -> & Hy & Vy). by exists y.
Qed.

Lemma start_case3 v (closer : bool) k : 0 < f v < 2 ^ 64 -> - 2 ^ 30 < e v < 0 -> 0 <= k < 2 ^ 30 ->
  exists d, dragon_start v closer k = Ok d /\ dragon_ok d /\ bounds_ok closer d /\
    value (numerator d) = f v * 2 ^ shift_of closer /\ value (denominator d) = 2 ^ (- e v) * 10 ^ k * 2 ^ shift_of closer /\ value (lower d) = 1.
Proof.
  intros Hf He Hk. unfold dragon_start. rewrite (proj2 (Z.leb_gt 0 (e v))), (proj2 (Z.ltb_ge k 0)) by lia. fold (shift_of closer). assert (Hs : 1 <= shift_of closer <= 2) by (destruct closer; simpl; lia).
  set_step (f v). shift_step (shift_of closer) (assign (f v)). pow10_step k. shift_step (shift_of closer - e v) p. set_step 1.
  assert (Hu : exists u, (if closer then outcome_map Some (set_to (Z.shiftl 1 1)) else Ok None) = Ok u /\ if closer then exists y, u = Some y /\ wf y /\ value y = 2 * value (assign 1) else u = None).
  { destruct closer; [|by exists None]. change (Z.shiftl 1 1) with 2. destruct (set_to_ok 2 ltac:(lia)) as (E2 & ? & ? & ?). rewrite E2. eexists. split; [done|]. eexists. split; [done|]. split; [done|lia]. }
  destruct Hu as (u & -> & Hu). cbn [obind]. assert (Vd : value r0 = 2 ^ (- e v) * 10 ^ k * 2 ^ shift_of closer).
  { match goal with H : value r0 = _ |- _ => rewrite H end. match goal with H : value p = _ |- _ => rewrite H end. replace (shift_of closer - e v) with (- e v + shift_of closer) by lia. rewrite Z.pow_add_r by lia. ring. }
  eexists. split; [reflexivity|]. split; [|split; [split; [done|]|cbn [numerator denominator lower]; split_and!; try done; congruence]].
  - split; cbn [numerator denominator]; [done|by left|]. intros j Hj Hv. assert (exp_ r = 0) as -> by (match goal with H : exp_ r = _ |- _ => rewrite H end; rewrite Z.div_small by lia; lia). by match goal with H : wf r0 |- _ => destruct H end.
  - destruct closer; [|done]. destruct Hu as (y & -> & Hy & Vy). by exists y.
Qed.

Lemma dragon_start_ok v (closer : bool) k : 0 < f v < 2 ^ 64 -> - 2 ^ 30 < e v < 2 ^ 30 -> - 2 ^ 30 < k < 2 ^ 30 -> (0 <= e v -> 0 <= k) ->
  exists d, dragon_start v closer k = Ok d /\ dragon_ok d /\ bounds_ok closer d /\
    value (numerator d) = f v * 2 ^ Z.max (e v) 0 * p10 (- k) * 2 ^ shift_of closer /\
    value (denominator d) = 2 ^ Z.max (- e v) 0 * p10 k * 2 ^ shift_of closer /\ value (lower d) = 2 ^ Z.max (e v) 0 * p10 (- k).
Proof.
  intros Hf He Hk Hek. unfold p10. destruct (Z.lt_ge_cases (e v) 0) as [Hneg|Hpos]; [destruct (Z.lt_ge_cases k 0) as [Hkn|Hkp]|].
  - destruct (start_case2 v closer k Hf ltac:(lia) ltac:(lia)) as (d & E & Hd & Hb & V1 & V2 & V3). exists d. rewrite V1, V2, V3.
    replace (Z.max (e v) 0) with 0 by lia. replace (Z.max k 0) with 0 by lia. replace (Z.max (- k) 0) with (- k) by lia. replace (Z.max (- e v) 0) with (- e v) by lia. split_and!; try done; lia.
  - destruct (start_case3 v closer k Hf ltac:(lia) ltac:(lia)) as (d & E & Hd & Hb & V1 & V2 & V3). exists d. rewrite V1, V2, V3.
    replace (Z.max (e v) 0) with 0 by lia. replace (Z.max k 0) with k by lia. replace (Z.max (- k) 0) with 0 by lia. replace (Z.max (- e v) 0) with (- e v) by lia. split_and!; try done; lia.
  - destruct (start_case1 v closer k Hf ltac:(lia) ltac:(lia)) as (d & E & Hd & Hb & V1 & V2 & V3). exists d. rewrite V1, V2, V3.
    replace (Z.max (e v) 0) with (e v) by lia. replace (Z.max k 0) with k by lia. replace (Z.max (- k) 0) with 0 by lia. replace (Z.max (- e v) 0) with 0 by lia. split_and!; try done; lia.
Qed.

(** ** Correct rounding *)
Lemma upper_wf (closer : bool) d : bounds_ok closer d -> wf (upper d) /\ value (upper d) = (if closer then 2 else 1) * value (lower d).
Proof.
  intros [Hl Hu]. unfold upper. destruct closer; [destruct Hu as (u & -> & Hu & Vu); simpl; by split|]. rewrite Hu. simpl. split; [done|lia].
Qed.

Lemma upper_compare (closer : bool) d : dragon_ok d -> bounds_ok closer d ->
  add_compare (numerator d) (upper d) (denominator d) = Z.sgn (value (numerator d) + value (upper d) - value (denominator d)).
Proof.
  intros Hd Hb. pose proof (not_above_num d Hd) as Ha. destruct (upper_wf closer d Hb) as [Hu _]. destruct Hd as [Hd Hn He]. pose proof (canonical_ok _ _ Hn) as (On & En & _).
  apply add_compare_ok; try done; [apply Hu|apply Hd|apply Hu|apply Hd|by left].
Qed.

(** The correction of the exponent, for a number of digits that is given. *)
Lemma dragon_fixup_ok flags even nd k (closer : bool) d : dragon_ok d -> bounds_ok closer d -> value (numerator d) < 10 * value (denominator d) -> 0 <= even <= 1 -> 0 <= nd < 2 ^ 30 -> - 2 ^ 30 < k < 2 ^ 30 ->
  exists t n', dragon_fixup flags even nd k d = Ok (set_numerator n' d, (if has_flag flags fixup && has_flag flags fixed then nd + (k - t) + 1 else nd), k - t) /\
    dragon_ok (set_numerator n' d) /\ value n' = value (numerator d) * 10 ^ t /\ value n' < 10 * value (denominator d) /\ (t = 0 \/ t = 1 /\ has_flag flags fixup = true).
Proof.
  intros Hd Hb Hlt Heven Hnd Hk. unfold dragon_fixup. assert (Hself : set_numerator (numerator d) d = d) by (by destruct d).
  destruct (has_flag flags fixup); cbn [andb]; [|exists 0, (numerator d); rewrite Hself, Z.sub_0_r; split_and!; try done; [lia|by left]].
  rewrite (upper_compare closer) by done. destruct (upper_wf closer d Hb) as [Hu _]. pose proof (value_pos _ Hu) as Hup.
  assert (Hadj : forall t, 0 <= t <= 1 -> (let? num_digits := (if has_flag flags fixed then adjust_precision nd (k - t + 1) else Ok nd) in Ok num_digits) = Ok (if has_flag flags fixed then nd + (k - t) + 1 else nd)).
  { intros t Ht. destruct (has_flag flags fixed); [|done]. unfold adjust_precision, max_int. rewrite (proj2 (Z.ltb_ge _ nd)) by lia. rewrite andb_false_r. cbn [obind]. f_equal. lia. }
  destruct (Z.leb_spec (Z.sgn (value (numerator d) + value (upper d) - value (denominator d)) + even) 0) as [Hle|Hgt].
  - destruct (times10_ok d Hd) as (n & -> & Hn & Vn). cbn [obind]. rewrite (proj2 (Z.ltb_ge nd 0)) by lia. cbn [obind]. specialize (Hadj 1 ltac:(lia)).
    destruct (if has_flag flags fixed then adjust_precision nd (k - 1 + 1) else Ok nd); cbn [obind] in *; [|done..]. injection Hadj as ->.
    exists 1, n. split_and!; try done; [lia|lia|by right].
  - cbn [obind]. specialize (Hadj 0 ltac:(lia)). rewrite !Z.sub_0_r in *. destruct (if has_flag flags fixed then adjust_precision nd (k + 1) else Ok nd); cbn [obind] in *; [|done..]. injection Hadj as ->.
    exists 0, (numerator d). rewrite Hself, Z.sub_0_r. split_and!; try done; [lia|by left].
Qed.

Lemma dragon_rounds fuel v flags nd k : 0 < f v < 2 ^ 64 -> - 2 ^ 30 < e v < 2 ^ 30 -> - 2 ^ 30 < k < 2 ^ 30 -> 0 <= nd < 2 ^ 30 ->
  f v * 2 ^ Z.max (e v) 0 * p10 (- k) < 10 * (2 ^ Z.max (- e v) 0 * p10 k) ->
  exists text x w t, format_dragon fuel v flags nd k = Ok (text, x) /\ Forall is_digit text /\
    dval text * 10 ^ (x - w) = round_at v w /\ (x = w \/ has_flag flags fixed = false /\ x = w + 1) /\
    (t = 0 \/ t = 1 /\ has_flag flags fixup = true) /\ w = (if has_flag flags fixup && has_flag flags fixed then - nd else k - t - nd + 1) /\
    (has_flag flags fixup = false -> zlen text <= Z.max nd 1 + 1).
Proof.
  intros Hf He Hk Hnd Hv. pose proof (p10_pos k) as Pk. pose proof (p10_pos (- k)) as Pk'. assert (Hek : 0 <= e v -> 0 <= k).
  { intros H. apply Z.nlt_ge. intros Hneg. replace (Z.max (- e v) 0) with 0 in Hv by lia. unfold p10 in Hv. replace (Z.max k 0) with 0 in Hv by lia.
    pose proof (Z.pow_le_mono_r 10 1 (Z.max (- k) 0) ltac:(lia) ltac:(lia)) as H10. pose proof (Z.pow_pos_nonneg 2 (Z.max (e v) 0) ltac:(lia) ltac:(lia)) as H2.
    change (10 ^ 1) with 10 in H10. assert (1 <= f v * 2 ^ Z.max (e v) 0) by nia. rewrite !Z.pow_0_r in Hv. set (X := f v * 2 ^ Z.max (e v) 0) in *. nia. }
  set (closer := has_flag flags predecessor_closer). destruct (dragon_start_ok v closer k Hf He Hk Hek) as (d & Es & Hd & Hb & Vn & Vd & Vl).
  unfold format_dragon. fold closer. rewrite Es. cbn [obind]. set (P := f v * 2 ^ Z.max (e v) 0) in *. set (G := 2 ^ Z.max (- e v) 0) in *. set (S := 2 ^ shift_of closer) in *.
  assert (HS : 0 < S) by (apply Z.pow_pos_nonneg; [lia|]; destruct closer; simpl; lia). assert (HG : 0 < G) by (apply Z.pow_pos_nonneg; lia).
  assert (HP : 0 < P) by (subst P; pose proof (Z.pow_pos_nonneg 2 (Z.max (e v) 0) ltac:(lia) ltac:(lia)); nia).
  destruct (dragon_fixup_ok flags (Z.b2z (Z.land (f v) 1 =? 0)) nd k closer d Hd Hb) as (t & n' & -> & Hd' & Vn' & Hlt' & Ht); [rewrite Vn, Vd; nia|destruct (Z.land (f v) 1 =? 0); simpl; lia|done|done|].
  cbn [obind]. rewrite (proj2 (Z.ltb_ge nd 0)) by lia. set (nd' := if has_flag flags fixup && has_flag flags fixed then nd + (k - t) + 1 else nd).
  destruct (dragon_digits_ok flags nd' (k - t) _ Hd' Hlt') as (text & x & E & Hdg & Hval & Hx & Hz). exists text, x, (k - t - (nd' - 1)), t. rewrite E.
  split; [done|]. split; [done|]. split; [|split; [done|]; split; [done|]; split; [subst nd'; destruct (_ && _); lia|intros Hfu; subst nd'; rewrite Hfu in Hz; cbn [andb] in Hz; lia]].
  rewrite Hval. cbn [numerator denominator set_numerator]. rewrite Vn', Vn, Vd. unfold round_at. fold P G. clear Hval E Hx Hlt' Hd' Vn'. assert (Ht01 : 0 <= t <= 1) by lia.
  apply rhe_ratio; [|pose proof (p10_pos (k - t - (nd' - 1))); nia|].
  - pose proof (Z.pow_pos_nonneg 10 (Z.max (1 - nd') 0) ltac:(lia) ltac:(lia)). repeat apply Z.mul_pos_pos; done.
  - assert (Hpow : p10 (- k) * 10 ^ t * 10 ^ Z.max (nd' - 1) 0 * p10 (k - t - (nd' - 1)) = p10 (- (k - t - (nd' - 1))) * (p10 k * 10 ^ Z.max (1 - nd') 0)) by (unfold p10; rewrite <- !Z.pow_add_r by lia; f_equal; lia).
    transitivity (P * S * G * (p10 (- k) * 10 ^ t * 10 ^ Z.max (nd' - 1) 0 * p10 (k - t - (nd' - 1)))); [ring|]. rewrite Hpow. ring.
Qed.

(** The digits [format_dragon] writes are the number rounded correctly: for
    [f * 2 ^ e < 10 ^ (exp10 + 1)] and a number of digits asked for, the call returns a text of digits and an exponent
    [x] so that the text times [10 ^ x] is the number in units of [10 ^ w], rounded half to even.  [w]
    is the position of the last digit: [- num_digits] in the fixed notation, and
    [exp10 - num_digits + 1], or one less where the exponent was corrected, otherwise. A carry out of the first
    digit shows in [x] or, in the fixed notation, as a digit more. *)
Theorem format_dragon_rounds fuel v flags nd k : 0 < f v < 2 ^ 64 -> - 2 ^ 30 < e v < 2 ^ 30 -> - 2 ^ 30 < k < 2 ^ 30 -> 0 <= nd < 2 ^ 30 ->
  f v * 2 ^ Z.max (e v) 0 * p10 (- k) < 10 * (2 ^ Z.max (- e v) 0 * p10 k) ->
  exists text x w t, format_dragon fuel v flags nd k = Ok (text, x) /\ Forall is_digit text /\
    dval text * 10 ^ (x - w) = round_at v w /\ (x = w \/ has_flag flags fixed = false /\ x = w + 1) /\
    (t = 0 \/ t = 1 /\ has_flag flags fixup = true) /\ w = (if has_flag flags fixup && has_flag flags fixed then - nd else k - t - nd + 1).
Proof.
  intros Hf He Hk Hnd Hv. destruct (dragon_rounds fuel v flags nd k Hf He Hk Hnd Hv) as (text & x & w & t & H). exists text, x, w, t. tauto.
Qed.

Lemma format_dragon_rounds_witness : exists text x w t, format_dragon 0 (mkfp 0x1999999999999a (-56)) 0 17 (-1) = Ok (text, x) /\ Forall is_digit text /\
    dval text * 10 ^ (x - w) = round_at (mkfp 0x1999999999999a (-56)) w /\ (x = w \/ has_flag 0 fixed = false /\ x = w + 1) /\
    (t = 0 \/ t = 1 /\ has_flag 0 fixup = true) /\ w = (if has_flag 0 fixup && has_flag 0 fixed then - 17 else -1 - t - 17 + 1).
Proof. apply (format_dragon_rounds 0 (mkfp 0x1999999999999a (-56)) 0 17 (-1)); cbn [f e]; try lia. vm_compute. reflexivity. Defined.

(** One tenth with 20 digits, the shortest digits of the largest double, and a carry out of
    the first digit with and without the fixed notation. *)
Example dragon_texts :
  format_dragon 0 (fst (fp_assign binary64 0x3fb999999999999a)) 0 20 (-1) = Ok (chars "10000000000000000555", -20) /\
  format_dragon 20 (fst (fp_assign binary64 0x7fefffffffffffff)) fixup (-1) 309 = Ok (chars "17976931348623157", 292) /\
  format_dragon 20 (fst (fp_assign binary32 0x00000001)) fixup (-1) (-44) = Ok (chars "1", -45) /\
  format_dragon 0 (mkfp 999 0) 0 2 2 = Ok (chars "10", 2) /\ format_dragon 0 (mkfp 999 0) fixed 2 2 = Ok (chars "100", 1).
Proof. vm_compute. done. Qed.
