(* ===== verification/FmtDragonbox.v ===== *)
(** * fmt: the shortest decimal (dragonbox::to_decimal of format-inl.h)

    [to_decimal] turns the bits of a float or a double into a significand and an
    exponent of ten, the shortest that is read back as the same number.  It
    multiplies by a rounded power of ten of [FmtPow10]; every shift is
    checked against the width of its type. *)

From S2P Require Import Prelude Machine FmtInt FmtWide FmtPow10 FmtBigint FmtDragon.
Local Open Scope outcome_scope.

(** ** The products with a cached power *)

(** What [cache_accessor] computes from one entry of the cache. *)
Record cache_accessor := mkcache {
  compute_mul : Z -> Z * bool;
  compute_delta : Z -> outcome Z;
  compute_mul_parity : Z -> Z -> outcome (bool * bool);
  compute_left_endpoint : Z -> outcome Z;
  compute_right_endpoint : Z -> outcome Z;
  compute_round_up : Z -> outcome Z }.

(** [cache_accessor<float>]. *)
Definition float_compute_mul (cache u : Z) : Z * bool :=
  let r := umul96_upper64 u cache in (u32 (Z.shiftr r 32), u32 r =? 0).
Definition float_compute_delta (cache beta : Z) : outcome Z := outcome_map u32 (shr64 cache (64 - 1 - beta)).
Definition float_compute_mul_parity (cache two_f beta : Z) : outcome (bool * bool) :=
  if (1 <=? beta) && (beta <? 64) then
    let r := umul96_lower64 two_f cache in
    let? p := shr64 r (64 - beta) in
    let? q := shr64 r (32 - beta) in
    Ok (negb (Z.land p 1 =? 0), u32 q =? 0)
  else Undef.
Definition float_compute_left_endpoint (cache beta : Z) : outcome Z :=
  outcome_map u32 (shr64 (u64 (cache - Z.shiftr cache (23 + 2))) (64 - 23 - 1 - beta)).
Definition float_compute_right_endpoint (cache beta : Z) : outcome Z :=
  outcome_map u32 (shr64 (u64 (cache + Z.shiftr cache (23 + 1))) (64 - 23 - 1 - beta)).
Definition float_compute_round_up (cache beta : Z) : outcome Z :=
  outcome_map (fun x => u32 (u32 x + 1) / 2) (shr64 cache (64 - 23 - 2 - beta)).
Definition float_cache_accessor (cache : Z) : cache_accessor :=
  mkcache (float_compute_mul cache) (float_compute_delta cache) (float_compute_mul_parity cache)
    (float_compute_left_endpoint cache) (float_compute_right_endpoint cache) (float_compute_round_up cache).

(** [cache_accessor<double>]. *)
Definition double_compute_mul (cache : uint128_fallback) (u : Z) : Z * bool :=
  let r := umul192_upper128 u cache in (high r, low r =? 0).
Definition double_compute_delta (cache : uint128_fallback) (beta : Z) : outcome Z := outcome_map u32 (shr64 (high cache) (64 - 1 - beta)).
Definition double_compute_mul_parity (cache : uint128_fallback) (two_f beta : Z) : outcome (bool * bool) :=
  if (1 <=? beta) && (beta <? 64) then
    let r := umul192_lower128 two_f cache in
    let? p := shr64 (high r) (64 - beta) in
    let? h := shl64 (high r) beta in
    let? l := shr64 (low r) (64 - beta) in
    Ok (negb (Z.land p 1 =? 0), Z.lor h l =? 0)
  else Undef.
Definition double_compute_left_endpoint (cache : uint128_fallback) (beta : Z) : outcome Z :=
  shr64 (u64 (high cache - Z.shiftr (high cache) (52 + 2))) (64 - 52 - 1 - beta).
Definition double_compute_right_endpoint (cache : uint128_fallback) (beta : Z) : outcome Z :=
  shr64 (u64 (high cache + Z.shiftr (high cache) (52 + 1))) (64 - 52 - 1 - beta).
Definition double_compute_round_up (cache : uint128_fallback) (beta : Z) : outcome Z :=
  outcome_map (fun x => u64 (x + 1) / 2) (shr64 (high cache) (64 - 52 - 2 - beta)).
Definition double_cache_accessor (cache : uint128_fallback) : cache_accessor :=
  mkcache (double_compute_mul cache) (double_compute_delta cache) (double_compute_mul_parity cache)
    (double_compute_left_endpoint cache) (double_compute_right_endpoint cache) (double_compute_round_up cache).

(** ** The two types *)

(** [float_info] with what the algorithm calls for the type. *)
Record float_info := mkinfo {
  format_ : float_format;
  carrier_bits : Z;
  kappa : Z;
  big_divisor : Z;
  small_divisor : Z;
  tie_lower_threshold : Z;
  tie_upper_threshold : Z;
  min_exponent : Z;
  accessor : Z -> outcome cache_accessor;
  divide_by_10_to_kappa_plus_1 : Z -> Z;
  remove_trailing_zeros : Z -> outcome (Z * Z) }.

Definition float_float_info : float_info :=
  mkinfo binary32 32 1 100 10 (-35) (-35) (-125) (fun k => outcome_map float_cache_accessor (get_cached_power_float k)) divide_by_100 (fun n => remove_trailing_zeros32 n 0).
Definition double_float_info : float_info :=
  mkinfo binary64 64 2 1000 100 (-77) (-77) (-1021) (fun k => outcome_map double_cache_accessor (get_cached_power k)) divide_by_1000 remove_trailing_zeros64.

Section to_decimal.
Context (T : float_info).
Local Notation w := (carrier_bits T).

Definition is_left_endpoint_integer_shorter_interval (exponent : Z) : bool := (2 <=? exponent) && (exponent <=? 3).

(** The end of both cases: the zeros at the end move to the exponent. *)
Definition strip_zeros (significand exponent : Z) : outcome (Z * Z) :=
  let? '(n, s) := remove_trailing_zeros T significand in Ok (n, exponent + s).

Definition shorter_interval_case (exponent : Z) : outcome (Z * Z) :=
  let? minus_k := floor_log10_pow2_minus_log10_4_over_3 exponent in
  let? l := floor_log2_pow10 (- minus_k) in
  let beta := exponent + l in
  let? cache := accessor T (- minus_k) in
  let? xi := compute_left_endpoint cache beta in
  let? zi := compute_right_endpoint cache beta in
  let xi := if negb (is_left_endpoint_integer_shorter_interval exponent) then wrap w (xi + 1) else xi in
  let significand := zi / 10 in
  if xi <=? wrap w (significand * 10) then strip_zeros significand (minus_k + 1)
  else
    let? significand := compute_round_up cache beta in
    let significand :=
      if (tie_lower_threshold T <=? exponent) && (exponent <=? tie_upper_threshold T) then
        if significand mod 2 =? 0 then significand else significand - 1
      else if significand <? xi then wrap w (significand + 1) else significand in
    Ok (significand, minus_k).

(** Step 3, from [small_divisor_case_label]. *)
Definition small_divisor_case (cache : cache_accessor) (beta minus_k two_fc deltai r significand : Z) : outcome (Z * Z) :=
  let significand := wrap w (significand * 10) in
  let exponent := minus_k + kappa T in
  let dist := u32 (r - deltai / 2 + small_divisor T / 2) in
  let approx_y_parity := negb (Z.land (Z.lxor dist (small_divisor T / 2)) 1 =? 0) in
  let? '(divisible, dist) := check_divisibility_and_divide_by_pow10 (kappa T) dist in
  let significand := wrap w (significand + dist) in
  if negb divisible then Ok (significand, exponent)
  else
    let? '(parity, is_integer) := compute_mul_parity cache two_fc beta in
    if negb (Bool.eqb parity approx_y_parity) then Ok (wrap w (significand - 1), exponent)
    else if is_integer && negb (significand mod 2 =? 0) then Ok (wrap w (significand - 1), exponent)
    else Ok (significand, exponent).

(** Steps 1 and 2 for an interval that is the same on both sides. *)
Definition regular_case (significand exponent : Z) : outcome (Z * Z) :=
  let include_left_endpoint := significand mod 2 =? 0 in
  let include_right_endpoint := include_left_endpoint in
  let? m := floor_log10_pow2 exponent in
  let minus_k := m - kappa T in
  let? cache := accessor T (- minus_k) in
  let? l := floor_log2_pow10 (- minus_k) in
  let beta := exponent + l in
  let? deltai := compute_delta cache beta in
  let two_fc := wrap w (Z.shiftl significand 1) in
  if (0 <=? beta) && (beta <? w) then
    let '(result, z_is_integer) := compute_mul cache (wrap w (Z.shiftl (Z.lor two_fc 1) beta)) in
    let significand := divide_by_10_to_kappa_plus_1 T result in
    let r := u32 (result - big_divisor T * significand) in
    let larger := strip_zeros significand (minus_k + kappa T + 1) in
    if r <? deltai then
      if (r =? 0) && (z_is_integer && negb include_right_endpoint) then
        small_divisor_case cache beta minus_k two_fc deltai (big_divisor T) (wrap w (significand - 1))
      else larger
    else if deltai <? r then small_divisor_case cache beta minus_k two_fc deltai r significand
    else
      let? '(parity, is_integer) := compute_mul_parity cache (wrap w (two_fc - 1)) beta in
      if negb (parity || (is_integer && include_left_endpoint)) then small_divisor_case cache beta minus_k two_fc deltai r significand
      else larger
  else Undef.

Definition to_decimal (br : Z) : outcome (Z * Z) :=
  let bits := num_significand_bits (format_ T) in
  let significand := Z.land br (Z.shiftl 1 bits - 1) in
  let exponent := Z.shiftr (Z.land br (exponent_mask (format_ T))) bits in
  if negb (exponent =? 0) then
    let exponent := exponent - (exponent_bias (format_ T) + bits) in
    if significand =? 0 then shorter_interval_case exponent
    else regular_case (Z.lor significand (Z.shiftl 1 bits)) exponent
  else if significand =? 0 then Ok (0, 0)
  else regular_case significand (min_exponent T - bits - 1).
End to_decimal.

(** ** What the algorithm promises *)

(** What the steps use of a type: the divisors are powers of ten, and the two
    routines are exact below a limit. *)
Record info_ok (T : float_info) (limit : Z) : Prop := {
  kappa_ok : kappa T = 1 \/ kappa T = 2;
  big_ok : big_divisor T = 10 ^ (kappa T + 1);
  small_ok : small_divisor T = 10 ^ kappa T;
  limit_ok : 0 <= limit <= 2 ^ 63 /\ limit <= 2 ^ carrier_bits T;
  divide_ok : forall n, 0 <= n < limit -> divide_by_10_to_kappa_plus_1 T n = n / big_divisor T;
  zeros_removed : forall n, 0 < n -> n * big_divisor T < limit ->
    exists n' j, remove_trailing_zeros T n = Ok (n', j) /\ 0 <= j /\ n = n' * 10 ^ j /\ n' mod 10 <> 0 }.

Lemma float_info_ok : info_ok float_float_info (2 ^ 32).
Proof.
  split; simpl; try lia; [exact divide_by_100_exact|]. intros n H0 H. destruct (remove_trailing_zeros32_exact n 0) as (n' & j & E & Hj & En & Hn); [lia|done|].
  exists n', j. by rewrite E.
Qed.

Lemma double_info_ok : info_ok double_float_info (2 ^ 63).
Proof.
  split; simpl; try lia; [exact divide_by_1000_exact|]. intros n H0 H. apply remove_trailing_zeros64_exact. split; [done|].
  change (2 ^ 32 * 10 ^ 8) with 429496729600000000. lia.
Qed.

(** The number is [2 * f * N / M] in units of [10 ^ minus_k], and the numbers that
    are read back as it lie between [(2 * f - 1) * N / M] and [(2 * f + 1) * N / M], the ends included where [f] is even. *)
Definition in_interval (f N M d : Z) : Prop :=
  if f mod 2 =? 0 then (2 * f - 1) * N <= d * M <= (2 * f + 1) * N else (2 * f - 1) * N < d * M < (2 * f + 1) * N.

(** The products with the cached power are exact as far as the algorithm looks at them. *)
Record exact_products (T : float_info) (limit f N M beta : Z) (cache : cache_accessor) : Prop := {
  beta_ok : 0 <= beta < carrier_bits T;
  mul_exact : compute_mul cache (wrap (carrier_bits T) (Z.shiftl (Z.lor (wrap (carrier_bits T) (Z.shiftl f 1)) 1) beta)) = ((2 * f + 1) * N / M, (2 * f + 1) * N mod M =? 0);
  delta_exact : compute_delta cache beta = Ok (2 * N / M);
  parity_exact : forall n, n = 2 * f \/ n = 2 * f - 1 -> compute_mul_parity cache n beta = Ok (Z.odd (n * N / M), n * N mod M =? 0);
  unit_ok : 10 ^ kappa T * M <= 2 * N < 10 ^ (kappa T + 1) * M;
  bound_ok : (2 * f + 1) * N < limit * M;
  sig_ok : 0 < f /\ 2 * f < 2 ^ carrier_bits T;
  den_pos : 0 < M }.

Lemma even_mod q : Z.even q = (q mod 2 =? 0).
Proof. rewrite Zmod_odd, <- Z.negb_odd. by destruct (Z.odd q). Qed.

(** Rounding half to even from rounding half up. *)
Lemma rhe_half_up a c : 0 < c -> rhe a (2 * c) = let u := (a + c) / (2 * c) in if ((a + c) mod (2 * c) =? 0) && Z.odd u then u - 1 else u.
Proof.
  intros Hc. unfold rhe. pose proof (Z.div_mod a (2 * c) ltac:(lia)) as E. pose proof (Z.mod_pos_bound a (2 * c) ltac:(lia)) as B. set (q := a / (2 * c)) in *. set (r := a mod (2 * c)) in *.
  cbv zeta. destruct (Z.lt_ge_cases (r + c) (2 * c)) as [Hlt|Hge].
  - rewrite <- (Z.div_unique (a + c) (2 * c) q (r + c)), <- (Z.mod_unique (a + c) (2 * c) q (r + c)) by lia.
    rewrite (proj2 (Z.ltb_ge (2 * c) (2 * r))), (proj2 (Z.eqb_neq (2 * r) (2 * c))), (proj2 (Z.eqb_neq (r + c) 0)) by lia. done.
  - rewrite <- (Z.div_unique (a + c) (2 * c) (q + 1) (r + c - 2 * c)), <- (Z.mod_unique (a + c) (2 * c) (q + 1) (r + c - 2 * c)) by lia.
    rewrite Z.add_1_r, Z.odd_succ, even_mod.
    destruct (Z.ltb_spec (2 * c) (2 * r)).
    + rewrite (proj2 (Z.eqb_neq (r + c - 2 * c) 0)) by lia. cbn [orb andb]. lia.
    + rewrite (proj2 (Z.eqb_eq (2 * r) (2 * c))), (proj2 (Z.eqb_eq (r + c - 2 * c) 0)) by lia. cbn [orb andb]. destruct (q mod 2 =? 0); cbn [negb]; lia.
Qed.

Section steps.
Context (T : float_info) (limit f N M beta : Z) (cache : cache_accessor) (minus_k : Z).
Context (HT : info_ok T limit) (HX : exact_products T limit f N M beta cache).
Local Notation P := (10 ^ kappa T).
Local Notation zi := ((2 * f + 1) * N / M).
Local Notation deltai := (2 * N / M).
Local Notation epsiloni := (N / M).

Lemma divisors : big_divisor T = 10 * P /\ 10 ^ (kappa T + 1) = 10 * P /\ exists h, P = 2 * h /\ small_divisor T / 2 = h /\ 5 <= h <= 50.
Proof.
  destruct HT as [[E|E] Hb Hs _ _ _]; rewrite Hb, Hs, E; (split; [reflexivity|]; split; [reflexivity|]); [exists 5|exists 50]; split_and!; try reflexivity; lia.
Qed.

(** The quotients of the end, the centre and the half width. *)
Lemma centre : let c := Z.b2z ((2 * f + 1) * N mod M <? N mod M) in
  2 * f * N / M = zi - epsiloni - c /\ (2 * f * N mod M = 0 <-> (2 * f + 1) * N mod M = N mod M) /\ deltai / 2 = epsiloni.
Proof.
  pose proof (den_pos _ _ _ _ _ _ _ HX) as HM. intros c. pose proof (Z.div_mod ((2 * f + 1) * N) M ltac:(lia)) as E1. pose proof (Z.div_mod N M ltac:(lia)) as E2.
  pose proof (Z.mod_pos_bound ((2 * f + 1) * N) M HM) as B1. pose proof (Z.mod_pos_bound N M HM) as B2. set (rho := (2 * f + 1) * N mod M) in *. set (er := N mod M) in *.
  assert (EY : 2 * f * N = M * (zi - epsiloni - c) + (rho - er + c * M)) by lia.
  assert (BY : 0 <= rho - er + c * M < M) by (subst c; destruct (Z.ltb_spec rho er); simpl; lia).
  rewrite <- (Z.div_unique (2 * f * N) M (zi - epsiloni - c) (rho - er + c * M)), <- (Z.mod_unique (2 * f * N) M (zi - epsiloni - c) (rho - er + c * M)) by (done || by left).
  split; [done|]. split; [subst c; destruct (Z.ltb_spec rho er); simpl; lia|].
  rewrite Z.div_div, (Z.mul_comm M 2), Z.div_mul_cancel_l by lia. done.
Qed.

Lemma two_fc_ok : wrap (carrier_bits T) (Z.shiftl f 1) = 2 * f.
Proof. destruct (sig_ok _ _ _ _ _ _ _ HX). rewrite Z.shiftl_mul_pow2 by lia. change (2 ^ 1) with 2. rewrite wrap_small; lia. Qed.

(** The rounded centre, from the distance to the last multiple of [10 * P]. *)
Lemma rhe_centre r s h : zi = s * (10 * P) + r -> P = 2 * h -> 0 < h ->
  let c := Z.b2z ((2 * f + 1) * N mod M <? N mod M) in let dist := r - epsiloni + h in let u := s * 10 + (dist - c) / P in
  rhe (2 * f * N) (M * P) = if (2 * f * N mod M =? 0) && ((dist - c) mod P =? 0) && Z.odd u then u - 1 else u.
Proof.
  intros Ez EP Hh c dist u. pose proof (den_pos _ _ _ _ _ _ _ HX) as HM. destruct centre as (EY & _ & _). fold c in EY.
  assert (EX : 2 * f * N / M + h = dist - c + s * 10 * P) by (subst dist; lia).
  assert (EYh : (2 * f * N + M * h) / (M * P) = u) by (rewrite <- Z.div_div, (Z.mul_comm M h), Z.div_add, EX, Z.div_add by lia; subst u; lia).
  assert (Etie : ((2 * f * N + M * h) mod (M * P) =? 0) = (2 * f * N mod M =? 0) && ((dist - c) mod P =? 0)).
  { rewrite Z.rem_mul_r, (Z.mul_comm M h), Z.mod_add, Z.div_add, EX, Z.mod_add by lia. pose proof (Z.mod_pos_bound (2 * f * N) M HM) as B1. pose proof (Z.mod_pos_bound (dist - c) P ltac:(lia)) as B2.
    clear - B1 B2 HM. apply Bool.eq_iff_eq_true. rewrite andb_true_iff, !Z.eqb_eq. nia. }
  replace (M * P) with (2 * (M * h)) by lia. rewrite rhe_half_up by lia. replace (2 * (M * h)) with (M * P) by lia. cbv zeta. by rewrite EYh, Etie.
Qed.

Lemma parity_of h dist r s : zi = s * (10 * P) + r -> P = 2 * h -> dist = r - epsiloni + h ->
  negb (Z.land (Z.lxor dist h) 1 =? 0) = Z.odd (zi - epsiloni).
Proof.
  intros Ez EP Ed. change 1 with (Z.ones 1) at 1. rewrite Z.land_ones by lia. change (2 ^ 1) with 2. rewrite Zmod_odd, <- !Z.bit0_odd, Z.lxor_spec, !Z.bit0_odd.
  replace (zi - epsiloni) with (dist - h + 2 * (s * (10 * h))) by lia. rewrite Z.odd_add_mul_2, Z.odd_sub. by destruct (Z.odd dist), (Z.odd h).
Qed.

Lemma small_case_ok r s : zi = s * (10 * P) + r -> 0 <= s -> deltai <= r <= 10 * P ->
  small_divisor_case T cache beta minus_k (wrap (carrier_bits T) (Z.shiftl f 1)) deltai r s = Ok (rhe (2 * f * N) (M * P), minus_k + kappa T).
Proof.
  intros Ez Hs Hr. pose proof (den_pos _ _ _ _ _ _ _ HX) as HM. pose proof (unit_ok _ _ _ _ _ _ _ HX) as HU. pose proof (bound_ok _ _ _ _ _ _ _ HX) as HB.
  destruct (limit_ok _ _ HT) as [[_ HL63] HLw]. destruct divisors as (Eb & E10 & h & EP & Eh & Hh). rewrite E10 in HU. destruct centre as (EY & EYm & Ed2).
  pose proof (rhe_centre r s h Ez EP ltac:(lia)) as Hrhe. pose proof (parity_exact _ _ _ _ _ _ _ HX (2 * f) ltac:(by left)) as Hpar. cbv zeta in Hrhe. rewrite EY in Hpar.
  set (c := Z.b2z ((2 * f + 1) * N mod M <? N mod M)) in *. assert (Hc : c = 0 \/ c = 1 /\ 2 * f * N mod M <> 0).
  { subst c. destruct (Z.ltb_spec ((2 * f + 1) * N mod M) (N mod M)); [right; simpl; lia|by left]. }
  assert (Hzi : zi < limit) by (apply Z.div_lt_upper_bound; lia). assert (He : h <= epsiloni <= deltai).
  { rewrite <- Ed2. assert (P <= deltai) by (apply Z.div_le_lower_bound; lia). split; [apply Z.div_le_lower_bound; lia|apply Z.div_le_upper_bound; lia]. }
  pose proof (parity_of h _ r s Ez EP eq_refl) as Happ. set (dist := r - epsiloni + h) in *. assert (Hdist : h <= dist <= r) by (subst dist; lia).
  pose proof (Z.mul_le_mono_nonneg_l 10 (10 * P) s Hs ltac:(lia)) as Hs10.
  assert (Hdp : 0 <= dist / P <= dist) by (split; [apply Z.div_pos; lia|apply Z.div_le_upper_bound; [lia|]; pose proof (Z.mul_le_mono_nonneg_r 1 P dist ltac:(lia) ltac:(lia)); lia]).
  unfold small_divisor_case. rewrite Ed2, Eh, two_fc_ok, (wrap_small (carrier_bits T) (s * 10)) by lia. fold dist.
  replace (u32 dist) with dist by (symmetry; apply wrap_small; lia). rewrite Happ.
  destruct (check_divisibility_exact (kappa T) dist (kappa_ok _ _ HT) ltac:(rewrite E10; lia)) as [-> _]. cbn [obind]. rewrite (wrap_small (carrier_bits T) (s * 10 + dist / P)) by lia.
  destruct (Z.eqb_spec (dist mod P) 0) as [Hdiv|Hdiv]; cbn [negb].
  - rewrite Hpar. cbn [obind]. destruct Hc as [Hc|[Hc HY]]; rewrite Hc in *.
    + rewrite !Z.sub_0_r in *. rewrite Bool.eqb_reflx. cbn [negb]. rewrite Hrhe, Hdiv. change (0 =? 0) with true. rewrite andb_true_r, <- Z.negb_even, even_mod.
      destruct (2 * f * N mod M =? 0) eqn:E1; cbn [andb]; [|done]. destruct (Z.eqb_spec ((s * 10 + dist / P) mod 2) 0) as [|Hodd]; cbn [negb]; [done|].
      rewrite wrap_small; [done|]. destruct (Z.eq_dec (s * 10 + dist / P) 0) as [E0|]; [rewrite E0 in Hodd; done|lia].
    + replace (Bool.eqb (Z.odd (zi - epsiloni - 1)) (Z.odd (zi - epsiloni))) with false by (rewrite Z.odd_sub; by destruct (Z.odd (zi - epsiloni))). cbn [negb].
      rewrite Hrhe, (proj2 (Z.eqb_neq _ 0) HY). cbn [andb]. assert (E1 : (dist - 1) / P = dist / P - 1).
      { apply Z.mod_divide in Hdiv as [q Hq]; [|lia]. rewrite Hq, Z.div_mul by lia. symmetry. apply (Z.div_unique _ _ _ (P - 1)); lia. }
      rewrite E1, wrap_small; [do 2 f_equal; lia|]. assert (1 <= dist / P) by (apply Z.div_le_lower_bound; [lia|]; rewrite Z.mul_1_r; apply Z.divide_pos_le; [lia|]; by apply Z.mod_divide; [lia|]). lia.
  - rewrite Hrhe. destruct Hc as [Hc|[Hc HY]]; rewrite Hc in *.
    + rewrite Z.sub_0_r, (proj2 (Z.eqb_neq _ 0) Hdiv), andb_false_r. done.
    + rewrite (proj2 (Z.eqb_neq _ 0) HY). cbn [andb]. assert (E1 : (dist - 1) / P = dist / P); [|by rewrite E1].
      pose proof (Z.div_mod dist P ltac:(lia)). pose proof (Z.mod_pos_bound dist P ltac:(lia)). symmetry. apply (Z.div_unique _ _ _ (dist mod P - 1)); lia.
Qed.

Lemma N_pos : 0 < N.
Proof.
  pose proof (den_pos _ _ _ _ _ _ _ HX) as HM. pose proof (unit_ok _ _ _ _ _ _ _ HX) as [HU _]. destruct divisors as (_ & _ & h & EP & _ & Hh).
  pose proof (Z.mul_pos_pos P M ltac:(lia) HM). lia.
Qed.

(** Only the last multiple of [10 * P] can lie in the interval, and it does when the rest is below the width. *)
Lemma interval_multiple d : in_interval f N M (d * (10 * P)) -> d = zi / (10 * P).
Proof.
  intros Hi. pose proof (den_pos _ _ _ _ _ _ _ HX) as HM. pose proof (unit_ok _ _ _ _ _ _ _ HX) as HU. destruct divisors as (_ & E10 & h & EP & _ & Hh). rewrite E10 in HU.
  assert (Hi' : (2 * f - 1) * N <= d * (10 * P) * M <= (2 * f + 1) * N) by (unfold in_interval in Hi; destruct (f mod 2 =? 0); lia).
  assert (H1 : d * (10 * P) <= zi) by (apply Z.div_le_lower_bound; lia). assert (H2 : zi < d * (10 * P) + 10 * P) by (apply Z.div_lt_upper_bound; lia).
  apply (Z.div_unique _ _ _ (zi - d * (10 * P))); lia.
Qed.

Lemma interval_rest r s : zi = s * (10 * P) + r ->
  let rho := (2 * f + 1) * N mod M in
  in_interval f N M (s * (10 * P)) <-> if f mod 2 =? 0 then 0 <= r * M + rho <= 2 * N else 0 < r * M + rho < 2 * N.
Proof.
  intros Ez rho. pose proof (den_pos _ _ _ _ _ _ _ HX) as HM. pose proof (Z.div_mod ((2 * f + 1) * N) M ltac:(lia)) as E. fold rho in E. rewrite Ez in E.
  unfold in_interval. destruct (f mod 2 =? 0); lia.
Qed.

(** The lower end, where the rest is the width to the last unit. *)
Lemma left_end s : zi = s * (10 * P) + deltai -> exists h, P = 2 * h /\
  (Z.odd ((2 * f - 1) * N / M) || (((2 * f - 1) * N mod M =? 0) && (f mod 2 =? 0))) =
  if f mod 2 =? 0 then (2 * f + 1) * N mod M <=? 2 * N mod M else (2 * f + 1) * N mod M <? 2 * N mod M.
Proof.
  intros Ez. destruct divisors as (_ & E10 & h & EP & _ & Hh). exists h. split; [done|]. pose proof (den_pos _ _ _ _ _ _ _ HX) as HM.
  pose proof (Z.div_mod ((2 * f + 1) * N) M ltac:(lia)) as E1. pose proof (Z.div_mod (2 * N) M ltac:(lia)) as E2. pose proof (Z.mod_pos_bound ((2 * f + 1) * N) M HM) as B1. pose proof (Z.mod_pos_bound (2 * N) M HM) as B2.
  set (rho := (2 * f + 1) * N mod M) in *. set (dr := 2 * N mod M) in *. set (D := s * (10 * P)) in *.
  assert (EX : (2 * f - 1) * N = M * D + (rho - dr)) by lia. assert (HD : Z.odd D = false) by (subst D; rewrite EP; replace (s * (10 * (2 * h))) with (0 + 2 * (10 * (s * h))) by lia; by rewrite Z.odd_add_mul_2).
  destruct (Z.lt_ge_cases rho dr) as [Hlt|Hge].
  - rewrite <- (Z.div_unique _ M (D - 1) (rho - dr + M)) by lia. rewrite Z.odd_sub, HD, (proj2 (Z.ltb_lt _ _)), (proj2 (Z.leb_le _ _)) by lia. simpl. by destruct (f mod 2 =? 0).
  - rewrite <- (Z.div_unique _ M D (rho - dr)), <- (Z.mod_unique _ M D (rho - dr)), HD by lia. cbn [orb]. rewrite (proj2 (Z.ltb_ge rho dr)) by lia.
    destruct (f mod 2 =? 0); [|by rewrite andb_false_r]. rewrite andb_true_r. apply Bool.eq_iff_eq_true. rewrite Z.eqb_eq, Z.leb_le. lia.
Qed.

(** What both steps return: a number of the interval with no zero at the end, or, where
    the interval has no multiple of [10 * P], the centre rounded to a multiple of [P]. *)
Definition good_decimal (s x : Z) : Prop :=
  (kappa T + 1 <= x /\ s mod 10 <> 0 /\ in_interval f N M (s * 10 ^ x)) \/
  (x = kappa T /\ s = rhe (2 * f * N) (M * P) /\ forall d, ~ in_interval f N M (d * (10 * P))).

Lemma larger_ok s : in_interval f N M (s * (10 * P)) -> s * (10 * P) <= zi ->
  exists s' x, strip_zeros T s (minus_k + kappa T + 1) = Ok (s', minus_k + x) /\ good_decimal s' x.
Proof.
  intros Hi Hz. pose proof (den_pos _ _ _ _ _ _ _ HX) as HM. pose proof (bound_ok _ _ _ _ _ _ _ HX) as HB. pose proof (unit_ok _ _ _ _ _ _ _ HX) as HU. destruct (sig_ok _ _ _ _ _ _ _ HX) as [Hf _]. destruct divisors as (Eb & E10 & h & EP & _ & Hh).
  assert (Hzi : zi < limit) by (apply Z.div_lt_upper_bound; lia). assert (Hp : 0 < s).
  { pose proof (Z.mul_pos_pos (2 * f - 1) N ltac:(lia) N_pos) as HfN. assert (H : 0 < s * (10 * P * M)) by (unfold in_interval in Hi; destruct (f mod 2 =? 0); lia).
    apply Z.mul_pos_cancel_r in H; [done|]. apply Z.mul_pos_pos; lia. }
  destruct (zeros_removed _ _ HT s Hp ltac:(rewrite Eb; lia)) as (n & j & E & Hj & En & Hn). unfold strip_zeros. rewrite E. cbn [obind].
  exists n, (kappa T + 1 + j). split; [do 2 f_equal; lia|]. left. split; [lia|]. split; [done|]. rewrite Z.pow_add_r, E10 by (destruct (kappa_ok _ _ HT); lia).
  replace (n * (10 * P * 10 ^ j)) with (s * (10 * P)) by (rewrite En; ring). done.
Qed.

Lemma smaller_ok r s : zi = s * (10 * P) + r -> 0 <= s -> deltai <= r <= 10 * P -> (forall d, ~ in_interval f N M (d * (10 * P))) ->
  exists s' x, small_divisor_case T cache beta minus_k (wrap (carrier_bits T) (Z.shiftl f 1)) deltai r s = Ok (s', minus_k + x) /\ good_decimal s' x.
Proof. intros Ez Hs Hr Hn. rewrite small_case_ok by done. eexists _, _. split; [reflexivity|]. by right. Qed.

Lemma regular_case_ok e m l : floor_log10_pow2 e = Ok m -> minus_k = m - kappa T -> accessor T (- minus_k) = Ok cache -> floor_log2_pow10 (- minus_k) = Ok l -> beta = e + l ->
  exists s x, regular_case T f e = Ok (s, minus_k + x) /\ good_decimal s x.
Proof.
  intros Em Ek Ea El Ebt. unfold regular_case. rewrite Em. cbn [obind]. rewrite <- Ek, Ea. cbn [obind]. rewrite El. cbn [obind]. rewrite <- Ebt.
  rewrite (delta_exact _ _ _ _ _ _ _ HX). cbn [obind]. destruct (beta_ok _ _ _ _ _ _ _ HX) as [Hb1 Hb2]. rewrite (proj2 (Z.leb_le _ _) Hb1), (proj2 (Z.ltb_lt _ _) Hb2). cbn [andb].
  rewrite (mul_exact _ _ _ _ _ _ _ HX). pose proof (den_pos _ _ _ _ _ _ _ HX) as HM. pose proof (bound_ok _ _ _ _ _ _ _ HX) as HB. pose proof (unit_ok _ _ _ _ _ _ _ HX) as HU. destruct (sig_ok _ _ _ _ _ _ _ HX) as [Hf Hfw].
  destruct divisors as (Eb & E10 & h & EP & _ & Hh). destruct (limit_ok _ _ HT) as [[_ HL63] HLw]. rewrite E10 in HU.
  pose proof N_pos as HN. pose proof (Z.mul_pos_pos (2 * f + 1) N ltac:(lia) HN) as HfN. assert (Hz0 : 0 <= zi) by (apply Z.div_pos; lia). assert (Hzi : zi < limit) by (apply Z.div_lt_upper_bound; lia).
  rewrite (divide_ok _ _ HT) by lia. rewrite Eb. set (s := zi / (10 * P)). set (r := zi mod (10 * P)). assert (Ez : zi = s * (10 * P) + r) by (pose proof (Z.div_mod zi (10 * P) ltac:(lia)); lia).
  assert (Hr : 0 <= r < 10 * P) by (apply Z.mod_pos_bound; lia). assert (Hs : 0 <= s) by (apply Z.div_pos; lia). replace (u32 (zi - 10 * P * s)) with r by (rewrite Ez; symmetry; replace (s * (10 * P) + r - 10 * P * s) with r by lia; apply wrap_small; lia).
  pose proof (Z.mul_le_mono_nonneg_r 3 (2 * f + 1) N ltac:(lia) ltac:(lia)) as H3. assert (Hzp : P <= zi) by (apply Z.div_le_lower_bound; lia).
  pose proof (Z.mul_le_mono_nonneg_l 1 (10 * P) s Hs ltac:(lia)) as Hs10. assert (Hdl : P <= deltai) by (apply Z.div_le_lower_bound; lia).
  pose proof (Z.div_mod (2 * N) M ltac:(lia)) as E2. pose proof (Z.mod_pos_bound (2 * N) M HM) as B2. pose proof (Z.mod_pos_bound ((2 * f + 1) * N) M HM) as B1.
  pose proof (interval_rest r s Ez) as Hin. cbv zeta in Hin. set (rho := (2 * f + 1) * N mod M) in *. set (dr := 2 * N mod M) in *.
  assert (Hone : ~ in_interval f N M (s * (10 * P)) -> forall d, ~ in_interval f N M (d * (10 * P))) by (intros Hno d Hd; pose proof (interval_multiple d Hd) as E; subst d; done).
  destruct (Z.ltb_spec r deltai) as [Hlt|Hge]; [|destruct (Z.ltb_spec deltai r) as [Hgt|Hle]].
  - destruct ((r =? 0) && ((rho =? 0) && negb (f mod 2 =? 0))) eqn:Ex.
    + apply andb_prop in Ex as [Er Ex]. apply andb_prop in Ex as [Erho Ef]. bool_to_prop. rewrite Er in *. assert (Hs1 : s <> 0) by (intros E0; rewrite E0 in Ez; lia).
      rewrite (wrap_small (carrier_bits T) (s - 1)) by lia. apply smaller_ok; [lia|lia|split; [|lia]; apply Z.div_le_upper_bound; lia|]. apply Hone. rewrite Hin. destruct (Z.eqb_spec (f mod 2) 0); [done|lia].
    + apply larger_ok; [|lia]. apply Hin. pose proof (Z.mul_le_mono_nonneg_r (r + 1) deltai M ltac:(lia) ltac:(lia)) as HrM. pose proof (Z.mul_nonneg_nonneg r M ltac:(lia) ltac:(lia)) as HrM0.
      destruct (f mod 2 =? 0); [lia|]. split; [|lia]. apply Z.le_neq. split; [lia|]. intros E0. assert (rho = 0) by lia. assert (r = 0) by (apply (Z.mul_cancel_r r 0 M); lia). rewrite (proj2 (Z.eqb_eq r 0)), (proj2 (Z.eqb_eq rho 0)) in Ex by done. done.
  - apply smaller_ok; [done|done|lia|]. apply Hone. rewrite Hin. pose proof (Z.mul_le_mono_nonneg_r (deltai + 1) r M ltac:(lia) ltac:(lia)). destruct (f mod 2 =? 0); lia.
  - assert (Er : r = deltai) by lia. rewrite two_fc_ok, (wrap_small (carrier_bits T) (2 * f - 1)) by lia. rewrite (parity_exact _ _ _ _ _ _ _ HX) by (by right). cbn [obind].
    destruct (left_end s ltac:(by rewrite <- Er)) as (_ & _ & ->). fold rho dr. rewrite <- two_fc_ok.
    destruct (if f mod 2 =? 0 then rho <=? dr else rho <? dr) eqn:Ec; cbn [negb].
    + apply larger_ok; [|lia]. apply Hin. pose proof (Z.mul_pos_pos deltai M ltac:(lia) HM). rewrite Er. destruct (f mod 2 =? 0); bool_to_prop; lia.
    + apply smaller_ok; [done|done|lia|]. apply Hone. rewrite Hin, Er. destruct (f mod 2 =? 0); bool_to_prop; lia.
Qed.
End steps.

(** ** The products for double *)

Section double_products.
Context (y : uint128_fallback) (beta : Z) (Hy : ok128 y) (Hb : 1 <= beta <= 9).
Local Notation C := (val128 y).
Definition prod (n : Z) : Z := n * 2 ^ beta * C.

Lemma val128_parts (x : uint128_fallback) v : ok128 x -> val128 x = v -> high x = v / 2 ^ 64 /\ low x = v mod 2 ^ 64.
Proof.
  intros [H1 H2] <-. unfold val128. rewrite Z.add_comm. split; symmetry; [rewrite Z.div_add, Z.div_small; lia|rewrite Z.mod_add, Z.mod_small; lia].
Qed.

Lemma double_mul_ok n : 0 <= n -> n * 2 ^ beta < 2 ^ 64 -> double_compute_mul y (n * 2 ^ beta) = (prod n / 2 ^ 128, prod n / 2 ^ 64 mod 2 ^ 64 =? 0).
Proof.
  intros Hn Hlt. assert (Hp : 0 < 2 ^ beta) by (apply Z.pow_pos_nonneg; lia). destruct (umul192_upper (n * 2 ^ beta) y ltac:(nia) Hy) as [Ho Ev]. unfold double_compute_mul.
  destruct (val128_parts _ _ Ho Ev) as [-> ->]. unfold prod. rewrite Z.div_div by lia. done.
Qed.

Lemma prod_div n j : 0 <= j -> beta <= j -> prod n / 2 ^ j = n * C / 2 ^ (j - beta).
Proof.
  intros Hj Hbj. unfold prod. replace (n * 2 ^ beta * C) with (n * C * 2 ^ beta) by ring. replace (2 ^ j) with (2 ^ (j - beta) * 2 ^ beta) by (rewrite <- Z.pow_add_r by lia; f_equal; lia).
  apply Z.div_mul_cancel_r; apply Z.pow_nonzero; lia.
Qed.

Lemma double_delta_ok : prod 2 / 2 ^ 128 < 2 ^ 32 -> double_compute_delta y beta = Ok (prod 2 / 2 ^ 128).
Proof.
  intros Hlt. unfold double_compute_delta. rewrite shr64_ok by lia. cbn [outcome_map]. destruct (val128_parts y C Hy eq_refl) as [-> _]. rewrite Z.div_div by (try apply Z.pow_nonzero; lia).
  rewrite <- Z.pow_add_r by lia. assert (E : C / 2 ^ (64 + (64 - 1 - beta)) = prod 2 / 2 ^ 128).
  { rewrite prod_div by lia. replace (128 - beta) with (64 + (64 - 1 - beta) + 1) by lia. rewrite (Z.pow_add_r 2 _ 1), (Z.mul_comm 2) by lia. change (2 ^ 1) with 2. rewrite Z.div_mul_cancel_r; [done|apply Z.pow_nonzero; lia|lia]. }
  rewrite E in *. unfold u32. rewrite wrap_small; [done|]. split; [|done]. apply Z.div_pos; [|lia]. unfold prod. destruct Hy. unfold val128. assert (0 < 2 ^ beta) by (apply Z.pow_pos_nonneg; lia). nia.
Qed.

Lemma div_mod_pow a i j : 0 <= i <= j -> a mod 2 ^ j / 2 ^ i = a / 2 ^ i mod 2 ^ (j - i).
Proof.
  intros H. assert (0 < 2 ^ i) by (apply Z.pow_pos_nonneg; lia). assert (0 < 2 ^ (j - i)) by (apply Z.pow_pos_nonneg; lia).
  replace (2 ^ j) with (2 ^ i * 2 ^ (j - i)) by (rewrite <- Z.pow_add_r by lia; f_equal; lia). rewrite Z.rem_mul_r by lia.
  rewrite Z.add_comm, Z.mul_comm, Z.div_add_l, (Z.div_small (a mod 2 ^ i)), Z.add_0_r by (try apply Z.mod_pos_bound; lia). done.
Qed.

Lemma odd_mod_pow a j : 0 < j -> Z.odd (a mod 2 ^ j) = Z.odd a.
Proof. intros Hj. rewrite <- !Z.bit0_odd. apply Z.mod_pow2_bits_low. lia. Qed.

Lemma double_parity_ok n : 0 <= n < 2 ^ 64 -> double_compute_mul_parity y n beta = Ok (Z.odd (prod n / 2 ^ 128), prod n / 2 ^ 64 mod 2 ^ 64 =? 0).
Proof.
  intros Hn. destruct (umul192_lower n y Hn Hy) as [Ho Ev]. destruct (val128_parts _ _ Ho Ev) as [Eh El]. unfold double_compute_mul_parity. rewrite (proj2 (Z.leb_le 1 beta)), (proj2 (Z.ltb_lt beta 64)) by lia. cbn [andb].
  rewrite !shr64_ok, shl64_ok by lia. cbn [obind]. rewrite !prod_div by lia. set (r := n * C) in *. do 2 f_equal; [|].
  - rewrite Eh, Z.div_div, <- Z.pow_add_r by (try apply Z.pow_nonzero; lia). replace (64 + (64 - beta)) with (128 - beta) by lia. rewrite div_mod_pow by lia. change 1 with (Z.ones 1) at 1. rewrite Z.land_ones by lia.
    change (2 ^ 1) with 2. rewrite Zmod_odd, odd_mod_pow by lia. by destruct (Z.odd _).
  - set (h := high (umul192_lower128 n y)) in *. set (w := low (umul192_lower128 n y)) in *. destruct Ho as [Hh Hw]. fold h in Hh. fold w in Hw. unfold val128 in Ev. fold h in Ev. fold w in Ev.
    assert (Hp : 0 < 2 ^ beta) by (apply Z.pow_pos_nonneg; lia). assert (Hq : 0 < 2 ^ (64 - beta)) by (apply Z.pow_pos_nonneg; lia). assert (E64 : 2 ^ 64 = 2 ^ beta * 2 ^ (64 - beta)) by (rewrite <- Z.pow_add_r by lia; f_equal; lia).
    assert (Hwl : 0 <= w / 2 ^ (64 - beta) < 2 ^ beta) by (split; [apply Z.div_pos; lia|apply Z.div_lt_upper_bound; lia]).
    replace (r / 2 ^ (64 - beta) mod 2 ^ 64) with (h * 2 ^ beta mod 2 ^ 64 + w / 2 ^ (64 - beta)).
    + rewrite mul_pow_mod', lor_parts by lia. done.
    + assert (E1 : r mod 2 ^ 128 / 2 ^ (64 - beta) = h * 2 ^ beta + w / 2 ^ (64 - beta)) by (rewrite <- Ev, E64, Z.mul_assoc, Z.div_add_l by lia; done).
      rewrite div_mod_pow in E1 by lia. replace (128 - (64 - beta)) with (64 + beta) in E1 by lia.
      assert (E2 : r / 2 ^ (64 - beta) mod 2 ^ 64 = (r / 2 ^ (64 - beta) mod 2 ^ (64 + beta)) mod 2 ^ 64).
      { rewrite Z.pow_add_r by lia. rewrite Z.rem_mul_r, Z.mul_comm, Z.mod_add, Z.mod_mod by lia. done. }
      rewrite E2, E1, mul_pow_mod' by lia. symmetry. rewrite <- Z.add_mod_idemp_l, mul_pow_mod' by lia. apply Z.mod_small.
      pose proof (Z.mod_pos_bound h (2 ^ (64 - beta)) Hq). split; [nia|]. rewrite E64. nia.
Qed.
End double_products.
