(* ===== verification/FmtCerts.v ===== *)
(** * fmt: certificates for the shortest decimal of a double

    For every exponent of two outside of a middle range, the denominators of
    two neighbouring fractions that enclose the product of the power of two
    and the cached power of ten; [FmtShortest] checks them and draws the
    conclusion that no product comes too close to an integer. *)

From S2P Require Import Prelude.

(** For the exponents -1126, ..., -1075, of subnormal numbers with a normalized significand. *)
Definition certs_subnormal : list (Z * Z) :=
  [(0x22d216e2c8e8cb, 0x2fe3db2bd14a14); (0x3ac40478b18dd5, 0x17f1ed95e8a50a); (0x3ac40478b18dd5, 0xbf8f6caf45285); (0x235e7da1d2f02d, 0x2f57746cc742b2); (0xb6c900bea4b23, 0x3bdcd1f6c59c99); (0x2f11410d423f01, 0x23a4b10157f3de); (0x2f11410d423f01, 0x11d25880abf9ef); (0x391ed03b9377af, 0x11d25880abf9ef); (0x374aecdecbb2be, 0x11d25880abf9ef); (0x3f4a2770bdcd3d, 0x11d25880abf9ef); (0x1ba5766f65d95f, 0x3d764413f6084c); (0x1ba5766f65d95f, 0x3a60987960dd85); (0x2b030774635b72, 0x3a60987960dd85); (0x158183ba31adb9, 0x3a60987960dd85); (0x1ba5766f65d95f, 0x343ca5c42cb1df); (0x27f10e19c9459f, 0x343ca5c42cb1df); (0x27f10e19c9459f, 0x2e16d9eefafbbf); (0x157faa9a34233f, 0x343ca5c42cb1df); (0x24de282f306a8f, 0x343ca5c42cb1df); (0x24de282f306a8f, 0x2c8d66f9ae8e37); (0x1d2ee964b246e7, 0x266c39f476b248); (0x1d2ee964b246e7, 0x3065065eeda00b); (0x26c9f7e1cff379, 0x3065065eeda00b); (0x26c9f7e1cff379, 0x2b977f205ec9c2); (0x1861622623709e, 0x3065065eeda00b); (0x3c95b771ff585a, 0x3065065eeda00b); (0x1e4adbb8ffac2d, 0x3065065eeda00b); (0x3cf3755f58998b, 0x5e97992dc3b8f); (0x216e77791a6a8d, 0x2757f10bf6a61c); (0x351a6fff15bd9b, 0x13abf885fb530e); (0x3ee3012cbf39ec, 0x5e97992dc3b8f); (0x2b4473bc181414, 0x312ded4ef44fa3); (0x15a239de0c0a0a, 0x312ded4ef44fa3); (0xad11cef060505, 0x3bff0a3dfa54a8); (0x361590ab1e1919, 0x10ba9681e24094); (0x3e72dbec0f3963, 0x85d4b40f1204a); (0x3e72dbec0f3963, 0x42ea5a0789025); (0x3a44364b96a93e, 0x14e93c225ad0b9); (0x1d221b25cb549f, 0x320b5748262558); (0x3627c6c9de674b, 0x1905aba41312ac); (0x41c6f81b841f3, 0x3f71d19a93801f); (0x41c6f81b841f3, 0x3e8e2d1a2faeae); (0x2363860ed0194a, 0x1f47168d17d757); (0x11b1c307680ca5, 0x30f8d9947fe3fc); (0x277ff590885b3d, 0x30f8d9947fe3fc); (0x3ffc625ac84d3b, 0x187c6cca3ff1fe); (0x3ffc625ac84d3b, 0xc3e36651ff8ff); (0x33be2bf5a8543c, 0x3d370ff99fdcfb); (0x19df15fad42a1e, 0x3d370ff99fdcfb); (0xcef8afd6a150f, 0x3d370ff99fdcfb); (0x3734d2ef1ae08c, 0x978e403f788bf); (0x1b9a69778d7046, 0x25134d7b84f905)].

(** For the exponents -1074, ..., -95. *)
Definition certs_low : list (Z * Z) :=
  [(0x32e082374bb128, 0x25134d7b84f905); (0x3e838e972ad199, 0x25134d7b84f905); (0x273d75d76c90b7, 0x30b659db641976); (0x3f98a2c51e9d72, 0x185b2cedb20cbb);
   (0x38277e50415b74, 0x185b2cedb20cbb); (0x273d75d76c90b7, 0x2945356686d778); (0x3be0108aaffc73, 0x14a29ab3436bbc); (0x3be0108aaffc73, 0xa514d59a1b5de);
   (0x1cec287dcadad9, 0x339682c0288d56); (0x36b769dddf2184, 0x19cb41601446ab); (0x1b5bb4eeef90c2, 0x3526f64f03d76d); (0x190738edb4a17, 0x3f4551706b3991);
   (0x190738edb4a17, 0x3fb3e9a8c50ba0); (0x22fadbf21919fe, 0x216a68633dcfe7); (0x32e7d65c4a5ce6, 0x216a68633dcfe7); (0x37993108dc3b2b, 0xfecfa6a3142e8);
   (0x3f8fae3df4dc9f, 0x7f67d3518a174); (0x3f8fae3df4dc9f, 0x3fb3e9a8c50ba); (0x3b946fa3688be5, 0x13e83904bd93a2); (0x3b946fa3688be5, 0x9f41c825ec9d1);
   (0x36ac7f17a13e7d, 0x9f41c825ec9d1); (0xedc0d0e261739, 0x31c48e8bd9f115); (0x20504dcd000427, 0x31c48e8bd9f115); (0x20504dcd000427, 0x290a6e2c6cfa9e);
   (0x20504dcd000427, 0x34d584e3368176); (0x2c1b6483c98aff, 0x1d3f5775a373c6); (0x3abb103e9b44e2, 0xe9fabbad1b9e3); (0x1d5d881f4da271, 0x2bfd33da1f5c54);
   (0x3b15a23b99d0e3, 0xe9fabbad1b9e3); (0x337a52b6077f46, 0xe9fabbad1b9e3); (0x19bd295b03bfa3, 0x285cd515d57986); (0x3e97d056398506, 0x3822e1a9fb423);
   (0x1f4be82b1cc283, 0x22ce1645bc76a6); (0x30b2f34dfafdd6, 0x11670b22de3b53); (0x29c084c9dbba3e, 0x3b278fecb9f591); (0x37a561d21a416e, 0xa749c9ebef7bb);
   (0x1bd2b0e90d20b7, 0x26474d87cc1872); (0x2ef657acf32cf0, 0x1323a6c3e60c39); (0x3e8ed97da972af, 0x1323a6c3e60c39); (0x3bfce6e4adcbad, 0x1323a6c3e60c39);
   (0x3ab3ed982ff82c, 0x1323a6c3e60c39); (0x146ca01063dfba, 0x36d901b2b67da9); (0xa36500831efdd, 0x36d901b2b67da9); (0x3f2a98f60a065a, 0x34f448edd8167d);
   (0x1f954c7b05032d, 0x34f448edd8167d); (0x3401ec8b68e2e7, 0x34f448edd8167d); (0x347b1abca07cb2, 0x34f448edd8167d); (0x1a3d8d5e503e59, 0x34f448edd8167d);
   (0x1a3d8d5e503e59, 0x36d901b2b67da9); (0x1a3d8d5e503e59, 0x288b4788835e01); (0x1a3d8d5e503e59, 0x3ba1f7d1ba0c86); (0x1a3d8d5e503e59, 0x3dffdec7d00d7d);
   (0x1a3d8d5e503e59, 0x2c1eb6131025eb); (0x1a3d8d5e503e59, 0x3d6baf1700707b); (0x1a3d8d5e503e59, 0x2bd49e3aa8576a); (0x3cd77f6630d379, 0x119710dc581911);
   (0x38ce58fd9c8f56, 0x119710dc581911); (0x2dfe3d5b2660bc, 0x3f954e377e79cd); (0x36108a2c4ee902, 0x119710dc581911); (0x3e3666ced7a6a3, 0x119710dc581911);
   (0x397dccb1eff8eb, 0x119710dc581911); (0x27e6bbd597dfda, 0x300c9878209d7b); (0x13f35deacbefed, 0x300c9878209d7b); (0x13f35deacbefed, 0x35f3591c4236a1);
   (0x13f35deacbefed, 0x38e6b96e530334); (0x30c0dccbca4593, 0x10fffd98bb235a); (0x3940db9827d740, 0x87ffecc5d91ad); (0x3ea068fd8a3254, 0x87ffecc5d91ad);
   (0x36206a312ca0a7, 0x2a7ff9fdd3d861); (0x36206a312ca0a7, 0x30503217803c84); (0x36206a312ca0a7, 0x1828190bc01e42); (0x1df851256c8265, 0x3cd7daefe79280);
   (0x1df851256c8265, 0x3c643e9d604ba5); (0x2d2e47e1666705, 0x3c643e9d604ba5); (0x2d2e47e1666705, 0x34c9433f635955); (0xec25a69729dc5, 0x34c9433f635955);
   (0x21c5ced46afb8d, 0x34c9433f635955); (0x2b478909e72a71, 0x34c9433f635955); (0x3a09e37359c836, 0x34c9433f635955); (0x1d04f1b9ace41b, 0x34c9433f635955);
   (0x28e71a7c881eb8, 0x34c9433f635955); (0x1d04f1b9ace41b, 0x3b6acbce482511); (0x1d04f1b9ace41b, 0x2c37dec3fa8496); (0x3320e11baa2666, 0x161bef61fd424b);
   (0x1990708dd51333, 0x2fac5fefd2557e); (0x3d7e649f31991e, 0x161bef61fd424b); (0x34db21b1960eda, 0x161bef61fd424b); (0x1a6d90d8cb076d, 0x3089803ac849b8);
   (0x2310d3c66691b1, 0x3089803ac849b8); (0x3b5593e3cab68d, 0x1844c01d6424dc); (0x3b5593e3cab68d, 0xc22600eb2126e); (0x16ee73b7b47f43, 0x3cabe0497a5c26);
   (0x354463dc71ad56, 0x1e55f024bd2e13); (0x38f82212f604be, 0x1e55f024bd2e13); (0x3ad2012e383072, 0x1e55f024bd2e13); (0x371e42f7b3d90a, 0x202fcf3fff59c7);
   (0x3bbef0bbd9464c, 0x202fcf3fff59c7); (0x1ddf785deca326, 0x3e0f479debfced); (0x396e99d9c68fab, 0x22802622121068); (0x396e99d9c68fab, 0x11401311090834);
   (0x396e99d9c68fab, 0x8a0098884841a); (0x396e99d9c68fab, 0x2b202faa969482); (0x396e99d9c68fab, 0x159017d54b4a41); (0x396e99d9c68fab, 0x277f58d788ecf6);
   (0x322cec33ab4093, 0x277f58d788ecf6); (0x322cec33ab4093, 0x13bfac6bc4767b); (0x36b5f8bb7c5202, 0x13bfac6bc4767b); (0x2f1aa8c9829f7c, 0x13bfac6bc4767b);
   (0x79b4ff1f9b286, 0x3cb5ce60f5d3c9); (0x3cda7f8fcd943, 0x3cb5ce60f5d3c9); (0x33460309e994d5, 0x2f785b10ecbb92); (0x33460309e994d5, 0x2041bb2cf95686);
   (0x33460309e994d5, 0x1020dd967cab43); (0x33460309e994d5, 0x21b3705033200c); (0x36296d505d27e1, 0x21b3705033200c); (0x36296d505d27e1, 0x10d9b828199006);
   (0x3e96496469efe4, 0x86cdc140cc803); (0x3891b8ee5b4ffb, 0x86cdc140cc803); (0x3fca429e7c3f99, 0x86cdc140cc803); (0x3d6223956adbd7, 0x86cdc140cc803);
   (0x3c2e1410e229f6, 0x86cdc140cc803); (0x22e77fd4bbd1ed, 0x2a204c643fe80f); (0x2683e61c7ddcfe, 0x2a204c643fe80f); (0x1341f30e3eee7f, 0x3d623f727ed68e);
   (0xfa58cc67ce36e, 0x315918f3c3fe31); (0x7d2c6633e71b7, 0x392bdf57026fe8); (0x2c3b7c71fe1b62, 0x2468b60ebfa9ab); (0x3a867447beb75c, 0x2468b60ebfa9ab);
   (0x161dbe38ff0db1, 0x315918f3c3fe31); (0x161dbe38ff0db1, 0x39d929cf6093a2); (0x161dbe38ff0db1, 0x330a5320af5782); (0xf4ee78a4dd191, 0x315918f3c3fe31);
   (0x2fa2e7c956b972, 0x2054003f08e7e1); (0x17d173e4ab5cb9, 0x38257423b4449a); (0xf4ee78a4dd191, 0x39dba54e218959); (0xf4ee78a4dd191, 0x33e42df6857f06);
   (0x2940fe85909114, 0x19f216fb42bf83); (0x2e92963e0b080d, 0x19f216fb42bf83); (0x2e92963e0b080d, 0x2495466c37ad75); (0x2e92963e0b080d, 0x2993ee55215ac1);
   (0x2e92963e0b080d, 0x2c134249963167); (0x3111ea327fdeb3, 0x2495466c37ad75); (0x3111ea327fdeb3, 0x2ad3984f5bc614); (0x3111ea327fdeb3, 0x1569cc27ade30a);
   (0x3d8e8df8c80ff1, 0xf2b7a4489ca6b); (0x265d041ea8ed2e, 0x35887e6332b799); (0x132e820f547697, 0x35887e6332b799); (0x378a0248980daf, 0x245b8039439718);
   (0x3b8d0a1362b9db, 0x245b8039439718); (0x3b8d0a1362b9db, 0x122dc01ca1cb8c); (0x3b8d0a1362b9db, 0x916e00e50e5c6); (0x295f49f6c0ee4f, 0x2d726047947cde);
   (0x295f49f6c0ee4f, 0x16b93023ca3e6f); (0x36c56d310fd4ce, 0x16b93023ca3e6f); (0x3c0563c9b79e2f, 0xd66233a4ee67f); (0x321be6bc5228d6, 0x3f8209f6a10f55);
   (0x190df35e29146b, 0x3f8209f6a10f55); (0x190df35e29146b, 0x2c47feaa6511e0); (0x37efcece3f3fcc, 0xd66233a4ee67f); (0x1bf7e7671f9fe6, 0x295e0aa16e8665);
   (0xdfbf3b38fcff3, 0x3759fe54fe5658); (0x38859f47802940, 0xd66233a4ee67f); (0x29a8f2de0efb1f, 0x370f16185de19e); (0x29a8f2de0efb1f, 0x1b878b0c2ef0cf);
   (0x3940e3df114d11, 0xd66233a4ee67f); (0x30b9a6c6ff0047, 0x3e1fca014de6c6); (0x30b9a6c6ff0047, 0x1f0fe500a6f363); (0x27e4c5e3d2f9d5, 0x1f0fe500a6f363);
   (0x30b9a6c6ff0047, 0x354ae91e21e054); (0x30b9a6c6ff0047, 0x1aa5748f10f02a); (0x3e0c610e87785c, 0xd52ba47887815); (0x8c177f0659808, 0x39dc2b7544c061);
   (0x460bbf832cc04, 0x3e3ce76d778c65); (0x2305dfc196602, 0x3e3ce76d778c65); (0xaf1d5ec7efe0a, 0x3c0c89715e2663); (0x578eaf63f7f05, 0x3c0c89715e2663);
   (0x263ba52a0e51b9, 0x20c2ba33ced2b4); (0x263ba52a0e51b9, 0x369d0243f5bb13); (0x1b533306666764, 0x369d0243f5bb13); (0xda999833333b2, 0x369d0243f5bb13);
   (0x3d71cf058f54ec, 0x369d0243f5bb13); (0x2227ffc800013d, 0x221e9bff28ed88); (0x33374dc7947801, 0x110f4dff9476c4); (0x3bbef4c75eb363, 0x887a6ffca3b62);
   (0x33374dc7947801, 0x2aa642fef328ea); (0x33374dc7947801, 0x1553217f799475); (0x244537a387063b, 0x39985923009ab0); (0x244537a387063b, 0x1ccc2c91804d58);
   (0x33374dc7947801, 0xdda166d72db92); (0x3a2458fe4de5ca, 0x6ed0b36b96dc9); (0x1d122c7f26f2e5, 0x23ff37b5e060ae); (0xf381611b41753, 0x31d94e23533c40);
   (0x2824bd235db573, 0x18eca711a99e20); (0x349b10ac328483, 0xc765388d4cf10); (0xf381611b41753, 0x3e4fa1ac280b50); (0x2e5fe6e7c81cfb, 0x1f27d0d61405a8);
   (0x2e5fe6e7c81cfb, 0x3df3cf52d21fcf); (0x3629db1d4d1e65, 0x3df3cf52d21fcf); (0x2e5fe6e7c81cfb, 0x26f1c50b990712); (0x2e5fe6e7c81cfb, 0x1378e285cc8389);
   (0x2e5fe6e7c81cfb, 0x20ec64b6ca5042); (0x2255263e2aaf5b, 0x20ec64b6ca5042); (0x32cb58998fd77c, 0x1076325b652821); (0x3a521103923c00, 0x1076325b652821);
   (0x1965ac4cc7ebbe, 0x38e94f7c31dce7); (0xcb2d62663f5df, 0x38e94f7c31dce7); (0x2f80e8f7aedf42, 0x22ce12d14ae963); (0x2f80e8f7aedf42, 0x1f83a32f69f129);
   (0x17c0747bd76fa1, 0x374417ab4160ca); (0x17c0747bd76fa1, 0x33628051782006); (0x17c0747bd76fa1, 0x3171b4a4937fa4); (0x17c0747bd76fa1, 0x3934e35826012c);
   (0x17c0747bd76fa1, 0x345ae627ea7037); (0x17c0747bd76fa1, 0x3dce21cdb85f8d); (0x17c0747bd76fa1, 0x2fc1a7b25811d6); (0x17c0747bd76fa1, 0x2fa1485503788c);
   (0x17c0747bd76fa1, 0x2f9118a6592be7); (0x3ff0c9e0739b56, 0x102faeaa4ca5); (0x3b590b5e4570c0, 0x3b693b0cefbd65); (0x1dac85af22b860, 0x3b693b0cefbd65);
   (0xed642d7915c30, 0x3b693b0cefbd65); (0xed642d7915c30, 0x3ba9f9c798eff9); (0x76b216bc8ae18, 0x3ba9f9c798eff9); (0x3b590b5e4570c, 0x3f5f8a7d7d4705);
   (0x128bd38d75b33c, 0x3f5f8a7d7d4705); (0x945e9c6bad99e, 0x3f5f8a7d7d4705); (0x4a2f4e35d6ccf, 0x3f5f8a7d7d4705); (0x172ec870d3200b, 0x2cd3b6f00793c9);
   (0x172ec870d3200b, 0x393008214079f5); (0x172ec870d3200b, 0x3f5e30b9dced0b); (0x172ec870d3200b, 0x2b467c9558068b); (0x3174a52df479a1, 0x11009fd836acf5);
   (0x213aa28315934b, 0x323b425b4c4040); (0x213aa28315934b, 0x3a5843b0bbb36b); (0x3991a68363eccc, 0x11009fd836acf5); (0x1cc8d341b1f666, 0x2dc97319e8a35b);
   (0x3c2ddcbac19e8e, 0x2dc97319e8a35b); (0x3c2ddcbac19e8e, 0x3065a95146551d); (0x1e16ee5d60cf47, 0x3065a95146551d); (0x1e16ee5d60cf47, 0x273e4bd7539232);
   (0x1e16ee5d60cf47, 0x31b614490a9860); (0x1e16ee5d60cf47, 0x25ede0df8f4eef); (0x1e16ee5d60cf47, 0x2202679e780f1b); (0x1e16ee5d60cf47, 0x3e23995b4d3e78);
   (0x3a38201a35fea4, 0x2202679e780f1b); (0x1d1c100d1aff52, 0x3f1e77ab930e6d); (0xe8e08068d7fa9, 0x3f1e77ab930e6d); (0x1835b87bbdef89, 0x30906fa5058ec4);
   (0x307df04e40b6eb, 0x184837d282c762); (0x3ca20c37821a9c, 0xc241be94163b1); (0x36993dee43d4b0, 0xc241be94163b1); (0x122cea327fa99d, 0x3cb48b8e46f275);
   (0x399da512e2f7a6, 0x2770bae0634e09); (0x1cced289717bd3, 0x2770bae0634e09); (0x122cea327fa99d, 0x352989b2b91b0e); (0x3eee993e5be0c1, 0x2cc1af0bdc3724);
   (0x3eee993e5be0c1, 0x1660d785ee1b92); (0x122cea327fa99d, 0x395d7706278d03); (0x122cea327fa99d, 0x37f21aced344ed); (0x250f8280a97745, 0x37f21aced344ed);
   (0x250f8280a97745, 0x2e80cea7be5e19); (0x2dcb208c143a0e, 0x2e80cea7be5e19); (0x16e590460a1d07, 0x2e80cea7be5e19); (0x22b32f76e43d90, 0x2e80cea7be5e19);
   (0x21fd815b3a1985, 0x2e80cea7be5e19); (0x283f28017c3bcf, 0x2e80cea7be5e19); (0x2b5ffb549d4cf4, 0x2e80cea7be5e19); (0x251e54ae5b2aaa, 0x34c2754e008063);
   (0x128f2a572d9555, 0x34c2754e008063); (0x3637fa29c4a031, 0x23a8cfd2970adc); (0x3637fa29c4a031, 0x11d467e94b856e); (0x392303e14cdfcd, 0x11d467e94b856e);
   (0x392303e14cdfcd, 0x8ea33f4a5c2b7); (0x3bc537c8ea9967, 0x8ea33f4a5c2b7); (0x3a269c1f1975b6, 0x8ea33f4a5c2b7); (0x37d1e9ed7e0300, 0x8ea33f4a5c2b7);
   (0x3f91c4c9560c5c, 0x8ea33f4a5c2b7); (0x36a790d4b049a5, 0x2c9303c73ccd93); (0x319d4a4df68b9c, 0x2c9303c73ccd93); (0x18cea526fb45ce, 0x2c9303c73ccd93);
   (0xc6752937da2e7, 0x38fa565aba707a); (0x3e049ce1742e83, 0x38fa565aba707a); (0x3e049ce1742e83, 0x1c7d2b2d5d383d); (0x2d40e40768b360, 0x1c7d2b2d5d383d);
   (0x10c3b8da0b7b23, 0x3a9f3ba098b182); (0x10c3b8da0b7b23, 0x3ed70f84634f07); (0x27cd642f376515, 0x3ed70f84634f07); (0x3abad255b7ac73, 0x645f27b206ecf);
   (0x2d0c475eaceb3f, 0x335239d9cd5a0e); (0x2d0c475eaceb3f, 0x19a91cece6ad07); (0x3d03cf12b0792a, 0x19a91cece6ad07); (0x3077ea1c6f9b8c, 0x19a91cece6ad07);
   (0x31e511fb1e7acd, 0x19a91cece6ad07); (0x3f703460e940f1, 0x19a91cece6ad07); (0x31e511fb1e7acd, 0x27343f52b1732b); (0x2c8ca8a6e7f6fc, 0x27343f52b1732b);
   (0x1646545373fb7e, 0x3d7a93a6256ea9); (0x55869543683d1, 0x3f43f1ab59471d); (0x37afd2d0a1f4bb, 0x3257697c6b70ea); (0x37afd2d0a1f4bb, 0x192bb4be35b875);
   (0x23dc8766a2c017, 0x2cff002834ed19); (0x23dc8766a2c017, 0x286dc3c76bd698); (0x3813694a58ab63, 0x1436e1e3b5eb4c); (0x3813694a58ab63, 0xa1b70f1daf5a6);
   (0x23dc8766a2c017, 0x328934b946cc3e); (0x3d2121c3462636, 0x19449a5ca3661f); (0x37d52b3e46793a, 0x19449a5ca3661f); (0x2e747470a21a0f, 0x13f8a3d7a3b923);
   (0x352f2ffbc6a2bc, 0x13f8a3d7a3b923); (0x1a9797fde3515e, 0x2e903bd5870a81); (0x35136896e1b24a, 0x13f8a3d7a3b923); (0x2e825823149248, 0x13f8a3d7a3b923);
   (0x17412c118a4924, 0x2b39cfe92e0247); (0x36da65f1f326d9, 0x2b39cfe92e0247); (0x3a22ee2bd9b6da, 0x2b39cfe92e0247); (0x1d117715ecdb6d, 0x2b39cfe92e0247);
   (0x2425a37f8d6eda, 0x2b39cfe92e0247); (0x15fd4aac4c4800, 0x396228bc6f2921); (0xafea556262400, 0x396228bc6f2921); (0x57f52ab131200, 0x3ee17b67823b21);
   (0x1b7c9d575f5a00, 0x396228bc6f2921); (0xdbe4eabafad00, 0x396228bc6f2921); (0x6df2755d7d680, 0x396228bc6f2921); (0x36f93aaebeb40, 0x3cd1bc675b1461);
   (0x112de2569b9840, 0x3cd1bc675b1461); (0x896f12b4dcc20, 0x3cd1bc675b1461); (0x44b7895a6e610, 0x3cd1bc675b1461); (0x15795aec427e50, 0x2fef52a6666231);
   (0xabcad76213f28, 0x3aac001c87a159); (0x55e56bb109f94, 0x3aac001c87a159); (0x1ad7b1a7531de4, 0x2a90fbeb55c29d); (0xd6bd8d3a98ef2, 0x37fcd4beff518f);
   (0x6b5ec69d4c779, 0x3eb2c128d41908); (0x2cc53968139b76, 0x260f4cfe3ed3fd); (0x218d9e1127e55d, 0x260f4cfe3ed3fd); (0x23ce7587b35cad, 0x260f4cfe3ed3fd);
   (0x24eee142f91855, 0x260f4cfe3ed3fd); (0x23ce7587b35cad, 0x297090301006f5); (0x23ce7587b35cad, 0x269f82dbe1b1d1); (0x2536fc31ca873f, 0x269f82dbe1b1d1);
   (0x23ce7587b35cad, 0x2ad916da273187); (0x23ce7587b35cad, 0x2753c630ed471a); (0x377858a02a003a, 0x13a9e31876a38d); (0x2f660f688ba3aa, 0x13a9e31876a38d);
   (0x1bbc2c5015001d, 0x2ad916da273187); (0x1bbc2c5015001d, 0x3f06cde53318ef); (0x1bbc2c5015001d, 0x2d617d1aa40c86); (0x3272499b9dc284, 0x11a550ca8f0c69);
   (0x3c83c662ecfa14, 0x11a550ca8f0c69); (0x2fe733fc058973, 0x11a550ca8f0c69); (0x2fe733fc058973, 0x28535ff8c5b49a); (0x2fe733fc058973, 0x1429affc62da4d);
   (0x2fe733fc058973, 0x220871fc3431e0); (0x2fe733fc058973, 0x110438fe1a18f0); (0x2fe733fc058973, 0x252de8fa7cf33d); (0x2fe733fc058973, 0x2a8a8e7b413e58);
   (0x2fe733fc058973, 0x1545473da09f2c); (0x1aa1ecbe64ea47, 0x35168ab759474e); (0x1aa1ecbe64ea47, 0x352d321a118dee); (0x353885cb6db13e, 0x1a96990d08c6f7);
   (0x354f2d2e25f7de, 0x1a8b455baca3a7); (0x1aa7969712fbef, 0x3532dbf2bf9f96); (0x3541049072cbba, 0x1a996df95fcfcb); (0x3539f0419935a8, 0x1a996df95fcfcb);
   (0x354818df4c61cc, 0x1a9259aa8639b9); (0x1aa40c6fa630e6, 0x3536661a2c6a9f); (0xd520637d31873, 0x3536661a2c6a9f); (0x3559cba46c58f9, 0xd405372b32146);
   (0x3bf9f55dc5e99c, 0x6a029b95990a3); (0x249d24683c8571, 0x2b3d4e21961614); (0x3fcec700e26fbf, 0x6a029b95990a3); (0x3db81f428442bd, 0x6a029b95990a3);
   (0x2f6c77f0a20af6, 0x360ca1a9fb9b99); (0x17b63bf851057b, 0x360ca1a9fb9b99); (0x3aedb4556f05ac, 0x6a029b95990a3); (0x3e97aac9775605, 0x6a029b95990a3);
   (0x3e97aac9775605, 0x229bea41687354); (0x3c68cdf817a5d1, 0x6a029b95990a3); (0x3c0522be1eddc6, 0x6a029b95990a3); (0x24a2bb1868ff86, 0x2b42e4d1c29029);
   (0x10c23dec5c4d9d, 0x31e30e8b1c20cc); (0x29b3c531ea5e03, 0x18f187458e1066); (0x362c88d4b16636, 0xc78c3a2c70833); (0x3407cbafe6c381, 0xc78c3a2c70833);
   (0x224bd24caa2b5, 0x3e5bd22de328ff); (0x204047a956e5da, 0x3e5bd22de328ff); (0x102023d4ab72ed, 0x3e5bd22de328ff); (0x226504ce21888f, 0x2e3bae5937b612);
   (0x3982dbfabd6398, 0x171dd72c9bdb09); (0x1cc16dfd5eb1cc, 0x33df4529fa8cd5); (0x1cc16dfd5eb1cc, 0x3a1257e44de395); (0xe60b6feaf58e6, 0x3a1257e44de395);
   (0x7305b7f57ac73, 0x3a1257e44de395); (0x7305b7f57ac73, 0x3d62c7af3179d0); (0x23f1c97cb65e3f, 0x20a159b1d2c804); (0x23f1c97cb65e3f, 0x344276559fc241);
   (0x2c1a1fe92b1040, 0x344276559fc241); (0x395bdf14b9692c, 0x828566c74b201); (0x3d4f493c2f7c9a, 0x828566c74b201); (0x3720a7e375d450, 0x3f48fe4fea8651);
   (0x26cffb0a8c704e, 0x28c9b01e477a05); (0x1367fd85463827, 0x3c31ada38db22c); (0x1367fd85463827, 0x3180d4570d113d); (0x24d645f6d16697, 0x1e18d6d1c6d916);
   (0x33e2b15fb4d322, 0xf0c6b68e36c8b); (0x380a2f81a142a7, 0xf0c6b68e36c8b); (0x238b4d75425799, 0x3297b8de25c424); (0x395528033051a5, 0xf0c6b68e36c8b);
   (0x333d351eed4ba3, 0xf0c6b68e36c8b); (0x30313baccbc8a2, 0x3f3da715af352d); (0x121864db04ef8c, 0x3925b4316c2f2b); (0x90c326d8277c6, 0x3925b4316c2f2b);
   (0x4861936c13be3, 0x3dabcd682d6b0e); (0x169e7e11c62b6f, 0x3925b4316c2f2b); (0x3e8097335f58bc, 0x27e21921992d4d); (0x1f404b99afac5e, 0x27e21921992d4d);
   (0xfa025ccd7d62f, 0x37823eee71037c); (0x6fe5844ee5540, 0x3925b4316c2f2b); (0x37f2c22772aa0, 0x3ca4e053e359cb); (0x1bf96113b9550, 0x3e6476651eef1b);
   (0x8bdee5629ea90, 0x3ae54a42a7c47b); (0x45ef72b14f548, 0x3f44416dbcb9c3); (0x22f7b958a7aa4, 0x3f44416dbcb9c3); (0xaed69ebb46534, 0x3ae54a42a7c47b);
   (0x576b4f5da329a, 0x3ae54a42a7c47b); (0x2bb5a7aed194d, 0x3da0a4bd94ddc8); (0x270261cf91bacb, 0x24470754a4a17e); (0x31efcbbb461fff, 0x24470754a4a17e);
   (0x31efcbbb461fff, 0x122383aa5250bf); (0x342d2b5d1e891e, 0x122383aa5250bf); (0x3fd116bd76a647, 0x23d5fa1d8691f); (0x2c3a1958e1954e, 0x2e7778fab9fe6d);
   (0x161d0cac70caa7, 0x2e7778fab9fe6d); (0x3ddc66c1a18db7, 0x185a6c4e4933c6); (0x3ddc66c1a18db7, 0xc2d36272499e3); (0x3d5f3ac2ac4793, 0xc2d36272499e3);
   (0x3d5f3ac2ac4793, 0x24c63874e870bb); (0x1899024dc3d6d8, 0x3ce20ec3b7016f); (0xc4c8126e1eb6c, 0x3ce20ec3b7016f); (0x626409370f5b6, 0x3ce20ec3b7016f);
   (0x1ebf42e134cc8e, 0x24490c75f32a97); (0xf5fa1709a6647, 0x33a8ade68d90de); (0xf5fa1709a6647, 0x389399d47b94fd); (0x37f4bc2dab3b13, 0xa74b582ac6228);
   (0x3d2f16ef016c27, 0x53a5ac1563114); (0x3fcc444fac84b1, 0x29d2d60ab188a); (0x3fcc444fac84b1, 0x14e96b0558c45); (0x3d2f16ef016c27, 0x688f171abbd59);
   (0x2864f5a2025219, 0x2eede713ae0f72); (0x2864f5a2025219, 0x3fdbe92bd959d2); (0x3d2f16ef016c27, 0x1776f389d707b9); (0x2a53053c6c39f0, 0x1776f389d707b9);
   (0x2ca076280d24b1, 0x1776f389d707b9); (0x3e102b9a1d2485, 0x24d70eba0eac1); (0x3735377728332d, 0x3982a862c91dee); (0x3735377728332d, 0x1cc15431648ef7);
   (0x29fb45d4466112, 0x1cc15431648ef7); (0x256063fd048b90, 0x1cc15431648ef7); (0x2f71862fe6d4bf, 0x1cc15431648ef7); (0x26196d30a5b1db, 0x1cc15431648ef7);
   (0x2f71862fe6d4bf, 0x302a8f6387fb0a); (0x2f71862fe6d4bf, 0x181547b1c3fd85); (0x23c366f0d56922, 0x3bd8aea29966a7); (0x3b1fa56ef8405c, 0x3bd8aea29966a7);
   (0x1d8fd2b77c202e, 0x3bd8aea29966a7); (0xec7e95bbe1017, 0x3bd8aea29966a7); (0x25504bff2bbb5f, 0x3bd8aea29966a7); (0x25504bff2bbb5f, 0x26095532cce1aa);
   (0x25504bff2bbb5f, 0x3854f698922c34); (0x25504bff2bbb5f, 0x1c2a7b4c49161a); (0x2dbd137e6d3a59, 0x1304aa996670d5); (0x336589a550466c, 0x1304aa996670d5);
   (0x19b2c4d2a82336, 0x2cb76f6c0e940b); (0x270ef9452b87f8, 0x2cb76f6c0e940b); (0x13877ca295c3fc, 0x2cb76f6c0e940b); (0x9c3be514ae1fe, 0x367b2dbd597609);
   (0x4e1df28a570ff, 0x3b5d0ce5fee708); (0x18695bcb3b34fb, 0x3b5d0ce5fee708); (0x3617e23e3aa87f, 0x1dae8672ff7384); (0x3617e23e3aa87f, 0xed743397fb9c2);
   (0x3eb1be122921df, 0xed743397fb9c2); (0x3eb1be122921df, 0x76ba19cbfdce1); (0x395194adb41603, 0x76ba19cbfdce1); (0x230eafd7747f60, 0x251a280fbf5065);
   (0x36a17ffb799015, 0x251a280fbf5065); (0x2dddd4059c703d, 0x251a280fbf5065); (0x297bfe0aade051, 0x251a280fbf5065); (0x297bfe0aade051, 0x3d0ece2eb2f106);
   (0x297bfe0aade051, 0x1e876717597883); (0x297bfe0aade051, 0x2401b29103ac6a); (0x347094fe02481f, 0x190d1b9daf449c); (0x347094fe02481f, 0xc868dced7a24e);
   (0x3ab3dbe56e1946, 0x64346e76bd127); (0x27ea072f2aa5d1, 0x1f5062851b15c3); (0x239d34da22ddca, 0x1f5062851b15c3); (0x11ce9a6d116ee5, 0x311efcf22c84a8);
   (0x3e0573f143dcbd, 0xd81c81809a6de); (0x3e0573f143dcbd, 0x6c0e40c04d36f); (0x2924100aa92b85, 0x2fe4f416adfef4); (0x2924100aa92b85, 0x17f27a0b56ff7a);
   (0x2924100aa92b85, 0x2574422360a658); (0x2924100aa92b85, 0x3bde311c597eb1); (0x3281209381551b, 0x3bde311c597eb1); (0x3281209381551b, 0x2ed152ac38cfee);
   (0x3281209381551b, 0x1768a9561c67f7); (0x3281209381551b, 0x24f4e4f4cede89); (0xd8c3b9eb27692, 0x3eda6033c42d8b); (0x6c61dcf593b49, 0x3eda6033c42d8b);
   (0x6c61dcf593b49, 0x3de8b63ef3a18e); (0x6c61dcf593b49, 0x3a0cd25cdebdeb); (0x21de950cbe286d, 0x2c8096be2c4759); (0x272f95e57537e3, 0x2c8096be2c4759);
   (0x272f95e57537e3, 0x29d81651d0bf9e); (0x1f3614a062a0b2, 0x2c8096be2c4759); (0x3c1ba10e5d97b2, 0x2c8096be2c4759); (0x1e0dd0872ecbd9, 0x2c8096be2c4759);
   (0x3d43e527916c8b, 0x2c8096be2c4759); (0x34e23df2ded9f2, 0x2c8096be2c4759); (0x1a711ef96f6cf9, 0x2c8096be2c4759); (0x3de9f9d53d4722, 0x2378dadbcdda29);
   (0x1a711ef96f6cf9, 0x2d26ab6bd821f0); (0x1a711ef96f6cf9, 0x310474af5b7df1); (0x1a711ef96f6cf9, 0x25bac9d4657575); (0x29989317e8d176, 0x310474af5b7df1);
   (0x14cc498bf468bb, 0x310474af5b7df1); (0x37b4a8a99c5c11, 0x22e85f1da7f356); (0x1b7c7d863546db, 0x310474af5b7df1); (0x2640791ac86266, 0x310474af5b7df1);
   (0x13203c8d643133, 0x310474af5b7df1); (0x3532952bc408c5, 0x2212589e5fd792); (0x174e5d09ccbc07, 0x310474af5b7df1); (0x242968dc941cfc, 0x310474af5b7df1);
   (0x1214b46e4a0e7e, 0x310474af5b7df1); (0x2963117816ca85, 0x310474af5b7df1); (0x2d33c313b9243b, 0x310474af5b7df1); (0x2d33c313b9243b, 0x2f1c1be18a5116);
   (0x25925fdc7470cf, 0x2f1c1be18a5116); (0x3d206dcd39995a, 0x178e0df0c5288b); (0x361e44d761f538, 0x178e0df0c5288b); (0x329d305c762327, 0x178e0df0c5288b);
   (0x399f59524dc749, 0x140cf975d9567a); (0x399f59524dc749, 0xa067cbaecab3d); (0x2bd967c189e480, 0x35dfe47c768fbd); (0xdc5f190c3e2c9, 0x3fe66137633afa);
   (0x2db9222c758046, 0x1ff3309bb19d7d); (0x36cfc1b1ec5da0, 0x1ff3309bb19d7d); (0xdc5f190c3e2c9, 0x3b370f2c16358b); (0x324471ef30eef3, 0x247e805e6d0c2a);
   (0x324471ef30eef3, 0x123f402f368615); (0x2241d90f33ba84, 0x3481193e6a4099); (0x324471ef30eef3, 0x147be77e6fd7bb); (0x324471ef30eef3, 0x23602cb6d06357);
   (0x2ad24f5300a925, 0x23602cb6d06357); (0x324471ef30eef3, 0x3f4e36d17080e0); (0x324471ef30eef3, 0x1fa71b68b84070); (0x324471ef30eef3, 0xfd38db45c2038);
   (0x2c9c8d21c8e4b, 0x3e670f99214b56); (0x2a5aab1502ded7, 0x2790e242e6508c); (0x3e231c3676071d, 0x13c87121732846); (0x3e231c3676071d, 0x9e43890b99423);
   (0x169239f38fb691, 0x31751ad39fe4af); (0x2403aa6397cda0, 0x31751ad39fe4af); (0x1201d531cbe6d0, 0x31751ad39fe4af); (0x169239f38fb691, 0x2ce4b611dc14ee);
   (0x2d0494fc7dc108, 0x16725b08ee0a77); (0x16824a7e3ee084, 0x2cf4a5872ceafb); (0x169239f38fb691, 0x2cd4c69c8b3ee1); (0x3845ba3b9d314a, 0x21b380480d7ab9);
   (0x1c22dd1dce98a5, 0x3dd65d65dc135e); (0x1c22dd1dce98a5, 0x3b0e0bd0bca254); (0x357d68a67dc040, 0x21b380480d7ab9); (0x1abeb4533ee020, 0x3c72349b4c5ad9);
   (0xd5f5a299f7010, 0x3c72349b4c5ad9); (0x66a8e34d0d577, 0x3c72349b4c5ad9); (0x216e61680e9828, 0x3c72349b4c5ad9); (0x10b730b4074c14, 0x3c72349b4c5ad9);
   (0x38902050e6b9b3, 0x1b03d3333dc2b1); (0x29c9f9c2123e32, 0x1b03d3333dc2b1); (0x14e4fce1091f19, 0x2fe8d01446e1ca); (0x14e4fce1091f19, 0x2cd964eb2c8ffe);
   (0x38902050e6b9b3, 0x17f4680a2370e5); (0x2842442d85154c, 0x17f4680a2370e5); (0x2c158a20e5fb8b, 0x17f4680a2370e5); (0x246efe3a242f0d, 0x1bc7adfd845724);
   (0x3252d538e65a9f, 0xde3d6fec22b92); (0x3944c0b8477068, 0x6f1eb7f6115c9); (0x1d7d12bac31944, 0x22b9997ce56ced); (0xebe895d618ca2, 0x317822da46f98f);
   (0x38d76788f7bfe0, 0x317822da46f98f); (0x24dc576973df95, 0x1b5a54ce34a69c); (0x328981d08e32e3, 0xdad2a671a534e); (0x396017041b5c8a, 0x6d695338d29a7);
   (0x2386a0b59ad7ec, 0x2a5d35e9280193); (0xf02e11af35af7, 0x3133cb1cb52b3a); (0x279cc6a94df094, 0x1899e58e5a959d); (0x2c6848e3018de7, 0x1899e58e5a959d);
   (0x22d1446f9a5341, 0x1d6567c80e32f0); (0x3183f853a16cb9, 0xeb2b3e4071978); (0x38dd5245a4f975, 0x75959f2038cbc); (0x1b77ea7d96c685, 0x24bec1ba11bfac);
   (0x2dd74b5a9fa65b, 0x125f60dd08dfd6); (0x3706fbc9241646, 0x92fb06e846feb); (0x24b32e53167b0e, 0x2de2dec19aeaf9); (0x9241d07892b4d, 0x37128f301f5ae4);
   (0x24ad649f98d8bf, 0x1b8947980fad72); (0x3272086ba0af78, 0xdc4a3cc07d6b9); (0x9241d07892b4d, 0x3bb315f49e0650); (0x26fda801d82e75, 0x1dd98afa4f0328);
   (0x26fda801d82e75, 0x35ea6d7effb009); (0x9241d07892b4d, 0x3857a162b3314a); (0x379827c7f51a8c, 0x2e740ac06bef3f); (0x1bcc13e3fa8d46, 0x2e740ac06bef3f);
   (0x3c5a14b26935e2, 0x2e740ac06bef3f); (0x170a26f98671f0, 0x2e740ac06bef3f); (0x39f91e3d2f2837, 0x2e740ac06bef3f); (0x3436947ecd8bbb, 0x2e740ac06bef3f);
   (0x3fbba7fb90c4b3, 0x22eef743a8b647); (0x31554f9f9cbd7d, 0x22eef743a8b647); (0x31554f9f9cbd7d, 0x2a222371a2b9e2); (0x23ffdce5e21207, 0x2a222371a2b9e2);
   (0x3910ee9eb36ef8, 0x151111b8d15cf1); (0x319989082b146d, 0x151111b8d15cf1); (0x38665f194f95a0, 0x151111b8d15cf1); (0x38665f194f95a0, 0x30eef982c73b15);
   (0x1c332f8ca7cad0, 0x30eef982c73b15); (0xe1997c653e568, 0x3f0891491b207d); (0x31c42ce9840ac3, 0x14bbc9f61f7045); (0x233ffb6fd1bd84, 0x37fbc565f12dc9);
   (0x119ffdb7e8dec2, 0x37fbc565f12dc9); (0x3f4192a5d7cdb2, 0x31bcc3e369183); (0x2c0ffa4bc62ce5, 0x2f2bc689fcbe68); (0x2c0ffa4bc62ce5, 0x1795e344fe5f34);
   (0x2c0ffa4bc62ce5, 0x37daebee455c7f); (0x204508a946fd4b, 0x3af6b82c7bee02); (0x204508a946fd4b, 0x3dc064bf84f44c); (0x3f253b09097771, 0x1ee0325fc27a26);
   (0x164d649848325, 0x3fc69334271659); (0x164d649848325, 0x3f401f103911ed); (0x274aaa1c755a42, 0x25e5d3d2f0d71d); (0x2b792cf902e3b1, 0x2480fd896c53f8);
   (0x3db9abbdb90dad, 0x12407ec4b629fc); (0x3db9abbdb90dad, 0x9203f625b14fe); (0x3db9abbdb90dad, 0x4901fb12d8a7f); (0x39298c0c8b832e, 0x16d09e75e3b47b);
   (0x3365647c297612, 0x16d09e75e3b47b); (0x19b2b23e14bb09, 0x308350b3f86f84); (0x1f76d9ce76c825, 0x308350b3f86f84); (0x37b8822872ffe7, 0x1841a859fc37c2);
   (0x37b8822872ffe7, 0xc20d42cfe1be1); (0x37b8822872ffe7, 0x3ca424e0f68b65); (0x3a2e5384b4c5a6, 0x3ca424e0f68b65); (0x1d1729c25a62d3, 0x3ca424e0f68b65);
   (0x1d1729c25a62d3, 0x2cdda751a8771c); (0x37b8822872ffe7, 0x2cdda751a8771c); (0x37b8822872ffe7, 0x166ed3a8d43b8e); (0x37b8822872ffe7, 0xb3769d46a1dc7);
   (0x161244ab34a692, 0x381511261294e3); (0xb0922559a5349, 0x381511261294e3); (0x218f19bdd67416, 0x381511261294e3); (0x372dabac03a06d, 0x1685f7683c20cd);
   (0x3d5fc8f25c016a, 0x1685f7683c20cd); (0x1eafe4792e00b5, 0x3535dbe16a2182); (0x394ad269e31176, 0x1a9aedf0b510c1); (0x2aeec81298d091, 0x1685f7683c20cd);
   (0x37405725a6997c, 0x1685f7683c20cd); (0x1ba02b92d34cbe, 0x322622fb0f6d8b); (0x25d493e801a4a0, 0x322622fb0f6d8b); (0x12ea49f400d250, 0x322622fb0f6d8b);
   (0x97524fa006928, 0x3b9b47f50fd6b3); (0x2f49b8e2020dc8, 0x1f3bd9070e9b3b); (0x17a4dc710106e4, 0x36e0b5780fa21f); (0xbd26e38808372, 0x36e0b5780fa21f);
   (0x5e9371c4041b9, 0x3cc9ec944fe3d8); (0x1d8e138d41489d, 0x252510234edcf4); (0x30209b9ee8b717, 0x12928811a76e7a); (0x3969dfa7bc6e54, 0x9494408d3b73d);
   (0x3969dfa7bc6e54, 0x2e6e542c229431); (0x1cb4efd3de372a, 0x2e6e542c229431); (0xe5a77e9ef1b95, 0x3cc8cc1611afc6); (0x360af339672ce2, 0x11b96458445d07);
   (0x1b05799cb39671, 0x2cbeddf4f7f378); (0x3164e8972f902d, 0x165f6efa7bf9bc); (0x3c94a0146d8d0b, 0xb2fb77d3dfcde); (0x26353119f1934f, 0x37ee957235f056);
   (0x26353119f1934f, 0x1bf74ab91af82b); (0x21163de98645bd, 0x3d0d88a2a13de8); (0x2b54244a5ce0e1, 0x3d0d88a2a13de8); (0x2b54244a5ce0e1, 0x1e86c451509ef4);
   (0x3a97867305305b, 0xf436228a84f7a); (0x1c10c221b49167, 0x304028a994fbfb); (0x1c10c221b49167, 0x26287565a4c6b1); (0x211c9bc3acac0c, 0x26287565a4c6b1);
   (0x3d2d5de5613d73, 0x2b344f079ce156); (0x3d2d5de5613d73, 0x159a2783ce70ab); (0x3efdea386647ba, 0x159a2783ce70ab); (0x1f7ef51c3323dd, 0x35191ca0019488);
   (0x317803f9f77ffa, 0x159a2783ce70ab); (0x2e562980ca30a8, 0x159a2783ce70ab); (0x2cc53c443388ff, 0x159a2783ce70ab); (0x3308f1368e27a3, 0x159a2783ce70ab);
   (0x39ebb3e0fcbcd2, 0x159a2783ce70ab); (0x329001744ccf14, 0x159a2783ce70ab); (0x329001744ccf14, 0x3972c41ebb6443); (0x194800ba26678a, 0x3972c41ebb6443);
   (0xca4005d1333c5, 0x3972c41ebb6443); (0xca4005d1333c5, 0x3c5362f80db38e); (0x3f3401d16002d9, 0x2faf629afa7fc9); (0x3f3401d16002d9, 0x3771b2362d4151);
   (0x3b52da03c6a215, 0x3771b2362d4151); (0x1365c703fee3d4, 0x3771b2362d4151); (0x9b2e381ff71ea, 0x3771b2362d4151); (0x3c4b23f72cfa46, 0x3771b2362d4151);
   (0x183f38c4fe9cc9, 0x329840752d885c); (0x318b58ff9560f7, 0x194c203a96c42e); (0x3e31691ce0c30e, 0xca6101d4b6217); (0x3864d4c90725b5, 0xca6101d4b6217);
   (0x1272a47124ff70, 0x3f3e509278ea73); (0x9395238927fb8, 0x3f3e509278ea73); (0x49ca91c493fdc, 0x3f3e509278ea73); (0x49ca91c493fdc, 0x3e8f3dc89fdbfb);
   (0x24e548e249fee, 0x3e8f3dc89fdbfb); (0x1272a47124ff7, 0x3fb6680fb22bf2); (0x5c3d3635b8fd3, 0x3b19bef368ec16); (0x5c3d3635b8fd3, 0x3a60006a7e452a);
   (0x5c3d3635b8fd3, 0x3fc6f489648187); (0x3410de2072b826, 0x2e4d0abd172853); (0x39d4b183ce47f9, 0x1d0190930478da); (0x39d4b183ce47f9, 0xe80c849823c6d);
   (0x39d4b183ce47f9, 0x242abce6a84233); (0x15a9f49d2605c6, 0x32d9f4d265285b); (0xad4fa4e9302e3, 0x3daeef20f82b3e); (0xad4fa4e9302e3, 0x3f56667c351e48);
   (0x3628e388df0e6f, 0x14027d41e912bc); (0x3628e388df0e6f, 0xa013ea0f4895e); (0x3b2982d959531e, 0x5009f507a44af); (0x1d94c16caca98f, 0x229560bd26ee3e);
   (0x139382cbb82031, 0x2c969f5e1b779c); (0x29ded27ac5dbff, 0x164b4faf0dbbce); (0x35047a524cb9e6, 0xb25a7d786dde7); (0x139382cbb82031, 0x37bc4735a25583);
   (0x25a7e500ad3ada, 0x37bc4735a25583); (0x12d3f280569d6d, 0x37bc4735a25583); (0xbf904b6182c4, 0x3f75a06f1321bd); (0x5fc825b0c162, 0x3fd56894c3e31f);
   (0x2fe412d860b1, 0x3fd56894c3e31f); (0x2f29d04a44b9e9, 0x2ef9ec376c5938); (0x2fb97c82cddbfc, 0x2eca082493f887); (0x17dcbe4166edfe, 0x2eca082493f887);
   (0xbee5f20b376ff, 0x3ab86745476f86); (0x3ba7dba38152fb, 0x2eca082493f887); (0x3538f1e40aa5c1, 0x2eca082493f887); (0x32017d044f4f24, 0x2eca082493f887);
   (0x387066c3c5fc5e, 0x285b1e651d4b4d); (0x1c383361e2fe2f, 0x285b1e651d4b4d); (0x3e81dc456322ed, 0x2249a8e38024be); (0x3e81dc456322ed, 0x1124d471c0125f);
   (0x3d7250324bc19f, 0x61175819d268f); (0x21c1e2d9f47417, 0x27d3585b919aa6); (0x35ab8f07bd416a, 0x13e9ac2dc8cd53); (0x2f9a1986201adb, 0x19fb21af65f3e2);
   (0x3c97aa5dd314cc, 0xcfd90d7b2f9f1); (0x2b4966069c8457, 0x3846f6de4f7e48); (0x450b37f839684, 0x3ca320b6fb4b31); (0x22859bfc1cb42, 0x3ecb7a76bd1673);
   (0x1142cdfe0e5a1, 0x3fdfa7569dfc14); (0x2440872ad2948e, 0x232c5a4af1aeed); (0x2668e0ea945fd0, 0x2104008b2fe3ab); (0x133470754a2fe8, 0x343871007a1393);
   (0x99a383aa517f4, 0x3dd2a93b1f2b87); (0x300319253977c4, 0x2104008b2fe3ab); (0x18018c929cbbe2, 0x39058d1dcc9f8d); (0xc00c6494e5df1, 0x39058d1dcc9f8d);
   (0x3c03df6e87d5b5, 0x15033a41e185ba); (0x3c03df6e87d5b5, 0xa819d20f0c2dd); (0x2342be47bc4c49, 0x2dc45b68ad0f26); (0x3a24ebfc12d3dc, 0x16e22db4568793);
   (0x3de2d2e0fcd78e, 0x16e22db4568793); (0x35d39724d4f35a, 0x16e22db4568793); (0x31cbf946c10140, 0x16e22db4568793); (0x2b08430aba4215, 0x16e22db4568793);
   (0x37d76613deec67, 0x16e22db4568793); (0x3e3ef798714190, 0x16e22db4568793); (0x3f2e58611dfc97, 0x6679184925529); (0x3601a9808f285b, 0x3c693b05217d84);
   (0x3601a9808f285b, 0x1e349d8290bec2); (0x3601a9808f285b, 0x2b03c08bb56914); (0x3601a9808f285b, 0x1581e045dab48a); (0x3601a9808f285b, 0xac0f022ed5a45);
   (0x3601a9808f285b, 0x20614cd1be4150); (0x207fc93ab473d1, 0x2b223cf4ab9b95); (0x25d10317b007b3, 0x2b223cf4ab9b95); (0x25d10317b007b3, 0x2879a0062dd1a4);
   (0x1dd72c4c36a9e0, 0x2b223cf4ab9b95); (0x3a0dd31ac6f085, 0x2b223cf4ab9b95); (0x3a0dd31ac6f085, 0x32980807b9460d); (0x775cb130daa78, 0x3b0188373b0e11);
   (0x3bae58986d53c, 0x3ebc6dc0c1e34d); (0x1dd72c4c36a9e, 0x3ebc6dc0c1e34d); (0xeeb96261b54f, 0x3fab272323989c); (0x4a99eebe88a8b, 0x3fab272323989c);
   (0x4a99eebe88a8b, 0x3bcf4d19050b90); (0x4a99eebe88a8b, 0x3e8afeffde4f95); (0x17501a9b8ab4b7, 0x39e16013f5c50a); (0x3440caa585973c, 0x1cf0b009fae285);
   (0x3711155cbdae23, 0x1cf0b009fae285); (0x3711155cbdae23, 0x229145786b1053); (0x3711155cbdae23, 0x2cd12d6a945f3b); (0x3711155cbdae23, 0x31f12163a906af);
   (0x3711155cbdae23, 0x34811b60335a69); (0x3711155cbdae23, 0x2a41336e0a0b81); (0x3711155cbdae23, 0x30a9246563dcd2); (0x3711155cbdae23, 0x18549232b1ee69);
   (0x2524742165910b, 0x2a41336e0a0b81); (0x2524742165910b, 0x27b2d3c7b7ce46); (0x38fdde0541782e, 0x13d969e3dbe723); (0x2524742165910b, 0x3e1a9d51e5f2a4);
   (0x2524742165910b, 0x1f0d4ea8f2f952); (0x34ab1b75df0db4, 0xf86a754797ca9); (0x29dc350f690383, 0x3962dc63e2802c); (0x29dc350f690383, 0x23c50f96f66bca);
   (0x29dc350f690383, 0x3bbebcdae43968); (0x29dc350f690383, 0x1ddf5e6d721cb4); (0x29dc350f690383, 0x17c838f4ff84fb); (0x29dc350f690383, 0x20d2370234443f);
   (0x29dc350f690383, 0x25573608cea3e1); (0x376b3223382269, 0x20d2370234443f); (0x2c1eb492b63354, 0x20d2370234443f); (0x160f5a495b19aa, 0x36e1914b8f5de9);
   (0xb07ad24ad8cd5, 0x36e1914b8f5de9); (0xb07ad24ad8cd5, 0x35ce4f9c3dd4e9); (0xb07ad24ad8cd5, 0x367a58a9d0ca89); (0xb07ad24ad8cd5, 0x36d05d309a4559);
   (0x372661b763c029, 0xab1a89de41205); (0x372661b763c029, 0x20ec052aa3e917); (0x372661b763c029, 0x2c09337103d4a0); (0x3791e75fdf99ad, 0x20ec052aa3e917);
   (0x2c3ef64541c162, 0x20ec052aa3e917); (0x161f7b22a0e0b1, 0x370b804d44c9c8); (0x31a53b49434595, 0x1b85c026a264e4); (0x161f7b22a0e0b1, 0x311ed436a875b0);
   (0x161f7b22a0e0b1, 0x2eaee53df51b89); (0x3886ab52ebdece, 0x226730304afe1d); (0x3d7e93767bedc5, 0xc47b50daa1d6c); (0x3d7e93767bedc5, 0x623da86d50eb6);
   (0x3d7e93767bedc5, 0x311ed436a875b); (0x3ddebc3f215869, 0x311ed436a875b); (0x3f2b99636f3970, 0x311ed436a875b); (0x3e491153e0e646, 0x311ed436a875b);
   (0x3dd7cd4c19bcb1, 0x311ed436a875b); (0x34a20581da26a0, 0xf59a25114a4c7); (0x29aaa51201b817, 0x39044763165cde); (0x29aaa51201b817, 0x1c8223b18b2e6f);
   (0x3f9965f1b29529, 0x23120f09e1b1f); (0x23166461c67343, 0x25478552648e62); (0x23166461c67343, 0x35ba270af8ba74); (0x23166461c67343, 0x3a1c68ec34f0b2);
   (0x23166461c67343, 0x1d0e34761a7859); (0x23166461c67343, 0x20124c6bf075ce); (0x23166461c67343, 0x331f8a97beae2a); (0x3f2fea6f16a3fe, 0x10092635f83ae7);
   (0x3faa41a37bc7cd, 0x10092635f83ae7); (0x37e2da22b23c41, 0x10092635f83ae7); (0x27d9b3ecba015a, 0x28540b211f2529); (0x13ecd9f65d00ad, 0x3c40e5177c25d6);
   (0x13ecd9f65d00ad, 0x320d4c821b1398); (0x275f5cb854dd8b, 0x1e20728bbe12eb); (0x22bfe7a209783b, 0x1e20728bbe12eb); (0x20702d16e3c593, 0x3e909fa2a1d87e);
   (0x20702d16e3c593, 0x3fb87ce834b1d2); (0x22bfe7a209783b, 0x3fb87ce834b1d2); (0x22bfe7a209783b, 0x1fdc3e741a58e9); (0x214e130b11e892, 0x1fdc3e741a58e9);
   (0x25a390cff8978d, 0x1e6a69dd22c940); (0x34d8c5be89fc2d, 0xf3534ee9164a0); (0x3c736035d2ae7d, 0x79a9a7748b250); (0x3c736035d2ae7d, 0x260504546b7b90);
   (0x3c736035d2ae7d, 0x1302822a35bdc8); (0x3c736035d2ae7d, 0x98141151adee4); (0x3c736035d2ae7d, 0x4c0a08a8d6f72); (0x2970de0b9cf0b5, 0x17c322b4c32d3a);
   (0x35526f65fe8752, 0xbe1915a61969d); (0x326c5a67c270e3, 0x3e4debc2240780); (0xec7a6589dad0c, 0x3b67d6c3e7f111); (0x763d32c4ed686, 0x3b67d6c3e7f111);
   (0x3b1e996276b43, 0x3f19c05a0f5c54); (0x12798feec5184f, 0x3f19c05a0f5c54); (0x3206701bccc679, 0x1f8ce02d07ae2a); (0x3206701bccc679, 0xfc6701683d715);
   (0x3206701bccc679, 0x1cd9c054c66cf0); (0x3206701bccc679, 0xe6ce02a633678); (0x393ce030fe61b5, 0x7367015319b3c); (0x393ce030fe61b5, 0x3cd8183b972f53);
   (0x393ce030fe61b5, 0x12081834fc0416); (0x393ce030fe61b5, 0x9040c1a7e020b); (0x393ce030fe61b5, 0x21207625be31e0); (0x181c6a0b402fd5, 0x2d143c84760a37);
   (0x181c6a0b402fd5, 0x3ab4bd531b4cdb); (0x181c6a0b402fd5, 0x296893af2dbe58); (0x3709147dd300fc, 0xa7be93c9aed31); (0x1b848a3ee9807e, 0x2600737b846daf);
   (0xdc2451f74c03f, 0x33c2b89af92dee); (0x27a3a16cf15736, 0x19e15c4d7c96f7); (0xdc2451f74c03f, 0x3c9b73e6273198); (0xdc2451f74c03f, 0x39d24431fd194a);
   (0x2aab6738734ce4, 0x1ce92218fe8ca5); (0xdc2451f74c03f, 0x3e000bc03c3dbf); (0xdc2451f74c03f, 0x33a36d8f4d3f3e); (0x3556410690201d, 0x2793fbe71b5fde);
   (0x38bbe7f515e1db, 0xc0f71a831df60); (0x3ec3a0c92ed18b, 0x607b8d418efb0); (0x3ec3a0c92ed18b, 0x303dc6a0c77d8); (0x3ec3a0c92ed18b, 0x181ee35063bec);
   (0x3ec3a0c92ed18b, 0x789a7091f2b9c); (0x3ec3a0c92ed18b, 0x3c4d3848f95ce); (0x3ec3a0c92ed18b, 0x1e269c247cae7); (0x3739f9c00fa5ef, 0x96c10cb66f683);
   (0x29bf16112244bc, 0x332b26dc893b3f); (0x14df8b0891225e, 0x332b26dc893b3f); (0xb737a3d2a2bdb, 0x3a8fce362cfc6a); (0x342edb956ad5eb, 0x28bb615840aa10);
   (0x342edb956ad5eb, 0x145db0ac205508); (0x3e5db3eb7b006f, 0xa2ed856102a84); (0x39416331d2db47, 0xa2ed856102a84); (0x3e58cf5cdaf089, 0x5176c2b081542);
   (0x3e58cf5cdaf089, 0x28bb615840aa1); (0x3429f706cac605, 0xcba8e6b943525); (0x39e75f9057e7df, 0xcba8e6b943525); (0x3cc613d51e78cc, 0xcba8e6b943525);
   (0x9dbda26cda438, 0x3fa4c819e509b9); (0x4eded1366d21c, 0x3fa4c819e509b9); (0x276f689b3690e, 0x3fa4c819e509b9); (0x13b7b44d9b487, 0x3fa4c819e509b9);
   (0x62968584086a3, 0x3ab6db067e379d); (0x26998a079fe5c3, 0x207021af5f5f20); (0x36d19adf4f9553, 0x103810d7afaf90); (0x3cfb0337901bf6, 0xa0ea87f6f28ed);
   (0x1e7d819bc80dfb, 0x288c2a1b3736e8); (0x32c396a963a96f, 0x1446150d9b9b74); (0xa376c8e2c7287, 0x3c80b70b583f28); (0x3ce6a130317729, 0x32af34a20504a2);
   (0x3ce6a130317729, 0x19579a51028251); (0x3ce6a130317729, 0x2b1f1dc099fcbd); (0x3aa535a8494488, 0x79016e16b07e5); (0x3402df7865b9f3, 0x3b92f659d0c1d8);
   (0x3402df7865b9f3, 0x1dc97b2ce860ec); (0x338bff1fa1fb4b, 0x1dc97b2ce860ec); (0x338bff1fa1fb4b, 0xee4bd96743076); (0x3afe5deadc1386, 0x7725ecb3a183b);
   (0x1d34e2bdf3b29a, 0x253bd9f8227927); (0x33d64b571c5274, 0x253bd9f8227927); (0x3f26ffa3b0a261, 0x253bd9f8227927); (0x3f26ffa3b0a261, 0x32316ccde98dc4);
   (0x3f26ffa3b0a261, 0x3d82211a7dddb1); (0x3f26ffa3b0a261, 0x3e54905f174009); (0x3f26ffa3b0a261, 0x3ebdc80163f135); (0x6937a24cb12c, 0x3fd0c690ceed89);
   (0x349bd1265896, 0x3fd0c690ceed89); (0x1a4de8932c4b, 0x3feb14796219d4); (0x83858adfdd77, 0x3f9c2abfa894f3); (0x83858adfdd77, 0x3fea2fc77bdc07);
   (0x83858adfdd77, 0x3f8dacc085a21a); (0x277ba98360cb06, 0x26f823f880ed8f); (0x277ba98360cb06, 0x24ea0dcd0177b3); (0x13bdd4c1b06583, 0x38a7e28eb1dd36);
   (0x13bdd4c1b06583, 0x3011c60909541e); (0xb27b83c07dc6b, 0x361646d85289e3); (0x36ee70023cebfd, 0x2bc6b7c6350f92); (0x36ee70023cebfd, 0x15e35be31a87c9);
   (0x36ee70023cebfd, 0x36825b6d47baf0); (0x36ee70023cebfd, 0x1b412db6a3dd78); (0x36ee70023cebfd, 0xda096db51eebc); (0x3dbebb6fe5e35b, 0x6d04b6da8f75e);
   (0x36ee70023cebfd, 0x221179244cd4d6); (0x36ee70023cebfd, 0x1108bc92266a6b); (0x23fb964a31ab34, 0x350452dc58159f); (0x36ee70023cebfd, 0xf1e9f6c41940d);
   (0x36ee70023cebfd, 0x230687b73f4005); (0x2cfa7bdcbe1601, 0x230687b73f4005); (0x9f3f4257ed5fc, 0x37b134d24a3849); (0x4f9fa12bf6afe, 0x3cab2ee509a347)].

(** For the exponents 100, ..., 971. *)
Definition certs_high : list (Z * Z) :=
  [(0x3d8aaccdb1f3d9, 0x3b19872ac04614); (0x3d8aaccdb1f3d9, 0x1d8cc39560230a); (0x3d8aaccdb1f3d9, 0xec661cab01185); (0x3d8aaccdb1f3d9, 0xc553c27be63c0);
   (0x3d8aaccdb1f3d9, 0x62a9e13df31e0); (0x3d8aaccdb1f3d9, 0x3154f09ef98f0); (0x3f155452a9c051, 0x18aa784f7cc78); (0x3c000548ba2761, 0x7b54598d6fe58);
   (0x3c000548ba2761, 0x3fdaa81525a68d); (0x3ded56aeefe6f7, 0x3fdaa81525a68d); (0x3a12b3e28467cb, 0x9a296ff0cbdee); (0x3ee3ff620ac6c2, 0x4d14b7f865ef7);
   (0x1f71ffb1056361, 0x24434b308bc258); (0x15cf68b1f8a573, 0x2de5e22f988046); (0x2cc259c9c4e596, 0x16f2f117cc4023); (0x16612ce4e272cb, 0x2d541dfcaeb2ee);
   (0x16612ce4e272cb, 0x2d0b3be339cc42); (0x16612ce4e272cb, 0x2e2ec4490d66f2); (0x16612ce4e272cb, 0x2d788f09692644); (0x16612ce4e272cb, 0x2d1d74699705ed);
   (0x16061245105274, 0x2dd3a9a93b469b); (0xb03092288293a, 0x38d6b2cbc36fd5); (0x581849144149d, 0x3e58375d078472); (0x581849144149d, 0x3ff4c7482df6a1);
   (0x581849144149d, 0x3e42bcc30d6cb0); (0x581849144149d, 0x3aa8f537db1d69); (0x3b9cd3bae40014, 0x361b4f299feb77); (0x1b8796d6546711, 0x3099ca985bd6da);
   (0x33d47c2282527e, 0x184ce54c2deb6d); (0x3237235d6f14ac, 0x184ce54c2deb6d); (0x3237235d6f14ac, 0x151233c2076fc9); (0x191b91aeb78a56, 0x2e2dc570befa1f);
   (0xc8dc8d75bc52b, 0x3abb8e481abf4a); (0x3ec4ec34cad9d7, 0x8846aeaabaa9e); (0x3ec4ec34cad9d7, 0x442357555d54f); (0x3ec4ec34cad9d7, 0x218390d5105793);
   (0x30243e84ed98b5, 0x218390d5105793); (0x3c5cc40f50c5bd, 0x442357555d54f); (0x2491b237a922d5, 0x28d3e7acfef824); (0x38fba60e289ee7, 0x1469f3d67f7c12);
   (0x34b97098d2c998, 0x18ac294bd55161); (0x1a5cb84c6964cc, 0x3308e1983eb62d); (0xd2e5c2634b266, 0x3308e1983eb62d); (0x1b08f0094136b, 0x3e86aebddf5528);
   (0x20f3e65f83bdff, 0x1f43575eefaa94); (0x3095920efb9349, 0xfa1abaf77d54a); (0x386667e6b77dee, 0x7d0d5d7bbeaa5); (0x28c4bc373fa8a4, 0x27142d36ab9539);
   (0x14625e1b9fd452, 0x3b768b524b698b); (0xa312f0dcfea29, 0x3b768b524b698b); (0x32f5eb450f92cd, 0x3b768b524b698b); (0x37363b4bad7e2c, 0x3b768b524b698b);
   (0x1b9b1da5d6bf16, 0x3b768b524b698b); (0x2a754b37d3bc0f, 0x1fdb6dac74aa75); (0x25285c72243342, 0x1fdb6dac74aa75); (0x12942e391219a1, 0x326f9be586c416);
   (0x2bcbfc2bd57bac, 0x1937cdf2c3620b); (0x2bcbfc2bd57bac, 0x267f0d6625f2df); (0x15e5fe15eabdd6, 0x3c650b7c10b0b5); (0xaf2ff0af55eeb, 0x3c650b7c10b0b5);
   (0x36befb36cada97, 0x31720c711b51ca); (0x36befb36cada97, 0x18b906388da8e5); (0x27bc00b7ac41be, 0x18b906388da8e5); (0x27bc00b7ac41be, 0x2c251dab6bc8fd);
   (0x13de005bd620df, 0x2c251dab6bc8fd); (0x13de005bd620df, 0x33df8f5f7715cd); (0x13de005bd620df, 0x37bcc8397cbc35); (0x13de005bd620df, 0x3c25e52d3c4374);
   (0x13de005bd620df, 0x31f0f2f2744299); (0x13de005bd620df, 0x36c57a02fb529b); (0x13de005bd620df, 0x37515e1cb53372); (0x13de005bd620df, 0x2f86af6a30ba98);
   (0x13de005bd620df, 0x3f7f586cc49f0a); (0x3c60984e984819, 0x3e55759423c6d); (0x2fb85538f633f7, 0x339dac92387064); (0x2fb85538f633f7, 0x19ced6491c3832);
   (0x3c9fc05d845010, 0xce76b248e1c19); (0x2fb85538f633f7, 0x10ccc27dd05886); (0x381eb677de603a, 0x866613ee82c43); (0x1c0f5b3bef301d, 0x2475bc7ad75c60);
   (0x1eeb92bb25db71, 0x2475bc7ad75c60); (0x312670f89189a1, 0x123ade3d6bae30); (0x3a43e0174760b9, 0x91d6f1eb5d718); (0x15ce239c700459, 0x2d932b998d3378);
   (0x2c97b969369e15, 0x16c995ccc699bc); (0x37fc844f99eaf3, 0xb64cae6634cde); (0x3daee9c2cb9162, 0x5b2657331a66f); (0x324a1edc684484, 0x1c7bfb3ff8402b);
   (0x35a10aae2c626d, 0x1c7bfb3ff8402b); (0x35a10aae2c626d, 0x290e82f712514c); (0x3edca6938255a5, 0x356ebd1c41de9); (0x2119c932a339c7, 0x2470b5046757b0);
   (0x2119c932a339c7, 0x335223b4d6e59f); (0x2119c932a339c7, 0x39fffb585f2171); (0x2119c932a339c7, 0x2d8ce245812d9c); (0x2119c932a339c7, 0x37e03a5563d095);
   (0x2119c932a339c7, 0x2faca3487c7e78); (0x2119c932a339c7, 0x38f01ad6e17903); (0x2119c932a339c7, 0x2d04f204c25965); (0x2119c932a339c7, 0x270f5d9bb2c996);
   (0x3c3dfdfc36e3bf, 0x2d04f204c25965); (0x34a178007c9e92, 0x2d04f204c25965); (0x1a50bc003e4f49, 0x2d04f204c25965); (0x1a50bc003e4f49, 0x28e396161793fa);
   (0x1a50bc003e4f49, 0x2ec2870b4a1946); (0x1a50bc003e4f49, 0x31b1ff85e35bec); (0x2ef787a9942a6, 0x3d206082d94cdd); (0x177bc3d4ca153, 0x3e981cc025ee30);
   (0x177bc3d4ca153, 0x3f963ba4a8d43a); (0x2142da0fa10b70, 0x1fcb1dd2546a1d); (0x2432528a3a4e16, 0x1cdba557bb2777); (0x121929451d270b, 0x2ef4ce9cd84e82);
   (0x29939093894e4c, 0x177a674e6c2741); (0x3bacb9d8a67557, 0x1cdba557bb2777); (0x3bacb9d8a67557, 0x2c442f9830ce67); (0x33f874b86ba1df, 0x2c442f9830ce67);
   (0x7b445203ad378, 0x3b8b425420af2b); (0x3da22901d69bc, 0x3f6564e43e18e7); (0x1ed11480eb4de, 0x3f6564e43e18e7); (0xf688a4075a6f, 0x3f6564e43e18e7);
   (0xf688a4075a6f, 0x3fb497f1a8947a); (0xf688a4075a6f, 0x3fa1e91dc6f28c); (0xf688a4075a6f, 0x3f9891b3d62195); (0x4d0ab3424c42b, 0x3dab806bc76cb7);
   (0x4d0ab3424c42b, 0x3e221908d2b173); (0x4d0ab3424c42b, 0x3e5d65575853d1); (0x18135804b7d4d7, 0x398cba23338fa6); (0x34d9b516519caa, 0x1cc65d1199c7d3);
   (0x3733379cc29628, 0x1cc65d1199c7d3); (0x1b999bce614b14, 0x385ff8dffb12e7); (0x33acf3d3191feb, 0x1cc65d1199c7d3); (0x2839a8725973df, 0x1cc65d1199c7d3);
   (0x228002c1f99dd9, 0x3f465fd39365ac); (0x2839a8725973df, 0x33d31472d3b9a0); (0x2839a8725973df, 0x19e98a3969dcd0); (0x352e6d8f0e6247, 0xcf4c51cb4ee68);
   (0x352e6d8f0e6247, 0xb996c007a45c1); (0x352e6d8f0e6247, 0x2063ecc7c45404); (0x352e6d8f0e6247, 0x1031f663e22a02); (0x3d4768c0ff7748, 0x818fb31f11501);
   (0x24fc772b2c3845, 0x287ce7f9b56905); (0x24fc772b2c3845, 0x26bcaf9270d0a5); (0x25dc935ece8475, 0x26bcaf9270d0a5); (0x3f3f03cebdbb49, 0xe01c33a24c30);
   (0x3faf11e88ee161, 0x700e19d12618); (0x3fe718f577746d, 0x38070ce8930c); (0x3fe351e6365f61, 0x38070ce8930c); (0x3fff556caaa8e7, 0x1c0386744986);
   (0x3fff556caaa8e7, 0xe01c33a24c3); (0x3ffab0f49643ad, 0xe01c33a24c3); (0x3fd0abaae7d564, 0x4608d022b7cf); (0x3fea5cf551ec4d, 0x4608d022b7cf);
   (0x3fd43132759bda, 0x4608d022b7cf); (0x3f481f92302c3c, 0x15e2c10ad970b); (0x3aff8116a7e2fa, 0x3c5dad27557a05); (0x1d7fc08b53f17d, 0x3c5dad27557a05);
   (0x1c21947aa65a72, 0x3f1a0548b0a81b); (0xe10ca3d532d39, 0x3f1a0548b0a81b); (0xe10ca3d532d39, 0x34a632005517e3); (0x215b7e1ed4228e, 0x34a632005517e3);
   (0x215b7e1ed4228e, 0x3f1a0548b0a81b); (0x10adbf0f6a1147, 0x3f1a0548b0a81b); (0x10adbf0f6a1147, 0x3891a13b776df8); (0x3c2e98306f0af9, 0x1736231ca34b6a);
   (0x3c2e98306f0af9, 0xb9b118e51a5b5); (0x2f7fe66db1fe0c, 0x3b1af7fc03a3c1); (0x2f7fe66db1fe0c, 0x3a0757c7983c89); (0x17bff336d8ff06, 0x3a0757c7983c89);
   (0xbdff99b6c7f83, 0x3a0757c7983c89); (0xbdff99b6c7f83, 0x3ab39be85b5d0c); (0x3b5fe0091e7d8f, 0x1713af1615de83); (0x3b5fe0091e7d8f, 0x2939c78f9a2e09);
   (0x3b5fe0091e7d8f, 0x324cd3cc5c55cc); (0x2d5f3d2fcac6cf, 0x2026bb52d80646); (0x3d729ad936c9f2, 0x10135da96c0323); (0x2eccab1607681c, 0x3ee008bf736b3f);
   (0x392a512680e60b, 0x10135da96c0323); (0x34b235116277ba, 0x10135da96c0323); (0x3a7fd5db894223, 0x10135da96c0323); (0x3a7fd5db894223, 0x254999c27aa2a3);
   (0x15363c190e9f80, 0x3b2a98360d702f); (0xa9b1e0c874fc0, 0x3b2a98360d702f); (0x54d8f0643a7e0, 0x3b2a98360d702f); (0x1a83cb1f524760, 0x308f7a2986206f);
   (0xd41e58fa923b0, 0x3dd15fb92f441f); (0x6a0f2c7d491d8, 0x3dd15fb92f441f); (0x2124bde726d938, 0x234d9499dcfcbf); (0x10925ef3936c9c, 0x33dff38d70695b);
   (0x8492f79c9b64e, 0x3c2923073a1fa9); (0x42497bce4db27, 0x3c2923073a1fa9); (0x14b6f6b07847c3, 0x33dff38d70695b); (0x14b6f6b07847c3, 0x39026bcf6ca052);
   (0x14b6f6b07847c3, 0x31382c982e97ec); (0x38d55626e5346b, 0x7ca3f373e0866); (0x3cba75c284389e, 0x3e51f9b9f0433); (0x39a118229b39b4, 0x3d8637be3a3de7);
   (0x35bbf886fc3581, 0x13799e0a1b14ff); (0x35bbf886fc3581, 0x249acb488ba540); (0x35bbf886fc3581, 0x124d65a445d2a0); (0x3f5db2a95ee438, 0x12c3865d5425f);
   (0x2c9545b4d94c31, 0x2dc17e1aae8e90); (0x2c9545b4d94c31, 0x16e0bf0d574748); (0x3805a53b84efd5, 0xb705f86aba3a4); (0x3805a53b84efd5, 0x3931dda15a3234);
   (0x3805a53b84efd5, 0x1c98eed0ad191a); (0x3805a53b84efd5, 0xe4c7768568c8d); (0xd203f02814a2e, 0x3a5e16072f7493); (0x6901f8140a517, 0x3a5e16072f7493);
   (0x2d9759c6b95703, 0x27073a4578b1ec); (0x6901f8140a517, 0x3fe1ad424e93d0); (0x6901f8140a517, 0x3a3154a629de44); (0x3759285817837e, 0x30c908d6d6de67);
   (0x1bac942c0bc1bf, 0x30c908d6d6de67); (0x35ed12310e561b, 0x151c74aacb1ca8); (0x35ed12310e561b, 0xa8e3a55658e54); (0x3b342f5bc11d45, 0x5471d2ab2c72a);
   (0x2617bab0f6009d, 0x1a6391d57de3d2); (0x3349839bb4f286, 0xd31c8eabef1e9); (0x340853a3585d15, 0xd31c8eabef1e9); (0x26d68ab8996b2c, 0x1b2261dd214e61);
   (0x136b455c4cb596, 0x2e8da7396e03f7); (0x9b5a2ae265acb, 0x384349e7945ec2); (0x9b5a2ae265acb, 0x39428cfe3d3fc2); (0x308c2d66bfc5f7, 0x25d747a1f08a2c);
   (0x308c2d66bfc5f7, 0x12eba3d0f84516); (0x3a01ff4f3be882, 0x975d1e87c228b); (0x27165b7e43a36c, 0x2f4d198a6cacb7); (0x138b2dbf21d1b6, 0x2f4d198a6cacb7);
   (0x9c596df90e8db, 0x3912b069fd9592); (0x30dbf25dd48c47, 0x3912b069fd9592); (0x30dbf25dd48c47, 0x1c895834fecac9); (0x26b2a54969ab88, 0x1c895834fecac9);
   (0x2fe2aad9b3a08d, 0x1c895834fecac9); (0xa294d146ae0bf, 0x381968e5dca9d8); (0x305f4e9bc4166a, 0x263601875935ab); (0x3e65a8d53b40e0, 0x263601875935ab);
   (0xa294d146ae0bf, 0x3bf6760ae8f38f); (0x37627bb87faba5, 0x2d392ea414cae6); (0x37627bb87faba5, 0x169c97520a6573); (0x3f41cba3b5e86f, 0xc734a3d9f84b4);
   (0x3f41cba3b5e86f, 0x639a51ecfc25a); (0x3f41cba3b5e86f, 0x31cd28f67e12d); (0x33dc3e75fe2bdc, 0x36f91105660d09); (0x2a85c6c7c68855, 0x3a15e394cdee36);
   (0x2a85c6c7c68855, 0x1d0af1ca66f71b); (0x23c85c4916bfb8, 0x1d0af1ca66f71b); (0x3ebe0643d5e22c, 0x1d0af1ca66f71b); (0x3c69f4ec51e831, 0x1d0af1ca66f71b);
   (0x2cba735b5c6fa6, 0x1d0af1ca66f71b); (0xfaf8190f5788b, 0x3319af8e420045); (0xfaf8190f5788b, 0x31141a209134f3); (0x30114f69b8cf4a, 0x2061cdd8c356bf);
   (0x1808a7b4dc67a5, 0x386a758d9fbe64); (0x3fc0d0faae47d5, 0x386a758d9fbe64); (0x3fc0d0faae47d5, 0x1c353ac6cfdf32); (0x3fc0d0faae47d5, 0xe1a9d6367ef99);
   (0x238b9633de68a3, 0x22f97cbd29455a); (0x35085492730b50, 0x117cbe5e94a2ad); (0x1a842a493985a8, 0x2c00e8a7ce2855); (0x238b9633de68a3, 0x3d7da70662cb02);
   (0x238b9633de68a3, 0x1ebed383316581); (0x212534db87e712, 0x3fe4085eb94c93); (0x10929a6dc3f389, 0x3fe4085eb94c93); (0x341e30a1a25c2c, 0x1ebed383316581);
   (0x1a0f1850d12e16, 0x38cdebd4029397); (0xd078c2868970b, 0x38cdebd4029397); (0x857d0f6085fa0, 0x38cdebd4029397); (0x3cf9d44f06c367, 0x38cdebd4029397);
   (0x3ae3e01184ab7f, 0x38cdebd4029397); (0xa6dc5338a7788, 0x38cdebd4029397); (0x3e04ce6dc7cf5b, 0x38cdebd4029397); (0x3b695d20e53179, 0x38cdebd4029397);
   (0x3a1ba47a73e288, 0x38cdebd4029397); (0x3e04ce6dc7cf5b, 0x3780332d9144a6); (0x3e04ce6dc7cf5b, 0x1bc01996c8a253); (0x2ce274024838d7, 0x1bc01996c8a253);
   (0x2ce274024838d7, 0x30fb97ed5ab9f1); (0x2ce274024838d7, 0x2eef05f7d17964); (0x2ce274024838d7, 0x177782fbe8bcb2); (0x135e5f10d63b98, 0x30fb97ed5ab9f1);
   (0x9af2f886b1dcc, 0x3aaac775c5d7bd); (0x4d797c4358ee6, 0x3f825f39fb66a3); (0x26bcbe21ac773, 0x3f825f39fb66a3); (0xc1afb6a85e53f, 0x3f825f39fb66a3);
   (0x25cead5240a5f1, 0x3f825f39fb66a3); (0x25cead5240a5f1, 0x32a886461e064a); (0x250fcfc8e92ad7, 0x32a886461e064a); (0x3e6412ebf82dfc, 0x195443230f0325);
   (0x38864c990b1a23, 0x195443230f0325); (0x30cb5c6ec35289, 0x13767cd021ef4c); (0x3a869ad6d44a2f, 0x9bb3e6810f7a6); (0x3f643a0adcc602, 0x4dd9f34087bd3);
   (0x2bedbd3abad6b6, 0x18541c042a6b1f); (0x2e4afaa187d67a, 0x18541c042a6b1f); (0x17257d50c3eb3d, 0x2f799954ee565c); (0x17257d50c3eb3d, 0x2ee249fb3b166b);
   (0x15f6de9d5d6b5b, 0x2ee249fb3b166b); (0x226c944c4c40e3, 0x2ee249fb3b166b); (0x28a76f23c3aba7, 0x2ee249fb3b166b); (0x15f6de9d5d6b5b, 0x351d24d2b2812f);
   (0x258a01b807f645, 0x351d24d2b2812f); (0x2d5393455d3bba, 0x351d24d2b2812f); (0x15f6de9d5d6b5b, 0x3ce6b66007c6a4); (0x346a39cd614ead, 0x1e735b3003e352);
   (0x346a39cd614ead, 0xf39ad9801f1a9); (0x310ba14ab391d4, 0xf39ad9801f1a9); (0x3e8603556a8538, 0xf39ad9801f1a9); (0x3db65cdab925ee, 0xf39ad9801f1a9);
   (0x3d4e899d607649, 0xf39ad9801f1a9); (0x3eedd692c334dd, 0xf39ad9801f1a9); (0x364d6fad6484ec, 0xf39ad9801f1a9); (0x399a1306b625c8, 0xf39ad9801f1a9);
   (0x1b26b7d6b24276, 0x30f9ac215775d7); (0xd935beb59213b, 0x3e8d080cb09712); (0x3a6d3bdd0a8dff, 0x2cd9dff1b16cc4); (0x3a6d3bdd0a8dff, 0x166ceff8d8b662);
   (0x3193a7cf8af8d8, 0x1f468406584b89); (0x18c9d3e7c57c6c, 0x381057ee1dc7f5); (0xc64e9f3e2be36, 0x381057ee1dc7f5); (0x3df891c36db70e, 0x2bab6dfa3b09bf);
   (0x1efc48e1b6db87, 0x2bab6dfa3b09bf); (0x1efc48e1b6db87, 0x2553db6df8f2a3); (0x37a0ff372b9ff2, 0x2bab6dfa3b09bf); (0x1bd07f9b95cff9, 0x2bab6dfa3b09bf);
   (0x23bdf6cae86cdc, 0x2bab6dfa3b09bf); (0x11defb6574366e, 0x3d8a695faf402d); (0x3f8e76667e3cd5, 0x19cc7294c6d351); (0x2cad747da28813, 0x19cc7294c6d351);
   (0x2cad747da28813, 0x233cf38934adb2); (0x3f8e76667e3cd5, 0x105bf1a058f8f0); (0x3f8e76667e3cd5, 0x82df8d02c7c78); (0x3f8e76667e3cd5, 0x416fc68163e3c);
   (0x3b7779fe67fe99, 0x1472ee086f372c); (0x3b7779fe67fe99, 0xa397704379b96); (0x3b7779fe67fe99, 0x51cbb821bcdcb); (0x2566d6425db3fd, 0x2a8391c47981c8);
   (0x204a1ac041e632, 0x39d9c44acceb29); (0x10250d6020f319, 0x39d9c44acceb29); (0x10250d6020f319, 0x3524763597e23a); (0x3de40a8bd09bc1, 0x4b54e153508ef);
   (0x2ab7487aece436, 0x2f6c969021ed25); (0x155ba43d76721b, 0x2f6c969021ed25); (0x10a6562841692c, 0x38d732ba8bff03); (0x8532b1420b496, 0x38d732ba8bff03);
   (0x429958a105a4b, 0x3d00c8449c594e); (0x3779e55eb04a69, 0x33504fd49ff01e); (0x14cfebb251c377, 0x2f26ba4a8f95d3); (0x21fb52fe70aca5, 0x2f26ba4a8f95d3);
   (0x289106a480213c, 0x2f26ba4a8f95d3); (0x289106a480213c, 0x20ec823e4d46f3); (0x1448835240109e, 0x353505908d5791); (0xa2441a920084f, 0x3f594739ad5fe0);
   (0x32b5484da0298b, 0x353505908d5791); (0x32b5484da0298b, 0x33f526ef16c08e); (0x32b5484da0298b, 0x19fa93778b6047); (0x32b5484da0298b, 0x2657ede295c4e9);
   (0x3f12a2b8aa8e2d, 0x13fdea1769703); (0x3f12a2b8aa8e2d, 0x202940ad109298); (0x3f12a2b8aa8e2d, 0x1014a05688494c); (0x3f12a2b8aa8e2d, 0x11547ef7fee04f);
   (0x3f12a2b8aa8e2d, 0x283390d854b73e); (0x3f12a2b8aa8e2d, 0x1419c86c2a5b9f); (0x2af8da4c80328e, 0x39880fd053978d); (0x157c6d26401947, 0x39880fd053978d);
   (0x157c6d26401947, 0x3cfeaba189f1b1); (0x3eb9f98a251ec3, 0x293d8c63e5057c); (0x157c6d26401947, 0x37ccc1e7b86a7b); (0x157c6d26401947, 0x3c2104ad3c5b28);
   (0x157c6d26401947, 0x338cef7cde46db); (0xce857f5e204fa, 0x37ccc1e7b86a7b); (0x6742bfaf1027d, 0x3e40ede2a96cf8); (0x2c08cee736bb76, 0x2594a2ec45b8f9);
   (0x3f6552d809c2ed, 0x1f2076f154b67c); (0x3f6552d809c2ed, 0xf903b78aa5b3e); (0x3f6552d809c2ed, 0x7c81dbc552d9f); (0x3326f3c2d9d384, 0x3aef117f2f0123);
   (0x2b5ed60684a5e5, 0x26e894ada9e41b); (0x2b5ed60684a5e5, 0x2923b55a174500); (0x3ff0b0b3904865, 0x1491daad0ba280); (0x344b58b83a2979, 0x1491daad0ba280);
   (0x3e94460ebffab9, 0xa48ed5685d140); (0x3e94460ebffab9, 0x52476ab42e8a0); (0x3ceaa781f15efd, 0x52476ab42e8a0); (0x3f7ce2d792d34d, 0x2923b55a17450);
   (0x3f7ce2d792d34d, 0x1491daad0ba28); (0x3f7ce2d792d34d, 0xa48ed5685d14); (0x3f880aedd682a5, 0xa48ed5685d14); (0x3fda52588ab12f, 0x52476ab42e8a);
   (0x3fda52588ab12f, 0x2923b55a1745); (0x3f5ee7387c6b60, 0xcdb28ac27459); (0x3fd3594aa06398, 0xcdb28ac27459); (0x3f3fdfc8efeb5b, 0xcdb28ac27459);
   (0x3c09159de619f7, 0x4047cb5cc45bd); (0x3c2632226f1805, 0x4047cb5cc45bd); (0x3c34c064b3970c, 0x4047cb5cc45bd); (0x2c22cd8d828018, 0x14166f8cfd5cb1);
   (0x3e3e45e0bbf96e, 0x14166f8cfd5cb1); (0x3335927d5b5968, 0x14166f8cfd5cb1); (0x2db138cbab0965, 0x14166f8cfd5cb1); (0x199ac93eadacb4, 0x313a9b4397760d);
   (0xccd649f56d65a, 0x3e07ffe2ee4c67); (0x666b24fab6b2d, 0x3e07ffe2ee4c67); (0x20017b8e5917e1, 0x37a14d9342e13a); (0x20017b8e5917e1, 0x3bd22257fa887e);
   (0x3dea8cba565c20, 0x1de9112bfd443f); (0x2186a625bd3a2, 0x3fa44c1b3d7049); (0x10c35312de9d1, 0x3fa44c1b3d7049); (0x10c35312de9d1, 0x3fc67c6997138b);
   (0x26b297f475f994, 0x25a662c3480fc3); (0x10c35312de9d1, 0x3f9333f4109ea8); (0x10c35312de9d1, 0x3f37d5bd69b5d2); (0x2f5308c0658e28, 0x2e46d38f37a457);
   (0x2f5308c0658e28, 0x2a15feca7ffd13); (0x17a9846032c714, 0x2a15feca7ffd13); (0xbd4c23019638a, 0x35eac0fa99609d); (0x3b27caf07ef1b2, 0x2a15feca7ffd13);
   (0x1d93e5783f78d9, 0x2a15feca7ffd13); (0x1d93e5783f78d9, 0x23d4f2215fbaf6); (0x1d93e5783f78d9, 0x2f7e5e88ef5654); (0x34e6be475eaf95, 0x2f7e5e88ef5654);
   (0x34e6be475eaf95, 0x17bf2f4477ab2a); (0x34e6be475eaf95, 0xbdf97a23bd595); (0x1147f760ab2ed6, 0x3b5df62b2b2be9); (0x8a3fbb055976b, 0x3b5df62b2b2be9);
   (0x2200f8edc061aa, 0x3b5df62b2b2be9); (0x2200f8edc061aa, 0x3acf0057952fe7); (0x11007c76e030d5, 0x3acf0057952fe7); (0x11007c76e030d5, 0x36e83ade1ae133);
   (0x11007c76e030d5, 0x34f4d8215db9d9); (0x310e12a7e36b25, 0x23f45baa7d8904); (0x310e12a7e36b25, 0x11fa2dd53ec482); (0x3a0b299282cd66, 0x8fd16ea9f6241);
   (0x310e12a7e36b25, 0x2cf172951ceb45); (0x310e12a7e36b25, 0x2effc29e802b35); (0x3006eaa331cb2d, 0x2effc29e802b35); (0x1072804b19ff8, 0x3f53b208a17d41);
   (0x83940258cffc, 0x3fd7460afa4d3d); (0x41ca012c67fe, 0x3fd7460afa4d3d); (0x20e5009633ff, 0x3ff82b0b90813c); (0xa47902ef03fb, 0x3f957c09cde53f);
   (0xa47902ef03fb, 0x3f9824161e37a8); (0x3ac7ec8645c302, 0x3a23738356bf07); (0x3b6c658934c6fd, 0x3836087a89b316); (0x3b6c658934c6fd, 0x1c1b043d44d98b);
   (0x3b6c658934c6fd, 0x2bc3b4e33cd044); (0x32306f0092f812, 0x1c1b043d44d98b); (0x35333bbd8e5594, 0x1c1b043d44d98b); (0x1a999ddec72aca, 0x36b4a21c0c0455);
   (0xd4cceef639565, 0x36b4a21c0c0455); (0xd4cceef639565, 0x3cba3b9602bf59); (0xd4cceef639565, 0x3f9d23217a5529); (0xd4cceef639565, 0x33c1c7f7d28aac);
   (0xd4cceef639565, 0x3b48c7d046f471); (0xd4cceef639565, 0x3ee4693e9c6fb5); (0xd4cceef639565, 0x33656b066397f2); (0xd4cceef639565, 0x397af7191c36cf);
   (0xd4cceef639565, 0x3dfd80e30710e4); (0xd4cceef639565, 0x39985e504ab33c); (0xd4cceef639565, 0x3765cd06ec8468); (0x25b3db84cc915b, 0x1ccc2f2825599e);
   (0x3419f318df3e2a, 0xe66179412accf); (0x36d928b494f8b3, 0xe66179412accf); (0x36d928b494f8b3, 0x11254d2fc86758); (0x36d928b494f8b3, 0x3f6bcf4c792c5f);
   (0x36d928b494f8b3, 0x3b227c00871289); (0x29fd2ed0beab31, 0x3f6bcf4c792c5f); (0x34b47f0e9bebc8, 0x3f6bcf4c792c5f); (0x1a5a3f874df5e4, 0x3f6bcf4c792c5f);
   (0xd2d1fc3a6faf2, 0x3f6bcf4c792c5f); (0xfa2ef4970b54d, 0x323eaf88d2316d); (0x20f0cf6921735d, 0x323eaf88d2316d); (0x20f0cf6921735d, 0x2997bf78f9d265);
   (0x3ce0cc4f82cc71, 0x8a6f00fd85f08); (0x3ce0cc4f82cc71, 0x4537807ec2f84); (0x3f0a885378e433, 0x229bc03f617c2); (0x3f0a885378e433, 0xad0ac13ce76ca);
   (0x3f0a885378e433, 0x5685609e73b65); (0x3d431d603438c5, 0x5685609e73b65); (0x2c2665c8dc30df, 0x318ebbd2c36c44); (0x2155b9b50dba15, 0x3c5f67e691e30e);
   (0x3f856da856ab9c, 0x1e2fb3f348f187); (0x1fc2b6d42b55ce, 0x3df26ac7744755); (0x19302e0e26447, 0x3ec5e28ee6c81b); (0x19302e0e26447, 0x3fa8ac49946bbd);
   (0x287ce5f9a75d65, 0x26e9e318c4f91e); (0x287ce5f9a75d65, 0x209dd7953b6802); (0x287ce5f9a75d65, 0x38cbd1c4451166); (0x287ce5f9a75d65, 0x1c65e8e22288b3);
   (0x287ce5f9a75d65, 0x3d03c0775df0b5); (0x287ce5f9a75d65, 0x32c0533882a70d); (0x287ce5f9a75d65, 0x2d9e9c99150239); (0x2b0dc1495e2fcf, 0x2d9e9c99150239);
   (0x287ce5f9a75d65, 0x35512e88397977); (0x287ce5f9a75d65, 0x2ee70a40f06b6e); (0x3ff06b1a1f931c, 0x177385207835b7); (0x110960d92f27ae, 0x311c163d9c6ddb);
   (0x884b06c9793d7, 0x39a0c6aa3401b2); (0x884b06c9793d7, 0x3ee32507785035); (0x2a97721ef5e333, 0x365e749ae0bc5e); (0x2a97721ef5e333, 0x1b2f3a4d705e2f);
   (0x3e129083a37ee0, 0x1b2f3a4d705e2f); (0x1f094841d1bf70, 0x3a38828f421d9f); (0x26bd642a9481f2, 0x3a38828f421d9f); (0x135eb2154a40f9, 0x3a38828f421d9f);
   (0x26cb9a52462f4c, 0x3a38828f421d9f); (0x135eb2154a40f9, 0x3a6325065725ad); (0x135eb2154a40f9, 0x3a3f9da31af44c); (0x307e80e6d7bb1f, 0x1d1fced18d7a26);
   (0x1cfc476e5148c5, 0x26e0eb8dd0b353); (0x21ee997e10fe0c, 0x26e0eb8dd0b353); (0x10f74cbf087f06, 0x37d8384cd93259); (0x87ba65f843f83, 0x37d8384cd93259);
   (0x2a6a3fdd953d8f, 0x37d8384cd93259); (0x2a6a3fdd953d8f, 0x31213c153737f4); (0x2a6a3fdd953d8f, 0x18909e0a9b9bfa); (0x11d9a1d2f9a195, 0x336c8ee923858e);
   (0x11d9a1d2f9a195, 0x3d698b1a8505f1); (0x27a19676bf53c3, 0x3d698b1a8505f1); (0x2db03fd754c38d, 0x15c7f4a3c5b22e); (0x38943a29379ca4, 0xae3fa51e2d917);
   (0x3cf60c0a445997, 0xae3fa51e2d917); (0x2ed0fd7ff6726e, 0x39b4f7d1d94b85); (0xe250e8a4de729, 0x3673e3996e3d73); (0x3071879c2bf977, 0x224c7911de124e);
   (0x3071879c2bf977, 0x11263c88ef0927); (0x2d70599d8ad779, 0x14276a87902b25); (0x20cbe2128d814f, 0x34f34c9a1dac74); (0x20cbe2128d814f, 0x3b45885f9c5789);
   (0x2d70599d8ad779, 0x3b45885f9c5789); (0x345af0fe939781, 0x3b45885f9c5789); (0x37d03caf17f785, 0x3b45885f9c5789); (0x398ae2875a2787, 0x3b45885f9c5789);
   (0x361596d6d5c783, 0x3ebad41020b78d); (0x3a6835737b3f88, 0x3ebad41020b78d); (0x1d341ab9bd9fc4, 0x3ebad41020b78d); (0x148edd8072afba, 0x3ebad41020b78d);
   (0xa476ec03957dd, 0x3ebad41020b78d); (0x248121682d07b5, 0x3ebad41020b78d); (0x336529c11eb751, 0xff243e7ba57fb); (0x21abb6d46c87a6, 0x319dfabc26dfa1);
   (0x10d5db6a3643d3, 0x319dfabc26dfa1); (0x2139eb132e91ba, 0x319dfabc26dfa1); (0x10d5db6a3643d3, 0x304897786cfddd); (0x10d5db6a3643d3, 0x316514db87e4ab);
   (0x31f3538d155812, 0x211d7822df143f); (0x330fd0f0303ee0, 0x211d7822df143f); (0x3aa5609af733af, 0x211d7822df143f); (0x2de16c5eeb23f7, 0x211d7822df143f);
   (0x2de16c5eeb23f7, 0x1bef139199f956); (0x2de16c5eeb23f7, 0x3bd8f627b820a2); (0x2de16c5eeb23f7, 0x1dec7b13dc1051); (0x25e6f3b9639a24, 0x1dec7b13dc1051);
   (0x25e6f3b9639a24, 0x23e98c37218329); (0x12f379dcb1cd12, 0x36dd0613d3503b); (0x979bcee58e689, 0x36dd0613d3503b); (0x2f60b0a7bc80ad, 0x1a6fcf48c89ca0);
   (0x2f60b0a7bc80ad, 0x3c98984c20cefd); (0x2f60b0a7bc80ad, 0x35fca479eea7d5); (0x3a70bc1b646229, 0x69bf3d2322728); (0x3dbeb6047d75bd, 0x34df9e9191394);
   (0x3f65b2f909ff87, 0x1a6fcf48c89ca); (0x3f65b2f909ff87, 0xd37e7a4644e5); (0x3e92347ec3baa2, 0x42178635f5879); (0x3c3364f6fd48a0, 0x42178635f5879);
   (0x3f257596796818, 0x42178635f5879); (0x3f257596796818, 0x14a759f0dcba5d); (0x1f92bacb3cb40c, 0x343a14bc196e69); (0xfc95d659e5a06, 0x343a14bc196e69);
   (0xfc95d659e5a06, 0x37e8a9837495bf); (0x7e4aeb2cf2d03, 0x3fcd583643c2c2); (0x7e4aeb2cf2d03, 0x3f7966e65e956d); (0x7e4aeb2cf2d03, 0x3b5d16e5046841);
   (0x2777697e0be10f, 0x33786832353b3e); (0x2777697e0be10f, 0x19bc34191a9d9f); (0x2777697e0be10f, 0x2099cecb933f57); (0x6dd9ab278a1b8, 0x3c04f984cec2eb);
   (0x36ecd593c50dc, 0x3f73c6de0b13c7); (0x1b766ac9e286e, 0x3f73c6de0b13c7); (0x895015f16ca26, 0x3a4d92d8309a7d); (0x44a80af8b6513, 0x3e981387bbff90);
   (0x44a80af8b6513, 0x3d558e90adc34d); (0x1574836db8f95f, 0x390b0de1225e3a); (0x31fa0a5e4a287c, 0x1c8586f0912f1d); (0x18fd052f25143e, 0x35828c1fb6435b);
   (0xc7e8297928a1f, 0x35828c1fb6435b); (0x3e788cf5dcb29b, 0x1c8586f0912f1d); (0x3e788cf5dcb29b, 0x2d7f09f336f0dc); (0x3e788cf5dcb29b, 0x16bf84f99b786e);
   (0x38b28afee6fbec, 0x1c8586f0912f1d); (0x1c59457f737df6, 0x38decc7004ad13); (0xe2ca2bfb9befb, 0x38decc7004ad13); (0x3886498dc94ac5, 0xe58e430d77022);
   (0x3fb2bba63502d6, 0x72c72186bb811); (0x2705cfeb86397c, 0x2e324203f1f18d); (0x1382e7f5c31cbe, 0x2e324203f1f18d); (0x335c45c8dd9e29, 0x2e324203f1f18d);
   (0x30c743e667c7db, 0x2e324203f1f18d); (0x30c743e667c7db, 0x2f7cc2f52cdcb4); (0x3211c4d7a2b302, 0x2b9d40217c1b3f); (0x1908e26bd15981, 0x2b9d40217c1b3f);
   (0x1908e26bd15981, 0x3b5bf3b27813e1); (0xfbeb390fbf8a2, 0x3e319dd726dcfd); (0x7df59c87dfc51, 0x3e319dd726dcfd); (0x32c72f60ce6549, 0x2ae7d5985068f8);
   (0x32c72f60ce6549, 0x1573eacc28347c); (0x7df59c87dfc51, 0x3c077b49d51c86); (0x7df59c87dfc51, 0x3d8124c6e27f87); (0x22b03f47b03dec, 0x3d8124c6e27f87);
   (0x7df59c87dfc51, 0x3f3a536f8d692e); (0x7df59c87dfc51, 0x3f1a90d9bea5db); (0x2b5c4f199c4d67, 0x237cf5511e5116); (0x7df59c87dfc51, 0x3b5a87d635ccaf);
   (0x7df59c87dfc51, 0x393afe28d3d973); (0x382b395222dfd5, 0x304bdf89a4e384); (0x382b395222dfd5, 0x1825efc4d271c2); (0x382b395222dfd5, 0x8673c33d67920);
   (0x382b395222dfd5, 0x3c5ed76c0e1c65); (0x3a45085f187e1d, 0x3c5ed76c0e1c65); (0x3a45085f187e1d, 0xa810b40cc1768); (0x3a45085f187e1d, 0x3f858dff7e89d1);
   (0x3a45085f187e1d, 0x3ce54b2f4b83f7); (0x350482beb27269, 0xd214e10ff1d42); (0x350482beb27269, 0x3b9529c732010a); (0x350482beb27269, 0x1dca94e3990085);
   (0x29678bd125b977, 0x1dca94e3990085); (0x350482beb27269, 0x2ff832d9a54818); (0x350482beb27269, 0x17fc196cd2a40c); (0x350482beb27269, 0xbfe0cb6695206);
   (0x29067608492063, 0x3bf63f900e9a1e); (0x29067608492063, 0x1dfb1fc8074d0f); (0x2380cae82836b9, 0x1dfb1fc8074d0f); (0x2e8c21286a0a0d, 0x12efc987c579bb);
   (0x20bdf55817c1e4, 0x33adbedfdd3b9f); (0x105efaac0be0f2, 0x33adbedfdd3b9f); (0x82f7d5605f079, 0x3bdd3c35e32c18); (0x28ed72ae1db25d, 0x33adbedfdd3b9f);
   (0x28ed72ae1db25d, 0x2e4d98c6fd76fe); (0x28ed72ae1db25d, 0x1726cc637ebb7f); (0x3e0080f8bbfb31, 0x5602618dfc4a1); (0x31d0c5d36d2dcc, 0x3730ebec4cf26d);
   (0x18e862e9b696e6, 0x3730ebec4cf26d); (0xe2816b7f70da4, 0x3730ebec4cf26d); (0x3e44f74848793f, 0x3730ebec4cf26d); (0x3e44f74848793f, 0x3abaf19a4ab5d6);
   (0x3e44f74848793f, 0x1d5d78cd255aeb); (0x38a05adfdc369, 0x3de2d3b1f074bf); (0x38a05adfdc369, 0x3d069a1fe5375c); (0x2597586bee2280, 0x220d52bdf05f17);
   (0x2597586bee2280, 0x397c9471e773f3); (0x12cbac35f71140, 0x397c9471e773f3); (0x965d61afb88a0, 0x397c9471e773f3); (0x2efd2e86e9ab20, 0x3016be56ebeb53);
   (0x177e974374d590, 0x3016be56ebeb53); (0xbbf4ba1ba6ac8, 0x3bd609f8a6561b); (0x5dfa5d0dd3564, 0x3bd609f8a6561b); (0x1d5e3d14520af4, 0x3bd609f8a6561b);
   (0xeaf1e8a29057a, 0x3bd609f8a6561b); (0x7578f451482bd, 0x3bd609f8a6561b); (0x24b5cc59668db1, 0x2d26eb6e7d50a1); (0x24b5cc59668db1, 0x28ee5be3f1ef29);
   (0x24b5cc59668db1, 0x26d2141eac3e6d); (0x207d3ccedb2c39, 0x2b0aa3a9379fe5); (0x207d3ccedb2c39, 0x25c3f03c09660f); (0x23209685724924, 0x25c3f03c09660f);
   (0x11904b42b92492, 0x37543b7ec28aa1); (0x2f6a2e5afd33e0, 0x1433a4f950417d); (0x2be8bc26cedb6d, 0x1433a4f950417d); (0x200e30900f8e75, 0x3441d5895fcff2);
   (0x3b44b9f1bc80d8, 0x1433a4f950417d); (0x31d601f22e81e9, 0x1433a4f950417d); (0x2304d375bf61b3, 0x3738786f0fa330); (0x2304d375bf61b3, 0x1ef891f312840b);
   (0x2304d375bf61b3, 0x20feb2b468f2df); (0x2304d375bf61b3, 0x2201c315142a49); (0x2304d375bf61b3, 0x22834b4569c5fe); (0x2407e3d66a991d, 0x21803ae4be8e94);
   (0x34c80148c9e067, 0x10c01d725f474a); (0x3d281001f9840c, 0x8600eb92fa3a5); (0x3d281001f9840c, 0x29e0499dee3239); (0x1e940800fcc206, 0x29e0499dee3239);
   (0xf4a04007e6103, 0x392a4d9e6c933c); (0x1347c6640b51d3, 0x392a4d9e6c933c); (0x2fdced33419b71, 0x1c9526cf36499e); (0x3e27809adcc040, 0xe4a93679b24cf);
   (0x358725bd672ab2, 0xe4a93679b24cf); (0x3758b9ade9def7, 0xe4a93679b24cf); (0x3f66cd59f8cb81, 0xe4a93679b24cf); (0x352343c8651cf7, 0xe4a93679b24cf);
   (0x3f66cd59f8cb81, 0x40709d6077645); (0x3f66cd59f8cb81, 0x21b6eb980020e3); (0x308edc78fc7632, 0x21b6eb980020e3); (0x2880c8cced89a8, 0x21b6eb980020e3);
   (0x35f74ffe76e5b7, 0x21b6eb980020e3); (0x2bd71dcb3b834d, 0x21b6eb980020e3); (0xa2032333b626a, 0x393071c47369e1); (0x51019199db135, 0x3e408ade111b16);
   (0x51019199db135, 0x3d80dc08bab4c9); (0x3078c5de05469e, 0x2b68acc4679569); (0x3a98f81140a908, 0x21487a912c32ff); (0x1d4c7c08a05484, 0x3e94f699cc8783);
   (0xea63e04502a42, 0x3e94f699cc8783); (0xaaa3f7bc44bc7, 0x3e94f699cc8783); (0x249f9b0ac869a5, 0x3e94f699cc8783); (0x319a48d24a7894, 0x3e94f699cc8783);
   (0xaaa3f7bc44bc7, 0x363b2569c5fee4); (0x307211ac6b9700, 0x25c7d230a74b39); (0x3e00db06dd16b9, 0x25c7d230a74b39); (0x3e00db06dd16b9, 0x31e4569bc230f9);
   (0xc1c846b1ae5c0, 0x37ad6a591c98dd); (0x60e42358d72e0, 0x3dbbac8eaa0bbd); (0x307211ac6b970, 0x3dbbac8eaa0bbd); (0xf23a585e19f30, 0x3dbbac8eaa0bbd);
   (0x791d2c2f0cf98, 0x3dbbac8eaa0bbd); (0x3c8e9617867cc, 0x3dbbac8eaa0bbd); (0x12ec8ee75a06fc, 0x3260f06a40d459); (0x9764773ad037e, 0x3bd737ddedd7d7);
   (0x4bb23b9d681bf, 0x3bd737ddedd7d7); (0x4bb23b9d681bf, 0x3cac0426e93745); (0x17a7b2a13088bb, 0x3335bcb33c33c7); (0x17a7b2a13088bb, 0x3d166a4b66e6fc);
   (0x3632e7c6e3fc39, 0x1e8b3525b3737e); (0x393012da8bc4ab, 0x1e8b3525b3737e); (0x393012da8bc4ab, 0xf459a92d9b9bf); (0x338071498c78f4, 0xf459a92d9b9bf);
   (0x5afa190ff4bb7, 0x3b4d202b42bd96); (0x2905d3379ff639, 0x235631a6a0aa82); (0x3ab0ec0af04b7a, 0x11ab18d3505541); (0x1d5876057825bd, 0x2f038ed8c87afe);
   (0xbad5d3227d07c, 0x354f648a1a38d1); (0x5d6ae9913e83e, 0x3b2613232e210f); (0x2eb574c89f41f, 0x3e116a6fb8152e); (0xe98b47eb1c49b, 0x32640d3d9044b2);
   (0xe98b47eb1c49b, 0x36636f9c2bab8f); (0x227e120d6eb815, 0x36636f9c2bab8f); (0x351628eabbe38d, 0x13e55d8ebcf37a); (0x3f08d7b21a5d4a, 0x9f2aec75e79bd);
   (0x3d5c782f289bdc, 0x9f2aec75e79bd); (0x28a0eadef2c7ab, 0x329399a6514168); (0x3369c967ca221f, 0x329399a6514168); (0x3369c967ca221f, 0x1949ccd328a0b4);
   (0x3369c967ca221f, 0xca4e66994505a); (0x26c4e2fe35d1c5, 0x3f38800fe591c2); (0x26c4e2fe35d1c5, 0x1f9c4007f2c8e1); (0x23309183144d53, 0x1f9c4007f2c8e1);
   (0x2a593479575637, 0x18739d11afbffd); (0x216668c5838b1a, 0x39da05d7334b17); (0x10b33462c1c58d, 0x39da05d7334b17); (0x10b33462c1c58d, 0x35f9d17fbc4ddf);
   (0x10b33462c1c58d, 0x34c76e7ad67d32); (0x10b33462c1c58d, 0x3bca2002eec9b3); (0x10b33462c1c58d, 0x36f1de959a0d2d); (0x1c8e27582ece94, 0x36f1de959a0d2d);
   (0xe4713ac17674a, 0x36f1de959a0d2d); (0x72389d60bb3a5, 0x3e15686ba5c0d2); (0x23b1b12e3a8239, 0x2187411376f23e); (0x347551b7f5fb58, 0x10c3a089bb791f);
   (0x1a3aa8dbfafdac, 0x2afe4965b676cb); (0xd1d546dfd7ed6, 0x381b9dd3b3f5a1); (0x3dec5a0a357fe5, 0x3a64c1bbdfa49); (0x20c95312f9bd17, 0x246f9f2eb7b760);
   (0x330122aa5598c7, 0x1237cf975bdbb0); (0x330122aa5598c7, 0x2815eb4a75b1a9); (0x330122aa5598c7, 0x2d8b86fa65a538); (0x330122aa5598c7, 0x16c5c37d32d29c);
   (0x3dec5a0a357fe5, 0x115027cd42df0d); (0x279e40ebbc2f79, 0x38ee68b8ff0e86); (0x279e40ebbc2f79, 0x1c77345c7f8743); (0x220abaa41ddb5e, 0x3e81ef009d62a1);
   (0x32c54d7af8d7af, 0x16e3ae14e13328); (0x3e372485697143, 0xb71d70a709994); (0x3e372485697143, 0x5b8eb85384cca); (0x27537670883e1b, 0x1c9c999a197ff2);
   (0x35a1c33d94fe14, 0xe4e4ccd0cbff9); (0x291f2e6bd73f03, 0x376d7b38e3fefc); (0xc8294d1bdbf11, 0x3b04eb2f8200cc); (0x36879f3b3c7e88, 0x2a050a697ebf77);
   (0x1b43cf9d9e3f44, 0x2a050a697ebf77); (0xc8294d1bdbf11, 0x3d439129a4c1ee); (0xc8294d1bdbf11, 0x37a6f2384ddf19); (0x2214c38505cf15, 0x37a6f2384ddf19);
   (0x2214c38505cf15, 0x2cdddadea9d717); (0xc8294d1bdbf11, 0x35ed74c034280a); (0x27794f31d7d316, 0x1af6ba601a1405); (0x13bca798ebe98b, 0x2eb361f905fd90);
   (0x3e8ce818b4bb55, 0x73a12c72e2a7a); (0x3e8ce818b4bb55, 0x39d096397153d); (0x2f891e4c823d3d, 0x332627b019527a); (0x24b20221bcfd86, 0x36c33113b067b7);
   (0x12590110de7ec3, 0x36c33113b067b7); (0x248e191247733d, 0x36c33113b067b7); (0x248e191247733d, 0x2da8a512fbed7a); (0x3752d5518690db, 0x91a8c00b47a3d);
   (0x3b8654ab3af443, 0x91a8c00b47a3d); (0x2b6afc56ac317d, 0x3485885760abba); (0x2b6afc56ac317d, 0x2d84bc03866331); (0x2b6afc56ac317d, 0x2c77dc2d194a57);
   (0x2b6afc56ac317d, 0x2bf16c41e2bdea); (0x29513ca9d1ffc9, 0x2bf16c41e2bdea); (0x3f49f2cac35ebe, 0x15f8b620f15ef5); (0x359daf86530e54, 0x15f8b620f15ef5);
   (0x30c78de41ae61f, 0x15f8b620f15ef5); (0x4d621a2382835, 0x3d7e3e4e8548b7); (0x3e2ef9c5afa9b4, 0x3958d82377817f); (0x1f177ce2d7d4da, 0x3958d82377817f);
   (0x3270036bb875ae, 0x1a415b409faca5); (0x33795cf67be77c, 0x1a415b409faca5); (0x33fe09bbdda063, 0x1a415b409faca5); (0x193801b5dc3ad7, 0x35076346a11231);
   (0x193801b5dc3ad7, 0x271fb27e3ea684); (0x2cc7daf4fb8e19, 0x138fd93f1f5342); (0x368fc7948b37ba, 0x9c7ec9f8fa9a1); (0x39a090305f82cc, 0x9c7ec9f8fa9a1);
   (0x3a280df6debe49, 0x9c7ec9f8fa9a1); (0x3f4fc329e630d8, 0x9c7ec9f8fa9a1); (0x183010aba78a54, 0x30e79f1dce5025); (0x3cffa773a2154f, 0x30e79f1dce5025);
   (0x36f3a348b832ba, 0x30e79f1dce5025); (0x60c042ae9e295, 0x3f1d9e8d9f0343); (0x60c042ae9e295, 0x3ac4e207ebfd40); (0x60c042ae9e295, 0x3b9e85da876b89);
   (0x20d54502b8a70f, 0x3b9e85da876b89); (0x60c042ae9e295, 0x3d5e1234133766); (0x60c042ae9e295, 0x3ceb1df09b089c); (0x2a8d974e214978, 0x248193233766e3);
   (0x60c042ae9e295, 0x3d978c55cf4ecb); (0x60c042ae9e295, 0x3a01d8ec042304); (0x3530fd21a99bd6, 0x2f24f8f6bfb941); (0x1e3c14d6916ce9, 0x2918f4cbd5d6ac);
   (0x32c88f3c7c583f, 0x148c7a65eaeb56); (0x3d0ecc6f71cdea, 0xa463d32f575ab); (0x3d5a1dd09947f6, 0xa463d32f575ab); (0x3d5a1dd09947f6, 0x335f31fecb4c57);
   (0x1ead0ee84ca3fb, 0x335f31fecb4c57); (0x1ead0ee84ca3fb, 0x290620738bf829); (0x9faebd1cdfb9f, 0x3db8438a0aa085); (0x2dd4837fba49b1, 0x23d997adec4e12);
   (0x3fc14f56b070ba, 0x11eccbd6f62709); (0x31e69b1905ea1b, 0x11eccbd6f62709); (0x33d67f4ef42f9b, 0x11eccbd6f62709); (0x34ce7169eb525b, 0x11eccbd6f62709);
   (0x354a6a7766e3bb, 0x11eccbd6f62709); (0x354a6a7766e3bb, 0x245590bb67df72); (0x354a6a7766e3bb, 0x122ac85db3efb9); (0x23ba996a8d69ba, 0x35e561c8415973);
   (0x33798484d78293, 0x122ac85db3efb9); (0x34fceecef9a8df, 0x122ac85db3efb9); (0x2393db9656cc4c, 0x35bea3f40abc05); (0x10a75e1391c96d, 0x35bea3f40abc05);
   (0x23330103ce42b9, 0x35bea3f40abc05); (0x2c78d27bec7f5f, 0x35bea3f40abc05); (0x311bbb37fb9db2, 0x35bea3f40abc05); (0x311bbb37fb9db2, 0x172e8bac4b979f);
   (0x188ddd9bfdced9, 0x2fbc6948496678); (0x188ddd9bfdced9, 0x306c1240228215); (0x19ed2f8bb00613, 0x306c1240228215); (0x252ca0e5e94414, 0x306c1240228215);
   (0x12965072f4a20a, 0x306c1240228215); (0x19ed2f8bb00613, 0x29153327671e0c); (0x2e77c91f639519, 0x148a9993b38f06); (0x38bd15e93d5c9c, 0xa454cc9d9c783);
   (0x1c5e8af49eae4e, 0x26a3d7be7875d1); (0x1c5e8af49eae4e, 0x335a7ff140e58f); (0xe2f457a4f5727, 0x335a7ff140e58f); (0xe2f457a4f5727, 0x3d236daa66cca9);
   (0x3e1fabe139d3a9, 0x46657c129700d); (0x214301d131a1db, 0x25a959925b11e8); (0x3417ae9a5f2acf, 0x12d4acc92d88f4); (0x3f5af9a5c19c69, 0x46657c129700d);
   (0x2aad5835c86655, 0x2f13aff6f1d662); (0x2aad5835c86655, 0x1789d7fb78eb31); (0x211b9818a0a8c3, 0x38a570141993f4); (0x211b9818a0a8c3, 0x337a07b81b466f)].
