(* ===== verification/FmtShortest.v ===== *)
(** * fmt: to_decimal returns the shortest decimal of every double

    The steps of [to_decimal] are right where the products with the cached power
    of ten are exact as far as the algorithm looks ([FmtDragonbox.regular_case_ok]).
    Here that is shown for every double: for exponents near zero
    because the products have small denominators, for all others because two neighbouring fractions
    ([FmtCerts]) keep every product away from the integers.  [FmtShortFloat] does the same for
    float and states the result for both types. *)

From S2P Require Import Prelude Machine FmtInt FmtWide FmtPow10 FmtBigint FmtDragon FmtDragonbox FmtCerts.
Local Open Scope outcome_scope.

Local Notation T128 := (2 ^ 128).

(** ** Products and their floors *)

(** A cached power [C] has twice [w] bits; the algorithm sees the bits of a product above those and whether the [w] bits below are zero. *)
Section floors.
Context (w C beta N M : Z) (Hw : 0 <= w) (HM : 0 < M).
Local Notation W := (2 ^ w).
Local Notation T := (2 ^ (2 * w)).
Local Notation p n := (n * 2 ^ beta * C).

(** What the algorithm sees of the product is true of [n * N / M]. *)
Definition seen (n : Z) : Prop := p n / T = n * N / M /\ (p n / W mod W =? 0) = (n * N mod M =? 0).

Lemma double_width : 0 < W /\ T = W * W.
Proof. split; [by apply Z.pow_pos_nonneg|]. rewrite <- Z.pow_add_r by lia. f_equal. lia. Qed.

(** A small denominator [G]. *)
Lemma floor_by_denominator a G n : N * G = a * M -> 0 < G <= W -> 0 <= p n * M - T * (n * N) < W * M -> seen n.
Proof.
  intros E HG He. destruct double_width as [HW ET]. unfold seen. rewrite ET in *. clear ET. set (P := p n) in *. assert (Hna : 0 <= P * G - W * W * (n * a) < W * G).
  { assert (Ex : (P * M - W * W * (n * N)) * G = M * (P * G - W * W * (n * a))) by (rewrite Z.mul_sub_distr_r; replace (W * W * (n * N) * G) with (W * W * n * (N * G)) by ring; rewrite E; ring).
    split; [apply (Z.mul_le_mono_pos_l _ _ M); [done|]; rewrite <- Ex; nia|apply (Z.mul_lt_mono_pos_l M); [done|]; rewrite <- Ex; nia]. }
  assert (Ed : n * N / M = n * a / G). { rewrite <- (Z.div_mul_cancel_r (n * N) M G), <- (Z.div_mul_cancel_r (n * a) G M) by lia. f_equal; [|lia]. rewrite <- !Z.mul_assoc. by rewrite E. }
  assert (Em : (n * N mod M =? 0) = (n * a mod G =? 0)).
  { apply Bool.eq_iff_eq_true. rewrite !Z.eqb_eq. pose proof (Z.div_mod (n * N) M ltac:(lia)) as D1. pose proof (Z.div_mod (n * a) G ltac:(lia)) as D2. rewrite Ed in D1. set (q := n * a / G) in *.
    assert (Ex : n * N mod M * G = n * a mod G * M) by (replace (n * N mod M) with (n * N - M * q) by lia; replace (n * a mod G) with (n * a - G * q) by lia; rewrite !Z.mul_sub_distr_r, <- !Z.mul_assoc, E; ring). nia. }
  rewrite Ed, Em. pose proof (Z.div_mod (n * a) G ltac:(lia)) as D. pose proof (Z.mod_pos_bound (n * a) G ltac:(lia)) as B. set (q := n * a / G) in *. set (r := n * a mod G) in *. set (V := W) in *. clearbody V P r q. clear - Hna D B HG HW.
  assert (Hr : 0 <= P - V * V * q < V * V) by nia.
  split; [symmetry; apply (Z.div_unique _ _ _ (P - V * V * q)); lia|].
  assert (El : P / V mod V = (P - V * V * q) / V).
  { replace P with ((P - V * V * q) + q * V * V) at 1 by lia. rewrite Z.div_add, Z.mod_add by lia. apply Z.mod_small. split; [apply Z.div_pos; lia|apply Z.div_lt_upper_bound; lia]. }
  rewrite El. apply Bool.eq_iff_eq_true. rewrite !Z.eqb_eq. rewrite Z.div_small_iff by lia. nia.
Qed.

(** No fraction with a denominator below [q + q2] lies between the neighbours [p / q] and [p2 / q2]. *)
Lemma between_neighbours num q q2 n : 0 < q -> 0 < q2 -> 0 < n < q + q2 ->
  let lo := num * q / T in let hi := num * q2 / T + 1 in let m := n * num / T in
  hi * q - lo * q2 = 1 -> m * q <= lo * n /\ n = q * (hi * n - q2 * m) + q2 * (m * q - lo * n).
Proof.
  intros Hq Hq2 Hn lo hi m Hd. assert (HT : 0 < T) by (apply Z.pow_pos_nonneg; lia). assert (Hid : n = q * (hi * n - q2 * m) + q2 * (m * q - lo * n)) by (transitivity (n * (hi * q - lo * q2)); [rewrite Hd|]; ring). split; [|done].
  assert (Hm : m * T <= n * num) by (subst m; rewrite Z.mul_comm; apply Z.mul_div_le; lia).
  assert (Hhi : num * q2 < hi * T) by (subst hi; pose proof (Z.mul_succ_div_gt (num * q2) T ltac:(lia)); lia).
  assert (H2 : m * q2 < hi * n) by (apply (Z.mul_lt_mono_pos_r T); [lia|]; nia). apply Z.nlt_ge. intros Hlt. nia.
Qed.

(** The distance of a product above the integer below it, in units of [1 / T]. *)
Lemma rest_by_neighbours far q q2 n : 0 < q -> q * far <= T -> 0 < q2 -> 0 < n < q + q2 ->
  let num := 2 ^ beta * C in
  (num * q2 / T + 1) * q - num * q / T * q2 = 1 ->
  far <= p n mod T \/ exists j, n = j * q /\ p n mod T = j * (num * q mod T) /\ 0 < j.
Proof.
  intros Hq Hfar Hq2 Hn num Hd. assert (HT : 0 < T) by (apply Z.pow_pos_nonneg; lia). destruct (between_neighbours num q q2 n Hq Hq2 Hn Hd) as [Hle Hid]. cbv zeta in *.
  assert (Ep : p n = n * num) by (unfold num; ring). rewrite Ep. pose proof (Z.div_mod (n * num) T ltac:(lia)) as D1. pose proof (Z.div_mod (num * q) T ltac:(lia)) as D2.
  pose proof (Z.mod_pos_bound (num * q) T ltac:(lia)) as B2. pose proof (Z.mod_pos_bound (n * num) T ltac:(lia)) as B1.
  set (m := n * num / T) in *. set (lo := num * q / T) in *. set (d := num * q mod T) in *. set (g := n * num mod T) in *. set (hi := num * q2 / T + 1) in *. set (V := T) in *.
  assert (Eg : g * q = V * (lo * n - m * q) + n * d) by (replace g with (n * num - V * m) by lia; replace ((n * num - V * m) * q) with (n * (num * q) - V * m * q) by ring; rewrite D2; ring).
  destruct (Z.eq_dec (lo * n) (m * q)) as [E|E].
  - right. exists (hi * n - q2 * m). assert (En : n = (hi * n - q2 * m) * q) by (rewrite E, Z.sub_diag, Z.mul_0_r, Z.add_0_r in Hid; rewrite (Z.mul_comm _ q); exact Hid). split; [done|]. rewrite E, Z.sub_diag, Z.mul_0_r, Z.add_0_l in Eg. set (j := hi * n - q2 * m) in *. split; [|nia].
    apply (Z.mul_cancel_r _ _ q); [lia|]. rewrite Eg. rewrite En at 1. ring.
  - left. pose proof (Z.mul_le_mono_nonneg_l 1 (lo * n - m * q) V ltac:(lia) ltac:(lia)) as H1. pose proof (Z.mul_nonneg_nonneg n d ltac:(lia) ltac:(lia)) as H2.
    assert (H : V <= g * q) by lia. apply Z.nlt_ge. intros Hlt. assert (g * q < far * q) by (apply Z.mul_lt_mono_pos_r; done). lia.
Qed.

(** Far enough from the integer below, the product is seen as it is. *)
Lemma floor_by_distance n eps : 0 <= p n * M - T * (n * N) < eps * M -> eps <= p n mod T -> p n / T = n * N / M /\ n * N mod M <> 0.
Proof.
  intros He Hg. assert (HT : 0 < T) by (apply Z.pow_pos_nonneg; lia). pose proof (Z.div_mod (p n) T ltac:(lia)) as D. pose proof (Z.mod_pos_bound (p n) T ltac:(lia)) as B. set (g := p n mod T) in *. set (m := p n / T) in *. set (V := T) in *.
  assert (HgM : eps * M <= g * M) by (apply Z.mul_le_mono_nonneg_r; lia). rewrite D in He.
  assert (H1 : V * (m * M) < V * (n * N)) by lia. assert (H2 : V * (n * N) < V * (m * M + M)) by (assert (g * M < V * M) by (apply Z.mul_lt_mono_pos_r; lia); lia).
  apply Z.mul_lt_mono_pos_l in H1; [|lia]. apply Z.mul_lt_mono_pos_l in H2; [|lia].
  rewrite <- (Z.div_unique (n * N) M m (n * N - m * M)), <- (Z.mod_unique (n * N) M m (n * N - m * M)) by lia. split; [done|lia].
Qed.

Lemma not_integer_seen n : W <= p n mod T -> (p n / W mod W =? 0) = false.
Proof.
  intros H. apply Z.eqb_neq. pose proof (div_mod_pow (p n) w (2 * w) ltac:(lia)) as E. replace (2 * w - w) with w in E by lia. rewrite <- E. intros E0. destruct double_width as [HW _]. apply Z.div_small_iff in E0; [|lia]. lia.
Qed.

(** All of it for two neighbouring fractions, where the error of a product is below [n * err] and [least] is the smallest number looked
    at; a number [bad] is left out. *)
Lemma seen_by_neighbours err bound least bad q q2 : 0 < err -> 0 < q -> q * (bound * err) <= T -> q * W <= T -> 0 < q2 -> bound <= q + q2 -> 0 < least ->
  let num := 2 ^ beta * C in
  (num * q2 / T + 1) * q - num * q / T * q2 = 1 -> q * err <= num * q mod T -> (forall j, 0 < j -> least <= j * q < bound -> j * q <> bad -> W <= j * (num * q mod T)) ->
  (forall n, 0 < n < bound -> 0 <= p n * M - T * (n * N) < n * err * M) ->
  (forall n, 0 < n < bound -> p n / T = n * N / M) /\ forall n, least <= n < bound -> n <> bad -> seen n.
Proof.
  intros Herr Hq Hb1 Hb2 Hq2 Hsum Hl num Hd Hde HW He. assert (HT : 0 < T) by (apply Z.pow_pos_nonneg; lia). pose proof (Z.mod_pos_bound (num * q) T HT) as Bd. set (d := num * q mod T) in *.
  assert (Hfl : forall n, 0 < n < bound -> p n / T = n * N / M /\ n * N mod M <> 0).
  { intros n Hn. apply (floor_by_distance n (n * err)); [by apply He|]. destruct (rest_by_neighbours (bound * err) q q2 n Hq Hb1 Hq2 ltac:(lia) Hd) as [Hfar|(j & Ej & Eg & Hj)]; [nia|].
    fold num d in Eg. rewrite Eg, Ej. nia. }
  split; [intros n Hn; by apply Hfl|]. intros n Hn Hbad. destruct (Hfl n ltac:(lia)) as [Ef Hni]. split; [done|]. rewrite (proj2 (Z.eqb_neq _ 0) Hni). apply not_integer_seen.
  destruct (rest_by_neighbours W q q2 n Hq Hb2 Hq2 ltac:(lia) Hd) as [Hfar|(j & Ej & Eg & Hj)]; [done|]. fold num d in Eg. rewrite Eg. rewrite Ej in Hn, Hbad. by apply HW.
Qed.
End floors.

(** ** One exponent *)

(** [N / M] is [2 ^ (e - 1) * 10 ^ k]. *)
Definition scale_num (e k : Z) : Z := 2 ^ Z.max (e - 1) 0 * 10 ^ Z.max k 0.
Definition scale_den (e k : Z) : Z := 2 ^ Z.max (1 - e) 0 * 10 ^ Z.max (- k) 0.

Lemma scale_pos e k : 0 < scale_num e k /\ 0 < scale_den e k.
Proof. unfold scale_num, scale_den. split; apply Z.mul_pos_pos; apply Z.pow_pos_nonneg; lia. Qed.

(** How far a product with the cached power is above the true one. *)
Lemma error_bound w C X l k e n : 0 <= w -> rounded_up k (l - (2 * w - 1)) X -> X <= C -> 0 <= e + l -> 0 < n ->
  0 <= n * 2 ^ (e + l) * C * scale_den e k - 2 ^ (2 * w) * (n * scale_num e k) < n * (2 ^ (e + l) * (C - X + 1)) * scale_den e k.
Proof.
  intros Hw [H1 H2] Hy Hb Hn. set (T := 2 ^ (2 * w)). set (U := 2 ^ Z.max (l - (2 * w - 1)) 0) in *. set (B := 10 ^ Z.max (- k) 0) in *. set (A := 10 ^ Z.max k 0) in *. set (V := 2 ^ Z.max (- (l - (2 * w - 1))) 0) in *.
  assert (HU : 0 < U) by (apply Z.pow_pos_nonneg; lia). assert (HB : 0 < B) by (apply Z.pow_pos_nonneg; lia). assert (Hp : 0 < 2 ^ (e + l)) by (apply Z.pow_pos_nonneg; lia).
  destruct (scale_pos e k) as [_ HM]. set (M := scale_den e k) in *.
  assert (Ex : T * (n * scale_num e k) * (U * B) = n * 2 ^ (e + l) * (A * V) * M).
  { unfold M, scale_num, scale_den. fold A B. unfold T, U, V. transitivity (n * A * B * (2 ^ (2 * w) * 2 ^ Z.max (e - 1) 0 * 2 ^ Z.max (l - (2 * w - 1)) 0)); [ring|].
    transitivity (n * A * B * (2 ^ (e + l) * 2 ^ Z.max (- (l - (2 * w - 1))) 0 * 2 ^ Z.max (1 - e) 0)); [|ring]. f_equal. rewrite <- !Z.pow_add_r by lia. f_equal. lia. }
  assert (HUB : 0 < U * B) by nia. set (K := n * 2 ^ (e + l)) in *. assert (HK : 0 < K) by (subst K; nia). assert (HKM : 0 < K * M) by nia.
  assert (HC : X * U * B <= C * U * B) by (apply Z.mul_le_mono_nonneg_r; [lia|]; apply Z.mul_le_mono_nonneg_r; lia).
  assert (Ed : (K * C * M - T * (n * scale_num e k)) * (U * B) = K * M * (C * (U * B) - A * V)) by (rewrite Z.mul_sub_distr_r, Ex; ring).
  assert (Hlo : 0 <= C * (U * B) - A * V) by lia. assert (Hhi : C * (U * B) - A * V < (C - X + 1) * (U * B)) by lia.
  split; [apply (Z.mul_le_mono_pos_r _ _ (U * B)); [done|]; rewrite Ed; nia|]. apply (Z.mul_lt_mono_pos_r (U * B)); [done|]. rewrite Ed.
  replace (n * (2 ^ (e + l) * (C - X + 1)) * M * (U * B)) with (K * M * ((C - X + 1) * (U * B))) by (subst K; ring). apply Z.mul_lt_mono_pos_l; done.
Qed.

(** Small denominators. *)
Lemma seen_by_denominator w C X l k e bound : 0 <= w -> rounded_up k (l - (2 * w - 1)) X -> X <= C -> 0 <= e + l ->
  5 ^ Z.max (- k) 0 * 2 ^ Z.max (1 - e - k) 0 <= 2 ^ w -> bound * (2 ^ (e + l) * (C - X + 1)) <= 2 ^ w ->
  forall n, 0 < n < bound -> seen w C (e + l) (scale_num e k) (scale_den e k) n.
Proof.
  intros Hw Hr HX Hb HG Hbd n Hn. destruct (scale_pos e k) as [HN HM]. apply (floor_by_denominator w C (e + l) _ _ Hw HM (5 ^ Z.max k 0 * 2 ^ Z.max (e - 1 + k) 0) (5 ^ Z.max (- k) 0 * 2 ^ Z.max (1 - e - k) 0)).
  - unfold scale_num, scale_den. change 10 with (2 * 5). rewrite !Z.pow_mul_l. transitivity (5 ^ Z.max k 0 * 5 ^ Z.max (- k) 0 * (2 ^ Z.max (e - 1) 0 * 2 ^ Z.max k 0 * 2 ^ Z.max (1 - e - k) 0)); [ring|].
    transitivity (5 ^ Z.max k 0 * 5 ^ Z.max (- k) 0 * (2 ^ Z.max (e - 1 + k) 0 * 2 ^ Z.max (1 - e) 0 * 2 ^ Z.max (- k) 0)); [|ring]. f_equal. rewrite <- !Z.pow_add_r by lia. f_equal. lia.
  - split; [|done]. apply Z.mul_pos_pos; apply Z.pow_pos_nonneg; lia.
  - pose proof (error_bound w C X l k e n Hw Hr HX Hb ltac:(lia)) as [He1 He2]. split; [done|]. eapply Z.lt_le_trans; [exact He2|]. apply Z.mul_le_mono_nonneg_r; [lia|]. eapply Z.le_trans; [|exact Hbd].
    apply Z.mul_le_mono_nonneg_r; [|lia]. pose proof (Z.pow_pos_nonneg 2 (e + l) ltac:(lia) Hb). apply Z.mul_nonneg_nonneg; lia.
Qed.

(** The smallest multiplier of an exponent: only the smallest exponent has subnormal significands. *)
Definition least (e : Z) : Z := if e =? -1074 then 1 else 2 ^ 53 - 1.

(** What the algorithm may rely on at an exponent. *)
Definition seen_at (e m : Z) (y : uint128_fallback) (l : Z) : Prop :=
  let k := 2 - m in
  floor_log10_pow2 e = Ok m /\ get_cached_power k = Ok y /\ floor_log2_pow10 k = Ok l /\ ok128 y /\ 1 <= e + l <= 9 /\
  prod y (e + l) 2 / T128 = 2 * scale_num e k / scale_den e k /\ 100 <= prod y (e + l) 2 / T128 < 1000 /\
  forall n, least e <= n < 2 ^ 54 -> seen 64 (val128 y) (e + l) (scale_num e k) (scale_den e k) n.

(** ** Checking an exponent *)

Definition is_ok128 (y : uint128_fallback) : bool := (0 <=? high y) && (high y <? 2 ^ 64) && (0 <=? low y) && (low y <? 2 ^ 64).

Definition check_exponent (check : Z -> Z -> Z -> Z -> Z -> bool) (e : Z) : bool :=
  match floor_log10_pow2 e with
  | Ok m =>
      let k := 2 - m in
      match get_cached_power k, get_cached_power_full k, floor_log2_pow10 k with
      | Ok y, Ok x, Ok l =>
          let beta := e + l in
          let C := Z.shiftl (high y) 64 + low y in
          let X := Z.shiftl (high x) 64 + low x in
          let deltai := Z.shiftr (Z.shiftl C (beta + 1)) 128 in
          in_range k && is_ok128 y && (1 <=? beta) && (beta <=? 9) && (100 <=? deltai) && (deltai <? 1000) && check k beta C (Z.shiftl C beta) (C - X + 1)
      | _, _, _ => false
      end
  | _ => false
  end.

(** A small denominator. *)
Definition check_small (e : Z) : bool :=
  check_exponent (fun k beta C num kappa => (kappa <=? 2) && (5 ^ Z.max (- k) 0 * 2 ^ Z.max (1 - e - k) 0 <=? 2 ^ 64)) e.

(** Two neighbouring fractions. *)
Definition check_cert (e : Z) (c : Z * Z) : bool :=
  let '(q, q2) := c in
  check_exponent (fun k beta C num kappa =>
    let a := num * q in
    let lo := Z.shiftr a 128 in
    let d := a - Z.shiftl lo 128 in
    let hi := Z.shiftr (num * q2) 128 + 1 in
    (0 <? q) && (q <=? 2 ^ 54) && (0 <? q2) && (2 ^ 54 <=? q + q2) && (hi * q - lo * q2 =? 1) &&
    (q * Z.shiftl kappa beta <=? d) && (kappa <=? 3) && (2 ^ 64 <=? (if e =? -1074 then d else (2 ^ 53 - 1 + q - 1) / q * d))) e.

Fixpoint check_certs (e : Z) (l : list (Z * Z)) : bool :=
  match l with [] => true | c :: l => check_cert e c && check_certs (e + 1) l end.

Lemma check_exponent_ok check e : check_exponent check e = true ->
  exists m y l x, floor_log10_pow2 e = Ok m /\ get_cached_power (2 - m) = Ok y /\ floor_log2_pow10 (2 - m) = Ok l /\ ok128 y /\ 1 <= e + l <= 9 /\
    100 <= prod y (e + l) 2 / T128 < 1000 /\ rounded_up (2 - m) (l - 127) (val128 x) /\ val128 x <= val128 y /\
    check (2 - m) (e + l) (val128 y) (2 ^ (e + l) * val128 y) (val128 y - val128 x + 1) = true.
Proof.
  unfold check_exponent. destruct (floor_log10_pow2 e) as [m| |] eqn:Em; [|done..]. destruct (get_cached_power (2 - m)) as [y| |] eqn:Ey; [|done..].
  destruct (get_cached_power_full (2 - m)) as [x| |] eqn:Ex; [|done..]. destruct (floor_log2_pow10 (2 - m)) as [l| |] eqn:El; [|done..]. cbv zeta. intros H.
  repeat (apply andb_prop in H as [H ?]). unfold in_range in H. unfold is_ok128 in *. bool_to_prop. assert (Hk : double_min_k <= 2 - m <= double_max_k) by tauto.
  destruct (double_powers (2 - m) Hk) as (x' & y' & l' & Ex' & Ey' & El' & _ & Hr & Hxy & _). rewrite Ex in Ex'. rewrite Ey in Ey'. rewrite El in El'. simplify_eq.
  assert (Ev : forall z, Z.shiftl (high z) 64 + low z = val128 z) by (intros z; rewrite Z.shiftl_mul_pow2 by lia; done). rewrite !Ev in *.
  assert (Hbeta : 1 <= e + l' <= 9) by tauto.
  assert (Ed : Z.shiftr (Z.shiftl (val128 y') (e + l' + 1)) 128 = prod y' (e + l') 2 / T128) by (rewrite Z.shiftr_div_pow2, Z.shiftl_mul_pow2, Z.pow_add_r by lia; unfold prod; f_equal; ring).
  rewrite Ed, Z.shiftl_mul_pow2, (Z.mul_comm (val128 y')) in * by lia.
  exists m, y', l', x'. unfold ok128. split_and!; try done; tauto.
Qed.

Lemma seen_small e : check_small e = true -> least e = 2 ^ 53 - 1 -> exists m y l, seen_at e m y l.
Proof.
  intros H _. destruct (check_exponent_ok _ _ H) as (m & y & l & x & Em & Ey & El & Hy & Hb & Hd & Hr & Hxy & Hc). cbv beta in Hc. set (k := 2 - m) in *.
  apply andb_prop in Hc as [Hk HG]. apply Z.leb_le in Hk, HG. exists m, y, l.
  assert (Hseen : forall n, 0 < n < 2 ^ 54 -> seen 64 (val128 y) (e + l) (scale_num e k) (scale_den e k) n).
  { apply (seen_by_denominator 64 (val128 y) (val128 x) l k e (2 ^ 54)); try done; [lia|]. pose proof (Z.pow_le_mono_r 2 (e + l) 9 ltac:(lia) ltac:(lia)) as Hp. pose proof (Z.pow_pos_nonneg 2 (e + l) ltac:(lia) ltac:(lia)). change (2 ^ 9) with 512 in Hp.
    assert (2 ^ (e + l) * (val128 y - val128 x + 1) <= 512 * 2) by (apply Z.mul_le_mono_nonneg; lia). change (2 ^ 64) with (2 ^ 54 * (512 * 2)). lia. }
  unfold seen_at. cbv zeta. fold k. split; [done|]. split; [done|]. split; [done|]. split; [done|]. split; [done|]. split; [exact (proj1 (Hseen 2 ltac:(lia)))|]. split; [done|]. intros n Hn. apply Hseen. split; [|lia]. pose proof (proj1 Hn). unfold least in *. destruct (e =? -1074); lia.
Qed.

Lemma seen_cert e c : check_cert e c = true -> exists m y l, seen_at e m y l.
Proof.
  destruct c as [q q2]. intros H. destruct (check_exponent_ok _ _ H) as (m & y & l & x & Em & Ey & El & Hy & Hb & Hd & Hr & Hxy & Hc). cbv beta zeta in Hc. clear H. set (k := 2 - m) in *.
  set (num := 2 ^ (e + l) * val128 y) in *. set (kap := val128 y - val128 x + 1) in *. rewrite !Z.shiftr_div_pow2, !Z.shiftl_mul_pow2 in Hc by lia. repeat (apply andb_prop in Hc as [Hc ?]). bool_to_prop.
  assert (Ed : num * q - num * q / T128 * T128 = num * q mod T128) by (rewrite Z.mod_eq by lia; lia). rewrite Ed in *. set (d := num * q mod T128) in *.
  assert (Hkap : 1 <= kap <= 3) by (subst kap; lia). exists m, y, l. destruct (scale_pos e k) as [HN HM].
  pose proof (Z.pow_le_mono_r 2 (e + l) 9 ltac:(lia) ltac:(lia)) as Hp. pose proof (Z.pow_pos_nonneg 2 (e + l) ltac:(lia) ltac:(lia)) as Hp0. change (2 ^ 9) with 512 in Hp. assert (Hd0 : 0 <= d) by (apply Z.mod_pos_bound; lia).
  assert (Hle : 0 < least e) by (unfold least; destruct (e =? -1074); lia).
  destruct (seen_by_neighbours 64 (val128 y) (e + l) (scale_num e k) (scale_den e k) ltac:(lia) HM (2 ^ (e + l) * kap) (2 ^ 54) (least e) 0 q q2) as [Hfl Hs].
  - apply Z.mul_pos_pos; lia.
  - lia.
  - change (2 ^ (2 * 64)) with (2 ^ 54 * 2 ^ 74). assert (2 ^ (e + l) * kap <= 512 * 3) by (apply Z.mul_le_mono_nonneg; lia). assert (2 ^ 54 * (2 ^ (e + l) * kap) <= 2 ^ 74) by (change (2 ^ 74) with (2 ^ 54 * 1048576); lia). apply Z.mul_le_mono_nonneg; lia.
  - change (2 ^ (2 * 64)) with (2 ^ 64 * 2 ^ 64). lia.
  - lia.
  - lia.
  - done.
  - done.
  - change (2 * 64) with 128. fold num d. rewrite (Z.mul_comm (2 ^ (e + l))). done.
  - change (2 * 64) with 128. fold num d. intros j Hj Hjq _. unfold least in Hjq. destruct (e =? -1074); [nia|]. assert (Hj0 : (2 ^ 53 - 1 + q - 1) / q <= j) by (apply Z.lt_succ_r, Z.div_lt_upper_bound; nia). nia.
  - intros n Hn. apply error_bound; done || lia.
  - unfold seen_at. cbv zeta. fold k. split; [done|]. split; [done|]. split; [done|]. split; [done|]. split; [done|]. split; [exact (Hfl 2 ltac:(lia))|]. split; [done|]. intros n Hn. apply Hs; [done|lia].
Qed.

Lemma check_certs_ok l lo e : check_certs lo l = true -> lo <= e < lo + zlen l -> exists c, check_cert e c = true.
Proof.
  revert lo. induction l as [|c l IH]; intros lo H He; [change (zlen (@nil (Z * Z))) with 0 in He; lia|]. cbn [check_certs] in H. apply andb_prop in H as [H1 H2].
  destruct (Z.eq_dec e lo) as [->|Hne]; [by exists c|]. apply (IH (lo + 1)); [done|]. rewrite zlen_cons in He. lia.
Qed.

Lemma certs_subnormal_checked : check_certs (-1126) certs_subnormal = true /\ zlen certs_subnormal = 52.
Proof. vm_compute. done. Qed.
Lemma certs_low_checked : check_certs (-1074) certs_low = true /\ zlen certs_low = 980.
Proof. vm_compute. done. Qed.
Lemma certs_high_checked : check_certs 100 certs_high = true /\ zlen certs_high = 872.
Proof. vm_compute. done. Qed.
Lemma middle_checked : forallb (fun i => check_small (-94 + i)) (seqZ 0 194) = true.
Proof. vm_compute. done. Qed.

Lemma all_seen e : -1126 <= e <= 971 -> exists m y l, seen_at e m y l.
Proof.
  intros He. destruct (Z.lt_ge_cases e (-1074)) as [H0|H0]; [|destruct (Z.lt_ge_cases e (-94)) as [H1|H1]; [|destruct (Z.lt_ge_cases e 100) as [H2|H2]]].
  - destruct certs_subnormal_checked as [Hc Hz]. destruct (check_certs_ok _ _ e Hc) as [c Hce]; [lia|]. by apply (seen_cert e c).
  - destruct certs_low_checked as [Hc Hz]. destruct (check_certs_ok _ _ e Hc) as [c Hce]; [lia|]. by apply (seen_cert e c).
  - apply seen_small; [apply (check_range check_small (-94) 194); [exact middle_checked|lia]|]. unfold least. by rewrite (proj2 (Z.eqb_neq e (-1074))) by lia.
  - destruct certs_high_checked as [Hc Hz]. destruct (check_certs_ok _ _ e Hc) as [c Hce]; [lia|]. by apply (seen_cert e c).
Qed.

Lemma double_exact_products f e m y l : seen_at e m y l -> 0 < f < 2 ^ 53 -> least e <= 2 * f - 1 ->
  exact_products double_float_info (2 ^ 63) f (scale_num e (2 - m)) (scale_den e (2 - m)) (e + l) (double_cache_accessor y).
Proof.
  intros (_ & _ & _ & Hy & Hb & E2 & Hd & Hs) Hf Hlo. set (k := 2 - m) in *. destruct (scale_pos e k) as [HN HM]. set (N := scale_num e k) in *. set (M := scale_den e k) in *.
  pose proof (Z.pow_le_mono_r 2 (e + l) 9 ltac:(lia) ltac:(lia)) as Hp. pose proof (Z.pow_pos_nonneg 2 (e + l) ltac:(lia) ltac:(lia)) as Hp0. change (2 ^ 9) with 512 in Hp.
  assert (Hu : 100 * M <= 2 * N < 1000 * M).
  { rewrite E2 in Hd. pose proof (Z.div_mod (2 * N) M ltac:(lia)). pose proof (Z.mod_pos_bound (2 * N) M HM). nia. }
  split; cbn [carrier_bits double_float_info double_cache_accessor compute_mul compute_delta compute_mul_parity kappa].
  - lia.
  - assert (E1 : Z.lor (wrap 64 (Z.shiftl f 1)) 1 = 2 * f + 1) by (rewrite Z.shiftl_mul_pow2, wrap_small, (lor_parts f 1 1) by lia; lia). rewrite E1, Z.shiftl_mul_pow2, wrap_small by nia.
    rewrite double_mul_ok by (done || nia). destruct (Hs (2 * f + 1) ltac:(lia)) as [<- <-]. done.
  - rewrite double_delta_ok by (done || lia). by rewrite E2.
  - intros n Hn. rewrite double_parity_ok by (done || lia). destruct (Hs n ltac:(lia)) as [<- <-]. done.
  - change (10 ^ 2) with 100. change (10 ^ (2 + 1)) with 1000. done.
  - change (2 ^ 63) with 9223372036854775808. assert ((2 * f + 1) * (2 * N) <= 18014398509481984 * (2 * N)) by (apply Z.mul_le_mono_nonneg_r; lia). lia.
  - lia.
  - done.
Qed.

(** ** The shortest decimal *)
Lemma rhe_half a b : 0 < b -> 2 * Z.abs (a - rhe a b * b) <= b.
Proof.
  intros Hb. unfold rhe. pose proof (Z.div_mod a b ltac:(lia)) as E. pose proof (Z.mod_pos_bound a b Hb) as B. set (q := a / b) in *. set (r := a mod b) in *.
  destruct (Z.ltb_spec b (2 * r)); cbn [orb]; [lia|]. destruct (Z.eqb_spec (2 * r) b); cbn [andb]; [destruct (negb (q mod 2 =? 0)); lia|lia].
Qed.

Lemma rhe_nearest a b d : 0 < b -> Z.abs (a - rhe a b * b) <= Z.abs (a - d * b).
Proof.
  intros Hb. pose proof (rhe_half a b Hb) as H. set (s := rhe a b) in *. destruct (Z.eq_dec d s) as [->|Hne]; [lia|].
  assert (b <= Z.abs (s * b - d * b)) by (rewrite <- Z.mul_sub_distr_r, Z.abs_mul, (Z.abs_eq b) by lia; nia). lia.
Qed.

(** In units of a power of ten, the number is in the interval, no number with fewer digits is, and no other with as many is closer. *)
Definition shortest_scaled (f N M s x : Z) : Prop :=
  in_interval f N M (s * 10 ^ x) /\ (forall d y, x < y -> ~ in_interval f N M (d * 10 ^ y)) /\
  forall d, in_interval f N M (d * 10 ^ x) -> Z.abs (2 * f * N - s * 10 ^ x * M) <= Z.abs (2 * f * N - d * 10 ^ x * M).

Lemma good_shortest T limit f N M beta cache s x : info_ok T limit -> exact_products T limit f N M beta cache -> good_decimal T f N M s x -> shortest_scaled f N M s x.
Proof.
  intros HT HX Hg. pose proof (den_pos _ _ _ _ _ _ _ HX) as HM. pose proof (unit_ok _ _ _ _ _ _ _ HX) as HU. pose proof (N_pos T limit f N M beta cache HT HX) as HN. destruct (divisors T limit HT) as (_ & E10 & h & EP & _ & Hh).
  pose proof (interval_multiple T limit f N M beta cache HT HX) as Huniq. assert (Hk0 : 0 <= kappa T) by (destruct (kappa_ok _ _ HT); lia).
  assert (Hmul : forall d z, kappa T + 1 <= z -> d * 10 ^ z = d * 10 ^ (z - (kappa T + 1)) * (10 * 10 ^ kappa T)) by (intros d z Hz; rewrite <- E10, <- Z.mul_assoc, <- Z.pow_add_r by lia; do 2 f_equal; lia).
  destruct Hg as [(Hx & Hs & Hi)|(-> & -> & Hno)].
  - assert (Hsame : forall d z, kappa T + 1 <= z -> in_interval f N M (d * 10 ^ z) -> d * 10 ^ z = s * 10 ^ x).
    { intros d z Hz Hd. rewrite (Hmul d z Hz), (Hmul s x Hx) in *. by rewrite (Huniq _ Hd), (Huniq _ Hi). }
    split; [done|]. split.
    + intros d z Hz Hd. pose proof (Hsame d z ltac:(lia) Hd) as E. replace z with (z - x - 1 + 1 + x) in E by lia. rewrite !Z.pow_add_r in E by lia. change (10 ^ 1) with 10 in E.
      apply Hs. pose proof (Z.pow_pos_nonneg 10 x ltac:(lia) ltac:(lia)). assert (s = d * 10 ^ (z - x - 1) * 10) by nia. subst s. apply Z.mod_mul. lia.
    + intros d Hd. by rewrite (Hsame d x Hx Hd).
  - pose proof (Z.pow_pos_nonneg 10 (kappa T) ltac:(lia) Hk0) as HP. set (P := 10 ^ kappa T) in *. assert (HMP : 0 < M * P) by nia. pose proof (rhe_half (2 * f * N) (M * P) HMP) as Hh2. unfold shortest_scaled. fold P. split; [|split].
    + unfold in_interval. replace (rhe (2 * f * N) (M * P) * P * M) with (rhe (2 * f * N) (M * P) * (M * P)) by ring. destruct (f mod 2 =? 0); [lia|].
      destruct (Z.eq_dec (2 * N) (M * P)) as [Eq|Hne]; [|lia]. replace (rhe (2 * f * N) (M * P)) with f; [lia|]. replace (2 * f * N) with (f * (M * P) + 0) by (rewrite <- Eq; ring). rewrite rhe_of by lia.
      rewrite (proj2 (Z.ltb_ge 0 _)), (proj2 (Z.eqb_neq (Z.sgn _) 0)) by lia. done.
    + intros d z Hz. rewrite (Hmul d z) by lia. apply Hno.
    + intros d _. replace (rhe (2 * f * N) (M * P) * P * M) with (rhe (2 * f * N) (M * P) * (M * P)) by ring. replace (d * P * M) with (d * (M * P)) by ring. by apply rhe_nearest.
Qed.

(** [n * 2 ^ q] against [d * 10 ^ E] is [n * unit_num q E] against [d * unit_den q E]. *)
Definition unit_num (q E : Z) : Z := 2 ^ Z.max q 0 * 10 ^ Z.max (- E) 0.
Definition unit_den (q E : Z) : Z := 2 ^ Z.max (- q) 0 * 10 ^ Z.max E 0.

(** [d * 10 ^ E] lies between the middles to the neighbours of [f * 2 ^ e], and is read
    back as that number: at an end only where [f] is even.  [closer]: the neighbour below is half as far. *)
Definition reads_back (f e : Z) (closer : bool) (d E : Z) : Prop :=
  let lo := if closer then 4 * f - 1 else 4 * f - 2 in
  let a := unit_num (e - 2) E in
  let b := unit_den (e - 2) E in
  if f mod 2 =? 0 then lo * a <= d * b <= (4 * f + 2) * a else lo * a < d * b < (4 * f + 2) * a.

(** Nothing with a larger exponent is read back, and nothing with this one is closer. *)
Definition shortest_decimal (f e : Z) (closer : bool) (s E : Z) : Prop :=
  reads_back f e closer s E /\ (forall d E', E < E' -> ~ reads_back f e closer d E') /\
  forall d, reads_back f e closer d E -> Z.abs (4 * f * unit_num (e - 2) E - s * unit_den (e - 2) E) <= Z.abs (4 * f * unit_num (e - 2) E - d * unit_den (e - 2) E).

Lemma unit_pos q E : 0 < unit_num q E /\ 0 < unit_den q E.
Proof. unfold unit_num, unit_den. split; apply Z.mul_pos_pos; apply Z.pow_pos_nonneg; lia. Qed.

Lemma scale_unit e k x : 0 <= x -> scale_num e k * unit_den (e - 2) (x - k) = 2 * (unit_num (e - 2) (x - k) * (10 ^ x * scale_den e k)).
Proof.
  intros Hx. unfold scale_num, scale_den, unit_num, unit_den.
  assert (E2 : 2 ^ Z.max (e - 1) 0 * 2 ^ Z.max (- (e - 2)) 0 = 2 * (2 ^ Z.max (e - 2) 0 * 2 ^ Z.max (1 - e) 0)) by (rewrite <- !Z.pow_add_r, <- Z.pow_succ_r by lia; f_equal; lia).
  assert (E10 : 10 ^ Z.max k 0 * 10 ^ Z.max (x - k) 0 = 10 ^ Z.max (- (x - k)) 0 * 10 ^ x * 10 ^ Z.max (- k) 0) by (rewrite <- !Z.pow_add_r by lia; f_equal; lia).
  transitivity (2 ^ Z.max (e - 1) 0 * 2 ^ Z.max (- (e - 2)) 0 * (10 ^ Z.max k 0 * 10 ^ Z.max (x - k) 0)); [ring|]. rewrite E2, E10. ring.
Qed.

Lemma scaled_le A B C D n d : 0 < B -> 0 < D -> A * D = 2 * (C * B) -> (n * A <= d * B <-> 2 * n * C <= d * D) /\ (d * B <= n * A <-> d * D <= 2 * n * C).
Proof.
  intros HB HD E. assert (E' : n * A * D = 2 * n * C * B) by (transitivity (n * (A * D)); [ring|rewrite E; ring]). split; split; intros H.
  - apply (Z.mul_le_mono_pos_r _ _ B); [done|]. rewrite <- E'. replace (d * D * B) with (d * B * D) by ring. apply Z.mul_le_mono_nonneg_r; lia.
  - apply (Z.mul_le_mono_pos_r _ _ D); [done|]. rewrite E'. replace (d * B * D) with (d * D * B) by ring. apply Z.mul_le_mono_nonneg_r; lia.
  - apply (Z.mul_le_mono_pos_r _ _ B); [done|]. rewrite <- E'. replace (d * D * B) with (d * B * D) by ring. apply Z.mul_le_mono_nonneg_r; lia.
  - apply (Z.mul_le_mono_pos_r _ _ D); [done|]. rewrite E'. replace (d * B * D) with (d * D * B) by ring. apply Z.mul_le_mono_nonneg_r; lia.
Qed.

(** The same in terms of the number. *)
Lemma in_interval_reads_back f e k d x : 0 <= x -> in_interval f (scale_num e k) (scale_den e k) (d * 10 ^ x) <-> reads_back f e false d (x - k).
Proof.
  intros Hx. destruct (scale_pos e k) as [HN HM]. destruct (unit_pos (e - 2) (x - k)) as [Ha Hb]. pose proof (scale_unit e k x Hx) as E. unfold in_interval, reads_back.
  pose proof (Z.pow_pos_nonneg 10 x ltac:(lia) Hx) as Hp. assert (HB : 0 < 10 ^ x * scale_den e k) by nia.
  destruct (scaled_le _ _ _ _ (2 * f - 1) d HB Hb E) as [L1 L2]. destruct (scaled_le _ _ _ _ (2 * f + 1) d HB Hb E) as [L3 L4]. rewrite Z.mul_assoc in L1, L2, L3, L4. rewrite <- !Z.mul_assoc in *.
  replace (4 * f - 2) with (2 * (2 * f - 1)) by lia. replace (4 * f + 2) with (2 * (2 * f + 1)) by lia. rewrite <- !Z.mul_assoc. destruct (f mod 2 =? 0); lia.
Qed.

Lemma shortest_of_scaled f e k s x : 0 <= x -> shortest_scaled f (scale_num e k) (scale_den e k) s x -> shortest_decimal f e false s (x - k).
Proof.
  intros Hx (H1 & H2 & H3). split; [by apply in_interval_reads_back|]. split.
  - intros d E' HE Hd. replace E' with (E' + k - k) in Hd by lia. apply in_interval_reads_back in Hd; [|lia]. by apply (H2 d (E' + k)); [lia|].
  - intros d Hd. apply in_interval_reads_back in Hd; [|done]. specialize (H3 d Hd). destruct (scale_pos e k) as [HN HM]. destruct (unit_pos (e - 2) (x - k)) as [Ha Hb]. pose proof (scale_unit e k x Hx) as E.
    set (N := scale_num e k) in *. set (a := unit_num (e - 2) (x - k)) in *. set (b := unit_den (e - 2) (x - k)) in *. set (M := scale_den e k) in *. pose proof (Z.pow_pos_nonneg 10 x ltac:(lia) Hx) as Hp.
    assert (HB : 0 < 10 ^ x * M) by nia. assert (Hsc : forall c, Z.abs (2 * f * N - c * 10 ^ x * M) * b = Z.abs (4 * f * a - c * b) * (10 ^ x * M)).
    { intros c. transitivity (Z.abs ((2 * f * N - c * 10 ^ x * M) * b)); [by rewrite Z.abs_mul, (Z.abs_eq b) by lia|]. transitivity (Z.abs ((4 * f * a - c * b) * (10 ^ x * M))); [|by rewrite Z.abs_mul, (Z.abs_eq (10 ^ x * M)) by lia].
      f_equal. rewrite !Z.mul_sub_distr_r. f_equal; [|ring]. transitivity (2 * f * (N * b)); [ring|]. rewrite E. ring. }
    apply (Z.mul_le_mono_pos_r _ _ (10 ^ x * M)); [done|]. rewrite <- !Hsc. apply Z.mul_le_mono_nonneg_r; lia.
Qed.

(** ** Powers of two *)
Lemma ratio_cmp A B C D n d : 0 < B -> 0 < D -> A * D = C * B -> (n * A ?= d * B) = (n * C ?= d * D).
Proof.
  intros HB HD E. rewrite (Zmult_compare_compat_r (n * A) (d * B) D), (Zmult_compare_compat_r (n * C) (d * D) B) by lia. f_equal; [|ring].
  transitivity (n * (A * D)); [ring|]. rewrite E. ring.
Qed.

(** [n * 2 ^ (e - 2)] against [d * 10 ^ E], decided with the power of ten [x] of the cache, or exactly where the exponent is small. *)
Definition cmp_scaled (x : uint128_fallback) (l e k n d : Z) : option comparison :=
  let b := e + 2 + l in
  let a := n * Z.shiftl (val128 x) b in
  let F := Z.shiftr a 128 in
  if Z.shiftl n b <=? a - Z.shiftl F 128 then Some (if 8 * d <=? F then Gt else Lt)
  else if (-81 <=? e) && (e <=? 3) then Some (n * scale_num (e + 2) k ?= 8 * d * scale_den (e + 2) k)
  else None.

Lemma cmp_scaled_ok x l e k n d c : rounded_up k (l - 127) (val128 x) -> 0 <= e + 2 + l -> 0 < n -> cmp_scaled x l e k n d = Some c ->
  (n * scale_num (e + 2) k ?= 8 * d * scale_den (e + 2) k) = c.
Proof.
  intros Hr Hb Hn. unfold cmp_scaled. pose proof (error_bound 64 (val128 x) (val128 x) l k (e + 2) n ltac:(lia) Hr ltac:(lia) Hb Hn) as He. destruct (scale_pos (e + 2) k) as [_ HM].
  rewrite !Z.shiftl_mul_pow2, Z.shiftr_div_pow2 by lia. assert (Ea : n * (val128 x * 2 ^ (e + 2 + l)) = prod x (e + 2 + l) n) by (unfold prod; ring). rewrite Ea.
  assert (Em : prod x (e + 2 + l) n - prod x (e + 2 + l) n / T128 * T128 = prod x (e + 2 + l) n mod T128) by (rewrite Z.mod_eq by lia; lia). rewrite Em.
  destruct (Z.leb_spec (n * 2 ^ (e + 2 + l)) (prod x (e + 2 + l) n mod T128)) as [Hle|_].
  - intros [= <-]. replace (n * (2 ^ (e + 2 + l) * (val128 x - val128 x + 1))) with (n * 2 ^ (e + 2 + l)) in He by ring.
    destruct (floor_by_distance 64 (val128 x) (e + 2 + l) _ _ ltac:(lia) HM n _ He Hle) as [Ef Hni]. change (prod x (e + 2 + l) n / T128) with (n * 2 ^ (e + 2 + l) * val128 x / 2 ^ (2 * 64)). rewrite Ef. set (N := n * scale_num (e + 2) k) in *. set (M := scale_den (e + 2) k) in *.
    pose proof (Z.div_mod N M ltac:(lia)) as Hd. pose proof (Z.mod_pos_bound N M HM) as Hmb. destruct (Z.leb_spec (8 * d) (N / M)) as [H|H]; [apply Z.compare_gt_iff|apply Z.compare_lt_iff]; nia.
  - destruct ((-81 <=? e) && (e <=? 3)); [|done]. by intros [= <-].
Qed.

Definition is_le (c : option comparison) : bool := match c with Some Lt | Some Eq => true | _ => false end.
Definition is_lt (c : option comparison) : bool := match c with Some Lt => true | _ => false end.
Definition is_ge (c : option comparison) : bool := match c with Some Gt | Some Eq => true | _ => false end.
Definition is_gt (c : option comparison) : bool := match c with Some Gt => true | _ => false end.

(** The check for one power of two: the result is in the interval, the multiples of ten around it are not,
    and neither neighbour is in the interval and closer. *)
Definition check_power (e : Z) : bool :=
  match shorter_interval_case double_float_info e, floor_log10_pow2_minus_log10_4_over_3 e with
  | Ok (s, E), Ok minus_k =>
      match get_cached_power_full (- minus_k), floor_log2_pow10 (- minus_k) with
      | Ok x, Ok l =>
          let u := 10 ^ (E - minus_k) in
          let cmp n d := cmp_scaled x l e (- minus_k) n (d * u) in
          let cmp2 n d := cmp_scaled x l e (- minus_k) n d in
          let t := s / 10 in
          let lo := if e =? -1074 then 2 ^ 54 - 2 else 2 ^ 54 - 1 in
          let hi := 2 ^ 54 + 2 in
          in_range (- minus_k) && (0 <? s) && (s <? 2 ^ 63) && (0 <=? E - minus_k) && (0 <=? e + 2 + l) &&
          is_le (cmp lo s) && is_ge (cmp hi s) && is_gt (cmp lo (t * 10)) && is_lt (cmp hi ((t + 1) * 10)) &&
          (is_gt (cmp lo (s - 1)) || is_ge (cmp2 (2 ^ 55) ((2 * s - 1) * u))) && (is_lt (cmp hi (s + 1)) || is_le (cmp2 (2 ^ 55) ((2 * s + 1) * u)))
      | _, _ => false
      end
  | _, _ => false
  end.

Lemma powers_checked : forallb (fun i => check_power (-1074 + i)) (seqZ 0 2046) = true.
Proof. vm_compute. done. Qed.

(** The comparisons of the check, for the power of two [2 ^ 52 * 2 ^ e]. *)
Lemma unit_scaled e E k u n d : 0 <= E + k -> u = 10 ^ (E + k) ->
  (n * scale_num (e + 2) k ?= 8 * (d * u) * scale_den (e + 2) k) = (n * unit_num (e - 2) E ?= d * unit_den (e - 2) E).
Proof.
  intros HE ->. replace (8 * (d * 10 ^ (E + k)) * scale_den (e + 2) k) with (d * (8 * 10 ^ (E + k) * scale_den (e + 2) k)) by ring.
  destruct (scale_pos (e + 2) k) as [_ HM]. destruct (unit_pos (e - 2) E) as [_ Hb]. apply ratio_cmp; [|done|].
  - pose proof (Z.pow_pos_nonneg 10 (E + k) ltac:(lia) HE). nia.
  - unfold scale_num, scale_den, unit_num, unit_den. assert (E2 : 2 ^ Z.max (e + 2 - 1) 0 * 2 ^ Z.max (- (e - 2)) 0 = 2 ^ Z.max (e - 2) 0 * (8 * 2 ^ Z.max (1 - (e + 2)) 0)) by (change 8 with (2 ^ 3); rewrite <- !Z.pow_add_r by lia; f_equal; lia).
    assert (E10 : 10 ^ Z.max k 0 * 10 ^ Z.max E 0 = 10 ^ Z.max (- E) 0 * 10 ^ (E + k) * 10 ^ Z.max (- k) 0) by (rewrite <- !Z.pow_add_r by lia; f_equal; lia).
    transitivity (2 ^ Z.max (e + 2 - 1) 0 * 2 ^ Z.max (- (e - 2)) 0 * (10 ^ Z.max k 0 * 10 ^ Z.max E 0)); [ring|]. rewrite E2, E10. ring.
Qed.

(** A number with a larger exponent is a multiple of ten. *)
Lemma reads_back_shift f e closer d E j : 0 <= j -> reads_back f e closer d (E + j) <-> reads_back f e closer (d * 10 ^ j) E.
Proof.
  intros Hj. destruct (unit_pos (e - 2) E) as [Ha Hb]. destruct (unit_pos (e - 2) (E + j)) as [Ha' Hb']. pose proof (Z.pow_pos_nonneg 10 j ltac:(lia) Hj) as Hp.
  assert (Ec : forall n, (n * unit_num (e - 2) (E + j) ?= d * unit_den (e - 2) (E + j)) = (n * unit_num (e - 2) E ?= d * 10 ^ j * unit_den (e - 2) E)).
  { intros n. rewrite <- Z.mul_assoc. apply ratio_cmp; [done|nia|]. unfold unit_num, unit_den.
    assert (E10 : 10 ^ Z.max (- (E + j)) 0 * (10 ^ j * 10 ^ Z.max E 0) = 10 ^ Z.max (- E) 0 * 10 ^ Z.max (E + j) 0) by (rewrite <- !Z.pow_add_r by lia; f_equal; lia).
    transitivity (2 ^ Z.max (e - 2) 0 * 2 ^ Z.max (- (e - 2)) 0 * (10 ^ Z.max (- (E + j)) 0 * (10 ^ j * 10 ^ Z.max E 0))); [ring|]. rewrite E10. ring. }
  unfold reads_back. pose proof (Ec (if closer then 4 * f - 1 else 4 * f - 2)) as E1. pose proof (Ec (4 * f + 2)) as E2. unfold Z.le, Z.lt. rewrite (Z.compare_antisym ((4 * f + 2) * unit_num (e - 2) (E + j))), (Z.compare_antisym ((4 * f + 2) * unit_num (e - 2) E)), E1, E2. done.
Qed.

(** The interval of a number with an even significand, by comparisons. *)
Lemma shortest_of_bounds f e (closer : bool) s E : f mod 2 = 0 ->
  let lo := if closer then 4 * f - 1 else 4 * f - 2 in let hi := 4 * f + 2 in let a := unit_num (e - 2) E in let b := unit_den (e - 2) E in
  lo * a <= s * b <= hi * a -> s / 10 * 10 * b < lo * a -> hi * a < (s / 10 + 1) * 10 * b ->
  (s - 1) * b < lo * a \/ (2 * s - 1) * b <= 8 * f * a -> hi * a < (s + 1) * b \/ 8 * f * a <= (2 * s + 1) * b -> shortest_decimal f e closer s E.
Proof.
  intros Hf lo hi a b Hs Ht1 Ht2 Hl Hh. assert (Erb : forall d, reads_back f e closer d E <-> lo * a <= d * b <= hi * a) by (intros d; unfold reads_back; by rewrite (proj2 (Z.eqb_eq _ 0) Hf)).
  destruct (unit_pos (e - 2) E) as [Ha Hb]. fold a in Ha. fold b in Hb. split; [by apply Erb|]. split.
  - intros d E' HE'. replace E' with (E + (E' - E)) by lia. rewrite reads_back_shift, Erb by lia. replace (E' - E) with (E' - E - 1 + 1) by lia. rewrite Z.pow_add_r by lia. change (10 ^ 1) with 10. set (z := d * 10 ^ (E' - E - 1)).
    replace (d * (10 ^ (E' - E - 1) * 10)) with (z * 10) by (subst z; ring). destruct (Z.le_gt_cases z (s / 10)) as [Hz|Hz].
    + assert (z * 10 * b <= s / 10 * 10 * b) by (apply Z.mul_le_mono_nonneg_r; lia). lia.
    + assert ((s / 10 + 1) * 10 * b <= z * 10 * b) by (apply Z.mul_le_mono_nonneg_r; lia). lia.
  - intros d Hd. apply Erb in Hd. fold a b. clear Erb Hs Ht1 Ht2. destruct (Z.lt_trichotomy d s) as [Hds|[->|Hds]]; [|lia|].
    + assert (d * b <= (s - 1) * b) by (apply Z.mul_le_mono_nonneg_r; lia). lia.
    + assert ((s + 1) * b <= d * b) by (apply Z.mul_le_mono_nonneg_r; lia). lia.
Qed.

Lemma check_power_ok e : check_power e = true -> exists s E, shorter_interval_case double_float_info e = Ok (s, E) /\ 0 < s < 2 ^ 63 /\ shortest_decimal (2 ^ 52) e (negb (e =? -1074)) s E.
Proof.
  unfold check_power. destruct (shorter_interval_case double_float_info e) as [[s E]| |]; [|done..]. destruct (floor_log10_pow2_minus_log10_4_over_3 e) as [mk| |]; [|done..].
  destruct (get_cached_power_full (- mk)) as [x| |] eqn:Ex; [|done..]. destruct (floor_log2_pow10 (- mk)) as [l| |] eqn:El; [|done..]. cbv zeta. intros H. exists s, E. split; [done|].
  repeat (apply andb_prop in H as [H ?]). unfold in_range in H. bool_to_prop. assert (Hk : double_min_k <= - mk <= double_max_k) by tauto. split; [tauto|].
  destruct (double_powers (- mk) Hk) as (x' & y' & l' & Ex' & _ & El' & _ & Hr & _). rewrite Ex in Ex'. rewrite El in El'. injection Ex' as <-. injection El' as <-.
  set (u := 10 ^ (E - mk)) in *. assert (Hu : u = 10 ^ (E + - mk)) by (subst u; f_equal; lia).
  assert (Hcmp : forall n d c, 0 < n -> cmp_scaled x l e (- mk) n (d * u) = Some c -> (n * unit_num (e - 2) E ?= d * unit_den (e - 2) E) = c).
  { intros n d c Hn Hc. rewrite <- (unit_scaled e E (- mk) u n d) by (done || lia). by apply (cmp_scaled_ok x l). }
  assert (Hle : forall n d, 0 < n -> is_le (cmp_scaled x l e (- mk) n (d * u)) = true -> n * unit_num (e - 2) E <= d * unit_den (e - 2) E).
  { intros n d Hn Hc. destruct (cmp_scaled x l e (- mk) n (d * u)) as [c|] eqn:Ec; [|done]. apply Hcmp in Ec; [|done]. unfold Z.le. rewrite Ec. by destruct c. }
  assert (Hge : forall n d, 0 < n -> is_ge (cmp_scaled x l e (- mk) n (d * u)) = true -> d * unit_den (e - 2) E <= n * unit_num (e - 2) E).
  { intros n d Hn Hc. destruct (cmp_scaled x l e (- mk) n (d * u)) as [c|] eqn:Ec; [|done]. apply Hcmp in Ec; [|done]. apply Z.ge_le. unfold Z.ge. rewrite Ec. by destruct c. }
  assert (Hlt : forall n d, 0 < n -> is_lt (cmp_scaled x l e (- mk) n (d * u)) = true -> n * unit_num (e - 2) E < d * unit_den (e - 2) E).
  { intros n d Hn Hc. destruct (cmp_scaled x l e (- mk) n (d * u)) as [c|] eqn:Ec; [|done]. apply Hcmp in Ec; [|done]. by destruct c. }
  assert (Hgt : forall n d, 0 < n -> is_gt (cmp_scaled x l e (- mk) n (d * u)) = true -> d * unit_den (e - 2) E < n * unit_num (e - 2) E).
  { intros n d Hn Hc. destruct (cmp_scaled x l e (- mk) n (d * u)) as [c|] eqn:Ec; [|done]. apply Hcmp in Ec; [|done]. apply Z.gt_lt. by destruct c. }
  destruct (unit_pos (e - 2) E) as [Ha Hb]. apply shortest_of_bounds; [done|..]; change (4 * 2 ^ 52) with (2 ^ 54); change (8 * 2 ^ 52) with (2 ^ 55); replace (if negb (e =? -1074) then 2 ^ 54 - 1 else 2 ^ 54 - 2) with (if e =? -1074 then 2 ^ 54 - 2 else 2 ^ 54 - 1) by (by destruct (e =? -1074));
    set (lo := if e =? -1074 then 2 ^ 54 - 2 else 2 ^ 54 - 1) in *; assert (Hlo : 0 < lo) by (subst lo; destruct (e =? -1074); lia).
  - split; [apply Hle|apply Hge]; done || lia.
  - apply Hgt; done || lia.
  - apply Hlt; done || lia.
  - match goal with H : (is_gt _ || is_ge _) = true |- _ => apply orb_prop in H as [H|H]; [left; apply Hgt|right; apply Hge]; done || lia end.
  - match goal with H : (is_lt _ || is_le _) = true |- _ => apply orb_prop in H as [H|H]; [left; apply Hlt|right; apply Hle]; done || lia end.
Qed.

(** ** Every double *)
(** Significand and exponent field of the bits of a number. *)
Lemma field_low u n : 0 <= n -> Z.land u (Z.shiftl 1 n - 1) = u mod 2 ^ n.
Proof. intros Hn. rewrite <- Z.land_ones by done. by rewrite Z.ones_equiv, Z.shiftl_1_l, Z.sub_1_r. Qed.

Lemma field_high u n m : 0 <= n -> 0 <= m -> Z.shiftr (Z.land u (Z.shiftl (Z.ones n) m)) m = u / 2 ^ m mod 2 ^ n.
Proof. intros Hn Hm. by rewrite Z.shiftr_land, Z.shiftr_shiftl_l, Z.sub_diag, Z.shiftl_0_r, Z.land_ones, Z.shiftr_div_pow2 by lia. Qed.

Lemma field_shifted u n m : 0 <= n -> 0 <= m -> Z.land u (Z.shiftl (Z.ones n) m) = Z.shiftl (Z.shiftr (Z.land u (Z.shiftl (Z.ones n) m)) m) m.
Proof.
  intros Hn Hm. apply Z.bits_inj'. intros i Hi. rewrite Z.shiftl_spec by lia. destruct (Z.le_gt_cases m i) as [H|H].
  - rewrite Z.shiftr_spec by lia. by replace (i - m + m) with i by lia.
  - rewrite Z.land_spec, Z.shiftl_spec, (Z.testbit_neg_r (Z.ones n)), andb_false_r by lia. by rewrite Z.testbit_neg_r by lia.
Qed.

Lemma bits_fields u : Z.land u (Z.shiftl 1 52 - 1) = u mod 2 ^ 52 /\ Z.shiftr (Z.land u (exponent_mask binary64)) 52 = u / 2 ^ 52 mod 2 ^ 11.
Proof. split; [by apply field_low|]. by apply (field_high u 11 52). Qed.

Lemma exponent_field u : Z.land u (exponent_mask binary64) = Z.shiftl (Z.shiftr (Z.land u (exponent_mask binary64)) 52) 52.
Proof. by apply (field_shifted u 11 52). Qed.

Lemma interval_range limit f N M s x : (2 * f + 1) * N < limit * M -> 0 < M -> 0 < N -> 0 < f -> 0 <= x -> in_interval f N M (s * 10 ^ x) -> 0 < s < limit.
Proof.
  intros HB HM HN Hf Hx Hi. pose proof (Z.pow_pos_nonneg 10 x ltac:(lia) Hx) as Hp. assert (H : (2 * f - 1) * N <= s * 10 ^ x * M <= (2 * f + 1) * N) by (unfold in_interval in Hi; destruct (f mod 2 =? 0); lia).
  assert (H0 : 0 < s * 10 ^ x * M) by nia. assert (Hs : 0 < s) by nia. split; [done|]. assert (s * 10 ^ x < limit) by nia. nia.
Qed.

Lemma regular_shortest f e : -1074 <= e <= 971 -> 0 < f < 2 ^ 53 -> least e <= 2 * f - 1 ->
  exists s E, regular_case double_float_info f e = Ok (s, E) /\ 0 < s < 2 ^ 63 /\ shortest_decimal f e false s E.
Proof.
  intros He Hf Hlo. destruct (all_seen e ltac:(lia)) as (m & y & l & Hs). pose proof (double_exact_products f e m y l Hs Hf Hlo) as HX. destruct Hs as (Em & Ey & El & _).
  destruct (regular_case_ok double_float_info (2 ^ 63) f _ _ (e + l) (double_cache_accessor y) (m - 2) double_info_ok HX e m l) as (s & x & Er & Hg); try done.
  { cbn [accessor double_float_info]. replace (- (m - 2)) with (2 - m) by lia. by rewrite Ey. }
  { replace (- (m - 2)) with (2 - m) by lia. done. }
  assert (Hx : 0 <= x) by (destruct Hg as [(H & _)|(H & _)]; cbn [kappa double_float_info] in H; lia).
  pose proof (good_shortest double_float_info (2 ^ 63) f _ _ (e + l) (double_cache_accessor y) s x double_info_ok HX Hg) as Hsh.
  exists s, (m - 2 + x). split; [done|]. split; [apply (interval_range (2 ^ 63) f _ _ s x (bound_ok _ _ _ _ _ _ _ HX) (den_pos _ _ _ _ _ _ _ HX) (proj1 (scale_pos _ _))); [lia|done|exact (proj1 Hsh)]|].
  replace (m - 2 + x) with (x - (2 - m)) by lia. by apply shortest_of_scaled.
Qed.

(** For the bits of every finite double that is not zero [to_decimal] returns the shortest decimal. *)
Lemma double_shortest u : 0 <= u < 2 ^ 64 -> Z.land u (exponent_mask binary64) <> exponent_mask binary64 ->
  let '(v, closer) := fp_assign binary64 u in
  f v <> 0 -> exists s E, to_decimal double_float_info u = Ok (s, E) /\ 0 < s < 2 ^ 63 /\ shortest_decimal (f v) (e v) closer s E.
Proof.
  intros Hu Hfin. unfold fp_assign, to_decimal. cbn [num_significand_bits binary64 has_implicit_bit exponent_bias format_ double_float_info min_exponent]. change (mkformat 52 11 true 1023) with binary64.
  destruct (bits_fields u) as [Es Ee]. rewrite Es, Ee. set (sig := u mod 2 ^ 52) in *. set (b := u / 2 ^ 52 mod 2 ^ 11) in *. assert (Hsig : 0 <= sig < 2 ^ 52) by (apply Z.mod_pos_bound; lia).
  assert (Hb : 0 <= b < 2047).
  { assert (Hb : 0 <= b < 2 ^ 11) by (apply Z.mod_pos_bound; lia). destruct (Z.eq_dec b 2047) as [E|E]; [|lia]. exfalso. apply Hfin.
    by rewrite exponent_field, Ee, E. }
  destruct (Z.eqb_spec b 0) as [E0|E0]; cbn [negb].
  - cbn [f e]. intros Hf. rewrite (proj2 (Z.eqb_neq sig 0)) by done. rewrite (proj2 (Z.ltb_ge 1 b)) by lia. cbn [andb]. apply (regular_shortest sig (-1074)); [lia|lia|]. change (least (-1074)) with 1. lia.
  - cbn [f e]. intros _. destruct (Z.eqb_spec sig 0) as [Z0|Z0]; cbn [andb].
    + rewrite Z0. change (0 + Z.shiftl 1 52) with (2 ^ 52). destruct (check_power_ok (b - (1023 + 52))) as (s & E & Ec & Hsh); [apply (check_range check_power (-1074) 2046); [exact powers_checked|lia]|].
      exists s, E. split; [done|]. replace (b - 1023 - 52) with (b - (1023 + 52)) by lia. replace (1 <? b) with (negb (b - (1023 + 52) =? -1074)); [done|]. destruct (Z.eqb_spec (b - (1023 + 52)) (-1074)); destruct (Z.ltb_spec 1 b); done || lia.
    + assert (El : Z.lor sig (Z.shiftl 1 52) = sig + Z.shiftl 1 52) by (rewrite Z.lor_comm, Z.shiftl_mul_pow2, (lor_parts 1 sig 52) by lia; lia). rewrite El. change (Z.shiftl 1 52) with (2 ^ 52).
      replace (b - 1023 - 52) with (b - (1023 + 52)) by lia. apply regular_shortest; [lia|lia|]. unfold least. destruct (_ =? _); lia.
Qed.
