(* ===== verification/FmtShortFloat.v ===== *)
(** * fmt: to_decimal returns the shortest decimal of every float and double

    What [FmtShortest] does for double, here for float with 64-bit powers of ten.  For two floats
    the test whether the centre is an integer gives the wrong answer (a comment in the code
    names them); they are checked apart. *)

From S2P Require Import Prelude Machine FmtInt FmtWide FmtPow10 FmtBigint FmtDragon FmtDragonbox FmtShortest.
Local Open Scope outcome_scope.

(** ** The products for float *)

Section float_products.
Context (C beta : Z) (HC : 0 <= C < 2 ^ 64) (Hb : 1 <= beta <= 6).
Local Notation p n := (n * 2 ^ beta * C).

Lemma float_prod_div n j : beta <= j -> p n / 2 ^ j = n * C / 2 ^ (j - beta).
Proof.
  intros Hbj. replace (p n) with (n * C * 2 ^ beta) by ring. replace (2 ^ j) with (2 ^ (j - beta) * 2 ^ beta) by (rewrite <- Z.pow_add_r by lia; f_equal; lia).
  apply Z.div_mul_cancel_r; apply Z.pow_nonzero; lia.
Qed.

Lemma float_mul_ok n : 0 <= n -> n * 2 ^ beta < 2 ^ 32 -> float_compute_mul C (n * 2 ^ beta) = (p n / 2 ^ 64, p n / 2 ^ 32 mod 2 ^ 32 =? 0).
Proof.
  intros Hn Hlt. assert (Hp : 0 < 2 ^ beta) by (apply Z.pow_pos_nonneg; lia). assert (Hu : 0 <= n * 2 ^ beta) by nia. unfold float_compute_mul, umul96_upper64. rewrite Z.shiftl_mul_pow2 by lia. unfold u64. rewrite wrap_small by lia.
  rewrite (proj1 (umul128_high (n * 2 ^ beta * 2 ^ 32) C ltac:(lia) HC)). replace (n * 2 ^ beta * 2 ^ 32 * C) with (p n * 2 ^ 32) by ring. change (2 ^ 64) with (2 ^ 32 * 2 ^ 32) at 1 2. rewrite Z.div_mul_cancel_r by lia.
  rewrite Z.shiftr_div_pow2, Z.div_div by lia. change (2 ^ 32 * 2 ^ 32) with (2 ^ 64). unfold u32, wrap. f_equal. apply Z.mod_small. split; [apply Z.div_pos; nia|apply Z.div_lt_upper_bound; nia].
Qed.

Lemma float_delta_ok : p 2 / 2 ^ 64 < 2 ^ 32 -> float_compute_delta C beta = Ok (p 2 / 2 ^ 64).
Proof.
  intros Hlt. unfold float_compute_delta. rewrite shr64_ok by lia. cbn [outcome_map].
  assert (E : C / 2 ^ (64 - 1 - beta) = p 2 / 2 ^ 64).
  { rewrite float_prod_div by lia. replace (64 - beta) with (64 - 1 - beta + 1) by lia. rewrite (Z.pow_add_r 2 _ 1), (Z.mul_comm 2) by lia. change (2 ^ 1) with 2. rewrite Z.div_mul_cancel_r; [done|apply Z.pow_nonzero; lia|lia]. }
  rewrite E. unfold u32. rewrite wrap_small; [done|]. split; [|done]. apply Z.div_pos; [|lia]. assert (0 < 2 ^ beta) by (apply Z.pow_pos_nonneg; lia). nia.
Qed.

Lemma float_parity_ok n : 0 <= n < 2 ^ 32 -> float_compute_mul_parity C n beta = Ok (Z.odd (p n / 2 ^ 64), p n / 2 ^ 32 mod 2 ^ 32 =? 0).
Proof.
  intros Hn. unfold float_compute_mul_parity. rewrite (proj2 (Z.leb_le 1 beta)), (proj2 (Z.ltb_lt beta 64)) by lia. cbn [andb]. rewrite !shr64_ok by lia. cbn [obind]. rewrite !float_prod_div by lia. unfold umul96_lower64, u64, u32, wrap. do 2 f_equal.
  - rewrite div_mod_pow by lia. change 1 with (Z.ones 1) at 1. rewrite Z.land_ones by lia. change (2 ^ 1) with 2. rewrite Zmod_odd, odd_mod_pow by lia. by destruct (Z.odd _).
  - f_equal. rewrite div_mod_pow by lia. replace (64 - (32 - beta)) with (32 + beta) by lia. rewrite Z.pow_add_r, Z.rem_mul_r by (try apply Z.pow_nonzero; lia). rewrite Z.add_comm, (Z.mul_comm (2 ^ 32)), Z.add_comm, Z.mod_add, Z.mod_mod by lia. done.
Qed.
End float_products.

(** ** Exponents *)

(** Only the smallest exponent has subnormal significands. *)
Definition least_float (e : Z) : Z := if e =? -149 then 1 else 2 ^ 24 - 1.
(** The number that is taken for an integer. *)
Definition bad_float (e : Z) : Z := if (e =? -81) || (e =? -80) then 29711844 else 0.

Definition float_seen_at (e m C l : Z) : Prop :=
  let k := 1 - m in
  floor_log10_pow2 e = Ok m /\ get_cached_power_float k = Ok C /\ floor_log2_pow10 k = Ok l /\ 0 <= C < 2 ^ 64 /\ 1 <= e + l <= 6 /\
  2 * 2 ^ (e + l) * C / 2 ^ 64 = 2 * scale_num e k / scale_den e k /\ 10 <= 2 * 2 ^ (e + l) * C / 2 ^ 64 < 100 /\
  forall n, least_float e <= n < 2 ^ 25 -> n <> bad_float e -> seen 32 C (e + l) (scale_num e k) (scale_den e k) n.

(** For the exponents -149, ..., -48. *)
Definition float_certs_low : list (Z * Z) :=
  [(17246681, 28892438); (17246681, 31692900); (17246681, 33093131); (21447374, 14446219); (10723687, 25169906); (23308640, 12584953); (24239273, 12584953); (33101694, 12584953);
   (29135800, 12584953); (27152853, 12584953); (1982947, 33180560); (32453856, 30470909); (16226928, 30470909); (16226928, 22539121); (8113464, 30652585); (4056732, 30652585);
   (2028366, 32680951); (10141830, 32680951); (5070915, 32680951); (5070915, 29017763); (25354575, 29017763); (25354575, 27186169); (25354575, 26270372); (33361581, 915797);
   (32707238, 915797); (31006371, 31922168); (31006371, 15961084); (15045287, 19624272); (15045287, 24857423); (15045287, 19951355); (25184506, 24857423); (12592253, 24857423);
   (18724838, 24857423); (12592253, 30662925); (12592253, 21627589); (29702174, 17109921); (31961008, 17109921); (22925672, 17109921); (28572757, 17109921); (22841339, 17109921);
   (22841339, 17025588); (22841339, 31354133); (22841339, 27097736); (22841339, 21281985); (22841339, 22061662); (22841339, 11030831); (22841339, 16936085); (22841339, 16156408);
   (22841339, 30919543); (22841339, 26880441); (18802237, 20195510); (18802237, 28899992); (33252233, 14449996); (33252233, 5745514); (33252233, 2872757); (33252233, 18062495);
   (15189738, 29553523); (7594869, 29553523); (7594869, 26169065); (32071705, 24476836); (32897658, 1692229); (19833287, 21525516); (19833287, 30596045); (28903816, 12454987);
   (14451908, 26906895); (7225954, 26906895); (30900737, 5229033); (18064885, 23293918); (29711844, 11646959); (14855922, 26502881); (32920807, 8437996); (32920807, 4218998);
   (32920807, 2109499); (30811308, 10547495); (15405654, 25953149); (7702827, 25953149); (32824799, 2844668); (32824799, 1422334); (33535966, 711167); (19612651, 20323818); (18901484,
   22457319); (9450742, 31908061); (4725371, 31908061); (23626855, 13006577); (23626855, 18316716); (32785213, 9158358); (30398914, 3848219); (19047676, 22895895); (32419733,
   22895895); (32419733, 27657814); (23809595, 13372057); (18590826, 31962883); (9295413, 31962883); (14514182, 31962883); (7257091, 31962883); (26867078, 19609987); (26867078,
   17448701); (13433539, 30882240); (13433539, 28874659); (13433539, 21154099); (19146518, 28874659); (9573259, 28874659)].
(** For the exponents 50, ..., 104. *)
Definition float_certs_high : list (Z * Z) :=
  [(25645849, 13494369); (25645849, 19570109); (25645849, 22607979); (24126914, 22607979); (25645849, 18051174); (25645849, 9025587); (17335718, 26361305); (17335718, 27792217);
   (8667859, 27792217); (8667859, 26897897); (24214937, 9562179); (16888558, 26450737); (8444279, 26450737); (25891787, 17447508); (7885329, 26450737); (17168033, 26450737);
   (17168033, 21809385); (30143941, 4641352); (32464617, 2320676); (32464617, 1160338); (32464617, 5801690); (32464617, 2900845); (32186956, 2900845); (24796013, 27696858); (21895168,
   14504225); (10947584, 25451809); (5473792, 30925601); (5473792, 28730789); (2736896, 31467685); (1368448, 32836133); (6842240, 32836133); (3421120, 32836133); (1710560, 32836133);
   (855280, 32836133); (4276400, 32836133); (2138200, 32836133); (1069100, 32836133); (5345500, 31767033); (2672750, 31767033); (1336375, 33103408); (6681875, 33103408); (6681875,
   29915454); (6681875, 28321477); (6681875, 30865426); (33409375, 10819801); (33409375, 22114588); (33409375, 11057294); (11294787, 32696896); (11294787, 27643235); (19469011,
   27643235); (30763798, 5053661); (15381899, 20435560); (15381899, 25599679); (15381899, 20325102); (15381899, 25544450)].

Definition check_float_exponent (check : Z -> Z -> Z -> bool) (e : Z) : bool :=
  match floor_log10_pow2 e with
  | Ok m =>
      let k := 1 - m in
      match get_cached_power_float k, floor_log2_pow10 k with
      | Ok C, Ok l =>
          let beta := e + l in
          let deltai := 2 * 2 ^ beta * C / 2 ^ 64 in
          (float_min_k <=? k) && (k <=? float_max_k) && (0 <=? C) && (1 <=? beta) && (beta <=? 6) && (10 <=? deltai) && (deltai <? 100) && check k beta C
      | _, _ => false
      end
  | _ => false
  end.

Definition check_float_small (e : Z) : bool := check_float_exponent (fun k beta C => 5 ^ Z.max (- k) 0 * 2 ^ Z.max (1 - e - k) 0 <=? 2 ^ 32) e.

Definition check_float_cert (e : Z) (c : Z * Z) : bool :=
  let '(q, q2) := c in
  check_float_exponent (fun k beta C =>
    let num := 2 ^ beta * C in
    let d := num * q mod 2 ^ 64 in
    let j := (least_float e + q - 1) / q in
    (0 <? q) && (q <=? 2 ^ 32) && (0 <? q2) && (2 ^ 25 <=? q + q2) && ((num * q2 / 2 ^ 64 + 1) * q - num * q / 2 ^ 64 * q2 =? 1) &&
    (q * 2 ^ beta <=? d) && ((2 ^ 32 <=? j * d) || ((j * q =? bad_float e) && (2 ^ 25 <=? (j + 1) * q)))) e.

Fixpoint check_float_certs (e : Z) (l : list (Z * Z)) : bool :=
  match l with [] => true | c :: l => check_float_cert e c && check_float_certs (e + 1) l end.

Lemma check_float_exponent_ok check e : check_float_exponent check e = true ->
  exists m C l, floor_log10_pow2 e = Ok m /\ get_cached_power_float (1 - m) = Ok C /\ floor_log2_pow10 (1 - m) = Ok l /\ 0 <= C < 2 ^ 64 /\ 1 <= e + l <= 6 /\
    10 <= 2 * 2 ^ (e + l) * C / 2 ^ 64 < 100 /\ rounded_up (1 - m) (l - 63) C /\ check (1 - m) (e + l) C = true.
Proof.
  unfold check_float_exponent. destruct (floor_log10_pow2 e) as [m| |] eqn:Em; [|done..]. destruct (get_cached_power_float (1 - m)) as [C| |] eqn:EC; [|done..]. destruct (floor_log2_pow10 (1 - m)) as [l| |] eqn:El; [|done..]. cbv zeta. intros H.
  repeat (apply andb_prop in H as [H ?]). bool_to_prop. destruct (proj1 (cached_powers_exact (1 - m)) ltac:(lia)) as (C' & l' & EC' & El' & HC & Hr). rewrite EC in EC'. rewrite El in El'. injection EC' as <-. injection El' as <-.
  exists m, C, l. split_and!; done.
Qed.

Lemma float_seen_small e : check_float_small e = true -> exists m C l, float_seen_at e m C l.
Proof.
  intros H. destruct (check_float_exponent_ok _ _ H) as (m & C & l & Em & EC & El & HC & Hb & Hd & Hr & Hc). cbv beta in Hc. apply Z.leb_le in Hc. set (k := 1 - m) in *. exists m, C, l.
  assert (Hs : forall n, 0 < n < 2 ^ 25 -> seen 32 C (e + l) (scale_num e k) (scale_den e k) n).
  { apply (seen_by_denominator 32 C C l k e (2 ^ 25)); try done; try lia. pose proof (Z.pow_le_mono_r 2 (e + l) 6 ltac:(lia) ltac:(lia)) as Hp. change (2 ^ 6) with 64 in Hp. replace (C - C + 1) with 1 by lia. lia. }
  unfold float_seen_at. cbv zeta. fold k. split_and!; try done; try lia; [exact (proj1 (Hs 2 ltac:(lia)))|]. intros n Hn _. apply Hs. unfold least_float in Hn. destruct (e =? -149); lia.
Qed.

Lemma float_seen_cert e c : check_float_cert e c = true -> exists m C l, float_seen_at e m C l.
Proof.
  destruct c as [q q2]. intros H. destruct (check_float_exponent_ok _ _ H) as (m & C & l & Em & EC & El & HC & Hb & Hd & Hr & Hc). cbv beta zeta in Hc. clear H. set (k := 1 - m) in *.
  repeat (apply andb_prop in Hc as [Hc ?]). apply orb_prop in H. rewrite andb_true_iff in H. bool_to_prop. set (num := 2 ^ (e + l) * C) in *. set (d := num * q mod 2 ^ 64) in *. set (j0 := (least_float e + q - 1) / q) in *.
  exists m, C, l. destruct (scale_pos e k) as [HN HM]. assert (Hle : 0 < least_float e) by (unfold least_float; destruct (e =? -149); lia). assert (Hd0 : 0 <= d < 2 ^ 64) by (apply Z.mod_pos_bound; lia).
  pose proof (Z.pow_le_mono_r 2 (e + l) 6 ltac:(lia) ltac:(lia)) as Hp. pose proof (Z.pow_pos_nonneg 2 (e + l) ltac:(lia) ltac:(lia)) as Hp0. change (2 ^ 6) with 64 in Hp.
  destruct (seen_by_neighbours 32 C (e + l) (scale_num e k) (scale_den e k) ltac:(lia) HM (2 ^ (e + l)) (2 ^ 25) (least_float e) (bad_float e) q q2) as [Hfl Hs]; try done; try lia.
  - change (2 ^ (2 * 32)) with (2 ^ 32 * (2 ^ 25 * 128)). assert (2 ^ 25 * 2 ^ (e + l) <= 2 ^ 25 * 128) by lia. apply Z.mul_le_mono_nonneg; lia.
  - change (2 * 32) with 64. fold num d. intros j Hj Hjq Hbad. assert (Hj0 : j0 <= j) by (apply Z.lt_succ_r, Z.div_lt_upper_bound; nia). destruct H as [H|[Hj0q Hnext]]; [nia|]. apply Z.eqb_eq in Hj0q. apply Z.leb_le in Hnext. destruct (Z.eq_dec j j0) as [->|]; [done|]. nia.
  - intros n Hn. pose proof (error_bound 32 C C l k e n ltac:(lia) Hr ltac:(lia) ltac:(lia) ltac:(lia)) as He. replace (2 ^ (e + l) * (C - C + 1)) with (2 ^ (e + l)) in He by ring. exact He.
  - unfold float_seen_at. cbv zeta. fold k. split_and!; try done; try lia. exact (Hfl 2 ltac:(lia)).
Qed.

Lemma check_float_certs_ok l lo e : check_float_certs lo l = true -> lo <= e < lo + zlen l -> exists c, check_float_cert e c = true.
Proof.
  revert lo. induction l as [|c l IH]; intros lo H He; [change (zlen (@nil (Z * Z))) with 0 in He; lia|]. cbn [check_float_certs] in H. apply andb_prop in H as [H1 H2].
  destruct (Z.eq_dec e lo) as [->|Hne]; [by exists c|]. apply (IH (lo + 1)); [done|]. rewrite zlen_cons in He. lia.
Qed.

Lemma float_certs_checked : check_float_certs (-149) float_certs_low = true /\ zlen float_certs_low = 102 /\ check_float_certs 50 float_certs_high = true /\ zlen float_certs_high = 55.
Proof. vm_compute. done. Qed.
Lemma float_middle_checked : forallb (fun i => check_float_small (-47 + i)) (seqZ 0 97) = true.
Proof. vm_compute. done. Qed.

Lemma float_all_seen e : -149 <= e <= 104 -> exists m C l, float_seen_at e m C l.
Proof.
  intros He. destruct float_certs_checked as (Hl & Zl & Hh & Zh). destruct (Z.lt_ge_cases e (-47)) as [H1|H1]; [|destruct (Z.lt_ge_cases e 50) as [H2|H2]].
  - destruct (check_float_certs_ok _ _ e Hl) as [c Hce]; [lia|]. by apply (float_seen_cert e c).
  - apply float_seen_small, (check_range check_float_small (-47) 97); [exact float_middle_checked|lia].
  - destruct (check_float_certs_ok _ _ e Hh) as [c Hce]; [lia|]. by apply (float_seen_cert e c).
Qed.

Lemma float_exact_products f e m C l : float_seen_at e m C l -> 0 < f < 2 ^ 24 -> least_float e <= 2 * f - 1 -> 2 * f <> bad_float e ->
  exact_products float_float_info (2 ^ 32) f (scale_num e (1 - m)) (scale_den e (1 - m)) (e + l) (float_cache_accessor C).
Proof.
  intros (_ & _ & _ & HC & Hb & E2 & Hd & Hs) Hf Hlo Hbad. set (k := 1 - m) in *. destruct (scale_pos e k) as [HN HM]. set (N := scale_num e k) in *. set (M := scale_den e k) in *.
  pose proof (Z.pow_le_mono_r 2 (e + l) 6 ltac:(lia) ltac:(lia)) as Hp. pose proof (Z.pow_pos_nonneg 2 (e + l) ltac:(lia) ltac:(lia)) as Hp0. change (2 ^ 6) with 64 in Hp.
  assert (Hu : 10 * M <= 2 * N < 100 * M).
  { rewrite E2 in Hd. pose proof (Z.div_mod (2 * N) M ltac:(lia)). pose proof (Z.mod_pos_bound (2 * N) M HM). nia. }
  assert (Hodd : forall g, 2 * g + 1 <> bad_float e) by (intros g; unfold bad_float; destruct (_ || _); lia).
  split; cbn [carrier_bits float_float_info float_cache_accessor compute_mul compute_delta compute_mul_parity kappa].
  - lia.
  - assert (E1 : Z.lor (wrap 32 (Z.shiftl f 1)) 1 = 2 * f + 1) by (rewrite Z.shiftl_mul_pow2, wrap_small, (lor_parts f 1 1) by lia; lia). rewrite E1, Z.shiftl_mul_pow2, wrap_small by nia.
    rewrite float_mul_ok by (done || nia). destruct (Hs (2 * f + 1) ltac:(lia) (Hodd f)) as [<- <-]. done.
  - rewrite float_delta_ok by (done || lia). by rewrite E2.
  - intros n Hn. rewrite float_parity_ok by (done || lia). assert (Hnb : n <> bad_float e) by (destruct Hn as [->| ->]; [done|replace (2 * f - 1) with (2 * (f - 1) + 1) by lia; apply Hodd]). destruct (Hs n ltac:(lia) Hnb) as [<- <-]. done.
  - done.
  - change (2 ^ 32) with 4294967296. assert ((2 * f + 1) * (2 * N) <= 33554432 * (2 * N)) by (apply Z.mul_le_mono_nonneg_r; lia). lia.
  - lia.
  - done.
Qed.

(** ** By computation *)

(** The result for one number with an even significand. *)
Definition check_decimal (f e : Z) (closer : bool) (r : outcome (Z * Z)) : bool :=
  match r with
  | Ok (s, E) =>
      let lo := if closer then 4 * f - 1 else 4 * f - 2 in
      let hi := 4 * f + 2 in
      let a := unit_num (e - 2) E in
      let b := unit_den (e - 2) E in
      (f mod 2 =? 0) && (0 <? s) && (s <? 2 ^ 32) && (lo * a <=? s * b) && (s * b <=? hi * a) && (s / 10 * 10 * b <? lo * a) && (hi * a <? (s / 10 + 1) * 10 * b) &&
      (((s - 1) * b <? lo * a) || ((2 * s - 1) * b <=? 8 * f * a)) && ((hi * a <? (s + 1) * b) || (8 * f * a <=? (2 * s + 1) * b))
  | _ => false
  end.

Lemma check_decimal_ok f e closer r : check_decimal f e closer r = true -> exists s E, r = Ok (s, E) /\ 0 < s < 2 ^ 32 /\ shortest_decimal f e closer s E.
Proof.
  unfold check_decimal. destruct r as [[s E]| |]; [|done..]. cbv zeta. intros H. repeat (apply andb_prop in H as [H ?]). repeat match goal with H : (_ || _) = true |- _ => apply orb_prop in H end. bool_to_prop.
  exists s, E. split; [done|]. split; [lia|]. apply shortest_of_bounds; try done; [match goal with H : _ \/ _ |- (s - 1) * _ < _ \/ _ => idtac end|]; repeat match goal with H : _ \/ _ |- _ => destruct H end; bool_to_prop; tauto.
Qed.

Lemma float_powers_checked : forallb (fun i => check_decimal (2 ^ 23) (-149 + i) (negb (-149 + i =? -149)) (shorter_interval_case float_float_info (-149 + i))) (seqZ 0 254) = true.
Proof. vm_compute. done. Qed.

Lemma float_specials_checked e : e = -81 \/ e = -80 -> check_decimal 14855922 e false (regular_case float_float_info 14855922 e) = true.
Proof. by intros [->| ->]; vm_compute. Qed.

(** ** Every float *)
Lemma float_regular f e : -149 <= e <= 104 -> 0 < f < 2 ^ 24 -> least_float e <= 2 * f - 1 ->
  exists s E, regular_case float_float_info f e = Ok (s, E) /\ 0 < s < 2 ^ 32 /\ shortest_decimal f e false s E.
Proof.
  intros He Hf Hlo. destruct (Z.eq_dec (2 * f) (bad_float e)) as [Hbad|Hbad].
  { assert (Hsp : f = 14855922 /\ (e = -81 \/ e = -80)) by (unfold bad_float in Hbad; destruct (Z.eqb_spec e (-81)), (Z.eqb_spec e (-80)); cbn [orb] in Hbad; lia). destruct Hsp as [-> Hsp]. by apply check_decimal_ok, float_specials_checked. }
  destruct (float_all_seen e He) as (m & C & l & Hs). pose proof (float_exact_products f e m C l Hs Hf Hlo Hbad) as HX. destruct Hs as (Em & EC & El & _).
  destruct (regular_case_ok float_float_info (2 ^ 32) f _ _ (e + l) (float_cache_accessor C) (m - 1) float_info_ok HX e m l) as (s & x & Er & Hg); try done.
  { cbn [accessor float_float_info]. replace (- (m - 1)) with (1 - m) by lia. by rewrite EC. }
  { replace (- (m - 1)) with (1 - m) by lia. done. }
  assert (Hx : 0 <= x) by (destruct Hg as [(H & _)|(H & _)]; cbn [kappa float_float_info] in H; lia).
  pose proof (good_shortest float_float_info (2 ^ 32) f _ _ (e + l) (float_cache_accessor C) s x float_info_ok HX Hg) as Hsh.
  exists s, (m - 1 + x). split; [done|]. split; [apply (interval_range (2 ^ 32) f _ _ s x (bound_ok _ _ _ _ _ _ _ HX) (den_pos _ _ _ _ _ _ _ HX) (proj1 (scale_pos _ _))); [lia|done|exact (proj1 Hsh)]|].
  replace (m - 1 + x) with (x - (1 - m)) by lia. by apply shortest_of_scaled.
Qed.

Lemma float_fields u : Z.land u (Z.shiftl 1 23 - 1) = u mod 2 ^ 23 /\ Z.shiftr (Z.land u (exponent_mask binary32)) 23 = u / 2 ^ 23 mod 2 ^ 8.
Proof. split; [by apply field_low|]. by apply (field_high u 8 23). Qed.

Lemma float_exponent_field u : Z.land u (exponent_mask binary32) = Z.shiftl (Z.shiftr (Z.land u (exponent_mask binary32)) 23) 23.
Proof. by apply (field_shifted u 8 23). Qed.

(** For the bits of every finite float that is not zero [to_decimal] returns the shortest decimal. *)
Lemma float_shortest u : 0 <= u < 2 ^ 32 -> Z.land u (exponent_mask binary32) <> exponent_mask binary32 ->
  let '(v, closer) := fp_assign binary32 u in
  f v <> 0 -> exists s E, to_decimal float_float_info u = Ok (s, E) /\ 0 < s < 2 ^ 32 /\ shortest_decimal (f v) (e v) closer s E.
Proof.
  intros Hu Hfin. unfold fp_assign, to_decimal. cbn [num_significand_bits binary32 has_implicit_bit exponent_bias format_ float_float_info min_exponent]. change (mkformat 23 8 true 127) with binary32.
  destruct (float_fields u) as [Es Ee]. rewrite Es, Ee. set (sig := u mod 2 ^ 23) in *. set (b := u / 2 ^ 23 mod 2 ^ 8) in *. assert (Hsig : 0 <= sig < 2 ^ 23) by (apply Z.mod_pos_bound; lia).
  assert (Hb : 0 <= b < 255).
  { assert (Hb : 0 <= b < 2 ^ 8) by (apply Z.mod_pos_bound; lia). destruct (Z.eq_dec b 255) as [E|E]; [|lia]. exfalso. apply Hfin. by rewrite float_exponent_field, Ee, E. }
  destruct (Z.eqb_spec b 0) as [E0|E0]; cbn [negb].
  - cbn [f e]. intros Hf. rewrite (proj2 (Z.eqb_neq sig 0)) by done. rewrite (proj2 (Z.ltb_ge 1 b)) by lia. cbn [andb]. apply (float_regular sig (-149)); [lia|lia|]. change (least_float (-149)) with 1. lia.
  - cbn [f e]. intros _. destruct (Z.eqb_spec sig 0) as [Z0|Z0]; cbn [andb].
    + rewrite Z0. change (0 + Z.shiftl 1 23) with (2 ^ 23). pose proof (check_range (fun e => check_decimal (2 ^ 23) e (negb (e =? -149)) (shorter_interval_case float_float_info e)) (-149) 254 (b - (127 + 23)) float_powers_checked ltac:(lia)) as Hc.
      apply check_decimal_ok in Hc as (s & E & Ec & Hs & Hsh). exists s, E. split; [done|]. split; [done|]. replace (b - 127 - 23) with (b - (127 + 23)) by lia. replace (1 <? b) with (negb (b - (127 + 23) =? -149)); [done|]. destruct (Z.eqb_spec (b - (127 + 23)) (-149)); destruct (Z.ltb_spec 1 b); done || lia.
    + assert (El : Z.lor sig (Z.shiftl 1 23) = sig + Z.shiftl 1 23) by (rewrite Z.lor_comm, Z.shiftl_mul_pow2, (lor_parts 1 sig 23) by lia; lia). rewrite El. change (Z.shiftl 1 23) with (2 ^ 23).
      replace (b - 127 - 23) with (b - (127 + 23)) by lia. apply float_regular; [lia|lia|]. unfold least_float. destruct (_ =? _); lia.
Qed.

(** ** Both types *)

(** The bits of a float or double that is neither infinite nor a NaN: not all bits of the exponent are set. *)
Definition finite_bits (t : float_info) (u : Z) : Prop :=
  0 <= u < 2 ^ carrier_bits t /\ Z.land u (exponent_mask (format_ t)) <> exponent_mask (format_ t).

(** C23: For the bits of every finite float or double that is not zero [to_decimal] returns, without an assertion or a shift out of range,
    the shortest decimal: it lies in the interval of the numbers that are read back as the number, no number with a larger
    exponent of ten does, and no other with the same exponent is closer. *)
Theorem to_decimal_shortest t u : t = float_float_info \/ t = double_float_info -> finite_bits t u ->
  let '(v, closer) := fp_assign (format_ t) u in
  f v <> 0 -> exists s E, to_decimal t u = Ok (s, E) /\ shortest_decimal (f v) (e v) closer s E.
Proof.
  intros [->| ->] [Hu Hfin].
  - pose proof (float_shortest u Hu Hfin) as H. change (format_ float_float_info) with binary32. destruct (fp_assign binary32 u) as [v closer]. intros Hf. destruct (H Hf) as (s & E & Hd & _ & Hs). by exists s, E.
  - pose proof (double_shortest u Hu Hfin) as H. change (format_ double_float_info) with binary64. destruct (fp_assign binary64 u) as [v closer]. intros Hf. destruct (H Hf) as (s & E & Hd & _ & Hs). by exists s, E.
Qed.

(** The double next to one tenth. *)
Lemma to_decimal_shortest_witness : exists s E, to_decimal double_float_info 0x3fb999999999999a = Ok (s, E) /\ shortest_decimal 0x1999999999999a (-56) false s E.
Proof.
  assert (Ea : fp_assign (format_ double_float_info) 0x3fb999999999999a = (mkfp 0x1999999999999a (-56), false)) by (vm_compute; reflexivity).
  pose proof (to_decimal_shortest double_float_info 0x3fb999999999999a) as H. rewrite Ea in H. cbn [f e] in H.
  apply H; [by right|split; [cbn [carrier_bits double_float_info]; lia|vm_compute; discriminate]|discriminate].
Defined.

(** A tenth, the largest double, the smallest, [2 ^ 53], a neighbour of [10 ^ 23], and the smallest normal double; then floats, the last two with a
    centre that is taken for an integer. *)
Example shortest_texts :
  map (to_decimal double_float_info) [0x3fb999999999999a; 0x7fefffffffffffff; 1; 0x4340000000000000; 0x44b52d02c7e14af6; 0x0010000000000000] =
    map Ok [(1, -1); (17976931348623157, 292); (5, -324); (9007199254740992, 0); (1, 23); (22250738585072014, -324)] /\
  map (to_decimal float_float_info) [0x3dcccccd; 0x7f7fffff; 1; 0x22e2aef2; 0x2362aef2] = map Ok [(1, -1); (34028235, 31); (1, -45); (61442653, -25); (12288531, -24)].
Proof. split; vm_compute; reflexivity. Qed.
