(* ===== verification/FmtHelper.v ===== *)
(** * spdlog: helpers for numbers in log lines (details/fmt_helper.h)

    Texts are appended to a buffer, [memory_buf_t], which is a list of characters.
    Numbers go through [fmt::format_int]; the characters its buffer holds before
    do not matter ([format_int_exact]), here they are zero. *)

From S2P Require Import Prelude Machine FmtInt.

Definition buf : Type := list Z.

Definition append_string_view (view : list Z) : M buf unit := modify (fun dest => dest ++ view).
Definition push_back (c : Z) : M buf unit := modify (fun dest => dest ++ [c]).

(** [append_int] for the types [int] ([signed], 32), [long] and the unsigned
    ones. *)
Definition append_int (signed : bool) (bits n : Z) : M buf unit :=
  let! i := of_outcome (format_int_new signed bits n (replicate 22 0)) in
  append_string_view (format_int_data i).

(** [count_digits]: the number of an unsigned type of [bits] bits. *)
Definition fmt_count_digits (bits n : Z) : outcome Z := FmtInt.count_digits bits (wrap bits n).

(** [pad2]: [{:02}] of a number that is negative or has three digits is its
    decimal notation. *)
Definition pad2 (n : Z) : M buf unit :=
  if (0 <=? n) && (n <? 100) then
    do! push_back (48 + Z.quot n 10) in push_back (48 + Z.rem n 10)
  else append_string_view (decimal n).

(** The loop of [pad_uint]. *)
Definition pad_uint (bits n width : Z) : M buf unit :=
  let! d := of_outcome (fmt_count_digits bits n) in
  do! append_string_view (replicate (Z.to_nat (width - d)) 48) in
  append_int false bits n.

Definition pad3 (bits n : Z) : M buf unit :=
  if n <? 1000 then
    do! push_back (n / 100 + 48) in
    let n := n mod 100 in
    do! push_back (n / 10 + 48) in push_back (n mod 10 + 48)
  else append_int false bits n.
Definition pad6 (bits n : Z) : M buf unit := pad_uint bits n 6.
Definition pad9 (bits n : Z) : M buf unit := pad_uint bits n 9.

(** Nanoseconds in a second, millisecond, microsecond. *)
Definition seconds : Z := 1000000000.
Definition milliseconds : Z := 1000000.
Definition microseconds : Z := 1000.
Definition nanoseconds : Z := 1.

(** [duration_cast] of nanoseconds to a unit rounds towards zero. *)
Definition duration_cast (unit tp : Z) : Z := Z.quot tp unit.

Definition time_fraction (unit tp : Z) : Z :=
  duration_cast unit tp - duration_cast seconds tp * (seconds / unit).

(** ** What they append *)
Lemma append_int_ok signed bits n dest :
  int_range signed bits n -> append_int signed bits n dest = (Ok tt, dest ++ decimal n).
Proof.
  intros Hr. unfold append_int, bind, of_outcome.
  destruct (format_int_ok signed bits n (replicate 22 0) Hr eq_refl) as (i & -> & D & _). unfold append_string_view, modify. by rewrite D.
Qed.

(** Two digits. *)
Definition two (n : Z) : list Z := [48 + n / 10; 48 + n mod 10].

Lemma pad2_ok n dest : 0 <= n < 100 -> pad2 n dest = (Ok tt, dest ++ two n).
Proof.
  intros. unfold pad2. rewrite (proj2 (Z.leb_le _ _)), (proj2 (Z.ltb_lt _ _)) by lia. simpl.
  unfold push_back, bind, modify, two. rewrite Z.quot_div_nonneg, Z.rem_mod_nonneg by lia. by rewrite <- app_assoc.
Qed.

(** A number below [10 ^ width] is padded to exactly [width] digits. *)
Lemma pad_uint_ok bits n width dest :
  bits = 32 \/ bits = 64 -> 0 <= n < 2 ^ bits -> 1 <= width -> n < 10 ^ width ->
  exists zeros, pad_uint bits n width dest = (Ok tt, dest ++ replicate zeros 48 ++ digits n) /\
    zlen (replicate zeros 48 ++ digits n) = width.
Proof.
  intros Hb Hn Hw Hd. unfold pad_uint, fmt_count_digits. rewrite wrap_small by done.
  exists (Z.to_nat (width - zlen (digits n))). split.
  - unfold bind at 1, of_outcome. assert (FmtInt.count_digits bits n = Ok (zlen (digits n))) as ->.
    { unfold FmtInt.count_digits. destruct Hb as [->| ->]; simpl; [by apply do_count_digits32_ok|by apply do_count_digits64_ok]. }
    unfold append_string_view, bind, modify. rewrite append_int_ok by (by split). unfold decimal.
    rewrite (proj2 (Z.ltb_ge _ _)) by lia. by rewrite <- app_assoc.
  - rewrite zlen_app, zlen_replicate. pose proof (digits_length_le width n Hw ltac:(lia)). lia.
Qed.

(** The fraction of a second is below a second, in its unit. *)
Lemma time_fraction_range unit tp :
  unit = milliseconds \/ unit = microseconds \/ unit = nanoseconds -> 0 <= tp ->
  time_fraction unit tp = tp mod seconds / unit /\ 0 <= time_fraction unit tp < seconds / unit.
Proof.
  intros Hu Ht. pose proof (Z.mod_pos_bound tp seconds ltac:(done)) as Hm. revert Hm.
  destruct Hu as [->|[->| ->]]; unfold time_fraction, duration_cast, seconds, milliseconds, microseconds, nanoseconds;
    rewrite !Z.quot_div_nonneg by lia.
  - change (1000000000 / 1000000) with 1000. intros. split; Z.div_mod_to_equations; lia.
  - change (1000000000 / 1000) with 1000000. intros. split; Z.div_mod_to_equations; lia.
  - change (1000000000 / 1) with 1000000000. intros. split; Z.div_mod_to_equations; lia.
Qed.

Lemma pad3_ok bits n dest : 0 <= n < 1000 -> pad3 bits n dest = (Ok tt, dest ++ [48 + n / 100] ++ two (n mod 100)).
Proof.
  intros. unfold pad3. rewrite (proj2 (Z.ltb_lt _ _)) by lia. unfold push_back, bind, modify, two.
  rewrite <- !app_assoc. cbn [app]. by rewrite !(Z.add_comm _ 48).
Qed.
