(* ===== verification/FmtEscape.v ===== *)
(** * fmt: escaped texts (fmt/bundled/format.h, format-inl.h)

    Which code points are printable, by the generated tables, and how a text or
    a character is written with the presentation type [?]. *)

From S2P Require Import Prelude Machine UTF8Utils FmtUtf8 FmtInt.

(** ** Printable code points *)

Definition singletons0 : list (Z * Z) :=
  [(0x00, 1); (0x03, 5); (0x05, 6); (0x06, 3); (0x07, 6); (0x08, 8); (0x09, 17); (0x0a, 28); (0x0b, 25); (0x0c, 20);
   (0x0d, 16); (0x0e, 13); (0x0f, 4); (0x10, 3); (0x12, 18); (0x13, 9); (0x16, 1); (0x17, 5); (0x18, 2); (0x19, 3);
   (0x1a, 7); (0x1c, 2); (0x1d, 1); (0x1f, 22); (0x20, 3); (0x2b, 3); (0x2c, 2); (0x2d, 11); (0x2e, 1); (0x30, 3);
   (0x31, 2); (0x32, 1); (0xa7, 2); (0xa9, 2); (0xaa, 4); (0xab, 8); (0xfa, 2); (0xfb, 5); (0xfd, 4); (0xfe, 3);
   (0xff, 9)].
Definition singletons0_lower : list Z :=
  [0xad; 0x78; 0x79; 0x8b; 0x8d; 0xa2; 0x30; 0x57; 0x58; 0x8b; 0x8c; 0x90; 0x1c; 0x1d; 0xdd; 0x0e;
   0x0f; 0x4b; 0x4c; 0xfb; 0xfc; 0x2e; 0x2f; 0x3f; 0x5c; 0x5d; 0x5f; 0xb5; 0xe2; 0x84; 0x8d; 0x8e;
   0x91; 0x92; 0xa9; 0xb1; 0xba; 0xbb; 0xc5; 0xc6; 0xc9; 0xca; 0xde; 0xe4; 0xe5; 0xff; 0x00; 0x04;
   0x11; 0x12; 0x29; 0x31; 0x34; 0x37; 0x3a; 0x3b; 0x3d; 0x49; 0x4a; 0x5d; 0x84; 0x8e; 0x92; 0xa9;
   0xb1; 0xb4; 0xba; 0xbb; 0xc6; 0xca; 0xce; 0xcf; 0xe4; 0xe5; 0x00; 0x04; 0x0d; 0x0e; 0x11; 0x12;
   0x29; 0x31; 0x34; 0x3a; 0x3b; 0x45; 0x46; 0x49; 0x4a; 0x5e; 0x64; 0x65; 0x84; 0x91; 0x9b; 0x9d;
   0xc9; 0xce; 0xcf; 0x0d; 0x11; 0x29; 0x45; 0x49; 0x57; 0x64; 0x65; 0x8d; 0x91; 0xa9; 0xb4; 0xba;
   0xbb; 0xc5; 0xc9; 0xdf; 0xe4; 0xe5; 0xf0; 0x0d; 0x11; 0x45; 0x49; 0x64; 0x65; 0x80; 0x84; 0xb2;
   0xbc; 0xbe; 0xbf; 0xd5; 0xd7; 0xf0; 0xf1; 0x83; 0x85; 0x8b; 0xa4; 0xa6; 0xbe; 0xbf; 0xc5; 0xc7;
   0xce; 0xcf; 0xda; 0xdb; 0x48; 0x98; 0xbd; 0xcd; 0xc6; 0xce; 0xcf; 0x49; 0x4e; 0x4f; 0x57; 0x59;
   0x5e; 0x5f; 0x89; 0x8e; 0x8f; 0xb1; 0xb6; 0xb7; 0xbf; 0xc1; 0xc6; 0xc7; 0xd7; 0x11; 0x16; 0x17;
   0x5b; 0x5c; 0xf6; 0xf7; 0xfe; 0xff; 0x80; 0x0d; 0x6d; 0x71; 0xde; 0xdf; 0x0e; 0x0f; 0x1f; 0x6e;
   0x6f; 0x1c; 0x1d; 0x5f; 0x7d; 0x7e; 0xae; 0xaf; 0xbb; 0xbc; 0xfa; 0x16; 0x17; 0x1e; 0x1f; 0x46;
   0x47; 0x4e; 0x4f; 0x58; 0x5a; 0x5c; 0x5e; 0x7e; 0x7f; 0xb5; 0xc5; 0xd4; 0xd5; 0xdc; 0xf0; 0xf1;
   0xf5; 0x72; 0x73; 0x8f; 0x74; 0x75; 0x96; 0x2f; 0x5f; 0x26; 0x2e; 0x2f; 0xa7; 0xaf; 0xb7; 0xbf;
   0xc7; 0xcf; 0xd7; 0xdf; 0x9a; 0x40; 0x97; 0x98; 0x30; 0x8f; 0x1f; 0xc0; 0xc1; 0xce; 0xff; 0x4e;
   0x4f; 0x5a; 0x5b; 0x07; 0x08; 0x0f; 0x10; 0x27; 0x2f; 0xee; 0xef; 0x6e; 0x6f; 0x37; 0x3d; 0x3f;
   0x42; 0x45; 0x90; 0x91; 0xfe; 0xff; 0x53; 0x67; 0x75; 0xc8; 0xc9; 0xd0; 0xd1; 0xd8; 0xd9; 0xe7;
   0xfe; 0xff].
Definition singletons1 : list (Z * Z) :=
  [(0x00, 6); (0x01, 1); (0x03, 1); (0x04, 2); (0x08, 8); (0x09, 2); (0x0a, 5); (0x0b, 2); (0x0e, 4); (0x10, 1);
   (0x11, 2); (0x12, 5); (0x13, 17); (0x14, 1); (0x15, 2); (0x17, 2); (0x19, 13); (0x1c, 5); (0x1d, 8); (0x24, 1);
   (0x6a, 3); (0x6b, 2); (0xbc, 2); (0xd1, 2); (0xd4, 12); (0xd5, 9); (0xd6, 2); (0xd7, 2); (0xda, 1); (0xe0, 5);
   (0xe1, 2); (0xe8, 2); (0xee, 32); (0xf0, 4); (0xf8, 2); (0xf9, 2); (0xfa, 2); (0xfb, 1)].
Definition singletons1_lower : list Z :=
  [0x0c; 0x27; 0x3b; 0x3e; 0x4e; 0x4f; 0x8f; 0x9e; 0x9e; 0x9f; 0x06; 0x07; 0x09; 0x36; 0x3d; 0x3e;
   0x56; 0xf3; 0xd0; 0xd1; 0x04; 0x14; 0x18; 0x36; 0x37; 0x56; 0x57; 0x7f; 0xaa; 0xae; 0xaf; 0xbd;
   0x35; 0xe0; 0x12; 0x87; 0x89; 0x8e; 0x9e; 0x04; 0x0d; 0x0e; 0x11; 0x12; 0x29; 0x31; 0x34; 0x3a;
   0x45; 0x46; 0x49; 0x4a; 0x4e; 0x4f; 0x64; 0x65; 0x5c; 0xb6; 0xb7; 0x1b; 0x1c; 0x07; 0x08; 0x0a;
   0x0b; 0x14; 0x17; 0x36; 0x39; 0x3a; 0xa8; 0xa9; 0xd8; 0xd9; 0x09; 0x37; 0x90; 0x91; 0xa8; 0x07;
   0x0a; 0x3b; 0x3e; 0x66; 0x69; 0x8f; 0x92; 0x6f; 0x5f; 0xee; 0xef; 0x5a; 0x62; 0x9a; 0x9b; 0x27;
   0x28; 0x55; 0x9d; 0xa0; 0xa1; 0xa3; 0xa4; 0xa7; 0xa8; 0xad; 0xba; 0xbc; 0xc4; 0x06; 0x0b; 0x0c;
   0x15; 0x1d; 0x3a; 0x3f; 0x45; 0x51; 0xa6; 0xa7; 0xcc; 0xcd; 0xa0; 0x07; 0x19; 0x1a; 0x22; 0x25;
   0x3e; 0x3f; 0xc5; 0xc6; 0x04; 0x20; 0x23; 0x25; 0x26; 0x28; 0x33; 0x38; 0x3a; 0x48; 0x4a; 0x4c;
   0x50; 0x53; 0x55; 0x56; 0x58; 0x5a; 0x5c; 0x5e; 0x60; 0x63; 0x65; 0x66; 0x6b; 0x73; 0x78; 0x7d;
   0x7f; 0x8a; 0xa4; 0xaa; 0xaf; 0xb0; 0xc0; 0xd0; 0xae; 0xaf; 0x79; 0xcc; 0x6e; 0x6f; 0x93].
Definition normal0 : list Z :=
  [0x00; 0x20; 0x5f; 0x22; 0x82; 0xdf; 0x04; 0x82; 0x44; 0x08; 0x1b; 0x04; 0x06; 0x11; 0x81; 0xac;
   0x0e; 0x80; 0xab; 0x35; 0x28; 0x0b; 0x80; 0xe0; 0x03; 0x19; 0x08; 0x01; 0x04; 0x2f; 0x04; 0x34;
   0x04; 0x07; 0x03; 0x01; 0x07; 0x06; 0x07; 0x11; 0x0a; 0x50; 0x0f; 0x12; 0x07; 0x55; 0x07; 0x03;
   0x04; 0x1c; 0x0a; 0x09; 0x03; 0x08; 0x03; 0x07; 0x03; 0x02; 0x03; 0x03; 0x03; 0x0c; 0x04; 0x05;
   0x03; 0x0b; 0x06; 0x01; 0x0e; 0x15; 0x05; 0x3a; 0x03; 0x11; 0x07; 0x06; 0x05; 0x10; 0x07; 0x57;
   0x07; 0x02; 0x07; 0x15; 0x0d; 0x50; 0x04; 0x43; 0x03; 0x2d; 0x03; 0x01; 0x04; 0x11; 0x06; 0x0f;
   0x0c; 0x3a; 0x04; 0x1d; 0x25; 0x5f; 0x20; 0x6d; 0x04; 0x6a; 0x25; 0x80; 0xc8; 0x05; 0x82; 0xb0;
   0x03; 0x1a; 0x06; 0x82; 0xfd; 0x03; 0x59; 0x07; 0x15; 0x0b; 0x17; 0x09; 0x14; 0x0c; 0x14; 0x0c;
   0x6a; 0x06; 0x0a; 0x06; 0x1a; 0x06; 0x59; 0x07; 0x2b; 0x05; 0x46; 0x0a; 0x2c; 0x04; 0x0c; 0x04;
   0x01; 0x03; 0x31; 0x0b; 0x2c; 0x04; 0x1a; 0x06; 0x0b; 0x03; 0x80; 0xac; 0x06; 0x0a; 0x06; 0x21;
   0x3f; 0x4c; 0x04; 0x2d; 0x03; 0x74; 0x08; 0x3c; 0x03; 0x0f; 0x03; 0x3c; 0x07; 0x38; 0x08; 0x2b;
   0x05; 0x82; 0xff; 0x11; 0x18; 0x08; 0x2f; 0x11; 0x2d; 0x03; 0x20; 0x10; 0x21; 0x0f; 0x80; 0x8c;
   0x04; 0x82; 0x97; 0x19; 0x0b; 0x15; 0x88; 0x94; 0x05; 0x2f; 0x05; 0x3b; 0x07; 0x02; 0x0e; 0x18;
   0x09; 0x80; 0xb3; 0x2d; 0x74; 0x0c; 0x80; 0xd6; 0x1a; 0x0c; 0x05; 0x80; 0xff; 0x05; 0x80; 0xdf;
   0x0c; 0xee; 0x0d; 0x03; 0x84; 0x8d; 0x03; 0x37; 0x09; 0x81; 0x5c; 0x14; 0x80; 0xb8; 0x08; 0x80;
   0xcb; 0x2a; 0x38; 0x03; 0x0a; 0x06; 0x38; 0x08; 0x46; 0x08; 0x0c; 0x06; 0x74; 0x0b; 0x1e; 0x03;
   0x5a; 0x04; 0x59; 0x09; 0x80; 0x83; 0x18; 0x1c; 0x0a; 0x16; 0x09; 0x4c; 0x04; 0x80; 0x8a; 0x06;
   0xab; 0xa4; 0x0c; 0x17; 0x04; 0x31; 0xa1; 0x04; 0x81; 0xda; 0x26; 0x07; 0x0c; 0x05; 0x05; 0x80;
   0xa5; 0x11; 0x81; 0x6d; 0x10; 0x78; 0x28; 0x2a; 0x06; 0x4c; 0x04; 0x80; 0x8d; 0x04; 0x80; 0xbe;
   0x03; 0x1b; 0x03; 0x0f; 0x0d].
Definition normal1 : list Z :=
  [0x5e; 0x22; 0x7b; 0x05; 0x03; 0x04; 0x2d; 0x03; 0x66; 0x03; 0x01; 0x2f; 0x2e; 0x80; 0x82; 0x1d;
   0x03; 0x31; 0x0f; 0x1c; 0x04; 0x24; 0x09; 0x1e; 0x05; 0x2b; 0x05; 0x44; 0x04; 0x0e; 0x2a; 0x80;
   0xaa; 0x06; 0x24; 0x04; 0x24; 0x04; 0x28; 0x08; 0x34; 0x0b; 0x01; 0x80; 0x90; 0x81; 0x37; 0x09;
   0x16; 0x0a; 0x08; 0x80; 0x98; 0x39; 0x03; 0x63; 0x08; 0x09; 0x30; 0x16; 0x05; 0x21; 0x03; 0x1b;
   0x05; 0x01; 0x40; 0x38; 0x04; 0x4b; 0x05; 0x2f; 0x04; 0x0a; 0x07; 0x09; 0x07; 0x40; 0x20; 0x27;
   0x04; 0x0c; 0x09; 0x36; 0x03; 0x3a; 0x05; 0x1a; 0x07; 0x04; 0x0c; 0x07; 0x50; 0x49; 0x37; 0x33;
   0x0d; 0x33; 0x07; 0x2e; 0x08; 0x0a; 0x81; 0x26; 0x52; 0x4e; 0x28; 0x08; 0x2a; 0x56; 0x1c; 0x14;
   0x17; 0x09; 0x4e; 0x04; 0x1e; 0x0f; 0x43; 0x0e; 0x19; 0x07; 0x0a; 0x06; 0x48; 0x08; 0x27; 0x09;
   0x75; 0x0b; 0x3f; 0x41; 0x2a; 0x06; 0x3b; 0x05; 0x0a; 0x06; 0x51; 0x06; 0x01; 0x05; 0x10; 0x03;
   0x05; 0x80; 0x8b; 0x62; 0x1e; 0x48; 0x08; 0x0a; 0x80; 0xa6; 0x5e; 0x22; 0x45; 0x0b; 0x0a; 0x06;
   0x0d; 0x13; 0x39; 0x07; 0x0a; 0x36; 0x2c; 0x04; 0x10; 0x80; 0xc0; 0x3c; 0x64; 0x53; 0x0c; 0x48;
   0x09; 0x0a; 0x46; 0x45; 0x1b; 0x48; 0x08; 0x53; 0x1d; 0x39; 0x81; 0x07; 0x46; 0x0a; 0x1d; 0x03;
   0x47; 0x49; 0x37; 0x03; 0x0e; 0x08; 0x0a; 0x06; 0x39; 0x07; 0x0a; 0x81; 0x36; 0x19; 0x80; 0xb7;
   0x01; 0x0f; 0x32; 0x0d; 0x83; 0x9b; 0x66; 0x75; 0x0b; 0x80; 0xc4; 0x8a; 0xbc; 0x84; 0x2f; 0x8f;
   0xd1; 0x82; 0x47; 0xa1; 0xb9; 0x82; 0x39; 0x07; 0x2a; 0x04; 0x02; 0x60; 0x26; 0x0a; 0x46; 0x0a;
   0x28; 0x05; 0x13; 0x82; 0xb0; 0x5b; 0x65; 0x4b; 0x04; 0x39; 0x07; 0x11; 0x40; 0x05; 0x0b; 0x02;
   0x0e; 0x97; 0xf8; 0x08; 0x84; 0xd6; 0x2a; 0x09; 0xa2; 0xf7; 0x81; 0x1f; 0x31; 0x03; 0x11; 0x04;
   0x08; 0x81; 0x8c; 0x89; 0x04; 0x6b; 0x05; 0x0d; 0x03; 0x09; 0x07; 0x10; 0x93; 0x60; 0x80; 0xf6;
   0x0a; 0x73; 0x08; 0x6e; 0x17; 0x46; 0x80; 0x9a; 0x14; 0x0c; 0x57; 0x09; 0x19; 0x80; 0x87; 0x81;
   0x47; 0x03; 0x85; 0x42; 0x0f; 0x15; 0x85; 0x50; 0x2b; 0x80; 0xd5; 0x2d; 0x03; 0x1a; 0x04; 0x02;
   0x81; 0x70; 0x3a; 0x05; 0x01; 0x85; 0x00; 0x80; 0xd7; 0x29; 0x4c; 0x04; 0x0a; 0x04; 0x02; 0x83;
   0x11; 0x44; 0x4c; 0x3d; 0x80; 0xc2; 0x3c; 0x06; 0x01; 0x04; 0x55; 0x05; 0x1b; 0x34; 0x02; 0x81;
   0x0e; 0x2c; 0x04; 0x64; 0x0c; 0x56; 0x0a; 0x80; 0xae; 0x38; 0x1d; 0x0d; 0x2c; 0x04; 0x09; 0x07;
   0x02; 0x0e; 0x06; 0x80; 0x9a; 0x83; 0xd8; 0x08; 0x0d; 0x03; 0x0d; 0x03; 0x74; 0x0c; 0x59; 0x07;
   0x0c; 0x14; 0x0c; 0x04; 0x38; 0x08; 0x0a; 0x06; 0x28; 0x08; 0x22; 0x4e; 0x81; 0x54; 0x0c; 0x15;
   0x03; 0x03; 0x05; 0x07; 0x09; 0x19; 0x07; 0x07; 0x09; 0x03; 0x0d; 0x07; 0x29; 0x80; 0xcb; 0x25;
   0x0a; 0x84; 0x06].

(** The search for the low byte among the [n] values at [j]. *)
Fixpoint lower_loop (lowers : list Z) (low : Z) (n j : nat) : outcome bool :=
  match n with
  | O => Ok false
  | S n => match lowers !! j with Some b => if b =? low then Ok true else lower_loop lowers low n (S j) | None => Undef end
  end.

(** [true] when [x] is one of the singletons. *)
Fixpoint singleton_loop (x : Z) (singletons : list (Z * Z)) (lowers : list Z) (lower_start : nat) : outcome bool :=
  match singletons with
  | [] => Ok false
  | (upper, lower_count) :: rest =>
      let lower_end := (lower_start + Z.to_nat lower_count)%nat in
      if Z.shiftr x 8 <? upper then Ok false
      else if Z.shiftr x 8 =? upper then
        match lower_loop lowers (Z.land x 0xff) (Z.to_nat lower_count) lower_start with
        | Ok false => singleton_loop x rest lowers lower_end
        | o => o
        end
      else singleton_loop x rest lowers lower_end
  end.

(** The runs of printable and other code points, in one or two bytes. *)
Fixpoint normal_loop (xsigned : Z) (current : bool) (normal : list Z) : outcome bool :=
  match normal with
  | [] => Ok current
  | v :: rest =>
      if negb (Z.land v 0x80 =? 0) then
        match rest with
        | b :: rest =>
            let xsigned := xsigned - Z.lor (Z.shiftl (Z.land v 0x7f) 8) b in
            if xsigned <? 0 then Ok current else normal_loop xsigned (negb current) rest
        | [] => Undef
        end
      else
        let xsigned := xsigned - v in
        if xsigned <? 0 then Ok current else normal_loop xsigned (negb current) rest
  end.

Definition is_printable16 (x : Z) (singletons : list (Z * Z)) (lowers normal : list Z) : outcome bool :=
  match singleton_loop x singletons lowers 0 with
  | Ok true => Ok false
  | Ok false => normal_loop x true normal
  | o => o
  end.

Definition is_printable (cp : Z) : outcome bool :=
  let lower := u16 cp in
  let within a b := (a <=? cp) && (cp <? b) in
  if cp <? 0x10000 then is_printable16 lower singletons0 singletons0_lower normal0
  else if cp <? 0x20000 then is_printable16 lower singletons1 singletons1_lower normal1
  else if within 0x2a6de 0x2a700 then Ok false
  else if within 0x2b735 0x2b740 then Ok false
  else if within 0x2b81e 0x2b820 then Ok false
  else if within 0x2cea2 0x2ceb0 then Ok false
  else if within 0x2ebe1 0x2f800 then Ok false
  else if within 0x2fa1e 0x30000 then Ok false
  else if within 0x3134b 0xe0100 then Ok false
  else if within 0xe01f0 0x110000 then Ok false
  else Ok (cp <? 0x110000).

Definition needs_escape (cp : Z) : outcome bool :=
  if (cp <? 0x20) || (cp =? 0x7f) || (cp =? 34) || (cp =? 92) then Ok true else outcome_map negb (is_printable cp).

(** ** Writing *)

(** [find_escape_result]: the text before, the escaped code point and its text;
    no end when there is none. *)
Record find_escape_result := mkescape { escape_begin : Z; escape_end : option Z; escape_cp : Z }.

Definition find_escape (s : list Z) : outcome find_escape_result :=
  match for_each_codepoint (fun (r : outcome find_escape_result) cp begin size =>
          match needs_escape cp with
          | Ok true => (Ok (mkescape begin (Some (begin + size)) cp), false)
          | Ok false => (r, true)
          | _ => (Undef, false)
          end) s (Ok (mkescape (zlen s) None 0)) with
  | Ok r => r
  | Throw e => Throw e
  | Undef => Undef
  end.

(** [write_codepoint]: the digits at the end of [width] zeros. *)
Definition write_codepoint (width : nat) (prefix cp : Z) : outcome (list Z) :=
  outcome_map (fun d => [92; prefix] ++ replicate (width - length d) 48 ++ d) (do_format_base2e 4 width false cp []).

Fixpoint write_bytes_escaped (l : list Z) : outcome (list Z) :=
  match l with
  | [] => Ok []
  | c :: l => match write_codepoint 2 120 (Z.land c 0xff) with Ok t => outcome_map (fun r => t ++ r) (write_bytes_escaped l) | o => o end
  end.

(** [write_escaped_cp] of a code point with the text it stands for. *)
Definition write_escaped_cp (cp : Z) (text : list Z) : outcome (list Z) :=
  if cp =? 10 then Ok [92; 110]
  else if cp =? 13 then Ok [92; 114]
  else if cp =? 9 then Ok [92; 116]
  else if (cp =? 34) || (cp =? 39) || (cp =? 92) then Ok [92; cp]
  else if cp <? 0x100 then write_codepoint 2 120 cp
  else if cp <? 0x10000 then write_codepoint 4 117 cp
  else if cp <? 0x110000 then write_codepoint 8 85 cp
  else write_bytes_escaped text.

(** The loop of [write_escaped_string]; every round but the last consumes a character. *)
Fixpoint escape_loop (fuel : nat) (s : list Z) : outcome (list Z) :=
  match fuel with
  | O => Undef
  | S fuel =>
      match find_escape s with
      | Ok e =>
          let before := take (Z.to_nat (escape_begin e)) s in
          match escape_end e with
          | None => Ok before
          | Some en =>
              match write_escaped_cp (escape_cp e) (slice (escape_begin e) (en - escape_begin e) s) with
              | Ok t =>
                  let rest := drop (Z.to_nat en) s in
                  if bool_decide (rest = []) then Ok (before ++ t) else outcome_map (fun r => before ++ t ++ r) (escape_loop fuel rest)
              | o => o
              end
          end
      | Throw e => Throw e
      | Undef => Undef
      end
  end.
Definition write_escaped_string (s : list Z) : outcome (list Z) :=
  outcome_map (fun t => [34] ++ t ++ [34]) (escape_loop (S (length s)) s).

(** [write_escaped_char]: a [char] is converted with its sign. *)
Definition write_escaped_char (v : Z) : outcome (list Z) :=
  let cp := u32 (if v <? 128 then v else v - 256) in
  match needs_escape cp with
  | Ok n => outcome_map (fun t => [39] ++ t ++ [39]) (if (n && negb (v =? 34)) || (v =? 39) then write_escaped_cp cp [v] else Ok [v])
  | Throw e => Throw e
  | Undef => Undef
  end.

(** ** The tables are read within their bounds *)
Lemma lower_loop_total lowers low n j : (j + n <= length lowers)%nat -> exists b, lower_loop lowers low n j = Ok b.
Proof.
  revert j. induction n as [|n IH]; intros j Hj; simpl; [by eexists|].
  destruct (lookup_lt_is_Some_2 lowers j) as [b ->]; [lia|]. destruct (b =? low); [by eexists|apply IH; lia].
Qed.

Fixpoint count_sum (singletons : list (Z * Z)) : nat :=
  match singletons with [] => O | (_, n) :: rest => (Z.to_nat n + count_sum rest)%nat end.
Lemma singleton_loop_total x singletons lowers j :
  (j + count_sum singletons <= length lowers)%nat -> exists b, singleton_loop x singletons lowers j = Ok b.
Proof.
  revert j. induction singletons as [|[u n] l IH]; intros j Hj; simpl in *; [by eexists|].
  destruct (_ <? u); [by eexists|]. destruct (_ =? u); [|apply IH; lia].
  destruct (lower_loop_total lowers (Z.land x 0xff) (Z.to_nat n) j) as [[] ->]; [lia|by eexists|apply IH; lia].
Qed.

(** Every two-byte length is whole. *)
Fixpoint whole (normal : list Z) : bool :=
  match normal with
  | [] => true
  | v :: rest => if negb (Z.land v 0x80 =? 0) then match rest with _ :: rest => whole rest | [] => false end else whole rest
  end.
Lemma normal_loop_total n normal x current : (length normal <= n)%nat -> whole normal = true -> exists b, normal_loop x current normal = Ok b.
Proof.
  revert normal x current. induction n as [|n IH]; intros [|v rest] x current Hn Hw; simpl in Hn; try lia; [by eexists..|]. cbn [normal_loop whole] in *.
  destruct (negb _); [destruct rest as [|b rest]; [done|]|]; cbv zeta; destruct (_ <? 0); try (by eexists); apply IH; simpl in *; (done || lia).
Qed.

Lemma is_printable_total cp : exists b, is_printable cp = Ok b.
Proof.
  assert (H16 : forall x s l n, (count_sum s <= length l)%nat -> whole n = true -> exists b, is_printable16 x s l n = Ok b).
  { intros x s l n Hs Hn. unfold is_printable16. destruct (singleton_loop_total x s l 0) as [[] ->]; [done|by eexists|by eapply normal_loop_total]. }
  unfold is_printable. cbv zeta.
  destruct (_ <? _); [apply H16; [|vm_compute; reflexivity]; apply Nat.leb_le; vm_compute; reflexivity|].
  destruct (_ <? _); [apply H16; [|vm_compute; reflexivity]; apply Nat.leb_le; vm_compute; reflexivity|].
  repeat (destruct (_ && _); [by eexists|]). by eexists.
Qed.
Lemma needs_escape_total cp : exists b, needs_escape cp = Ok b.
Proof. unfold needs_escape. destruct (_ || _); [by eexists|]. destruct (is_printable_total cp) as [b ->]. by eexists. Qed.

(** ** Escaped code points *)

(** No control character. *)
Definition visible (b : Z) : Prop := 0x20 <= b < 256 /\ b <> 0x7f.

Lemma base2e_visible size v acc d : 0 <= v ->
  do_format_base2e 4 size false v acc = Ok d -> Forall visible acc -> Forall visible d.
Proof.
  revert v acc. induction size as [|size IH]; intros v acc Hv E Hd; [done|]. cbn [do_format_base2e] in E.
  assert (Hn : Forall visible (base_digit 4 false (Z.land v (Z.shiftl 1 4 - 1)) :: acc)).
  { constructor; [|done]. change (Z.shiftl 1 4 - 1) with (Z.ones 4). rewrite Z.land_ones by lia. pose proof (Z.mod_pos_bound v (2 ^ 4) eq_refl).
    unfold base_digit, visible. change (4 <? 4) with false. cbn [orb]. split_if; bool_to_prop; lia. }
  destruct (negb _); [|by injection E as <-]. eapply IH; [|exact E|done]. by apply Z.shiftr_nonneg.
Qed.

Lemma write_codepoint_ok width prefix cp : (1 <= width)%nat -> 0 <= cp < 2 ^ (4 * Z.of_nat width) -> visible prefix ->
  exists t, write_codepoint width prefix cp = Ok t /\ Forall visible t.
Proof.
  intros Hw Hc Hp. unfold write_codepoint. destruct (base2e_defined 4 width false cp [] ltac:(lia) Hw Hc) as [d E].
  rewrite E. simpl. eexists. split; [reflexivity|]. apply base2e_visible in E; [|lia|done].
  repeat constructor; [unfold visible; lia..|apply Hp|apply Hp|apply Hp|]. apply Forall_app. split; [|done]. apply Forall_replicate. unfold visible. lia.
Qed.

Lemma write_bytes_escaped_ok l : exists t, write_bytes_escaped l = Ok t /\ Forall visible t.
Proof.
  induction l as [|c l (t & E & Ht)]; [by exists []|]. simpl.
  destruct (write_codepoint_ok 2 120 (Z.land c 255)) as (x & -> & Hx); [lia| |unfold visible; lia|].
  { change 255 with (Z.ones 8). rewrite Z.land_ones by lia. apply Z.mod_pos_bound. reflexivity. }
  rewrite E. simpl. eexists. split; [reflexivity|]. by apply Forall_app.
Qed.

Lemma write_escaped_cp_ok cp text : 0 <= cp -> exists t, write_escaped_cp cp text = Ok t /\ Forall visible t.
Proof.
  intros Hc. unfold write_escaped_cp.
  repeat match goal with |- exists t, (if ?b then _ else _) = _ /\ _ => destruct b eqn:? end; bool_to_prop;
    try (eexists; split; [reflexivity|repeat constructor; unfold visible; lia]);
    try (apply write_codepoint_ok; unfold visible; simpl; lia). apply write_bytes_escaped_ok.
Qed.

(** ** Escaped texts *)

Definition escapes (cp : Z) : bool := match needs_escape cp with Ok b => b | _ => false end.
Lemma needs_escape_eq cp : needs_escape cp = Ok (escapes cp).
Proof. unfold escapes. by destruct (needs_escape_total cp) as [b ->]. Qed.

(** The segments one by one. *)
Fixpoint escape_all (l : list (Z * list Z)) : outcome (list Z) :=
  match l with
  | [] => Ok []
  | (cp, t) :: l =>
      match (if escapes cp then write_escaped_cp cp t else Ok t) with
      | Ok x => outcome_map (fun r => x ++ r) (escape_all l)
      | o => o
      end
  end.

(** Up to the first segment that is escaped. *)
Fixpoint split_escape (l : list (Z * list Z)) : list (Z * list Z) * option (Z * list Z * list (Z * list Z)) :=
  match l with
  | [] => ([], None)
  | (cp, t) :: l =>
      if escapes cp then ([], Some (cp, t, l)) else let '(before, o) := split_escape l in ((cp, t) :: before, o)
  end.

Abbreviation text_of l := (concat (map snd l)).

Lemma find_escape_split s l : bytes_ok s -> segments s l ->
  find_escape s = Ok (match split_escape l with
    | (before, None) => mkescape (zlen s) None 0
    | (before, Some (cp, t, _)) => mkescape (zlen (text_of before)) (Some (zlen (text_of before) + zlen t)) cp
    end).
Proof.
  intros Hok Hs. unfold find_escape. rewrite (for_each_run _ s _ l Hok Hs). generalize (mkescape (zlen s) None 0) as r. intros r.
  change (zlen (text_of ?x)) with (0 + zlen (text_of x)). generalize 0 as p. clear Hok Hs. induction l as [|[cp t] l IH]; intros p; simpl; [done|].
  rewrite needs_escape_eq. destruct (escapes cp); simpl; [by rewrite zlen_nil, Z.add_0_r|]. rewrite IH.
  destruct (split_escape l) as [before [[[c x] rest]|]]; [|done]. simpl. rewrite zlen_app. do 2 f_equal; [lia|]. f_equal. lia.
Qed.

Lemma segments_split s l1 l2 : segments s (l1 ++ l2) -> exists s2, s = text_of l1 ++ s2 /\ segments s2 l2.
Proof.
  revert s. induction l1 as [|[cp t] l1 IH]; intros s Hs; [by exists s|]. simpl in Hs. apply segments_cons in Hs as (_ & r & -> & Hr).
  destruct (IH r Hr) as (s2 & -> & H2). exists s2. split; [|done]. simpl. by rewrite app_assoc.
Qed.

Lemma split_escape_spec l :
  match split_escape l with
  | (before, None) => l = before /\ escape_all l = Ok (text_of l)
  | (before, Some (cp, t, rest)) =>
      l = before ++ (cp, t) :: rest /\
      escape_all l = match write_escaped_cp cp t with Ok x => outcome_map (fun r => text_of before ++ x ++ r) (escape_all rest) | o => o end
  end.
Proof.
  induction l as [|[cp t] l IH]; simpl; [done|]. destruct (escapes cp); simpl; [by destruct (write_escaped_cp cp t)|].
  destruct (split_escape l) as [before [[[c x] rest]|]]; destruct IH as [-> ->]; [|done]. split; [done|].
  destruct (write_escaped_cp c x); [|done|done]. destruct (escape_all rest); [|done|done]. simpl. by rewrite <- app_assoc.
Qed.

Lemma escape_loop_exact fuel s l : bytes_ok s -> segments s l -> (length l < fuel)%nat -> escape_loop fuel s = escape_all l.
Proof.
  revert s l. induction fuel as [|fuel IH]; intros s l Hok Hs Hf; [lia|]. cbn [escape_loop]. rewrite (find_escape_split s l Hok Hs).
  pose proof (split_escape_spec l) as Hsp. destruct (split_escape l) as [before [[[cp t] rest]|]]; cbn [escape_begin escape_end escape_cp].
  - destruct Hsp as [El ->]. rewrite El in Hs, Hf. destruct (segments_split _ _ _ Hs) as (s2 & -> & H2).
    pose proof H2 as H2'. apply segments_cons in H2' as (_ & r & -> & Hr). rewrite length_app in Hf. simpl in Hf.
    rewrite take_zlen_app. assert (slice (zlen (text_of before)) (zlen (text_of before) + zlen t - zlen (text_of before)) (text_of before ++ t ++ r) = t) as ->.
    { unfold slice. rewrite drop_zlen_app. replace (_ + _ - _) with (zlen t) by lia. apply take_zlen_app. }
    destruct (write_escaped_cp cp t) as [x| |]; [|done|done]. rewrite <- zlen_app, app_assoc, drop_zlen_app.
    rewrite !Forall_app in Hok. case_bool_decide as Er.
    + subst r. apply segments_nil_inv in Hr as ->. simpl. by rewrite app_nil_r.
    + rewrite (IH r rest); [done|apply Hok|done|lia].
  - destruct Hsp as [_ ->]. f_equal. rewrite <- (segments_concat s l Hs). apply take_ge. unfold zlen. lia.
Qed.

Lemma escape_all_ok s l : segments s l -> bytes_ok s -> exists t, escape_all l = Ok t /\ Forall visible t.
Proof.
  induction 1 as [|cp s l Hu Hs IH|b s l Hno Hs IH]; intros Hok; [by exists []|..]; simpl.
  - apply Forall_app in Hok as [Hb Hok]. destruct (IH Hok) as (t & -> & Ht).
    assert (Hx : exists x, (if escapes cp then write_escaped_cp cp (utf8_encode cp) else Ok (utf8_encode cp)) = Ok x /\ Forall visible x).
    { destruct (escapes cp) eqn:E; [apply write_escaped_cp_ok; apply Hu|]. eexists. split; [reflexivity|].
      unfold escapes, needs_escape in E. destruct Hu as [Hu _]. destruct (_ || _) eqn:Eo in E; [done|]. rewrite !orb_false_iff in Eo. bool_to_prop.
      unfold utf8_encode in *. repeat split_if; bool_to_prop; repeat constructor; unfold visible; Z.div_mod_to_equations; lia. }
    destruct Hx as (x & -> & Hx). simpl. eexists. split; [reflexivity|]. by apply Forall_app.
  - apply Forall_cons in Hok as [Hb Hok]. destruct (IH Hok) as (t & -> & Ht). change (escapes invalid_code_point) with true. cbv iota.
    destruct (write_escaped_cp_ok invalid_code_point [b]) as (x & -> & Hx); [unfold invalid_code_point; lia|]. simpl. eexists. split; [reflexivity|]. by apply Forall_app.
Qed.

Lemma segments_length s l : segments s l -> (length l <= length s)%nat.
Proof.
  induction 1 as [|cp s l Hu Hs IH|]; simpl; [lia| |lia]. rewrite length_app. pose proof (utf8_encode_nonempty cp). destruct (utf8_encode cp); [done|simpl; lia].
Qed.

Lemma write_escaped_string_ok s : bytes_ok s -> exists t, write_escaped_string s = Ok t /\ Forall visible t.
Proof.
  intros Hok. destruct (segments_exist s Hok) as [l Hl]. unfold write_escaped_string. pose proof (segments_length s l Hl).
  rewrite (escape_loop_exact _ s l) by (done || lia). destruct (escape_all_ok s l Hl Hok) as (t & -> & Ht). simpl. eexists. split; [reflexivity|].
  constructor; [unfold visible; lia|]. apply Forall_app. split; [done|]. repeat constructor; unfold visible; lia.
Qed.

Lemma write_escaped_char_ok v : byte_ok v -> exists t, write_escaped_char v = Ok t /\ Forall visible t.
Proof.
  intros Hv. unfold write_escaped_char. set (cp := u32 _). rewrite needs_escape_eq.
  assert (Hx : exists t, (if escapes cp && negb (v =? 34) || (v =? 39) then write_escaped_cp cp [v] else Ok [v]) = Ok t /\ Forall visible t).
  { destruct (_ || _) eqn:E; [apply write_escaped_cp_ok; unfold cp; apply Z.mod_pos_bound; reflexivity|]. eexists. split; [reflexivity|].
    constructor; [|done]. unfold byte_ok in Hv. unfold visible. split; [|intros ->; done]. split; [|lia]. destruct (Z.lt_ge_cases v 32); [|done]. exfalso.
    unfold cp, escapes, needs_escape, u32 in E. rewrite (proj2 (Z.ltb_lt v 128)), wrap_small, (proj2 (Z.ltb_lt v 32)) in E by lia. simpl in E.
    destruct (Z.eqb_spec v 34); [lia|done]. }
  destruct Hx as (t & -> & Ht). simpl. eexists. split; [reflexivity|]. constructor; [unfold visible; lia|]. apply Forall_app. split; [done|]. repeat constructor; unfold visible; lia.
Qed.

(** A text with presentation type [?] is written between quotes, segment by
    segment: printable code points as they are, the others escaped; whatever the
    bytes are, the tables are read within their bounds, and no control character
    is written, so the text stays on its line. *)
Theorem escaped_string_exact (s : list Z) :
  bytes_ok s ->
  exists l t, segments s l /\ escape_all l = Ok t /\ write_escaped_string s = Ok ([34] ++ t ++ [34]) /\ Forall visible t.
Proof.
  intros Hok. destruct (segments_exist s Hok) as [l Hl]. destruct (escape_all_ok s l Hl Hok) as (t & Et & Ht). exists l, t.
  split_and!; [done|done| |done]. unfold write_escaped_string. pose proof (segments_length s l Hl). by rewrite (escape_loop_exact _ s l), Et by (done || lia).
Qed.

(** A line break, a quote, a control character and a stray byte. *)
Lemma escaped_string_exact_witness :
  (exists l t, segments [97; 10; 34; 0x1b; 0xff] l /\ escape_all l = Ok t /\
    write_escaped_string [97; 10; 34; 0x1b; 0xff] = Ok ([34] ++ t ++ [34]) /\ Forall visible t) /\
  write_escaped_string [97; 10; 34; 0x1b; 0xff] = Ok ([34] ++ chars "a\n\" ++ [34] ++ chars "\x1b\xff" ++ [34]).
Proof. split; [apply escaped_string_exact; repeat (constructor; [unfold byte_ok; lia|]); constructor|reflexivity]. Defined.

(** The escaped text does not tell the code point U+0085 from the byte 0x85. *)
Example escape_ambiguous : write_escaped_string [0xC2; 0x85] = write_escaped_string [0x85].
Proof. vm_compute. reflexivity. Qed.
