(* ===== verification/FmtBuffer.v ===== *)
(** * fmt: buffers (fmt/bundled/base.h, format.h)

    [buffer] writes characters at a pointer and calls a function [grow] of the
    derived class when they do not fit: [basic_memory_buffer] allocates,
    [iterator_buffer] flushes, [container_buffer] resizes its container and
    [counting_buffer] counts and starts again.  Storage is blocks of characters;
    a pointer is a block with an offset, and writing outside a block is
    undefined.  Sizes are those of objects in memory, so sums of them do not
    wrap. *)

From S2P Require Import Prelude Machine.

(** ** Memory *)

Record heap := mkheap { blocks : gmap Z (list Z); next_block : Z; allocations : nat }.
Definition set_blocks (b : gmap Z (list Z)) (h : heap) : heap := mkheap b (next_block h) (allocations h).

(** [buffer]; [ext] is what the derived class adds. *)
Record buffer := mkbuffer { ptr_ : Z * Z; size_ : Z; capacity_ : Z }.
Record state (X : Type) := mkstate { hp : heap; buf : buffer; ext : X }.
Arguments mkstate {X}.
Arguments hp {X}.
Arguments buf {X}.
Arguments ext {X}.

(** ** The base class *)

(** What the derived class does when more room is wanted. *)
Class Grow (X : Type) := grow : Z -> M (state X) unit.

Section base.
Context {X : Type} `{Grow X}.
Abbreviation act := (M (state X)).

Definition set_buf (b : buffer) (s : state X) : state X := mkstate (hp s) b (ext s).
Definition set_hp (h : heap) (s : state X) : state X := mkstate h (buf s) (ext s).
Definition set_ext (x : X) (s : state X) : state X := mkstate (hp s) (buf s) x.

(** Writing characters at a pointer. *)
Definition poke (p : Z * Z) (l : list Z) : act unit := fun s =>
  match blocks (hp s) !! fst p with
  | Some b =>
      if (0 <=? snd p) && (snd p + zlen l <=? zlen b)
      then (Ok tt, set_hp (set_blocks (<[fst p := overwrite (snd p) l b]> (blocks (hp s))) (hp s)) s)
      else (Undef, s)
  | None => (Undef, s)
  end.

Definition set (p : Z * Z) (capacity : Z) : act unit := modify (fun s => set_buf (mkbuffer p (size_ (buf s)) capacity) s).
Definition set_size (n : Z) : act unit := modify (fun s => set_buf (mkbuffer (ptr_ (buf s)) n (capacity_ (buf s))) s).
Definition clear : act unit := set_size 0.

Definition try_reserve (new_capacity : Z) : act unit :=
  let! s := gets buf in if capacity_ s <? new_capacity then grow new_capacity else ret tt.
Definition try_resize (count : Z) : act unit :=
  do! try_reserve count in
  let! s := gets buf in set_size (Z.min count (capacity_ s)).
Definition push_back (value : Z) : act unit :=
  let! s := gets buf in
  do! try_reserve (size_ s + 1) in
  let! s := gets buf in
  do! set_size (size_ s + 1) in
  poke (fst (ptr_ s), snd (ptr_ s) + size_ s) [value].

(** Every round of [append] writes a character. *)
Fixpoint append_loop (fuel : nat) (l : list Z) : act unit :=
  match l, fuel with
  | [], _ => ret tt
  | _, O => undef
  | _, S fuel =>
      let count := zlen l in
      let! s := gets buf in
      do! try_reserve (size_ s + count) in
      let! s := gets buf in
      let free_cap := capacity_ s - size_ s in
      let count := if free_cap <? count then free_cap else count in
      do! poke (fst (ptr_ s), snd (ptr_ s) + size_ s) (take (Z.to_nat count) l) in
      do! set_size (size_ s + count) in
      append_loop fuel (drop (Z.to_nat count) l)
  end.
Definition append (l : list Z) : act unit := append_loop (length l) l.
End base.

(** ** The contract of [grow] *)

(** Room for [capacity_] characters at the pointer. *)
Definition room {X} (s : state X) : Prop :=
  0 <= size_ (buf s) <= capacity_ (buf s) /\
  exists b, blocks (hp s) !! fst (ptr_ (buf s)) = Some b /\ 0 <= snd (ptr_ (buf s)) /\ snd (ptr_ (buf s)) + capacity_ (buf s) <= zlen b.

(** The characters in the buffer. *)
Definition pending {X} (s : state X) : list Z :=
  match blocks (hp s) !! fst (ptr_ (buf s)) with Some b => slice (snd (ptr_ (buf s))) (size_ (buf s)) b | None => [] end.

(** The state after characters that fit have been written. *)
Definition put {X} (l : list Z) (s : state X) : state X :=
  let p := ptr_ (buf s) in
  let n := size_ (buf s) in
  mkstate (set_blocks (alter (overwrite (snd p + n) l) (fst p) (blocks (hp s))) (hp s)) (mkbuffer p (n + zlen l) (capacity_ (buf s))) (ext s).

(** [holds s t]: the text [t] has been written.  [grow] keeps it and makes room
    for a character at least, or throws [bad_alloc] and keeps it too. *)
Class GrowLaws (X : Type) `{Grow X} := {
  holds : state X -> list Z -> Prop;
  holds_size s t : holds s t -> 0 <= size_ (buf s) <= capacity_ (buf s);
  holds_room s t : holds s t -> size_ (buf s) < capacity_ (buf s) -> room s;
  holds_grow n s t : holds s t -> capacity_ (buf s) < n ->
    match grow n s with
    | (Ok _, s') => holds s' t /\ size_ (buf s') < capacity_ (buf s')
    | (Throw e, s') => e = bad_alloc /\ holds s' t
    | (Undef, _) => False
    end;
  holds_put l s t : holds s t -> size_ (buf s) < capacity_ (buf s) -> size_ (buf s) + zlen l <= capacity_ (buf s) -> holds (put l s) (t ++ l) }.

(** The text after an operation that may have failed on the way. *)
Definition writes {X} `{GrowLaws X} (m : M (state X) unit) (s : state X) (t l : list Z) : Prop :=
  match m s with
  | (Ok _, s') => holds s' (t ++ l)
  | (Throw e, s') => e = bad_alloc /\ exists l', l' `prefix_of` l /\ holds s' (t ++ l')
  | (Undef, _) => False
  end.

Section contract.
Context {X : Type} `{GrowLaws X}.

Lemma try_reserve_ok n s t : holds s t -> size_ (buf s) < n ->
  match try_reserve n s with
  | (Ok _, s') => holds s' t /\ size_ (buf s') < capacity_ (buf s')
  | (Throw e, s') => e = bad_alloc /\ holds s' t
  | (Undef, _) => False
  end.
Proof.
  intros Hs Hn. unfold try_reserve, bind, gets. destruct (Z.ltb_spec (capacity_ (buf s)) n); [by apply holds_grow|]. split; [done|lia].
Qed.

(** The write of [push_back] and [append]. *)
Lemma poke_put l (s : state X) : room s -> size_ (buf s) + zlen l <= capacity_ (buf s) ->
  (do! poke (fst (ptr_ (buf s)), snd (ptr_ (buf s)) + size_ (buf s)) l in set_size (size_ (buf s) + zlen l)) s = (Ok tt, put l s) /\
  (do! set_size (size_ (buf s) + zlen l) in poke (fst (ptr_ (buf s)), snd (ptr_ (buf s)) + size_ (buf s)) l) s = (Ok tt, put l s).
Proof.
  intros (Hsz & b & Hb & Ho & Hc) Hl. unfold bind, poke, set_size, modify, put. cbn. rewrite Hb.
  rewrite (proj2 (Z.leb_le 0 _)), (proj2 (Z.leb_le (_ + _) _)) by lia. cbn. unfold set_hp, set_buf, set_blocks. cbn.
  assert (alter (overwrite (snd (ptr_ (buf s)) + size_ (buf s)) l) (fst (ptr_ (buf s))) (blocks (hp s)) =
    <[fst (ptr_ (buf s)) := overwrite (snd (ptr_ (buf s)) + size_ (buf s)) l b]> (blocks (hp s))) as ->; [|done].
  apply map_eq. intros i. destruct (decide (i = fst (ptr_ (buf s)))) as [->|Hi].
  - by rewrite lookup_alter_eq, lookup_insert_eq, Hb.
  - by rewrite lookup_alter_ne, lookup_insert_ne by done.
Qed.

Lemma append_loop_ok fuel l s t : (length l <= fuel)%nat -> holds s t -> writes (append_loop fuel l) s t l.
Proof.
  revert l s t. induction fuel as [|fuel IH]; intros l s t Hf Hs.
  { destruct l; [|simpl in Hf; lia]. unfold writes. simpl. by rewrite app_nil_r. }
  destruct l as [|c l]; [unfold writes; simpl; by rewrite app_nil_r|]. set (u := c :: l) in *.
  assert (Hu : 0 < zlen u) by (unfold u; rewrite zlen_cons; pose proof (zlen_nonneg l); lia).
  unfold writes. change (append_loop (S fuel) u) with
    (let! b := gets buf in do! try_reserve (size_ b + zlen u) in
     let! b := gets buf in
     do! poke (fst (ptr_ b), snd (ptr_ b) + size_ b) (take (Z.to_nat (if capacity_ b - size_ b <? zlen u then capacity_ b - size_ b else zlen u)) u) in
     do! set_size (size_ b + (if capacity_ b - size_ b <? zlen u then capacity_ b - size_ b else zlen u)) in
     append_loop fuel (drop (Z.to_nat (if capacity_ b - size_ b <? zlen u then capacity_ b - size_ b else zlen u)) u)).
  pose proof (try_reserve_ok (size_ (buf s) + zlen u) s t Hs ltac:(lia)) as Hr. unfold bind at 1, gets. unfold bind at 1.
  destruct (try_reserve _ s) as [[[]|e|] s1]; [|destruct Hr as [-> Hr]; split; [done|]; exists []; split; [apply prefix_nil|by rewrite app_nil_r]|done].
  destruct Hr as [H1 Hlt]. unfold bind at 1. set (b := buf s1) in *.
  set (n := if capacity_ b - size_ b <? zlen u then capacity_ b - size_ b else zlen u).
  assert (Hn : 0 < n <= zlen u /\ size_ b + n <= capacity_ b) by (unfold n; destruct (Z.ltb_spec (capacity_ b - size_ b) (zlen u)); lia).
  assert (Hz : zlen (take (Z.to_nat n) u) = n) by (rewrite zlen_take; lia).
  destruct (poke_put (take (Z.to_nat n) u) s1 (holds_room _ _ H1 Hlt) ltac:(rewrite Hz; fold b; lia)) as [Hp _]. rewrite Hz in Hp. fold b in Hp.
  rewrite <- bind_assoc. unfold bind at 1. rewrite Hp.
  specialize (IH (drop (Z.to_nat n) u) (put (take (Z.to_nat n) u) s1) (t ++ take (Z.to_nat n) u)).
  unfold writes in IH. assert (Hd : (length (drop (Z.to_nat n) u) <= fuel)%nat) by (rewrite length_drop; unfold u in *; simpl in *; lia).
  specialize (IH Hd ltac:(apply holds_put; [done|done|rewrite Hz; fold b; lia])).
  destruct (append_loop _ _ _) as [[[]|e|] s2]; [|destruct IH as (-> & l' & Hl' & IH); split; [done|]|done].
  - by rewrite <- app_assoc, take_drop in IH.
  - exists (take (Z.to_nat n) u ++ l'). rewrite app_assoc. split; [|done]. rewrite <- (take_drop (Z.to_nat n) u) at 2. by apply prefix_app.
Qed.

Lemma append_ok l s t : holds s t -> writes (append l) s t l.
Proof. apply append_loop_ok. lia. Qed.

(** All at once when there is room. *)
Lemma append_once u (s s1 : state X) : u <> [] -> try_reserve (size_ (buf s) + zlen u) s = (Ok tt, s1) -> room s1 ->
  size_ (buf s1) + zlen u <= capacity_ (buf s1) -> append u s = (Ok tt, put u s1).
Proof.
  intros Hu Hr H1 Hle. unfold append. destruct u as [|c u]; [done|]. set (l := c :: u) in *. assert (Hfuel : length l = S (length u)) by done. rewrite Hfuel.
  change (append_loop (S (length u)) l) with
    (let! b := gets buf in do! try_reserve (size_ b + zlen l) in
     let! b := gets buf in
     do! poke (fst (ptr_ b), snd (ptr_ b) + size_ b) (take (Z.to_nat (if capacity_ b - size_ b <? zlen l then capacity_ b - size_ b else zlen l)) l) in
     do! set_size (size_ b + (if capacity_ b - size_ b <? zlen l then capacity_ b - size_ b else zlen l)) in
     append_loop (length u) (drop (Z.to_nat (if capacity_ b - size_ b <? zlen l then capacity_ b - size_ b else zlen l)) l)).
  unfold bind at 1, gets. unfold bind at 1. rewrite Hr. unfold bind at 1. rewrite (proj2 (Z.ltb_ge _ (zlen l))) by lia.
  rewrite take_ge, drop_ge by (unfold zlen; lia). rewrite <- bind_assoc. unfold bind at 1. rewrite (proj1 (poke_put l s1 H1 Hle)). by destruct u.
Qed.

Lemma buffer_push_back_ok c s t : holds s t -> writes (push_back c) s t [c].
Proof.
  intros Hs. unfold writes, push_back, bind at 1, gets. pose proof (try_reserve_ok (size_ (buf s) + 1) s t Hs ltac:(lia)) as Hr. unfold bind at 1.
  destruct (try_reserve _ s) as [[[]|e|] s1]; [|destruct Hr as [-> Hr]; split; [done|]; exists []; split; [apply prefix_nil|by rewrite app_nil_r]|done].
  destruct Hr as [H1 Hlt]. unfold bind at 1. destruct (poke_put [c] s1 (holds_room _ _ H1 Hlt)) as [_ Hp]; [change (zlen [c]) with 1; lia|].
  change (zlen [c]) with 1 in Hp. rewrite Hp. apply holds_put; [done|done|change (zlen [c]) with 1; lia].
Qed.
End contract.

(** ** Writing in a block *)
Lemma put_room {X} l (s : state X) : room s -> size_ (buf s) + zlen l <= capacity_ (buf s) -> room (put l s) /\ pending (put l s) = pending s ++ l.
Proof.
  intros (Hsz & b & Hb & Ho & Hc) Hl. pose proof (zlen_nonneg l). unfold room, pending, put. cbn. rewrite lookup_alter_eq, Hb. cbn. split.
  - split; [lia|]. eexists. split; [reflexivity|]. split; [done|]. rewrite zlen_overwrite by lia. lia.
  - unfold slice, overwrite. set (o := snd (ptr_ (buf s))) in *. set (n := size_ (buf s)) in *.
    rewrite <- (firstn_skipn (Z.to_nat o) b) at 1. unfold zlen in *.
    replace (Z.to_nat (o + n)) with (Z.to_nat o + Z.to_nat n)%nat by lia. rewrite firstn_skipn.
    rewrite drop_app_le by (rewrite length_take; lia). rewrite <- take_drop_commute.
    rewrite take_app_ge by (rewrite length_take, length_drop; lia). rewrite length_take, length_drop.
    replace (Z.to_nat (n + Z.of_nat (length l)) - _)%nat with (length l) by lia. by rewrite take_app_length.
Qed.

Lemma pending_full {X} (s : state X) : room s -> zlen (pending s) = size_ (buf s).
Proof.
  intros (Hsz & b & Hb & Ho & Hc). unfold pending. rewrite Hb. unfold slice. rewrite zlen_take, zlen_drop. lia.
Qed.

Definition buffer_size : Z := 256.

(** ** [counting_buffer] *)

Record counting := mkcounting { count_ : Z }.
#[export] Instance counting_grow : Grow counting := fun _ =>
  let! s := gets id in
  if negb (size_ (buf s) =? buffer_size) then ret tt
  else do! modify (set_ext (mkcounting (count_ (ext s) + size_ (buf s)))) in clear.
Definition counting_count (s : state counting) : Z := count_ (ext s) + size_ (buf s).
#[export] Program Instance counting_laws : GrowLaws counting := {
  holds s t := room s /\ capacity_ (buf s) = buffer_size /\ counting_count s = zlen t }.
Next Obligation. intros s t (Hr & _). apply Hr. Qed.
Next Obligation. by intros s t (Hr & _). Qed.
Next Obligation.
  intros n s t (Hr & Hc & Hn) Hlt. unfold grow, counting_grow, bind, gets. cbn. destruct (Z.eqb_spec (size_ (buf s)) buffer_size) as [E|E]; cbn.
  - unfold counting_count in *. cbn. split; [|unfold buffer_size in *; lia]. split_and!; [|done|lia]. destruct Hr as (Hsz & b & Hb). split; [cbn; lia|by exists b].
  - split; [done|]. destruct Hr as [Hsz _]. lia.
Qed.
Next Obligation.
  intros l s t (Hr & Hc & Hn) _ Hl. destruct (put_room l s Hr Hl) as [Hr' _]. split_and!; [done|done|]. unfold counting_count, put in *. cbn. rewrite zlen_app. lia.
Qed.

(** ** [iterator_buffer]: flushed to an output iterator *)

(** [fixed_buffer_traits]: [limit] counts all characters and lets the first pass. *)
Record traits := mktraits { traits_count : Z; limit_ : Z }.
Definition limit (size : Z) (t : traits) : Z * traits :=
  let n := if traits_count t <? limit_ t then limit_ t - traits_count t else 0 in
  (Z.min size n, mktraits (traits_count t + size) (limit_ t)).
Arguments limit : simpl never.

(** What has been written through the iterator; [data_] is the block of the array. *)
Record to_iterator := mkiterator { it_out : list Z; it_traits : option traits; it_data : Z }.

Definition it_flush : M (state to_iterator) unit :=
  let! s := gets id in
  let size := size_ (buf s) in
  do! clear in
  let '(n, tr) := match it_traits (ext s) with Some t => let '(n, t) := limit size t in (n, Some t) | None => (size, None) end in
  match blocks (hp s) !! it_data (ext s) with
  | Some b => if n <=? zlen b then modify (set_ext (mkiterator (it_out (ext s) ++ slice 0 n b) tr (it_data (ext s)))) else undef
  | None => undef
  end.
#[export] Instance iterator_grow : Grow to_iterator := fun _ =>
  let! s := gets buf in if size_ s =? buffer_size then it_flush else ret tt.
Definition it_count (s : state to_iterator) : Z :=
  (match it_traits (ext s) with Some t => traits_count t | None => 0 end) + size_ (buf s).

(** The text without what waits in the array has been written, up to the limit. *)
Definition it_written (x : to_iterator) (before : list Z) : Prop :=
  match it_traits x with
  | Some t => traits_count t = zlen before /\ it_out x = take (Z.to_nat (limit_ t)) before
  | None => it_out x = before
  end.

Lemma limit_written (before l : list Z) n : 0 <= n ->
  let '(k, t) := limit (zlen l) (mktraits (zlen before) n) in
  traits_count t = zlen (before ++ l) /\ 0 <= k <= zlen l /\
  take (Z.to_nat n) before ++ take (Z.to_nat k) l = take (Z.to_nat n) (before ++ l).
Proof.
  intros Hn. unfold limit. cbn. rewrite zlen_app. pose proof (zlen_nonneg l). split; [done|].
  destruct (Z.ltb_spec (zlen before) n).
  - split; [lia|]. rewrite take_app, (take_ge before) by (unfold zlen in *; lia). f_equal. unfold zlen in *.
    destruct (Z.min_spec (Z.of_nat (length l)) (n - Z.of_nat (length before))) as [[? ->]|[? ->]].
    + rewrite !take_ge by lia. done.
    + f_equal. lia.
  - split; [lia|]. rewrite (take_app_le before) by (unfold zlen in *; lia). rewrite Z.min_r by lia. by rewrite take_0, app_nil_r.
Qed.

Definition it_ok (s : state to_iterator) (t : list Z) : Prop :=
  room s /\ capacity_ (buf s) = buffer_size /\ ptr_ (buf s) = (it_data (ext s), 0) /\
  (match it_traits (ext s) with Some t => 0 <= limit_ t | None => True end) /\
  exists before, t = before ++ pending s /\ it_written (ext s) before.

Lemma it_flush_ok s t : it_ok s t ->
  exists s', it_flush s = (Ok tt, s') /\ it_ok s' t /\ size_ (buf s') = 0 /\ it_written (ext s') t.
Proof.
  intros (Hr & Hc & Hp & Hl & before & -> & Hw). pose proof (pending_full s Hr) as Hz. pose proof Hr as (Hsz & b & Hb & Ho & Hcap).
  rewrite Hp in Hb, Ho, Hcap. cbn [fst snd] in *. assert (Hpend : pending s = slice 0 (size_ (buf s)) b) by (unfold pending; rewrite Hp; cbn; by rewrite Hb).
  unfold it_flush, bind, gets, clear, set_size, modify. cbn.
  assert (Hroom : forall x : to_iterator, room (mkstate (hp s) (mkbuffer (ptr_ (buf s)) 0 (capacity_ (buf s))) x)).
  { intros x. split; [cbn; lia|]. exists b. cbn. rewrite Hp. cbn. split_and!; [done|lia|lia]. }
  assert (Hnil : forall x : to_iterator, pending (mkstate (hp s) (mkbuffer (ptr_ (buf s)) 0 (capacity_ (buf s))) x) = [] :> list Z).
  { intros x. unfold pending. cbn. by destruct (blocks (hp s) !! (ptr_ (buf s)).1). }
  destruct (it_traits (ext s)) as [tr|] eqn:Et; unfold it_written in Hw; rewrite Et in Hw.
  - destruct Hw as [Hcnt Hout]. pose proof (limit_written before (pending s) (limit_ tr) Hl) as Hlw. rewrite Hz, <- Hcnt in Hlw.
    destruct tr as [cnt lim]. cbn in *. destruct (limit _ _) as [k tr'] eqn:Ek. destruct Hlw as (Hc' & Hk & Htk). rewrite Hb, (proj2 (Z.leb_le k (zlen b))) by lia.
    eexists. split; [reflexivity|]. unfold it_ok. cbn. assert (Hlim : limit_ tr' = lim) by (unfold limit in Ek; by injection Ek as _ <-).
    assert (Hwr : it_written (mkiterator (it_out (ext s) ++ slice 0 k b) (Some tr') (it_data (ext s))) (before ++ pending s)).
    { unfold it_written. cbn. split; [done|]. rewrite Hlim, Hout, <- Htk, Hpend. f_equal. unfold slice. rewrite !drop_0, take_take. f_equal. lia. }
    split_and!; [apply Hroom|done|done|lia| |done|apply Hwr..]. exists (before ++ pending s). split; [|exact Hwr].
    rewrite <- (app_nil_r (before ++ pending s)) at 1. f_equal. symmetry. apply Hnil.
  - rewrite Hb, (proj2 (Z.leb_le _ (zlen b))) by lia. eexists. split; [reflexivity|]. unfold it_ok. cbn.
    assert (Hwr : it_written (mkiterator (it_out (ext s) ++ slice 0 (size_ (buf s)) b) None (it_data (ext s))) (before ++ pending s)).
    { unfold it_written. cbn. by rewrite Hw, Hpend. }
    split_and!; [apply Hroom|done|done|done| |done|exact Hwr]. exists (before ++ pending s). split; [|exact Hwr].
    rewrite <- (app_nil_r (before ++ pending s)) at 1. f_equal. symmetry. apply Hnil.
Qed.

#[export] Program Instance iterator_laws : GrowLaws to_iterator := { holds := it_ok }.
Next Obligation. intros s t (Hr & _). apply Hr. Qed.
Next Obligation. by intros s t (Hr & _). Qed.
Next Obligation.
  intros n s t Hs Hlt. unfold grow, iterator_grow, bind, gets. destruct (Z.eqb_spec (size_ (buf s)) buffer_size) as [E|E].
  - destruct (it_flush_ok s t Hs) as (s' & -> & Hs' & Hz & _). split; [done|]. destruct Hs' as (_ & -> & _). unfold buffer_size. lia.
  - split; [done|]. destruct Hs as ((Hsz & _) & Hc & _). lia.
Qed.
Next Obligation.
  intros l s t (Hr & Hc & Hp & Hl & before & -> & Hw) _ Hle. destruct (put_room l s Hr Hle) as [Hr' Hp']. split_and!; [done..|].
  exists before. rewrite Hp', app_assoc. done.
Qed.

(** ** [container_buffer]: a container with contiguous storage *)

(** The block of the container; until the first [grow] the pointer is indeterminate. *)
Record to_container := mkcontainer { container : Z }.
#[export] Instance container_grow : Grow to_container := fun capacity =>
  let! s := gets id in
  match blocks (hp s) !! container (ext s) with
  | Some b =>
      do! modify (set_hp (set_blocks (<[container (ext s) := vec_resize 0 capacity b]> (blocks (hp s))) (hp s))) in
      set (container (ext s), 0) capacity
  | None => undef
  end.

#[export] Program Instance container_laws : GrowLaws to_container := {
  holds s t := exists b, blocks (hp s) !! container (ext s) = Some b /\ zlen b = capacity_ (buf s) /\ 0 <= size_ (buf s) <= capacity_ (buf s) /\
    take (Z.to_nat (size_ (buf s))) b = t /\ (size_ (buf s) < capacity_ (buf s) -> ptr_ (buf s) = (container (ext s), 0)) }.
Next Obligation. by intros s t (b & _ & _ & Hsz & _). Qed.
Next Obligation.
  intros s t (b & Hb & Hz & Hsz & Ht & Hp) Hlt. split; [done|]. exists b. rewrite (Hp Hlt). cbn. split_and!; [done|lia|lia].
Qed.
Next Obligation.
  intros n s t (b & Hb & Hz & Hsz & Ht & Hp) Hlt. unfold grow, container_grow, bind, gets. cbn. rewrite Hb. cbn. split; [|lia].
  exists (vec_resize 0 n b). rewrite lookup_insert_eq. split_and!; [done|unfold vec_resize; rewrite zlen_app, zlen_take, zlen_replicate; unfold zlen in *; lia|lia|lia| |done].
  unfold vec_resize. rewrite take_app_le by (rewrite length_take; unfold zlen in *; lia). rewrite take_take, Nat.min_l by lia. done.
Qed.
Next Obligation.
  intros l s t (b & Hb & Hz & Hsz & Ht & Hp) Hlt Hl. specialize (Hp Hlt). pose proof (zlen_nonneg l). unfold put. cbn. rewrite Hp. cbn.
  exists (overwrite (size_ (buf s)) l b). rewrite lookup_alter_eq, Hb. split_and!; [done|rewrite zlen_overwrite; lia|lia|lia| |done].
  unfold overwrite. replace (Z.to_nat (size_ (buf s) + zlen l)) with (Z.to_nat (size_ (buf s)) + length l)%nat by (unfold zlen; lia).
  rewrite take_app_ge by (rewrite length_take; lia). rewrite length_take. unfold zlen in *.
  replace (_ + _ - _)%nat with (length l) by lia. by rewrite take_app_length, Ht.
Qed.

(** Appending to a full container leaves it full: it is then exactly the text. *)
Lemma container_append_full l (s : state to_container) t : holds s t -> size_ (buf s) = capacity_ (buf s) ->
  match append l s with
  | (Ok _, s') => blocks (hp s') !! container (ext s') = Some (t ++ l) /\ size_ (buf s') = capacity_ (buf s')
  | _ => False
  end.
Proof.
  intros Hs Hfull. destruct (decide (l = [])) as [->|Hl].
  { destruct Hs as (b & Hb & Hz & Hsz & Ht & _). cbn. rewrite app_nil_r, Hb. split; [|done]. f_equal. rewrite <- Ht. symmetry. apply take_ge. unfold zlen in *. lia. }
  assert (Hpos : 0 < zlen l) by (destruct l; [done|unfold zlen; simpl; lia]).
  pose proof (try_reserve_ok (size_ (buf s) + zlen l) s t Hs ltac:(lia)) as Hr. destruct (try_reserve _ s) as [o s1] eqn:E. pose proof E as E'.
  unfold try_reserve, bind, gets in E. rewrite (proj2 (Z.ltb_lt _ _)) in E by lia. unfold grow, container_grow, bind, gets in E. cbn in E.
  destruct Hs as (b & Hb & _). rewrite Hb in E. injection E as <- <-. destruct Hr as [H1 Hlt]. match type of H1 with holds ?x _ => set (s1 := x) in * end.
  assert (Hcap : capacity_ (buf s1) = size_ (buf s1) + zlen l) by done. rewrite (append_once l s s1 Hl E' (holds_room _ _ H1 Hlt)) by lia.
  assert (H2 : holds (put l s1) (t ++ l)) by (apply holds_put; [done|done|lia]). destruct H2 as (b' & Hb' & Hz' & Hsz' & Ht' & _). split.
  - rewrite Hb'. f_equal. rewrite <- Ht'. symmetry. apply take_ge. unfold put in *. cbn in *. unfold zlen in *. lia.
  - unfold put. cbn. lia.
Qed.

(** ** [basic_memory_buffer] *)

(** The inline array of [SIZE] characters is the block [store_].  [max_size] is
    that of the allocator; [malloc] fails when [malloc_fails] says so. *)
Class Malloc := { SIZE : Z; SIZE_pos : 0 < SIZE; max_size : Z; malloc_fails : nat -> bool }.
Record memory := mkmemory { store_ : Z }.

Section memory_buffer.
Context `{Malloc}.

(** [detail::allocator]; fresh memory is not read before it is written. *)
Definition allocate (n : Z) : M (state memory) Z := fun s =>
  let h := hp s in
  if malloc_fails (allocations h) then (Throw bad_alloc, set_hp (mkheap (blocks h) (next_block h) (S (allocations h))) s)
  else (Ok (next_block h), set_hp (mkheap (<[next_block h := replicate (Z.to_nat n) 0]> (blocks h)) (next_block h + 1) (S (allocations h))) s).
Definition free (p : Z * Z) : M (state memory) unit := fun s =>
  match blocks (hp s) !! fst p with
  | Some _ => if (snd p =? 0) && negb (fst p =? store_ (ext s)) then (Ok tt, set_hp (set_blocks (delete (fst p) (blocks (hp s))) (hp s)) s) else (Undef, s)
  | None => (Undef, s)
  end.
(** [memcpy] reads [size] characters at [p]. *)
Definition peek (p : Z * Z) (n : Z) : M (state memory) (list Z) := fun s =>
  match blocks (hp s) !! fst p with
  | Some b => if (0 <=? snd p) && (0 <=? n) && (snd p + n <=? zlen b) then (Ok (slice (snd p) n b), s) else (Undef, s)
  | None => (Undef, s)
  end.

Definition new_capacity (old_capacity size : Z) : Z :=
  let new_capacity := old_capacity + old_capacity / 2 in
  if new_capacity <? size then size else if max_size <? new_capacity then Z.max size max_size else new_capacity.

#[export] Instance memory_grow : Grow memory := fun size =>
  let! s := gets id in
  let old_capacity := capacity_ (buf s) in
  let new_capacity := new_capacity old_capacity size in
  let old_data := ptr_ (buf s) in
  let! new_data := allocate new_capacity in
  let! text := peek old_data (size_ (buf s)) in
  do! poke (new_data, 0) text in
  do! set (new_data, 0) new_capacity in
  if negb (bool_decide (old_data = (store_ (ext s), 0))) then free old_data else ret tt.

(** [deallocate], the destructor; then the object and its array are gone. *)
Definition deallocate : M (state memory) unit :=
  let! s := gets id in
  if negb (bool_decide (ptr_ (buf s) = (store_ (ext s), 0))) then free (ptr_ (buf s)) else ret tt.
Definition end_of_life : M (state memory) unit := modify (fun s => set_hp (set_blocks (delete (store_ (ext s)) (blocks (hp s))) (hp s)) s).
Definition destroy : M (state memory) unit := do! deallocate in end_of_life.

(** An object with its array, and the constructor. *)
Definition memory_buffer_new (h : heap) : state memory :=
  let id := next_block h in
  mkstate (mkheap (<[id := replicate (Z.to_nat SIZE) 0]> (blocks h)) (id + 1) (allocations h)) (mkbuffer (id, 0) 0 SIZE) (mkmemory id).

(** ** Its text and its blocks *)

(** The blocks of the object are its array and the allocated one it points to;
    the others are [frame]. *)
Definition mem_ok (frame : gmap Z (list Z)) (s : state memory) (t : list Z) : Prop :=
  room s /\ pending s = t /\ snd (ptr_ (buf s)) = 0 /\
  (exists a, blocks (hp s) !! store_ (ext s) = Some a /\ zlen a = SIZE) /\
  (forall i, is_Some (blocks (hp s) !! i) -> i < next_block (hp s)) /\
  frame !! store_ (ext s) = None /\ frame !! fst (ptr_ (buf s)) = None /\
  delete (fst (ptr_ (buf s))) (delete (store_ (ext s)) (blocks (hp s))) = frame.

Lemma mem_new h : (forall i, is_Some (blocks h !! i) -> i < next_block h) -> mem_ok (blocks h) (memory_buffer_new h) [].
Proof.
  intros Hf. pose proof SIZE_pos. assert (Hn : blocks h !! next_block h = None).
  { destruct (blocks h !! next_block h) eqn:E; [|done]. specialize (Hf (next_block h)). rewrite E in Hf. specialize (Hf ltac:(by eexists)). lia. }
  unfold mem_ok, memory_buffer_new, room, pending. cbn. rewrite lookup_insert_eq. split_and!; try done; try lia.
  - eexists. split_and!; [reflexivity|lia|]. rewrite zlen_replicate. lia.
  - eexists. split; [reflexivity|]. rewrite zlen_replicate. lia.
  - intros i Hi. destruct (decide (i = next_block h)) as [->|]; [lia|]. rewrite lookup_insert_ne in Hi by done. specialize (Hf i Hi). lia.
  - by rewrite delete_delete_eq, delete_insert_id.
Qed.

Lemma new_capacity_ge old size : size <= new_capacity old size.
Proof. unfold new_capacity. destruct (Z.ltb_spec (old + old / 2) size); [lia|]. destruct (_ <? _); lia. Qed.

Lemma overwrite_start (t b : list Z) n : zlen t = n -> n <= zlen b -> slice 0 n (overwrite 0 t b) = t.
Proof. intros <- Hb. unfold slice, overwrite. cbn. rewrite drop_0, take_0. cbn. apply take_zlen_app. Qed.

Ltac map_solve :=
  apply map_eq; intros ?i; rewrite ?lookup_delete, ?lookup_insert, ?lookup_delete, ?lookup_insert, ?lookup_delete;
  repeat case_decide; simplify_eq; try done; try congruence.

Lemma mem_grow_ok frame n s t : mem_ok frame s t -> capacity_ (buf s) < n ->
  match grow n s with
  | (Ok _, s') => mem_ok frame s' t /\ n <= capacity_ (buf s') /\ size_ (buf s') = size_ (buf s)
  | (Throw e, s') => e = bad_alloc /\ mem_ok frame s' t
  | (Undef, _) => False
  end.
Proof.
  intros (Hr & Ht & H0 & (a & Ha & Hsize) & Hf & Hfs & Hfp & Hframe) Hn. pose proof (pending_full s Hr) as Hz. rewrite Ht in Hz.
  pose proof Hr as (Hsz & b & Hb & Ho & Hcap). rewrite H0 in *.
  unfold grow, memory_grow, bind, gets, allocate. cbn. destruct (malloc_fails _); [by split; [|split_and!; try done; exists a]|].
  set (id := next_block (hp s)) in *. set (cap := new_capacity (capacity_ (buf s)) n). assert (Hc : n <= cap) by apply new_capacity_ge.
  assert (Hid : blocks (hp s) !! id = None).
  { destruct (blocks (hp s) !! id) eqn:E; [|done]. specialize (Hf id). rewrite E in Hf. specialize (Hf ltac:(by eexists)). unfold id in *. lia. }
  assert (Hne : fst (ptr_ (buf s)) <> id /\ store_ (ext s) <> id) by (split; intros E; rewrite E in *; congruence). destruct Hne as [Hp Hst].
  unfold peek. cbn. rewrite lookup_insert_ne, Hb by done. rewrite H0, (proj2 (Z.leb_le 0 0)), (proj2 (Z.leb_le 0 (size_ _))), (proj2 (Z.leb_le (0 + _) _)) by lia. cbn.
  assert (slice 0 (size_ (buf s)) b = t) as -> by (rewrite <- Ht; unfold pending; by rewrite Hb, H0).
  unfold poke. cbn. rewrite lookup_insert_eq, zlen_replicate, (proj2 (Z.leb_le _ (Z.of_nat _))) by lia. cbn.
  set (new := overwrite 0 t (replicate (Z.to_nat cap) 0)).
  assert (Hnew : zlen new = cap /\ slice 0 (size_ (buf s)) new = t).
  { unfold new. split; [rewrite zlen_overwrite, zlen_replicate by (rewrite ?zlen_replicate; lia); lia|]. apply overwrite_start; [done|]. rewrite zlen_replicate. lia. }
  assert (Hfid : frame !! id = None) by (rewrite <- Hframe, !lookup_delete_ne, Hid by done; done).
  assert (Hdone : forall m, m !! id = Some new -> m !! store_ (ext s) = Some a -> (forall i, is_Some (m !! i) -> i < id + 1) ->
    delete id (delete (store_ (ext s)) m) = frame -> forall k, mem_ok frame (mkstate (mkheap m (id + 1) k) (mkbuffer (id, 0) (size_ (buf s)) cap) (ext s)) t).
  { intros m Hm Hms Hmf Hmd k. unfold mem_ok, room, pending. cbn. rewrite Hm. split_and!; try done; try lia; [exists new; split_and!; (done || lia)|apply Hnew|by exists a]. }
  destruct (bool_decide (ptr_ (buf s) = (store_ (ext s), 0))) eqn:Eb; cbn [negb].
  - apply bool_decide_eq_true in Eb. cbn. split; [|split; [lia|done]]. apply Hdone.
    + by rewrite lookup_insert_eq.
    + by rewrite !lookup_insert_ne.
    + intros i [x Hi]. rewrite !lookup_insert in Hi. repeat case_decide; subst; first [lia|specialize (Hf i ltac:(by eexists)); lia].
    + rewrite <- Hframe, Eb. cbn. map_solve.
  - apply bool_decide_eq_false in Eb. assert (Hps : fst (ptr_ (buf s)) <> store_ (ext s)) by (intros E; apply Eb; destruct (ptr_ (buf s)); cbn in *; congruence).
    unfold free. cbn. rewrite !lookup_insert_ne, Hb by done. rewrite H0, (proj2 (Z.eqb_neq _ _) Hps). cbn. split; [|split; [lia|done]]. apply Hdone.
    + rewrite lookup_delete_ne by done. by rewrite lookup_insert_eq.
    + rewrite lookup_delete_ne by done. by rewrite !lookup_insert_ne.
    + intros i [x Hi]. rewrite lookup_delete, !lookup_insert in Hi. repeat case_decide; subst; first [done|lia|specialize (Hf i ltac:(by eexists)); lia].
    + rewrite <- Hframe. map_solve.
Qed.

Lemma mem_put_ok frame l s t : mem_ok frame s t -> size_ (buf s) + zlen l <= capacity_ (buf s) -> mem_ok frame (put l s) (t ++ l).
Proof.
  intros (Hr & Ht & H0 & (a & Ha & Hsize) & Hf & Hfs & Hfp & Hframe) Hl. destruct (put_room l s Hr Hl) as [Hr' Hp']. rewrite Ht in Hp'.
  assert (Hsome : forall i, is_Some (alter (overwrite (snd (ptr_ (buf s)) + size_ (buf s)) l) (fst (ptr_ (buf s))) (blocks (hp s)) !! i) <-> is_Some (blocks (hp s) !! i)).
  { intros i. rewrite lookup_alter. case_decide as E; [subst i; by rewrite fmap_is_Some|done]. }
  split_and!; try done; unfold put; cbn.
  - rewrite lookup_alter. case_decide as E; [|by exists a]. rewrite <- E in Ha. rewrite Ha. eexists. split; [reflexivity|].
    destruct Hr as (Hsz & b & Hb & Ho & Hcap). rewrite Ha in Hb. injection Hb as <-. rewrite zlen_overwrite by lia. done.
  - intros i Hi. apply Hf. by apply Hsome.
  - rewrite <- Hframe. apply map_eq. intros i. rewrite !lookup_delete, lookup_alter. by repeat case_decide.
Qed.

Program Definition memory_laws (frame : gmap Z (list Z)) : GrowLaws memory := {| holds := mem_ok frame |}.
Next Obligation. intros frame s t (Hr & _). apply Hr. Qed.
Next Obligation. by intros frame s t (Hr & _). Qed.
Next Obligation.
  intros frame n s t Hs Hn. pose proof (mem_grow_ok frame n s t Hs Hn) as Hg. destruct (grow n s) as [[]]; [|done|done].
  destruct Hg as (Hg & Hc & Hz). split; [done|]. destruct Hs as ((Hsz & _) & _). lia.
Qed.
Next Obligation. intros frame l s t Hs _ Hl. by apply mem_put_ok. Qed.

(** The destructor gives back what the object had. *)
Lemma destroy_ok frame s t : mem_ok frame s t -> exists s', destroy s = (Ok tt, s') /\ blocks (hp s') = frame /\ next_block (hp s') = next_block (hp s).
Proof.
  intros (Hr & Ht & H0 & (a & Ha & Hsize) & Hf & Hfs & Hfp & Hframe). pose proof Hr as (_ & b & Hb & _). unfold destroy, deallocate, end_of_life, bind, gets, modify. cbn.
  destruct (bool_decide _) eqn:Eb; cbn.
  - apply bool_decide_eq_true in Eb. eexists. split; [reflexivity|]. cbn. split; [|done]. by rewrite <- Hframe, Eb, delete_delete_eq.
  - apply bool_decide_eq_false in Eb. assert (Hps : fst (ptr_ (buf s)) <> store_ (ext s)) by (intros E; apply Eb; destruct (ptr_ (buf s)); cbn in *; congruence).
    unfold free. rewrite Hb, H0, (proj2 (Z.eqb_neq _ _) Hps). cbn. eexists. split; [reflexivity|]. cbn. split; [|done]. by rewrite delete_delete, Hframe.
Qed.

(** The move constructor: the new object and the other one, in the same memory.
    An allocated block changes its owner; characters in the array are copied
    and stay in the other object. *)
Definition move_from (s : state memory) : outcome (state memory * state memory) :=
  let n := memory_buffer_new (hp s) in
  let other := buf s in
  let size := size_ other in
  let capacity := capacity_ other in
  if bool_decide (ptr_ other = (store_ (ext s), 0)) then
    match blocks (hp s) !! store_ (ext s) with
    | Some b =>
        match poke (store_ (ext n), 0) (slice 0 size b) n with
        | (Ok _, n) =>
            Ok (mkstate (hp n) (mkbuffer (store_ (ext n), 0) (Z.min size capacity) capacity) (ext n), mkstate (hp n) other (ext s))
        | _ => Undef
        end
    | None => Undef
    end
  else
    Ok (mkstate (hp n) (mkbuffer (ptr_ other) (Z.min size capacity) capacity) (ext n),
        mkstate (hp n) (mkbuffer (store_ (ext s), 0) 0 0) (ext s)).

(** In a memory where only blocks of others were freed. *)
Lemma fresh_new (h : heap) : (forall i, is_Some (blocks h !! i) -> i < next_block h) -> blocks h !! next_block h = None.
Proof. intros Hf. destruct (blocks h !! next_block h) eqn:E; [|done]. specialize (Hf (next_block h)). rewrite E in Hf. specialize (Hf ltac:(by eexists)). lia. Qed.

Lemma move_inline frame s t : mem_ok frame s t -> ptr_ (buf s) = (store_ (ext s), 0) ->
  exists s1 s2, move_from s = Ok (s1, s2) /\ mem_ok (blocks (hp s)) s1 t /\
    s2 = set_hp (hp s1) s /\ next_block (hp s) <= next_block (hp s1).
Proof.
  intros (Hr & Ht & H0 & (a & Ha & Hsize) & Hf & Hfs & Hfp & Hframe) Hp. pose proof (fresh_new _ Hf) as Hid. pose proof (pending_full s Hr) as Hz.
  pose proof Hr as (Hsz & b & Hb & Ho & Hcap). rewrite Hp in *. cbn in *. rewrite Ha in Hb. injection Hb as <-. pose proof SIZE_pos.
  unfold move_from. rewrite bool_decide_eq_true_2, Ha by done. unfold poke, memory_buffer_new. cbn. rewrite lookup_insert_eq.
  assert (Hpend : slice 0 (size_ (buf s)) a = t) by (rewrite <- Ht; unfold pending; rewrite Hp; cbn; by rewrite Ha). rewrite Hpend.
  rewrite Ht in Hz. rewrite zlen_replicate, (proj2 (Z.leb_le _ (Z.of_nat _))) by lia. cbn. eexists _, _. split; [reflexivity|].
  split; [|split; [done|cbn; lia]]. unfold mem_ok, room, pending. cbn. rewrite lookup_insert_eq. rewrite Z.min_l by lia.
  split_and!; try done; try lia.
  - eexists. split_and!; [reflexivity|lia|]. rewrite zlen_overwrite; rewrite ?zlen_replicate; lia.
  - apply overwrite_start; [lia|]. rewrite zlen_replicate. lia.
  - eexists. split; [reflexivity|]. rewrite zlen_overwrite, zlen_replicate; rewrite ?zlen_replicate; lia.
  - intros i [x Hi]. rewrite !lookup_insert in Hi. repeat case_decide; subst; first [lia|specialize (Hf i ltac:(by eexists)); lia].
  - map_solve.
Qed.

Lemma move_allocated frame s t : mem_ok frame s t -> ptr_ (buf s) <> (store_ (ext s), 0) ->
  exists s1 s2, move_from s = Ok (s1, s2) /\ mem_ok (delete (fst (ptr_ (buf s))) (blocks (hp s))) s1 t /\
    s2 = mkstate (hp s1) (mkbuffer (store_ (ext s), 0) 0 0) (ext s) /\ next_block (hp s) <= next_block (hp s1).
Proof.
  intros (Hr & Ht & H0 & (a & Ha & Hsize) & Hf & Hfs & Hfp & Hframe) Hp. pose proof (fresh_new _ Hf) as Hid.
  pose proof Hr as (Hsz & b & Hb & Ho & Hcap). pose proof SIZE_pos.
  assert (Hpid : fst (ptr_ (buf s)) <> next_block (hp s)) by (intros E; rewrite E in *; congruence).
  unfold move_from. rewrite bool_decide_eq_false_2 by done. unfold memory_buffer_new. cbn. eexists _, _. split; [reflexivity|].
  split; [|split; [done|cbn; lia]]. unfold mem_ok, room, pending in *. cbn. rewrite lookup_insert_ne, Hb by done. rewrite Hb in Ht. rewrite Z.min_l by lia.
  split_and!; try done; try lia.
  - by exists b.
  - rewrite lookup_insert_eq. eexists. split; [reflexivity|]. rewrite zlen_replicate. lia.
  - intros i [x Hi]. rewrite lookup_insert in Hi. repeat case_decide; subst; first [lia|specialize (Hf i ltac:(by eexists)); lia].
  - by rewrite lookup_delete_ne.
  - by rewrite lookup_delete_eq.
  - map_solve.
Qed.

(** ** Scripts *)

Inductive op := Push (c : Z) | Append (l : list Z) | Clear | Reserve (n : Z) | Shrink (n : Z).
Definition run_op (o : op) : M (state memory) unit :=
  match o with Push c => push_back c | Append l => append l | Clear => clear | Reserve n => try_reserve n | Shrink n => try_resize n end.
Fixpoint run_ops (os : list op) : M (state memory) unit := match os with [] => ret tt | o :: os => do! run_op o in run_ops os end.

(** What the operations do to a text; [try_resize] is used to make it shorter. *)
Definition text_op (o : op) (t : list Z) : list Z :=
  match o with Push c => t ++ [c] | Append l => t ++ l | Clear => [] | Reserve _ => t | Shrink n => take (Z.to_nat n) t end.
Fixpoint ops_ok (os : list op) (t : list Z) : Prop :=
  match os with [] => True | o :: os => match o with Shrink n => 0 <= n <= zlen t | _ => True end /\ ops_ok os (text_op o t) end.
End memory_buffer.

Section scripts.
Context `{Malloc} (frame : gmap Z (list Z)).

Lemma mem_reserve n s t : mem_ok frame s t ->
  match try_reserve n s with
  | (Ok _, s') => mem_ok frame s' t /\ n <= capacity_ (buf s') /\ size_ (buf s') = size_ (buf s)
  | (Throw e, s') => e = bad_alloc /\ mem_ok frame s' t
  | (Undef, _) => False
  end.
Proof.
  intros Hs. unfold try_reserve, bind, gets. destruct (Z.ltb_spec (capacity_ (buf s)) n); [by apply mem_grow_ok|]. by split.
Qed.

(** A shorter text. *)
Lemma mem_resize n s t : mem_ok frame s t -> 0 <= n <= zlen t -> exists s', set_size n s = (Ok tt, s') /\ mem_ok frame s' (take (Z.to_nat n) t).
Proof.
  intros (Hr & Ht & H0 & Ha & Hf & Hfs & Hfp & Hframe) Hn. pose proof (pending_full s Hr) as Hz. rewrite Ht in Hz. eexists. split; [reflexivity|].
  destruct Hr as (Hsz & b & Hb & Ho & Hc). unfold mem_ok, room, pending in *. cbn. rewrite Hb in *. split_and!; try done; try lia; [by exists b|].
  rewrite <- Ht. unfold slice. rewrite take_take. f_equal. lia.
Qed.

(** An operation that fails leaves the text as it was. *)
Lemma run_op_ok o s t : mem_ok frame s t -> match o with Shrink n => 0 <= n <= zlen t | _ => True end ->
  match run_op o s with
  | (Ok _, s') => mem_ok frame s' (text_op o t)
  | (Throw e, s') => e = bad_alloc /\ mem_ok frame s' t
  | (Undef, _) => False
  end.
Proof.
  intros Hs Hok. assert (Hz : zlen t = size_ (buf s)) by (destruct Hs as (Hr & <- & _); by apply pending_full).
  assert (Hcap : size_ (buf s) <= capacity_ (buf s)) by apply Hs.
  destruct o as [c|l| |n|n]; cbn [run_op text_op].
  - unfold push_back, bind at 1, gets. pose proof (mem_reserve (size_ (buf s) + 1) s t Hs) as Hr. unfold bind at 1.
    destruct (try_reserve _ s) as [[[]|e|] s1]; [|done|done]. destruct Hr as (H1 & Hc & Hn). unfold bind at 1.
    destruct (poke_put [c] s1 (proj1 H1)) as [_ Hp]; [change (zlen [c]) with 1; lia|]. change (zlen [c]) with 1 in Hp. rewrite Hp.
    apply mem_put_ok; [done|change (zlen [c]) with 1; lia].
  - destruct (decide (l = [])) as [->|Hl]; [cbn; by rewrite app_nil_r|]. pose proof (mem_reserve (size_ (buf s) + zlen l) s t Hs) as Hr.
    destruct (try_reserve (size_ (buf s) + zlen l) s) as [[[]|e|] s1] eqn:E.
    + destruct Hr as (H1 & Hc & Hn). rewrite (append_once l s s1 Hl E (proj1 H1)) by lia. apply mem_put_ok; [done|lia].
    + unfold append. destruct l as [|c l]; [done|]. cbn [length append_loop]. unfold bind at 1, gets, bind at 1. by rewrite E.
    + done.
  - unfold clear. destruct (mem_resize 0 s t Hs) as (s' & -> & Hs'); [pose proof (zlen_nonneg t); lia|done].
  - pose proof (mem_reserve n s t Hs) as Hr. destruct (try_reserve n s) as [[[]|e|] s1]; [apply Hr|done|done].
  - unfold try_resize, bind at 1. pose proof (mem_reserve n s t Hs) as Hr. destruct (try_reserve n s) as [[[]|e|] s1]; [|done|done].
    destruct Hr as (H1 & Hc & Hn). unfold bind, gets. rewrite Z.min_l by lia. by destruct (mem_resize n s1 t H1 Hok) as (s' & -> & Hs').
Qed.

Lemma run_ops_ok os s t : mem_ok frame s t -> ops_ok os t ->
  match run_ops os s with
  | (Ok _, s') => mem_ok frame s' (foldl (fun t o => text_op o t) t os)
  | (Throw e, s') => e = bad_alloc /\ exists os1 os2, os = os1 ++ os2 /\ mem_ok frame s' (foldl (fun t o => text_op o t) t os1)
  | (Undef, _) => False
  end.
Proof.
  revert s t. induction os as [|o os IH]; intros s t Hs Hok; [done|]. destruct Hok as [Ho Hok]. cbn [run_ops]. unfold bind.
  pose proof (run_op_ok o s t Hs Ho) as H1. destruct (run_op o s) as [[[]|e|] s1]; [|destruct H1 as [-> H1]; split; [done|]; by exists [], (o :: os)|done].
  specialize (IH s1 _ H1 Hok). destruct (run_ops os s1) as [[[]|e|] s2]; [done| |done]. destruct IH as (-> & os1 & os2 & -> & IH). split; [done|]. by exists (o :: os1), os2.
Qed.
End scripts.

(** C24: a memory buffer is a text that grows: any script of its operations on a new
    buffer leaves the text the script makes of an empty one, whether it fits the
    inline array or not; when an allocation fails the operation throws
    [bad_alloc] and the text is as before it; nothing is written or read outside
    the array and the allocated block, and the destructor leaves the memory as
    it was before the constructor: no block is leaked or freed twice. *)
Theorem memory_buffer_refines_text `{Malloc} (h : heap) (os : list op) :
  (forall i, is_Some (blocks h !! i) -> i < next_block h) -> ops_ok os [] ->
  match run_ops os (memory_buffer_new h) with
  | (Ok _, s) => pending s = foldl (fun t o => text_op o t) [] os /\ exists s', destroy s = (Ok tt, s') /\ blocks (hp s') = blocks h
  | (Throw e, s) =>
      e = bad_alloc /\ (exists os1 os2, os = os1 ++ os2 /\ pending s = foldl (fun t o => text_op o t) [] os1) /\
      exists s', destroy s = (Ok tt, s') /\ blocks (hp s') = blocks h
  | (Undef, _) => False
  end.
Proof.
  intros Hf Hok. pose proof (run_ops_ok (blocks h) os _ [] (mem_new h Hf) Hok) as Hr. destruct (run_ops os _) as [[[]|e|] s]; [| |done].
  - split; [apply Hr|]. destruct (destroy_ok _ _ _ Hr) as (s' & E & Hb & _). by exists s'.
  - destruct Hr as (-> & os1 & os2 & -> & Hs). split_and!; [done|exists os1, os2; split; [done|apply Hs]|].
    destruct (destroy_ok _ _ _ Hs) as (s' & E & Hb & _). by exists s'.
Qed.

(** Eight characters inline, and every allocation succeeds. *)
#[local] Instance small : Malloc := { SIZE := 8; SIZE_pos := eq_refl; max_size := 2 ^ 63 - 1; malloc_fails _ := false }.

Lemma memory_buffer_refines_text_witness :
  match run_ops [Append (chars "formatted"); Push 33; Shrink 6; Append (chars "!")] (memory_buffer_new (mkheap ∅ 0 0)) with
  | (Ok _, s) => pending s = chars "format!" /\ exists s', destroy s = (Ok tt, s') /\ blocks (hp s') = ∅
  | _ => False
  end.
Proof.
  pose proof (memory_buffer_refines_text (mkheap ∅ 0 0) [Append (chars "formatted"); Push 33; Shrink 6; Append (chars "!")]) as Hr.
  assert (E : exists s, run_ops [Append (chars "formatted"); Push 33; Shrink 6; Append (chars "!")] (memory_buffer_new (mkheap ∅ 0 0)) = (Ok tt, s)) by (eexists; vm_compute; reflexivity).
  destruct E as [s E]. rewrite E in *. apply Hr; [intros i [x Hi]; cbn in Hi; by rewrite lookup_empty in Hi|]. simpl. unfold zlen. simpl. lia.
Defined.

(** Moving a buffer moves its text: the new buffer has it, and destroying the
    new buffer and then the other one frees every block once.  What the other
    one is left with depends on where the text was: nothing when it was
    allocated, the same text when it was in the inline array. *)
Theorem memory_buffer_move_exact `{Malloc} (frame : gmap Z (list Z)) (s : state memory) (t : list Z) :
  mem_ok frame s t ->
  exists s1 s2 s1' s2', move_from s = Ok (s1, s2) /\ pending s1 = t /\
    destroy s1 = (Ok tt, s1') /\ pending (set_hp (hp s1') s2) = (if bool_decide (ptr_ (buf s) = (store_ (ext s), 0)) then t else []) /\
    destroy (set_hp (hp s1') s2) = (Ok tt, s2') /\ blocks (hp s2') = frame.
Proof.
  intros Hs. case_bool_decide as Hp.
  - destruct (move_inline frame s t Hs Hp) as (s1 & s2 & E & H1 & -> & Hn). destruct (destroy_ok _ _ _ H1) as (s1' & E1 & Hb1 & Hn1).
    assert (H2 : mem_ok frame (set_hp (hp s1') (set_hp (hp s1) s)) t).
    { destruct Hs as (Hr & Ht & H0 & Ha & Hf & Hfs & Hfp & Hframe). unfold mem_ok, room, pending, set_hp in *. cbn. rewrite Hb1, Hn1.
      split_and!; try done; try apply Hr. intros i Hi. specialize (Hf i Hi). lia. }
    destruct (destroy_ok _ _ _ H2) as (s2' & E2 & Hb2 & _). exists s1, (set_hp (hp s1) s), s1', s2'. split_and!; [done|apply H1|done|apply H2|done|done].
  - destruct (move_allocated frame s t Hs Hp) as (s1 & s2 & E & H1 & -> & Hn). destruct (destroy_ok _ _ _ H1) as (s1' & E1 & Hb1 & Hn1).
    assert (H2 : mem_ok frame (set_hp (hp s1') (mkstate (hp s1) (mkbuffer (store_ (ext s), 0) 0 0) (ext s))) []).
    { destruct Hs as (Hr & Ht & H0 & (a & Ha & Hsize) & Hf & Hfs & Hfp & Hframe).
      assert (Hps : fst (ptr_ (buf s)) <> store_ (ext s)) by (intros E'; apply Hp; destruct (ptr_ (buf s)); cbn in *; congruence). pose proof SIZE_pos.
      unfold mem_ok, room, pending, set_hp. cbn. rewrite Hb1, Hn1, lookup_delete_ne, Ha by done. split_and!; try done; try lia.
      - exists a. split_and!; [done|lia|lia].
      - by exists a.
      - intros i [x Hi]. rewrite lookup_delete in Hi. case_decide; [done|]. specialize (Hf i ltac:(by eexists)). lia.
      - rewrite delete_delete_eq, delete_delete. done. }
    destruct (destroy_ok _ _ _ H2) as (s2' & E2 & Hb2 & _). eexists s1, _, s1', s2'. split_and!; [done|apply H1|done|apply H2|done|done].
Qed.

(** A text in the inline array stays in the buffer it was moved from. *)
Lemma memory_buffer_move_exact_witness :
  exists s1 s2 s1' s2', move_from (memory_buffer_new (mkheap ∅ 0 0)) = Ok (s1, s2) /\ pending s1 = [] /\
    destroy s1 = (Ok tt, s1') /\ pending (set_hp (hp s1') s2) = [] /\ destroy (set_hp (hp s1') s2) = (Ok tt, s2') /\ blocks (hp s2') = ∅.
Proof.
  apply (memory_buffer_move_exact ∅ (memory_buffer_new (mkheap ∅ 0 0)) []). apply (mem_new (mkheap ∅ 0 0)). intros i [x Hi]. cbn in Hi. by rewrite lookup_empty in Hi.
Defined.

(** ** [iterator_buffer] for an array with a limit ([format_to_n]) *)

Record to_array := mkarray { arr_out : Z * Z; arr_traits : traits; arr_data : Z }.
Definition arr_flush : M (state to_array) unit :=
  let! s := gets id in
  let '(n, tr) := limit (size_ (buf s)) (arr_traits (ext s)) in
  let x := ext s in
  do! (if bool_decide (ptr_ (buf s) = arr_out x)
       then do! modify (set_ext (mkarray (fst (arr_out x), snd (arr_out x) + n) tr (arr_data x))) in set (arr_data x, 0) buffer_size
       else modify (set_ext (mkarray (arr_out x) tr (arr_data x)))) in
  clear.
#[export] Instance array_grow : Grow to_array := fun _ =>
  let! s := gets buf in if size_ s =? capacity_ s then arr_flush else ret tt.
Definition array_buffer_new (h : heap) (out : Z * Z) (n data : Z) : state to_array := mkstate h (mkbuffer out 0 n) (mkarray out (mktraits 0 n) data).
Definition arr_count (s : state to_array) : Z := traits_count (arr_traits (ext s)) + size_ (buf s).
(** [out]: the position after what was written. *)
Definition arr_end : M (state to_array) (Z * Z) := do! arr_flush in gets (fun s => arr_out (ext s)).

Lemma overwrite_app (o : Z) (t l b : list Z) :
  0 <= o -> o + zlen t + zlen l <= zlen b -> overwrite (o + zlen t) l (overwrite o t b) = overwrite o (t ++ l) b.
Proof.
  intros Ho Hl. unfold overwrite, zlen in *. replace (Z.to_nat (o + Z.of_nat (length t))) with (Z.to_nat o + length t)%nat by lia.
  rewrite (app_assoc (take _ b) t). rewrite take_app_le by (rewrite length_app, length_take; lia). rewrite take_ge by (rewrite length_app, length_take; lia).
  rewrite drop_app_ge by (rewrite length_app, length_take; lia). rewrite length_app, length_take, drop_drop, <- !app_assoc. do 4 f_equal. rewrite length_app. lia.
Qed.

(** The limit [n] at the offset [o] of the block [tb], which was [b0]. *)
Section array.
Context (tb o n data : Z) (b0 : list Z) (Ho : 0 <= o) (Hn : 0 <= n) (Hb0 : o + n <= zlen b0) (Hdata : data <> tb).

(** The array is written first; then characters are only counted. *)
Definition arr_ok (s : state to_array) (t : list Z) : Prop :=
  0 <= size_ (buf s) <= capacity_ (buf s) /\
  blocks (hp s) !! tb = Some (overwrite o (take (Z.to_nat n) t) b0) /\
  (exists d, blocks (hp s) !! data = Some d /\ zlen d = buffer_size) /\
  arr_data (ext s) = data /\ limit_ (arr_traits (ext s)) = n /\ arr_count s = zlen t /\
  ((ptr_ (buf s) = (tb, o) /\ arr_out (ext s) = (tb, o) /\ capacity_ (buf s) = n /\ traits_count (arr_traits (ext s)) = 0) \/
   (ptr_ (buf s) = (data, 0) /\ arr_out (ext s) = (tb, o + n) /\ capacity_ (buf s) = buffer_size /\ n <= traits_count (arr_traits (ext s)))).

Lemma arr_room s t : arr_ok s t -> room s.
Proof.
  intros (Hsz & Hb & (d & Hd & Hz) & _ & _ & Hc & [(Hp & _ & Hcap & H0)|(Hp & _ & Hcap & _)]); (split; [done|]); rewrite Hp; cbn.
  - eexists. split; [exact Hb|]. unfold arr_count in Hc. split; [done|]. rewrite zlen_overwrite; [lia|done|]. rewrite zlen_take. lia.
  - exists d. split_and!; [done|lia|lia].
Qed.

Lemma arr_put l s t : arr_ok s t -> size_ (buf s) + zlen l <= capacity_ (buf s) -> arr_ok (put l s) (t ++ l).
Proof.
  intros (Hsz & Hb & (d & Hd & Hz) & Hx & Hl & Hc & Hph) Hle. pose proof (zlen_nonneg l). unfold arr_count in Hc.
  destruct Hph as [(Hp & Hout & Hcap & H0)|(Hp & Hout & Hcap & H0)]; unfold arr_ok, put, arr_count; cbn; rewrite Hp; cbn.
  - assert (Ht : zlen t + zlen l <= n) by lia. split_and!; try done; try lia.
    + rewrite lookup_alter_eq, Hb. cbn. f_equal. rewrite !take_ge by (rewrite ?length_app; unfold zlen in *; lia).
      replace (size_ (buf s)) with (zlen t) by lia. apply overwrite_app; lia.
    + exists d. by rewrite lookup_alter_ne.
    + rewrite zlen_app. lia.
    + left. done.
  - split_and!; try done; try lia.
    + rewrite lookup_alter_ne, Hb by done. do 2 f_equal. rewrite take_app_le; [done|]. unfold zlen in *. lia.
    + rewrite lookup_alter_eq, Hd. eexists. split; [reflexivity|]. rewrite zlen_overwrite; lia.
    + rewrite zlen_app. lia.
    + right. done.
Qed.

Lemma arr_flush_ok s t : arr_ok s t -> size_ (buf s) = capacity_ (buf s) ->
  exists s', arr_flush s = (Ok tt, s') /\ arr_ok s' t /\ size_ (buf s') < capacity_ (buf s').
Proof.
  intros (Hsz & Hb & Hd & Hx & Hl & Hc & Hph) Hfull. unfold arr_flush, bind, gets, limit. cbn. destruct s as [h [p sz cap] [out [cnt lim] dt]]. cbn in *. subst dt lim.
  unfold arr_count in Hc. cbn in Hc. destruct Hph as [(-> & -> & -> & ->)|(-> & -> & -> & H0)].
  - rewrite bool_decide_eq_true_2 by done. cbn. eexists. split; [reflexivity|]. unfold buffer_size. split; [|cbn; lia]. unfold arr_ok, arr_count. cbn.
    split_and!; try done; try lia. right. split_and!; try done; try lia. f_equal. destruct (Z.ltb_spec 0 n); lia.
  - rewrite bool_decide_eq_false_2 by congruence. cbn. eexists. split; [reflexivity|]. unfold buffer_size. split; [|cbn; lia]. unfold arr_ok, arr_count. cbn.
    split_and!; try done; try lia. right. split_and!; try done; lia.
Qed.

Program Definition array_laws : GrowLaws to_array := {| holds := arr_ok |}.
Next Obligation. intros s t Hs. apply Hs. Qed.
Next Obligation. intros s t Hs _. by eapply arr_room. Qed.
Next Obligation.
  intros k s t Hs Hlt. unfold grow, array_grow, bind, gets. destruct (Z.eqb_spec (size_ (buf s)) (capacity_ (buf s))) as [E|E].
  - destruct (arr_flush_ok s t Hs E) as (s' & -> & Hs'). done.
  - split; [done|]. destruct Hs as (Hsz & _). lia.
Qed.
Next Obligation. intros l s t Hs _ Hl. by apply arr_put. Qed.
End array.

(** ** Buffers that do not allocate do not throw *)

Definition no_throw {S A} (m : M S A) : Prop := forall s, match m s with (Throw _, _) => False | _ => True end.
Lemma no_throw_bind {S A B} (m : M S A) (k : A -> M S B) : no_throw m -> (forall a, no_throw (k a)) -> no_throw (bind m k).
Proof. intros Hm Hk s. specialize (Hm s). unfold bind. destruct (m s) as [[a|e|] s']; [apply Hk|done|done]. Qed.
Lemma no_throw_append {X} `{Grow X} l : (forall n, no_throw (grow n : M (state X) unit)) -> no_throw (append l : M (state X) unit).
Proof.
  intros Hg. unfold append. generalize (length l) as fuel. intros fuel. revert l. induction fuel as [|fuel IH]; intros [|c l]; try by intros s.
  cbn [append_loop]. apply no_throw_bind; [by intros s|]. intros b. apply no_throw_bind.
  { unfold try_reserve. apply no_throw_bind; [by intros s|]. intros b'. destruct (_ <? _); [apply Hg|by intros s]. }
  intros _. apply no_throw_bind; [by intros s|]. intros b'. cbv zeta.
  apply no_throw_bind; [intros s; unfold poke; destruct (_ !! _); [destruct (_ && _)|]; done|]. intros _. apply no_throw_bind; [by intros s|]. intros _. apply IH.
Qed.

Lemma array_no_throw n : no_throw (grow n : M (state to_array) unit).
Proof.
  unfold grow, array_grow. apply no_throw_bind; [by intros s|]. intros b. destruct (_ =? _); [|by intros s]. unfold arr_flush.
  apply no_throw_bind; [by intros s|]. intros s. destruct (limit _ _). apply no_throw_bind; [|by intros ? s'].
  destruct (bool_decide _); [|by intros s']. apply no_throw_bind; by intros ?.
Qed.

(** [format_to_n] truncates: whatever is written, the array gets the first [n]
    characters and nothing beyond them, the returned position is right after
    them, the count is that of all characters, and nothing is thrown. *)
Theorem array_buffer_truncates (h : heap) (tb o n data : Z) (b0 d l : list Z) :
  0 <= o -> 0 <= n -> o + n <= zlen b0 -> data <> tb -> blocks h !! tb = Some b0 -> blocks h !! data = Some d -> zlen d = buffer_size ->
  exists s s', append l (array_buffer_new h (tb, o) n data) = (Ok tt, s) /\
    blocks (hp s) !! tb = Some (overwrite o (take (Z.to_nat n) l) b0) /\ arr_count s = zlen l /\
    arr_end s = (Ok (tb, o + Z.min n (zlen l)), s').
Proof.
  intros Ho Hn Hb0 Hd Hb Hdb Hz.
  assert (Hnew : arr_ok tb o n data b0 (array_buffer_new h (tb, o) n data) []).
  { unfold arr_ok, arr_count, array_buffer_new. cbn. split_and!; try done; try lia.
    - rewrite Hb. f_equal. unfold overwrite. rewrite take_nil. cbn. rewrite Nat.add_0_r. by rewrite take_drop.
    - by exists d.
    - left. done. }
  pose proof (append_ok (H0 := array_laws tb o n data b0 Ho Hn Hb0 Hd) l _ [] Hnew) as Hw. unfold writes in Hw.
  pose proof (no_throw_append l array_no_throw (array_buffer_new h (tb, o) n data)) as Ht.
  destruct (append l _) as [[[]|e|] s]; [|done|done]. cbn in Hw. destruct Hw as (Hsz & Htb & (d' & Hd' & Hz') & Hx & Hl & Hc & Hph).
  assert (Hend : exists s', arr_end s = (Ok (tb, o + Z.min n (zlen l)), s')).
  { unfold arr_end, arr_flush, bind, gets, limit, arr_count in *. destruct s as [hh [p sz cap] [out [cnt lim] dt]]. cbn in *. subst dt lim.
    destruct Hph as [(-> & -> & -> & ->)|(-> & -> & -> & H0)].
    - rewrite bool_decide_eq_true_2 by done. cbn. eexists. do 3 f_equal. destruct (Z.ltb_spec 0 n); lia.
    - rewrite bool_decide_eq_false_2 by congruence. cbn. eexists. do 3 f_equal. lia. }
  destruct Hend as [s' Hend]. by exists s, s'.
Qed.

(** Three characters of five, at the start of an array of four. *)
Lemma array_buffer_truncates_witness :
  exists s s', append (chars "abcde") (array_buffer_new (mkheap {[1 := [0; 0; 0; 9]; 2 := replicate 256 0]} 3 0) (1, 0) 3 2) = (Ok tt, s) /\
    blocks (hp s) !! 1 = Some (chars "abc" ++ [9]) /\ arr_count s = 5 /\ arr_end s = (Ok (1, 3), s').
Proof.
  apply (array_buffer_truncates (mkheap {[1 := [0; 0; 0; 9]; 2 := replicate 256 0]} 3 0) 1 0 3 2 [0; 0; 0; 9] (replicate 256 0) (chars "abcde")); first [lia|done|vm_compute; reflexivity|vm_compute; congruence].
Defined.
