(* ===== verification/FmtParse.v ===== *)
(** * fmt: parsing of format strings (fmt/bundled/base.h)

    The parser of format strings, which calls a handler for texts and fields: the
    one that formats ([FmtFormat]) and the one that checks at compile time
    ([FmtCheck]).  Arguments are integers, booleans, characters, strings and C
    strings; floating point numbers, pointers and user types are left out, and
    there are no named arguments.  The position in the format string is what is
    left of it.  [report_error] throws a [format_error], a [std::runtime_error]. *)

From S2P Require Import Prelude Machine FmtInt.

(** ** Arguments *)

(** An integer of [bits] bits, a C string with its address. *)
Inductive fmt_arg :=
| IntArg (signed : bool) (bits v : Z)
| BoolArg (b : bool)
| CharArg (c : Z)
| CStrArg (address : Z) (text : option (list Z))
| StrArg (s : list Z).

(** [type]: its codes, and sets of them. *)
Definition int_type : Z := 1.
Definition uint_type : Z := 2.
Definition long_long_type : Z := 3.
Definition ulong_long_type : Z := 4.
Definition int128_type : Z := 5.
Definition uint128_type : Z := 6.
Definition bool_type : Z := 7.
Definition char_type : Z := 8.
Definition float_type : Z := 9.
Definition double_type : Z := 10.
Definition long_double_type : Z := 11.
Definition cstring_type : Z := 12.
Definition string_type : Z := 13.
Definition pointer_type : Z := 14.

Definition arg_type (a : fmt_arg) : Z :=
  match a with
  | IntArg signed bits _ =>
      if bits =? 32 then (if signed then int_type else uint_type) else if signed then long_long_type else ulong_long_type
  | BoolArg _ => bool_type
  | CharArg _ => char_type
  | CStrArg _ _ => cstring_type
  | StrArg _ => string_type
  end.

Definition is_integral_type (t : Z) : bool := (0 <? t) && (t <=? char_type).
Definition is_arithmetic_type (t : Z) : bool := (0 <? t) && (t <=? long_double_type).
Definition set_of (t : Z) : Z := Z.shiftl 1 t.
Definition in_set (t set : Z) : bool := negb (Z.land (Z.shiftr set t) 1 =? 0).
Definition sint_set : Z := Z.lor (Z.lor (set_of int_type) (set_of long_long_type)) (set_of int128_type).
Definition uint_set : Z := Z.lor (Z.lor (set_of uint_type) (set_of ulong_long_type)) (set_of uint128_type).
Definition bool_set : Z := set_of bool_type.
Definition char_set : Z := set_of char_type.
Definition float_set : Z := Z.lor (Z.lor (set_of float_type) (set_of double_type)) (set_of long_double_type).
Definition string_set : Z := set_of string_type.
Definition cstring_set : Z := set_of cstring_type.
Definition pointer_set : Z := set_of pointer_type.
Definition integral_set : Z := Z.lor (Z.lor (Z.lor sint_set uint_set) bool_set) char_set.

(** ** Specifications *)

(** [presentation_type]: some codes have two meanings. *)
Definition pres_none : Z := 0.
Definition pres_debug : Z := 1.
Definition pres_string : Z := 2.
Definition pres_dec : Z := 3.
Definition pres_hex : Z := 4.
Definition pres_oct : Z := 5.
Definition pres_bin : Z := 6.
Definition pres_chr : Z := 7.
Definition pres_pointer : Z := 3.
Definition pres_exp : Z := 1.
Definition pres_fixed : Z := 2.
Definition pres_general : Z := 3.
Definition pres_hexfloat : Z := 4.

Inductive align_t := align_none | align_left | align_right | align_center | align_numeric.
Inductive sign_t := sign_none | sign_minus | sign_plus | sign_space.
#[export] Instance align_eq_dec : EqDecision align_t.
Proof. solve_decision. Defined.
#[export] Instance sign_eq_dec : EqDecision sign_t.
Proof. solve_decision. Defined.

(** [arg_ref] with its kind. *)
Inductive arg_ref := RefIndex (index : Z) | RefName (name : list Z).

(** [dynamic_format_specs]. *)
Record format_specs := mkspecs {
  type_ : Z;
  align : align_t;
  sign : sign_t;
  upper : bool;
  alt : bool;
  localized : bool;
  fill_ : list Z;
  width : Z;
  precision : Z;
  width_ref : option arg_ref;
  precision_ref : option arg_ref }.
Definition format_specs_new : format_specs := mkspecs pres_none align_none sign_none false false false [32] 0 (-1) None None.

Definition set_type (t : Z) (s : format_specs) : format_specs :=
  mkspecs t (align s) (sign s) (upper s) (alt s) (localized s) (fill_ s) (width s) (precision s) (width_ref s) (precision_ref s).
Definition set_align (a : align_t) (s : format_specs) : format_specs :=
  mkspecs (type_ s) a (sign s) (upper s) (alt s) (localized s) (fill_ s) (width s) (precision s) (width_ref s) (precision_ref s).
Definition set_sign (g : sign_t) (s : format_specs) : format_specs :=
  mkspecs (type_ s) (align s) g (upper s) (alt s) (localized s) (fill_ s) (width s) (precision s) (width_ref s) (precision_ref s).
Definition set_upper (s : format_specs) : format_specs :=
  mkspecs (type_ s) (align s) (sign s) true (alt s) (localized s) (fill_ s) (width s) (precision s) (width_ref s) (precision_ref s).
Definition set_alt (s : format_specs) : format_specs :=
  mkspecs (type_ s) (align s) (sign s) (upper s) true (localized s) (fill_ s) (width s) (precision s) (width_ref s) (precision_ref s).
Definition set_localized (s : format_specs) : format_specs :=
  mkspecs (type_ s) (align s) (sign s) (upper s) (alt s) true (fill_ s) (width s) (precision s) (width_ref s) (precision_ref s).
Definition set_fill (f : list Z) (s : format_specs) : format_specs :=
  mkspecs (type_ s) (align s) (sign s) (upper s) (alt s) (localized s) f (width s) (precision s) (width_ref s) (precision_ref s).
Definition set_width (w : Z) (s : format_specs) : format_specs :=
  mkspecs (type_ s) (align s) (sign s) (upper s) (alt s) (localized s) (fill_ s) w (precision s) (width_ref s) (precision_ref s).
Definition set_precision (p : Z) (s : format_specs) : format_specs :=
  mkspecs (type_ s) (align s) (sign s) (upper s) (alt s) (localized s) (fill_ s) (width s) p (width_ref s) (precision_ref s).
Definition set_dynamic_width (r : option arg_ref) (s : format_specs) : format_specs :=
  mkspecs (type_ s) (align s) (sign s) (upper s) (alt s) (localized s) (fill_ s) (width s) (precision s) r (precision_ref s).
Definition set_dynamic_precision (r : option arg_ref) (s : format_specs) : format_specs :=
  mkspecs (type_ s) (align s) (sign s) (upper s) (alt s) (localized s) (fill_ s) (width s) (precision s) (width_ref s) r.

(** ** Parsing *)

(** The parse context and the output. *)
Record fmt_state := mkfmt_state { next_arg_id_ : Z; out : list Z }.

Definition report_error {S A} (message : string) : M S A := throw (runtime_error message).
Definition set_next (n : Z) : M fmt_state unit := modify (fun s => mkfmt_state n (out s)).

(** The types of the arguments, which the parse context has at compile time only. *)
Section context.
Context (ct : option (list Z)).

(** [do_check_arg_id], [check_dynamic_spec]. *)
Definition do_check_arg_id (id : Z) : M fmt_state unit :=
  match ct with
  | Some types => if zlen types <=? id then report_error "argument not found" else ret tt
  | None => ret tt
  end.
Definition check_dynamic_spec (id : Z) : M fmt_state unit :=
  match ct with
  | Some types =>
      match types !! Z.to_nat id with
      | Some t => if negb (is_integral_type t) then report_error "width/precision is not integer" else ret tt
      | None => ret tt
      end
  | None => ret tt
  end.

Definition next_arg_id : M fmt_state Z :=
  let! id := gets next_arg_id_ in
  if id <? 0 then report_error "cannot switch from manual to automatic argument indexing"
  else do! set_next (id + 1) in do! do_check_arg_id id in ret id.
Definition check_arg_id (id : Z) : M fmt_state unit :=
  let! n := gets next_arg_id_ in
  if 0 <? n then report_error "cannot switch from automatic to manual argument indexing"
  else do! set_next (-1) in do_check_arg_id id.
Definition check_arg_name (name : list Z) : M fmt_state unit := set_next (-1).

Definition is_digit (c : Z) : bool := (48 <=? c) && (c <=? 57).
Definition is_name_start (c : Z) : bool := ((97 <=? c) && (c <=? 122)) || ((65 <=? c) && (c <=? 90)) || (c =? 95).
Definition INT_MAX : Z := 2147483647.

(** The loop of [parse_nonnegative_int]: value, previous value, last digit,
    number of digits, rest. *)
Fixpoint read_int (value prev last n : Z) (l : list Z) : Z * Z * Z * Z * list Z :=
  match l with
  | c :: l' => if is_digit c then read_int (u32 (value * 10 + (c - 48))) value (c - 48) (n + 1) l' else (value, prev, last, n, l)
  | [] => (value, prev, last, n, l)
  end.
Definition parse_nonnegative_int (l : list Z) (error_value : Z) : Z * list Z :=
  let '(value, prev, last, num_digits, rest) := read_int 0 0 0 0 l in
  let digits10 := 9 in
  if num_digits <=? digits10 then (value, rest)
  else if (num_digits =? digits10 + 1) && (u64 (prev * 10 + last) <=? INT_MAX) then (value, rest)
  else (error_value, rest).

Definition parse_align (c : Z) : align_t :=
  if c =? 60 then align_left else if c =? 62 then align_right else if c =? 94 then align_center else align_none.

(** The characters of a name after the first one. *)
Fixpoint name_rest (l : list Z) : list Z * list Z :=
  match l with
  | c :: l' => if is_name_start c || is_digit c then let '(n, r) := name_rest l' in (c :: n, r) else ([], l)
  | [] => ([], [])
  end.

Definition parse_arg_id {S A} (on_index : Z -> M S A) (on_name : list Z -> M S A) (l : list Z) : M S (A * list Z) :=
  match l with
  | [] => undef
  | c :: l' =>
      if is_digit c then
        let '(index, l) := if negb (c =? 48) then parse_nonnegative_int l INT_MAX else (0, l') in
        match l with
        | d :: _ => if (d =? 125) || (d =? 58) then let! a := on_index index in ret (a, l) else report_error "invalid format string"
        | [] => report_error "invalid format string"
        end
      else if negb (is_name_start c) then report_error "invalid format string"
      else let '(name, l) := name_rest l' in let! a := on_name (c :: name) in ret (a, l)
  end.

(** [parse_dynamic_spec]: a value, or the argument that holds it. *)
Definition parse_dynamic_spec (l : list Z) : M fmt_state ((Z + arg_ref) * list Z) :=
  match l with
  | [] => undef
  | c :: l' =>
      if is_digit c then
        let '(val, l) := parse_nonnegative_int l (-1) in
        if val =? -1 then report_error "number is too big" else ret (inl val, l)
      else if c =? 123 then
        match l' with
        | [] => report_error "invalid format string"
        | d :: _ =>
            let! '(ref, l) :=
              if (d =? 125) || (d =? 58) then let! id := next_arg_id in do! check_dynamic_spec id in ret (RefIndex id, l')
              else parse_arg_id (fun id => do! check_arg_id id in do! check_dynamic_spec id in ret (RefIndex id))
                     (fun name => do! check_arg_name name in ret (RefName name)) l' in
            match l with
            | e :: rest => if e =? 125 then ret (inr ref, rest) else report_error "invalid format string"
            | [] => report_error "invalid format string"
            end
        end
      else report_error "invalid format string"
  end.

Definition parse_width (l : list Z) (s : format_specs) : M fmt_state (format_specs * list Z) :=
  let! '(r, l) := parse_dynamic_spec l in
  ret (match r with inl v => set_dynamic_width None (set_width v s) | inr ref => set_dynamic_width (Some ref) s end, l).
Definition parse_precision (l : list Z) (s : format_specs) : M fmt_state (format_specs * list Z) :=
  match l with
  | [] => undef
  | _ :: l =>
      match l with
      | [] => report_error "invalid precision"
      | _ =>
          let! '(r, l) := parse_dynamic_spec l in
          ret (match r with inl v => set_dynamic_precision None (set_precision v s) | inr ref => set_dynamic_precision (Some ref) s end, l)
      end
  end.

Definition code_point_length (c : Z) : Z := Z.land (Z.shiftr 0x3a55000000000000 (2 * Z.shiftr c 3)) 3 + 1.

(** [state]. *)
Definition state_start : Z := 0.
Definition state_align : Z := 1.
Definition state_sign : Z := 2.
Definition state_hash : Z := 3.
Definition state_zero : Z := 4.
Definition state_width : Z := 5.
Definition state_precision : Z := 6.
Definition state_locale : Z := 7.

Definition enter_state (current s : Z) (valid : bool) : M fmt_state unit :=
  if (s <=? current) || negb valid then report_error "invalid format specifier" else ret tt.

Definition parse_presentation_type (t pres set : Z) (l : list Z) (s : format_specs) : M fmt_state (format_specs * list Z) :=
  if negb (in_set t set) then report_error "invalid format specifier" else ret (set_type pres s, l).

(** The loop of [parse_format_specs] for an argument of type [t]: [c] is the
    character that is looked at, at the beginning of [l]. *)
Fixpoint specs_loop (fuel : nat) (t current c : Z) (l : list Z) (s : format_specs) : M fmt_state (format_specs * list Z) :=
  match fuel, l with
  | S fuel, x :: l' =>
      let continue current l s :=
        match l with [] => ret (s, []) | c :: _ => specs_loop fuel t current c l s end in
      let on w := bool_decide (chars w = [c]) in
      let type_ pres set := parse_presentation_type t pres set l' in
      if on "<" || on ">" || on "^" then
        do! enter_state current state_align true in
        continue state_align l' (set_align (parse_align c) s)
      else if on "+" || on " " || on "-" then
        let s := if on "+" then set_sign sign_plus s else if on " " then set_sign sign_space s else s in
        do! enter_state current state_sign (in_set t (Z.lor sint_set float_set)) in
        continue state_sign l' s
      else if on "#" then
        do! enter_state current state_hash (is_arithmetic_type t) in
        continue state_hash l' (set_alt s)
      else if on "0" then
        do! enter_state current state_zero true in
        if negb (is_arithmetic_type t) then report_error "format specifier requires numeric argument"
        else
          let s := if bool_decide (align s = align_none) then set_fill [48] (set_align align_numeric s) else s in
          continue state_zero l' s
      else if ((49 <=? c) && (c <=? 57)) || on "{" then
        do! enter_state current state_width true in
        let! '(s, l) := parse_width l s in
        continue state_width l s
      else if on "." then
        do! enter_state current state_precision (in_set t (Z.lor (Z.lor float_set string_set) cstring_set)) in
        let! '(s, l) := parse_precision l s in
        continue state_precision l s
      else if on "L" then
        do! enter_state current state_locale (is_arithmetic_type t) in
        continue state_locale l' (set_localized s)
      else if on "d" then type_ pres_dec integral_set s
      else if on "X" then type_ pres_hex integral_set (set_upper s)
      else if on "x" then type_ pres_hex integral_set s
      else if on "o" then type_ pres_oct integral_set s
      else if on "B" then type_ pres_bin integral_set (set_upper s)
      else if on "b" then type_ pres_bin integral_set s
      else if on "E" then type_ pres_exp float_set (set_upper s)
      else if on "e" then type_ pres_exp float_set s
      else if on "F" then type_ pres_fixed float_set (set_upper s)
      else if on "f" then type_ pres_fixed float_set s
      else if on "G" then type_ pres_general float_set (set_upper s)
      else if on "g" then type_ pres_general float_set s
      else if on "A" then type_ pres_hexfloat float_set (set_upper s)
      else if on "a" then type_ pres_hexfloat float_set s
      else if on "c" then
        if t =? bool_type then report_error "invalid format specifier" else type_ pres_chr integral_set s
      else if on "s" then type_ pres_string (Z.lor (Z.lor bool_set string_set) cstring_set) s
      else if on "p" then type_ pres_pointer (Z.lor pointer_set cstring_set) s
      else if on "?" then type_ pres_debug (Z.lor (Z.lor char_set string_set) cstring_set) s
      else if on "}" then ret (s, l)
      else if x =? 125 then ret (s, l)
      else
        let fill_size := code_point_length x in
        match drop (Z.to_nat fill_size) l with
        | [] => report_error "invalid format specifier"
        | a :: rest =>
            if x =? 123 then report_error "invalid fill character '{'"
            else
              let alignment := parse_align a in
              do! enter_state current state_align (negb (bool_decide (alignment = align_none))) in
              continue state_align rest (set_align alignment (set_fill (take (Z.to_nat fill_size) l) s))
        end
  | _, _ => undef
  end.

(** Every round consumes a character. *)
Definition parse_format_specs (t : Z) (l : list Z) (s : format_specs) : M fmt_state (format_specs * list Z) :=
  match l with
  | [] => ret (s, [])
  | [c] => specs_loop (length l) t state_start c l s
  | c :: next :: _ =>
      let c := if bool_decide (parse_align next = align_none) then c else 0 in
      specs_loop (length l) t state_start c l s
  end.
End context.

(** ** Format strings *)

(** What the parser calls; [S] is the state of the handler. *)
Record handler (S : Type) := mkhandler {
  on_text : list Z -> M S unit;
  on_arg_id : M S Z;
  on_arg_index : Z -> M S Z;
  on_arg_name : list Z -> M S Z;
  on_replacement_field : Z -> list Z -> M S unit;
  on_format_specs : Z -> list Z -> M S (list Z) }.
Arguments mkhandler {S}.
Arguments on_text {S}.
Arguments on_arg_id {S}.
Arguments on_arg_index {S}.
Arguments on_arg_name {S}.
Arguments on_replacement_field {S}.
Arguments on_format_specs {S}.

Section parse.
Context {S : Type} (h : handler S).

(** [parse_replacement_field], after the opening brace. *)
Definition parse_replacement_field (l : list Z) : M S (list Z) :=
  match l with
  | [] => report_error "invalid format string"
  | c :: l' =>
      let specs id l :=
        let! l := on_format_specs h id l in
        match l with
        | e :: rest => if e =? 125 then ret rest else report_error "unknown format specifier"
        | [] => report_error "unknown format specifier"
        end in
      if c =? 125 then let! id := on_arg_id h in do! on_replacement_field h id l in ret l'
      else if c =? 123 then do! on_text h [123] in ret l'
      else if c =? 58 then let! id := on_arg_id h in specs id l'
      else
        let! '(id, l) := parse_arg_id (on_arg_index h) (on_arg_name h) l in
        match l with
        | e :: rest =>
            if e =? 125 then do! on_replacement_field h id l in ret rest
            else if e =? 58 then specs id rest
            else report_error "missing '}' in format string"
        | [] => report_error "missing '}' in format string"
        end
  end.

(** [parse_format_string]: [text] holds the characters from [begin] to [p]. *)
Fixpoint parse_format_string (fuel : nat) (text l : list Z) : M S unit :=
  match l, fuel with
  | [], _ => on_text h text
  | c :: l', Datatypes.S fuel =>
      if c =? 123 then
        do! on_text h text in
        let! l := parse_replacement_field l' in
        parse_format_string fuel [] l
      else if c =? 125 then
        match l' with
        | d :: rest => if d =? 125 then do! on_text h (text ++ [125]) in parse_format_string fuel [] rest
                       else report_error "unmatched '}' in format string"
        | [] => report_error "unmatched '}' in format string"
        end
      else parse_format_string fuel (text ++ [c]) l'
  | _, O => undef
  end.
End parse.

(** ** Every format string *)

(** A parser that returns a value with [P], or throws a format error. *)
Definition yields {S A} (P : A -> Prop) (m : M S A) : Prop :=
  forall s, match m s with (Ok a, _) => P a | (Throw e, _) => exists w, e = runtime_error w | (Undef, _) => False end.

Lemma yields_bind {S A B} (P : A -> Prop) (Q : B -> Prop) (m : M S A) (k : A -> M S B) :
  yields P m -> (forall a, P a -> yields Q (k a)) -> yields Q (bind m k).
Proof.
  intros Hm Hk s. specialize (Hm s). unfold bind. destruct (m s) as [[a|e|] s']; [by apply Hk|done|done].
Qed.
Lemma yields_ret {S A} (P : A -> Prop) a : P a -> yields P (ret a : M S A).
Proof. by intros ? s. Qed.
Lemma yields_error {S A} (P : A -> Prop) w : yields P (report_error w : M S A).
Proof. intros s. by exists w. Qed.
Lemma yields_mono {S A} (P Q : A -> Prop) (m : M S A) : yields P m -> (forall a, P a -> Q a) -> yields Q m.
Proof. intros Hm HQ s. specialize (Hm s). destruct (m s) as [[]]; auto. Qed.
Lemma yields_modify {S} (f : S -> S) : yields (fun _ => True) (modify f).
Proof. by intros s. Qed.
Lemma yields_outcome {S A} (P : A -> Prop) o :
  (exists a, o = Ok a /\ P a) \/ (exists w, o = Throw (runtime_error w)) -> yields P (of_outcome o : M S A).
Proof. intros [(a & -> & Ha)|(w & ->)] s; [done|]. by exists w. Qed.
Create HintDb fmtdb.
#[export] Hint Resolve yields_ret yields_error yields_modify : fmtdb.

(** What is left is not longer. *)
Definition shorter (l : list Z) {A} (r : A * list Z) : Prop := (length r.2 <= length l)%nat.

Section context_safe.
Context (ct : option (list Z)).

Lemma yields_do_check id : yields (fun _ => True) (do_check_arg_id ct id).
Proof. unfold do_check_arg_id. destruct ct; [destruct (_ <=? _)|]; auto with fmtdb. Qed.
Lemma yields_check_dynamic id : yields (fun _ => True) (check_dynamic_spec ct id).
Proof. unfold check_dynamic_spec. destruct ct; [|auto with fmtdb]. destruct (_ !! _); [destruct (negb _)|]; auto with fmtdb. Qed.
Lemma yields_next : yields (fun _ => True) (next_arg_id ct).
Proof.
  intros s. unfold next_arg_id, bind at 1, gets. destruct (_ <? 0); [by eexists|]. unfold bind at 1, set_next, modify.
  pose proof (yields_do_check (next_arg_id_ s) (mkfmt_state (next_arg_id_ s + 1) (out s))) as H. unfold bind, ret. destruct (do_check_arg_id _ _ _) as [[]]; eauto.
Qed.
Lemma yields_check id : yields (fun _ => True) (check_arg_id ct id).
Proof.
  intros s. unfold check_arg_id, bind at 1, gets. destruct (0 <? _); [by eexists|]. apply yields_do_check.
Qed.
Lemma yields_name n : yields (fun _ => True) (check_arg_name n).
Proof. by intros s. Qed.
#[local] Hint Resolve yields_next yields_check yields_name yields_check_dynamic : fmtdb.

Lemma read_int_shorter value prev last n l : (length (read_int value prev last n l).2 <= length l)%nat.
Proof. revert value prev last n. induction l as [|c l IH]; intros; simpl; [done|]. destruct (is_digit c); [|done]. etrans; [apply IH|lia]. Qed.
Lemma parse_int_shorter l e c l' : l = c :: l' -> is_digit c = true -> (length (parse_nonnegative_int l e).2 < length l)%nat.
Proof.
  intros -> Hc. unfold parse_nonnegative_int. pose proof (read_int_shorter (u32 (0 * 10 + (c - 48))) 0 (c - 48) (0 + 1) l') as H.
  cbn [read_int]. rewrite Hc. destruct (read_int _ _ _ _ l') as [[[[? ?] ?] ?] rest]. simpl in *.
  destruct (_ <=? 9); simpl; [lia|]. destruct (_ && _); simpl; lia.
Qed.
Lemma name_rest_shorter l : (length (name_rest l).2 <= length l)%nat.
Proof. induction l as [|c l IH]; simpl; [done|]. destruct (_ || _); [|done]. destruct (name_rest l). simpl in *. lia. Qed.

Lemma yields_arg_id {S A} (on_index : Z -> M S A) on_name l :
  l <> [] -> (forall i, yields (fun _ => True) (on_index i)) -> (forall n, yields (fun _ => True) (on_name n)) ->
  yields (shorter l) (parse_arg_id on_index on_name l).
Proof.
  intros Hl Hi Hn. destruct l as [|c l']; [done|]. unfold parse_arg_id.
  destruct (is_digit c) eqn:Hc.
  - assert (Hs : (length (if negb (c =? 48)%Z then parse_nonnegative_int (c :: l') INT_MAX else (0%Z, l')).2 <= length (c :: l'))%nat).
    { destruct (negb _); simpl; [|lia]. pose proof (parse_int_shorter _ INT_MAX c l' eq_refl Hc). simpl in *. lia. }
    destruct (if negb (c =? 48) then _ else _) as [i [|d r]]; [auto with fmtdb|]. destruct (_ || _); [|auto with fmtdb].
    eapply yields_bind; [apply Hi|]. intros a _. by apply yields_ret.
  - destruct (negb _); [auto with fmtdb|]. pose proof (name_rest_shorter l'). destruct (name_rest l') as [n r].
    eapply yields_bind; [apply Hn|]. intros a _. apply yields_ret. unfold shorter. simpl in *. lia.
Qed.

Lemma yields_dynamic l : l <> [] -> yields (fun r => (length r.2 < length l)%nat) (parse_dynamic_spec ct l).
Proof.
  intros Hl. destruct l as [|c l']; [done|]. unfold parse_dynamic_spec. destruct (is_digit c) eqn:Hc.
  - pose proof (parse_int_shorter (c :: l') (-1) c l' eq_refl Hc). destruct (parse_nonnegative_int _ _) as [v r]. destruct (v =? -1); auto with fmtdb.
  - destruct (c =? 123); [|auto with fmtdb]. destruct l' as [|d r]; [auto with fmtdb|].
    apply (yields_bind (shorter (d :: r))).
    + destruct (_ || _).
      * eapply yields_bind; [apply yields_next|]. intros i _. eapply yields_bind; [apply yields_check_dynamic|]. intros _ _.
        apply yields_ret. unfold shorter. simpl. lia.
      * apply yields_arg_id; [done|..]; intros x; repeat (eapply yields_bind; [eauto with fmtdb|intros _ _]); auto with fmtdb.
    + intros [ref rest] Hs. destruct rest as [|e rest]; [auto with fmtdb|]. destruct (e =? 125); [|auto with fmtdb].
      apply yields_ret. unfold shorter in Hs. simpl in *. lia.
Qed.

Lemma yields_enter current s valid : yields (fun _ => True) (enter_state current s valid).
Proof. unfold enter_state. destruct (_ || _); auto with fmtdb. Qed.
Lemma yields_presentation t pres set l s : yields (shorter l) (parse_presentation_type t pres set l s).
Proof. unfold parse_presentation_type. destruct (negb _); auto with fmtdb. apply yields_ret. by unfold shorter. Qed.
#[local] Hint Resolve yields_enter : fmtdb.

Lemma yields_width l s : l <> [] -> yields (fun r => (length r.2 < length l)%nat) (parse_width ct l s).
Proof.
  intros Hl. unfold parse_width. eapply yields_bind; [by apply yields_dynamic|]. intros [[v|ref] r] Hr; by apply yields_ret.
Qed.
Lemma yields_precision l s : l <> [] -> yields (fun r => (length r.2 < length l)%nat) (parse_precision ct l s).
Proof.
  intros Hl. destruct l as [|c [|d l]]; [done|unfold parse_precision; auto with fmtdb|]. unfold parse_precision.
  eapply yields_bind; [by apply yields_dynamic|]. intros [[v|ref] r] Hr; apply yields_ret; simpl in *; lia.
Qed.

Lemma code_point_length_pos c : 1 <= code_point_length c.
Proof.
  unfold code_point_length. assert (0 <= Z.land (Z.shiftr 0x3a55000000000000 (2 * Z.shiftr c 3)) 3) by (apply Z.land_nonneg; right; lia). lia.
Qed.

Lemma yields_specs_loop fuel t current c l s :
  l <> [] -> (length l <= fuel)%nat -> yields (shorter l) (specs_loop ct fuel t current c l s).
Proof.
  revert current c l s. induction fuel as [|fuel IH]; intros current c [|x l'] s Hl Hf; [done|simpl in Hf; lia|done|]. simpl in Hf.
  assert (Hc : forall l2 st s2, (length l2 <= length l')%nat ->
    yields (shorter (x :: l')) (match l2 with [] => ret (s2, []) | c2 :: _ => specs_loop ct fuel t st c2 l2 s2 end)).
  { intros [|c2 l2] st s2 H2; [apply yields_ret; unfold shorter; simpl; lia|]. eapply yields_mono; [apply IH; [done|lia]|].
    intros r Hr. unfold shorter in *. simpl in *. lia. }
  assert (Ht : forall pres set s2, yields (shorter (x :: l')) (parse_presentation_type t pres set l' s2)).
  { intros. eapply yields_mono; [apply yields_presentation|]. intros r Hr. unfold shorter in *. simpl in *. lia. }
  assert (Hd : (length (drop (Z.to_nat (code_point_length x)) (x :: l')) <= length l')%nat).
  { pose proof (code_point_length_pos x). rewrite length_drop. simpl. lia. }
  assert (Hdone : yields (shorter (x :: l')) (ret (s, x :: l') : M fmt_state _)) by (apply yields_ret; unfold shorter; simpl; lia).
  cbn [specs_loop]. cbv zeta.
  repeat match goal with |- yields _ (if ?b then _ else _) => destruct b end; try solve [apply Ht | apply Hdone | auto with fmtdb].
  all: try (eapply yields_bind; [apply yields_enter|intros _ _]; try (apply Hc; lia)).
  - destruct (negb _); [auto with fmtdb|]. apply Hc. lia.
  - eapply yields_bind; [by apply yields_width|]. intros [s2 l2] H2. apply Hc. simpl in H2. lia.
  - eapply yields_bind; [by apply yields_precision|]. intros [s2 l2] H2. apply Hc. simpl in H2. lia.
  - destruct (drop _ _) as [|a rest] eqn:E; [auto with fmtdb|]. destruct (_ =? 123); [auto with fmtdb|].
    eapply yields_bind; [apply yields_enter|intros _ _]. apply Hc. simpl in Hd. lia.
Qed.

Lemma yields_specs t l s : yields (shorter l) (parse_format_specs ct t l s).
Proof.
  unfold parse_format_specs. destruct l as [|c [|d l]]; [apply yields_ret; unfold shorter; simpl; lia|by apply yields_specs_loop|]. cbv zeta. by apply yields_specs_loop.
Qed.
End context_safe.
#[export] Hint Resolve yields_next yields_check yields_name yields_check_dynamic : fmtdb.

(** A handler that is safe, of which the parser then is. *)
Record handler_safe {S} (h : handler S) : Prop := {
  safe_text t : yields (fun _ => True) (on_text h t);
  safe_id : yields (fun _ => True) (on_arg_id h);
  safe_index i : yields (fun _ => True) (on_arg_index h i);
  safe_name n : yields (fun _ => True) (on_arg_name h n);
  safe_field i l : yields (fun _ => True) (on_replacement_field h i l);
  safe_specs i l : yields (fun r => (length r <= length l)%nat) (on_format_specs h i l) }.

Section parse_safe.
Context {S : Type} (h : handler S) (H : handler_safe h).

Lemma yields_replacement l : yields (fun r => (length r <= length l)%nat) (parse_replacement_field h l).
Proof.
  destruct l as [|c l']; [simpl; auto with fmtdb|]. unfold parse_replacement_field. cbv zeta.
  assert (Hs : forall id l2, (length l2 <= length l')%nat -> yields (fun r => (length r <= length (c :: l'))%nat)
    (let! l := on_format_specs h id l2 in
     match l with e :: rest => if e =? 125 then ret rest else report_error "unknown format specifier" | [] => report_error "unknown format specifier" end)).
  { intros id l2 H2. eapply yields_bind; [apply (safe_specs h H)|]. intros [|e rest] Hr; [auto with fmtdb|]. destruct (e =? 125); auto with fmtdb.
    apply yields_ret. simpl in *. lia. }
  destruct (c =? 125).
  { eapply yields_bind; [apply (safe_id h H)|]. intros id _. eapply yields_bind; [apply (safe_field h H)|]. intros _ _. apply yields_ret. simpl. lia. }
  destruct (c =? 123); [eapply yields_bind; [apply (safe_text h H)|]; intros _ _; apply yields_ret; simpl; lia|].
  destruct (c =? 58); [eapply yields_bind; [apply (safe_id h H)|]; intros id _; by apply Hs|].
  eapply yields_bind.
  { apply (yields_arg_id (on_arg_index h) (on_arg_name h) (c :: l')); [done|apply (safe_index h H)|apply (safe_name h H)]. }
  intros [id [|e rest]] Hr; [auto with fmtdb|]. unfold shorter in Hr. simpl in Hr.
  destruct (e =? 125); [eapply yields_bind; [apply (safe_field h H)|]; intros _ _; apply yields_ret; simpl; lia|].
  destruct (e =? 58); [apply Hs; lia|auto with fmtdb].
Qed.

Lemma yields_format_string fuel text l : (length l <= fuel)%nat -> yields (fun _ => True) (parse_format_string h fuel text l).
Proof.
  revert text l. induction fuel as [|fuel IH]; intros text [|c l'] Hf; [apply (safe_text h H)|simpl in Hf; lia|apply (safe_text h H)|].
  simpl in Hf. cbn [parse_format_string]. destruct (c =? 123).
  - eapply yields_bind; [apply (safe_text h H)|]. intros _ _. eapply yields_bind; [apply yields_replacement|]. intros r Hr. apply IH. cbv beta in Hr. lia.
  - destruct (c =? 125); [|apply IH; lia]. destruct l' as [|d rest]; [auto with fmtdb|]. destruct (d =? 125); [|auto with fmtdb].
    eapply yields_bind; [apply (safe_text h H)|]. intros _ _. apply IH. simpl in Hf. lia.
Qed.
End parse_safe.
