(* ===== verification/FmtArgs.v ===== *)
(** * fmt: packed arguments (fmt/bundled/base.h)

    [make_format_args] stores the values of the arguments in an array and their
    types in a descriptor, four bits each, when there are at most fifteen of
    them; otherwise values with types.  A value is a union: it is read as the
    member its type says, which is defined only for the member that was stored. *)

From S2P Require Import Prelude Machine FmtUtf8 FmtInt FmtParse.

Definition packed_arg_bits : Z := 4.
Definition max_packed_args : Z := 62 / packed_arg_bits.
Definition is_unpacked_bit : Z := Z.shiftl 1 63.
Definition has_named_args_bit : Z := Z.shiftl 1 62.

Fixpoint encode_types (types : list Z) : Z :=
  match types with
  | [] => 0
  | t :: types => Z.lor t (u64 (Z.shiftl (encode_types types) packed_arg_bits))
  end.
Definition make_descriptor (types : list Z) : Z :=
  if zlen types <=? max_packed_args then encode_types types else Z.lor is_unpacked_bit (zlen types).

(** [basic_format_args]: the array holds values, or arguments with their types. *)
Record format_args := mkformat_args { desc_ : Z; array : list fmt_arg }.
Definition make_format_args (args : list fmt_arg) : format_args := mkformat_args (make_descriptor (map arg_type args)) args.

Definition is_packed (a : format_args) : bool := Z.land (desc_ a) is_unpacked_bit =? 0.
Definition has_named_args (a : format_args) : bool := negb (Z.land (desc_ a) has_named_args_bit =? 0).
Definition packed_type (a : format_args) (index : Z) : Z :=
  Z.land (Z.shiftr (desc_ a) (index * packed_arg_bits)) (Z.shiftl 1 packed_arg_bits - 1).
Definition max_size (a : format_args) : Z :=
  to_signed 32 (u32 (if is_packed a then max_packed_args else Z.ldiff (desc_ a) is_unpacked_bit)).

(** [get]: [None] is an argument without type. *)
Definition get (a : format_args) (id : Z) : outcome (option fmt_arg) :=
  if negb (is_packed a) then
    if id <? max_size a then match array a !! Z.to_nat id with Some v => Ok (Some v) | None => Undef end else Ok None
  else if max_packed_args <=? u32 id then Ok None
  else
    let t := packed_type a id in
    if t =? 0 then Ok None
    else match array a !! Z.to_nat id with Some v => if arg_type v =? t then Ok (Some v) else Undef | None => Undef end.

(** [get_id]: there are no named arguments. *)
Definition get_id (a : format_args) (name : list Z) : outcome Z := if negb (has_named_args a) then Ok (-1) else Undef.

(** ** Descriptors *)
Lemma arg_type_range a : 1 <= arg_type a <= 15.
Proof. destruct a as [signed bits v| | | |]; unfold arg_type; [destruct (bits =? 32), signed|..]; vm_compute; split; congruence. Qed.

Lemma encode_types_bound types : Forall (fun t => 1 <= t <= 15) types -> zlen types <= 15 -> 0 <= encode_types types < 16 ^ zlen types.
Proof.
  induction 1 as [|t types Ht _ IH]; intros Hl; [simpl; vm_compute; split; congruence|]. rewrite zlen_cons in *. specialize (IH ltac:(lia)).
  cbn [encode_types]. pose proof (zlen_nonneg types). assert (16 ^ zlen types <= 16 ^ 14) by (apply Z.pow_le_mono_r; lia).
  unfold packed_arg_bits. rewrite Z.lor_comm. unfold u64. rewrite wrap_small by (rewrite Z.shiftl_mul_pow2 by lia; lia). rewrite lor_high by lia.
  rewrite Z.pow_add_r by lia. lia.
Qed.

Lemma encode_types_cons t types : 1 <= t <= 15 -> Forall (fun t => 1 <= t <= 15) types -> zlen types <= 14 ->
  encode_types (t :: types) = encode_types types * 16 + t.
Proof.
  intros Ht Hts Hl. pose proof (encode_types_bound types Hts ltac:(lia)) as Hb. cbn [encode_types].
  pose proof (zlen_nonneg types). assert (16 ^ zlen types <= 16 ^ 14) by (apply Z.pow_le_mono_r; lia).
  unfold packed_arg_bits. rewrite Z.lor_comm. unfold u64. rewrite wrap_small by (rewrite Z.shiftl_mul_pow2 by lia; lia). rewrite lor_high by lia. lia.
Qed.

Lemma decode_type types i : Forall (fun t => 1 <= t <= 15) types -> zlen types <= 15 ->
  Z.land (Z.shiftr (encode_types types) (Z.of_nat i * 4)) 15 = match types !! i with Some t => t | None => 0 end.
Proof.
  intros Hts. revert i. induction Hts as [|t types Ht Hts IH]; intros i Hl; [by rewrite Z.shiftr_0_l, Z.land_0_l|].
  rewrite zlen_cons in Hl. rewrite encode_types_cons by (done || lia). destruct i as [|i].
  - change (Z.of_nat 0 * 4) with 0. rewrite Z.shiftr_0_r. change 15 with (Z.ones 4). rewrite Z.land_ones by lia. cbn. change (2 ^ 4) with 16.
    rewrite Z.add_comm, Z.mod_add, Z.mod_small by lia. done.
  - change ((t :: types) !! S i) with (types !! i). rewrite <- (IH i ltac:(lia)). f_equal. replace (Z.of_nat (S i) * 4) with (4 + Z.of_nat i * 4) by lia.
    rewrite <- Z.shiftr_shiftr by lia. f_equal. rewrite Z.shiftr_div_pow2 by lia. change (2 ^ 4) with 16.
    rewrite Z.add_comm, Z.div_add, Z.div_small by lia. lia.
Qed.

Lemma packed_small d : 0 <= d < 2 ^ 63 -> Z.land d is_unpacked_bit = 0.
Proof.
  intros Hd. apply Z.bits_inj'. intros i Hi. rewrite Z.land_spec, Z.bits_0. unfold is_unpacked_bit. rewrite Z.shiftl_1_l.
  destruct (Z.eq_dec i 63) as [->|Hn]; [|by rewrite Z.pow2_bits_false, andb_false_r by lia].
  destruct (Z.eq_dec d 0) as [->|]; [by rewrite Z.bits_0|]. rewrite Z.bits_above_log2; [done|lia|]. apply Z.log2_lt_pow2; lia.
Qed.

Lemma unpacked_bits n : 0 <= n < 2 ^ 63 ->
  Z.land (Z.lor is_unpacked_bit n) is_unpacked_bit = is_unpacked_bit /\ Z.ldiff (Z.lor is_unpacked_bit n) is_unpacked_bit = n.
Proof.
  intros Hn. split.
  - rewrite Z.land_lor_distr_l, Z.land_diag, packed_small by lia. apply Z.lor_0_r.
  - apply Z.bits_inj'. intros i Hi. rewrite Z.ldiff_spec, Z.lor_spec. unfold is_unpacked_bit. rewrite Z.shiftl_1_l.
    destruct (Z.eq_dec i 63) as [->|H63].
    + rewrite Z.pow2_bits_true by lia. cbn [orb andb negb]. destruct (Z.eq_dec n 0) as [->|]; [by rewrite Z.bits_0|].
      symmetry. apply Z.bits_above_log2; [lia|]. apply Z.log2_lt_pow2; lia.
    + rewrite Z.pow2_bits_false by lia. simpl. by rewrite andb_true_r.
Qed.

(** An argument is found in the packed array as in the list of arguments: for
    every index, the descriptor gives the type of the value that was stored, so
    no other member of the union is read, nothing is read outside the array, and
    an index beyond the arguments gives none. *)
Theorem format_args_get_exact (args : list fmt_arg) (id : Z) :
  zlen args < 2 ^ 31 -> 0 <= id < 2 ^ 31 -> get (make_format_args args) id = Ok (args !! Z.to_nat id).
Proof.
  intros Hl Hi. assert (Hts : Forall (fun t => 1 <= t <= 15) (map arg_type args)) by (apply Forall_map, Forall_true, arg_type_range).
  assert (Hz : zlen (map arg_type args) = zlen args) by (unfold zlen; by rewrite length_map). pose proof (zlen_nonneg args).
  unfold get, is_packed, max_size, is_packed, packed_type, make_format_args, make_descriptor. cbn [desc_ array]. rewrite Hz.
  destruct (Z.leb_spec (zlen args) max_packed_args) as [Hm|Hm]; unfold max_packed_args in *; change (62 / packed_arg_bits) with 15 in *.
  - pose proof (encode_types_bound _ Hts ltac:(lia)) as Hb. rewrite Hz in Hb. assert (16 ^ zlen args <= 16 ^ 15) by (apply Z.pow_le_mono_r; lia).
    rewrite packed_small by lia. cbn. unfold u32. rewrite wrap_small by lia. destruct (Z.leb_spec 15 id).
    { rewrite lookup_ge_None_2; [done|]. unfold zlen in Hm. lia. }
    change (Z.shiftl 1 packed_arg_bits - 1) with 15. unfold packed_arg_bits.
    pose proof (decode_type (map arg_type args) (Z.to_nat id) Hts ltac:(lia)) as E. rewrite Z2Nat.id in E by lia. rewrite E, list_lookup_fmap.
    destruct (args !! Z.to_nat id) as [a|]; [|done]. cbn. pose proof (arg_type_range a). destruct (Z.eqb_spec (arg_type a) 0); [lia|]. by rewrite Z.eqb_refl.
  - destruct (unpacked_bits (zlen args) ltac:(lia)) as [-> ->]. change (is_unpacked_bit =? 0) with false. cbn [negb]. unfold u32. rewrite to_signed_wrap; [|lia|change (32 - 1) with 31; lia]. destruct (Z.ltb_spec id (zlen args)).
    + destruct (lookup_lt_is_Some_2 args (Z.to_nat id)) as [a ->]; [unfold zlen in *; lia|done].
    + rewrite lookup_ge_None_2; [done|]. unfold zlen in *. lia.
Qed.

Lemma format_args_get_exact_witness :
  get (make_format_args [IntArg true 32 7; BoolArg true]) 1 = Ok (Some (BoolArg true)) /\
  get (make_format_args (replicate 20 (BoolArg true))) 20 = Ok None.
Proof. split; [apply (format_args_get_exact [IntArg true 32 7; BoolArg true] 1)|apply (format_args_get_exact (replicate 20 (BoolArg true)) 20)]; vm_compute; (done || split; congruence). Defined.
