(* ===== verification/FmtFormat.v ===== *)
(** * fmt: formatting (fmt/bundled/base.h, format.h, format-inl.h)

    [fmt::format] parses the format string ([FmtParse]) with a handler that
    writes every argument where its field is.  Locales are an interface. *)

From S2P Require Import Prelude Machine FmtUtf8 FmtInt FmtEscape FmtParse.

(** ** Writing *)

(** Localized integers: nothing is written when the locale has no format. *)
Class Locale := { write_loc : bool -> Z -> Z -> format_specs -> option (list Z) }.

Definition fill (n : Z) (s : format_specs) : list Z := concat (replicate (Z.to_nat n) (fill_ s)).

(** [write_padded<Char, default_align>] for a text of the given display width. *)
Definition write_padded (default_right : bool) (s : format_specs) (text_width : Z) (text : list Z) : list Z :=
  let spec_width := u32 (width s) in
  let padding := if text_width <? spec_width then spec_width - text_width else 0 in
  let shift :=
    match align s with
    | align_none => if default_right then 0 else 31
    | align_left => 31
    | align_right => 0
    | align_center => 1
    | align_numeric => 0
    end in
  let left_padding := Z.shiftr padding shift in
  let right_padding := padding - left_padding in
  fill left_padding s ++ text ++ fill right_padding s.

(** [do_format_decimal] into a buffer of [size] characters. *)
Definition format_decimal_text (value size : Z) : outcome (list Z) :=
  match do_format_decimal value size (replicate (Z.to_nat size) 0) with
  | (Ok n, b) => Ok (drop (Z.to_nat n) b)
  | (Throw e, _) => Throw e
  | (Undef, _) => Undef
  end.

(** A prefix: characters in the lower bytes, their number in the highest one. *)
Definition make_prefix (negative : bool) (s : sign_t) : Z :=
  if negative then Z.lor 0x1000000 45
  else match s with sign_plus => Z.lor 0x1000000 43 | sign_space => Z.lor 0x1000000 32 | _ => 0 end.
Definition prefix_append (prefix value : Z) : Z :=
  u32 (Z.lor prefix (if negb (prefix =? 0) then Z.shiftl value 8 else value) + Z.shiftl (1 + (if 255 <? value then 1 else 0)) 24).
Fixpoint prefix_loop (fuel : nat) (p : Z) : list Z :=
  match fuel with
  | S fuel => if negb (p =? 0) then Z.land p 255 :: prefix_loop fuel (Z.shiftr p 8) else []
  | O => []
  end.
Definition prefix_chars (prefix : Z) : list Z := prefix_loop 3 (Z.land prefix 0xffffff).
Definition prefix_size (prefix : Z) : Z := Z.shiftr prefix 24.

Definition write_char (s : format_specs) (c : Z) : outcome (list Z) :=
  outcome_map (write_padded false s 1) (if type_ s =? pres_debug then write_escaped_char c else Ok [c]).

(** [size_padding]: size and number of zeros. *)
Definition size_padding (num_digits prefix : Z) (s : format_specs) : Z * Z :=
  let size := prefix_size prefix + num_digits in
  if bool_decide (align s = align_numeric) then
    if size <? width s then (width s, width s - size) else (size, 0)
  else if num_digits <? precision s then (prefix_size prefix + precision s, precision s - num_digits)
  else (size, 0).

(** [write_int] for an integer of [bits] bits. *)
Definition write_int (signed : bool) (bits v : Z) (s : format_specs) : outcome (list Z) :=
  let negative := signed && (v <? 0) in
  let prefix := make_prefix negative (sign s) in
  let abs_value := if negative then wrap bits (0 - wrap bits v) else wrap bits v in
  let hex_prefix c := if alt s then prefix_append prefix (Z.lor (Z.shiftl c 8) 48) else prefix in
  let finish prefix (digits : list Z) :=
    let num_digits := zlen digits in
    if (width s =? 0) && (precision s =? -1) then Ok (prefix_chars prefix ++ digits)
    else
      let '(size, padding) := size_padding num_digits prefix s in
      Ok (write_padded true s size (prefix_chars prefix ++ replicate (Z.to_nat padding) 48 ++ digits)) in
  let with_digits (o : outcome (list Z)) k := match o with Ok d => k d | Throw e => Throw e | Undef => Undef end in
  if type_ s =? pres_hex then
    with_digits (do_format_base2e 4 (Z.to_nat bits) (upper s) abs_value []) (finish (hex_prefix (if upper s then 88 else 120)))
  else if type_ s =? pres_oct then
    with_digits (do_format_base2e 3 (Z.to_nat bits) false abs_value [])
      (fun d => finish (if alt s && (precision s <=? zlen d) && negb (abs_value =? 0) then prefix_append prefix 48 else prefix) d)
  else if type_ s =? pres_bin then
    with_digits (do_format_base2e 1 (Z.to_nat bits) false abs_value []) (finish (hex_prefix (if upper s then 66 else 98)))
  else if type_ s =? pres_chr then write_char s (u8 abs_value)
  else with_digits (format_decimal_text abs_value bits) (finish prefix).

Section write.
Context {T : Locale}.

Definition write_integer (signed : bool) (bits v : Z) (s : format_specs) : outcome (list Z) :=
  match (if localized s then write_loc signed bits v s else None) with
  | Some text => Ok text
  | None => write_int signed bits v s
  end.

Definition write_string (text : list Z) (s : format_specs) : outcome (list Z) :=
  match (if (0 <=? precision s) && (precision s <? zlen text) then code_point_index text (precision s) else Ok (zlen text)) with
  | Ok size =>
      if type_ s =? pres_debug then
        outcome_map (fun e => write_padded false s (if width s =? 0 then 0 else zlen e) e) (write_escaped_string text)
      else
        let shown := take (Z.to_nat size) text in
        outcome_map (fun w => write_padded false s w shown) (if width s =? 0 then Ok 0 else compute_width shown)
  | Throw e => Throw e
  | Undef => Undef
  end.

Definition write_ptr (address : Z) (s : format_specs) : outcome (list Z) :=
  match do_format_base2e 4 64 false address [] with
  | Ok d => Ok (write_padded true s (zlen d + 2) ([48; 120] ++ d))
  | Throw e => Throw e
  | Undef => Undef
  end.

(** [check_char_specs]: whether a character is written as such. *)
Definition check_char_specs (s : format_specs) : outcome bool :=
  if negb (type_ s =? pres_none) && negb (type_ s =? pres_chr) && negb (type_ s =? pres_debug) then Ok false
  else if bool_decide (align s = align_numeric) || negb (bool_decide (sign s = sign_none)) || alt s
  then Throw (runtime_error "invalid format specifier for char") else Ok true.

(** [arg_formatter]. *)
Definition write_arg (a : fmt_arg) (s : format_specs) : outcome (list Z) :=
  match a with
  | IntArg signed bits v => write_integer signed bits v s
  | BoolArg b =>
      if negb (type_ s =? pres_none) && negb (type_ s =? pres_string) then write_integer true 32 (if b then 1 else 0) s
      else let text := chars (if b then "true" else "false") in Ok (write_padded false s (zlen text) text)
  | CharArg c =>
      match check_char_specs s with
      | Ok true => write_char s c
      | Ok false => write_integer false 32 c s
      | Throw e => Throw e
      | Undef => Undef
      end
  | CStrArg address text =>
      if type_ s =? pres_pointer then write_ptr address s
      else match text with Some t => write_string t s | None => Throw (runtime_error "string pointer is null") end
  | StrArg t => write_string t s
  end.

(** [default_arg_formatter]. *)
Definition write_default (a : fmt_arg) : outcome (list Z) :=
  match a with
  | IntArg signed bits v =>
      let negative := signed && (v <? 0) in
      let abs_value := if negative then wrap bits (Z.lnot (wrap bits v) + 1) else wrap bits v in
      match count_digits bits abs_value with
      | Ok num_digits =>
          match format_decimal_text abs_value num_digits with
          | Ok d => Ok ((if negative then [45] else []) ++ d)
          | Throw e => Throw e
          | Undef => Undef
          end
      | Throw e => Throw e
      | Undef => Undef
      end
  | BoolArg b => Ok (chars (if b then "true" else "false"))
  | CharArg c => Ok [c]
  | CStrArg _ (Some t) => Ok t
  | CStrArg _ None => Throw (runtime_error "string pointer is null")
  | StrArg t => Ok t
  end.

(** ** The handler *)

Context (args : list fmt_arg).

Definition get_arg (id : Z) : M fmt_state fmt_arg :=
  match args !! Z.to_nat id with Some a => ret a | None => report_error "argument not found" end.

Definition get_dynamic_spec (r : arg_ref) : M fmt_state Z :=
  match r with
  | RefIndex i =>
      let! a := get_arg i in
      match a with
      | IntArg signed bits v =>
          let value := if signed && (v <? 0) then 2 ^ 64 - 1 else v in
          if INT_MAX <? value then report_error "width/precision is out of range" else ret value
      | _ => report_error "width/precision is not integer"
      end
  | RefName _ => report_error "argument not found"
  end.
Definition handle_dynamic_spec (r : option arg_ref) (value : Z) : M fmt_state Z :=
  match r with Some r => get_dynamic_spec r | None => ret value end.

Definition write_text (text : list Z) : M fmt_state unit := modify (fun s => mkfmt_state (next_arg_id_ s) (out s ++ text)).
Definition format_field (id : Z) : M fmt_state unit :=
  let! a := get_arg id in
  let! text := of_outcome (write_default a) in write_text text.
Definition format_index (id : Z) : M fmt_state Z := do! check_arg_id None id in ret id.
Definition format_name (name : list Z) : M fmt_state Z := do! check_arg_name name in report_error "argument not found".

Definition format_with_specs (id : Z) (l : list Z) : M fmt_state (list Z) :=
  let! a := get_arg id in
  let! '(s, l) := parse_format_specs None (arg_type a) l format_specs_new in
  let! w := handle_dynamic_spec (width_ref s) (width s) in
  let! p := handle_dynamic_spec (precision_ref s) (precision s) in
  let! text := of_outcome (write_arg a (set_precision p (set_width w s))) in
  do! write_text text in
  ret l.

(** [format_handler]. *)
Definition format_handler : handler fmt_state :=
  mkhandler write_text (next_arg_id None) format_index format_name (fun id _ => format_field id) format_with_specs.

(** [vformat_to] with its fast path, into an empty buffer. *)
Definition vformat_to (fmt : list Z) : M fmt_state unit :=
  if bool_decide (fmt = [123; 125]) then format_field 0 else parse_format_string format_handler (length fmt) [] fmt.
Definition format (fmt : list Z) : outcome (list Z) :=
  match vformat_to fmt (mkfmt_state 0 []) with
  | (Ok _, s) => Ok (out s)
  | (Throw e, _) => Throw e
  | (Undef, _) => Undef
  end.
End write.

(** ** Integers *)
Lemma format_decimal_text_ok v size :
  0 <= v -> zlen (digits v) <= size < 2 ^ 32 -> format_decimal_text v size = Ok (digits v).
Proof.
  intros Hv Hs. pose proof (digits_pos v Hv). unfold format_decimal_text, do_format_decimal, u32. rewrite wrap_small by lia.
  rewrite format_decimal_loop_ok; [|done|lia|rewrite zlen_replicate; lia|lia]. f_equal. unfold ends_at.
  rewrite drop_app_ge by (rewrite length_take; lia). rewrite length_take, length_replicate. unfold zlen in *.
  replace (Z.to_nat (size - Z.of_nat (length (digits v))) - _)%nat with O by lia.
  rewrite drop_0, drop_ge by (rewrite length_replicate; lia). by rewrite app_nil_r.
Qed.

(** Arguments as the language makes them. *)
Definition arg_ok (a : fmt_arg) : Prop :=
  match a with
  | IntArg signed bits v => int_range signed bits v
  | BoolArg _ => True
  | CharArg c => byte_ok c
  | CStrArg address text => 0 <= address < 2 ^ 64 /\ match text with Some t => bytes_ok t | None => True end
  | StrArg t => bytes_ok t
  end.

Lemma abs_value_ok signed bits v :
  int_range signed bits v ->
  let abs := if signed && (v <? 0) then wrap bits (0 - wrap bits v) else wrap bits v in
  abs = Z.abs v /\ abs < 2 ^ bits /\ 2 ^ bits <= 2 ^ 64 /\ (signed && (v <? 0) = (v <? 0)).
Proof.
  intros [Hb Hv]. assert (2 ^ bits <= 2 ^ 64) by (apply Z.pow_le_mono_r; lia).
  assert (E2 : 2 ^ bits = 2 * 2 ^ (bits - 1)) by (rewrite <- Z.pow_succ_r by lia; f_equal; lia).
  assert (0 < 2 ^ (bits - 1)) by (apply Z.pow_pos_nonneg; lia).
  destruct (Z.ltb_spec v 0).
  - destruct signed; [|lia]. simpl. unfold wrap. rewrite Zminus_mod_idemp_r. replace (0 - v) with (- v) by lia. rewrite Z.mod_small by lia. lia.
  - rewrite andb_false_r, (wrap_small bits v) by (destruct signed; lia). destruct signed; lia.
Qed.

Lemma digits_le_bits bits v : bits = 32 \/ bits = 64 -> 0 <= v < 2 ^ bits -> zlen (digits v) <= 20.
Proof.
  intros Hb Hv. assert (2 ^ bits <= 2 ^ 64) by (apply Z.pow_le_mono_r; lia). apply digits_length_le; [lia|].
  split; [lia|]. apply Z.lt_trans with (2 ^ 64); [lia|]. reflexivity.
Qed.

Lemma write_default_int signed bits v : int_range signed bits v -> write_default (IntArg signed bits v) = Ok (decimal v).
Proof.
  intros Hr. pose proof (abs_value_ok signed bits v Hr) as (Ha & Hl & H64 & Hn). destruct Hr as [Hb _]. unfold write_default. rewrite Hn in *.
  assert (Habs : (if v <? 0 then wrap bits (Z.lnot (wrap bits v) + 1) else wrap bits v) = Z.abs v).
  { rewrite <- Ha. destruct (v <? 0); [|done]. f_equal. unfold Z.lnot. lia. }
  rewrite Habs. assert (0 <= Z.abs v < 2 ^ bits) by lia. pose proof (digits_le_bits bits (Z.abs v) Hb ltac:(lia)). pose proof (digits_pos (Z.abs v) ltac:(lia)).
  assert (Hc : count_digits bits (Z.abs v) = Ok (zlen (digits (Z.abs v))))
    by (unfold count_digits; destruct Hb as [->| ->]; simpl; [by apply do_count_digits32_ok|by apply do_count_digits64_ok]).
  rewrite Hc. rewrite format_decimal_text_ok by lia. unfold decimal.
  destruct (Z.ltb_spec v 0); [by rewrite Z.abs_neq by lia|by rewrite Z.abs_eq by lia].
Qed.

(** ** Every format string *)
Lemma write_char_ok s c : byte_ok c -> exists text, write_char s c = Ok text.
Proof.
  intros Hc. unfold write_char. destruct (_ =? _); [|by eexists]. destruct (write_escaped_char_ok c Hc) as (t & -> & _). by eexists.
Qed.

Lemma write_string_ok text s : bytes_ok text -> exists t, write_string text s = Ok t.
Proof.
  intros Hok. unfold write_string.
  assert (Hi : exists k, (if (0 <=? precision s) && (precision s <? zlen text) then code_point_index text (precision s) else Ok (zlen text)) = Ok k).
  { destruct (_ && _) eqn:E; [|by eexists]. bool_to_prop. destruct (code_point_index_ok text (precision s) Hok) as (k & -> & _); [lia|]. by eexists. }
  destruct Hi as [k ->]. destruct (_ =? pres_debug).
  - destruct (write_escaped_string_ok text Hok) as (t & -> & _). by eexists.
  - cbv zeta. destruct (width s =? 0); [by eexists|]. destruct (compute_width_ok (take (Z.to_nat k) text)) as [w ->]; [by apply Forall_take|]. by eexists.
Qed.

Lemma write_int_defined signed bits v s : int_range signed bits v -> exists text, write_int signed bits v s = Ok text.
Proof.
  intros Hr. pose proof (abs_value_ok signed bits v Hr) as (Ha & Hl & H64 & Hn). destruct Hr as [Hb _]. unfold write_int. cbv zeta.
  set (abs := if signed && (v <? 0) then _ else _) in *. assert (0 <= abs) by lia.
  assert (Hbase : forall base up, 1 <= base -> exists d, do_format_base2e base (Z.to_nat bits) up abs [] = Ok d).
  { intros base up Hp. apply base2e_defined; [done|lia|]. split; [done|]. apply Z.lt_le_trans with (2 ^ bits); [done|].
    apply Z.pow_le_mono_r; [lia|]. rewrite Z2Nat.id by lia. nia. }
  pose proof (digits_le_bits bits abs Hb ltac:(lia)).
  destruct (type_ s =? pres_hex); [destruct (Hbase 4 (upper s) ltac:(lia)) as [d ->]|
  destruct (type_ s =? pres_oct); [destruct (Hbase 3 false ltac:(lia)) as [d ->]|
  destruct (type_ s =? pres_bin); [destruct (Hbase 1 false ltac:(lia)) as [d ->]|
  destruct (type_ s =? pres_chr); [apply write_char_ok; unfold byte_ok; apply Z.mod_pos_bound; reflexivity|rewrite format_decimal_text_ok by lia]]]].
  all: destruct (_ && (precision s =? -1)); [by eexists|]; destruct (size_padding _ _ _); by eexists.
Qed.

Section safe.
Context {T : Locale}.

(** Writing throws for a null pointer, and for a character with specifications of a number. *)
Lemma write_arg_cases a s : arg_ok a ->
  (exists text, write_arg a s = Ok text) \/
  (exists address, a = CStrArg address None /\ write_arg a s = Throw (runtime_error "string pointer is null")) \/
  (exists c w, a = CharArg c /\ check_char_specs s = Throw (runtime_error w) /\ write_arg a s = Throw (runtime_error w)).
Proof.
  intros Ha. assert (Hi : forall signed bits v, int_range signed bits v -> exists text, write_integer signed bits v s = Ok text).
  { intros. unfold write_integer. destruct (if localized s then _ else _); [by eexists|by apply write_int_defined]. }
  destruct a as [signed bits v|b|c|address text|t]; simpl.
  - left. by apply Hi.
  - left. destruct (_ && _); [|by eexists]. apply Hi. split; [by left|]. destruct b; lia.
  - unfold check_char_specs. simpl in Ha. destruct (_ && _); [left; apply Hi; split; [by left|unfold byte_ok in Ha; lia]|].
    destruct (_ || _); [right; right; by eexists _, _|left; by apply write_char_ok].
  - destruct Ha as [Ha Ht]. destruct (_ =? _).
    + left. unfold write_ptr. destruct (base2e_defined 4 64 false address [] ltac:(lia) ltac:(lia)) as [d ->]; [|by eexists].
      split; [lia|]. apply Z.lt_le_trans with (2 ^ 64); [lia|]. apply Z.pow_le_mono_r; lia.
    + destruct text; [left; by apply write_string_ok|right; left; by eexists].
  - left. by apply write_string_ok.
Qed.
Lemma write_arg_safe a s : arg_ok a -> (exists text, write_arg a s = Ok text) \/ exists w, write_arg a s = Throw (runtime_error w).
Proof. intros Ha. destruct (write_arg_cases a s Ha) as [?|[(? & _ & ?)|(? & ? & _ & _ & ?)]]; eauto. Qed.

Lemma write_default_safe a : arg_ok a -> (exists text, write_default a = Ok text) \/ exists w, write_default a = Throw (runtime_error w).
Proof.
  intros Ha. destruct a as [signed bits v|b|c|address [t|]|t]; [left; eexists; by apply write_default_int|..]; simpl; eauto.
Qed.

Context (args : list fmt_arg) (Hargs : Forall arg_ok args).

Lemma yields_get_arg id : yields arg_ok (get_arg args id).
Proof.
  unfold get_arg. destruct (args !! _) eqn:E; [|auto with fmtdb]. apply yields_ret. rewrite Forall_lookup in Hargs. eauto.
Qed.
Lemma yields_dynamic_value r v : yields (fun _ => True) (handle_dynamic_spec args r v).
Proof.
  destruct r as [[i|n]|]; simpl; auto with fmtdb. eapply yields_bind; [apply yields_get_arg|]. intros [] _; auto with fmtdb. cbv zeta.
  destruct (_ <? _); auto with fmtdb.
Qed.
Lemma yields_text text : yields (fun _ => True) (write_text text).
Proof. by intros s. Qed.

Lemma yields_field id : yields (fun _ => True) (format_field args id).
Proof.
  eapply yields_bind; [apply yields_get_arg|]. intros a Ha. apply (yields_bind (fun _ => True)); [|intros; apply yields_text].
  apply yields_outcome. destruct (write_default_safe a Ha) as [[t ->]|[w ->]]; eauto.
Qed.

Lemma yields_on_specs id l : yields (fun r => (length r <= length l)%nat) (format_with_specs args id l).
Proof.
  eapply yields_bind; [apply yields_get_arg|]. intros a Ha. eapply yields_bind; [apply yields_specs|]. intros [s r] Hr.
  eapply yields_bind; [apply yields_dynamic_value|]. intros w _. eapply yields_bind; [apply yields_dynamic_value|]. intros p _.
  apply (yields_bind (fun _ => True)); [|intros; eapply yields_bind; [apply yields_text|]; intros; by apply yields_ret].
  apply yields_outcome. destruct (write_arg_safe a (set_precision p (set_width w s)) Ha) as [[t ->]|[x ->]]; eauto.
Qed.

Lemma format_handler_safe : handler_safe (format_handler args).
Proof.
  split; cbn; [apply yields_text|apply yields_next|..|intros; apply yields_field|apply yields_on_specs];
  intros x; (eapply yields_bind; [eauto with fmtdb|intros; auto with fmtdb]).
Qed.
End safe.

(** C17: formatting is safe for every format string: whatever the string and the
    arguments, [format] returns a text or throws a [format_error]; no parse reads
    beyond the string, no digit is written outside its buffer, and parsing ends. *)
Theorem fmt_format_safe {T : Locale} (args : list fmt_arg) (fmt : list Z) :
  Forall arg_ok args -> (exists text, format args fmt = Ok text) \/ (exists w, format args fmt = Throw (runtime_error w)).
Proof.
  intros Ha. assert (Hy : yields (fun _ => True) (vformat_to args fmt)).
  { unfold vformat_to. case_bool_decide; [by apply yields_field|by apply yields_format_string; [apply format_handler_safe|]]. }
  specialize (Hy (mkfmt_state 0 [])). unfold format. destruct (vformat_to _ _ _) as [[[]|e|] s]; [by left; eexists|right|done].
  destruct Hy as [w ->]. by eexists.
Qed.

(** ** Texts with fields *)

(** Text, or a field for the next argument. *)
Inductive piece := Text (t : list Z) | Field.

(** Braces of a text are doubled. *)
Definition escape_char (c : Z) : list Z := if (c =? 123) || (c =? 125) then [c; c] else [c].
Definition escape (t : list Z) : list Z := concat (map escape_char t).
Definition print_piece (p : piece) : list Z := match p with Text t => escape t | Field => [123; 125] end.
Definition print_pieces (ps : list piece) : list Z := concat (map print_piece ps).

(** The pieces with the texts of the arguments in their places; [None] when they do not suffice. *)
Fixpoint fill_in (ps : list piece) (texts : list (list Z)) : option (list Z) :=
  match ps, texts with
  | [], _ => Some []
  | Text t :: ps, _ => (fun r => t ++ r) <$> fill_in ps texts
  | Field :: ps, x :: texts => (fun r => x ++ r) <$> fill_in ps texts
  | Field :: _, [] => None
  end.

Section fields.
Context {T : Locale} (args : list fmt_arg).

(** Parsing a text moves it, with what was pending, to the output or keeps it pending. *)
Lemma parse_text t fuel text l n o :
  (length (escape t ++ l) <= fuel)%nat ->
  exists fuel' text' o', (length l <= fuel')%nat /\ o' ++ text' = o ++ text ++ t /\
    parse_format_string (format_handler args) fuel text (escape t ++ l) (mkfmt_state n o) = parse_format_string (format_handler args) fuel' text' l (mkfmt_state n o').
Proof.
  revert fuel text o. induction t as [|c t IH]; intros fuel text o Hf.
  { exists fuel, text, o. split_and!; [done|by rewrite app_nil_r|done]. }
  unfold escape in *. cbn [map concat] in *. rewrite <- app_assoc in *. set (r := concat (map escape_char t) ++ l) in *. unfold escape_char in *.
  destruct (Z.eqb_spec c 123) as [->|H1]; [|destruct (Z.eqb_spec c 125) as [->|H2]]; simpl in Hf.
  - destruct fuel as [|fuel]; [lia|]. destruct (IH fuel [] ((o ++ text) ++ [123]) ltac:(lia)) as (f & x & o' & Hl & Ho & E).
    exists f, x, o'. split_and!; [done|rewrite Ho; by rewrite <- !app_assoc|]. rewrite <- E. reflexivity.
  - destruct fuel as [|fuel]; [lia|]. destruct (IH fuel [] (o ++ text ++ [125]) ltac:(lia)) as (f & x & o' & Hl & Ho & E).
    exists f, x, o'. split_and!; [done|rewrite Ho; by rewrite <- !app_assoc|]. rewrite <- E. reflexivity.
  - destruct fuel as [|fuel]; [lia|]. destruct (IH fuel (text ++ [c]) o ltac:(lia)) as (f & x & o' & Hl & Ho & E).
    exists f, x, o'. split_and!; [done|rewrite Ho; by rewrite <- !app_assoc|]. rewrite <- E. cbn [orb app parse_format_string].
    by rewrite (proj2 (Z.eqb_neq c 123)), (proj2 (Z.eqb_neq c 125)).
Qed.

Lemma parse_field_default l n o : 0 <= n ->
  parse_replacement_field (format_handler args) (125 :: l) (mkfmt_state n o) =
    match args !! Z.to_nat n with
    | Some a =>
        match write_default a with
        | Ok t => (Ok l, mkfmt_state (n + 1) (o ++ t))
        | Throw e => (Throw e, mkfmt_state (n + 1) o)
        | Undef => (Undef, mkfmt_state (n + 1) o)
        end
    | None => (Throw (runtime_error "argument not found"), mkfmt_state (n + 1) o)
    end.
Proof.
  intros Hn. unfold parse_replacement_field, format_handler, next_arg_id, do_check_arg_id, format_field, get_arg, bind, gets, set_next, modify, ret.
  cbn. rewrite (proj2 (Z.ltb_ge n 0)) by lia. destruct (args !! _) as [a|]; cbn; [|done]. destruct (write_default a); reflexivity.
Qed.

Lemma parse_pieces ps fuel text n o :
  (length (print_pieces ps) <= fuel)%nat -> 0 <= n ->
  forall texts, Forall2 (fun a t => write_default a = Ok t) (drop (Z.to_nat n) args) texts ->
  match fill_in ps texts with
  | Some r => exists n', parse_format_string (format_handler args) fuel text (print_pieces ps) (mkfmt_state n o) = (Ok tt, mkfmt_state n' (o ++ text ++ r))
  | None => exists s, parse_format_string (format_handler args) fuel text (print_pieces ps) (mkfmt_state n o) = (Throw (runtime_error "argument not found"), s)
  end.
Proof.
  revert fuel text n o. induction ps as [|[t|] ps IH]; intros fuel text n o Hf Hn texts Ht.
  - exists n. destruct fuel; simpl; by rewrite app_nil_r.
  - unfold print_pieces in *. cbn [map concat print_piece fill_in] in *.
    destruct (parse_text t fuel text (concat (map print_piece ps)) n o Hf) as (f & x & o' & Hl & Ho & E). rewrite E.
    specialize (IH f x n o' Hl Hn texts Ht). destruct (fill_in ps texts) as [r|]; simpl; [|done].
    destruct IH as [n' ->]. exists n'. do 2 f_equal. rewrite app_assoc, Ho. by rewrite <- !app_assoc.
  - unfold print_pieces in *. cbn [map concat print_piece] in *. destruct fuel as [|fuel]; [simpl in Hf; lia|].
    cbn [app parse_format_string]. rewrite Z.eqb_refl. unfold bind. cbn [format_handler on_text].
    change (write_text text (mkfmt_state n o)) with (Ok tt : outcome unit, mkfmt_state n (o ++ text)). cbn beta iota. rewrite parse_field_default by done.
    destruct (drop (Z.to_nat n) args) as [|a rest] eqn:Ed; inversion Ht as [|? x ? texts' Ha Ht' E1 E2]; subst.
    + cbn [fill_in]. assert (args !! Z.to_nat n = None) as -> by (apply lookup_ge_None; apply (f_equal length) in Ed; rewrite length_drop in Ed; simpl in Ed; lia).
      eexists. reflexivity.
    + assert (args !! Z.to_nat n = Some a) as -> by (rewrite <- (take_drop (Z.to_nat n) args), Ed; apply list_lookup_middle;
        rewrite length_take; apply (f_equal length) in Ed; rewrite length_drop in Ed; simpl in Ed; lia).
      rewrite Ha. cbn [fill_in].
      assert (Hd : drop (Z.to_nat (n + 1)) args = rest).
      { replace (Z.to_nat (n + 1)) with (Z.to_nat n + 1)%nat by lia. by rewrite <- drop_drop, Ed. }
      specialize (IH fuel [] (n + 1) ((o ++ text) ++ x) ltac:(simpl in Hf; lia) ltac:(lia) texts' ltac:(by rewrite Hd)).
      destruct (fill_in ps texts') as [r|]; simpl; [|done]. destruct IH as [n' ->]. exists n'. do 2 f_equal. by rewrite <- !app_assoc.
Qed.
End fields.

(** With the fast path. *)
Lemma format_pieces {T : Locale} (args : list fmt_arg) (texts : list (list Z)) (ps : list piece) :
  Forall2 (fun a t => write_default a = Ok t) args texts ->
  format args (print_pieces ps) =
    match fill_in ps texts with Some r => Ok r | None => Throw (runtime_error "argument not found") end.
Proof.
  intros Hd. unfold format, vformat_to. pose proof (parse_pieces args ps (length (print_pieces ps)) [] 0 [] ltac:(lia) ltac:(lia) texts Hd) as H.
  case_bool_decide as E.
  - rewrite E in H. cbn [length parse_format_string] in H. unfold format_field, get_arg, bind.
    cbn in H. destruct args as [|a args']; simpl in *.
    + inversion Hd; subst. destruct (fill_in ps []) as [r|]; [by destruct H as [? [=]]|done].
    + inversion Hd as [|? x ? texts' Hx Hd']; subst. unfold format_field, get_arg, bind, ret, of_outcome in H. simpl in H. rewrite Hx in *. simpl in *.
      destruct (fill_in ps (x :: texts')) as [r|]; [|by destruct H as [? [=]]]. destruct H as [? H]. unfold write_text, modify in H.
      simpl in H. rewrite app_nil_r in H. by injection H as _ ->.
  - destruct (fill_in ps texts) as [r|]; [by destruct H as [? ->]|by destruct H as [? ->]].
Qed.

(** C16: [fmt::format] puts the arguments in the places of the fields: for every
    sequence of texts, with their braces doubled, and fields, the result is the
    texts with the default texts of the arguments between them, integers in
    decimal; surplus arguments are ignored, and with too few [format_error] is
    thrown. *)
Theorem fmt_format_exact {T : Locale} (args : list fmt_arg) (texts : list (list Z)) (ps : list piece) :
  Forall2 (fun a t => match a with IntArg signed bits v => int_range signed bits v /\ t = decimal v | _ => write_default a = Ok t end) args texts ->
  format args (print_pieces ps) =
    match fill_in ps texts with Some r => Ok r | None => Throw (runtime_error "argument not found") end.
Proof.
  intros Ha. apply format_pieces. eapply Forall2_impl; [exact Ha|]. intros [signed bits v|b|c|p t|t] x; [|done..]. intros [Hr ->]. by apply write_default_int.
Qed.

(** ** Examples *)

(** The classic locale, which does not group digits. *)
#[local] Instance classic : Locale := { write_loc _ _ _ _ := None }.

Lemma fmt_format_safe_witness :
  (exists text, format [IntArg true 32 (-7)] (chars "{:>4}|") = Ok text) \/ (exists w, format [IntArg true 32 (-7)] (chars "{:>4}|") = Throw (runtime_error w)).
Proof. apply fmt_format_safe. constructor; [|done]. split; [by left|lia]. Defined.

Lemma fmt_format_exact_witness :
  format [IntArg true 32 (-7); StrArg (chars "ok")] (chars "{{x}} = {}, {}") = Ok (chars "{x} = -7, ok").
Proof.
  change (chars "{{x}} = {}, {}") with (print_pieces [Text (chars "{x} = "); Field; Text (chars ", "); Field]).
  rewrite (fmt_format_exact [IntArg true 32 (-7); StrArg (chars "ok")] [chars "-7"; chars "ok"]); [reflexivity|].
  repeat constructor; lia.
Defined.

(** Specifications of the common kinds, and errors. *)
Example format_specs_examples :
  format [IntArg true 64 (-255)] (chars "{0:#x} {0:+d} {0:08} {0:<6}|") = Ok (chars "-0xff -255 -0000255 -255  |") /\
  format [StrArg (chars "abc"); IntArg true 32 7] (chars "[{:*^{}}]") = Ok (chars "[**abc**]") /\
  format [IntArg true 32 1] (chars "{} {0}") = Throw (runtime_error "cannot switch from automatic to manual argument indexing") /\
  format [StrArg (chars "abc")] (chars "{:x}") = Throw (runtime_error "invalid format specifier") /\
  format [] (chars "}") = Throw (runtime_error "unmatched '}' in format string").
Proof. repeat split; vm_compute; reflexivity. Qed.
