(* ===== verification/FmtGroup.v ===== *)
(** * fmt: digit grouping (digit_grouping, loc_writer and format_facet of format.h and format-inl.h)

    Numbers written with the option [L] get the separators of the locale.  The
    punctuation of the locale is a record of what its facet returns. *)

From stdpp Require Import sorting.
From S2P Require Import Prelude Machine FmtUtf8 FmtInt FmtDragon FmtEscape FmtParse FmtFormat.
Local Open Scope outcome_scope.

(** ** The punctuation of a locale *)

(** [std::numpunct]. *)
Record numpunct := mknumpunct { grouping : list Z; thousands_sep : Z; decimal_point : Z }.

(** The largest [char]. *)
Definition max_char : Z := 127.

(** ** digit_grouping *)

Record digit_grouping := mkgrouping { grouping_ : list Z; thousands_sep_ : list Z }.
(** The rest of the grouping from the iterator on, and the position. *)
Record next_state := mknext { group : list Z; pos : Z }.

Definition thousands_sep_impl (np : numpunct) : list Z * Z :=
  (grouping np, match grouping np with [] => 0 | _ => thousands_sep np end).

(** The constructor that asks the locale. *)
Definition digit_grouping_of (np : numpunct) (localized : bool) : digit_grouping :=
  if localized then
    let '(g, sep) := thousands_sep_impl np in mkgrouping g (if negb (sep =? 0) then [sep] else [])
  else mkgrouping [] [].

Section grouping.
Context (g : digit_grouping).

Definition initial_state : next_state := mknext (grouping_ g) 0.
Definition has_separator : bool := negb (bool_decide (thousands_sep_ g = [])).

(** A sum that leaves [int] is undefined. *)
Definition advance (p c : Z) (rest : list Z) : outcome (Z * next_state) :=
  if p + c <=? max_int then Ok (p + c, mknext rest (p + c)) else Undef.

Definition next (st : next_state) : outcome (Z * next_state) :=
  if bool_decide (thousands_sep_ g = []) then Ok (max_int, st)
  else
    match group st with
    | [] => match last (grouping_ g) with Some b => advance (pos st) b [] | None => Undef end
    | c :: rest => if (c <=? 0) || (c =? max_char) then Ok (max_int, st) else advance (pos st) c rest
    end.

(** Every round moves the position by at least one. *)
Fixpoint count_loop (fuel : nat) (st : next_state) (num_digits count : Z) : outcome Z :=
  let? '(i, st) := next st in
  if i <? num_digits then match fuel with O => Undef | S fuel => count_loop fuel st num_digits (count + 1) end
  else Ok count.
Definition count_separators (num_digits : Z) : outcome Z := count_loop (Z.to_nat num_digits) initial_state num_digits 0.

Fixpoint separators_loop (fuel : nat) (st : next_state) (num_digits : Z) (separators : list Z) : outcome (list Z) :=
  let? '(i, st) := next st in
  if i =? 0 then Ok separators
  else if num_digits <=? i then Ok separators
  else match fuel with O => Undef | S fuel => separators_loop fuel st num_digits (separators ++ [i]) end.

Fixpoint apply_loop (separators : list Z) (num_digits i sep_index : Z) (digits : list Z) : outcome (list Z) :=
  match digits with
  | [] => Ok []
  | d :: digits =>
      let? p := table_at separators sep_index in
      if num_digits - i =? p then outcome_map (fun t => thousands_sep_ g ++ d :: t) (apply_loop separators num_digits (i + 1) (sep_index - 1) digits)
      else outcome_map (cons d) (apply_loop separators num_digits (i + 1) sep_index digits)
  end.

Definition apply (digits : list Z) : outcome (list Z) :=
  let num_digits := zlen digits in
  let? separators := separators_loop (length digits) initial_state num_digits [0] in
  apply_loop separators num_digits 0 (zlen separators - 1) digits.
End grouping.

(** ** Integers with digit grouping *)

(** [write_int] with a grouping, for a value of 64 bits. *)
Definition write_int_grouped (value prefix : Z) (s : format_specs) (g : digit_grouping) : outcome (list Z) :=
  let finish prefix (digits : list Z) :=
    let num_digits := zlen digits in
    let? n := count_separators g num_digits in
    let size := (if negb (prefix =? 0) then prefix_size prefix else 0) + num_digits + n in
    let? text := apply g digits in
    Ok (write_padded true s size (prefix_chars prefix ++ text)) in
  let hex_prefix c := if alt s then prefix_append prefix (Z.lor (Z.shiftl c 8) 48) else prefix in
  if (type_ s =? pres_none) || (type_ s =? pres_dec) then
    let? num_digits := count_digits 64 value in
    let? d := format_decimal_text value num_digits in finish prefix d
  else if type_ s =? pres_hex then
    let? d := do_format_base2e 4 64 (upper s) value [] in finish (hex_prefix (if upper s then 88 else 120)) d
  else if type_ s =? pres_oct then
    let? d := do_format_base2e 3 64 false value [] in
    finish (if alt s && (precision s <=? zlen d) && negb (value =? 0) then prefix_append prefix 48 else prefix) d
  else if type_ s =? pres_bin then
    let? d := do_format_base2e 1 64 false value [] in finish (hex_prefix (if upper s then 66 else 98)) d
  else if type_ s =? pres_chr then write_char s (u8 value)
  else Undef.

Record format_facet := mkfacet { separator_ : list Z; facet_grouping_ : list Z }.
(** The constructor that takes a locale. *)
Definition format_facet_of (np : numpunct) : format_facet :=
  mkfacet (match grouping np with [] => [] | _ => [thousands_sep np] end) (grouping np).

(** [loc_writer] for an integer. *)
Definition loc_writer (f : format_facet) (signed : bool) (bits v : Z) (s : format_specs) : outcome (list Z) :=
  let negative := signed && (v <? 0) in
  let prefix := make_prefix negative (sign s) in
  let abs_value := if negative then wrap bits (0 - wrap bits v) else wrap bits v in
  write_int_grouped abs_value prefix s (mkgrouping (facet_grouping_ f) (separator_ f)).

(** ** Where the separators are *)

(** A size that ends the grouping. *)
Definition stops (c : Z) : bool := (c <=? 0) || (c =? max_char).
(** The sizes of the groups to the left of the first: the last one is repeated. *)
Definition next_groups (gs : list Z) : list Z := match gs with [] => [] | [c] => [c] | _ :: gs => gs end.

(** The digits split into groups from the right. *)
Fixpoint split_groups (fuel : nat) (gs ds : list Z) : list (list Z) :=
  match fuel, gs with
  | S fuel, c :: _ =>
      if stops c || (zlen ds <=? c) then [ds]
      else let n := (length ds - Z.to_nat c)%nat in split_groups fuel (next_groups gs) (take n ds) ++ [drop n ds]
  | _, _ => [ds]
  end.
Fixpoint join (sep : list Z) (ls : list (list Z)) : list Z :=
  match ls with [] => [] | [l] => l | l :: ls => l ++ sep ++ join sep ls end.

(** How many digits are to the right of each separator, from the position [p] on. *)
Fixpoint positions (fuel : nat) (gs : list Z) (p n : Z) : list Z :=
  match fuel, gs with
  | S fuel, c :: _ => if stops c || (n <=? p + c) then [] else (p + c) :: positions fuel (next_groups gs) (p + c) n
  | _, _ => []
  end.

Lemma stops_false c : stops c = false -> 0 < c /\ c <> max_char.
Proof. unfold stops. intros H. apply orb_false_elim in H as [H1 H2]. bool_to_prop. lia. Qed.

Section walk.
Context (g : digit_grouping) (Hg : grouping_ g <> []) (Hc : Forall (fun c => c <= max_char) (grouping_ g)) (Hs : thousands_sep_ g <> []).

Definition current (st : next_state) : list Z :=
  match group st with [] => option_list (last (grouping_ g)) | l => l end.
Definition st_ok (st : next_state) : Prop :=
  (exists b, group st = [] /\ last (grouping_ g) = Some b /\ stops b = false /\ b <= max_char) \/
  (group st <> [] /\ last (group st) = last (grouping_ g) /\ Forall (fun c => c <= max_char) (group st)).

Lemma initial_ok : st_ok (initial_state g).
Proof. right. by split_and!. Qed.

Lemma current_cons st : st_ok st -> exists c rest, current st = c :: rest /\ c <= max_char.
Proof.
  unfold current. intros [(b & -> & -> & _ & Hb)|(Hn & _ & Hf)]; [by exists b, []|]. destruct (group st) as [|c rest]; [done|]. exists c, rest. by apply Forall_cons in Hf as [? _].
Qed.

Lemma next_ok st c rest : st_ok st -> current st = c :: rest -> pos st + max_char <= max_int ->
  if stops c then next g st = Ok (max_int, st)
  else exists st', next g st = Ok (pos st + c, st') /\ st_ok st' /\ pos st' = pos st + c /\ current st' = next_groups (current st).
Proof.
  intros Hst Ec Hp. assert (Hadv : forall r, c <= max_char -> advance (pos st) c r = Ok (pos st + c, mknext r (pos st + c))).
  { intros r Hc'. unfold advance. by rewrite (proj2 (Z.leb_le _ _)) by (unfold max_char in *; lia). }
  destruct Hst as [(b & Eg & El & Hb & Hbm)|(Hn & El & Hf)]; unfold next, current in *; rewrite bool_decide_eq_false_2 by done.
  - rewrite Eg, El in Ec |- *. cbn [option_list] in Ec. injection Ec as <- <-. rewrite Hb, Hadv by done. eexists. split; [done|]. unfold current. cbn [group pos]. rewrite ?El. split_and!; [|done..]. left. by exists b.
  - destruct (group st) as [|x l] eqn:Eg; [done|]. injection Ec as <- <-. fold (stops x). apply Forall_cons in Hf as [Hx Hl]. destruct (stops x) eqn:Ex; [done|]. rewrite Hadv by done.
    eexists. split; [done|]. unfold st_ok, current. cbn [group pos]. destruct l as [|y l].
    + cbn [last] in El. rewrite <- El. split_and!; [|done..]. left. by exists x.
    + split_and!; [|done..]. right. split_and!; [done| |done]. by rewrite <- El.
Qed.

Lemma count_loop_ok fuel st n c : st_ok st -> 0 <= pos st -> n - pos st <= Z.of_nat fuel -> n + max_char <= max_int -> pos st <= Z.max n 0 ->
  count_loop g fuel st n c = Ok (c + zlen (positions fuel (current st) (pos st) n)).
Proof.
  revert st c. induction fuel as [|fuel IH]; intros st c Hst H0 Hf Hn Hp; destruct (current_cons st Hst) as (x & rest & Ec & Hx);
    pose proof (next_ok st x rest Hst Ec ltac:(unfold max_char, max_int in *; lia)) as Hnext; cbn [count_loop positions]; rewrite ?Ec.
  - destruct (stops x) eqn:Ex; [rewrite Hnext|destruct Hnext as (st' & -> & _); apply stops_false in Ex]; cbn [obind]; rewrite (proj2 (Z.ltb_ge _ _)) by (unfold max_char, max_int in *; lia); by rewrite Z.add_0_r.
  - destruct (stops x) eqn:Ex; cbn [orb].
    + rewrite Hnext. cbn [obind]. rewrite (proj2 (Z.ltb_ge _ _)) by (unfold max_char, max_int in *; lia). by rewrite Z.add_0_r.
    + destruct Hnext as (st' & -> & Hst' & Ep & Ec'). cbn [obind]. apply stops_false in Ex. rewrite (Z.leb_antisym (pos st + x)). destruct (Z.ltb_spec (pos st + x) n) as [H|H]; cbn [negb]; [|by rewrite Z.add_0_r].
      rewrite IH, Ec', Ec, Ep, zlen_cons by (done || lia). f_equal. lia.
Qed.

Lemma separators_loop_ok fuel st n acc : st_ok st -> 0 <= pos st -> n - pos st <= Z.of_nat fuel -> n + max_char <= max_int -> pos st <= Z.max n 0 ->
  separators_loop g fuel st n acc = Ok (acc ++ positions fuel (current st) (pos st) n).
Proof.
  revert st acc. induction fuel as [|fuel IH]; intros st acc Hst H0 Hf Hn Hp; destruct (current_cons st Hst) as (x & rest & Ec & Hx);
    pose proof (next_ok st x rest Hst Ec ltac:(unfold max_char, max_int in *; lia)) as Hnext; cbn [separators_loop positions]; rewrite ?Ec.
  - destruct (stops x) eqn:Ex; [rewrite Hnext|destruct Hnext as (st' & -> & _); apply stops_false in Ex]; cbn [obind]; rewrite (proj2 (Z.eqb_neq _ _)), (proj2 (Z.leb_le _ _)) by (unfold max_char, max_int in *; lia); by rewrite app_nil_r.
  - destruct (stops x) eqn:Ex; cbn [orb].
    + rewrite Hnext. cbn [obind]. rewrite (proj2 (Z.eqb_neq _ _)), (proj2 (Z.leb_le _ _)) by (unfold max_char, max_int in *; lia). by rewrite app_nil_r.
    + destruct Hnext as (st' & -> & Hst' & Ep & Ec'). cbn [obind]. apply stops_false in Ex. rewrite (proj2 (Z.eqb_neq _ 0)) by lia. destruct (Z.leb_spec n (pos st + x)) as [H|H]; [by rewrite app_nil_r|].
      rewrite IH, Ec', Ec, Ep, <- app_assoc by (done || lia). done.
Qed.
End walk.

(** ** The text *)

(** A separator in front of every digit with a position as the number of digits from it on. *)
Fixpoint mark (sep : list Z) (p : Z) (ps ds : list Z) : list Z :=
  match ds with
  | [] => []
  | d :: ds' => (if bool_decide (p + zlen ds ∈ ps) then sep else []) ++ d :: mark sep p ps ds'
  end.

Lemma mark_app sep p ps ds ds' : mark sep p ps (ds ++ ds') = mark sep (p + zlen ds') ps ds ++ mark sep p ps ds'.
Proof.
  induction ds as [|d ds IH]; [done|]. cbn [mark app]. rewrite IH, <- app_assoc. cbn [app]. rewrite !zlen_cons, zlen_app. by replace (p + zlen ds' + (1 + zlen ds)) with (p + (1 + (zlen ds + zlen ds'))) by lia.
Qed.

Lemma mark_ext sep p ps ps' ds : (forall i, 0 < i <= zlen ds -> p + i ∈ ps <-> p + i ∈ ps') -> mark sep p ps ds = mark sep p ps' ds.
Proof.
  induction ds as [|d ds IH]; intros H; [done|]. cbn [mark]. rewrite zlen_cons in *. pose proof (zlen_nonneg ds). rewrite IH by (intros i Hi; apply H; lia). by rewrite (bool_decide_ext _ _ (H (1 + zlen ds) ltac:(lia))).
Qed.

Lemma mark_none sep p ds : mark sep p [] ds = ds.
Proof. induction ds as [|d ds IH]; [done|]. cbn [mark]. rewrite bool_decide_eq_false_2 by apply not_elem_of_nil. by rewrite IH. Qed.

Lemma positions_range fuel gs p n x : x ∈ positions fuel gs p n -> p < x < n.
Proof.
  revert gs p. induction fuel as [|fuel IH]; intros [|c gs] p H; try by apply elem_of_nil in H. cbn [positions] in H. destruct (stops c) eqn:Ec; [by apply elem_of_nil in H|]. apply stops_false in Ec. cbn [orb] in H.
  destruct (Z.leb_spec n (p + c)); [by apply elem_of_nil in H|]. apply elem_of_cons in H as [->|H]; [lia|]. apply IH in H. lia.
Qed.

Lemma positions_sorted fuel gs p n : StronglySorted Z.lt (positions fuel gs p n).
Proof.
  revert gs p. induction fuel as [|fuel IH]; intros [|c gs] p; try constructor. cbn [positions]. destruct (stops c || (n <=? p + c)); constructor; [apply IH|].
  apply Forall_forall. intros x Hx. apply positions_range in Hx. lia.
Qed.

Lemma join_snoc sep ls l : ls <> [] -> join sep (ls ++ [l]) = join sep ls ++ sep ++ l.
Proof.
  induction ls as [|x ls IH]; [done|]. intros _. destruct ls as [|y ls]; [done|]. change ((x :: y :: ls) ++ [l]) with (x :: (y :: ls) ++ [l]).
  transitivity (x ++ sep ++ join sep ((y :: ls) ++ [l])); [done|]. rewrite IH by done. cbn [join]. by rewrite <- !app_assoc.
Qed.

Lemma split_groups_cons fuel gs ds : split_groups fuel gs ds <> [].
Proof. destruct fuel, gs; try done. cbn [split_groups]. destruct (_ || _); [done|]. by destruct (split_groups _ _ _). Qed.

Lemma mark_positions sep fuel gs p ds : mark sep p (positions fuel gs p (p + zlen ds)) ds = join sep (split_groups fuel gs ds).
Proof.
  revert gs p ds. induction fuel as [|fuel IH]; intros gs p ds; [apply mark_none|]. destruct gs as [|c gs]; [apply mark_none|]. cbn [positions split_groups]. destruct (stops c) eqn:Ec; cbn [orb]; [apply mark_none|].
  apply stops_false in Ec. replace (p + zlen ds <=? p + c) with (zlen ds <=? c) by (apply eq_true_iff_eq; rewrite !Z.leb_le; lia).
  destruct (Z.leb_spec (zlen ds) c) as [H|H]; [apply mark_none|]. set (n := (length ds - Z.to_nat c)%nat). rewrite join_snoc by apply split_groups_cons. set (rest := next_groups (c :: gs)).
  assert (Hd : zlen (drop n ds) = c) by (unfold zlen in *; rewrite length_drop; lia). assert (Ht : zlen (take n ds) = zlen ds - c) by (unfold zlen in *; rewrite length_take; lia).
  rewrite <- (take_drop n ds) at 2. rewrite mark_app, Hd. f_equal.
  - rewrite <- (IH rest (p + c)), Ht. replace (p + c + (zlen ds - c)) with (p + zlen ds) by lia. apply mark_ext. intros i Hi. rewrite elem_of_cons. split; [intros [?|?]; [lia|done]|by right].
  - destruct (drop n ds) as [|d l] eqn:El; [by rewrite zlen_nil in Hd; lia|]. cbn [mark]. rewrite Hd, bool_decide_eq_true_2 by (apply elem_of_cons; by left). f_equal. f_equal. rewrite zlen_cons in Hd.
    rewrite <- (mark_none sep p l) at 2. apply mark_ext. intros i Hi. rewrite elem_of_cons. split; [intros [?|Hx]; [lia|apply positions_range in Hx; lia]|intros Hx; by apply elem_of_nil in Hx].
Qed.

Lemma apply_loop_ok g lo hi n i ds : zlen ds = n - i -> StronglySorted Z.lt lo -> Forall (fun x => 0 < x <= zlen ds) lo ->
  apply_loop g (0 :: lo ++ hi) n i (zlen lo) ds = Ok (mark (thousands_sep_ g) 0 lo ds).
Proof.
  revert lo hi i. induction ds as [|d ds IH]; intros lo hi i Hn Hs Hf; [done|]. cbn [apply_loop mark]. rewrite zlen_cons in *. pose proof (zlen_nonneg ds) as H0.
  assert (Ht : forall l x r, table_at (0 :: (l ++ x :: r)) (zlen l + 1) = Ok x).
  { intros l x r. unfold table_at. pose proof (zlen_nonneg l). rewrite (proj2 (Z.leb_le 0 _)) by lia. replace (Z.to_nat (zlen l + 1)) with (S (length l)) by (unfold zlen; lia). change ((0 :: l ++ x :: r) !! S (length l)) with ((l ++ x :: r) !! length l). by rewrite list_lookup_middle. }
  destruct lo as [|x lo _] using rev_ind.
  - change (zlen (@nil Z)) with 0. change (table_at (0 :: [] ++ hi) 0) with (Ok 0). cbn [obind]. rewrite (proj2 (Z.eqb_neq _ _)), bool_decide_eq_false_2 by (lia || apply not_elem_of_nil).
    specialize (IH [] hi (i + 1)). change (zlen (@nil Z)) with 0 in IH. by rewrite IH by (constructor || lia).
  - apply Forall_app in Hf as [Hf Hx]. apply Forall_cons in Hx as [Hx _]. rewrite zlen_app, zlen_cons, zlen_nil, <- app_assoc, Z.add_0_r. cbn [app]. rewrite Ht. cbn [obind].
    assert (Hlt : Forall (fun y => y < x) lo) by (apply Forall_forall; intros y Hy; apply (StronglySorted_app_1_elem_of Z.lt lo [x] y x); [done|done|by apply list_elem_of_singleton]).
    destruct (Z.eqb_spec (n - i) x) as [E|E].
    + rewrite bool_decide_eq_true_2 by (apply elem_of_app; right; apply list_elem_of_singleton; lia). replace (zlen lo + 1 - 1) with (zlen lo) by lia. rewrite (IH lo (x :: hi) (i + 1)); [|lia|by eapply StronglySorted_app_1_l|].
      * cbn [outcome_map]. do 3 f_equal. apply mark_ext. intros j Hj. rewrite elem_of_app, list_elem_of_singleton. split; [by left|intros [?|?]; [done|lia]].
      * apply Forall_forall. intros y Hy. rewrite Forall_forall in Hf, Hlt. specialize (Hf y Hy). specialize (Hlt y Hy). lia.
    + rewrite bool_decide_eq_false_2 by (rewrite elem_of_app, list_elem_of_singleton; rewrite Forall_forall in Hlt; intros [Hy|Hy]; [pose proof (Hlt _ Hy)|]; lia).
      specialize (IH (lo ++ [x]) hi (i + 1)). rewrite zlen_app, zlen_cons, zlen_nil, <- app_assoc, Z.add_0_r in IH. cbn [app] in IH. rewrite IH; [done|lia|done|].
      apply Forall_app. split; [|apply Forall_singleton; lia]. apply Forall_forall. intros y Hy. rewrite Forall_forall in Hf, Hlt. specialize (Hf y Hy). specialize (Hlt y Hy). lia.
Qed.

Lemma positions_count fuel gs p ds : 1 + zlen (positions fuel gs p (p + zlen ds)) = zlen (split_groups fuel gs ds).
Proof.
  revert gs p ds. induction fuel as [|fuel IH]; intros [|c gs] p ds; try done. cbn [positions split_groups]. destruct (stops c) eqn:Ec; cbn [orb]; [done|]. apply stops_false in Ec.
  replace (p + zlen ds <=? p + c) with (zlen ds <=? c) by (apply eq_true_iff_eq; rewrite !Z.leb_le; lia). destruct (Z.leb_spec (zlen ds) c) as [H|H]; [done|].
  set (n := (length ds - Z.to_nat c)%nat). assert (Ht : zlen (take n ds) = zlen ds - c) by (unfold zlen in *; rewrite length_take; lia).
  rewrite zlen_cons, zlen_app, <- (IH _ (p + c)), Ht. replace (p + c + (zlen ds - c)) with (p + zlen ds) by lia. change (zlen [drop n ds]) with 1. lia.
Qed.

Lemma split_groups_concat fuel gs ds : concat (split_groups fuel gs ds) = ds.
Proof.
  revert gs ds. induction fuel as [|fuel IH]; intros [|c gs] ds; try apply app_nil_r. cbn [split_groups]. destruct (_ || _); [apply app_nil_r|].
  rewrite concat_app, IH. cbn [concat]. by rewrite app_nil_r, take_drop.
Qed.

(** The digits with the separators of a grouping. *)
Definition grouped (g : digit_grouping) (ds : list Z) : list (list Z) :=
  if has_separator g then split_groups (length ds) (grouping_ g) ds else [ds].

(** What the constructors give: sizes that are a [char], and a separator only with a size. *)
Definition grouping_ok (g : digit_grouping) : Prop :=
  Forall (fun c => c <= max_char) (grouping_ g) /\ (thousands_sep_ g <> [] -> grouping_ g <> []).

Lemma next_no_separator g st : thousands_sep_ g = [] -> next g st = Ok (max_int, st).
Proof. intros E. unfold next. by rewrite bool_decide_eq_true_2. Qed.
Lemma count_no_separator g n : thousands_sep_ g = [] -> n <= max_int -> count_separators g n = Ok 0.
Proof. intros E Hn. unfold count_separators. destruct (Z.to_nat n); cbn [count_loop]; rewrite next_no_separator by done; cbn [obind]; by rewrite (proj2 (Z.ltb_ge _ _)) by lia. Qed.

Lemma apply_ok g ds : grouping_ok g -> zlen ds + max_char <= max_int ->
  apply g ds = Ok (join (thousands_sep_ g) (grouped g ds)) /\ count_separators g (zlen ds) = Ok (zlen (grouped g ds) - 1).
Proof.
  intros [Hc Hg] Hn. unfold grouped, has_separator. pose proof (zlen_nonneg ds) as H0. destruct (decide (thousands_sep_ g = [])) as [E|E].
  - rewrite bool_decide_eq_true_2 by done. cbn [negb join]. unfold apply, count_separators.
    split; [|apply count_no_separator; [done|unfold max_char in *; lia]].
    assert (Es : separators_loop g (length ds) (initial_state g) (zlen ds) [0] = Ok [0]) by (destruct (length ds); cbn [separators_loop]; rewrite next_no_separator by done; cbn [obind]; rewrite (proj2 (Z.leb_le _ _)) by (unfold max_char in *; lia); done).
    rewrite Es. cbn [obind]. change (zlen [0] - 1) with (zlen (@nil Z)). change [0] with (0 :: [] ++ @nil Z). rewrite apply_loop_ok by (constructor || lia). by rewrite mark_none.
  - rewrite bool_decide_eq_false_2 by done. cbn [negb]. specialize (Hg E). pose proof (mark_positions (thousands_sep_ g) (length ds) (grouping_ g) 0 ds) as Hm. rewrite Z.add_0_l in Hm.
    assert (Ecur : current g (initial_state g) = grouping_ g) by (unfold current, initial_state; cbn; by destruct (grouping_ g)). split.
    + unfold apply. rewrite separators_loop_ok by (done || (by apply initial_ok) || (unfold initial_state, zlen in *; cbn [pos]; lia)). cbn [obind]. rewrite Ecur. unfold initial_state. cbn [pos]. set (ps := positions _ _ _ _) in *. cbn [app].
      rewrite zlen_cons. replace (1 + zlen ps - 1) with (zlen ps) by lia. rewrite <- (app_nil_r ps) at 1. rewrite apply_loop_ok, Hm; [done|lia|apply positions_sorted|]. apply Forall_forall. intros x Hx. apply positions_range in Hx. lia.
    + unfold count_separators. rewrite count_loop_ok by (done || (by apply initial_ok) || (unfold initial_state, zlen in *; cbn [pos]; lia)). rewrite Ecur. unfold initial_state. cbn [pos]. replace (Z.to_nat (zlen ds)) with (length ds) by (unfold zlen; lia).
      rewrite <- (positions_count _ _ 0), !Z.add_0_l. f_equal. lia.
Qed.

Lemma grouping_of_ok np localized : Forall (fun c => c <= max_char) (grouping np) -> grouping_ok (digit_grouping_of np localized) /\ zlen (thousands_sep_ (digit_grouping_of np localized)) <= 1.
Proof. intros H. unfold grouping_ok, digit_grouping_of, thousands_sep_impl. destruct localized; [|done]. destruct (grouping np); cbn; [done|]. by destruct (_ =? 0). Qed.

Lemma facet_grouping_ok np : Forall (fun c => c <= max_char) (grouping np) -> grouping_ok (mkgrouping (facet_grouping_ (format_facet_of np)) (separator_ (format_facet_of np))).
Proof. intros H. unfold grouping_ok, format_facet_of. cbn. by destruct (grouping np). Qed.

Lemma zlen_join sep ls : ls <> [] -> zlen (join sep ls) = zlen (concat ls) + zlen sep * (zlen ls - 1).
Proof.
  induction ls as [|l ls IH]; [done|]. intros _. destruct ls as [|l' ls]; [cbn [join concat]; rewrite app_nil_r; change (zlen [l]) with 1; lia|].
  change (join sep (l :: l' :: ls)) with (l ++ sep ++ join sep (l' :: ls)). change (concat (l :: l' :: ls)) with (l ++ concat (l' :: ls)). rewrite !zlen_app, IH, (zlen_cons l) by done. lia.
Qed.

Lemma grouped_concat g ds : concat (grouped g ds) = ds /\ grouped g ds <> [].
Proof. unfold grouped. destruct (has_separator g); [split; [apply split_groups_concat|apply split_groups_cons]|]. split; [apply app_nil_r|done]. Qed.

(** The sign in front of a number. *)
Definition sign_chars (negative : bool) (s : sign_t) : list Z :=
  if negative then [45] else match s with sign_plus => [43] | sign_space => [32] | _ => [] end.

Lemma make_prefix_ok negative s :
  prefix_chars (make_prefix negative s) = sign_chars negative s /\ (if negb (make_prefix negative s =? 0) then prefix_size (make_prefix negative s) else 0) = zlen (sign_chars negative s).
Proof. by destruct negative, s. Qed.

(** C22: a localized integer of 32 or 64 bits is its sign and its decimal digits in the groups of the locale from the right, the last
    size repeated, with the separator between them, and is padded by its true length; no position of a separator
    leaves its type and no character outside the grouping is read. *)
Theorem localized_integer_exact (np : numpunct) signed bits v s :
  Forall (fun c => c <= max_char) (grouping np) -> int_range signed bits v -> type_ s = pres_none \/ type_ s = pres_dec ->
  let g := mkgrouping (grouping np) (separator_ (format_facet_of np)) in
  let groups := grouped g (digits (Z.abs v)) in
  let text := sign_chars (v <? 0) (sign s) ++ join (thousands_sep_ g) groups in
  concat groups = digits (Z.abs v) /\ loc_writer (format_facet_of np) signed bits v s = Ok (write_padded true s (zlen text) text).
Proof.
  intros Hc Hr Ht g groups text. destruct (grouped_concat g (digits (Z.abs v))) as [Hcat Hne]. split; [done|].
  pose proof (abs_value_ok signed bits v Hr) as (Ha & Hl & H64 & Hn). destruct Hr as [Hb _]. unfold loc_writer. rewrite Hn in *. rewrite Ha in *. unfold write_int_grouped.
  assert (Hd : zlen (digits (Z.abs v)) <= 20) by (apply (digits_le_bits bits); [done|lia]). pose proof (digits_pos (Z.abs v) ltac:(lia)) as Hd1.
  rewrite (proj2 (orb_true_iff _ _)) by (rewrite !Z.eqb_eq; done). change (count_digits 64 (Z.abs v)) with (do_count_digits64 (Z.abs v)). rewrite do_count_digits64_ok by lia. cbn [obind]. rewrite format_decimal_text_ok by lia. cbn [obind].
  destruct (apply_ok g (digits (Z.abs v)) (facet_grouping_ok np Hc)) as [Eap Ecn]; [unfold max_char, max_int; lia|]. change (mkgrouping (facet_grouping_ (format_facet_of np)) _) with g. rewrite Ecn, Eap. cbn [obind].
  destruct (make_prefix_ok (v <? 0) (sign s)) as [-> ->]. do 2 f_equal. unfold text. fold groups. rewrite zlen_app, zlen_join by done. fold groups in Hcat. rewrite Hcat.
  assert (Hsep : thousands_sep_ g = [] /\ zlen groups = 1 \/ zlen (thousands_sep_ g) = 1).
  { unfold groups, grouped, has_separator, g, format_facet_of. cbn [thousands_sep_ separator_ grouping_]. destruct (grouping np); [by left|by right]. }
  destruct Hsep as [[Es En]|Es]; rewrite Es; change (zlen (@nil Z)) with 0; lia.
Qed.

(** Formatting with the facet that fmt makes from the locale. *)
#[export] Instance facet_locale (np : numpunct) : Locale :=
  { write_loc signed bits v s := match loc_writer (format_facet_of np) signed bits v s with Ok text => Some text | _ => None end }.

Lemma localized_integer_exact_witness :
  loc_writer (format_facet_of (mknumpunct [3] 44 46)) true 32 (-1234567) format_specs_new = Ok (chars "-1,234,567").
Proof.
  apply (localized_integer_exact (mknumpunct [3] 44 46) true 32 (-1234567) format_specs_new); [|split; [by left|lia]|by left].
  constructor; [|constructor]. unfold max_char. lia.
Defined.

(** Groups of three and then two, a grouping that ends, one without sizes, and a whole format string. *)
Example grouping_examples :
  apply (mkgrouping [3; 2] [44]) (chars "123456789") = Ok (chars "12,34,56,789") /\
  apply (mkgrouping [3; 0] [44]) (chars "123456789") = Ok (chars "123456,789") /\
  apply (mkgrouping [3] []) (chars "123456789") = Ok (chars "123456789") /\
  apply (mkgrouping [] [44]) (chars "123456789") = Undef /\
  format (T := facet_locale (mknumpunct [3] 44 46)) [IntArg false 64 1000000] (chars "{:>12L}|") = Ok (chars "   1,000,000|").
Proof. repeat split; vm_compute; reflexivity. Qed.
