(* ===== verification/FmtFloat.v ===== *)
(** * fmt: writing floating point numbers (format.h)

    From the decimal significand and exponent that [to_decimal] or
    [format_float] computes to the text: sign, decimal point, exponent, zeros
    and padding.  Numbers are the bits of a float or a double; [long double]
    takes another path and is left out. *)

From S2P Require Import Prelude Machine FmtUtf8 FmtInt FmtWide FmtPow10 FmtBigint FmtDragon FmtDragonbox FmtEscape FmtParse FmtFormat FmtGroup.
Local Open Scope outcome_scope.

(** ** Pieces of the text *)

Definition getsign (s : sign_t) : Z := match s with sign_none => 0 | sign_minus => 45 | sign_plus => 43 | sign_space => 32 end.
Definition write_sign (s : sign_t) : list Z := if bool_decide (s = sign_none) then [] else [getsign s].
Definition zeros (n : Z) : list Z := replicate (Z.to_nat n) 48.

(** "[+-]d{2,3}"; outside the range it is an assertion. *)
Definition write_exponent (exp : Z) : outcome (list Z) :=
  if (-10000 <? exp) && (exp <? 10000) then
    let sign := if exp <? 0 then 45 else 43 in
    let uexp := if exp <? 0 then - exp else exp in
    let? '(high, uexp) :=
      if 100 <=? uexp then
        let? top := digits2 (uexp / 100) in
        Ok (if 1000 <=? uexp then top else drop 1 top, uexp mod 100)
      else Ok ([], uexp) in
    let? d := digits2 uexp in Ok (sign :: high ++ d)
  else Undef.

(** A decimal number: its digits as text ([big_decimal_fp]) or as an integer of
    [bits] bits ([dragonbox::decimal_fp]). *)
Inductive decimal_fp :=
| BigDecimal (significand : list Z) (exponent : Z)
| SmallDecimal (bits significand exponent : Z).
Definition exponent (d : decimal_fp) : Z := match d with BigDecimal _ e => e | SmallDecimal _ _ e => e end.

Definition get_significand_size (d : decimal_fp) : outcome Z :=
  match d with BigDecimal s _ => Ok (zlen s) | SmallDecimal bits s _ => count_digits bits s end.

(** [write_significand] without a decimal point. *)
Definition write_significand (d : decimal_fp) (significand_size : Z) : outcome (list Z) :=
  match d with
  | BigDecimal s _ => Ok (take (Z.to_nat significand_size) s)
  | SmallDecimal _ s _ => format_decimal_text s significand_size
  end.

(** Followed by zeros and with digit grouping. *)
Definition write_significand_zeros (d : decimal_fp) (significand_size exponent : Z) (g : digit_grouping) : outcome (list Z) :=
  let? text := write_significand d significand_size in
  if negb (has_separator g) then Ok (text ++ zeros exponent) else apply g (text ++ zeros exponent).

(** The pairs of digits behind the decimal point, from the end. *)
Fixpoint fraction_pairs (n : nat) (significand out : Z) : M (list Z) (Z * Z) :=
  match n with
  | O => ret (significand, out)
  | S n => do! write2digits (out - 2) (significand mod 100) in fraction_pairs n (significand / 100) (out - 2)
  end.
Definition fraction_digits (floating_size significand out : Z) : M (list Z) (Z * Z) :=
  let! '(significand, out) := fraction_pairs (Z.to_nat (floating_size / 2)) significand out in
  if negb (floating_size mod 2 =? 0) then do! put_at (out - 1) [48 + significand mod 10] in ret (significand / 10, out - 1)
  else ret (significand, out).
(** Writing from the character [k] of the buffer on. *)
Definition at_offset {A} (k : Z) (m : M (list Z) A) : M (list Z) A := fun b =>
  if (0 <=? k) && (k <=? zlen b) then let '(r, b') := m (drop (Z.to_nat k) b) in (r, take (Z.to_nat k) b ++ b') else (Undef, b).
(** An integer written to the start of a buffer, with a decimal point unless it is the character 0: the end of the text. *)
Definition write_significand_buf (significand significand_size integral_size decimal_point : Z) : M (list Z) Z :=
  if decimal_point =? 0 then do! do_format_decimal significand significand_size in ret significand_size
  else
    let floating_size := significand_size - integral_size in
    let! '(significand, out) := fraction_digits floating_size significand (significand_size + 1) in
    do! put_at (out - 1) [decimal_point] in
    do! at_offset (out - 1 - integral_size) (do_format_decimal significand integral_size) in
    ret (significand_size + 1).
(** [digits10 + 2] characters. *)
Definition point_buffer (bits : Z) : list Z := replicate (if bits =? 64 then 21 else 11) 0.

(** With a decimal point after [integral_size] digits. *)
Definition write_significand_point (d : decimal_fp) (significand_size integral_size decimal_point : Z) : outcome (list Z) :=
  match d with
  | SmallDecimal bits s _ =>
      match write_significand_buf s significand_size integral_size decimal_point (point_buffer bits) with
      | (Ok n, b) => Ok (take (Z.to_nat n) b)
      | (Throw e, _) => Throw e
      | (Undef, _) => Undef
      end
  | BigDecimal s _ =>
      let head := take (Z.to_nat integral_size) s in
      if integral_size <=? significand_size then
        Ok (if decimal_point =? 0 then head else head ++ [decimal_point] ++ slice integral_size (significand_size - integral_size) s)
      else Undef
  end.
Definition write_significand_grouped (d : decimal_fp) (significand_size integral_size decimal_point : Z) (g : digit_grouping) : outcome (list Z) :=
  let? buffer := write_significand_point d significand_size integral_size decimal_point in
  if negb (has_separator g) then Ok buffer
  else outcome_map (fun t => t ++ drop (Z.to_nat integral_size) buffer) (apply g (take (Z.to_nat integral_size) buffer)).

Definition write_nonfinite (isnan : bool) (specs : format_specs) (s : sign_t) : list Z :=
  let str := chars (if isnan then (if upper specs then "NAN" else "nan") else (if upper specs then "INF" else "inf")) in
  let size := 3 + (if bool_decide (s = sign_none) then 0 else 1) in
  let specs := if bool_decide (fill_ specs = [48]) then set_fill [32] specs else specs in
  write_padded false specs size (write_sign s ++ str).

(** ** do_write_float *)

Section locale.
Context (np : numpunct).

Definition use_exp_format (specs : format_specs) (output_exp exp_upper : Z) : bool :=
  if type_ specs =? pres_exp then true
  else if type_ specs =? pres_fixed then false
  else (output_exp <? -4) || ((if 0 <? precision specs then precision specs else exp_upper) <=? output_exp).

Definition do_write_float (d : decimal_fp) (specs : format_specs) (s : sign_t) (exp_upper : Z) : outcome (list Z) :=
  let? significand_size := get_significand_size d in
  let size := significand_size + (if bool_decide (s = sign_none) then 0 else 1) in
  let point := if localized specs then decimal_point np else 46 in
  let output_exp := exponent d + significand_size - 1 in
  if use_exp_format specs output_exp exp_upper then
    let num_zeros := if alt specs then Z.max (precision specs - significand_size) 0 else 0 in
    let point := if negb (alt specs) && (significand_size =? 1) then 0 else point in
    let abs_output_exp := Z.abs output_exp in
    let exp_digits := if 100 <=? abs_output_exp then (if 1000 <=? abs_output_exp then 4 else 3) else 2 in
    let size := size + num_zeros + ((if negb (point =? 0) then 1 else 0) + 2 + exp_digits) in
    let? sig := write_significand_point d significand_size 1 point in
    let? e := write_exponent output_exp in
    let text := write_sign s ++ sig ++ zeros num_zeros ++ [if upper specs then 69 else 101] ++ e in
    Ok (if 0 <? width specs then write_padded true specs size text else text)
  else
    let exp := exponent d + significand_size in
    let g := digit_grouping_of np (localized specs) in
    if 0 <=? exponent d then
      let num_zeros := precision specs - exp in
      let num_zeros := if alt specs && (num_zeros <=? 0) && negb (type_ specs =? pres_fixed) then 0 else num_zeros in
      let? n := count_separators g exp in
      let size := size + exponent d + (if alt specs then 1 + Z.max num_zeros 0 else 0) + n in
      let? sig := write_significand_zeros d significand_size (exponent d) g in
      Ok (write_padded true specs size (write_sign s ++ sig ++ if alt specs then point :: zeros num_zeros else []))
    else if 0 <? exp then
      let num_zeros := if alt specs then precision specs - significand_size else 0 in
      let? n := count_separators g exp in
      let size := size + (1 + Z.max num_zeros 0) + n in
      let? sig := write_significand_grouped d significand_size exp point g in
      Ok (write_padded true specs size (write_sign s ++ sig ++ zeros num_zeros))
    else
      let num_zeros := - exp in
      let num_zeros := if (significand_size =? 0) && (0 <=? precision specs) && (precision specs <? num_zeros) then precision specs else num_zeros in
      let pointy := negb (num_zeros =? 0) || negb (significand_size =? 0) || alt specs in
      let size := size + 1 + (if pointy then 1 else 0) + num_zeros in
      let? sig := write_significand d significand_size in
      Ok (write_padded true specs size (write_sign s ++ [48] ++ if pointy then point :: zeros num_zeros ++ sig else [])).
End locale.

(** ** Fixed precision: format_float *)

Definition fractional_part_rounding_thresholds : list Z :=
  [0x9999999a; 0x828f5c29; 0x80418938; 0x80068db9; 0x8000a7c6; 0x800010c7; 0x800001ae; 0x8000002b].

(** [print_subsegment] for a segment of nine digits at an offset: the last product and the last digits. *)
Fixpoint print_pairs (fuel : nat) (offset printed to_print prod digits : Z) : M (list Z) (Z * Z) :=
  if printed <? to_print then
    match fuel with
    | O => undef
    | S fuel =>
        let prod := u64 (u32 prod * 100) in
        let digits := u32 (Z.shiftr prod 32) in
        do! write2digits (offset + printed) digits in
        print_pairs fuel offset (printed + 2) to_print prod digits
    end
  else ret (prod, digits).
Definition print_subsegment (to_print subsegment offset : Z) : M (list Z) (Z * Z) :=
  if negb (Z.land to_print 1 =? 0) then
    let prod := u64 (Z.shiftr (u64 (subsegment * 720575941)) 24 + 1) in
    let digits := u32 (Z.shiftr prod 32) in
    do! put_at offset [u8 (48 + digits)] in
    print_pairs 4 offset 1 to_print prod digits
  else
    let prod := u64 (Z.shiftr (u64 (subsegment * 450359963)) 20 + 1) in
    let digits := u32 (Z.shiftr prod 32) in
    do! write2digits offset digits in
    print_pairs 4 offset 2 to_print prod digits.

(** Whether the digits of a segment are rounded up, from what follows them. *)
Definition round_inside (to_print prod digits : Z) (more : bool) : outcome bool :=
  let fractional_part := u32 prod in
  let? threshold := table_at fractional_part_rounding_thresholds (8 - to_print) in
  Ok ((threshold <=? fractional_part) || negb (Z.land (Z.shiftr fractional_part 31) (Z.lor (Z.land digits 1) (Z.b2z more)) =? 0)).
Definition round_boundary (rest half digits : Z) (more : bool) : bool :=
  (half <? rest) || ((rest =? half) && (negb (Z.land digits 1 =? 0) || more)).

(** The carry through the digits from index [i] down. *)
Fixpoint carry_loop (i : nat) (buf : list Z) : list Z :=
  match i with
  | O => buf
  | S j => if 57 <? default 0 (buf !! i) then carry_loop j (<[j := default 0 (buf !! j) + 1]> (<[i := 48]> buf)) else buf
  end.
Definition round_up (fixed : bool) (precision exp : Z) (buf : list Z) : list Z * Z * Z :=
  let n := Z.to_nat (precision - 1) in
  let buf := carry_loop n (<[n := default 0 (buf !! n) + 1]> buf) in
  if 57 <? default 0 (buf !! O) then
    let buf := <[O := 49]> buf in
    if fixed then (<[Z.to_nat precision := 48]> buf, precision + 1, exp) else (buf, precision, exp + 1)
  else (buf, precision, exp).

(** The inline store of a [memory_buffer]. *)
Definition inline_buffer : list Z := replicate 500 0.

(** The digits of the first segment, 1 to 18 of them. *)
Definition print_segments (fixed : bool) (first_segment precision exp : Z) (has_more_segments : bool) : M (list Z) (Z * Z) :=
  let first_subsegment := u32 (Z.shiftr (umul128_upper64 first_segment 7922816251426433760) 32) in
  let second_third_subsegments := u64 (first_segment - first_subsegment * 10000000000) in
  let to_print := Z.min precision 9 in
  let! '(prod, digits) := print_subsegment to_print first_subsegment 0 in
  let! should_round_up :=
    if precision <=? 9 then
      if precision <? 9 then of_outcome (round_inside to_print prod digits (negb (second_third_subsegments =? 0) || has_more_segments))
      else ret (round_boundary second_third_subsegments 5000000000 digits has_more_segments)
    else
      let second_subsegment := u32 (umul128_upper64 second_third_subsegments 1844674407370955162) in
      let third_subsegment := u32 (u32 second_third_subsegments - second_subsegment * 10) in
      let to_print := precision - 9 in
      let! '(prod, digits) := print_subsegment to_print second_subsegment 9 in
      if precision <? 18 then of_outcome (round_inside to_print prod digits (negb (third_subsegment =? 0) || has_more_segments))
      else ret (round_boundary third_subsegment 5 digits has_more_segments) in
  if should_round_up : bool then
    fun buf => let '(buf, precision, exp) := round_up fixed precision exp buf in (Ok (precision, exp), buf)
  else ret (precision, exp).

(** The significand with 54 bits and its exponent. *)
Definition normalized (br : Z) : outcome (Z * Z) :=
  let significand := Z.land br (Z.shiftl 1 52 - 1) in
  let exponent := Z.shiftr (Z.land br (exponent_mask binary64)) 52 in
  if negb (exponent =? 0) then
    Ok (u64 (Z.shiftl (Z.lor significand (Z.shiftl 1 52)) 1), exponent - (1023 + 52))
  else if significand =? 0 then Undef
  else
    let shift := CLZLL significand in
    if 64 - 52 <=? shift then
      let shift := shift - (64 - 52 - 2) in
      let? significand := shl64 significand shift in Ok (significand, -1021 - 52 - shift)
    else Undef.

(** The first 18 or 19 digits, aligned to 19: the segment, whether digits follow, the number of digits and the exponent. *)
Definition first_digits (br : Z) : outcome (Z * bool * Z * Z) :=
  let? '(significand, exponent) := normalized br in
  let? m := floor_log10_pow2 exponent in
  let k := 2 - m in
  let? l := floor_log2_pow10 k in
  let beta := exponent + l in
  let? shifted := shl64 significand beta in
  let? cache := get_cached_power k in
  let r := umul192_upper128 shifted cache in
  if 1000000000000000000 <=? high r then Ok (high r, negb (low r =? 0), 19, - k)
  else Ok (u64 (high r * 10), negb (low r =? 0), 18, - k).

(** The zeros at the end move to the exponent. *)
Fixpoint drop_zeros (l : list Z) (exp : Z) : list Z * Z :=
  match l with
  | c :: l => if c =? 48 then drop_zeros l (exp + 1) else (c :: l, exp)
  | [] => ([], exp)
  end.
Definition trim_zeros (buf : list Z) (exp : Z) : list Z * Z := let '(l, exp) := drop_zeros (rev buf) exp in (rev l, exp).

Definition max_double_digits : Z := 767.

(** [format_float] of the double [br], which is the float [narrow] widened where there is one: the digits and the exponent of the last one. *)
Definition format_float (br : Z) (narrow : option Z) (precision : Z) (specs : format_specs) : outcome (list Z * Z) :=
  let fixed_ := type_ specs =? pres_fixed in
  if Z.land br (2 ^ 63 - 1) =? 0 then
    if (precision <=? 0) || negb fixed_ then Ok ([48], 0) else Ok (zeros precision, - precision)
  else
    let? '(first_segment, has_more_segments, digits, exp) := first_digits br in
    let? precision := if fixed_ then adjust_precision precision (exp + digits) else Ok precision in
    let? '(buf, exp) :=
      if precision <? digits then
        if precision <? 0 then Ok ([], exp + digits)
        else if precision =? 0 then Ok ([if 5000000000000000000 <? Z.lor first_segment (Z.b2z has_more_segments) then 49 else 48], exp + digits)
        else
          match print_segments fixed_ first_segment precision (exp + (digits - precision)) has_more_segments inline_buffer with
          | (Ok (n, exp), buf) => Ok (take (Z.to_nat n) buf, exp)
          | (Throw e, _) => Throw e
          | (Undef, _) => Undef
          end
      else
        let '(value, is_predecessor_closer) := match narrow with Some u => fp_assign binary32 u | None => fp_assign binary64 br end in
        let flags := Z.lor (if is_predecessor_closer then predecessor_closer else 0) (if fixed_ then fixed else 0) in
        format_dragon (Z.to_nat max_double_digits) value flags (Z.min precision max_double_digits) (exp + (digits - 1)) in
    Ok (if negb fixed_ && negb (alt specs) then trim_zeros buf exp else (buf, exp)).

(** ** Hexadecimal *)

Definition num_xdigits : Z := (53 + 3) / 4.

(** [format_hexfloat] of a double. *)
Definition format_hexfloat (br : Z) (specs : format_specs) : outcome (list Z) :=
  let '(v, _) := fp_assign binary64 br in
  let e := e v + 52 in
  let leading_shift := (num_xdigits - 1) * 4 in
  let leading_xdigit := u32 (Z.shiftr (Z.land (f v) (u64 (Z.shiftl 15 leading_shift))) leading_shift) in
  let e := if 1 <? leading_xdigit then e - (32 - CLZ leading_xdigit - 1) else e in
  let print_xdigits := num_xdigits - 1 in
  let? '(f, print_xdigits) :=
    if (0 <=? precision specs) && (precision specs <? print_xdigits) then
      let shift := (print_xdigits - precision specs - 1) * 4 in
      let? mask := shl64 15 shift in
      let x := u32 (Z.shiftr (Z.land (f v) mask) shift) in
      let? f :=
        if 8 <=? x then let? inc := shl64 1 (shift + 4) in Ok (Z.land (u64 (f v + inc)) (u64 (Z.lnot (inc - 1)))) else Ok (f v) in
      Ok (f, precision specs)
    else Ok (f v, print_xdigits) in
  let? d := do_format_base2e 4 (Z.to_nat num_xdigits) (upper specs) f [] in
  let xdigits := zeros (num_xdigits - zlen d) ++ d ++ zeros 2 in
  let shown := fst (trim_zeros (slice 1 print_xdigits xdigits) 0) in
  let point := if alt specs || (0 <? zlen shown) || (zlen shown <? precision specs) then [46] else [] in
  let abs_e := if e <? 0 then - e else e in
  let? n := count_digits 32 abs_e in
  let? ed := format_decimal_text abs_e n in
  Ok ([48; if upper specs then 88 else 120] ++ take 1 xdigits ++ point ++ shown ++ zeros (precision specs - zlen shown) ++
      [if upper specs then 80 else 112; if e <? 0 then 45 else 43] ++ ed).

(** ** write_float and write *)

(** The conversion of a finite float to a double. *)
Definition widen (u : Z) : Z :=
  let sign := Z.shiftl (Z.shiftr u 31) 63 in
  let m := Z.land u (Z.shiftl 1 23 - 1) in
  let b := Z.land (Z.shiftr u 23) 255 in
  if b =? 0 then
    if m =? 0 then sign
    else let l := Z.log2 m in Z.lor sign (Z.lor (Z.shiftl (l - 149 + 1023) 52) (Z.shiftl (m - Z.shiftl 1 l) (52 - l)))
  else Z.lor sign (Z.lor (Z.shiftl (b - 127 + 1023) 52) (Z.shiftl m 29)).

(** A float or a double: its bits. *)
Inductive real := FloatBits (u : Z) | DoubleBits (u : Z).
Definition info_of (x : real) : float_info := match x with FloatBits _ => float_float_info | DoubleBits _ => double_float_info end.
Definition bits_of (x : real) : Z := match x with FloatBits u | DoubleBits u => u end.
Definition convert_float (x : real) : Z := match x with FloatBits u => widen u | DoubleBits u => u end.
Definition signbit (x : real) : bool := negb (Z.shiftr (bits_of x) (carrier_bits (info_of x) - 1) =? 0).
Definition isfinite (x : real) : bool := let mask := exponent_mask (format_ (info_of x)) in negb (Z.land (bits_of x) mask =? mask).
Definition isnan (x : real) : bool := negb (isfinite x) && negb (Z.land (bits_of x) (Z.shiftl 1 (num_significand_bits (format_ (info_of x))) - 1) =? 0).
(** One more than the decimal digits of the type, at most 16. *)
Definition exp_upper (x : real) : Z := Z.min 16 (match x with FloatBits _ => 6 | DoubleBits _ => 15 end + 1).

Section write.
Context (np : numpunct).

Definition write_shortest (x : real) (specs : format_specs) (s : sign_t) : outcome (list Z) :=
  let? '(significand, exponent) := to_decimal (info_of x) (bits_of x) in
  do_write_float np (SmallDecimal (carrier_bits (info_of x)) significand exponent) specs s (exp_upper x).

(** The part of [write_float] that has written the sign of a numeric alignment. *)
Definition write_finite (x : real) (specs : format_specs) (s : sign_t) : outcome (list Z) :=
  if (precision specs <? 0) && (type_ specs =? pres_none) then write_shortest x specs s
  else
    let p := if precision specs <? 0 then 6 else precision specs in
    if type_ specs =? pres_hexfloat then
      let? h := format_hexfloat (convert_float x) specs in
      let text := write_sign s ++ h in Ok (write_padded true specs (zlen text) text)
    else
      let alt_specs := if negb (precision specs =? 0) then set_alt specs else specs in
      let? '(p, specs) :=
        if type_ specs =? pres_exp then (if p =? max_int then Throw (runtime_error "number is too big") else Ok (p + 1, alt_specs))
        else if type_ specs =? pres_fixed then Ok (p, alt_specs)
        else Ok (if p =? 0 then 1 else p, specs) in
      let? '(buffer, exp) := format_float (convert_float x) (match x with FloatBits u => Some u | _ => None end) p specs in
      do_write_float np (BigDecimal buffer exp) (set_precision p specs) s (exp_upper x).

Definition write_float (x : real) (specs : format_specs) : outcome (list Z) :=
  let s := if signbit x then sign_minus else sign specs in
  if negb (isfinite x) then Ok (write_nonfinite (isnan x) specs s)
  else if bool_decide (align specs = align_numeric) && negb (bool_decide (s = sign_none)) then
    let specs := if negb (width specs =? 0) then set_width (width specs - 1) specs else specs in
    outcome_map (cons (getsign s)) (write_finite x specs sign_none)
  else write_finite x specs s.

(** [write] without specifications. *)
Definition write_real (x : real) : outcome (list Z) :=
  let s := if signbit x then sign_minus else sign_none in
  if negb (isfinite x) then Ok (write_nonfinite (isnan x) format_specs_new s) else write_shortest x format_specs_new s.
End write.

(** The kinds of presentation; a zero in hexadecimal has the exponent of a subnormal number. *)
Example float_texts :
  let np := mknumpunct [3] 44 46 in
  let f t p := set_precision p (set_type t format_specs_new) in
  map (fun '(x, s) => write_float np x s)
    [(DoubleBits 0x3ff0000000000000, f pres_hexfloat (-1)); (DoubleBits 0, f pres_hexfloat (-1)); (DoubleBits 0x400921fb54442d18, f pres_hexfloat 3);
     (DoubleBits 0x400921fb54442d18, f pres_exp 3); (DoubleBits 0x400921fb54442d18, f pres_general 3); (FloatBits 0x40490fdb, f pres_none (-1)); (FloatBits 0x40490fdb, f pres_fixed 9)] =
  map (fun t => Ok (chars t)) ["0x1p+0"; "0x0p-1022"; "0x1.922p+1"; "3.142e+00"; "3.14"; "3.1415927"; "3.141592741"]%string.
Proof. vm_compute. reflexivity. Qed.
