(* ===== verification/FmtRoundtrip.v ===== *)
(** * fmt: the text of a float or a double reads back as that number

    [write_real] writes the shortest decimal ([FmtShortFloat]) in one of four
    layouts; a reader of decimal numbers gets the same number from each. *)

From S2P Require Import Prelude Machine FmtUtf8 FmtInt FmtWide FmtPow10 FmtBigint FmtDragon FmtDragonbox FmtShortest FmtShortFloat FmtEscape FmtParse FmtFormat FmtGroup FmtFloat.
Local Open Scope outcome_scope.

(** ** Reading a decimal number *)

Fixpoint take_digits (l : list Z) : list Z * list Z :=
  match l with
  | c :: r => if is_digit c then let '(d, r) := take_digits r in (c :: d, r) else ([], l)
  | [] => ([], [])
  end.

Definition read_sign (l : list Z) : bool * list Z :=
  match l with c :: r => if c =? 45 then (true, r) else (false, l) | [] => (false, []) end.
Definition read_fraction (l : list Z) : list Z * list Z :=
  match l with c :: r => if c =? 46 then take_digits r else ([], l) | [] => ([], []) end.
Definition read_exponent (l : list Z) : Z * list Z :=
  match l with
  | c :: s :: r => if (c =? 101) && ((s =? 43) || (s =? 45)) then let '(d, r) := take_digits r in (if s =? 45 then - dval d else dval d, r) else (0, l)
  | _ => (0, l)
  end.

(** Sign, digits with a decimal point, exponent: the sign, the digits as a number and its power of ten. *)
Definition read_decimal (l : list Z) : option (bool * Z * Z) :=
  let '(negative, l) := read_sign l in
  let '(int, l) := take_digits l in
  let '(frac, l) := read_fraction l in
  let '(exp, l) := read_exponent l in
  match int ++ frac, l with
  | _ :: _, [] => Some (negative, dval (int ++ frac), exp - zlen frac)
  | _, _ => None
  end.

Abbreviation all_digits := (Forall (fun c => is_digit c = true)).

Lemma take_digits_app ds r : all_digits ds -> (forall c r', r = c :: r' -> is_digit c = false) -> take_digits (ds ++ r) = (ds, r).
Proof.
  intros Hd Hr. induction Hd as [|c ds Hc _ IH]; cbn [app take_digits].
  - destruct r as [|c r]; [done|]. cbn [take_digits]. by rewrite (Hr c r).
  - by rewrite Hc, IH.
Qed.

(** The text of a number, from its parts. *)
Definition number_text (negative : bool) (int : list Z) (frac : option (list Z)) (exp : option (bool * list Z)) : list Z :=
  (if negative then [45] else []) ++ int ++ match frac with Some d => 46 :: d | None => [] end ++
  match exp with Some (n, d) => 101 :: (if n then 45 else 43) :: d | None => [] end.

Lemma read_number_text negative int frac (exp : option (bool * list Z)) : int <> [] -> all_digits int -> all_digits (default [] frac) -> all_digits (default [] (snd <$> exp)) ->
  read_decimal (number_text negative int frac exp) =
  Some (negative, dval (int ++ default [] frac), match exp with Some (n, d) => if (n : bool) then - dval d else dval d | None => 0 end - zlen (default [] frac)).
Proof.
  intros Hne Hi Hf He. unfold read_decimal, number_text. set (tail := match exp with Some (n, d) => 101 :: (if n then 45 else 43) :: d | None => [] end). set (mid := match frac with Some d => 46 :: d | None => [] end).
  assert (Ht : forall c r, tail = c :: r -> is_digit c = false) by (subst tail; destruct exp as [[n d]|]; [|done]; by intros c r [= <- _]).
  assert (Hm : forall c r, mid ++ tail = c :: r -> is_digit c = false) by (subst mid; destruct frac; [by intros c r [= <- _]|done]).
  assert (Es : read_sign ((if negative then [45] else []) ++ int ++ mid ++ tail) = (negative, int ++ mid ++ tail)).
  { destruct negative; [done|]. destruct Hi as [|c int Hc Hi]; [done|]. cbn [app read_sign]. by destruct (Z.eqb_spec c 45) as [->|]. }
  rewrite Es, take_digits_app by done.
  assert (Ef : read_fraction (mid ++ tail) = (default [] frac, tail)).
  { subst mid. destruct frac as [d|]; [by apply take_digits_app|]. subst tail. by destruct exp as [[n d]|]. }
  rewrite Ef. assert (Ex : read_exponent tail = (match exp with Some (n, d) => if n then - dval d else dval d | None => 0 end, [])).
  { subst tail. destruct exp as [[n d]|]; [|done]. pose proof (take_digits_app d [] He ltac:(done)) as Ed. rewrite app_nil_r in Ed. destruct n; cbn; by rewrite Ed. }
  rewrite Ex. destruct int; [done|]. done.
Qed.

(** ** The digits *)
Lemma digit_char_ok d : 0 <= d < 10 -> is_digit (digit_char d) = true.
Proof. intros H. unfold is_digit, digit_char. apply andb_true_intro. split; apply Z.leb_le; lia. Qed.

Lemma digits_value_ok n : 0 <= n -> all_digits (digits n) /\ dval (digits n) = n.
Proof.
  intros Hn. pattern n. apply Zlt_0_ind; [|done]. clear n Hn. intros n IH Hn. destruct (Z.ltb_spec n 10).
  - rewrite digits_small by lia. split; [constructor; [by apply digit_char_ok|done]|]. unfold dval, digit_char. cbn [fold_left]. lia.
  - rewrite digits_10 by lia. destruct (IH (n / 10)) as [IH1 IH2]; [split; [apply Z.div_pos; lia|apply Z.div_lt; lia]|]. pose proof (Z.mod_pos_bound n 10 ltac:(lia)). split.
    + apply Forall_app. split; [done|]. constructor; [by apply digit_char_ok|done].
    + rewrite dval_snoc, IH2. unfold digit_char. pose proof (Z.div_mod n 10 ltac:(lia)). lia.
Qed.

Lemma zeros_value n : all_digits (zeros n) /\ dval (zeros n) = 0 /\ zlen (zeros n) = Z.max n 0.
Proof.
  unfold zeros. split; [by apply Forall_replicate|]. split; [|rewrite zlen_replicate; lia]. induction (Z.to_nat n) as [|k IH]; [done|]. by rewrite replicate_S_end, dval_snoc, IH.
Qed.

(** ** The significand with a decimal point *)
Lemma fraction_pairs_ok k s N suf b : 0 <= s -> 2 * Z.of_nat k < zlen (digits s) -> 2 * Z.of_nat k + zlen suf <= N -> N <= zlen b ->
  exists s' D, fraction_pairs k s (N - zlen suf) (ends_at N suf b) = (Ok (s', N - zlen suf - 2 * Z.of_nat k), ends_at N (D ++ suf) b) /\
    0 <= s' /\ digits s = digits s' ++ D /\ zlen D = 2 * Z.of_nat k.
Proof.
  revert s suf. induction k as [|k IH]; intros s suf Hs Hk HN Hb; cbn [fraction_pairs].
  - exists s, []. rewrite app_nil_r, Z.sub_0_r. split_and!; done.
  - assert (H100 : 100 <= s). { destruct (Z.le_gt_cases 100 s); [done|]. pose proof (digits_length_le 2 s ltac:(lia) ltac:(lia)). lia. }
    rewrite (digits_100 s H100) in *. set (d2 := [digit_char _; digit_char _]) in *. rewrite zlen_app in Hk. change (zlen d2) with 2 in Hk.
    pose proof (zlen_nonneg suf). pose proof (Z.mod_pos_bound s 100 ltac:(lia)). pose proof (zlen_ends_at N suf b ltac:(lia) Hb) as Hl.
    erewrite bind_ok by (apply write2digits_ok; lia). fold d2. rewrite (ends_at_overwrite _ _ d2) by (done || lia). rewrite ends_at_ends_at by (change (zlen d2) with 2; lia).
    destruct (IH (s / 100) (d2 ++ suf)) as (s' & D & E & Hs' & Ed & HD); [apply Z.div_pos; lia|lia|rewrite zlen_app; change (zlen d2) with 2; lia|done|].
    rewrite zlen_app in E. change (zlen d2) with 2 in E. replace (N - zlen suf - 2) with (N - (2 + zlen suf)) by lia. rewrite E. exists s', (D ++ d2). rewrite <- app_assoc, zlen_app, HD, Ed, <- app_assoc. change (zlen d2) with 2.
    split_and!; [|done..|lia]. do 3 f_equal. lia.
Qed.

Lemma at_offset_0 {A} (m : M (list Z) A) b : at_offset 0 m b = m b.
Proof. unfold at_offset. pose proof (zlen_nonneg b). rewrite (proj2 (Z.leb_le 0 (zlen b))) by lia. cbn. rewrite drop_0. by destruct (m b). Qed.

Lemma do_format_decimal_at v b : 0 <= v -> zlen (digits v) <= zlen b -> zlen (digits v) < 2 ^ 32 -> do_format_decimal v (zlen (digits v)) b = (Ok 0, ends_at (zlen (digits v)) (digits v) b).
Proof.
  intros Hv Hb H32. pose proof (zlen_nonneg (digits v)). unfold do_format_decimal, u32. rewrite wrap_small by lia. rewrite format_decimal_loop_ok by lia. by rewrite Z.sub_diag.
Qed.

Lemma ends_at_nil N (b : list Z) : ends_at N [] b = b.
Proof. unfold ends_at. change (zlen (@nil Z)) with 0. rewrite Z.sub_0_r. apply take_drop. Qed.

Lemma take_ends_at l (b : list Z) : zlen l <= zlen b -> take (Z.to_nat (zlen l)) (ends_at (zlen l) l b) = l.
Proof. intros H. unfold ends_at. rewrite Z.sub_diag. change (Z.to_nat 0) with O. rewrite take_0. unfold zlen. rewrite Nat2Z.id. cbn [app]. by rewrite take_app_length. Qed.

Lemma fraction_ok s fl b : 0 <= s -> 0 <= fl < zlen (digits s) -> zlen (digits s) + 1 <= zlen b ->
  exists s' D, fraction_digits fl s (zlen (digits s) + 1) b = (Ok (s', zlen (digits s) + 1 - fl), ends_at (zlen (digits s) + 1) D b) /\ 0 <= s' /\ digits s = digits s' ++ D /\ zlen D = fl.
Proof.
  intros Hs Hfl Hb. pose proof (Z.div_mod fl 2 ltac:(lia)) as Ed. pose proof (Z.mod_pos_bound fl 2 ltac:(lia)) as Hm. set (k := Z.to_nat (fl / 2)). assert (Hk : Z.of_nat k = fl / 2) by (apply Z2Nat.id, Z.div_pos; lia).
  set (N := zlen (digits s) + 1). destruct (fraction_pairs_ok k s N [] b) as (s' & D & E & Hs' & Edig & HD); [done|lia|change (zlen (@nil Z)) with 0; lia|lia|].
  rewrite app_nil_r, ends_at_nil in E. unfold fraction_digits. change (zlen (@nil Z)) with 0 in E. rewrite !Z.sub_0_r in E. erewrite bind_ok by exact E. cbv beta iota.
  destruct (Z.eqb_spec (fl mod 2) 0) as [E0|E0]; cbn [negb]; [exists s', D; split_and!; [|done..|lia]; unfold ret; do 3 f_equal; lia|].
  assert (H10 : 10 <= s'). { destruct (Z.le_gt_cases 10 s'); [done|]. pose proof (digits_length_le 1 s' ltac:(lia) ltac:(lia)). rewrite Edig, zlen_app in Hfl. lia. }
  pose proof (zlen_ends_at N D b ltac:(lia) ltac:(lia)) as Hl. erewrite bind_ok by (apply put_at_ok; [lia|change (zlen [_]) with 1; lia]). unfold ret. fold (digit_char (s' mod 10)).
  replace (N - 2 * Z.of_nat k - 1) with (N - zlen D - 1) by lia. rewrite ends_at_overwrite by (done || lia). rewrite ends_at_ends_at by (change (zlen [_]) with 1; lia).
  exists (s' / 10), ([digit_char (s' mod 10)] ++ D). rewrite zlen_app. change (zlen [_]) with 1. split_and!; [do 3 f_equal; lia|apply Z.div_pos; lia| |lia]. rewrite Edig, (digits_10 s' H10). by rewrite <- app_assoc.
Qed.

(** The buffer for the digits of a number of 32 or 64 bits and a decimal point. *)
Lemma significand_fits bits s : bits = 32 \/ bits = 64 -> 0 <= s < 2 ^ bits -> zlen (digits s) <= 20 /\ zlen (digits s) + 1 <= zlen (point_buffer bits) /\ count_digits bits s = Ok (zlen (digits s)).
Proof.
  intros Hb Hs. split; [by apply (digits_le_bits bits)|]. destruct Hb as [->| ->].
  - split; [|by apply do_count_digits32_ok]. change (zlen (point_buffer 32)) with 11. pose proof (digits_length_le 10 s ltac:(lia) ltac:(lia)). lia.
  - split; [|by apply do_count_digits64_ok]. change (zlen (point_buffer 64)) with 21. pose proof (digits_le_bits 64 s ltac:(by right) Hs). lia.
Qed.

Lemma write_point_ok bits s i pt E : bits = 32 \/ bits = 64 -> 0 <= s < 2 ^ bits -> 1 <= i <= zlen (digits s) -> pt <> 0 ->
  write_significand_point (SmallDecimal bits s E) (zlen (digits s)) i pt = Ok (take (Z.to_nat i) (digits s) ++ pt :: drop (Z.to_nat i) (digits s)).
Proof.
  intros Hbits Hs Hi Hpt. destruct (significand_fits bits s Hbits Hs) as (Hn & Hb & _). unfold write_significand_point, write_significand_buf. rewrite (proj2 (Z.eqb_neq pt 0) Hpt).
  set (b := point_buffer bits) in *. cbv zeta.
  destruct (fraction_ok s (zlen (digits s) - i) b) as (s' & D & Efr & Hs' & Ed & HD); [lia|lia|lia|]. set (N := zlen (digits s) + 1) in *.
  assert (Hi' : zlen (digits s') = i) by (apply (f_equal zlen) in Ed; rewrite zlen_app in Ed; lia). erewrite bind_ok by exact Efr. cbv beta iota.
  pose proof (zlen_ends_at N D b ltac:(lia) ltac:(lia)) as Hl. erewrite bind_ok by (apply put_at_ok; [lia|change (zlen [_]) with 1; lia]).
  replace (N - (zlen (digits s) - i) - 1) with (N - zlen D - 1) by lia. rewrite ends_at_overwrite by (done || lia). rewrite ends_at_ends_at by (change (zlen [_]) with 1; lia).
  replace (N - zlen D - 1 - i) with 0 by lia. set (t := [pt] ++ D). assert (Ht : zlen t = 1 + (zlen (digits s) - i)) by (subst t; rewrite zlen_app; change (zlen [pt]) with 1; lia).
  erewrite bind_ok by (rewrite at_offset_0, <- Hi'; apply do_format_decimal_at; rewrite ?zlen_ends_at by lia; lia).
  replace (zlen (digits s')) with (N - zlen t) by lia. rewrite ends_at_ends_at by lia. unfold ret. assert (HN : N = zlen (digits s' ++ t)) by (rewrite zlen_app; lia).
  rewrite HN, take_ends_at by (rewrite <- HN; lia). rewrite Ed. replace (Z.to_nat i) with (length (digits s')) by (unfold zlen in Hi'; lia). by rewrite take_app_length, drop_app_length.
Qed.

(** ** The layouts *)
Lemma write_exponent_ok e : -10000 < e < 10000 -> exists d, write_exponent e = Ok ((if e <? 0 then 45 else 43) :: d) /\ all_digits d /\ (if e <? 0 then - dval d else dval d) = e.
Proof.
  intros He. unfold write_exponent. rewrite !(proj2 (Z.ltb_lt _ _)) by lia. cbn [andb]. set (u := if e <? 0 then - e else e). assert (Hu : 0 <= u < 10000) by (subst u; destruct (Z.ltb_spec e 0); lia).
  assert (H2 : forall r, 0 <= r < 100 -> all_digits [digit_char (r / 10); digit_char (r mod 10)] /\ dval [digit_char (r / 10); digit_char (r mod 10)] = r).
  { intros r Hr. pose proof (Z.mod_pos_bound r 10 ltac:(lia)). assert (0 <= r / 10 < 10) by (split; [apply Z.div_pos; lia|apply Z.div_lt_upper_bound; lia]). pose proof (Z.div_mod r 10 ltac:(lia)).
    split; [constructor; [by apply digit_char_ok|constructor; [by apply digit_char_ok|done]]|]. unfold dval, digit_char. cbn [fold_left]. lia. }
  assert (Hd : exists d, (let? '(high, uexp) := if 100 <=? u then let? top := digits2 (u / 100) in Ok (if 1000 <=? u then top else drop 1 top, u mod 100) else Ok ([], u) in
      let? d := digits2 uexp in Ok ((if e <? 0 then 45 else 43) :: high ++ d)) = Ok ((if e <? 0 then 45 else 43) :: d) /\ all_digits d /\ dval d = u).
  { destruct (Z.leb_spec 100 u) as [H|H].
    - pose proof (Z.div_mod u 100 ltac:(lia)) as Ed. pose proof (Z.mod_pos_bound u 100 ltac:(lia)) as Hm. assert (Hq : 1 <= u / 100 < 100) by (split; [apply Z.div_le_lower_bound; lia|apply Z.div_lt_upper_bound; lia]).
      rewrite (digits2_ok (u / 100)) by lia. cbn [obind]. rewrite digits2_ok by done. cbn [obind]. destruct (H2 (u / 100) ltac:(lia)) as [Ha1 Hv1]. destruct (H2 (u mod 100) Hm) as [Ha2 Hv2].
      set (lo := [digit_char (u mod 100 / 10); _]) in *. assert (El : zlen lo = 2) by done. destruct (Z.leb_spec 1000 u) as [Hk|Hk]; eexists; (split; [reflexivity|]); rewrite dval_app, El; change (10 ^ 2) with 100.
      + split; [by apply Forall_app|lia].
      + assert (Hq0 : u / 100 / 10 = 0) by (apply Z.div_small; split; [lia|apply Z.div_lt_upper_bound; lia]). rewrite Hq0 in *. apply Forall_cons in Ha1 as [_ Ha1]. cbn [drop]. split; [by apply Forall_app|].
        unfold dval, digit_char in Hv1 |- *. cbn [fold_left] in Hv1 |- *. unfold dval in Hv2. lia.
    - cbn [obind]. rewrite digits2_ok by lia. cbn [obind app]. eexists. split; [reflexivity|]. apply H2. lia. }
  destruct Hd as (d & -> & Ha & Hv). exists d. split; [done|]. split; [done|]. subst u. destruct (e <? 0); lia.
Qed.

Lemma write_padded_none right s size text : width s = 0 -> 0 <= size -> write_padded right s size text = text.
Proof.
  intros Hw Hs. unfold write_padded. rewrite Hw. change (u32 0) with 0. rewrite (proj2 (Z.ltb_ge size 0)) by lia. rewrite Z.shiftr_0_l. change (fill (0 - 0) s) with (@nil Z). change (fill 0 s) with (@nil Z). by rewrite app_nil_r.
Qed.

(** The sign of a number written without specifications. *)
Definition sign_of (negative : bool) : sign_t := if negative then sign_minus else sign_none.
Lemma write_sign_of negative : write_sign (sign_of negative) = if negative then [45] else [].
Proof. by destruct negative. Qed.

Lemma write_decimal_ok np negative bits s E xu : bits = 32 \/ bits = 64 -> 0 <= s < 2 ^ bits -> -5000 < E < 5000 ->
  exists text d E', do_write_float np (SmallDecimal bits s E) format_specs_new (sign_of negative) xu = Ok text /\
    read_decimal text = Some (negative, d, E') /\ E' <= E /\ d = s * 10 ^ (E - E').
Proof.
  intros Hbits Hs HE. destruct (digits_value_ok s ltac:(lia)) as [Ha Hv]. destruct (significand_fits bits s Hbits Hs) as (Hn & Hbuf & Hcount). pose proof (digits_pos s ltac:(lia)) as Hn1.
  unfold do_write_float, get_significand_size. rewrite Hcount. cbn [obind exponent format_specs_new localized alt negb andb orb width precision upper]. set (n := zlen (digits s)) in *.
  assert (Hne : digits s <> []) by (intros E0; subst n; rewrite E0 in Hn1; by vm_compute in Hn1).
  assert (Hsg : 0 <= (if bool_decide (sign_of negative = sign_none) then 0 else 1)) by (destruct (bool_decide _); lia). set (sg := if bool_decide _ then 0 else 1) in *.
  assert (Hhalf : forall i, all_digits (take i (digits s)) /\ all_digits (drop i (digits s))) by (intros i; split; [by apply Forall_take|by apply Forall_drop]).
  assert (Htxt : write_significand (SmallDecimal bits s E) n = Ok (digits s)) by (apply format_decimal_text_ok; lia).
  destruct (use_exp_format format_specs_new (E + n - 1) xu) eqn:Eu.
  - destruct (write_exponent_ok (E + n - 1) ltac:(lia)) as (ed & Eex & Hed & Hev). destruct (Z.eqb_spec n 1) as [E1|E1].
    + assert (Ew : write_significand_point (SmallDecimal bits s E) n 1 0 = Ok (digits s)).
      { unfold write_significand_point, write_significand_buf. change (0 =? 0) with true. cbv iota. subst n. erewrite bind_ok by (apply do_format_decimal_at; lia). unfold ret.
        by rewrite take_ends_at by lia. }
      rewrite Ew. cbn [obind]. rewrite Eex. cbn [obind]. change (0 <? 0) with false. cbv iota. rewrite write_sign_of. eexists _, s, E. split; [reflexivity|].
      change (zeros 0) with (@nil Z). change ((if negative then [45] else []) ++ digits s ++ [] ++ [101] ++ (if E + n - 1 <? 0 then 45 else 43) :: ed) with (number_text negative (digits s) None (Some (E + n - 1 <? 0, ed))).
      rewrite read_number_text by done. cbn [from_option id]. rewrite app_nil_r, Hv, Hev, Z.sub_diag, Z.mul_1_r. change (zlen (@nil Z)) with 0. split_and!; [|lia|done]. do 2 f_equal. lia.
    + rewrite write_point_ok by (done || lia). cbn [obind]. rewrite Eex. cbn [obind]. change (0 <? 0) with false. cbv iota. rewrite write_sign_of. eexists _, s, E. split; [reflexivity|].
      change (zeros 0) with (@nil Z). change (Z.to_nat 1) with 1%nat. rewrite <- app_assoc. change ((if negative then [45] else []) ++ take 1 (digits s) ++ (46 :: drop 1 (digits s)) ++ [] ++ [101] ++ (if E + n - 1 <? 0 then 45 else 43) :: ed) with
        (number_text negative (take 1 (digits s)) (Some (drop 1 (digits s))) (Some (E + n - 1 <? 0, ed))).
      rewrite read_number_text; [|by destruct (digits s)|apply Hhalf..|done]. cbn [from_option id]. rewrite take_drop, Hv, Hev, Z.sub_diag, Z.mul_1_r. split_and!; [|lia|done].
      assert (El : zlen (drop 1 (digits s)) = n - 1) by (subst n; unfold zlen in *; rewrite length_drop; lia). rewrite El. do 2 f_equal. lia.
  - change (digit_grouping_of np false) with (mkgrouping [] []). change (has_separator (mkgrouping [] [])) with false. cbn [negb].
    destruct (Z.leb_spec 0 E) as [HE0|HE0]; [|destruct (Z.ltb_spec 0 (E + n)) as [Hx|Hx]].
    + rewrite count_no_separator by (done || (unfold max_int; lia)). cbn [obind]. unfold write_significand_zeros. rewrite Htxt. cbn [obind]. change (has_separator (mkgrouping [] [])) with false. cbn [negb obind]. rewrite write_padded_none, write_sign_of by (done || lia).
      destruct (zeros_value E) as (Hz & Hzv & Hzl). eexists _, (s * 10 ^ E), 0. split; [reflexivity|]. rewrite app_nil_r.
      replace ((if negative then [45] else []) ++ digits s ++ zeros E) with (number_text negative (digits s ++ zeros E) None None) by (unfold number_text; by rewrite !app_nil_r).
      rewrite read_number_text; [|by destruct (digits s)|by apply Forall_app|done|done]. cbn [from_option id]. rewrite app_nil_r, dval_app, Hzv, Hzl, Hv, Z.max_l, Z.add_0_r, !Z.sub_0_r by done. done.
    + rewrite count_no_separator by (done || (unfold max_int; lia)). cbn [obind]. unfold write_significand_grouped. rewrite write_point_ok by (done || lia). cbn [obind]. change (has_separator (mkgrouping [] [])) with false. cbn [negb obind]. rewrite write_padded_none, write_sign_of by (done || lia).
      eexists _, s, E. split; [reflexivity|]. set (i := Z.to_nat (E + n)). change (zeros 0) with (@nil Z). rewrite <- app_assoc.
      change ((if negative then [45] else []) ++ take i (digits s) ++ (46 :: drop i (digits s)) ++ []) with (number_text negative (take i (digits s)) (Some (drop i (digits s))) None).
      assert (El : zlen (drop i (digits s)) = - E) by (subst n i; unfold zlen in *; rewrite length_drop; lia). rewrite read_number_text; [|intros Et; apply (f_equal length) in Et; rewrite length_take in Et; unfold zlen in *; subst i n; cbn [length] in Et; lia|apply Hhalf..|done].
      cbn [from_option id]. rewrite take_drop, Hv, El, Z.sub_diag, Z.mul_1_r. split_and!; [|lia|done]. do 2 f_equal. lia.
    + rewrite (proj2 (Z.eqb_neq n 0)) by lia. cbn [andb negb]. rewrite orb_true_r. cbn [orb]. rewrite Htxt. cbn [obind]. rewrite write_padded_none, write_sign_of by (done || lia).
      destruct (zeros_value (- (E + n))) as (Hz & Hzv & Hzl). eexists _, s, E. split; [reflexivity|]. set (z := zeros (- (E + n))) in *.
      replace ((if negative then [45] else []) ++ [48] ++ 46 :: z ++ digits s) with (number_text negative [48] (Some (z ++ digits s)) None) by (unfold number_text; by rewrite app_nil_r).
      rewrite read_number_text; [|done|by repeat constructor|by apply Forall_app|done]. cbn [from_option id]. rewrite !dval_app, !zlen_app, Hzv, Hzl, Hv, Z.sub_diag, Z.mul_1_r. change (dval [48]) with 0.
      split_and!; [|lia|done]. fold n. do 2 f_equal; lia.
Qed.

(** ** Every number *)
Lemma double_range u : Z.land u (exponent_mask binary64) <> exponent_mask binary64 -> let '(v, _) := fp_assign binary64 u in 0 <= f v < 2 ^ 53 /\ -1074 <= e v <= 971.
Proof.
  intros Hfin. unfold fp_assign. cbn [num_significand_bits binary64 has_implicit_bit exponent_bias]. change (mkformat 52 11 true 1023) with binary64. destruct (bits_fields u) as [Es Ee]. pose proof (exponent_field u) as Ex. rewrite Ee in Ex. rewrite Es, Ee.
  pose proof (Z.mod_pos_bound u (2 ^ 52) ltac:(lia)) as Hs. pose proof (Z.mod_pos_bound (u / 2 ^ 52) (2 ^ 11) ltac:(lia)) as Hb. set (b := u / 2 ^ 52 mod 2 ^ 11) in *.
  assert (Hb' : b <> 2047) by (intros E; apply Hfin; by rewrite Ex, E). change (Z.shiftl 1 52) with (2 ^ 52). destruct (Z.eqb_spec b 0) as [E0|E0]; cbn [f e]; lia.
Qed.

Lemma double_zero u : let '(v, _) := fp_assign binary64 u in f v = 0 -> to_decimal double_float_info u = Ok (0, 0).
Proof.
  unfold fp_assign, to_decimal. cbn [num_significand_bits binary64 has_implicit_bit exponent_bias format_ double_float_info]. change (mkformat 52 11 true 1023) with binary64. destruct (bits_fields u) as [-> ->].
  pose proof (Z.mod_pos_bound u (2 ^ 52) ltac:(lia)) as Hs. change (Z.shiftl 1 52) with (2 ^ 52). destruct (u / 2 ^ 52 mod 2 ^ 11 =? 0); cbn [f negb]; [|lia]. by intros ->.
Qed.

Lemma exponent_range f e closer s E : 0 < f < 2 ^ 53 -> -1074 <= e <= 971 -> 0 < s < 2 ^ 63 -> reads_back f e closer s E -> -400 < E < 400.
Proof.
  intros Hf He Hs Hr. assert (H : unit_num (e - 2) E <= s * unit_den (e - 2) E <= 2 ^ 56 * unit_num (e - 2) E).
  { destruct (unit_pos (e - 2) E) as [Ha Hb]. assert (1 * unit_num (e - 2) E <= (if closer then 4 * f - 1 else 4 * f - 2) * unit_num (e - 2) E) by (apply Z.mul_le_mono_nonneg_r; destruct closer; lia).
    assert ((4 * f + 2) * unit_num (e - 2) E <= 2 ^ 56 * unit_num (e - 2) E) by (apply Z.mul_le_mono_nonneg_r; lia). unfold reads_back in Hr. destruct (f mod 2 =? 0); lia. }
  unfold unit_num, unit_den in H. pose proof (Z.pow_le_mono_r 2 (Z.max (e - 2) 0) 969 ltac:(lia) ltac:(lia)) as H1. pose proof (Z.pow_le_mono_r 2 (Z.max (- (e - 2)) 0) 1076 ltac:(lia) ltac:(lia)) as H2.
  pose proof (Z.pow_pos_nonneg 2 (Z.max (e - 2) 0) ltac:(lia) ltac:(lia)) as H3. pose proof (Z.pow_pos_nonneg 2 (Z.max (- (e - 2)) 0) ltac:(lia) ltac:(lia)) as H4. assert (Hbig : 2 ^ 1139 < 10 ^ 400) by (vm_compute; reflexivity).
  set (p := 2 ^ Z.max (e - 2) 0) in *. set (q := 2 ^ Z.max (- (e - 2)) 0) in *. split; apply Z.nle_gt; intros HE.
  - rewrite (Z.max_l (- E) 0), (Z.max_r E 0) in H by lia. change (10 ^ 0) with 1 in H. pose proof (Z.pow_le_mono_r 10 400 (- E) ltac:(lia) ltac:(lia)) as HX.
    assert (s * (q * 1) <= 2 ^ 63 * 2 ^ 1076) by (rewrite Z.mul_1_r; apply Z.mul_le_mono_nonneg; lia). rewrite <- Z.pow_add_r in * by lia. change (63 + 1076) with 1139 in *. nia.
  - rewrite (Z.max_r (- E) 0), (Z.max_l E 0) in H by lia. change (10 ^ 0) with 1 in H. pose proof (Z.pow_le_mono_r 10 400 E ltac:(lia) ltac:(lia)) as HX.
    assert (HY : 2 ^ 56 * (p * 1) <= 2 ^ 56 * 2 ^ 969) by (rewrite Z.mul_1_r; apply Z.mul_le_mono_nonneg_l; lia). rewrite <- Z.pow_add_r in HY by lia. change (56 + 969) with 1025 in HY.
    pose proof (Z.pow_lt_mono_r 2 1025 1139 ltac:(lia) ltac:(lia) ltac:(lia)). nia.
Qed.

Lemma float_range u : Z.land u (exponent_mask binary32) <> exponent_mask binary32 -> let '(v, _) := fp_assign binary32 u in 0 <= f v < 2 ^ 24 /\ -149 <= e v <= 104.
Proof.
  intros Hfin. unfold fp_assign. cbn [num_significand_bits binary32 has_implicit_bit exponent_bias]. change (mkformat 23 8 true 127) with binary32. destruct (float_fields u) as [Es Ee]. pose proof (float_exponent_field u) as Ex. rewrite Ee in Ex. rewrite Es, Ee.
  pose proof (Z.mod_pos_bound u (2 ^ 23) ltac:(lia)) as Hs. pose proof (Z.mod_pos_bound (u / 2 ^ 23) (2 ^ 8) ltac:(lia)) as Hb. set (b := u / 2 ^ 23 mod 2 ^ 8) in *.
  assert (Hb' : b <> 255) by (intros E; apply Hfin; by rewrite Ex, E). change (Z.shiftl 1 23) with (2 ^ 23). destruct (Z.eqb_spec b 0) as [E0|E0]; cbn [f e]; lia.
Qed.

Lemma float_zero u : let '(v, _) := fp_assign binary32 u in f v = 0 -> to_decimal float_float_info u = Ok (0, 0).
Proof.
  unfold fp_assign, to_decimal. cbn [num_significand_bits binary32 has_implicit_bit exponent_bias format_ float_float_info]. change (mkformat 23 8 true 127) with binary32. destruct (float_fields u) as [-> ->].
  pose proof (Z.mod_pos_bound u (2 ^ 23) ltac:(lia)) as Hs. change (Z.shiftl 1 23) with (2 ^ 23). destruct (u / 2 ^ 23 mod 2 ^ 8 =? 0); cbn [f negb]; [|lia]. by intros ->.
Qed.

(** The bits fit the type. *)
Definition real_ok (x : real) : Prop := 0 <= bits_of x < 2 ^ carrier_bits (info_of x).
Definition value_of (x : real) : basic_fp * bool := fp_assign (format_ (info_of x)) (bits_of x).

Lemma signbit_ok x : real_ok x -> signbit x = (2 ^ (carrier_bits (info_of x) - 1) <=? bits_of x).
Proof.
  unfold real_ok, signbit. assert (Hw : carrier_bits (info_of x) = 32 \/ carrier_bits (info_of x) = 64) by (destruct x; [by left|by right]). intros Hu. set (w := carrier_bits (info_of x)) in *. set (u := bits_of x) in *.
  rewrite Z.shiftr_div_pow2 by lia. assert (E2 : 2 ^ w = 2 * 2 ^ (w - 1)) by (rewrite <- Z.pow_succ_r by lia; f_equal; lia). destruct (Z.leb_spec (2 ^ (w - 1)) u) as [H|H]; [|by rewrite Z.div_small by lia].
  rewrite <- (Z.div_unique u (2 ^ (w - 1)) 1 (u - 2 ^ (w - 1))) by lia. done.
Qed.

Lemma finite_ok x : isfinite x = true -> Z.land (bits_of x) (exponent_mask (format_ (info_of x))) <> exponent_mask (format_ (info_of x)).
Proof. unfold isfinite. cbv zeta. intros H. apply negb_true_iff, Z.eqb_neq in H. done. Qed.

(** What [to_decimal] gives the writer. *)
Lemma to_decimal_real x : real_ok x -> isfinite x = true ->
  let '(v, closer) := value_of x in
  exists s E, to_decimal (info_of x) (bits_of x) = Ok (s, E) /\ 0 <= s < 2 ^ carrier_bits (info_of x) /\ -400 < E < 400 /\ if f v =? 0 then s = 0 else reads_back (f v) (e v) closer s E.
Proof.
  intros Hx Hfin. apply finite_ok in Hfin. unfold value_of, real_ok in *. destruct x as [u|u]; cbn [info_of bits_of] in *.
  - change (format_ float_float_info) with binary32 in *. change (carrier_bits float_float_info) with 32 in *. pose proof (float_shortest u Hx Hfin) as Hsh. pose proof (float_range u Hfin) as Hr. pose proof (float_zero u) as Hz. destruct (fp_assign binary32 u) as [v closer].
    destruct (Z.eqb_spec (f v) 0) as [E0|E0]; [exists 0, 0; split; [by apply Hz|]; split_and!; lia|]. destruct (Hsh E0) as (s & E & Ed & Hs & Hrb & _). exists s, E. split_and!; try done; try lia; apply (exponent_range (f v) (e v) closer s E); done || lia.
  - change (format_ double_float_info) with binary64 in *. change (carrier_bits double_float_info) with 64 in *. pose proof (double_shortest u Hx Hfin) as Hsh. pose proof (double_range u Hfin) as Hr. pose proof (double_zero u) as Hz. destruct (fp_assign binary64 u) as [v closer].
    destruct (Z.eqb_spec (f v) 0) as [E0|E0]; [exists 0, 0; split; [by apply Hz|]; split_and!; lia|]. destruct (Hsh E0) as (s & E & Ed & Hs & Hrb & _). exists s, E. split_and!; try done; try lia; apply (exponent_range (f v) (e v) closer s E); done || lia.
Qed.

(** C20: For every finite float or double, [write] without specifications returns a text, and the decimal number in that text has the sign of
    the number and is read back as the number: it is zero for a zero, and lies in the interval of the numbers that round to
    it otherwise. *)
Theorem real_text_roundtrip np x : real_ok x -> isfinite x = true ->
  let '(v, closer) := value_of x in
  exists text d E, write_real np x = Ok text /\ read_decimal text = Some (2 ^ (carrier_bits (info_of x) - 1) <=? bits_of x, d, E) /\
    if f v =? 0 then d = 0 else reads_back (f v) (e v) closer d E.
Proof.
  intros Hx Hfin. unfold write_real. rewrite Hfin, signbit_ok by done. cbn [negb]. set (neg := 2 ^ (carrier_bits (info_of x) - 1) <=? bits_of x). fold (sign_of neg). unfold write_shortest.
  pose proof (to_decimal_real x Hx Hfin) as H. destruct (value_of x) as [v closer]. destruct H as (s & E & Ed & Hs & HE & Hv). rewrite Ed. cbn [obind].
  assert (Hw : carrier_bits (info_of x) = 32 \/ carrier_bits (info_of x) = 64) by (destruct x; [by left|by right]).
  destruct (write_decimal_ok np neg (carrier_bits (info_of x)) s E (exp_upper x) Hw Hs ltac:(lia)) as (text & d & E' & Ew & Er & HE' & Hd). exists text, d, E'. split_and!; [done..|].
  destruct (f v =? 0); [by rewrite Hd, Hv|]. rewrite Hd. apply reads_back_shift; [lia|]. by replace (E' + (E - E')) with E by lia.
Qed.

Lemma real_text_roundtrip_witness : exists text d E, write_real (mknumpunct [] 44 46) (DoubleBits 0xbfb999999999999a) = Ok text /\
  read_decimal text = Some (true, d, E) /\ reads_back 0x1999999999999a (-56) false d E.
Proof.
  assert (Ea : value_of (DoubleBits 0xbfb999999999999a) = (mkfp 0x1999999999999a (-56), false)) by (vm_compute; reflexivity).
  pose proof (real_text_roundtrip (mknumpunct [] 44 46) (DoubleBits 0xbfb999999999999a)) as H. rewrite Ea in H. cbn [f e] in H. apply H; [split; [discriminate|reflexivity]|vm_compute; reflexivity].
Defined.

(** The four layouts, zeros, and what is not a number. *)
Example texts_of_doubles :
  map (fun u => write_real (mknumpunct [3] 44 46) (DoubleBits u)) [0xc08f400000000000; 0x40c81cd6e631f8a1; 0x3f50624dd2f1a9fc; 0x4341c37937e08000; 0x8000000000000000; 0xfff0000000000000; 0x7ff8000000000000] =
  map (fun s => Ok (chars s)) ["-1000"; "12345.6789"; "0.001"; "1e+16"; "-0"; "-inf"; "nan"]%string.
Proof. vm_compute. reflexivity. Qed.
