(* ===== verification/FmtFixed.v ===== *)
(** * fmt: fixed precision is rounded correctly

    [format_float] takes up to 18 digits from one product with a cached power
    of ten and uses [format_dragon] for more.  Both give the number
    rounded half to even at the digit asked for. *)

From S2P Require Import Prelude Machine FmtUtf8 FmtInt FmtWide FmtPow10 FmtBigint FmtDragon FmtDragonbox FmtShortest FmtShortFloat FmtEscape FmtParse FmtFormat FmtGroup FmtFloat FmtRoundtrip.
Local Open Scope outcome_scope.

(** ** The first segment *)
Lemma normalized_ok u : 0 <= u < 2 ^ 64 -> Z.land u (exponent_mask binary64) <> exponent_mask binary64 ->
  let '(v, _) := fp_assign binary64 u in
  f v <> 0 -> exists n j, normalized u = Ok (n, e v + 1 - j) /\ 1 <= j <= 53 /\ n = f v * 2 ^ j /\ 2 ^ 53 <= n < 2 ^ 54.
Proof.
  intros Hu Hfin. pose proof (double_range u Hfin) as Hr. unfold fp_assign, normalized in *. cbn [num_significand_bits binary64 has_implicit_bit exponent_bias] in *. change (mkformat 52 11 true 1023) with binary64 in *.
  destruct (bits_fields u) as [Es Ee]. rewrite Es, Ee in *. change (Z.shiftl 1 52) with (2 ^ 52) in *. pose proof (Z.mod_pos_bound u (2 ^ 52) ltac:(lia)) as Hs. set (b := u / 2 ^ 52 mod 2 ^ 11) in *. set (s := u mod 2 ^ 52) in *.
  destruct (Z.eqb_spec b 0) as [E0|E0]; cbn [negb f e] in *; intros Hf.
  - rewrite (proj2 (Z.eqb_neq s 0)) by done. unfold CLZLL. pose proof (Z.log2_spec s ltac:(lia)) as Hl. pose proof (Z.log2_nonneg s) as Hl0. assert (Hl1 : Z.log2 s < 52) by (apply Z.log2_lt_pow2; lia).
    rewrite (proj2 (Z.leb_le _ _)) by lia. rewrite shl64_ok by lia. cbn [obind]. exists (s * 2 ^ (53 - Z.log2 s)), (53 - Z.log2 s). replace (63 - Z.log2 s - (64 - 52 - 2)) with (53 - Z.log2 s) by lia.
    rewrite Z.pow_succ_r in Hl by lia. assert (Hb : 2 ^ 53 <= s * 2 ^ (53 - Z.log2 s) < 2 ^ 54).
    { pose proof (Z.pow_pos_nonneg 2 (53 - Z.log2 s) ltac:(lia) ltac:(lia)). assert (E : 2 ^ Z.log2 s * 2 ^ (53 - Z.log2 s) = 2 ^ 53) by (rewrite <- Z.pow_add_r by lia; f_equal; lia). change (2 ^ 54) with (2 * 2 ^ 53). nia. }
    split_and!; [|lia|lia|done|lia|lia]. rewrite Z.mod_small by lia. do 2 f_equal; lia.
  - assert (El : Z.lor s (2 ^ 52) = s + 2 ^ 52) by (rewrite Z.lor_comm; change (2 ^ 52) with (1 * 2 ^ 52) at 1; rewrite (lor_parts 1 s 52) by lia; lia).
    rewrite El, Z.shiftl_mul_pow2 by lia. exists ((s + 2 ^ 52) * 2), 1. change (2 ^ 1) with 2. split_and!; try lia. unfold u64. rewrite wrap_small by lia. do 2 f_equal. lia.
Qed.

(** The number in units of [10 ^ x], as a fraction. *)
Definition num_at (v : basic_fp) (x : Z) : Z := f v * 2 ^ Z.max (e v) 0 * p10 (- x).
Definition den_at (v : basic_fp) (x : Z) : Z := 2 ^ Z.max (- e v) 0 * p10 x.

Lemma den_at_pos v x : 0 < den_at v x.
Proof. unfold den_at. pose proof (p10_pos x). pose proof (Z.pow_pos_nonneg 2 (Z.max (- e v) 0) ltac:(lia) ltac:(lia)). nia. Qed.

(** [F] has the first [D] digits of the number in units of [10 ^ x] and, where [D] is 18, a zero; [more]: digits that are not zero follow. *)
Record segment (v : basic_fp) (F : Z) (more : bool) (D x : Z) : Prop := {
  seg_digits : D = 18 \/ D = 19;
  seg_size : 10 ^ (D - 1) * den_at v x <= num_at v x < 10 ^ D * den_at v x;
  seg_floor : F * den_at v x <= num_at v x * 10 ^ (19 - D) < (F + 10 ^ (19 - D)) * den_at v x;
  seg_zero : F mod 10 ^ (19 - D) = 0;
  seg_more : more = negb (num_at v x * 10 ^ (19 - D) =? F * den_at v x);
  seg_exp : -400 <= x <= 400 }.

Lemma ratio_floor a b c d : 0 < b -> 0 < d -> a * d = c * b -> a / b = c / d /\ (a mod b =? 0) = (c mod d =? 0).
Proof.
  intros Hb Hd E. assert (Eq : a / b = c / d) by (rewrite <- (Z.div_mul_cancel_r a b d), <- (Z.div_mul_cancel_r c d b), E, (Z.mul_comm b d) by lia; done). split; [done|].
  pose proof (Z.div_mod a b ltac:(lia)) as E1. pose proof (Z.div_mod c d ltac:(lia)) as E2. rewrite Eq in E1. apply Bool.eq_iff_eq_true. rewrite !Z.eqb_eq. split; intros E0; rewrite E0 in *; nia.
Qed.

Lemma first_digits_ok u : 0 <= u < 2 ^ 64 -> Z.land u (exponent_mask binary64) <> exponent_mask binary64 ->
  let '(v, _) := fp_assign binary64 u in
  f v <> 0 -> exists F more D x, first_digits u = Ok (F, more, D, x) /\ segment v F more D x.
Proof.
  intros Hu Hfin. pose proof (normalized_ok u Hu Hfin) as Hn. pose proof (double_range u Hfin) as Hr. destruct (fp_assign binary64 u) as [v closer]. intros Hf. destruct (Hn Hf) as (n & j & En & Hj & Ej & Hn54).
  unfold first_digits. rewrite En. cbn [obind]. set (e' := e v + 1 - j). destruct (all_seen e' ltac:(lia)) as (m & y & l & Hs). destruct Hs as (Em & Ey & El & Hy & Hb & E2 & Hd & Hseen). rewrite Em. cbn [obind]. rewrite El. cbn [obind].
  set (k := 2 - m) in *. assert (Hk : -400 <= k <= 400).
  { unfold floor_log10_pow2 in Em. destruct (_ && _); [|done]. injection Em as Em. rewrite Z.shiftr_div_pow2 in Em by lia. subst k. pose proof (Z.div_mod (e' * 315653) (2 ^ 20) ltac:(lia)). pose proof (Z.mod_pos_bound (e' * 315653) (2 ^ 20) ltac:(lia)). change (2 ^ 20) with 1048576 in *. lia. }
  pose proof (Z.pow_le_mono_r 2 (e' + l) 9 ltac:(lia) ltac:(lia)) as Hp. pose proof (Z.pow_pos_nonneg 2 (e' + l) ltac:(lia) ltac:(lia)) as Hp0. change (2 ^ 9) with 512 in Hp.
  rewrite shl64_ok, Z.mod_small by (lia || nia). cbn [obind]. rewrite Ey. cbn [obind]. pose proof (double_mul_ok y (e' + l) Hy ltac:(lia) n ltac:(lia) ltac:(nia)) as Hmul. unfold double_compute_mul in Hmul.
  set (r := umul192_upper128 (n * 2 ^ (e' + l)) y) in *. pose proof (f_equal fst Hmul) as Hhi. pose proof (f_equal snd Hmul) as Hlo. cbn [fst snd] in Hhi, Hlo. clear Hmul. destruct (Hseen n) as [Hfl Hmd]; [unfold least; destruct (e' =? -1074); lia|]. change (prod y (e' + l) n / 2 ^ 128 = n * scale_num e' k / scale_den e' k) in Hfl. change ((prod y (e' + l) n / 2 ^ 64 mod 2 ^ 64 =? 0) = (n * scale_num e' k mod scale_den e' k =? 0)) in Hmd. rewrite Hfl in Hhi. rewrite Hmd in Hlo.
  destruct (scale_pos e' k) as [HN HM]. set (N := scale_num e' k) in *. set (M := scale_den e' k) in *. set (a := num_at v (- k)). set (b := den_at v (- k)). assert (HB : 0 < b) by apply den_at_pos.
  assert (Hab : a * M = n * N * b).
  { subst a b N M. unfold num_at, den_at, p10, scale_num, scale_den. rewrite Ej, !Z.opp_involutive. assert (Epow : 2 ^ Z.max (e v) 0 * 2 ^ Z.max (1 - e') 0 = 2 ^ j * 2 ^ Z.max (e' - 1) 0 * 2 ^ Z.max (- e v) 0) by (rewrite <- !Z.pow_add_r by lia; f_equal; lia).
    transitivity (f v * 10 ^ Z.max k 0 * 10 ^ Z.max (- k) 0 * (2 ^ Z.max (e v) 0 * 2 ^ Z.max (1 - e') 0)); [ring|]. rewrite Epow. ring. }
  destruct (ratio_floor a b (n * N) M HB HM Hab) as [Efl Emd]. rewrite <- Efl in Hhi. rewrite <- Emd in Hlo. rewrite Hhi, Hlo.
  assert (HU : 100 * M <= 2 * N < 1000 * M) by (rewrite E2 in Hd; pose proof (Z.div_mod (2 * N) M ltac:(lia)); pose proof (Z.mod_pos_bound (2 * N) M HM); nia).
  pose proof (Z.div_mod a b ltac:(lia)) as Ea. pose proof (Z.mod_pos_bound a b HB) as Hab'. assert (Hra : 10 ^ 17 <= a / b < 10 ^ 19).
  { rewrite Efl. split; [apply Z.div_le_lower_bound; [done|]; change (10 ^ 17) with 100000000000000000; nia|apply Z.div_lt_upper_bound; [done|]; change (10 ^ 19) with 10000000000000000000; nia]. }
  set (q := a / b) in *. destruct (Z.leb_spec 1000000000000000000 q) as [Hq|Hq].
  - exists q, (negb (a mod b =? 0)), 19, (- k). split; [done|]. split; [by right| | | | |lia]; fold a b; change (10 ^ (19 - 19)) with 1; change (10 ^ (19 - 1)) with 1000000000000000000; rewrite ?Z.mul_1_r.
    + nia.
    + lia.
    + apply Z.mod_1_r.
    + f_equal. apply Bool.eq_iff_eq_true. rewrite !Z.eqb_eq. lia.
  - exists (q * 10), (negb (a mod b =? 0)), 18, (- k). split; [unfold u64; rewrite wrap_small by lia; done|]. split; [by left| | | | |lia]; fold a b; change (10 ^ (19 - 18)) with 10; change (10 ^ (18 - 1)) with 100000000000000000; change (10 ^ 18) with 1000000000000000000.
    + nia.
    + lia.
    + apply Z.mod_mul. lia.
    + f_equal. apply Bool.eq_iff_eq_true. rewrite !Z.eqb_eq. lia.
Qed.

(** ** Rounding the segment *)

(** Whether a number with the integer part [F], and [more] behind it, is rounded up to a multiple of [u]. *)
Definition rounds_up (F u : Z) (more : bool) : bool :=
  (u <? 2 * (F mod u)) || ((2 * (F mod u) =? u) && (more || Z.odd (F / u))).

Lemma multiple_gap g x y : 0 < g -> x mod g = 0 -> y mod g = 0 -> x < y -> x + g <= y.
Proof. intros Hg Hx Hy H. apply Z.mod_divide in Hx as [p ->]; [|lia]. apply Z.mod_divide in Hy as [q ->]; [|lia]. apply Z.mul_lt_mono_pos_r in H; [|done]. pose proof (Z.mul_le_mono_nonneg_r (p + 1) q g ltac:(lia) ltac:(lia)). lia. Qed.

Lemma rhe_from_floor a b F g h : 0 < b -> 0 < g -> F * b <= a < (F + g) * b -> F mod g = 0 -> 0 < h -> h mod g = 0 ->
  rhe a (b * (2 * h)) = F / (2 * h) + Z.b2z (rounds_up F (2 * h) (negb (a =? F * b))).
Proof.
  intros Hb Hg Ha HF Hh Hhg. set (u := 2 * h). pose proof (Z.div_mod F u ltac:(lia)) as EF. pose proof (Z.mod_pos_bound F u ltac:(lia)) as HR. set (Q := F / u) in *. set (R := F mod u) in *.
  assert (HRg : R mod g = 0). { replace R with (F - 2 * Q * h) by (subst u; lia). apply Z.mod_divide in HF as [p ->]; [|lia]. apply Z.mod_divide in Hhg as [q ->]; [|lia]. replace (p * g - 2 * Q * (q * g)) with ((p - 2 * Q * q) * g) by ring. apply Z.mod_mul. lia. }
  assert (Hug : u mod g = 0). { apply Z.mod_divide in Hhg as [q Eq]; [|lia]. subst u. rewrite Eq. replace (2 * (q * g)) with (2 * q * g) by ring. apply Z.mod_mul. lia. }
  pose proof (multiple_gap g R u Hg HRg Hug (proj2 HR)) as Hgap. set (rho := a - Q * u * b). assert (EFb : F * b = Q * u * b + R * b) by (rewrite EF; ring). assert (Hrho : R * b <= rho < (R + g) * b) by (subst rho; lia).
  assert (Hgb : (R + g) * b <= u * b) by (apply Z.mul_le_mono_nonneg_r; lia). assert (Hrho0 : 0 <= R * b) by nia. assert (Hub : u * b = 2 * (h * b)) by (subst u; ring).
  unfold rhe. rewrite <- (Z.div_unique a (b * u) Q rho), <- (Z.mod_unique a (b * u) Q rho) by (subst rho; lia || (left; lia)). unfold rounds_up. fold R Q. rewrite (Z.mul_comm b u).
  assert (Emore : (a =? F * b) = (rho =? R * b)) by (apply Bool.eq_iff_eq_true; rewrite !Z.eqb_eq; subst rho; lia). rewrite Emore, <- Z.negb_even, even_mod.
  destruct (Z.lt_trichotomy R h) as [H|[->|H]].
  - pose proof (multiple_gap g R h Hg HRg Hhg H) as Hg2. assert ((R + g) * b <= h * b) by (apply Z.mul_le_mono_nonneg_r; lia). rewrite (proj2 (Z.ltb_ge (u * b) _)), (proj2 (Z.eqb_neq (2 * rho) _)), (proj2 (Z.ltb_ge u _)), (proj2 (Z.eqb_neq (2 * R) u)) by lia. cbn. lia.
  - rewrite (proj2 (Z.ltb_ge u _)), (proj2 (Z.eqb_eq (2 * h) u)) by lia. cbn [orb andb]. destruct (Z.eqb_spec rho (h * b)) as [E|E]; cbn [negb orb].
    + rewrite (proj2 (Z.ltb_ge (u * b) _)), (proj2 (Z.eqb_eq (2 * rho) _)) by lia. cbn [orb andb]. destruct (Q mod 2 =? 0); cbn; lia.
    + rewrite (proj2 (Z.ltb_lt (u * b) _)) by lia. cbn. lia.
  - assert ((h + 1) * b <= R * b) by (apply Z.mul_le_mono_nonneg_r; lia). rewrite (proj2 (Z.ltb_lt (u * b) _)), (proj2 (Z.ltb_lt u _)) by lia. cbn. lia.
Qed.

(** ** Printing nine digits *)

(** The last [t] digits of a number. *)
Fixpoint last_digits (t : nat) (x : Z) : list Z :=
  match t with O => [] | S t => last_digits t (x / 10) ++ [digit_char (x mod 10)] end.

Lemma last_digits_ok t x : length (last_digits t x) = t /\ Forall FmtDragon.is_digit (last_digits t x) /\ dval (last_digits t x) = x mod 10 ^ Z.of_nat t.
Proof.
  revert x. induction t as [|t IH]; intros x; cbn [last_digits]; [by rewrite Z.mod_1_r|]. destruct (IH (x / 10)) as (Hl & Hd & Hv). pose proof (Z.mod_pos_bound x 10 ltac:(lia)) as Hm. split_and!.
  - rewrite length_app, Hl. cbn. lia.
  - apply Forall_app. split; [done|]. constructor; [red; unfold digit_char; lia|done].
  - rewrite dval_snoc, Hv. unfold digit_char. pose proof (Z.pow_pos_nonneg 10 (Z.of_nat t) ltac:(lia) ltac:(lia)). rewrite Nat2Z.inj_succ, Z.pow_succ_r, Z.rem_mul_r by lia. lia.
Qed.

Lemma last_digits_two t q r : 0 <= r < 100 -> last_digits (S (S t)) (100 * q + r) = last_digits t q ++ [digit_char (r / 10); digit_char (r mod 10)].
Proof.
  intros Hr. cbn [last_digits]. rewrite <- app_assoc. cbn [app].
  assert (E1 : (100 * q + r) / 10 = 10 * q + r / 10) by (replace (100 * q + r) with (r + 10 * q * 10) by ring; rewrite Z.div_add by lia; lia).
  assert (Hq : 0 <= r / 10 < 10) by (split; [apply Z.div_pos; lia|apply Z.div_lt_upper_bound; lia]). assert (E2 : (10 * q + r / 10) / 10 = q) by (symmetry; apply (Z.div_unique _ _ _ (r / 10)); lia).
  assert (E3 : (10 * q + r / 10) mod 10 = r / 10) by (symmetry; apply (Z.mod_unique _ _ q); lia). assert (E4 : (100 * q + r) mod 10 = r mod 10) by (replace (100 * q + r) with (r + 10 * q * 10) by ring; by rewrite Z.mod_add by lia).
  by rewrite E1, E2, E3, E4.
Qed.

Lemma overwrite_prefix off l1 l2 (b : list Z) : 0 <= off -> off + zlen l1 + zlen l2 <= zlen b -> overwrite (off + zlen l1) l2 (overwrite off l1 b) = overwrite off (l1 ++ l2) b.
Proof.
  intros Ho Hb. unfold overwrite, zlen in *. rewrite length_app. rewrite (app_assoc (take _ b)), take_app_le, take_ge by (rewrite length_app, length_take; lia).
  rewrite drop_app_ge by (rewrite length_app, length_take; lia). rewrite drop_drop, length_app, length_take, <- !app_assoc. do 3 f_equal. f_equal. lia.
Qed.

(** [P / 2 ^ 32] is what has been printed, and the next digits are in the lower half of the product. *)
Lemma print_pairs_ok k fuel off t prod d P b : (k <= fuel)%nat -> 0 <= P -> u32 prod = P mod 2 ^ 32 -> d mod 2 = P / 2 ^ 32 mod 2 -> 0 <= off -> off + Z.of_nat t + 2 * Z.of_nat k <= zlen b ->
  exists prod' d', print_pairs fuel off (Z.of_nat t) (Z.of_nat t + 2 * Z.of_nat k) prod d (overwrite off (last_digits t (P / 2 ^ 32)) b) =
    (Ok (prod', d'), overwrite off (last_digits (t + 2 * k) (P * 100 ^ Z.of_nat k / 2 ^ 32)) b) /\ u32 prod' = P * 100 ^ Z.of_nat k mod 2 ^ 32 /\ d' mod 2 = P * 100 ^ Z.of_nat k / 2 ^ 32 mod 2.
Proof.
  revert fuel t prod d P. induction k as [|k IH]; intros fuel t prod d P Hk HP Hprod Hd Ho Hb.
  - exists prod, d. change (100 ^ Z.of_nat 0) with 1. rewrite Z.mul_1_r, Nat.add_0_r. destruct fuel; cbn [print_pairs]; rewrite (proj2 (Z.ltb_ge _ _)) by lia; done.
  - destruct fuel as [|fuel]; [lia|]. cbn [print_pairs]. rewrite (proj2 (Z.ltb_lt _ _)) by lia. rewrite Hprod. pose proof (Z.mod_pos_bound P (2 ^ 32) ltac:(lia)) as Hm. set (w := P mod 2 ^ 32) in *. set (q := P / 2 ^ 32) in *.
    assert (EP : P = q * 2 ^ 32 + w) by (pose proof (Z.div_mod P (2 ^ 32) ltac:(lia)); lia). rewrite Z.shiftr_div_pow2 by lia. unfold u64. rewrite (wrap_small 64 (w * 100)) by lia.
    assert (Hr : 0 <= w * 100 / 2 ^ 32 < 100) by (split; [apply Z.div_pos; lia|apply Z.div_lt_upper_bound; lia]). set (r := w * 100 / 2 ^ 32) in *. assert (Eu : u32 r = r) by (apply wrap_small; lia). rewrite Eu.
    assert (Eq : P * 100 / 2 ^ 32 = 100 * q + r) by (rewrite EP; replace ((q * 2 ^ 32 + w) * 100) with (w * 100 + 100 * q * 2 ^ 32) by ring; rewrite Z.div_add by lia; subst r; lia).
    assert (Ew : P * 100 mod 2 ^ 32 = w * 100 mod 2 ^ 32) by (rewrite EP; replace ((q * 2 ^ 32 + w) * 100) with (w * 100 + 100 * q * 2 ^ 32) by ring; by rewrite Z.mod_add by lia).
    destruct (last_digits_ok t q) as (Hl & _ & _). assert (Hz : zlen (last_digits t q) = Z.of_nat t) by (unfold zlen; by rewrite Hl).
    erewrite bind_ok by (apply write2digits_ok; [lia|lia|rewrite zlen_overwrite by lia; lia]). rewrite <- Hz. rewrite overwrite_prefix by (rewrite ?Hz; try change (zlen [_; _]) with 2; lia).
    rewrite <- last_digits_two by done. rewrite <- Eq, Hz. destruct (IH fuel (S (S t)) (w * 100) r (P * 100)) as (prod' & d' & E & Hp' & Hd'); [lia|lia|by rewrite Ew| |done|lia|].
    { rewrite Eq, <- (Z.mod_add r (50 * q) 2) by lia. f_equal. lia. }
    exists prod', d'. replace (Z.of_nat t + 2 * Z.of_nat (S k)) with (Z.of_nat (S (S t)) + 2 * Z.of_nat k) by lia. replace (Z.of_nat t + 2) with (Z.of_nat (S (S t))) by lia. rewrite E.
    replace (S (S t) + 2 * k)%nat with (t + 2 * S k)%nat by lia. replace (P * 100 * 100 ^ Z.of_nat k) with (P * 100 ^ Z.of_nat (S k)) in * by (rewrite Nat2Z.inj_succ, Z.pow_succ_r by lia; ring). done.
Qed.

(** From a product that approximates [S / u]. *)
Lemma approx_quotient P S u : 0 < u -> 0 <= S -> 2 ^ 32 * S < P * u < 2 ^ 32 * (S + 1) ->
  0 <= P /\ P / 2 ^ 32 = S / u /\ 2 ^ 32 * (S mod u) < P mod 2 ^ 32 * u < 2 ^ 32 * (S mod u + 1).
Proof.
  intros Hu HS HP. pose proof (Z.div_mod S u ltac:(lia)) as ES. pose proof (Z.mod_pos_bound S u Hu) as Hr. set (q := S / u) in *. set (r := S mod u) in *. assert (Hq : 0 <= q) by (apply Z.div_pos; lia). assert (HP0 : 0 < P) by nia.
  assert (E : P / 2 ^ 32 = q).
  { symmetry. apply (Z.div_unique P (2 ^ 32) q (P - 2 ^ 32 * q)); [|lia]. left. assert (2 ^ 32 * q * u < P * u) by nia. assert (P * u < 2 ^ 32 * (q + 1) * u) by nia.
    split; [|]; [apply Z.lt_le_incl; apply (Z.mul_lt_mono_pos_r u); [done|]; nia|apply (Z.mul_lt_mono_pos_r u); [done|]; nia]. }
  split; [lia|]. split; [done|]. pose proof (Z.div_mod P (2 ^ 32) ltac:(lia)) as EP. rewrite E in EP. set (w := P mod 2 ^ 32) in *. rewrite EP, ES in HP. nia.
Qed.

Lemma print_rest_ok t0 k S off P b : (1 <= t0 <= 2)%nat -> (t0 + 2 * k <= 9)%nat -> 0 <= S -> 0 <= off -> off + Z.of_nat (t0 + 2 * k) <= zlen b ->
  2 ^ 32 * S < P * 10 ^ (9 - Z.of_nat t0) < 2 ^ 32 * (S + 1) ->
  let u := 10 ^ (9 - Z.of_nat (t0 + 2 * k)) in
  exists prod d, print_pairs 4 off (Z.of_nat t0) (Z.of_nat (t0 + 2 * k)) P (P / 2 ^ 32) (overwrite off (last_digits t0 (P / 2 ^ 32)) b) = (Ok (prod, d), overwrite off (last_digits (t0 + 2 * k) (S / u)) b) /\
    d mod 2 = S / u mod 2 /\ 2 ^ 32 * (S mod u) < u32 prod * u < 2 ^ 32 * (S mod u + 1).
Proof.
  intros Ht Hk HS Ho Hb HP u. pose proof (Z.pow_pos_nonneg 10 (9 - Z.of_nat t0) ltac:(lia) ltac:(lia)) as H10. assert (HP0 : 0 <= P) by nia.
  destruct (print_pairs_ok k 4 off t0 P (P / 2 ^ 32) P b) as (prod & d & Epr & Hpr & Hdr); [lia|done|done|done|done|lia|].
  replace (Z.of_nat t0 + 2 * Z.of_nat k) with (Z.of_nat (t0 + 2 * k)) in Epr by lia. rewrite Epr.
  destruct (approx_quotient (P * 100 ^ Z.of_nat k) S u) as (_ & EQ & HF); [apply Z.pow_pos_nonneg; lia|lia| |].
  { replace (P * 100 ^ Z.of_nat k * u) with (P * 10 ^ (9 - Z.of_nat t0)); [done|]. subst u. rewrite <- Z.mul_assoc. f_equal. change 100 with (10 ^ 2). rewrite <- Z.pow_mul_r, <- Z.pow_add_r by lia. f_equal. lia. }
  rewrite EQ in *. exists prod, d. split; [done|]. split; [done|]. by rewrite Hpr.
Qed.

Lemma print_subsegment_ok t S off b : (1 <= t <= 9)%nat -> 0 <= S < 10 ^ 9 -> 0 <= off -> off + Z.of_nat t <= zlen b ->
  let u := 10 ^ (9 - Z.of_nat t) in
  exists prod d, print_subsegment (Z.of_nat t) S off b = (Ok (prod, d), overwrite off (last_digits t (S / u)) b) /\ d mod 2 = S / u mod 2 /\
    2 ^ 32 * (S mod u) < u32 prod * u < 2 ^ 32 * (S mod u + 1).
Proof.
  intros Ht HS Ho Hb u. unfold print_subsegment. assert (Hland : Z.land (Z.of_nat t) 1 = Z.of_nat t mod 2) by (change 1 with (Z.ones 1); by rewrite Z.land_ones by lia). rewrite Hland. change (10 ^ 9) with 1000000000 in HS.
  assert (Ht2 : (exists k, t = (1 + 2 * k)%nat) \/ exists k, t = (2 + 2 * k)%nat).
  { destruct (Nat.even t) eqn:Ev; [right; apply Nat.even_spec in Ev as [k Hk]; exists (k - 1)%nat|left; assert (Hodd : Nat.odd t = true) by (by rewrite <- Nat.negb_even, Ev); apply Nat.odd_spec in Hodd as [k Hk]; exists k]; lia. }
  unfold u64. rewrite !(wrap_small 64 (S * _)) by lia. rewrite !Z.shiftr_div_pow2 by lia. destruct Ht2 as [(k & ->)|(k & ->)].
  - replace (Z.of_nat (1 + 2 * k) mod 2) with 1 by (replace (Z.of_nat (1 + 2 * k)) with (1 + Z.of_nat k * 2) by lia; by rewrite Z.mod_add by lia). cbn [Z.eqb negb].
    pose proof (Z.div_mod (S * 720575941) (2 ^ 24) ltac:(lia)) as E. pose proof (Z.mod_pos_bound (S * 720575941) (2 ^ 24) ltac:(lia)) as Hm. set (p := S * 720575941 / 2 ^ 24) in *. change (2 ^ 24) with 16777216 in *.
    rewrite (wrap_small 64 (p + 1)) by lia. set (P := p + 1). assert (HP : 2 ^ 32 * S < P * 100000000 < 2 ^ 32 * (S + 1)) by (subst P; lia). assert (Hd0 : 0 <= P / 2 ^ 32 < 10) by (split; [apply Z.div_pos; lia|apply Z.div_lt_upper_bound; lia]).
    assert (Eu : u32 (P / 2 ^ 32) = P / 2 ^ 32) by (apply wrap_small; lia). rewrite Eu. assert (E8 : [u8 (48 + P / 2 ^ 32)] = last_digits 1 (P / 2 ^ 32)) by (unfold u8; rewrite wrap_small by lia; cbn [last_digits app]; by rewrite (Z.mod_small (P / 2 ^ 32)) by lia). rewrite E8.
    erewrite bind_ok by (apply put_at_ok; [done|change (zlen (last_digits 1 _)) with 1; lia]). apply (print_rest_ok 1 k S off P b); [lia|lia|lia|done|done|exact HP].
  - replace (Z.of_nat (2 + 2 * k) mod 2) with 0 by (replace (Z.of_nat (2 + 2 * k)) with (0 + (1 + Z.of_nat k) * 2) by lia; by rewrite Z.mod_add by lia). cbn [Z.eqb negb].
    pose proof (Z.div_mod (S * 450359963) (2 ^ 20) ltac:(lia)) as E. pose proof (Z.mod_pos_bound (S * 450359963) (2 ^ 20) ltac:(lia)) as Hm. set (p := S * 450359963 / 2 ^ 20) in *. change (2 ^ 20) with 1048576 in *.
    rewrite (wrap_small 64 (p + 1)) by lia. set (P := p + 1). assert (HP : 2 ^ 32 * S < P * 10000000 < 2 ^ 32 * (S + 1)) by (subst P; lia). assert (Hd0 : 0 <= P / 2 ^ 32 < 100) by (split; [apply Z.div_pos; lia|apply Z.div_lt_upper_bound; lia]).
    assert (Eu : u32 (P / 2 ^ 32) = P / 2 ^ 32) by (apply wrap_small; lia). rewrite Eu. erewrite bind_ok by (apply write2digits_ok; lia).
    assert (E2 : [digit_char (P / 2 ^ 32 / 10); digit_char (P / 2 ^ 32 mod 10)] = last_digits 2 (P / 2 ^ 32)) by (cbn [last_digits app]; rewrite (Z.mod_small (P / 2 ^ 32 / 10)) by (split; [apply Z.div_pos; lia|apply Z.div_lt_upper_bound; lia]); done). rewrite E2.
    apply (print_rest_ok 2 k S off P b); [lia|lia|lia|done|done|exact HP].
Qed.

(** The comparison with the threshold decides the rounding inside a segment. *)
Lemma round_inside_ok t S prod d more : (1 <= t <= 8)%nat -> 0 <= S ->
  let u := 10 ^ (9 - Z.of_nat t) in
  d mod 2 = S / u mod 2 -> 2 ^ 32 * (S mod u) < u32 prod * u < 2 ^ 32 * (S mod u + 1) -> round_inside (Z.of_nat t) prod d more = Ok (rounds_up S u more).
Proof.
  intros Ht HS u Hd HF. unfold round_inside, rounds_up. assert (Hr : 0 <= S mod u < u) by (apply Z.mod_pos_bound, Z.pow_pos_nonneg; lia). assert (Hfr : 0 <= u32 prod < 2 ^ 32) by (apply Z.mod_pos_bound; lia).
  assert (Hland : Z.land d 1 = Z.b2z (Z.odd (S / u))) by (change 1 with (Z.ones 1); rewrite Z.land_ones by lia; change (2 ^ 1) with 2; rewrite Hd, Zmod_odd; by destruct (Z.odd _)). rewrite Hland, Z.shiftr_div_pow2 by lia.
  set (w := u32 prod) in *. set (r := S mod u) in *. set (o := Z.odd (S / u)) in *. clearbody w r o. clear Hd Hland HS.
  assert (Hbit : (2 ^ 31 <= w -> w / 2 ^ 31 = 1) /\ (w < 2 ^ 31 -> w / 2 ^ 31 = 0)) by (split; intros H; [symmetry; apply (Z.div_unique _ _ _ (w - 2 ^ 31)); lia|apply Z.div_small; lia]).
  assert (Hcases : exists th, table_at fractional_part_rounding_thresholds (8 - Z.of_nat t) = Ok th /\ (th - 1) * u < 2 ^ 31 * u + 2 ^ 32 <= th * u).
  { subst u. clear - Ht. do 9 (destruct t as [|t]; [lia || (eexists; split; [reflexivity|vm_compute; split; [reflexivity|discriminate]])|]). lia. }
  destruct Hcases as (th & -> & Hth). cbn [obind]. f_equal. assert (Hu : 0 < u) by lia. assert (Hu2 : exists h, u = 2 * h) by (exists (5 * 10 ^ (8 - Z.of_nat t)); subst u; replace (9 - Z.of_nat t) with (1 + (8 - Z.of_nat t)) by lia; rewrite Z.pow_add_r by lia; lia).
  destruct Hu2 as [h Hh]. destruct (Z.lt_trichotomy r h) as [H|[H|H]].
  - assert (w < 2 ^ 31) by nia. rewrite (proj2 (Z.leb_gt th w)), (proj2 Hbit), (proj2 (Z.ltb_ge u _)), (proj2 (Z.eqb_neq (2 * r) u)) by nia. done.
  - assert (2 ^ 31 <= w) by nia. rewrite (proj2 (Z.leb_gt th w)), (proj1 Hbit), (proj2 (Z.ltb_ge u _)), (proj2 (Z.eqb_eq (2 * r) u)) by nia. by destruct more, o.
  - rewrite (proj2 (Z.leb_le th w)), (proj2 (Z.ltb_lt u _)) by nia. done.
Qed.

(** ** The digits of the segment *)

(** The rounding does not change when digits are split off. *)
Lemma rounds_up_split F S c rest h more : F = S * c + rest -> 0 <= rest < c -> 0 < h -> 0 <= S ->
  rounds_up F (2 * h * c) more = rounds_up S (2 * h) (negb (rest =? 0) || more).
Proof.
  intros EF Hr Hh HS. pose proof (Z.div_mod S (2 * h) ltac:(lia)) as ES. pose proof (Z.mod_pos_bound S (2 * h) ltac:(lia)) as HR. set (q := S / (2 * h)) in *. set (R := S mod (2 * h)) in *.
  assert (Hb : 0 <= R * c + rest < 2 * h * c) by nia. assert (EF2 : F = 2 * h * c * q + (R * c + rest)) by (rewrite EF, ES; ring).
  unfold rounds_up. rewrite <- (Z.div_unique F (2 * h * c) q (R * c + rest)), <- (Z.mod_unique F (2 * h * c) q (R * c + rest)) by (done || by left). fold R q.
  destruct (Z.lt_trichotomy R h) as [H|[->|H]].
  - assert ((R + 1) * c <= h * c) by (apply Z.mul_le_mono_nonneg_r; lia). rewrite (proj2 (Z.ltb_ge (2 * h * c) _)), (proj2 (Z.eqb_neq _ (2 * h * c))), (proj2 (Z.ltb_ge (2 * h) _)), (proj2 (Z.eqb_neq _ (2 * h))) by lia. done.
  - rewrite (proj2 (Z.ltb_ge (2 * h) _)), (proj2 (Z.eqb_eq (2 * h) _)) by lia. cbn [orb andb]. destruct (Z.eqb_spec rest 0) as [->|H]; cbn [negb orb].
    + rewrite (proj2 (Z.ltb_ge (2 * h * c) _)), (proj2 (Z.eqb_eq _ (2 * h * c))) by lia. done.
    + rewrite (proj2 (Z.ltb_lt (2 * h * c) _)) by lia. done.
  - assert ((h + 1) * c <= R * c) by (apply Z.mul_le_mono_nonneg_r; lia). rewrite (proj2 (Z.ltb_lt (2 * h * c) _)), (proj2 (Z.ltb_lt (2 * h) _)) by lia. done.
Qed.

(** The digits above do not matter, but for the parity, which is the same. *)
Lemma rounds_up_high H S u m more : 0 < u -> rounds_up (H * (2 * m * u) + S) u more = rounds_up S u more.
Proof.
  intros Hu. unfold rounds_up. replace (H * (2 * m * u) + S) with (S + 2 * (H * m) * u) by ring. rewrite Z.mod_add, Z.div_add by lia. by rewrite Z.odd_add_mul_2.
Qed.

Lemma last_digits_app s t x y : 0 <= y < 10 ^ Z.of_nat t -> last_digits (s + t) (x * 10 ^ Z.of_nat t + y) = last_digits s x ++ last_digits t y.
Proof.
  revert y. induction t as [|t IH]; intros y Hy.
  - change (10 ^ Z.of_nat 0) with 1 in *. replace (x * 1 + y) with x by lia. by rewrite Nat.add_0_r, app_nil_r.
  - rewrite Nat.add_succ_r. cbn [last_digits]. rewrite Nat2Z.inj_succ, Z.pow_succ_r in * by lia. set (c := 10 ^ Z.of_nat t) in *. replace (x * (10 * c) + y) with (y + x * c * 10) by ring. rewrite Z.div_add, Z.mod_add by lia.
    replace (y / 10 + x * c) with (x * c + y / 10) by lia. rewrite IH, <- app_assoc; [done|]. split; [apply Z.div_pos; lia|apply Z.div_lt_upper_bound; lia].
Qed.

Lemma carry_loop_propagate i buf : (forall j x, (j < i)%nat -> buf !! j = Some x -> x <= 57) -> (forall x, buf !! i = Some x -> x <= 58) -> carry_loop i buf = propagate i buf.
Proof.
  revert buf. induction i as [|j IH]; intros buf Hlo Hi; [done|]. cbn [carry_loop propagate]. assert (Hx : default 0 (buf !! S j) <= 58) by (destruct (buf !! S j) as [x|] eqn:E; cbn; [by apply Hi|lia]).
  unfold overflow. destruct (Z.ltb_spec 57 (default 0 (buf !! S j))) as [H|H]; [rewrite (proj2 (Z.eqb_eq _ 58)) by lia|by rewrite (proj2 (Z.eqb_neq _ 58)) by lia].
  apply IH.
  - intros k x Hk E. rewrite !list_lookup_insert_ne in E by lia. by apply (Hlo k x); [lia|].
  - intros x E. destruct (buf !! j) as [y|] eqn:Ey; cbn in E.
    + apply list_lookup_insert_Some in E as [(_ & <- & _)|(Hne & _)]; [|done]. specialize (Hlo j y ltac:(lia) Ey). lia.
    + apply lookup_lt_Some in E. rewrite !length_insert in E. apply lookup_ge_None in Ey. lia.
Qed.

Lemma propagate_app i a b : (i < length a)%nat -> propagate i (a ++ b) = propagate i a ++ b.
Proof.
  revert a. induction i as [|j IH]; intros a Hi; [done|]. cbn [propagate]. rewrite !lookup_app_l by lia. destruct (_ =? _); [|done]. rewrite !insert_app_l by (rewrite ?length_insert; lia). apply IH. rewrite !length_insert. lia.
Qed.

(** What rounding leaves: digits whose number is [q], where a carry out of the first digit is in the exponent or one more digit. *)
Definition rounded (fixed_ : bool) (p : nat) (exp q : Z) (text : list Z) (x : Z) : Prop :=
  Forall FmtDragon.is_digit text /\ dval text * 10 ^ (x - exp) = q /\ (x = exp \/ fixed_ = false /\ x = exp + 1) /\ (length text = p \/ fixed_ = true /\ length text = S p).

Lemma round_up_ok fixed_ exp l c T : Forall FmtDragon.is_digit l -> FmtDragon.is_digit c -> T <> [] ->
  exists buf n x, round_up fixed_ (Z.of_nat (length l) + 1) exp ((l ++ [c]) ++ T) = (buf, n, x) /\ 0 <= n <= zlen buf /\
    rounded fixed_ (S (length l)) exp (dval (l ++ [c]) + 1) (take (Z.to_nat n) buf) x.
Proof.
  intros Hl Hc HT. red in Hc. unfold round_up. replace (Z.to_nat (Z.of_nat (length l) + 1 - 1)) with (length l) by lia. rewrite <- app_assoc. cbn [app]. rewrite list_lookup_middle by done. cbn [default from_option id].
  replace (<[length l := c + 1]> (l ++ c :: T)) with ((l ++ [c + 1]) ++ T) by (rewrite <- app_assoc; cbn [app]; replace (length l) with (length l + 0)%nat by lia; by rewrite insert_app_r).
  assert (Hp : propagate (length l) ((l ++ [c + 1]) ++ T) = propagate (length l) (l ++ [c + 1]) ++ T) by (apply propagate_app; rewrite length_app; cbn; lia).
  assert (Hcl : carry_loop (length l) ((l ++ [c + 1]) ++ T) = propagate (length l) ((l ++ [c + 1]) ++ T)).
  { apply carry_loop_propagate; rewrite <- app_assoc.
    - intros j x Hj E. rewrite lookup_app_l in E by done. rewrite Forall_forall in Hl. specialize (Hl x (list_elem_of_lookup_2 _ _ _ E)). red in Hl. lia.
    - intros x E. cbn [app] in E. rewrite list_lookup_middle in E by done. injection E as <-. lia. }
  unfold id. rewrite Hcl, Hp. destruct (propagate_ok l (c + 1) [] Hl ltac:(lia) ltac:(constructor)) as (c' & l' & -> & Hc' & Hl' & Hv & Hlen). rewrite dval_snoc in Hv. rewrite length_app in Hlen. cbn [length] in Hlen.
  rewrite (dval_snoc l c). pose proof (dval_bound l Hl) as Hbl. pose proof (dval_bound l' Hl') as Hbl'. change (c' :: l') with ([c'] ++ l') in Hv. rewrite dval_app in Hv. change (dval [c']) with (c' - 48) in Hv.
  assert (Hll : length l' = length l) by lia. assert (Hz : zlen l' = zlen l) by (unfold zlen; lia). rewrite Hz in *. pose proof (zlen_nonneg l) as Hz0. set (w := 10 ^ zlen l) in *. assert (Hw : 0 < w) by (apply Z.pow_pos_nonneg; lia).
  assert (Htake : forall k (z : list Z), take (Z.to_nat (Z.of_nat (length k))) (k ++ z) = k) by (intros k z; rewrite Nat2Z.id; apply take_app_length).
  cbn [app lookup list_lookup from_option]. unfold id. destruct (Z.ltb_spec 57 c') as [H58|H57].
  - assert (c' = 58) by lia. subst c'. assert (Hd0 : dval l' = 0) by nia. cbn [insert list_insert]. destruct fixed_.
    + destruct T as [|t0 T]; [done|]. replace (<[Z.to_nat (Z.of_nat (length l) + 1) := 48]> (49 :: l' ++ t0 :: T)) with ((49 :: l' ++ [48]) ++ T).
      * eexists _, _, _. split; [reflexivity|]. replace (Z.of_nat (length l) + 1 + 1) with (Z.of_nat (length (49 :: l' ++ [48]))) by (cbn [length]; rewrite length_app; cbn [length]; lia). rewrite Htake. split; [rewrite zlen_app; pose proof (zlen_nonneg T); unfold zlen at 1; lia|].
        split; [constructor; [red; lia|apply Forall_app; split; [done|by repeat constructor]]|]. split; [|split; [by left|right; split; [done|cbn [length]; rewrite length_app; cbn [length]; lia]]].
        rewrite Z.sub_diag. change (49 :: l' ++ [48]) with (([49] ++ l') ++ [48]). rewrite dval_snoc, dval_app, Hd0, Hz. change (dval [49]) with 1. fold w. lia.
      * change (49 :: l' ++ t0 :: T) with ((49 :: l') ++ t0 :: T). replace (Z.to_nat (Z.of_nat (length l) + 1)) with (length (49%Z :: l') + 0)%nat by (cbn [length]; lia). rewrite insert_app_r. cbn [app]. by rewrite <- app_assoc.
    + eexists _, _, _. split; [reflexivity|]. replace (Z.of_nat (length l) + 1) with (Z.of_nat (length (49 :: l'))) by (cbn [length]; lia). change (49 :: l' ++ T) with ((49 :: l') ++ T). rewrite Htake. split; [rewrite zlen_app; pose proof (zlen_nonneg T); unfold zlen at 1; lia|].
      split; [constructor; [red; lia|done]|]. split; [|split; [by right|left; cbn [length]; lia]]. replace (exp + 1 - exp) with 1 by lia. change (49 :: l') with ([49] ++ l'). rewrite dval_app, Hd0, Hz. change (dval [49]) with 1. fold w. lia.
  - eexists _, _, _. split; [reflexivity|]. replace (Z.of_nat (length l) + 1) with (Z.of_nat (length (c' :: l'))) by (cbn [length]; lia). change (c' :: l' ++ T) with ((c' :: l') ++ T). rewrite Htake. split; [rewrite zlen_app; pose proof (zlen_nonneg T); unfold zlen at 1; lia|].
    split; [constructor; [red; lia|done]|]. split; [|split; [by left|left; cbn [length]; lia]]. rewrite Z.sub_diag. change (c' :: l') with ([c'] ++ l'). rewrite dval_app, Hz. change (dval [c']) with (c' - 48). fold w. lia.
Qed.

Lemma finish_ok (up : bool) fixed_ p Q exp : (1 <= p <= 18)%nat -> 0 <= Q < 10 ^ Z.of_nat p ->
  exists n x buf, (if up then fun buf => let '(buf, precision, exp) := round_up fixed_ (Z.of_nat p) exp buf in (Ok (precision, exp), buf) else ret (Z.of_nat p, exp))
      (overwrite 0 (last_digits p Q) inline_buffer) = (Ok (n, x), buf) /\ rounded fixed_ p exp (Q + Z.b2z up) (take (Z.to_nat n) buf) x.
Proof.
  intros Hp HQ. destruct (last_digits_ok p Q) as (Hl & Hd & Hv). rewrite Z.mod_small in Hv by done.
  assert (Eb : overwrite 0 (last_digits p Q) inline_buffer = last_digits p Q ++ replicate (500 - p) 0).
  { unfold overwrite. change (Z.to_nat 0) with O. rewrite take_0. cbn [app]. f_equal. rewrite Hl. unfold inline_buffer. by rewrite drop_replicate. }
  rewrite Eb. destruct up.
  - destruct p as [|p]; [lia|]. cbn [last_digits] in *. apply Forall_app in Hd as [Hd Hc]. apply Forall_cons in Hc as [Hc _]. assert (Hlen : length (last_digits p (Q / 10)) = p) by (rewrite length_app in Hl; cbn [length] in Hl; lia).
    destruct (round_up_ok fixed_ exp (last_digits p (Q / 10)) (digit_char (Q mod 10)) (replicate (500 - S p) 0) Hd Hc) as (buf & n & x & E & _ & Hr); [intros E0; apply (f_equal length) in E0; rewrite length_replicate in E0; cbn in E0; lia|].
    rewrite Hlen, Hv in *. replace (Z.of_nat (S p)) with (Z.of_nat p + 1) by lia. rewrite E. by exists n, x, buf.
  - eexists _, _, _. split; [reflexivity|]. replace (Z.to_nat (Z.of_nat p)) with (length (last_digits p Q)) by lia. rewrite take_app_length. split; [done|]. rewrite Z.sub_diag, Hv. split; [cbn; lia|]. split; [by left|by left].
Qed.

(** The manual divisions. *)
Lemma first_subsegment_ok F : 0 <= F < 10 ^ 19 -> u32 (Z.shiftr (umul128_upper64 F 7922816251426433760) 32) = F / 10 ^ 10.
Proof.
  change (10 ^ 19) with 10000000000000000000. change (10 ^ 10) with 10000000000. intros HF. destruct (umul128_high F 7922816251426433760) as [-> _]; [lia|lia|]. rewrite Z.shiftr_div_pow2, Z.div_div by lia. change (2 ^ 64 * 2 ^ 32) with 79228162514264337593543950336.
  pose proof (Z.div_mod F 10000000000 ltac:(lia)) as E. pose proof (Z.mod_pos_bound F 10000000000 ltac:(lia)) as Hm. set (q := F / 10000000000) in *. set (r := F mod 10000000000) in *.
  rewrite <- (Z.div_unique (F * 7922816251426433760) 79228162514264337593543950336 q (6456049664 * q + r * 7922816251426433760)) by lia. apply wrap_small. lia.
Qed.
Lemma second_subsegment_ok r : 0 <= r < 10 ^ 10 -> u32 (umul128_upper64 r 1844674407370955162) = r / 10.
Proof.
  change (10 ^ 10) with 10000000000. intros Hr. destruct (umul128_high r 1844674407370955162) as [-> _]; [lia|lia|]. change (2 ^ 64) with 18446744073709551616.
  pose proof (Z.div_mod r 10 ltac:(lia)) as E. pose proof (Z.mod_pos_bound r 10 ltac:(lia)) as Hm. set (q := r / 10) in *. set (s := r mod 10) in *.
  rewrite <- (Z.div_unique (r * 1844674407370955162) 18446744073709551616 q (4 * q + s * 1844674407370955162)) by lia. apply wrap_small. lia.
Qed.

Lemma round_boundary_ok F S c rest d more : F = S * (2 * c) + rest -> 0 <= rest < 2 * c -> d mod 2 = S mod 2 -> round_boundary rest c d more = rounds_up F (2 * c) more.
Proof.
  intros EF Hr Hd. unfold round_boundary, rounds_up. rewrite <- (Z.div_unique F (2 * c) S rest), <- (Z.mod_unique F (2 * c) S rest) by lia.
  assert (Hland : negb (Z.land d 1 =? 0) = Z.odd S) by (change 1 with (Z.ones 1); rewrite Z.land_ones by lia; change (2 ^ 1) with 2; rewrite Hd, Zmod_odd; by destruct (Z.odd S)). rewrite Hland, orb_comm.
  replace (2 * c <? 2 * rest) with (c <? rest) by (apply Bool.eq_iff_eq_true; rewrite !Z.ltb_lt; lia). replace (2 * rest =? 2 * c) with (rest =? c) by (apply Bool.eq_iff_eq_true; rewrite !Z.eqb_eq; lia). by destruct more, (Z.odd S), (c <? rest), (rest =? c).
Qed.

Section segments.
Context (F : Z) (p : nat) (more : bool) (HF : 10 ^ 18 <= F < 10 ^ 19).
Local Notation u := (10 ^ (19 - Z.of_nat p)).
Local Notation S1 := (F / 10 ^ 10).
Local Notation r := (F mod 10 ^ 10).

Lemma first_range : F = 10 ^ 10 * S1 + r /\ 0 <= S1 < 10 ^ 9 /\ 0 <= r < 10 ^ 10 /\ u64 (F - S1 * 10000000000) = r.
Proof.
  pose proof (Z.div_mod F (10 ^ 10) ltac:(lia)) as EF. pose proof (Z.mod_pos_bound F (10 ^ 10) ltac:(lia)) as Hr. split_and!; try done; [apply Z.div_pos; lia|apply Z.div_lt_upper_bound; lia|lia|lia|].
  unfold u64. rewrite wrap_small by lia. lia.
Qed.

Lemma quotient_range : (1 <= p <= 18)%nat -> 0 <= F / u < 10 ^ Z.of_nat p.
Proof.
  intros Hp. assert (Hu : 0 < u) by (apply Z.pow_pos_nonneg; lia). split; [apply Z.div_pos; lia|]. apply Z.div_lt_upper_bound; [done|]. rewrite <- Z.pow_add_r by lia. replace (19 - Z.of_nat p + Z.of_nat p) with 19 by lia. lia.
Qed.

(** Up to nine digits. *)
Lemma low_round_ok S : (1 <= p <= 9)%nat -> S = S1 -> forall prod d, d mod 2 = S / 10 ^ (9 - Z.of_nat p) mod 2 ->
  2 ^ 32 * (S mod 10 ^ (9 - Z.of_nat p)) < u32 prod * 10 ^ (9 - Z.of_nat p) < 2 ^ 32 * (S mod 10 ^ (9 - Z.of_nat p) + 1) ->
  (if Z.of_nat p <? 9 then of_outcome (S := list Z) (round_inside (Z.of_nat p) prod d (negb (r =? 0) || more)) else ret (round_boundary r 5000000000 d more)) = ret (rounds_up F u more).
Proof.
  intros Hp -> prod d Hd Hfr. destruct first_range as (EF & HS1 & Hr & _). destruct (Z.ltb_spec (Z.of_nat p) 9) as [H8|H8].
  - rewrite (round_inside_ok p S1) by (done || lia). assert (Ep : 10 ^ (9 - Z.of_nat p) = 2 * (5 * 10 ^ (8 - Z.of_nat p))) by (replace (9 - Z.of_nat p) with (1 + (8 - Z.of_nat p)) by lia; rewrite Z.pow_add_r by lia; lia).
    replace u with (10 ^ (9 - Z.of_nat p) * 10 ^ 10) by (rewrite <- Z.pow_add_r by lia; f_equal; lia). rewrite Ep, (rounds_up_split F S1 (10 ^ 10) r); [done|lia|done|pose proof (Z.pow_pos_nonneg 10 (8 - Z.of_nat p) ltac:(lia) ltac:(lia)); lia|lia].
  - replace p with 9%nat in * by lia. rewrite (round_boundary_ok F S1); [done|lia|lia|]. rewrite Hd. change (10 ^ (9 - Z.of_nat 9)) with 1. by rewrite Z.div_1_r.
Qed.

(** The second nine digits. *)
Lemma high_parts : (10 <= p <= 18)%nat -> let t := (p - 9)%nat in let S2 := r / 10 in let u' := 10 ^ (9 - Z.of_nat t) in
  0 < u' /\ 0 <= S2 < 10 ^ 9 /\ u32 (u32 r - S2 * 10) = r mod 10 /\ u = u' * 10 /\ 10 ^ 9 = 10 ^ Z.of_nat t * u' /\ F = (S1 * 10 ^ 9 + S2) * 10 + r mod 10 /\
  F / u = S1 * 10 ^ Z.of_nat t + S2 / u' /\ 0 <= S2 / u' < 10 ^ Z.of_nat t.
Proof.
  intros Hp t S2 u'. destruct first_range as (EF & HS1 & Hr & _). pose proof (Z.div_mod r 10 ltac:(lia)) as Er. pose proof (Z.mod_pos_bound r 10 ltac:(lia)) as Ht. fold S2 in Er. set (t3 := r mod 10) in *.
  assert (Hu' : 0 < u') by (apply Z.pow_pos_nonneg; lia). assert (HS2 : 0 <= S2 < 10 ^ 9) by (change (10 ^ 9) with 1000000000; lia). assert (Eu : u = u' * 10) by (subst u' t; replace (19 - Z.of_nat p) with (9 - Z.of_nat (p - 9) + 1) by lia; rewrite Z.pow_add_r by lia; lia).
  assert (E9 : 10 ^ 9 = 10 ^ Z.of_nat t * u') by (subst u'; rewrite <- Z.pow_add_r by lia; f_equal; lia). assert (EG : F = (S1 * 10 ^ 9 + S2) * 10 + t3) by lia.
  split; [done|]. split; [done|]. split; [unfold u32, wrap; rewrite Zminus_mod_idemp_l; replace (r - S2 * 10) with t3 by lia; apply Z.mod_small; lia|]. split; [done|]. split; [done|]. split; [done|]. split.
  - rewrite Eu, (Z.mul_comm u' 10), <- Z.div_div by lia. replace (F / 10) with (S1 * 10 ^ 9 + S2) by (apply (Z.div_unique _ _ _ t3); lia). rewrite E9. replace (S1 * (10 ^ Z.of_nat t * u') + S2) with (S2 + S1 * 10 ^ Z.of_nat t * u') by ring. rewrite Z.div_add by lia. lia.
  - split; [apply Z.div_pos; lia|apply Z.div_lt_upper_bound; lia].
Qed.

Lemma high_round_ok : (10 <= p <= 18)%nat -> let t := (p - 9)%nat in let S2 := r / 10 in let u' := 10 ^ (9 - Z.of_nat t) in
  forall prod d, d mod 2 = S2 / u' mod 2 -> 2 ^ 32 * (S2 mod u') < u32 prod * u' < 2 ^ 32 * (S2 mod u' + 1) ->
  (if Z.of_nat p <? 18 then of_outcome (S := list Z) (round_inside (Z.of_nat t) prod d (negb (r mod 10 =? 0) || more)) else ret (round_boundary (r mod 10) 5 d more)) = ret (rounds_up F u more).
Proof.
  intros Hp t S2 u' prod d Hd Hfr. destruct (high_parts Hp) as (Hu' & HS2 & _ & Eu & E9 & EF & _ & _). fold t S2 u' in Hu', HS2, Eu, E9, EF. pose proof (Z.mod_pos_bound r 10 ltac:(lia)) as Ht3. destruct first_range as (_ & HS1 & _ & _).
  assert (Et : 10 ^ Z.of_nat t = 2 * (5 * 10 ^ (Z.of_nat t - 1))) by (replace (Z.of_nat t) with (1 + (Z.of_nat t - 1)) at 1 by lia; rewrite Z.pow_add_r by lia; lia).
  assert (EG : S1 * 10 ^ 9 + S2 = S1 * (2 * (5 * 10 ^ (Z.of_nat t - 1)) * u') + S2) by (rewrite E9, Et; ring). destruct (Z.ltb_spec (Z.of_nat p) 18) as [H|H].
  - rewrite (round_inside_ok t S2) by (done || lia). assert (Ep : u' = 2 * (5 * 10 ^ (8 - Z.of_nat t))) by (subst u'; replace (9 - Z.of_nat t) with (1 + (8 - Z.of_nat t)) by lia; rewrite Z.pow_add_r by lia; lia).
    rewrite Eu, Ep, (rounds_up_split F (S1 * 10 ^ 9 + S2) 10 (r mod 10)), <- Ep, EG, rounds_up_high by (done || lia). done.
  - rewrite (round_boundary_ok F (S1 * 10 ^ 9 + S2)); [|lia|lia|]; [by replace (2 * 5) with u by (replace (19 - Z.of_nat p) with 1 by lia; done)|].
    assert (E1 : u' = 1) by (subst u'; by replace (9 - Z.of_nat t) with 0 by lia). rewrite Hd, E1, Z.div_1_r. rewrite EG, E1. replace (S1 * (2 * (5 * 10 ^ (Z.of_nat t - 1)) * 1) + S2) with (S2 + S1 * (5 * 10 ^ (Z.of_nat t - 1)) * 2) by ring. by rewrite Z.mod_add by lia.
Qed.

Lemma print_segments_ok fixed_ exp : (1 <= p <= 18)%nat ->
  exists n x buf, print_segments fixed_ F (Z.of_nat p) exp more inline_buffer = (Ok (n, x), buf) /\
    rounded fixed_ p exp (F / u + Z.b2z (rounds_up F u more)) (take (Z.to_nat n) buf) x.
Proof.
  intros Hp. unfold print_segments. rewrite first_subsegment_ok by lia. destruct first_range as (EF & HS1 & Hr & ->). pose proof (quotient_range Hp) as HQ. assert (Hb500 : zlen inline_buffer = 500) by done. destruct (Z.leb_spec (Z.of_nat p) 9) as [H9|H9].
  - rewrite Z.min_l by lia. destruct (print_subsegment_ok p S1 0 inline_buffer) as (prod & d & Epr & Hd & Hfr); [lia|done|done|lia|]. erewrite bind_ok by exact Epr. cbv beta iota. rewrite (low_round_ok S1) by (done || lia). erewrite bind_ok by reflexivity.
    replace (S1 / 10 ^ (9 - Z.of_nat p)) with (F / u); [by apply finish_ok|]. rewrite Z.div_div by (try apply Z.pow_pos_nonneg; lia). f_equal. rewrite <- Z.pow_add_r by lia. f_equal. lia.
  - rewrite Z.min_r by lia. destruct (print_subsegment_ok 9 S1 0 inline_buffer) as (prod1 & d1 & Epr1 & _ & _); [lia|done|done|lia|]. change 9 with (Z.of_nat 9) at 1. erewrite bind_ok by exact Epr1. cbv beta iota. clear Epr1. change (10 ^ (9 - Z.of_nat 9)) with 1. rewrite Z.div_1_r.
    rewrite second_subsegment_ok by lia. destruct (high_parts ltac:(lia)) as (Hu' & HS2 & -> & _ & _ & _ & EQ & Hq2). set (t := (p - 9)%nat) in *. replace (Z.of_nat p - 9) with (Z.of_nat t) by lia.
    destruct (last_digits_ok 9 S1) as (Hl9 & _ & _). assert (Hz9 : zlen (last_digits 9 S1) = 9) by (unfold zlen; by rewrite Hl9).
    destruct (print_subsegment_ok t (r / 10) 9 (overwrite 0 (last_digits 9 S1) inline_buffer)) as (prod & d & Epr & Hd & Hfr); [lia|done|lia|rewrite zlen_overwrite by lia; lia|]. destruct (last_digits_ok t (r / 10 / 10 ^ (9 - Z.of_nat t))) as (Hlt & _ & _).
    pose proof (high_round_ok ltac:(lia) prod d Hd Hfr) as Hround. fold t in Hround. erewrite bind_ok by (erewrite bind_ok by exact Epr; cbv beta iota; rewrite Hround; reflexivity).
    replace (overwrite 9 _ _) with (overwrite 0 (last_digits p (F / u)) inline_buffer); [by apply finish_ok|].
    change 9 with (0 + 9) at 1. rewrite <- Hz9 at 1. rewrite overwrite_prefix by (rewrite ?Hz9; unfold zlen; rewrite ?Hlt; unfold zlen in Hb500; lia). rewrite <- last_digits_app by done. rewrite <- EQ. by replace (9 + t)%nat with p by lia.
Qed.
End segments.

(** ** format_float *)
Lemma scale_at v x w : x <= w -> num_at v w * den_at v x * 10 ^ (w - x) = num_at v x * den_at v w.
Proof.
  intros Hw. unfold num_at, den_at, p10. assert (E : 10 ^ Z.max (- w) 0 * 10 ^ Z.max x 0 * 10 ^ (w - x) = 10 ^ Z.max (- x) 0 * 10 ^ Z.max w 0) by (rewrite <- !Z.pow_add_r by lia; f_equal; lia).
  transitivity (f v * 2 ^ Z.max (e v) 0 * 2 ^ Z.max (- e v) 0 * (10 ^ Z.max (- w) 0 * 10 ^ Z.max x 0 * 10 ^ (w - x))); [ring|]. rewrite E. ring.
Qed.

Section segment.
Context (v : basic_fp) (F : Z) (more : bool) (D x : Z) (Hs : segment v F more D x).
Local Notation g := (10 ^ (19 - D)).

Lemma seg_unit : (D = 18 /\ g = 10) \/ (D = 19 /\ g = 1).
Proof. destruct (seg_digits _ _ _ _ _ Hs) as [->| ->]; [by left|by right]. Qed.

Lemma seg_range : 10 ^ 18 <= F < 10 ^ 19.
Proof.
  pose proof (den_at_pos v x) as Hb. pose proof (seg_size _ _ _ _ _ Hs) as [H1 H2]. pose proof (seg_floor _ _ _ _ _ Hs) as [H3 H4]. pose proof (seg_zero _ _ _ _ _ Hs) as H0. set (a := num_at v x) in *. set (b := den_at v x) in *.
  assert (E18 : 10 ^ (D - 1) * g = 10 ^ 18) by (rewrite <- Z.pow_add_r by (destruct seg_unit; lia); f_equal; lia). assert (E19 : 10 ^ D * g = 10 ^ 19) by (rewrite <- Z.pow_add_r by (destruct seg_unit; lia); f_equal; lia).
  assert (Hg : 0 < g) by (destruct seg_unit as [[_ ->]|[_ ->]]; lia). assert (H5 : 10 ^ 18 * b <= a * g) by (rewrite <- E18; replace (10 ^ (D - 1) * g * b) with (10 ^ (D - 1) * b * g) by ring; apply Z.mul_le_mono_nonneg_r; lia).
  assert (H6 : a * g < 10 ^ 19 * b) by (rewrite <- E19; replace (10 ^ D * g * b) with (10 ^ D * b * g) by ring; apply Z.mul_lt_mono_pos_r; lia). split; [|nia].
  apply Z.nlt_ge. intros Hlt. pose proof (multiple_gap g F (10 ^ 18) Hg H0 ltac:(destruct seg_unit as [[_ ->]|[_ ->]]; reflexivity) Hlt) as Hgap. nia.
Qed.

Lemma seg_round p : p <= D - 1 -> 0 <= p -> F / 10 ^ (19 - p) + Z.b2z (rounds_up F (10 ^ (19 - p)) more) = round_at v (x + (D - p)).
Proof.
  intros HpD Hp. pose proof (den_at_pos v x) as Hb. set (h := 5 * 10 ^ (18 - p)). assert (Hh : 0 < h) by (pose proof (Z.pow_pos_nonneg 10 (18 - p) ltac:(lia) ltac:(destruct seg_unit; lia)); lia).
  assert (Eh : 10 ^ (19 - p) = 2 * h) by (subst h; replace (19 - p) with (1 + (18 - p)) by lia; rewrite Z.pow_add_r by (destruct seg_unit; lia); lia). rewrite Eh.
  assert (Hhg : h mod g = 0). { destruct seg_unit as [[ED ->]|[_ ->]]; [|apply Z.mod_1_r]. subst h. replace (18 - p) with (17 - p + 1) by lia. rewrite Z.pow_add_r by lia. replace (5 * (10 ^ (17 - p) * 10 ^ 1)) with (5 * 10 ^ (17 - p) * 10) by lia. apply Z.mod_mul. lia. }
  rewrite (seg_more _ _ _ _ _ Hs), <- (rhe_from_floor (num_at v x * g) (den_at v x) F g h); [|done|destruct seg_unit as [[_ ->]|[_ ->]]; lia|apply (seg_floor _ _ _ _ _ Hs)|apply (seg_zero _ _ _ _ _ Hs)|done|done].
  change (round_at v (x + (D - p))) with (rhe (num_at v (x + (D - p))) (den_at v (x + (D - p)))). apply rhe_ratio; [nia|apply den_at_pos|]. rewrite <- Eh. set (w := x + (D - p)). pose proof (scale_at v x w ltac:(lia)) as Esc.
  replace (10 ^ (19 - p)) with (10 ^ (w - x) * g) by (rewrite <- Z.pow_add_r by (destruct seg_unit; lia); f_equal; subst w; lia). replace (num_at v x * g * den_at v w) with (num_at v x * den_at v w * g) by ring. rewrite <- Esc. ring.
Qed.

Lemma seg_below : num_at v (x + D) < den_at v (x + D).
Proof.
  pose proof (scale_at v x (x + D) ltac:(destruct seg_unit; lia)) as E. pose proof (seg_size _ _ _ _ _ Hs) as [_ H]. pose proof (den_at_pos v x) as Hb. pose proof (den_at_pos v (x + D)) as Hb'. replace (x + D - x) with D in E by lia.
  assert (HD : 0 < 10 ^ D) by (apply Z.pow_pos_nonneg; destruct seg_unit; lia). assert (Hlt : num_at v x * den_at v (x + D) < 10 ^ D * den_at v x * den_at v (x + D)) by (apply Z.mul_lt_mono_pos_r; done). rewrite <- E in Hlt. nia.
Qed.
Lemma seg_above : den_at v (x + D - 1) <= num_at v (x + D - 1).
Proof.
  pose proof (scale_at v x (x + D - 1) ltac:(destruct seg_unit; lia)) as E. pose proof (seg_size _ _ _ _ _ Hs) as [H _]. pose proof (den_at_pos v x) as Hb. pose proof (den_at_pos v (x + D - 1)) as Hb'. replace (x + D - 1 - x) with (D - 1) in E by lia.
  assert (HD : 0 < 10 ^ (D - 1)) by (apply Z.pow_pos_nonneg; destruct seg_unit; lia). assert (Hlt : 10 ^ (D - 1) * den_at v x * den_at v (x + D - 1) <= num_at v x * den_at v (x + D - 1)) by (apply Z.mul_le_mono_nonneg_r; lia). rewrite <- E in Hlt. nia.
Qed.
End segment.

Lemma drop_zeros_ok l x : Forall FmtDragon.is_digit (rev l) -> let '(l', x') := drop_zeros l x in
  Forall FmtDragon.is_digit (rev l') /\ x <= x' /\ dval (rev l') * 10 ^ (x' - x) = dval (rev l) /\ zlen (rev l') <= zlen (rev l).
Proof.
  revert x. induction l as [|c l IH]; intros x Hl; cbn [drop_zeros].
  - rewrite Z.sub_diag. split_and!; [constructor|lia|done|done].
  - destruct (Z.eqb_spec c 48) as [->|Hne]; [|rewrite Z.sub_diag; split_and!; [done|lia|lia|lia]].
    cbn [rev] in Hl. apply Forall_app in Hl as [Hl Hc]. specialize (IH (x + 1) Hl). destruct (drop_zeros l (x + 1)) as [l' x']. destruct IH as (Hd & Hx & Hv & Hz). split; [done|]. split; [lia|].
    cbn [rev]. rewrite dval_snoc, <- Hv, zlen_app. change (zlen [48]) with 1. split; [|lia]. replace (x' - x) with (1 + (x' - (x + 1))) by lia. rewrite Z.pow_add_r by lia. lia.
Qed.

Lemma trim_zeros_ok text x : Forall FmtDragon.is_digit text -> let '(text', x') := trim_zeros text x in
  Forall FmtDragon.is_digit text' /\ x <= x' /\ dval text' * 10 ^ (x' - x) = dval text /\ zlen text' <= zlen text.
Proof. intros Hd. unfold trim_zeros. pose proof (drop_zeros_ok (rev text) x) as H. rewrite rev_involutive in H. specialize (H Hd). by destruct (drop_zeros (rev text) x). Qed.

(** [text] times [10 ^ X] is the number rounded half to even at [10 ^ w]; in the fixed notation [X] is [w] unless there is no digit. *)
Definition rounded_text (fixed_ : bool) (v : basic_fp) (w : Z) (text : list Z) (X : Z) : Prop :=
  Forall FmtDragon.is_digit text /\ (text = [] \/ w <= X) /\ dval text * p10 (X - w) = round_at v w /\ zlen text <= 1000 /\
  (fixed_ = true -> X = w \/ text = [] /\ X <= w).

Lemma rounded_trim v w text X : rounded_text false v w text X -> let '(text', X') := trim_zeros text X in rounded_text false v w text' X'.
Proof.
  intros (Hd & Hw & Hv & Hz & _). pose proof (trim_zeros_ok text X Hd) as H. destruct (trim_zeros text X) as [text' X'] eqn:Et. destruct H as (Hd' & Hx & Hv' & Hz'). split; [done|]. destruct Hw as [->|Hw].
  - injection Et as <- <-. split_and!; [by left|done..].
  - split; [right; lia|]. split; [|split; [lia|done]]. rewrite <- Hv, <- Hv'. unfold p10. rewrite !Z.max_l by lia. replace (X' - w) with ((X' - X) + (X - w)) by lia. rewrite Z.pow_add_r by lia. ring.
Qed.

Lemma rounded_at v w fixed_ p text X : (p <= 18)%nat -> rounded fixed_ p w (round_at v w) text X -> rounded_text fixed_ v w text X.
Proof.
  intros Hp (Hd & Hv & Hx & Hl). split; [done|]. split; [right; lia|]. split; [unfold p10; by rewrite Z.max_l by lia|]. split; [unfold zlen; lia|]. intros ->. left. destruct Hx as [?|[? _]]; done.
Qed.

Lemma lor_one F : 0 <= F -> Z.lor F 1 = F + (1 - F mod 2).
Proof.
  intros HF. pose proof (Z.div_mod F 2 ltac:(lia)) as E. pose proof (Z.mod_pos_bound F 2 ltac:(lia)) as Hm. assert (H0 : forall q, 0 <= q -> Z.lor (q * 2) 1 = q * 2 + 1) by (intros q Hq; change (q * 2) with (q * 2 ^ 1) at 1; rewrite (lor_parts q 1 1) by lia; lia).
  assert (Hq : 0 <= F / 2) by (apply Z.div_pos; lia). destruct (Z.eq_dec (F mod 2) 0) as [E0|E0]; [replace F with (F / 2 * 2) at 1 by lia; rewrite H0 by done; lia|].
  replace F with (F / 2 * 2 + 1) at 1 by lia. rewrite <- (H0 (F / 2)) at 1 by done. rewrite <- Z.lor_assoc, Z.lor_diag, H0 by done. lia.
Qed.

(** No digit at all, or one that says whether the number is above one half. *)
Lemma no_digit fixed_ v F more D x P : segment v F more D x -> P < 0 -> rounded_text fixed_ v (x + (D - P)) [] (x + D).
Proof.
  intros Hs Hneg. split; [constructor|]. split; [by left|]. split; [|split; [done|intros _; right; split; [done|lia]]]. set (w := x + (D - P)). change (round_at v w) with (rhe (num_at v w) (den_at v w)). pose proof (den_at_pos v w) as Hb. pose proof (den_at_pos v (x + D)) as Hb'.
  pose proof (scale_at v (x + D) w ltac:(lia)) as E. pose proof (seg_below _ _ _ _ _ Hs) as Hlt. assert (H10 : 10 ^ 1 <= 10 ^ (w - (x + D))) by (apply Z.pow_le_mono_r; lia). set (c := 10 ^ (w - (x + D))) in *.
  assert (Hn0 : 0 <= num_at v w).
  { pose proof (seg_above _ _ _ _ _ Hs) as Ha. pose proof (den_at_pos v (x + D - 1)). pose proof (Z.pow_pos_nonneg 2 (Z.max (e v) 0) ltac:(lia) ltac:(lia)). assert (Hf : 0 <= f v) by (unfold num_at in Ha; pose proof (p10_pos (- (x + D - 1))); nia).
    unfold num_at. pose proof (p10_pos (- w)). apply Z.mul_nonneg_nonneg; [apply Z.mul_nonneg_nonneg|]; lia. }
  assert (Hs2 : 10 * num_at v w < den_at v w).
  { assert (H1 : num_at v (x + D) * den_at v w < den_at v (x + D) * den_at v w) by (apply Z.mul_lt_mono_pos_r; done). rewrite <- E in H1.
    assert (H2 : num_at v w * den_at v (x + D) * 10 <= num_at v w * den_at v (x + D) * c) by (apply Z.mul_le_mono_nonneg_l; [apply Z.mul_nonneg_nonneg; lia|lia]). apply (Z.mul_lt_mono_pos_l (den_at v (x + D))); [done|]. lia. }
  rewrite rhe_small, (proj2 (Z.ltb_ge _ _)) by lia. done.
Qed.

Lemma one_digit fixed_ v F more D x : segment v F more D x -> rounded_text fixed_ v (x + D) [if 5000000000000000000 <? Z.lor F (Z.b2z more) then 49 else 48] (x + D).
Proof.
  intros Hs. pose proof (seg_range _ _ _ _ _ Hs) as HF. pose proof (seg_round _ _ _ _ _ Hs 0 ltac:(destruct (seg_unit _ _ _ _ _ Hs); lia) ltac:(lia)) as Hr. rewrite !Z.sub_0_r in Hr. change (10 ^ 19) with 10000000000000000000 in Hr. change (10 ^ 19) with 10000000000000000000 in HF.
  assert (Elt : (5000000000000000000 <? Z.lor F (Z.b2z more)) = rounds_up F 10000000000000000000 more).
  { unfold rounds_up. rewrite Z.mod_small, Z.div_small by lia. change (Z.odd 0) with false. rewrite orb_false_r. apply Bool.eq_iff_eq_true. rewrite orb_true_iff, andb_true_iff, !Z.ltb_lt, Z.eqb_eq. destruct more; cbn [Z.b2z].
    - rewrite lor_one by lia. pose proof (Z.mod_pos_bound F 2 ltac:(lia)). pose proof (Z.div_mod F 2 ltac:(lia)). split; [intros H5; destruct (Z.eq_dec F 5000000000000000000); [right; split; [lia|done]|left; lia]|intros [?|[? _]]; lia].
    - rewrite Z.lor_0_r. split; [lia|intros [?|[_ ?]]; [lia|done]]. }
  rewrite Elt. split; [constructor; [destruct (rounds_up _ _ _); red; lia|constructor]|]. split; [right; lia|]. split; [|split; [done|intros _; by left]]. rewrite Z.sub_diag. change (p10 0) with 1. rewrite <- Hr, Z.div_small by lia. by destruct (rounds_up _ _ _).
Qed.

Lemma not_zero u : let '(v, _) := fp_assign binary64 u in f v <> 0 -> (Z.land u (2 ^ 63 - 1) =? 0) = false.
Proof.
  unfold fp_assign. cbn [num_significand_bits binary64 has_implicit_bit]. change (mkformat 52 11 true 1023) with binary64. destruct (bits_fields u) as [-> ->]. change (2 ^ 63 - 1) with (Z.ones 63). rewrite Z.land_ones by lia.
  destruct (Z.eqb_spec (u mod 2 ^ 63) 0) as [E|E]; [|by destruct (_ =? _)]. apply Z.mod_divide in E as [k ->]; [|lia]. replace (k * 2 ^ 63) with (k * 2 ^ 11 * 2 ^ 52) by ring. rewrite Z.mod_mul, Z.div_mul, Z.mod_mul by lia. cbn [Z.eqb f]. by intros [].
Qed.

(** The leading digit of the number is at [10 ^ x10]. *)
Definition leading (v : basic_fp) (x10 : Z) : Prop := den_at v x10 <= num_at v x10 < 10 * den_at v x10.

Lemma seg_leading v F more D x : segment v F more D x -> leading v (x + D - 1).
Proof.
  intros Hs. split; [by apply (seg_above v F more)|]. pose proof (seg_below _ _ _ _ _ Hs) as H. pose proof (scale_at v (x + D - 1) (x + D) ltac:(lia)) as E. replace (x + D - (x + D - 1)) with 1 in E by lia. change (10 ^ 1) with 10 in E.
  pose proof (den_at_pos v (x + D)) as H1. pose proof (den_at_pos v (x + D - 1)) as H2. apply (Z.mul_lt_mono_pos_r (den_at v (x + D))); [done|]. rewrite <- E.
  assert (num_at v (x + D) * den_at v (x + D - 1) < den_at v (x + D) * den_at v (x + D - 1)) by (apply Z.mul_lt_mono_pos_r; done). lia.
Qed.

Lemma dragon_part v (closer fixed_ : bool) D x P : 0 < f v < 2 ^ 53 -> -1074 <= e v <= 971 -> leading v (x + D - 1) -> -400 <= x <= 400 -> D = 18 \/ D = 19 -> D <= P ->
  exists text X, format_dragon (Z.to_nat max_double_digits) v (Z.lor (if closer then predecessor_closer else 0) (if fixed_ then fixed else 0)) (Z.min P max_double_digits) (x + (D - 1)) = Ok (text, X) /\
    rounded_text fixed_ v (x + D - Z.min P max_double_digits) text X.
Proof.
  intros Hf He [_ Hlt] Hx HD HP. set (flags := Z.lor _ _). assert (Hfl : has_flag flags fixup = false /\ has_flag flags fixed = fixed_) by (subst flags; destruct closer, fixed_; done). destruct Hfl as [Hfu Hfx].
  destruct (dragon_rounds (Z.to_nat max_double_digits) v flags (Z.min P max_double_digits) (x + (D - 1))) as (text & X & w & t & E & Hd & Hv & Hx' & Ht & Hw & Hz); [lia|lia|lia|unfold max_double_digits; lia|replace (x + (D - 1)) with (x + D - 1) by lia; exact Hlt|].
  exists text, X. split; [done|]. rewrite Hfu in *. destruct Ht as [->|[_ Ht]]; [|done]. cbn [andb] in Hw. replace (x + D - Z.min P max_double_digits) with w by lia. split; [done|]. split; [right; lia|]. split; [unfold p10; by rewrite Z.max_l by lia|]. specialize (Hz eq_refl). split; [unfold max_double_digits in *; lia|]. intros ->. left. destruct Hx' as [?|[Hno _]]; [done|congruence].
Qed.

(** ** A float and the double it is widened to *)

(** The same number with another significand and exponent. *)
Definition same_value (v v' : basic_fp) : Prop := f v * 2 ^ Z.max (e v) 0 * 2 ^ Z.max (- e v') 0 = f v' * 2 ^ Z.max (e v') 0 * 2 ^ Z.max (- e v) 0.

Lemma same_ratio v v' x : same_value v v' -> num_at v x * den_at v' x = num_at v' x * den_at v x.
Proof.
  unfold same_value, num_at, den_at. intros H. transitivity (f v * 2 ^ Z.max (e v) 0 * 2 ^ Z.max (- e v') 0 * (p10 (- x) * p10 x)); [ring|]. rewrite H. ring.
Qed.

Lemma same_round v v' w : same_value v v' -> round_at v w = round_at v' w.
Proof. intros H. apply rhe_ratio; [apply den_at_pos..|]. by apply same_ratio. Qed.

Lemma same_leading v v' x : same_value v v' -> leading v x -> leading v' x.
Proof.
  intros H [H1 H2]. pose proof (same_ratio v v' x H) as E. pose proof (den_at_pos v x) as Hd. pose proof (den_at_pos v' x) as Hd'. split.
  - apply (Z.mul_le_mono_pos_r _ _ (den_at v x)); [done|]. rewrite <- E. rewrite Z.mul_comm. apply Z.mul_le_mono_nonneg_r; lia.
  - apply (Z.mul_lt_mono_pos_r (den_at v x)); [done|]. rewrite <- E. replace (10 * den_at v' x * den_at v x) with (10 * den_at v x * den_at v' x) by ring. apply Z.mul_lt_mono_pos_r; done.
Qed.

Lemma same_shift v k : 0 <= k -> same_value v (mkfp (f v * 2 ^ k) (e v - k)).
Proof.
  intros Hk. unfold same_value. cbn [f e]. rewrite <- !Z.mul_assoc. f_equal. rewrite <- !Z.pow_add_r by lia. f_equal. lia.
Qed.

(** [widen] gives the bits of the double with the value of the float. *)
Lemma assign_fields s b m : 0 <= s < 2 -> 0 < b < 2047 -> 0 <= m < 2 ^ 52 ->
  let u := Z.lor (Z.shiftl s 63) (Z.lor (Z.shiftl b 52) m) in
  0 <= u < 2 ^ 64 /\ Z.land u (exponent_mask binary64) <> exponent_mask binary64 /\ (fp_assign binary64 u).1 = mkfp (m + 2 ^ 52) (b - 1075).
Proof.
  intros Hs Hb Hm u. assert (Eu : u = s * 2 ^ 63 + (b * 2 ^ 52 + m)) by (subst u; rewrite !Z.shiftl_mul_pow2, (lor_parts b m 52), (lor_parts s _ 63) by lia; lia).
  assert (Em : u mod 2 ^ 52 = m) by (rewrite Eu; replace (s * 2 ^ 63 + (b * 2 ^ 52 + m)) with (m + (s * 2 ^ 11 + b) * 2 ^ 52) by lia; by rewrite Z.mod_add, Z.mod_small by lia).
  assert (Ed : u / 2 ^ 52 mod 2 ^ 11 = b) by (rewrite Eu; replace (s * 2 ^ 63 + (b * 2 ^ 52 + m)) with (m + (b + s * 2 ^ 11) * 2 ^ 52) by lia; rewrite Z.div_add, (Z.div_small m), Z.add_0_l, Z.mod_add, Z.mod_small by lia; done).
  destruct (bits_fields u) as [E1 E2]. split; [lia|]. split.
  - intros E. rewrite E in E2. rewrite Ed in E2. change (Z.shiftr (exponent_mask binary64) 52) with 2047 in E2. lia.
  - unfold fp_assign. cbn [num_significand_bits binary64 has_implicit_bit exponent_bias]. change (mkformat 52 11 true 1023) with binary64. rewrite E1, E2, Em, Ed. rewrite (proj2 (Z.eqb_neq b 0)) by lia. cbn [fst]. change (Z.shiftl 1 52) with (2 ^ 52). f_equal. lia.
Qed.

Lemma widen_ok u : 0 <= u < 2 ^ 32 -> Z.land u (exponent_mask binary32) <> exponent_mask binary32 -> f (fp_assign binary32 u).1 <> 0 ->
  0 <= widen u < 2 ^ 64 /\ Z.land (widen u) (exponent_mask binary64) <> exponent_mask binary64 /\ same_value (fp_assign binary32 u).1 (fp_assign binary64 (widen u)).1.
Proof.
  intros Hu Hfin. pose proof (float_range u Hfin) as Hr. destruct (float_fields u) as [Es Ee]. pose proof (float_exponent_field u) as Ex. rewrite Ee in Ex.
  unfold widen. assert (Eb : Z.land (Z.shiftr u 23) 255 = u / 2 ^ 23 mod 2 ^ 8) by (change 255 with (Z.ones 8); by rewrite Z.land_ones, Z.shiftr_div_pow2 by lia). rewrite Es, Eb. set (m := u mod 2 ^ 23) in *. set (b := u / 2 ^ 23 mod 2 ^ 8) in *.
  assert (Hm : 0 <= m < 2 ^ 23) by (apply Z.mod_pos_bound; lia). assert (Hb : 0 <= b < 2 ^ 8) by (apply Z.mod_pos_bound; lia). assert (Hb' : b <> 255) by (intros E; apply Hfin; by rewrite Ex, E).
  assert (Hs : 0 <= Z.shiftr u 31 < 2) by (rewrite Z.shiftr_div_pow2 by lia; split; [apply Z.div_pos; lia|apply Z.div_lt_upper_bound; lia]). set (s := Z.shiftr u 31) in *. clearbody s.
  assert (Ev : (fp_assign binary32 u).1 = if b =? 0 then mkfp m (-149) else mkfp (m + 2 ^ 23) (b - 150)).
  { unfold fp_assign. cbn [num_significand_bits binary32 has_implicit_bit exponent_bias]. change (mkformat 23 8 true 127) with binary32. rewrite Es, Ee. fold m b. destruct (b =? 0); cbn [fst]; [done|]. change (Z.shiftl 1 23) with (2 ^ 23). f_equal. lia. }
  rewrite Ev. clear Ev Es Ee Ex Eb Hr. destruct (Z.eqb_spec b 0) as [E0|E0]; cbn [f]; intros Hf.
  - rewrite (proj2 (Z.eqb_neq m 0)) by done. assert (Hl : 2 ^ Z.log2 m <= m < 2 * 2 ^ Z.log2 m) by (rewrite <- Z.pow_succ_r by apply Z.log2_nonneg; apply Z.log2_spec; lia). pose proof (Z.log2_nonneg m) as Hl0. assert (Hl23 : Z.log2 m < 23) by (apply Z.log2_lt_pow2; lia). set (l := Z.log2 m) in *. clearbody l.
    rewrite (Z.shiftl_mul_pow2 (m - _)), Z.shiftl_1_l by lia. assert (E52 : 2 ^ l * 2 ^ (52 - l) = 2 ^ 52) by (rewrite <- Z.pow_add_r by lia; f_equal; lia). pose proof (Z.pow_pos_nonneg 2 (52 - l) ltac:(lia) ltac:(lia)) as Hp.
    destruct (assign_fields s (l - 149 + 1023) ((m - 2 ^ l) * 2 ^ (52 - l)) Hs ltac:(lia) ltac:(nia)) as (H1 & H2 & H3). split; [done|]. split; [done|]. rewrite H3.
    replace ((m - 2 ^ l) * 2 ^ (52 - l) + 2 ^ 52) with (m * 2 ^ (52 - l)) by nia. replace (l - 149 + 1023 - 1075) with (-149 - (52 - l)) by lia. apply (same_shift (mkfp m (-149))). lia.
  - rewrite (Z.shiftl_mul_pow2 m) by lia. destruct (assign_fields s (b - 127 + 1023) (m * 2 ^ 29) Hs ltac:(lia) ltac:(lia)) as (H1 & H2 & H3). split; [done|]. split; [done|]. rewrite H3.
    replace (m * 2 ^ 29 + 2 ^ 52) with ((m + 2 ^ 23) * 2 ^ 29) by lia. replace (b - 127 + 1023 - 1075) with (b - 150 - 29) by lia. apply (same_shift (mkfp (m + 2 ^ 23) (b - 150))). lia.
Qed.

(** What [format_float] is given for a number. *)
Definition narrow_of (x : real) : option Z := match x with FloatBits u => Some u | DoubleBits _ => None end.

Lemma assign_narrow x : match narrow_of x with Some u => fp_assign binary32 u | None => fp_assign binary64 (convert_float x) end = value_of x.
Proof. by destruct x. Qed.

Lemma same_nonzero v v' : same_value v v' -> f v <> 0 -> f v' <> 0.
Proof.
  unfold same_value. intros H Hf Hf'. rewrite Hf' in H. pose proof (Z.pow_pos_nonneg 2 (Z.max (e v) 0) ltac:(lia) ltac:(lia)). pose proof (Z.pow_pos_nonneg 2 (Z.max (- e v') 0) ltac:(lia) ltac:(lia)). nia.
Qed.

Lemma converted_ok x : real_ok x -> isfinite x = true -> f (value_of x).1 <> 0 ->
  0 <= convert_float x < 2 ^ 64 /\ Z.land (convert_float x) (exponent_mask binary64) <> exponent_mask binary64 /\ same_value (value_of x).1 (fp_assign binary64 (convert_float x)).1 /\
  0 < f (value_of x).1 < 2 ^ 53 /\ -1074 <= e (value_of x).1 <= 971.
Proof.
  intros Hx Hfin. apply finite_ok in Hfin. unfold real_ok, value_of in *. destruct x as [u|u]; cbn [info_of bits_of convert_float] in *; intros Hf.
  - change (format_ float_float_info) with binary32 in *. destruct (widen_ok u Hx Hfin Hf) as (H1 & H2 & H3). pose proof (float_range u Hfin) as Hr. destruct (fp_assign binary32 u) as [v c]. cbn [fst] in *. split_and!; try done; lia.
  - change (format_ double_float_info) with binary64 in *. change (carrier_bits double_float_info) with 64 in *. pose proof (double_range u Hfin) as Hr. destruct (fp_assign binary64 u) as [v c]. cbn [fst] in *. split_and!; try done; lia.
Qed.

Lemma rounded_same fixed_ v v' w text X : same_value v v' -> rounded_text fixed_ v' w text X -> rounded_text fixed_ v w text X.
Proof. intros H. unfold rounded_text. by rewrite (same_round v v' w H). Qed.

Lemma format_float_ok x p specs : real_ok x -> isfinite x = true -> 0 <= p < 2 ^ 30 -> let v := (value_of x).1 in
  f v <> 0 -> exists text X x10, format_float (convert_float x) (narrow_of x) p specs = Ok (text, X) /\ leading v x10 /\ -400 <= x10 <= 420 /\
    rounded_text (type_ specs =? pres_fixed) v (x10 + 1 - Z.min (if type_ specs =? pres_fixed then p + x10 + 1 else p) max_double_digits) text X.
Proof.
  intros Hx Hfin Hp v' Hf'. destruct (converted_ok x Hx Hfin Hf') as (Hu & Hm & Hsame & Hr & Hre). subst v'. destruct (value_of x) as [v' closer] eqn:Ev. cbn [fst] in *. set (u := convert_float x) in *.
  pose proof (first_digits_ok u Hu Hm) as Hfd. pose proof (not_zero u) as Hz. destruct (fp_assign binary64 u) as [v cl] eqn:Efp. cbn [fst] in *. pose proof (same_nonzero _ _ Hsame Hf') as Hf. destruct (Hfd Hf) as (F & more & D & x0 & Ef & Hs). pose proof (assign_narrow x) as Enar. rewrite Ev in Enar. fold u in Enar.
  unfold format_float. rewrite (Hz Hf), Ef, Enar. cbn [obind]. set (fixed_ := type_ specs =? pres_fixed). set (P := if fixed_ then p + (x0 + D) else p). pose proof (seg_exp _ _ _ _ _ Hs) as Hx0. pose proof (seg_digits _ _ _ _ _ Hs) as HD. pose proof (seg_leading _ _ _ _ _ Hs) as Hlead.
  assert (Hsame' : same_value v v') by (symmetry; exact Hsame).
  assert (EP : (if fixed_ then adjust_precision p (x0 + D) else Ok p) = Ok P) by (subst P; destruct fixed_; [|done]; unfold adjust_precision; by rewrite (proj2 (Z.ltb_ge (max_int - (x0 + D)) p)), andb_false_r by (unfold max_int; lia)). rewrite EP. cbn [obind].
  assert (Hbody : forall trim : bool, trim && fixed_ = false -> exists text X, (let? '(buf, exp) :=
      if P <? D then
        if P <? 0 then Ok ([], x0 + D)
        else if P =? 0 then Ok ([if 5000000000000000000 <? Z.lor F (Z.b2z more) then 49 else 48], x0 + D)
        else match print_segments fixed_ F P (x0 + (D - P)) more inline_buffer with (Ok (n, exp), buf) => Ok (take (Z.to_nat n) buf, exp) | (Throw e, _) => Throw e | (Undef, _) => Undef end
      else format_dragon (Z.to_nat max_double_digits) v' (Z.lor (if closer then predecessor_closer else 0) (if fixed_ then fixed else 0)) (Z.min P max_double_digits) (x0 + (D - 1)) in
      Ok (if trim then trim_zeros buf exp else (buf, exp))) = Ok (text, X) /\ rounded_text fixed_ v (x0 + D - Z.min P max_double_digits) text X).
  { intros trim Htf. assert (Htrim : forall text X, rounded_text fixed_ v (x0 + D - Z.min P max_double_digits) text X -> exists text' X', Ok (if trim then trim_zeros text X else (text, X)) = Ok (text', X') /\ rounded_text fixed_ v (x0 + D - Z.min P max_double_digits) text' X').
    { intros text X H. destruct trim; [|by exists text, X]. cbn [andb] in Htf. rewrite Htf in *. apply rounded_trim in H. destruct (trim_zeros text X) as [text' X']. by exists text', X'. }
    destruct (Z.ltb_spec P D) as [HPD|HPD].
    - assert (Em : x0 + D - Z.min P max_double_digits = x0 + (D - P)) by (unfold max_double_digits; lia). destruct (Z.ltb_spec P 0) as [Hn|Hn]; [|destruct (Z.eqb_spec P 0) as [H0|H0]].
      + apply Htrim. rewrite Em. by apply (no_digit fixed_ v F more).
      + apply Htrim. rewrite Em. replace (x0 + (D - P)) with (x0 + D) by lia. by apply one_digit.
      + destruct (print_segments_ok F (Z.to_nat P) more (seg_range _ _ _ _ _ Hs) fixed_ (x0 + (D - P)) ltac:(lia)) as (n & X & buf & Epr & Hro). rewrite Z2Nat.id in Epr, Hro by lia. rewrite Epr. cbn [obind]. apply Htrim. rewrite Em.
        rewrite (seg_round v F more D x0 Hs P) in Hro by lia. apply (rounded_at v _ fixed_ (Z.to_nat P)); [lia|done].
    - destruct (dragon_part v' closer fixed_ D x0 P) as (text & X & E & Hro); [lia|lia|by apply (same_leading v)|done|done|lia|]. rewrite E. cbn [obind]. apply Htrim. by apply (rounded_same _ v v'). }
  destruct (Hbody (negb fixed_ && negb (alt specs)) ltac:(by destruct fixed_, (alt specs))) as (text & X & E & Hro). exists text, X, (x0 + D - 1). split; [exact E|]. split; [by apply (same_leading v)|]. split; [lia|]. apply (rounded_same _ v' v); [done|].
  replace (x0 + D - 1 + 1 - Z.min (if fixed_ then p + (x0 + D - 1) + 1 else p) max_double_digits) with (x0 + D - Z.min P max_double_digits) by (subst P; destruct fixed_; lia). done.
Qed.

(** ** The text with a fixed number of digits *)
Lemma digits_bool l : Forall FmtDragon.is_digit l -> all_digits l.
Proof. intros H. eapply Forall_impl; [exact H|]. intros c Hc. red in Hc. unfold is_digit. apply andb_true_intro. split; apply Z.leb_le; lia. Qed.

(** "{:.Nf}". *)
Definition fixed_specs (N : Z) : format_specs := set_precision N (set_type pres_fixed format_specs_new).

Lemma write_fixed_ok np negative ds X N xu : Forall FmtDragon.is_digit ds -> 1 <= N < 2 ^ 30 -> zlen ds <= 1000 -> X = - N \/ ds = [] /\ X <= - N ->
  exists text, do_write_float np (BigDecimal ds X) (set_precision N (set_alt (fixed_specs N))) (sign_of negative) xu = Ok text /\ read_decimal text = Some (negative, dval ds, - N).
Proof.
  intros Hd HN Hz HX. apply digits_bool in Hd. set (n := zlen ds) in *. pose proof (zlen_nonneg ds) as Hn0. fold n in Hn0. unfold do_write_float. cbn [get_significand_size obind exponent]. fold n. unfold use_exp_format.
  change (type_ (set_precision N (set_alt (fixed_specs N)))) with pres_fixed. change (localized (set_precision N (set_alt (fixed_specs N)))) with false. change (alt (set_precision N (set_alt (fixed_specs N)))) with true. change (precision (set_precision N (set_alt (fixed_specs N)))) with N.
  set (sp := set_precision N (set_alt (fixed_specs N))). assert (Hw : width sp = 0) by done. clearbody sp. change (pres_fixed =? pres_exp) with false. change (pres_fixed =? pres_fixed) with true. cbv iota.
  change (digit_grouping_of np false) with (mkgrouping [] []). rewrite (proj2 (Z.leb_gt 0 X)) by lia. assert (Hsg : 0 <= (if bool_decide (sign_of negative = sign_none) then 0 else 1)) by (destruct (bool_decide _); lia). set (sg := if bool_decide _ then 0 else 1) in *.
  destruct (Z.ltb_spec 0 (X + n)) as [Hx|Hx].
  - assert (EX : X = - N) by (destruct HX as [?|[E0 ?]]; [done|subst n; rewrite E0 in Hx; change (zlen (@nil Z)) with 0 in Hx; lia]). rewrite count_no_separator by (done || (unfold max_int; lia)). cbn [obind]. unfold write_significand_grouped, write_significand_point.
    rewrite (proj2 (Z.leb_le (X + n) n)) by lia. cbn [obind]. change (has_separator (mkgrouping [] [])) with false. change (46 =? 0) with false. cbn [negb obind]. rewrite write_padded_none, write_sign_of by (done || lia). eexists. split; [reflexivity|].
    unfold slice. set (i := Z.to_nat (X + n)). rewrite (take_ge (drop i ds)) by (rewrite length_drop; unfold n, zlen in *; lia). assert (Ez : zeros (N - n) = []) by (unfold zeros; by replace (Z.to_nat (N - n)) with O by lia). rewrite Ez, app_nil_r.
    replace ((if negative then [45] else []) ++ take i ds ++ [46] ++ drop i ds) with (number_text negative (take i ds) (Some (drop i ds)) None) by (unfold number_text; by rewrite app_nil_r).
    rewrite read_number_text; [|intros Et; apply (f_equal length) in Et; rewrite length_take in Et; unfold n, zlen in *; subst i; cbn [length] in Et; lia|by apply Forall_take|by apply Forall_drop|done]. cbn [from_option id]. rewrite take_drop.
    assert (El : zlen (drop i ds) = N) by (unfold n, zlen in *; rewrite length_drop; lia). rewrite El. do 2 f_equal.
  - set (nz := if (n =? 0) && (0 <=? N) && (N <? - (X + n)) then N else - (X + n)). assert (Enz : nz + n = N /\ 0 <= nz).
    { subst nz. destruct HX as [->|[E0 HX]]; [destruct (Z.eqb_spec n 0); cbn [andb]; [rewrite (proj2 (Z.ltb_ge N _)), andb_false_r by lia|]; lia|]. assert (n = 0) by (subst n; by rewrite E0). rewrite (proj2 (Z.eqb_eq n 0)), (proj2 (Z.leb_le 0 N)) by lia. cbn [andb]. destruct (Z.ltb_spec N (- (X + n))); lia. }
    rewrite orb_true_r. unfold write_significand. cbn [obind]. rewrite take_ge by (unfold n, zlen; lia). rewrite write_padded_none, write_sign_of by (done || lia). eexists. split; [reflexivity|]. destruct (zeros_value nz) as (Hz0 & Hzv & Hzl).
    replace ((if negative then [45] else []) ++ [48] ++ 46 :: zeros nz ++ ds) with (number_text negative [48] (Some (zeros nz ++ ds)) None) by (unfold number_text; by rewrite app_nil_r).
    rewrite read_number_text; [|done|by repeat constructor|by apply Forall_app|done]. cbn [from_option id]. rewrite !dval_app, Hzv, zlen_app, Hzl. change (dval [48]) with 0. fold n. do 2 f_equal; lia.
Qed.

Lemma is_zero u : let '(v, _) := fp_assign binary64 u in f v = 0 -> (Z.land u (2 ^ 63 - 1) =? 0) = true.
Proof.
  unfold fp_assign. cbn [num_significand_bits binary64 has_implicit_bit]. change (mkformat 52 11 true 1023) with binary64. destruct (bits_fields u) as [-> ->]. change (2 ^ 63 - 1) with (Z.ones 63). rewrite Z.land_ones by lia. change (Z.shiftl 1 52) with (2 ^ 52).
  pose proof (Z.mod_pos_bound u (2 ^ 52) ltac:(lia)) as Hm. destruct (Z.eqb_spec (u / 2 ^ 52 mod 2 ^ 11) 0) as [E|E]; cbn [f]; [|lia]. intros E0. apply Z.eqb_eq. change (2 ^ 63) with (2 ^ 52 * 2 ^ 11). rewrite Z.rem_mul_r, E, E0 by lia. done.
Qed.

Lemma is_zero_real x : real_ok x -> isfinite x = true -> f (value_of x).1 = 0 -> (Z.land (convert_float x) (2 ^ 63 - 1) =? 0) = true.
Proof.
  intros Hx Hfin. unfold value_of. destruct x as [u|u]; cbn [info_of bits_of convert_float].
  - pose proof (float_zero u) as Hz. change (format_ float_float_info) with binary32. unfold fp_assign, widen. cbn [num_significand_bits binary32 has_implicit_bit exponent_bias]. change (mkformat 23 8 true 127) with binary32. destruct (float_fields u) as [-> ->].
    assert (Eb : Z.land (Z.shiftr u 23) 255 = u / 2 ^ 23 mod 2 ^ 8) by (change 255 with (Z.ones 8); by rewrite Z.land_ones, Z.shiftr_div_pow2 by lia). rewrite Eb. pose proof (Z.mod_pos_bound u (2 ^ 23) ltac:(lia)) as Hm. change (Z.shiftl 1 23) with (2 ^ 23).
    destruct (u / 2 ^ 23 mod 2 ^ 8 =? 0); cbn [fst f]; [|lia]. intros ->. change (0 =? 0) with true. cbv iota. change (2 ^ 63 - 1) with (Z.ones 63). rewrite Z.land_ones, (Z.shiftl_mul_pow2 _ 63), Z.mod_mul by lia. done.
  - change (format_ double_float_info) with binary64. pose proof (is_zero u) as Hz. by destruct (fp_assign binary64 u).
Qed.

(** C21: a finite float or double written with "{:.Nf}", for N from 1 to 340, is a text whose sign is the sign of the number and whose
    digits, N of them behind the decimal point, are the exact value of the number rounded to the nearest multiple of
    [10 ^ -N], a tie to the even one. *)
Theorem fixed_text_rounds np x N : real_ok x -> isfinite x = true -> 1 <= N <= 340 ->
  exists text, write_float np x (fixed_specs N) = Ok text /\ read_decimal text = Some (2 ^ (carrier_bits (info_of x) - 1) <=? bits_of x, round_at (value_of x).1 (- N), - N).
Proof.
  intros Hx Hfin HN. unfold write_float. rewrite signbit_ok, Hfin by done. cbn [negb]. set (neg := 2 ^ (carrier_bits (info_of x) - 1) <=? bits_of x). change (sign (fixed_specs N)) with sign_none. fold (sign_of neg). change (bool_decide (align (fixed_specs N) = align_numeric)) with false. cbn [andb].
  unfold write_finite. change (precision (fixed_specs N)) with N. change (type_ (fixed_specs N)) with pres_fixed. rewrite (proj2 (Z.ltb_ge N 0)), (proj2 (Z.eqb_neq N 0)) by lia. change (pres_fixed =? pres_hexfloat) with false. change (pres_fixed =? pres_exp) with false. change (pres_fixed =? pres_fixed) with true. cbn [andb negb obind].
  fold (narrow_of x). set (sp := set_alt (fixed_specs N)). assert (Hend : forall ds X, format_float (convert_float x) (narrow_of x) N sp = Ok (ds, X) -> Forall FmtDragon.is_digit ds -> zlen ds <= 1000 -> X = - N \/ ds = [] /\ X <= - N -> dval ds = round_at (value_of x).1 (- N) ->
    exists text, (let? '(buffer, exp) := format_float (convert_float x) (narrow_of x) N sp in do_write_float np (BigDecimal buffer exp) (set_precision N sp) (sign_of neg) (exp_upper x)) = Ok text /\ read_decimal text = Some (neg, round_at (value_of x).1 (- N), - N)).
  { intros ds X E Hd Hl HX Hv. rewrite E, <- Hv. cbn [obind]. apply write_fixed_ok; done || lia. }
  destruct (Z.eq_dec (f (value_of x).1) 0) as [E0|E0].
  - destruct (zeros_value N) as (_ & Hv & Hl). apply (Hend (zeros N) (- N)); [|by apply Forall_replicate|lia|by left|].
    + unfold format_float. rewrite (is_zero_real x Hx Hfin E0). change (type_ sp =? pres_fixed) with true. by rewrite (proj2 (Z.leb_gt N 0)) by lia.
    + set (v := (value_of x).1) in *. change (round_at v (- N)) with (rhe (num_at v (- N)) (den_at v (- N))). pose proof (den_at_pos v (- N)) as Hb. unfold num_at at 1. rewrite E0, rhe_small, (proj2 (Z.ltb_ge _ _)) by lia. done.
  - destruct (format_float_ok x N sp Hx Hfin ltac:(lia) E0) as (ds & X & x10 & E & _ & Hx10 & Hd & _ & Hv & Hl & HX). change (type_ sp =? pres_fixed) with true in *. cbv iota in *. replace (x10 + 1 - _) with (- N) in * by (unfold max_double_digits; lia). specialize (HX eq_refl). apply (Hend ds X E Hd Hl HX).
    destruct HX as [->|[-> _]]; [|done]. rewrite Z.sub_diag in Hv. change (p10 0) with 1 in Hv. lia.
Qed.

(** -0.125 is a tie. *)
Lemma fixed_text_rounds_witness : exists text, write_float (mknumpunct [] 44 46) (DoubleBits 0xbfc0000000000000) (fixed_specs 2) = Ok text /\ read_decimal text = Some (true, 12, -2).
Proof.
  destruct (fixed_text_rounds (mknumpunct [] 44 46) (DoubleBits 0xbfc0000000000000) 2) as (text & E & H); [split; [discriminate|reflexivity]|vm_compute; reflexivity|lia|]. exists text. split; [exact E|]. rewrite H. vm_compute. reflexivity.
Defined.

Example fixed_texts :
  map (fun '(x, n) => write_float (mknumpunct [3] 44 46) x (fixed_specs n))
    [(DoubleBits 0xbfc0000000000000, 2); (DoubleBits 0x3fb999999999999a, 20); (DoubleBits 0x8000000000000000, 3); (DoubleBits 0x40c81cd6e631f8a1, 1); (DoubleBits 1, 2); (DoubleBits 0x3fefffffffffffff, 15); (FloatBits 0x3dcccccd, 20); (FloatBits 1, 3)] =
  map (fun s => Ok (chars s)) ["-0.12"; "0.10000000000000000555"; "-0.000"; "12345.7"; "0.00"; "1.000000000000000"; "0.10000000149011611938"; "0.000"]%string.
Proof. vm_compute. reflexivity. Qed.
