(* ===== verification/FmtCheck.v ===== *)
(** * fmt: format strings checked at compile time (fmt/bundled/base.h)

    [format_string_checker], the handler with which a [format_string] is parsed
    when the program is compiled: it knows the types of the arguments, and a
    string it rejects does not compile.  There are no named arguments. *)

From S2P Require Import Prelude Machine FmtInt FmtEscape FmtParse FmtFormat.

(** ** The checker *)

Section checker.
Context (types : list Z).

(** [native_formatter::parse]. *)
Definition native_parse (t : Z) (l : list Z) : M fmt_state (list Z) :=
  match l with
  | [] => ret l
  | c :: _ =>
      if c =? 125 then ret l
      else
        let! '(s, l) := parse_format_specs (Some types) t l format_specs_new in
        if t =? char_type then let! _ := of_outcome (check_char_specs s) in ret l else ret l
  end.

(** Specifications of an argument whose type is not known are skipped. *)
Fixpoint skip_specs (bracket_count : Z) (l : list Z) : list Z :=
  match l with
  | [] => []
  | c :: l' =>
      if (0 <? bracket_count) || negb (c =? 125)
      then skip_specs (if c =? 123 then bracket_count + 1 else if c =? 125 then bracket_count - 1 else bracket_count) l'
      else l
  end.

Definition check_format_specs (id : Z) (l : list Z) : M fmt_state (list Z) :=
  if (0 <=? id) && (id <? zlen types)
  then match types !! Z.to_nat id with Some t => native_parse t l | None => undef end
  else ret (skip_specs 0 l).
Definition check_field (id : Z) (l : list Z) : M fmt_state unit :=
  if (0 <=? id) && (id <? zlen types) then do! check_format_specs id l in ret tt else ret tt.
Definition check_text (t : list Z) : M fmt_state unit := ret tt.

(** [compile_parse_context], which checks the index once more. *)
Definition compile_next_arg_id : M fmt_state Z :=
  let! id := next_arg_id (Some types) in
  if zlen types <=? id then report_error "argument not found" else ret id.
Definition compile_check_arg_id (id : Z) : M fmt_state Z :=
  do! check_arg_id (Some types) id in
  if zlen types <=? id then report_error "argument not found" else ret id.
Definition check_name (name : list Z) : M fmt_state Z := report_error "argument not found".

Definition format_string_checker : handler fmt_state :=
  mkhandler check_text compile_next_arg_id compile_check_arg_id check_name check_field check_format_specs.

(** [fstring]: whether the string compiles for arguments of these types. *)
Definition fstring (fmt : list Z) : outcome unit := fst (parse_format_string format_string_checker (length fmt) [] fmt (mkfmt_state 0 [])).
End checker.

(** ** What a checked string can still throw *)

(** A name right after an opening brace. *)
Definition names_argument (fmt : list Z) : Prop := exists pre c rest, fmt = pre ++ 123 :: c :: rest /\ is_name_start c = true.

Inductive late_error (args : list fmt_arg) (fmt : list Z) : string -> Prop :=
| late_null address : CStrArg address None ∈ args -> late_error args fmt "string pointer is null"
| late_range signed bits v :
    IntArg signed bits v ∈ args -> v < 0 \/ INT_MAX < v -> late_error args fmt "width/precision is out of range"
| late_not_integer a :
    a ∈ args -> (exists b, a = BoolArg b) \/ (exists c, a = CharArg c) -> late_error args fmt "width/precision is not integer"
| late_name : names_argument fmt -> late_error args fmt "argument not found".

(** ** Compile time and run time *)

Section simulation.
Context {T : Locale} (args : list fmt_arg) (fmt : list Z) (Hargs : Forall arg_ok args).
Abbreviation types := (map arg_type args).

(** When the checker goes on, so does formatting, or it throws a late error. *)
Definition sim {A B} (R : A -> B -> Prop) (mc : M fmt_state A) (mr : M fmt_state B) : Prop :=
  forall sc sr, next_arg_id_ sc = next_arg_id_ sr ->
  match mc sc with
  | (Ok a, sc') =>
      match mr sr with
      | (Ok b, sr') => R a b /\ next_arg_id_ sc' = next_arg_id_ sr'
      | (Throw e, _) => exists w, e = runtime_error w /\ late_error args fmt w
      | (Undef, _) => False
      end
  | _ => True
  end.

Lemma sim_bind {A B A' B'} (R : A -> B -> Prop) (R' : A' -> B' -> Prop) mc mr kc kr :
  sim R mc mr -> (forall a b, R a b -> sim R' (kc a) (kr b)) -> sim R' (bind mc kc) (bind mr kr).
Proof.
  intros Hm Hk sc sr Hs. specialize (Hm sc sr Hs). unfold bind. destruct (mc sc) as [[a|e|] sc']; [|done|done].
  destruct (mr sr) as [[b|e|] sr']; [|by destruct (kc a sc') as [[]]|by destruct (kc a sc') as [[]]]. destruct Hm as [HR Hn]. by apply Hk.
Qed.
Lemma sim_bind_left {A B A'} (R : A -> B -> Prop) (R' : A' -> B -> Prop) mc mr kc :
  sim R mc mr -> (forall a b, R a b -> sim R' (kc a) (ret b)) -> sim R' (bind mc kc) mr.
Proof.
  intros Hm Hk sc sr Hs. specialize (Hm sc sr Hs). unfold bind. destruct (mc sc) as [[a|e|] sc']; [|done|done].
  destruct (mr sr) as [[b|e|] sr']; [|by destruct (kc a sc') as [[]]|by destruct (kc a sc') as [[]]]. destruct Hm as [HR Hn]. by apply (Hk a b HR sc' sr').
Qed.
Lemma sim_bind_right {A B B'} (R : A -> B -> Prop) (R' : A -> B' -> Prop) mc mr kr :
  sim R mc mr -> (forall a b, R a b -> sim R' (ret a) (kr b)) -> sim R' mc (bind mr kr).
Proof.
  intros Hm Hk sc sr Hs. specialize (Hm sc sr Hs). unfold bind. destruct (mc sc) as [[a|e|] sc']; [|done|done].
  destruct (mr sr) as [[b|e|] sr']; [|done|done]. destruct Hm as [HR Hn]. by apply (Hk a b HR sc' sr').
Qed.
Lemma sim_ret {A B} (R : A -> B -> Prop) a b : R a b -> sim R (ret a) (ret b).
Proof. by intros HR sc sr Hs. Qed.
Lemma sim_error {A B} (R : A -> B -> Prop) w mr : sim R (report_error w) mr.
Proof. by intros sc sr Hs. Qed.
Lemma sim_mono {A B} (R R' : A -> B -> Prop) mc mr : sim R mc mr -> (forall a b, R a b -> R' a b) -> sim R' mc mr.
Proof. intros Hm HR sc sr Hs. specialize (Hm sc sr Hs). destruct (mc sc) as [[]]; [|done|done]. destruct (mr sr) as [[]]; [|done|done]. destruct Hm. auto. Qed.
Create HintDb simdb.
#[local] Hint Resolve sim_error sim_ret : simdb.

(** An argument that exists. *)
Definition valid (id : Z) : Prop := 0 <= id < zlen types /\ exists a, args !! Z.to_nat id = Some a.

Lemma valid_check id : 0 <= id -> (zlen types <=? id) = false -> valid id.
Proof.
  intros Hi Hl. bool_to_prop. split; [lia|]. unfold zlen in Hl. rewrite length_map in Hl. destruct (lookup_lt_is_Some_2 args (Z.to_nat id)) as [a Ha]; [lia|]. by exists a.
Qed.

Lemma sim_next : sim (fun a b => a = b /\ valid a) (next_arg_id (Some types)) (next_arg_id None).
Proof.
  intros sc sr Hs. unfold next_arg_id, bind, gets, set_next, modify, do_check_arg_id, ret, report_error, throw. rewrite Hs.
  destruct (Z.ltb_spec (next_arg_id_ sr) 0); [done|]. destruct (zlen types <=? next_arg_id_ sr) eqn:E; [done|]. split; [|done]. split; [done|]. by apply valid_check.
Qed.
Lemma sim_check id : 0 <= id -> sim (fun _ _ => valid id) (check_arg_id (Some types) id) (check_arg_id None id).
Proof.
  intros Hi sc sr Hs. unfold check_arg_id, bind, gets, set_next, modify, do_check_arg_id, ret, report_error, throw. rewrite Hs.
  destruct (0 <? next_arg_id_ sr); [done|]. destruct (zlen types <=? id) eqn:E; [done|]. split; [|done]. by apply valid_check.
Qed.
Lemma sim_name n : sim (fun _ _ => True) (check_arg_name n) (check_arg_name n).
Proof. by intros sc sr Hs. Qed.

(** A dynamic width or precision: an argument that is an integer, a boolean or a character. *)
Definition ref_ok (r : option arg_ref) : Prop :=
  match r with
  | Some (RefIndex i) => exists a, args !! Z.to_nat i = Some a /\ is_integral_type (arg_type a) = true
  | Some (RefName _) => names_argument fmt
  | None => True
  end.
Lemma sim_dynamic_type id : valid id ->
  sim (fun _ _ => ref_ok (Some (RefIndex id))) (check_dynamic_spec (Some types) id) (check_dynamic_spec None id).
Proof.
  intros [_ [a Ha]] sc sr Hs. unfold check_dynamic_spec. rewrite list_lookup_fmap, Ha. simpl. destruct (is_integral_type (arg_type a)) eqn:E; [|done].
  simpl. split; [|done]. by exists a.
Qed.

(** ** Positions stay in the string *)

Abbreviation rest l := (suffix l fmt).
Lemma read_int_suffix value prev last n l : (read_int value prev last n l).2 `suffix_of` l.
Proof. revert value prev last n. induction l as [|c l IH]; intros; simpl; [done|]. destruct (is_digit c); [|done]. by apply suffix_cons_r. Qed.
Lemma read_int_nonneg value prev last n l : 0 <= value -> 0 <= (read_int value prev last n l).1.1.1.1.
Proof.
  revert value prev last n. induction l as [|c l IH]; intros; simpl; [done|]. destruct (is_digit c); [|done]. apply IH. unfold u32, wrap. apply Z.mod_pos_bound. reflexivity.
Qed.
Lemma parse_int_suffix l e : (parse_nonnegative_int l e).2 `suffix_of` l.
Proof.
  unfold parse_nonnegative_int. pose proof (read_int_suffix 0 0 0 0 l) as H. destruct (read_int _ _ _ _ l) as [[[[? ?] ?] ?] r]. simpl in *.
  destruct (_ <=? 9); [done|]. by destruct (_ && _).
Qed.
Lemma parse_int_nonneg l e : 0 <= e -> 0 <= (parse_nonnegative_int l e).1.
Proof.
  intros He. unfold parse_nonnegative_int. pose proof (read_int_nonneg 0 0 0 0 l ltac:(lia)) as H. destruct (read_int _ _ _ _ l) as [[[[v ?] ?] ?] r]. simpl in *.
  destruct (_ <=? 9); [done|]. by destruct (_ && _).
Qed.
Lemma name_rest_suffix l : (name_rest l).2 `suffix_of` l.
Proof. induction l as [|c l IH]; simpl; [done|]. destruct (_ || _); [|done]. destruct (name_rest l). simpl in *. by apply suffix_cons_r. Qed.

(** [parse_arg_id] calls one of the two functions. *)
Lemma sim_arg_id {A} (P : A -> Prop) ic nc ir nr l :
  (forall i, 0 <= i -> sim (fun a b => a = b /\ P a) (ic i) (ir i)) ->
  (forall n, (exists c l', l = c :: l' /\ is_name_start c = true) -> sim (fun a b => a = b /\ P a) (nc n) (nr n)) ->
  sim (fun a b => a = b /\ P a.1 /\ a.2 `suffix_of` l) (parse_arg_id ic nc l) (parse_arg_id ir nr l).
Proof.
  intros Hi Hn. unfold parse_arg_id. destruct l as [|c l']; [by intros sc sr Hs|]. destruct (is_digit c).
  - assert (H : 0 <= (if negb (c =? 48) then parse_nonnegative_int (c :: l') INT_MAX else (0, l')).1 /\
      (if negb (c =? 48) then parse_nonnegative_int (c :: l') INT_MAX else (0, l')).2 `suffix_of` c :: l').
    { destruct (negb _); [split; [by apply parse_int_nonneg|apply parse_int_suffix]|]. split; [done|by apply suffix_cons_r]. }
    destruct (if negb (c =? 48) then _ else _) as [i r]. destruct H as [H0 Hr]. simpl in H0, Hr. destruct r as [|d r]; [auto with simdb|].
    destruct (_ || _); [|auto with simdb]. eapply sim_bind; [by apply Hi|]. intros a b [-> HP]. by apply sim_ret.
  - destruct (is_name_start c) eqn:Ec; cbn [negb]; [|auto with simdb]. pose proof (name_rest_suffix l') as Hr. destruct (name_rest l') as [n r].
    eapply sim_bind; [apply Hn; by exists c, l'|]. intros a b [-> HP]. apply sim_ret. split_and!; [done|done|]. by apply suffix_cons_r.
Qed.

Lemma sim_dynamic l : rest l ->
  sim (fun a b => a = b /\ rest a.2 /\ match a.1 with inr r => ref_ok (Some r) | inl _ => True end)
    (parse_dynamic_spec (Some types) l) (parse_dynamic_spec None l).
Proof.
  intros Hl. unfold parse_dynamic_spec. destruct l as [|c l']; [by intros sc sr Hs|]. destruct (is_digit c).
  - pose proof (parse_int_suffix (c :: l') (-1)) as Hr. destruct (parse_nonnegative_int _ _) as [v r]. destruct (v =? -1); [auto with simdb|].
    apply sim_ret. split_and!; [done| |done]. by etrans.
  - destruct (Z.eqb_spec c 123) as [->|]; [|auto with simdb]. destruct l' as [|d r]; [auto with simdb|].
    apply (sim_bind (fun a b => a = b /\ ref_ok (Some a.1) /\ a.2 `suffix_of` d :: r)).
    + destruct (_ || _).
      * eapply sim_bind; [apply sim_next|]. intros i ? [<- Hv]. eapply sim_bind; [by apply sim_dynamic_type|]. intros ? ? Hok. apply sim_ret. by split_and!.
      * apply (sim_arg_id (fun a => ref_ok (Some a))).
        -- intros i Hi. eapply sim_bind; [by apply sim_check|]. intros ? ? Hv. eapply sim_bind; [by apply sim_dynamic_type|]. intros ? ? Hok. by apply sim_ret.
        -- intros n (c & l' & [= -> ->] & Hc). eapply sim_bind; [apply sim_name|]. intros ? ? _. apply sim_ret. split; [done|].
           destruct Hl as [pre ->]. by exists pre, c, l'.
    + intros [ref q] ? (<- & Hok & Hq). destruct q as [|e q]; [auto with simdb|]. destruct (e =? 125); [|auto with simdb]. apply sim_ret.
      split_and!; [done| |done]. simpl in *. etrans; [|exact Hl]. apply suffix_cons_r. etrans; [|exact Hq]. by apply suffix_cons_r.
Qed.

Definition refs_ok (s : format_specs) : Prop := ref_ok (width_ref s) /\ ref_ok (precision_ref s).
Definition specs_rel (a b : format_specs * list Z) : Prop := a = b /\ refs_ok a.1 /\ rest a.2.

Lemma sim_width l s : rest l -> refs_ok s -> sim specs_rel (parse_width (Some types) l s) (parse_width None l s).
Proof.
  intros Hl Hs. unfold parse_width. eapply sim_bind; [by apply sim_dynamic|]. intros [[v|r] q] ? (<- & Hq & Hok); apply sim_ret; unfold specs_rel, refs_ok in *; simpl in *; tauto.
Qed.
Lemma sim_precision l s : rest l -> refs_ok s -> sim specs_rel (parse_precision (Some types) l s) (parse_precision None l s).
Proof.
  intros Hl Hs. unfold parse_precision. destruct l as [|c [|d l]]; [by intros ? ? ?|auto with simdb|]. eapply sim_bind.
  { apply sim_dynamic. etrans; [|exact Hl]. by apply suffix_cons_r. }
  intros [[v|r] q] ? (<- & Hq & Hok); apply sim_ret; unfold specs_rel, refs_ok in *; simpl in *; tauto.
Qed.

Lemma sim_enter current s valid : sim (fun _ _ => True) (enter_state current s valid) (enter_state current s valid).
Proof. unfold enter_state. destruct (_ || _); auto with simdb. Qed.
Lemma sim_presentation t pres set l s : rest l -> refs_ok s -> sim specs_rel (parse_presentation_type t pres set l s) (parse_presentation_type t pres set l s).
Proof. intros Hl Hs. unfold parse_presentation_type. destruct (negb _); [auto with simdb|]. by apply sim_ret. Qed.

Lemma sim_specs_loop fuel t current c l s :
  rest l -> refs_ok s -> sim specs_rel (specs_loop (Some types) fuel t current c l s) (specs_loop None fuel t current c l s).
Proof.
  revert current c l s. induction fuel as [|fuel IH]; intros current c l s Hl Hs; [by intros ? ? ?|]. destruct l as [|x l']; [by intros ? ? ?|].
  assert (Hl' : rest l') by (etrans; [|exact Hl]; by apply suffix_cons_r).
  assert (Hc : forall l2 st s2, rest l2 -> refs_ok s2 ->
    sim specs_rel (match l2 with [] => ret (s2, []) | c2 :: _ => specs_loop (Some types) fuel t st c2 l2 s2 end)
      (match l2 with [] => ret (s2, []) | c2 :: _ => specs_loop None fuel t st c2 l2 s2 end)).
  { intros [|c2 l2] st s2 H2 Hs2; [by apply sim_ret|by apply IH]. }
  assert (Ht : forall pres set s2, refs_ok s2 -> sim specs_rel (parse_presentation_type t pres set l' s2) (parse_presentation_type t pres set l' s2)).
  { intros. by apply sim_presentation. }
  assert (Hdone : sim specs_rel (ret (s, x :: l') : M fmt_state _) (ret (s, x :: l'))) by (by apply sim_ret).
  cbn [specs_loop]. cbv zeta.
  repeat match goal with |- sim _ (if ?b then _ else _) _ => destruct b end; try solve [apply Ht, Hs | apply Hdone | auto with simdb].
  all: try (eapply sim_bind; [apply sim_enter|intros _ _ _]; try (apply Hc; [done|]; by repeat case_bool_decide)).
  - destruct (negb _); [auto with simdb|]. apply Hc; [done|]. by case_bool_decide.
  - eapply sim_bind; [by apply sim_width|]. intros [s2 l2] ? (<- & H2 & Hs2). by apply Hc.
  - eapply sim_bind; [by apply sim_precision|]. intros [s2 l2] ? (<- & H2 & Hs2). by apply Hc.
  - destruct (drop _ _) as [|a r] eqn:E; [auto with simdb|]. destruct (_ =? 123); [auto with simdb|].
    eapply sim_bind; [apply sim_enter|intros _ _ _]. apply Hc; [|done]. etrans; [|exact Hl].
    apply (suffix_cons_l _ _ a). rewrite <- E. apply suffix_drop.
Qed.

Lemma sim_specs t l s : rest l -> refs_ok s -> sim specs_rel (parse_format_specs (Some types) t l s) (parse_format_specs None t l s).
Proof.
  intros Hl Hs. unfold parse_format_specs. destruct l as [|c [|d l]]; [by apply sim_ret|by apply sim_specs_loop|]. cbv zeta. by apply sim_specs_loop.
Qed.

(** ** Formatting after parsing *)

(** Only late errors, and the argument counter stays. *)
Definition late_only {A} (m : M fmt_state A) : Prop :=
  forall s, match m s with
  | (Ok _, s') => next_arg_id_ s' = next_arg_id_ s
  | (Throw e, _) => exists w, e = runtime_error w /\ late_error args fmt w
  | (Undef, _) => False
  end.
Lemma sim_right {A B C} (R : A -> B -> Prop) mc (m : M fmt_state C) k : late_only m -> (forall c, sim R mc (k c)) -> sim R mc (bind m k).
Proof.
  intros Hm Hk sc sr Hs. specialize (Hm sr). unfold bind. destruct (m sr) as [[c|e|] sr'].
  - apply Hk. congruence.
  - by destruct (mc sc) as [[]].
  - done.
Qed.
Lemma late_outcome {A} (o : outcome A) :
  (exists a, o = Ok a) \/ (exists w, o = Throw (runtime_error w) /\ late_error args fmt w) -> late_only (of_outcome o).
Proof. intros [[a ->]|(w & -> & Hw)] s; [done|]. by exists w. Qed.
Lemma late_text t : late_only (write_text t).
Proof. by intros s. Qed.

Lemma late_dynamic r v : ref_ok r -> late_only (handle_dynamic_spec args r v).
Proof.
  intros Hr s. destruct r as [[i|n]|]; simpl in *; [|by exists "argument not found"; split; [|constructor]|done].
  destruct Hr as (a & Ha & Hi). unfold bind, get_arg. rewrite Ha. assert (Hin : a ∈ args) by (by eapply list_elem_of_lookup_2).
  destruct a as [signed bits v'|b|c|p t|t]; try done.
  - unfold ret. rewrite Forall_forall in Hargs. specialize (Hargs _ Hin). destruct Hargs as [_ Hv]. destruct (signed && (v' <? 0)) eqn:E.
    + change (INT_MAX <? 2 ^ 64 - 1) with true. eexists. split; [reflexivity|]. econstructor; [exact Hin|]. bool_to_prop. lia.
    + destruct (Z.ltb_spec INT_MAX v'); [|done]. eexists. split; [reflexivity|]. econstructor; [exact Hin|]. by right.
  - eexists. split; [reflexivity|]. econstructor; [exact Hin|]. left. by eexists.
  - eexists. split; [reflexivity|]. econstructor; [exact Hin|]. right. by eexists.
Qed.

Lemma write_arg_late a s : a ∈ args -> (forall c, a = CharArg c -> exists b, check_char_specs s = Ok b) ->
  (exists t, write_arg a s = Ok t) \/ (exists w, write_arg a s = Throw (runtime_error w) /\ late_error args fmt w).
Proof.
  intros Hin Hc. assert (Ha : arg_ok a) by (rewrite Forall_forall in Hargs; by apply Hargs).
  destruct (write_arg_cases a s Ha) as [?|[(p & -> & ->)|(c & w & -> & Hw & _)]]; [by left|right|].
  - eexists. split; [reflexivity|]. by econstructor.
  - destruct (Hc c eq_refl) as [b Hb]. by rewrite Hb in Hw.
Qed.

(** Specifications end at a closing brace. *)
Lemma specs_brace ct t l s st : parse_format_specs ct t (125 :: l) s st = (Ok (s, 125 :: l), st).
Proof. unfold parse_format_specs. destruct l as [|d l]; [reflexivity|]. cbv zeta. by destruct (bool_decide _). Qed.

Definition parsed (t : Z) (a : list Z) (b : format_specs * list Z) : Prop :=
  a = b.2 /\ rest a /\ refs_ok b.1 /\ (t = char_type -> exists v, check_char_specs b.1 = Ok v).
Lemma sim_native t l : rest l -> sim (parsed t) (native_parse types t l) (parse_format_specs None t l format_specs_new).
Proof.
  intros Hl. assert (Hn : parsed t l (format_specs_new, l)) by (split_and!; [done|done|done|by exists true]). unfold native_parse.
  destruct l as [|c l]; [by apply sim_ret|]. destruct (Z.eqb_spec c 125) as [->|].
  { intros sc sr Hs. rewrite specs_brace. done. }
  eapply sim_bind_left; [by apply sim_specs|].
  intros [s q] ? (<- & Hok & Hq). destruct (Z.eqb_spec t char_type) as [->|Ht].
  - intros sc sr Hs. unfold bind, of_outcome. destruct (check_char_specs s) as [v|e|] eqn:E; [|done|done]. split; [|done]. split_and!; try done. intros _. by exists v.
  - apply sim_ret. by split_and!.
Qed.

Lemma sim_on_specs id l : valid id -> rest l ->
  sim (fun a b => a = b /\ rest a) (check_format_specs types id l) (format_with_specs args id l).
Proof.
  intros [Hr [a Ha]] Hl. unfold check_format_specs, format_with_specs, get_arg. rewrite Ha, list_lookup_fmap, Ha.
  rewrite (proj2 (Z.leb_le 0 id)), (proj2 (Z.ltb_lt id _)) by lia. cbn [andb fmap option_fmap option_map]. 
  assert (Hin : a ∈ args) by (by eapply list_elem_of_lookup_2).
  eapply (sim_bind_right _ _ _ (parse_format_specs None (arg_type a) l format_specs_new)); [by apply sim_native|]. intros q [s q'] (-> & Hq & [Hw Hp] & Hc). simpl in *.
  apply sim_right; [by apply late_dynamic|]. intros w. apply sim_right; [by apply late_dynamic|]. intros p.
  apply sim_right; [|intros t; apply sim_right; [apply late_text|intros _; by apply sim_ret]].
  apply late_outcome, write_arg_late; [done|]. intros c ->. by apply Hc.
Qed.

Lemma late_default id : valid id -> late_only (format_field args id).
Proof.
  intros [_ [a Ha]] s. unfold format_field, get_arg, bind. rewrite Ha. cbn. assert (Hin : a ∈ args) by (by eapply list_elem_of_lookup_2).
  assert (Hok : arg_ok a) by (rewrite Forall_forall in Hargs; by apply Hargs).
  destruct a as [signed bits v|b|c|p [t|]|t]; [by rewrite (write_default_int _ _ _ Hok)|done..| |done].
  eexists. split; [reflexivity|]. by econstructor.
Qed.

Lemma sim_field id l : valid id -> sim (fun _ _ => True) (check_field types id (125 :: l)) (format_field args id).
Proof.
  intros Hv. pose proof (late_default id Hv) as Hd. destruct Hv as [Hr [a Ha]]. unfold check_field, check_format_specs.
  rewrite (proj2 (Z.leb_le 0 id)), (proj2 (Z.ltb_lt id _)) by lia. cbn [andb]. rewrite list_lookup_fmap, Ha. cbn.
  intros sc sr Hs. specialize (Hd sr). destruct (format_field args id sr) as [[]]; [|done|done]. split; [done|]. congruence.
Qed.

Lemma sim_replacement l : rest l ->
  sim (fun a b => a = b /\ rest a) (parse_replacement_field (format_string_checker types) l) (parse_replacement_field (format_handler args) l).
Proof.
  intros Hl. destruct l as [|c l']; [apply sim_error|]. assert (Hl' : rest l') by (etrans; [|exact Hl]; by apply suffix_cons_r).
  assert (Hs : forall id l2, valid id -> rest l2 -> sim (fun a b => a = b /\ rest a)
    (let! l := check_format_specs types id l2 in
     match l with e :: q => if e =? 125 then ret q else report_error "unknown format specifier" | [] => report_error "unknown format specifier" end)
    (let! l := format_with_specs args id l2 in
     match l with e :: q => if e =? 125 then ret q else report_error "unknown format specifier" | [] => report_error "unknown format specifier" end)).
  { intros id l2 Hv H2. eapply sim_bind; [by apply sim_on_specs|]. intros [|e q] ? [<- Hq]; [apply sim_error|]. destruct (e =? 125); [|apply sim_error].
    apply sim_ret. split; [done|]. etrans; [|exact Hq]. by apply suffix_cons_r. }
  assert (Hid : sim (fun a b => a = b /\ valid a) (compile_next_arg_id types) (next_arg_id None)).
  { unfold compile_next_arg_id. eapply sim_bind_left; [apply sim_next|]. intros i ? [<- Hv].
    destruct (_ <=? _); [apply sim_error|by apply sim_ret]. }
  unfold parse_replacement_field, format_string_checker, format_handler. cbn [on_text on_arg_id on_arg_index on_arg_name on_replacement_field on_format_specs]. cbv zeta.
  destruct (Z.eqb_spec c 125) as [->|].
  { eapply sim_bind; [apply Hid|]. intros id ? [<- Hv]. eapply sim_bind; [by apply sim_field|]. intros _ _ _. by apply sim_ret. }
  destruct (c =? 123); [eapply (sim_bind (fun _ _ => True)); [by intros ? ? ?|]; intros _ _ _; by apply sim_ret|].
  destruct (c =? 58); [eapply sim_bind; [apply Hid|]; intros id ? [<- Hv]; by apply Hs|].
  eapply sim_bind.
  { apply (sim_arg_id valid); [|intros x _; apply sim_error]. intros i Hi. unfold compile_check_arg_id, format_index. eapply sim_bind; [by apply sim_check|]. intros ? ? Hv.
    destruct (_ <=? _); [apply sim_error|by apply sim_ret]. }
  intros [id q] ? (<- & Hv & Hq). simpl in *. assert (Hq' : rest q) by (by etrans). destruct q as [|e q]; [apply sim_error|].
  assert (rest q) by (etrans; [|exact Hq']; by apply suffix_cons_r).
  destruct (Z.eqb_spec e 125) as [->|]; [eapply sim_bind; [by apply sim_field|]; intros _ _ _; by apply sim_ret|].
  destruct (e =? 58); [by apply Hs|apply sim_error].
Qed.

Lemma sim_format_string fuel text l : rest l ->
  sim (fun _ _ => True) (parse_format_string (format_string_checker types) fuel text l) (parse_format_string (format_handler args) fuel text l).
Proof.
  assert (Ht : forall t, sim (fun _ _ => True) (on_text (format_string_checker types) t) (on_text (format_handler args) t)) by (by intros t ? ? ?).
  revert text l. induction fuel as [|fuel IH]; intros text [|c l'] Hl; [apply Ht|by intros ? ? ?|apply Ht|]. cbn [parse_format_string].
  assert (Hl' : rest l') by (etrans; [|exact Hl]; by apply suffix_cons_r).
  destruct (c =? 123).
  - eapply sim_bind; [apply Ht|]. intros _ _ _. eapply sim_bind; [by apply sim_replacement|]. intros q ? [<- Hq]. by apply IH.
  - destruct (c =? 125); [|by apply IH]. destruct l' as [|d q]; [apply sim_error|]. destruct (d =? 125); [|apply sim_error].
    eapply sim_bind; [apply Ht|]. intros _ _ _. apply IH. etrans; [|exact Hl']. by apply suffix_cons_r.
Qed.
End simulation.

(** ** Properties *)

(** C18: a format string that compiles is safe to format with: when the checker
    accepts it for the types of the arguments, formatting gives a text, or
    throws for one of four reasons that types do not show: a null C string; a
    dynamic width that is negative or too large; a boolean or character as
    dynamic width; and a width that names an argument. *)
Theorem fmt_checker_sound {T : Locale} (args : list fmt_arg) (fmt : list Z) :
  Forall arg_ok args -> fstring (map arg_type args) fmt = Ok tt ->
  (exists text, format args fmt = Ok text) \/ (exists w, format args fmt = Throw (runtime_error w) /\ late_error args fmt w).
Proof.
  intros Ha Hc. unfold format.
  assert (Hrun : match vformat_to args fmt (mkfmt_state 0 []) with
    | (Ok _, _) => True | (Throw e, _) => exists w, e = runtime_error w /\ late_error args fmt w | (Undef, _) => False end).
  { unfold vformat_to, fstring in *. case_bool_decide as E.
    - destruct args as [|a args']; [by rewrite E in Hc|]. assert (Hv : valid (a :: args') 0) by (split; [unfold zlen; simpl; lia|by exists a]).
      pose proof (late_default (a :: args') fmt Ha 0 Hv (mkfmt_state 0 [])) as H. by destruct (format_field _ _ _) as [[]].
    - pose proof (sim_format_string args fmt Ha (length fmt) [] fmt (reflexivity _) (mkfmt_state 0 []) (mkfmt_state 0 []) eq_refl) as H.
      destruct (parse_format_string (format_string_checker _) _ _ _ _) as [[]]; [|done|done]. by destruct (parse_format_string _ _ _ _ _) as [[]]. }
  destruct (vformat_to _ _ _) as [[u|e|] s]; [left; by eexists|right|done]. destruct Hrun as (w & -> & Hw). by exists w.
Qed.

(** ** The checker itself *)

Section checker_safe.
Context (types : list Z).

Lemma yields_check_char s : yields (fun _ => True) (of_outcome (check_char_specs s) : M fmt_state bool).
Proof. apply yields_outcome. unfold check_char_specs. destruct (_ && _); [left; by eexists|]. destruct (_ || _); [right; by eexists|left; by eexists]. Qed.

Lemma yields_native t l : yields (fun r => (length r <= length l)%nat) (native_parse types t l).
Proof.
  unfold native_parse. destruct l as [|c l]; [by apply yields_ret|]. destruct (c =? 125); [by apply yields_ret|].
  eapply yields_bind; [apply yields_specs|]. intros [s q] Hq. destruct (_ =? _); [|by apply yields_ret].
  eapply yields_bind; [apply yields_check_char|]. intros _ _. by apply yields_ret.
Qed.

Lemma skip_specs_shorter n l : (length (skip_specs n l) <= length l)%nat.
Proof. revert n. induction l as [|c l IH]; intros n; simpl; [done|]. destruct (_ || _); [|done]. etrans; [apply IH|lia]. Qed.

Lemma yields_check_specs id l : yields (fun r => (length r <= length l)%nat) (check_format_specs types id l).
Proof.
  unfold check_format_specs. destruct (_ && _) eqn:E; [|apply yields_ret, skip_specs_shorter]. bool_to_prop.
  destruct (lookup_lt_is_Some_2 types (Z.to_nat id)) as [t ->]; [unfold zlen in *; lia|]. apply yields_native.
Qed.

Lemma checker_safe : handler_safe (format_string_checker types).
Proof.
  split; cbn; [intros; by apply yields_ret| |intros i|intros; apply yields_error|intros i l|apply yields_check_specs].
  - eapply yields_bind; [apply yields_next|]. intros id _. destruct (_ <=? _); auto with fmtdb.
  - eapply yields_bind; [apply yields_check|]. intros _ _. destruct (_ <=? _); auto with fmtdb.
  - unfold check_field. destruct (_ && _); [|by apply yields_ret]. eapply yields_bind; [apply yields_check_specs|]. intros _ _. by apply yields_ret.
Qed.

Lemma fstring_total fmt : fstring types fmt = Ok tt \/ exists w, fstring types fmt = Throw (runtime_error w).
Proof.
  pose proof (yields_format_string _ checker_safe (length fmt) [] fmt ltac:(lia) (mkfmt_state 0 [])) as H. unfold fstring.
  destruct (parse_format_string _ _ _ _ _) as [[[]|e|] s]; [by left|right|done]. destruct H as [w ->]. by exists w.
Qed.
End checker_safe.

(** ** Examples *)

#[local] Instance no_locale : Locale := { write_loc _ _ _ _ := None }.

Lemma fmt_checker_sound_witness :
  fstring [int_type; string_type] (chars "{:>{}}") = Throw (runtime_error "width/precision is not integer") /\
  ((exists text, format [StrArg (chars "ab"); IntArg true 32 4] (chars "{:>{}}") = Ok text) \/
   (exists w, format [StrArg (chars "ab"); IntArg true 32 4] (chars "{:>{}}") = Throw (runtime_error w) /\
      late_error [StrArg (chars "ab"); IntArg true 32 4] (chars "{:>{}}") w)).
Proof.
  split; [vm_compute; reflexivity|]. apply fmt_checker_sound; [|vm_compute; reflexivity].
  repeat constructor; unfold byte_ok; simpl; lia.
Defined.

(** A boolean width and a named width compile and throw. *)
Example late_errors_happen :
  fstring [string_type; bool_type] (chars "{:{}}") = Ok tt /\
  format [StrArg (chars "ab"); BoolArg true] (chars "{:{}}") = Throw (runtime_error "width/precision is not integer") /\
  fstring [string_type] (chars "{:{w}}") = Ok tt /\
  format [StrArg (chars "ab")] (chars "{:{w}}") = Throw (runtime_error "argument not found").
Proof. repeat split; vm_compute; reflexivity. Qed.

(** Strings that do not compile. *)
Example checker_rejects :
  fstring [string_type] (chars "{:d}") = Throw (runtime_error "invalid format specifier") /\
  fstring [int_type] (chars "{} {}") = Throw (runtime_error "argument not found") /\
  fstring [int_type] (chars "{x}") = Throw (runtime_error "argument not found") /\
  fstring [char_type] (chars "{:+}") = Throw (runtime_error "invalid format specifier") /\
  fstring [char_type] (chars "{:#c}") = Throw (runtime_error "invalid format specifier for char").
Proof. repeat split; vm_compute; reflexivity. Qed.
