(* ===== verification/TimeUtils.v ===== *)
(** * TimeUtils (src/common/utils/TimeUtils.hpp)

    Timestamps of the database as points of the system clock, and back.
    [std::get_time], [std::strftime] and the conversions of the clock are
    modelled; the calendar of the host, [std::mktime] and [std::localtime], is
    an argument.  A time point is its count of nanoseconds, a signed number of
    64 bits. *)

From S2P Require Import Prelude Machine FmtInt FmtHelper.

(** The members of [std::tm] that are used; [std::tm t = {}] sets all to zero. *)
Record tm := mktm {
  tm_sec : Z; tm_min : Z; tm_hour : Z; tm_mday : Z; tm_mon : Z; tm_year : Z; tm_isdst : Z }.
Definition tm_zero : tm := mktm 0 0 0 0 0 0 0.

(** ** std::get_time *)

Definition is_digit (c : Z) : bool := (48 <=? c) && (c <=? 57).
Definition is_space (c : Z) : bool := (c =? 32) || ((9 <=? c) && (c <=? 13)).

Fixpoint skip_spaces (l : list Z) : list Z :=
  match l with c :: l' => if is_space c then skip_spaces l' else l | [] => [] end.

(** At most [len] digits, as long as the number does not exceed [max]: the number of
    digits read, the number and the rest. *)
Fixpoint read_digits (len : nat) (max value : Z) (l : list Z) : Z * Z * list Z :=
  match len, l with
  | S len, c :: l' =>
      if is_digit c then
        let v := value * 10 + (c - 48) in
        if v <=? max then let '(n, v, rest) := read_digits len max v l' in (n + 1, v, rest) else (1, v, l)
      else (0, value, l)
  | _, _ => (0, value, l)
  end.

(** A number in its range, or the failure of the conversion. *)
Definition read_num (min max : Z) (len : nat) (l : list Z) : option Z * list Z :=
  let '(n, v, rest) := read_digits len max 0 l in
  (if (0 <? n) && (min <=? v) && (v <=? max) then Some v else None, rest).

(** The conversions of the format. *)
Inductive conv := cY | cm | cd | cH | cM | cS | Space | Char (c : Z).
Definition pg_format : list conv := [cY; Char 45; cm; Char 45; cd; Space; cH; Char 58; cM; Char 58; cS].

Definition set_field (c : conv) (v : Z) (t : tm) : tm :=
  let '(mktm sec min hour mday mon year isdst) := t in
  match c with
  | cY => mktm sec min hour mday mon (v - 1900) isdst
  | cm => mktm sec min hour mday (v - 1) year isdst
  | cd => mktm sec min hour v mon year isdst
  | cH => mktm sec min v mday mon year isdst
  | cM => mktm sec v hour mday mon year isdst
  | cS => mktm v min hour mday mon year isdst
  | Space | Char _ => t
  end.

Definition field_range (c : conv) : option (Z * Z * nat) :=
  match c with
  | cY => Some (0, 9999, 4%nat)
  | cm => Some (1, 12, 2%nat)
  | cd => Some (1, 31, 2%nat)
  | cH => Some (0, 23, 2%nat)
  | cM => Some (0, 59, 2%nat)
  | cS => Some (0, 60, 2%nat)
  | Space | Char _ => None
  end.

(** [time_get::get]: whether the stream fails, and the broken-down time.  The
    end of the text inside a number sets [eofbit], which ends the loop
    without a failure, whatever of the format is left. *)
Fixpoint get (fmt : list conv) (l : list Z) (t : tm) : bool * tm :=
  match fmt with
  | [] => (false, t)
  | c :: fmt =>
      match l with
      | [] => (true, t)
      | x :: l' =>
          match c with
          | Space => get fmt (skip_spaces l) t
          | Char y => if x =? y then get fmt l' t else (true, t)
          | _ =>
              match field_range c with
              | Some (min, max, len) =>
                  match read_num min max len l with
                  | (Some v, []) => (false, set_field c v t)
                  | (Some v, rest) => get fmt rest (set_field c v t)
                  | (None, _) => (true, t)
                  end
              | None => (true, t)
              end
          end
      end
  end.

(** [ss >> std::get_time(&t, "%Y-%m-%d %H:%M:%S")]: the sentry skips spaces and
    fails on an empty rest. *)
Definition get_time (text : list Z) (t : tm) : bool * tm :=
  match skip_spaces text with [] => (true, t) | l => get pg_format l t end.

(** The characters of an exception. *)
Definition text_string (l : list Z) : string :=
  String.string_of_list_ascii (map (fun c => Ascii.ascii_of_N (Z.to_N c)) l).

(** ** The clock *)

Definition from_time_t (secs : Z) : outcome Z :=
  let ns := secs * seconds in
  if (- 2 ^ 63 <=? ns) && (ns <? 2 ^ 63) then Ok ns else Undef.
Definition to_time_t (tp : Z) : Z := duration_cast seconds tp.

(** ** std::strftime *)

(** The text for "%Y-%m-%d %H:%M:%S". *)
Definition strftime_text (t : tm) : list Z :=
  decimal (tm_year t + 1900) ++ [45] ++ two (tm_mon t + 1) ++ [45] ++ two (tm_mday t) ++ [32] ++
  two (tm_hour t) ++ [58] ++ two (tm_min t) ++ [58] ++ two (tm_sec t).
(** Nothing when the text and its end do not fit. *)
Definition strftime (max : Z) (t : tm) : option (list Z) :=
  if zlen (strftime_text t) + 1 <=? max then Some (strftime_text t) else None.

Section calendar.
(** [std::mktime], [std::localtime]. *)
Context (mktime : tm -> Z) (localtime : Z -> tm).

Definition parse_pg_timestamp (timestamp : list Z) : outcome Z :=
  let '(fail, t) := get_time timestamp tm_zero in
  if fail then Throw (runtime_error ("Failed to parse timestamp: " ++ text_string timestamp))
  else from_time_t (mktime t).

(** [catch (...)]. *)
Definition parse_pg_timestamp_optional (timestamp : list Z) : outcome (option Z) :=
  match timestamp with
  | [] => Ok None
  | _ =>
      match parse_pg_timestamp timestamp with
      | Ok tp => Ok (Some tp)
      | Throw _ => Ok None
      | Undef => Undef
      end
  end.

Definition parse_time_point_to_string (timePoint : Z) : list Z :=
  let time := to_time_t timePoint in
  match strftime 100 (localtime time) with Some s => s | None => [] end.
End calendar.

(** ** Reading a timestamp *)

(** Four digits. *)
Definition four (n : Z) : list Z := two (n / 100) ++ two (n mod 100).

(** The text PostgreSQL prints, up to the seconds. *)
Definition pg_text (t : tm) : list Z :=
  four (tm_year t + 1900) ++ [45] ++ two (tm_mon t + 1) ++ [45] ++ two (tm_mday t) ++ [32] ++
  two (tm_hour t) ++ [58] ++ two (tm_min t) ++ [58] ++ two (tm_sec t).

Record tm_ok (t : tm) : Prop := {
  ok_sec : 0 <= tm_sec t <= 60;
  ok_min : 0 <= tm_min t <= 59;
  ok_hour : 0 <= tm_hour t <= 23;
  ok_mday : 1 <= tm_mday t <= 31;
  ok_mon : 0 <= tm_mon t <= 11;
  ok_year : 0 <= tm_year t + 1900 <= 9999 }.

Lemma read_digit len max value d r :
  0 <= d <= 9 -> value * 10 + d <= max ->
  read_digits (S len) max value (48 + d :: r) = let '(n, v, rest) := read_digits len max (value * 10 + d) r in (n + 1, v, rest).
Proof.
  intros Hd Hm. cbn [read_digits]. unfold is_digit. rewrite !(proj2 (Z.leb_le _ _)) by lia. cbn [andb].
  by replace (48 + d - 48) with d by lia.
Qed.

Lemma read_two min max v r : 0 <= min <= v -> v <= max -> max < 100 -> read_num min max 2 (two v ++ r) = (Some v, r).
Proof.
  intros Hv Hm H100. unfold read_num, two. cbn [app]. assert (0 <= v / 10 <= 9 /\ 0 <= v mod 10 <= 9) as [] by (Z.div_mod_to_equations; lia).
  assert (E : (0 * 10 + v / 10) * 10 + v mod 10 = v) by (Z.div_mod_to_equations; lia).
  rewrite !read_digit by (Z.div_mod_to_equations; lia). cbn [read_digits]. rewrite E.
  by rewrite (proj2 (Z.ltb_lt _ _)), !(proj2 (Z.leb_le _ _)) by lia.
Qed.

Lemma read_four v r : 0 <= v <= 9999 -> read_num 0 9999 4 (four v ++ r) = (Some v, r).
Proof.
  intros Hv. unfold read_num, four, two. cbn [app].
  set (a := v / 100 / 10). set (b := v / 100 mod 10). set (c := v mod 100 / 10). set (d := v mod 100 mod 10).
  assert (0 <= a <= 9 /\ 0 <= b <= 9 /\ 0 <= c <= 9 /\ 0 <= d <= 9 /\ v = 1000 * a + 100 * b + 10 * c + d) as (? & ? & ? & ? & E)
    by (unfold a, b, c, d; Z.div_mod_to_equations; lia).
  rewrite !read_digit by lia. cbn [read_digits]. replace (((_ * 10 + _) * 10 + _) * 10 + _) with v by lia.
  by rewrite (proj2 (Z.ltb_lt _ _)), !(proj2 (Z.leb_le _ _)) by lia.
Qed.

Lemma two_not_space v r : 0 <= v < 100 -> skip_spaces (two v ++ r) = two v ++ r.
Proof.
  intros Hv. unfold two. cbn [app skip_spaces]. assert (0 <= v / 10 <= 9) by (Z.div_mod_to_equations; lia).
  unfold is_space. by rewrite (proj2 (Z.eqb_neq _ _)), (proj2 (Z.leb_gt (48 + v / 10) 13)), andb_false_r by lia.
Qed.

(** A conversion that succeeds; the rest is empty at the end of the format only. *)
Lemma get_step c fmt min max len text v r t :
  field_range c = Some (min, max, len) -> text <> [] -> read_num min max len (text ++ r) = (Some v, r) -> fmt = [] \/ r <> [] ->
  get (c :: fmt) (text ++ r) t = get fmt r (set_field c v t).
Proof.
  intros Hc Ht Hr He. destruct (text ++ r) as [|x l] eqn:E; [by destruct text|]. cbn [get].
  destruct c; try discriminate; rewrite Hc, Hr; destruct r; try done; by destruct He as [->|].
Qed.

Lemma get_two c fmt min max v r t :
  field_range c = Some (min, max, 2%nat) -> 0 <= min <= v -> v <= max -> max < 100 -> fmt = [] \/ r <> [] ->
  get (c :: fmt) (two v ++ r) t = get fmt r (set_field c v t).
Proof. intros. eapply get_step; [done|done|by apply read_two|done]. Qed.

Lemma get_char y fmt r t : get (Char y :: fmt) ([y] ++ r) t = get fmt r t.
Proof. simpl. by rewrite Z.eqb_refl. Qed.

Lemma get_space fmt r t : get (Space :: fmt) ([32] ++ r) t = get fmt (skip_spaces r) t.
Proof. done. Qed.

Lemma get_pg_text t suffix :
  tm_ok t -> get_time (pg_text t ++ suffix) tm_zero = (false, mktm (tm_sec t) (tm_min t) (tm_hour t) (tm_mday t) (tm_mon t) (tm_year t) 0).
Proof.
  intros [Hs Hmi Hh Hd Hmo Hy]. unfold get_time, pg_text, four. set (y := tm_year t + 1900) in *.
  rewrite <- !app_assoc, two_not_space by (Z.div_mod_to_equations; lia). rewrite (app_assoc (two _) (two _)). fold (four y).
  assert (E : forall r, match four y ++ r with [] => (true, tm_zero) | z :: l => get pg_format (z :: l) tm_zero end = get pg_format (four y ++ r) tm_zero) by done.
  rewrite E. unfold pg_format. erewrite get_step; [|reflexivity|done|by apply read_four|by right].
  rewrite get_char. erewrite get_two; [|reflexivity|lia..|by right].
  rewrite get_char. erewrite get_two; [|reflexivity|lia..|by right].
  rewrite get_space, two_not_space by lia. erewrite get_two; [|reflexivity|lia..|by right].
  rewrite get_char. erewrite get_two; [|reflexivity|lia..|by right].
  rewrite get_char. erewrite get_two; [|reflexivity|lia..|by left].
  cbn [get set_field tm_zero]. unfold y. do 2 f_equal; lia.
Qed.

Lemma decimal_four y : 1000 <= y <= 9999 -> decimal y = four y.
Proof.
  intros Hy. unfold decimal. rewrite (proj2 (Z.ltb_ge _ _)) by lia. rewrite digits_100 by lia.
  assert (10 <= y / 100 < 100) by (Z.div_mod_to_equations; lia). rewrite digits_10 by lia.
  rewrite digits_small by (Z.div_mod_to_equations; lia). reflexivity.
Qed.

Lemma strftime_pg_text t : tm_ok t -> 1000 <= tm_year t + 1900 -> strftime 100 t = Some (pg_text t).
Proof.
  intros Ht Hy. pose proof (ok_year t Ht). unfold strftime, strftime_text. rewrite decimal_four by lia. fold (pg_text t). reflexivity.
Qed.

Lemma from_to_time_t tp :
  - 2 ^ 63 <= tp < 2 ^ 63 -> from_time_t (to_time_t tp) = Ok (to_time_t tp * seconds) /\ Z.abs (tp - to_time_t tp * seconds) < seconds.
Proof.
  intros Ht. unfold from_time_t, to_time_t, duration_cast, seconds.
  assert (E : tp = 1000000000 * Z.quot tp 1000000000 + Z.rem tp 1000000000) by apply Z.quot_rem'.
  assert (- 2 ^ 63 <= Z.quot tp 1000000000 * 1000000000 < 2 ^ 63 /\ Z.abs (Z.rem tp 1000000000) < 1000000000) as [Hb Hr].
  { pose proof (Z.rem_bound_abs tp 1000000000 ltac:(lia)). destruct (Z.le_gt_cases 0 tp).
    - pose proof (Z.rem_nonneg tp 1000000000 ltac:(lia) ltac:(lia)). pose proof (Z.quot_pos tp 1000000000 ltac:(lia) ltac:(lia)). lia.
    - pose proof (Z.rem_nonpos tp 1000000000 ltac:(lia) ltac:(lia)). pose proof (Z.quot_opp_l tp 1000000000 ltac:(lia)).
      pose proof (Z.quot_pos (- tp) 1000000000 ltac:(lia) ltac:(lia)). lia. }
  rewrite (proj2 (Z.leb_le _ _)), (proj2 (Z.ltb_lt _ _)) by lia. split; [done|lia].
Qed.

(** The flag for daylight saving time is not part of the text. *)
Definition without_dst (t : tm) : tm := mktm (tm_sec t) (tm_min t) (tm_hour t) (tm_mday t) (tm_mon t) (tm_year t) 0.

(** C39: a time printed and parsed again is the same second: for every time point
    whose local time is in the years 1000 to 9999, the printed text, also with a
    fraction or anything else behind it, is parsed without an exception to
    the time that the calendar gives for the same fields in standard time, which,
    when daylight saving time is not in effect, is the time point cut to the second. *)
Theorem timestamp_roundtrip (mktime : tm -> Z) (localtime : Z -> tm) (tp : Z) (suffix : list Z) :
  let t := localtime (to_time_t tp) in
  - 2 ^ 63 <= tp < 2 ^ 63 -> tm_ok t -> 1000 <= tm_year t + 1900 ->
  let parsed := parse_pg_timestamp mktime (parse_time_point_to_string localtime tp ++ suffix) in
  parsed = from_time_t (mktime (without_dst t)) /\
  (tm_isdst t = 0 -> mktime t = to_time_t tp -> parsed = Ok (to_time_t tp * seconds) /\ Z.abs (tp - to_time_t tp * seconds) < seconds).
Proof.
  intros t Htp Ht Hy parsed. assert (E : parsed = from_time_t (mktime (without_dst t))).
  { unfold parsed, parse_time_point_to_string, parse_pg_timestamp. fold t. rewrite strftime_pg_text, get_pg_text by done. done. }
  split; [done|]. intros Hd Hm. rewrite E. assert (without_dst t = t) as -> by (unfold without_dst; rewrite <- Hd; by destruct t).
  rewrite Hm. by apply from_to_time_t.
Qed.

(** ** A calendar *)

(** Days since 1970 of a date, and back, with the year beginning in March. *)
Definition days_from_civil (y m d : Z) : Z :=
  let y := if m <=? 2 then y - 1 else y in
  let era := y / 400 in
  let yoe := y mod 400 in
  let doy := (153 * ((m + 9) mod 12) + 2) / 5 + d - 1 in
  era * 146097 + (yoe * 365 + yoe / 4 - yoe / 100 + doy) - 719468.
Definition civil_from_days (z : Z) : Z * Z * Z :=
  let z := z + 719468 in
  let era := z / 146097 in
  let doe := z mod 146097 in
  let yoe := (doe - doe / 1460 + doe / 36524 - doe / 146096) / 365 in
  let doy := doe - (365 * yoe + yoe / 4 - yoe / 100) in
  let mp := (5 * doy + 2) / 153 in
  let d := doy - (153 * mp + 2) / 5 + 1 in
  let m := if mp <? 10 then mp + 3 else mp - 9 in
  (yoe + era * 400 + (if m <=? 2 then 1 else 0), m, d).

(** Clocks an hour ahead of UTC in standard time, with daylight saving time from April to September. *)
Definition demo_mktime (t : tm) : Z :=
  days_from_civil (tm_year t + 1900) (tm_mon t + 1) (tm_mday t) * 86400 + tm_hour t * 3600 + tm_min t * 60 + tm_sec t
    - 3600 - (if 0 <? tm_isdst t then 3600 else 0).
Definition demo_localtime (secs : Z) : tm :=
  let '(_, m, _) := civil_from_days ((secs + 3600) / 86400) in
  let dst := if (4 <=? m) && (m <=? 9) then 1 else 0 in
  let s := secs + 3600 + dst * 3600 in
  let '(y, m, d) := civil_from_days (s / 86400) in
  mktm (s mod 60) (s / 60 mod 60) (s / 3600 mod 24) d (m - 1) (y - 1900) dst.

(** 2024-01-17 13:14:15.5 in this zone. *)
Definition winter : Z := 1705493655 * seconds + 500000000.
(** 2024-06-17 13:14:15. *)
Definition summer : Z := 1718622855 * seconds.

Lemma timestamp_roundtrip_witness :
  parse_time_point_to_string demo_localtime winter = chars "2024-01-17 13:14:15" /\
  parse_pg_timestamp demo_mktime (parse_time_point_to_string demo_localtime winter ++ chars ".5") = Ok (winter - 500000000).
Proof.
  split; [vm_compute; reflexivity|].
  refine (proj1 (proj2 (timestamp_roundtrip demo_mktime demo_localtime winter (chars ".5") _ _ _) _ _)).
  - unfold winter, seconds; lia.
  - split; vm_compute; split; discriminate.
  - vm_compute. discriminate.
  - reflexivity.
  - reflexivity.
Defined.

(** While daylight saving time is in effect the hour is lost: the printed time is read
    as standard time. *)
Example summer_time_shifted :
  parse_time_point_to_string demo_localtime summer = chars "2024-06-17 13:14:15" /\
  parse_pg_timestamp demo_mktime (parse_time_point_to_string demo_localtime summer) = Ok (summer + 3600 * seconds).
Proof. vm_compute. split; reflexivity. Qed.

(** A text that ends inside the format is accepted: "2024-05" is the day before the first of
    May. *)
Example truncated_timestamp_accepted :
  parse_pg_timestamp demo_mktime (chars "2024-05") = parse_pg_timestamp demo_mktime (chars "2024-04-30 00:00:00") /\
  parse_pg_timestamp demo_mktime (chars "2024-") <> parse_pg_timestamp demo_mktime (chars "2024").
Proof. vm_compute. split; [reflexivity|discriminate]. Qed.

(** A timestamp after the year 2262 overflows the clock, which no [catch] stops. *)
Example far_timestamp_undefined : parse_pg_timestamp_optional demo_mktime (chars "9999-12-31 23:59:59") = Undef.
Proof. vm_compute. reflexivity. Qed.
