(* ===== verification/GeneratorUtils.v ===== *)
(** * GeneratorUtils (src/common/utils/generators/GeneratorUtils.cpp)

    Random values drawn from one engine, which is the state of the functions.
    The distributions of the standard library are an interface: what they draw
    depends on the engine, of which only the interval is promised. *)

From S2P Require Import Prelude Machine.

(** [std::uniform_int_distribution], [std::uniform_real_distribution] and
    [std::bernoulli_distribution] on an engine [G]; [R] stands for the floating point type. *)
Class Distributions (G R : Type) := {
  uniform_int : Z -> Z -> G -> Z * G;
  uniform_real : R -> R -> G -> R * G;
  bernoulli_half : G -> bool * G }.
Class DistributionLaws {G R} (D : Distributions G R) := {
  uniform_int_range lo hi g : lo <= hi -> lo <= (uniform_int lo hi g).1 <= hi }.

Definition UINT_MAX (bits : Z) : Z := 2 ^ bits - 1.
Definition INT_MIN (bits : Z) : Z := - 2 ^ (bits - 1).
Definition INT_MAX (bits : Z) : Z := 2 ^ (bits - 1) - 1.

Section generator.
Context `{D : Distributions G R}.

Definition dist (lo hi : Z) : M G Z := fun g => let '(v, g) := uniform_int lo hi g in (Ok v, g).

Definition random_uint8 : M G Z := let! v := dist 0 (UINT_MAX 8) in ret (u8 v).
Definition random_uint16 : M G Z := dist 0 (UINT_MAX 16).
(** [uniform_int_distribution<uint32_t> dist;] goes from zero to the largest number. *)
Definition random_uint32 : M G Z := dist 0 (UINT_MAX 32).
Definition random_uint64 : M G Z := dist 0 (UINT_MAX 64).
Definition random_int8 : M G Z := let! v := dist (INT_MIN 8) (INT_MAX 8) in ret (to_signed 8 (u8 v)).
Definition random_int16 : M G Z := dist (INT_MIN 16) (INT_MAX 16).
Definition random_int32 : M G Z := dist (INT_MIN 32) (INT_MAX 32).
Definition random_int64 : M G Z := dist (INT_MIN 64) (INT_MAX 64).
Definition random_float (min max : R) : M G R := fun g => let '(v, g) := uniform_real min max g in (Ok v, g).
Definition random_double (min max : R) : M G R := fun g => let '(v, g) := uniform_real min max g in (Ok v, g).
Definition random_bool : M G bool := fun g => let '(v, g) := bernoulli_half g in (Ok v, g).

(** A draw that gives the value of the distribution over a whole integer type. *)
Definition draws (m : M G Z) (lo hi : Z) : Prop :=
  forall g, m g = (Ok (uniform_int lo hi g).1, (uniform_int lo hi g).2) /\ lo <= (uniform_int lo hi g).1 <= hi.

Context {L : DistributionLaws D}.

Lemma dist_draws lo hi : lo <= hi -> draws (dist lo hi) lo hi.
Proof. intros H g. pose proof (uniform_int_range lo hi g H). unfold dist. by destruct (uniform_int lo hi g). Qed.

Lemma cast_draws cast lo hi : lo <= hi -> (forall v, lo <= v <= hi -> cast v = v) -> draws (let! v := dist lo hi in ret (cast v)) lo hi.
Proof.
  intros H Hc g. pose proof (uniform_int_range lo hi g H) as Hr. unfold bind, dist, ret. destruct (uniform_int lo hi g) as [v g']. simpl in *.
  by rewrite Hc.
Qed.

(** Every integer function draws once from the distribution over the whole of its
    type: the detour over 16 bits, which the 8-bit functions take because there
    is no distribution of characters, loses nothing. *)
Theorem random_draws_whole_type :
  draws random_uint8 0 255 /\ draws random_uint16 0 65535 /\ draws random_uint32 0 (2 ^ 32 - 1) /\ draws random_uint64 0 (2 ^ 64 - 1) /\
  draws random_int8 (- 128) 127 /\ draws random_int16 (- 2 ^ 15) (2 ^ 15 - 1) /\ draws random_int32 (- 2 ^ 31) (2 ^ 31 - 1) /\
  draws random_int64 (- 2 ^ 63) (2 ^ 63 - 1).
Proof.
  split_and!; try (apply dist_draws; unfold UINT_MAX, INT_MIN, INT_MAX; lia).
  - apply (cast_draws u8); [unfold UINT_MAX; lia|]. intros v Hv. unfold u8. apply wrap_small. unfold UINT_MAX in Hv. lia.
  - apply (cast_draws (fun v => to_signed 8 (u8 v))); [unfold INT_MIN, INT_MAX; lia|]. intros v Hv. unfold INT_MIN, INT_MAX in Hv.
    apply to_signed_wrap; lia.
Qed.
End generator.
