(* ===== verification/Main.v ===== *)
(** * The two programs (src/main_server.cpp, src/main_client.cpp)

    What the main functions do, as the sequence of their effects.  The steps that
    can fail are an interface: creating the thread pool, the database pool and
    the server, and starting a thread.  What then happens on the event loop is the
    subject of [ServerLoop], [ClientLoop] and [LoggerInit]. *)

From S2P Require Import Prelude Machine FmtInt.

(** ** The server *)

(** [hardware_concurrency()] may be zero. *)
Definition network_threads (hardware_concurrency : Z) : Z :=
  if 2 <? hardware_concurrency then hardware_concurrency - 1
  else if hardware_concurrency =? 0 then 1
  else hardware_concurrency.

(** [std::getenv(name) ?: value]. *)
Definition env_or (e : option (list Z)) (value : string) : list Z := match e with Some v => v | None => chars value end.

(** The environment variables that are read. *)
Record environment := mkenvironment {
  DB_URL : option (list Z);
  DB_PORT : option (list Z);
  DB_USER : option (list Z);
  DB_PASSWORD : option (list Z);
  DB_NAME : option (list Z) }.

Definition conninfo (e : environment) : list Z :=
  chars "host=" ++ env_or (DB_URL e) "127.0.0.1" ++ chars " port=" ++ env_or (DB_PORT e) "5432" ++
  chars " user=" ++ env_or (DB_USER e) "postgres" ++ chars " password=" ++ env_or (DB_PASSWORD e) "postgres" ++
  chars " dbname=" ++ env_or (DB_NAME e) "postgres".

Definition port : Z := 3724.
Definition pool_size : Z := 2.

(** What a run does, in order. *)
Inductive event :=
| InitThreadPool
| LogInfo (text : list Z)
| LogError (text : list Z)
| MakeDatabase (conninfo : list Z) (pool_size : Z)
| MakeServer (port : Z)
| StartAccept
| WaitForSignals
| StartThread (i : nat)
| JoinThreads (n : nat)
| MakeClient (host : list Z) (port : Z)
| Connect
| ReadInput
| LogonAfter (milliseconds : Z) (username password : list Z)
| RunLoop
| SpdlogShutdown.

(** How a process ends. *)
Inductive ending := returned (code : Z) | terminated.

(** The steps that may throw. *)
Class Process := {
  init_thread_pool : outcome unit;
  make_database : list Z -> Z -> outcome unit;
  make_server : Z -> outcome unit;
  start_accept : outcome unit;
  start_thread : nat -> outcome unit;
  hardware_concurrency : Z;
  getenv : environment;
  run_loop : outcome unit }.

Section programs.
Context `{Process}.

Definition emit (e : event) : M (list event) unit := modify (fun tr => tr ++ [e]).
Definition attempt (o : outcome unit) (e : event) : M (list event) unit := do! of_outcome o in emit e.

(** [threads.emplace_back]: an exception with running threads in the vector ends the
    process, for their destructors run before a handler does. *)
Fixpoint start_threads (i n : nat) : M (list event) ending :=
  match n with
  | O => ret (returned 0)
  | S n =>
      match start_thread i with
      | Ok _ => do! emit (StartThread i) in start_threads (S i) n
      | Throw e => if (i =? 0)%nat then throw e else ret terminated
      | Undef => undef
      end
  end.

Definition running_line : list Z := chars "[Server] Running on port " ++ decimal port.
Definition end_line : list Z := chars "[Server] Gracefully shut down.".
Definition exception_line (e : exn) : list Z := chars "[Server] Exception: " ++ what e.

(** The [try] block. *)
Definition server_body : M (list event) ending :=
  let n := Z.to_nat (network_threads hardware_concurrency) in
  do! attempt (make_database (conninfo getenv) pool_size) (MakeDatabase (conninfo getenv) pool_size) in
  do! attempt (make_server port) (MakeServer port) in
  do! attempt start_accept StartAccept in
  do! emit (LogInfo running_line) in
  do! emit WaitForSignals in
  let! x := start_threads 0 n in
  match x with
  | terminated => ret terminated
  | returned c => do! emit (JoinThreads n) in do! emit (LogInfo end_line) in ret (returned c)
  end.

(** [main]; an exception outside the [try] block ends the process. *)
Definition main_server : M (list event) ending :=
  try_catch
    (do! attempt init_thread_pool InitThreadPool in
     let! x := try_catch server_body (fun e => do! emit (LogError (exception_line e)) in ret (returned 0)) in
     match x with
     | terminated => ret terminated
     | returned c => do! emit SpdlogShutdown in ret (returned c)
     end)
    (fun _ => ret terminated).

(** ** The client *)

Definition main_client : M (list event) ending :=
  try_catch
    (do! attempt init_thread_pool InitThreadPool in
     do! emit (MakeClient (chars "127.0.0.1") port) in
     do! emit Connect in
     do! attempt (start_thread 0) ReadInput in
     do! emit (LogonAfter 1000 (chars "1") (chars "1")) in
     do! emit WaitForSignals in
     do! attempt run_loop RunLoop in
     do! emit (LogInfo (chars "[Main] Exiting.")) in
     do! emit SpdlogShutdown in
     ret (returned 0))
    (fun _ => ret terminated).
End programs.

Section endings.
Context `{Process}.

Definition threads : nat := Z.to_nat (network_threads hardware_concurrency).

(** The effects of the [try] block of a run without failures. *)
Definition start_events (i n : nat) : list event := map StartThread (seq i n).
Definition set_up : list event :=
  [MakeDatabase (conninfo getenv) pool_size; MakeServer port; StartAccept; LogInfo running_line; WaitForSignals].
Definition full_run : list event := set_up ++ start_events 0 threads ++ [JoinThreads threads].

(** No step has undefined behaviour. *)
Record process_ok : Prop := {
  ok_init : init_thread_pool <> Undef;
  ok_database : make_database (conninfo getenv) pool_size <> Undef;
  ok_server : make_server port <> Undef;
  ok_accept : start_accept <> Undef;
  ok_thread i : start_thread i <> Undef;
  ok_cores : 0 <= hardware_concurrency }.

Lemma threads_positive : process_ok -> (1 <= threads)%nat /\ (Z.of_nat threads <= Z.max 1 hardware_concurrency).
Proof.
  intros Hok. pose proof (ok_cores Hok). unfold threads, network_threads.
  destruct (Z.ltb_spec 2 hardware_concurrency), (Z.eqb_spec hardware_concurrency 0); lia.
Qed.

(** Starting threads [i] to [i + n]. *)
Lemma start_threads_spec i n tr :
  (forall j, start_thread j <> Undef) ->
  match start_threads i n tr with
  | (Ok (returned c), tr') => c = 0 /\ tr' = tr ++ start_events i n
  | (Ok terminated, _) => exists j e, (0 < j < i + n)%nat /\ start_thread j = Throw e
  | (Throw e, tr') => i = 0%nat /\ tr' = tr /\ start_thread 0 = Throw e
  | (Undef, _) => False
  end.
Proof.
  intros Hd. revert i tr. induction n as [|n IH]; intros i tr; cbn [start_threads].
  - split; [done|]. by rewrite app_nil_r.
  - destruct (start_thread i) as [[]|e|] eqn:E; [|destruct i as [|i]; [done|]|by destruct (Hd i)].
    + unfold bind, emit, modify. specialize (IH (S i) (tr ++ [StartThread i])).
      destruct (start_threads _ _ _) as [[[c|]|e|] tr']; [| |by destruct IH|done].
      * destruct IH as [-> ->]. split; [done|]. by rewrite <- app_assoc.
      * destruct IH as (j & e & Hj & E'). exists j, e. split; [lia|done].
    + exists (S i), e. split; [lia|done].
Qed.

(** Why a run of the [try] block stops. *)
Definition fails_with (e : exn) : Prop :=
  make_database (conninfo getenv) pool_size = Throw e \/ make_server port = Throw e \/ start_accept = Throw e \/ start_thread 0 = Throw e.

Lemma server_body_spec tr :
  process_ok ->
  match server_body tr with
  | (Ok (returned c), tr') => c = 0 /\ tr' = tr ++ full_run ++ [LogInfo end_line]
  | (Ok terminated, _) => exists j e, (0 < j < threads)%nat /\ start_thread j = Throw e
  | (Throw e, tr') => fails_with e /\ exists pre, tr' = tr ++ pre /\ pre `prefix_of` full_run
  | (Undef, _) => False
  end.
Proof.
  intros [Hi Hdb Hs Ha Ht _]. unfold server_body, attempt, of_outcome, emit, modify. cbv zeta. fold threads.
  unfold bind at 1 2. destruct (make_database _ _) as [[]|e|] eqn:Edb; [|split; [by left|]; exists []; split; [by rewrite app_nil_r|by apply prefix_nil]|done].
  unfold bind at 1 2. destruct (make_server _) as [[]|e|] eqn:Es; [|split; [by right; left|]; exists (take 1 set_up); split; [done|by eexists]|done].
  unfold bind at 1 2. destruct start_accept as [[]|e|] eqn:Ea;
    [|split; [by right; right; left|]; exists (take 2 set_up); split; [by rewrite <- app_assoc|by eexists]|done].
  unfold bind. pose proof (start_threads_spec 0 threads (((((tr ++ [MakeDatabase (conninfo getenv) pool_size]) ++ [MakeServer port]) ++ [StartAccept]) ++
    [LogInfo running_line]) ++ [WaitForSignals]) Ht) as Hst.
  destruct (start_threads _ _ _) as [[[c|]|e|] tr']; [| |split; [by right; right; right; apply Hst|]; exists set_up; split|done].
  - destruct Hst as [-> ->]. unfold ret. split; [done|]. unfold full_run, set_up. by rewrite <- !app_assoc.
  - destruct Hst as (j & e & Hj & E). exists j, e. split; [lia|done].
  - destruct Hst as (_ & -> & _). by rewrite <- !app_assoc.
  - by eexists.
Qed.

(** Whatever fails, the server process logs why and shuts the logging down last,
    having done a prefix of its set-up; it runs at least one thread, and it is
    cut off only by a failing thread pool or by a thread, other than the first,
    that cannot be started. *)
Theorem main_server_ends :
  process_ok ->
  match main_server [] with
  | (Ok (returned c), tr) => c = 0 /\
      (tr = [InitThreadPool] ++ full_run ++ [LogInfo end_line; SpdlogShutdown] \/
       exists e pre, fails_with e /\ pre `prefix_of` full_run /\ tr = [InitThreadPool] ++ pre ++ [LogError (exception_line e); SpdlogShutdown])
  | (Ok terminated, tr) => (exists e, init_thread_pool = Throw e /\ tr = []) \/ exists j e, (0 < j < threads)%nat /\ start_thread j = Throw e
  | _ => False
  end.
Proof.
  intros Hok. unfold main_server, try_catch at 1, attempt, of_outcome. unfold bind at 1 2.
  destruct init_thread_pool as [[]|e|] eqn:Ei; [|left; by exists e|by destruct (ok_init Hok)].
  unfold emit at 1, modify. cbn [app]. unfold bind at 1, try_catch at 1. pose proof (server_body_spec [InitThreadPool] Hok) as Hb.
  destruct (server_body _) as [[[c|]|e|] tr]; [| | |done].
  - destruct Hb as [-> ->]. unfold bind, emit, modify, ret. split; [done|]. left. by rewrite <- !app_assoc.
  - by right.
  - destruct Hb as (Hf & pre & -> & Hp). unfold bind, emit, modify, ret. split; [done|]. right. exists e, pre. split_and!; [done..|].
    by rewrite <- !app_assoc.
Qed.
End endings.

(** ** The connection string *)

(** The values are not quoted: different settings give the same string. *)
Example conninfo_ambiguous :
  conninfo (mkenvironment None None None (Some (chars "pw dbname=a")) (Some (chars "b"))) =
  conninfo (mkenvironment None None None (Some (chars "pw")) (Some (chars "a dbname=b"))).
Proof. reflexivity. Qed.

(** With more than three cores there are more threads than database connections. *)
Example threads_outnumber_connections : pool_size < network_threads 4.
Proof. reflexivity. Qed.

(** A host where only the port is taken. *)
Example port_taken_run :
  let h := {| init_thread_pool := Ok tt; make_database _ _ := Ok tt; make_server _ := Throw (runtime_error "bind: Address already in use");
              start_accept := Ok tt; start_thread _ := Ok tt; hardware_concurrency := 4;
              getenv := mkenvironment None None None None None; run_loop := Ok tt |} in
  main_server (H := h) [] =
    (Ok (returned 0),
     [InitThreadPool; MakeDatabase (chars "host=127.0.0.1 port=5432 user=postgres password=postgres dbname=postgres") 2;
      LogError (chars "[Server] Exception: bind: Address already in use"); SpdlogShutdown]).
Proof. reflexivity. Qed.
