(* ===== verification/SessionThreads.v ===== *)
(** * A session on the threads of the server (src/main_server.cpp, lines 48 to 53)

    The server runs its event loop on [network_threads] threads without a
    strand.  Here the steps of [SessionLoop] are put on threads: a handler of
    the session begins on a free thread and ends there; the operating system
    and [send_packet], which only reads the atomic [closed_] and posts, go on
    meanwhile.  When a handler begins while another one of the same
    session has not ended, both may use [write_queue_], [writing_],
    [read_buffer_] or the socket at once, which C++ leaves undefined: the run ends
    in [Race].  The theorems say what holds of the session as long as that has
    not happened, that it cannot happen with one thread, and that it can with two. *)

From S2P Require Import Prelude Machine ByteBuffer MessageBuffer SRP6 OpenSSL Packet AuthPacket.
From S2P Require Import WorkPacket AccountCache PreparedStatement Database ClientSession HandlersAuth HandlersWork Readers SessionLoop Main.

Section threads.
Context {host : Host} {O : OpenSSL}.
Context `{PX : Pqxx World connection work row}.
Context (parse : list Z -> exn + Z) (n : nat).
Abbreviation ctx := (Ctx World connection).

(** The session and the thread on which one of its handlers runs; or two
    handlers that overlap. *)
Inductive tstate :=
| Running (c : ctx) (busy : option (nat * job))
| Race (first second : job).

(** A handler does what it does when it begins.  What the system does to the operations it started
    and other calls of [send_packet] then fall before or after it. *)
Inductive tstep : tstate -> list AnyPacket -> tstate -> Prop :=
| t_system c busy c' : os_step c c' -> tstep (Running c busy) [] (Running c' busy)
| t_send c busy p c' :
    send_packet p c = (Ok tt, c') ->
    tstep (Running c busy) (if closed_ (session c) then [] else [p]) (Running c' busy)
| t_other c busy sv : tstep (Running c busy) [] (Running (mkCtx (self c) (session c) sv) busy)
| t_begin c t j ps c' :
    (t < n)%nat -> job_runs parse j c ps c' -> tstep (Running c None) ps (Running c' (Some (t, j)))
| t_end c t j : tstep (Running c (Some (t, j))) [] (Running c None)
| t_overlap c t j t' j' ps c' :
    (t' < n)%nat -> t' <> t -> job_runs parse j' c ps c' -> tstep (Running c (Some (t, j))) [] (Race j j').

Inductive tsteps : tstate -> list AnyPacket -> tstate -> Prop :=
| tsteps_refl x : tsteps x [] x
| tsteps_snoc x ps y ps' z : tsteps x ps y -> tstep y ps' z -> tsteps x (ps ++ ps') z.

(** Without a race the run is one of [SessionLoop]; a race needs two threads. *)
Lemma tsteps_steps c0 ps x : tsteps (Running c0 None) ps x ->
  match x with
  | Running c busy => steps parse c0 ps c /\ forall t j, busy = Some (t, j) -> (t < n)%nat
  | Race _ _ => (1 < n)%nat
  end.
Proof.
  intros H. remember (Running c0 None) as x0 eqn:E0. induction H as [y|y ps z ps' x H IH Hs]; subst.
  { split; [apply steps_refl|done]. }
  specialize (IH eq_refl). destruct Hs as [c busy c' Hs|c busy p c' Hs|c busy sv|c t j qs c' Ht Hs|c t j|c t j t' j' qs c' Ht Hne Hs].
  - destruct IH as [IH Hb]. split; [|done]. eapply steps_snoc; [exact IH|by apply by_system].
  - destruct IH as [IH Hb]. split; [|done]. eapply steps_snoc; [exact IH|by apply call_send_packet].
  - destruct IH as [IH Hb]. split; [|done]. rewrite app_nil_r. by apply steps_other.
  - destruct IH as [IH Hb]. split; [|by intros ? ? [= <- <-]]. eapply steps_snoc; [exact IH|by eapply by_job].
  - destruct IH as [IH Hb]. split; [|done]. by rewrite app_nil_r.
  - destruct IH as [_ Hb]. specialize (Hb t j eq_refl). lia.
Qed.
End threads.
Arguments tstate : clear implicits.

(** The threads of the server on a machine with [cores] cores. *)
Definition server_threads (cores : Z) : nat := Z.to_nat (network_threads cores).

(** ** Properties *)

(** C3: the write path is a FIFO as long as no two handlers of the session overlap, which is always so when the server has one network
    thread (on one core, or when the number of cores is not known): in every state a session can reach, under any
    order of operating system events, handlers, sends and closes, the bytes on
    the wire are a prefix of the frames of the packets accepted by
    [send_packet], in that order, never interleaved; at most one write and one
    read are under way; and while the session is open nothing accepted is
    lost: what is not on the wire yet is queued or posted.  A run in which two handlers overlap has
    more than one network thread. *)
Theorem session_write_fifo (h : Host) (O : OpenSSL) (L : OpenSSLLaws O)
    `{PX : Pqxx World connection work row} (PL : PqxxLaws PX) (parse : list Z -> exn + Z) (cores : Z)
    (i : nat) (sv : Server World connection) (c0 : Ctx World connection) (ps : list AnyPacket) (x : tstate World connection) :
  start (Ok tt) (mkCtx i ClientSession_new sv) = (Ok tt, c0) ->
  tsteps parse (server_threads cores) (Running c0 None) ps x ->
  match x with
  | Running c _ =>
      wire (session c) `prefix_of` frames ps /\
      (length (writes (session c)) <= 1)%nat /\ (length (reads (session c)) <= 1)%nat /\
      (closed_ (session c) = false -> stream (session c) = frames ps)
  | Race _ _ => 1 < network_threads cores
  end.
Proof.
  intros Hs Ht. apply tsteps_steps in Ht. destruct x as [c busy|j1 j2].
  - destruct Ht as [Ht _]. by apply (steps_write_fifo parse i sv c0 c ps Hs Ht).
  - unfold server_threads in Ht. lia.
Qed.

(** C10: as long as no two handlers of the session overlap, which is always so when the server has one network thread, every
    handler that can begin in a reachable state returns normally:
    no exception leaves a read handler, a posted closure or a write handler,
    and none of them reads or pops out of range, with one exception: the
    handler of a write that succeeded, when the queue was emptied meanwhile. *)
Theorem session_handlers_safe (h : Host) (O : OpenSSL) (L : OpenSSLLaws O)
    `{PX : Pqxx World connection work row} (PL : PqxxLaws PX) (parse : list Z -> exn + Z) (cores : Z)
    (i : nat) (sv : Server World connection) (c0 : Ctx World connection) (ps : list AnyPacket) (x : tstate World connection) :
  start (Ok tt) (mkCtx i ClientSession_new sv) = (Ok tt, c0) ->
  tsteps parse (server_threads cores) (Running c0 None) ps x ->
  match x with
  | Running c _ =>
      (forall l1 r l2 result env,
         reads (session c) = l1 ++ r :: l2 -> finished (r_status r) = Some result ->
         env_ok env -> buffer_fits (session c) ->
         exists c', on_read parse env result (on_session (set_reads (l1 ++ l2)) c) = (Ok tt, c')) /\
      (forall p rest, posted (session c) = p :: rest ->
         exists c', do_send_packet p (on_session (set_posted rest) c) = (Ok tt, c')) /\
      (forall l1 w l2 result,
         writes (session c) = l1 ++ w :: l2 -> finished (w_status w) = Some result ->
         closed_ (session c) = false \/ write_queue_ (session c) <> [] \/ error_of result <> None ->
         exists c', on_write (error_of result) (on_session (set_writes (l1 ++ l2)) c) = (Ok tt, c'))
  | Race _ _ => 1 < network_threads cores
  end.
Proof.
  intros Hs Ht. apply tsteps_steps in Ht. destruct x as [c busy|j1 j2].
  - destruct Ht as [Ht _]. by apply (steps_handlers_safe parse i sv c0 c ps Hs Ht).
  - unfold server_threads in Ht. lia.
Qed.

(** ** Runs *)

Section demo.
Local Notation dsteps n := (tsteps (host := little) (O := reference) (PX := Demo.demo_pqxx) (fun _ => inr 0) n).
Local Notation dstep n := (tstep (host := little) (O := reference) (PX := Demo.demo_pqxx) (fun _ => inr 0) n).

Lemma tstep_eq n x ps y y' : dstep n x ps y -> y = y' -> dstep n x ps y'.
Proof. by intros ? <-. Qed.

(** One thread: a pong is accepted, its closure runs, the socket takes the bytes. *)
Lemma demo_run n : (0 < n)%nat -> dsteps n (Running demo_started None) [demo_pong] (Running demo_written None).
Proof.
  intros Hn. change [demo_pong] with (((((([] ++ [demo_pong]) ++ []) ++ []) ++ []) ++ []) : list AnyPacket).
  eapply tsteps_snoc; [eapply tsteps_snoc; [eapply tsteps_snoc; [eapply tsteps_snoc; [eapply tsteps_snoc; [apply tsteps_refl|]|]|]|]|].
  - apply (t_send _ _ demo_started None demo_pong). reflexivity.
  - apply (t_begin _ _ _ 0 posted_closure); [done|]. eapply run_posted; reflexivity.
  - apply t_end.
  - apply t_system, (os_sends _ [] (mkWrite [2; 0; 4; 1; 2; 3; 4] 0 Pending) [] 7); try reflexivity; simpl; lia.
  - eapply tstep_eq; [apply t_system, (os_write_done _ [] (mkWrite [2; 0; 4; 1; 2; 3; 4] 7 Pending) []); reflexivity|].
    reflexivity.
Qed.
End demo.

Lemma session_write_fifo_witness :
  wire (session demo_written) `prefix_of` frames (host := little) [demo_pong] /\
  stream (host := little) (session demo_written) = frames (host := little) [demo_pong].
Proof.
  destruct (session_write_fifo little reference reference_laws Demo.demo_laws (fun _ => inr 0) 1 0
    (server demo_ctx) demo_started [demo_pong] (Running demo_written None)) as (H1 & _ & _ & H2).
  - reflexivity.
  - apply demo_run. vm_compute. lia.
  - split; [exact H1|]. apply H2. reflexivity.
Defined.

Lemma session_handlers_safe_witness :
  exists c', on_write (error_of (inr tt)) (on_session (set_writes ([] ++ [])) demo_written) = (Ok tt, c').
Proof.
  destruct (session_handlers_safe little reference reference_laws Demo.demo_laws (fun _ => inr 0) 1 0
    (server demo_ctx) demo_started [demo_pong] (Running demo_written None)) as (_ & _ & H).
  - reflexivity.
  - apply demo_run. vm_compute. lia.
  - apply (H [] (mkWrite [2; 0; 4; 1; 2; 3; 4] 7 (Done tt)) []); [reflexivity|reflexivity|left; reflexivity].
Defined.

(** Two cores give two network threads, and then two handlers of one session can overlap: while the handler of a write pops the queue, a
    closure posted by [send_packet] begins to push to it. *)
Theorem session_handlers_race :
  server_threads 2 = 2%nat /\
  exists ps, tsteps (host := little) (O := reference) (PX := Demo.demo_pqxx) (fun _ => inr 0) (server_threads 2)
    (Running demo_started None) ps (Race write_handler posted_closure).
Proof.
  split; [reflexivity|]. exists (((([demo_pong] ++ [demo_pong]) ++ []) ++ [])).
  eapply tsteps_snoc; [eapply tsteps_snoc; [eapply tsteps_snoc; [apply demo_run; vm_compute; lia|]|]|].
  - apply (t_send _ _ demo_written None demo_pong). reflexivity.
  - apply (t_begin _ _ _ 0 write_handler); [vm_compute; lia|].
    eapply (run_write_handler _ _ [] (mkWrite [2; 0; 4; 1; 2; 3; 4] 7 (Done tt)) []); reflexivity.
  - eapply (t_overlap _ _ _ 0 write_handler 1); [vm_compute; lia|done|]. eapply run_posted; reflexivity.
Qed.

(** [do_send_packet] in the three parts that can fall between those of another thread: the push, the test of [writing_], and the start of the write. *)
Section parts.
Context {host : Host} {World connection : Type}.
Definition send_push (packet : AnyPacket) : M (Ctx World connection) unit :=
  modify (on_session (fun s => set_write_queue (write_queue_ s ++ [any_build_packet packet]) s)).
Definition send_test : M (Ctx World connection) bool := gets (fun c => writing_ (session c)).
Definition send_start (writing : bool) : M (Ctx World connection) unit := if negb writing then do_write else ret tt.

Lemma do_send_packet_parts packet c :
  do_send_packet packet c = (do! send_push packet in let! writing := send_test in send_start writing) c.
Proof. reflexivity. Qed.

(** Two closures on two threads that both test [writing_] before either sets it start two writes of the same packet: its bytes reach the
    peer twice, and the other packet is not sent. *)
Theorem overlap_writes_twice (p q : AnyPacket) (c : Ctx World connection) :
  writing_ (session c) = false -> write_queue_ (session c) = [] -> writes (session c) = [] ->
  exists c', (do! send_push p in let! writing1 := send_test in
              do! send_push q in let! writing2 := send_test in
              do! send_start writing1 in send_start writing2) c = (Ok tt, c') /\
    map w_data (writes (session c')) = [any_build_packet p; any_build_packet p].
Proof.
  destruct c as [i s sv]. destruct s. cbn. intros -> -> ->. by eexists.
Qed.
End parts.
