(* ===== verification/CircularQ.v ===== *)
(** * circular_q (spdlog/details/circular_q.h)

    The ring buffer under spdlog's message queue and backtrace: a vector with
    one spare slot, an index of the oldest element and an index of the next
    free slot.  A push into a full queue overwrites the oldest element and
    counts it.  The contract is the type [ring]: a list of bounded length that
    drops from its front. *)

From S2P Require Import Prelude Machine.

Record circular_q (T : Type) := mkcircular_q {
  max_items_ : Z;
  head_ : Z;
  tail_ : Z;
  overrun_counter_ : Z;
  v_ : list T }.
Arguments mkcircular_q {T}.
Arguments max_items_ {T}.
Arguments head_ {T}.
Arguments tail_ {T}.
Arguments overrun_counter_ {T}.
Arguments v_ {T}.

(** [circular_q() = default]: the disabled queue. *)
Definition circular_q_default {T} : circular_q T := mkcircular_q 0 0 0 0 [].

(** [circular_q(max_items)]: one more slot than items, value-initialised with
    [T{}], the argument [dflt]. *)
Definition circular_q_new {T} (dflt : T) (max_items : Z) : circular_q T :=
  let max_items_ := size_add max_items 1 in
  mkcircular_q max_items_ 0 0 0 (replicate (Z.to_nat max_items_) dflt).

(** [v_[i]] of a vector: undefined out of range. *)
Definition vec_at {T} (l : list T) (i : Z) : outcome T :=
  if 0 <=? i then match l !! Z.to_nat i with Some x => Ok x | None => Undef end else Undef.

(** [a % b] on [size_t]: undefined for [b = 0]. *)
Definition size_rem (a b : Z) : outcome Z := if b =? 0 then Undef else Ok (a mod b).

Definition set_head {T} (h : Z) (q : circular_q T) : circular_q T :=
  mkcircular_q (max_items_ q) h (tail_ q) (overrun_counter_ q) (v_ q).
Definition set_tail {T} (t : Z) (q : circular_q T) : circular_q T :=
  mkcircular_q (max_items_ q) (head_ q) t (overrun_counter_ q) (v_ q).
Definition set_overrun {T} (c : Z) (q : circular_q T) : circular_q T :=
  mkcircular_q (max_items_ q) (head_ q) (tail_ q) c (v_ q).
Definition set_v {T} (v : list T) (q : circular_q T) : circular_q T :=
  mkcircular_q (max_items_ q) (head_ q) (tail_ q) (overrun_counter_ q) v.

(** [v_[i] = x]. *)
Definition store {T} (i : Z) (x : T) : M (circular_q T) unit := fun q =>
  match vec_at (v_ q) i with
  | Ok _ => (Ok tt, set_v (<[Z.to_nat i := x]> (v_ q)) q)
  | _ => (Undef, q)
  end.

Definition push_back {T} (item : T) : M (circular_q T) unit :=
  let! q := get in
  if 0 <? max_items_ q then
    do! store (tail_ q) item in
    let! t := of_outcome (size_rem (size_add (tail_ q) 1) (max_items_ q)) in
    do! modify (set_tail t) in
    if t =? head_ q then
      let! h := of_outcome (size_rem (size_add (head_ q) 1) (max_items_ q)) in
      do! modify (set_head h) in
      modify (fun q => set_overrun (size_add (overrun_counter_ q) 1) q)
    else ret tt
  else ret tt.

Definition front {T} : M (circular_q T) T := fun q => (vec_at (v_ q) (head_ q), q).

(** [x = std::move(q.front())]: the slot keeps a moved-from value. *)
Definition move_front {T} (moved_from : T -> T) : M (circular_q T) T :=
  let! x := front in
  let! h := gets head_ in
  do! store h (moved_from x) in ret x.

Definition size {T} (q : circular_q T) : Z :=
  if head_ q <=? tail_ q then size_sub (tail_ q) (head_ q)
  else size_sub (max_items_ q) (size_sub (head_ q) (tail_ q)).

(** [at]: the assertion fails, or the access is undefined, beyond [size()]. *)
Definition at_ {T} (i : Z) (q : circular_q T) : outcome T :=
  if i <? size q then
    match size_rem (size_add (head_ q) i) (max_items_ q) with
    | Ok j => vec_at (v_ q) j
    | _ => Undef
    end
  else Undef.

Definition pop_front {T} : M (circular_q T) unit :=
  let! q := get in
  let! h := of_outcome (size_rem (size_add (head_ q) 1) (max_items_ q)) in
  modify (set_head h).

Definition empty {T} (q : circular_q T) : bool := tail_ q =? head_ q.

Definition full {T} (q : circular_q T) : bool :=
  if 0 <? max_items_ q then size_add (tail_ q) 1 mod max_items_ q =? head_ q else false.

Definition overrun_counter {T} (q : circular_q T) : Z := overrun_counter_ q.
Definition reset_overrun_counter {T} (q : circular_q T) : circular_q T := set_overrun 0 q.

(** [copy_moveable(std::move(other))]: the new value of [*this] and of
    [other], whose vector is left in an unspecified state [rest]. *)
Definition copy_moveable {T} (rest : list T) (other : circular_q T) : circular_q T * circular_q T :=
  (mkcircular_q (max_items_ other) (head_ other) (tail_ other) (overrun_counter_ other) (v_ other),
   mkcircular_q 0 0 0 0 rest).

(** ** Specification: a bounded list that drops its oldest element *)

Record ring (T : Type) := mkring {
  capacity : Z;
  items : list T;
  dropped : Z }.
Arguments mkring {T}.
Arguments capacity {T}.
Arguments items {T}.
Arguments dropped {T}.

Definition ring_push {T} (x : T) (r : ring T) : ring T :=
  if zlen (items r) <? capacity r
  then mkring (capacity r) (items r ++ [x]) (dropped r)
  else mkring (capacity r) (drop 1 (items r ++ [x])) (size_add (dropped r) 1).

Definition ring_pop {T} (r : ring T) : ring T := mkring (capacity r) (drop 1 (items r)) (dropped r).

(** The elements, oldest first. *)
Definition contents {T} (q : circular_q T) : list T :=
  take (Z.to_nat (size q)) (rotate (Z.to_nat (head_ q)) (v_ q)).

Definition view {T} (q : circular_q T) : ring T :=
  mkring (max_items_ q - 1) (contents q) (overrun_counter_ q).

(** ** Invariant *)

(** An enabled queue; its vector is as large as a vector can be at most. *)
Definition wf {T} (q : circular_q T) : Prop :=
  0 <= head_ q < max_items_ q /\ 0 <= tail_ q < max_items_ q /\
  max_items_ q < 2 ^ 63 /\ zlen (v_ q) = max_items_ q /\ 0 <= overrun_counter_ q < size_max.

Definition disabled {T} (q : circular_q T) : Prop := max_items_ q = 0 /\ head_ q = 0 /\ tail_ q = 0.

(** ** Rotations *)

Section rotation.
Context {T : Type}.
Implicit Types (l : list T) (x : T).

Lemma rotate_cons l h x :
  l !! h = Some x -> rotate h l = x :: drop (S h) l ++ take h l.
Proof.
  intros H. pose proof (lookup_lt_Some _ _ _ H). unfold rotate.
  rewrite Nat.mod_small by done. by rewrite (drop_S _ x _ H).
Qed.

Lemma rotate_next l h x :
  l !! h = Some x -> rotate (S h mod length l) l = drop (S h) l ++ take h l ++ [x].
Proof.
  intros H. pose proof (lookup_lt_Some _ _ _ H). unfold rotate.
  rewrite Nat.Div0.mod_mod. destruct (decide (S h = length l)) as [E|].
  - rewrite E, Nat.Div0.mod_same, drop_0, take_0, app_nil_r, drop_ge, <- take_S_r by (done || lia).
    rewrite take_ge; [done|lia].
  - rewrite Nat.mod_small by lia. by rewrite (take_S_r _ _ _ H).
Qed.

(** Moving the head by one drops the first element of a proper prefix. *)
Lemma take_rotate_next l h n :
  (h < length l)%nat -> (n < length l)%nat ->
  take (n - 1) (rotate (S h mod length l) l) = drop 1 (take n (rotate h l)).
Proof.
  intros Hh Hn. destruct (lookup_lt_is_Some_2 l h Hh) as [x Hx].
  rewrite (rotate_next _ _ _ Hx), (rotate_cons _ _ _ Hx), app_assoc.
  rewrite take_app_le by (rewrite length_app, length_take, length_drop; lia).
  destruct n; [done|]. simpl. by rewrite Nat.sub_0_r, drop_0.
Qed.

Lemma take_insert_end l n x :
  (n < length l)%nat -> take (S n) (<[n := x]> l) = take n l ++ [x].
Proof.
  intros H. rewrite (take_S_r _ _ x) by (by apply list_lookup_insert_eq).
  by rewrite take_insert_ge by lia.
Qed.
End rotation.

(** ** Operations against the specification *)

Section refinement.
Context {T : Type}.
Implicit Types (q : circular_q T) (x : T).

Lemma size_wf q :
  wf q -> size q = if head_ q <=? tail_ q then tail_ q - head_ q else max_items_ q - head_ q + tail_ q.
Proof.
  intros (? & ? & ? & _). unfold size.
  split_if; bool_to_prop; [by rewrite size_sub_small by (unfold size_max; lia)|].
  rewrite (size_sub_small (head_ q)), size_sub_small by (unfold size_max; lia). lia.
Qed.

Lemma size_mod q : wf q -> size q = (tail_ q - head_ q) mod max_items_ q.
Proof.
  intros H. rewrite (size_wf _ H). destruct H as (? & ? & _). split_if; bool_to_prop.
  - rewrite Z.mod_small; lia.
  - rewrite (Zmod_unique (tail_ q - head_ q) (max_items_ q) (-1) (max_items_ q - head_ q + tail_ q)); lia.
Qed.

Lemma size_range q : wf q -> 0 <= size q < max_items_ q.
Proof. intros H. rewrite (size_wf _ H). destruct H as (? & ? & _). split_if; bool_to_prop; lia. Qed.

Lemma zlen_contents q : wf q -> zlen (contents q) = size q.
Proof.
  intros H. pose proof (size_range _ H). destruct H as (_ & _ & _ & Hv & _). unfold contents, zlen in *.
  rewrite length_take, length_rotate. lia.
Qed.

(** The index after [i], as the code computes it. *)
Lemma next_index q i :
  wf q -> 0 <= i < max_items_ q ->
  size_rem (size_add i 1) (max_items_ q) = Ok ((i + 1) mod max_items_ q) /\
  Z.to_nat ((i + 1) mod max_items_ q) = (S (Z.to_nat i) mod length (v_ q))%nat.
Proof.
  intros (? & ? & ? & Hv & _) Hi. unfold size_rem. rewrite size_add_small by (unfold size_max; lia).
  split; [by rewrite (proj2 (Z.eqb_neq _ _)) by lia|].
  unfold zlen in Hv. rewrite <- Hv, Z2Nat.inj_mod, Nat2Z.id by lia. f_equal. lia.
Qed.

Lemma vec_at_ok (l : list T) i : 0 <= i < zlen l -> exists x, vec_at l i = Ok x /\ l !! Z.to_nat i = Some x.
Proof.
  unfold zlen, vec_at. intros. rewrite (proj2 (Z.leb_le _ _)) by lia.
  destruct (lookup_lt_is_Some_2 l (Z.to_nat i)) as [x E]; [lia|]. exists x. by rewrite E.
Qed.

Lemma store_ok q i x :
  0 <= i < zlen (v_ q) -> store i x q = (Ok tt, set_v (<[Z.to_nat i := x]> (v_ q)) q).
Proof. intros H. destruct (vec_at_ok _ _ H) as (y & E & _). unfold store. by rewrite E. Qed.

(** The stored element is the last of one more element. *)
Lemma contents_store q x :
  wf q ->
  take (S (Z.to_nat (size q))) (rotate (Z.to_nat (head_ q)) (<[Z.to_nat (tail_ q) := x]> (v_ q)))
  = contents q ++ [x].
Proof.
  intros H. pose proof (size_range _ H) as Hs. pose proof (size_mod _ H) as Hm.
  destruct H as (? & ? & ? & Hv & _). unfold zlen in Hv.
  rewrite rotate_insert_r by lia.
  replace (rotate_nat_sub _ _ _) with (Z.to_nat (size q)).
  - apply take_insert_end. rewrite length_rotate. lia.
  - unfold rotate_nat_sub. rewrite Hv, !Z2Nat.id, Hm by lia. f_equal.
    replace (max_items_ q + tail_ q - head_ q) with (tail_ q - head_ q + 1 * max_items_ q) by lia.
    by rewrite Z.mod_add by lia.
Qed.

Lemma full_size q : wf q -> full q = (size q =? max_items_ q - 1).
Proof.
  intros H. destruct (next_index q (tail_ q) H) as [E _]; [apply H|].
  pose proof (size_wf _ H) as Hs. destruct H as (? & ? & ? & _). unfold full.
  rewrite (proj2 (Z.ltb_lt _ _)) by lia. rewrite size_add_small by (unfold size_max; lia).
  destruct (decide (tail_ q + 1 = max_items_ q)) as [Et|].
  - rewrite Et, Z.mod_same by lia. rewrite Hs. split_if; bool_to_prop; lia.
  - rewrite Z.mod_small by lia. rewrite Hs. split_if; bool_to_prop; lia.
Qed.

Lemma empty_contents q : wf q -> empty q = bool_decide (contents q = []).
Proof.
  intros H. unfold empty. pose proof (zlen_contents q H) as Hl. pose proof (size_wf _ H) as Hs.
  destruct H as (? & ? & _). case_bool_decide as Hn.
  - rewrite Hn in Hl. change (0 = size q) in Hl. rewrite Hs in Hl. destruct (_ <=? _) eqn:?; bool_to_prop; lia.
  - apply Z.eqb_neq. intros E. apply Hn, zlen_0_inv. rewrite Hl, Hs, E. split_if; bool_to_prop; lia.
Qed.

(** The two results of [push_back]: with the oldest element kept, with the
    oldest element dropped. *)
Definition pushed q x : circular_q T :=
  mkcircular_q (max_items_ q) (head_ q) ((tail_ q + 1) mod max_items_ q) (overrun_counter_ q)
    (<[Z.to_nat (tail_ q) := x]> (v_ q)).
Definition overrun q x : circular_q T :=
  set_overrun (size_add (overrun_counter_ q) 1)
    (set_head ((head_ q + 1) mod max_items_ q) (pushed q x)).

Lemma push_back_run q x :
  wf q -> push_back x q = (Ok tt, if full q then overrun q x else pushed q x).
Proof.
  intros H. destruct (next_index q (tail_ q) H (proj1 (proj2 H))) as [Et _].
  destruct (next_index q (head_ q) H (proj1 H)) as [Eh _]. destruct H as (Hh & Ht & Hm & Hv & Ho).
  unfold push_back, full, bind, get. rewrite (proj2 (Z.ltb_lt 0 _)) by lia.
  rewrite store_ok by lia. unfold of_outcome. rewrite Et, (size_add_small (tail_ q)) by (unfold size_max; lia).
  simpl. split_if; [by rewrite Eh|done].
Qed.

Lemma pushed_wf q x : wf q -> wf (pushed q x).
Proof.
  intros (? & ? & ? & Hv & ?). unfold wf, zlen in *; simpl. rewrite length_insert.
  pose proof (Z.mod_pos_bound (tail_ q + 1) (max_items_ q)). lia.
Qed.

Lemma set_head_wf q h : wf q -> 0 <= h < max_items_ q -> wf (set_head h q).
Proof. unfold wf; simpl. tauto. Qed.

Lemma set_overrun_wf q c : wf q -> 0 <= c < size_max -> wf (set_overrun c q).
Proof. unfold wf; simpl. tauto. Qed.

Lemma overrun_wf q x : wf q -> wf (overrun q x).
Proof.
  intros H. pose proof (size_range _ H). apply set_overrun_wf; [|apply Z.mod_pos_bound; by unfold size_max].
  apply set_head_wf; [by apply pushed_wf|]. apply Z.mod_pos_bound. simpl. lia.
Qed.

(** Advancing the head and keeping the tail drops the first element. *)
Lemma contents_next_head q :
  wf q -> size q <> 0 -> contents (set_head ((head_ q + 1) mod max_items_ q) q) = drop 1 (contents q).
Proof.
  intros H Hn. pose proof (size_range _ H) as Hr.
  destruct (next_index q (head_ q) H (proj1 H)) as [_ Nh].
  assert (size (set_head ((head_ q + 1) mod max_items_ q) q) = size q - 1) as Es.
  { rewrite size_mod by (apply set_head_wf, Z.mod_pos_bound; [done|lia]). simpl.
    rewrite Zminus_mod_idemp_r, <- (Z.mod_small (size q - 1) (max_items_ q)), (size_mod _ H), Zminus_mod_idemp_l by lia.
    f_equal. lia. }
  destruct H as (Hh & _ & _ & Hv & _). unfold zlen in Hv.
  unfold contents. rewrite Es. simpl. rewrite Nh, <- take_rotate_next by lia. do 2 f_equal. lia.
Qed.

Lemma pushed_view q x :
  wf q -> size q < max_items_ q - 1 -> contents (pushed q x) = contents q ++ [x].
Proof.
  intros H Hn. pose proof (size_range _ H). rewrite <- contents_store by done.
  unfold contents. rewrite (size_mod (pushed q x)) by (by apply pushed_wf). simpl.
  rewrite Zminus_mod_idemp_l. replace (tail_ q + 1 - head_ q) with (tail_ q - head_ q + 1) by lia.
  rewrite <- Zplus_mod_idemp_l, <- size_mod, Z.mod_small by (done || lia). f_equal. lia.
Qed.

Lemma overrun_view q x :
  wf q -> size q = max_items_ q - 1 -> contents (overrun q x) = drop 1 (contents q ++ [x]).
Proof.
  intros H Hn. pose proof (size_range _ H) as Hr. pose proof (contents_store _ x H) as Hc.
  destruct (next_index q (head_ q) H (proj1 H)) as [_ Nh].
  unfold contents at 1. rewrite (size_mod (overrun q x)) by (by apply overrun_wf). simpl.
  rewrite Zminus_mod_idemp_l, Zminus_mod_idemp_r. replace (tail_ q + 1 - (head_ q + 1)) with (tail_ q - head_ q) by lia.
  rewrite <- size_mod, Nh by done. rewrite <- Hc. clear Hc. destruct H as (Hh & Ht & _ & Hv & _). unfold zlen in Hv.
  set (w := <[Z.to_nat (tail_ q) := x]> (v_ q)).
  assert (Hw : length w = length (v_ q)) by apply length_insert.
  assert (Hl : (Z.to_nat (head_ q) < length w)%nat) by lia.
  destruct (lookup_lt_is_Some_2 w _ Hl) as [y Hy].
  rewrite <- Hw, (rotate_next _ _ _ Hy), (rotate_cons _ _ _ Hy), app_assoc. simpl. rewrite drop_0.
  apply take_app_le. rewrite length_app, length_take, length_drop. lia.
Qed.

Lemma push_back_ok q x :
  wf q -> exists q', push_back x q = (Ok tt, q') /\ wf q' /\ view q' = ring_push x (view q).
Proof.
  intros H. rewrite (push_back_run _ x H), (full_size _ H). eexists. split; [done|].
  pose proof (size_range _ H). unfold view, ring_push; simpl. rewrite (zlen_contents _ H).
  destruct (size q =? _) eqn:E; bool_to_prop.
  - rewrite (proj2 (Z.ltb_ge _ _)), overrun_view by (done || lia). auto using overrun_wf.
  - rewrite (proj2 (Z.ltb_lt _ _)), pushed_view by (done || lia). auto using pushed_wf.
Qed.

Lemma pop_front_ok q :
  wf q -> contents q <> [] ->
  exists q', pop_front q = (Ok tt, q') /\ wf q' /\ view q' = ring_pop (view q).
Proof.
  intros H Hn. destruct (next_index q (head_ q) H (proj1 H)) as [Eh _]. pose proof (size_range _ H).
  unfold pop_front, bind, get, of_outcome. rewrite Eh. eexists. split; [done|].
  split; [apply set_head_wf; [done|]; apply Z.mod_pos_bound; lia|].
  unfold view, ring_pop; simpl. f_equal. apply contents_next_head; [done|].
  rewrite <- zlen_contents by done. intros E. by apply zlen_0_inv in E.
Qed.

Lemma at_ok q i :
  wf q -> 0 <= i ->
  at_ i q = match contents q !! Z.to_nat i with Some x => Ok x | None => Undef end.
Proof.
  intros H Hi. pose proof (size_range _ H) as Hr. pose proof (zlen_contents _ H) as Hz. unfold zlen in Hz.
  unfold at_. destruct (i <? size q) eqn:E; bool_to_prop; [|by rewrite lookup_ge_None_2 by lia].
  destruct H as (? & ? & ? & Hv & _). unfold size_rem.
  rewrite size_add_small, (proj2 (Z.eqb_neq _ _)) by (unfold size_max; lia).
  unfold contents. unfold zlen in Hv. rewrite lookup_take_lt, lookup_rotate_r by lia.
  unfold rotate_nat_add. rewrite Hv, !Z2Nat.id by lia. unfold vec_at.
  by rewrite (proj2 (Z.leb_le _ _)) by (apply Z.mod_pos_bound; lia).
Qed.

(** The front is the slot of the head. *)
Lemma head_slot q x l : wf q -> contents q = x :: l -> v_ q !! Z.to_nat (head_ q) = Some x.
Proof.
  intros H Hc. pose proof (zlen_contents _ H) as Hz. pose proof (size_range _ H).
  destruct H as (? & _ & _ & Hv & _). unfold zlen in Hv.
  assert (E : contents q !! 0%nat = Some x) by (by rewrite Hc). revert E. unfold contents.
  assert (0 < size q) by (rewrite <- Hz, Hc, zlen_cons; pose proof (zlen_nonneg l); lia).
  rewrite lookup_take_lt, lookup_rotate_r by lia. unfold rotate_nat_add.
  by rewrite Z.add_0_r, Hv, Z2Nat.id, Z.mod_small by lia.
Qed.

Lemma front_ok q x l : wf q -> contents q = x :: l -> front q = (Ok x, q).
Proof.
  intros H Hc. unfold front, vec_at. rewrite (head_slot _ _ _ H Hc), (proj2 (Z.leb_le _ _)); [done|apply H].
Qed.

(** Moving out of the front changes nothing behind it. *)
Lemma move_front_ok q x l mv :
  wf q -> contents q = x :: l ->
  exists q', move_front mv q = (Ok x, q') /\ wf q' /\ view q' = mkring (max_items_ q - 1) (mv x :: l) (overrun_counter_ q).
Proof.
  intros H Hc. pose proof (head_slot _ _ _ H Hc) as Hx.
  assert (Hv : zlen (v_ q) = max_items_ q) by apply H. assert (Hh : 0 <= head_ q < max_items_ q) by apply H.
  unfold move_front, bind. rewrite (front_ok _ _ _ H Hc). unfold gets. rewrite store_ok by lia.
  eexists. split; [done|]. split; [unfold wf, zlen in *; simpl; rewrite length_insert; tauto|].
  unfold view. simpl. f_equal. revert Hc. unfold contents.
  change (size (set_v _ q)) with (size q). simpl. unfold zlen in Hv.
  rewrite (rotate_cons _ _ x), (rotate_cons _ _ (mv x)) by (done || apply list_lookup_insert_eq; lia).
  rewrite drop_insert_lt, take_insert_ge by lia. destruct (Z.to_nat (size q)); simpl; [done|]. by intros [= ->].
Qed.

Lemma circular_q_new_wf (d : T) n : 0 <= n < 2 ^ 63 - 1 -> wf (circular_q_new d n) /\ view (circular_q_new d n) = mkring n [] 0.
Proof.
  intros. unfold circular_q_new, wf, view, contents, size, zlen; simpl.
  rewrite size_add_small, length_replicate by (unfold size_max; lia). rewrite Z.add_simpl_r.
  unfold size_max. split; [lia|]. done.
Qed.
End refinement.
#[export] Hint Resolve pushed_wf overrun_wf : core.

(** C14: on an enabled queue every operation keeps the invariant and acts as on
    a list of at most [capacity] elements: [push_back] appends and, when the
    list is full, drops the oldest element and counts it; [pop_front] removes
    the oldest, [at] and [front] read it by index, and [size], [empty] and
    [full] are those of the list.  A new queue is empty. *)
Theorem circular_q_refines_ring {T} (q : circular_q T) (x : T) :
  wf q ->
  (exists q', push_back x q = (Ok tt, q') /\ wf q' /\ view q' = ring_push x (view q)) /\
  (contents q <> [] -> exists q', pop_front q = (Ok tt, q') /\ wf q' /\ view q' = ring_pop (view q)) /\
  (forall y l mv, contents q = y :: l -> exists q', move_front mv q = (Ok y, q') /\ wf q' /\
     view q' = mkring (max_items_ q - 1) (mv y :: l) (overrun_counter_ q)) /\
  (forall i, 0 <= i -> at_ i q = match contents q !! Z.to_nat i with Some y => Ok y | None => Undef end) /\
  size q = zlen (items (view q)) /\
  empty q = bool_decide (items (view q) = []) /\
  full q = (zlen (items (view q)) =? capacity (view q)) /\
  (forall d n, 0 <= n < 2 ^ 63 - 1 -> wf (circular_q_new (T:=T) d n) /\ view (circular_q_new (T:=T) d n) = mkring n [] 0).
Proof.
  intros H. split_and!.
  - by apply push_back_ok.
  - by apply pop_front_ok.
  - intros. by apply move_front_ok.
  - intros. by apply at_ok.
  - simpl. by rewrite zlen_contents.
  - by apply empty_contents.
  - simpl. by rewrite zlen_contents, full_size.
  - intros. by apply circular_q_new_wf.
Qed.

(** A queue of two items that has seen three: [1] was dropped. *)
Definition demo_q : circular_q Z := snd ((do! push_back 1 in do! push_back 2 in push_back 3) (circular_q_new 0 2)).

Lemma circular_q_refines_ring_witness :
  wf demo_q /\ items (view demo_q) = [2; 3] /\ full demo_q = true /\
  exists q', push_back 4 demo_q = (Ok tt, q') /\ wf q' /\ view q' = mkring 2 [3; 4] 2.
Proof.
  assert (H : wf demo_q) by (unfold wf, size_max; vm_compute; split_and!; done).
  split_and!; [done|reflexivity|reflexivity|].
  destruct (circular_q_refines_ring demo_q 4 H) as (P & _). exact P.
Defined.

(** Moving hands the contents over and leaves a disabled queue, on which a push
    is a no-op and which is never full. *)
Lemma copy_moveable_spec {T} (q : circular_q T) rest x :
  let '(this, other) := copy_moveable rest q in
  view this = view q /\ disabled other /\ full other = false /\ empty other = true /\
  push_back x other = (Ok tt, other).
Proof. done. Qed.
