(* ===== verification/MpmcQueue.v ===== *)
(** * mpmc_blocking_queue (spdlog/details/mpmc_blocking_q.h)

    The queue between the threads that log and the threads that write.  Every
    access to [q_] happens under [queue_mutex_], so a critical section is one
    atomic step; a wait on a condition variable gives the mutex up and sleeps
    until a notification (or spuriously) and then tests its predicate again;
    [notify_one] comes after the mutex is released and is a step of its own.
    [Step] interleaves any number of threads that way. *)

From S2P Require Import Prelude Machine CircularQ.

Record mpmc_blocking_queue (T : Type) := mkmpmc {
  q_ : circular_q T;
  discard_counter_ : Z }.
Arguments mkmpmc {T}.
Arguments q_ {T}.
Arguments discard_counter_ {T}.

Definition mpmc_new {T} (dflt : T) (max_items : Z) : mpmc_blocking_queue T :=
  mkmpmc (circular_q_new dflt max_items) 0.

Definition on_q {T A} (m : M (circular_q T) A) : M (mpmc_blocking_queue T) A :=
  zoom q_ (fun q s => mkmpmc q (discard_counter_ s)) m.

(** ** Critical sections *)

(** What a critical section ends with: the predicate of its wait is false (the
    thread sleeps), or it is left with a result. *)
Inductive section_end (A : Type) :=
| Waits
| Leaves (a : A).
Arguments Waits {A}.
Arguments Leaves {A} a.

(** [enqueue] up to the notification. *)
Definition enqueue {T} (item : T) : M (mpmc_blocking_queue T) (section_end unit) :=
  let! s := get in
  if negb (full (q_ s)) then do! on_q (push_back item) in ret (Leaves tt) else ret Waits.

(** [enqueue_nowait] up to the notification. *)
Definition enqueue_nowait {T} (item : T) : M (mpmc_blocking_queue T) unit := on_q (push_back item).

(** [enqueue_if_have_room] up to the test of [pushed], which is the result. *)
Definition enqueue_if_have_room {T} (item : T) : M (mpmc_blocking_queue T) bool :=
  let! s := get in
  if negb (full (q_ s)) then do! on_q (push_back item) in ret true else ret false.

(** [++discard_counter_], atomic. *)
Definition discard {T} : M (mpmc_blocking_queue T) unit :=
  modify (fun s => mkmpmc (q_ s) (size_add (discard_counter_ s) 1)).

(** [popped_item = std::move(q_.front()); q_.pop_front();]. *)
Definition take_front {T} (moved_from : T -> T) : M (mpmc_blocking_queue T) T :=
  let! x := on_q (move_front moved_from) in
  do! on_q pop_front in ret x.

(** [dequeue] up to the notification. *)
Definition dequeue {T} (moved_from : T -> T) : M (mpmc_blocking_queue T) (section_end T) :=
  let! s := get in
  if negb (empty (q_ s)) then let! x := take_front moved_from in ret (Leaves x) else ret Waits.

(** [dequeue_for] up to the notification.  [timed_out] says whether the wait has
    reached its time limit: then [wait_for] returns the predicate, and a false
    one ends the call with [false] ([Leaves None]). *)
Definition dequeue_for {T} (moved_from : T -> T) (timed_out : bool)
  : M (mpmc_blocking_queue T) (section_end (option T)) :=
  let! s := get in
  if negb (empty (q_ s)) then let! x := take_front moved_from in ret (Leaves (Some x))
  else if timed_out then ret (Leaves None) else ret Waits.

Definition overrun_counter {T} (s : mpmc_blocking_queue T) : Z := CircularQ.overrun_counter (q_ s).
Definition discard_counter {T} (s : mpmc_blocking_queue T) : Z := discard_counter_ s.
Definition size {T} (s : mpmc_blocking_queue T) : Z := CircularQ.size (q_ s).
Definition reset_overrun_counter {T} : M (mpmc_blocking_queue T) unit :=
  on_q (modify CircularQ.reset_overrun_counter).
Definition reset_discard_counter {T} : M (mpmc_blocking_queue T) unit :=
  modify (fun s => mkmpmc (q_ s) 0).

(** ** Threads *)

(** Where a thread is.  [InEnqueue] and [InDequeue] hold the threads that will
    take the mutex and test the predicate: at the start of the call and after
    waking up. *)
Inductive tstate (T : Type) :=
| Outside
| InEnqueue (item : T)
| SleepEnqueue (item : T)
| InEnqueueNowait (item : T)
| InEnqueueIfRoom (item : T)
| NotifyPush
| Discard
| InDequeue
| SleepDequeue
| InDequeueFor (timed_out : bool)
| SleepDequeueFor
| NotifyPop (item : T).
Arguments Outside {T}.
Arguments InEnqueue {T} item.
Arguments SleepEnqueue {T} item.
Arguments InEnqueueNowait {T} item.
Arguments InEnqueueIfRoom {T} item.
Arguments NotifyPush {T}.
Arguments Discard {T}.
Arguments InDequeue {T}.
Arguments SleepDequeue {T}.
Arguments InDequeueFor {T} timed_out.
Arguments SleepDequeueFor {T}.
Arguments NotifyPop {T} item.

(** The calls a thread can make. *)
Definition call_start {T} (t : tstate T) : bool :=
  match t with
  | InEnqueue _ | InEnqueueNowait _ | InEnqueueIfRoom _ | InDequeue | InDequeueFor false => true
  | _ => false
  end.

(** A sleeper and what it is after waking: [pop_cv_] has the producers,
    [push_cv_] the consumers. *)
Definition wake_pop {T} (t : tstate T) : option (tstate T) :=
  match t with SleepEnqueue x => Some (InEnqueue x) | _ => None end.
Definition wake_push {T} (t : tstate T) : option (tstate T) :=
  match t with
  | SleepDequeue => Some InDequeue
  | SleepDequeueFor => Some (InDequeueFor false)
  | _ => None
  end.

(** [cv.notify_one()]: some sleeper wakes, unless there is none. *)
Inductive notify_one {T} (wake : tstate T -> option (tstate T)) : list (tstate T) -> list (tstate T) -> Prop :=
| notify_some ts1 t t' ts2 :
    wake t = Some t' -> notify_one wake (ts1 ++ t :: ts2) (ts1 ++ t' :: ts2)
| notify_none ts : Forall (fun t => wake t = None) ts -> notify_one wake ts ts.

(** The queue, the threads, and the history: every item pushed and every item
    popped so far, in order. *)
Record config (T : Type) := mkconfig {
  queue : mpmc_blocking_queue T;
  threads : list (tstate T);
  pushed_log : list T;
  popped_log : list T }.
Arguments mkconfig {T}.
Arguments queue {T}.
Arguments threads {T}.
Arguments pushed_log {T}.
Arguments popped_log {T}.

(** One critical section or atomic action of a thread: its next state, the
    queue, what it pushed and what it popped. *)
Inductive act {T} (mv : T -> T) (s : mpmc_blocking_queue T) :
  tstate T -> tstate T -> mpmc_blocking_queue T -> list T -> list T -> Prop :=
| act_call t : call_start t = true -> act mv s Outside t s [] []
| act_enqueue x s' : enqueue x s = (Ok (Leaves tt), s') -> act mv s (InEnqueue x) NotifyPush s' [x] []
| act_enqueue_wait x s' : enqueue x s = (Ok Waits, s') -> act mv s (InEnqueue x) (SleepEnqueue x) s' [] []
| act_enqueue_nowait x s' : enqueue_nowait x s = (Ok tt, s') -> act mv s (InEnqueueNowait x) NotifyPush s' [x] []
| act_enqueue_room x s' : enqueue_if_have_room x s = (Ok true, s') -> act mv s (InEnqueueIfRoom x) NotifyPush s' [x] []
| act_enqueue_full x s' : enqueue_if_have_room x s = (Ok false, s') -> act mv s (InEnqueueIfRoom x) Discard s' [] []
| act_discard s' : discard s = (Ok tt, s') -> act mv s Discard Outside s' [] []
| act_dequeue x s' : dequeue mv s = (Ok (Leaves x), s') -> act mv s InDequeue (NotifyPop x) s' [] [x]
| act_dequeue_wait s' : dequeue mv s = (Ok Waits, s') -> act mv s InDequeue SleepDequeue s' [] []
| act_dequeue_for b x s' : dequeue_for mv b s = (Ok (Leaves (Some x)), s') -> act mv s (InDequeueFor b) (NotifyPop x) s' [] [x]
| act_dequeue_timeout b s' : dequeue_for mv b s = (Ok (Leaves None), s') -> act mv s (InDequeueFor b) Outside s' [] []
| act_dequeue_for_wait b s' : dequeue_for mv b s = (Ok Waits, s') -> act mv s (InDequeueFor b) SleepDequeueFor s' [] []
| act_timeout : act mv s SleepDequeueFor (InDequeueFor true) s [] []
| act_spurious t t' : wake_pop t = Some t' \/ wake_push t = Some t' -> act mv s t t' s [] []
| act_reset_overrun s' : reset_overrun_counter s = (Ok tt, s') -> act mv s Outside Outside s' [] []
| act_reset_discard s' : reset_discard_counter s = (Ok tt, s') -> act mv s Outside Outside s' [] [].

Inductive step {T} (mv : T -> T) : config T -> config T -> Prop :=
| step_act s ts1 t ts2 t' s' ins outs pin pout :
    act mv s t t' s' ins outs ->
    step mv (mkconfig s (ts1 ++ t :: ts2) pin pout)
            (mkconfig s' (ts1 ++ t' :: ts2) (pin ++ ins) (pout ++ outs))
| step_notify_push s ts1 ts2 ts' pin pout :
    notify_one wake_push (ts1 ++ Outside :: ts2) ts' ->
    step mv (mkconfig s (ts1 ++ NotifyPush :: ts2) pin pout) (mkconfig s ts' pin pout)
| step_notify_pop s ts1 x ts2 ts' pin pout :
    notify_one wake_pop (ts1 ++ Outside :: ts2) ts' ->
    step mv (mkconfig s (ts1 ++ NotifyPop x :: ts2) pin pout) (mkconfig s ts' pin pout).

(** [n] threads outside of the queue. *)
Definition init {T} (dflt : T) (max_items : Z) (n : nat) : config T :=
  mkconfig (mpmc_new dflt max_items) (replicate n Outside) [] [].

(** ** Critical sections on the contents *)

Definition stored {T} (s : mpmc_blocking_queue T) : list T := contents (q_ s).
Definition cap {T} (s : mpmc_blocking_queue T) : Z := max_items_ (q_ s) - 1.
Definition ok {T} (s : mpmc_blocking_queue T) : Prop := wf (q_ s).

Section critical.
Context {T : Type} (mv : T -> T).
Implicit Types (s : mpmc_blocking_queue T) (x : T).

Lemma full_stored s : ok s -> full (q_ s) = (zlen (stored s) =? cap s).
Proof. intros H. unfold stored. by rewrite zlen_contents, full_size. Qed.

Lemma stored_le_cap s : ok s -> zlen (stored s) <= cap s.
Proof. intros H. unfold stored, cap. rewrite zlen_contents by done. pose proof (size_range _ H). lia. Qed.

Lemma push_section s x :
  ok s -> exists s', on_q (push_back x) s = (Ok tt, s') /\ ok s' /\ cap s' = cap s /\
    stored s' = if zlen (stored s) <? cap s then stored s ++ [x] else drop 1 (stored s ++ [x]).
Proof.
  intros H. destruct (push_back_ok _ x H) as (q' & E & W & V).
  exists (mkmpmc q' (discard_counter_ s)). unfold on_q, zoom. rewrite E. split; [done|]. split; [done|].
  unfold view, ring_push, stored, cap in *; simpl in *. destruct (_ <? _); injection V; auto.
Qed.

Lemma push_room s x :
  ok s -> full (q_ s) = false -> exists s', on_q (push_back x) s = (Ok tt, s') /\ ok s' /\ cap s' = cap s /\
    stored s' = stored s ++ [x].
Proof.
  intros H Hf. rewrite (full_stored _ H) in Hf. pose proof (stored_le_cap _ H). bool_to_prop.
  destruct (push_section s x H) as (s' & ? & ? & ? & E). exists s'. by rewrite (proj2 (Z.ltb_lt _ _)) in E by lia.
Qed.

Lemma take_front_ok s x l :
  ok s -> stored s = x :: l ->
  exists s', take_front mv s = (Ok x, s') /\ ok s' /\ cap s' = cap s /\ stored s' = l.
Proof.
  intros H Hc. destruct (move_front_ok _ _ _ mv H Hc) as (q1 & E1 & W1 & V1).
  injection V1 as C1 V1 _. destruct (pop_front_ok q1 W1) as (q2 & E2 & W2 & V2); [by rewrite V1|].
  injection V2 as C2 V2 _. exists (mkmpmc q2 (discard_counter_ s)).
  unfold take_front, on_q, zoom, bind. rewrite E1; simpl. rewrite E2; simpl.
  unfold ok, cap, stored; simpl. rewrite V2, V1. split_and!; try done. lia.
Qed.

Lemma enqueue_spec s x :
  ok s ->
  if zlen (stored s) =? cap s then enqueue x s = (Ok Waits, s)
  else exists s', enqueue x s = (Ok (Leaves tt), s') /\ ok s' /\ cap s' = cap s /\ stored s' = stored s ++ [x].
Proof.
  intros H. unfold enqueue, bind, get. rewrite <- full_stored by done.
  destruct (full (q_ s)) eqn:E; [done|]. destruct (push_room s x H E) as (s' & E' & ?). exists s'. simpl. by rewrite E'.
Qed.

Lemma enqueue_if_have_room_spec s x :
  ok s ->
  if zlen (stored s) =? cap s then enqueue_if_have_room x s = (Ok false, s)
  else exists s', enqueue_if_have_room x s = (Ok true, s') /\ ok s' /\ cap s' = cap s /\ stored s' = stored s ++ [x].
Proof.
  intros H. unfold enqueue_if_have_room, bind, get. rewrite <- full_stored by done.
  destruct (full (q_ s)) eqn:E; [done|]. destruct (push_room s x H E) as (s' & E' & ?). exists s'. simpl. by rewrite E'.
Qed.

Lemma dequeue_spec s :
  ok s ->
  match stored s with
  | [] => dequeue mv s = (Ok Waits, s)
  | x :: l => exists s', dequeue mv s = (Ok (Leaves x), s') /\ ok s' /\ cap s' = cap s /\ stored s' = l
  end.
Proof.
  intros H. unfold dequeue, bind, get. rewrite empty_contents by done. fold (stored s).
  destruct (stored s) as [|x l] eqn:E; [done|]. destruct (take_front_ok s x l H E) as (s' & E' & ?).
  exists s'. simpl. by rewrite E'.
Qed.

Lemma dequeue_for_spec s b :
  ok s ->
  match stored s with
  | [] => dequeue_for mv b s = (Ok (if b then Leaves None else Waits), s)
  | x :: l => exists s', dequeue_for mv b s = (Ok (Leaves (Some x)), s') /\ ok s' /\ cap s' = cap s /\ stored s' = l
  end.
Proof.
  intros H. unfold dequeue_for, bind, get. rewrite empty_contents by done. fold (stored s).
  destruct (stored s) as [|x l] eqn:E; [by destruct b|]. destruct (take_front_ok s x l H E) as (s' & E' & ?).
  exists s'. simpl. by rewrite E'.
Qed.
End critical.

(** ** Who can act on the queue *)

(** Threads that will test the predicate of a consumer or have a notification
    of the consumers to send; the same for the producers. *)
Definition to_push {T} (t : tstate T) : Z :=
  match t with NotifyPush | InDequeue | InDequeueFor _ => 1 | _ => 0 end.
Definition to_pop {T} (t : tstate T) : Z :=
  match t with NotifyPop _ | InEnqueue _ => 1 | _ => 0 end.
Definition sleeps_push {T} (t : tstate T) : Prop := is_Some (wake_push t).
Definition sleeps_pop {T} (t : tstate T) : Prop := is_Some (wake_pop t).
Definition is_nowait {T} (t : tstate T) : Prop :=
  match t with InEnqueueNowait _ => True | _ => False end.

Definition tally {T} (w : tstate T -> Z) (ts : list (tstate T)) : Z := foldr (fun t n => w t + n) 0 ts.

(** What an action does to the contents, the number of stored items and the
    number of free slots, the last two against the thread's own weight. *)
Record effect {T} (s : mpmc_blocking_queue T) (t t' : tstate T) (s' : mpmc_blocking_queue T) (ins outs : list T) : Prop := {
  effect_ok : ok s';
  effect_cap : cap s' = cap s;
  effect_order : outs ++ stored s' `sublist_of` stored s ++ ins;
  effect_exact : ~ is_nowait t -> outs ++ stored s' = stored s ++ ins;
  effect_push : zlen (stored s') = 0 \/
    (sleeps_push t' -> sleeps_push t) /\ zlen (stored s') - to_push t' <= zlen (stored s) - to_push t;
  effect_pop : zlen (stored s') = cap s \/
    (sleeps_pop t' -> sleeps_pop t) /\ to_pop t - zlen (stored s') <= to_pop t' - zlen (stored s) }.

(** A thread state that is no sleeper, against its weight. *)
Ltac awake := split; [intros [? [=]]|lia].

Section effects.
Context {T : Type}.
Implicit Types (s : mpmc_blocking_queue T) (t : tstate T).

(** The queue's contents are left alone. *)
Lemma effect_idle s s' t t' :
  ok s' -> cap s' = cap s -> stored s' = stored s ->
  zlen (stored s) = 0 \/ (sleeps_push t' -> sleeps_push t) /\ to_push t <= to_push t' ->
  zlen (stored s) = cap s \/ (sleeps_pop t' -> sleeps_pop t) /\ to_pop t <= to_pop t' ->
  effect s t t' s' [] [].
Proof. 
  intros ? ? E Hu Ho. split; rewrite ?E, ?app_nil_r; auto.
  - destruct Hu as [|[? ?]]; [auto|]. right. split; [done|lia].
  - destruct Ho as [|[? ?]]; [auto|]. right. split; [done|lia].
Qed.

(** One item more, and a thread that will notify a consumer. *)
Lemma effect_add s s' t x :
  ok s' -> cap s' = cap s -> stored s' = stored s ++ [x] -> to_push t = 0 -> to_pop t <= 1 ->
  effect s t NotifyPush s' [x] [].
Proof.
  intros ? ? E Hu Ho. split; rewrite ?E; auto; right; rewrite zlen_app, zlen_cons, zlen_nil; simpl;
    awake.
Qed.

(** The oldest item makes room for the new one. *)
Lemma effect_replace s s' t x :
  ok s -> ok s' -> cap s' = cap s -> stored s' = drop 1 (stored s ++ [x]) -> zlen (stored s) = cap s ->
  is_nowait t -> to_push t = 0 -> to_pop t = 0 -> effect s t NotifyPush s' [x] [].
Proof.
  intros Hs ? ? E Hz ? ? ?. pose proof (zlen_nonneg (stored s)). split; rewrite ?E; try done.
  - apply sublist_drop.
  - right. rewrite zlen_drop, zlen_app, zlen_cons, zlen_nil. simpl. awake.
  - left. rewrite zlen_drop, zlen_app, zlen_cons, zlen_nil. lia.
Qed.

(** One item less, and a thread that will notify a producer. *)
Lemma effect_remove s s' t x :
  ok s' -> cap s' = cap s -> stored s = x :: stored s' -> to_push t = 1 -> to_pop t = 0 ->
  effect s t (NotifyPop x) s' [] [x].
Proof.
  intros ? ? E Hu Ho. split; rewrite ?E, ?app_nil_r; auto; right; rewrite zlen_cons; simpl;
    awake.
Qed.

Lemma call_start_awake t :
  call_start t = true -> ~ sleeps_push t /\ ~ sleeps_pop t /\ 0 <= to_push t /\ 0 <= to_pop t.
Proof. destruct t; try done; intros _; (split_and!; [intros [? [=]]|intros [? [=]]|..]); simpl; lia. Qed.

Lemma act_effect (mv : T -> T) s t t' s' ins outs : act mv s t t' s' ins outs -> ok s -> effect s t t' s' ins outs.
Proof.
  intros Ha Hs.
  destruct Ha as [t Ht|x s' E|x s' E|x s' E|x s' E|x s' E|s' E|x s' E|s' E|b x s' E|b s' E|b s' E| |t t' E|s' E|s' E].
  - apply call_start_awake in Ht as (? & ? & ? & ?). apply effect_idle; simpl; try done; right; tauto.
  - pose proof (enqueue_spec s x Hs) as P. destruct (_ =? _); [congruence|].
    destruct P as (s1 & E1 & ? & ? & ?). rewrite E1 in E. simplify_eq. apply effect_add; simpl; done || lia.
  - pose proof (enqueue_spec s x Hs) as P. destruct (_ =? _) eqn:Ez; bool_to_prop; [|destruct P as (? & E1 & _); by rewrite E1 in E].
    rewrite P in E. simplify_eq. apply effect_idle; simpl; try done; [right|by left]. awake.
  - destruct (push_section s x Hs) as (s1 & E1 & ? & ? & Es). unfold enqueue_nowait in E. rewrite E1 in E. simplify_eq.
    pose proof (stored_le_cap s Hs). destruct (_ <? _) eqn:Ez; bool_to_prop;
      [apply effect_add; simpl; done || lia|apply effect_replace; try done; lia].
  - pose proof (enqueue_if_have_room_spec s x Hs) as P. destruct (_ =? _); [congruence|].
    destruct P as (s1 & E1 & ? & ? & ?). rewrite E1 in E. simplify_eq. apply effect_add; simpl; done || lia.
  - pose proof (enqueue_if_have_room_spec s x Hs) as P. destruct (_ =? _) eqn:Ez; [|destruct P as (? & E1 & _); by rewrite E1 in E].
    rewrite P in E. simplify_eq. apply effect_idle; simpl; try done; right; awake.
  - unfold discard, modify in E. simplify_eq. apply effect_idle; simpl; try done; right; awake.
  - pose proof (dequeue_spec mv s Hs) as P. destruct (stored s) eqn:Es; [congruence|].
    destruct P as (s1 & E1 & ? & ? & <-). rewrite E1 in E. simplify_eq. apply effect_remove; simpl; done || lia.
  - pose proof (dequeue_spec mv s Hs) as P. destruct (stored s) eqn:Es; [|destruct P as (? & E1 & _); by rewrite E1 in E].
    rewrite P in E. simplify_eq. apply effect_idle; simpl; try done; [left; by rewrite Es|right]. awake.
  - pose proof (dequeue_for_spec mv s b Hs) as P. destruct (stored s) eqn:Es; [by rewrite P in E; destruct b|].
    destruct P as (s1 & E1 & ? & ? & <-). rewrite E1 in E. simplify_eq. apply effect_remove; simpl; done || lia.
  - pose proof (dequeue_for_spec mv s b Hs) as P. destruct (stored s) eqn:Es; [|destruct P as (? & E1 & _); by rewrite E1 in E].
    rewrite P in E. destruct b; simplify_eq. apply effect_idle; simpl; try done; [left; by rewrite Es|right]. awake.
  - pose proof (dequeue_for_spec mv s b Hs) as P. destruct (stored s) eqn:Es; [|destruct P as (? & E1 & _); by rewrite E1 in E].
    rewrite P in E. destruct b; simplify_eq. apply effect_idle; simpl; try done; [left; by rewrite Es|right]. awake.
  - apply effect_idle; simpl; try done; right; awake.
  - apply effect_idle; try done; destruct t, E; simplify_eq/=; right; awake.
  - unfold reset_overrun_counter, on_q, zoom, modify in E. simplify_eq.
    apply effect_idle; simpl; try done; [by apply set_overrun_wf|..]; right; awake.
  - unfold reset_discard_counter, modify in E. simplify_eq.
    apply effect_idle; simpl; try done; right; awake.
Qed.
End effects.

(** ** The invariant of all interleavings *)

(** [wakeful_push]: while a consumer sleeps, every stored item has a thread that
    will fetch it or notify; [wakeful_pop] is the same for free slots. *)
Definition wakeful_push {T} (ts : list (tstate T)) (n : Z) : Prop :=
  Exists sleeps_push ts -> n <= tally to_push ts.
Definition wakeful_pop {T} (ts : list (tstate T)) (n : Z) : Prop :=
  Exists sleeps_pop ts -> n <= tally to_pop ts.

Record inv {T} (n : Z) (c : config T) : Prop := {
  inv_ok : ok (queue c);
  inv_cap : cap (queue c) = n;
  inv_order : popped_log c ++ stored (queue c) `sublist_of` pushed_log c;
  inv_push : wakeful_push (threads c) (zlen (stored (queue c)));
  inv_pop : wakeful_pop (threads c) (n - zlen (stored (queue c))) }.

Section invariant.
Context {T : Type} (mv : T -> T).
Implicit Types (ts : list (tstate T)) (t : tstate T) (w : tstate T -> Z).

Lemma tally_app w ts ts' : tally w (ts ++ ts') = tally w ts + tally w ts'.
Proof. induction ts; simpl; lia. Qed.

Lemma tally_nonneg w ts : (forall t, 0 <= w t) -> 0 <= tally w ts.
Proof. intros H. induction ts as [|t ts]; simpl; [lia|]. specialize (H t). lia. Qed.

Lemma to_push_nonneg t : 0 <= to_push t.
Proof. destruct t; simpl; lia. Qed.
Lemma to_pop_nonneg t : 0 <= to_pop t.
Proof. destruct t; simpl; lia. Qed.

Lemma Exists_mid (P : tstate T -> Prop) ts1 ts2 t t' :
  (P t' -> P t) -> Exists P (ts1 ++ t' :: ts2) -> Exists P (ts1 ++ t :: ts2).
Proof. rewrite !Exists_app, !Exists_cons. tauto. Qed.

(** The general step of both halves: the number of things to do may only grow
    with the weight of the acting thread. *)
Lemma wakeful_mid (P : tstate T -> Prop) w ts1 ts2 t t' n n' :
  (forall t, 0 <= w t) ->
  (Exists P (ts1 ++ t :: ts2) -> n <= tally w (ts1 ++ t :: ts2)) ->
  n' = 0 \/ (P t' -> P t) /\ n' - w t' <= n - w t ->
  Exists P (ts1 ++ t' :: ts2) -> n' <= tally w (ts1 ++ t' :: ts2).
Proof.
  intros Hw H [->|[Hp Hn]] He; [by apply tally_nonneg|].
  specialize (H (Exists_mid _ _ _ _ _ Hp He)). rewrite tally_app in *. simpl in *. lia.
Qed.

Lemma wake_push_weights t t' :
  wake_push t = Some t' ->
  to_push t = 0 /\ to_push t' = 1 /\ ~ sleeps_push t' /\ to_pop t = 0 /\ to_pop t' = 0 /\ ~ sleeps_pop t'.
Proof. destruct t; intros; simplify_eq/=; split_and!; try done; intros [? [=]]. Qed.

Lemma wake_pop_weights t t' :
  wake_pop t = Some t' ->
  to_pop t = 0 /\ to_pop t' = 1 /\ ~ sleeps_pop t' /\ to_push t = 0 /\ to_push t' = 0 /\ ~ sleeps_push t'.
Proof. destruct t; intros; simplify_eq/=; split_and!; try done; intros [? [=]]. Qed.

Lemma notify_push_wakeful ts ts' n :
  notify_one wake_push ts ts' -> (Exists sleeps_push ts -> n <= tally to_push ts + 1) -> wakeful_push ts' n.
Proof.
  intros [ts1 t t' ts2 E|? F] H; intros He.
  - destruct (wake_push_weights _ _ E) as (? & ? & ? & _).
    specialize (H ltac:(apply (Exists_mid _ _ _ t t'); [tauto|done])). rewrite tally_app in *. simpl in *. lia.
  - exfalso. apply Exists_exists in He as (t & Ht & [? E]). rewrite Forall_forall in F. specialize (F _ Ht). congruence.
Qed.

Lemma notify_push_pop ts ts' n : notify_one wake_push ts ts' -> wakeful_pop ts n -> wakeful_pop ts' n.
Proof.
  intros [ts1 t t' ts2 E|? F] H; [|done]. destruct (wake_push_weights _ _ E) as (_ & _ & _ & ? & ? & ?).
  unfold wakeful_pop. apply (wakeful_mid _ to_pop ts1 ts2 t t' n n to_pop_nonneg H). right. split; [done|lia].
Qed.

Lemma notify_pop_wakeful ts ts' n :
  notify_one wake_pop ts ts' -> (Exists sleeps_pop ts -> n <= tally to_pop ts + 1) -> wakeful_pop ts' n.
Proof.
  intros [ts1 t t' ts2 E|? F] H; intros He.
  - destruct (wake_pop_weights _ _ E) as (? & ? & ? & _).
    specialize (H ltac:(apply (Exists_mid _ _ _ t t'); [tauto|done])). rewrite tally_app in *. simpl in *. lia.
  - exfalso. apply Exists_exists in He as (t & Ht & [? E]). rewrite Forall_forall in F. specialize (F _ Ht). congruence.
Qed.

Lemma notify_pop_push ts ts' n : notify_one wake_pop ts ts' -> wakeful_push ts n -> wakeful_push ts' n.
Proof.
  intros [ts1 t t' ts2 E|? F] H; [|done]. destruct (wake_pop_weights _ _ E) as (_ & _ & _ & ? & ? & ?).
  unfold wakeful_push. apply (wakeful_mid _ to_push ts1 ts2 t t' n n to_push_nonneg H). right. split; [done|lia].
Qed.

(** The notifying thread leaves the queue. *)
Lemma leave_wakeful (P : tstate T -> Prop) w ts1 ts2 t n k :
  w Outside = 0 -> ~ P Outside -> w t = k ->
  (Exists P (ts1 ++ t :: ts2) -> n <= tally w (ts1 ++ t :: ts2)) ->
  Exists P (ts1 ++ Outside :: ts2) -> n <= tally w (ts1 ++ Outside :: ts2) + k.
Proof.
  intros H0 Hp Hk H He. specialize (H ltac:(apply (Exists_mid _ _ _ t Outside); [tauto|done])).
  rewrite tally_app in *. simpl in *. lia.
Qed.

Lemma outside_awake : ~ sleeps_push (@Outside T) /\ ~ sleeps_pop (@Outside T).
Proof. split; intros [? [=]]. Qed.

Lemma queue_step_inv n c c' : step mv c c' -> inv n c -> inv n c'.
Proof.
  intros Hstep [Hok Hcap Hord Hpush Hpop]. destruct outside_awake as [O1 O2].
  destruct Hstep as [s ts1 t ts2 t' s' ins outs pin pout Ha|s ts1 ts2 ts' pin pout Hn|s ts1 x ts2 ts' pin pout Hn]; simpl in *.
  - destruct (act_effect _ _ _ _ _ _ _ Ha Hok) as [? Ec Eo _ Eu Ep]. split; simpl; try congruence; try done.
    + rewrite <- app_assoc. etrans; [by apply sublist_app|]. rewrite app_assoc. by apply sublist_app.
    + exact (wakeful_mid _ _ _ _ _ _ _ _ to_push_nonneg Hpush Eu).
    + refine (wakeful_mid _ _ _ _ t _ (n - zlen (stored s)) _ to_pop_nonneg Hpop _).
      rewrite Hcap in *. destruct Ep as [|[? ?]]; [left|right; split; [done|]]; lia.
  - split; try done; simpl.
    + apply (notify_push_wakeful _ _ _ Hn). by apply leave_wakeful with (t := NotifyPush).
    + apply (notify_push_pop _ _ _ Hn). intros He. rewrite <- (Z.add_0_r (tally _ _)).
      by apply (leave_wakeful sleeps_pop to_pop ts1 ts2 NotifyPush).
  - split; try done; simpl.
    + apply (notify_pop_push _ _ _ Hn). intros He. rewrite <- (Z.add_0_r (tally _ _)).
      by apply (leave_wakeful sleeps_push to_push ts1 ts2 (NotifyPop x)).
    + apply (notify_pop_wakeful _ _ _ Hn). by apply leave_wakeful with (t := NotifyPop x).
Qed.

Lemma init_inv (d : T) n k : 0 <= n < 2 ^ 63 - 1 -> inv n (init d n k).
Proof.
  intros Hn. destruct (circular_q_new_wf d n Hn) as [W V].
  pose proof (f_equal capacity V) as Hc. pose proof (f_equal items V) as Hs.
  unfold view in Hc, Hs. cbn [items capacity] in Hc, Hs. split; simpl; unfold stored, cap, wakeful_push, wakeful_pop; cbn [queue threads pushed_log popped_log mpmc_new init q_]; rewrite ?Hs; try done.
  all: intros He; apply Exists_exists in He as (t & Ht & [? E]);
    apply elem_of_replicate in Ht as [-> _]; done.
Qed.

Lemma reachable_inv (d : T) n k c : 0 <= n < 2 ^ 63 - 1 -> rtc (step mv) (init d n k) c -> inv n c.
Proof.
  intros Hn Hr. pose proof (init_inv d n k Hn) as Hi. revert Hi.
  induction Hr as [|? ? ? Hs _ IH]; [done|]. eauto using queue_step_inv.
Qed.
End invariant.

(** ** Progress *)

Definition resting {T} (t : tstate T) : Prop := t = Outside \/ sleeps_push t \/ sleeps_pop t.

Section progress.
Context {T : Type} (mv : T -> T).
Implicit Types (ts : list (tstate T)) (t : tstate T).

Lemma notify_one_total wake ts : exists ts', notify_one wake ts ts'.
Proof.
  destruct (decide (Forall (fun t => wake t = None) ts)) as [F|F].
  - exists ts. by constructor.
  - apply not_Forall_Exists in F; [|apply _]. apply Exists_exists in F as (t & Ht & Hw).
    apply list_elem_of_split in Ht as (ts1 & ts2 & ->).
    destruct (wake t) as [t'|] eqn:E; [|done]. eexists. by econstructor.
Qed.

(** A thread inside a call that does not sleep can act: no critical section is
    undefined and none throws. *)
Lemma running_acts s t :
  ok s -> ~ resting t -> t <> NotifyPush -> (forall x, t <> NotifyPop x) ->
  exists t' s' ins outs, act mv s t t' s' ins outs.
Proof.
  intros Hs Hr Hp Ho. unfold resting, sleeps_push, sleeps_pop in Hr.
  destruct t as [|x|x|x|x| | | | |b| |x]; simpl in Hr; try (exfalso; naive_solver).
  - pose proof (enqueue_spec s x Hs) as P. destruct (_ =? _); [|destruct P as (? & P & _)]; eauto 10 using act.
  - destruct (push_section s x Hs) as (s' & E & _). eauto 10 using act.
  - pose proof (enqueue_if_have_room_spec s x Hs) as P. destruct (_ =? _); [|destruct P as (? & P & _)]; eauto 10 using act.
  - eauto 10 using act.
  - pose proof (dequeue_spec mv s Hs) as P. destruct (stored s); [|destruct P as (? & P & _)]; eauto 10 using act.
  - pose proof (dequeue_for_spec mv s b Hs) as P.
    destruct (stored s); [destruct b|destruct P as (? & P & _)]; eauto 10 using act.
Qed.

Lemma running_steps c t : ok (queue c) -> t ∈ threads c -> ~ resting t -> exists c', step mv c c'.
Proof.
  destruct c as [s ts pin pout]. simpl. intros Hs Ht Hr. apply list_elem_of_split in Ht as (ts1 & ts2 & ->).
  assert (H : (exists x, t = NotifyPop x) \/ forall x, t <> NotifyPop x).
  { destruct t; eauto; by right. }
  destruct H as [[x ->]|Ho].
  - destruct (notify_one_total wake_pop (ts1 ++ Outside :: ts2)) as [ts' Hn]. eexists. by econstructor.
  - assert (H : t = NotifyPush \/ t <> NotifyPush) by (destruct t; auto; by right).
    destruct H as [->|Hp].
    + destruct (notify_one_total wake_push (ts1 ++ Outside :: ts2)) as [ts' Hn]. eexists. by econstructor.
    + destruct (running_acts s t Hs Hr Hp Ho) as (? & ? & ? & ? & Ha). eexists. by econstructor.
Qed.

Lemma tally_resting w ts :
  (forall t, resting t -> w t = 0) -> Forall resting ts -> tally w ts = 0.
Proof. intros Hw. induction 1 as [|t ts Ht _ IH]; simpl; [done|]. rewrite (Hw _ Ht), IH. done. Qed.

Lemma resting_weights t : resting t -> to_push t = 0 /\ to_pop t = 0.
Proof. intros [->|[[t' E]|[t' E]]]; [done| |]; destruct t; simplify_eq/=; done. Qed.
End progress.

(** C13: the threads never miss a wake-up, whatever the interleaving, the number
    of threads, spurious wake-ups and time-outs: a thread inside a call that is
    not asleep can always act, and when no such thread is left, a sleeping
    consumer means that the queue is empty and a sleeping producer that it is
    full; so producers and consumers never block each other. *)
Theorem mpmc_no_lost_wakeup {T} (mv : T -> T) (d : T) (n : Z) (k : nat) (c : config T) :
  0 <= n < 2 ^ 63 - 1 -> rtc (step mv) (init d n k) c ->
  (forall t, t ∈ threads c -> ~ resting t -> exists c', step mv c c') /\
  (Forall resting (threads c) ->
   (Exists sleeps_push (threads c) -> stored (queue c) = []) /\
   (Exists sleeps_pop (threads c) -> zlen (stored (queue c)) = n) /\
   (0 < n -> ~ (Exists sleeps_push (threads c) /\ Exists sleeps_pop (threads c)))).
Proof.
  intros Hn Hr. destruct (reachable_inv mv d n k c Hn Hr) as [Hok Hcap _ Hpush Hpop].
  split; [intros; by eapply running_steps|]. intros HF.
  pose proof (zlen_nonneg (stored (queue c))). pose proof (stored_le_cap _ Hok).
  unfold wakeful_push, wakeful_pop in *.
  rewrite (tally_resting to_push) in Hpush by (done || apply resting_weights).
  rewrite (tally_resting to_pop) in Hpop by (done || apply resting_weights).
  split_and!.
  - intros He. apply zlen_0_inv. specialize (Hpush He). lia.
  - intros He. specialize (Hpop He). lia.
  - intros ? [He He']. specialize (Hpush He). specialize (Hpop He'). lia.
Qed.

(** Runs without [enqueue_nowait]. *)
Definition blocking_step {T} (mv : T -> T) (c c' : config T) : Prop :=
  step mv c c' /\ Forall (fun t => ~ is_nowait t) (threads c).

Lemma blocking_step_exact {T} (mv : T -> T) c c' :
  blocking_step mv c c' -> ok (queue c) ->
  pushed_log c = popped_log c ++ stored (queue c) -> pushed_log c' = popped_log c' ++ stored (queue c').
Proof.
  intros [Hs HF] Hok HE. destruct Hs as [s ts1 t ts2 t' s' ins outs pin pout Ha| |]; simpl in *; try done.
  apply Forall_app in HF as [_ HF]. apply Forall_cons in HF as [Ht _].
  rewrite <- app_assoc, (effect_exact _ _ _ _ _ _ (act_effect _ _ _ _ _ _ _ Ha Hok) Ht), HE. by rewrite app_assoc.
Qed.

(** Items come out in the order in which they went in.  The popped items
    followed by the stored ones are always a subsequence of the pushed items;
    without [enqueue_nowait] they are exactly the pushed items, so nothing is
    lost or duplicated; and the queue never holds more than its capacity. *)
Theorem mpmc_fifo {T} (mv : T -> T) (d : T) (n : Z) (k : nat) (c : config T) :
  0 <= n < 2 ^ 63 - 1 -> rtc (step mv) (init d n k) c ->
  popped_log c ++ stored (queue c) `sublist_of` pushed_log c /\ zlen (stored (queue c)) <= n /\
  (rtc (blocking_step mv) (init d n k) c -> pushed_log c = popped_log c ++ stored (queue c)).
Proof.
  intros Hn Hr. destruct (reachable_inv mv d n k c Hn Hr) as [Hok Hcap Hord _ _].
  split_and!; [done|by rewrite <- Hcap; apply stored_le_cap|]. clear Hr Hok Hcap Hord. intros Hr.
  pose proof (init_inv d n k Hn) as Hi.
  assert (E0 : pushed_log (init d n k) = popped_log (init d n k) ++ stored (queue (init d n k))).
  { simpl. destruct (circular_q_new_wf d n Hn) as [_ V]. symmetry. exact (f_equal items V). }
  revert Hi E0. induction Hr as [|c1 c2 c3 Hb _ IH]; [done|]. intros Hi E0. apply IH.
  - by apply (queue_step_inv mv n c1 c2 (proj1 Hb)).
  - apply (blocking_step_exact mv c1 c2 Hb); [apply Hi|done].
Qed.

(** ** A run of two threads on a queue of one item

    A consumer finds the queue empty and sleeps; a producer enqueues 7 and
    notifies; the consumer wakes and takes it. *)

Definition demo0 : config Z := init 0 1 2.
Definition demo1 : config Z := mkconfig (queue demo0) [SleepDequeue; Outside] [] [].
Definition demo2 : config Z := mkconfig (snd (enqueue 7 (queue demo0))) [InDequeue; Outside] [7] [].
Definition demo3 : config Z := mkconfig (snd (dequeue id (queue demo2))) [NotifyPop 7; Outside] [7] [7].

(** One action of the thread between [ts1] and [ts2]. *)
Lemma demo_act {T} (mv : T -> T) s ts1 t ts2 t' s' ins outs pin pout :
  act mv s t t' s' ins outs -> Forall (fun t => ~ is_nowait t) (ts1 ++ t :: ts2) ->
  blocking_step mv (mkconfig s (ts1 ++ t :: ts2) pin pout) (mkconfig s' (ts1 ++ t' :: ts2) (pin ++ ins) (pout ++ outs)).
Proof. split; [by constructor|done]. Qed.

Ltac no_nowait := simpl; repeat (constructor; [intros []|]); constructor.

Ltac demo_step ts1 t ts2 t' s' ins outs :=
  eapply rtc_l; [apply (demo_act id _ ts1 t ts2 t' s' ins outs); [|no_nowait]|simpl].

Lemma demo_run1 : rtc (blocking_step id) demo0 demo1.
Proof.
  demo_step (@nil (tstate Z)) (@Outside Z) [@Outside Z] (@InDequeue Z) (queue demo0) (@nil Z) (@nil Z); [by constructor|].
  demo_step (@nil (tstate Z)) (@InDequeue Z) [@Outside Z] (@SleepDequeue Z) (queue demo0) (@nil Z) (@nil Z); [by constructor|].
  done.
Qed.

Lemma demo_run2 : rtc (blocking_step id) demo1 demo2.
Proof.
  demo_step [@SleepDequeue Z] (@Outside Z) (@nil (tstate Z)) (InEnqueue 7) (queue demo0) (@nil Z) (@nil Z); [by constructor|].
  demo_step [@SleepDequeue Z] (InEnqueue 7) (@nil (tstate Z)) (@NotifyPush Z) (queue demo2) [7] (@nil Z); [by constructor|].
  eapply rtc_l; [split; [|no_nowait]|done].
  apply (step_notify_push id _ [SleepDequeue] []), (notify_some _ []). done.
Qed.

Lemma demo_run3 : rtc (blocking_step id) demo2 demo3.
Proof.
  demo_step (@nil (tstate Z)) (@InDequeue Z) [@Outside Z] (NotifyPop 7) (queue demo3) (@nil Z) [7]; [by constructor|].
  done.
Qed.

Lemma blocking_step_rtc {T} (mv : T -> T) c c' : rtc (blocking_step mv) c c' -> rtc (step mv) c c'.
Proof. apply rtc_subrel. by intros ? ? [? _]. Qed.

Lemma mpmc_no_lost_wakeup_witness :
  Exists sleeps_push (threads demo1) /\ stored (queue demo1) = [] /\
  exists c', step id demo3 c'.
Proof.
  assert (E : Exists sleeps_push (threads demo1)) by (left; by eexists).
  split; [done|]. split.
  - destruct (mpmc_no_lost_wakeup id 0 1 2 demo1) as [_ P]; [lia|apply blocking_step_rtc, demo_run1|].
    apply P; [|done]. constructor; [right; left; by eexists|]. constructor; [by left|done].
  - destruct (mpmc_no_lost_wakeup id 0 1 2 demo3) as [P _]; [lia| |].
    + apply blocking_step_rtc. etrans; [apply demo_run1|]. etrans; [apply demo_run2|apply demo_run3].
    + apply (P (NotifyPop 7)); [left|]. by intros [?|[[? [=]]|[? [=]]]].
Defined.

Lemma mpmc_fifo_witness : pushed_log demo3 = popped_log demo3 ++ stored (queue demo3) /\ popped_log demo3 = [7].
Proof.
  assert (R : rtc (blocking_step id) (init 0 1 2) demo3).
  { etrans; [apply demo_run1|]. etrans; [apply demo_run2|apply demo_run3]. }
  split; [|done]. destruct (mpmc_fifo id 0 1 2 demo3) as (_ & _ & P); [lia|by apply blocking_step_rtc|by apply P].
Defined.
