(* ===== verification/SpdCommon.v ===== *)
(** * spdlog: levels, messages and the sink interface

    spdlog/common.h and common-inl.h (levels and their names), details/log_msg
    and log_msg_buffer (the message that owns its text), the messages of
    details/thread_pool.h, sinks/sink.h,
    sink-inl.h and base_sink-inl.h (the interface every sink implements).  Texts
    are lists of character codes. *)

From S2P Require Import Prelude Machine.

(** ** Levels *)

Inductive level_enum := trace | debug | info | warn | err | critical | off.

#[export] Instance level_enum_eq_dec : EqDecision level_enum.
Proof. solve_decision. Defined.

(** The underlying [int]. *)
Definition level_int (l : level_enum) : Z :=
  match l with
  | trace => 0 | debug => 1 | info => 2 | warn => 3 | err => 4 | critical => 5 | off => 6
  end.

Definition level_ge (a b : level_enum) : bool := level_int b <=? level_int a.

Definition level_string_views : list (list Z) :=
  [chars "trace"; chars "debug"; chars "info"; chars "warning"; chars "error"; chars "critical"; chars "off"].

Definition short_level_names : list (list Z) :=
  [chars "T"; chars "D"; chars "I"; chars "W"; chars "E"; chars "C"; chars "O"].

(** An array access with an enumerator as index: within the array for every
    named level. *)
Definition to_string_view (l : level_enum) : list Z := nth (Z.to_nat (level_int l)) level_string_views [].
Definition to_short_c_str (l : level_enum) : list Z := nth (Z.to_nat (level_int l)) short_level_names [].

(** [static_cast<level_enum>(n)]. *)
Definition level_of_int (n : Z) : level_enum :=
  match n with 0 => trace | 1 => debug | 2 => info | 3 => warn | 4 => err | 5 => critical | _ => off end.

(** [std::find] with the position of the match. *)
Fixpoint find_index (name : list Z) (l : list (list Z)) : option Z :=
  match l with
  | [] => None
  | x :: l => if bool_decide (x = name) then Some 0 else Z.succ <$> find_index name l
  end.

Definition from_str (name : list Z) : level_enum :=
  match find_index name level_string_views with
  | Some i => level_of_int i
  | None =>
      if bool_decide (name = chars "warn") then warn
      else if bool_decide (name = chars "err") then err
      else off
  end.

(** ** Messages *)

(** [source_loc]: [filename] may be null. *)
Record source_loc := mksource_loc {
  filename : option (list Z);
  line : Z;
  funcname : option (list Z) }.

Definition source_loc_default : source_loc := mksource_loc None 0 None.
Definition source_loc_empty (s : source_loc) : bool := line s <=? 0.

(** [log_msg] over the type [V] of its string views. *)
Record log_msg_ (V : Type) := mklog_msg {
  logger_name : V;
  level : level_enum;
  time : Z;
  thread_id : Z;
  color_range_start : Z;
  color_range_end : Z;
  source : source_loc;
  payload : V }.
Arguments mklog_msg {V}.
Arguments logger_name {V}.
Arguments level {V}.
Arguments time {V}.
Arguments thread_id {V}.
Arguments color_range_start {V}.
Arguments color_range_end {V}.
Arguments source {V}.
Arguments payload {V}.

(** A message whose views point to texts of the caller. *)
Definition log_msg : Type := log_msg_ (list Z).

(** The constructor; [tid] is [os::thread_id()]. *)
Definition log_msg_new (tid log_time : Z) (loc : source_loc) (a_logger_name : list Z)
    (lvl : level_enum) (msg : list Z) : log_msg :=
  mklog_msg a_logger_name lvl log_time tid 0 0 loc msg.

(** [log_msg()]. *)
Definition log_msg_default : log_msg := mklog_msg [] off 0 0 0 0 source_loc_default [].

Definition with_views {V W} (n p : W) (m : log_msg_ V) : log_msg_ W :=
  mklog_msg n (level m) (time m) (thread_id m) (color_range_start m) (color_range_end m) (source m) p.

(** ** Messages that own their text *)

(** A view into the object's own [buffer]: an offset from [buffer.data()] and a
    size. *)
Record log_msg_buffer := mklog_msg_buffer {
  base : log_msg_ (Z * Z);
  buffer : list Z }.

(** [update_string_views], for the sizes the two views have. *)
Definition update_string_views (b : log_msg_buffer) : log_msg_buffer :=
  let name_size := snd (logger_name (base b)) in
  let payload_size := snd (payload (base b)) in
  mklog_msg_buffer (with_views (0, name_size) (name_size, payload_size) (base b)) (buffer b).

(** [log_msg_buffer(const log_msg &)]: the views still point to the original's
    text, of which only the sizes are kept, when [update_string_views] runs. *)
Definition log_msg_buffer_of (orig : log_msg) : log_msg_buffer :=
  let buffer := logger_name orig ++ payload orig in
  update_string_views
    (mklog_msg_buffer (with_views (0, zlen (logger_name orig)) (0, zlen (payload orig)) orig) buffer).

(** What the views of the object show. *)
Definition view_text (v : Z * Z) (buf : list Z) : list Z := slice (fst v) (snd v) buf.
Definition as_log_msg (b : log_msg_buffer) : log_msg :=
  with_views (view_text (logger_name (base b)) (buffer b)) (view_text (payload (base b)) (buffer b)) (base b).

(** The copy constructor appends the texts the copied views show. *)
Definition log_msg_buffer_copy (other : log_msg_buffer) : log_msg_buffer := log_msg_buffer_of (as_log_msg other).

(** The move constructor and both assignments take over the base object and the
    whole buffer. *)
Definition log_msg_buffer_move (other : log_msg_buffer) : log_msg_buffer :=
  update_string_views (mklog_msg_buffer (base other) (buffer other)).
Definition log_msg_buffer_assign (this other : log_msg_buffer) : log_msg_buffer :=
  let b := mklog_msg_buffer (base other) (buffer this) in
  let b := mklog_msg_buffer (base b) [] in
  let b := mklog_msg_buffer (base b) (buffer b ++ buffer other) in
  update_string_views b.
Definition log_msg_buffer_move_assign (this other : log_msg_buffer) : log_msg_buffer :=
  let b := mklog_msg_buffer (base other) (buffer this) in
  update_string_views (mklog_msg_buffer (base b) (buffer other)).

(** [log_msg_buffer()]. *)
Definition log_msg_buffer_default : log_msg_buffer :=
  mklog_msg_buffer (with_views (0, 0) (0, 0) log_msg_default) [].

(** The views cover the buffer, name first. *)
Definition buffer_wf (b : log_msg_buffer) : Prop :=
  let '(no, nn) := logger_name (base b) in
  let '(po, pn) := payload (base b) in
  no = 0 /\ po = nn /\ 0 <= nn /\ 0 <= pn /\ zlen (buffer b) = nn + pn.

(** ** Messages between threads *)

Inductive async_msg_type := async_log | async_flush | async_terminate.
Inductive async_overflow_policy := block | overrun_oldest | discard_new.

#[export] Instance async_msg_type_eq_dec : EqDecision async_msg_type.
Proof. solve_decision. Defined.
#[export] Instance async_overflow_policy_eq_dec : EqDecision async_overflow_policy.
Proof. solve_decision. Defined.

(** [async_msg]: the base class [log_msg_buffer], the type, and the logger the
    message belongs to (loggers are known by a number). *)
Record async_msg := mkasync_msg {
  msg_buffer : log_msg_buffer;
  msg_type : async_msg_type;
  worker_ptr : option Z }.

Definition async_msg_default : async_msg := mkasync_msg log_msg_buffer_default async_log None.
Definition async_msg_with (worker : Z) (the_type : async_msg_type) (m : log_msg) : async_msg :=
  mkasync_msg (log_msg_buffer_of m) the_type (Some worker).
Definition async_msg_without (worker : option Z) (the_type : async_msg_type) : async_msg :=
  mkasync_msg log_msg_buffer_default the_type worker.
Definition async_msg_of_type (the_type : async_msg_type) : async_msg := async_msg_without None the_type.

(** [operator=(async_msg &&)]: the left-hand side, and the right-hand side
    afterwards; [moved_buffer] is what moving leaves of a buffer. *)
Definition async_msg_assign (this other : async_msg) : async_msg :=
  mkasync_msg (log_msg_buffer_move_assign (msg_buffer this) (msg_buffer other)) (msg_type other) (worker_ptr other).
Definition async_msg_moved_from (moved_buffer : log_msg_buffer -> log_msg_buffer) (other : async_msg) : async_msg :=
  mkasync_msg (moved_buffer (msg_buffer other)) (msg_type other) None.

(** ** Sinks *)

(** What a sink's class implements: [log] and [flush] under the sink's mutex,
    and the replacement of its formatter.  [F] is the type of formatters. *)
Class Sink (F S : Type) := {
  sink_it : log_msg -> M S unit;
  flush_it : M S unit;
  put_formatter : F -> S -> S }.

(** [sink]: the level is kept apart from the class' own state. *)
Record sink (S : Type) := mksink {
  level_ : level_enum;
  body : S }.
Arguments mksink {S}.
Arguments level_ {S}.
Arguments body {S}.

Definition sink_new {S} (b : S) : sink S := mksink trace b.
Definition should_log {S} (msg_level : level_enum) (s : sink S) : bool := level_ge msg_level (level_ s).
Definition set_level {S} (log_level : level_enum) (s : sink S) : sink S := mksink log_level (body s).
Definition sink_level {S} (s : sink S) : level_enum := level_ s.

Section base_sink.
Context {F S : Type} `{Sink F S}.

Definition on_body {A} (m : M S A) : M (sink S) A := zoom body (fun b s => mksink (level_ s) b) m.

(** [base_sink::log] and [base_sink::flush]. *)
Definition log (msg : log_msg) : M (sink S) unit := on_body (sink_it msg).
Definition flush : M (sink S) unit := on_body flush_it.
Definition set_formatter (f : F) : M (sink S) unit := on_body (modify (put_formatter f)).
(** [set_pattern]: [make] is the construction of a [pattern_formatter]. *)
Definition set_pattern (make : list Z -> F) (pattern : list Z) : M (sink S) unit := set_formatter (make pattern).
End base_sink.

(** ** Lemmas *)

(** The views of a buffer show what the original views showed. *)
Lemma as_log_msg_of (m : log_msg) : as_log_msg (log_msg_buffer_of m) = m /\ buffer_wf (log_msg_buffer_of m).
Proof.
  destruct m as [n l t i cs ce s p]. unfold as_log_msg, log_msg_buffer_of, buffer_wf, view_text, with_views; simpl.
  rewrite zlen_app. split.
  - f_equal; [by rewrite slice_0, take_zlen_app|].
    pose proof (slice_app_length n p []) as E. by rewrite app_nil_r in E.
  - pose proof (zlen_nonneg n). pose proof (zlen_nonneg p). lia.
Qed.

Lemma update_string_views_wf b : buffer_wf b -> update_string_views b = b.
Proof.
  destruct b as [[[no nn] ? ? ? ? ? ? [po pn]] buf]. unfold buffer_wf; simpl.
  intros (-> & -> & _). done.
Qed.

Lemma level_of_int_level l : level_of_int (level_int l) = l.
Proof. by destruct l. Qed.

(** A message put into a buffer shows the text it had, and keeps showing it
    when the buffer is copied, moved or assigned: the views always point into
    the buffer of the object itself. *)
Theorem log_msg_buffer_keeps_text (m : log_msg) (b this : log_msg_buffer) :
  as_log_msg (log_msg_buffer_of m) = m /\ buffer_wf (log_msg_buffer_of m) /\
  (buffer_wf b ->
   (forall c, c ∈ [log_msg_buffer_copy b; log_msg_buffer_move b; log_msg_buffer_assign this b;
                   log_msg_buffer_move_assign this b] -> as_log_msg c = as_log_msg b /\ buffer_wf c)).
Proof.
  destruct (as_log_msg_of m) as [E W]. split; [done|]. split; [done|]. intros Hb c Hc.
  set_unfold in Hc. destruct Hc as [->|[->|[->|[->|[]]]]].
  - apply as_log_msg_of.
  - unfold log_msg_buffer_move. destruct b. by rewrite update_string_views_wf.
  - unfold log_msg_buffer_assign. simpl. destruct b. by rewrite update_string_views_wf.
  - unfold log_msg_buffer_move_assign. simpl. destruct b. by rewrite update_string_views_wf.
Qed.

Lemma log_msg_buffer_keeps_text_witness :
  let m := log_msg_new 7 0 source_loc_default (chars "net") warn (chars "lost") in
  let b := log_msg_buffer_of m in
  buffer_wf b /\ as_log_msg (log_msg_buffer_move b) = m /\ buffer b = chars "netlost".
Proof.
  cbv zeta. set (m := log_msg_new _ _ _ _ _ _). destruct (log_msg_buffer_keeps_text m (log_msg_buffer_of m) log_msg_buffer_default) as (E & W & P).
  split; [done|]. split; [|reflexivity].
  rewrite <- E at 2. apply P; [done|]. set_solver.
Defined.

(** The name of every level is read back as the level; the two short spellings
    are known, anything else turns logging off. *)
Theorem level_names_roundtrip :
  (forall l, from_str (to_string_view l) = l) /\
  from_str (chars "warn") = warn /\ from_str (chars "err") = err /\
  (forall name, name ∉ level_string_views -> name <> chars "warn" -> name <> chars "err" -> from_str name = off).
Proof.
  split; [by intros []|]. split; [reflexivity|]. split; [reflexivity|].
  intros name Hn Hw He. unfold from_str.
  assert (find_index name level_string_views = None) as ->.
  { induction level_string_views as [|x l IH]; [done|]. simpl. apply not_elem_of_cons in Hn as [? ?].
    by rewrite bool_decide_false, IH by done. }
  by rewrite !bool_decide_false.
Qed.
