(* ===== verification/SpdLogger.v ===== *)
(** * spdlog: backtracer and logger

    details/backtracer-inl.h, logger.h and logger-inl.h.  Sinks are shared
    between loggers, so a logger holds names of sinks and the sinks live in a
    store ([world]) next to what all loggers share: the error reports with the
    static variables of [err_handler_], and the clock.  The virtual methods
    [sink_it_] and [flush_] are the record [vtable]: the methods that call them
    are written against it, [logger_vtable] holds the base class' own. *)

From S2P Require Import Prelude Machine CircularQ SpdCommon.

(** ** backtracer *)

Record backtracer := mkbacktracer {
  enabled_ : bool;
  messages_ : circular_q log_msg_buffer }.

Definition backtracer_default : backtracer := mkbacktracer false circular_q_default.

(** [backtracer(const backtracer &)]. *)
Definition backtracer_copy (other : backtracer) : backtracer := mkbacktracer (enabled_ other) (messages_ other).

(** [backtracer(backtracer &&)]: the new object and what is left of [other]. *)
Definition backtracer_move (rest : list log_msg_buffer) (other : backtracer) : backtracer * backtracer :=
  let '(q, q') := copy_moveable rest (messages_ other) in
  (mkbacktracer (enabled_ other) q, mkbacktracer (enabled_ other) q').

(** [operator=(backtracer other)]: the parameter is an object of its own, whose
    queue is moved into the member. *)
Definition backtracer_assign (rest : list log_msg_buffer) (this other : backtracer) : backtracer :=
  mkbacktracer (enabled_ other) (fst (copy_moveable rest (messages_ other))).

Definition enable (size : Z) (b : backtracer) : backtracer :=
  mkbacktracer true (circular_q_new log_msg_buffer_default size).
Definition disable (b : backtracer) : backtracer := mkbacktracer false (messages_ b).
Definition enabled (b : backtracer) : bool := enabled_ b.
Definition backtracer_empty (b : backtracer) : bool := empty (messages_ b).

Definition on_messages {A} (m : M (circular_q log_msg_buffer) A) : M backtracer A :=
  zoom messages_ (fun q b => mkbacktracer (enabled_ b) q) m.

Definition backtracer_push_back (msg : log_msg) : M backtracer unit :=
  on_messages (push_back (log_msg_buffer_of msg)).

(** ** Shared state *)

Record world (S : Type) := mkworld {
  sinks_at : gmap Z (sink S);
  (** [static std::chrono::system_clock::time_point last_report_time] and
      [static size_t err_counter] of [err_handler_]. *)
  last_report_time : Z;
  err_counter : Z;
  (** Text written to [stderr]. *)
  stderr : list Z;
  (** Calls of custom error handlers: the handler and its argument. *)
  handled : list (Z * list Z);
  (** How many times the clock has been read. *)
  readings : nat;
  (** Whether [thread_pool_.lock()] finds the pool, and the messages the calling
      thread has to put into the pool's queue before it goes on. *)
  pool_alive : bool;
  posts : list (async_msg * async_overflow_policy) }.
Arguments mkworld {S}.
Arguments sinks_at {S}.
Arguments last_report_time {S}.
Arguments err_counter {S}.
Arguments stderr {S}.
Arguments handled {S}.
Arguments readings {S}.
Arguments pool_alive {S}.
Arguments posts {S}.

Definition set_sinks_at {S} (m : gmap Z (sink S)) (w : world S) : world S :=
  mkworld m (last_report_time w) (err_counter w) (stderr w) (handled w) (readings w) (pool_alive w) (posts w).
Definition set_errors {S} (t c : Z) (out : list Z) (w : world S) : world S :=
  mkworld (sinks_at w) t c out (handled w) (readings w) (pool_alive w) (posts w).
Definition set_handled {S} (h : list (Z * list Z)) (w : world S) : world S :=
  mkworld (sinks_at w) (last_report_time w) (err_counter w) (stderr w) h (readings w) (pool_alive w) (posts w).
Definition set_readings {S} (n : nat) (w : world S) : world S :=
  mkworld (sinks_at w) (last_report_time w) (err_counter w) (stderr w) (handled w) n (pool_alive w) (posts w).
Definition set_posts {S} (p : list (async_msg * async_overflow_policy)) (w : world S) : world S :=
  mkworld (sinks_at w) (last_report_time w) (err_counter w) (stderr w) (handled w) (readings w) (pool_alive w) p.
Definition set_pool_alive {S} (b : bool) (w : world S) : world S :=
  mkworld (sinks_at w) (last_report_time w) (err_counter w) (stderr w) (handled w) (readings w) b (posts w).

(** ** logger *)

Record logger := mklogger {
  name_ : list Z;
  sinks_ : list Z;
  level_ : level_enum;
  flush_level_ : level_enum;
  custom_err_handler_ : option Z;
  tracer_ : backtracer }.

Definition logger_new (name : list Z) (sinks : list Z) : logger :=
  mklogger name sinks info off None backtracer_default.

Definition set_level (l : level_enum) (g : logger) : logger :=
  mklogger (name_ g) (sinks_ g) l (flush_level_ g) (custom_err_handler_ g) (tracer_ g).
Definition flush_on (l : level_enum) (g : logger) : logger :=
  mklogger (name_ g) (sinks_ g) (level_ g) l (custom_err_handler_ g) (tracer_ g).
Definition set_error_handler (h : Z) (g : logger) : logger :=
  mklogger (name_ g) (sinks_ g) (level_ g) (flush_level_ g) (Some h) (tracer_ g).
Definition set_tracer (t : backtracer) (g : logger) : logger :=
  mklogger (name_ g) (sinks_ g) (level_ g) (flush_level_ g) (custom_err_handler_ g) t.
Definition set_name (n : list Z) (g : logger) : logger :=
  mklogger n (sinks_ g) (level_ g) (flush_level_ g) (custom_err_handler_ g) (tracer_ g).

Definition logger_level (g : logger) : level_enum := level_ g.
Definition flush_level (g : logger) : level_enum := flush_level_ g.
Definition name (g : logger) : list Z := name_ g.
Definition sinks (g : logger) : list Z := sinks_ g.
Definition logger_should_log (msg_level : level_enum) (g : logger) : bool := level_ge msg_level (level_ g).
Definition should_backtrace (g : logger) : bool := enabled (tracer_ g).

Definition should_flush_ (msg : log_msg) (g : logger) : bool :=
  level_ge (level msg) (flush_level_ g) && negb (bool_decide (level msg = off)).

Definition enable_backtrace (n_messages : Z) (g : logger) : logger := set_tracer (enable n_messages (tracer_ g)) g.
Definition disable_backtrace (g : logger) : logger := set_tracer (disable (tracer_ g)) g.

(** [logger(const logger &)], [swap], [operator=] and [clone].  Vectors that
    were moved from hold [rest]. *)
Definition logger_copy (other : logger) : logger :=
  mklogger (name_ other) (sinks_ other) (level_ other) (flush_level_ other) (custom_err_handler_ other)
    (backtracer_copy (tracer_ other)).

(** [logger(logger &&)]: the new object; [name_], [sinks_] and the handler of
    [other] are left empty. *)
Definition logger_move (rest : list log_msg_buffer) (other : logger) : logger * logger :=
  let '(t, t') := backtracer_move rest (tracer_ other) in
  (mklogger (name_ other) (sinks_ other) (level_ other) (flush_level_ other) (custom_err_handler_ other) t,
   mklogger [] [] (level_ other) (flush_level_ other) None t').

(** [std::swap]: the right-hand sides are rvalues, so the parameter of
    [operator=] is move-constructed. *)
Definition swap_tracers (rest : list log_msg_buffer) (a b : backtracer) : backtracer * backtracer :=
  let '(tmp, a) := backtracer_move rest a in
  let '(param, b) := backtracer_move rest b in
  let a := backtracer_assign rest a param in
  let '(param, tmp) := backtracer_move rest tmp in
  let b := backtracer_assign rest b param in
  (a, b).

Definition swap (rest : list log_msg_buffer) (this other : logger) : logger * logger :=
  let other_level := level_ other in
  let my_level := level_ this in
  let other_flush := flush_level_ other in
  let my_flush := flush_level_ this in
  let '(t, t') := swap_tracers rest (tracer_ this) (tracer_ other) in
  (mklogger (name_ other) (sinks_ other) other_level other_flush (custom_err_handler_ other) t,
   mklogger (name_ this) (sinks_ this) my_level my_flush (custom_err_handler_ this) t').

Definition logger_assign (rest : list log_msg_buffer) (this other : logger) : logger :=
  fst (swap rest this (logger_copy other)).

Definition clone (logger_name : list Z) (g : logger) : logger := set_name logger_name (logger_copy g).

(** A logger and the shared state. *)
Definition env (S : Type) : Type := logger * world S.

Definition on_world {S A} (m : M (world S) A) : M (env S) A := zoom snd (fun w e => (fst e, w)) m.
Definition on_tracer {S A} (m : M backtracer A) : M (env S) A :=
  zoom (fun e => tracer_ (fst e)) (fun t e => (set_tracer t (fst e), snd e)) m.

(** [%04zu]. *)
Definition put_04 (n : Z) : list Z :=
  let digits := chars (pretty n) in replicate (4 - length digits) 48 ++ digits.

(** What a [const char *] function sees of a text. *)
Fixpoint c_str (l : list Z) : list Z :=
  match l with [] => [] | c :: l => if c =? 0 then [] else c :: c_str l end.

(** The virtual methods. *)
Record vtable (S : Type) := mkvtable {
  v_sink_it_ : log_msg -> M (env S) unit;
  v_flush_ : M (env S) unit }.
Arguments mkvtable {S}.
Arguments v_sink_it_ {S}.
Arguments v_flush_ {S}.

Section logger.
Context {F S : Type} `{Sink F S}.
(** The clock (nanoseconds since the epoch, by reading), the id of the calling
    thread, and [strftime] of a local time. *)
Context (clock : nat -> Z) (tid : Z) (strftime : Z -> list Z).

(** [system_clock::now()]. *)
Definition now : M (world S) Z := fun w => (Ok (clock (readings w)), set_readings (Datatypes.S (readings w)) w).

Definition err_handler_ (msg : list Z) : M (env S) unit :=
  let! g := gets fst in
  match custom_err_handler_ g with
  | Some h => on_world (modify (fun w => set_handled (handled w ++ [(h, msg)]) w))
  | None =>
      let! now := on_world now in
      do! on_world (modify (fun w => set_errors (last_report_time w) (size_add (err_counter w) 1) (stderr w) w)) in
      let! w := gets snd in
      if now - last_report_time w <? 1000000000 then ret tt
      else
        on_world (modify (fun w =>
          set_errors now (err_counter w)
            (stderr w ++ chars "[*** LOG ERROR #" ++ put_04 (err_counter w) ++ chars " ***] [" ++ strftime now ++
             chars "] [" ++ c_str (name_ g) ++ chars "] " ++ c_str msg ++ [10]) w))
  end.

(** [SPDLOG_LOGGER_CATCH(location)]. *)
Definition logger_catch (location : source_loc) (e : exn) : M (env S) unit :=
  match filename location with
  | Some f => err_handler_ (c_str (what e) ++ chars " [" ++ f ++ chars "(" ++ chars (pretty (line location)) ++ chars ")]")
  | None => err_handler_ (c_str (what e))
  end.

(** A call through a [sink_ptr]; a null pointer is undefined. *)
Definition with_sink {A} (id : Z) (m : M (sink S) A) : M (env S) A := fun e =>
  match sinks_at (snd e) !! id with
  | Some s => let '(r, s') := m s in (r, (fst e, set_sinks_at (<[id := s']> (sinks_at (snd e))) (snd e)))
  | None => (Undef, e)
  end.

(** The range-for over [sinks_]. *)
Fixpoint for_each (m : Z -> M (env S) unit) (ids : list Z) : M (env S) unit :=
  match ids with [] => ret tt | id :: ids => do! m id in for_each m ids end.

Definition sink_loop_ (msg : log_msg) : M (env S) unit :=
  let! ids := gets (fun e => sinks_ (fst e)) in
  for_each (fun id =>
    let! b := with_sink id (gets (should_log (level msg))) in
    if b then try_catch (with_sink id (log msg)) (logger_catch (source msg)) else ret tt) ids.

(** [sink_it_]; [virtual_flush_] is the [flush_] of the object's class. *)
Definition sink_it_ (virtual_flush_ : M (env S) unit) (msg : log_msg) : M (env S) unit :=
  do! sink_loop_ msg in
  let! g := gets fst in
  if should_flush_ msg g then virtual_flush_ else ret tt.

Definition flush_ : M (env S) unit :=
  let! ids := gets (fun e => sinks_ (fst e)) in
  for_each (fun id => try_catch (with_sink id flush) (logger_catch source_loc_default)) ids.

(** The methods of class [logger] itself. *)
Definition logger_vtable : vtable S :=
  mkvtable (sink_it_ flush_) flush_.

Definition log_it_ (vt : vtable S) (msg : log_msg) (log_enabled traceback_enabled : bool) : M (env S) unit :=
  do! (if log_enabled then v_sink_it_ vt msg else ret tt) in
  if traceback_enabled then on_tracer (backtracer_push_back msg) else ret tt.

(** [log(time, loc, lvl, msg)]. *)
Definition log_at (vt : vtable S) (log_time : Z) (loc : source_loc) (lvl : level_enum) (msg : list Z) : M (env S) unit :=
  let! g := gets fst in
  let log_enabled := logger_should_log lvl g in
  let traceback_enabled := enabled (tracer_ g) in
  if negb log_enabled && negb traceback_enabled then ret tt
  else log_it_ vt (log_msg_new tid log_time loc (name_ g) lvl msg) log_enabled traceback_enabled.

(** [log(loc, lvl, msg)]. *)
Definition log_text (vt : vtable S) (loc : source_loc) (lvl : level_enum) (msg : list Z) : M (env S) unit :=
  let! g := gets fst in
  let log_enabled := logger_should_log lvl g in
  let traceback_enabled := enabled (tracer_ g) in
  if negb log_enabled && negb traceback_enabled then ret tt
  else
    let! t := on_world now in
    log_it_ vt (log_msg_new tid t loc (name_ g) lvl msg) log_enabled traceback_enabled.

(** [log_]: [formatted] is the outcome of [fmt::vformat_to], which is called only
    when the message is wanted. *)
Definition log_ (vt : vtable S) (loc : source_loc) (lvl : level_enum) (formatted : outcome (list Z)) : M (env S) unit :=
  let! g := gets fst in
  let log_enabled := logger_should_log lvl g in
  let traceback_enabled := enabled (tracer_ g) in
  if negb log_enabled && negb traceback_enabled then ret tt
  else
    try_catch
      (let! buf := of_outcome formatted in
       let! t := on_world now in
       log_it_ vt (log_msg_new tid t loc (name_ g) lvl buf) log_enabled traceback_enabled)
      (logger_catch loc).

(** The public overloads: [log(lvl, fmt, args...)], [log(lvl, string_view)],
    [log(loc, lvl, const T &)] for a [T] that is not a format string, and the
    methods named after the levels, with a format or with a value. *)
Definition log_format (vt : vtable S) (lvl : level_enum) (formatted : outcome (list Z)) : M (env S) unit :=
  log_ vt source_loc_default lvl formatted.
Definition log_string (vt : vtable S) (lvl : level_enum) (msg : list Z) : M (env S) unit :=
  log_text vt source_loc_default lvl msg.
Definition log_value (vt : vtable S) (loc : source_loc) (lvl : level_enum) (printed : outcome (list Z)) : M (env S) unit :=
  log_ vt loc lvl printed.

(** [log(lvl, const T &)]: a string goes to the overload for views, any other
    value is printed with [{}]. *)
Definition log_any (vt : vtable S) (lvl : level_enum) (msg : list Z + outcome (list Z)) : M (env S) unit :=
  match msg with
  | inl text => log_string vt lvl text
  | inr printed => log_value vt source_loc_default lvl printed
  end.

Definition log_trace (vt : vtable S) (formatted : outcome (list Z)) : M (env S) unit := log_format vt trace formatted.
Definition log_debug (vt : vtable S) (formatted : outcome (list Z)) : M (env S) unit := log_format vt debug formatted.
Definition log_info (vt : vtable S) (formatted : outcome (list Z)) : M (env S) unit := log_format vt info formatted.
Definition log_warn (vt : vtable S) (formatted : outcome (list Z)) : M (env S) unit := log_format vt warn formatted.
Definition log_error (vt : vtable S) (formatted : outcome (list Z)) : M (env S) unit := log_format vt err formatted.
Definition log_critical (vt : vtable S) (formatted : outcome (list Z)) : M (env S) unit := log_format vt critical formatted.

Definition trace_value (vt : vtable S) (msg : list Z + outcome (list Z)) : M (env S) unit := log_any vt trace msg.
Definition debug_value (vt : vtable S) (msg : list Z + outcome (list Z)) : M (env S) unit := log_any vt debug msg.
Definition info_value (vt : vtable S) (msg : list Z + outcome (list Z)) : M (env S) unit := log_any vt info msg.
Definition warn_value (vt : vtable S) (msg : list Z + outcome (list Z)) : M (env S) unit := log_any vt warn msg.
Definition error_value (vt : vtable S) (msg : list Z + outcome (list Z)) : M (env S) unit := log_any vt err msg.
Definition critical_value (vt : vtable S) (msg : list Z + outcome (list Z)) : M (env S) unit := log_any vt critical msg.

(** [foreach_pop(fun)]: the loop runs at most as often as there are messages. *)
Fixpoint foreach_pop (fuel : nat) (fn : log_msg -> M (env S) unit) : M (env S) unit :=
  match fuel with
  | O => ret tt
  | Datatypes.S fuel =>
      let! e := get in
      if empty (messages_ (tracer_ (fst e))) then ret tt
      else
        let! front_msg := on_tracer (on_messages front) in
        do! fn (as_log_msg front_msg) in
        do! on_tracer (on_messages pop_front) in
        foreach_pop fuel fn
  end.

(** [log_msg{name(), level::info, text}]. *)
Definition info_msg (text : list Z) : M (env S) log_msg :=
  let! g := gets fst in
  let! t := on_world now in
  ret (log_msg_new tid t source_loc_default (name_ g) info text).

Definition backtrace_start : list Z := chars "****************** Backtrace Start ******************".
Definition backtrace_end : list Z := chars "****************** Backtrace End ********************".

Definition dump_backtrace_ (vt : vtable S) : M (env S) unit :=
  let! g := gets fst in
  if enabled (tracer_ g) && negb (backtracer_empty (tracer_ g)) then
    let! m := info_msg backtrace_start in
    do! v_sink_it_ vt m in
    do! foreach_pop (Z.to_nat (size (messages_ (tracer_ g)))) (v_sink_it_ vt) in
    let! m := info_msg backtrace_end in
    v_sink_it_ vt m
  else ret tt.

(** [set_formatter]: a clone for every sink, the last gets the argument. *)
Fixpoint set_formatters (clone : F -> F) (f : F) (ids : list Z) : M (env S) unit :=
  match ids with
  | [] => ret tt
  | [id] => with_sink id (SpdCommon.set_formatter f)
  | id :: ids => do! with_sink id (SpdCommon.set_formatter (clone f)) in set_formatters clone f ids
  end.

Definition set_formatter (clone : F -> F) (f : F) : M (env S) unit :=
  let! ids := gets (fun e => sinks_ (fst e)) in set_formatters clone f ids.

(** [set_pattern]: [make] is the construction of a [pattern_formatter]. *)
Definition set_pattern (clone : F -> F) (make : list Z -> F) (pattern : list Z) : M (env S) unit :=
  set_formatter clone (make pattern).
End logger.

(** ** Failing sinks

    What loggers and sinks owe each other: a sink in a good state may throw but
    has no undefined behaviour and stays in a good state; the logger catches
    what it throws. *)
Class SinkSafe (F S : Type) `{Sink F S} (I : S -> Prop) := {
  sink_it_safe msg s : I s -> fst (sink_it (F:=F) msg s) <> Undef /\ I (snd (sink_it (F:=F) msg s));
  flush_it_safe s : I s -> fst (flush_it (F:=F) s) <> Undef /\ I (snd (flush_it (F:=F) s)) }.

(** What a sink is after a message: it logs the message when its level allows
    it, and is flushed when the logger's flush level is reached. *)
Definition delivered {F S} `{Sink F S} (msg : log_msg) (flushes : bool) (s : sink S) : sink S :=
  let s := if should_log (level msg) s then snd (log (F:=F) msg s) else s in
  if flushes then snd (flush (F:=F) s) else s.

(** All sinks of a list of ids are there and good. *)
Definition sinks_good {S} (I : S -> Prop) (ids : list Z) (w : world S) : Prop :=
  forall id, id ∈ ids -> exists s, sinks_at w !! id = Some s /\ I (body s).

Section isolation.
Context {F S : Type} `{Sink F S} (I : S -> Prop) `{!SinkSafe F S I}.
Context (clock : nat -> Z) (tid : Z) (strftime : Z -> list Z).
Implicit Types (g : logger) (w : world S).

(** Sinks untouched, the logger untouched. *)
Lemma err_handler_ok msg g w :
  exists w', err_handler_ clock strftime msg (g, w) = (Ok tt, (g, w')) /\ sinks_at w' = sinks_at w.
Proof.
  unfold err_handler_, bind, gets, on_world, zoom; simpl. destruct (custom_err_handler_ g); simpl; [by eexists|].
  split_if; by eexists.
Qed.

Lemma logger_catch_ok loc e g w :
  exists w', logger_catch clock strftime loc e (g, w) = (Ok tt, (g, w')) /\ sinks_at w' = sinks_at w.
Proof. unfold logger_catch. destruct (filename loc); apply err_handler_ok. Qed.

(** A guarded call of one sink: no exception gets out, only that sink changes. *)
Lemma guarded_call_ok loc id (m : M (sink S) unit) g w s :
  sinks_at w !! id = Some s -> fst (m s) <> Undef ->
  exists w', try_catch (with_sink id m) (logger_catch clock strftime loc) (g, w) = (Ok tt, (g, w')) /\
    sinks_at w' = <[id := snd (m s)]> (sinks_at w).
Proof.
  intros Hs Hu. unfold try_catch, with_sink; simpl. rewrite Hs. destruct (m s) as [[[]|e|] s']; simpl in *; [|..|done].
  - by eexists.
  - destruct (logger_catch_ok loc e g (set_sinks_at (<[id := s']> (sinks_at w)) w)) as (w' & -> & E). by exists w'.
Qed.

(** A loop whose body updates the sink of its id with [upd]. *)
Lemma for_each_ok (f : Z -> M (env S) unit) (upd : sink S -> sink S) g ids w :
  (forall id w s, sinks_at w !! id = Some s -> I (body s) ->
     exists w', f id (g, w) = (Ok tt, (g, w')) /\ sinks_at w' = <[id := upd s]> (sinks_at w)) ->
  NoDup ids -> sinks_good I ids w ->
  exists w', for_each f ids (g, w) = (Ok tt, (g, w')) /\
    forall id, sinks_at w' !! id = if bool_decide (id ∈ ids) then upd <$> sinks_at w !! id else sinks_at w !! id.
Proof.
  intros Hf. revert w. induction ids as [|i ids IH]; intros w Hd Hg.
  - exists w. split; [done|]. intros id. by rewrite bool_decide_false by set_solver.
  - apply NoDup_cons in Hd as [Hi Hd]. destruct (Hg i) as (s & Hs & Is); [set_solver|].
    destruct (Hf i w s Hs Is) as (w1 & E1 & S1). destruct (IH w1 Hd) as (w2 & E2 & S2).
    { intros id Hid. destruct (Hg id) as (s' & ? & ?); [set_solver|]. exists s'.
      rewrite S1, lookup_insert_ne by set_solver. done. }
    exists w2. simpl. unfold bind. rewrite E1. split; [done|]. intros id. rewrite S2, S1.
    destruct (decide (id = i)) as [->|Hne].
    + by rewrite (bool_decide_false _ Hi), lookup_insert_eq, Hs, bool_decide_true by set_solver.
    + rewrite lookup_insert_ne by done.
      destruct (decide (id ∈ ids)); [rewrite !bool_decide_true|rewrite !bool_decide_false]; set_solver.
Qed.

Lemma sink_loop_ok msg g w :
  NoDup (sinks_ g) -> sinks_good I (sinks_ g) w ->
  exists w', sink_loop_ (F:=F) clock strftime msg (g, w) = (Ok tt, (g, w')) /\
    forall id, sinks_at w' !! id =
      if bool_decide (id ∈ sinks_ g) then delivered (F:=F) msg false <$> sinks_at w !! id else sinks_at w !! id.
Proof.
  intros Hd Hg. unfold sink_loop_, bind, gets. simpl. apply for_each_ok; [|done..].
  intros id w1 s Hs Is. unfold with_sink at 1, delivered; simpl. rewrite Hs.
  rewrite insert_id by done. destruct (should_log (level msg) s).
  - destruct (guarded_call_ok (source msg) id (log (F:=F) msg) g (set_sinks_at (sinks_at w1) w1) s) as (w' & -> & E);
      [done| |by exists w'].
    unfold log, on_body, zoom. destruct (sink_it_safe msg (body s) Is) as [P _]. by destruct (sink_it msg (body s)).
  - exists w1. rewrite insert_id by done. by destruct w1.
Qed.

Lemma flush_ok g w :
  NoDup (sinks_ g) -> sinks_good I (sinks_ g) w ->
  exists w', flush_ (F:=F) clock strftime (g, w) = (Ok tt, (g, w')) /\
    forall id, sinks_at w' !! id =
      if bool_decide (id ∈ sinks_ g) then (fun s => snd (flush (F:=F) s)) <$> sinks_at w !! id else sinks_at w !! id.
Proof.
  intros Hd Hg. unfold flush_, bind, gets. simpl.
  apply (for_each_ok _ (fun s => snd (flush (F:=F) s))); [|done..]. intros id w1 s Hs Is.
  apply guarded_call_ok; [done|]. unfold flush, on_body, zoom.
  destruct (flush_it_safe (body s) Is) as [P _]. by destruct (flush_it (body s)).
Qed.

Lemma delivered_good msg fl s : I (body s) -> I (body (delivered (F:=F) msg fl s)).
Proof.
  intros Is. assert (I (body (if should_log (level msg) s then snd (log (F:=F) msg s) else s))) as I1.
  { split_if; [|done]. unfold log, on_body, zoom. destruct (sink_it_safe msg (body s) Is) as [_ P].
    by destruct (sink_it msg (body s)). }
  unfold delivered. destruct fl; [|done]. set (s1 := if should_log _ _ then _ else _) in *.
  unfold flush, on_body, zoom. destruct (flush_it_safe (body s1) I1) as [_ P]. by destruct (flush_it (body s1)).
Qed.

Lemma sink_it_ok msg g w :
  NoDup (sinks_ g) -> sinks_good I (sinks_ g) w ->
  exists w', sink_it_ (F:=F) clock strftime (flush_ (F:=F) clock strftime) msg (g, w) = (Ok tt, (g, w')) /\
    forall id, sinks_at w' !! id =
      if bool_decide (id ∈ sinks_ g) then delivered (F:=F) msg (should_flush_ msg g) <$> sinks_at w !! id
      else sinks_at w !! id.
Proof.
  intros Hd Hg. destruct (sink_loop_ok msg g w Hd Hg) as (w1 & E1 & S1).
  unfold sink_it_, bind. rewrite E1. unfold gets; simpl. destruct (should_flush_ msg g); [|by exists w1].
  destruct (flush_ok g w1 Hd) as (w2 & E2 & S2).
  { intros id Hid. destruct (Hg id Hid) as (s & Hs & Is). eexists. rewrite S1, bool_decide_true, Hs by done.
    split; [done|]. by apply delivered_good. }
  exists w2. split; [done|]. intros id. rewrite S2, S1. split_if; [|done]. by destruct (sinks_at w !! id).
Qed.
End isolation.

(** The queue of an enabled backtrace is a ring. *)
Definition tracer_good (b : backtracer) : Prop := enabled b = true -> wf (messages_ b).

(** The messages of a backtrace as a bounded list. *)
Definition trace_push (msg : log_msg) (b : backtracer) : ring log_msg_buffer :=
  if enabled b then ring_push (log_msg_buffer_of msg) (view (messages_ b)) else view (messages_ b).

Section logging.
Context {F S : Type} `{Sink F S} (I : S -> Prop) `{!SinkSafe F S I}.
Context (clock : nat -> Z) (tid : Z) (strftime : Z -> list Z).
Implicit Types (g : logger) (w : world S).

Lemma set_tracer_id g : set_tracer (tracer_ g) g = g.
Proof. by destruct g. Qed.

Lemma trace_step_ok msg g w :
  tracer_good (tracer_ g) ->
  exists t, (if enabled (tracer_ g) then on_tracer (backtracer_push_back msg) else ret tt) (g, w)
            = (Ok tt, (set_tracer t g, w)) /\
    tracer_good t /\ enabled t = enabled (tracer_ g) /\ view (messages_ t) = trace_push msg (tracer_ g).
Proof.
  unfold tracer_good, trace_push. intros Ht. destruct (enabled (tracer_ g)) eqn:En.
  - destruct (push_back_ok (messages_ (tracer_ g)) (log_msg_buffer_of msg) (Ht eq_refl)) as (q & E & W & V).
    exists (mkbacktracer (enabled_ (tracer_ g)) q).
    unfold on_tracer, backtracer_push_back, on_messages, zoom. simpl. by rewrite E.
  - exists (tracer_ g). rewrite set_tracer_id, En. by split_and!.
Qed.

Lemma log_it_ok msg en g w :
  NoDup (sinks_ g) -> sinks_good I (sinks_ g) w -> tracer_good (tracer_ g) ->
  exists t w', log_it_ (logger_vtable (F:=F) clock strftime) msg en (enabled (tracer_ g)) (g, w)
      = (Ok tt, (set_tracer t g, w')) /\
    (forall id, sinks_at w' !! id =
       if en && bool_decide (id ∈ sinks_ g) then delivered (F:=F) msg (should_flush_ msg g) <$> sinks_at w !! id
       else sinks_at w !! id) /\
    tracer_good t /\ view (messages_ t) = trace_push msg (tracer_ g).
Proof.
  intros Hd Hg Ht. unfold log_it_, bind. destruct en; simpl.
  - destruct (sink_it_ok (F:=F) I clock strftime msg g w Hd Hg) as (w' & E & P). rewrite E.
    destruct (trace_step_ok msg g w' Ht) as (t & -> & ? & _ & ?). by exists t, w'.
  - destruct (trace_step_ok msg g w Ht) as (t & -> & ? & _ & ?). by exists t, w.
Qed.
End logging.

(** [logger::log] contains every failure.  A message below the logger's level
    is not even formatted.  A message at or above it reaches each of the
    logger's sinks exactly once, whatever the other sinks throw, and no other
    sink; a sink below its own level ignores it; all sinks are flushed at the
    flush level.  An exception of the formatting reaches no sink.  No exception
    reaches the caller, and the backtrace keeps the newest messages. *)
Theorem logger_isolates_sinks {F S} `{Sink F S} (I : S -> Prop) `{!SinkSafe F S I} clock tid strftime
    (g : logger) (w : world S) loc lvl (text : list Z) (e : exn) :
  NoDup (sinks_ g) -> sinks_good I (sinks_ g) w -> tracer_good (tracer_ g) ->
  let vt := logger_vtable (F:=F) clock strftime in
  let msg := log_msg_new tid (clock (readings w)) loc (name_ g) lvl text in
  (logger_should_log lvl g = false -> should_backtrace g = false ->
     forall r, log_ clock tid strftime vt loc lvl r (g, w) = (Ok tt, (g, w))) /\
  (logger_should_log lvl g = true \/ should_backtrace g = true ->
     (exists t w', log_ clock tid strftime vt loc lvl (Ok text) (g, w) = (Ok tt, (set_tracer t g, w')) /\
        (forall id, sinks_at w' !! id =
           if logger_should_log lvl g && bool_decide (id ∈ sinks_ g)
           then delivered (F:=F) msg (should_flush_ msg g) <$> sinks_at w !! id else sinks_at w !! id) /\
        tracer_good t /\ view (messages_ t) = trace_push msg (tracer_ g)) /\
     (exists w', log_ clock tid strftime vt loc lvl (Throw e) (g, w) = (Ok tt, (g, w')) /\
        sinks_at w' = sinks_at w)).
Proof.
  intros Hd Hg Ht vt msg. unfold log_, bind at 1 4 7, gets. simpl. unfold should_backtrace. split.
  - by intros -> ->.
  - intros Hen.
    assert (negb (logger_should_log lvl g) && negb (enabled (tracer_ g)) = false) as ->
      by (destruct Hen as [->| ->]; [done|by rewrite andb_false_r]).
    split.
    + destruct (log_it_ok (F:=F) I clock strftime msg (logger_should_log lvl g) g
                  (set_readings (Datatypes.S (readings w)) w) Hd Hg Ht) as (t & w' & E & P & ? & ?).
      exists t, w'. split; [|done]. apply try_catch_ok. exact E.
    + destruct (logger_catch_ok clock strftime loc e g w) as (w' & E & ?). exists w'. split; [|done].
      unfold try_catch. exact E.
Qed.

(** ** The backtrace *)

(** A sink after a list of messages. *)
Definition delivered_all {F S} `{Sink F S} (g : logger) (msgs : list log_msg) (s : sink S) : sink S :=
  foldl (fun s m => delivered (F:=F) m (should_flush_ m g) s) s msgs.

(** Every sink of the logger went through [msgs], no other changed. *)
Definition deliveries {F S} `{Sink F S} (g : logger) (msgs : list log_msg) (w w' : world S) : Prop :=
  forall id, sinks_at w' !! id =
    if bool_decide (id ∈ sinks_ g) then delivered_all (F:=F) g msgs <$> sinks_at w !! id else sinks_at w !! id.

Section backtrace.
Context {F S : Type} `{Sink F S} (I : S -> Prop) `{!SinkSafe F S I}.
Context (clock : nat -> Z) (tid : Z) (strftime : Z -> list Z).
Implicit Types (g : logger) (w : world S).

Lemma delivered_all_good g msgs s : I (body s) -> I (body (delivered_all (F:=F) g msgs s)).
Proof.
  unfold delivered_all. revert s. induction msgs as [|m msgs IH]; [done|]. intros s Is. simpl.
  apply IH. by apply delivered_good.
Qed.

Lemma deliveries_good g msgs w w' :
  deliveries (F:=F) g msgs w w' -> sinks_good I (sinks_ g) w -> sinks_good I (sinks_ g) w'.
Proof.
  intros Hd Hg id Hid. destruct (Hg id Hid) as (s & Hs & Is). exists (delivered_all (F:=F) g msgs s).
  rewrite (Hd id), bool_decide_true, Hs by done. eauto using delivered_all_good.
Qed.

Lemma deliveries_nil g w : deliveries (F:=F) g [] w w.
Proof. intros id. destruct (bool_decide _); [|done]. by destruct (sinks_at w !! id). Qed.

Lemma deliveries_trans g ms1 ms2 w1 w2 w3 :
  deliveries (F:=F) g ms1 w1 w2 -> deliveries (F:=F) g ms2 w2 w3 -> deliveries (F:=F) g (ms1 ++ ms2) w1 w3.
Proof.
  intros D1 D2 id. rewrite (D2 id), (D1 id). unfold delivered_all. destruct (bool_decide _); [|done].
  destruct (sinks_at w1 !! id); [|done]. simpl. by rewrite foldl_app.
Qed.

(** One message through [sink_it_], for a logger with any backtrace. *)
Lemma sink_one m t g w :
  NoDup (sinks_ g) -> sinks_good I (sinks_ g) w ->
  exists w', v_sink_it_ (logger_vtable (F:=F) clock strftime) m (set_tracer t g, w) = (Ok tt, (set_tracer t g, w')) /\
    deliveries (F:=F) g [m] w w'.
Proof. intros Hd Hg. exact (sink_it_ok (F:=F) I clock strftime m (set_tracer t g) w Hd Hg). Qed.

Lemma on_tracer_run {A} (m : M (circular_q log_msg_buffer) A) t g w r q :
  m (messages_ t) = (r, q) ->
  on_tracer (on_messages m) (set_tracer t g, w) = (r, (set_tracer (mkbacktracer (enabled_ t) q) g, w)).
Proof. intros E. unfold on_tracer, on_messages, zoom. cbn [fst snd tracer_ set_tracer]. by rewrite E. Qed.

Lemma foreach_pop_ok fuel t g w :
  NoDup (sinks_ g) -> sinks_good I (sinks_ g) w -> wf (messages_ t) -> (length (contents (messages_ t)) <= fuel)%nat ->
  exists t' w', foreach_pop fuel (v_sink_it_ (logger_vtable (F:=F) clock strftime)) (set_tracer t g, w)
      = (Ok tt, (set_tracer t' g, w')) /\
    deliveries (F:=F) g (map as_log_msg (contents (messages_ t))) w w' /\
    contents (messages_ t') = [] /\ wf (messages_ t') /\ enabled_ t' = enabled_ t.
Proof.
  intros Hd. revert t w. induction fuel as [|fuel IH]; intros t w Hg Wt Hlen.
  - assert (E : contents (messages_ t) = []) by (destruct (contents (messages_ t)); [done|simpl in Hlen; lia]).
    exists t, w. rewrite E. split_and!; try done. apply deliveries_nil.
  - destruct (contents (messages_ t)) as [|b l] eqn:Ec.
    { exists t, w. simpl. unfold bind, get. simpl. rewrite (empty_contents _ Wt), Ec.
      split_and!; try done. apply deliveries_nil. }
    simpl in Hlen. pose proof (front_ok _ _ _ Wt Ec) as Ef.
    destruct (pop_front_ok _ Wt) as (q1 & E1 & W1 & V1); [by rewrite Ec|].
    destruct (sink_one (as_log_msg b) t g w Hd Hg) as (w1 & S1 & D1).
    assert (C1 : contents q1 = l) by (apply (f_equal items) in V1; simpl in V1; by rewrite V1, Ec).
    destruct (IH (mkbacktracer (enabled_ t) q1) w1) as (t' & w' & E' & D' & ? & ? & ?); simpl; [by eapply deliveries_good|done|rewrite C1; lia|].
    exists t', w'. split.
    + cbn [foreach_pop]. bind_step by reflexivity. cbn [fst tracer_ set_tracer].
      rewrite (empty_contents _ Wt), Ec, bool_decide_false by done.
      bind_step by (apply on_tracer_run, Ef). replace (mkbacktracer (enabled_ t) (messages_ t)) with t by (by destruct t).
      bind_step by exact S1. bind_step by (apply on_tracer_run, E1). exact E'.
    + split_and!; try done. simpl in D'. rewrite C1 in D'.
      exact (deliveries_trans g [as_log_msg b] (map as_log_msg l) w w1 w' D1 D').
Qed.
End backtrace.

(** Dumping the backtrace writes, to every sink of the logger and whatever its
    level, the start marker, the stored messages oldest first and the end
    marker, and leaves the backtrace empty and enabled; with nothing stored or
    the backtrace off it does nothing. *)
Theorem backtrace_dump {F S} `{Sink F S} (I : S -> Prop) `{!SinkSafe F S I} clock tid strftime
    (g : logger) (w : world S) :
  NoDup (sinks_ g) -> sinks_good I (sinks_ g) w -> tracer_good (tracer_ g) ->
  let vt := logger_vtable (F:=F) clock strftime in
  let stored := contents (messages_ (tracer_ g)) in
  if enabled (tracer_ g) && negb (bool_decide (stored = [])) then
    exists t1 t2 t w', dump_backtrace_ clock tid vt (g, w) = (Ok tt, (set_tracer t g, w')) /\
      deliveries (F:=F) g
        ([log_msg_new tid t1 source_loc_default (name_ g) info backtrace_start] ++ map as_log_msg stored ++
         [log_msg_new tid t2 source_loc_default (name_ g) info backtrace_end]) w w' /\
      contents (messages_ t) = [] /\ enabled t = true
  else dump_backtrace_ clock tid vt (g, w) = (Ok tt, (g, w)).
Proof.
  intros Hd Hg Ht vt stored. unfold dump_backtrace_. bind_step by reflexivity. cbn [fst]. unfold backtracer_empty.
  destruct (enabled (tracer_ g)) eqn:En; [|done]. specialize (Ht En). rewrite (empty_contents _ Ht).
  fold stored. destruct (bool_decide (stored = [])); [done|]. cbn [andb negb].
  set (m1 := log_msg_new tid (clock (readings w)) source_loc_default (name_ g) info backtrace_start).
  bind_step by reflexivity. fold m1.
  set (w0 := set_readings (Datatypes.S (readings w)) w).
  destruct (sink_one (F:=F) I clock strftime m1 (tracer_ g) g w0 Hd Hg) as (w1 & E1 & D1). rewrite set_tracer_id in E1.
  rewrite (bind_ok _ _ _ _ _ E1).
  pose proof (deliveries_good (F:=F) I g _ _ _ D1 Hg) as G1.
  destruct (foreach_pop_ok (F:=F) I clock strftime (Z.to_nat (size (messages_ (tracer_ g)))) (tracer_ g) g w1 Hd G1 Ht)
    as (t & w2 & E2 & D2 & C2 & W2 & N2).
  { rewrite <- (zlen_contents _ Ht). unfold zlen. lia. }
  rewrite set_tracer_id in E2. rewrite (bind_ok _ _ _ _ _ E2).
  set (m2 := log_msg_new tid (clock (readings w2)) source_loc_default (name_ g) info backtrace_end).
  bind_step by reflexivity. fold m2.
  destruct (sink_one (F:=F) I clock strftime m2 t g (set_readings (Datatypes.S (readings w2)) w2) Hd) as (w3 & E3 & D3).
  { exact (deliveries_good (F:=F) I g _ _ _ D2 G1). }
  exists (clock (readings w)), (clock (readings w2)), t, w3. split; [exact E3|].
  split; [|split; [done|unfold enabled in *; congruence]].
  apply (deliveries_trans g _ _ w w1); [exact D1|]. apply (deliveries_trans g _ _ w1 w2); [exact D2|exact D3].
Qed.

(** [swap] exchanges the two loggers, backtraces included. *)
Lemma swap_exchanges rest a b : swap rest a b = (b, a).
Proof. by destruct a as [? ? ? ? ? [? []]], b as [? ? ? ? ? [? []]]. Qed.

Lemma logger_assign_copies rest a b : logger_assign rest a b = b.
Proof. unfold logger_assign. rewrite swap_exchanges. by destruct b as [? ? ? ? ? []]. Qed.

(** ** An instance: sinks that record the payloads, some of which are broken *)

Module Demo.
Record recorder := mkrecorder { broken : bool; got : list (list Z) }.

#[global] Instance recorder_sink : Sink unit recorder := {
  sink_it msg r := if broken r then (Throw (runtime_error "disk full"), r)
                   else (Ok tt, mkrecorder false (got r ++ [payload msg]));
  flush_it r := (Ok tt, r);
  put_formatter _ r := r }.

#[global] Instance recorder_safe : SinkSafe unit recorder (fun _ => True).
Proof. split; intros; simpl; [split_if|]; done. Qed.

Definition demo_logger : logger := logger_new (chars "net") [1; 2].
Definition demo_world : world recorder :=
  mkworld {[1 := sink_new (mkrecorder true []); 2 := sink_new (mkrecorder false [])]} 0 0 [] [] 0 true [].
Definition demo_clock (n : nat) : Z := 5000000000 + Z.of_nat n.
End Demo.

(** The first sink throws, the second gets the message all the same. *)
Lemma logger_isolates_sinks_witness :
  exists t w', log_ Demo.demo_clock 1 (fun _ => []) (logger_vtable (F:=unit) Demo.demo_clock (fun _ => []))
      source_loc_default warn (Ok (chars "lost")) (Demo.demo_logger, Demo.demo_world)
      = (Ok tt, (set_tracer t Demo.demo_logger, w')) /\
    sinks_at w' !! 2 = Some (sink_new (Demo.mkrecorder false [chars "lost"])).
Proof.
  destruct (logger_isolates_sinks (F:=unit) (fun _ => True) Demo.demo_clock 1 (fun _ => [])
    Demo.demo_logger Demo.demo_world source_loc_default warn (chars "lost") (runtime_error "")) as [_ P].
  - apply (bool_decide_unpack _). vm_compute. done.
  - intros id Hid. assert (id = 1 \/ id = 2) as [->| ->] by (revert Hid; simpl; set_solver);
      eexists; (split; [reflexivity|done]).
  - intros [=].
  - destruct P as [(t & w' & E & Q & _) _]; [left; reflexivity|]. exists t, w'. split; [exact E|].
    rewrite Q. reflexivity.
Defined.

(** A backtrace of two messages of a logger whose level is [warn]. *)
Definition demo_traced : logger :=
  let m (t : list Z) := log_msg_new 1 0 source_loc_default (chars "net") debug t in
  fst (snd (on_tracer (S:=Demo.recorder)
         (do! backtracer_push_back (m (chars "a")) in backtracer_push_back (m (chars "b")))
         (enable_backtrace 2 (set_level warn Demo.demo_logger), Demo.demo_world))).

Lemma backtrace_dump_witness :
  exists t w', dump_backtrace_ Demo.demo_clock 1 (logger_vtable (F:=unit) Demo.demo_clock (fun _ => []))
      (demo_traced, Demo.demo_world) = (Ok tt, (set_tracer t demo_traced, w')) /\
    sinks_at w' !! 2 = Some (sink_new (Demo.mkrecorder false [backtrace_start; chars "a"; chars "b"; backtrace_end])).
Proof.
  pose proof (backtrace_dump (F:=unit) (fun _ => True) Demo.demo_clock 1 (fun _ => []) demo_traced Demo.demo_world) as P.
  destruct P as (t1 & t2 & t & w' & E & D & _).
  - apply (bool_decide_unpack _). vm_compute. done.
  - intros id Hid. assert (id = 1 \/ id = 2) as [->| ->] by (revert Hid; simpl; set_solver);
      eexists; (split; [reflexivity|done]).
  - intros _. unfold wf, size_max. vm_compute. split_and!; done.
  - exists t, w'. split; [exact E|]. rewrite (D 2). reflexivity.
Defined.
