(* ===== verification/ThreadPool.v ===== *)
(** * spdlog: thread pool and asynchronous logger

    details/thread_pool-inl.h and async_logger-inl.h.  A client thread that logs
    through an [async_logger] puts a message into the pool's queue; worker
    threads take messages out and hand them to the logger's sinks; the pool's
    destructor posts one [terminate] message per worker and joins them.
    [step] interleaves clients, workers and the destructor.  The program uses a
    queue of 8192 messages, one worker and the policy [block]. *)

From S2P Require Import Prelude Machine CircularQ MpmcQueue SpdCommon SpdLogger.

(** ** async_logger *)

Record async_logger := mkasync_logger {
  as_logger : logger;
  overflow_policy_ : async_overflow_policy }.

Definition async_logger_new (name : list Z) (sinks : list Z) (overflow_policy : async_overflow_policy) : async_logger :=
  mkasync_logger (logger_new name sinks) overflow_policy.

(** [clone]: the copy keeps the pool and the policy. *)
Definition async_clone (new_name : list Z) (a : async_logger) : async_logger :=
  mkasync_logger (set_name new_name (logger_copy (as_logger a))) (overflow_policy_ a).

(** [post_log] and [post_flush], up to the queue. *)
Definition post_log (worker : Z) (msg : log_msg) (policy : async_overflow_policy) : async_msg * async_overflow_policy :=
  (async_msg_with worker async_log msg, policy).
Definition post_flush (worker : Z) (policy : async_overflow_policy) : async_msg * async_overflow_policy :=
  (async_msg_without (Some worker) async_flush, policy).

Section async_logger.
Context {F S : Type} `{Sink F S}.
Context (clock : nat -> Z) (tid : Z) (strftime : Z -> list Z).

(** The call of the pool: the message is queued when the thread gets to it. *)
Definition to_pool (p : async_msg * async_overflow_policy) : M (env S) unit :=
  on_world (modify (fun w => set_posts (posts w ++ [p]) w)).

(** [sink_it_] and [flush_] of the logger with number [self]. *)
Definition async_sink_it_ (self : Z) (policy : async_overflow_policy) (msg : log_msg) : M (env S) unit :=
  try_catch
    (let! alive := gets (fun e => pool_alive (snd e)) in
     if alive : bool then to_pool (post_log self msg policy)
     else throw (spdlog_ex (chars "async log: thread pool doesn't exist anymore")))
    (logger_catch clock strftime (source msg)).

Definition async_flush_ (self : Z) (policy : async_overflow_policy) : M (env S) unit :=
  try_catch
    (let! alive := gets (fun e => pool_alive (snd e)) in
     if alive : bool then to_pool (post_flush self policy)
     else throw (spdlog_ex (chars "async flush: thread pool doesn't exist anymore")))
    (logger_catch clock strftime source_loc_default).

Definition async_vtable (self : Z) (policy : async_overflow_policy) : vtable S :=
  mkvtable (async_sink_it_ self policy) (async_flush_ self policy).

Definition backend_flush_ : M (env S) unit :=
  let! ids := gets (fun e => sinks_ (fst e)) in
  for_each (fun id => try_catch (with_sink id flush) (logger_catch clock strftime source_loc_default)) ids.

Definition backend_sink_it_ (msg : log_msg) : M (env S) unit :=
  let! ids := gets (fun e => sinks_ (fst e)) in
  do! for_each (fun id =>
    let! b := with_sink id (gets (should_log (level msg))) in
    if b : bool then try_catch (with_sink id (log msg)) (logger_catch clock strftime (source msg)) else ret tt) ids in
  let! g := gets fst in
  if should_flush_ msg g then backend_flush_ else ret tt.
End async_logger.

(** ** thread_pool *)

(** The constructor's checks: the queue and the number of workers. *)
Definition thread_pool_new (q_max_items threads_n : Z) : outcome (mpmc_blocking_queue async_msg * nat) :=
  if (threads_n =? 0) || (1000 <? threads_n)
  then Throw (spdlog_ex (chars "spdlog::thread_pool(): invalid threads_n param (valid range is 1-1000)"))
  else Ok (mpmc_new async_msg_default q_max_items, Z.to_nat threads_n).

Definition post_async_msg_ (new_msg : async_msg) (overflow_policy : async_overflow_policy)
  : M (mpmc_blocking_queue async_msg) (section_end unit) :=
  if bool_decide (overflow_policy = block) then enqueue new_msg
  else if bool_decide (overflow_policy = overrun_oldest) then
    do! enqueue_nowait new_msg in ret (Leaves tt)
  else
    let! pushed := enqueue_if_have_room new_msg in
    do! (if pushed : bool then ret tt else discard) in ret (Leaves tt).

Definition queue_size (q : mpmc_blocking_queue async_msg) : Z := MpmcQueue.size q.
Definition pool_overrun_counter (q : mpmc_blocking_queue async_msg) : Z := MpmcQueue.overrun_counter q.
Definition pool_reset_overrun_counter : M (mpmc_blocking_queue async_msg) unit := MpmcQueue.reset_overrun_counter.
Definition pool_discard_counter (q : mpmc_blocking_queue async_msg) : Z := MpmcQueue.discard_counter q.
Definition pool_reset_discard_counter : M (mpmc_blocking_queue async_msg) unit := MpmcQueue.reset_discard_counter.

Section thread_pool.
Context {F S : Type} `{Sink F S}.
Context (clock : nat -> Z) (strftime : Z -> list Z) (moved_buffer : log_msg_buffer -> log_msg_buffer).

(** [q_.dequeue(incoming_async_msg)]. *)
Definition next_msg : M (mpmc_blocking_queue async_msg) (section_end async_msg) :=
  let! r := dequeue (async_msg_moved_from moved_buffer) in
  match r with
  | Leaves m => ret (Leaves (async_msg_assign async_msg_default m))
  | Waits => ret Waits
  end.

(** A call through [worker_ptr]; a null pointer is undefined. *)
Definition on_worker (loggers : gmap Z async_logger) (worker : option Z) (m : M (env S) unit) : M (world S) unit := fun w =>
  match worker with
  | Some a =>
      match loggers !! a with
      | Some l => let '(r, e) := m (as_logger l, w) in (r, snd e)
      | None => (Undef, w)
      end
  | None => (Undef, w)
  end.

(** The switch of [process_next_msg_]: whether the worker goes on. *)
Definition process_msg (loggers : gmap Z async_logger) (incoming : async_msg) : M (world S) bool :=
  match msg_type incoming with
  | async_log =>
      do! on_worker loggers (worker_ptr incoming) (backend_sink_it_ (F:=F) clock strftime (as_log_msg (msg_buffer incoming))) in
      ret true
  | async_flush =>
      do! on_worker loggers (worker_ptr incoming) (backend_flush_ (F:=F) clock strftime) in ret true
  | async_terminate => ret false
  end.
End thread_pool.

(** ** The pool with its clients, workers and destructor *)

(** A worker waits for a message, is handing one to the sinks, or has left its
    loop. *)
Inductive wstate := Idle | Handling (m : async_msg) | Stopped.

(** A client's call of its logger. *)
Inductive call :=
| CallLog (loc : source_loc) (lvl : level_enum) (formatted : outcome (list Z))
| CallFlush.

Record sys (S : Type) := mksys {
  pool_q : mpmc_blocking_queue async_msg;
  workers : list wstate;
  loggers : gmap Z async_logger;
  wld : world S;
  (** What each client has still to put into the queue. *)
  outboxes : list (list (async_msg * async_overflow_policy));
  (** [None] while the pool is in use; in the destructor, the number of
      [terminate] messages still to post. *)
  closing : option nat;
  (** History: the messages whose post returned, those taken by the workers and
      those processed, in order. *)
  posted : list async_msg;
  taken : list async_msg;
  processed : list async_msg }.
Arguments mksys {S}.
Arguments pool_q {S}.
Arguments workers {S}.
Arguments loggers {S}.
Arguments wld {S}.
Arguments outboxes {S}.
Arguments closing {S}.
Arguments posted {S}.
Arguments taken {S}.
Arguments processed {S}.

Section system.
Context {F S : Type} `{Sink F S}.
Context (clock : nat -> Z) (tid : nat -> Z) (strftime : Z -> list Z).
Context (moved_buffer : log_msg_buffer -> log_msg_buffer).

Definition run_call (i : nat) (self : Z) (l : async_logger) (c : call) : M (env S) unit :=
  let vt := async_vtable clock strftime self (overflow_policy_ l) in
  match c with
  | CallLog loc lvl formatted => log_ clock (tid i) strftime vt loc lvl formatted
  | CallFlush => v_flush_ vt
  end.

Inductive step : sys S -> sys S -> Prop :=
| step_call q ws ls w bs1 bs2 p t d a l c g' w' :
    ls !! a = Some l ->
    run_call (length bs1) a l c (as_logger l, set_posts [] w) = (Ok tt, (g', w')) ->
    step (mksys q ws ls w (bs1 ++ [] :: bs2) None p t d)
         (mksys q ws (<[a := mkasync_logger g' (overflow_policy_ l)]> ls) w' (bs1 ++ posts w' :: bs2) None p t d)
| step_post q ws ls w bs1 m pol b bs2 cl p t d q' :
    post_async_msg_ m pol q = (Ok (Leaves tt), q') ->
    step (mksys q ws ls w (bs1 ++ ((m, pol) :: b) :: bs2) cl p t d)
         (mksys q' ws ls w (bs1 ++ b :: bs2) cl (p ++ [m]) t d)
| step_close q ws ls w bs p t d :
    Forall (fun b => b = []) bs ->
    step (mksys q ws ls w bs None p t d)
         (mksys q ws ls (set_pool_alive false w) bs (Some (length ws)) p t d)
| step_terminate q ws ls w bs k p t d q' :
    post_async_msg_ (async_msg_of_type async_terminate) block q = (Ok (Leaves tt), q') ->
    step (mksys q ws ls w bs (Some (Datatypes.S k)) p t d)
         (mksys q' ws ls w bs (Some k) (p ++ [async_msg_of_type async_terminate]) t d)
| step_take q ws1 ws2 ls w bs cl p t d m q' :
    next_msg moved_buffer q = (Ok (Leaves m), q') ->
    step (mksys q (ws1 ++ Idle :: ws2) ls w bs cl p t d)
         (mksys q' (ws1 ++ Handling m :: ws2) ls w bs cl p (t ++ [m]) d)
| step_process q ws1 m ws2 ls w bs cl p t d go w' :
    process_msg (F:=F) clock strftime ls m w = (Ok go, w') ->
    step (mksys q (ws1 ++ Handling m :: ws2) ls w bs cl p t d)
         (mksys q (ws1 ++ (if go : bool then Idle else Stopped) :: ws2) ls w' bs cl p t (d ++ [m])).

(** A new pool with [n] workers, loggers and sinks as given, and [k] clients. *)
Definition start (q_max_items : Z) (n k : nat) (ls : gmap Z async_logger) (w : world S) : sys S :=
  mksys (mpmc_new async_msg_default q_max_items) (replicate n Idle) ls (set_pool_alive true w)
    (replicate k []) None [] [] [].
End system.

(** ** What a message does to a sink *)

Definition logger_of (ls : gmap Z async_logger) (m : async_msg) : option logger :=
  a ← worker_ptr m; l ← ls !! a; Some (as_logger l).

Definition effect_on {F S} `{Sink F S} (ls : gmap Z async_logger) (id : Z) (s : sink S) (m : async_msg) : sink S :=
  match logger_of ls m with
  | Some g =>
      if bool_decide (id ∈ sinks_ g) then
        match msg_type m with
        | async_log =>
            let msg := as_log_msg (msg_buffer m) in delivered (F:=F) msg (should_flush_ msg g) s
        | async_flush => snd (flush (F:=F) s)
        | async_terminate => s
        end
      else s
  | None => s
  end.

(** A message of a client: its logger exists, its views are its own. *)
Definition proper (ls : gmap Z async_logger) (m : async_msg) : Prop :=
  msg_type m <> async_terminate /\ is_Some (logger_of ls m) /\ buffer_wf (msg_buffer m).

Definition is_terminate (m : async_msg) : bool := bool_decide (msg_type m = async_terminate).

Definition in_flight (w : wstate) : list async_msg := match w with Handling m => [m] | _ => [] end.
Definition stopping (w : wstate) : Z :=
  match w with Stopped => 1 | Handling m => if is_terminate m then 1 else 0 | Idle => 0 end.
Definition count_stopping (ws : list wstate) : Z := foldr (fun w n => stopping w + n) 0 ws.
Definition terminates (ms : list async_msg) : Z := foldr (fun m n => (if is_terminate m then 1 else 0) + n) 0 ms.

(** The parts of a logger that logging does not change. *)
Definition static (l : async_logger) : async_logger :=
  mkasync_logger (set_tracer backtracer_default (as_logger l)) (overflow_policy_ l).

(** Loggers and sinks in order: distinct sinks per logger, sinks present and
    good, backtraces good. *)
Definition logger_good {S} (I : S -> Prop) (w : world S) (l : async_logger) : Prop :=
  NoDup (sinks_ (as_logger l)) /\ sinks_good I (sinks_ (as_logger l)) w /\ tracer_good (tracer_ (as_logger l)).

(** ** Calls of clients *)

Section calls.
Context {F S : Type} `{Sink F S}.
Context (clock : nat -> Z) (strftime : Z -> list Z).
Implicit Types (g : logger) (w : world S).

Lemma err_handler_frame msg g w :
  exists w', err_handler_ clock strftime msg (g, w) = (Ok tt, (g, w')) /\ sinks_at w' = sinks_at w /\ posts w' = posts w.
Proof.
  unfold err_handler_, bind, gets, on_world, zoom; simpl. destruct (custom_err_handler_ g); simpl; [by eexists|].
  split_if; by eexists.
Qed.

Lemma logger_catch_frame loc e g w :
  exists w', logger_catch clock strftime loc e (g, w) = (Ok tt, (g, w')) /\ sinks_at w' = sinks_at w /\ posts w' = posts w.
Proof. unfold logger_catch. destruct (filename loc); apply err_handler_frame. Qed.

Lemma async_sink_it_run self pol msg g w :
  exists w', async_sink_it_ clock strftime self pol msg (g, w) = (Ok tt, (g, w')) /\ sinks_at w' = sinks_at w /\
    posts w' = posts w ++ (if pool_alive w then [post_log self msg pol] else []).
Proof.
  unfold async_sink_it_, try_catch, bind, gets; simpl. destruct (pool_alive w); simpl; [by eexists|].
  rewrite app_nil_r. apply logger_catch_frame.
Qed.

Lemma async_flush_run self pol g w :
  exists w', async_flush_ clock strftime self pol (g, w) = (Ok tt, (g, w')) /\ sinks_at w' = sinks_at w /\
    posts w' = posts w ++ (if pool_alive w then [post_flush self pol] else []).
Proof.
  unfold async_flush_, try_catch, bind, gets; simpl. destruct (pool_alive w); simpl; [by eexists|].
  rewrite app_nil_r. apply logger_catch_frame.
Qed.

(** The messages of a call: none, or one of the given logger and policy. *)
Definition posts_of (self : Z) (pol : async_overflow_policy) (ps : list (async_msg * async_overflow_policy)) : Prop :=
  Forall (fun '(m, p) => p = pol /\ worker_ptr m = Some self /\ msg_type m <> async_terminate /\ buffer_wf (msg_buffer m)) ps.

Lemma posts_of_alive self pol (b : bool) m :
  worker_ptr m = Some self -> msg_type m <> async_terminate -> buffer_wf (msg_buffer m) ->
  posts_of self pol (if b then [(m, pol)] else []).
Proof. intros. destruct b; [|by constructor]. constructor; [done|by constructor]. Qed.

Lemma async_log_it_run self pol msg en g w :
  tracer_good (tracer_ g) -> posts w = [] ->
  exists t w', log_it_ (async_vtable clock strftime self pol) msg en (enabled (tracer_ g)) (g, w)
      = (Ok tt, (set_tracer t g, w')) /\ tracer_good t /\ sinks_at w' = sinks_at w /\ posts_of self pol (posts w').
Proof.
  intros Ht Hp. unfold log_it_, bind. destruct en; simpl.
  - destruct (async_sink_it_run self pol msg g w) as (w' & E & Es & Ep). rewrite E.
    destruct (trace_step_ok msg g w' Ht) as (t & -> & ? & _). exists t, w'. split_and!; try done.
    rewrite Ep, Hp. apply posts_of_alive; try done. apply as_log_msg_of.
  - destruct (trace_step_ok msg g w Ht) as (t & -> & ? & _). exists t, w. split_and!; try done. rewrite Hp. constructor.
Qed.

Lemma run_call_effect tid i self l c w g' w' :
  tracer_good (tracer_ (as_logger l)) -> posts w = [] ->
  run_call clock tid strftime i self l c (as_logger l, w) = (Ok tt, (g', w')) ->
  exists t, g' = set_tracer t (as_logger l) /\ tracer_good t /\ sinks_at w' = sinks_at w /\
    posts_of self (overflow_policy_ l) (posts w').
Proof.
  intros Ht Hp E. set (g := as_logger l) in *.
  destruct c as [loc lvl f|]; simpl in E.
  - unfold log_ in E. erewrite bind_ok in E by reflexivity. cbn [fst] in E.
    destruct (negb _ && _). { injection E as <- <-. exists (tracer_ g). rewrite set_tracer_id, Hp. split_and!; try done. constructor. }
    unfold try_catch in E. destruct f as [text|e|]; [|..|by simplify_eq/=].
    + unfold bind at 1, of_outcome in E. unfold bind at 1 in E. simpl in E.
      set (msg := log_msg_new _ _ _ _ _ _) in E.
      destruct (async_log_it_run self (overflow_policy_ l) msg (logger_should_log lvl g) g
        (set_readings (Datatypes.S (readings w)) w) Ht Hp) as (t & w1 & E1 & ? & ? & ?).
      rewrite E1 in E. injection E as <- <-. by exists t.
    + simpl in E. destruct (logger_catch_frame loc e g w) as (w1 & E1 & ? & Ep). rewrite E1 in E.
      injection E as <- <-. exists (tracer_ g). rewrite set_tracer_id, Ep, Hp. split_and!; try done. constructor.
  - destruct (async_flush_run self (overflow_policy_ l) g w) as (w1 & E1 & ? & Ep). rewrite E1 in E.
    injection E as <- <-. exists (tracer_ g). rewrite set_tracer_id, Ep, Hp. split_and!; try done.
    by apply posts_of_alive.
Qed.
End calls.

(** ** Workers *)

Section processing.
Context {F S : Type} `{Sink F S} (I : S -> Prop) `{!SinkSafe F S I}.
Context (clock : nat -> Z) (strftime : Z -> list Z).
Implicit Types (ls : gmap Z async_logger) (w : world S) (m : async_msg).

(** The backend does to the sinks what a synchronous logger does. *)
Lemma backend_flush_eq : backend_flush_ (F:=F) (S:=S) clock strftime = flush_ (F:=F) clock strftime.
Proof. done. Qed.

Lemma backend_sink_it_eq msg e :
  backend_sink_it_ (F:=F) (S:=S) clock strftime msg e = sink_it_ (F:=F) clock strftime (flush_ (F:=F) clock strftime) msg e.
Proof. done. Qed.

Definition loggers_good ls w : Prop := forall a l, ls !! a = Some l -> logger_good I w l.

Lemma logger_of_good ls w m g :
  loggers_good ls w -> logger_of ls m = Some g -> NoDup (sinks_ g) /\ sinks_good I (sinks_ g) w.
Proof.
  unfold logger_of. intros Hg E. destruct (worker_ptr m) as [a|]; simpl in E; [|done].
  destruct (ls !! a) as [l|] eqn:El; simpl in E; [|done]. injection E as <-. destruct (Hg a l El) as (? & ? & _). done.
Qed.

Lemma on_worker_run ls m (f : M (env S) unit) w g w' :
  logger_of ls m = Some g -> f (g, w) = (Ok tt, (g, w')) -> on_worker ls (worker_ptr m) f w = (Ok tt, w').
Proof.
  unfold logger_of, on_worker. intros E Ef. destruct (worker_ptr m) as [a|]; simpl in E; [|done].
  destruct (ls !! a) as [l|]; simpl in E; [|done]. injection E as ->. by rewrite Ef.
Qed.

Lemma process_msg_ok ls m w :
  loggers_good ls w -> proper ls m \/ msg_type m = async_terminate ->
  exists w', process_msg (F:=F) clock strftime ls m w = (Ok (negb (is_terminate m)), w') /\
    forall id, sinks_at w' !! id = (fun s => effect_on (F:=F) ls id s m) <$> sinks_at w !! id.
Proof.
  intros Hg [(Ht & [g Eg] & _)|Ht].
  - destruct (logger_of_good _ _ _ _ Hg Eg) as [Hd Hs]. unfold process_msg, effect_on, is_terminate. rewrite Eg.
    destruct (msg_type m); [| |done].
    + destruct (sink_it_ok (F:=F) I clock strftime (as_log_msg (msg_buffer m)) g w Hd Hs) as (w' & E & P).
      exists w'. unfold bind. rewrite (on_worker_run ls m (backend_sink_it_ (F:=F) clock strftime _) w g w' Eg E).
      split; [done|]. intros id. rewrite P.
      destruct (bool_decide _); by destruct (sinks_at w !! id).
    + destruct (flush_ok (F:=F) I clock strftime g w Hd Hs) as (w' & E & P).
      exists w'. unfold bind. rewrite (on_worker_run ls m (backend_flush_ (F:=F) clock strftime) w g w' Eg E).
      split; [done|]. intros id. rewrite P.
      destruct (bool_decide _); by destruct (sinks_at w !! id).
  - exists w. unfold process_msg, effect_on, is_terminate. rewrite Ht. split; [done|]. intros id.
    destruct (logger_of ls m) as [g|]; [destruct (bool_decide _)|]; by destruct (sinks_at w !! id).
Qed.

Lemma effect_on_good ls id s m : I (body s) -> I (body (effect_on (F:=F) ls id s m)).
Proof.
  intros Is. unfold effect_on. destruct (logger_of ls m); [|done]. destruct (bool_decide _); [|done].
  destruct (msg_type m); [by apply delivered_good| |done].
  unfold flush, on_body, zoom. destruct (flush_it_safe (body s) Is) as [_ P]. by destruct (flush_it (body s)).
Qed.

(** Processing keeps loggers and sinks in order. *)
Lemma loggers_good_sinks ls w w' (f : Z -> sink S -> sink S) :
  loggers_good ls w -> (forall id, sinks_at w' !! id = f id <$> sinks_at w !! id) ->
  (forall id s, I (body s) -> I (body (f id s))) -> loggers_good ls w'.
Proof.
  intros Hg Hw Hf a l El. destruct (Hg a l El) as (? & Hs & ?). split_and!; try done.
  intros id Hid. destruct (Hs id Hid) as (s & E & Is). exists (f id s). rewrite Hw, E. auto.
Qed.

Lemma loggers_good_same ls w w' : loggers_good ls w -> sinks_at w' = sinks_at w -> loggers_good ls w'.
Proof.
  intros Hg E. apply (loggers_good_sinks _ w _ (fun _ => id)); [done| |done]. intros. rewrite E. by destruct (_ !! _).
Qed.

Lemma logger_of_static ls ls0 m g :
  static <$> ls = static <$> ls0 -> logger_of ls m = Some g ->
  exists g0, logger_of ls0 m = Some g0 /\ sinks_ g0 = sinks_ g /\ flush_level_ g0 = flush_level_ g.
Proof.
  unfold logger_of. intros E Eg. destruct (worker_ptr m) as [a|]; simpl in *; [|done].
  assert (Ea : (static <$> ls) !! a = (static <$> ls0) !! a) by (by rewrite E). rewrite !lookup_fmap in Ea.
  destruct (ls !! a) as [l|], (ls0 !! a) as [l0|]; simplify_eq/=.
  exists (as_logger l0). split_and!; try done; congruence.
Qed.

Lemma logger_of_static_none ls ls0 m : static <$> ls = static <$> ls0 -> logger_of ls m = None -> logger_of ls0 m = None.
Proof.
  intros E En. destruct (logger_of ls0 m) as [g|] eqn:Eg; [|done].
  destruct (logger_of_static ls0 ls m g) as (? & ? & _); congruence.
Qed.

Lemma effect_on_static ls ls0 id s m :
  static <$> ls = static <$> ls0 -> effect_on (F:=F) (S:=S) ls id s m = effect_on (F:=F) ls0 id s m.
Proof.
  intros E. unfold effect_on. destruct (logger_of ls m) as [g|] eqn:Eg.
  - destruct (logger_of_static _ _ _ _ E Eg) as (g0 & -> & Es & Ef). rewrite Es. unfold should_flush_. by rewrite Ef.
  - by rewrite (logger_of_static_none _ _ _ E Eg).
Qed.

Lemma proper_static ls ls0 m : static <$> ls = static <$> ls0 -> proper ls m -> proper ls0 m.
Proof. intros E (? & [g Eg] & ?). destruct (logger_of_static _ _ _ _ E Eg) as (g0 & Eg0 & _). by split_and!; [|eexists|]. Qed.
End processing.

(** ** Invariant of the pool *)

Definition terminate_msg : async_msg := async_msg_of_type async_terminate.
Definition flying (ws : list wstate) : list async_msg := concat (map in_flight ws).

Section queue.
Context (moved_buffer : log_msg_buffer -> log_msg_buffer).
Implicit Types (q : mpmc_blocking_queue async_msg) (m : async_msg).

Lemma post_block_inv m q q' :
  ok q -> post_async_msg_ m block q = (Ok (Leaves tt), q') -> ok q' /\ cap q' = cap q /\ stored q' = stored q ++ [m].
Proof.
  unfold post_async_msg_. rewrite bool_decide_true by done. intros Hq E. pose proof (enqueue_spec q m Hq) as P.
  destruct (_ =? _); [congruence|]. destruct P as (q1 & E1 & ? & ? & ?). rewrite E1 in E. injection E as <-. done.
Qed.

Lemma post_block_room m q :
  ok q -> zlen (stored q) < cap q -> exists q', post_async_msg_ m block q = (Ok (Leaves tt), q').
Proof.
  unfold post_async_msg_. rewrite bool_decide_true by done. intros Hq Hr. pose proof (enqueue_spec q m Hq) as P.
  destruct (_ =? _) eqn:E; bool_to_prop; [lia|]. destruct P as (q1 & E1 & _). by exists q1.
Qed.

Lemma assign_wf m : buffer_wf (msg_buffer m) -> async_msg_assign async_msg_default m = m.
Proof.
  destruct m as [[b buf] t p]. unfold async_msg_assign, log_msg_buffer_move_assign; simpl. intros W.
  by rewrite update_string_views_wf.
Qed.

Lemma next_msg_spec q :
  ok q ->
  match stored q with
  | [] => next_msg moved_buffer q = (Ok Waits, q)
  | m :: l => exists q', next_msg moved_buffer q = (Ok (Leaves (async_msg_assign async_msg_default m)), q') /\
                         ok q' /\ cap q' = cap q /\ stored q' = l
  end.
Proof.
  intros Hq. unfold next_msg, bind. pose proof (dequeue_spec (async_msg_moved_from moved_buffer) q Hq) as P.
  destruct (stored q); [by rewrite P|]. destruct P as (q' & E & ?). exists q'. by rewrite E.
Qed.
End queue.

Lemma terminates_app l k : terminates (l ++ k) = terminates l + terminates k.
Proof. induction l; simpl; lia. Qed.

Lemma terminates_proper ls l : Forall (proper ls) l -> terminates l = 0.
Proof.
  induction 1 as [|m l (Hm & _) _ IH]; [done|]. simpl. unfold is_terminate. by rewrite bool_decide_false, IH.
Qed.

Lemma terminates_replicate k : terminates (replicate k terminate_msg) = Z.of_nat k.
Proof. induction k as [|k IH]; [done|]. cbn [replicate terminates foldr]. fold (terminates (replicate k terminate_msg)). rewrite IH. simpl. lia. Qed.

Lemma terminates_one m : terminates [m] = if is_terminate m then 1 else 0.
Proof. simpl. lia. Qed.

Lemma terminates_nonneg l : 0 <= terminates l.
Proof. induction l; simpl; [lia|]. split_if; lia. Qed.

Lemma count_stopping_app ws ws' : count_stopping (ws ++ ws') = count_stopping ws + count_stopping ws'.
Proof. induction ws; simpl; lia. Qed.

Lemma flying_app ws ws' : flying (ws ++ ws') = flying ws ++ flying ws'.
Proof. unfold flying. by rewrite map_app, concat_app. Qed.

Lemma flying_cons x ws : flying (x :: ws) = in_flight x ++ flying ws.
Proof. done. Qed.

Record pool_inv {F S} `{Sink F S} (I : S -> Prop) (ls0 : gmap Z async_logger) (w0 : world S) (nw : nat) (n : Z) (s : sys S)
  : Prop := {
  pi_ok : ok (pool_q s);
  pi_cap : cap (pool_q s) = n;
  pi_workers : length (workers s) = nw;
  pi_fifo : taken s ++ stored (pool_q s) = posted s;
  (** Client messages, then the destructor's. *)
  pi_posted : exists real k, posted s = real ++ replicate k terminate_msg /\ Forall (proper ls0) real /\
    match closing s with None => k = O | Some j => (k + j = nw)%nat end;
  pi_boxes : Forall (Forall (fun '(m, p) => p = block /\ proper ls0 m)) (outboxes s);
  pi_closed : closing s <> None -> Forall (fun b => b = []) (outboxes s);
  pi_stop : terminates (taken s) = count_stopping (workers s);
  pi_flight : taken s ≡ₚ processed s ++ flying (workers s);
  pi_one : nw = 1%nat -> taken s = processed s ++ flying (workers s);
  pi_good : loggers_good I (loggers s) (wld s);
  pi_static : static <$> loggers s = static <$> ls0;
  pi_block : forall a l, ls0 !! a = Some l -> overflow_policy_ l = block;
  pi_sinks : forall id, sinks_at (wld s) !! id =
    (fun b => foldl (effect_on (F:=F) ls0 id) b (processed s)) <$> sinks_at w0 !! id }.

Section invariant.
Context {F S : Type} `{Sink F S} (I : S -> Prop) `{!SinkSafe F S I}.
Context (clock : nat -> Z) (tid : nat -> Z) (strftime : Z -> list Z).
Context (moved_buffer : log_msg_buffer -> log_msg_buffer).
Context (ls0 : gmap Z async_logger) (w0 : world S) (nw : nat) (n : Z).
Local Notation inv := (pool_inv (F:=F) I ls0 w0 nw n).

Lemma posted_wf s m : inv s -> m ∈ posted s -> (proper ls0 m \/ msg_type m = async_terminate) /\ buffer_wf (msg_buffer m).
Proof.
  intros Hs Hm. destruct (pi_posted _ _ _ _ _ _ Hs) as (real & k & E & Hr & _). rewrite E in Hm.
  apply elem_of_app in Hm as [Hm|Hm].
  - rewrite Forall_forall in Hr. specialize (Hr _ Hm). split; [by left|apply Hr].
  - apply elem_of_replicate in Hm as [-> _]. split; [by right|done].
Qed.

Lemma inv_call s1 q ws ls w bs1 bs2 p t d a l c g' w' :
  s1 = mksys q ws ls w (bs1 ++ [] :: bs2) None p t d ->
  ls !! a = Some l ->
  run_call clock tid strftime (length bs1) a l c (as_logger l, set_posts [] w) = (Ok tt, (g', w')) ->
  inv s1 ->
  inv (mksys q ws (<[a := mkasync_logger g' (overflow_policy_ l)]> ls) w' (bs1 ++ posts w' :: bs2) None p t d).
Proof.
  intros -> Ea E [? ? ? ? ? Hb Hc ? ? ? Hg Hst Hbl Hs]. simpl in *.
  destruct (Hg a l Ea) as (Hnd & Hsk & Htr).
  destruct (run_call_effect clock strftime tid (length bs1) a l c (set_posts [] w) g' w' Htr eq_refl E) as (tr & -> & Ht & Ew & Hp).
  assert (Hst' : static <$> (<[a := mkasync_logger (set_tracer tr (as_logger l)) (overflow_policy_ l)]> ls) = static <$> ls0).
  { rewrite fmap_insert, <- Hst. apply insert_id. rewrite lookup_fmap, Ea. done. }
  assert (Hl0 : exists l0, ls0 !! a = Some l0 /\ overflow_policy_ l0 = overflow_policy_ l).
  { assert (Q : (static <$> ls) !! a = (static <$> ls0) !! a) by (by rewrite Hst). rewrite !lookup_fmap, Ea in Q.
    destruct (ls0 !! a) as [l0|]; simplify_eq/=. exists l0. split; [done|congruence]. }
  destruct Hl0 as (l0 & El0 & Ep0). split; simpl; try done.
  - apply Forall_app in Hb as [Hb1 Hb2]. apply Forall_cons in Hb2 as [_ Hb2]. apply Forall_app. split; [done|].
    constructor; [|done]. unfold posts_of in Hp. eapply Forall_impl; [exact Hp|]. intros [m pol] (-> & Hw & Hty & Hbf).
    split; [rewrite <- Ep0; by eapply Hbl|]. split_and!; try done.
    unfold logger_of. rewrite Hw; simpl. rewrite El0. by eexists.
  - intros b lb Hlb. destruct (decide (b = a)) as [->|Hne].
    + rewrite lookup_insert_eq in Hlb. injection Hlb as <-. split_and!; simpl; try done.
      intros id Hid. destruct (Hsk id Hid) as (sk & ? & ?). exists sk. by rewrite Ew.
    + rewrite lookup_insert_ne in Hlb by done. destruct (Hg b lb Hlb) as (? & Hs' & ?). split_and!; try done.
      intros id Hid. destruct (Hs' id Hid) as (sk & ? & ?). exists sk. by rewrite Ew.
  - intros id. rewrite Ew. apply Hs.
Qed.

Lemma inv_post q ws ls w bs1 m pol b bs2 cl p t d q' :
  post_async_msg_ m pol q = (Ok (Leaves tt), q') ->
  inv (mksys q ws ls w (bs1 ++ ((m, pol) :: b) :: bs2) cl p t d) ->
  inv (mksys q' ws ls w (bs1 ++ b :: bs2) cl (p ++ [m]) t d).
Proof.
  intros E [? ? ? Hf Hp Hb Hc ? ? ? Hg Hst Hbl Hs]. simpl in *.
  apply Forall_app in Hb as [Hb1 Hb2]. apply Forall_cons in Hb2 as [Hbm Hb2].
  apply Forall_cons in Hbm as [[-> Hpm] Hbm]. destruct (post_block_inv _ _ _ ltac:(done) E) as (? & ? & Es).
  assert (cl = None) as ->.
  { destruct cl; [|done]. exfalso. specialize (Hc ltac:(done)). apply Forall_app in Hc as [_ Hc].
    apply Forall_cons in Hc as [Hc _]. done. }
  split; simpl; try done; try congruence.
  - by rewrite Es, app_assoc, Hf.
  - destruct Hp as (real & k & -> & Hr & ->). exists (real ++ [m]), O. simpl. rewrite !app_nil_r. split_and!; try done.
    apply Forall_app. by split; [|constructor].
  - apply Forall_app. split; [done|]. by constructor.
Qed.

Lemma inv_terminate q ws ls w bs k p t d q' :
  post_async_msg_ terminate_msg block q = (Ok (Leaves tt), q') ->
  inv (mksys q ws ls w bs (Some (Datatypes.S k)) p t d) ->
  inv (mksys q' ws ls w bs (Some k) (p ++ [terminate_msg]) t d).
Proof.
  intros E [? ? ? Hf Hp Hb Hc ? ? ? Hg Hst Hbl Hs]. simpl in *.
  destruct (post_block_inv _ _ _ ltac:(done) E) as (? & ? & Es). split; simpl; try done; try congruence.
  - by rewrite Es, app_assoc, Hf.
  - destruct Hp as (real & j & -> & Hr & Hj). exists real, (Datatypes.S j). split_and!; try done; [|lia].
    rewrite <- app_assoc. f_equal. by rewrite <- replicate_cons_app.
  - intros _. by apply Hc.
Qed.

(** A list of one worker. *)
Lemma one_worker (ws1 : list wstate) x ws2 : length (ws1 ++ x :: ws2) = 1%nat -> ws1 = [] /\ ws2 = [].
Proof. rewrite length_app. destruct ws1, ws2; simpl; try lia. done. Qed.

Lemma inv_take q ws1 ws2 ls w bs cl p t d m q' :
  next_msg moved_buffer q = (Ok (Leaves m), q') ->
  inv (mksys q (ws1 ++ Idle :: ws2) ls w bs cl p t d) ->
  inv (mksys q' (ws1 ++ Handling m :: ws2) ls w bs cl p (t ++ [m]) d).
Proof.
  intros E Hi. pose proof Hi as [? ? Hw Hf Hp Hb Hc Hk Hl H1 Hg Hst Hbl Hs]. simpl in *.
  pose proof (next_msg_spec moved_buffer q ltac:(done)) as P. destruct (stored q) as [|m0 l] eqn:Es; [congruence|].
  destruct P as (q1 & E1 & ? & ? & E2). rewrite E1 in E. injection E as <- <-.
  assert (async_msg_assign async_msg_default m0 = m0) as ->.
  { apply assign_wf. eapply (posted_wf _ m0 Hi). simpl. rewrite <- Hf. set_solver. }
  split; simpl; try done; try congruence.
  - by rewrite <- Hw, !length_app.
  - by rewrite E2, <- app_assoc.
  - rewrite terminates_app, terminates_one, count_stopping_app in *. simpl in *. lia.
  - rewrite flying_app in *. rewrite Hl. unfold flying; simpl. solve_Permutation.
  - intros ->. destruct (one_worker _ _ _ Hw) as [-> ->]. rewrite (H1 eq_refl). unfold flying; simpl. by rewrite app_nil_r.
Qed.

Lemma inv_process q ws1 m ws2 ls w bs cl p t d go w' :
  process_msg (F:=F) clock strftime ls m w = (Ok go, w') ->
  inv (mksys q (ws1 ++ Handling m :: ws2) ls w bs cl p t d) ->
  inv (mksys q (ws1 ++ (if go then Idle else Stopped) :: ws2) ls w' bs cl p t (d ++ [m])).
Proof.
  intros E Hi. pose proof Hi as [? ? Hw Hf Hp Hb Hc Hk Hl H1 Hg Hst Hbl Hs]. simpl in *.
  assert (Hm : proper ls0 m \/ msg_type m = async_terminate).
  { apply (posted_wf _ m Hi). simpl. rewrite <- Hf, elem_of_app. left. rewrite Hl, flying_app. unfold flying; simpl. set_solver. }
  assert (Hm' : proper ls m \/ msg_type m = async_terminate).
  { destruct Hm as [Hm|]; [left|by right]. by apply (proper_static ls0 ls). }
  destruct (process_msg_ok (F:=F) I clock strftime ls m w Hg Hm') as (w1 & E1 & P). rewrite E1 in E. injection E as <- <-.
  split; simpl; try done; try congruence.
  - rewrite <- Hw, !length_app. done.
  - rewrite count_stopping_app in *. simpl in *. rewrite Hk. by destruct (is_terminate m).
  - rewrite flying_app in *. rewrite Hl. unfold flying; simpl. destruct (negb _); simpl; solve_Permutation.
  - intros ->. destruct (one_worker _ _ _ Hw) as [-> ->]. rewrite (H1 eq_refl). unfold flying; simpl. by destruct (negb _); rewrite ?app_nil_r.
  - apply (loggers_good_sinks I ls w w1 (fun id s => effect_on (F:=F) ls id s m)); try done.
    intros. by apply effect_on_good.
  - intros id. rewrite P, Hs. destruct (sinks_at w0 !! id); [|done]. simpl. f_equal. rewrite foldl_app. simpl. by apply effect_on_static.
Qed.

Lemma pool_step_inv s s' : step (F:=F) clock tid strftime moved_buffer s s' -> inv s -> inv s'.
Proof.
  intros [] Hi.
  - by eapply inv_call.
  - by eapply inv_post.
  - destruct Hi as [? ? Hw Hf Hp Hb Hc Hk Hl H1 Hg Hst Hbl Hs]. simpl in *. split; simpl; try done.
    destruct Hp as (real & k & -> & Hr & ->). exists real, O. auto.
  - by eapply inv_terminate.
  - by eapply inv_take.
  - by eapply inv_process.
Qed.

Lemma start_inv k :
  0 <= n < 2 ^ 63 - 1 -> loggers_good I ls0 w0 -> (forall a l, ls0 !! a = Some l -> overflow_policy_ l = block) ->
  inv (start n nw k ls0 w0).
Proof.
  intros Hn Hg Hb. destruct (circular_q_new_wf async_msg_default n Hn) as [W V].
  pose proof (f_equal capacity V) as Vc. pose proof (f_equal items V) as Vi.
  assert (Hfly : flying (replicate nw Idle) = []) by (induction nw; done).
  split; try done; cbn [start pool_q workers taken posted closing outboxes processed loggers wld].
  - by rewrite length_replicate.
  - exists [], O. auto.
  - by apply Forall_replicate.
  - assert (count_stopping (replicate nw Idle) = 0) as -> by (clear; induction nw; done). done.
  - by rewrite Hfly.
  - intros id. simpl. by destruct (sinks_at w0 !! id).
Qed.

Lemma pool_reachable_inv k s :
  0 <= n < 2 ^ 63 - 1 -> loggers_good I ls0 w0 -> (forall a l, ls0 !! a = Some l -> overflow_policy_ l = block) ->
  rtc (step (F:=F) clock tid strftime moved_buffer) (start n nw k ls0 w0) s -> inv s.
Proof.
  intros Hn Hg Hb Hr. pose proof (start_inv k Hn Hg Hb) as Hi. revert Hi.
  induction Hr as [|? ? ? Hs _ IH]; [done|]. eauto using pool_step_inv.
Qed.
End invariant.

(** ** The destructor *)

Section shutdown.
Context {F S : Type} `{Sink F S} (I : S -> Prop) `{!SinkSafe F S I}.
Context (clock : nat -> Z) (tid : nat -> Z) (strftime : Z -> list Z).
Context (moved_buffer : log_msg_buffer -> log_msg_buffer).
Context (ls0 : gmap Z async_logger) (w0 : world S) (nw : nat) (n : Z).
Local Notation inv := (pool_inv (F:=F) I ls0 w0 nw n).
Local Notation pstep := (step (F:=F) clock tid strftime moved_buffer).

Lemma stopping_le ws : count_stopping ws <= zlen ws.
Proof.
  induction ws as [|x ws IH]; [done|]. rewrite zlen_cons. simpl.
  assert (stopping x <= 1) by (destruct x; simpl; try split_if; lia). lia.
Qed.

Lemma stopped_all ws : Forall (fun x => x = Stopped) ws -> count_stopping ws = zlen ws /\ flying ws = [].
Proof.
  induction 1 as [|x ws -> _ [IH1 IH2]]; [done|]. rewrite zlen_cons, <- IH1. simpl. split; [lia|]. exact IH2.
Qed.

(** The messages left when every [terminate] message has been taken. *)
Lemma nothing_left s :
  inv s -> (0 < nw)%nat -> count_stopping (workers s) = zlen (workers s) -> stored (pool_q s) = [] /\ closing s = Some O.
Proof.
  intros [_ _ Hw Hf Hp _ _ Hk _ _ _ _ _ _] Hn Hc. destruct Hp as (real & k & Ep & Hr & Hcl).
  assert (Hz : zlen (workers s) = Z.of_nat nw) by (unfold zlen; lia).
  assert (Ht : terminates (taken s) + terminates (stored (pool_q s)) = Z.of_nat k).
  { rewrite <- terminates_app, Hf, Ep, terminates_app, (terminates_proper _ _ Hr), terminates_replicate. lia. }
  pose proof (terminates_nonneg (stored (pool_q s))).
  assert (k = nw /\ closing s = Some O) as [-> ->].
  { destruct (closing s) as [j|]; [|lia]. assert (j = O) as -> by lia. split; [lia|done]. }
  split; [|done]. destruct (stored (pool_q s)) as [|x l _] using rev_ind; [done|]. exfalso.
  rewrite terminates_app, terminates_one in *. pose proof (terminates_nonneg l).
  assert (E : last (taken s ++ l ++ [x]) = Some x) by (by rewrite app_assoc, last_snoc).
  rewrite Hf, Ep in E. destruct nw as [|m]; [lia|].
  rewrite replicate_S_end, app_assoc, last_snoc in E. injection E as <-. simpl in *. lia.
Qed.

(** What is left to do once the destructor runs. *)
Definition remaining (s : sys S) : nat :=
  (3 * match closing s with Some k => k | None => 0 end + 2 * length (stored (pool_q s)) + length (flying (workers s)))%nat.

Definition finished (s : sys S) : Prop := closing s = Some O /\ Forall (fun x => x = Stopped) (workers s).

Lemma closing_step_decreases s s' :
  inv s -> closing s <> None -> pstep s s' -> (remaining s' < remaining s)%nat /\ closing s' <> None.
Proof.
  intros Hi Hc Hs. destruct Hs as [| q ws ls w bs1 m pol b bs2 cl p t d q' E| |q ws ls w bs k p t d q' E
    |q ws1 ws2 ls w bs cl p t d m q' E|q ws1 m ws2 ls w bs cl p t d go w' E]; simpl in *; try done.
  - exfalso. pose proof (pi_closed _ _ _ _ _ _ Hi Hc) as HF. simpl in HF. apply Forall_app in HF as [_ HF].
    apply Forall_cons in HF as [HF _]. done.
  - split; [|done]. destruct (post_block_inv _ _ _ (pi_ok _ _ _ _ _ _ Hi) E) as (_ & _ & Es). simpl in Es.
    unfold remaining; simpl. rewrite Es, length_app. simpl. lia.
  - split; [|done]. pose proof (next_msg_spec moved_buffer q (pi_ok _ _ _ _ _ _ Hi)) as P.
    unfold remaining; simpl. rewrite !flying_app, !flying_cons, !length_app. destruct (stored q) as [|m0 l]; [congruence|].
    destruct P as (q1 & E1 & _ & _ & E2). rewrite E1 in E. injection E as <- <-. rewrite E2. simpl. lia.
  - split; [|done]. unfold remaining; simpl. rewrite !flying_app, !flying_cons, !length_app. destruct go; simpl; lia.
Qed.

(** While the destructor runs and has not finished, some thread can act. *)
Lemma closing_progress s :
  inv s -> (0 < nw)%nat -> 0 < n -> closing s <> None -> ~ finished s -> exists s', pstep s s'.
Proof.
  intros Hi Hn Hcap Hc Hf. destruct s as [q ws ls w bs cl p t d]. simpl in *.
  pose proof Hi as [Hok Hq Hw Hfi Hp Hb Hcl Hk Hl _ Hg Hst _ _]. simpl in *.
  destruct (decide (Exists (fun x => in_flight x <> []) ws)) as [He|He].
  { apply Exists_exists in He as (x & Hx & Hm). destruct x as [|m|]; [done| |done].
    apply list_elem_of_split in Hx as (ws1 & ws2 & ->).
    destruct (process_msg_ok (F:=F) I clock strftime ls m w Hg) as (w' & E & _).
    - destruct (posted_wf (F:=F) I ls0 w0 nw n _ m Hi) as [[P|P] _]; [|left|by right].
      + simpl. rewrite <- Hfi, elem_of_app. left. rewrite Hl, flying_app. unfold flying; simpl. set_solver.
      + by apply (proper_static ls0 ls).
    - eexists. by apply step_process. }
  assert (Hdec : Exists (fun x => x = Idle) ws \/ ~ Exists (fun x => x = Idle) ws).
  { clear. induction ws as [|[] ws [IH|IH]]; rewrite ?Exists_cons, ?Exists_nil; naive_solver. }
  destruct Hdec as [Hid|Hid].
  - destruct (stored q) as [|m l] eqn:Es.
    + destruct cl as [[|k]|]; [exfalso| |done].
      * pose proof (terminates_app t []) as Ht. destruct Hp as (real & k & Ep & Hr & Hkk).
        rewrite app_nil_r in Hfi. subst t. rewrite Ep, terminates_app, (terminates_proper _ _ Hr), terminates_replicate in Hk.
        apply Exists_exists in Hid as (x & Hx & ->). apply list_elem_of_split in Hx as (ws1 & ws2 & ->).
        rewrite count_stopping_app in Hk. simpl in Hk. pose proof (stopping_le ws1). pose proof (stopping_le ws2).
        rewrite length_app in Hw. simpl in Hw. unfold zlen in *. lia.
      * destruct (post_block_room terminate_msg q Hok) as [q' E]; [rewrite Es, zlen_nil; lia|].
        eexists. by apply step_terminate.
    + apply Exists_exists in Hid as (x & Hx & ->). apply list_elem_of_split in Hx as (ws1 & ws2 & ->).
      pose proof (next_msg_spec moved_buffer q Hok) as P. rewrite Es in P. destruct P as (q' & E & _).
      eexists. by eapply step_take.
  - exfalso. apply Hf. assert (HS : Forall (fun x => x = Stopped) ws).
    { apply Forall_forall. intros x Hx. destruct x; [|exfalso|done].
      - exfalso. apply Hid, Exists_exists. eauto.
      - apply He, Exists_exists. eexists. split; [done|]. done. }
    split; [|done]. destruct (stopped_all _ HS) as [Hs _].
    destruct (nothing_left _ Hi Hn Hs) as [_ E]. done.
Qed.
End shutdown.

(** C12: with one worker and the policy [block], nothing is lost, duplicated or
    reordered on the way to the sinks: what the worker has processed, is
    processing and has waiting are exactly the messages posted, in the order of
    posting, and every sink is in the state the processed messages put it into
    one after the other, as a synchronous logger would have. *)
Theorem pool_delivers_in_order {F S} `{Sink F S} (I : S -> Prop) `{!SinkSafe F S I} clock tid strftime moved_buffer
    (ls0 : gmap Z async_logger) (w0 : world S) (n : Z) (k : nat) (s : sys S) :
  0 <= n < 2 ^ 63 - 1 -> loggers_good I ls0 w0 -> (forall a l, ls0 !! a = Some l -> overflow_policy_ l = block) ->
  rtc (step (F:=F) clock tid strftime moved_buffer) (start n 1 k ls0 w0) s ->
  posted s = processed s ++ flying (workers s) ++ stored (pool_q s) /\
  zlen (stored (pool_q s)) <= n /\
  (forall id, sinks_at (wld s) !! id =
     (fun b => foldl (effect_on (F:=F) ls0 id) b (processed s)) <$> sinks_at w0 !! id).
Proof.
  intros Hn Hg Hb Hr. pose proof (pool_reachable_inv (F:=F) I clock tid strftime moved_buffer ls0 w0 1 n k s Hn Hg Hb Hr) as Hi.
  split_and!; [|rewrite <- (pi_cap _ _ _ _ _ _ Hi); by apply stored_le_cap, Hi|apply Hi].
  rewrite <- (pi_fifo _ _ _ _ _ _ Hi), (pi_one _ _ _ _ _ _ Hi eq_refl). by rewrite app_assoc.
Qed.

(** C28: the destructor returns, with any number of workers, and only after the
    work is done: once it runs, every run of the threads is finite, none of
    them gets stuck before all workers have stopped, and then the queue is
    empty and every message posted before has been processed. *)
Theorem pool_shutdown_completes {F S} `{Sink F S} (I : S -> Prop) `{!SinkSafe F S I} clock tid strftime moved_buffer
    (ls0 : gmap Z async_logger) (w0 : world S) (nw : nat) (n : Z) (k : nat) (s : sys S) :
  0 < n < 2 ^ 63 - 1 -> (0 < nw)%nat -> loggers_good I ls0 w0 ->
  (forall a l, ls0 !! a = Some l -> overflow_policy_ l = block) ->
  rtc (step (F:=F) clock tid strftime moved_buffer) (start n nw k ls0 w0) s -> closing s <> None ->
  (forall j s', nsteps (step (F:=F) clock tid strftime moved_buffer) j s s' -> (j <= remaining s)%nat) /\
  (forall s', rtc (step (F:=F) clock tid strftime moved_buffer) s s' ->
     finished s' \/ exists s'', step (F:=F) clock tid strftime moved_buffer s' s'') /\
  (forall s', rtc (step (F:=F) clock tid strftime moved_buffer) s s' -> finished s' ->
     stored (pool_q s') = [] /\ processed s' ≡ₚ posted s').
Proof.
  intros Hn Hw Hg Hb Hr Hc.
  assert (Hi : pool_inv (F:=F) I ls0 w0 nw n s) by (eapply (pool_reachable_inv (F:=F) I); eauto; lia).
  assert (Hall : forall s', rtc (step (F:=F) clock tid strftime moved_buffer) s s' ->
    pool_inv (F:=F) I ls0 w0 nw n s' /\ closing s' <> None).
  { clear Hr. intros s' Hr. induction Hr as [|s1 s2 s3 Hs _ IH]; [done|]. apply IH; [|by eapply pool_step_inv].
    by eapply (closing_step_decreases (F:=F) I clock tid strftime moved_buffer ls0 w0 nw n s1 s2). }
  split_and!.
  - clear Hr Hall. intros j s' Hj. induction Hj as [|j s1 s2 s3 Hs _ IH]; [lia|].
    destruct (closing_step_decreases (F:=F) I clock tid strftime moved_buffer ls0 w0 nw n s1 s2 Hi Hc Hs) as [Hd Hc2].
    specialize (IH Hc2 (pool_step_inv (F:=F) I clock tid strftime moved_buffer ls0 w0 nw n s1 s2 Hs Hi)). lia.
  - intros s' Hr'. destruct (Hall s' Hr') as [Hi' Hc'].
    assert (Hf : finished s' \/ ~ finished s').
    { unfold finished. destruct (decide (closing s' = Some O)); [|naive_solver].
      assert (D : Forall (fun x => x = Stopped) (workers s') \/ ~ Forall (fun x => x = Stopped) (workers s')).
      { clear. induction (workers s') as [|[] ws [IH|IH]]; rewrite ?Forall_cons; naive_solver. }
      naive_solver. }
    destruct Hf as [Hf|Hf]; [by left|right]. eapply (closing_progress (F:=F) I); eauto; lia.
  - intros s' Hr' [Hf1 Hf2]. destruct (Hall s' Hr') as [Hi' Hc']. destruct (stopped_all _ Hf2) as [E1 E2].
    destruct (nothing_left (F:=F) I ls0 w0 nw n s' Hi' Hw E1) as [Es _]. split; [done|].
    pose proof (pi_flight _ _ _ _ _ _ Hi') as P. pose proof (pi_fifo _ _ _ _ _ _ Hi') as Q.
    rewrite E2, app_nil_r in P. rewrite Es, app_nil_r in Q. by rewrite <- P, Q.
Qed.

(** ** A run: one client logs one message, then the pool is destroyed *)

Module PoolDemo.
Definition clk : nat -> Z := Demo.demo_clock.
Definition tids (_ : nat) : Z := 1.
Definition sft (_ : Z) : list Z := [].
Definition lg : async_logger := async_logger_new (chars "net") [2] block.
Definition lgs : gmap Z async_logger := {[1 := lg]}.
Definition wd : world Demo.recorder := Demo.demo_world.
Definition lost : call := CallLog source_loc_default warn (Ok (chars "lost")).

Definition s0 : sys Demo.recorder := start 8 1 1 lgs wd.
Definition called := run_call (S:=Demo.recorder) clk tids sft 0 1 lg lost (as_logger lg, set_posts [] (wld s0)).
Definition s1 : sys Demo.recorder :=
  mksys (pool_q s0) [Idle] (<[1 := mkasync_logger (fst (snd called)) block]> lgs) (snd (snd called))
    ([] ++ posts (snd (snd called)) :: []) None [] [] [].
Definition lost_msg : async_msg := async_msg_with 1 async_log (log_msg_new 1 (clk 0) source_loc_default (chars "net") warn (chars "lost")).
Definition s2 : sys Demo.recorder :=
  mksys (snd (post_async_msg_ lost_msg block (pool_q s1))) [Idle] (loggers s1) (wld s1) ([] ++ [] :: []) None [lost_msg] [] [].
Definition s3 : sys Demo.recorder :=
  mksys (pool_q s2) [Idle] (loggers s1) (set_pool_alive false (wld s1)) [[]] (Some 1%nat) [lost_msg] [] [].
Definition s4 : sys Demo.recorder :=
  mksys (snd (next_msg id (pool_q s3))) [Handling lost_msg] (loggers s1) (wld s3) [[]] (Some 1%nat) [lost_msg] [lost_msg] [].
Definition s5 : sys Demo.recorder :=
  mksys (pool_q s4) [Idle] (loggers s1) (snd (process_msg (F:=unit) clk sft (loggers s1) lost_msg (wld s3))) [[]]
    (Some 1%nat) [lost_msg] [lost_msg] [lost_msg].
Definition s6 : sys Demo.recorder :=
  mksys (snd (post_async_msg_ terminate_msg block (pool_q s5))) [Idle] (loggers s1) (wld s5) [[]]
    (Some O) [lost_msg; terminate_msg] [lost_msg] [lost_msg].
Definition s7 : sys Demo.recorder :=
  mksys (snd (next_msg id (pool_q s6))) [Handling terminate_msg] (loggers s1) (wld s5) [[]]
    (Some O) [lost_msg; terminate_msg] [lost_msg; terminate_msg] [lost_msg].
Definition s8 : sys Demo.recorder :=
  mksys (pool_q s7) [Stopped] (loggers s1) (wld s5) [[]]
    (Some O) [lost_msg; terminate_msg] [lost_msg; terminate_msg] [lost_msg; terminate_msg].

Lemma demo_open : rtc (step (F:=unit) clk tids sft id) s0 s3.
Proof.
  eapply (rtc_l _ _ s1); [apply (step_call clk tids sft id _ _ lgs _ [] [] [] [] [] 1 lg lost); reflexivity|].
  eapply (rtc_l _ _ s2); [apply (step_post clk tids sft id _ _ _ _ [] lost_msg block [] []); vm_compute; reflexivity|].
  eapply (rtc_l _ _ s3); [apply (step_close clk tids sft id); by repeat constructor|]. reflexivity.
Qed.

Lemma demo_close : rtc (step (F:=unit) clk tids sft id) s3 s8.
Proof.
  eapply (rtc_l _ _ s4); [apply (step_take clk tids sft id _ [] []); vm_compute; reflexivity|].
  eapply (rtc_l _ _ s5); [refine (step_process clk tids sft id (pool_q s4) [] lost_msg [] (loggers s1) (wld s3) [[]] (Some 1%nat) [lost_msg] [lost_msg] [] true (wld s5) _); vm_compute; reflexivity|].
  eapply (rtc_l _ _ s6); [apply (step_terminate clk tids sft id); vm_compute; reflexivity|].
  eapply (rtc_l _ _ s7); [apply (step_take clk tids sft id _ [] []); vm_compute; reflexivity|].
  eapply (rtc_l _ _ s8); [refine (step_process clk tids sft id (pool_q s7) [] terminate_msg [] (loggers s1) (wld s5) [[]] (Some O) [lost_msg; terminate_msg] [lost_msg; terminate_msg] [lost_msg] false (wld s5) _); reflexivity|].
  reflexivity.
Qed.

Lemma lgs_good : loggers_good (fun _ : Demo.recorder => True) lgs wd.
Proof.
  intros a l E. unfold lgs in E. apply lookup_singleton_Some in E as [<- <-]. split_and!.
  - by apply (bool_decide_unpack _).
  - intros id Hid. simpl in Hid. apply list_elem_of_singleton in Hid as ->. eexists. split; [reflexivity|done].
  - intros [=].
Qed.

Lemma lgs_block a l : lgs !! a = Some l -> overflow_policy_ l = block.
Proof. intros E. unfold lgs in E. by apply lookup_singleton_Some in E as [<- <-]. Qed.
End PoolDemo.

Lemma pool_delivers_in_order_witness :
  posted PoolDemo.s8 = processed PoolDemo.s8 /\
  sinks_at (wld PoolDemo.s8) !! 2 = Some (sink_new (Demo.mkrecorder false [chars "lost"])).
Proof.
  destruct (pool_delivers_in_order (F:=unit) (fun _ => True) PoolDemo.clk PoolDemo.tids PoolDemo.sft id
    PoolDemo.lgs PoolDemo.wd 8 1 PoolDemo.s8) as (P & _ & Q).
  - lia.
  - exact PoolDemo.lgs_good.
  - exact PoolDemo.lgs_block.
  - etrans; [exact PoolDemo.demo_open|exact PoolDemo.demo_close].
  - split; [rewrite P; vm_compute; reflexivity|]. rewrite (Q 2). vm_compute. reflexivity.
Defined.

Lemma pool_shutdown_completes_witness :
  remaining PoolDemo.s3 = 5%nat /\ finished PoolDemo.s8 /\
  stored (pool_q PoolDemo.s8) = [] /\ processed PoolDemo.s8 ≡ₚ posted PoolDemo.s8.
Proof.
  destruct (pool_shutdown_completes (F:=unit) (fun _ => True) PoolDemo.clk PoolDemo.tids PoolDemo.sft id
    PoolDemo.lgs PoolDemo.wd 1 8 1 PoolDemo.s3) as (_ & _ & Q).
  - lia.
  - lia.
  - exact PoolDemo.lgs_good.
  - exact PoolDemo.lgs_block.
  - exact PoolDemo.demo_open.
  - done.
  - split; [vm_compute; reflexivity|]. assert (Fin : finished PoolDemo.s8) by (split; [done|by repeat constructor]).
    split; [done|]. apply Q; [exact PoolDemo.demo_close|done].
Defined.
