(* ===== verification/FileHelper.v ===== *)
(** * spdlog: files (details/file_helper-inl.h and parts of details/os-inl.h)

    The file system is a map from path names to contents, with a set of
    directories; [fault] decides for every system call, by its number, whether
    it fails (for a write or flush also how many bytes still get through).  A
    failed call changes nothing else.  A [FILE] keeps what was written to it in
    its buffer until it is flushed or closed; the code asks for a file's size
    only right after opening or flushing it.  Path names are compared as
    written. *)

From S2P Require Import Prelude Machine SpdCommon.

(** ** Searching in texts *)

(** [s.find_first_of(c, offset)]. *)
Fixpoint find_from (c : Z) (pos offset : Z) (s : list Z) : option Z :=
  match s with
  | [] => None
  | x :: s => if (offset <=? pos) && (x =? c) then Some pos else find_from c (pos + 1) offset s
  end.
Definition find_first_of (c offset : Z) (s : list Z) : option Z := find_from c 0 offset s.

(** [s.rfind(c)] and [s.find_last_of(c)]. *)
Fixpoint rfind_from (c pos : Z) (s : list Z) : option Z :=
  match s with
  | [] => None
  | x :: s =>
      match rfind_from c (pos + 1) s with
      | Some p => Some p
      | None => if x =? c then Some pos else None
      end
  end.
Definition rfind (c : Z) (s : list Z) : option Z := rfind_from c 0 s.

Definition folder_sep : Z := 47.
Definition dot : Z := 46.

(** [s.substr(0, n)] and [s.substr(n)]. *)
Definition prefix_of (n : Z) (s : list Z) : list Z := take (Z.to_nat n) s.
Definition rest_of (n : Z) (s : list Z) : list Z := drop (Z.to_nat n) s.

Definition dir_name (path : list Z) : list Z :=
  match rfind folder_sep path with Some pos => prefix_of pos path | None => [] end.

Definition split_by_extension (fname : list Z) : list Z * list Z :=
  match rfind dot fname with
  | None => (fname, [])
  | Some ext_index =>
      if (ext_index =? 0) || (ext_index =? zlen fname - 1) then (fname, [])
      else
        match rfind folder_sep fname with
        | Some folder_index =>
            if ext_index - 1 <=? folder_index then (fname, [])
            else (prefix_of ext_index fname, rest_of ext_index fname)
        | None => (prefix_of ext_index fname, rest_of ext_index fname)
        end
  end.

(** ** The file system *)

(** Calls of the event handlers. *)
Inductive file_event :=
| before_open (filename : list Z)
| after_open (filename : list Z)
| before_close (filename : list Z)
| after_close (filename : list Z).

Record fs := mkfs {
  files : gmap (list Z) (list Z);
  dirs : gset (list Z);
  calls : nat;
  events : list file_event }.

Definition set_files (m : gmap (list Z) (list Z)) (f : fs) : fs := mkfs m (dirs f) (calls f) (events f).
Definition set_dirs (d : gset (list Z)) (f : fs) : fs := mkfs (files f) d (calls f) (events f).
Definition content (p : list Z) (f : fs) : list Z := default [] (files f !! p).

(** [path_exists]: file or directory. *)
Definition path_exists (p : list Z) (f : fs) : bool :=
  bool_decide (is_Some (files f !! p)) || bool_decide (p ∈ dirs f).

(** The directory a new entry [p] goes to is there. *)
Definition parent_exists (p : list Z) (f : fs) : bool :=
  let d := dir_name p in bool_decide (d = []) || bool_decide (d ∈ dirs f).

Section os.
Context (fault : nat -> option Z).

(** The next system call: [None] when it works. *)
Definition syscall : M fs (option Z) := fun f =>
  (Ok (fault (calls f)), mkfs (files f) (dirs f) (S (calls f)) (events f)).

Definition mkdir_ (p : list Z) : M fs bool :=
  let! e := syscall in
  let! f := get in
  match e with
  | Some _ => ret false
  | None =>
      if negb (bool_decide (p = [])) && negb (path_exists p f) && parent_exists p f
      then do! modify (fun f => set_dirs ({[p]} ∪ dirs f) f) in ret true
      else ret false
  end.

(** The loop of [create_dir]; a round advances the offset, so [fuel] rounds
    suffice for [fuel] characters left. *)
Fixpoint create_dir_loop (fuel : nat) (path : list Z) (search_offset : Z) : M fs bool :=
  match fuel with
  | O => ret true
  | S fuel =>
      let token_pos := match find_first_of folder_sep search_offset path with Some p => p | None => zlen path end in
      let subdir := prefix_of token_pos path in
      let! f := get in
      let! made := (if negb (bool_decide (subdir = [])) && negb (path_exists subdir f) then mkdir_ subdir else ret true) in
      if negb made then ret false
      else
        let search_offset := token_pos + 1 in
        if search_offset <? zlen path then create_dir_loop fuel path search_offset else ret true
  end.

Definition create_dir (path : list Z) : M fs bool :=
  let! f := get in
  if path_exists path f then ret true
  else if bool_decide (path = []) then ret false
  else create_dir_loop (length path) path 0.

(** [fopen(p, "wb")] and [fopen(p, "ab")]: whether the file is open now. *)
Definition fopen (truncate : bool) (p : list Z) : M fs bool :=
  let! e := syscall in
  let! f := get in
  match e with
  | Some _ => ret false
  | None =>
      if negb (bool_decide (p = [])) && negb (bool_decide (p ∈ dirs f)) && parent_exists p f then
        do! modify (fun f => set_files (<[p := if truncate then [] else content p f]> (files f)) f) in ret true
      else ret false
  end.

(** [std::remove]: whether it succeeded. *)
Definition remove (p : list Z) : M fs bool :=
  let! e := syscall in
  let! f := get in
  match e with
  | Some _ => ret false
  | None =>
      if bool_decide (is_Some (files f !! p)) then do! modify (fun f => set_files (delete p (files f)) f) in ret true
      else ret false
  end.

(** [remove_if_exists]. *)
Definition remove_if_exists (p : list Z) : M fs bool :=
  let! f := get in
  if path_exists p f then remove p else ret true.

(** [std::rename], which replaces an existing target. *)
Definition rename (p1 p2 : list Z) : M fs bool :=
  let! e := syscall in
  let! f := get in
  match e with
  | Some _ => ret false
  | None =>
      match files f !! p1 with
      | Some c =>
          if negb (bool_decide (p2 ∈ dirs f)) && parent_exists p2 f then
            do! modify (fun f => set_files (<[p2 := c]> (delete p1 (files f))) f) in ret true
          else ret false
      | None => ret false
      end
  end.
End os.

(** ** file_helper *)

(** An open [FILE]: its name and what it has not handed to the system yet. *)
Record stream := mkstream { s_name : list Z; pending : list Z }.

(** Which of the four event handlers are set. *)
Record file_event_handlers := mkhandlers {
  has_before_open : bool; has_after_open : bool; has_before_close : bool; has_after_close : bool }.

Record file_helper := mkfile_helper {
  fd_ : option stream;
  filename_ : list Z;
  event_handlers_ : file_event_handlers }.

Definition file_helper_new (h : file_event_handlers) : file_helper := mkfile_helper None [] h.

Definition set_fd (d : option stream) (h : file_helper) : file_helper := mkfile_helper d (filename_ h) (event_handlers_ h).
Definition set_filename (n : list Z) (h : file_helper) : file_helper := mkfile_helper (fd_ h) n (event_handlers_ h).

(** The helper and the file system. *)
Definition fh : Type := file_helper * fs.
Definition on_fs {A} (m : M fs A) : M fh A := zoom snd (fun f h => (fst h, f)) m.
Definition upd_helper (g : file_helper -> file_helper) : M fh unit := modify (fun s => (g (fst s), snd s)).

Definition raise_event (set : file_event_handlers -> bool) (e : file_event) : M fh unit :=
  let! h := gets fst in
  if set (event_handlers_ h) then on_fs (modify (fun f => mkfs (files f) (dirs f) (calls f) (events f ++ [e]))) else ret tt.

Definition open_tries_ : nat := 5.

Section file_helper.
(** [errno_text] is the system's text for [errno], which [format_system_error]
    appends to the message. *)
Context (fault : nat -> option Z) (errno_text : list Z).

Definition system_error (msg : list Z) : exn := spdlog_ex (msg ++ chars ": " ++ errno_text).

(** The bytes in a stream's buffer go to the file; a failing call passes on
    some of them and the rest stays in the buffer.  When the open file has been
    removed, they go to a file without a name and are lost with it. *)
Definition flush_stream (s : stream) : M fs (bool * stream) :=
  let! e := syscall fault in
  let n := match e with None => zlen (pending s) | Some k => k end in
  do! modify (fun f => set_files (alter (fun c => c ++ prefix_of n (pending s)) (s_name s) (files f)) f) in
  ret (match e with None => true | Some _ => false end, mkstream (s_name s) (rest_of n (pending s))).

(** [close]: [fclose] flushes; its result is not looked at. *)
Definition close : M fh unit :=
  let! h := gets fst in
  match fd_ h with
  | None => ret tt
  | Some s =>
      do! raise_event has_before_close (before_close (filename_ h)) in
      do! on_fs (flush_stream s) in
      do! upd_helper (set_fd None) in
      raise_event has_after_close (after_close (filename_ h))
  end.

(** The loop of [open]: whether it opened the file. *)
Fixpoint open_loop (tries : nat) (fname : list Z) (truncate : bool) : M fh bool :=
  match tries with
  | O => ret false
  | S tries =>
      do! on_fs (create_dir fault (dir_name fname)) in
      let! cut := (if truncate then on_fs (fopen fault true fname) else ret true) in
      if negb cut then open_loop tries fname truncate
      else
        let! opened := on_fs (fopen fault false fname) in
        if opened : bool then
          do! upd_helper (set_fd (Some (mkstream fname []))) in
          let! h := gets fst in
          do! raise_event has_after_open (after_open (filename_ h)) in ret true
        else open_loop tries fname truncate
  end.

Definition open (fname : list Z) (truncate : bool) : M fh unit :=
  do! close in
  do! upd_helper (set_filename fname) in
  do! raise_event has_before_open (before_open fname) in
  let! opened := open_loop open_tries_ fname truncate in
  if opened : bool then ret tt
  else throw (system_error (chars "Failed opening file " ++ fname ++ chars " for writing")).

Definition reopen (truncate : bool) : M fh unit :=
  let! h := gets fst in
  if bool_decide (filename_ h = []) then throw (spdlog_ex (chars "Failed re opening file - was not opened before"))
  else open (filename_ h) truncate.

(** [flush]: with a null [fd_], [fflush] flushes other streams and succeeds. *)
Definition flush : M fh unit :=
  let! h := gets fst in
  match fd_ h with
  | None => ret tt
  | Some s =>
      let! '(flushed, s) := (on_fs (flush_stream s)) in
      do! upd_helper (set_fd (Some s)) in
      if flushed : bool then ret tt
      else throw (system_error (chars "Failed flush to file " ++ filename_ h))
  end.

(** [sync]: [fsync] of the descriptor; a null [fd_] is undefined. *)
Definition sync : M fh unit :=
  let! h := gets fst in
  match fd_ h with
  | None => undef
  | Some _ =>
      let! e := on_fs (syscall fault) in
      match e with
      | None => ret tt
      | Some _ => throw (system_error (chars "Failed to fsync file " ++ filename_ h))
      end
  end.

Definition write (buf : list Z) : M fh unit :=
  let! h := gets fst in
  match fd_ h with
  | None => ret tt
  | Some s =>
      let! e := on_fs (syscall fault) in
      match e with
      | None => upd_helper (set_fd (Some (mkstream (s_name s) (pending s ++ buf))))
      | Some k =>
          do! upd_helper (set_fd (Some (mkstream (s_name s) (pending s ++ prefix_of k buf)))) in
          throw (system_error (chars "Failed writing to file " ++ filename_ h))
      end
  end.

Definition size : M fh Z :=
  let! h := gets fst in
  match fd_ h with
  | None => throw (spdlog_ex (chars "Cannot use size() on closed file " ++ filename_ h))
  | Some s =>
      let! e := on_fs (syscall fault) in
      match e with
      | None => let! f := gets snd in ret (zlen (content (s_name s) f))
      | Some _ => throw (system_error (chars "Failed getting file size from fd"))
      end
  end.

Definition filename (h : file_helper) : list Z := filename_ h.
End file_helper.

(** ** Without faults *)

Section no_faults.
Context (fault : nat -> option Z) (errno_text : list Z).
Context (Hf : forall n, fault n = None).
Implicit Types (f : fs) (p : list Z) (h : file_helper).

(** No separator to the left, none from the right. *)
Lemma rfind_none c s : find_first_of c 0 s = None -> rfind c s = None.
Proof.
  unfold find_first_of, rfind. enough (forall pos, 0 <= pos -> find_from c pos 0 s = None -> rfind_from c pos s = None) as H by (apply H; lia).
  induction s as [|x s IH]; intros pos Hp; simpl; [done|]. rewrite (proj2 (Z.leb_le _ _)) by lia. simpl.
  destruct (x =? c); [done|]. intros E. by rewrite IH by (done || lia).
Qed.

(** Two file systems with the same files and directories. *)
Definition same_files f f' : Prop := files f' = files f /\ dirs f' = dirs f.

Lemma syscall_run f : exists f', syscall fault f = (Ok None, f') /\ same_files f f'.
Proof. unfold syscall. rewrite Hf. by eexists. Qed.

(** A name under which a file can be created. *)
Definition file_name p f : Prop := p <> [] /\ (p ∉ dirs f) /\ parent_exists p f = true.

Lemma same_files_content f f' p : same_files f f' -> content p f' = content p f /\ path_exists p f' = path_exists p f.
Proof. intros [E1 E2]. unfold content, path_exists. by rewrite E1, E2. Qed.

Lemma file_name_dirs p f f' : dirs f' = dirs f -> file_name p f -> file_name p f'.
Proof. intros E (? & ? & Hp). unfold file_name, parent_exists in *. by rewrite E. Qed.

Lemma create_dir_parent p f : parent_exists p f = true -> exists b, create_dir fault (dir_name p) f = (Ok b, f).
Proof.
  unfold parent_exists, create_dir, bind, get. intros Hp.
  destruct (path_exists (dir_name p) f) eqn:E; [by eexists|].
  case_bool_decide as E'; [by eexists|]. exfalso. unfold path_exists in E. apply orb_false_elim in E as [_ E].
  apply bool_decide_eq_false in E. apply orb_prop in Hp as [Hp|Hp]; [done|by apply bool_decide_eq_true in Hp].
Qed.

Lemma fopen_run t p f :
  file_name p f ->
  exists f', fopen fault t p f = (Ok true, f') /\ dirs f' = dirs f /\
    files f' = <[p := if t then [] else content p f]> (files f).
Proof.
  intros (Hn & Hd & Hp). destruct (syscall_run f) as (f1 & E & E1 & E2). unfold fopen, bind, get. rewrite E.
  rewrite !bool_decide_false by (by rewrite ?E2).
  assert (parent_exists p f1 = true) as -> by (unfold parent_exists in *; by rewrite E2). simpl.
  eexists. split; [done|]. simpl. unfold content. by rewrite E1.
Qed.

Lemma remove_run p f :
  exists b f', remove fault p f = (Ok b, f') /\ dirs f' = dirs f /\ files f' = delete p (files f).
Proof.
  destruct (syscall_run f) as (f1 & E & E1 & E2). unfold remove, bind, get. rewrite E, E1.
  case_bool_decide as Hs; eexists _, _; (split; [done|]); simpl.
  - by rewrite E1.
  - split; [done|]. rewrite E1. symmetry. apply delete_id. by apply eq_None_not_Some.
Qed.

Lemma rename_run p1 p2 c f :
  files f !! p1 = Some c -> file_name p2 f ->
  exists f', rename fault p1 p2 f = (Ok true, f') /\ dirs f' = dirs f /\ files f' = <[p2 := c]> (delete p1 (files f)).
Proof.
  intros Hc (Hn & Hd & Hp). destruct (syscall_run f) as (f1 & E & E1 & E2). unfold rename, bind, get. rewrite E, E1, Hc.
  rewrite bool_decide_false by (by rewrite E2).
  assert (parent_exists p2 f1 = true) as -> by (unfold parent_exists in *; by rewrite E2). simpl.
  eexists. split; [done|]. simpl. by rewrite E1.
Qed.

Lemma flush_stream_run s f :
  exists f', flush_stream fault s f = (Ok (true, mkstream (s_name s) []), f') /\ dirs f' = dirs f /\
    files f' = alter (fun c => c ++ pending s) (s_name s) (files f).
Proof.
  destruct (syscall_run f) as (f1 & E & E1 & E2). unfold flush_stream, bind. rewrite E. eexists.
  unfold prefix_of, rest_of. unfold zlen. rewrite Nat2Z.id, take_ge, drop_ge by lia.
  split; [done|]. simpl. by rewrite E1.
Qed.

(** The file of a stream is there. *)
Lemma alter_content p t f : files f !! p <> None -> alter (fun c => c ++ t) p (files f) = <[p := content p f ++ t]> (files f).
Proof.
  unfold content. destruct (files f !! p) as [c|] eqn:E; [|done]. intros _. simpl. apply map_eq. intros i.
  destruct (decide (p = i)) as [<-|Hn]; [by rewrite lookup_alter_eq, lookup_insert_eq, E|by rewrite lookup_alter_ne, lookup_insert_ne].
Qed.

Lemma on_fs_run {A} (m : M fs A) h f r f' : m f = (r, f') -> on_fs m (h, f) = (r, (h, f')).
Proof. intros E. unfold on_fs, zoom. cbn [fst snd]. by rewrite E. Qed.

Lemma raise_event_run g e h f : exists f', raise_event g e (h, f) = (Ok tt, (h, f')) /\ same_files f f'.
Proof. unfold raise_event, bind, gets. simpl. destruct (g _); by eexists. Qed.

(** What [close] leaves: the buffered bytes are in the file. *)
Definition closed_files h f : gmap (list Z) (list Z) :=
  match fd_ h with Some s => alter (fun c => c ++ pending s) (s_name s) (files f) | None => files f end.

Lemma close_run h f :
  exists f', close fault (h, f) = (Ok tt, (set_fd None h, f')) /\ dirs f' = dirs f /\ files f' = closed_files h f.
Proof.
  unfold close, closed_files. bind_step by reflexivity. cbn [fst]. destruct (fd_ h) as [s|] eqn:Ed.
  - destruct (raise_event_run has_before_close (before_close (filename_ h)) h f) as (f1 & E1 & F1 & D1).
    bind_step by exact E1. destruct (flush_stream_run s f1) as (f2 & E2 & D2 & F2).
    bind_step by (apply on_fs_run, E2). bind_step by reflexivity.
    destruct (raise_event_run has_after_close (after_close (filename_ h)) (set_fd None h) f2) as (f3 & E3 & F3 & D3).
    exists f3. split; [exact E3|]. split; [congruence|]. by rewrite F3, F2, F1.
  - exists f. by destruct h; simplify_eq/=.
Qed.

(** The directories once the parent of [p] has been made. *)
Definition with_parent p f : gset (list Z) := if parent_exists p f then dirs f else {[dir_name p]} ∪ dirs f.

(** The parent of [p] exists, or it is a plain name that can be created. *)
Definition parent_creatable p f : Prop :=
  parent_exists p f = true \/ (files f !! dir_name p = None /\ find_first_of folder_sep 0 (dir_name p) = None).

(** [p] can be opened. *)
Definition creatable p f : Prop := file_name p (set_dirs (with_parent p f) f) /\ parent_creatable p f.

Lemma create_parent_run p f :
  parent_creatable p f ->
  exists b f', create_dir fault (dir_name p) f = (Ok b, f') /\ files f' = files f /\ dirs f' = with_parent p f.
Proof.
  unfold with_parent. intros [Hp|[Hd Hs]].
  { rewrite Hp. destruct (create_dir_parent p f Hp) as [b E]. by exists b, f. }
  destruct (parent_exists p f) eqn:Hp. { destruct (create_dir_parent p f Hp) as [b E]. by exists b, f. }
  unfold parent_exists in Hp. apply orb_false_elim in Hp as [Hn Hp]. set (d := dir_name p) in *.
  assert (He : path_exists d f = false) by (unfold path_exists; rewrite Hd, Hp, orb_false_r; apply bool_decide_false; by intros [? ?]).
  assert (Hr : parent_exists d f = true).
  { unfold parent_exists, dir_name. by rewrite (rfind_none folder_sep d Hs), bool_decide_true. }
  unfold create_dir. bind_step by reflexivity. rewrite He, Hn. apply bool_decide_eq_false in Hn.
  destruct (length d) as [|k] eqn:El; [by apply nil_length_inv in El|]. cbn [create_dir_loop].
  rewrite Hs. unfold prefix_of. rewrite take_ge by (unfold zlen; lia). bind_step by reflexivity.
  rewrite He, bool_decide_false by done. cbn [negb andb].
  destruct (syscall_run f) as (f1 & E1 & F1 & D1).
  assert (mkdir_ fault d f = (Ok true, set_dirs ({[d]} ∪ dirs f1) f1)) as Em.
  { unfold mkdir_. bind_step by exact E1. bind_step by reflexivity.
    assert (path_exists d f1 = false) as -> by (unfold path_exists in *; by rewrite F1, D1).
    assert (parent_exists d f1 = true) as -> by (unfold parent_exists in *; by rewrite D1).
    rewrite bool_decide_false by done. reflexivity. }
  bind_step by exact Em. cbn [negb]. rewrite (proj2 (Z.ltb_ge _ _)) by lia.
  eexists _, _. split; [reflexivity|]. simpl. by rewrite F1, D1.
Qed.

Lemma open_loop_creates k p t h f :
  creatable p f ->
  exists f', open_loop fault (S k) p t (h, f) = (Ok true, (set_fd (Some (mkstream p [])) h, f')) /\ dirs f' = with_parent p f /\
    files f' = <[p := if t then [] else content p f]> (files f).
Proof.
  intros [Hn Hp]. cbn [open_loop]. destruct (create_parent_run p f Hp) as (b & f0 & E & F0 & D0).
  bind_step by (apply on_fs_run, E). apply (file_name_dirs _ _ f0) in Hn; [|done].
  assert (exists f1, (if t then on_fs (fopen fault true p) else ret true) (h, f0) = (Ok true, (h, f1)) /\ dirs f1 = dirs f0 /\
    files f1 = if t then <[p := []]> (files f0) else files f0) as (f1 & E1 & D1 & F1).
  { destruct t; [|by exists f0]. destruct (fopen_run true p f0 Hn) as (f1 & E1 & ? & ?). exists f1.
    split; [apply on_fs_run, E1|done]. }
  bind_step by exact E1. cbn [negb]. destruct (fopen_run false p f1) as (f2 & E2 & D2 & F2); [by apply (file_name_dirs p f0)|].
  bind_step by (apply on_fs_run, E2). bind_step by reflexivity. bind_step by reflexivity.
  destruct (raise_event_run has_after_open (after_open (filename_ h)) (set_fd (Some (mkstream p [])) h) f2) as (f3 & E3 & F3 & D3).
  bind_step by exact E3. exists f3. split; [done|]. split; [congruence|]. rewrite F3, F2, F1. unfold content. rewrite F1, F0.
  destruct t; [|done]. by rewrite lookup_insert_eq, insert_insert_eq.
Qed.

Lemma creatable_same p f f' : dirs f' = dirs f -> files f' !! dir_name p = files f !! dir_name p -> creatable p f -> creatable p f' /\ with_parent p f' = with_parent p f.
Proof.
  intros Ed Ef [Hn Hp]. unfold creatable, parent_creatable, with_parent, parent_exists in *. rewrite Ed, Ef.
  split; [|done]. split; [|done]. by apply (file_name_dirs _ _ _ eq_refl Hn).
Qed.

(** A closed helper opens a file, making its directory if need be. *)
Lemma open_creates p t h f :
  creatable p f -> fd_ h = None ->
  exists f', open fault errno_text p t (h, f) = (Ok tt, (mkfile_helper (Some (mkstream p [])) p (event_handlers_ h), f')) /\
    dirs f' = with_parent p f /\ files f' = <[p := if t then [] else content p f]> (files f).
Proof.
  intros Hn Hc. unfold open. destruct (close_run h f) as (f1 & E1 & D1 & F1). bind_step by exact E1.
  unfold closed_files in F1. rewrite Hc in F1. bind_step by reflexivity. cbn [fst snd].
  destruct (raise_event_run has_before_open (before_open p) (set_filename p (set_fd None h)) f1) as (f2 & E2 & F2 & D2).
  bind_step by exact E2. destruct (creatable_same p f f2) as [Hn2 Hw]; [congruence|congruence|done|].
  destruct (open_loop_creates 4 p t (set_filename p (set_fd None h)) f2 Hn2) as (f3 & E3 & D3 & F3).
  bind_step by exact E3. exists f3. split; [done|]. split; [congruence|]. rewrite F3, F2, F1. unfold content. by rewrite F2, F1.
Qed.

Lemma file_name_creatable p f : file_name p f -> creatable p f /\ with_parent p f = dirs f.
Proof.
  intros Hn. pose proof Hn as (_ & _ & Hp). unfold creatable, parent_creatable, with_parent. rewrite Hp.
  split; [|done]. split; [|by left]. by apply (file_name_dirs _ _ _ eq_refl Hn).
Qed.

Lemma open_run p t h f :
  file_name p f ->
  exists f', open fault errno_text p t (h, f) = (Ok tt, (mkfile_helper (Some (mkstream p [])) p (event_handlers_ h), f')) /\
    dirs f' = dirs f /\
    files f' = <[p := if t then [] else default [] (closed_files h f !! p)]> (closed_files h f).
Proof.
  intros Hn. unfold open. destruct (close_run h f) as (f1 & E1 & D1 & F1). bind_step by exact E1.
  bind_step by reflexivity. cbn [fst snd].
  destruct (raise_event_run has_before_open (before_open p) (set_filename p (set_fd None h)) f1) as (f2 & E2 & F2 & D2).
  bind_step by exact E2. apply (file_name_dirs p f f2) in Hn; [|congruence]. destruct (file_name_creatable p f2 Hn) as [Hc Hw].
  destruct (open_loop_creates 4 p t (set_filename p (set_fd None h)) f2 Hc) as (f3 & E3 & D3 & F3).
  bind_step by exact E3. exists f3. split; [done|]. split; [congruence|]. rewrite F3, F2, F1. unfold content. by rewrite F2, F1.
Qed.

Lemma flush_run h f s :
  fd_ h = Some s ->
  exists f', flush fault errno_text (h, f) = (Ok tt, (set_fd (Some (mkstream (s_name s) [])) h, f')) /\ dirs f' = dirs f /\
    files f' = alter (fun c => c ++ pending s) (s_name s) (files f).
Proof.
  intros Hs. unfold flush. bind_step by reflexivity. cbn [fst]. rewrite Hs.
  destruct (flush_stream_run s f) as (f1 & E1 & D1 & F1). bind_step by (apply on_fs_run, E1).
  bind_step by reflexivity. by exists f1.
Qed.

Lemma size_run h f s :
  fd_ h = Some s ->
  exists f', size fault errno_text (h, f) = (Ok (zlen (content (s_name s) f)), (h, f')) /\ same_files f f'.
Proof.
  intros Hs. unfold size. bind_step by reflexivity. cbn [fst]. rewrite Hs. destruct (syscall_run f) as (f1 & E1 & S1).
  bind_step by (apply on_fs_run, E1). exists f1. split; [|done].
  unfold bind, gets, ret. simpl. by rewrite (proj1 (same_files_content _ _ _ S1)).
Qed.

Lemma write_run h f s buf :
  fd_ h = Some s ->
  exists f', write fault errno_text buf (h, f) = (Ok tt, (set_fd (Some (mkstream (s_name s) (pending s ++ buf))) h, f')) /\
    same_files f f'.
Proof.
  intros Hs. unfold write. bind_step by reflexivity. cbn [fst]. rewrite Hs. destruct (syscall_run f) as (f1 & E1 & S1).
  bind_step by (apply on_fs_run, E1). exists f1. done.
Qed.
End no_faults.

(** The paths of the comment above [split_by_extension]. *)
Example split_examples :
  split_by_extension (chars "mylog.txt") = (chars "mylog", chars ".txt") /\
  split_by_extension (chars "mylog") = (chars "mylog", []) /\
  split_by_extension (chars "mylog.") = (chars "mylog.", []) /\
  split_by_extension (chars "/dir1/dir2/mylog.txt") = (chars "/dir1/dir2/mylog", chars ".txt") /\
  split_by_extension (chars ".mylog") = (chars ".mylog", []) /\
  split_by_extension (chars "my_folder/.mylog") = (chars "my_folder/.mylog", []) /\
  split_by_extension (chars "my_folder/.mylog.txt") = (chars "my_folder/.mylog", chars ".txt").
Proof. vm_compute. auto 10. Qed.
