(* ===== verification/PatternFormatter.v ===== *)
(** * spdlog: the pattern formatter (pattern_formatter-inl.h)

    A pattern is compiled to a list of flag formatters, each of which appends its
    field to the line; [pattern_formatter] breaks the time of a message down to
    a [tm] at most once per second.  The buffer and the colour range of the
    message are the state of a call ([fctx]).  Local time, UTC offset and process
    id are arguments, as are custom flags (a type with its operations); the MDC
    is the list of its entries in the order of the map. *)

From S2P Require Import Prelude Machine FmtInt FmtHelper SpdCommon FileHelper.

(** The members of [std::tm] that are used. *)
Record tm := mktm {
  tm_sec : Z; tm_min : Z; tm_hour : Z; tm_mday : Z; tm_mon : Z; tm_year : Z; tm_wday : Z }.
Definition tm_zero : tm := mktm 0 0 0 0 0 0 0.

(** ** Padding *)

Inductive pad_side := left | right | center.
#[export] Instance pad_side_eq_dec : EqDecision pad_side.
Proof. solve_decision. Defined.

Record padding_info := mkpadding_info {
  width_ : Z;
  side_ : pad_side;
  truncate_ : bool;
  enabled_ : bool }.
Definition padding_info_default : padding_info := mkpadding_info 0 left false false.
Definition padding_info_new (width : Z) (side : pad_side) (truncate : bool) : padding_info :=
  mkpadding_info width side truncate true.
Definition enabled (p : padding_info) : bool := enabled_ p.

(** The line so far, and the colour range of the message. *)
Record fctx := mkfctx {
  dest : list Z;
  range_start : Z;
  range_end : Z }.
Definition on_dest {A} (m : M buf A) : M fctx A := zoom dest (fun d c => mkfctx d (range_start c) (range_end c)) m.

(** Which of the two padder classes a formatter is instantiated with. *)
Inductive padder := scoped_padder | null_scoped_padder.

(** [pad_it]: a part of a string of 64 spaces. *)
Definition pad_it (count : Z) : M buf unit :=
  if (0 <=? count) && (count <=? 64) then append_string_view (replicate (Z.to_nat count) 32) else undef.

(** The constructor of [scoped_padder]: [remaining_pad_]. *)
Definition scoped_padder_new (wrapped_size : Z) (padinfo : padding_info) : M buf Z :=
  let remaining_pad := width_ padinfo - wrapped_size in
  if remaining_pad <=? 0 then ret remaining_pad
  else match side_ padinfo with
  | left => do! pad_it remaining_pad in ret 0
  | center =>
      let half_pad := Z.quot remaining_pad 2 in
      let reminder := Z.land remaining_pad 1 in
      do! pad_it half_pad in ret (half_pad + reminder)
  | right => ret remaining_pad
  end.

(** Its destructor. *)
Definition scoped_padder_delete (padinfo : padding_info) (remaining_pad : Z) : M buf unit :=
  if 0 <=? remaining_pad then pad_it remaining_pad
  else if truncate_ padinfo then
    modify (fun d =>
      let new_size := zlen d + remaining_pad in
      take (Z.to_nat (if new_size <? 0 then 0 else new_size)) d)
  else ret tt.

(** A field written in the scope of a padder. *)
Definition padded (p : padder) (wrapped_size : Z) (padinfo : padding_info) (m : M buf unit) : M fctx unit :=
  on_dest
    match p with
    | scoped_padder =>
        let! r := scoped_padder_new wrapped_size padinfo in
        do! m in scoped_padder_delete padinfo r
    | null_scoped_padder => m
    end.

(** [ScopedPadder::count_digits]. *)
Definition padder_count_digits (p : padder) (bits n : Z) : outcome Z :=
  match p with scoped_padder => fmt_count_digits bits n | null_scoped_padder => Ok 0 end.

(** ** Names *)

Definition days : list (list Z) := map chars ["Sun"; "Mon"; "Tue"; "Wed"; "Thu"; "Fri"; "Sat"]%string.
Definition full_days : list (list Z) :=
  map chars ["Sunday"; "Monday"; "Tuesday"; "Wednesday"; "Thursday"; "Friday"; "Saturday"]%string.
Definition months : list (list Z) :=
  map chars ["Jan"; "Feb"; "Mar"; "Apr"; "May"; "Jun"; "Jul"; "Aug"; "Sep"; "Oct"; "Nov"; "Dec"]%string.
Definition full_months : list (list Z) :=
  map chars ["January"; "February"; "March"; "April"; "May"; "June"; "July"; "August"; "September";
             "October"; "November"; "December"]%string.

(** [array[static_cast<size_t>(i)]]; outside the array it is undefined. *)
Definition array_at (a : list (list Z)) (i : Z) : outcome (list Z) :=
  if 0 <=? i then match a !! Z.to_nat i with Some x => Ok x | None => Undef end else Undef.

Definition ampm (t : tm) : list Z := if 12 <=? tm_hour t then chars "PM" else chars "AM".
Definition to12h (t : tm) : Z := if 12 <? tm_hour t then tm_hour t - 12 else tm_hour t.

(** ** Flag formatters *)

(** Formatters without state, by class. *)
Inductive plain_flag :=
| name_formatter | level_formatter | short_level_formatter
| a_formatter | A_formatter | b_formatter | B_formatter | c_formatter | C_formatter | D_formatter
| Y_formatter | m_formatter | d_formatter | H_formatter | I_formatter | M_formatter | S_formatter
| e_formatter | f_formatter | F_formatter | E_formatter
| p_formatter | r_formatter | R_formatter | T_formatter
| t_formatter | pid_formatter | v_formatter
| source_location_formatter | source_filename_formatter | short_filename_formatter
| source_linenum_formatter | source_funcname_formatter
| mdc_formatter.

Section format.
Context (pid : Z) (mdc_context : list (list Z * list Z)).

(** A named field: its size is that of the text. *)
Definition format_text (p : padder) (padinfo : padding_info) (text : list Z) : M fctx unit :=
  padded p (zlen text) padinfo (append_string_view text).

Definition format_indexed (p : padder) (padinfo : padding_info) (a : list (list Z)) (i : Z) : M fctx unit :=
  let! field_value := of_outcome (array_at a i) in format_text p padinfo field_value.

(** A [const char *] that may be null. *)
Definition c_text (s : option (list Z)) : outcome (list Z) := match s with Some t => Ok t | None => Undef end.

(** [basename]: what follows the last separator. *)
Definition basename (filename : list Z) : list Z :=
  match rfind folder_sep filename with Some i => rest_of (i + 1) filename | None => filename end.

Definition format_c (t : tm) : M buf unit :=
  let! d := of_outcome (array_at days (tm_wday t)) in
  do! append_string_view d in
  do! push_back 32 in
  let! m := of_outcome (array_at months (tm_mon t)) in
  do! append_string_view m in
  do! push_back 32 in
  do! append_int true 32 (tm_mday t) in
  do! push_back 32 in
  do! pad2 (tm_hour t) in
  do! push_back 58 in
  do! pad2 (tm_min t) in
  do! push_back 58 in
  do! pad2 (tm_sec t) in
  do! push_back 32 in
  append_int true 32 (tm_year t + 1900).

Definition format_D (t : tm) : M buf unit :=
  do! pad2 (tm_mon t + 1) in
  do! push_back 47 in
  do! pad2 (tm_mday t) in
  do! push_back 47 in
  pad2 (Z.rem (tm_year t) 100).

Definition format_r (t : tm) : M buf unit :=
  do! pad2 (to12h t) in
  do! push_back 58 in
  do! pad2 (tm_min t) in
  do! push_back 58 in
  do! pad2 (tm_sec t) in
  do! push_back 32 in
  append_string_view (ampm t).

Definition format_R (t : tm) : M buf unit :=
  do! pad2 (tm_hour t) in
  do! push_back 58 in
  pad2 (tm_min t).

Definition format_T (t : tm) : M buf unit :=
  do! pad2 (tm_hour t) in
  do! push_back 58 in
  do! pad2 (tm_min t) in
  do! push_back 58 in
  pad2 (tm_sec t).

(** [format_mdc]: every entry is padded by itself. *)
Fixpoint format_mdc (p : padder) (padinfo : padding_info) (entries : list (list Z * list Z)) : M fctx unit :=
  match entries with
  | [] => ret tt
  | (key, value) :: rest =>
      let is_last := match rest with [] => true | _ => false end in
      let content_size := zlen key + zlen value + 1 + (if is_last then 0 else 1) in
      do! padded p content_size padinfo
        (do! append_string_view key in
         do! append_string_view (chars ":") in
         do! append_string_view value in
         if is_last then ret tt else append_string_view (chars " ")) in
      format_mdc p padinfo rest
  end.

(** A formatter of the source location: nothing but padding without one. *)
Definition with_source (p : padder) (padinfo : padding_info) (msg : log_msg) (m : M fctx unit) : M fctx unit :=
  if source_loc_empty (source msg) then padded p 0 padinfo (ret tt) else m.

(** The text of a location, whose size is computed only for padding. *)
Definition format_c_text (p : padder) (padinfo : padding_info) (s : option (list Z)) : M fctx unit :=
  let! text := of_outcome (c_text s) in
  padded p (if enabled padinfo then zlen text else 0) padinfo (append_string_view text).

(** The [format] of each class. *)
Definition name_formatter_format (p : padder) (padinfo : padding_info) (msg : log_msg) (t : tm) : M fctx unit :=
  format_text p padinfo (logger_name msg).
Definition level_formatter_format (p : padder) (padinfo : padding_info) (msg : log_msg) (t : tm) : M fctx unit :=
  format_text p padinfo (to_string_view (level msg)).
Definition short_level_formatter_format (p : padder) (padinfo : padding_info) (msg : log_msg) (t : tm) : M fctx unit :=
  format_text p padinfo (to_short_c_str (level msg)).
Definition a_formatter_format (p : padder) (padinfo : padding_info) (msg : log_msg) (t : tm) : M fctx unit :=
  format_indexed p padinfo days (tm_wday t).
Definition A_formatter_format (p : padder) (padinfo : padding_info) (msg : log_msg) (t : tm) : M fctx unit :=
  format_indexed p padinfo full_days (tm_wday t).
Definition b_formatter_format (p : padder) (padinfo : padding_info) (msg : log_msg) (t : tm) : M fctx unit :=
  format_indexed p padinfo months (tm_mon t).
Definition B_formatter_format (p : padder) (padinfo : padding_info) (msg : log_msg) (t : tm) : M fctx unit :=
  format_indexed p padinfo full_months (tm_mon t).
Definition c_formatter_format (p : padder) (padinfo : padding_info) (msg : log_msg) (t : tm) : M fctx unit :=
  padded p 24 padinfo (format_c t).
Definition C_formatter_format (p : padder) (padinfo : padding_info) (msg : log_msg) (t : tm) : M fctx unit :=
  padded p 2 padinfo (pad2 (Z.rem (tm_year t) 100)).
Definition D_formatter_format (p : padder) (padinfo : padding_info) (msg : log_msg) (t : tm) : M fctx unit :=
  padded p 8 padinfo (format_D t).
Definition Y_formatter_format (p : padder) (padinfo : padding_info) (msg : log_msg) (t : tm) : M fctx unit :=
  padded p 4 padinfo (append_int true 32 (tm_year t + 1900)).
Definition m_formatter_format (p : padder) (padinfo : padding_info) (msg : log_msg) (t : tm) : M fctx unit :=
  padded p 2 padinfo (pad2 (tm_mon t + 1)).
Definition d_formatter_format (p : padder) (padinfo : padding_info) (msg : log_msg) (t : tm) : M fctx unit :=
  padded p 2 padinfo (pad2 (tm_mday t)).
Definition H_formatter_format (p : padder) (padinfo : padding_info) (msg : log_msg) (t : tm) : M fctx unit :=
  padded p 2 padinfo (pad2 (tm_hour t)).
Definition I_formatter_format (p : padder) (padinfo : padding_info) (msg : log_msg) (t : tm) : M fctx unit :=
  padded p 2 padinfo (pad2 (to12h t)).
Definition M_formatter_format (p : padder) (padinfo : padding_info) (msg : log_msg) (t : tm) : M fctx unit :=
  padded p 2 padinfo (pad2 (tm_min t)).
Definition S_formatter_format (p : padder) (padinfo : padding_info) (msg : log_msg) (t : tm) : M fctx unit :=
  padded p 2 padinfo (pad2 (tm_sec t)).
Definition e_formatter_format (p : padder) (padinfo : padding_info) (msg : log_msg) (t : tm) : M fctx unit :=
  padded p 3 padinfo (pad3 32 (u32 (time_fraction milliseconds (time msg)))).
Definition f_formatter_format (p : padder) (padinfo : padding_info) (msg : log_msg) (t : tm) : M fctx unit :=
  padded p 6 padinfo (pad6 64 (u64 (time_fraction microseconds (time msg)))).
Definition F_formatter_format (p : padder) (padinfo : padding_info) (msg : log_msg) (t : tm) : M fctx unit :=
  padded p 9 padinfo (pad9 64 (u64 (time_fraction nanoseconds (time msg)))).
Definition E_formatter_format (p : padder) (padinfo : padding_info) (msg : log_msg) (t : tm) : M fctx unit :=
  padded p 10 padinfo (append_int true 64 (duration_cast seconds (time msg))).
Definition p_formatter_format (p : padder) (padinfo : padding_info) (msg : log_msg) (t : tm) : M fctx unit :=
  padded p 2 padinfo (append_string_view (ampm t)).
Definition r_formatter_format (p : padder) (padinfo : padding_info) (msg : log_msg) (t : tm) : M fctx unit :=
  padded p 11 padinfo (format_r t).
Definition R_formatter_format (p : padder) (padinfo : padding_info) (msg : log_msg) (t : tm) : M fctx unit :=
  padded p 5 padinfo (format_R t).
Definition T_formatter_format (p : padder) (padinfo : padding_info) (msg : log_msg) (t : tm) : M fctx unit :=
  padded p 8 padinfo (format_T t).
Definition t_formatter_format (p : padder) (padinfo : padding_info) (msg : log_msg) (t : tm) : M fctx unit :=
  let! n := of_outcome (padder_count_digits p 64 (thread_id msg)) in
  padded p n padinfo (append_int false 64 (thread_id msg)).
Definition pid_formatter_format (p : padder) (padinfo : padding_info) (msg : log_msg) (t : tm) : M fctx unit :=
  let! n := of_outcome (padder_count_digits p 32 (u32 pid)) in
  padded p n padinfo (append_int false 32 (u32 pid)).
Definition v_formatter_format (p : padder) (padinfo : padding_info) (msg : log_msg) (t : tm) : M fctx unit :=
  format_text p padinfo (payload msg).
Definition source_location_formatter_format (p : padder) (padinfo : padding_info) (msg : log_msg) (t : tm) : M fctx unit :=
  with_source p padinfo msg
    (let! file := of_outcome (c_text (SpdCommon.filename (source msg))) in
     let! n := of_outcome (if enabled padinfo then padder_count_digits p 32 (line (source msg)) else Ok 0) in
     let text_size := if enabled padinfo then zlen file + n + 1 else 0 in
     padded p text_size padinfo
       (do! append_string_view file in
        do! push_back 58 in
        append_int true 32 (line (source msg)))).
Definition source_filename_formatter_format (p : padder) (padinfo : padding_info) (msg : log_msg) (t : tm) : M fctx unit :=
  with_source p padinfo msg (format_c_text p padinfo (SpdCommon.filename (source msg))).
Definition short_filename_formatter_format (p : padder) (padinfo : padding_info) (msg : log_msg) (t : tm) : M fctx unit :=
  with_source p padinfo msg
    (let! file := of_outcome (c_text (SpdCommon.filename (source msg))) in
     format_c_text p padinfo (Some (basename file))).
Definition source_linenum_formatter_format (p : padder) (padinfo : padding_info) (msg : log_msg) (t : tm) : M fctx unit :=
  with_source p padinfo msg
    (let! n := of_outcome (padder_count_digits p 32 (line (source msg))) in
     padded p n padinfo (append_int true 32 (line (source msg)))).
Definition source_funcname_formatter_format (p : padder) (padinfo : padding_info) (msg : log_msg) (t : tm) : M fctx unit :=
  with_source p padinfo msg (format_c_text p padinfo (funcname (source msg))).
Definition mdc_formatter_format (p : padder) (padinfo : padding_info) (msg : log_msg) (t : tm) : M fctx unit :=
  match mdc_context with
  | [] => padded p 0 padinfo (ret tt)
  | _ => format_mdc p padinfo mdc_context
  end.

(** The virtual call. *)
Definition format_plain (f : plain_flag) (p : padder) (padinfo : padding_info) (msg : log_msg) (t : tm) : M fctx unit :=
  match f with
  | name_formatter => name_formatter_format p padinfo msg t
  | level_formatter => level_formatter_format p padinfo msg t
  | short_level_formatter => short_level_formatter_format p padinfo msg t
  | a_formatter => a_formatter_format p padinfo msg t
  | A_formatter => A_formatter_format p padinfo msg t
  | b_formatter => b_formatter_format p padinfo msg t
  | B_formatter => B_formatter_format p padinfo msg t
  | c_formatter => c_formatter_format p padinfo msg t
  | C_formatter => C_formatter_format p padinfo msg t
  | D_formatter => D_formatter_format p padinfo msg t
  | Y_formatter => Y_formatter_format p padinfo msg t
  | m_formatter => m_formatter_format p padinfo msg t
  | d_formatter => d_formatter_format p padinfo msg t
  | H_formatter => H_formatter_format p padinfo msg t
  | I_formatter => I_formatter_format p padinfo msg t
  | M_formatter => M_formatter_format p padinfo msg t
  | S_formatter => S_formatter_format p padinfo msg t
  | e_formatter => e_formatter_format p padinfo msg t
  | f_formatter => f_formatter_format p padinfo msg t
  | F_formatter => F_formatter_format p padinfo msg t
  | E_formatter => E_formatter_format p padinfo msg t
  | p_formatter => p_formatter_format p padinfo msg t
  | r_formatter => r_formatter_format p padinfo msg t
  | R_formatter => R_formatter_format p padinfo msg t
  | T_formatter => T_formatter_format p padinfo msg t
  | t_formatter => t_formatter_format p padinfo msg t
  | pid_formatter => pid_formatter_format p padinfo msg t
  | v_formatter => v_formatter_format p padinfo msg t
  | source_location_formatter => source_location_formatter_format p padinfo msg t
  | source_filename_formatter => source_filename_formatter_format p padinfo msg t
  | short_filename_formatter => short_filename_formatter_format p padinfo msg t
  | source_linenum_formatter => source_linenum_formatter_format p padinfo msg t
  | source_funcname_formatter => source_funcname_formatter_format p padinfo msg t
  | mdc_formatter => mdc_formatter_format p padinfo msg t
  end.

(** ** full_formatter *)

(** The date and time part, which is cached. *)
Definition datetime_text (t : tm) : M buf unit :=
  do! push_back 91 in
  do! append_int true 32 (tm_year t + 1900) in
  do! push_back 45 in
  do! pad2 (tm_mon t + 1) in
  do! push_back 45 in
  do! pad2 (tm_mday t) in
  do! push_back 32 in
  do! pad2 (tm_hour t) in
  do! push_back 58 in
  do! pad2 (tm_min t) in
  do! push_back 58 in
  do! pad2 (tm_sec t) in
  push_back 46.

Definition mark_start : M fctx unit := modify (fun c => mkfctx (dest c) (zlen (dest c)) (range_end c)).
Definition mark_end : M fctx unit := modify (fun c => mkfctx (dest c) (range_start c) (zlen (dest c))).

(** What follows the cached part. *)
Definition full_rest (msg : log_msg) : M fctx unit :=
  do! on_dest (pad3 32 (u32 (time_fraction milliseconds (time msg)))) in
  do! on_dest (append_string_view (chars "] ")) in
  do! (if 0 <? zlen (logger_name msg) then
         do! on_dest (push_back 91) in
         do! on_dest (append_string_view (logger_name msg)) in
         on_dest (append_string_view (chars "] "))
       else ret tt) in
  do! on_dest (push_back 91) in
  do! mark_start in
  do! on_dest (append_string_view (to_string_view (level msg))) in
  do! mark_end in
  do! on_dest (append_string_view (chars "] ")) in
  do! (if negb (source_loc_empty (source msg)) then
         do! on_dest (push_back 91) in
         let! file := of_outcome (c_text (SpdCommon.filename (source msg))) in
         do! on_dest (append_string_view (basename file)) in
         do! on_dest (push_back 58) in
         do! on_dest (append_int true 32 (line (source msg))) in
         on_dest (append_string_view (chars "] "))
       else ret tt) in
  do! (match mdc_context with
       | [] => ret tt
       | _ =>
           do! on_dest (push_back 91) in
           do! format_mdc null_scoped_padder padding_info_default mdc_context in
           on_dest (append_string_view (chars "] "))
       end) in
  on_dest (append_string_view (payload msg)).

(** [full_formatter]: [cache_timestamp_] and [cached_datetime_]. *)
Record full_formatter := mkfull { cache_timestamp_ : Z; cached_datetime_ : list Z }.
Definition full_formatter_new : full_formatter := mkfull 0 [].

Definition refresh_datetime (secs : Z) (t : tm) (f : full_formatter) : outcome full_formatter :=
  if negb (cache_timestamp_ f =? secs) || (zlen (cached_datetime_ f) =? 0) then
    match datetime_text t [] with
    | (Ok _, d) => Ok (mkfull secs d)
    | (Throw e, _) => Throw e
    | (Undef, _) => Undef
    end
  else Ok f.

Definition format_full (f : full_formatter) (msg : log_msg) (t : tm) : M fctx full_formatter :=
  let secs := duration_cast seconds (time msg) in
  let! f := of_outcome (refresh_datetime secs t f) in
  do! on_dest (append_string_view (cached_datetime_ f)) in
  do! full_rest msg in
  ret f.
End format.

(** ** All formatters *)

(** [C] is the type of the custom formatters of the user. *)
Inductive flag_formatter (C : Type) :=
| Plain (f : plain_flag) (p : padder) (padinfo : padding_info)
| Z_formatter (p : padder) (padinfo : padding_info) (last_update offset_minutes : Z)
| Elapsed (units : Z) (p : padder) (padinfo : padding_info) (last_message_time : Z)
| Ch (ch : Z)
| Aggregate (str : list Z)
| ColorStart
| ColorStop
| Full (f : full_formatter)
| Custom (c : C) (padinfo : padding_info).
Arguments Plain {C}.
Arguments Z_formatter {C}.
Arguments Elapsed {C}.
Arguments Ch {C}.
Arguments Aggregate {C}.
Arguments ColorStart {C}.
Arguments ColorStop {C}.
Arguments Full {C}.
Arguments Custom {C}.

(** The virtual methods of a custom formatter. *)
Class CustomFlag (C : Type) := {
  custom_clone : C -> C;
  custom_format : C -> padding_info -> log_msg -> tm -> M fctx C }.

Inductive pattern_time_type := local | utc.

(** The pattern formatter. *)
Record pattern_formatter (C : Type) := mkpattern_formatter {
  pattern_ : list Z;
  eol_ : list Z;
  pattern_time_type_ : pattern_time_type;
  need_localtime_ : bool;
  cached_tm_ : tm;
  last_log_secs_ : Z;
  formatters_ : list (flag_formatter C);
  custom_handlers_ : gmap Z C }.
Arguments mkpattern_formatter {C}.
Arguments pattern_ {C}.
Arguments eol_ {C}.
Arguments pattern_time_type_ {C}.
Arguments need_localtime_ {C}.
Arguments cached_tm_ {C}.
Arguments last_log_secs_ {C}.
Arguments formatters_ {C}.
Arguments custom_handlers_ {C}.

Section pattern.
Context {C : Type} `{CustomFlag C}.
Context (pid : Z) (mdc_context : list (list Z * list Z)).
(** [os::localtime], [os::gmtime] of a second, [os::utc_minutes_offset]. *)
Context (localtime gmtime : Z -> tm) (utc_minutes_offset : tm -> Z).
(** [log_clock::now()] when an elapsed time formatter is constructed. *)
Context (now : Z).

(** [z_formatter::format] with [get_cached_offset]. *)
Definition get_cached_offset (msg : log_msg) (t : tm) (last_update offset_minutes : Z) : Z * Z :=
  if 10 * seconds <=? time msg - last_update then (time msg, utc_minutes_offset t) else (last_update, offset_minutes).

Definition format_z (p : padder) (padinfo : padding_info) (total_minutes : Z) : M fctx unit :=
  padded p 6 padinfo
    (let is_negative := total_minutes <? 0 in
     let total := if is_negative then - total_minutes else total_minutes in
     do! push_back (if is_negative then 45 else 43) in
     do! pad2 (Z.quot total 60) in
     do! push_back 58 in
     pad2 (Z.rem total 60)).

(** [elapsed_formatter::format]. *)
Definition format_elapsed (units : Z) (p : padder) (padinfo : padding_info) (last : Z) (msg : log_msg) : M fctx unit :=
  let delta := Z.max (time msg - last) 0 in
  let delta_count := u64 (duration_cast units delta) in
  let! n := of_outcome (padder_count_digits p 64 delta_count) in
  padded p n padinfo (append_int false 64 delta_count).

(** A formatter's [format]: the formatter afterwards. *)
Definition format_flag (f : flag_formatter C) (msg : log_msg) (t : tm) : M fctx (flag_formatter C) :=
  match f with
  | Plain g p padinfo => do! format_plain pid mdc_context g p padinfo msg t in ret f
  | Z_formatter p padinfo last offset =>
      let '(last, offset) := get_cached_offset msg t last offset in
      do! format_z p padinfo offset in ret (Z_formatter p padinfo last offset)
  | Elapsed units p padinfo last =>
      do! format_elapsed units p padinfo last msg in ret (Elapsed units p padinfo (time msg))
  | Ch ch => do! on_dest (push_back ch) in ret f
  | Aggregate str => do! on_dest (append_string_view str) in ret f
  | ColorStart => do! mark_start in ret f
  | ColorStop => do! mark_end in ret f
  | Full g => let! g := format_full mdc_context g msg t in ret (Full g)
  | Custom c padinfo => let! c := custom_format c padinfo msg t in ret (Custom c padinfo)
  end.

Fixpoint format_flags (fs : list (flag_formatter C)) (msg : log_msg) (t : tm) : M fctx (list (flag_formatter C)) :=
  match fs with
  | [] => ret []
  | f :: fs =>
      let! f := format_flag f msg t in
      let! fs := format_flags fs msg t in
      ret (f :: fs)
  end.

(** ** pattern_formatter *)

Definition get_time_ (p : pattern_formatter C) (msg : log_msg) : tm :=
  match pattern_time_type_ p with
  | local => localtime (duration_cast seconds (time msg))
  | utc => gmtime (duration_cast seconds (time msg))
  end.

Definition set_time (t : tm) (secs : Z) (p : pattern_formatter C) : pattern_formatter C :=
  mkpattern_formatter (pattern_ p) (eol_ p) (pattern_time_type_ p) (need_localtime_ p) t secs (formatters_ p) (custom_handlers_ p).
Definition set_formatters (fs : list (flag_formatter C)) (p : pattern_formatter C) : pattern_formatter C :=
  mkpattern_formatter (pattern_ p) (eol_ p) (pattern_time_type_ p) (need_localtime_ p) (cached_tm_ p) (last_log_secs_ p) fs
    (custom_handlers_ p).

Definition refresh_time (msg : log_msg) (p : pattern_formatter C) : pattern_formatter C :=
  if need_localtime_ p then
    let secs := duration_cast seconds (time msg) in
    if negb (secs =? last_log_secs_ p) then set_time (get_time_ p msg) secs p else p
  else p.

(** [format]: the formatter afterwards. *)
Definition format (p : pattern_formatter C) (msg : log_msg) : M fctx (pattern_formatter C) :=
  let p := refresh_time msg p in
  let! fs := format_flags (formatters_ p) msg (cached_tm_ p) in
  do! on_dest (append_string_view (eol_ p)) in
  ret (set_formatters fs p).

(** [handle_flag_]: the formatters for a flag, and whether they need the time. *)
Definition handle_flag_ (custom : gmap Z C) (pd : padder) (flag : Z) (padding : padding_info)
  : list (flag_formatter C) * bool :=
  match custom !! flag with
  | Some c => ([Custom (custom_clone c) padding], false)
  | None =>
      let plain f := ([Plain f pd padding], false) in
      let timed f := ([Plain f pd padding], true) in
      let on s := bool_decide (chars s = [flag]) in
      if on "+" then ([Full full_formatter_new], true)
      else if on "n" then plain name_formatter
      else if on "l" then plain level_formatter
      else if on "L" then plain short_level_formatter
      else if on "t" then plain t_formatter
      else if on "v" then plain v_formatter
      else if on "a" then timed a_formatter
      else if on "A" then timed A_formatter
      else if on "b" || on "h" then timed b_formatter
      else if on "B" then timed B_formatter
      else if on "c" then timed c_formatter
      else if on "C" then timed C_formatter
      else if on "Y" then timed Y_formatter
      else if on "D" || on "x" then timed D_formatter
      else if on "m" then timed m_formatter
      else if on "d" then timed d_formatter
      else if on "H" then timed H_formatter
      else if on "I" then timed I_formatter
      else if on "M" then timed M_formatter
      else if on "S" then timed S_formatter
      else if on "e" then plain e_formatter
      else if on "f" then plain f_formatter
      else if on "F" then plain F_formatter
      else if on "E" then plain E_formatter
      else if on "p" then timed p_formatter
      else if on "r" then timed r_formatter
      else if on "R" then timed R_formatter
      else if on "T" || on "X" then timed T_formatter
      else if on "z" then ([Z_formatter pd padding 0 0], true)
      else if on "P" then plain pid_formatter
      else if on "^" then ([ColorStart], false)
      else if on "$" then ([ColorStop], false)
      else if on "@" then plain source_location_formatter
      else if on "s" then plain short_filename_formatter
      else if on "g" then plain source_filename_formatter
      else if on "#" then plain source_linenum_formatter
      else if on "!" then plain source_funcname_formatter
      else if on "%" then ([Ch 37], false)
      else if on "u" then ([Elapsed nanoseconds pd padding now], false)
      else if on "i" then ([Elapsed microseconds pd padding now], false)
      else if on "o" then ([Elapsed milliseconds pd padding now], false)
      else if on "O" then ([Elapsed seconds pd padding now], false)
      else if on "&" then plain mdc_formatter
      else if negb (truncate_ padding) then ([Aggregate [37; flag]], false)
      else
        let padding := mkpadding_info (width_ padding) (side_ padding) false (enabled_ padding) in
        ([Plain source_funcname_formatter pd padding; Aggregate [flag]], false)
  end.

(** ** Compiling a pattern *)

Definition isdigit (c : Z) : bool := (48 <=? c) && (c <=? 57).

(** The digits of the width. *)
Fixpoint read_width (width : Z) (l : list Z) : Z * list Z :=
  match l with
  | c :: l' => if isdigit c then read_width (u64 (width * 10 + (c - 48))) l' else (width, l)
  | [] => (width, l)
  end.

Definition max_width : Z := 64.

(** [handle_padspec_]: the padding and what follows it. *)
Definition handle_padspec_ (l : list Z) : padding_info * list Z :=
  match l with
  | [] => (padding_info_default, [])
  | c :: l' =>
      let '(side, l) := if c =? 45 then (right, l') else if c =? 61 then (center, l') else (left, l) in
      match l with
      | c :: l =>
          if isdigit c then
            let '(width, l) := read_width (c - 48) l in
            let '(truncate, l) := match l with 33 :: l => (true, l) | _ => (false, l) end in
            (padding_info_new (Z.min width max_width) side truncate, l)
          else (padding_info_default, c :: l)
      | [] => (padding_info_default, [])
      end
  end.

(** What is pushed for the characters collected so far. *)
Definition flush_chars (user_chars : option (list Z)) : list (flag_formatter C) :=
  match user_chars with Some s => [Aggregate s] | None => [] end.

(** [compile_pattern_]: a round consumes at least one character. *)
Fixpoint compile_loop (fuel : nat) (custom : gmap Z C) (l : list Z) (user_chars : option (list Z))
  : list (flag_formatter C) * bool :=
  match l, fuel with
  | [], _ | _, O => (flush_chars user_chars, false)
  | c :: l, S fuel =>
      if c =? 37 then
        let '(padding, l) := handle_padspec_ l in
        match l with
        | [] => (flush_chars user_chars, false)
        | flag :: l =>
            let pd := if enabled padding then scoped_padder else null_scoped_padder in
            let '(fs, need) := handle_flag_ custom pd flag padding in
            let '(rest, need') := compile_loop fuel custom l None in
            (flush_chars user_chars ++ fs ++ rest, need || need')
        end
      else
        compile_loop fuel custom l (Some (match user_chars with Some s => s ++ [c] | None => [c] end))
  end.

Definition compile_pattern_ (custom : gmap Z C) (pattern : list Z) : list (flag_formatter C) * bool :=
  compile_loop (length pattern) custom pattern None.

(** The constructors. *)
Definition pattern_formatter_new (pattern : list Z) (time_type : pattern_time_type) (eol : list Z) (custom : gmap Z C)
  : pattern_formatter C :=
  let '(fs, need) := compile_pattern_ custom pattern in
  mkpattern_formatter pattern eol time_type need tm_zero 0 fs custom.
Definition pattern_formatter_default (time_type : pattern_time_type) (eol : list Z) : pattern_formatter C :=
  mkpattern_formatter (chars "%+") eol time_type true tm_zero 0 [Full full_formatter_new] ∅.

Definition need_localtime (need : bool) (p : pattern_formatter C) : pattern_formatter C :=
  mkpattern_formatter (pattern_ p) (eol_ p) (pattern_time_type_ p) need (cached_tm_ p) (last_log_secs_ p) (formatters_ p)
    (custom_handlers_ p).

Definition clone (p : pattern_formatter C) : pattern_formatter C :=
  need_localtime (need_localtime_ p)
    (pattern_formatter_new (pattern_ p) (pattern_time_type_ p) (eol_ p) (custom_clone <$> custom_handlers_ p)).

Definition set_pattern (pattern : list Z) (p : pattern_formatter C) : pattern_formatter C :=
  let '(fs, need) := compile_pattern_ (custom_handlers_ p) pattern in
  mkpattern_formatter pattern (eol_ p) (pattern_time_type_ p) need (cached_tm_ p) (last_log_secs_ p) fs (custom_handlers_ p).

Definition add_flag (flag : Z) (c : C) (p : pattern_formatter C) : pattern_formatter C :=
  mkpattern_formatter (pattern_ p) (eol_ p) (pattern_time_type_ p) (need_localtime_ p) (cached_tm_ p) (last_log_secs_ p)
    (formatters_ p) (<[flag := c]> (custom_handlers_ p)).
End pattern.

(** ** Without caches *)

Section reference.
Context {C : Type} `{CustomFlag C}.
Context (pid : Z) (mdc_context : list (list Z * list Z)) (localtime gmtime : Z -> tm) (utc_minutes_offset : tm -> Z).

(** A flag formatted afresh: [prev] is the time of the previous message. *)
Definition fresh_flag (f : flag_formatter C) (prev : Z) (msg : log_msg) (t : tm) : M fctx unit :=
  match f with
  | Elapsed units p padinfo _ => format_elapsed units p padinfo prev msg
  | Full _ => do! on_dest (datetime_text t) in full_rest mdc_context msg
  | _ => do! format_flag pid mdc_context utc_minutes_offset f msg t in ret tt
  end.

Fixpoint fresh_flags (fs : list (flag_formatter C)) (prev : Z) (msg : log_msg) (t : tm) : M fctx unit :=
  match fs with
  | [] => ret tt
  | f :: fs => do! fresh_flag f prev msg t in fresh_flags fs prev msg t
  end.

(** The broken-down time of a message. *)
Definition time_of (ty : pattern_time_type) (secs : Z) : tm := match ty with local => localtime secs | utc => gmtime secs end.
Definition secs_of (msg : log_msg) : Z := duration_cast seconds (time msg).

Definition fresh_format (fs : list (flag_formatter C)) (ty : pattern_time_type) (eol : list Z) (prev : Z) (msg : log_msg) : M fctx unit :=
  do! fresh_flags fs prev msg (time_of ty (secs_of msg)) in
  on_dest (append_string_view eol).

(** A line starts with an empty buffer. *)
Definition start_line (msg : log_msg) : fctx := mkfctx [] (color_range_start msg) (color_range_end msg).

(** The lines of a run of messages, up to the first failure. *)
Fixpoint render_all (p : pattern_formatter C) (msgs : list log_msg) : outcome (list fctx) :=
  match msgs with
  | [] => Ok []
  | msg :: msgs =>
      match format pid mdc_context localtime gmtime utc_minutes_offset p msg (start_line msg) with
      | (Ok p, c) => outcome_map (cons c) (render_all p msgs)
      | (Throw e, _) => Throw e
      | (Undef, _) => Undef
      end
  end.
Fixpoint fresh_all (fs : list (flag_formatter C)) (ty : pattern_time_type) (eol : list Z) (prev : Z) (msgs : list log_msg) : outcome (list fctx) :=
  match msgs with
  | [] => Ok []
  | msg :: msgs =>
      match fresh_format fs ty eol prev msg (start_line msg) with
      | (Ok _, c) => outcome_map (cons c) (fresh_all fs ty eol (time msg) msgs)
      | (Throw e, _) => Throw e
      | (Undef, _) => Undef
      end
  end.

(** *** Appending *)

(** A function that only appends does the same whatever the buffer holds. *)
Definition appends (m : M buf unit) : Prop := forall d, m d = let '(o, x) := m [] in (o, d ++ x).

Lemma appends_modify x : appends (append_string_view x).
Proof. intros d. done. Qed.
Lemma appends_push c : appends (push_back c).
Proof. intros d. done. Qed.
Lemma appending_bind m1 m2 : appends m1 -> appends m2 -> appends (do! m1 in m2).
Proof.
  intros H1 H2 d. unfold bind. rewrite (H1 d). destruct (m1 []) as [[[]|e|] x]; [|done..].
  rewrite (H2 (d ++ x)), (H2 x). destruct (m2 []) as [o y]. by rewrite app_assoc.
Qed.
Lemma appends_int s b n : appends (append_int s b n).
Proof. intros d. unfold append_int, bind, of_outcome. destruct (format_int_new _ _ _ _); [apply appends_modify|simpl; by rewrite app_nil_r..]. Qed.
Lemma appends_pad2 n : appends (pad2 n).
Proof. unfold pad2. split_if; [apply appending_bind; apply appends_push|apply appends_modify]. Qed.
Lemma appends_datetime t : appends (datetime_text t).
Proof. unfold datetime_text. repeat apply appending_bind; auto using appends_push, appends_int, appends_pad2. Qed.

(** *** Flags that do not look at the time *)

Definition plain_uses_tm (f : plain_flag) : bool :=
  match f with
  | a_formatter | A_formatter | b_formatter | B_formatter | c_formatter | C_formatter | D_formatter | Y_formatter
  | m_formatter | d_formatter | H_formatter | I_formatter | M_formatter | S_formatter | p_formatter | r_formatter
  | R_formatter | T_formatter => true
  | _ => false
  end.
Definition uses_tm (f : flag_formatter C) : bool :=
  match f with Plain f _ _ => plain_uses_tm f | Z_formatter _ _ _ _ | Full _ => true | _ => false end.

(** Flags with a state that is not looked at here. *)
Definition cacheable (f : flag_formatter C) : bool := match f with Z_formatter _ _ _ _ | Custom _ _ => false | _ => true end.

Lemma fresh_flag_no_tm f prev msg t t' :
  cacheable f = true -> uses_tm f = false -> fresh_flag f prev msg t = fresh_flag f prev msg t'.
Proof. destruct f as [f| | | | | | | |]; simpl; try done. by destruct f. Qed.

Lemma fresh_flags_no_tm fs prev msg t t' :
  Forall (fun f => cacheable f = true) fs -> Forall (fun f => uses_tm f = false) fs ->
  fresh_flags fs prev msg t = fresh_flags fs prev msg t'.
Proof.
  induction 1 as [|f fs Hf _ IH]; intros Hu; [done|]. apply Forall_cons in Hu as [Hu Hus]. simpl.
  by rewrite (fresh_flag_no_tm f prev msg t t' Hf Hu), IH.
Qed.

(** *** Formatting with caches *)

Context (ty : pattern_time_type).

(** The state of a flag after messages up to time [prev]. *)
Definition same_flag (prev : Z) (f f0 : flag_formatter C) : Prop :=
  match f, f0 with
  | Full g, Full _ => cached_datetime_ g = [] \/ datetime_text (time_of ty (cache_timestamp_ g)) [] = (Ok tt, cached_datetime_ g)
  | Elapsed u p i last, Elapsed u0 p0 i0 _ => u = u0 /\ p = p0 /\ i = i0 /\ last = prev
  | _, _ => f = f0
  end.

(** The same result, up to the state of the object. *)
Definition same_result {A B} (Q : A -> B -> Prop) (r : outcome A * fctx) (r0 : outcome B * fctx) : Prop :=
  match r0 with
  | (Ok b, c) => exists a, r = (Ok a, c) /\ Q a b
  | (Throw e, _) => fst r = Throw e
  | (Undef, _) => fst r = Undef
  end.

Lemma same_result_bind {A B A' B'} (Q : A -> B -> Prop) (Q' : A' -> B' -> Prop) (m : M fctx A) (m0 : M fctx B) k k0 c :
  same_result Q (m c) (m0 c) -> (forall a b c, Q a b -> same_result Q' (k a c) (k0 b c)) ->
  same_result Q' (bind m k c) (bind m0 k0 c).
Proof.
  unfold same_result at 1. unfold bind. intros Hm Hk. destruct (m0 c) as [[b|e|] c'].
  - destruct Hm as (a & -> & HQ). by apply Hk.
  - destruct (m c) as [[a|e'|] c'']; simplify_eq/=; done.
  - destruct (m c) as [[a|e'|] c'']; simplify_eq/=; done.
Qed.

Lemma same_result_unit {A} (m : M fctx unit) (a : A) (Q : A -> unit -> Prop) c :
  Q a tt -> same_result Q ((do! m in ret a) c) (m c).
Proof. intros HQ. unfold bind, same_result. destruct (m c) as [[[]|e|] c']; simpl; eauto. Qed.

Lemma push_nonempty x m o d : appends m -> (do! push_back x in m) [] = (o, d) -> d <> [].
Proof. intros Hm. unfold bind, push_back, modify. simpl. rewrite (Hm [x]). destruct (m []). by intros [= _ <-]. Qed.

Lemma datetime_nonempty t d : datetime_text t [] = (Ok tt, d) -> d <> [].
Proof.
  intros E. unfold datetime_text in E. apply push_nonempty in E; [done|].
  repeat apply appending_bind; auto using appends_push, appends_int, appends_pad2.
Qed.

Lemma on_dest_appends m c :
  appends m -> on_dest m c = let '(o, x) := m [] in (o, mkfctx (dest c ++ x) (range_start c) (range_end c)).
Proof. intros Hm. unfold on_dest, zoom. rewrite (Hm (dest c)). by destruct (m []). Qed.

Lemma format_full_fresh g msg c :
  let t := time_of ty (secs_of msg) in
  cached_datetime_ g = [] \/ datetime_text (time_of ty (cache_timestamp_ g)) [] = (Ok tt, cached_datetime_ g) ->
  same_result (fun g _ => datetime_text (time_of ty (cache_timestamp_ g)) [] = (Ok tt, cached_datetime_ g))
    (format_full mdc_context g msg t c) ((do! on_dest (datetime_text t) in full_rest mdc_context msg) c).
Proof.
  intros t Hg. unfold format_full, refresh_datetime. fold (secs_of msg).
  assert (Hc : (negb (cache_timestamp_ g =? secs_of msg) || (zlen (cached_datetime_ g) =? 0)) = false ->
    datetime_text t [] = (Ok tt, cached_datetime_ g)).
  { intros E. apply orb_false_elim in E as [E1 E2]. apply negb_false_iff, Z.eqb_eq in E1. apply Z.eqb_neq in E2.
    destruct Hg as [Hg|Hg]; [by rewrite Hg in E2|]. by rewrite E1 in Hg. }
  assert (E0 : (do! on_dest (datetime_text t) in full_rest mdc_context msg) c =
    let '(o, x) := datetime_text t [] in
    match o with
    | Ok _ => full_rest mdc_context msg (mkfctx (dest c ++ x) (range_start c) (range_end c))
    | Throw e => (Throw e, mkfctx (dest c ++ x) (range_start c) (range_end c))
    | Undef => (Undef, mkfctx (dest c ++ x) (range_start c) (range_end c))
    end).
  { unfold bind. rewrite on_dest_appends by apply appends_datetime. by destruct (datetime_text t []) as [[[]|e|] x]. }
  rewrite E0. clear E0. destruct (_ || _).
  - destruct (datetime_text t []) as [[[]|e|] d] eqn:Ed; [|done..]. bind_step by reflexivity. bind_step by reflexivity.
    apply same_result_unit. exact Ed.
  - rewrite (Hc eq_refl). bind_step by reflexivity. bind_step by reflexivity.
    apply same_result_unit. destruct Hg as [Hg|Hg]; [|exact Hg]. exfalso. by apply (datetime_nonempty _ _ (Hc eq_refl)).
Qed.

Lemma same_result_forget {A} (m : M fctx A) (Q : A -> unit -> Prop) c :
  (forall a c', m c = (Ok a, c') -> Q a tt) -> same_result Q (m c) ((do! m in ret tt) c).
Proof. intros HQ. unfold bind, same_result. destruct (m c) as [[a|e|] c']; simpl; eauto. Qed.

(** Formatters without state stay what they are. *)
Lemma ret_same {A} (m : M fctx unit) (a b : A) c c' : (do! m in ret a) c = (Ok b, c') -> b = a.
Proof. unfold bind, ret. destruct (m c) as [[[]|e|] d]; intros E; by inversion E. Qed.

Lemma format_flag_fresh prev f f0 msg t c :
  cacheable f0 = true -> same_flag prev f f0 -> uses_tm f0 = false \/ t = time_of ty (secs_of msg) ->
  same_result (fun f _ => same_flag (time msg) f f0)
    (format_flag pid mdc_context utc_minutes_offset f msg t c) (fresh_flag f0 prev msg t c).
Proof.
  intros Hc Hs Ht. destruct f0 as [g p i| |u p i last|ch|str| | |g0|]; try done; destruct f as [| | | | | | |g'|]; try done.
  all: cbn [same_flag] in Hs; simplify_eq.
  all: try (apply same_result_forget; intros a c' E; by rewrite (ret_same _ _ _ _ _ E)).
  - destruct Hs as (-> & -> & -> & ->). apply same_result_unit. done.
  - destruct Ht as [Ht| ->]; [done|]. cbn [format_flag fresh_flag]. pose proof (format_full_fresh g' msg c Hs) as Hf. cbv zeta in Hf. unfold same_result in *.
    destruct ((do! on_dest _ in full_rest _ _) c) as [[[]|e|] c'].
    + destruct Hf as (g & E & HQ). exists (Full g). split; [by rewrite (bind_ok _ _ _ _ _ E)|]. by right.
    + unfold bind. by destruct (format_full _ _ _ _ c) as [[]]; simplify_eq/=.
    + unfold bind. by destruct (format_full _ _ _ _ c) as [[]]; simplify_eq/=.
Qed.

Lemma format_flags_fresh prev fs fs0 msg t c :
  Forall (fun f => cacheable f = true) fs0 -> Forall2 (same_flag prev) fs fs0 ->
  Forall (fun f => uses_tm f = false \/ t = time_of ty (secs_of msg)) fs0 ->
  same_result (fun fs _ => Forall2 (same_flag (time msg)) fs fs0)
    (format_flags pid mdc_context utc_minutes_offset fs msg t c) (fresh_flags fs0 prev msg t c).
Proof.
  intros Hc Hs Ht. revert c Hc Ht. induction Hs as [|f f0 fs fs0 Hf _ IH]; intros c Hc Ht.
  - exists []. by split.
  - apply Forall_cons in Hc as [Hc Hcs]. apply Forall_cons in Ht as [Ht Hts]. cbn [format_flags fresh_flags].
    apply (same_result_bind (fun f _ => same_flag (time msg) f f0)); [by apply format_flag_fresh|]. intros g [] c1 Hg.
    specialize (IH c1 Hcs Hts). unfold same_result in *. destruct (fresh_flags _ _ _ _ c1) as [[[]|e|] c2].
    + destruct IH as (gs & E & HQ). exists (g :: gs). split; [by rewrite (bind_ok _ _ _ _ _ E)|]. by constructor.
    + unfold bind. by destruct (format_flags _ _ _ _ _ _ c1) as [[]]; simplify_eq/=.
    + unfold bind. by destruct (format_flags _ _ _ _ _ _ c1) as [[]]; simplify_eq/=.
Qed.

(** The formatter after messages up to time [prev]. *)
Record in_step (fs0 : list (flag_formatter C)) (eol : list Z) (prev : Z) (p : pattern_formatter C) : Prop := {
  is_flags : Forall2 (same_flag prev) (formatters_ p) fs0;
  is_type : pattern_time_type_ p = ty;
  is_eol : eol_ p = eol;
  is_need : need_localtime_ p = false -> Forall (fun f => uses_tm f = false) fs0;
  is_time : last_log_secs_ p = 0 \/ cached_tm_ p = time_of ty (last_log_secs_ p) }.

Lemma format_in_step fs0 eol prev p msg c :
  Forall (fun f => cacheable f = true) fs0 -> in_step fs0 eol prev p -> secs_of msg <> 0 ->
  same_result (fun p _ => in_step fs0 eol (time msg) p)
    (format pid mdc_context localtime gmtime utc_minutes_offset p msg c)
    (fresh_format fs0 ty eol prev msg c).
Proof.
  intros Hc [Hf Ht He Hn Hl] Hs. unfold format, fresh_format.
  set (q := refresh_time _ _ msg p).
  assert (Hq : formatters_ q = formatters_ p /\ eol_ q = eol /\ pattern_time_type_ q = ty /\ need_localtime_ q = need_localtime_ p /\
    (last_log_secs_ q = 0 \/ cached_tm_ q = time_of ty (last_log_secs_ q)) /\
    (need_localtime_ p = true -> cached_tm_ q = time_of ty (secs_of msg))).
  { unfold q, refresh_time. destruct (need_localtime_ p) eqn:En; [|by split_and!]. fold (secs_of msg).
    assert (Hg : get_time_ localtime gmtime p msg = time_of ty (secs_of msg)) by (unfold get_time_; by rewrite Ht).
    destruct (Z.eqb_spec (secs_of msg) (last_log_secs_ p)) as [E|E]; simpl; rewrite ?Hg; split_and!; try done; [|by right].
    intros _. rewrite E. destruct Hl as [Hl|Hl]; [congruence|done]. }
  clearbody q. destruct Hq as (Q1 & Q2 & Q3 & Q4 & Q5 & Q6). rewrite Q1, Q2.
  assert (Hfl : same_result (fun fs _ => Forall2 (same_flag (time msg)) fs fs0)
    (format_flags pid mdc_context utc_minutes_offset (formatters_ p) msg (cached_tm_ q) c)
    (fresh_flags fs0 prev msg (time_of ty (secs_of msg)) c)).
  { destruct (need_localtime_ p).
    - rewrite Q6 by done. apply format_flags_fresh; [done|done|]. apply Forall_forall. by right.
    - rewrite (fresh_flags_no_tm fs0 prev msg _ (cached_tm_ q)) by auto. apply format_flags_fresh; [done|done|].
      eapply Forall_impl; [by apply Hn|]. by left. }
  apply (same_result_bind (fun fs _ => Forall2 (same_flag (time msg)) fs fs0)); [exact Hfl|]. intros fs [] c1 Hfs.
  apply same_result_unit. split; simpl; try done. by rewrite Q4.
Qed.

Lemma render_all_fresh fs0 eol prev p msgs :
  Forall (fun f => cacheable f = true) fs0 -> in_step fs0 eol prev p -> Forall (fun m => secs_of m <> 0) msgs ->
  render_all p msgs = fresh_all fs0 ty eol prev msgs.
Proof.
  intros Hc. revert prev p. induction msgs as [|m msgs IH]; intros prev p Hp Hm; [done|].
  apply Forall_cons in Hm as [Hm Hms]. simpl. pose proof (format_in_step fs0 eol prev p m (start_line m) Hc Hp Hm) as Hf.
  unfold same_result in Hf. destruct (fresh_format _ _ _ _ _ _) as [[[]|e|] c].
  - destruct Hf as (p' & -> & Hp'). by rewrite (IH (time m) p').
  - destruct (format _ _ _ _ _ _ _ _) as [[]]; by simplify_eq/=.
  - destruct (format _ _ _ _ _ _ _ _) as [[]]; by simplify_eq/=.
Qed.
End reference.

(** ** What a pattern compiles to *)

Section compiled.
Context {C : Type} `{CustomFlag C} (now : Z).

(** A new flag, and whether it asks for the time. *)
Lemma handle_flag_new pd flag padding fs need :
  handle_flag_ now (∅ : gmap Z C) pd flag padding = (fs, need) ->
  (need = false -> Forall (fun f => uses_tm f = false) fs) /\
  (forall ty lt gt, Forall (fun f => same_flag lt gt ty now f f) fs).
Proof.
  unfold handle_flag_. rewrite lookup_empty. cbv zeta. intros E.
  repeat match type of E with (if ?b then _ else _) = _ => destruct b end;
    injection E as <- <-; (split; [intros En|intros ty lt gt]); try discriminate; repeat constructor; done.
Qed.

Lemma compile_loop_new fuel l user fs need :
  compile_loop now fuel (∅ : gmap Z C) l user = (fs, need) ->
  (need = false -> Forall (fun f => uses_tm f = false) fs) /\
  (forall ty lt gt, Forall (fun f => same_flag lt gt ty now f f) fs).
Proof.
  assert (Hu : forall u : option (list Z), Forall (fun f : flag_formatter C => uses_tm f = false) (flush_chars u) /\
    forall ty lt gt, Forall (fun f : flag_formatter C => same_flag lt gt ty now f f) (flush_chars u)).
  { intros [u|]; (split; [|intros]); by repeat constructor. }
  revert l user fs need. induction fuel as [|fuel IH]; intros [|c l] user fs need E; cbn [compile_loop] in E.
  1-3: injection E as <- <-; (split; [intros _|intros]); apply Hu.
  destruct (c =? 37); [|by eapply IH]. destruct (handle_padspec_ l) as [padding [|flag l']]; [injection E as <- <-; (split; [intros _|intros]); apply Hu|].
  destruct (handle_flag_ _ _ _ _ _) as [fs1 n1] eqn:E1. destruct (compile_loop _ _ _ l' _) as [fs2 n2] eqn:E2. injection E as <- <-.
  apply handle_flag_new in E1 as [A1 B1]. apply IH in E2 as [A2 B2]. split.
  - intros En. apply orb_false_elim in En as [? ?]. rewrite !Forall_app. split_and!; [apply Hu|auto..].
  - intros ty lt gt. rewrite !Forall_app. split_and!; [apply Hu|auto..].
Qed.

(** A new formatter renders as if it had no caches. *)
Lemma new_renders_fresh pid mdc_context localtime gmtime utc_minutes_offset pattern ty eol msgs :
  let p := pattern_formatter_new now pattern ty eol (∅ : gmap Z C) in
  Forall (fun f => cacheable f = true) (formatters_ p) -> Forall (fun m => secs_of m <> 0) msgs ->
  render_all pid mdc_context localtime gmtime utc_minutes_offset p msgs =
    fresh_all pid mdc_context localtime gmtime utc_minutes_offset (formatters_ p) ty eol now msgs.
Proof.
  intros p Hc Hm. apply (render_all_fresh pid mdc_context localtime gmtime utc_minutes_offset ty); [done| |done].
  unfold p, pattern_formatter_new, compile_pattern_. destruct (compile_loop _ _ _ _ _) as [fs need] eqn:E. simpl.
  apply compile_loop_new in E as [A B]. split; simpl; [|done|done|exact A|by left].
  specialize (B ty localtime gmtime). clear -B. induction B; by constructor.
Qed.
End compiled.

(** C26: the caches of the pattern formatter are invisible: for every pattern without
    custom flags and without the UTC offset flag, and every run of messages none of which
    is in the first second of 1970, the formatter, which breaks the time down
    once per second and keeps the text of the date, writes exactly the lines
    and colour ranges of formatting each message afresh with its own time; an
    elapsed time counts from the previous message, the first one from the
    construction. *)
Theorem pattern_cache_exact {C} `{CustomFlag C} pid mdc_context localtime gmtime utc_minutes_offset (now : Z)
    (pattern : list Z) (ty : pattern_time_type) (eol : list Z) (msgs : list log_msg) :
  let p := pattern_formatter_new now pattern ty eol (∅ : gmap Z C) in
  Forall (fun f => cacheable f = true) (formatters_ p) -> Forall (fun m => secs_of m <> 0) msgs ->
  render_all pid mdc_context localtime gmtime utc_minutes_offset p msgs =
    fresh_all pid mdc_context localtime gmtime utc_minutes_offset (formatters_ p) ty eol now msgs.
Proof. intros p. apply new_renders_fresh. Qed.

(** ** Patterns as their author means them *)

(** Text, or a flag with its padding: side, width, truncation. *)
Inductive item :=
| Lit (text : list Z)
| Flag (spec : option (pad_side * Z * bool)) (flag : Z).

Definition side_chars (s : pad_side) : list Z := match s with left => [] | right => [45] | center => [61] end.
Definition spec_chars (spec : option (pad_side * Z * bool)) : list Z :=
  match spec with
  | Some (side, width, truncate) => side_chars side ++ digits width ++ (if truncate then [33] else [])
  | None => []
  end.
Definition print_item (i : item) : list Z :=
  match i with Lit text => text | Flag spec flag => [37] ++ spec_chars spec ++ [flag] end.
Definition print_items (l : list item) : list Z := concat (map print_item l).

(** The padding a specification asks for. *)
Definition spec_padding (spec : option (pad_side * Z * bool)) : padding_info :=
  match spec with
  | Some (side, width, truncate) => padding_info_new (Z.min width max_width) side truncate
  | None => padding_info_default
  end.

(** A pattern that can be read in one way: text has no percent sign, a flag does
    not continue the specification before it. *)
Definition item_ok (i : item) : bool :=
  match i with
  | Lit text => forallb (fun c => negb (c =? 37)) text && negb (bool_decide (text = []))
  | Flag None flag => negb (isdigit flag) && negb (flag =? 45) && negb (flag =? 61)
  | Flag (Some (_, width, truncate)) flag =>
      (0 <=? width) && (width <? 2 ^ 64) && (truncate || (negb (isdigit flag) && negb (flag =? 33)))
  end.
Fixpoint separated (l : list item) : bool :=
  match l with Lit _ :: ((Lit _ :: _) as l') => false | _ :: l => separated l | [] => true end.

Section items.
Context {C : Type} `{CustomFlag C} (now : Z) (custom : gmap Z C).

Definition item_flags (i : item) : list (flag_formatter C) * bool :=
  match i with
  | Lit text => ([Aggregate text], false)
  | Flag spec flag =>
      let padding := spec_padding spec in
      handle_flag_ now custom (if enabled padding then scoped_padder else null_scoped_padder) flag padding
  end.
Definition items_flags (l : list item) : list (flag_formatter C) * bool :=
  (concat (map (fun i => fst (item_flags i)) l), existsb (fun i => snd (item_flags i)) l).

Definition digit_value (a c : Z) : Z := u64 (a * 10 + (c - 48)).

(** Where no digit follows. *)
Definition no_digit (l : list Z) : bool := match l with c :: _ => negb (isdigit c) | [] => true end.

Lemma read_width_digits a ds r :
  Forall (fun c => isdigit c = true) ds -> no_digit r = true -> read_width a (ds ++ r) = (foldl digit_value a ds, r).
Proof.
  intros Hd Hr. revert a. induction Hd as [|c ds Hc _ IH]; intros a; simpl; [|by rewrite Hc, IH].
  destruct r as [|c r]; [done|]. simpl in *. apply negb_true_iff in Hr. by rewrite Hr.
Qed.

Lemma digits_value n : 0 <= n < 2 ^ 64 -> Forall (fun c => isdigit c = true) (digits n) /\ foldl digit_value 0 (digits n) = n.
Proof.
  intros [Hn Hu]. revert Hu. pattern n. apply Zlt_0_ind; [|done]. clear n Hn. intros n IH Hn Hu.
  destruct (Z.ltb_spec n 10).
  - rewrite digits_small by lia. split; [|unfold digit_value, digit_char; simpl; unfold u64; rewrite wrap_small by lia; lia].
    constructor; [|done]. unfold isdigit, digit_char. apply andb_true_intro. split; apply Z.leb_le; lia.
  - rewrite digits_10 by lia. destruct (IH (n / 10)) as [IH1 IH2]; [split; [apply Z.div_pos; lia|apply Z.div_lt; lia]|
      apply Z.lt_trans with n; [apply Z.div_lt; lia|lia]|].
    pose proof (Z.mod_pos_bound n 10 ltac:(lia)). split.
    + apply Forall_app. split; [done|]. constructor; [|done]. unfold isdigit, digit_char. apply andb_true_intro. split; apply Z.leb_le; lia.
    + rewrite foldl_app, IH2. simpl. unfold digit_value, digit_char, u64.
      replace (n / 10 * 10 + (48 + n mod 10 - 48)) with n by (Z.div_mod_to_equations; lia). by apply wrap_small.
Qed.

(** The first digit does not need the fold. *)
Lemma read_number n r :
  0 <= n < 2 ^ 64 -> no_digit r = true ->
  exists c ds, digits n = c :: ds /\ isdigit c = true /\ read_width (c - 48) (ds ++ r) = (n, r).
Proof.
  intros Hn Hr. destruct (digits_value n Hn) as [Hd Hv]. destruct (digits n) as [|c ds] eqn:E.
  - pose proof (digits_pos n ltac:(lia)) as Hp. rewrite E in Hp. by change (zlen []) with 0 in Hp.
  - apply Forall_cons in Hd as [Hc Hd]. exists c, ds. split_and!; [done|done|]. rewrite read_width_digits by done.
    rewrite <- Hv. simpl. do 2 f_equal. unfold digit_value, u64, isdigit in *. apply andb_prop in Hc as [H1 H2]. apply Z.leb_le in H1, H2.
    rewrite wrap_small by lia. lia.
Qed.

Lemma handle_padspec_spec spec flag r :
  item_ok (Flag spec flag) = true -> handle_padspec_ (spec_chars spec ++ flag :: r) = (spec_padding spec, flag :: r).
Proof.
  destruct spec as [[[side width] truncate]|]; simpl; intros Hok.
  - apply andb_prop in Hok as [Hw Hf]. apply andb_prop in Hw as [H1 H2]. apply Z.leb_le in H1. apply Z.ltb_lt in H2.
    set (tail := (if truncate then [33] else []) ++ flag :: r).
    assert (Ht : no_digit tail = true).
    { unfold tail. destruct truncate; [done|]. simpl in *. by apply andb_prop in Hf as [? _]. }
    destruct (read_number width tail ltac:(lia) Ht) as (c & ds & Ed & Hc & Er).
    assert (Hs : handle_padspec_ (side_chars side ++ c :: ds ++ tail) = (padding_info_new (Z.min width max_width) side truncate, flag :: r)).
    { assert (Hl : (let '(truncate, l) := match tail with 33 :: l => (true, l) | _ => (false, tail) end in
        (padding_info_new (Z.min width max_width) side truncate, l)) = (padding_info_new (Z.min width max_width) side truncate, flag :: r)).
      { unfold tail. destruct truncate; [done|]. simpl in *. apply andb_prop in Hf as [_ Hf]. apply negb_true_iff, Z.eqb_neq in Hf.
        destruct flag as [|q|q]; try done. repeat (destruct q as [q|q|]; try done). }
      unfold isdigit in Hc. pose proof Hc as Hc'. apply andb_prop in Hc' as [Hc1 Hc2]. apply Z.leb_le in Hc1, Hc2.
      destruct side; cbn [side_chars app handle_padspec_].
      - rewrite !(proj2 (Z.eqb_neq _ _)) by lia. unfold isdigit. rewrite Hc, Er. exact Hl.
      - rewrite Z.eqb_refl. unfold isdigit. rewrite Hc, Er. exact Hl.
      - simpl. unfold isdigit. rewrite Hc, Er. exact Hl. }
    rewrite <- Hs. f_equal. rewrite <- !app_assoc, Ed. done.
  - apply andb_prop in Hok as [Hok H61]. apply andb_prop in Hok as [Hd H45]. apply negb_true_iff in Hd, H45, H61.
    by rewrite H45, H61, Hd.
Qed.

Lemma compile_lit fuel text r u :
  forallb (fun c => negb (c =? 37)) text = true -> (length text <= fuel)%nat -> text <> [] ->
  compile_loop now fuel custom (text ++ r) u =
    compile_loop now (fuel - length text) custom r (Some (match u with Some s => s ++ text | None => text end)).
Proof.
  revert fuel u. induction text as [|c text IH]; intros fuel u Ht Hl Hne; [done|]. simpl in Ht. apply andb_prop in Ht as [Hc Ht].
  apply negb_true_iff in Hc. destruct fuel as [|fuel]; [simpl in Hl; lia|]. cbn [app compile_loop length]. rewrite Hc.
  destruct text as [|c' text]; [simpl; rewrite Nat.sub_0_r; by destruct u|].
  rewrite IH by (done || simpl in *; lia). simpl. destruct u as [s|]; [|done]. by rewrite <- app_assoc.
Qed.

Lemma compile_items fuel l u :
  forallb item_ok l = true -> separated l = true -> (length (print_items l) <= fuel)%nat ->
  (u = None \/ match l with Lit _ :: _ => False | _ => True end) ->
  compile_loop now fuel custom (print_items l) u = (flush_chars u ++ fst (items_flags l), snd (items_flags l)).
Proof.
  revert fuel u. induction l as [|i l IH]; intros fuel u Hok Hsep Hf Hu.
  { destruct fuel; simpl; by rewrite app_nil_r. }
  simpl in Hok. apply andb_prop in Hok as [Hi Hok]. assert (Hs : separated l = true) by (by destruct i, l as [|[]]).
  unfold print_items in *. cbn [map concat] in *. rewrite length_app in Hf. destruct i as [text|spec flag].
  - destruct Hu as [->|[]]. simpl in Hi. apply andb_prop in Hi as [Ht Hne]. apply negb_true_iff, bool_decide_eq_false in Hne.
    cbn [print_item] in *. rewrite compile_lit by (done || lia). rewrite IH; [done|done|done|lia|].
    right. by destruct l as [|[]].
  - cbn [print_item app]. destruct fuel as [|fuel]; [simpl in Hf; lia|]. cbn [compile_loop]. rewrite Z.eqb_refl.
    rewrite <- app_assoc. cbn [app]. rewrite handle_padspec_spec by done.
    unfold items_flags. cbn [map concat existsb fst snd item_flags].
    destruct (handle_flag_ _ _ _ _ _) as [fs need]. rewrite IH; [done|done|done| |by left].
    cbn [print_item app length] in Hf. rewrite !length_app in Hf. simpl in Hf. lia.
Qed.
End items.

(** A pattern is compiled to what its author wrote: for every sequence of texts
    and flags, each flag plain or with side, width and truncation, the printed
    pattern compiles to exactly the formatters of the items in order, widths
    above 64 taken as 64, and asks for the time exactly when one of them does. *)
Theorem pattern_compile_exact {C} `{CustomFlag C} (now : Z) (custom : gmap Z C) (l : list item) :
  forallb item_ok l = true -> separated l = true ->
  compile_pattern_ now custom (print_items l) = items_flags now custom l.
Proof.
  intros Hok Hsep. unfold compile_pattern_. rewrite compile_items by (auto || lia). by destruct (items_flags now custom l).
Qed.

(** ** Padded fields *)

(** A text in a field of [width] characters: filled on the side opposite to the
    alignment, in the middle with the odd space behind, and cut to the width if asked. *)
Definition field (side : pad_side) (width : Z) (truncate : bool) (text : list Z) : list Z :=
  let space n := replicate (Z.to_nat n) 32 in
  let missing := width - zlen text in
  if 0 <=? missing then
    match side with
    | left => space missing ++ text
    | right => text ++ space missing
    | center => space (missing / 2) ++ text ++ space (missing - missing / 2)
    end
  else if truncate then take (Z.to_nat width) text else text.

Lemma field_length side width truncate text :
  0 <= width -> zlen (field side width truncate text) = if truncate then width else Z.max width (zlen text).
Proof.
  intros Hw. unfold field. destruct (Z.leb_spec 0 (width - zlen text)) as [L|L].
  - assert (0 <= (width - zlen text) / 2 <= width - zlen text) by (Z.div_mod_to_equations; lia).
    assert (E : forall n, 0 <= n -> zlen (replicate (Z.to_nat n) 32) = n) by (intros; unfold zlen; rewrite length_replicate; lia).
    destruct side; rewrite !zlen_app, !E by lia; destruct truncate; lia.
  - destruct truncate; [|lia]. unfold zlen in *. rewrite length_take. lia.
Qed.

Lemma pad_it_ok count d : 0 <= count <= 64 -> pad_it count d = (Ok tt, d ++ replicate (Z.to_nat count) 32).
Proof. intros. unfold pad_it. by rewrite !(proj2 (Z.leb_le _ _)) by lia. Qed.

Lemma padder_field side width truncate text d :
  0 <= width <= 64 ->
  (let! r := scoped_padder_new (zlen text) (padding_info_new width side truncate) in
   do! append_string_view text in scoped_padder_delete (padding_info_new width side truncate) r) d =
    (Ok tt, d ++ field side width truncate text).
Proof.
  intros Hw. pose proof (zlen_nonneg text). unfold scoped_padder_new, scoped_padder_delete, bind, append_string_view, modify, ret, field. cbn [width_ side_ truncate_ padding_info_new].
  destruct (Z.leb_spec (width - zlen text) 0) as [L|L].
  - destruct (Z.leb_spec 0 (width - zlen text)) as [L0|L0].
    + replace (width - zlen text) with 0 by lia. change (0 <=? 0) with true. cbv iota. rewrite pad_it_ok by lia. destruct side; by rewrite ?app_nil_r.
    + destruct truncate; [|done]. do 2 f_equal. rewrite zlen_app, take_app. unfold zlen in *.
      destruct (Z.ltb_spec (Z.of_nat (length d) + Z.of_nat (length text) + (width - Z.of_nat (length text))) 0); [lia|].
      rewrite take_ge by lia. do 2 f_equal. lia.
  - rewrite (proj2 (Z.leb_le 0 (width - zlen text))) by lia. set (n := width - zlen text) in *. destruct side.
    + rewrite pad_it_ok by lia. change (0 <=? 0) with true. cbv iota. rewrite pad_it_ok by lia. by rewrite app_nil_r, <- app_assoc.
    + rewrite (proj2 (Z.leb_le 0 n)), pad_it_ok by lia. by rewrite <- app_assoc.
    + change (Z.land n 1) with (Z.land n (Z.ones 1)). rewrite Z.land_ones, Z.quot_div_nonneg by lia. change (2 ^ 1) with 2.
      assert (0 <= n / 2 <= n) by (Z.div_mod_to_equations; lia). assert (E : n / 2 + n mod 2 = n - n / 2) by (Z.div_mod_to_equations; lia).
      rewrite pad_it_ok by lia. rewrite E, (proj2 (Z.leb_le 0 _)), pad_it_ok by lia. by rewrite <- !app_assoc.
Qed.

Lemma format_text_field side width truncate text c :
  0 <= width <= 64 ->
  format_text scoped_padder (padding_info_new width side truncate) text c =
    (Ok tt, mkfctx (dest c ++ field side width truncate text) (range_start c) (range_end c)).
Proof. intros. unfold format_text, padded, on_dest, zoom. by rewrite padder_field. Qed.

(** The flags for a text of the message. *)
Definition flag_text (flag : Z) (msg : log_msg) : option (list Z) :=
  if flag =? 110 then Some (logger_name msg)
  else if flag =? 108 then Some (to_string_view (level msg))
  else if flag =? 76 then Some (to_short_c_str (level msg))
  else if flag =? 118 then Some (payload msg)
  else None.

Lemma flag_text_flags {C} `{CustomFlag C} now pd padding flag msg text :
  flag_text flag msg = Some text ->
  exists f, handle_flag_ now (∅ : gmap Z C) pd flag padding = ([Plain f pd padding], false) /\ isdigit flag = false /\ flag <> 33 /\
    forall pid mdc t, format_plain pid mdc f pd padding msg t = format_text pd padding text.
Proof.
  unfold flag_text. intros E.
  repeat match type of E with (if ?a =? ?b then _ else _) = _ => destruct (Z.eqb_spec a b) as [->|_] end; simplify_eq;
    (eexists; split; [reflexivity|]; split; [reflexivity|]; split; [discriminate|reflexivity]).
Qed.

(** A padded field has the width that the pattern asks for: the flag with a side, a width
    and possibly a truncation mark, compiled and run on any message, appends to
    the line exactly the text filled with spaces to the width (at most 64)
    on the right side, or cut to it, so that a truncated field has exactly that
    width, and it never touches what the line held before. *)
Theorem pattern_field_exact {C} `{CustomFlag C} pid mdc_context localtime gmtime utc_minutes_offset now side width truncate flag ty eol
    (msg : log_msg) (text : list Z) (c : fctx) :
  0 <= width < 2 ^ 64 -> flag_text flag msg = Some text ->
  let w := Z.min width max_width in
  let p := pattern_formatter_new now (print_items [Flag (Some (side, width, truncate)) flag]) ty eol (∅ : gmap Z C) in
  (exists p', format pid mdc_context localtime gmtime utc_minutes_offset p msg c =
     (Ok p', mkfctx (dest c ++ field side w truncate text ++ eol) (range_start c) (range_end c))) /\
  zlen (field side w truncate text) = (if truncate then w else Z.max w (zlen text)).
Proof.
  intros Hw Hf w p. assert (Hb : 0 <= w <= 64) by (unfold w, max_width; lia). split; [|apply field_length; lia].
  destruct (flag_text_flags now scoped_padder (padding_info_new w side truncate) flag msg text Hf) as (f & Ef & Hd & H33 & Hp).
  assert (Ep : p = mkpattern_formatter (print_items [Flag (Some (side, width, truncate)) flag]) eol ty false tm_zero 0
    [Plain f scoped_padder (padding_info_new w side truncate)] ∅).
  { unfold p, pattern_formatter_new, compile_pattern_. rewrite compile_items; [|simpl|done|lia|by left].
    - assert (Ei : item_flags now ∅ (Flag (Some (side, width, truncate)) flag) = ([Plain f scoped_padder (padding_info_new w side truncate)], false)) by exact Ef.
      unfold items_flags. cbn [map existsb concat]. by rewrite Ei.
    - rewrite Hd, !(proj2 (Z.leb_le _ _)), !(proj2 (Z.ltb_lt _ _)), (proj2 (Z.eqb_neq _ _)) by (done || lia). by destruct truncate. }
  rewrite Ep. unfold format, refresh_time. cbn [need_localtime_ formatters_ cached_tm_ eol_ format_flags format_flag].
  rewrite Hp. eexists. unfold bind. rewrite format_text_field by done.
  unfold on_dest, zoom, append_string_view, modify, ret. cbn [dest]. rewrite (app_assoc (dest c)). reflexivity.
Qed.

(** ** The default format *)

Section default_format.
Context {C : Type} `{CustomFlag C}.
Context (pid : Z) (localtime gmtime : Z -> tm) (utc_minutes_offset : tm -> Z).

(** The pattern that the comment on [full_formatter] gives, with the colour marks. *)
Definition full_pattern : list Z := chars "[%Y-%m-%d %H:%M:%S.%e] [%n] [%^%l%$] [%s:%#] %v".

Lemma full_fresh fs now prev msg t c :
  compile_pattern_ now (∅ : gmap Z C) full_pattern = (fs, true) ->
  0 < zlen (logger_name msg) -> source_loc_empty (source msg) = false ->
  fresh_flags pid [] utc_minutes_offset fs prev msg t c =
    fresh_flags pid [] utc_minutes_offset [Full full_formatter_new : flag_formatter C] prev msg t c.
Proof.
  intros E Hn Hs. vm_compute in E. injection E as <-.
  cbn [fresh_flags fresh_flag format_flag format_plain].
  unfold Y_formatter_format, m_formatter_format, d_formatter_format, H_formatter_format, M_formatter_format, S_formatter_format, e_formatter_format,
    name_formatter_format, level_formatter_format, short_filename_formatter_format, source_linenum_formatter_format, v_formatter_format.
  unfold full_rest, format_text, with_source, format_c_text, padded, datetime_text.
  rewrite Hs, (proj2 (Z.ltb_lt _ _)) by done. cbn [negb].
  generalize (append_int true 32 (tm_year t + 1900)), (pad2 (tm_mon t + 1)), (pad2 (tm_mday t)), (pad2 (tm_hour t)), (pad2 (tm_min t)),
    (pad2 (tm_sec t)), (pad3 32 (u32 (time_fraction milliseconds (time msg)))), (append_int true 32 (line (source msg))),
    (c_text (SpdCommon.filename (source msg))).
  change (chars "] ") with [93; 32]. generalize (to_string_view (level msg)).
  intros lv m1 m2 m3 m4 m5 m6 m7 m8 o.
  repeat (cbv beta iota zeta delta [dest range_start range_end c_text on_dest zoom bind ret append_string_view push_back mark_start mark_end of_outcome modify padder_count_digits];
    rewrite <- ?app_assoc; cbn [app]; try reflexivity; try match goal with
   | |- context [let '(_, _) := ?m ?d in _] => is_var m; destruct (m d) as [[[]|?|] ?]
   | |- context [match o with _ => _ end] => destruct o
  end).
Qed.

Lemma full_fresh_all fs now prev ty eol msgs :
  compile_pattern_ now (∅ : gmap Z C) full_pattern = (fs, true) ->
  Forall (fun m => 0 < zlen (logger_name m) /\ source_loc_empty (source m) = false) msgs ->
  fresh_all pid [] localtime gmtime utc_minutes_offset fs ty eol prev msgs =
    fresh_all pid [] localtime gmtime utc_minutes_offset [Full full_formatter_new : flag_formatter C] ty eol prev msgs.
Proof.
  intros E Hm. revert prev. induction Hm as [|m msgs [Hn Hs] _ IH]; intros prev; [done|]. cbn [fresh_all]. unfold fresh_format, bind at 1 2.
  rewrite (full_fresh fs now) by done. by rewrite IH.
Qed.
End default_format.

(** The default format is the documented one: for every run of messages
    with a logger name and a source location, and no diagnostic context, the formatter
    made without a pattern writes the same lines and the same colour ranges as
    the pattern [%Y-%m-%d %H:%M:%S.%e] [%n] [%^%l%$] [%s:%#] %v, whichever
    calendar functions the system has. *)
Theorem full_format_documented {C} `{CustomFlag C} pid localtime gmtime utc_minutes_offset now ty eol (msgs : list log_msg) :
  Forall (fun m => 0 < zlen (logger_name m) /\ source_loc_empty (source m) = false) msgs ->
  Forall (fun m => secs_of m <> 0) msgs ->
  render_all pid [] localtime gmtime utc_minutes_offset (pattern_formatter_default ty eol : pattern_formatter C) msgs =
    render_all pid [] localtime gmtime utc_minutes_offset (pattern_formatter_new now full_pattern ty eol (∅ : gmap Z C)) msgs.
Proof.
  intros Hm Hs. change (pattern_formatter_default ty eol) with (pattern_formatter_new now (chars "%+") ty eol (∅ : gmap Z C)).
  rewrite !(new_renders_fresh (C := C)) by (done || by repeat constructor). symmetry. by apply (full_fresh_all _ _ _ _ _ now).
Qed.

(** ** Examples *)

#[local] Instance no_custom : CustomFlag Empty_set := { custom_clone c := c; custom_format c _ _ _ := ret c }.

(** A clock whose broken-down time is the second of the minute. *)
Definition demo_time (secs : Z) : tm := mktm (secs mod 60) (secs / 60 mod 60) 0 1 0 125 3.
Definition demo_msg (at_ : Z) : log_msg :=
  mklog_msg (chars "net") info at_ 7 0 0 (mksource_loc None 0 None) (chars "hello").

Lemma pattern_field_exact_witness :
  zlen (field center (Z.min 8 max_width) true (chars "hello")) = 8 /\ field center 8 true (chars "hello") = chars " hello  ".
Proof.
  split; [|reflexivity].
  exact (proj2 (pattern_field_exact 1 [] demo_time demo_time (fun _ => 0) 0 center 8 true 118 utc [10] (demo_msg seconds) (chars "hello")
    (start_line (demo_msg seconds)) ltac:(lia) eq_refl)).
Defined.

Lemma pattern_cache_exact_witness :
  exists lines, render_all 1 [] demo_time demo_time (fun _ => 0)
    (pattern_formatter_new (C := Empty_set) 0 (chars "%+ %o") utc [10] ∅) [demo_msg (5 * seconds); demo_msg (5 * seconds + 42 * milliseconds)] = Ok lines /\
    map dest lines = [chars "[2025-01-01 00:00:05.000] [net] [info] hello 5000" ++ [10]; chars "[2025-01-01 00:00:05.042] [net] [info] hello 42" ++ [10]].
Proof.
  eexists. split; [|shelve].
  rewrite (pattern_cache_exact 1 [] demo_time demo_time (fun _ => 0) 0 (chars "%+ %o") utc [10]
    [demo_msg (5 * seconds); demo_msg (5 * seconds + 42 * milliseconds)]); [vm_compute; reflexivity|repeat constructor|repeat constructor; discriminate].
  Unshelve. reflexivity.
Defined.

Lemma pattern_compile_exact_witness :
  compile_pattern_ 0 (∅ : gmap Z Empty_set) (chars "[%-8!l] %v") =
    ([Aggregate [91]; Plain level_formatter scoped_padder (padding_info_new 8 right true); Aggregate (chars "] ");
      Plain v_formatter null_scoped_padder padding_info_default], false).
Proof.
  exact (pattern_compile_exact 0 (∅ : gmap Z Empty_set) [Lit [91]; Flag (Some (right, 8, true)) 108; Lit (chars "] "); Flag None 118] eq_refl eq_refl).
Defined.

(** The first second of 1970 is taken for the cached one, so that its messages are
    dated by the zeroed time: in the year 1900, on day 0 of the month. *)
Example first_second_undated :
  match format 1 [] demo_time demo_time (fun _ => 0) (pattern_formatter_new (C := Empty_set) 0 (chars "%Y-%m-%d") utc [] ∅) (demo_msg 0)
          (start_line (demo_msg 0)) with
  | (Ok _, c) => dest c = chars "1900-01-00"
  | _ => False
  end.
Proof. vm_compute. reflexivity. Qed.

(** At midnight the twelve-hour clock shows 00, and a date with a single-digit day is
    one short of the 24 characters its padder counts. *)
Example midnight_is_zero : to12h (mktm 0 0 0 1 0 125 3) = 0.
Proof. reflexivity. Qed.
Example c_field_one_short :
  match format_plain 1 [] c_formatter scoped_padder (padding_info_new 24 left false) (demo_msg 0) (mktm 0 0 0 1 0 125 3) (start_line (demo_msg 0)) with
  | (Ok _, c) => dest c = chars "Wed Jan 1 00:00:00 2025" /\ zlen (dest c) = 23
  | _ => False
  end.
Proof. vm_compute. split; reflexivity. Qed.

Lemma full_format_documented_witness :
  let m := mklog_msg (chars "net") warn (7 * seconds) 1 0 0 (mksource_loc (Some (chars "src/a.cpp")) 12 (Some (chars "f"))) (chars "x") in
  exists lines, render_all 1 [] demo_time demo_time (fun _ => 0) (pattern_formatter_default utc [10] : pattern_formatter Empty_set) [m; m] = Ok lines /\
    map dest lines = [chars "[2025-01-01 00:00:07.000] [net] [warning] [a.cpp:12] x" ++ [10]; chars "[2025-01-01 00:00:07.000] [net] [warning] [a.cpp:12] x" ++ [10]].
Proof.
  intros m. eexists. split; [|shelve].
  rewrite (full_format_documented 1 demo_time demo_time (fun _ => 0) 0 utc [10] [m; m]); [vm_compute; reflexivity|repeat constructor|repeat constructor; discriminate].
  Unshelve. reflexivity.
Defined.
