(* ===== verification/RotatingFile.v ===== *)
(** * spdlog: the rotating file sink (sinks/rotating_file_sink-inl.h)

    The sink of the program's log file: messages are appended to the base file
    until its size limit would be passed; then the files are shifted,
    [log.txt] to [log.1.txt] and so on, and the base file starts empty. *)

From S2P Require Import Prelude Machine SpdCommon SpdLogger FileHelper.

Record rotating_file_sink (F : Type) := mkrotating {
  base_filename_ : list Z;
  max_size_ : Z;
  max_files_ : Z;
  current_size_ : Z;
  file_helper_ : file_helper;
  formatter_ : F }.
Arguments mkrotating {F}.
Arguments base_filename_ {F}.
Arguments max_size_ {F}.
Arguments max_files_ {F}.
Arguments current_size_ {F}.
Arguments file_helper_ {F}.
Arguments formatter_ {F}.

Definition MaxFiles : Z := 200000.

(** The sink and the file system. *)
Definition rsink (F : Type) : Type := rotating_file_sink F * fs.

Definition set_current_size {F} (n : Z) (r : rotating_file_sink F) : rotating_file_sink F :=
  mkrotating (base_filename_ r) (max_size_ r) (max_files_ r) n (file_helper_ r) (formatter_ r).
Definition set_helper {F} (h : file_helper) (r : rotating_file_sink F) : rotating_file_sink F :=
  mkrotating (base_filename_ r) (max_size_ r) (max_files_ r) (current_size_ r) h (formatter_ r).
Definition set_rotating_formatter {F} (f : F) (r : rotating_file_sink F) : rotating_file_sink F :=
  mkrotating (base_filename_ r) (max_size_ r) (max_files_ r) (current_size_ r) (file_helper_ r) f.

Definition on_file {F A} (m : M fh A) : M (rsink F) A :=
  zoom (fun s => (file_helper_ (fst s), snd s)) (fun h s => (set_helper (fst h) (fst s), snd h)) m.
Definition on_rfs {F A} (m : M fs A) : M (rsink F) A := zoom snd (fun f s => (fst s, f)) m.
Definition upd_sink {F} (g : rotating_file_sink F -> rotating_file_sink F) : M (rsink F) unit :=
  modify (fun s => (g (fst s), snd s)).

(** [calc_filename]: [{}.{}{}] of the base, the index and the extension. *)
Definition calc_filename (filename : list Z) (index : nat) : list Z :=
  match index with
  | O => filename
  | _ =>
      let '(basename, ext) := split_by_extension filename in
      basename ++ chars "." ++ chars (pretty (N.of_nat index)) ++ ext
  end.

Definition get_max_size {F} (r : rotating_file_sink F) : Z := max_size_ r.
Definition get_max_files {F} (r : rotating_file_sink F) : Z := max_files_ r.
Definition rotating_filename {F} (r : rotating_file_sink F) : list Z := filename (file_helper_ r).

Definition set_max_size {F} (max_size : Z) : M (rsink F) unit :=
  if max_size =? 0 then throw (spdlog_ex (chars "rotating sink set_max_size: max_size arg cannot be zero"))
  else upd_sink (fun r => mkrotating (base_filename_ r) max_size (max_files_ r) (current_size_ r) (file_helper_ r) (formatter_ r)).

Definition set_max_files {F} (max_files : Z) : M (rsink F) unit :=
  if MaxFiles <? max_files then throw (spdlog_ex (chars "rotating sink set_max_files: max_files arg cannot exceed 200000"))
  else upd_sink (fun r => mkrotating (base_filename_ r) (max_size_ r) max_files (current_size_ r) (file_helper_ r) (formatter_ r)).

Section rotating.
Context {F : Type} (format : F -> log_msg -> outcome (list Z)).
Context (fault : nat -> option Z) (errno_text : list Z).

(** [rename_file_]: the result of [remove] is not looked at. *)
Definition rename_file_ (src_filename target_filename : list Z) : M (rsink F) bool :=
  do! on_rfs (remove fault target_filename) in
  on_rfs (rename fault src_filename target_filename).

(** The loop of [rotate_], for [i = n, ..., 1]. *)
Fixpoint rotate_loop (n : nat) : M (rsink F) unit :=
  match n with
  | O => ret tt
  | S k =>
      let! s := get in
      let src := calc_filename (base_filename_ (fst s)) k in
      if negb (path_exists src (snd s)) then rotate_loop k
      else
        let target := calc_filename (base_filename_ (fst s)) n in
        let! done := rename_file_ src target in
        if done : bool then rotate_loop k
        else
          let! done := rename_file_ src target in
          if done : bool then rotate_loop k
          else
            do! on_file (reopen fault errno_text true) in
            do! upd_sink (set_current_size 0) in
            throw (system_error errno_text (chars "rotating_file_sink: failed renaming " ++ src ++ chars " to " ++ target))
  end.

Definition rotate_ : M (rsink F) unit :=
  do! on_file (close fault) in
  let! r := gets fst in
  do! rotate_loop (Z.to_nat (max_files_ r)) in
  on_file (reopen fault errno_text true).

Definition rotate_now : M (rsink F) unit := rotate_.

Definition rotating_sink_it_ (msg : log_msg) : M (rsink F) unit :=
  let! r := gets fst in
  let! formatted := of_outcome (format (formatter_ r) msg) in
  let new_size := size_add (current_size_ r) (zlen formatted) in
  let! new_size :=
    (if max_size_ r <? new_size then
       do! on_file (flush fault errno_text) in
       let! n := on_file (size fault errno_text) in
       if 0 <? n then do! rotate_ in ret (zlen formatted) else ret new_size
     else ret new_size) in
  do! on_file (write fault errno_text formatted) in
  upd_sink (set_current_size new_size).

Definition rotating_flush_ : M (rsink F) unit := on_file (flush fault errno_text).

(** The constructor; [current_size_] has no value before [size()]. *)
Definition rotating_file_sink_new (dflt : F) (base_filename : list Z) (max_size max_files : Z)
    (rotate_on_open : bool) (handlers : file_event_handlers) : M fs (rotating_file_sink F) := fun f =>
  if max_size =? 0 then (Throw (spdlog_ex (chars "rotating sink constructor: max_size arg cannot be zero")), f)
  else if MaxFiles <? max_files then
    (Throw (spdlog_ex (chars "rotating sink constructor: max_files arg cannot exceed MaxFiles")), f)
  else
    let r := mkrotating base_filename max_size max_files 0 (file_helper_new handlers) dflt in
    let '(o, (r, f)) :=
      (do! on_file (open fault errno_text (calc_filename base_filename 0) false) in
       let! n := on_file (size fault errno_text) in
       do! upd_sink (set_current_size n) in
       if rotate_on_open && (0 <? n) then do! rotate_ in upd_sink (set_current_size 0) else ret tt) (r, f) in
    (match o with Ok _ => Ok r | Throw e => Throw e | Undef => Undef end, f).

#[export] Instance rotating_sink : Sink F (rsink F) := {
  sink_it := rotating_sink_it_;
  flush_it := rotating_flush_;
  put_formatter f s := (set_rotating_formatter f (fst s), snd s) }.
End rotating.

(** ** Names of the files *)
Lemma rfind_from_range c pos s p : rfind_from c pos s = Some p -> pos <= p < pos + zlen s.
Proof.
  revert pos p. induction s as [|x s IH]; [done|]. intros pos p. simpl. rewrite zlen_cons.
  pose proof (zlen_nonneg s). destruct (rfind_from c (pos + 1) s) eqn:E.
  - intros [= <-]. apply IH in E. lia.
  - destruct (x =? c); intros; simplify_eq. lia.
Qed.

Lemma split_by_extension_app fname : let '(b, e) := split_by_extension fname in b ++ e = fname.
Proof.
  unfold split_by_extension. destruct (rfind dot fname) as [i|]; [|apply app_nil_r].
  assert (prefix_of i fname ++ rest_of i fname = fname) by (unfold prefix_of, rest_of; apply take_drop).
  destruct (_ || _); [apply app_nil_r|]. destruct (rfind folder_sep fname); [split_if|]; rewrite ?app_nil_r; done.
Qed.

Lemma chars_inj s t : chars s = chars t -> s = t.
Proof.
  unfold chars. revert t. induction s as [|a s IH]; intros [|b t]; simpl; try done.
  intros [= E1 E2]. apply N2Z.inj, (f_equal ascii_of_N) in E1. rewrite !ascii_N_embedding in E1. f_equal; [done|by apply IH].
Qed.

(** Different indices give different names. *)
Lemma calc_filename_inj p i j : calc_filename p i = calc_filename p j -> i = j.
Proof.
  pose proof (split_by_extension_app p) as Hs. unfold calc_filename.
  destruct (split_by_extension p) as [b e]. subst p.
  destruct i as [|i], j as [|j]; [done|..].
  - intros E. apply (f_equal length) in E. rewrite !length_app in E. simpl in E. lia.
  - intros E. apply (f_equal length) in E. rewrite !length_app in E. simpl in E. lia.
  - intros E. apply app_inv_head, app_inv_head, app_inv_tail, chars_inj, (inj pretty) in E. lia.
Qed.

Example calc_filename_example : calc_filename (chars "logs/mylog.txt") 3 = chars "logs/mylog.3.txt".
Proof. reflexivity. Qed.

(** ** Rotation without faults *)

Section shift.
Context (p : list Z).
Implicit Types (m : gmap (list Z) (list Z)) (i n : nat).
Local Notation at_index m i := (m !! calc_filename p i).

(** What the loop does to the files. *)
Fixpoint shift n m : gmap (list Z) (list Z) :=
  match n with
  | O => m
  | S k =>
      shift k (match at_index m k with
               | Some c => <[calc_filename p n := c]> (delete (calc_filename p k) (delete (calc_filename p n) m))
               | None => m
               end)
  end.

Lemma index_ne i j : i <> j -> calc_filename p i <> calc_filename p j.
Proof. intros H E. by apply calc_filename_inj in E. Qed.

(** The file with index [i] afterwards. *)
Definition shifted n m i : option (list Z) :=
  if (n <? i)%nat then at_index m i
  else match i with
  | O => if (n =? 0)%nat then at_index m O else None
  | S j => match at_index m j with Some c => Some c | None => if (i =? n)%nat then at_index m n else None end
  end.

Lemma shift_lookup n m i : at_index (shift n m) i = shifted n m i.
Proof.
  revert m. induction n as [|k IH]; intros m; [destruct i; done|].
  cbn [shift]. rewrite IH. set (m' := match at_index m k with Some c => _ | None => _ end).
  assert (Hk : at_index m' k = None).
  { unfold m'. destruct (at_index m k) eqn:E; [|done]. rewrite lookup_insert_ne, lookup_delete_eq by (apply index_ne; lia). done. }
  assert (Hs : at_index m' (S k) = match at_index m k with Some c => Some c | None => at_index m (S k) end).
  { unfold m'. destruct (at_index m k) eqn:E; [|done]. by rewrite lookup_insert_eq. }
  assert (Ho : forall j, j <> k -> j <> S k -> at_index m' j = at_index m j).
  { intros j ? ?. unfold m'. destruct (at_index m k) eqn:E; [|done].
    by rewrite lookup_insert_ne, !lookup_delete_ne by (apply index_ne; lia). }
  unfold shifted. destruct (Nat.ltb_spec k i), (Nat.ltb_spec (S k) i); try lia.
  - by rewrite Ho by lia.
  - assert (i = S k) as -> by lia. rewrite Hs, Nat.eqb_refl. done.
  - destruct i as [|j].
    + destruct k; simpl; [exact Hk|done].
    + rewrite (Ho j) by lia. destruct (at_index m j); [done|].
      destruct (Nat.eqb_spec (S j) (S k)) as [?|_]; [lia|].
      destruct (Nat.eqb_spec (S j) k) as [E|_]; [|done]. exact Hk.
Qed.

(** The files with the indices [0], ..., [n]. *)
Definition files_view n m : list (option (list Z)) := map (fun i => at_index m i) (seq 0 (S n)).

Lemma files_view_lookup n m i : (i <= n)%nat -> files_view n m !! i = Some (at_index m i).
Proof. intros H. unfold files_view. rewrite list_lookup_fmap, lookup_seq_lt by lia. done. Qed.

Lemma files_view_length n m : length (files_view n m) = S n.
Proof. unfold files_view. by rewrite length_map, length_seq. Qed.

(** Only the base file has the name of the base file. *)
Lemma files_view_base n m t : files_view n (<[p := t]> m) = Some t :: tail (files_view n m).
Proof.
  unfold files_view. cbn [seq map tail]. f_equal; [apply lookup_insert_eq|]. apply map_ext_in. intros i Hi. apply in_seq in Hi.
  rewrite lookup_insert_ne; [done|]. change p with (calc_filename p O) at 1. apply index_ne. lia.
Qed.

Lemma files_view_id n m t : m !! p = Some t -> files_view n (<[p := t]> m) = files_view n m.
Proof. intros H. by rewrite insert_id. Qed.
End shift.

#[local] Arguments files_view : simpl never.

(** ** What the files should hold

    The files from the base file to the one with the largest index; [None] where there is none. *)

(** Every file moves up by one index and replaces what was there; without a file below it, the file with the largest index stays. *)
Fixpoint moved_up (v : list (option (list Z))) : list (option (list Z)) :=
  match v with
  | a :: rest => match rest with
                 | [] => []
                 | [b] => [match a with Some c => Some c | None => b end]
                 | _ => a :: moved_up rest
                 end
  | [] => []
  end.

(** A message is appended to the base file, unless that is not empty and would become larger than the limit: then the files move up first. *)
Definition log_to (limit : Z) (v : list (option (list Z))) (text : list Z) : list (option (list Z)) :=
  match v with
  | [] => []
  | base :: older =>
      if (limit <? zlen (default [] base) + zlen text) && (0 <? zlen (default [] base))
      then Some text :: moved_up v
      else Some (default [] base ++ text) :: older
  end.

(** The contents from the oldest file to the newest. *)
Definition history (v : list (option (list Z))) : list Z := concat (map (default []) (rev v)).

Lemma history_cons a v : history (a :: v) = history v ++ default [] a.
Proof. unfold history. simpl. rewrite map_app, concat_app. simpl. by rewrite app_nil_r. Qed.

Lemma moved_up_length v : length (moved_up v) = pred (length v).
Proof. induction v as [|a [|b [|c v]] IH]; [done..|]. cbn [moved_up length] in *. by rewrite IH. Qed.

Lemma moved_up_lookup v i :
  (S i < length v)%nat ->
  moved_up v !! i = match v !! i with
                    | Some (Some c) => Some (Some c)
                    | _ => if (S (S i) =? length v)%nat then v !! S i else Some None
                    end.
Proof.
  revert i. induction v as [|a [|b [|c v]] IH]; intros i Hi; simpl in Hi; try lia.
  - assert (i = 0%nat) as -> by lia. by destruct a.
  - destruct i as [|i]; [by destruct a|]. cbn [moved_up]. rewrite !lookup_cons. rewrite IH by (simpl in *; lia). done.
Qed.

(** Moving up drops at most the file with the largest index. *)
Lemma moved_up_history v : v <> [] -> exists d, (d = [] \/ last v = Some (Some d)) /\ history v = d ++ history (moved_up v).
Proof.
  induction v as [|a [|b [|c v]] IH]; [done|..]; intros _.
  - exists (default [] a). destruct a; [|by auto]. split; [by right|]. unfold history. simpl. by rewrite !app_nil_r.
  - unfold history. simpl. destruct a as [a|]; [exists (default [] b)|exists []]; simpl; rewrite ?app_nil_r; (split; [|done]); [|by left].
    destruct b; [by right|by left].
  - destruct IH as (d & Hd & E); [done|]. exists d. split; [exact Hd|]. change (moved_up (a :: b :: c :: v)) with (a :: moved_up (b :: c :: v)).
    by rewrite !(history_cons a), E, app_assoc.
Qed.

Lemma log_to_history limit v text : v <> [] -> exists d, (d = [] \/ last v = Some (Some d)) /\ history v ++ text = d ++ history (log_to limit v text).
Proof.
  destruct v as [|base older]; [done|]. intros _. unfold log_to. destruct (_ && _).
  - destruct (moved_up_history (base :: older)) as (d & Hd & E); [done|]. exists d. split; [done|]. by rewrite (history_cons (Some text)), E, app_assoc.
  - exists []. split; [by left|]. rewrite !history_cons. simpl. by rewrite app_assoc.
Qed.

Lemma log_to_length limit v text : length (log_to limit v text) = length v.
Proof. destruct v as [|b v]; [done|]. unfold log_to. destruct (_ && _); [|done]. cbn [length]. by rewrite moved_up_length. Qed.

Lemma log_to_all_history limit texts v : v <> [] -> exists d, history v ++ concat texts = d ++ history (fold_left (log_to limit) texts v).
Proof.
  revert v. induction texts as [|t texts IH]; intros v Hv; [exists []; by rewrite app_nil_r|]. cbn [fold_left concat].
  destruct (log_to_history limit v t Hv) as (d & _ & E). destruct (IH (log_to limit v t)) as [d2 E2].
  - intros Q. apply (f_equal length) in Q. rewrite log_to_length in Q. by destruct v.
  - exists (d ++ d2). by rewrite app_assoc, E, <- !app_assoc, E2.
Qed.

(** The loop moves the files up. *)
Lemma shift_view p n m : files_view p n (<[p := []]> (shift p n m)) = Some [] :: moved_up (files_view p n m).
Proof.
  rewrite files_view_base. f_equal. apply list_eq. intros i. rewrite lookup_tail. destruct (decide (S i <= n)%nat) as [Hi|Hi].
  - rewrite moved_up_lookup, !files_view_lookup, files_view_length, shift_lookup by (rewrite ?files_view_length; lia).
    unfold shifted. rewrite (proj2 (Nat.ltb_ge _ _)) by lia. destruct (m !! calc_filename p i); [done|].
    change (S (S i) =? S n)%nat with (S i =? n)%nat. destruct (Nat.eqb_spec (S i) n) as [<-|]; done.
  - rewrite !lookup_ge_None_2; [done|rewrite moved_up_length|]; rewrite files_view_length; lia.
Qed.

Section rotation.
Context {F : Type} (format : F -> log_msg -> outcome (list Z)).
Context (fault : nat -> option Z) (errno_text : list Z).
Context (Hf : forall n, fault n = None).
Implicit Types (r : rotating_file_sink F) (f : fs).

(** All names the sink uses are names of files. *)
Definition names_ok r f : Prop :=
  forall i, (i <= Z.to_nat (max_files_ r))%nat -> file_name (calc_filename (base_filename_ r) i) f.

Lemma names_ok_dirs r r' f f' :
  base_filename_ r' = base_filename_ r -> max_files_ r' = max_files_ r -> dirs f' = dirs f ->
  names_ok r f -> names_ok r' f'.
Proof. intros E1 E2 E3 H i Hi. rewrite E1. apply (file_name_dirs _ f); [done|]. apply H. by rewrite <- E2. Qed.

Lemma on_file_run {A} (m : M fh A) r f x h f' :
  m (file_helper_ r, f) = (x, (h, f')) -> on_file m (r, f) = (x, (set_helper h r, f')).
Proof. intros E. unfold on_file, zoom. cbn [fst snd]. by rewrite E. Qed.

Lemma on_rfs_run {A} (m : M fs A) r f x f' : m f = (x, f') -> on_rfs m (r, f) = (x, (r, f')).
Proof. intros E. unfold on_rfs, zoom. cbn [fst snd]. by rewrite E. Qed.

Lemma rename_file_run src tgt c r f :
  src <> tgt -> files f !! src = Some c -> file_name tgt f ->
  exists f', rename_file_ fault src tgt (r, f) = (Ok true, (r, f')) /\ dirs f' = dirs f /\
    files f' = <[tgt := c]> (delete src (delete tgt (files f))).
Proof.
  intros Hne Hs Ht. unfold rename_file_. destruct (remove_run fault Hf tgt f) as (b & f1 & E1 & D1 & F1).
  bind_step by (apply on_rfs_run, E1).
  destruct (rename_run fault Hf src tgt c f1) as (f2 & E2 & D2 & F2).
  - by rewrite F1, lookup_delete_ne.
  - by apply (file_name_dirs _ f).
  - exists f2. split; [apply on_rfs_run, E2|]. split; [congruence|]. by rewrite F2, F1.
Qed.

Lemma rotate_loop_run n r f :
  (n <= Z.to_nat (max_files_ r))%nat -> names_ok r f ->
  exists f', rotate_loop fault errno_text n (r, f) = (Ok tt, (r, f')) /\ dirs f' = dirs f /\
    files f' = shift (base_filename_ r) n (files f).
Proof.
  revert f. induction n as [|k IH]; intros f Hn Hok; [by exists f|]. cbn [rotate_loop shift]. bind_step by reflexivity.
  cbn [fst snd]. unfold path_exists. rewrite (bool_decide_false (_ ∈ dirs f)) by (apply Hok; lia).
  rewrite orb_false_r. destruct (files f !! calc_filename (base_filename_ r) k) as [c|] eqn:Ek.
  - rewrite bool_decide_true by (by eexists). cbn [negb].
    destruct (rename_file_run (calc_filename (base_filename_ r) k) (calc_filename (base_filename_ r) (S k)) c r f)
      as (f1 & E1 & D1 & F1); [apply index_ne; lia|done|by apply Hok|].
    bind_step by exact E1. destruct (IH f1) as (f2 & E2 & D2 & F2); [lia|by apply (names_ok_dirs r r f)|].
    exists f2. split; [exact E2|]. split; [congruence|]. by rewrite F2, F1.
  - rewrite bool_decide_false by (by intros [? ?]). cbn [negb]. apply IH; [lia|done].
Qed.

Lemma rotate_run r f s :
  fd_ (file_helper_ r) = Some s -> filename_ (file_helper_ r) = base_filename_ r -> s_name s = base_filename_ r ->
  pending s = [] -> files f !! base_filename_ r <> None -> names_ok r f ->
  exists h f', rotate_ fault errno_text (r, f) = (Ok tt, (set_helper h r, f')) /\ dirs f' = dirs f /\
    fd_ h = Some (mkstream (base_filename_ r) []) /\ filename_ h = base_filename_ r /\
    files f' = <[base_filename_ r := []]> (shift (base_filename_ r) (Z.to_nat (max_files_ r)) (files f)).
Proof.
  intros Hs Hfn Hsn Hp He Hok. unfold rotate_. destruct (close_run fault Hf (file_helper_ r) f) as (f1 & E1 & D1 & F1).
  bind_step by (apply on_file_run, E1). bind_step by reflexivity. cbn [fst].
  assert (Fe : files f1 = files f).
  { rewrite F1. unfold closed_files. rewrite Hs, Hp, Hsn, alter_content, app_nil_r by done. unfold content.
    destruct (files f !! base_filename_ r) eqn:E; [|done]. simpl. by apply insert_id. }
  destruct (rotate_loop_run (Z.to_nat (max_files_ r)) (set_helper (set_fd None (file_helper_ r)) r) f1) as (f2 & E2 & D2 & F2).
  { done. } { by apply (names_ok_dirs r _ f). }
  bind_step by exact E2. unfold reopen.
  set (r1 := set_helper (set_fd None (file_helper_ r)) r) in *.
  destruct (open_run fault errno_text Hf (base_filename_ r) true (set_fd None (file_helper_ r)) f2) as (f3 & E3 & D3 & F3).
  { apply (file_name_dirs _ f); [congruence|]. apply (Hok O). lia. }
  eexists _, f3. split.
  - apply (on_file_run _ r1). simpl. bind_step by reflexivity. cbn [fst set_fd filename_]. rewrite Hfn, bool_decide_false; [exact E3|].
    apply (Hok O). lia.
  - split; [congruence|]. split; [done|]. split; [done|]. rewrite F3. unfold closed_files. simpl. by rewrite F2, Fe.
Qed.

(** A sink in order: the base file is open, [current_size_] is its size with what
    is still in the buffer, all sizes are below [2 ^ 63]. *)
Record healthy (s : rsink F) : Prop := {
  hl_names : names_ok (fst s) (snd s);
  hl_fd : exists d, fd_ (file_helper_ (fst s)) = Some d /\ s_name d = base_filename_ (fst s) /\
    current_size_ (fst s) = zlen (content (base_filename_ (fst s)) (snd s)) + zlen (pending d);
  hl_filename : filename_ (file_helper_ (fst s)) = base_filename_ (fst s);
  hl_exists : files (snd s) !! base_filename_ (fst s) <> None;
  hl_size : 0 <= current_size_ (fst s) < 2 ^ 63;
  hl_max : 0 < max_size_ (fst s) < 2 ^ 63 }.

(** The base file with what is still in the buffer. *)
Definition base_text (s : rsink F) : list Z :=
  content (base_filename_ (fst s)) (snd s) ++ match fd_ (file_helper_ (fst s)) with Some d => pending d | None => [] end.

(** The files of the log, the base file first. *)
Definition log_files (s : rsink F) : list (option (list Z)) :=
  files_view (base_filename_ (fst s)) (Z.to_nat (max_files_ (fst s))) (<[base_filename_ (fst s) := base_text s]> (files (snd s))).
#[local] Arguments log_files : simpl never.

Lemma log_files_base s : log_files s =
  Some (base_text s) :: tail (files_view (base_filename_ (fst s)) (Z.to_nat (max_files_ (fst s))) (files (snd s))).
Proof. apply files_view_base. Qed.

Lemma healthy_size s : healthy s -> current_size_ (fst s) = zlen (base_text s).
Proof. intros [_ (d & Hd & _ & Hc) _ _ _ _]. unfold base_text. by rewrite Hd, zlen_app. Qed.

(** The configuration stays. *)
Definition kept (s s' : rsink F) : Prop :=
  max_size_ (fst s') = max_size_ (fst s) /\ formatter_ (fst s') = formatter_ (fst s) /\
  base_filename_ (fst s') = base_filename_ (fst s) /\ max_files_ (fst s') = max_files_ (fst s).

(** The last two statements of [sink_it_]. *)
Lemma write_step text n s :
  healthy s -> zlen text < 2 ^ 63 -> n = current_size_ (fst s) + zlen text -> n < 2 ^ 63 ->
  exists s', (do! on_file (write fault errno_text text) in upd_sink (set_current_size n)) s = (Ok tt, s') /\
    healthy s' /\ log_files s' = Some (base_text s ++ text) :: tail (log_files s) /\ current_size_ (fst s') = n /\ kept s s'.
Proof.
  destruct s as [r f]. intros [Hn (d & Hd & Hs & Hc) Hfn He Hz Hm] Ht -> Hn2. cbn [fst snd] in *. pose proof (zlen_nonneg text).
  destruct (write_run fault errno_text Hf (file_helper_ r) f d text Hd) as (f1 & E1 & F1 & D1).
  eexists. split; [bind_step by (apply on_file_run, E1); reflexivity|]. split.
  - split; simpl; try done; [by apply (names_ok_dirs r _ f)| |by rewrite F1|lia].
    eexists. split; [done|]. split; [done|]. simpl. unfold content in *. rewrite F1, zlen_app. lia.
  - rewrite (log_files_base (r, f)), log_files_base. unfold base_text, content; simpl. rewrite Hd, F1. by rewrite app_assoc.
Qed.

(** Flushing moves the buffer to the file and changes nothing else. *)
Lemma flush_step s :
  healthy s -> exists s', on_file (flush fault errno_text) s = (Ok tt, s') /\ healthy s' /\ log_files s' = log_files s /\
    current_size_ (fst s') = current_size_ (fst s) /\ kept s s' /\
    exists d, fd_ (file_helper_ (fst s')) = Some d /\ s_name d = base_filename_ (fst s') /\ pending d = [] /\
      zlen (content (base_filename_ (fst s')) (snd s')) = current_size_ (fst s).
Proof.
  destruct s as [r f]. intros [Hn (d & Hd & Hs & Hc) Hfn He Hz Hm]. cbn [fst snd] in *.
  destruct (flush_run fault errno_text Hf (file_helper_ r) f d Hd) as (f1 & E1 & D1 & F1).
  rewrite Hs, alter_content in F1 by done. assert (Hc1 : content (base_filename_ r) f1 = content (base_filename_ r) f ++ pending d).
  { unfold content at 1. by rewrite F1, lookup_insert_eq. }
  eexists. split; [apply on_file_run, E1|]. split_and!; simpl; try done.
  - split; simpl; try done; [by apply (names_ok_dirs r _ f)| |by rewrite F1, lookup_insert_eq].
    eexists. split; [done|]. split; [done|]. rewrite Hc1, zlen_app. simpl. rewrite zlen_nil. lia.
  - rewrite (log_files_base (r, f)), log_files_base. unfold base_text; cbn [fst snd set_helper base_filename_ max_files_ file_helper_ set_fd fd_ pending].
    rewrite Hc1, Hd, F1, files_view_base, app_nil_r. done.
  - eexists. split_and!; [done|done|done|]. rewrite Hc1, zlen_app. lia.
Qed.

Lemma rotate_step s d :
  healthy s -> fd_ (file_helper_ (fst s)) = Some d -> s_name d = base_filename_ (fst s) -> pending d = [] ->
  exists s', rotate_ fault errno_text s = (Ok tt, s') /\ healthy (set_current_size 0 (fst s'), snd s') /\
    log_files (set_current_size 0 (fst s'), snd s') = Some [] :: moved_up (log_files s) /\ kept s s'.
Proof.
  destruct s as [r f]. intros [Hn _ Hfn He Hz Hm] Hd Hs Hp. cbn [fst snd] in *.
  destruct (rotate_run r f d Hd Hfn Hs Hp He Hn) as (h & f1 & E1 & D1 & Hh & Hhn & F1).
  eexists. split; [exact E1|]. split_and!; try done.
  - split; simpl; try (done || lia); [by apply (names_ok_dirs r _ f)| |by rewrite F1, lookup_insert_eq].
    eexists. split; [done|]. split; [done|]. unfold content. rewrite F1, lookup_insert_eq. done.
  - unfold log_files, base_text, content. cbn [fst snd set_current_size set_helper base_filename_ max_files_ file_helper_].
    rewrite Hh, F1, lookup_insert_eq, insert_insert_eq, shift_view, Hd, Hp, app_nil_r.
    cbn [pending]. f_equal. f_equal. destruct (files f !! base_filename_ r) eqn:E; [|done]. by rewrite files_view_id.
Qed.

(** A successful write does not look at the size it overwrites. *)
Lemma write_any_size text n k (s s' : rsink F) :
  (do! on_file (write fault errno_text text) in upd_sink (set_current_size n)) (set_current_size k (fst s), snd s) = (Ok tt, s') ->
  (do! on_file (write fault errno_text text) in upd_sink (set_current_size n)) s = (Ok tt, s').
Proof.
  destruct s as [r f]. unfold bind, on_file, zoom, upd_sink, modify. simpl.
  by destruct (write fault errno_text text (file_helper_ r, f)) as [[[]|e|] [h f']].
Qed.

(** The three ways of a message: into the base file at once, after a flush that shows the file to be empty, after a rotation. *)
Lemma sink_it_step msg text s :
  healthy s -> format (formatter_ (fst s)) msg = Ok text -> zlen text < 2 ^ 63 ->
  exists s', rotating_sink_it_ format fault errno_text msg s = (Ok tt, s') /\ healthy s' /\
    log_files s' = log_to (max_size_ (fst s)) (log_files s) text /\ kept s s'.
Proof.
  intros H E Ht. pose proof (zlen_nonneg text). unfold rotating_sink_it_. pose proof (healthy_size s H) as Hb. destruct s as [r f]. cbn [fst] in E, Hb.
  bind_step by reflexivity. cbn [fst]. bind_step by (unfold of_outcome; by rewrite E).
  pose proof (hl_size _ H) as Hz. pose proof (hl_max _ H) as Hm. cbn [fst] in *.
  rewrite size_add_small by (unfold size_max; lia). rewrite (log_files_base (r, f)). unfold log_to. cbn [default id]. rewrite <- Hb.
  rewrite <- (log_files_base (r, f)). destruct (max_size_ r <? _) eqn:Elt; bool_to_prop; cbn [andb].
  - destruct (flush_step (r, f) H) as ([r1 f1] & E1 & H1 & L1 & C1 & M1 & d & Hd & Hs & Hp & Hz1). cbn [fst snd] in *.
    destruct (size_run fault errno_text Hf (file_helper_ r1) f1 d Hd) as (f2 & E2 & F2 & D2).
    assert (H2 : healthy (r1, f2)).
    { destruct H1 as [A (d' & B1 & B2 & B3) C D G K]. simpl in *.
      split; simpl; try done; [by apply (names_ok_dirs r1 r1 f1)| |by rewrite F2].
      exists d'. unfold content in *. rewrite F2. done. }
    assert (L2 : log_files (r1, f2) = log_files (r, f)) by (rewrite <- L1; unfold log_files, base_text, content; simpl; by rewrite F2).
    rewrite Hs, Hz1 in E2. destruct (0 <? current_size_ r) eqn:Ez; bool_to_prop.
    + destruct (rotate_step (r1, f2) d H2 Hd Hs Hp) as (s3 & E3 & H3 & L3 & M3).
      destruct (write_step text (zlen text) _ H3 Ht) as (s' & E4 & H4 & L4 & C4 & M4); [simpl; lia|lia|].
      exists s'. split; [|split_and!; try done].
      * erewrite bind_ok; [|unfold bind; rewrite E1, (on_file_run _ _ _ _ _ _ E2)].
        2:{ rewrite (proj2 (Z.ltb_lt _ _)) by done. replace (set_helper (file_helper_ r1) r1) with r1 by (by destruct r1).
            rewrite E3. reflexivity. }
        exact (write_any_size _ _ _ _ _ E4).
      * rewrite L4, L3, L2. rewrite log_files_base in L3. injection L3 as -> _. done.
      * unfold kept in *. simpl in *. intuition congruence.
    + destruct (write_step text (current_size_ r + zlen text) (r1, f2) H2 Ht) as (s' & E4 & H4 & L4 & C4 & M4); [simpl; lia|lia|].
      exists s'. split; [|split_and!; try done].
      * erewrite bind_ok; [|unfold bind; rewrite E1, (on_file_run _ _ _ _ _ _ E2)].
        2:{ rewrite (proj2 (Z.ltb_ge _ _)) by done. replace (set_helper (file_helper_ r1) r1) with r1 by (by destruct r1).
            reflexivity. }
        exact E4.
      * rewrite L4, L2. pose proof (log_files_base (r1, f2)) as Q. rewrite L2, log_files_base in Q. injection Q as -> _. by rewrite log_files_base.
      * unfold kept in *. simpl in *. intuition congruence.
  - bind_step by reflexivity.
    destruct (write_step text (current_size_ r + zlen text) (r, f) H Ht) as (s' & E4 & H4 & L4 & C4 & M4); [done|lia|].
    exists s'. split_and!; try done. rewrite L4. by rewrite log_files_base.
Qed.

(** A run of messages. *)
Fixpoint log_all (msgs : list log_msg) : M (rsink F) unit :=
  match msgs with
  | [] => ret tt
  | m :: msgs => do! rotating_sink_it_ format fault errno_text m in log_all msgs
  end.
End rotation.

(** C15: without faults the rotating sink keeps exactly the files it should.  For any run of messages, every file of the log, with the
    bytes still in the buffer of the base file, holds what appending the messages one by one to a list of files gives: a message
    goes to the end of the base file, and only when that is not empty and would grow past the limit all files move up by one
    index first, so that one file at most, the one with the largest index, is replaced.  Hence the files together are the end of
    what they held before followed by every message, in order. *)
Theorem rotating_keeps_newest {F} (format : F -> log_msg -> outcome (list Z)) fault errno_text
    (msgs : list log_msg) (texts : list (list Z)) (s : rsink F) :
  (forall n, fault n = None) -> healthy s ->
  Forall2 (fun m t => format (formatter_ (fst s)) m = Ok t /\ zlen t < 2 ^ 63) msgs texts ->
  exists s', log_all format fault errno_text msgs s = (Ok tt, s') /\ healthy s' /\
    log_files s' = fold_left (log_to (max_size_ (fst s))) texts (log_files s) /\
    exists dropped, history (log_files s) ++ concat texts = dropped ++ history (log_files s').
Proof.
  intros Hf Hs HF. enough (exists s', log_all format fault errno_text msgs s = (Ok tt, s') /\ healthy s' /\
    log_files s' = fold_left (log_to (max_size_ (fst s))) texts (log_files s)) as (s' & E & H & L).
  { exists s'. split_and!; [done..|]. rewrite L. apply log_to_all_history. by rewrite log_files_base. }
  revert s Hs HF. revert texts. induction msgs as [|m msgs IH]; intros texts s Hs HF.
  - apply Forall2_nil_inv_l in HF as ->. by exists s.
  - apply Forall2_cons_inv_l in HF as (t & texts' & [Et Ht] & HF & ->).
    destruct (sink_it_step format fault errno_text Hf m t s Hs Et Ht) as (s1 & E1 & H1 & L1 & M1 & Fm & _).
    rewrite <- Fm in HF. destruct (IH texts' s1 H1 HF) as (s2 & E2 & H2 & L2).
    exists s2. split; [cbn [log_all]; by rewrite (bind_ok _ _ _ _ _ E1)|]. split; [done|]. cbn [fold_left]. by rewrite L2, L1, M1.
Qed.

(** ** Any faults: the sink may throw, but nothing is undefined *)

Section safety.
Context {F : Type} (format : F -> log_msg -> outcome (list Z)) (fault : nat -> option Z) (errno_text : list Z).
Context (Hfmt : forall f m, format f m <> Undef).

Ltac go := unfold on_file, on_rfs, on_fs, upd_helper, upd_sink in *; repeat first
  [ progress intros
  | done
  | apply defined_bind | apply defined_zoom | apply defined_ret | apply defined_throw | apply defined_get
  | apply defined_gets | apply defined_modify | assumption
  | match goal with |- defined (match ?x with _ => _ end) => destruct x end
  | match goal with |- forall _, _ => intro end ].

Lemma defined_syscall : defined (syscall fault).
Proof. done. Qed.
Lemma defined_mkdir p : defined (mkdir_ fault p).
Proof. pose proof defined_syscall. unfold mkdir_. go. Qed.
Lemma defined_create_dir_loop fuel p o : defined (create_dir_loop fault fuel p o).
Proof. pose proof defined_mkdir. revert o. induction fuel as [|fuel IH]; intros o; cbn [create_dir_loop]; go; auto. Qed.
Lemma defined_create_dir p : defined (create_dir fault p).
Proof. pose proof defined_create_dir_loop. unfold create_dir. go; auto. Qed.
Lemma defined_fopen t p : defined (fopen fault t p).
Proof. pose proof defined_syscall. unfold fopen. go. Qed.
Lemma defined_remove p : defined (remove fault p).
Proof. pose proof defined_syscall. unfold remove. go. Qed.
Lemma defined_rename p1 p2 : defined (rename fault p1 p2).
Proof. pose proof defined_syscall. unfold rename. go. Qed.
Lemma defined_raise_event g e : defined (raise_event g e).
Proof. unfold raise_event. go. Qed.
Lemma defined_flush_stream s : defined (flush_stream fault s).
Proof. pose proof defined_syscall. unfold flush_stream. go. Qed.
Lemma defined_close : defined (close fault).
Proof. pose proof defined_flush_stream. pose proof defined_raise_event. unfold close. go; auto. Qed.
Lemma defined_open_loop k p t : defined (open_loop fault k p t).
Proof.
  pose proof defined_create_dir. pose proof defined_fopen. pose proof defined_raise_event.
  induction k as [|k IH]; cbn [open_loop]; go; auto.
Qed.
Lemma defined_open p t : defined (open fault errno_text p t).
Proof. pose proof defined_close. pose proof defined_open_loop. pose proof defined_raise_event. unfold open. go; auto. Qed.
Lemma defined_reopen t : defined (reopen fault errno_text t).
Proof. pose proof defined_open. unfold reopen. go; auto. Qed.
Lemma defined_flush : defined (flush fault errno_text).
Proof. pose proof defined_flush_stream. unfold flush. go; auto. Qed.
Lemma defined_write buf : defined (write fault errno_text buf).
Proof. pose proof defined_syscall. unfold write. go. Qed.
Lemma defined_size : defined (size fault errno_text).
Proof. pose proof defined_syscall. unfold size. go. Qed.
Lemma defined_rotate_loop n : defined (rotate_loop (F:=F) fault errno_text n).
Proof.
  pose proof defined_remove. pose proof defined_rename. pose proof defined_reopen.
  induction n as [|n IH]; cbn [rotate_loop]; unfold rename_file_; go; auto.
Qed.
Lemma defined_rotate : defined (rotate_ (F:=F) fault errno_text).
Proof. pose proof defined_close. pose proof defined_rotate_loop. pose proof defined_reopen. unfold rotate_. go; auto. Qed.
Lemma defined_sink_it msg : defined (rotating_sink_it_ format fault errno_text msg).
Proof.
  pose proof defined_flush. pose proof defined_size. pose proof defined_rotate. pose proof defined_write.
  unfold rotating_sink_it_. go; auto. by apply defined_of_outcome.
Qed.

(** The rotating sink keeps its promise to the logger. *)
Lemma rotating_safe : @SinkSafe F (rsink F) (rotating_sink format fault errno_text) (fun _ => True).
Proof. split; intros; (split; [|done]); [apply defined_sink_it|]. pose proof defined_flush. unfold flush_it; simpl. unfold rotating_flush_. by apply defined_zoom. Qed.
End safety.

(** ** Construction *)

Section construction.
Context {F : Type} (fault : nat -> option Z) (errno_text : list Z).
Context (Hf : forall n, fault n = None).

Lemma size_run_content h f d :
  fd_ h = Some d -> exists f', size fault errno_text (h, f) = (Ok (zlen (content (s_name d) f)), (h, f')) /\ same_files f f'.
Proof. apply size_run. done. Qed.

(** A new sink is healthy and continues the files it finds. *)
Lemma rotating_file_sink_new_ok (dflt : F) p max_size max_files hs f :
  0 < max_size < 2 ^ 63 -> 0 <= max_files <= MaxFiles -> zlen (content p f) < 2 ^ 63 -> parent_creatable p f ->
  (forall i, (i <= Z.to_nat max_files)%nat -> file_name (calc_filename p i) (set_dirs (with_parent p f) f)) ->
  exists r f', rotating_file_sink_new fault errno_text dflt p max_size max_files false hs f = (Ok r, f') /\
    healthy (r, f') /\ log_files (r, f') = files_view p (Z.to_nat max_files) (<[p := content p f]> (files f)) /\ formatter_ r = dflt /\
    max_size_ r = max_size.
Proof.
  intros Hm Hn Hz Hpc Hok. unfold rotating_file_sink_new.
  rewrite (proj2 (Z.eqb_neq _ _)), (proj2 (Z.ltb_ge _ _)) by lia.
  set (r0 := mkrotating p max_size max_files 0 (file_helper_new hs) dflt).
  destruct (open_creates fault errno_text Hf p false (file_helper_new hs) f) as (f1 & E1 & D1 & F1); [split; [apply (Hok O); lia|done]|done|].
  simpl in F1. set (h1 := mkfile_helper (Some (mkstream p [])) p hs) in *.
  assert (Fc : content p f1 = content p f) by (unfold content at 1; by rewrite F1, lookup_insert_eq).
  destruct (size_run_content h1 f1 (mkstream p []) eq_refl) as (f2 & E2 & F2 & D2). simpl in E2. rewrite Fc in E2.
  erewrite bind_ok by (apply on_file_run; exact E1).
  erewrite bind_ok by (apply on_file_run; exact E2). erewrite bind_ok by reflexivity. simpl.
  eexists _, f2. split; [done|].
  split; [|split_and!; try done].
  2:{ match goal with |- log_files ?s = _ => assert (B : base_text s = content p f) end.
      { unfold base_text, content; simpl. rewrite F2, app_nil_r. exact Fc. }
      unfold log_files. rewrite B. cbn [fst snd base_filename_ max_files_ set_helper set_current_size]. by rewrite F2, F1, insert_insert_eq. }
  split; simpl; try done.
  - intros i Hi. apply (file_name_dirs _ (set_dirs (with_parent p f) f)); [simpl; congruence|]. by apply Hok.
  - eexists. split; [done|]. split; [done|]. unfold content. rewrite F2. fold (content p f1). rewrite Fc. simpl. rewrite zlen_nil. unfold content. lia.
  - by rewrite F2, F1, lookup_insert_eq.
  - split; [apply zlen_nonneg|done].
Qed.
End construction.

(** A run: files of at most five bytes, one old file kept. *)
Module RotDemo.
Definition nofault (_ : nat) : option Z := None.
Definition fmt (_ : unit) (m : log_msg) : outcome (list Z) := Ok (payload m).
Definition handlers : file_event_handlers := mkhandlers false false false false.
Definition disk : fs := mkfs ∅ ∅ 0 [].
Definition base : list Z := chars "server.log".
Definition msg (t : list Z) : log_msg := log_msg_new 1 0 source_loc_default (chars "net") info t.
Definition created := rotating_file_sink_new nofault [] tt base 5 1 false handlers disk.
Definition sink0 : rsink unit :=
  (match fst created with Ok r => r | _ => mkrotating [] 0 0 0 (file_helper_new handlers) tt end, snd created).

Lemma sink0_healthy : healthy sink0.
Proof.
  destruct (rotating_file_sink_new_ok nofault [] (fun _ => eq_refl) tt base 5 1 handlers disk) as (r & f & E & P & _).
  - lia.
  - unfold MaxFiles. lia.
  - reflexivity.
  - left. reflexivity.
  - intros i Hi. assert (i = 0%nat \/ i = 1%nat) as [->| ->] by lia; (split_and!; [done|apply not_elem_of_empty|reflexivity]).
  - unfold sink0, created. rewrite E. exact P.
Qed.
End RotDemo.

Lemma rotating_keeps_newest_witness :
  exists s', log_all RotDemo.fmt RotDemo.nofault [] (map RotDemo.msg [chars "ab"; chars "cd"; chars "def"; chars "ghi"]) RotDemo.sink0
      = (Ok tt, s') /\ healthy s' /\ log_files s' = [Some (chars "ghi"); Some (chars "def")].
Proof.
  destruct (rotating_keeps_newest RotDemo.fmt RotDemo.nofault [] (map RotDemo.msg [chars "ab"; chars "cd"; chars "def"; chars "ghi"])
    [chars "ab"; chars "cd"; chars "def"; chars "ghi"] RotDemo.sink0) as (s' & E & H & L & _).
  - done.
  - exact RotDemo.sink0_healthy.
  - repeat (apply Forall2_cons; split; [split; [reflexivity|vm_compute; reflexivity]|]). apply Forall2_nil. done.
  - exists s'. split; [exact E|]. split; [exact H|]. rewrite L. vm_compute. reflexivity.
Defined.
