(* ===== verification/DatedFile.v ===== *)
(** * spdlog: file sinks that rotate by the clock

    sinks/daily_file_sink.h, hourly_file_sink.h and basic_file_sink-inl.h.  The
    readings of the clock are given by their number, like the faults of the
    system calls; [localtime] and [mktime] are the calendar of the host. *)

From S2P Require Import Prelude Machine FmtInt FmtHelper FmtParse FmtFormat TimeUtils CircularQ SpdCommon SpdLogger FileHelper.

(** ** basic_file_sink *)

Record basic_file_sink (F : Type) := mkbasic { basic_helper_ : file_helper; basic_formatter_ : F }.
Arguments mkbasic {F}.
Arguments basic_helper_ {F}.
Arguments basic_formatter_ {F}.

(** The sink and the file system. *)
Definition bsink (F : Type) : Type := basic_file_sink F * fs.
Definition on_basic {F A} (m : M fh A) : M (bsink F) A :=
  zoom (fun s => (basic_helper_ (fst s), snd s)) (fun h s => (mkbasic (fst h) (basic_formatter_ (fst s)), snd h)) m.

Section basic.
Context {F : Type} (format : F -> log_msg -> outcome (list Z)) (fault : nat -> option Z) (errno_text : list Z).

Definition basic_file_sink_new (dflt : F) (filename : list Z) (truncate : bool) (handlers : file_event_handlers) : M fs (basic_file_sink F) := fun f =>
  let '(o, (s, f)) := on_basic (open fault errno_text filename truncate) (mkbasic (file_helper_new handlers) dflt, f) in
  (match o with Ok _ => Ok s | Throw e => Throw e | Undef => Undef end, f).
Definition basic_filename (s : basic_file_sink F) : list Z := filename (basic_helper_ s).
Definition basic_truncate : M (bsink F) unit := on_basic (reopen fault errno_text true).
Definition basic_sink_it_ (msg : log_msg) : M (bsink F) unit :=
  let! s := gets fst in
  let! formatted := of_outcome (format (basic_formatter_ s) msg) in
  on_basic (write fault errno_text formatted).
Definition basic_flush_ : M (bsink F) unit := on_basic (flush fault errno_text).

#[export] Instance basic_sink : Sink F (bsink F) := {
  sink_it := basic_sink_it_;
  flush_it := basic_flush_;
  put_formatter f s := (mkbasic (basic_helper_ (fst s)) f, snd s) }.
End basic.

(** ** Names with a date *)

Section names.
Context {L : Locale}.

(** [daily_filename_calculator] and [hourly_filename_calculator]. *)
Definition daily_calc_filename (filename : list Z) (now_tm : tm) : outcome (list Z) :=
  let '(basename, ext) := split_by_extension filename in
  FmtFormat.format
    [StrArg basename; IntArg true 32 (tm_year now_tm + 1900); IntArg true 32 (tm_mon now_tm + 1); IntArg true 32 (tm_mday now_tm); StrArg ext]
    (chars "{}_{:04d}-{:02d}-{:02d}{}").
Definition hourly_calc_filename (filename : list Z) (now_tm : tm) : outcome (list Z) :=
  let '(basename, ext) := split_by_extension filename in
  FmtFormat.format
    [StrArg basename; IntArg true 32 (tm_year now_tm + 1900); IntArg true 32 (tm_mon now_tm + 1); IntArg true 32 (tm_mday now_tm);
     IntArg true 32 (tm_hour now_tm); StrArg ext]
    (chars "{}_{:04d}-{:02d}-{:02d}_{:02d}{}").
End names.

(** ** What both sinks do *)

(** The members both sinks have. *)
Record dated_files := mkdated {
  base_filename_ : list Z;
  rotation_tp_ : Z;
  file_helper_ : file_helper;
  truncate_ : bool;
  max_files_ : Z;
  filenames_q_ : circular_q (list Z) }.

Definition set_rotation_tp (tp : Z) (d : dated_files) : dated_files :=
  mkdated (base_filename_ d) tp (file_helper_ d) (truncate_ d) (max_files_ d) (filenames_q_ d).
Definition set_dated_helper (h : file_helper) (d : dated_files) : dated_files :=
  mkdated (base_filename_ d) (rotation_tp_ d) h (truncate_ d) (max_files_ d) (filenames_q_ d).
Definition set_filenames_q (q : circular_q (list Z)) (d : dated_files) : dated_files :=
  mkdated (base_filename_ d) (rotation_tp_ d) (file_helper_ d) (truncate_ d) (max_files_ d) q.

(** The world: the file system and the number of clock readings so far. *)
Record dated_world := mkdated_world { disk : fs; ticks : nat }.
Definition dw : Type := dated_files * dated_world.

Definition on_dated_file {A} (m : M fh A) : M dw A :=
  zoom (fun s => (file_helper_ (fst s), disk (snd s)))
    (fun h s => (set_dated_helper (fst h) (fst s), mkdated_world (snd h) (ticks (snd s)))) m.
Definition on_disk {A} (m : M fs A) : M dw A :=
  zoom (fun s => disk (snd s)) (fun f s => (fst s, mkdated_world f (ticks (snd s)))) m.
Definition on_q {A} (m : M (circular_q (list Z)) A) : M dw A :=
  zoom (fun s => filenames_q_ (fst s)) (fun q s => (set_filenames_q q (fst s), snd s)) m.
Definition upd_dated (g : dated_files -> dated_files) : M dw unit := modify (fun s => (g (fst s), snd s)).

Definition hours (n : Z) : Z := n * 3600 * seconds.
(** Sums of time points and durations are signed 64-bit numbers. *)
Definition time_sum (tp d : Z) : outcome Z :=
  if (- 2 ^ 63 <=? tp + d) && (tp + d <? 2 ^ 63) then Ok (tp + d) else Undef.

Section dated.
Context (calc_filename : list Z -> tm -> outcome (list Z)).
Context (fault : nat -> option Z) (errno_text : list Z) (clock : nat -> Z) (localtime : Z -> tm) (mktime : tm -> Z).

Definition log_clock_now : M dw Z := fun s =>
  (Ok (clock (ticks (snd s))), (fst s, mkdated_world (disk (snd s)) (S (ticks (snd s))))).

Definition now_tm (tp : Z) : tm := localtime (to_time_t tp).

(** [next_rotation_tp_]: [date] sets the fields of the time of day. *)
Definition next_rotation_tp (date : tm -> tm) (period : Z) : M dw Z :=
  let! now := log_clock_now in
  let! rotation_time := of_outcome (from_time_t (mktime (date (now_tm now)))) in
  if now <? rotation_time then ret rotation_time
  else of_outcome (time_sum rotation_time period).

(** The loop of [init_filenames_q_]: the newest name first. *)
Fixpoint existing_names (n : nat) (period now : Z) : M dw (list (list Z)) :=
  match n with
  | O => ret []
  | S n =>
      let! s := Prelude.get in
      let! filename := of_outcome (calc_filename (base_filename_ (fst s)) (now_tm now)) in
      if negb (path_exists filename (disk (snd s))) then ret []
      else
        let! now := of_outcome (time_sum now (- period)) in
        let! rest := existing_names n period now in
        ret (filename :: rest)
  end.
Fixpoint push_all (names : list (list Z)) : M dw unit :=
  match names with
  | [] => ret tt
  | n :: names => do! on_q (CircularQ.push_back n) in push_all names
  end.
Definition init_filenames_q (period : Z) : M dw unit :=
  let! d := gets fst in
  do! upd_dated (set_filenames_q (circular_q_new [] (max_files_ d))) in
  let! now := log_clock_now in
  let! filenames := existing_names (Z.to_nat (max_files_ d)) period now in
  push_all (rev filenames).

(** [delete_old_]; [failed] is the text of the exception. *)
Definition delete_old (failed : list Z) : M dw unit :=
  let! d := gets fst in
  let current_file := filename (file_helper_ d) in
  do! (if full (filenames_q_ d) then
         let! old_filename := on_q (move_front (fun _ => [])) in
         do! on_q pop_front in
         let! ok := on_disk (remove_if_exists fault old_filename) in
         if negb ok then
           do! on_q (CircularQ.push_back current_file) in
           throw (system_error errno_text (failed ++ old_filename))
         else ret tt
       else ret tt) in
  on_q (CircularQ.push_back current_file).

(** The file of a moment is opened. *)
Definition open_for (time : Z) : M dw unit :=
  let! d := gets fst in
  let! filename := of_outcome (calc_filename (base_filename_ d) (now_tm time)) in
  on_dated_file (open fault errno_text filename (truncate_ d)).
End dated.

(** ** daily_file_sink *)

Record daily_file_sink (F : Type) := mkdaily {
  daily_files_ : dated_files;
  rotation_h_ : Z;
  rotation_m_ : Z;
  daily_formatter_ : F }.
Arguments mkdaily {F}.
Arguments daily_files_ {F}.
Arguments rotation_h_ {F}.
Arguments rotation_m_ {F}.
Arguments daily_formatter_ {F}.

Definition dsink (F : Type) : Type := daily_file_sink F * dated_world.
Definition on_daily {F A} (m : M dw A) : M (dsink F) A :=
  zoom (fun s => (daily_files_ (fst s), snd s))
    (fun d s => (mkdaily (fst d) (rotation_h_ (fst s)) (rotation_m_ (fst s)) (daily_formatter_ (fst s)), snd d)) m.

Definition set_time (h m : Z) (date : tm) : tm :=
  mktm 0 m h (tm_mday date) (tm_mon date) (tm_year date) (tm_isdst date).

Section daily.
Context {F : Type} (format : F -> log_msg -> outcome (list Z)) (calc_filename : list Z -> tm -> outcome (list Z)).
Context (fault : nat -> option Z) (errno_text : list Z) (clock : nat -> Z) (localtime : Z -> tm) (mktime : tm -> Z).

Definition daily_next_rotation_tp_ : M (dsink F) Z :=
  let! s := gets fst in
  on_daily (next_rotation_tp clock localtime mktime (set_time (rotation_h_ s) (rotation_m_ s)) (hours 24)).
Definition daily_init_filenames_q_ : M (dsink F) unit := on_daily (init_filenames_q calc_filename clock localtime (hours 24)).
Definition daily_delete_old_ : M (dsink F) unit := on_daily (delete_old fault errno_text (chars "Failed removing daily file ")).
Definition daily_filename (s : daily_file_sink F) : list Z := filename (file_helper_ (daily_files_ s)).

Definition daily_sink_it_ (msg : log_msg) : M (dsink F) unit :=
  let! s := gets fst in
  let should_rotate := rotation_tp_ (daily_files_ s) <=? time msg in
  do! (if should_rotate then
         do! on_daily (open_for calc_filename fault errno_text localtime (time msg)) in
         let! tp := daily_next_rotation_tp_ in
         on_daily (upd_dated (set_rotation_tp tp))
       else ret tt) in
  let! formatted := of_outcome (format (daily_formatter_ s) msg) in
  do! on_daily (on_dated_file (write fault errno_text formatted)) in
  if should_rotate && (0 <? max_files_ (daily_files_ s)) then daily_delete_old_ else ret tt.

Definition daily_flush_ : M (dsink F) unit := on_daily (on_dated_file (flush fault errno_text)).

(** The constructor; [rotation_tp_] is the epoch before it is set. *)
Definition daily_file_sink_new (dflt : F) (base_filename : list Z) (rotation_hour rotation_minute : Z) (truncate : bool)
    (max_files : Z) (handlers : file_event_handlers) : M dated_world (daily_file_sink F) := fun w =>
  if (rotation_hour <? 0) || (23 <? rotation_hour) || (rotation_minute <? 0) || (59 <? rotation_minute) then
    (Throw (spdlog_ex (chars "daily_file_sink: Invalid rotation time in ctor")), w)
  else
    let s := mkdaily (mkdated base_filename 0 (file_helper_new handlers) truncate max_files circular_q_default)
      rotation_hour rotation_minute dflt in
    let '(o, (s, w)) :=
      (let! now := on_daily (log_clock_now clock) in
       do! on_daily (open_for calc_filename fault errno_text localtime now) in
       let! tp := daily_next_rotation_tp_ in
       do! on_daily (upd_dated (set_rotation_tp tp)) in
       if 0 <? max_files then daily_init_filenames_q_ else ret tt) (s, w) in
    (match o with Ok _ => Ok s | Throw e => Throw e | Undef => Undef end, w).

#[export] Instance daily_sink : Sink F (dsink F) := {
  sink_it := daily_sink_it_;
  flush_it := daily_flush_;
  put_formatter f s := (mkdaily (daily_files_ (fst s)) (rotation_h_ (fst s)) (rotation_m_ (fst s)) f, snd s) }.
End daily.

(** ** hourly_file_sink *)

Record hourly_file_sink (F : Type) := mkhourly {
  hourly_files_ : dated_files;
  remove_init_file_ : bool;
  hourly_formatter_ : F }.
Arguments mkhourly {F}.
Arguments hourly_files_ {F}.
Arguments remove_init_file_ {F}.
Arguments hourly_formatter_ {F}.

Definition hsink (F : Type) : Type := hourly_file_sink F * dated_world.
Definition on_hourly {F A} (m : M dw A) : M (hsink F) A :=
  zoom (fun s => (hourly_files_ (fst s), snd s))
    (fun d s => (mkhourly (fst d) (remove_init_file_ (fst s)) (hourly_formatter_ (fst s)), snd d)) m.
Definition set_remove_init {F} (b : bool) : M (hsink F) unit :=
  modify (fun s => (mkhourly (hourly_files_ (fst s)) b (hourly_formatter_ (fst s)), snd s)).

Definition set_hour_start (date : tm) : tm := set_time (tm_hour date) 0 date.

Section hourly.
Context {F : Type} (format : F -> log_msg -> outcome (list Z)) (calc_filename : list Z -> tm -> outcome (list Z)).
Context (fault : nat -> option Z) (errno_text : list Z) (clock : nat -> Z) (localtime : Z -> tm) (mktime : tm -> Z).

Definition hourly_next_rotation_tp_ : M (hsink F) Z :=
  on_hourly (next_rotation_tp clock localtime mktime set_hour_start (hours 1)).
Definition hourly_init_filenames_q_ : M (hsink F) unit := on_hourly (init_filenames_q calc_filename clock localtime (hours 1)).
Definition hourly_delete_old_ : M (hsink F) unit := on_hourly (delete_old fault errno_text (chars "Failed removing hourly file ")).
Definition hourly_filename (s : hourly_file_sink F) : list Z := filename (file_helper_ (hourly_files_ s)).

(** A file that is still empty is removed; the result of [remove] is not looked at. *)
Definition remove_init_file : M (hsink F) unit :=
  let! s := gets fst in
  if remove_init_file_ s then
    do! on_hourly (on_dated_file (close fault)) in
    do! on_hourly (on_disk (remove fault (hourly_filename s))) in ret tt
  else ret tt.

Definition hourly_sink_it_ (msg : log_msg) : M (hsink F) unit :=
  let! s := gets fst in
  let should_rotate := rotation_tp_ (hourly_files_ s) <=? time msg in
  do! (if should_rotate then
         do! remove_init_file in
         do! on_hourly (open_for calc_filename fault errno_text localtime (time msg)) in
         let! tp := hourly_next_rotation_tp_ in
         on_hourly (upd_dated (set_rotation_tp tp))
       else ret tt) in
  do! set_remove_init false in
  let! formatted := of_outcome (format (hourly_formatter_ s) msg) in
  do! on_hourly (on_dated_file (write fault errno_text formatted)) in
  if should_rotate && (0 <? max_files_ (hourly_files_ s)) then hourly_delete_old_ else ret tt.

Definition hourly_flush_ : M (hsink F) unit := on_hourly (on_dated_file (flush fault errno_text)).

Definition hourly_file_sink_new (dflt : F) (base_filename : list Z) (truncate : bool)
    (max_files : Z) (handlers : file_event_handlers) : M dated_world (hourly_file_sink F) := fun w =>
  let s := mkhourly (mkdated base_filename 0 (file_helper_new handlers) truncate max_files circular_q_default) false dflt in
  let '(o, (s, w)) :=
    (let! now := on_hourly (log_clock_now clock) in
     do! on_hourly (open_for calc_filename fault errno_text localtime now) in
     let! n := on_hourly (on_dated_file (FileHelper.size fault errno_text)) in
     do! set_remove_init (n =? 0) in
     let! tp := hourly_next_rotation_tp_ in
     do! on_hourly (upd_dated (set_rotation_tp tp)) in
     if 0 <? max_files then hourly_init_filenames_q_ else ret tt) (s, w) in
  (match o with Ok _ => Ok s | Throw e => Throw e | Undef => Undef end, w).

#[export] Instance hourly_sink : Sink F (hsink F) := {
  sink_it := hourly_sink_it_;
  flush_it := hourly_flush_;
  put_formatter f s := (mkhourly (hourly_files_ (fst s)) (remove_init_file_ (fst s)) f, snd s) }.
End hourly.

(** ** The names *)

(** Digits after zeros, [width] characters at least. *)
Definition zero_padded (width v : Z) : list Z := replicate (Z.to_nat (width - zlen (digits v))) 48 ++ digits v.
(** The specification [0<width>d]. *)
Definition zero_spec (width : Z) : format_specs := mkspecs pres_dec align_numeric sign_none false false false [48] width (-1) None None.

Lemma zero_padded_two v : 0 <= v < 100 -> zero_padded 2 v = two v.
Proof.
  intros Hv. unfold zero_padded, two. destruct (Z.ltb_spec v 10).
  - rewrite digits_small by lia. unfold digit_char. simpl. rewrite Z.div_small, Z.mod_small by lia. done.
  - rewrite digits_10, digits_small by (lia || (Z.div_mod_to_equations; lia)). done.
Qed.

Lemma zero_padded_four v : 0 <= v < 10000 -> zero_padded 4 v = four v.
Proof.
  intros Hv. unfold four. rewrite <- !zero_padded_two by (Z.div_mod_to_equations; lia). unfold zero_padded.
  destruct (Z.ltb_spec v 100).
  - rewrite Z.div_small, (Z.mod_small v 100) by lia. destruct (Z.ltb_spec v 10).
    + by rewrite (digits_small v), (digits_small 0) by lia.
    + rewrite (digits_10 v), (digits_small (v / 10)), (digits_small 0) by (lia || (Z.div_mod_to_equations; lia)). done.
  - rewrite (digits_100 v) by lia. set (h := v / 100). set (r := v mod 100).
    assert (0 < h < 100) by (subst h; Z.div_mod_to_equations; lia). assert (0 <= r < 100) by (subst r; Z.div_mod_to_equations; lia).
    assert (Hr : replicate (Z.to_nat (2 - zlen (digits r))) 48 ++ digits r = [digit_char (r / 10); digit_char (r mod 10)]).
    { fold (zero_padded 2 r). by rewrite zero_padded_two by lia. }
    rewrite Hr, zlen_app, app_assoc. change (zlen [_; _]) with 2. do 3 f_equal. lia.
Qed.

Section name_proofs.
Context {L : Locale}.

Lemma write_zero_padded width v :
  0 <= v < 2 ^ 31 -> 0 < width < 2 ^ 32 -> write_arg (IntArg true 32 v) (zero_spec width) = Ok (zero_padded width v).
Proof.
  intros Hv Hw. pose proof (digits_le_bits 32 v ltac:(by left) ltac:(lia)). pose proof (digits_pos v ltac:(lia)).
  unfold write_arg, write_integer, write_int. cbn [localized zero_spec].
  rewrite (proj2 (Z.ltb_ge v 0)) by lia. cbn [andb]. rewrite wrap_small by lia.
  change (type_ (zero_spec width) =? pres_hex) with false. change (type_ (zero_spec width) =? pres_oct) with false.
  change (type_ (zero_spec width) =? pres_bin) with false. change (type_ (zero_spec width) =? pres_chr) with false. cbv iota.
  rewrite format_decimal_text_ok by lia. change (precision (zero_spec width)) with (-1).
  change (FmtParse.width (zero_spec width)) with width.
  rewrite (proj2 (Z.eqb_neq width 0)) by lia. cbn [andb]. unfold size_padding. cbn [align zero_spec]. rewrite bool_decide_true by done.
  change (prefix_size (make_prefix false (sign (zero_spec width)))) with 0. change (FmtParse.width (zero_spec width)) with width.
  change (prefix_chars (make_prefix false (sign (zero_spec width)))) with (@nil Z). cbn [app Z.add].
  unfold write_padded, zero_padded, u32. change (FmtParse.width (zero_spec width)) with width. rewrite wrap_small by lia.
  rewrite Z.add_0_l. destruct (Z.ltb_spec (zlen (digits v)) width).
  - rewrite Z.ltb_irrefl. cbn [align zero_spec]. unfold fill. simpl. by rewrite !app_nil_r.
  - rewrite (proj2 (Z.ltb_ge _ _)) by done. cbn [align zero_spec]. unfold fill. simpl.
    replace (Z.to_nat (width - zlen (digits v))) with O by lia. by rewrite !app_nil_r.
Qed.

Lemma parse_zero_spec w l st : w = 2 \/ w = 4 ->
  parse_format_specs None int_type (48 :: 48 + w :: 100 :: 125 :: l) format_specs_new st = (Ok (zero_spec w, 125 :: l), st).
Proof. intros [-> | ->]; reflexivity. Qed.

Context (args : list fmt_arg).
Local Notation parse := (parse_format_string (format_handler args)).

Lemma on_text_run text n o : on_text (format_handler args) text (mkfmt_state n o) = (Ok tt, mkfmt_state n (o ++ text)).
Proof. done. Qed.

(** A field [{}], and a field with a zero-padded width. *)
Lemma parse_next fuel text l n o a t :
  0 <= n -> args !! Z.to_nat n = Some a -> write_default a = Ok t ->
  parse (S fuel) text (123 :: 125 :: l) (mkfmt_state n o) = parse fuel [] l (mkfmt_state (n + 1) ((o ++ text) ++ t)).
Proof.
  intros Hn Ha Ht. cbn [parse_format_string]. rewrite Z.eqb_refl. bind_step by apply on_text_run.
  bind_step by (rewrite parse_field_default, Ha, Ht by done; reflexivity). done.
Qed.

Lemma parse_zero fuel text l n o v w :
  0 <= n -> args !! Z.to_nat n = Some (IntArg true 32 v) -> 0 <= v < 2 ^ 31 -> w = 2 \/ w = 4 ->
  parse (S fuel) text (123 :: 58 :: 48 :: 48 + w :: 100 :: 125 :: l) (mkfmt_state n o) =
    parse fuel [] l (mkfmt_state (n + 1) ((o ++ text) ++ zero_padded w v)).
Proof.
  intros Hn Ha Hv Hw. cbn [parse_format_string]. rewrite Z.eqb_refl. bind_step by apply on_text_run.
  assert (E : on_arg_id (format_handler args) (mkfmt_state n (o ++ text)) = (Ok n, mkfmt_state (n + 1) (o ++ text))).
  { cbn. unfold next_arg_id, do_check_arg_id, bind, gets, set_next, modify, ret. cbn. by rewrite (proj2 (Z.ltb_ge n 0)) by lia. }
  assert (E' : format_with_specs args n (48 :: 48 + w :: 100 :: 125 :: l) (mkfmt_state (n + 1) (o ++ text)) =
    (Ok (125 :: l), mkfmt_state (n + 1) ((o ++ text) ++ zero_padded w v))).
  { unfold format_with_specs. bind_step by (unfold get_arg; rewrite Ha; reflexivity). bind_step by (apply parse_zero_spec; exact Hw).
    bind_step by reflexivity. bind_step by reflexivity. change (set_precision _ _) with (zero_spec w).
    bind_step by (rewrite write_zero_padded by lia; reflexivity). by bind_step by reflexivity. }
  erewrite bind_ok; [done|]. unfold parse_replacement_field. cbn [Z.eqb Pos.eqb]. bind_step by exact E. by bind_step by exact E'.
Qed.
End name_proofs.

(** A character of a text. *)
Lemma parse_char {L : Locale} args fuel text c l st :
  c <> 123 -> c <> 125 -> parse_format_string (format_handler args) (S fuel) text (c :: l) st = parse_format_string (format_handler args) fuel (text ++ [c]) l st.
Proof. intros H1 H2. cbn [parse_format_string]. by rewrite (proj2 (Z.eqb_neq _ _) H1), (proj2 (Z.eqb_neq _ _) H2). Qed.

(** The date of a name. *)
Definition date_text (t : tm) : list Z := chars "_" ++ four (tm_year t + 1900) ++ chars "-" ++ two (tm_mon t + 1) ++ chars "-" ++ two (tm_mday t).

Lemma daily_name {L : Locale} filename t :
  tm_ok t -> let '(b, e) := split_by_extension filename in daily_calc_filename filename t = Ok (b ++ date_text t ++ e).
Proof.
  intros [Hs Hmi Hh Hd Hmo Hy]. unfold daily_calc_filename, date_text. destruct (split_by_extension filename) as [b e].
  rewrite <- zero_padded_four, <- !zero_padded_two by lia.
  set (args := [_; _; _; _; _]). unfold FmtFormat.format, vformat_to. change (length (chars "{}_{:04d}-{:02d}-{:02d}{}")) with 25%nat.
  change (chars "{}_{:04d}-{:02d}-{:02d}{}") with
    (123 :: 125 :: 95 :: 123 :: 58 :: 48 :: 48 + 4 :: 100 :: 125 :: 45 :: 123 :: 58 :: 48 :: 48 + 2 :: 100 :: 125 :: 45 :: 123 :: 58 :: 48 :: 48 + 2 :: 100 :: 125 :: [123; 125]).
  rewrite bool_decide_false by done.
  rewrite (parse_next _ _ _ _ 0 _ (StrArg b) b) by done. rewrite parse_char by done.
  rewrite (parse_zero _ _ _ _ 1 _ (tm_year t + 1900) 4) by (done || lia || auto). rewrite parse_char by done.
  rewrite (parse_zero _ _ _ _ 2 _ (tm_mon t + 1) 2) by (done || lia || auto). rewrite parse_char by done.
  rewrite (parse_zero _ _ _ _ 3 _ (tm_mday t) 2) by (done || lia || auto).
  rewrite (parse_next _ _ _ _ 4 _ (StrArg e) e) by done. cbn [parse_format_string]. rewrite on_text_run. cbn [out app]. f_equal.
  rewrite !app_nil_r, <- !app_assoc. done.
Qed.

Lemma hourly_name {L : Locale} filename t :
  tm_ok t -> let '(b, e) := split_by_extension filename in
    hourly_calc_filename filename t = Ok (b ++ date_text t ++ chars "_" ++ two (tm_hour t) ++ e).
Proof.
  intros [Hs Hmi Hh Hd Hmo Hy]. unfold hourly_calc_filename, date_text. destruct (split_by_extension filename) as [b e].
  rewrite <- zero_padded_four, <- !zero_padded_two by lia.
  set (args := [_; _; _; _; _; _]). unfold FmtFormat.format, vformat_to. change (length (chars "{}_{:04d}-{:02d}-{:02d}_{:02d}{}")) with 32%nat.
  change (chars "{}_{:04d}-{:02d}-{:02d}_{:02d}{}") with
    (123 :: 125 :: 95 :: 123 :: 58 :: 48 :: 48 + 4 :: 100 :: 125 :: 45 :: 123 :: 58 :: 48 :: 48 + 2 :: 100 :: 125 :: 45 :: 123 :: 58 :: 48 :: 48 + 2 :: 100 :: 125
      :: 95 :: 123 :: 58 :: 48 :: 48 + 2 :: 100 :: 125 :: [123; 125]).
  rewrite bool_decide_false by done.
  rewrite (parse_next _ _ _ _ 0 _ (StrArg b) b) by done. rewrite parse_char by done.
  rewrite (parse_zero _ _ _ _ 1 _ (tm_year t + 1900) 4) by (done || lia || auto). rewrite parse_char by done.
  rewrite (parse_zero _ _ _ _ 2 _ (tm_mon t + 1) 2) by (done || lia || auto). rewrite parse_char by done.
  rewrite (parse_zero _ _ _ _ 3 _ (tm_mday t) 2) by (done || lia || auto). rewrite parse_char by done.
  rewrite (parse_zero _ _ _ _ 4 _ (tm_hour t) 2) by (done || lia || auto).
  rewrite (parse_next _ _ _ _ 5 _ (StrArg e) e) by done. cbn [parse_format_string]. rewrite on_text_run. cbn [out app]. f_equal.
  rewrite !app_nil_r, <- !app_assoc. done.
Qed.

Lemma two_inj a b : 0 <= a < 100 -> 0 <= b < 100 -> two a = two b -> a = b.
Proof. unfold two. intros Ha Hb [= E1 E2]. Z.div_mod_to_equations. lia. Qed.
Lemma four_inj a b : 0 <= a < 10000 -> 0 <= b < 10000 -> four a = four b -> a = b.
Proof.
  unfold four. intros Ha Hb E. apply app_inj_1 in E as [E1 E2]; [|done].
  apply two_inj in E1, E2; Z.div_mod_to_equations; lia.
Qed.

(** The names of the daily sink are exact and tell the days apart: for a
    date of the years 0 to 9999 the name is the base name, an underscore, the
    year in four digits, the month and the day in two, and the extension; two
    dates have the same name only if they are the same day. *)
Theorem daily_names_exact {L : Locale} (filename : list Z) (t t' : tm) :
  tm_ok t -> tm_ok t' ->
  daily_calc_filename filename t =
    Ok ((split_by_extension filename).1 ++ chars "_" ++ four (tm_year t + 1900) ++ chars "-" ++ two (tm_mon t + 1) ++ chars "-" ++
        two (tm_mday t) ++ (split_by_extension filename).2) /\
  (daily_calc_filename filename t = daily_calc_filename filename t' <->
    tm_year t = tm_year t' /\ tm_mon t = tm_mon t' /\ tm_mday t = tm_mday t').
Proof.
  intros Ht Ht'. pose proof (daily_name filename t Ht) as E. pose proof (daily_name filename t' Ht') as E'.
  destruct (split_by_extension filename) as [b e]. rewrite E, E'. destruct Ht, Ht'. split; [unfold date_text; by rewrite <- !app_assoc|]. split.
  - intros H. assert (H' : b ++ date_text t ++ e = b ++ date_text t' ++ e) by congruence. clear H. rename H' into H.
    apply app_inv_head, app_inv_tail in H. unfold date_text in H. apply app_inv_head in H.
    apply app_inj_1 in H as [Hy H]; [|done]. apply app_inv_head in H. apply app_inj_1 in H as [Hm H]; [|done]. apply app_inv_head in H.
    apply four_inj in Hy; [|lia..]. apply two_inj in Hm, H; lia.
  - intros (Ey & Em & Ed). unfold date_text. by rewrite Ey, Em, Ed.
Qed.

(** ** What the files hold *)

(** The log of a dated sink: the files with what is still in the buffer of the
    open one, the open one, the names that are kept, oldest first, the next
    rotation and the number of clock readings. *)
Record dated_log := mkdated_log {
  texts : gmap (list Z) (list Z);
  current : list Z;
  retained : list (list Z);
  next_rotation : Z;
  readings : nat }.

Definition dated_view (s : dw) : dated_log :=
  mkdated_log (closed_files (file_helper_ (fst s)) (disk (snd s))) (filename_ (file_helper_ (fst s))) (contents (filenames_q_ (fst s)))
    (rotation_tp_ (fst s)) (ticks (snd s)).

Definition append_log (text : list Z) (d : dated_log) : dated_log :=
  mkdated_log (alter (fun c => c ++ text) (current d) (texts d)) (current d) (retained d) (next_rotation d) (readings d).
Definition start_file (truncate : bool) (name : list Z) (next : nat -> Z) (d : dated_log) : dated_log :=
  mkdated_log (<[name := if truncate then [] else default [] (texts d !! name)]> (texts d)) name (retained d) (next (readings d)) (S (readings d)).
(** The oldest file goes when there are [max_files] names. *)
Definition retire (max_files : Z) (d : dated_log) : dated_log :=
  if zlen (retained d) =? max_files then
    mkdated_log (match retained d with old :: _ => delete old (texts d) | [] => texts d end) (current d)
      (drop 1 (retained d) ++ [current d]) (next_rotation d) (readings d)
  else mkdated_log (texts d) (current d) (retained d ++ [current d]) (next_rotation d) (readings d).

(** A message: its time and its text. *)
Definition dated_step (truncate : bool) (max_files : Z) (name_of : Z -> list Z) (next : nat -> Z) (d : dated_log) (m : Z * list Z) : dated_log :=
  if next_rotation d <=? m.1 then
    (if 0 <? max_files then retire max_files else id) (append_log m.2 (start_file truncate (name_of m.1) next d))
  else append_log m.2 d.

Lemma alter_app (p t u : list Z) (m : gmap (list Z) (list Z)) :
  alter (fun c => c ++ t ++ u) p m = alter (fun c => c ++ u) p (alter (fun c => c ++ t) p m).
Proof.
  apply map_eq. intros i. destruct (decide (p = i)) as [<-|Hn]; [|by rewrite !lookup_alter_ne].
  rewrite !lookup_alter_eq. destruct (m !! p); simpl; [by rewrite app_assoc|done].
Qed.
Lemma alter_app_nil (p : list Z) (m : gmap (list Z) (list Z)) : alter (fun c => c ++ []) p m = m.
Proof.
  apply map_eq. intros i. destruct (decide (p = i)) as [<-|Hn]; [|by rewrite lookup_alter_ne].
  rewrite lookup_alter_eq. destruct (m !! p); simpl; [by rewrite app_nil_r|done].
Qed.

Section dated_proofs.
Context (calc_filename : list Z -> tm -> outcome (list Z)).
Context (fault : nat -> option Z) (errno_text : list Z) (clock : nat -> Z) (localtime : Z -> tm) (mktime : tm -> Z).
Context (Hf : forall n, fault n = None).

(** A sink in order: its file is open, no name it keeps is one of a directory,
    and the queue has the size of [max_files]. *)
Record dated_ok (s : dw) : Prop := {
  do_fd : exists d, fd_ (file_helper_ (fst s)) = Some d /\ s_name d = filename_ (file_helper_ (fst s));
  do_names : Forall (fun n => n ∉ dirs (disk (snd s))) (filename_ (file_helper_ (fst s)) :: contents (filenames_q_ (fst s)));
  do_q : 0 < max_files_ (fst s) -> CircularQ.wf (filenames_q_ (fst s)) /\ max_items_ (filenames_q_ (fst s)) = max_files_ (fst s) + 1 }.

Lemma on_dated_file_run {A} (m : M fh A) d w x h f :
  m (file_helper_ d, disk w) = (x, (h, f)) -> on_dated_file m (d, w) = (x, (set_dated_helper h d, mkdated_world f (ticks w))).
Proof. intros E. unfold on_dated_file, zoom. cbn [fst snd]. by rewrite E. Qed.
Lemma on_disk_run {A} (m : M fs A) d w x f : m (disk w) = (x, f) -> on_disk m (d, w) = (x, (d, mkdated_world f (ticks w))).
Proof. intros E. unfold on_disk, zoom. cbn [fst snd]. by rewrite E. Qed.
Lemma on_q_run {A} (m : M (circular_q (list Z)) A) d w x q :
  m (filenames_q_ d) = (x, q) -> on_q m (d, w) = (x, (set_filenames_q q d, w)).
Proof. intros E. unfold on_q, zoom. cbn [fst snd]. by rewrite E. Qed.

(** What the steps leave as it is. *)
Definition same_config (s s' : dw) : Prop :=
  base_filename_ (fst s') = base_filename_ (fst s) /\ truncate_ (fst s') = truncate_ (fst s) /\ max_files_ (fst s') = max_files_ (fst s) /\
  dirs (disk (snd s')) = dirs (disk (snd s)).

Lemma write_dated text s :
  dated_ok s -> exists s', on_dated_file (write fault errno_text text) s = (Ok tt, s') /\ dated_ok s' /\ same_config s s' /\
    dated_view s' = append_log text (dated_view s).
Proof.
  destruct s as [d w]. intros [(st & Hd & Hn) Hns Hq]. simpl in *.
  destruct (write_run fault errno_text Hf (file_helper_ d) (disk w) st text Hd) as (f1 & E1 & F1 & D1).
  eexists. split; [apply on_dated_file_run, E1|]. split; [|split].
  - split; simpl; [by eexists|by rewrite D1|done].
  - by split_and!.
  - unfold dated_view, append_log, closed_files. simpl. rewrite Hd, F1, Hn. f_equal. simpl.
    apply alter_app.
Qed.

Lemma open_dated time name s :
  dated_ok s -> calc_filename (base_filename_ (fst s)) (now_tm localtime time) = Ok name -> file_name name (disk (snd s)) ->
  exists s', open_for calc_filename fault errno_text localtime time s = (Ok tt, s') /\ dated_ok s' /\ same_config s s' /\
    rotation_tp_ (fst s') = rotation_tp_ (fst s) /\ ticks (snd s') = ticks (snd s) /\
    dated_view s' = let d := dated_view s in
      mkdated_log (<[name := if truncate_ (fst s) then [] else default [] (texts d !! name)]> (texts d)) name (retained d) (next_rotation d) (readings d).
Proof.
  destruct s as [d w]. intros [_ Hns Hq] Hc Hn. cbn [fst snd] in *. unfold open_for. bind_step by reflexivity. cbn [fst].
  bind_step by (rewrite Hc; reflexivity).
  destruct (open_run fault errno_text Hf name (truncate_ d) (file_helper_ d) (disk w) Hn) as (f1 & E1 & D1 & F1).
  eexists. split; [apply on_dated_file_run, E1|]. split; [|split_and!; try done].
  - split; simpl; [by eexists| |done]. rewrite D1. inversion Hns; subst. constructor; [apply Hn|done].
  - unfold dated_view. simpl. unfold closed_files at 1. simpl. rewrite F1. f_equal.
    by rewrite alter_app_nil.
Qed.

(** What [next_rotation_tp_] computes from the time. *)
Definition next_time (date : tm -> tm) (period now : Z) : outcome Z :=
  match from_time_t (mktime (date (now_tm localtime now))) with
  | Ok r => if now <? r then Ok r else time_sum r period
  | Throw e => Throw e
  | Undef => Undef
  end.

Lemma next_rotation_run date period s :
  next_rotation_tp clock localtime mktime date period s =
    (next_time date period (clock (ticks (snd s))), (fst s, mkdated_world (disk (snd s)) (S (ticks (snd s))))).
Proof.
  unfold next_rotation_tp, next_time, bind, of_outcome, log_clock_now. destruct (from_time_t _) as [r|e|]; [|done..].
  by destruct (_ <? r).
Qed.

Lemma remove_if_exists_run p f :
  p ∉ dirs f -> exists f', remove_if_exists fault p f = (Ok true, f') /\ dirs f' = dirs f /\ files f' = delete p (files f).
Proof.
  intros Hd. unfold remove_if_exists, path_exists. bind_step by reflexivity. rewrite (bool_decide_false (p ∈ _)), orb_false_r by done.
  case_bool_decide as Hs.
  - destruct (syscall_run fault Hf f) as (f1 & E & E1 & E2). unfold remove. bind_step by exact E. bind_step by reflexivity.
    rewrite E1, bool_decide_true by done. eexists. split; [reflexivity|]. simpl. by rewrite E1.
  - exists f. split; [done|]. split; [done|]. symmetry. apply delete_id. by apply eq_None_not_Some.
Qed.

Lemma closed_files_delete h p f f' :
  files f' = delete p (files f) -> closed_files h f' = delete p (closed_files h f).
Proof.
  intros E. unfold closed_files. destruct (fd_ h) as [st|]; [|done]. rewrite E. apply map_eq. intros i.
  destruct (decide (p = i)) as [<-|Hp].
  - rewrite lookup_delete_eq, lookup_alter. case_decide; subst; by rewrite lookup_delete_eq.
  - destruct (decide (s_name st = i)) as [<-|Hi].
    + by rewrite lookup_alter_eq, !lookup_delete_ne, lookup_alter_eq by done.
    + by rewrite lookup_alter_ne, !lookup_delete_ne, lookup_alter_ne by done.
Qed.

Lemma push_dated n d w :
  CircularQ.wf (filenames_q_ d) -> zlen (contents (filenames_q_ d)) < max_items_ (filenames_q_ d) - 1 ->
  exists q, on_q (CircularQ.push_back n) (d, w) = (Ok tt, (set_filenames_q q d, w)) /\ CircularQ.wf q /\
    max_items_ q = max_items_ (filenames_q_ d) /\ contents q = contents (filenames_q_ d) ++ [n].
Proof.
  intros Hw Hl. destruct (push_back_ok _ n Hw) as (q & E & Hq & V). exists q. split; [apply on_q_run, E|]. split; [done|].
  unfold view, ring_push in V. simpl in V. rewrite (proj2 (Z.ltb_lt _ _)) in V by done. injection V as E1 E2 _. split; [lia|done].
Qed.

(** The oldest name leaves the queue. *)
Lemma pop_dated d w x l :
  CircularQ.wf (filenames_q_ d) -> contents (filenames_q_ d) = x :: l ->
  exists q, on_q (move_front (fun _ => [])) (d, w) = (Ok x, (set_filenames_q q d, w)) /\
    exists q', on_q pop_front (set_filenames_q q d, w) = (Ok tt, (set_filenames_q q' d, w)) /\ CircularQ.wf q' /\
    max_items_ q' = max_items_ (filenames_q_ d) /\ contents q' = l.
Proof.
  intros Hw Hc. destruct (move_front_ok _ x l (fun _ => []) Hw Hc) as (q & E & Hq & V). injection V as V1 V2 _.
  exists q. split; [apply on_q_run, E|]. destruct (pop_front_ok q Hq) as (q' & E' & Hq' & V'); [by rewrite V2|].
  injection V' as V1' V2' _. exists q'. split; [by apply (on_q_run _ (set_filenames_q q d))|]. split; [done|]. split; [lia|].
  by rewrite V2', V2.
Qed.

Lemma delete_dated failed s :
  dated_ok s -> 0 < max_files_ (fst s) ->
  exists s', delete_old fault errno_text failed s = (Ok tt, s') /\ dated_ok s' /\ same_config s s' /\
    dated_view s' = retire (max_files_ (fst s)) (dated_view s).
Proof.
  destruct s as [d w]. intros [Hfd Hns Hq] Hm. cbn [fst snd] in *. destruct (Hq Hm) as [Hw Hi]. pose proof (zlen_contents _ Hw) as Hz.
  pose proof (size_range _ Hw). inversion Hns as [|? ? Hc Hr]; subst. unfold delete_old. bind_step by reflexivity. cbn [fst].
  rewrite full_size by done. unfold retire. change (retained (dated_view (d, w))) with (contents (filenames_q_ d)). rewrite Hz, Hi. replace (max_files_ d + 1 - 1) with (max_files_ d) by lia.
  destruct (Z.eqb_spec (CircularQ.size (filenames_q_ d)) (max_files_ d)) as [Hs|Hs].
  - destruct (contents (filenames_q_ d)) as [|x l] eqn:Ec; [rewrite zlen_nil in Hz; lia|]. rewrite zlen_cons in Hz.
    inversion Hr as [|? ? Hx Hl]; subst. destruct (pop_dated d w x l Hw Ec) as (q1 & E1 & q2 & E2 & W2 & I2 & C2).
    destruct (remove_if_exists_run x (disk w) Hx) as (f & E3 & D3 & F3).
    destruct (push_dated (filename (file_helper_ d)) (set_filenames_q q2 d) (mkdated_world f (ticks w))) as (q3 & E4 & W4 & I4 & C4);
      [done|simpl; rewrite C2; lia|].
    eexists. split.
    { bind_step by (bind_step by exact E1; bind_step by exact E2; bind_step by (apply on_disk_run, E3); reflexivity). exact E4. }
    simpl in *. rewrite C2 in C4. split; [|split].
    + split; simpl; [done| |intros _; split; [done|congruence]]. rewrite D3, C4. constructor; [done|]. apply Forall_app; auto.
    + by split_and!.
    + unfold dated_view. simpl. rewrite C4. simpl. f_equal. by apply closed_files_delete.
  - destruct (push_dated (filename (file_helper_ d)) d w) as (q3 & E4 & W4 & I4 & C4); [done|lia|].
    eexists. split; [bind_step by reflexivity; exact E4|]. split; [|split].
    + split; simpl; [done| |intros _; split; [done|congruence]]. rewrite C4. constructor; [done|]. apply Forall_app; auto.
    + by split_and!.
    + unfold dated_view. simpl. by rewrite C4.
Qed.
End dated_proofs.

(** ** The daily sink *)

Section daily_proofs.
Context {F : Type} (format : F -> log_msg -> outcome (list Z)) (calc_filename : list Z -> tm -> outcome (list Z)).
Context (fault : nat -> option Z) (errno_text : list Z) (clock : nat -> Z) (localtime : Z -> tm) (mktime : tm -> Z).
Context (Hf : forall n, fault n = None).

Definition files_of (s : dsink F) : dw := (daily_files_ (fst s), snd s).
Definition daily_ok (s : dsink F) : Prop := dated_ok (files_of s).
Definition daily_view (s : dsink F) : dated_log := dated_view (files_of s).

(** What a run of messages keeps. *)
Definition same_daily (s s' : dsink F) : Prop :=
  same_config (files_of s) (files_of s') /\ rotation_h_ (fst s') = rotation_h_ (fst s) /\ rotation_m_ (fst s') = rotation_m_ (fst s) /\
  daily_formatter_ (fst s') = daily_formatter_ (fst s).

Lemma on_daily_run {A} (m : M dw A) s x d w :
  m (files_of s) = (x, (d, w)) ->
  on_daily m s = (x, (mkdaily d (rotation_h_ (fst s)) (rotation_m_ (fst s)) (daily_formatter_ (fst s)), w)).
Proof. intros E. unfold on_daily, zoom. unfold files_of in E. by rewrite E. Qed.

Lemma same_config_trans (a b c : dw) : same_config a b -> same_config b c -> same_config a c.
Proof. unfold same_config. intros (? & ? & ? & ?) (? & ? & ? & ?). split_and!; congruence. Qed.

(** A name and a next rotation for every moment. *)
Definition scheduled (name_of : Z -> list Z) (next : nat -> Z) (times : list Z) (s : dsink F) : Prop :=
  (forall t, t ∈ times -> calc_filename (base_filename_ (daily_files_ (fst s))) (now_tm localtime t) = Ok (name_of t) /\ file_name (name_of t) (disk (snd s))) /\
  (forall k, next_time localtime mktime (set_time (rotation_h_ (fst s)) (rotation_m_ (fst s))) (hours 24) (clock k) = Ok (next k)).

Lemma scheduled_same name_of next times s s' : same_daily s s' -> scheduled name_of next times s -> scheduled name_of next times s'.
Proof.
  intros ((Eb & _ & _ & Ed) & Eh & Em & _) [H1 H2]. split.
  - intros t Ht. destruct (H1 t Ht) as [Hc Hn]. simpl in Eb, Ed. rewrite Eb. split; [done|]. by apply (file_name_dirs _ (disk (snd s))).
  - intros k. by rewrite Eh, Em.
Qed.

Lemma daily_rotate name_of next t s :
  daily_ok s -> scheduled name_of next [t] s ->
  exists s', (do! on_daily (open_for calc_filename fault errno_text localtime t) in
              let! tp := daily_next_rotation_tp_ clock localtime mktime in
              on_daily (upd_dated (set_rotation_tp tp))) s = (Ok tt, s') /\ daily_ok s' /\ same_daily s s' /\
    daily_view s' = start_file (truncate_ (daily_files_ (fst s))) (name_of t) next (daily_view s).
Proof.
  intros Hs [H1 H2]. destruct (H1 t) as [Hc Hn]; [by constructor|].
  destruct (open_dated calc_filename fault errno_text localtime Hf t (name_of t) (files_of s) Hs Hc Hn) as ([d1 w1] & E1 & O1 & C1 & R1 & T1 & V1).
  eexists. split; [|split; [|split]].
  - bind_step by (apply on_daily_run, E1).
    bind_step by (unfold daily_next_rotation_tp_; bind_step by reflexivity; apply on_daily_run; unfold files_of; simpl; rewrite next_rotation_run, H2; reflexivity).
    apply on_daily_run. unfold files_of. reflexivity.
  - destruct O1. by split.
  - split; [|done]. unfold same_config in *. simpl in *. tauto.
  - unfold daily_view, files_of, dated_view, start_file in *. simpl in *. injection V1 as V1 V2 V3 _ V4. by rewrite V1, V2, V3, V4.
Qed.

(** One message. *)
Lemma daily_step_run name_of next msg text s :
  daily_ok s -> format (daily_formatter_ (fst s)) msg = Ok text -> scheduled name_of next [time msg] s ->
  exists s', daily_sink_it_ format calc_filename fault errno_text clock localtime mktime msg s = (Ok tt, s') /\ daily_ok s' /\ same_daily s s' /\
    daily_view s' = dated_step (truncate_ (daily_files_ (fst s))) (max_files_ (daily_files_ (fst s))) name_of next (daily_view s) (time msg, text).
Proof.
  intros Hs Ht Hsch. unfold daily_sink_it_, dated_step. bind_step by reflexivity.
  change (next_rotation (daily_view s)) with (rotation_tp_ (daily_files_ (fst s))). cbn [fst snd].
  assert (exists s1, (if rotation_tp_ (daily_files_ (fst s)) <=? time msg
     then do! on_daily (open_for calc_filename fault errno_text localtime (time msg)) in
          let! tp := daily_next_rotation_tp_ clock localtime mktime in on_daily (upd_dated (set_rotation_tp tp))
     else ret tt) s = (Ok tt, s1) /\ daily_ok s1 /\ same_daily s s1 /\
     daily_view s1 = if rotation_tp_ (daily_files_ (fst s)) <=? time msg then start_file (truncate_ (daily_files_ (fst s))) (name_of (time msg)) next (daily_view s)
       else daily_view s) as (s1 & E1 & O1 & C1 & V1).
  { destruct (_ <=? _); [by apply daily_rotate|]. exists s. by split_and!. }
  bind_step by exact E1. bind_step by (rewrite Ht; reflexivity).
  destruct (write_dated fault errno_text Hf text (files_of s1) O1) as ([d2 w2] & E2 & O2 & C2 & V2).
  bind_step by (apply on_daily_run, E2). destruct C1 as (C1 & Ch & Cm & Cf). pose proof (same_config_trans _ _ _ C1 C2) as C.
  destruct (rotation_tp_ (daily_files_ (fst s)) <=? time msg) eqn:Er; cbn [andb].
  - destruct (0 <? max_files_ (daily_files_ (fst s))) eqn:Em; bool_to_prop.
    + destruct (delete_dated fault errno_text Hf (chars "Failed removing daily file ") (d2, w2) O2) as ([d3 w3] & E3 & O3 & C3 & V3).
      { destruct C as (_ & _ & Ex & _). simpl in Ex. simpl. lia. }
      eexists. split; [unfold daily_delete_old_; apply on_daily_run, E3|]. split; [done|]. split; [split; [by apply (same_config_trans _ _ _ C)|done]|].
      unfold daily_view, files_of in *. simpl in *. rewrite V3, V2, V1. destruct C as (_ & _ & Ex & _). simpl in Ex. by rewrite Ex.
    + eexists. split; [reflexivity|]. split; [done|]. split; [by split|]. unfold daily_view, files_of in *. simpl in *. by rewrite V2, V1.
  - eexists. split; [reflexivity|]. split; [done|]. split; [by split|]. unfold daily_view, files_of in *. simpl in *. by rewrite V2, V1.
Qed.

(** A run of messages. *)
Fixpoint daily_log_all (msgs : list log_msg) : M (dsink F) unit :=
  match msgs with
  | [] => ret tt
  | m :: msgs => do! daily_sink_it_ format calc_filename fault errno_text clock localtime mktime m in daily_log_all msgs
  end.

Lemma daily_run name_of next msgs ts s :
  daily_ok s -> Forall2 (fun m t => format (daily_formatter_ (fst s)) m = Ok t) msgs ts -> scheduled name_of next (map time msgs) s ->
  exists s', daily_log_all msgs s = (Ok tt, s') /\ daily_ok s' /\
    daily_view s' = fold_left (dated_step (truncate_ (daily_files_ (fst s))) (max_files_ (daily_files_ (fst s))) name_of next)
      (zip (map time msgs) ts) (daily_view s).
Proof.
  revert ts s. induction msgs as [|m msgs IH]; intros ts s Hs HF Hsch.
  - apply Forall2_nil_inv_l in HF as ->. exists s. by split_and!.
  - apply Forall2_cons_inv_l in HF as (t & ts' & Et & HF & ->). cbn [daily_log_all map zip_with fold_left].
    destruct (daily_step_run name_of next m t s Hs Et) as (s1 & E1 & O1 & C1 & V1).
    { split; [|apply Hsch]. intros u Hu. apply list_elem_of_singleton in Hu as ->. apply Hsch. by constructor. }
    pose proof C1 as ((_ & Ct & Cm & _) & _ & _ & Cf). simpl in Ct, Cm.
    destruct (IH ts' s1 O1) as (s2 & E2 & O2 & V2).
    { by rewrite Cf. } { apply (scheduled_same _ _ _ _ _ C1). split; [|apply Hsch]. intros u Hu. apply Hsch. by constructor. }
    exists s2. split; [by bind_step by exact E1|]. split; [done|]. by rewrite V2, V1, Ct, Cm.
Qed.
End daily_proofs.

(** ** What is kept *)

Section kept.
Context (truncate : bool) (max_files : Z) (name_of : Z -> list Z) (next : nat -> Z).
Context (Hmax : 0 < max_files).
Implicit Types (d : dated_log) (t : list Z).

Definition text_of d (n : list Z) : list Z := default [] (texts d !! n).
(** The files that are kept, from the oldest, with their names. *)
Definition kept_files d : list (list Z * list Z) := map (fun n => (n, text_of d n)) (retained d).
(** Their texts. *)
Definition all_text (g : list (list Z * list Z)) : list Z := concat (map snd g).

(** What should be kept: the last [max_files] of the files that the messages fill, one after the other.  A message whose time is past the
    next rotation starts a file, every other message goes to the end of the newest. *)
Fixpoint append_last t (g : list (list Z * list Z)) : list (list Z * list Z) :=
  match g with
  | [] => []
  | x :: rest => match rest with [] => [(x.1, x.2 ++ t)] | _ => x :: append_last t rest end
  end.
Fixpoint day_log (rotation : Z) (k : nat) (g : list (list Z * list Z)) (msgs : list (Z * list Z)) : list (list Z * list Z) :=
  match msgs with
  | [] => g
  | m :: msgs =>
      if rotation <=? m.1 then day_log (next k) (S k) (g ++ [(name_of m.1, m.2)]) msgs
      else day_log rotation k (append_last m.2 g) msgs
  end.
Definition last_n {A} (n : nat) (l : list A) : list A := drop (length l - n) l.

Lemma append_last_app t l x : append_last t (l ++ [x]) = l ++ [(x.1, x.2 ++ t)].
Proof. induction l as [|y l IH]; [done|]. cbn [app append_last]. rewrite IH. by destruct l. Qed.

Lemma append_last_names t g : map fst (append_last t g) = map fst g.
Proof. destruct g as [|x l _] using rev_ind; [done|]. rewrite append_last_app, !map_app. done. Qed.

Lemma last_n_append n t g : (0 < n)%nat -> last_n n (append_last t g) = append_last t (last_n n g).
Proof.
  intros Hn. destruct g as [|x l _] using rev_ind; [done|]. unfold last_n. rewrite append_last_app, !length_app. simpl.
  rewrite !drop_app_le by lia. by rewrite append_last_app.
Qed.

Lemma last_n_snoc {A} n (g : list A) x : (0 < n)%nat ->
  last_n n (g ++ [x]) = (if (length (last_n n g) =? n)%nat then drop 1 (last_n n g) else last_n n g) ++ [x].
Proof.
  intros Hn. unfold last_n. rewrite length_app, length_drop. simpl. rewrite drop_app_le by lia. f_equal.
  destruct (Nat.eqb_spec (length g - (length g - n)) n); [rewrite drop_drop|]; f_equal; lia.
Qed.

Lemma all_text_app g h : all_text (g ++ h) = all_text g ++ all_text h.
Proof. unfold all_text. by rewrite map_app, concat_app. Qed.

(** No message is lost before files are dropped. *)
Lemma day_log_text rotation k g msgs : g <> [] -> all_text (day_log rotation k g msgs) = all_text g ++ concat (map snd msgs).
Proof.
  revert rotation k g. unfold all_text. induction msgs as [|m msgs IH]; intros rotation k g Hg; cbn [day_log]; [by rewrite app_nil_r|].
  destruct (_ <=? _); (rewrite IH; [|by destruct g as [|? [|? ?]]]).
  - rewrite map_app, concat_app. simpl. by rewrite app_nil_r, app_assoc.
  - destruct g as [|x l _] using rev_ind; [done|]. rewrite append_last_app, !map_app, !concat_app. simpl. by rewrite !app_nil_r, !app_assoc.
Qed.

(** At most [max_files] different files are kept, all exist, the open one is the newest. *)
Record kept_ok d : Prop := {
  ko_current : exists l, retained d = l ++ [current d];
  ko_distinct : NoDup (retained d);
  ko_number : zlen (retained d) <= max_files;
  ko_exist : Forall (fun n => texts d !! n <> None) (retained d) }.

(** The names of the rotations are new. *)
Fixpoint new_names (msgs : list (Z * list Z)) d : Prop :=
  match msgs with
  | [] => True
  | m :: msgs => (next_rotation d <= m.1 -> texts d !! name_of m.1 = None) /\ new_names msgs (dated_step truncate max_files name_of next d m)
  end.

Lemma append_kept t d : kept_ok d -> kept_ok (append_log t d) /\ kept_files (append_log t d) = append_last t (kept_files d).
Proof.
  intros [[l El] Hd Hn He]. split.
  - split; simpl; try done; [by exists l|]. eapply Forall_impl; [exact He|]. intros n Hi. simpl. rewrite lookup_alter.
    case_decide; [subst|done]. destruct (texts d !! current d); [done|by destruct Hi].
  - unfold kept_files. simpl. rewrite El in *. rewrite !map_app. simpl. rewrite append_last_app. apply NoDup_app in Hd as (_ & Hx & _).
    apply Forall_app in He as [_ Hc]. inversion Hc as [|? ? Hc' _]; subst. f_equal.
    + apply map_ext_in. intros n Hin%list_elem_of_In. unfold text_of. simpl. rewrite lookup_alter_ne; [done|].
      intros E. subst n. apply (Hx _ Hin). by constructor.
    + unfold text_of. simpl. rewrite lookup_alter_eq. by destruct (texts d !! current d).
Qed.

(** The files of a list of names other than [n] are not touched with [n]. *)
Lemma texts_insert n t d l : n ∉ l -> map (fun k => (k, default [] ((<[n := t]> (texts d)) !! k))) l = map (fun k => (k, text_of d k)) l.
Proof. intros Hn. apply map_ext_in. intros k Hk%list_elem_of_In. unfold text_of. rewrite lookup_insert_ne; [done|]. by intros ->. Qed.

Lemma rotate_kept t name d :
  kept_ok d -> texts d !! name = None ->
  let d' := retire max_files (append_log t (start_file truncate name next d)) in
  kept_ok d' /\ (kept_files d' = (if zlen (retained d) =? max_files then drop 1 (kept_files d) else kept_files d) ++ [(name, t)]) /\
  (forall n, n <> name -> n ∉ retained d -> texts d' !! n = texts d !! n) /\ (forall n, n ∈ retained d -> n ∉ retained d' -> texts d' !! n = None).
Proof.
  intros [_ Hd Hn He] Hnew.
  assert (Hin : name ∉ retained d) by (intros Hi; rewrite Forall_forall in He; by apply (He _ Hi)).
  unfold retire, append_log, start_file. cbn [texts current retained next_rotation readings]. rewrite Hnew.
  assert (alter (fun c => c ++ t) name (<[name := if truncate then [] else default [] None]> (texts d)) = <[name := t]> (texts d)) as ->.
  { apply map_eq. intros i. destruct (decide (name = i)) as [<-|Hi].
    - rewrite lookup_alter_eq, !lookup_insert_eq. by destruct truncate.
    - by rewrite lookup_alter_ne, !lookup_insert_ne. }
  assert (Hex : forall l, Forall (fun n => texts d !! n <> None) l -> Forall (fun n => <[name := t]> (texts d) !! n <> None) (l ++ [name])).
  { intros l Hl. apply Forall_app. split; [|constructor; [by rewrite lookup_insert_eq|done]]. eapply Forall_impl; [exact Hl|].
    intros n Hi. simpl. rewrite lookup_insert. by case_decide. }
  destruct (Z.eqb_spec (zlen (retained d)) max_files) as [Em|Em].
  - destruct (retained d) as [|x l] eqn:Er; [rewrite zlen_nil in Em; lia|]. rewrite zlen_cons in *. cbn [drop]. rewrite drop_0.
    apply NoDup_cons in Hd as [Hx Hd]. apply not_elem_of_cons in Hin as [Hnx Hin]. inversion He; subst.
    assert (Hxl : x ∉ l ++ [name]) by (rewrite elem_of_app, list_elem_of_singleton; naive_solver).
    split; [split; simpl|split; [|split]].
    + by eexists.
    + apply NoDup_app. split_and!; [done| |apply NoDup_singleton]. intros k Hk ->%list_elem_of_singleton. done.
    + rewrite zlen_app. change (zlen [name]) with 1. lia.
    + apply Forall_forall. intros k Hk. rewrite lookup_delete_ne by (intros E; by subst k). revert k Hk. apply Forall_forall. by apply Hex.
    + unfold kept_files. rewrite Er. simpl. rewrite map_app. simpl. f_equal.
      * rewrite drop_0, <- (texts_insert name t d l Hin). apply map_ext_in. intros k Hk%list_elem_of_In. unfold text_of. simpl.
        rewrite lookup_delete_ne; [done|]. by intros ->.
      * unfold text_of. simpl. by rewrite lookup_delete_ne, lookup_insert_eq.
    + simpl. intros n Hne Hni. rewrite lookup_delete_ne, lookup_insert_ne by set_solver. done.
    + simpl. intros n Hi Hni. assert (n = x) as -> by set_solver. apply lookup_delete_eq.
  - split; [split; simpl|split; [|split]].
    + by eexists.
    + apply NoDup_app. split_and!; [done| |apply NoDup_singleton]. intros k Hk ->%list_elem_of_singleton. done.
    + rewrite zlen_app. change (zlen [name]) with 1. lia.
    + by apply Hex.
    + unfold kept_files. simpl. rewrite map_app. simpl. f_equal.
      * by rewrite <- (texts_insert name t d _ Hin).
      * unfold text_of. simpl. by rewrite lookup_insert_eq.
    + simpl. intros n Hne Hni. by rewrite lookup_insert_ne.
    + simpl. set_solver.
Qed.

(** The files of a run: the last [max_files] of those filled are kept, the others are gone, and no other file is touched. *)
Record run_ok (d0 : dated_log) (g : list (list Z * list Z)) d : Prop := {
  rk_ok : kept_ok d;
  rk_files : kept_files d = last_n (Z.to_nat max_files) g;
  rk_gone : forall n, n ∈ map fst g -> n ∉ retained d -> texts d !! n = None;
  rk_other : forall n, n ∉ map fst g -> texts d !! n = texts d0 !! n }.

Lemma kept_names d : map fst (kept_files d) = retained d.
Proof. unfold kept_files. rewrite map_map. apply map_id. Qed.

Lemma run_ok_retained d0 g d n : run_ok d0 g d -> n ∈ retained d -> n ∈ map fst g.
Proof.
  intros [_ Hf _ _]. rewrite <- kept_names, Hf. unfold last_n. intros Hn. rewrite <- (take_drop (length g - Z.to_nat max_files) g), map_app. set_solver.
Qed.

Lemma run_ok_append d0 g d t : run_ok d0 g d -> run_ok d0 (append_last t g) (append_log t d).
Proof.
  intros H. pose proof H as [Hk Hf Hg Ho]. destruct (append_kept t d Hk) as [Hk' Hf']. split; rewrite ?append_last_names; simpl.
  - done.
  - by rewrite Hf', Hf, last_n_append by lia.
  - intros n Hn Hr. rewrite lookup_alter_ne; [by apply Hg|]. intros <-. apply Hr. destruct (ko_current _ Hk) as [l ->]. set_solver.
  - intros n Hn. rewrite lookup_alter_ne; [by apply Ho|]. intros <-. apply Hn, (run_ok_retained d0 g d _ H). destruct (ko_current _ Hk) as [l ->]. set_solver.
Qed.

Lemma run_ok_rotate d0 g d t name : run_ok d0 g d -> texts d !! name = None ->
  run_ok d0 (g ++ [(name, t)]) (retire max_files (append_log t (start_file truncate name next d))).
Proof.
  intros H Hnew. pose proof H as [Hk Hf Hg Ho]. destruct (rotate_kept t name d Hk Hnew) as (Hk' & Hf' & Ho' & Hg'). split.
  - done.
  - rewrite Hf', last_n_snoc, <- Hf by lia. do 2 f_equal. unfold zlen. assert (length (kept_files d) = length (retained d)) as -> by (unfold kept_files; apply length_map).
    destruct (Z.eqb_spec (Z.of_nat (length (retained d))) max_files), (Nat.eqb_spec (length (retained d)) (Z.to_nat max_files)); done || lia.
  - intros n Hn Hr. destruct (decide (n ∈ retained d)) as [Hi|Hi]; [by apply Hg'|]. destruct (decide (n = name)) as [->|Hne].
    + exfalso. apply Hr. destruct (ko_current _ Hk') as [l El]. rewrite El. simpl. unfold retire. destruct (_ =? _); set_solver.
    + rewrite Ho' by done. apply Hg; [|done]. rewrite map_app in Hn. set_solver.
  - intros n Hn. rewrite map_app in Hn. simpl in Hn. rewrite Ho'; [apply Ho; set_solver|set_solver|]. intros Hi. pose proof (run_ok_retained _ _ _ _ H Hi). set_solver.
Qed.

Lemma run_kept msgs d0 g d :
  run_ok d0 g d -> new_names msgs d ->
  run_ok d0 (day_log (next_rotation d) (readings d) g msgs) (fold_left (dated_step truncate max_files name_of next) msgs d).
Proof.
  revert g d. induction msgs as [|m msgs IH]; intros g d Hk Hn; cbn [day_log fold_left]; [done|]. destruct Hn as [Hnew Hn].
  revert Hn. unfold dated_step at 1 3. destruct (Z.leb_spec (next_rotation d) m.1) as [Hle|Hle].
  - rewrite (proj2 (Z.ltb_lt 0 max_files)) by done. intros Hn. set (d' := retire _ _) in *.
    replace (next (readings d)) with (next_rotation d') by (unfold d', retire; by destruct (_ =? _)).
    replace (S (readings d)) with (readings d') by (unfold d', retire; by destruct (_ =? _)). apply IH; [|done]. apply run_ok_rotate; auto.
  - intros Hn. apply (IH (append_last m.2 g) (append_log m.2 d)); [by apply run_ok_append|done].
Qed.

Lemma run_ok_start d : kept_ok d -> run_ok d (kept_files d) d.
Proof.
  intros H. split; [done| |intros n; by rewrite kept_names|done]. unfold last_n. pose proof (ko_number _ H) as Hn. unfold zlen in Hn.
  assert (length (kept_files d) = length (retained d)) as -> by (unfold kept_files; apply length_map).
  replace (_ - _)%nat with 0%nat by lia. by rewrite drop_0.
Qed.
End kept.

(** C25: without faults the daily sink keeps exactly its newest files.  For any run of messages whose rotations open files that are
    not there yet: with the files filled one after the other, each message appended to the newest one or, when its time is
    past the next rotation, to a new one, the sink keeps the last [max_files] of them (all, while there are fewer), with these
    names and texts; those dropped no longer exist, and every other file is as it was.  Hence the kept files are the end of
    what was kept before followed by every message, in order. *)
Theorem daily_keeps_newest {F} (format : F -> log_msg -> outcome (list Z)) (calc_filename : list Z -> tm -> outcome (list Z)) fault errno_text clock
    localtime mktime (name_of : Z -> list Z) (next : nat -> Z) (msgs : list log_msg) (ts : list (list Z)) (s : dsink F) :
  (forall n, fault n = None) -> 0 < max_files_ (daily_files_ (fst s)) -> daily_ok s -> kept_ok (max_files_ (daily_files_ (fst s))) (daily_view s) ->
  Forall2 (fun m t => format (daily_formatter_ (fst s)) m = Ok t) msgs ts ->
  scheduled calc_filename clock localtime mktime name_of next (map time msgs) s ->
  new_names (truncate_ (daily_files_ (fst s))) (max_files_ (daily_files_ (fst s))) name_of next (zip (map time msgs) ts) (daily_view s) ->
  let filled := day_log name_of next (rotation_tp_ (daily_files_ (fst s))) (ticks (snd s)) (kept_files (daily_view s)) (zip (map time msgs) ts) in
  exists s', daily_log_all format calc_filename fault errno_text clock localtime mktime msgs s = (Ok tt, s') /\ daily_ok s' /\
    kept_ok (max_files_ (daily_files_ (fst s))) (daily_view s') /\
    kept_files (daily_view s') = last_n (Z.to_nat (max_files_ (daily_files_ (fst s)))) filled /\
    (forall n, n ∈ map fst filled -> n ∉ retained (daily_view s') -> texts (daily_view s') !! n = None) /\
    (forall n, n ∉ map fst filled -> texts (daily_view s') !! n = texts (daily_view s) !! n) /\
    exists dropped, all_text (kept_files (daily_view s)) ++ concat ts = all_text dropped ++ all_text (kept_files (daily_view s')).
Proof.
  intros Hf Hm Hs Hk HF Hsch Hn filled. destruct (daily_run format calc_filename fault errno_text clock localtime mktime Hf name_of next msgs ts s Hs HF Hsch) as (s' & E & O & V).
  destruct (run_kept _ _ name_of next Hm _ _ _ _ (run_ok_start _ Hm _ Hk) Hn) as [Hk' Hf' Hg Ho]. rewrite <- V in Hk', Hf', Hg, Ho.
  exists s'. split_and!; [done..|]. exists (take (length filled - Z.to_nat (max_files_ (daily_files_ (fst s)))) filled). rewrite Hf', <- all_text_app. unfold last_n. fold filled.
  rewrite take_drop. unfold filled. rewrite day_log_text.
  - do 2 f_equal. change (map snd) with (fmap (M:=list) (@snd Z (list Z))). symmetry. apply snd_zip. apply Forall2_length in HF. rewrite length_map. by apply Nat.eq_le_incl, eq_sym.
  - unfold kept_files. destruct (ko_current _ _ Hk) as [l ->]. by destruct l.
Qed.

(** ** When the sink rotates *)

Definition second_of_day (t : tm) : Z := tm_hour t * 3600 + tm_min t * 60 + tm_sec t.

(** The next rotation is the next time the clock shows the rotation time:
    on a day on which [mktime] sets the time of day by adding seconds, the time
    point is the rotation time of this day when it is still to come and of the
    next day otherwise; it lies after now, and at most 24 hours after it. *)
Theorem daily_next_rotation_exact (localtime : Z -> tm) (mktime : tm -> Z) (h m now : Z) :
  0 <= h <= 23 -> 0 <= m <= 59 -> 0 <= now < 2 ^ 62 ->
  let t := localtime (to_time_t now) in
  let today := to_time_t now + (h * 3600 + m * 60 - second_of_day t) in
  0 <= second_of_day t < 86400 -> mktime (set_time h m t) = today ->
  exists next, next_time localtime mktime (set_time h m) (hours 24) now = Ok next /\ now < next <= now + hours 24 /\
    next = (if now <? today * seconds then today else today + 86400) * seconds.
Proof.
  intros Hh Hm Hn t today Ht Hmk. unfold next_time, now_tm, from_time_t, time_sum, hours. fold t. rewrite Hmk.
  assert (Hq : to_time_t now = now / seconds) by (unfold to_time_t, duration_cast; apply Z.quot_div_nonneg; [lia|done]).
  unfold seconds in *. assert (Hb : to_time_t now * 1000000000 <= now < to_time_t now * 1000000000 + 1000000000) by (rewrite Hq; Z.div_mod_to_equations; lia).
  assert (today * 1000000000 <= now + 86399 * 1000000000) by (subst today; lia).
  assert (now < today * 1000000000 + 86400 * 1000000000) by (subst today; lia).
  rewrite (proj2 (Z.leb_le _ _)), (proj2 (Z.ltb_lt _ _)) by lia. cbn [andb].
  destruct (Z.ltb_spec now (today * 1000000000)).
  - eexists. split; [done|]. lia.
  - rewrite (proj2 (Z.leb_le _ _)), (proj2 (Z.ltb_lt _ _)) by lia. eexists. split; [done|]. lia.
Qed.

(** ** Runs *)

#[local] Instance classic : Locale := { write_loc _ _ _ _ := None }.

Module DailyDemo.
Definition nofault (_ : nat) : option Z := None.
Definition fmt (_ : unit) (m : log_msg) : outcome (list Z) := Ok (payload m).
(** Universal time. *)
Definition localtime (secs : Z) : tm :=
  let '(y, m, d) := civil_from_days (secs / 86400) in mktm (secs mod 60) (secs / 60 mod 60) (secs / 3600 mod 24) d (m - 1) (y - 1900) 0.
Definition mktime (t : tm) : Z :=
  days_from_civil (tm_year t + 1900) (tm_mon t + 1) (tm_mday t) * 86400 + second_of_day t.
(** A time on a day of March 2024. *)
Definition at_time (day h m : Z) : Z := (days_from_civil 2024 3 day * 86400 + h * 3600 + m * 60) * seconds.
Definition msg_at (t : Z) (text : list Z) : log_msg := mklog_msg [] info t 0 0 0 source_loc_default text.
Definition handlers : file_event_handlers := mkhandlers false false false false.
(** A sink made at [start], whose clock later shows the times of [later]; the
    constructor reads the clock three times. *)
Definition clock (start : Z) (later : list Z) (k : nat) : Z := default 0 (([start; start; start] ++ later) !! k).
Definition made (start h max_files : Z) :=
  daily_file_sink_new daily_calc_filename nofault [] (clock start []) localtime mktime tt (chars "srv.log") h 0 true max_files handlers
    (mkdated_world (mkfs ∅ ∅ 0 []) 0).
Definition sink (start h max_files : Z) : dsink unit :=
  match made start h max_files with
  | (Ok s, w) => (s, w)
  | (_, w) => (mkdaily (mkdated [] 0 (file_helper_new handlers) false 0 circular_q_default) 0 0 tt, w)
  end.
Definition run (start : Z) (later : list Z) (h max_files : Z) (msgs : list log_msg) :=
  daily_log_all fmt daily_calc_filename nofault [] (clock start later) localtime mktime msgs (sink start h max_files).
Definition name_of (t : Z) : list Z := match daily_calc_filename (chars "srv.log") (now_tm localtime t) with Ok n => n | _ => [] end.
Definition next (h : Z) (clock : nat -> Z) (k : nat) : Z :=
  match next_time localtime mktime (set_time h 0) (hours 24) (clock k) with Ok n => n | _ => 0 end.
Definition days : list log_msg :=
  [msg_at (at_time 5 11 0) (chars "a"); msg_at (at_time 6 3 0) (chars "b"); msg_at (at_time 6 9 0) (chars "c"); msg_at (at_time 7 3 0) (chars "d")].
Definition readings : list Z := [at_time 6 3 0; at_time 7 3 0].
End DailyDemo.

Lemma daily_names_exact_witness :
  let t := DailyDemo.localtime 1709632800 in
  daily_calc_filename (chars "logs/srv.log") t = Ok (chars "logs/srv_2024-03-05.log").
Proof.
  intros t. destruct (daily_names_exact (chars "logs/srv.log") t t) as [E _]; [split; vm_compute; split; discriminate..|]. rewrite E. reflexivity.
Defined.

Lemma daily_next_rotation_exact_witness :
  next_time DailyDemo.localtime DailyDemo.mktime (set_time 2 30) (hours 24) (DailyDemo.at_time 5 10 0) = Ok (DailyDemo.at_time 6 2 30).
Proof.
  destruct (daily_next_rotation_exact DailyDemo.localtime DailyDemo.mktime 2 30 (DailyDemo.at_time 5 10 0)) as (next & E & _ & En).
  - lia.
  - lia.
  - vm_compute. split; [discriminate|reflexivity].
  - vm_compute. split; [discriminate|reflexivity].
  - vm_compute. reflexivity.
  - rewrite E, En. vm_compute. reflexivity.
Defined.

Lemma daily_keeps_newest_witness :
  exists s', DailyDemo.run (DailyDemo.at_time 5 10 0) DailyDemo.readings 2 2 DailyDemo.days = (Ok tt, s') /\
    kept_files (daily_view s') = [(chars "srv_2024-03-06.log", chars "bc"); (chars "srv_2024-03-07.log", chars "d")] /\
    texts (daily_view s') !! chars "srv_2024-03-05.log" = None.
Proof.
  set (s := DailyDemo.sink (DailyDemo.at_time 5 10 0) 2 2). set (c := DailyDemo.clock (DailyDemo.at_time 5 10 0) DailyDemo.readings).
  destruct (daily_keeps_newest DailyDemo.fmt daily_calc_filename DailyDemo.nofault [] c DailyDemo.localtime DailyDemo.mktime DailyDemo.name_of
    (DailyDemo.next 2 c) DailyDemo.days [chars "a"; chars "b"; chars "c"; chars "d"] s) as (s' & E & _ & _ & K & G & _).
  - done.
  - reflexivity.
  - split.
    + eexists. split; vm_compute; reflexivity.
    + vm_compute. repeat constructor; discriminate.
    + intros _. vm_compute. repeat split; congruence.
  - split.
    + exists []. vm_compute. reflexivity.
    + vm_compute. repeat constructor. apply not_elem_of_nil.
    + vm_compute. discriminate.
    + vm_compute. repeat constructor. discriminate.
  - repeat constructor.
  - split.
    + intros t Ht. cbn [DailyDemo.days map] in Ht. repeat (apply elem_of_cons in Ht as [->|Ht]; [split; [vm_compute; reflexivity|vm_compute; split_and!; discriminate || done]|]).
      by apply elem_of_nil in Ht.
    + intros k. do 5 (destruct k as [|k]; [vm_compute; reflexivity|]). vm_compute. reflexivity.
  - vm_compute. repeat split; intros; congruence.
  - assert (R : kept_files (daily_view s') = [(chars "srv_2024-03-06.log", chars "bc"); (chars "srv_2024-03-07.log", chars "d")])
      by (rewrite K; vm_compute; reflexivity).
    exists s'. split; [exact E|]. split; [exact R|]. apply G; [apply list_elem_of_In; vm_compute; by left|]. rewrite <- kept_names, R.
    apply (bool_decide_unpack _). vm_compute. exact I.
Defined.

(** A sink that is started before its rotation time of the day opens the file
    of that day again at the first rotation.  With [truncate] the morning's
    messages are cut off, and with [max_files = 1] the file that is open is the
    one that is removed: what is written until midnight is in no file. *)
Example daily_rotates_into_itself :
  match DailyDemo.run (DailyDemo.at_time 5 10 0) [DailyDemo.at_time 5 12 1] 12 1
    [DailyDemo.msg_at (DailyDemo.at_time 5 11 0) (chars "morning"); DailyDemo.msg_at (DailyDemo.at_time 5 12 1) (chars "noon")] with
  | (Ok _, s) => map_to_list (texts (daily_view s)) = [] /\ current (daily_view s) = chars "srv_2024-03-05.log"
  | _ => False
  end.
Proof. vm_compute. split; reflexivity. Qed.

(** The hourly sink removes a file that is still empty at the first rotation,
    and keeps the newest [max_files]. *)
Example hourly_run :
  let clock := DailyDemo.clock (DailyDemo.at_time 5 10 20) [DailyDemo.at_time 5 11 5; DailyDemo.at_time 5 12 5] in
  let w := mkdated_world (mkfs ∅ ∅ 0 []) 0 in
  let log t text := hourly_sink_it_ DailyDemo.fmt hourly_calc_filename DailyDemo.nofault [] clock DailyDemo.localtime DailyDemo.mktime (DailyDemo.msg_at t text) in
  match hourly_file_sink_new hourly_calc_filename DailyDemo.nofault [] clock DailyDemo.localtime DailyDemo.mktime tt (chars "srv.log") false 2 DailyDemo.handlers w with
  | (Ok s, w) =>
      match (do! log (DailyDemo.at_time 5 11 5) (chars "a") in do! log (DailyDemo.at_time 5 11 6) (chars "b") in log (DailyDemo.at_time 5 12 5) (chars "c")) (s, w) with
      | (Ok _, s) =>
          let d := dated_view (hourly_files_ (fst s), snd s) in
          retained d = [chars "srv_2024-03-05_11.log"; chars "srv_2024-03-05_12.log"] /\
          map (fun n => texts d !! n) (chars "srv_2024-03-05_10.log" :: retained d) = [None; Some (chars "ab"); Some (chars "c")]
      | _ => False
      end
  | _ => False
  end.
Proof. vm_compute. split; reflexivity. Qed.

(** ** The basic sink *)

(** Without faults the basic sink appends the text of the message to its file,
    and nothing when the file has been removed; [truncate] empties the file. *)
Lemma basic_sink_appends {F} (format : F -> log_msg -> outcome (list Z)) fault errno_text (s : bsink F) st msg text :
  (forall n, fault n = None) -> fd_ (basic_helper_ (fst s)) = Some st -> format (basic_formatter_ (fst s)) msg = Ok text ->
  exists s', basic_sink_it_ format fault errno_text msg s = (Ok tt, s') /\
    closed_files (basic_helper_ (fst s')) (snd s') = alter (fun c => c ++ text) (s_name st) (closed_files (basic_helper_ (fst s)) (snd s)).
Proof.
  destruct s as [b f]. intros Hf Hd Ht. cbn [fst snd] in *. destruct (write_run fault errno_text Hf (basic_helper_ b) f st text Hd) as (f1 & E1 & F1 & D1).
  unfold basic_sink_it_. eexists. split.
  - bind_step by reflexivity. cbn [fst]. bind_step by (rewrite Ht; reflexivity). unfold on_basic, zoom. cbn [fst snd]. rewrite E1. reflexivity.
  - unfold closed_files. simpl. rewrite Hd, F1. apply alter_app.
Qed.

Lemma basic_truncates {F} fault errno_text (s : bsink F) :
  (forall n, fault n = None) -> filename_ (basic_helper_ (fst s)) <> [] -> file_name (filename_ (basic_helper_ (fst s))) (snd s) ->
  exists s', basic_truncate fault errno_text s = (Ok tt, s') /\
    files (snd s') = <[filename_ (basic_helper_ (fst s)) := []]> (closed_files (basic_helper_ (fst s)) (snd s)).
Proof.
  destruct s as [b f]. intros Hf Hn Hp. cbn [fst snd] in *. destruct (open_run fault errno_text Hf _ true (basic_helper_ b) f Hp) as (f1 & E1 & D1 & F1).
  unfold basic_truncate, on_basic, reopen, zoom. eexists. split.
  - cbn [fst snd]. erewrite bind_ok by reflexivity. cbn [fst]. rewrite bool_decide_false by done. rewrite E1. reflexivity.
  - done.
Qed.
