(* ===== verification/Registry.v ===== *)
(** * spdlog: the registry of loggers and its configuration

    details/registry-inl.h with the functions of spdlog-inl.h and async.h that
    forward to it, and cfg/helpers-inl.h (levels from a text such as
    [net=debug,err]).  The registry holds shared pointers: loggers live in a heap
    under numbers, and the registry maps names to numbers.  A logger that nobody
    points to any more is destroyed in C++; here it stays in the heap, out of
    reach.  The iteration order
    of a hash map is that of [map_to_list]; no result below depends on it. *)

From S2P Require Import Prelude Machine CircularQ MpmcQueue SpdCommon SpdLogger ThreadPool.

Record registry (F : Type) := mkregistry {
  loggers_ : gmap (list Z) Z;
  log_levels_ : gmap (list Z) level_enum;
  formatter_ : F;
  global_log_level_ : level_enum;
  flush_level_ : level_enum;
  err_handler_ : option Z;
  (** The thread pool: its queue and the number of its workers. *)
  tp_ : option (mpmc_blocking_queue async_msg * nat);
  (** The interval of the periodic flusher. *)
  periodic_flusher_ : option Z;
  default_logger_ : option Z;
  automatic_registration_ : bool;
  backtrace_n_messages_ : Z }.
Arguments mkregistry {F}.
Arguments loggers_ {F}.
Arguments log_levels_ {F}.
Arguments formatter_ {F}.
Arguments global_log_level_ {F}.
Arguments flush_level_ {F}.
Arguments err_handler_ {F}.
Arguments tp_ {F}.
Arguments periodic_flusher_ {F}.
Arguments default_logger_ {F}.
Arguments automatic_registration_ {F}.
Arguments backtrace_n_messages_ {F}.

(** The registry, the loggers and what they share. *)
Record rstate (F S : Type) := mkrstate {
  reg : registry F;
  heap : gmap Z logger;
  shared : world S }.
Arguments mkrstate {F S}.
Arguments reg {F S}.
Arguments heap {F S}.
Arguments shared {F S}.

Section registry.
Context {F S : Type} `{Sink F S} (clone_formatter : F -> F).
Implicit Types (r : registry F).

Definition set_loggers (m : gmap (list Z) Z) r : registry F :=
  mkregistry m (log_levels_ r) (formatter_ r) (global_log_level_ r) (flush_level_ r) (err_handler_ r) (tp_ r)
    (periodic_flusher_ r) (default_logger_ r) (automatic_registration_ r) (backtrace_n_messages_ r).
Definition set_log_levels (m : gmap (list Z) level_enum) r : registry F :=
  mkregistry (loggers_ r) m (formatter_ r) (global_log_level_ r) (flush_level_ r) (err_handler_ r) (tp_ r)
    (periodic_flusher_ r) (default_logger_ r) (automatic_registration_ r) (backtrace_n_messages_ r).
Definition set_reg_formatter (f : F) r : registry F :=
  mkregistry (loggers_ r) (log_levels_ r) f (global_log_level_ r) (flush_level_ r) (err_handler_ r) (tp_ r)
    (periodic_flusher_ r) (default_logger_ r) (automatic_registration_ r) (backtrace_n_messages_ r).
Definition set_global_level (l : level_enum) r : registry F :=
  mkregistry (loggers_ r) (log_levels_ r) (formatter_ r) l (flush_level_ r) (err_handler_ r) (tp_ r)
    (periodic_flusher_ r) (default_logger_ r) (automatic_registration_ r) (backtrace_n_messages_ r).
Definition set_flush_level (l : level_enum) r : registry F :=
  mkregistry (loggers_ r) (log_levels_ r) (formatter_ r) (global_log_level_ r) l (err_handler_ r) (tp_ r)
    (periodic_flusher_ r) (default_logger_ r) (automatic_registration_ r) (backtrace_n_messages_ r).
Definition set_err_handler (h : option Z) r : registry F :=
  mkregistry (loggers_ r) (log_levels_ r) (formatter_ r) (global_log_level_ r) (flush_level_ r) h (tp_ r)
    (periodic_flusher_ r) (default_logger_ r) (automatic_registration_ r) (backtrace_n_messages_ r).
Definition set_tp_ (t : option (mpmc_blocking_queue async_msg * nat)) r : registry F :=
  mkregistry (loggers_ r) (log_levels_ r) (formatter_ r) (global_log_level_ r) (flush_level_ r) (err_handler_ r) t
    (periodic_flusher_ r) (default_logger_ r) (automatic_registration_ r) (backtrace_n_messages_ r).
Definition set_flusher (p : option Z) r : registry F :=
  mkregistry (loggers_ r) (log_levels_ r) (formatter_ r) (global_log_level_ r) (flush_level_ r) (err_handler_ r) (tp_ r)
    p (default_logger_ r) (automatic_registration_ r) (backtrace_n_messages_ r).
Definition set_default (d : option Z) r : registry F :=
  mkregistry (loggers_ r) (log_levels_ r) (formatter_ r) (global_log_level_ r) (flush_level_ r) (err_handler_ r) (tp_ r)
    (periodic_flusher_ r) d (automatic_registration_ r) (backtrace_n_messages_ r).
Definition set_automatic (b : bool) r : registry F :=
  mkregistry (loggers_ r) (log_levels_ r) (formatter_ r) (global_log_level_ r) (flush_level_ r) (err_handler_ r) (tp_ r)
    (periodic_flusher_ r) (default_logger_ r) b (backtrace_n_messages_ r).
Definition set_backtrace_n (n : Z) r : registry F :=
  mkregistry (loggers_ r) (log_levels_ r) (formatter_ r) (global_log_level_ r) (flush_level_ r) (err_handler_ r) (tp_ r)
    (periodic_flusher_ r) (default_logger_ r) (automatic_registration_ r) n.

Definition upd_reg (g : registry F -> registry F) : M (rstate F S) unit :=
  modify (fun s => mkrstate (g (reg s)) (heap s) (shared s)).

(** [registry()]: [default_sink] is the number of the colour sink made for the
    default logger, [id] the logger's; its formatter is [dflt]. *)
Definition registry_new (dflt : F) (id default_sink : Z) (w : world S) : rstate F S :=
  mkrstate
    (mkregistry {[ [] := id ]} ∅ dflt info off None None None (Some id) true 0)
    {[ id := logger_new [] [default_sink] ]} w.

(** A method call through a [shared_ptr]; a null pointer is undefined. *)
Definition deref (id : Z) : M (rstate F S) logger := fun s =>
  match heap s !! id with Some l => (Ok l, s) | None => (Undef, s) end.
Definition upd_logger (id : Z) (g : logger -> logger) : M (rstate F S) unit :=
  let! l := deref id in
  modify (fun s => mkrstate (reg s) (<[id := g l]> (heap s)) (shared s)).
Definition on_logger {A} (id : Z) (m : M (env S) A) : M (rstate F S) A := fun s =>
  match heap s !! id with
  | Some l => let '(o, (l', w)) := m (l, shared s) in (o, mkrstate (reg s) (<[id := l']> (heap s)) w)
  | None => (Undef, s)
  end.

(** [for (auto &l : loggers_)]. *)
Fixpoint for_loggers (f : list Z -> Z -> M (rstate F S) unit) (ls : list (list Z * Z)) : M (rstate F S) unit :=
  match ls with
  | [] => ret tt
  | (n, id) :: ls => do! f n id in for_loggers f ls
  end.
Definition for_all (f : list Z -> Z -> M (rstate F S) unit) : M (rstate F S) unit :=
  let! s := get in for_loggers f (map_to_list (loggers_ (reg s))).

Definition throw_if_exists_ (logger_name : list Z) : M (rstate F S) unit :=
  let! s := get in
  if bool_decide (is_Some (loggers_ (reg s) !! logger_name))
  then throw (spdlog_ex (chars "logger with name '" ++ logger_name ++ chars "' already exists"))
  else ret tt.

Definition register_logger_ (new_logger : Z) : M (rstate F S) unit :=
  let! l := deref new_logger in
  do! throw_if_exists_ (name_ l) in
  upd_reg (fun r => set_loggers (<[name_ l := new_logger]> (loggers_ r)) r).

Definition register_or_replace_ (new_logger : Z) : M (rstate F S) unit :=
  let! l := deref new_logger in
  upd_reg (fun r => set_loggers (<[name_ l := new_logger]> (loggers_ r)) r).

Definition register_logger (new_logger : Z) : M (rstate F S) unit := register_logger_ new_logger.
Definition register_or_replace (new_logger : Z) : M (rstate F S) unit := register_or_replace_ new_logger.

(** The level configured for a name. *)
Definition configured_level (n : list Z) r : level_enum :=
  match log_levels_ r !! n with Some l => l | None => global_log_level_ r end.

Definition initialize_logger (new_logger : Z) : M (rstate F S) unit :=
  let! s := get in
  do! on_logger new_logger (SpdLogger.set_formatter clone_formatter (clone_formatter (formatter_ (reg s)))) in
  do! (match err_handler_ (reg s) with
       | Some h => upd_logger new_logger (SpdLogger.set_error_handler h)
       | None => ret tt
       end) in
  let! l := deref new_logger in
  do! upd_logger new_logger (SpdLogger.set_level (configured_level (name_ l) (reg s))) in
  do! upd_logger new_logger (SpdLogger.flush_on (flush_level_ (reg s))) in
  do! (if 0 <? backtrace_n_messages_ (reg s)
       then upd_logger new_logger (SpdLogger.enable_backtrace (backtrace_n_messages_ (reg s)))
       else ret tt) in
  if automatic_registration_ (reg s) then register_logger_ new_logger else ret tt.

Definition get_logger (logger_name : list Z) (s : rstate F S) : option Z := loggers_ (reg s) !! logger_name.
Definition default_logger (s : rstate F S) : option Z := default_logger_ (reg s).
Definition get_default_raw (s : rstate F S) : option Z := default_logger_ (reg s).

Definition set_default_logger (new_default_logger : option Z) : M (rstate F S) unit :=
  do! (match new_default_logger with
       | Some id =>
           let! l := deref id in
           upd_reg (fun r => set_loggers (<[name_ l := id]> (loggers_ r)) r)
       | None => ret tt
       end) in
  upd_reg (set_default new_default_logger).

Definition set_tp (tp : option (mpmc_blocking_queue async_msg * nat)) : M (rstate F S) unit := upd_reg (set_tp_ tp).
Definition get_tp (s : rstate F S) : option (mpmc_blocking_queue async_msg * nat) := tp_ (reg s).

Definition set_formatter (f : F) : M (rstate F S) unit :=
  do! upd_reg (set_reg_formatter f) in
  for_all (fun _ id => on_logger id (SpdLogger.set_formatter clone_formatter (clone_formatter f))).

Definition enable_backtrace (n_messages : Z) : M (rstate F S) unit :=
  do! upd_reg (set_backtrace_n n_messages) in
  for_all (fun _ id => upd_logger id (SpdLogger.enable_backtrace n_messages)).
Definition disable_backtrace : M (rstate F S) unit :=
  do! upd_reg (set_backtrace_n 0) in
  for_all (fun _ id => upd_logger id SpdLogger.disable_backtrace).
Definition set_level (log_level : level_enum) : M (rstate F S) unit :=
  do! for_all (fun _ id => upd_logger id (SpdLogger.set_level log_level)) in
  upd_reg (set_global_level log_level).
Definition flush_on (log_level : level_enum) : M (rstate F S) unit :=
  do! for_all (fun _ id => upd_logger id (SpdLogger.flush_on log_level)) in
  upd_reg (set_flush_level log_level).
Definition set_error_handler (handler : Z) : M (rstate F S) unit :=
  do! for_all (fun _ id => upd_logger id (SpdLogger.set_error_handler handler)) in
  upd_reg (set_err_handler (Some handler)).
Definition apply_all (fn : Z -> M (rstate F S) unit) : M (rstate F S) unit := for_all (fun _ id => fn id).

(** [flush_all]; [vt] gives the virtual methods of a logger. *)
Definition flush_all (vt : Z -> vtable S) : M (rstate F S) unit := for_all (fun _ id => on_logger id (v_flush_ (vt id))).

(** [flush_every]: the flusher calls [flush_all] every [interval]. *)
Definition flush_every (interval : Z) : M (rstate F S) unit := upd_reg (set_flusher (Some interval)).

Definition drop_logger (logger_name : list Z) : M (rstate F S) unit :=
  let! s := get in
  let! is_default :=
    (match default_logger_ (reg s) with
     | Some d => let! l := deref d in ret (bool_decide (name_ l = logger_name))
     | None => ret false
     end) in
  do! upd_reg (fun r => set_loggers (delete logger_name (loggers_ r)) r) in
  if is_default : bool then upd_reg (set_default None) else ret tt.

Definition drop_all : M (rstate F S) unit :=
  do! upd_reg (set_loggers ∅) in upd_reg (set_default None).

(** [shutdown]: the last pointer to the pool runs its destructor. *)
Definition shutdown : M (rstate F S) unit :=
  do! upd_reg (set_flusher None) in
  do! drop_all in
  set_tp None.

Definition set_automatic_registration (b : bool) : M (rstate F S) unit := upd_reg (set_automatic b).

Definition set_levels (levels : gmap (list Z) level_enum) (global_level : option level_enum) : M (rstate F S) unit :=
  do! upd_reg (set_log_levels levels) in
  do! upd_reg (fun r => set_global_level (match global_level with Some g => g | None => global_log_level_ r end) r) in
  for_all (fun n id =>
    match levels !! n with
    | Some l => upd_logger id (SpdLogger.set_level l)
    | None =>
        match global_level with
        | Some g => upd_logger id (SpdLogger.set_level g)
        | None => ret tt
        end
    end).

Definition apply_logger_env_levels (new_logger : Z) : M (rstate F S) unit :=
  let! s := get in
  let! l := deref new_logger in
  upd_logger new_logger (SpdLogger.set_level (configured_level (name_ l) (reg s))).

(** async.h: [init_thread_pool] and [thread_pool()]. *)
Definition init_thread_pool (q_size thread_count : Z) : M (rstate F S) unit :=
  let! tp := of_outcome (thread_pool_new q_size thread_count) in
  set_tp (Some tp).
Definition thread_pool (s : rstate F S) : option (mpmc_blocking_queue async_msg * nat) := get_tp s.
End registry.

(** ** Invariant *)

(** A registered logger exists and carries the name it is registered under; the
    default logger exists; the sinks of every logger exist. *)
Record reg_ok {F S} (s : rstate F S) : Prop := {
  ro_named : forall n id, loggers_ (reg s) !! n = Some id -> exists l, heap s !! id = Some l /\ name_ l = n;
  ro_default : forall d, default_logger_ (reg s) = Some d -> is_Some (heap s !! d);
  ro_sinks : forall id l k, heap s !! id = Some l -> k ∈ sinks_ l -> is_Some (sinks_at (shared s) !! k) }.

(** Loggers are not deleted and keep names and sinks. *)
Definition same_loggers {F S} (s s' : rstate F S) : Prop :=
  forall id l, heap s !! id = Some l -> exists l', heap s' !! id = Some l' /\ name_ l' = name_ l /\ sinks_ l' = sinks_ l.

(** The operation is defined, keeps the invariant and the loggers. *)
Definition keeps {F S A} (m : M (rstate F S) A) (s : rstate F S) : Prop :=
  reg_ok s -> fst (m s) <> Undef /\ reg_ok (snd (m s)) /\ same_loggers s (snd (m s)).

Section keeps.
Context {F S : Type}.
Implicit Types (s : rstate F S) (id : Z).

Lemma same_loggers_refl s : same_loggers s s.
Proof. intros id l E. by exists l. Qed.

Lemma same_loggers_trans s1 s2 s3 : same_loggers s1 s2 -> same_loggers s2 s3 -> same_loggers s1 s3.
Proof. intros H1 H2 id l E. destruct (H1 id l E) as (l1 & E1 & ? & ?). destruct (H2 id l1 E1) as (l2 & ? & ? & ?). exists l2. split_and!; congruence. Qed.

Lemma keeps_ret {A} (a : A) s : keeps (ret a) s.
Proof. intros Hs. split_and!; [done|done|apply same_loggers_refl]. Qed.

Lemma keeps_throw {A} e s : keeps (A:=A) (throw e) s.
Proof. intros Hs. split_and!; [done|done|apply same_loggers_refl]. Qed.

Lemma keeps_bind {A B} (m : M (rstate F S) A) (f : A -> M (rstate F S) B) s :
  keeps m s -> (forall a s', m s = (Ok a, s') -> keeps (f a) s') -> keeps (bind m f) s.
Proof.
  intros Hm Hf Hs. destruct (Hm Hs) as (Hd & Hs' & Hl). unfold bind. destruct (m s) as [[a|e|] s'] eqn:E; simpl in *; try done.
  destruct (Hf a s' eq_refl Hs') as (? & ? & Hl'). split_and!; try done. by eapply same_loggers_trans.
Qed.

Lemma keeps_gets {A} (f : rstate F S -> A) s : keeps (gets f) s.
Proof. intros Hs. split_and!; [done|done|apply same_loggers_refl]. Qed.

Lemma keeps_get s : keeps get s.
Proof. intros Hs. split_and!; [done|done|apply same_loggers_refl]. Qed.

Lemma keeps_deref id s : is_Some (heap s !! id) -> keeps (deref id) s.
Proof. intros [l E] Hs. unfold deref. rewrite E. split_and!; [done|done|apply same_loggers_refl]. Qed.

(** Registry fields other than [loggers_] and the default may change freely. *)
Lemma keeps_upd_reg g s :
  (reg_ok s -> forall n id, loggers_ (g (reg s)) !! n = Some id -> exists l, heap s !! id = Some l /\ name_ l = n) ->
  (reg_ok s -> forall d, default_logger_ (g (reg s)) = Some d -> is_Some (heap s !! d)) -> keeps (upd_reg g) s.
Proof. intros H1 H2 Hs. split_and!; [done| |intros id l E; by exists l]. split; simpl; eauto. apply Hs. Qed.

Lemma keeps_upd_field g s :
  loggers_ (g (reg s)) = loggers_ (reg s) -> default_logger_ (g (reg s)) = default_logger_ (reg s) -> keeps (upd_reg g) s.
Proof. intros E1 E2. apply keeps_upd_reg; intros [H1 H2 _]; [rewrite E1|rewrite E2]; done. Qed.

(** A logger replaced by one with its name and sinks. *)
Lemma insert_ok s id l l' :
  reg_ok s -> heap s !! id = Some l -> name_ l' = name_ l -> sinks_ l' = sinks_ l ->
  let s' := mkrstate (reg s) (<[id := l']> (heap s)) (shared s) in reg_ok s' /\ same_loggers s s'.
Proof.
  intros [H1 H2 H3] E En Es. split; [split; simpl|].
  - intros n k Hk. destruct (H1 n k Hk) as (lk & Ek & <-). destruct (decide (k = id)) as [->|].
    + exists l'. rewrite lookup_insert_eq. split; [done|]. congruence.
    + exists lk. by rewrite lookup_insert_ne.
  - intros d Hd. destruct (decide (d = id)) as [->|]; [rewrite lookup_insert_eq; by eexists|].
    rewrite lookup_insert_ne by done. by apply H2.
  - intros k lk j Hk. destruct (decide (k = id)) as [->|].
    + rewrite lookup_insert_eq in Hk. injection Hk as <-. rewrite Es. by apply (H3 id l).
    + rewrite lookup_insert_ne in Hk by done. by apply H3 with k.
  - intros k lk Hk. simpl. destruct (decide (k = id)) as [->|].
    + exists l'. rewrite lookup_insert_eq. split_and!; congruence.
    + exists lk. by rewrite lookup_insert_ne.
Qed.

Lemma keeps_upd_logger id g s :
  is_Some (heap s !! id) -> (forall l, name_ (g l) = name_ l /\ sinks_ (g l) = sinks_ l) -> keeps (upd_logger id g) s.
Proof.
  intros [l E] Hg Hs. unfold upd_logger, bind, deref. rewrite E. simpl. split; [done|].
  by apply (insert_ok s id l); [| |apply Hg..].
Qed.

Lemma keeps_for_loggers f ls s :
  (forall n id s', (n, id) ∈ ls -> is_Some (heap s' !! id) -> keeps (f n id) s') ->
  (forall n id, (n, id) ∈ ls -> is_Some (heap s !! id)) -> keeps (for_loggers f ls) s.
Proof.
  revert s. induction ls as [|[n id] ls IH]; intros s Hf He; [apply keeps_ret|]. cbn [for_loggers]. intros Hs.
  assert (K : keeps (f n id) s) by (apply Hf; [set_solver|apply (He n id); set_solver]).
  destruct (K Hs) as (_ & _ & Hl). revert Hs. apply keeps_bind; [exact K|]. intros [] s' E. rewrite E in Hl. simpl in Hl.
  apply IH; [intros; apply Hf; set_solver|]. intros n' id' Hn. destruct (He n' id') as [l El]; [set_solver|].
  destruct (Hl _ _ El) as (l' & ? & _). by exists l'.
Qed.

Lemma keeps_for_all f s :
  (forall n id s', is_Some (heap s' !! id) -> keeps (f n id) s') -> keeps (for_all f) s.
Proof.
  intros Hf Hs. revert Hs. unfold for_all. apply keeps_bind; [apply keeps_get|].
  intros s0 s' E. injection E as -> ->. intros Hs. revert Hs. intros Hs. refine (keeps_for_loggers f _ s' _ _ Hs); [auto|].
  intros n id Hn. apply elem_of_map_to_list in Hn. destruct (ro_named _ Hs _ _ Hn) as (l & E & _). by exists l.
Qed.

(** Replacing formatters leaves the logger and the set of sinks alone. *)
Lemma set_formatters_ok `{Sink F S} cl f ids (l : logger) (w : world S) :
  (forall k, k ∈ ids -> is_Some (sinks_at w !! k)) ->
  exists w', set_formatters cl f ids (l, w) = (Ok tt, (l, w')) /\
    forall k, is_Some (sinks_at w !! k) -> is_Some (sinks_at w' !! k).
Proof.
  revert w. induction ids as [|i ids IH]; intros w Hk; [by exists w|].
  destruct (Hk i) as [sk Ek]; [set_solver|].
  assert (Hw : forall g, exists w', with_sink i (SpdCommon.set_formatter g) (l, w) = (Ok tt, (l, w')) /\
    forall k, is_Some (sinks_at w !! k) -> is_Some (sinks_at w' !! k)).
  { intros g. unfold with_sink. simpl. rewrite Ek. eexists. split; [done|]. simpl. intros k Hs.
    destruct (decide (k = i)) as [->|]; [rewrite lookup_insert_eq; by eexists|by rewrite lookup_insert_ne]. }
  destruct ids as [|j ids]; [apply Hw|]. cbn [set_formatters]. destruct (Hw (cl f)) as (w1 & E1 & P1).
  destruct (IH w1) as (w2 & E2 & P2); [intros k Hin; apply P1, Hk; set_solver|].
  exists w2. rewrite (bind_ok _ _ _ _ _ E1). split; [exact E2|]. auto.
Qed.

Lemma keeps_set_formatter `{Sink F S} cl f id s :
  is_Some (heap s !! id) -> keeps (on_logger id (SpdLogger.set_formatter cl f)) s.
Proof.
  intros [l E] Hs. unfold on_logger. rewrite E.
  destruct (set_formatters_ok cl f (sinks_ l) l (shared s)) as (w & E1 & P1); [intros k; by apply (ro_sinks _ Hs id)|].
  unfold SpdLogger.set_formatter, bind, gets. simpl. rewrite E1. simpl. split; [done|].
  assert (Ei : <[id := l]> (heap s) = heap s) by (by apply insert_id). rewrite Ei. split.
  - destruct Hs as [H1 H2 H3]. split; simpl; try done. intros. eapply P1, H3; eauto.
  - intros k lk Ek. by exists lk.
Qed.
End keeps.

(** ** Every operation keeps the registry in order *)

(** The operations on the registry. *)
Inductive reg_op (F S : Type) :=
| OpRegister (id : Z)
| OpReplace (id : Z)
| OpInitialize (id : Z)
| OpSetDefault (d : option Z)
| OpSetFormatter (f : F)
| OpEnableBacktrace (n : Z)
| OpDisableBacktrace
| OpSetLevel (l : level_enum)
| OpFlushOn (l : level_enum)
| OpSetErrorHandler (h : Z)
| OpFlushEvery (interval : Z)
| OpDrop (n : list Z)
| OpDropAll
| OpShutdown
| OpAutomatic (b : bool)
| OpSetLevels (levels : gmap (list Z) level_enum) (g : option level_enum)
| OpApplyLevels (id : Z)
| OpInitThreadPool (q_size thread_count : Z)
| OpApplyAll (fn : Z -> M (rstate F S) unit)
| OpFlushAll (vt : Z -> vtable S).
Arguments OpRegister {F S} id.
Arguments OpReplace {F S} id.
Arguments OpInitialize {F S} id.
Arguments OpSetDefault {F S} d.
Arguments OpSetFormatter {F S} f.
Arguments OpEnableBacktrace {F S} n.
Arguments OpDisableBacktrace {F S}.
Arguments OpSetLevel {F S} l.
Arguments OpFlushOn {F S} l.
Arguments OpSetErrorHandler {F S} h.
Arguments OpFlushEvery {F S} interval.
Arguments OpDrop {F S} n.
Arguments OpDropAll {F S}.
Arguments OpShutdown {F S}.
Arguments OpAutomatic {F S} b.
Arguments OpSetLevels {F S} levels g.
Arguments OpApplyLevels {F S} id.
Arguments OpInitThreadPool {F S} q_size thread_count.
Arguments OpApplyAll {F S} fn.
Arguments OpFlushAll {F S} vt.

Definition run_op {F S} `{Sink F S} (cl : F -> F) (o : reg_op F S) : M (rstate F S) unit :=
  match o with
  | OpRegister id => register_logger id
  | OpReplace id => register_or_replace id
  | OpInitialize id => initialize_logger cl id
  | OpSetDefault d => set_default_logger d
  | OpSetFormatter f => set_formatter cl f
  | OpEnableBacktrace n => enable_backtrace n
  | OpDisableBacktrace => disable_backtrace
  | OpSetLevel l => set_level l
  | OpFlushOn l => flush_on l
  | OpSetErrorHandler h => set_error_handler h
  | OpFlushEvery i => flush_every i
  | OpDrop n => drop_logger n
  | OpDropAll => drop_all
  | OpShutdown => shutdown
  | OpAutomatic b => set_automatic_registration b
  | OpSetLevels lv g => set_levels lv g
  | OpApplyLevels id => apply_logger_env_levels id
  | OpInitThreadPool q n => init_thread_pool q n
  | OpApplyAll fn => apply_all fn
  | OpFlushAll vt => flush_all vt
  end.

(** Flushing a logger whose sinks exist is defined and leaves its name, its sinks and the set of sinks. *)
Definition flush_safe {S} (vt : vtable S) : Prop := forall l (w : world S),
  (forall k, k ∈ sinks_ l -> is_Some (sinks_at w !! k)) ->
  let '(o, (l', w')) := v_flush_ vt (l, w) in
  o <> Undef /\ name_ l' = name_ l /\ sinks_ l' = sinks_ l /\ forall k, is_Some (sinks_at w !! k) -> is_Some (sinks_at w' !! k).

(** The pointers passed are not null.  The function given to [apply_all] runs with the mutex of the registry held:
    it uses its logger and not the registry. *)
Definition op_ok {F S} (o : reg_op F S) (s : rstate F S) : Prop :=
  match o with
  | OpRegister id | OpReplace id | OpInitialize id | OpApplyLevels id | OpSetDefault (Some id) => is_Some (heap s !! id)
  | OpApplyAll fn => forall id s', is_Some (heap s' !! id) -> keeps (fn id) s' /\ reg (snd (fn id s')) = reg s'
  | OpFlushAll vt => forall id, flush_safe (vt id)
  | _ => True
  end.

Section operations.
Context {F S : Type} `{Sink F S} (cl : F -> F).
Implicit Types (s : rstate F S).

Lemma deref_inv id s l s' : deref id s = (Ok l, s') -> s' = s /\ heap s !! id = Some l.
Proof. unfold deref. destruct (heap s !! id); naive_solver. Qed.

Lemma keeps_add_name id l s :
  heap s !! id = Some l -> keeps (upd_reg (fun r => set_loggers (<[name_ l := id]> (loggers_ r)) r)) s.
Proof.
  intros E. apply keeps_upd_reg; intros Hs; simpl.
  - intros n k Hk. destruct (decide (n = name_ l)) as [->|].
    + rewrite lookup_insert_eq in Hk. injection Hk as <-. eauto.
    + rewrite lookup_insert_ne in Hk by done. by apply (ro_named _ Hs).
  - apply Hs.
Qed.

Lemma keeps_replace id s : is_Some (heap s !! id) -> keeps (register_or_replace_ id) s.
Proof.
  intros Hid. apply keeps_bind; [by apply keeps_deref|]. intros l s' E. apply deref_inv in E as [-> E]. by apply keeps_add_name.
Qed.

Lemma keeps_register id s : is_Some (heap s !! id) -> keeps (register_logger_ id) s.
Proof.
  intros Hid. apply keeps_bind; [by apply keeps_deref|]. intros l s' E. apply deref_inv in E as [-> E].
  apply keeps_bind.
  - unfold throw_if_exists_. apply keeps_bind; [apply keeps_get|]. intros a s' E'. destruct (bool_decide _); [apply keeps_throw|apply keeps_ret].
  - intros [] s' E'. unfold throw_if_exists_, bind, get in E'. destruct (bool_decide _); [done|]. injection E' as <-. by apply keeps_add_name.
Qed.

(** An existing logger still exists after an operation that keeps the loggers. *)
Lemma keeps_exists {A} (m : M (rstate F S) A) s a s' id :
  keeps m s -> reg_ok s -> m s = (Ok a, s') -> is_Some (heap s !! id) -> is_Some (heap s' !! id).
Proof. intros Hk Hs E [l El]. destruct (Hk Hs) as (_ & _ & Hl). rewrite E in Hl. destruct (Hl id l El) as (l' & ? & _). by exists l'. Qed.

Lemma keeps_seq {A B} id (m : M (rstate F S) A) (f : A -> M (rstate F S) B) s :
  is_Some (heap s !! id) -> keeps m s -> (forall a s', is_Some (heap s' !! id) -> keeps (f a) s') -> keeps (bind m f) s.
Proof.
  intros [l El] Hm Hf Hs. destruct (Hm Hs) as (Hd & Hs' & Hl). unfold bind. destruct (m s) as [[a|e|] s'] eqn:E; simpl in *; try done.
  destruct (Hl _ _ El) as (l' & El' & _). destruct (Hf a s' (mk_is_Some _ _ El') Hs') as (? & ? & Hl2).
  split_and!; try done. by eapply same_loggers_trans.
Qed.

Lemma keeps_initialize id s : is_Some (heap s !! id) -> keeps (initialize_logger cl id) s.
Proof.
  intros Hid. unfold initialize_logger. apply (keeps_seq id); [done|apply keeps_get|]. intros s0 s1 H1.
  apply (keeps_seq id); [done|by apply keeps_set_formatter|]. intros _ s2 H2.
  apply (keeps_seq id); [done| |].
  { destruct (err_handler_ (reg s0)); [by apply keeps_upd_logger|apply keeps_ret]. }
  intros _ s3 H3. apply (keeps_seq id); [done|by apply keeps_deref|]. intros l s4 H4.
  apply (keeps_seq id); [done|by apply keeps_upd_logger|]. intros _ s5 H5.
  apply (keeps_seq id); [done|by apply keeps_upd_logger|]. intros _ s6 H6.
  apply (keeps_seq id); [done| |].
  { split_if; [by apply keeps_upd_logger|apply keeps_ret]. }
  intros _ s7 H7. split_if; [by apply keeps_register|apply keeps_ret].
Qed.

Lemma keeps_remove_names g s :
  (forall n id, loggers_ (g (reg s)) !! n = Some id -> loggers_ (reg s) !! n = Some id) ->
  (forall d, default_logger_ (g (reg s)) = Some d -> default_logger_ (reg s) = Some d) -> keeps (upd_reg g) s.
Proof. intros H1 H2. apply keeps_upd_reg; intros [K1 K2 _]; auto. Qed.

Lemma keeps_drop_all s : keeps drop_all s.
Proof. apply keeps_bind; [by apply keeps_remove_names|]. intros. by apply keeps_remove_names. Qed.

Lemma keeps_drop n s : keeps (drop_logger n) s.
Proof.
  intros Hs. revert Hs. unfold drop_logger. intros Hs. revert Hs. apply keeps_bind; [apply keeps_get|].
  intros s0 s1 E. injection E as -> ->. intros Hs. revert Hs. intros Hs. refine (keeps_bind _ _ s1 _ _ Hs).
  - destruct (default_logger_ (reg s1)) as [d|] eqn:Ed; [|apply keeps_ret].
    apply keeps_bind; [apply keeps_deref, (ro_default _ Hs d Ed)|]. intros. apply keeps_ret.
  - intros b s2 _. apply keeps_bind.
    + apply keeps_remove_names; [|done]. intros m id. simpl. intros E. by apply lookup_delete_Some in E as [_ ?].
    + intros _ s3 _. destruct b; [by apply keeps_remove_names|apply keeps_ret].
Qed.

Lemma keeps_set_default d s :
  match d with Some id => is_Some (heap s !! id) | None => True end -> keeps (set_default_logger d) s.
Proof.
  intros Hd. unfold set_default_logger. destruct d as [id|].
  - apply (keeps_seq id); [done|by apply keeps_replace|]. intros _ s' Hid. apply keeps_upd_reg; intros [K1 K2 _]; simpl; [done|].
    by intros ? [= <-].
  - apply keeps_bind; [apply keeps_ret|]. intros. by apply keeps_remove_names.
Qed.

Lemma keeps_set_levels lv g s : keeps (set_levels lv g) s.
Proof.
  apply keeps_bind; [by apply keeps_upd_field|]. intros. apply keeps_bind; [by apply keeps_upd_field|]. intros.
  apply keeps_for_all. intros. destruct (lv !! n); [by apply keeps_upd_logger|].
  destruct g; [by apply keeps_upd_logger|apply keeps_ret].
Qed.

Lemma keeps_flush vt id s : flush_safe vt -> is_Some (heap s !! id) -> keeps (on_logger id (v_flush_ vt)) s.
Proof.
  intros Hf [l E] Hs. unfold on_logger. rewrite E. specialize (Hf l (shared s) (fun k Hk => ro_sinks _ Hs id l k E Hk)).
  destruct (v_flush_ vt (l, shared s)) as [o [l' w']]. destruct Hf as (Hd & En & Es & Hw). split; [done|].
  destruct (insert_ok s id l l' Hs E En Es) as [[H1 H2 H3] Hl]. split; [|done]. split; simpl in *; eauto.
Qed.

Lemma run_op_keeps (o : reg_op F S) s : op_ok o s -> keeps (run_op cl o) s.
Proof.
  intros Ho. destruct o as [id|id|id|d|f|n| |l|l|h|i|n| | |b|lv g|id|q n|fn|vt]; simpl in *.
  - by apply keeps_register.
  - by apply keeps_replace.
  - by apply keeps_initialize.
  - apply keeps_set_default. by destruct d.
  - apply keeps_bind; [by apply keeps_upd_field|]. intros. apply keeps_for_all. intros. by apply keeps_set_formatter.
  - apply keeps_bind; [by apply keeps_upd_field|]. intros. apply keeps_for_all. intros. by apply keeps_upd_logger.
  - apply keeps_bind; [by apply keeps_upd_field|]. intros. apply keeps_for_all. intros. by apply keeps_upd_logger.
  - apply keeps_bind; [apply keeps_for_all; intros; by apply keeps_upd_logger|]. intros. by apply keeps_upd_field.
  - apply keeps_bind; [apply keeps_for_all; intros; by apply keeps_upd_logger|]. intros. by apply keeps_upd_field.
  - apply keeps_bind; [apply keeps_for_all; intros; by apply keeps_upd_logger|]. intros. by apply keeps_upd_field.
  - by apply keeps_upd_field.
  - apply keeps_drop.
  - apply keeps_drop_all.
  - apply keeps_bind; [by apply keeps_upd_field|]. intros. apply keeps_bind; [apply keeps_drop_all|]. intros. by apply keeps_upd_field.
  - by apply keeps_upd_field.
  - apply keeps_set_levels.
  - apply (keeps_seq id); [done|apply keeps_get|]. intros. apply (keeps_seq id); [done|by apply keeps_deref|]. intros. by apply keeps_upd_logger.
  - apply keeps_bind.
    + unfold thread_pool_new, of_outcome. intros Hs. split_if; (split_and!; [done|done|apply same_loggers_refl]).
    + intros. by apply keeps_upd_field.
  - apply keeps_for_all. intros n id s' Hid. by apply (Ho id s').
  - apply keeps_for_all. intros n id s' Hid. by apply keeps_flush.
Qed.
End operations.

(** ** Levels *)

Section levels.
Context {F S : Type}.
Implicit Types (s : rstate F S).

(** Two registered names belong to two loggers. *)
Lemma names_distinct s n1 n2 id :
  reg_ok s -> loggers_ (reg s) !! n1 = Some id -> loggers_ (reg s) !! n2 = Some id -> n1 = n2.
Proof.
  intros Hs H1 H2. destruct (ro_named _ Hs _ _ H1) as (l1 & E1 & <-). destruct (ro_named _ Hs _ _ H2) as (l2 & E2 & <-). congruence.
Qed.

(** A loop that updates each logger of the list once. *)
Lemma for_loggers_upd f (g : list Z -> logger -> logger) ls s :
  (forall n id s' l, heap s' !! id = Some l ->
     f n id s' = (Ok tt, mkrstate (reg s') (<[id := g n l]> (heap s')) (shared s'))) ->
  NoDup ls.*2 -> (forall n id, (n, id) ∈ ls -> is_Some (heap s !! id)) ->
  exists h, for_loggers f ls s = (Ok tt, mkrstate (reg s) h (shared s)) /\
    (forall n id, (n, id) ∈ ls -> h !! id = g n <$> heap s !! id) /\
    (forall id, id ∉ ls.*2 -> h !! id = heap s !! id).
Proof.
  intros Hf. revert s. induction ls as [|[n id] ls IH]; intros s Hd He.
  - exists (heap s). split; [by destruct s|]. split; [set_solver|done].
  - apply NoDup_cons in Hd as [Hni Hd]. destruct (He n id) as [l El]; [set_solver|].
    cbn [for_loggers]. rewrite (bind_ok _ _ _ _ _ (Hf n id s l El)).
    destruct (IH (mkrstate (reg s) (<[id := g n l]> (heap s)) (shared s)) Hd) as (h & E & P & Q); simpl.
    { intros n' id' Hin. assert (id' <> id) by (intros ->; apply Hni, list_elem_of_fmap; by exists (n', id)).
      rewrite lookup_insert_ne by done. apply (He n' id'). set_solver. }
    exists h. split; [exact E|]. split.
    + intros n' id' [Hin|Hin]%elem_of_cons.
      * injection Hin as -> ->. rewrite Q by done. simpl. by rewrite lookup_insert_eq, El.
      * rewrite (P n' id' Hin). simpl. assert (id' <> id) by (intros ->; apply Hni, list_elem_of_fmap; by exists (n', id)).
        by rewrite lookup_insert_ne.
    + intros id' Hin. rewrite Q by set_solver. simpl. rewrite lookup_insert_ne by set_solver. done.
Qed.

Lemma NoDup_ids s : reg_ok s -> NoDup (map_to_list (loggers_ (reg s))).*2.
Proof.
  intros Hs. apply NoDup_fmap_2_strong; [|apply NoDup_map_to_list].
  intros [n1 i1] [n2 i2] H1 H2 E. simpl in E. subst i2.
  apply elem_of_map_to_list in H1, H2. by rewrite (names_distinct s n1 n2 i1).
Qed.

Lemma for_all_upd f (g : list Z -> logger -> logger) s :
  reg_ok s ->
  (forall n id s' l, heap s' !! id = Some l ->
     f n id s' = (Ok tt, mkrstate (reg s') (<[id := g n l]> (heap s')) (shared s'))) ->
  exists h, for_all f s = (Ok tt, mkrstate (reg s) h (shared s)) /\
    (forall n id, loggers_ (reg s) !! n = Some id -> h !! id = g n <$> heap s !! id) /\
    (forall id, (forall n, loggers_ (reg s) !! n <> Some id) -> h !! id = heap s !! id).
Proof.
  intros Hs Hf. destruct (for_loggers_upd f g (map_to_list (loggers_ (reg s))) s Hf (NoDup_ids s Hs)) as (h & E & P & Q).
  { intros n id Hn. apply elem_of_map_to_list in Hn. destruct (ro_named _ Hs _ _ Hn) as (l & ? & _). by exists l. }
  exists h. split; [exact E|]. split.
  - intros n id Hn. apply P. by apply elem_of_map_to_list.
  - intros id Hid. apply Q. intros Hin. apply list_elem_of_fmap in Hin as ([n i] & -> & Hin).
    apply elem_of_map_to_list in Hin. by apply (Hid n).
Qed.

(** The level a logger has after [set_levels]. *)
Definition new_level (lv : gmap (list Z) level_enum) (g : option level_enum) (n : list Z) (old : level_enum) : level_enum :=
  match lv !! n with Some l => l | None => match g with Some l => l | None => old end end.

Lemma set_levels_run lv g s :
  reg_ok s ->
  exists h, set_levels lv g s = (Ok tt, mkrstate
      (set_global_level (match g with Some l => l | None => global_log_level_ (reg s) end) (set_log_levels lv (reg s))) h (shared s)) /\
    (forall n id l, loggers_ (reg s) !! n = Some id -> heap s !! id = Some l ->
       h !! id = Some (SpdLogger.set_level (new_level lv g n (level_ l)) l)) /\
    (forall id, (forall n, loggers_ (reg s) !! n <> Some id) -> h !! id = heap s !! id).
Proof.
  intros Hs. unfold set_levels.
  erewrite bind_ok by reflexivity. erewrite bind_ok by reflexivity. cbn [reg heap shared].
  set (s1 := mkrstate _ (heap s) (shared s)).
  match goal with |- context [for_all ?f _] =>
    destruct (for_all_upd f (fun n l => SpdLogger.set_level (new_level lv g n (level_ l)) l) s1) as (h & E & P & Q) end.
  - destruct Hs as [H1 H2 H3]. split; simpl; done.
  - intros n id s' l El. unfold new_level.
    assert (Hu : forall k, upd_logger (F:=F) (S:=S) id (SpdLogger.set_level k) s' =
      (Ok tt, mkrstate (reg s') (<[id := SpdLogger.set_level k l]> (heap s')) (shared s'))).
    { intros k. unfold upd_logger, bind, deref. by rewrite El. }
    destruct (lv !! n); [apply Hu|]. destruct g; [apply Hu|].
    rewrite insert_id; [by destruct s'|]. rewrite El. by destruct l.
  - exists h. split; [exact E|]. split; [|exact Q]. intros n id l Hn El. rewrite (P n id Hn). simpl. by rewrite El.
Qed.
End levels.

(** ** What each operation does *)

Section specification.
Context {F S : Type} `{Sink F S} (cl : F -> F).
Implicit Types (s : rstate F S) (r : registry F) (w : world S).

Definition with_reg (g : registry F -> registry F) s : rstate F S := mkrstate (g (reg s)) (heap s) (shared s).

(** The loggers after [g] was applied to the registered ones, with the name of each. *)
Definition on_registered (g : list Z -> logger -> logger) s : gmap Z logger :=
  map_imap (fun id l => Some (if bool_decide (loggers_ (reg s) !! name_ l = Some id) then g (name_ l) l else l)) (heap s).

Definition with_loggers (g : list Z -> logger -> logger) s : rstate F S := mkrstate (reg s) (on_registered g s) (shared s).

(** [formatted f ks w w']: the sinks [ks], and no others, were given [f] or a clone of it. *)
Definition put (sk : sink S) (f : F) : sink S := mksink (SpdCommon.level_ sk) (put_formatter f (body sk)).
Definition formatted (f : F) (ks : list Z) w w' : Prop :=
  w' = set_sinks_at (sinks_at w') w /\
  forall k, match sinks_at w !! k with
    | Some sk => exists fs, sinks_at w' !! k = Some (foldl put sk fs) /\ Forall (fun g => g = f \/ g = cl f) fs /\ (k ∈ ks <-> fs <> [])
    | None => sinks_at w' !! k = None
    end.

(** A name that is taken is refused. *)
Definition registered (id : Z) (l : logger) s : outcome unit * rstate F S :=
  match loggers_ (reg s) !! name_ l with
  | Some _ => (Throw (spdlog_ex (chars "logger with name '" ++ name_ l ++ chars "' already exists")), s)
  | None => (Ok tt, with_reg (fun r => set_loggers (<[name_ l := id]> (loggers_ r)) r) s)
  end.

(** A logger that was given the settings of the registry. *)
Definition initialized r (l : logger) : logger :=
  mklogger (name_ l) (sinks_ l) (configured_level (name_ l) r) (flush_level_ r)
    (match err_handler_ r with Some h => Some h | None => custom_err_handler_ l end)
    (if 0 <? backtrace_n_messages_ r then enable (backtrace_n_messages_ r) (tracer_ l) else tracer_ l).

Definition default_name s : option (list Z) := name_ <$> (default_logger_ (reg s) ≫= fun d => heap s !! d).

(** [visited fn s]: [fn] is called for every registered logger once. *)
Fixpoint each (fn : Z -> M (rstate F S) unit) (ids : list Z) : M (rstate F S) unit :=
  match ids with [] => ret tt | id :: ids => do! fn id in each fn ids end.
Definition visited (fn : Z -> M (rstate F S) unit) s (x : outcome unit * rstate F S) : Prop :=
  exists ids, x = each fn ids s /\ NoDup ids /\ (forall id, id ∈ ids <-> exists n, loggers_ (reg s) !! n = Some id) /\ reg (snd x) = reg s.

(** What the registry promises of an operation: its outcome and the state after it. *)
Definition op_spec (o : reg_op F S) s (x : outcome unit * rstate F S) : Prop :=
  match o with
  | OpRegister id => exists l, heap s !! id = Some l /\ x = registered id l s
  | OpReplace id => exists l, heap s !! id = Some l /\ x = (Ok tt, with_reg (fun r => set_loggers (<[name_ l := id]> (loggers_ r)) r) s)
  | OpInitialize id => exists l w, heap s !! id = Some l /\ formatted (cl (formatter_ (reg s))) (sinks_ l) (shared s) w /\
      let s1 := mkrstate (reg s) (<[id := initialized (reg s) l]> (heap s)) w in
      x = if automatic_registration_ (reg s) then registered id l s1 else (Ok tt, s1)
  | OpSetDefault None => x = (Ok tt, with_reg (set_default None) s)
  | OpSetDefault (Some id) => exists l, heap s !! id = Some l /\
      x = (Ok tt, with_reg (fun r => set_default (Some id) (set_loggers (<[name_ l := id]> (loggers_ r)) r)) s)
  | OpSetFormatter f => exists w, x = (Ok tt, mkrstate (set_reg_formatter f (reg s)) (heap s) w) /\
      forall ks, (forall k, k ∈ ks <-> exists n id l, loggers_ (reg s) !! n = Some id /\ heap s !! id = Some l /\ k ∈ sinks_ l) ->
        formatted (cl f) ks (shared s) w
  | OpEnableBacktrace n => x = (Ok tt, with_reg (set_backtrace_n n) (with_loggers (fun _ => SpdLogger.enable_backtrace n) s))
  | OpDisableBacktrace => x = (Ok tt, with_reg (set_backtrace_n 0) (with_loggers (fun _ => SpdLogger.disable_backtrace) s))
  | OpSetLevel l => x = (Ok tt, with_reg (set_global_level l) (with_loggers (fun _ => SpdLogger.set_level l) s))
  | OpFlushOn l => x = (Ok tt, with_reg (set_flush_level l) (with_loggers (fun _ => SpdLogger.flush_on l) s))
  | OpSetErrorHandler h => x = (Ok tt, with_reg (set_err_handler (Some h)) (with_loggers (fun _ => SpdLogger.set_error_handler h) s))
  | OpFlushEvery i => x = (Ok tt, with_reg (set_flusher (Some i)) s)
  | OpDrop n => x = (Ok tt, with_reg (fun r =>
      set_default (if bool_decide (default_name s = Some n) then None else default_logger_ r) (set_loggers (delete n (loggers_ r)) r)) s)
  | OpDropAll => x = (Ok tt, with_reg (fun r => set_default None (set_loggers ∅ r)) s)
  | OpShutdown => x = (Ok tt, with_reg (fun r => set_tp_ None (set_default None (set_loggers ∅ (set_flusher None r)))) s)
  | OpAutomatic b => x = (Ok tt, with_reg (set_automatic b) s)
  | OpSetLevels lv g => x = (Ok tt, with_reg (fun r => set_global_level (default (global_log_level_ r) g) (set_log_levels lv r))
      (with_loggers (fun n l => SpdLogger.set_level (new_level lv g n (level_ l)) l) s))
  | OpApplyLevels id => exists l, heap s !! id = Some l /\
      x = (Ok tt, mkrstate (reg s) (<[id := SpdLogger.set_level (configured_level (name_ l) (reg s)) l]> (heap s)) (shared s))
  | OpInitThreadPool q n =>
      x = if (n =? 0) || (1000 <? n) then (Throw (spdlog_ex (chars "spdlog::thread_pool(): invalid threads_n param (valid range is 1-1000)")), s)
          else (Ok tt, with_reg (set_tp_ (Some (mpmc_new async_msg_default q, Z.to_nat n))) s)
  | OpApplyAll fn => visited fn s x
  | OpFlushAll vt => visited (fun id => on_logger id (v_flush_ (vt id))) s x
  end.

(** *** Loops over the loggers *)
Lemma for_all_registered f (g : list Z -> logger -> logger) s :
  reg_ok s ->
  (forall n id s' l, heap s' !! id = Some l ->
     f n id s' = (Ok tt, mkrstate (reg s') (<[id := g n l]> (heap s')) (shared s'))) ->
  for_all f s = (Ok tt, with_loggers g s).
Proof.
  intros Hs Hf. destruct (for_all_upd f g s Hs Hf) as (h & -> & P & Q).
  assert (h = on_registered g s) as ->; [|done]. apply map_eq. intros id. unfold on_registered.
  rewrite map_lookup_imap. destruct (heap s !! id) as [l|] eqn:El; simpl.
  - case_bool_decide as Hn; [by rewrite (P _ _ Hn), El|]. rewrite Q; [done|]. intros n Hid. destruct (ro_named _ Hs _ _ Hid) as (l' & E' & <-). congruence.
  - rewrite Q; [done|]. intros n Hid. destruct (ro_named _ Hs _ _ Hid) as (l' & E' & _). congruence.
Qed.

Lemma for_all_upd_logger (g : logger -> logger) s :
  reg_ok s -> for_all (fun _ id => upd_logger id g) s = (Ok tt, with_loggers (fun _ => g) s).
Proof. intros Hs. apply for_all_registered; [done|]. intros n id s' l El. unfold upd_logger, bind, deref. by rewrite El. Qed.

Lemma reg_ok_field g s : reg_ok s -> loggers_ (g (reg s)) = loggers_ (reg s) -> default_logger_ (g (reg s)) = default_logger_ (reg s) -> reg_ok (with_reg g s).
Proof. intros [H1 H2 H3] E1 E2. split; simpl; [rewrite E1|rewrite E2|]; done. Qed.

Lemma for_loggers_each (fn : Z -> M (rstate F S) unit) ls s : for_loggers (fun _ => fn) ls s = each fn (map snd ls) s.
Proof. revert s. induction ls as [|[n id] ls IH]; intros s; [done|]. simpl. unfold bind. destruct (fn id s) as [[[]|e|] s']; [apply IH|done..]. Qed.

Lemma each_reg (fn : Z -> M (rstate F S) unit) ids s :
  reg_ok s -> (forall id, id ∈ ids -> is_Some (heap s !! id)) ->
  (forall id s', is_Some (heap s' !! id) -> keeps (fn id) s' /\ reg (snd (fn id s')) = reg s') -> reg (snd (each fn ids s)) = reg s.
Proof.
  intros Hs He Hf. revert s Hs He. induction ids as [|id ids IH]; intros s Hs He; [done|]. simpl. unfold bind.
  destruct (Hf id s) as [Hk Hr]; [apply He; left|]. destruct (Hk Hs) as (_ & Hs' & Hl). destruct (fn id s) as [[[]|e|] s']; [|done..]. simpl in *.
  rewrite IH; [done|done|]. intros k Hin. destruct (He k) as [l El]; [by right|]. destruct (Hl _ _ El) as (l' & -> & _). done.
Qed.

Lemma for_all_visited fn s :
  reg_ok s -> (forall id s', is_Some (heap s' !! id) -> keeps (fn id) s' /\ reg (snd (fn id s')) = reg s') -> visited fn s (for_all (fun _ => fn) s).
Proof.
  intros Hs Hf. set (ids := map snd (map_to_list (loggers_ (reg s)))).
  assert (Hin : forall id, id ∈ ids <-> exists n, loggers_ (reg s) !! n = Some id).
  { intros id. unfold ids. rewrite list_elem_of_fmap. split.
    - intros ([n i] & -> & Hn). exists n. by apply elem_of_map_to_list in Hn.
    - intros [n Hn]. exists (n, id). split; [done|]. by apply elem_of_map_to_list. }
  assert (E : for_all (fun _ => fn) s = each fn ids s) by apply for_loggers_each.
  exists ids. split; [done|]. split; [by apply NoDup_ids|]. split; [done|]. rewrite E. apply each_reg; [done| |done].
  intros id [n Hn]%Hin. destruct (ro_named _ Hs _ _ Hn) as (l & El & _). by exists l.
Qed.

(** *** Formatters *)
Lemma formatted_refl f w : formatted f [] w w.
Proof. split; [by destruct w|]. intros k. destruct (sinks_at w !! k) as [sk|] eqn:E; [|done]. exists []. split; [done|]. split; [done|]. set_solver. Qed.

Lemma formatted_trans f ks1 ks2 w w1 w2 : formatted f ks1 w w1 -> formatted f ks2 w1 w2 -> formatted f (ks1 ++ ks2) w w2.
Proof.
  intros [E1 H1] [E2 H2]. split; [by rewrite E2, E1|]. intros k. specialize (H1 k). specialize (H2 k). destruct (sinks_at w !! k) as [sk|].
  - destruct H1 as (fs1 & K1 & P1 & Q1). rewrite K1 in H2. destruct H2 as (fs2 & K2 & P2 & Q2). exists (fs1 ++ fs2). rewrite foldl_app. split; [done|].
    split; [by apply Forall_app|]. rewrite elem_of_app, Q1, Q2. destruct fs1, fs2; simpl; naive_solver.
  - by rewrite H1 in H2.
Qed.

Lemma formatted_one f g i w (l : logger) :
  (g = f \/ g = cl f) -> is_Some (sinks_at w !! i) ->
  exists w', with_sink i (SpdCommon.set_formatter g) (l, w) = (Ok tt, (l, w')) /\ formatted f [i] w w'.
Proof.
  intros Hg [sk Ek]. unfold with_sink. simpl. rewrite Ek. eexists. split; [done|]. split; [done|]. intros k. simpl. destruct (decide (k = i)) as [->|Hne].
  - rewrite Ek, lookup_insert_eq. exists [g]. split; [done|]. split; [by constructor|]. set_solver.
  - rewrite lookup_insert_ne by done. destruct (sinks_at w !! k) as [sk'|]; [|done]. exists []. split; [done|]. split; [done|]. set_solver.
Qed.

Lemma formatted_exists f ks w w' k : formatted f ks w w' -> is_Some (sinks_at w !! k) -> is_Some (sinks_at w' !! k).
Proof. intros [_ H1] [sk E]. specialize (H1 k). rewrite E in H1. destruct H1 as (fs & -> & _). done. Qed.

Lemma set_formatters_formatted f ids w (l : logger) :
  (forall k, k ∈ ids -> is_Some (sinks_at w !! k)) -> exists w', set_formatters cl f ids (l, w) = (Ok tt, (l, w')) /\ formatted f ids w w'.
Proof.
  revert w. induction ids as [|i ids IH]; intros w Hk; [exists w; split; [done|apply formatted_refl]|].
  destruct ids as [|j ids]; [apply formatted_one; [by left|apply Hk; left]|]. cbn [set_formatters].
  destruct (formatted_one f (cl f) i w l) as (w1 & E1 & P1); [by right|apply Hk; left|].
  destruct (IH w1) as (w2 & E2 & P2); [intros k Hin; apply (formatted_exists f [i] w); [done|]; apply Hk; by right|].
  exists w2. rewrite (bind_ok _ _ _ _ _ E1). split; [exact E2|]. by apply (formatted_trans f [i] (j :: ids) w w1).
Qed.

Lemma set_formatter_run f id l s :
  reg_ok s -> heap s !! id = Some l ->
  exists w, on_logger id (SpdLogger.set_formatter cl f) s = (Ok tt, mkrstate (reg s) (heap s) w) /\ formatted f (sinks_ l) (shared s) w.
Proof.
  intros Hs E. unfold on_logger. rewrite E. destruct (set_formatters_formatted f (sinks_ l) (shared s) l) as (w & E1 & P1); [intros k; by apply (ro_sinks _ Hs id)|].
  exists w. unfold SpdLogger.set_formatter, bind, gets. simpl. rewrite E1. cbv beta iota. split; [|done]. do 2 f_equal. by apply insert_id.
Qed.

Lemma formatted_ext f ks ks' w w' : (forall k, k ∈ ks <-> k ∈ ks') -> formatted f ks w w' -> formatted f ks' w w'.
Proof. intros Hk [E P]. split; [done|]. intros k. specialize (P k). destruct (sinks_at w !! k); [|done]. destruct P as (fs & ? & ? & Hq). exists fs. split; [done|]. split; [done|]. rewrite <- Hq. symmetry. apply Hk. Qed.

Lemma for_loggers_formatted f (ls : list (list Z * Z)) s :
  reg_ok s -> (forall n id, (n, id) ∈ ls -> is_Some (heap s !! id)) ->
  exists w ks, for_loggers (fun _ id => on_logger id (SpdLogger.set_formatter cl f)) ls s = (Ok tt, mkrstate (reg s) (heap s) w) /\
    formatted f ks (shared s) w /\ forall k, k ∈ ks <-> exists n id l, (n, id) ∈ ls /\ heap s !! id = Some l /\ k ∈ sinks_ l.
Proof.
  revert s. induction ls as [|[n id] ls IH]; intros s Hs He.
  - exists (shared s), []. split; [by destruct s|]. split; [apply formatted_refl|]. set_solver.
  - destruct (He n id) as [l El]; [left|]. destruct (set_formatter_run f id l s Hs El) as (w1 & E1 & P1).
    destruct (IH (mkrstate (reg s) (heap s) w1)) as (w & ks & E & P & Q).
    { destruct Hs as [H1 H2 H3]. split; simpl; [done|done|]. intros i l' k Ei Hin. eapply formatted_exists; [exact P1|]. by eapply H3. }
    { intros n' id' Hin. apply (He n' id'). by right. }
    exists w, (sinks_ l ++ ks). simpl. rewrite (bind_ok _ _ _ _ _ E1). split; [exact E|]. split; [by eapply formatted_trans|].
    intros k. rewrite elem_of_app, Q. simpl. split.
    + intros [Hk|(n' & id' & l' & Hin & ? & ?)]; [exists n, id, l; split; [left|done]|]. exists n', id', l'. split; [by right|done].
    + intros (n' & id' & l' & [[= -> ->]|Hin]%elem_of_cons & E' & Hk); [left; congruence|]. right. by exists n', id', l'.
Qed.

(** *** The operations *)
Lemma register_run id l s : heap s !! id = Some l -> register_logger_ id s = registered id l s.
Proof.
  intros E. unfold register_logger_, registered, bind, deref, throw_if_exists_, bind, get. rewrite E.
  case_bool_decide as Hn; destruct (loggers_ (reg s) !! name_ l); [done|by destruct Hn|destruct Hn; by eexists|done].
Qed.

(** [upd_logger] of a logger that was just written. *)
Lemma upd_logger_run g id l r h w :
  upd_logger (F:=F) (S:=S) id g (mkrstate r (<[id := l]> h) w) = (Ok tt, mkrstate r (<[id := g l]> h) w).
Proof. unfold upd_logger, bind, deref. simpl. rewrite lookup_insert_eq. unfold modify. simpl. by rewrite insert_insert_eq. Qed.

Lemma deref_run id l r h w : deref (F:=F) (S:=S) id (mkrstate r (<[id := l]> h) w) = (Ok l, mkrstate r (<[id := l]> h) w).
Proof. unfold deref. simpl. by rewrite lookup_insert_eq. Qed.

Lemma initialize_run id s : reg_ok s -> is_Some (heap s !! id) -> op_spec (OpInitialize id) s (initialize_logger cl id s).
Proof.
  intros Hs [l E]. destruct (set_formatter_run (cl (formatter_ (reg s))) id l s Hs E) as (w & E1 & P1). exists l, w. split; [done|]. split; [done|]. cbv zeta.
  unfold initialize_logger. erewrite bind_ok by reflexivity. rewrite (bind_ok _ _ _ _ _ E1).
  assert (Eh : heap s = <[id := l]> (heap s)) by (symmetry; by apply insert_id). rewrite Eh at 1.
  set (l1 := match err_handler_ (reg s) with Some h => SpdLogger.set_error_handler h l | None => l end).
  rewrite (bind_ok _ _ _ (mkrstate (reg s) (<[id := l1]> (heap s)) w) tt) by (unfold l1; destruct (err_handler_ (reg s)); [apply upd_logger_run|done]).
  rewrite (bind_ok _ _ _ _ _ (deref_run id l1 (reg s) (heap s) w)).
  do 2 rewrite (bind_ok _ _ _ _ _ (upd_logger_run _ _ _ _ _ _)).
  rewrite (bind_ok _ _ _ (mkrstate (reg s) (<[id := initialized (reg s) l]> (heap s)) w) tt).
  2: { unfold initialized, l1. destruct (0 <? backtrace_n_messages_ (reg s)); [rewrite upd_logger_run|unfold ret]; do 3 f_equal; by destruct (err_handler_ (reg s)). }
  destruct (automatic_registration_ (reg s)); [|done]. rewrite (register_run id (initialized (reg s) l)) by apply lookup_insert_eq. done.
Qed.

Lemma drop_run n s : reg_ok s -> op_spec (OpDrop n) s (drop_logger n s).
Proof.
  intros Hs. simpl. unfold drop_logger, default_name. erewrite bind_ok by reflexivity. destruct (default_logger_ (reg s)) as [d|] eqn:Ed.
  - destruct (ro_default _ Hs d Ed) as [l El]. simpl. rewrite El. unfold bind, deref. rewrite El. simpl.
    destruct (decide (name_ l = n)) as [->|Hn].
    + by rewrite !bool_decide_true.
    + by rewrite !bool_decide_false by congruence.
  - done.
Qed.

Lemma set_formatter_all_run f s : reg_ok s -> op_spec (OpSetFormatter f) s (set_formatter cl f s).
Proof.
  intros Hs. unfold set_formatter. erewrite bind_ok by reflexivity.
  destruct (for_loggers_formatted (cl f) (map_to_list (loggers_ (reg s))) (with_reg (set_reg_formatter f) s)) as (w & ks & E & P & Q).
  - by apply reg_ok_field.
  - intros n id Hn. apply elem_of_map_to_list in Hn. destruct (ro_named _ Hs _ _ Hn) as (l & El & _). by exists l.
  - exists w. split; [exact E|]. intros ks' Hks. apply (formatted_ext _ ks); [|exact P]. intros k. rewrite Hks, Q. simpl. by setoid_rewrite elem_of_map_to_list.
Qed.

Lemma set_levels_spec lv g s : reg_ok s -> op_spec (OpSetLevels lv g) s (set_levels lv g s).
Proof.
  intros Hs. destruct (set_levels_run lv g s Hs) as (h & E & P & Q). simpl. rewrite E. unfold with_reg, with_loggers. simpl.
  assert (h = on_registered (fun n l => SpdLogger.set_level (new_level lv g n (level_ l)) l) s) as ->; [|by destruct g].
  apply map_eq. intros id. unfold on_registered. rewrite map_lookup_imap. destruct (heap s !! id) as [l|] eqn:El; simpl.
  - case_bool_decide as Hn; [by apply P|]. rewrite Q; [done|]. intros n Hid. destruct (ro_named _ Hs _ _ Hid) as (l' & E' & <-). congruence.
  - rewrite Q; [done|]. intros n Hid. destruct (ro_named _ Hs _ _ Hid) as (l' & E' & _). congruence.
Qed.

Lemma flush_reg vt id s : is_Some (heap s !! id) -> reg (snd (on_logger (F:=F) id (v_flush_ (S:=S) vt) s)) = reg s.
Proof. intros [l E]. unfold on_logger. rewrite E. by destruct (v_flush_ vt (l, shared s)) as [? []]. Qed.

Lemma run_op_spec o s : reg_ok s -> op_ok o s -> op_spec o s (run_op cl o s).
Proof.
  intros Hs Ho. destruct o as [id|id|id|d|f|n| |l|l|h|i|n| | |b|lv g|id|q n|fn|vt]; cbn [run_op].
  - destruct Ho as [l E]. exists l. split; [done|]. by apply register_run.
  - destruct Ho as [l E]. exists l. split; [done|]. unfold register_or_replace, register_or_replace_, bind, deref. by rewrite E.
  - by apply initialize_run.
  - destruct d as [id|]; [|done]. destruct Ho as [l E]. exists l. split; [done|]. unfold set_default_logger, bind, deref. by rewrite E.
  - by apply set_formatter_all_run.
  - unfold enable_backtrace. erewrite bind_ok by reflexivity. rewrite for_all_upd_logger; [done|by apply (reg_ok_field (set_backtrace_n n))].
  - unfold disable_backtrace. erewrite bind_ok by reflexivity. rewrite for_all_upd_logger; [done|by apply (reg_ok_field (set_backtrace_n 0))].
  - unfold set_level. by rewrite (bind_ok _ _ _ _ _ (for_all_upd_logger _ s Hs)).
  - unfold flush_on. by rewrite (bind_ok _ _ _ _ _ (for_all_upd_logger _ s Hs)).
  - unfold set_error_handler. by rewrite (bind_ok _ _ _ _ _ (for_all_upd_logger _ s Hs)).
  - done.
  - by apply drop_run.
  - done.
  - done.
  - done.
  - by apply set_levels_spec.
  - destruct Ho as [l E]. exists l. split; [done|]. unfold apply_logger_env_levels, upd_logger, bind, get, deref. by rewrite !E.
  - simpl. unfold init_thread_pool, thread_pool_new. by destruct (_ || _).
  - by apply for_all_visited.
  - apply for_all_visited; [done|]. intros id s' Hid. split; [by apply keeps_flush|by apply flush_reg].
Qed.
End specification.

(** The loggers of this library can be flushed: an asynchronous one always, a synchronous one when flushing its sinks is defined. *)
Lemma async_flush_safe {S} clock strftime self policy : flush_safe (async_vtable (S:=S) clock strftime self policy).
Proof.
  intros l w _. simpl. unfold async_flush_, try_catch, bind, gets. simpl. destruct (pool_alive w); [done|]. simpl.
  destruct (logger_catch_ok clock strftime source_loc_default (spdlog_ex (chars "async flush: thread pool doesn't exist anymore")) l w) as (w' & -> & E).
  by rewrite E.
Qed.

Lemma flush_sinks {F S} `{Sink F S} clock strftime (ids : list Z) (l : logger) (w : world S) :
  (forall b, fst (flush_it (F:=F) (S:=S) b) <> Undef) -> (forall k, k ∈ ids -> is_Some (sinks_at w !! k)) ->
  exists w', for_each (fun id => try_catch (with_sink id (flush (F:=F))) (logger_catch clock strftime source_loc_default)) ids (l, w) = (Ok tt, (l, w')) /\
    forall k, is_Some (sinks_at w !! k) -> is_Some (sinks_at w' !! k).
Proof.
  intros Hf. revert w. induction ids as [|i ids IH]; intros w Hk; [by exists w|]. destruct (Hk i) as [sk Ek]; [left|].
  destruct (guarded_call_ok clock strftime source_loc_default i (flush (F:=F)) l w sk Ek) as (w1 & E1 & S1).
  { unfold flush, on_body, zoom. specialize (Hf (body sk)). by destruct (flush_it (body sk)). }
  assert (Hw : forall k, is_Some (sinks_at w !! k) -> is_Some (sinks_at w1 !! k))
    by (intros k Hs; rewrite S1; destruct (decide (k = i)) as [->|]; [rewrite lookup_insert_eq|rewrite lookup_insert_ne]; done).
  destruct (IH w1) as (w2 & E2 & Hw2); [intros k Hin; apply Hw, Hk; by right|]. exists w2. cbn [for_each]. rewrite (bind_ok _ _ _ _ _ E1). auto.
Qed.

Lemma sync_flush_safe {F S} `{Sink F S} clock strftime :
  (forall b, fst (flush_it (F:=F) (S:=S) b) <> Undef) -> flush_safe (logger_vtable (F:=F) (S:=S) clock strftime).
Proof.
  intros Hf l w Hk. simpl. unfold flush_. erewrite bind_ok by reflexivity. destruct (flush_sinks clock strftime (sinks_ l) l w Hf Hk) as (w' & E & Hw).
  simpl in E |- *. by rewrite E.
Qed.

(** C40: every operation of the registry that is given existing loggers does what it is for and nothing else ([op_spec]): registering
    under a name that is taken throws and changes nothing, initialising gives the logger the settings of the registry, dropping the
    default logger or everything leaves no default, a global level, flush level, handler, backtrace or formatter reaches every registered
    logger and is kept for later ones, a number of threads out of range is refused, [apply_all] and [flush_all] call every registered
    logger once.  None is undefined, and after it every registered logger exists under its own name,
    the default logger, if there is one, exists, and no logger lost its name or its sinks. *)
Theorem registry_invariant {F S} `{Sink F S} (cl : F -> F) (o : reg_op F S) (s : rstate F S) :
  reg_ok s -> op_ok o s ->
  op_spec cl o s (run_op cl o s) /\
  fst (run_op cl o s) <> Undef /\ reg_ok (snd (run_op cl o s)) /\ same_loggers s (snd (run_op cl o s)).
Proof. intros Hs Ho. split; [by apply run_op_spec|by apply run_op_keeps]. Qed.

(** ** A registry with the default logger and a logger [net] that is not registered *)

Definition demo_reg : rstate unit Demo.recorder :=
  let s := registry_new tt 1 1 Demo.demo_world in
  mkrstate (reg s) (<[2 := logger_new (chars "net") [1; 2]]> (heap s)) (shared s).

Lemma demo_reg_loggers : loggers_ (reg demo_reg) = {[ [] := 1 ]}.
Proof. done. Qed.

Lemma demo_reg_heap :
  heap demo_reg = <[2 := logger_new (chars "net") [1; 2]]> {[ 1 := logger_new [] [1] ]}.
Proof. done. Qed.

Lemma demo_reg_ok : reg_ok demo_reg.
Proof.
  split.
  - intros n id E. rewrite demo_reg_loggers in E. apply lookup_singleton_Some in E as [<- <-]. eexists. split; reflexivity.
  - intros d [= <-]. by eexists.
  - intros id l k E Hk. rewrite demo_reg_heap in E. apply lookup_insert_Some in E as [[<- <-]|[_ E]].
    + simpl in Hk. assert (k = 1 \/ k = 2) as [->| ->] by set_solver; by eexists.
    + apply lookup_singleton_Some in E as [<- <-]. simpl in Hk. apply list_elem_of_singleton in Hk as ->. by eexists.
Qed.

Lemma registry_invariant_witness :
  let s := snd (run_op id (OpRegister 2) demo_reg) in
  reg_ok s /\ loggers_ (reg s) !! chars "net" = Some 2 /\ fst (run_op id (OpRegister 2) demo_reg) = Ok tt /\
  run_op id (OpRegister 1) demo_reg = (Throw (spdlog_ex (chars "logger with name '' already exists")), demo_reg) /\
  fst (run_op id (OpFlushAll (fun _ => logger_vtable (F:=unit) Demo.demo_clock (fun _ => []))) demo_reg) <> Undef.
Proof.
  cbv zeta. destruct (registry_invariant id (OpRegister 2) demo_reg demo_reg_ok) as (_ & _ & P & _); [by eexists|].
  destruct (registry_invariant id (OpRegister 1) demo_reg demo_reg_ok) as ((l & El & Q) & _); [by eexists|]. injection El as <-.
  destruct (registry_invariant id (OpFlushAll (fun _ => logger_vtable (F:=unit) Demo.demo_clock (fun _ => []))) demo_reg demo_reg_ok)
    as (_ & R & _); [intros k; apply sync_flush_safe; discriminate|].
  split; [exact P|]. split; [reflexivity|]. split; [reflexivity|]. split; [exact Q|exact R].
Defined.
