(* ===== verification/Cfg.v ===== *)
(** * spdlog: levels from a text (cfg/helpers-inl.h)

    [load_levels] reads a text such as [net=debug,db=err,warn] (a level without a
    name is the global one) and sets the levels of the registry. *)

From S2P Require Import Prelude Machine SpdCommon SpdLogger Registry.

Definition to_lower_ (str : list Z) : list Z := map tolower str.

Definition is_space (c : Z) : bool := (c =? 32) || (c =? 10) || (c =? 13) || (c =? 9).

Fixpoint skip_spaces (l : list Z) : list Z :=
  match l with [] => [] | c :: l' => if is_space c then skip_spaces l' else l end.

(** [trim_]: first the end is cut off, then the front. *)
Definition trim_ (str : list Z) : list Z :=
  let str := reverse (skip_spaces (reverse str)) in
  skip_spaces str.

(** [str.find(sep)] with what is before and after it. *)
Fixpoint cut_at (sep : Z) (l : list Z) : option (list Z * list Z) :=
  match l with
  | [] => None
  | c :: l =>
      if c =? sep then Some ([], l)
      else match cut_at sep l with Some (a, b) => Some (c :: a, b) | None => None end
  end.

Definition extract_kv_ (sep : Z) (str : list Z) : list Z * list Z :=
  let '(k, v) := match cut_at sep str with None => ([], str) | Some (a, b) => (a, b) end in
  (trim_ k, trim_ v).

(** The tokens [std::getline] takes off a stream one after the other; it fails
    when nothing is left. *)
Fixpoint getline_tokens (delim : Z) (token l : list Z) : list (list Z) :=
  match l with
  | [] => match token with [] => [] | _ => [token] end
  | c :: l => if c =? delim then token :: getline_tokens delim [] l else getline_tokens delim (token ++ [c]) l
  end.

Definition comma : Z := 44.
Definition equals : Z := 61.

Definition extract_key_vals_ (str : list Z) : gmap (list Z) (list Z) :=
  foldl (fun rv token =>
      match token with
      | [] => rv
      | _ => let '(k, v) := extract_kv_ equals token in <[k := v]> rv
      end) ∅ (getline_tokens comma [] str).

(** One round of the loop over [key_vals]: the levels by name and the global
    level found so far. *)
Definition load_one (name_level : list Z * list Z) (acc : gmap (list Z) level_enum * option level_enum)
  : gmap (list Z) level_enum * option level_enum :=
  let '(logger_name, text) := name_level in
  let '(levels, global_level) := acc in
  let level_name := to_lower_ text in
  let level := from_str level_name in
  if bool_decide (level = off) && negb (bool_decide (level_name = chars "off")) then (levels, global_level)
  else if bool_decide (logger_name = []) then (levels, Some level)
  else (<[logger_name := level]> levels, global_level).

Definition load_levels {F S} (input : list Z) : M (rstate F S) unit :=
  if bool_decide (input = []) || (512 <? zlen input) then ret tt
  else
    let key_vals := extract_key_vals_ input in
    let '(levels, global_level) := foldr load_one (∅, None) (map_to_list key_vals) in
    set_levels levels global_level.

(** ** The loop does not depend on the order of the map *)

(** The level a text names, if any. *)
Definition recognise (text : list Z) : option level_enum :=
  let level := from_str (to_lower_ text) in
  if bool_decide (level = off) && negb (bool_decide (to_lower_ text = chars "off")) then None else Some level.

Lemma load_one_run n t lv g :
  load_one (n, t) (lv, g) =
  match recognise t with
  | None => (lv, g)
  | Some l => if bool_decide (n = []) then (lv, Some l) else (<[n := l]> lv, g)
  end.
Proof. unfold load_one, recognise. by destruct (_ && _). Qed.

Lemma load_loop (l : list (list Z * list Z)) :
  NoDup l.*1 ->
  let '(lv, g) := foldr load_one (∅, None) l in
  g = ((list_to_map l : gmap (list Z) (list Z)) !! []) ≫= recognise /\
  forall n, lv !! n = if bool_decide (n = []) then None else ((list_to_map l : gmap (list Z) (list Z)) !! n) ≫= recognise.
Proof.
  induction l as [|[n t] l IH]; intros Hd.
  - simpl. split; [done|]. intros n. rewrite lookup_empty. by destruct (bool_decide _).
  - apply NoDup_cons in Hd as [Hn Hd]. cbn [foldr]. specialize (IH Hd).
    assert (Hnone : (list_to_map l : gmap (list Z) (list Z)) !! n = None) by (by apply not_elem_of_list_to_map).
    destruct (foldr load_one (∅, None) l) as [lv g]. destruct IH as [Hg Hlv]. rewrite load_one_run. cbn [list_to_map foldr uncurry].
    destruct (recognise t) as [lev|] eqn:Er.
    + destruct (decide (n = [])) as [->|Hne].
      * rewrite bool_decide_true by done. split; [by rewrite lookup_insert_eq; simpl; rewrite Er|].
        intros m. rewrite Hlv. destruct (decide (m = [])) as [->|]; [by rewrite !bool_decide_true|].
        rewrite !bool_decide_false, lookup_insert_ne by done. done.
      * rewrite bool_decide_false by done. split; [by rewrite lookup_insert_ne|]. intros m.
        destruct (decide (m = n)) as [->|].
        -- rewrite !lookup_insert_eq, bool_decide_false by done. simpl. by rewrite Er.
        -- rewrite !lookup_insert_ne by done. apply Hlv.
    + split.
      * destruct (decide (n = [])) as [->|]; [|by rewrite lookup_insert_ne]. rewrite lookup_insert_eq. simpl.
        rewrite Er, Hg, Hnone. done.
      * intros m. rewrite Hlv. destruct (bool_decide (m = [])); [done|]. destruct (decide (m = n)) as [->|].
        -- rewrite lookup_insert_eq, Hnone. simpl. by rewrite Er.
        -- by rewrite lookup_insert_ne.
Qed.

(** The levels and the global level of a text. *)
Definition named_levels (kvs : gmap (list Z) (list Z)) : gmap (list Z) level_enum := omap recognise (delete [] kvs).

Lemma load_levels_run {F S} input (s : rstate F S) :
  input <> [] -> zlen input <= 512 ->
  load_levels input s =
  set_levels (named_levels (extract_key_vals_ input)) ((extract_key_vals_ input !! []) ≫= recognise) s.
Proof.
  intros H1 H2. unfold load_levels. rewrite bool_decide_false, (proj2 (Z.ltb_ge _ _)) by done. cbn [orb].
  pose proof (load_loop (map_to_list (extract_key_vals_ input)) (NoDup_fst_map_to_list _)) as P.
  destruct (foldr load_one (∅, None) (map_to_list (extract_key_vals_ input))) as [lv g].
  destruct P as [-> Hlv]. rewrite list_to_map_to_list in Hlv |- *.
  assert (lv = named_levels (extract_key_vals_ input)) as ->; [|done].
  apply map_eq. intros n. rewrite Hlv. unfold named_levels. rewrite lookup_omap. case_bool_decide as En.
  - subst n. by rewrite lookup_delete_eq.
  - by rewrite lookup_delete_ne.
Qed.

(** ** Reading back *)

(** The texts of the levels. *)
Definition level_texts (m : gmap (list Z) level_enum) : gmap (list Z) (list Z) := to_string_view <$> m.

(** The text for a list of names and levels; the empty name is the global one. *)
Definition print_entry (e : list Z * level_enum) : list Z :=
  match fst e with [] => to_string_view (snd e) | n => n ++ equals :: to_string_view (snd e) end.
Fixpoint print_levels (es : list (list Z * level_enum)) : list Z :=
  match es with
  | [] => []
  | [e] => print_entry e
  | e :: es => print_entry e ++ comma :: print_levels es
  end.

(** A name without spaces and separators. *)
Definition clean (n : list Z) : Prop := Forall (fun c => is_space c = false /\ c <> comma /\ c <> equals) n.

Lemma clean_level l : clean (to_string_view l).
Proof. destruct l; repeat constructor; done. Qed.

Lemma skip_spaces_clean l : clean l -> skip_spaces l = l.
Proof. intros H. destruct H as [|c l [Hc _] _]; [done|]. simpl. by rewrite Hc. Qed.

Lemma trim_clean l : clean l -> trim_ l = l.
Proof.
  intros H. unfold trim_. rewrite (skip_spaces_clean (reverse l)), reverse_involutive by (by apply Forall_reverse).
  by apply skip_spaces_clean.
Qed.

Lemma cut_at_clean n t : clean n -> cut_at equals (n ++ equals :: t) = Some (n, t).
Proof.
  induction 1 as [|c n (_ & _ & Hc) _ IH]; simpl; [done|]. rewrite (proj2 (Z.eqb_neq _ _)) by done. by rewrite IH.
Qed.

Lemma cut_at_none n : clean n -> cut_at equals n = None.
Proof. induction 1 as [|c n (_ & _ & Hc) _ IH]; simpl; [done|]. rewrite (proj2 (Z.eqb_neq _ _)) by done. by rewrite IH. Qed.

Lemma extract_kv_entry e : clean (fst e) -> extract_kv_ equals (print_entry e) = (fst e, to_string_view (snd e)).
Proof.
  destruct e as [[|c n] l]; simpl; intros H; unfold extract_kv_, print_entry; simpl.
  - by rewrite cut_at_none, (trim_clean (to_string_view l)) by apply clean_level.
  - pose proof (cut_at_clean (c :: n) (to_string_view l) H) as E. simpl in E. rewrite E.
    by rewrite !trim_clean by (done || apply clean_level).
Qed.

Lemma tokens_cons tok t rest :
  Forall (fun c => c <> comma) t ->
  getline_tokens comma tok (t ++ comma :: rest) = (tok ++ t) :: getline_tokens comma [] rest.
Proof.
  intros H. revert tok. induction H as [|c t Hc _ IH]; intros tok; simpl.
  - by rewrite app_nil_r.
  - rewrite (proj2 (Z.eqb_neq _ _)), IH by done. by rewrite <- app_assoc.
Qed.

Lemma tokens_last tok t : Forall (fun c => c <> comma) t -> tok ++ t <> [] -> getline_tokens comma tok t = [tok ++ t].
Proof.
  intros H. revert tok. induction H as [|c t Hc _ IH]; intros tok Hn; simpl.
  - rewrite app_nil_r in *. by destruct tok.
  - rewrite (proj2 (Z.eqb_neq _ _)), IH by (done || by destruct tok). by rewrite <- app_assoc.
Qed.

Lemma print_entry_ok e : clean (fst e) -> Forall (fun c => c <> comma) (print_entry e) /\ print_entry e <> [].
Proof.
  assert (Hl : forall l, Forall (fun c => c <> comma) (to_string_view l) /\ to_string_view l <> [])
    by (intros []; (split; [repeat constructor; done|done])).
  destruct e as [[|c n] l]; unfold print_entry; simpl; intros H; [apply Hl|]. split; [|done].
  apply (Forall_app _ (c :: n)). split; [eapply Forall_impl; [exact H|]; naive_solver|].
  constructor; [done|apply Hl].
Qed.

Lemma tokens_print es : Forall (fun e => clean (fst e)) es -> getline_tokens comma [] (print_levels es) = map print_entry es.
Proof.
  induction 1 as [|e es He Hes IH]; [done|]. destruct (print_entry_ok e He) as [H1 H2]. destruct es as [|e' es].
  - simpl. by rewrite (tokens_last [] _ H1).
  - change (print_levels (e :: e' :: es)) with (print_entry e ++ comma :: print_levels (e' :: es)).
    rewrite tokens_cons, IH by done. done.
Qed.

Lemma key_vals_print es :
  Forall (fun e => clean (fst e)) es -> NoDup es.*1 ->
  extract_key_vals_ (print_levels es) = level_texts (list_to_map es).
Proof.
  intros Hc Hd. unfold extract_key_vals_. rewrite tokens_print by done.
  assert (G : forall m : gmap (list Z) (list Z),
    foldl (fun rv token => match token with [] => rv | _ => let '(k, v) := extract_kv_ equals token in <[k := v]> rv end) m (map print_entry es)
    = level_texts (list_to_map es) ∪ m).
  { induction Hc as [|e es He _ IH]; intros m; [unfold level_texts; simpl; by rewrite fmap_empty, map_empty_union|].
    apply NoDup_cons in Hd as [Hn Hd]. destruct (print_entry_ok e He) as [_ Hp].
    cbn [map foldl]. destruct (print_entry e) as [|c p] eqn:Ep; [done|]. rewrite <- Ep, (extract_kv_entry e He), (IH Hd).
    destruct e as [n l]. cbn [fst snd list_to_map foldr uncurry]. unfold level_texts. rewrite fmap_insert.
    rewrite <- insert_union_r, insert_union_l; [done|].
    rewrite lookup_fmap. apply not_elem_of_list_to_map_1 in Hn. simpl in Hn. by rewrite Hn. }
  rewrite G. apply map_union_empty.
Qed.

Lemma recognise_level l : recognise (to_string_view l) = Some l.
Proof. by destruct l. Qed.

(** A configuration text is read back exactly: for distinct names without
    spaces and separators, loading the printed text gives every registered
    logger its own level if the text has one, else the global level if the text
    has one, and otherwise leaves it; loggers that are not registered are not
    touched. *)
Theorem load_levels_roundtrip {F S} (es : list (list Z * level_enum)) (s : rstate F S) :
  reg_ok s -> es <> [] -> Forall (fun e => clean (fst e)) es -> NoDup es.*1 -> zlen (print_levels es) <= 512 ->
  let m : gmap (list Z) level_enum := list_to_map es in
  exists r h, load_levels (print_levels es) s = (Ok tt, mkrstate r h (shared s)) /\
    (forall n id l, loggers_ (reg s) !! n = Some id -> heap s !! id = Some l ->
       h !! id = Some (SpdLogger.set_level
         (match m !! n with Some lv => lv | None => match m !! [] with Some g => g | None => level_ l end end) l)) /\
    (forall id, (forall n, loggers_ (reg s) !! n <> Some id) -> h !! id = heap s !! id).
Proof.
  intros Hs Hne Hc Hd Hz m.
  assert (Hp : print_levels es <> []).
  { destruct es as [|e [|e' es]]; [done| |]; apply Forall_cons in Hc as [He _]; destruct (print_entry_ok e He) as [_ Hp]; [done|].
    simpl. by destruct (print_entry e). }
  rewrite load_levels_run, key_vals_print by done. fold m.
  destruct (set_levels_run (named_levels (level_texts m)) ((level_texts m !! []) ≫= recognise) s Hs)
    as (h & E & P & Q).
  eexists _, h. split; [exact E|]. split; [|exact Q]. intros n id l Hn El. rewrite (P n id l Hn El). do 2 f_equal.
  unfold new_level, named_levels, level_texts. rewrite lookup_omap, lookup_fmap. destruct (decide (n = [])) as [->|Hn0].
  - rewrite lookup_delete_eq. simpl. destruct (m !! []) as [g|]; [|done]. simpl. by rewrite recognise_level.
  - rewrite lookup_delete_ne, lookup_fmap by done. destruct (m !! n) as [lv|]; simpl; [by rewrite recognise_level|].
    destruct (m !! []) as [g|]; [|done]. simpl. by rewrite recognise_level.
Qed.

(** The default logger of a registry is set by the global level. *)
Lemma load_levels_roundtrip_witness :
  print_levels [(chars "net", err); ([], debug)] = chars "net=error,debug" /\
  exists r h, load_levels (chars "net=error,debug") demo_reg = (Ok tt, mkrstate r h (shared demo_reg)) /\
    level_ <$> h !! 1 = Some debug /\ level_ <$> h !! 2 = Some info.
Proof.
  split; [reflexivity|].
  destruct (load_levels_roundtrip [(chars "net", err); ([], debug)] demo_reg demo_reg_ok) as (r & h & E & P & Q).
  - done.
  - repeat constructor; done.
  - apply (bool_decide_unpack _). vm_compute. done.
  - by vm_compute.
  - exists r, h. split; [exact E|]. split.
    + rewrite (P [] 1 (logger_new [] [1])); reflexivity.
    + rewrite (Q 2); [reflexivity|]. intros n En. rewrite demo_reg_loggers in En. by apply lookup_singleton_Some in En as [_ En].
Defined.
