(* ===== verification/Sinks.v ===== *)
(** * spdlog: console and ring buffer sinks

    sinks/stdout_sinks-inl.h (the console sink of the program, outside Windows)
    and ringbuffer_sink.h, which keeps the newest messages in a circular queue. *)

From S2P Require Import Prelude Machine CircularQ SpdCommon SpdLogger.

(** ** stdout_sink *)

(** [stdout_sink_base] outside Windows: its formatter and the text that reached
    the stream.  [fault] says for every write whether it fails and how many
    characters still get through; the code ignores it. *)
Record stdout_sink (F : Type) := mkstdout {
  file_ : list Z;
  std_formatter_ : F;
  writes : nat }.
Arguments mkstdout {F}.
Arguments file_ {F}.
Arguments std_formatter_ {F}.
Arguments writes {F}.

Definition stdout_sink_new {F} (dflt : F) : stdout_sink F := mkstdout [] dflt 0.

Section stdout.
Context {F : Type} (format : F -> log_msg -> outcome (list Z)) (fault : nat -> option Z).

(** [fwrite_bytes] and [fflush], results unused. *)
Definition put_stream (text : list Z) (s : stdout_sink F) : stdout_sink F :=
  let out := match fault (writes s) with None => text | Some k => take (Z.to_nat k) text end in
  mkstdout (file_ s ++ out) (std_formatter_ s) (S (writes s)).

Definition stdout_log (msg : log_msg) : M (stdout_sink F) unit :=
  let! f := gets std_formatter_ in
  let! formatted := of_outcome (format f msg) in
  modify (put_stream formatted).

Definition stdout_flush : M (stdout_sink F) unit := ret tt.

Definition stdout_set_formatter (f : F) (s : stdout_sink F) : stdout_sink F := mkstdout (file_ s) f (writes s).
Definition stdout_set_pattern (make : list Z -> F) (pattern : list Z) (s : stdout_sink F) : stdout_sink F :=
  stdout_set_formatter (make pattern) s.

#[export] Instance stdout_is_sink : Sink F (stdout_sink F) := {
  sink_it := stdout_log;
  flush_it := stdout_flush;
  put_formatter := stdout_set_formatter }.

Lemma stdout_safe (Hf : forall f m, format f m <> Undef) : SinkSafe F (stdout_sink F) (fun _ => True).
Proof.
  split; intros; (split; [|done]); [|done]. simpl. unfold stdout_log, bind, gets, of_outcome.
  specialize (Hf (std_formatter_ s) msg). by destruct (format (std_formatter_ s) msg).
Qed.
End stdout.

(** ** ringbuffer_sink *)

Record ringbuffer_sink (F : Type) := mkringbuffer {
  rb_q_ : circular_q log_msg_buffer;
  rb_formatter_ : F }.
Arguments mkringbuffer {F}.
Arguments rb_q_ {F}.
Arguments rb_formatter_ {F}.

Definition ringbuffer_sink_new {F} (dflt : F) (n_items : Z) : ringbuffer_sink F :=
  mkringbuffer (circular_q_new log_msg_buffer_default n_items) dflt.

(** [lim > 0 ? min(lim, items_available) : items_available]. *)
Definition items_wanted (lim items_available : Z) : Z :=
  if 0 <? lim then Z.min lim items_available else items_available.

Section ringbuffer.
Context {F : Type} (format : F -> log_msg -> outcome (list Z)).

Definition ringbuffer_sink_it_ (msg : log_msg) : M (ringbuffer_sink F) unit :=
  zoom rb_q_ (fun q s => mkringbuffer q (rb_formatter_ s)) (push_back (log_msg_buffer_of msg)).
Definition ringbuffer_flush_ : M (ringbuffer_sink F) unit := ret tt.

(** The loop of [last_raw] and [last_formatted]: [n] elements from index [i];
    [f] is what is put into the result for an element. *)
Fixpoint collect {A} (f : log_msg_buffer -> outcome A) (i : Z) (n : nat) (q : circular_q log_msg_buffer) : outcome (list A) :=
  match n with
  | O => Ok []
  | S n =>
      match at_ i q with
      | Ok b =>
          match f b with
          | Ok a => match collect f (i + 1) n q with Ok l => Ok (a :: l) | Throw e => Throw e | Undef => Undef end
          | Throw e => Throw e
          | Undef => Undef
          end
      | _ => Undef
      end
  end.

Definition last_raw (lim : Z) (s : ringbuffer_sink F) : outcome (list log_msg_buffer) :=
  let items_available := size (rb_q_ s) in
  let n_items := items_wanted lim items_available in
  collect (fun b => Ok (log_msg_buffer_copy b)) (items_available - n_items) (Z.to_nat n_items) (rb_q_ s).

Definition last_formatted (lim : Z) (s : ringbuffer_sink F) : outcome (list (list Z)) :=
  let items_available := size (rb_q_ s) in
  let n_items := items_wanted lim items_available in
  collect (fun b => format (rb_formatter_ s) (as_log_msg b)) (items_available - n_items) (Z.to_nat n_items) (rb_q_ s).

#[export] Instance ringbuffer_is_sink : Sink F (ringbuffer_sink F) := {
  sink_it := ringbuffer_sink_it_;
  flush_it := ringbuffer_flush_;
  put_formatter f s := mkringbuffer (rb_q_ s) f }.

(** The messages held, oldest first. *)
Definition held (s : ringbuffer_sink F) : list log_msg := map as_log_msg (contents (rb_q_ s)).

Lemma collect_ok {A} (f : log_msg_buffer -> outcome A) (g : log_msg_buffer -> A) q i n :
  wf q -> 0 <= i -> i + Z.of_nat n <= size q -> Forall (fun b => f b = Ok (g b)) (contents q) ->
  collect f i n q = Ok (map g (take n (drop (Z.to_nat i) (contents q)))).
Proof.
  intros W Hi Hn HF. revert i Hi Hn. induction n as [|n IH]; intros i Hi Hn; [done|]. cbn [collect].
  rewrite (at_ok q i W Hi). pose proof (zlen_contents q W) as Hz. unfold zlen in Hz.
  destruct (lookup_lt_is_Some_2 (contents q) (Z.to_nat i)) as [b Eb]; [lia|]. rewrite Eb.
  rewrite Forall_forall in HF. rewrite (HF b) by (by eapply list_elem_of_lookup_2).
  rewrite IH by lia. rewrite (drop_S _ _ _ Eb). simpl.
  by replace (Z.to_nat (i + 1)) with (S (Z.to_nat i)) by lia.
Qed.

(** After a list of messages the queue holds the buffers of the last ones. *)
Lemma ringbuffer_run (dflt : F) n msgs :
  0 <= n < 2 ^ 63 - 1 ->
  let s := foldl (fun s m => snd (ringbuffer_sink_it_ m s)) (ringbuffer_sink_new dflt n) msgs in
  wf (rb_q_ s) /\ max_items_ (rb_q_ s) = n + 1 /\
  contents (rb_q_ s) = map log_msg_buffer_of (drop (length msgs - Z.to_nat n) msgs).
Proof.
  intros Hn. induction msgs as [|m msgs IH] using rev_ind.
  - destruct (circular_q_new_wf log_msg_buffer_default n Hn) as [W V]. cbv zeta. cbn [foldl ringbuffer_sink_new rb_q_].
    pose proof (f_equal capacity V) as Vc. pose proof (f_equal items V) as Vi. unfold view in Vc, Vi.
    cbn [capacity items] in Vc, Vi. split_and!; [exact W|lia|exact Vi].
  - rewrite foldl_app. cbn [foldl]. set (s := foldl _ _ msgs) in *. destruct IH as (W & C & I).
    destruct (push_back_ok (rb_q_ s) (log_msg_buffer_of m) W) as (q & E & Wq & V).
    unfold ringbuffer_sink_it_, zoom. rewrite E. simpl.
    pose proof (f_equal capacity V) as Vc. pose proof (f_equal items V) as Vi. clear V.
    unfold ring_push in Vc, Vi. cbn [view capacity items] in Vc, Vi. rewrite I in Vc, Vi. unfold zlen in Vc, Vi.
    rewrite length_map, length_drop in Vc, Vi. rewrite length_app. simpl.
    assert (HC : max_items_ q = n + 1) by (destruct (_ <? _); cbn [capacity] in Vc; lia).
    split_and!; [done|done|]. destruct (_ <? _) eqn:El; cbn [items] in Vi; bool_to_prop; rewrite Vi.
    + replace (length msgs + 1 - Z.to_nat n)%nat with O by lia. replace (length msgs - Z.to_nat n)%nat with O by lia.
      by rewrite !drop_0, map_app.
    + replace (length msgs + 1 - Z.to_nat n)%nat with (S (length msgs - Z.to_nat n))%nat by lia.
      rewrite <- (map_app log_msg_buffer_of _ [m]), <- skipn_map.
      rewrite <- (drop_app_le msgs [m]) by lia. rewrite <- skipn_map, drop_drop. f_equal. lia.
Qed.
End ringbuffer.

(** The ring buffer sink remembers the newest messages: after any sequence of
    messages it holds the last [n] of them in order, and [last_raw] with a
    limit returns the last messages up to the limit, each showing the text it
    was logged with. *)
Theorem ringbuffer_last {F} (dflt : F) (n lim : Z) (msgs : list log_msg) :
  0 <= n < 2 ^ 63 - 1 -> 0 <= lim ->
  exists s, foldl (fun s m => snd (ringbuffer_sink_it_ m s)) (ringbuffer_sink_new dflt n) msgs = s /\ wf (rb_q_ s) /\
    held s = drop (length msgs - Z.to_nat n) msgs /\
    exists l, last_raw lim s = Ok l /\
      map as_log_msg l = drop (length (held s) - Z.to_nat (items_wanted lim (zlen (held s)))) (held s).
Proof.
  intros Hn Hl. set (s := foldl _ _ msgs). destruct (ringbuffer_run dflt n msgs Hn) as (W & C & I). fold s in W, C, I.
  assert (Hh : held s = drop (length msgs - Z.to_nat n) msgs).
  { unfold held. rewrite I, map_map. erewrite map_ext; [apply map_id|]. intros m. apply as_log_msg_of. }
  exists s. split_and!; [done|done|exact Hh|].
  pose proof (zlen_contents _ W) as Hz. pose proof (size_range _ W) as Hr. set (k := items_wanted lim (size (rb_q_ s))).
  assert (Hk : 0 <= k <= size (rb_q_ s)) by (unfold k, items_wanted; split_if; bool_to_prop; lia).
  unfold last_raw. fold k. erewrite collect_ok; [|done|lia|lia|apply Forall_forall; intros; reflexivity].
  eexists. split; [done|]. rewrite map_map.
  assert (Hzh : zlen (held s) = size (rb_q_ s)) by (rewrite <- Hz; unfold held, zlen; by rewrite length_map).
  rewrite Hzh. fold k. unfold zlen in Hz, Hzh. rewrite take_ge by (rewrite length_drop; lia). unfold held at 2.
  rewrite <- !skipn_map. replace (Z.to_nat (size (rb_q_ s) - k)) with (length (held s) - Z.to_nat k)%nat by lia. f_equal.
  rewrite I, !map_map. apply map_ext. intros m. unfold log_msg_buffer_copy. by rewrite !(proj1 (as_log_msg_of _)).
Qed.

Lemma ringbuffer_last_witness :
  let msg t := log_msg_new 1 0 source_loc_default (chars "net") info t in
  exists l, last_raw 1 (foldl (fun s m => snd (ringbuffer_sink_it_ m s)) (ringbuffer_sink_new tt 2)
      [msg (chars "a"); msg (chars "b"); msg (chars "c")]) = Ok l /\ map as_log_msg l = [msg (chars "c")].
Proof.
  cbv zeta. destruct (ringbuffer_last tt 2 1 [log_msg_new 1 0 source_loc_default (chars "net") info (chars "a");
    log_msg_new 1 0 source_loc_default (chars "net") info (chars "b");
    log_msg_new 1 0 source_loc_default (chars "net") info (chars "c")]) as (s & <- & _ & Hh & l & E & P); [lia|lia|].
  exists l. split; [exact E|]. rewrite P, Hh. reflexivity.
Defined.
