(* ===== verification/DistSink.v ===== *)
(** * spdlog: sinks in front of other sinks, and simple sinks

    sinks/dist_sink.h, dup_filter_sink.h, ansicolor_sink-inl.h, ostream_sink.h,
    callback_sink.h and null_sink.h.  A sink that distributes holds shared
    pointers to other sinks: identifiers of sinks in a store. *)

From S2P Require Import Prelude Machine FmtInt SpdCommon.

(** ** dist_sink *)

Record dist_sink (F : Type) := mkdist { sinks_ : list Z; dist_formatter_ : F }.
Arguments mkdist {F}.
Arguments sinks_ {F}.
Arguments dist_formatter_ {F}.

Definition dist_sink_new {F} (dflt : F) (sinks : list Z) : dist_sink F := mkdist sinks dflt.

Section dist.
Context {F S : Type} `{Sink F S}.

(** The sinks a [dist_sink] may point to. *)
#[local] Notation store := (gmap Z (sink S)).
Definition ds : Type := dist_sink F * store.

Definition add_sink (sub_sink : Z) : M ds unit := modify (fun s => (mkdist (sinks_ (fst s) ++ [sub_sink]) (dist_formatter_ (fst s)), snd s)).
(** [erase(std::remove(...))]: every occurrence. *)
Definition remove_sink (sub_sink : Z) : M ds unit :=
  modify (fun s => (mkdist (filter (fun id => id <> sub_sink) (sinks_ (fst s))) (dist_formatter_ (fst s)), snd s)).
Definition set_sinks (sinks : list Z) : M ds unit := modify (fun s => (mkdist sinks (dist_formatter_ (fst s)), snd s)).

(** A call of a sink; a pointer to nothing is undefined. *)
Definition on_sub {A} (id : Z) (m : M (sink S) A) : M store A := fun st =>
  match st !! id with
  | Some s => let '(o, s) := m s in (o, <[id := s]> st)
  | None => (Undef, st)
  end.
Fixpoint each (m : Z -> M store unit) (ids : list Z) : M store unit :=
  match ids with [] => ret tt | id :: ids => do! m id in each m ids end.
Definition on_store {A} (m : list Z -> M store A) : M ds A :=
  let! d := gets fst in zoom snd (fun st s => (fst s, st)) (m (sinks_ d)).

Definition dist_log (msg : log_msg) : list Z -> M store unit :=
  each (fun id =>
    let! b := on_sub id (gets (should_log (level msg))) in
    if b : bool then on_sub id (log msg) else ret tt).
Definition dist_sink_it_ (msg : log_msg) : M ds unit := on_store (dist_log msg).
Definition dist_flush_ : M ds unit := on_store (each (fun id => on_sub id flush)).
(** [set_formatter_]; a clone of a formatter is the same value. *)
Definition dist_set_formatter_ (f : F) : M ds unit :=
  do! modify (fun s => (mkdist (sinks_ (fst s)) f, snd s)) in
  on_store (each (fun id => on_sub id (set_formatter f))).
Definition dist_set_pattern_ (make : list Z -> F) (pattern : list Z) : M ds unit := dist_set_formatter_ (make pattern).

(** ** dup_filter_sink *)

Record dup_filter_sink := mkdup {
  dup_dist_ : dist_sink F;
  max_skip_duration_ : Z;
  last_msg_time_ : Z;
  last_msg_payload_ : list Z;
  skip_counter_ : Z;
  skipped_msg_log_level_ : level_enum }.

(** The sinks, and the number of clock readings so far. *)
Definition dup : Type := dup_filter_sink * (store * nat).

Definition dup_filter_sink_new (dflt : F) (max_skip_duration : Z) : dup_filter_sink :=
  mkdup (mkdist [] dflt) max_skip_duration 0 [] 0 off.

Definition set_skipped (n : Z) (l : level_enum) (d : dup_filter_sink) : dup_filter_sink :=
  mkdup (dup_dist_ d) (max_skip_duration_ d) (last_msg_time_ d) (last_msg_payload_ d) n l.
Definition set_last (t : Z) (payload : list Z) (d : dup_filter_sink) : dup_filter_sink :=
  mkdup (dup_dist_ d) (max_skip_duration_ d) t payload 0 (skipped_msg_log_level_ d).

(** The distance of time points is a signed 64-bit number. *)
Definition time_diff (a b : Z) : outcome Z := if (- 2 ^ 63 <=? a - b) && (a - b <? 2 ^ 63) then Ok (a - b) else Undef.

(** [filter_]: whether the message is shown. *)
Definition filter_ (msg : log_msg) (d : dup_filter_sink) : outcome bool :=
  match time_diff (time msg) (last_msg_time_ d) with
  | Ok filter_duration => Ok ((max_skip_duration_ d <? filter_duration) || negb (bool_decide (payload msg = last_msg_payload_ d)))
  | Throw e => Throw e
  | Undef => Undef
  end.

(** The text of [snprintf], for a counter cut to 32 bits. *)
Definition skipped_text (n : Z) : list Z := chars "Skipped " ++ decimal (u32 n) ++ chars " duplicate messages..".

Section dup_filter.
Context (clock : nat -> Z) (tid : Z).

Definition dup_log (msg : log_msg) : M dup unit := fun s =>
  let '(o, (_, st)) := dist_sink_it_ msg (dup_dist_ (fst s), fst (snd s)) in (o, (fst s, (st, snd (snd s)))).
Definition dup_now : M dup Z := fun s => (Ok (clock (snd (snd s))), (fst s, (fst (snd s), Datatypes.S (snd (snd s))))).

Definition dup_sink_it_ (msg : log_msg) : M dup unit :=
  let! d := gets fst in
  let! filtered := of_outcome (filter_ msg d) in
  if negb filtered then modify (fun s => (set_skipped (size_add (skip_counter_ (fst s)) 1) (level msg) (fst s), snd s))
  else
    do! (if 0 <? skip_counter_ d then
           let buf := skipped_text (skip_counter_ d) in
           if (0 <? zlen buf) && (zlen buf <? 64) then
             let! now := dup_now in
             dup_log (log_msg_new tid now (source msg) (logger_name msg) (skipped_msg_log_level_ d) buf)
           else ret tt
         else ret tt) in
    do! dup_log msg in
    modify (fun s => (set_last (time msg) (payload msg) (fst s), snd s)).
End dup_filter.
End dist.
Arguments ds : clear implicits.
Arguments dup : clear implicits.
Arguments dup_filter_sink : clear implicits.

(** ** What a duplicate filter shows *)

Section shown.
Context (clock : nat -> Z) (tid : Z) (max_skip : Z).

(** A repetition of the payload [p], close enough to the time [t]. *)
Definition repeats (t : Z) (p : list Z) (m : log_msg) : bool := (time m - t <=? max_skip) && bool_decide (payload m = p).

Fixpoint span {A} (b : A -> bool) (l : list A) : list A * list A :=
  match l with
  | x :: l' => if b x then let '(yes, rest) := span b l' in (x :: yes, rest) else ([], l)
  | [] => ([], [])
  end.

(** The note for [n] skipped messages in front of [m]. *)
Definition note (n : Z) (lvl : level_enum) (m : log_msg) (r : nat) : list log_msg :=
  if 0 <? n then [log_msg_new tid (clock r) (source m) (logger_name m) lvl (skipped_text n)] else [].

(** Blocks of repetitions: every block is replaced by a note with its length, in
    front of the message that ends it; a block at the end is not noted.  [k]
    repetitions of [p] have gone before, [r] counts the readings of the clock.
    Every round takes a message, so their number bounds the rounds. *)
Fixpoint shown (fuel : nat) (t : Z) (p : list Z) (k : Z) (lvl : level_enum) (r : nat) (msgs : list log_msg) : list log_msg :=
  match fuel with
  | O => []
  | S fuel =>
      let '(dups, rest) := span (repeats t p) msgs in
      match rest with
      | [] => []
      | m :: rest =>
          let n := k + zlen dups in
          let lvl := default lvl (level <$> last dups) in
          note n lvl m r ++ m :: shown fuel (time m) (payload m) 0 lvl (if 0 <? n then S r else r) rest
      end
  end.

Lemma shown_repeat fuel t p k lvl r m msgs :
  repeats t p m = true -> shown fuel t p k lvl r (m :: msgs) = shown fuel t p (k + 1) (level m) r msgs.
Proof.
  intros Hm. destruct fuel as [|fuel]; [done|]. cbn [shown span]. rewrite Hm. destruct (span (repeats t p) msgs) as [dups [|x rest]]; [done|].
  rewrite zlen_cons, last_cons. replace (k + (1 + zlen dups)) with (k + 1 + zlen dups) by lia. by destruct (last dups).
Qed.
Lemma shown_other fuel t p k lvl r m msgs :
  repeats t p m = false ->
  shown (S fuel) t p k lvl r (m :: msgs) = note k lvl m r ++ m :: shown fuel (time m) (payload m) 0 lvl (if 0 <? k then S r else r) msgs.
Proof. intros Hm. cbn [shown span]. rewrite Hm. change (zlen (@nil log_msg)) with 0. by rewrite Z.add_0_r. Qed.
End shown.

Section dup_run.
Context {F S : Type} `{Sink F S} (clock : nat -> Z) (tid : Z).

(** The messages one after the other. *)
Fixpoint deliver (ids : list Z) (msgs : list log_msg) : M (gmap Z (sink S)) unit :=
  match msgs with [] => ret tt | m :: msgs => do! dist_log (F:=F) m ids in deliver ids msgs end.
Fixpoint dup_all (msgs : list log_msg) : M (dup F S) unit :=
  match msgs with [] => ret tt | m :: msgs => do! dup_sink_it_ clock tid m in dup_all msgs end.

(** Sinks that are there and take every message. *)
Definition good_sinks (ids : list Z) (st : gmap Z (sink S)) : Prop :=
  (forall id, id ∈ ids -> is_Some (st !! id)) /\ (forall m s, fst (sink_it (F:=F) m s) = Ok tt).

Lemma dist_log_ok msg ids all st :
  good_sinks all st -> incl ids all -> exists st', dist_log (F:=F) msg ids st = (Ok tt, st') /\ good_sinks all st'.
Proof.
  intros Hg Hi. revert st Hg. induction ids as [|id ids IH]; intros st Hg; [by exists st|]. cbn [dist_log each].
  assert (Hin : id ∈ all) by (apply list_elem_of_In, Hi; by left). apply incl_cons_inv in Hi as [_ Hi].
  destruct (proj1 Hg id Hin) as [s Hs].
  assert (Hput : forall s', good_sinks all (<[id := s']> st)).
  { intros s'. split; [|apply Hg]. intros j Hj. rewrite lookup_insert. case_decide; [done|by apply Hg]. }
  assert (exists s', (let! b := on_sub id (gets (should_log (level msg))) in if b : bool then on_sub id (log (F:=F) msg) else ret tt) st = (Ok tt, <[id := s']> st)) as [s' E].
  { unfold bind, on_sub at 1, gets. rewrite Hs. destruct (should_log _ s); [|by exists s].
    unfold on_sub. rewrite lookup_insert_eq. unfold log, on_body, zoom. pose proof (proj2 Hg msg (body s)) as Hl.
    destruct (sink_it msg (body s)) as [o b]. simpl in Hl. subst o. rewrite insert_insert_eq. by eexists. }
  destruct (IH Hi _ (Hput s')) as (st' & E' & Hg'). exists st'. split; [|done]. by bind_step by exact E.
Qed.

Lemma deliver_app ids a b st st' : deliver ids a st = (Ok tt, st') -> deliver ids (a ++ b) st = deliver ids b st'.
Proof.
  revert st. induction a as [|m a IH]; intros st; simpl; [by intros [= ->]|]. unfold bind.
  destruct (dist_log m ids st) as [[[]|e|] st1]; [apply IH|done..].
Qed.

Lemma deliver_ok ids msgs st : good_sinks ids st -> exists st', deliver ids msgs st = (Ok tt, st') /\ good_sinks ids st'.
Proof.
  revert st. induction msgs as [|m msgs IH]; intros st Hg; [by exists st|]. cbn [deliver].
  destruct (dist_log_ok m ids ids st Hg (incl_refl _)) as (st1 & E & Hg1). destruct (IH st1 Hg1) as (st2 & E2 & Hg2).
  exists st2. split; [by bind_step by exact E|done].
Qed.

Lemma dup_log_run m d st r st' :
  dist_log (F:=F) m (sinks_ (dup_dist_ d)) st = (Ok tt, st') -> dup_log m (d, (st, r)) = (Ok tt, (d, (st', r))).
Proof. intros E. unfold dup_log, dist_sink_it_, on_store, bind, gets, zoom. simpl. by rewrite E. Qed.

Lemma skipped_text_fits n : (0 <? zlen (skipped_text n)) && (zlen (skipped_text n) <? 64) = true.
Proof.
  unfold skipped_text. rewrite !zlen_app. change (zlen (chars "Skipped ")) with 8. change (zlen (chars " duplicate messages..")) with 21.
  assert (0 <= u32 n < 2 ^ 32) as Hn by (apply Z.mod_pos_bound; reflexivity). pose proof (digits_pos (u32 n) ltac:(lia)).
  assert (zlen (digits (u32 n)) <= 10) by (apply digits_length_le; lia).
  unfold decimal. rewrite (proj2 (Z.ltb_ge (u32 n) 0)) by lia. apply andb_true_intro. split; apply Z.ltb_lt; lia.
Qed.

(** One message that is shown. *)
Lemma dup_show m d st r :
  good_sinks (sinks_ (dup_dist_ d)) st -> filter_ m d = Ok true ->
  exists st', dup_sink_it_ clock tid m (d, (st, r)) =
      (Ok tt, (set_last (time m) (payload m) d, (st', if 0 <? skip_counter_ d then Datatypes.S r else r))) /\
    deliver (sinks_ (dup_dist_ d)) (note clock tid (skip_counter_ d) (skipped_msg_log_level_ d) m r ++ [m]) st = (Ok tt, st') /\
    good_sinks (sinks_ (dup_dist_ d)) st'.
Proof.
  intros Hg Hf. unfold dup_sink_it_, note. bind_step by reflexivity. cbn [fst]. bind_step by (rewrite Hf; reflexivity). cbn [negb].
  rewrite skipped_text_fits. destruct (0 <? skip_counter_ d).
  - set (n := log_msg_new _ _ _ _ _ _). destruct (dist_log_ok n _ _ st Hg (incl_refl _)) as (st1 & E1 & Hg1).
    destruct (dist_log_ok m _ _ st1 Hg1 (incl_refl _)) as (st2 & E2 & Hg2). exists st2. split; [|split; [|done]].
    + bind_step by (bind_step by reflexivity; apply dup_log_run; exact E1). bind_step by (apply dup_log_run, E2). done.
    + cbn [app deliver]. bind_step by exact E1. by bind_step by exact E2.
  - destruct (dist_log_ok m _ _ st Hg (incl_refl _)) as (st2 & E2 & Hg2). exists st2. split; [|split; [|done]].
    + bind_step by reflexivity. by bind_step by (apply dup_log_run, E2).
    + cbn [app deliver]. by bind_step by exact E2.
Qed.

Definition time_ok (m : log_msg) : Prop := - 2 ^ 62 <= time m < 2 ^ 62.

Lemma filter_exact m (d : dup_filter_sink F) : time_ok m -> - 2 ^ 62 <= last_msg_time_ d < 2 ^ 62 ->
  filter_ m d = Ok (negb (repeats (max_skip_duration_ d) (last_msg_time_ d) (last_msg_payload_ d) m)).
Proof.
  unfold time_ok. intros Hm Hl. unfold filter_, time_diff, repeats. rewrite (proj2 (Z.leb_le _ _)), (proj2 (Z.ltb_lt _ _)) by lia. cbn [andb].
  rewrite negb_andb. by rewrite Z.leb_antisym, negb_involutive.
Qed.

Lemma dup_run_shown msgs d st r fuel :
  good_sinks (sinks_ (dup_dist_ d)) st -> Forall time_ok msgs -> - 2 ^ 62 <= last_msg_time_ d < 2 ^ 62 ->
  0 <= skip_counter_ d -> skip_counter_ d + zlen msgs < 2 ^ 64 -> (length msgs <= fuel)%nat ->
  exists d' st' r', dup_all msgs (d, (st, r)) = (Ok tt, (d', (st', r'))) /\
    deliver (sinks_ (dup_dist_ d)) (shown clock tid (max_skip_duration_ d) fuel (last_msg_time_ d) (last_msg_payload_ d) (skip_counter_ d)
      (skipped_msg_log_level_ d) r msgs) st = (Ok tt, st').
Proof.
  revert d st r fuel. induction msgs as [|m msgs IH]; intros d st r fuel Hg Ht Hl H0 Hk Hfl.
  { exists d, st, r. split; [done|]. by destruct fuel. }
  inversion Ht as [|? ? Hm Ht']; subst. rewrite zlen_cons in Hk. cbn [dup_all]. pose proof (zlen_nonneg msgs).
  destruct (repeats (max_skip_duration_ d) (last_msg_time_ d) (last_msg_payload_ d) m) eqn:Er.
  - rewrite shown_repeat by done.
    destruct (IH (set_skipped (size_add (skip_counter_ d) 1) (level m) d) st r fuel) as (d' & st' & r' & E & D);
      [done|done|done|cbn [skip_counter_ set_skipped]; rewrite size_add_small by (unfold size_max; lia); lia
      |cbn [skip_counter_ set_skipped]; rewrite size_add_small by (unfold size_max; lia); lia|simpl in Hfl; lia|].
    exists d', st', r'. split.
    + bind_step by (unfold dup_sink_it_; bind_step by reflexivity; cbn [fst]; rewrite filter_exact, Er by done; reflexivity). exact E.
    + cbn [dup_dist_ max_skip_duration_ last_msg_time_ last_msg_payload_ skip_counter_ skipped_msg_log_level_ set_skipped] in D.
      by rewrite size_add_small in D by (unfold size_max; lia).
  - destruct fuel as [|fuel]; [simpl in Hfl; lia|]. rewrite shown_other by done.
    destruct (dup_show m d st r Hg) as (st1 & E1 & D1 & Hg1); [by rewrite filter_exact, Er|].
    destruct (IH (set_last (time m) (payload m) d) st1 (if 0 <? skip_counter_ d then Datatypes.S r else r) fuel) as (d' & st' & r' & E & D);
      [done|done|done|simpl; lia|simpl; lia|simpl in Hfl; lia|].
    exists d', st', r'. split; [by bind_step by exact E1|].
    replace (note clock tid (skip_counter_ d) (skipped_msg_log_level_ d) m r ++ m :: shown clock tid (max_skip_duration_ d) fuel (time m) (payload m) 0
      (skipped_msg_log_level_ d) (if 0 <? skip_counter_ d then Datatypes.S r else r) msgs) with
      ((note clock tid (skip_counter_ d) (skipped_msg_log_level_ d) m r ++ [m]) ++ shown clock tid (max_skip_duration_ d) fuel (time m) (payload m) 0
      (skipped_msg_log_level_ d) (if 0 <? skip_counter_ d then Datatypes.S r else r) msgs) by (by rewrite <- app_assoc).
    rewrite (deliver_app _ _ _ _ _ D1). exact D.
Qed.
End dup_run.

(** The duplicate filter replaces blocks of repetitions by notes: when its
    sinks take every message, a run of messages leaves the sinks as if they had
    been sent, one after the other, every message that is not a repetition of
    the last one shown within the time allowed, preceded by a note with the
    number of repetitions that were skipped before it, at the level of the last
    of them. *)
Theorem dup_filter_exact {F S : Type} `{Sink F S} clock tid (msgs : list log_msg) (d : dup_filter_sink F) (st : gmap Z (sink S)) (r : nat) :
  good_sinks (F:=F) (sinks_ (dup_dist_ d)) st -> Forall time_ok msgs -> - 2 ^ 62 <= last_msg_time_ d < 2 ^ 62 ->
  0 <= skip_counter_ d -> skip_counter_ d + zlen msgs < 2 ^ 64 ->
  exists d' st' r', dup_all clock tid msgs (d, (st, r)) = (Ok tt, (d', (st', r'))) /\
    deliver (F:=F) (sinks_ (dup_dist_ d))
      (shown clock tid (max_skip_duration_ d) (length msgs) (last_msg_time_ d) (last_msg_payload_ d) (skip_counter_ d) (skipped_msg_log_level_ d) r msgs) st
      = (Ok tt, st').
Proof. intros Hg Ht Hl H0 Hk. by apply dup_run_shown. Qed.

(** ** Simple sinks *)

(** [null_sink]. *)
Definition null_sink_it_ {S} (_ : log_msg) : M S unit := ret tt.
Definition null_flush_ {S} : M S unit := ret tt.

(** [callback_sink]: the callback is a computation on its own state. *)
Definition callback_sink_it_ {S} (callback_ : log_msg -> M S unit) (msg : log_msg) : M S unit := callback_ msg.
Definition callback_flush_ {S} : M S unit := ret tt.

(** [ostream_sink]: what the stream holds and what has been flushed. *)
Record ostream_sink (F : Type) := mkostream { ostream_ : list Z; flushed : list Z; force_flush_ : bool; ostream_formatter_ : F }.
Arguments mkostream {F}.
Arguments ostream_ {F}.
Arguments flushed {F}.
Arguments force_flush_ {F}.
Arguments ostream_formatter_ {F}.
Definition ostream_flush_ {F} : M (ostream_sink F) unit :=
  modify (fun s => mkostream [] (flushed s ++ ostream_ s) (force_flush_ s) (ostream_formatter_ s)).
Definition ostream_sink_it_ {F} (format : F -> log_msg -> outcome (list Z)) (msg : log_msg) : M (ostream_sink F) unit :=
  let! s := get in
  let! formatted := of_outcome (format (ostream_formatter_ s) msg) in
  do! modify (fun s => mkostream (ostream_ s ++ formatted) (flushed s) (force_flush_ s) (ostream_formatter_ s)) in
  if force_flush_ s then ostream_flush_ else ret tt.

Definition null_is_sink F S : Sink F S := {| sink_it := null_sink_it_; flush_it := null_flush_; put_formatter _ s := s |}.
Definition ostream_is_sink F (format : F -> log_msg -> outcome (list Z)) : Sink F (ostream_sink F) := {|
  sink_it := ostream_sink_it_ format;
  flush_it := ostream_flush_;
  put_formatter f s := mkostream (ostream_ s) (flushed s) (force_flush_ s) f |}.

(** ** ansicolor_sink *)

Inductive color_mode := color_always | color_automatic | color_never.

Definition esc (s : string) : list Z := 27 :: chars s.
Definition reset : list Z := esc "[m".
Definition green : list Z := esc "[32m".
Definition cyan : list Z := esc "[36m".
Definition white : list Z := esc "[37m".
Definition yellow_bold : list Z := esc "[33m" ++ esc "[1m".
Definition red_bold : list Z := esc "[31m" ++ esc "[1m".
Definition bold_on_red : list Z := esc "[1m" ++ esc "[41m".

Record ansicolor_sink (F : Type) := mkansi {
  target_file_ : list Z;
  should_do_colors_ : bool;
  ansi_formatter_ : F;
  colors_ : list (list Z) }.
Arguments mkansi {F}.
Arguments target_file_ {F}.
Arguments should_do_colors_ {F}.
Arguments ansi_formatter_ {F}.
Arguments colors_ {F}.

Section ansicolor.
(** The bytes that are written reach the file; [fwrite_bytes] is not asked.
    [format] yields the text and the colour range it leaves in the message;
    [terminal] is [in_terminal(target_file_) && is_color_terminal()]. *)
Context {F : Type} (format : F -> log_msg -> outcome (list Z * Z * Z)) (terminal : bool).

Definition ansi_upd (g : ansicolor_sink F -> ansicolor_sink F) : M (ansicolor_sink F) unit := modify g.
Definition set_color_mode_ (mode : color_mode) : M (ansicolor_sink F) unit :=
  ansi_upd (fun s => mkansi (target_file_ s)
    (match mode with color_always => true | color_automatic => terminal | color_never => false end) (ansi_formatter_ s) (colors_ s)).
Definition set_color_mode := set_color_mode_.
Definition should_color (s : ansicolor_sink F) : bool := should_do_colors_ s.
(** [colors_.at] throws outside the levels. *)
Definition set_color (color_level : Z) (color : list Z) : M (ansicolor_sink F) unit :=
  if (0 <=? color_level) && (color_level <? 7) then
    ansi_upd (fun s => mkansi (target_file_ s) (should_do_colors_ s) (ansi_formatter_ s) (<[Z.to_nat color_level := color]> (colors_ s)))
  else throw (out_of_range "array::at").
Definition ansi_set_formatter (f : F) : M (ansicolor_sink F) unit :=
  ansi_upd (fun s => mkansi (target_file_ s) (should_do_colors_ s) f (colors_ s)).
Definition ansi_set_pattern (make : list Z -> F) (pattern : list Z) : M (ansicolor_sink F) unit := ansi_set_formatter (make pattern).

Definition ansicolor_sink_new (dflt : F) (mode : color_mode) : ansicolor_sink F :=
  snd (set_color_mode_ mode (mkansi [] false dflt [white; cyan; green; yellow_bold; red_bold; bold_on_red; reset])).

Definition print_ccode_ (color_code : list Z) : M (ansicolor_sink F) unit :=
  ansi_upd (fun s => mkansi (target_file_ s ++ color_code) (should_do_colors_ s) (ansi_formatter_ s) (colors_ s)).
(** Outside the text the range is undefined. *)
Definition print_range_ (formatted : list Z) (start end_ : Z) : M (ansicolor_sink F) unit :=
  if (0 <=? start) && (start <=? end_) && (end_ <=? zlen formatted) then print_ccode_ (slice start (end_ - start) formatted) else undef.

(** The colour range starts out empty. *)
Definition clear_range (msg : log_msg) : log_msg :=
  mklog_msg (logger_name msg) (level msg) (time msg) (thread_id msg) 0 0 (source msg) (payload msg).

Definition ansi_log (msg : log_msg) : M (ansicolor_sink F) unit :=
  let! s := get in
  let! '(formatted, color_range_start, color_range_end) := of_outcome (format (ansi_formatter_ s) (clear_range msg)) in
  if should_do_colors_ s && (color_range_start <? color_range_end) then
    do! print_range_ formatted 0 color_range_start in
    match colors_ s !! Z.to_nat (level_int (level msg)) with
    | Some c =>
        do! print_ccode_ c in
        do! print_range_ formatted color_range_start color_range_end in
        do! print_ccode_ reset in
        print_range_ formatted color_range_end (zlen formatted)
    | None => throw (out_of_range "array::at")
    end
  else print_range_ formatted 0 (zlen formatted).
Definition ansi_flush : M (ansicolor_sink F) unit := ret tt.
End ansicolor.

(** A line in colour is the formatted text with the colour of the level at the
    start of its range and the reset code at its end; without colours it is the
    text itself. *)
Lemma ansi_log_exact {F} (format : F -> log_msg -> outcome (list Z * Z * Z)) msg (s : ansicolor_sink F) text a b c :
  format (ansi_formatter_ s) (clear_range msg) = Ok (text, a, b) -> 0 <= a -> b <= zlen text -> colors_ s !! Z.to_nat (level_int (level msg)) = Some c ->
  exists s', ansi_log format msg s = (Ok tt, s') /\ colors_ s' = colors_ s /\
    target_file_ s' = target_file_ s ++
      if should_do_colors_ s && (a <? b) then slice 0 a text ++ c ++ slice a (b - a) text ++ reset ++ slice b (zlen text - b) text else text.
Proof.
  intros Hf Ha Hb Hc. pose proof (zlen_nonneg text). unfold ansi_log. bind_step by reflexivity. bind_step by (rewrite Hf; reflexivity).
  assert (Hr : forall x y (st : ansicolor_sink F), 0 <= x <= y -> y <= zlen text -> print_range_ text x y st = print_ccode_ (slice x (y - x) text) st).
  { intros x y st Hx Hy. unfold print_range_. rewrite !(proj2 (Z.leb_le _ _)) by lia. done. }
  destruct (should_do_colors_ s && (a <? b)) eqn:E.
  - apply andb_prop in E as [_ E]. apply Z.ltb_lt in E. bind_step by (apply Hr; lia). rewrite Hc. bind_step by reflexivity.
    bind_step by (apply Hr; lia). bind_step by reflexivity. rewrite Hr by lia. eexists. split; [reflexivity|]. split; [done|]. simpl.
    by rewrite Z.sub_0_r, <- !app_assoc.
  - rewrite Hr by lia. eexists. split; [reflexivity|]. split; [done|]. simpl. f_equal. unfold slice. rewrite Z.sub_0_r. simpl.
    rewrite drop_0, take_ge; [done|]. unfold zlen. lia.
Qed.

(** ** Runs *)

Module DupDemo.
(** A sink that records what it is sent. *)
#[export] Instance recorder : Sink unit (list log_msg) := {
  sink_it m := modify (fun l => l ++ [m]); flush_it := ret tt; put_formatter _ l := l }.
Definition hello (t : Z) : log_msg := log_msg_new 1 t source_loc_default (chars "logger") info (chars "Hello").
Definition other (t : Z) : log_msg := log_msg_new 1 t source_loc_default (chars "logger") info (chars "Different Hello").
Definition msgs : list log_msg := [hello 10; hello 11; hello 12; other 13].
Definition dist : dup_filter_sink unit := mkdup (mkdist [5] tt) 5000000000 0 [] 0 off.
Definition subs : gmap Z (sink (list log_msg)) := {[5 := sink_new []]}.
End DupDemo.
(** Three times the same message: the comment at the head of the file says that
    "Skipped 3 duplicate messages.." follows; the first one is not skipped. *)
Example doc_example_skips_two :
  match dup_all (H:=DupDemo.recorder) (fun _ => 13) 1 DupDemo.msgs (DupDemo.dist, (DupDemo.subs, O)) with
  | (Ok _, (_, (st, _))) =>
      (map payload ∘ body) <$> (st !! 5) = Some [chars "Hello"; chars "Skipped 2 duplicate messages.."; chars "Different Hello"]
  | _ => False
  end.
Proof. vm_compute. reflexivity. Qed.

Lemma dup_filter_exact_witness :
  exists d' st' r', dup_all (H:=DupDemo.recorder) (fun _ => 13) 1 DupDemo.msgs (DupDemo.dist, (DupDemo.subs, O)) = (Ok tt, (d', (st', r'))) /\
    deliver (H:=DupDemo.recorder) [5] [DupDemo.hello 10; log_msg_new 1 13 source_loc_default (chars "logger") info (skipped_text 2); DupDemo.other 13] DupDemo.subs = (Ok tt, st').
Proof.
  destruct (dup_filter_exact (H:=DupDemo.recorder) (fun _ => 13) 1 DupDemo.msgs DupDemo.dist DupDemo.subs O) as (d' & st' & r' & E & D).
  - split; [|done]. intros id Hid. apply list_elem_of_singleton in Hid as ->. by eexists.
  - repeat constructor; discriminate.
  - simpl. lia.
  - simpl. lia.
  - reflexivity.
  - exists d', st', r'. split; [exact E|exact D].
Defined.
