(* ===== verification/Logger.v ===== *)
(** * Logger (src/common/Logger.hpp)

    The text of the log lines: MDC fields, escaping, the JSON formatter and
    its time stamp, and the decision to log to a file; [LoggerInit] has the
    constructor and the methods.  The fields of an MDC are printed in the
    iteration order of the hash map, which is not specified: the order is an
    argument.  Texts are lists of character codes. *)

From S2P Require Import Prelude Machine SRP6.

Record MDC := mkMDC { data_ : gmap (list Z) (list Z) }.

Definition MDC_new : MDC := mkMDC ∅.
Definition put (key value : list Z) (m : MDC) : MDC := mkMDC (<[key := value]> (data_ m)).
Definition clear (m : MDC) : MDC := mkMDC ∅.
Definition data (m : MDC) : gmap (list Z) (list Z) := data_ m.

Definition quote : Z := 34.
Definition backslash : Z := 92.

Definition escape (s : list Z) : list Z :=
  foldl (fun out c =>
    if c =? quote then out ++ [backslash; quote]
    else if c =? backslash then out ++ [backslash; backslash]
    else out ++ [c]) [] s.

(** The loop over the fields, with its flag [first]. *)
Definition mdc_to_json (entries : list (list Z * list Z)) : list Z :=
  let oss := chars "{" in
  let '(oss, _) := foldl (fun '(oss, first) '(k, v) =>
      let oss := if negb first then oss ++ chars "," else oss in
      (oss ++ [quote] ++ escape k ++ [quote] ++ chars ":" ++ [quote] ++ escape v ++ [quote], false))
    (oss, true) entries in
  oss ++ chars "}".

Definition format_with_mdc (message : list Z) (entries : list (list Z * list Z)) : list Z :=
  [quote] ++ chars "message" ++ [quote] ++ chars ":" ++ [quote] ++ escape message ++ [quote] ++ chars "," ++
  [quote] ++ chars "mdc" ++ [quote] ++ chars ":" ++ mdc_to_json entries.

(** The payload [log_json] hands to spdlog, for the formatted message. *)
Definition log_json (message : list Z) : list Z :=
  [quote] ++ chars "message" ++ [quote] ++ chars ":" ++ [quote] ++ escape message ++ [quote].

(** [{:03}] of a nonnegative number. *)
Definition put_03 (n : Z) : list Z :=
  let digits := chars (pretty n) in replicate (3 - length digits) 48 ++ digits.

(** [JsonFormatter::format]: [time] is the system clock in nanoseconds,
    [strftime] the local time of a second (it depends on the time zone). *)
Definition format (strftime : Z -> list Z) (time : Z) (level : list Z) (thread_id : Z) (payload : list Z)
  : list Z :=
  let s := Z.quot time 1000000000 in
  let ms := Z.quot time 1000000 - s * 1000 in
  let ns := time - Z.quot time 1000000 * 1000000 in
  chars "{" ++ [quote] ++ chars "timestamp" ++ [quote] ++ chars ":" ++ [quote] ++
  strftime s ++ chars "." ++ put_03 ms ++ put_03 ns ++ [quote] ++ chars "," ++
  [quote] ++ chars "level" ++ [quote] ++ chars ":" ++ [quote] ++ level ++ [quote] ++ chars "," ++
  [quote] ++ chars "thread_id" ++ [quote] ++ chars ":" ++ chars (pretty thread_id) ++ chars "," ++
  payload ++ chars " }" ++ [10].

(** The constructor's test of the variable [LOG_FILE]. *)
Definition enable_file_log (env_log_file : option (list Z)) : bool :=
  match env_log_file with
  | None => false
  | Some val =>
      let val := map tolower val in
      bool_decide (val = chars "true") || bool_decide (val = chars "1") || bool_decide (val = chars "yes")
  end.

(** ** JSON, as its grammar has it *)

(** The rest of a string after its opening quote: its value and what follows
    the closing quote.  Of the escapes only the two the logger writes are
    needed; a control character is not allowed in a string. *)
Fixpoint json_string (l : list Z) : option (list Z * list Z) :=
  match l with
  | [] => None
  | c :: l =>
      if c =? quote then Some ([], l)
      else if c =? backslash then
        match l with
        | e :: l =>
            if (e =? quote) || (e =? backslash)
            then match json_string l with Some (s, rest) => Some (e :: s, rest) | None => None end
            else None
        | [] => None
        end
      else if c <? 32 then None
      else match json_string l with Some (s, rest) => Some (c :: s, rest) | None => None end
  end.

(** A given text, then the rest. *)
Fixpoint literal (t l : list Z) : option (list Z) :=
  match t, l with
  | [], _ => Some l
  | x :: t, y :: l => if x =? y then literal t l else None
  | _ :: _, [] => None
  end.

(** A quoted string. *)
Definition json_text (l : list Z) : option (list Z * list Z) :=
  l ← literal [quote] l; json_string l.

(** The members of an object after its opening brace, up to the closing one;
    the fuel bounds the number of members. *)
Fixpoint json_members (fuel : nat) (l : list Z) : option (list (list Z * list Z) * list Z) :=
  match fuel with
  | O => None
  | S fuel =>
      '(k, l) ← json_text l;
      l ← literal (chars ":") l;
      '(v, l) ← json_text l;
      match l with
      | 44 :: l => '(kvs, l) ← json_members fuel l; Some ((k, v) :: kvs, l)
      | 125 :: l => Some ([(k, v)], l)
      | _ => None
      end
  end.

Definition json_object (fuel : nat) (l : list Z) : option (list (list Z * list Z) * list Z) :=
  l ← literal (chars "{") l;
  match l with
  | 125 :: l => Some ([], l)
  | _ => json_members fuel l
  end.

(** The message and the fields of a log payload. *)
Definition json_log (fuel : nat) (l : list Z) : option (list Z * list (list Z * list Z)) :=
  l ← literal ([quote] ++ chars "message" ++ [quote] ++ chars ":") l;
  '(message, l) ← json_text l;
  l ← literal (chars "," ++ [quote] ++ chars "mdc" ++ [quote] ++ chars ":") l;
  '(entries, l) ← json_object fuel l;
  match l with [] => Some (message, entries) | _ => None end.

(** ** Lemmas *)

Definition printable (s : list Z) : Prop := Forall (fun c => 32 <= c) s.

Definition escape_char (c : Z) : list Z :=
  if c =? quote then [backslash; quote] else if c =? backslash then [backslash; backslash] else [c].

Lemma escape_map s : escape s = concat (map escape_char s).
Proof.
  unfold escape. enough (forall out, foldl (fun out c =>
    if c =? quote then out ++ [backslash; quote]
    else if c =? backslash then out ++ [backslash; backslash] else out ++ [c]) out s
    = out ++ concat (map escape_char s)) as H by (apply (H [])).
  induction s as [|c s IH]; intros out; simpl; [by rewrite app_nil_r|]. rewrite IH. unfold escape_char.
  by destruct (c =? quote), (c =? backslash); rewrite <- app_assoc.
Qed.

Lemma json_string_escape s rest :
  printable s -> json_string (escape s ++ quote :: rest) = Some (s, rest).
Proof.
  rewrite escape_map. induction s as [|c s IH]; intros Hp; simpl; [done|].
  apply Forall_cons in Hp as [Hc Hp]. rewrite <- app_assoc. unfold escape_char at 1.
  destruct (Z.eqb_spec c quote) as [->|Hq]; [simpl; by rewrite IH|].
  destruct (Z.eqb_spec c backslash) as [->|Hb]; [simpl; by rewrite IH|]. cbn [app json_string].
  rewrite (proj2 (Z.eqb_neq _ _) Hq), (proj2 (Z.eqb_neq _ _) Hb), (proj2 (Z.ltb_ge _ _) Hc).
  by rewrite IH.
Qed.

(** A control character makes the text unreadable. *)
Lemma json_string_control s rest :
  ~ printable s -> Forall (fun c => 0 <= c) s -> json_string (escape s ++ quote :: rest) = None.
Proof.
  rewrite escape_map. induction s as [|c s IH]; intros Hp H0; simpl; [by destruct Hp; constructor|].
  apply Forall_cons in H0 as [Hc H0]. rewrite <- app_assoc. unfold escape_char at 1.
  assert (32 <= c -> json_string (concat (map escape_char s) ++ quote :: rest) = None) as Hn.
  { intros. apply IH; [|done]. intros Hs. apply Hp. by constructor. }
  destruct (Z.eqb_spec c quote) as [->|Hq]; [simpl; by rewrite Hn by (unfold quote; lia)|].
  destruct (Z.eqb_spec c backslash) as [->|Hb]; [simpl; by rewrite Hn by (unfold backslash; lia)|]. cbn [app json_string].
  rewrite (proj2 (Z.eqb_neq _ _) Hq), (proj2 (Z.eqb_neq _ _) Hb).
  destruct (Z.ltb_spec c 32); [done|]. by rewrite Hn.
Qed.

Lemma literal_app t l : literal t (t ++ l) = Some l.
Proof. induction t as [|x t IH]; simpl; [done|]. by rewrite Z.eqb_refl. Qed.

Lemma json_text_escape s rest :
  printable s -> json_text ([quote] ++ escape s ++ [quote] ++ rest) = Some (s, rest).
Proof. intros Hp. unfold json_text. rewrite literal_app. simpl. by apply json_string_escape. Qed.

(** One field, and the rest of the fields, each behind a comma. *)
Definition json_field (e : list Z * list Z) : list Z :=
  [quote] ++ escape e.1 ++ [quote] ++ chars ":" ++ [quote] ++ escape e.2 ++ [quote].

Lemma mdc_to_json_fields entries :
  mdc_to_json entries =
    match entries with
    | [] => chars "{}"
    | e :: entries => chars "{" ++ json_field e ++ concat (map (fun e => chars "," ++ json_field e) entries) ++ chars "}"
    end.
Proof.
  unfold mdc_to_json. destruct entries as [|[k v] entries]; [done|]. cbn [foldl negb].
  set (F := fun '(oss, first) '(k, v) => _).
  assert (forall oss, foldl F (oss, false) entries
    = (oss ++ concat (map (fun e => chars "," ++ json_field e) entries), false)) as ->.
  { induction entries as [|[k' v'] es IH]; intros oss; [by rewrite app_nil_r|].
    cbn [foldl F negb map concat]. rewrite IH. unfold json_field. cbn [fst snd]. by rewrite <- !app_assoc. }
  unfold json_field. cbn [fst snd]. by rewrite <- !app_assoc.
Qed.

Definition field_printable (e : list Z * list Z) : Prop := printable e.1 /\ printable e.2.

Lemma json_members_fields e entries fuel rest :
  field_printable e -> Forall field_printable entries -> (length entries < fuel)%nat ->
  json_members fuel (json_field e ++ concat (map (fun e => chars "," ++ json_field e) entries) ++ chars "}" ++ rest)
    = Some (e :: entries, rest).
Proof.
  revert e fuel. induction entries as [|e' es IH]; intros [k v] [|fuel] [Hk Hv] Hes Hf; simpl in Hf; try lia.
  all: cbn [json_members]; unfold json_field at 1; cbn [fst snd] in *; rewrite <- !app_assoc.
  all: rewrite json_text_escape by done; cbn [mbind option_bind]; rewrite literal_app; cbn [mbind option_bind].
  all: rewrite json_text_escape by done; cbn [mbind option_bind].
  - done.
  - apply Forall_cons in Hes as [He Hes]. cbn [map concat]. rewrite <- !app_assoc.
    change (chars "," ++ ?l) with (44 :: l). cbv iota. rewrite IH by (done || lia). done.
Qed.

Lemma json_object_fields entries fuel rest :
  Forall field_printable entries -> (length entries <= fuel)%nat ->
  json_object fuel (mdc_to_json entries ++ rest) = Some (entries, rest).
Proof.
  intros Hp Hf. rewrite mdc_to_json_fields. unfold json_object. destruct entries as [|e es]; [done|].
  rewrite <- !app_assoc, literal_app. cbn [mbind option_bind]. apply Forall_cons in Hp as [He Hes].
  pose proof (json_members_fields e es fuel rest He Hes Hf) as H.
  exact H.
Qed.

(** The formatter prints milliseconds and nanoseconds side by side with three
    digits each: 5 ms and 42 ns print as the fraction 005042. *)
Example format_fraction_misprinted :
  format (fun _ => []) 5000042 [] 0 [] =
    chars "{" ++ [quote] ++ chars "timestamp" ++ [quote] ++ chars ":" ++ [quote] ++ chars ".005042" ++ [quote] ++
    chars "," ++ [quote] ++ chars "level" ++ [quote] ++ chars ":" ++ [quote; quote] ++ chars "," ++
    [quote] ++ chars "thread_id" ++ [quote] ++ chars ":0, }" ++ [10].
Proof. vm_compute. reflexivity. Qed.

(** ** Properties *)

(** C38: log lines with fields are JSON that says what was logged: for every
    message and MDC without control characters, in whatever order the hash map
    is walked, a JSON reader gets the message and exactly the fields of the
    MDC back, quotes and backslashes included; a message with a control
    character (a line break, say) gives a line that is not JSON, because
    [escape] leaves it as it is. *)
Theorem logger_roundtrip (message : list Z) (m : MDC) (entries : list (list Z * list Z)) :
  entries ≡ₚ map_to_list (data m) -> Forall field_printable entries -> Forall (fun c => 0 <= c) message ->
  json_log (length entries) (format_with_mdc message entries) =
    (if decide (printable message) then Some (message, entries) else None) /\
  list_to_map entries = data m.
Proof.
  intros Hperm Hp H0. split.
  - unfold json_log, format_with_mdc. rewrite !(app_assoc _ _ ([quote] ++ escape message ++ _)), <- !app_assoc.
    change ([quote] ++ chars "message" ++ [quote] ++ chars ":" ++ ?l)
      with (([quote] ++ chars "message" ++ [quote] ++ chars ":") ++ l).
    rewrite literal_app. cbn [mbind option_bind]. destruct (decide (printable message)) as [Hm|Hm].
    + rewrite json_text_escape by done. cbn [mbind option_bind].
      change (chars "," ++ [quote] ++ chars "mdc" ++ [quote] ++ chars ":" ++ ?l)
        with ((chars "," ++ [quote] ++ chars "mdc" ++ [quote] ++ chars ":") ++ l).
      rewrite literal_app. cbn [mbind option_bind]. rewrite <- (app_nil_r (mdc_to_json entries)).
      by rewrite json_object_fields.
    + unfold json_text. rewrite literal_app. cbn [mbind option_bind app].
      by rewrite json_string_control.
  - rewrite <- (list_to_map_to_list (data m)). apply list_to_map_proper; [|done].
    rewrite Hperm. apply NoDup_fst_map_to_list.
Qed.

Lemma logger_roundtrip_witness :
  json_log 1 (format_with_mdc [34; 92] [([97], [98; 34])]) = Some ([34; 92], [([97], [98; 34])]).
Proof.
  destruct (logger_roundtrip [34; 92] (put [97] [98; 34] MDC_new) [([97], [98; 34])]) as [H _].
  - reflexivity.
  - repeat constructor; simpl; lia.
  - repeat constructor; lia.
  - rewrite decide_True in H; [exact H|]. repeat constructor; lia.
Defined.
