(* ===== verification/LoggerInit.v ===== *)
(** * Logger: construction and methods (src/common/Logger.hpp)

    The program's use of spdlog: [Logger()] builds a console sink, with the
    variable [LOG_FILE] also the rotating file [logs/server.log], and an
    asynchronous logger over them; the public methods turn a message into a JSON
    fragment and log it.  Objects behind shared pointers have numbers: [console]
    and [file] for the sinks, [self] for the logger.  The file sink owns the file
    system of its log files from its construction on. *)

From S2P Require Import Prelude Machine CircularQ MpmcQueue SpdCommon SpdLogger ThreadPool FileHelper RotatingFile Registry Sinks Logger.

(** The formatters in use: the one sinks are created with, and [JsonFormatter]. *)
Inductive formatter := PatternFormatter | JsonFormatter.

(** [JsonFormatter::clone] (the other class' [clone] also copies). *)
Definition clone_formatter (f : formatter) : formatter := f.

(** The two kinds of sinks of the program. *)
Inductive program_sink := Console (s : stdout_sink formatter) | LogFile (s : rsink formatter).

(** The registry with loggers and sinks, the disk before the file sink takes it
    over, the policy of every asynchronous logger, and text on [std::cerr]. *)
Record program := mkprogram {
  rst : rstate formatter program_sink;
  disk : fs;
  policies : gmap Z async_overflow_policy;
  cerr : list Z }.

Section Logger.
(** [pattern_format] stands for the pattern formatter, [local_time] for
    [localtime_r] with [strftime]; the others are faults of the console and of
    the file system. *)
Context (pattern_format : log_msg -> outcome (list Z)) (local_time : Z -> list Z).
Context (console_fault file_fault : nat -> option Z) (errno_text : list Z).

Definition json_line (m : log_msg) : list Z :=
  Logger.format local_time (time m) (to_string_view (level m)) (thread_id m) (payload m).

Definition render (f : formatter) (m : log_msg) : outcome (list Z) :=
  match f with PatternFormatter => pattern_format m | JsonFormatter => Ok (json_line m) end.

(** Calls of virtual methods. *)
Definition program_sink_it (msg : log_msg) : M program_sink unit := fun b =>
  match b with
  | Console s => let '(o, s) := stdout_log render console_fault msg s in (o, Console s)
  | LogFile s => let '(o, s) := rotating_sink_it_ render file_fault errno_text msg s in (o, LogFile s)
  end.
Definition program_flush_it : M program_sink unit := fun b =>
  match b with
  | Console s => let '(o, s) := stdout_flush s in (o, Console s)
  | LogFile s => let '(o, s) := rotating_flush_ file_fault errno_text s in (o, LogFile s)
  end.
Definition program_put_formatter (f : formatter) (b : program_sink) : program_sink :=
  match b with
  | Console s => Console (stdout_set_formatter f s)
  | LogFile s => LogFile (set_rotating_formatter f (fst s), snd s)
  end.

#[export] Instance program_is_sink : Sink formatter program_sink := {
  sink_it := program_sink_it;
  flush_it := program_flush_it;
  put_formatter := program_put_formatter }.

(** ** Construction *)

Definition on_rst {A} (m : M (rstate formatter program_sink) A) : M program A :=
  zoom rst (fun r p => mkprogram r (disk p) (policies p) (cerr p)) m.
Definition on_disk {A} (m : M fs A) : M program A :=
  zoom disk (fun f p => mkprogram (rst p) f (policies p) (cerr p)) m.

(** [std::make_shared] of a sink and of an asynchronous logger. *)
Definition make_sink (id : Z) (b : program_sink) : M program unit :=
  on_rst (modify (fun s => mkrstate (reg s) (heap s) (set_sinks_at (<[id := sink_new b]> (sinks_at (shared s))) (shared s)))).
Definition make_logger (id : Z) (l : async_logger) : M program unit :=
  do! on_rst (modify (fun s => mkrstate (reg s) (<[id := as_logger l]> (heap s)) (shared s))) in
  modify (fun p => mkprogram (rst p) (disk p) (<[id := overflow_policy_ l]> (policies p)) (cerr p)).

(** A call through the pointer to a sink. *)
Definition on_sink (id : Z) (m : M (sink program_sink) unit) : M program unit :=
  on_rst (fun s =>
    match sinks_at (shared s) !! id with
    | Some b =>
        let '(o, b) := m b in
        (o, mkrstate (reg s) (heap s) (set_sinks_at (<[id := b]> (sinks_at (shared s))) (shared s)))
    | None => (Undef, s)
    end).

(** [set_level] and [set_formatter] after the construction of each sink. *)
Definition configure_sink (id : Z) : M program unit :=
  do! on_sink id (modify (SpdCommon.set_level debug)) in
  on_sink id (SpdCommon.set_formatter JsonFormatter).

Definition no_handlers : file_event_handlers := mkhandlers false false false false.
Definition log_path : list Z := chars "logs/server.log".
Definition log_max_size : Z := 1024 * 1024 * 5.
Definition log_max_files : Z := 3.

Definition make_file_sink (file : Z) : M program unit :=
  let! r := on_disk (rotating_file_sink_new file_fault errno_text PatternFormatter log_path log_max_size log_max_files false no_handlers) in
  let! f := gets disk in
  make_sink file (LogFile (r, f)).

Definition init_thread_pool : M program unit := on_rst (Registry.init_thread_pool 8192 1).
Definition shutdown : M program unit := on_rst Registry.shutdown.

(** The [try] block of the constructor. *)
Definition Logger_body (env_log_file : option (list Z)) (console file self : Z) : M program unit :=
  do! make_sink console (Console (stdout_sink_new PatternFormatter)) in
  do! configure_sink console in
  let! sinks :=
    (if enable_file_log env_log_file then
       do! make_file_sink file in
       do! configure_sink file in
       ret [console; file]
     else ret [console]) in
  do! make_logger self (async_logger_new (chars "async_logger") sinks block) in
  do! on_rst (upd_logger self (SpdLogger.set_level debug)) in
  do! on_rst (register_logger self) in
  on_rst (set_default_logger (Some self)).

(** [Logger()]: an [spdlog_ex] is reported and thrown again. *)
Definition Logger_new (env_log_file : option (list Z)) (console file self : Z) : M program unit :=
  try_catch (Logger_body env_log_file console file self)
    (fun e =>
       match e with
       | spdlog_ex _ =>
           do! modify (fun p => mkprogram (rst p) (disk p) (policies p)
             (cerr p ++ chars "Logger init failed: " ++ c_str (what e) ++ [10])) in throw e
       | _ => throw e
       end).

(** ** Methods *)

Section methods.
Context (clock : nat -> Z) (tid : Z) (strftime : Z -> list Z).

(** The [async_logger] behind [logger_]. *)
Definition self_vtable (self : Z) : vtable program_sink := async_vtable clock strftime self block.

Section calls.
Context (vt : vtable program_sink).
Local Notation act := (M (env program_sink) unit).

(** The entries of an MDC are given in the order of the hash map. *)
Definition trace_with_mdc (message : list Z) (entries : list (list Z * list Z)) : act :=
  log_trace clock tid strftime vt (Ok (format_with_mdc message entries)).
Definition debug_with_mdc (message : list Z) (entries : list (list Z * list Z)) : act :=
  log_debug clock tid strftime vt (Ok (format_with_mdc message entries)).
Definition info_with_mdc (message : list Z) (entries : list (list Z * list Z)) : act :=
  log_info clock tid strftime vt (Ok (format_with_mdc message entries)).
Definition warn_with_mdc (message : list Z) (entries : list (list Z * list Z)) : act :=
  log_warn clock tid strftime vt (Ok (format_with_mdc message entries)).
Definition error_with_mdc (message : list Z) (entries : list (list Z * list Z)) : act :=
  log_error clock tid strftime vt (Ok (format_with_mdc message entries)).
Definition critical_with_mdc (message : list Z) (entries : list (list Z * list Z)) : act :=
  log_critical clock tid strftime vt (Ok (format_with_mdc message entries)).

(** [log_json]: [formatted] is the outcome of [fmt::format]. *)
Definition log_json_at (lvl : level_enum) (formatted : outcome (list Z)) : act :=
  let! message := of_outcome formatted in
  log_format clock tid strftime vt lvl (Ok (Logger.log_json message)).

Definition trace (formatted : outcome (list Z)) : act := log_json_at SpdCommon.trace formatted.
Definition debug (formatted : outcome (list Z)) : act := log_json_at SpdCommon.debug formatted.
Definition info (formatted : outcome (list Z)) : act := log_json_at SpdCommon.info formatted.
Definition warn (formatted : outcome (list Z)) : act := log_json_at SpdCommon.warn formatted.
Definition error (formatted : outcome (list Z)) : act := log_json_at SpdCommon.err formatted.
Definition critical (formatted : outcome (list Z)) : act := log_json_at SpdCommon.critical formatted.
End calls.
End methods.

(** The pool and its clients once the logger is up: [k] client threads. *)
Definition running (self : Z) (k : nat) (p : program) : option (sys program_sink) :=
  '(q, n) ← tp_ (reg (rst p));
  l ← heap (rst p) !! self;
  policy ← policies p !! self;
  Some (mksys q (replicate n Idle) {[ self := mkasync_logger l policy ]} (set_pool_alive true (shared (rst p)))
    (replicate k []) None [] [] []).

(** ** The constructor succeeds *)

(** The numbers are new, the name is free. *)
Definition unused (console file self : Z) (p : program) : Prop :=
  file <> console /\ sinks_at (shared (rst p)) !! console = None /\ sinks_at (shared (rst p)) !! file = None /\
  heap (rst p) !! self = None /\ loggers_ (reg (rst p)) !! chars "async_logger" = None.

(** The log files can be created. *)
Definition disk_ready (f : fs) : Prop :=
  zlen (content log_path f) < 2 ^ 63 /\ parent_creatable log_path f /\
  forall i, (i <= 3)%nat -> file_name (calc_filename log_path i) (set_dirs (with_parent log_path f) f).

(** The sinks of the logger. *)
Definition sinks_of (env : option (list Z)) (console file : Z) : list Z :=
  if enable_file_log env then [console; file] else [console].

Definition program_logger (sinks : list Z) : logger := SpdLogger.set_level SpdCommon.debug (logger_new (chars "async_logger") sinks).

(** The log files as the constructor finds them; it creates the base file. *)
Definition found_files (f : fs) : list (option (list Z)) :=
  files_view log_path (Z.to_nat log_max_files) (<[log_path := content log_path f]> (files f)).

(** A file sink of the program, with what its files hold. *)
Definition file_sink_holds (v : list (option (list Z))) (b : sink program_sink) : Prop :=
  exists s, b = mksink SpdCommon.debug (LogFile s) /\ healthy s /\ log_files s = v /\ RotatingFile.formatter_ (fst s) = JsonFormatter /\
    max_size_ (fst s) = log_max_size.

(** The sinks that a state has. *)
Record sinks_ready (env : option (list Z)) (console file : Z) (v : list (option (list Z))) (m : gmap Z (sink program_sink)) : Prop := {
  sr_console : m !! console = Some (mksink SpdCommon.debug (Console (mkstdout [] JsonFormatter 0)));
  sr_file : enable_file_log env = true -> exists b, m !! file = Some b /\ file_sink_holds v b }.

Context (Hff : forall n, file_fault n = None).

(** The program with other sinks. *)
Definition with_sinks (m : gmap Z (sink program_sink)) (p : program) : program :=
  mkprogram (mkrstate (reg (rst p)) (heap (rst p)) (set_sinks_at m (shared (rst p)))) (disk p) (policies p) (cerr p).

Lemma configure_sink_ok id b p :
  sinks_at (shared (rst p)) !! id = Some (sink_new b) ->
  configure_sink id p =
    (Ok tt, with_sinks (<[id := mksink SpdCommon.debug (program_put_formatter JsonFormatter b)]> (sinks_at (shared (rst p)))) p).
Proof.
  intros E. unfold configure_sink, on_sink, on_rst, bind, zoom. rewrite E. simpl. rewrite lookup_insert_eq. simpl.
  by rewrite insert_insert_eq.
Qed.

Lemma make_file_sink_ok file p :
  disk_ready (disk p) ->
  exists s p', make_file_sink file p = (Ok tt, p') /\
    rst p' = mkrstate (reg (rst p)) (heap (rst p))
      (set_sinks_at (<[file := sink_new (LogFile s)]> (sinks_at (shared (rst p)))) (shared (rst p))) /\
    policies p' = policies p /\ healthy s /\ log_files s = found_files (disk p) /\ max_size_ (fst s) = log_max_size.
Proof.
  intros (Hz & Hp & Hn).
  destruct (rotating_file_sink_new_ok file_fault errno_text Hff PatternFormatter log_path log_max_size log_max_files no_handlers (disk p))
    as (r & f & E & Hh & Ht & _ & Hm); [unfold log_max_size; lia|unfold log_max_files, MaxFiles; lia|done|done|exact Hn|].
  exists (r, f). eexists. split; [|split_and!; [| |exact Hh|exact Ht|exact Hm]].
  - unfold make_file_sink, on_disk, zoom, bind. rewrite E. reflexivity.
  - done.
  - done.
Qed.

Lemma make_logger_ok sinks self p :
  loggers_ (reg (rst p)) !! chars "async_logger" = None ->
  exists p', (do! make_logger self (async_logger_new (chars "async_logger") sinks block) in
      do! on_rst (upd_logger self (SpdLogger.set_level SpdCommon.debug)) in
      do! on_rst (register_logger self) in on_rst (set_default_logger (Some self))) p = (Ok tt, p') /\
    tp_ (reg (rst p')) = tp_ (reg (rst p)) /\ heap (rst p') !! self = Some (program_logger sinks) /\
    policies p' !! self = Some block /\ default_logger_ (reg (rst p')) = Some self /\
    loggers_ (reg (rst p')) !! chars "async_logger" = Some self /\ shared (rst p') = shared (rst p).
Proof.
  intros Hn. unfold make_logger, on_rst, bind, zoom, upd_logger, register_logger, register_logger_, throw_if_exists_, set_default_logger, deref,
    bind, modify, upd_reg, modify, get, ret. simpl. rewrite !lookup_insert_eq. simpl. rewrite !lookup_insert_eq. simpl.
  rewrite Hn. rewrite bool_decide_false by (by intros [? ?]). simpl. rewrite !lookup_insert_eq. simpl.
  eexists. split; [reflexivity|]. simpl. by rewrite !lookup_insert_eq.
Qed.

Lemma Logger_new_ok env console file self p :
  unused console file self p -> (enable_file_log env = true -> disk_ready (disk p)) ->
  exists p', (do! init_thread_pool in Logger_new env console file self) p = (Ok tt, p') /\
    tp_ (reg (rst p')) = Some (mpmc_new async_msg_default 8192, 1%nat) /\
    heap (rst p') !! self = Some (program_logger (sinks_of env console file)) /\ policies p' !! self = Some block /\
    default_logger_ (reg (rst p')) = Some self /\ loggers_ (reg (rst p')) !! chars "async_logger" = Some self /\
    sinks_ready env console file (found_files (disk p)) (sinks_at (shared (rst p'))).
Proof.
  intros (Hne & Hc & Hf & Hh & Hn) Hd. bind_step by reflexivity.
  set (p1 := mkprogram _ (disk p) _ _). assert (H1 : reg (rst p1) = set_tp_ (Some (mpmc_new async_msg_default 8192, 1%nat)) (reg (rst p)) /\
    heap (rst p1) = heap (rst p) /\ shared (rst p1) = shared (rst p) /\ disk p1 = disk p) by done.
  clearbody p1. destruct H1 as (R1 & H1 & S1 & D1). unfold Logger_new.
  enough (exists p', Logger_body env console file self p1 = (Ok tt, p') /\
    tp_ (reg (rst p')) = Some (mpmc_new async_msg_default 8192, 1%nat) /\
    heap (rst p') !! self = Some (program_logger (sinks_of env console file)) /\ policies p' !! self = Some block /\
    default_logger_ (reg (rst p')) = Some self /\ loggers_ (reg (rst p')) !! chars "async_logger" = Some self /\
    sinks_ready env console file (found_files (disk p)) (sinks_at (shared (rst p')))) as (p' & E & P).
  { exists p'. split; [by rewrite (try_catch_ok _ _ _ _ _ E)|exact P]. }
  unfold Logger_body. bind_step by reflexivity.
  set (p2 := mkprogram _ (disk p1) _ _).
  bind_step by (apply (configure_sink_ok console (Console (stdout_sink_new PatternFormatter))), lookup_insert_eq).
  set (p3 := with_sinks _ p2).
  assert (E3 : sinks_at (shared (rst p3)) = <[console := mksink SpdCommon.debug (Console (mkstdout [] JsonFormatter 0))]> (sinks_at (shared (rst p)))).
  { simpl. by rewrite insert_insert_eq, S1. }
  assert (R3 : reg (rst p3) = reg (rst p1) /\ disk p3 = disk p1) by done.
  clearbody p3. clear p2. destruct R3 as [R3 D3]. unfold sinks_of. destruct (enable_file_log env) eqn:Ee.
  - destruct (make_file_sink_ok file p3) as (s & p4 & E4 & R4 & P4 & Hs & Ht & Hm); [rewrite D3, D1; by apply Hd|].
    assert (S4 : sinks_at (shared (rst p4)) = <[file := sink_new (LogFile s)]> (sinks_at (shared (rst p3)))) by (by rewrite R4).
    erewrite bind_ok.
    2:{ bind_step by exact E4. bind_step by (apply (configure_sink_ok file (LogFile s)); rewrite S4; apply lookup_insert_eq). reflexivity. }
    set (p5 := with_sinks _ p4). assert (Hn5 : loggers_ (reg (rst p5)) !! chars "async_logger" = None).
    { simpl. rewrite R4. simpl. rewrite R3, R1. exact Hn. }
    destruct (make_logger_ok [console; file] self p5 Hn5) as (p' & E & T & A & B & C & G & Sh).
    exists p'. split; [exact E|]. split_and!; try done.
    + rewrite T. simpl. rewrite R4. simpl. by rewrite R3, R1.
    + rewrite Sh. simpl. split.
      * rewrite S4. rewrite !lookup_insert_ne by done. by rewrite E3, lookup_insert_eq.
      * intros _. eexists. split; [apply lookup_insert_eq|]. exists (set_rotating_formatter JsonFormatter (fst s), snd s).
        split; [done|]. split; [|split; [transitivity (log_files s); [done|by rewrite Ht, D3, D1]|done]].
        destruct Hs. by split.
  - bind_step by reflexivity. destruct (make_logger_ok [console] self p3) as (p' & E & T & A & B & C & G & Sh).
    { rewrite R3, R1. exact Hn. }
    exists p'. split; [exact E|]. split_and!; try done.
    + by rewrite T, R3, R1.
    + rewrite Sh. split; [by rewrite E3, lookup_insert_eq|by rewrite Ee].
Qed.

(** ** What the sinks receive *)

Context (Hcf : forall n, console_fault n = None).
Context (Hpf : forall m, pattern_format m <> Undef).

(** A formatter never fails to be defined, so the sinks keep their promise. *)
Lemma render_defined f m : render f m <> Undef.
Proof. by destruct f. Qed.

#[local] Instance program_sink_safe : SinkSafe formatter program_sink (fun _ => True).
Proof.
  pose proof (stdout_safe render console_fault render_defined) as [Hs _].
  pose proof (rotating_safe render file_fault errno_text render_defined) as [Hr Hg].
  split; intros; (split; [|done]); destruct s as [s|s]; simpl; try done.
  - destruct (Hs msg s I) as [H' _]. simpl in H'. by destruct (stdout_log render console_fault msg s).
  - destruct (Hr msg s I) as [H' _]. simpl in H'. by destruct (rotating_sink_it_ render file_fault errno_text msg s).
  - destruct (Hg s I) as [H' _]. simpl in H'. by destruct (rotating_flush_ file_fault errno_text s).
Qed.

(** The messages that reach the sinks. *)
Definition logged_msg (m : async_msg) : option log_msg :=
  let msg := as_log_msg (msg_buffer m) in
  if bool_decide (msg_type m = async_log) && level_ge (level msg) SpdCommon.debug then Some msg else None.
Definition logged (ms : list async_msg) : list log_msg := omap logged_msg ms.
Definition line_list (ms : list async_msg) : list (list Z) := map json_line (logged ms).
Definition lines (ms : list async_msg) : list Z := concat (line_list ms).

Lemma line_list_app ms1 ms2 : line_list (ms1 ++ ms2) = line_list ms1 ++ line_list ms2.
Proof. unfold line_list, logged. by rewrite omap_app, map_app. Qed.

Section effects.
Context (self : Z) (ids : list Z).
Local Notation ls := ({[ self := mkasync_logger (program_logger ids) block ]} : gmap Z async_logger).

(** The logger never flushes by itself: its flush level is [off]. *)
Lemma program_never_flushes msg : should_flush_ msg (program_logger ids) = false.
Proof. unfold should_flush_. simpl. by destruct (level msg). Qed.

Lemma logger_of_self m g : logger_of ls m = Some g -> g = program_logger ids.
Proof.
  unfold logger_of. destruct (worker_ptr m) as [a|]; simpl; [|done].
  destruct (decide (a = self)) as [->|]; [rewrite lookup_singleton_eq|by rewrite lookup_singleton_ne]. simpl. by intros [= <-].
Qed.

(** A message of a client, or one of the destructor. *)
Definition from_pool (m : async_msg) : Prop := proper ls m \/ msg_type m = async_terminate.

(** The three kinds of messages. *)
Lemma effect_on_cases id b m :
  id ∈ ids -> from_pool m ->
  effect_on ls id b m =
    match msg_type m with
    | async_log => delivered (as_log_msg (msg_buffer m)) false b
    | async_flush => snd (SpdCommon.flush b)
    | async_terminate => b
    end.
Proof.
  intros Hi Hm. unfold effect_on. destruct (logger_of ls m) as [g|] eqn:E.
  - rewrite (logger_of_self _ _ E), bool_decide_true by exact Hi. destruct (msg_type m); [|done..].
    by rewrite program_never_flushes.
  - destruct Hm as [(_ & [g Hg] & _)| ->]; [congruence|done].
Qed.

Definition console_holds (written : list (list Z)) (b : sink program_sink) : Prop :=
  exists c, b = mksink SpdCommon.debug (Console c) /\ file_ c = concat written /\ std_formatter_ c = JsonFormatter.

Lemma console_effect id b written m :
  id ∈ ids -> from_pool m -> console_holds written b -> console_holds (written ++ line_list [m]) (effect_on ls id b m).
Proof.
  intros Hi Hm (c & -> & Hw & Hj). rewrite effect_on_cases by done. unfold console_holds, line_list, logged. rewrite concat_app, <- Hw. simpl. unfold logged_msg.
  destruct (msg_type m); simpl.
  - unfold delivered, should_log. simpl. destruct (level_ge _ SpdCommon.debug) eqn:El; simpl.
    + unfold SpdCommon.log, on_body, zoom. simpl. unfold stdout_log, bind, gets, of_outcome. rewrite Hj. simpl.
      eexists. split; [reflexivity|]. simpl. rewrite Hcf, app_nil_r. done.
    + exists c. by rewrite app_nil_r.
  - exists c. by rewrite app_nil_r.
  - exists c. by rewrite app_nil_r.
Qed.

(** The file sink has logged the lines to the files it found. *)
Definition file_logged (v : list (option (list Z))) (written : list (list Z)) : sink program_sink -> Prop :=
  file_sink_holds (fold_left (log_to log_max_size) written v).

Lemma file_effect id v b written m :
  id ∈ ids -> from_pool m -> zlen (json_line (as_log_msg (msg_buffer m))) < 2 ^ 63 ->
  file_logged v written b -> file_logged v (written ++ line_list [m]) (effect_on ls id b m).
Proof.
  intros Hi Hm Hz Hb. pose proof Hb as (s & -> & Hh & Ht & Hj & Hmax). rewrite effect_on_cases by done. unfold line_list, logged. simpl. unfold logged_msg.
  destruct (msg_type m); simpl; rewrite ?app_nil_r.
  - unfold delivered, should_log. simpl. destruct (level_ge _ SpdCommon.debug) eqn:El; simpl; [|by rewrite app_nil_r].
    destruct (sink_it_step render file_fault errno_text Hff (as_log_msg (msg_buffer m)) (json_line (as_log_msg (msg_buffer m))) s Hh)
      as (s' & E & Hh' & L & K); [by rewrite Hj|done|].
    unfold SpdCommon.log, on_body, zoom. simpl. rewrite E. simpl. exists s'. destruct K as (-> & -> & _).
    rewrite L, Ht, Hmax, fold_left_app. done.
  - destruct (flush_step file_fault errno_text Hff s Hh) as (s' & E & Hh' & L & _ & K & _).
    unfold SpdCommon.flush, on_body, zoom. simpl. unfold rotating_flush_. rewrite E. simpl. exists s'. destruct K as (-> & -> & _).
    split_and!; try done. congruence.
  - done.
Qed.

(** A property of a sink that every message extends holds after all of them. *)
Lemma fold_effect (P : list (list Z) -> sink program_sink -> Prop) (ok : async_msg -> Prop) id :
  (forall b written m, ok m -> P written b -> P (written ++ line_list [m]) (effect_on ls id b m)) ->
  forall ms written b, Forall ok ms -> P written b -> P (written ++ line_list ms) (foldl (effect_on ls id) b ms).
Proof.
  intros Hstep ms. induction ms as [|m ms IH]; intros written b Hok Hb; [by rewrite app_nil_r|].
  apply Forall_cons in Hok as [Hm Hok]. simpl. change (m :: ms) with ([m] ++ ms). rewrite line_list_app, app_assoc. apply IH; [done|]. by apply Hstep.
Qed.
End effects.

Section pool.
Context (clock : nat -> Z) (tid : nat -> Z) (strftime : Z -> list Z) (moved_buffer : log_msg_buffer -> log_msg_buffer).
Context (env : option (list Z)) (console file self : Z) (v : list (option (list Z))) (w0 : world program_sink).
Context (Hne : file <> console) (Hr : sinks_ready env console file v (sinks_at w0)).
Local Notation ids := (sinks_of env console file).
Local Notation ls := ({[ self := mkasync_logger (program_logger ids) block ]} : gmap Z async_logger).
Local Notation inv := (pool_inv (F:=formatter) (fun _ => True) ls w0 1 8192).

Lemma program_loggers_good : loggers_good (fun _ => True) ls w0.
Proof.
  intros a l Hl. apply lookup_singleton_Some in Hl as [<- <-]. destruct Hr as [Hc Hf]. unfold sinks_of in *.
  destruct (enable_file_log env); split_and!; simpl; try done.
  - apply NoDup_cons. split; [set_solver|]. apply NoDup_singleton.
  - intros id Hid. apply elem_of_cons in Hid as [->|Hid]; [by eexists|]. apply list_elem_of_singleton in Hid as ->.
    destruct (Hf eq_refl) as (b & ? & _). by exists b.
  - apply NoDup_singleton.
  - intros id Hid. apply list_elem_of_singleton in Hid as ->. by eexists.
Qed.

Lemma program_reachable k s :
  rtc (step (F:=formatter) clock tid strftime moved_buffer) (start 8192 1 k ls w0) s -> inv s.
Proof.
  apply pool_reachable_inv; [exact program_sink_safe|lia|exact program_loggers_good|].
  intros a l Hl. by apply lookup_singleton_Some in Hl as [<- <-].
Qed.

Lemma processed_from_pool s : inv s -> Forall (from_pool self ids) (processed s).
Proof.
  intros Hi. apply Forall_forall. intros m Hm. destruct (posted_wf (F:=formatter) (fun _ => True) ls w0 1 8192 s m Hi) as [? _]; [|done].
  rewrite <- (pi_fifo _ _ _ _ _ _ Hi), (pi_one _ _ _ _ _ _ Hi eq_refl). set_solver.
Qed.

Lemma program_sinks s :
  inv s -> Forall (fun m => zlen (json_line (as_log_msg (msg_buffer m))) < 2 ^ 63) (processed s) ->
  (exists b, sinks_at (wld s) !! console = Some b /\ console_holds (line_list (processed s)) b) /\
  (enable_file_log env = true ->
     exists b, sinks_at (wld s) !! file = Some b /\ file_logged v (line_list (processed s)) b).
Proof.
  intros Hi Hz. pose proof (processed_from_pool s Hi) as Hp. destruct Hr as [Hc Hf]. split.
  - rewrite (pi_sinks _ _ _ _ _ _ Hi), Hc. eexists. split; [reflexivity|].
    apply (fold_effect self ids console_holds (from_pool self ids) console) with (written := []); [|done|by eexists].
    intros b t m. apply console_effect. unfold sinks_of. destruct (enable_file_log env); set_solver.
  - intros He. destruct (Hf He) as (b & Eb & Hb). rewrite (pi_sinks _ _ _ _ _ _ Hi), Eb. eexists. split; [reflexivity|].
    apply (fold_effect self ids (file_logged v) (fun m => from_pool self ids m /\ zlen (json_line (as_log_msg (msg_buffer m))) < 2 ^ 63) file) with (written := []).
    + intros b' t m [? ?]. apply file_effect; [|done|done]. unfold sinks_of. rewrite He. set_solver.
    + by apply Forall_and.
    + exact Hb.
Qed.

(** Once the pool has shut down everything posted has been processed. *)
Lemma program_finished s : inv s -> finished s -> processed s = posted s.
Proof.
  intros Hi [Hc Hs]. destruct (stopped_all _ Hs) as [Hn Hfl].
  destruct (nothing_left (F:=formatter) (fun _ => True) ls w0 1 8192 s Hi) as [Hq _]; [lia|done|].
  by rewrite <- (pi_fifo _ _ _ _ _ _ Hi), (pi_one _ _ _ _ _ _ Hi eq_refl), Hq, Hfl, !app_nil_r.
Qed.
End pool.
End Logger.

(** ** The program's log *)

(** ** The methods *)

Section posting.
Context (clock : nat -> Z) (tid : Z) (strftime : Z -> list Z) (self : Z) (ids : list Z).

(** What a call at a level puts into the pool's queue. *)
Definition method_posts (lvl : level_enum) (payload : list Z) (w : world program_sink)
  : list (async_msg * async_overflow_policy) :=
  if level_ge lvl SpdCommon.debug && pool_alive w
  then [post_log self (log_msg_new tid (clock (readings w)) source_loc_default (chars "async_logger") lvl payload) block]
  else [].

Lemma log_format_posts lvl payload w :
  exists w', log_format clock tid strftime (self_vtable clock strftime self) lvl (Ok payload) (program_logger ids, w)
      = (Ok tt, (program_logger ids, w')) /\ sinks_at w' = sinks_at w /\ posts w' = posts w ++ method_posts lvl payload w.
Proof.
  unfold log_format, log_, method_posts. bind_step by reflexivity. cbn [fst].
  change (logger_should_log lvl (program_logger ids)) with (level_ge lvl SpdCommon.debug).
  destruct (level_ge lvl SpdCommon.debug); simpl; [|exists w; by rewrite app_nil_r].
  unfold try_catch, of_outcome, on_world, now, zoom, bind; simpl. unfold log_it_, bind.
  unfold self_vtable, async_vtable. cbn [v_sink_it_]. set (g := program_logger ids).
  match goal with |- context [async_sink_it_ _ _ _ _ ?m _] =>
    destruct (async_sink_it_run clock strftime self block m g (set_readings (S (readings w)) w)) as (w' & E & Es & Ep)
  end.
  match type of E with ?l = _ => match goal with |- context [async_sink_it_ ?c ?s ?i ?p ?m ?e] =>
    change (async_sink_it_ c s i p m e) with l end end.
  rewrite E. exists w'. split_and!; [done|by rewrite Es|by rewrite Ep].
Qed.
End posting.

(** The methods of [Logger] hand every message of level debug or above to the
    pool, as one message with the level, the logger's name and the JSON payload
    and with the policy [block]; messages of level trace, and messages after the
    pool is gone, are not posted; nothing is thrown and the sinks are not
    touched by the caller.  A format that throws is not caught. *)
Theorem logger_methods_post clock tid strftime self ids (message : list Z) (entries : list (list Z * list Z)) (w : world program_sink) :
  let vt := self_vtable clock strftime self in
  let g := program_logger ids in
  let posts_only (m : M (env program_sink) unit) lvl payload :=
    exists w', m (g, w) = (Ok tt, (g, w')) /\ sinks_at w' = sinks_at w /\
      posts w' = posts w ++ method_posts clock tid self lvl payload w in
  (forall f lvl, (f, lvl) ∈ [(trace, SpdCommon.trace); (debug, SpdCommon.debug); (info, SpdCommon.info); (warn, SpdCommon.warn);
       (error, SpdCommon.err); (critical, SpdCommon.critical)] ->
     posts_only (f clock tid strftime vt (Ok message)) lvl (Logger.log_json message) /\
     forall e, f clock tid strftime vt (Throw e) (g, w) = (Throw e, (g, w))) /\
  (forall f lvl, (f, lvl) ∈ [(trace_with_mdc, SpdCommon.trace); (debug_with_mdc, SpdCommon.debug); (info_with_mdc, SpdCommon.info);
       (warn_with_mdc, SpdCommon.warn); (error_with_mdc, SpdCommon.err); (critical_with_mdc, SpdCommon.critical)] ->
     posts_only (f clock tid strftime vt message entries) lvl (format_with_mdc message entries)) /\
  method_posts clock tid self SpdCommon.trace (Logger.log_json message) w = [].
Proof.
  cbv zeta. split_and!; [| |done].
  - intros f lvl Hin. assert (f = fun c t s v m => log_json_at c t s v lvl m) as ->.
    { repeat (apply elem_of_cons in Hin as [Hin|Hin]; [by injection Hin as -> ->|]). by apply elem_of_nil in Hin. }
    split; [|done]. unfold log_json_at. unfold bind at 1, of_outcome. apply log_format_posts.
  - intros f lvl Hin. assert (f = fun c t s v m e => log_format c t s v lvl (Ok (format_with_mdc m e))) as ->.
    { repeat (apply elem_of_cons in Hin as [Hin|Hin]; [by injection Hin as -> ->|]). by apply elem_of_nil in Hin. }
    apply log_format_posts.
Qed.

(** C11: as long as writing to console and files does not fail, the program's log is complete and in order.  [init_thread_pool] and the
    constructor succeed when the log files can be created, and from then on,
    however clients, the worker and the destructor of the pool interleave: what
    has been written to the console is the JSON line of every processed message
    of level debug or above, in order; with [LOG_FILE] set, the four log files hold
    exactly what logging the same lines one by one to the files found at the start gives, with
    a rotation before a line that would take the base file past 5 MiB and at no
    other time; the messages posted are those processed, being processed and waiting, in order;
    and when the pool has shut down all of them have been processed. *)
Theorem program_log_complete (pattern_format : log_msg -> outcome (list Z)) local_time console_fault file_fault errno_text clock tid strftime moved_buffer
    (env : option (list Z)) (console file self : Z) (p : program) :
  (forall n, console_fault n = None) -> (forall n, file_fault n = None) -> (forall m, pattern_format m <> Undef) ->
  unused console file self p -> (enable_file_log env = true -> disk_ready (disk p)) ->
  exists p', (do! init_thread_pool in
      Logger_new pattern_format local_time console_fault file_fault errno_text env console file self) p = (Ok tt, p') /\
  forall k, exists s0, running self k p' = Some s0 /\
  forall s, rtc (@step formatter program_sink (program_is_sink pattern_format local_time console_fault file_fault errno_text)
        clock tid strftime moved_buffer) s0 s ->
    Forall (fun m => zlen (json_line local_time (as_log_msg (msg_buffer m))) < 2 ^ 63) (processed s) ->
    (exists c, sinks_at (wld s) !! console = Some (mksink SpdCommon.debug (Console c)) /\ file_ c = lines local_time (processed s)) /\
    (enable_file_log env = true -> exists r, sinks_at (wld s) !! file = Some (mksink SpdCommon.debug (LogFile r)) /\
       log_files r = fold_left (log_to log_max_size) (line_list local_time (processed s)) (found_files (disk p))) /\
    posted s = processed s ++ flying (workers s) ++ stored (pool_q s) /\
    (finished s -> processed s = posted s).
Proof.
  intros Hcf Hff Hpf Hu Hd. pose proof (proj1 Hu) as Hne.
  destruct (Logger_new_ok pattern_format local_time console_fault file_fault errno_text Hff env console file self p Hu Hd)
    as (p' & E & T & A & B & _ & _ & Hr).
  exists p'. split; [exact E|]. intros k. unfold running. rewrite T, A, B. simpl. eexists. split; [reflexivity|]. intros s Hs Hz.
  assert (Hi := program_reachable pattern_format local_time console_fault file_fault errno_text Hff Hcf Hpf clock tid strftime moved_buffer
    env console file self _ _ Hne Hr k s Hs).
  destruct (program_sinks pattern_format local_time console_fault file_fault errno_text Hff Hcf Hpf strftime env console file self _ _ Hne Hr s Hi Hz)
    as [(b & Eb & c & -> & Hc & _) Hfile].
  split_and!.
  - by exists c.
  - intros He. destruct (Hfile He) as (b & E1 & r & -> & _ & E3 & _). by exists r.
  - rewrite <- (pi_fifo _ _ _ _ _ _ Hi), (pi_one _ _ _ _ _ _ Hi eq_refl). by rewrite app_assoc.
  - by eapply program_finished.
Qed.

(** A run: the first start with [LOG_FILE=true] on an empty disk; one client
    logs a message and flushes. *)
Module LogDemo.
Definition no_fault (_ : nat) : option Z := None.
Definition pattern (_ : log_msg) : outcome (list Z) := Ok [].
Definition stamp (_ : Z) : list Z := chars "2025-01-01T00:00:00".
Definition p0 : program :=
  mkprogram (registry_new PatternFormatter 0 0 (mkworld ∅ 0 0 [] [] 0 false [])) (mkfs ∅ ∅ 0 []) ∅ [].

Lemma p0_ready : unused 1 2 3 p0 /\ disk_ready (disk p0).
Proof.
  split; [by split_and!|]. split_and!; [reflexivity|right; split; reflexivity|].
  intros i Hi. assert (i = 0%nat \/ i = 1%nat \/ i = 2%nat \/ i = 3%nat) as [->|[->|[->| ->]]] by lia;
    (split_and!; [done| |reflexivity]; apply (bool_decide_unpack _); vm_compute; exact I).
Qed.
End LogDemo.

Lemma program_log_complete_witness :
  exists p', (do! init_thread_pool in
      Logger_new LogDemo.pattern LogDemo.stamp LogDemo.no_fault LogDemo.no_fault [] (Some (chars "TRUE")) 1 2 3) LogDemo.p0 = (Ok tt, p') /\
  forall k, exists s0, running 3 k p' = Some s0 /\ forall s,
    rtc (@step formatter program_sink (program_is_sink LogDemo.pattern LogDemo.stamp LogDemo.no_fault LogDemo.no_fault [])
      (fun _ => 0) (fun _ => 1) (fun _ => []) id) s0 s ->
    Forall (fun m => zlen (json_line LogDemo.stamp (as_log_msg (msg_buffer m))) < 2 ^ 63) (processed s) ->
    exists r, sinks_at (wld s) !! 2 = Some (mksink SpdCommon.debug (LogFile r)) /\
      log_files r = fold_left (log_to log_max_size) (line_list LogDemo.stamp (processed s)) [Some []; None; None; None].
Proof.
  destruct (program_log_complete LogDemo.pattern LogDemo.stamp LogDemo.no_fault LogDemo.no_fault [] (fun _ => 0) (fun _ => 1)
    (fun _ => []) id (Some (chars "TRUE")) 1 2 3 LogDemo.p0) as (p' & E & H).
  - done.
  - done.
  - done.
  - apply LogDemo.p0_ready.
  - intros _. apply LogDemo.p0_ready.
  - exists p'. split; [exact E|]. intros k. destruct (H k) as (s0 & E0 & Hs). exists s0. split; [exact E0|].
    intros s Hr Hz. destruct (Hs s Hr Hz) as (_ & Hf & _). destruct (Hf eq_refl) as (r & E1 & E2).
    exists r. split; [exact E1|]. rewrite E2.
    assert (found_files (disk LogDemo.p0) = [Some []; None; None; None]) as -> by (vm_compute; reflexivity). reflexivity.
Defined.
