(* ===== verification/PacketLog.v ===== *)
(** * Packet: the dump of a payload (src/common/packet/Packet.hpp)

    [Packet::log_raw_payload], which formats a payload with fmt and logs it with
    [Logger]. *)

From S2P Require Import Prelude Machine FmtInt FmtParse FmtFormat SpdCommon SpdLogger ThreadPool Logger LoggerInit.

Section dump.
Context {T : Locale}.
Context (clock : nat -> Z) (tid : Z) (strftime : Z -> list Z) (vt : vtable program_sink).

(** The bytes in hexadecimal, one [format_to] each. *)
Fixpoint hex_dump_loop (payload done : list Z) : outcome (list Z) :=
  match payload with
  | [] => Ok done
  | b :: payload =>
      match FmtFormat.format [IntArg false 32 b] (chars "{:02X} ") with
      | Ok text => hex_dump_loop payload (done ++ text)
      | Throw e => Throw e
      | Undef => Undef
      end
  end.

Definition log_message (prefix opcode payload hex_dump : list Z) : outcome (list Z) :=
  FmtFormat.format [StrArg prefix; StrArg opcode; IntArg false 64 (zlen payload); StrArg hex_dump]
    (chars "{} opcode ID: {} ({} bytes) RAW: {}").

Definition log_raw_payload (opcode payload prefix : list Z) : M (env program_sink) unit :=
  let! hex_dump := of_outcome (hex_dump_loop payload []) in
  let! message := of_outcome (log_message prefix opcode payload hex_dump) in
  debug_with_mdc clock tid strftime vt message (map_to_list (data (put (chars "opcode") opcode MDC_new))).

(** ** What is logged *)

Definition upper_digit (d : Z) : Z := if d <? 10 then 48 + d else 55 + d.
Definition dump_byte (b : Z) : list Z := [upper_digit (b / 16); upper_digit (b mod 16); 32].

Lemma format_byte b : 0 <= b < 256 -> FmtFormat.format [IntArg false 32 b] (chars "{:02X} ") = Ok (dump_byte b).
Proof.
  intros Hb. set (f b := bool_decide (FmtFormat.format [IntArg false 32 b] (chars "{:02X} ") = Ok (dump_byte b))).
  assert (f b = true) as H by (apply (check_all f 256); [vm_compute; reflexivity|lia]). by apply bool_decide_eq_true in H.
Qed.

Lemma hex_dump_ok payload done :
  Forall (fun b => 0 <= b < 256) payload -> hex_dump_loop payload done = Ok (done ++ concat (map dump_byte payload)).
Proof.
  intros Hp. revert done. induction Hp as [|b payload Hb _ IH]; intros done; cbn [hex_dump_loop map concat]; [by rewrite app_nil_r|].
  rewrite format_byte by done. rewrite IH. by rewrite <- app_assoc.
Qed.

(** The text of the line. *)
Definition dump_text (prefix opcode payload : list Z) : list Z :=
  prefix ++ chars " opcode ID: " ++ opcode ++ chars " (" ++ decimal (zlen payload) ++ chars " bytes) RAW: " ++
  concat (map dump_byte payload).
End dump.

(** Every field takes the next argument. *)
Lemma log_message_ok {T : Locale} prefix opcode payload dump :
  zlen payload < 2 ^ 64 ->
  log_message prefix opcode payload dump =
    Ok (prefix ++ chars " opcode ID: " ++ opcode ++ chars " (" ++ decimal (zlen payload) ++ chars " bytes) RAW: " ++ dump).
Proof.
  intros Hs. pose proof (zlen_nonneg payload). unfold log_message.
  change (chars "{} opcode ID: {} ({} bytes) RAW: {}") with
    (print_pieces [Field; Text (chars " opcode ID: "); Field; Text (chars " ("); Field; Text (chars " bytes) RAW: "); Field]).
  rewrite (format_pieces _ [prefix; opcode; decimal (zlen payload); dump]).
  - cbn [fill_in fmap option_fmap option_map]. by rewrite app_nil_r.
  - repeat constructor. apply write_default_int. split; [by right|lia].
Qed.

(** The dump of a packet is exact: for every payload [log_raw_payload] posts
    one message of level debug whose text is the prefix, the opcode, the size
    and every byte as two upper-case hexadecimal digits and a space, with the
    opcode as its only field; formatting never throws. *)
Theorem raw_payload_logged {T : Locale} clock tid strftime self ids opcode payload prefix (w : world program_sink) :
  Forall (fun b => 0 <= b < 256) payload -> zlen payload < 2 ^ 64 ->
  exists w', log_raw_payload clock tid strftime (self_vtable clock strftime self) opcode payload prefix (program_logger ids, w) =
      (Ok tt, (program_logger ids, w')) /\
    sinks_at w' = sinks_at w /\
    posts w' = posts w ++ method_posts clock tid self SpdCommon.debug
      (format_with_mdc (dump_text prefix opcode payload) [(chars "opcode", opcode)]) w.
Proof.
  intros Hp Hs. unfold log_raw_payload. unfold bind at 1, of_outcome. rewrite hex_dump_ok by done. unfold bind at 1, of_outcome.
  rewrite log_message_ok by done. cbn [app]. fold (dump_text prefix opcode payload).
  unfold data, put, MDC_new. cbn [data_]. rewrite insert_empty, map_to_list_singleton. apply log_format_posts.
Qed.

(** ** Example *)

#[local] Instance classic_locale : Locale := { write_loc _ _ _ _ := None }.

Lemma raw_payload_logged_witness :
  dump_text (chars "[Packet] DUMP") (chars "1") [0; 171] = chars "[Packet] DUMP opcode ID: 1 (2 bytes) RAW: 00 AB " /\
  exists w', log_raw_payload (fun _ => 0) 1 (fun _ => []) (self_vtable (fun _ => 0) (fun _ => []) 3) (chars "1") [0; 171] (chars "[Packet] DUMP")
      (program_logger [1], mkworld ∅ 0 0 [] [] 0 true []) = (Ok tt, (program_logger [1], w')) /\ length (posts w') = 1%nat.
Proof.
  split; [vm_compute; reflexivity|].
  destruct (raw_payload_logged (fun _ => 0) 1 (fun _ => []) 3 [1] (chars "1") [0; 171] (chars "[Packet] DUMP") (mkworld ∅ 0 0 [] [] 0 true []))
    as (w' & E & _ & P).
  - repeat constructor; lia.
  - reflexivity.
  - exists w'. split; [exact E|]. rewrite P. reflexivity.
Defined.
