(* ===== verification/LogCalls.v ===== *)
(** * The log calls of the program

    Every call of a method of [Logger] in the sources of server and client: the
    level, the format string and the types of its arguments.  A call formats its
    arguments with fmt and hands the text to the logger, which posts it to the
    pool of the asynchronous logger. *)

From S2P Require Import Prelude Machine FmtInt FmtUtf8 FmtParse FmtFormat FmtCheck SpdCommon SpdLogger ThreadPool Logger LoggerInit.

(** ** Calls *)

Record log_call := mkcall { call_level : level_enum; call_format : string; call_types : list Z }.

(** Server.cpp. *)
Definition accept_failed : log_call := mkcall SpdCommon.err "[Server] Accept failed: {}" [string_type].
Definition client_connected : log_call := mkcall SpdCommon.info "[Server] New client connected." [].
Definition cancel_acceptor_failed : log_call := mkcall SpdCommon.err "[Server] Failed to cancel acceptor: {}" [string_type].
Definition close_acceptor_failed : log_call := mkcall SpdCommon.err "[Server] Failed to close acceptor: {}" [string_type].
Definition active_sessions : log_call := mkcall SpdCommon.info "[Server] Active sessions: {}" [ulong_long_type].

(** HandlersAuth.cpp. *)
Definition auth_unknown_opcode : log_call := mkcall SpdCommon.warn "[HandlersAuth] Unknown opcode: {}" [uint_type].
Definition auth_ping : log_call := mkcall SpdCommon.debug "[HandlersAuth] CMSG_PING" [].
Definition challenge_internal : log_call := mkcall SpdCommon.err "[HandlersAuth] CMSG_AUTH_LOGON_CHALLENGE - Internal error: {}" [cstring_type].
Definition challenge_invalid_name : log_call := mkcall SpdCommon.err "[HandlersAuth] CMSG_AUTH_LOGON_CHALLENGE - Invalid UTF-8 username received: {}" [string_type].
Definition challenge_cached : log_call := mkcall SpdCommon.debug "[HandlersAuth] CMSG_AUTH_LOGON_CHALLENGE CACHED ENTRY used for '{}': B.size={}, g={}, N.size={}, salt.size={}" [string_type; ulong_long_type; uint_type; ulong_long_type; ulong_long_type].
Definition user_not_found : log_call := mkcall SpdCommon.err "[HandlersAuth] User '{}' not found" [string_type].
Definition user_invalid : log_call := mkcall SpdCommon.err "[HandlersAuth] User '{}' has invalid salt/verifier length" [string_type].
Definition challenge_sent : log_call := mkcall SpdCommon.debug "[HandlersAuth] CMSG_AUTH_LOGON_CHALLENGE: B.size={}, g={}, N.size={}, salt.size={}" [ulong_long_type; uint_type; ulong_long_type; ulong_long_type].
Definition challenge_failed : log_call := mkcall SpdCommon.err "[HandlersAuth] CMSG_AUTH_LOGON_CHALLENGE: {}" [cstring_type].
Definition proof_rejected : log_call := mkcall SpdCommon.warn "[HandlersAuth] CMSG_AUTH_LOGON_PROOF: SRP6 M1 verification failed" [].
Definition proof_accepted : log_call := mkcall SpdCommon.debug "[HandlersAuth] CMSG_AUTH_LOGON_PROOF: SRP6 OK — Sent SMSG_AUTH_LOGON_PROOF" [].
Definition proof_failed : log_call := mkcall SpdCommon.err "[HandlersAuth] CMSG_AUTH_LOGON_PROOF exception: {}" [cstring_type].

(** ReaderAuthSession.cpp. *)
Definition auth_payload_too_big : log_call := mkcall SpdCommon.err "AuthPacket payload too big: {}" [uint_type].
Definition auth_processing_failed : log_call := mkcall SpdCommon.err "[ReaderAuthSession] AuthPacket processing failed: {}" [cstring_type].

(** AccountInfo.cpp. *)
Definition account_authorized : log_call := mkcall SpdCommon.info "Account {} was successfully authorized" [string_type].
Definition account_closed : log_call := mkcall SpdCommon.info "Account {} was successfully closed connection" [string_type].

(** HandlersWork.cpp. *)
Definition work_unknown_opcode : log_call := mkcall SpdCommon.warn "[HandlersWork] Unknown opcode: {}" [uint_type].
Definition work_ping : log_call := mkcall SpdCommon.trace "[HandlersWork] CMSG_PING" [].
Definition work_message : log_call := mkcall SpdCommon.info "[HandlersWork] CMSG_MESSAGE: {}" [string_type].

(** ReaderWorkSession.cpp. *)
Definition work_payload_too_big : log_call := mkcall SpdCommon.err "AuthPacket payload too big: {}" [uint_type].
Definition work_processing_failed : log_call := mkcall SpdCommon.err "[ReaderAuthSession] AuthPacket processing failed: {}" [cstring_type].

(** ClientSession.cpp. *)
Definition session_started : log_call := mkcall SpdCommon.debug "[client_session][start] New connection from {}:{}" [string_type; uint_type].
Definition cancel_socket_failed : log_call := mkcall SpdCommon.err "[client_session][close] Failed to cancel socket: {}" [string_type].
Definition shutdown_socket_failed : log_call := mkcall SpdCommon.err "[client_session][close] Failed to shutdown socket: {}" [string_type].
Definition close_socket_failed : log_call := mkcall SpdCommon.err "[client_session][close] Failed to close socket: {}" [string_type].
Definition socket_closed : log_call := mkcall SpdCommon.debug "[client_session][close] Socket closed. closed_={}" [bool_type].
Definition client_disconnected : log_call := mkcall SpdCommon.debug "[client_session][do_read] Client disconnected: {}" [string_type].
Definition read_error : log_call := mkcall SpdCommon.err "[client_session][do_read] Read error: {}" [string_type].
Definition unknown_mode : log_call := mkcall SpdCommon.err "[client_session][process_read_buffer] Unknown session mode!" [].
Definition send_packet_called : log_call := mkcall SpdCommon.debug "[client_session][send_packet] called. closed_={}" [bool_type].
Definition session_write_failed : log_call := mkcall SpdCommon.err "[client_session] Write failed: {}" [string_type].

(** Database.hpp. *)
Definition connection_established : log_call := mkcall SpdCommon.info "[Database] Connection {} established" [ulong_long_type].
Definition connection_closed : log_call := mkcall SpdCommon.info "[Database] Connection closed." [].
Definition connection_broken : log_call := mkcall SpdCommon.err "[Database] Connection broken. Attempting to reconnect." [].
Definition connection_was_closed : log_call := mkcall SpdCommon.warn "[Database] Connection was closed. Reconnecting." [].
Definition connection_reestablished : log_call := mkcall SpdCommon.info "[Database] Connection re-established." [].

(** ByteBuffer.hpp. *)
Definition read_overflow : log_call := mkcall SpdCommon.err "{}" [string_type].

(** Client.cpp. *)
Definition connected_to_server : log_call := mkcall SpdCommon.info "[Client] Connected to server" [].
Definition connection_failed : log_call := mkcall SpdCommon.err "[Client] Connection failed: {}" [string_type].
Definition disconnected : log_call := mkcall SpdCommon.info "[Client] Disconnected from server" [].
Definition reconnecting : log_call := mkcall SpdCommon.info "[Client] Attempting reconnect..." [].
Definition sent_ping : log_call := mkcall SpdCommon.trace "[Client] Sent CMSG_PING" [].
Definition sent_challenge : log_call := mkcall SpdCommon.debug "[AuthPacket] Sent CMSG_AUTH_LOGON_CHALLENGE for user: {}" [string_type].
Definition queuing_packet : log_call := mkcall SpdCommon.info "[Client] Not connected. Queuing packet." [].
Definition client_write_failed : log_call := mkcall SpdCommon.err "[Client] Write failed: {}" [string_type].
Definition auth_header_disconnected : log_call := mkcall SpdCommon.info "[Client] Disconnected while reading auth header" [].
Definition auth_header_failed : log_call := mkcall SpdCommon.err "[Client] Auth header read failed: {}" [string_type].
Definition auth_payload_too_large : log_call := mkcall SpdCommon.err "[Client] Auth payload too large: {}" [uint_type].
Definition work_header_failed : log_call := mkcall SpdCommon.err "[Client] Work header read failed: {}" [string_type].
Definition work_payload_too_large : log_call := mkcall SpdCommon.err "[Client] Work payload too large: {}" [uint_type].
Definition payload_disconnected : log_call := mkcall SpdCommon.info "[Client] Disconnected while reading payload" [].
Definition payload_failed : log_call := mkcall SpdCommon.err "[Client] Payload read failed: {}" [string_type].
Definition parse_failed : log_call := mkcall SpdCommon.err "[Client] Failed to parse packet: {}" [cstring_type].
Definition parse_empty_failed : log_call := mkcall SpdCommon.err "[Client] Failed to parse empty packet: {}" [cstring_type].
Definition auth_pong : log_call := mkcall SpdCommon.debug "[AuthPacket] Received SMSG_PONG" [].
Definition challenge_received : log_call := mkcall SpdCommon.debug "[AuthPacket] SMSG_AUTH_LOGON_CHALLENGE: received B.size={} g={} N.size={} salt.size={}" [ulong_long_type; uint_type; ulong_long_type; ulong_long_type].
Definition sent_proof : log_call := mkcall SpdCommon.debug "[AuthPacket] SMSG_AUTH_LOGON_CHALLENGE: sent CMSG_AUTH_LOGON_PROOF: A={} M1={}" [ulong_long_type; ulong_long_type].
Definition client_challenge_failed : log_call := mkcall SpdCommon.err "[AuthPacket] SMSG_AUTH_LOGON_CHALLENGE failed: {}" [cstring_type].
Definition server_proof_invalid : log_call := mkcall SpdCommon.err "[AuthPacket] SMSG_AUTH_LOGON_PROOF: SRP Server proof M2 invalid — disconnect" [].
Definition server_proof_verified : log_call := mkcall SpdCommon.debug "[AuthPacket] SMSG_AUTH_LOGON_PROOF: SRP Server proof M2 verified — authentication successful" [].
Definition auth_response : log_call := mkcall SpdCommon.debug "[AuthPacket] SMSG_AUTH_RESPONSE: authcode={} errorcode={}" [uint_type; uint_type].
Definition unknown_auth_opcode : log_call := mkcall SpdCommon.warn "[AuthPacket] Unknown AuthOpcode: {}" [uint_type].
Definition work_pong : log_call := mkcall SpdCommon.trace "[WorkPacket] Received SMSG_PONG" [].
Definition message_received : log_call := mkcall SpdCommon.debug "[WorkPacket] Received SMSG_MESSAGE: {}" [string_type].
Definition unknown_work_opcode : log_call := mkcall SpdCommon.warn "[WorkPacket] Unknown WorkOpcode: {}" [uint_type].

(** main_client.cpp. *)
Definition start_auth : log_call := mkcall SpdCommon.info "start auth account" [].
Definition caught_signal : log_call := mkcall SpdCommon.info "[Main] Caught signal. Disconnecting ..." [].
Definition exiting : log_call := mkcall SpdCommon.info "[Main] Exiting." [].

(** main_server.cpp. *)
Definition running_on_port : log_call := mkcall SpdCommon.info "[Server] Running on port {}" [int_type].
Definition signal_received : log_call := mkcall SpdCommon.info "[Server] Signal {} received, shutting down..." [int_type].
Definition shut_down : log_call := mkcall SpdCommon.info "[Server] Gracefully shut down." [].
Definition server_exception : log_call := mkcall SpdCommon.err "[Server] Exception: {}" [cstring_type].

Definition program_calls : list log_call :=
  [accept_failed; client_connected; cancel_acceptor_failed; close_acceptor_failed; active_sessions; auth_unknown_opcode; auth_ping;
   challenge_internal; challenge_invalid_name; challenge_cached; user_not_found; user_invalid; challenge_sent; challenge_failed;
   proof_rejected; proof_accepted; proof_failed; auth_payload_too_big; auth_processing_failed; account_authorized; account_closed;
   work_unknown_opcode; work_ping; work_message; work_payload_too_big; work_processing_failed; session_started; cancel_socket_failed;
   shutdown_socket_failed; close_socket_failed; socket_closed; client_disconnected; read_error; unknown_mode; send_packet_called;
   session_write_failed; connection_established; connection_closed; connection_broken; connection_was_closed; connection_reestablished; read_overflow;
   connected_to_server; connection_failed; disconnected; reconnecting; sent_ping; sent_challenge; queuing_packet;
   client_write_failed; auth_header_disconnected; auth_header_failed; auth_payload_too_large; work_header_failed; work_payload_too_large; payload_disconnected;
   payload_failed; parse_failed; parse_empty_failed; auth_pong; challenge_received; sent_proof; client_challenge_failed;
   server_proof_invalid; server_proof_verified; auth_response; unknown_auth_opcode; work_pong; message_received; unknown_work_opcode;
   start_auth; caught_signal; exiting; running_on_port; signal_received; shut_down; server_exception].

(** A call of the method with its arguments. *)
Definition run_call {T : Locale} clock tid strftime vt (c : log_call) (args : list fmt_arg) : M (env program_sink) unit :=
  log_json_at clock tid strftime vt (call_level c) (FmtFormat.format args (chars (call_format c))).

(** ** What the calls log *)

(** The pieces of a string whose fields are all empty. *)
Fixpoint to_pieces (text l : list Z) : list piece :=
  match l with
  | [] => [Text text]
  | c :: l' =>
      match l' with
      | d :: l'' => if (c =? 123) && (d =? 125) then Text text :: Field :: to_pieces [] l'' else to_pieces (text ++ [c]) l'
      | [] => [Text (text ++ [c])]
      end
  end.
Definition call_pieces (c : log_call) : list piece := to_pieces [] (chars (call_format c)).
Fixpoint field_count (ps : list piece) : nat :=
  match ps with [] => O | Field :: ps => S (field_count ps) | Text _ :: ps => field_count ps end.

(** The string is its pieces, has a field for every argument, and compiles. *)
Definition call_ok (c : log_call) : bool :=
  bool_decide (print_pieces (call_pieces c) = chars (call_format c)) &&
  bool_decide (field_count (call_pieces c) = length (call_types c)) &&
  match fstring (call_types c) (chars (call_format c)) with Ok _ => true | _ => false end.

Lemma program_calls_ok : forallb call_ok program_calls = true.
Proof. vm_compute. reflexivity. Qed.

(** The default text of an argument; a null C string has none. *)
Definition arg_text (a : fmt_arg) : list Z :=
  match a with
  | IntArg _ _ v => decimal v
  | BoolArg b => chars (if b then "true" else "false")
  | CharArg c => [c]
  | CStrArg _ (Some t) | StrArg t => t
  | CStrArg _ None => []
  end.
Definition not_null (a : fmt_arg) : Prop := match a with CStrArg _ None => False | _ => True end.

Lemma fill_in_count ps texts : field_count ps = length texts -> exists r, fill_in ps texts = Some r.
Proof.
  revert texts. induction ps as [|[t|] ps IH]; intros texts E; simpl in *; [by eexists|..].
  - destruct (IH texts E) as [r ->]. by eexists.
  - destruct texts as [|x texts]; [done|]. destruct (IH texts) as [r ->]; [simpl in E; lia|]. by eexists.
Qed.

Lemma write_default_text a : arg_ok a -> not_null a -> write_default a = Ok (arg_text a).
Proof. destruct a as [signed bits v|b|c|p [t|]|t]; intros Ha Hn; [by apply write_default_int|done..]. Qed.

Lemma call_format_text {T : Locale} c args :
  c ∈ program_calls -> map arg_type args = call_types c -> Forall arg_ok args -> Forall not_null args ->
  exists text, fill_in (call_pieces c) (map arg_text args) = Some text /\ FmtFormat.format args (chars (call_format c)) = Ok text.
Proof.
  intros Hc Ht Ha Hn. pose proof program_calls_ok as Hok. rewrite forallb_forall in Hok. specialize (Hok c (proj1 (list_elem_of_In _ _) Hc)).
  unfold call_ok in Hok. rewrite !andb_true_iff, !bool_decide_eq_true in Hok. destruct Hok as [[Hp Hf] _].
  destruct (fill_in_count (call_pieces c) (map arg_text args)) as [text Hr]; [by rewrite Hf, <- Ht, !length_map|]. exists text. split; [done|].
  rewrite <- Hp, (format_pieces args (map arg_text args)), Hr; [done|]. clear -Ha Hn. induction Ha as [|a args Ha Hargs IH]; simpl; [constructor|].
  inversion Hn; subst. constructor; [by apply write_default_text|by apply IH].
Qed.

(** C19: every log call of the program logs its text: its format string compiles
    for the types of its arguments, and with any arguments of these types (no
    null C string) formatting does not throw; the call hands the text, with the
    arguments in the places of the fields, to the logger.  At level debug or above
    that posts it as one JSON message of the call's level as long as the thread pool
    exists; at level trace, and once the pool is gone, nothing is posted. *)
Theorem program_logs_exact {T : Locale} clock tid strftime self ids (w : world program_sink) (c : log_call) (args : list fmt_arg) :
  c ∈ program_calls -> map arg_type args = call_types c -> Forall arg_ok args -> Forall not_null args ->
  fstring (call_types c) (chars (call_format c)) = Ok tt /\
  exists text w', fill_in (call_pieces c) (map arg_text args) = Some text /\
    run_call clock tid strftime (self_vtable clock strftime self) c args (program_logger ids, w) = (Ok tt, (program_logger ids, w')) /\
    sinks_at w' = sinks_at w /\
    posts w' = posts w ++ method_posts clock tid self (call_level c) (Logger.log_json text) w.
Proof.
  intros Hc Ht Ha Hn. split.
  - pose proof program_calls_ok as Hok. rewrite forallb_forall in Hok. specialize (Hok c (proj1 (list_elem_of_In _ _) Hc)).
    unfold call_ok in Hok. apply andb_true_iff in Hok as [_ Hok]. by destruct (fstring _ _) as [[]| |].
  - destruct (call_format_text c args Hc Ht Ha Hn) as (text & Hr & Hf). unfold run_call, log_json_at. rewrite Hf. unfold bind at 1, of_outcome.
    destruct (log_format_posts clock tid strftime self ids (call_level c) (Logger.log_json text) w) as (w' & E & Es & Ep). by exists text, w'.
Qed.

#[local] Instance plain_locale : Locale := { write_loc _ _ _ _ := None }.

Lemma program_logs_exact_witness :
  fill_in (call_pieces session_started) [chars "10.0.0.7"; chars "50123"] = Some (chars "[client_session][start] New connection from 10.0.0.7:50123") /\
  exists text w', fill_in (call_pieces session_started) (map arg_text [StrArg (chars "10.0.0.7"); IntArg false 32 50123]) = Some text /\
    run_call (fun _ => 0) 1 (fun _ => []) (self_vtable (fun _ => 0) (fun _ => []) 3) session_started [StrArg (chars "10.0.0.7"); IntArg false 32 50123]
      (program_logger [1], mkworld ∅ 0 0 [] [] 0 true []) = (Ok tt, (program_logger [1], w')) /\ length (posts w') = 1%nat.
Proof.
  split; [vm_compute; reflexivity|].
  destruct (program_logs_exact (fun _ => 0) 1 (fun _ => []) 3 [1] (mkworld ∅ 0 0 [] [] 0 true []) session_started
    [StrArg (chars "10.0.0.7"); IntArg false 32 50123]) as (_ & text & w' & Hr & E & _ & Ep).
  - unfold program_calls. rewrite list_elem_of_In. simpl. tauto.
  - reflexivity.
  - constructor; [|constructor; [split; [by left|lia]|constructor]]. simpl. repeat (constructor; [unfold byte_ok; simpl; lia|]). constructor.
  - repeat constructor.
  - exists text, w'. split; [exact Hr|]. split; [exact E|]. rewrite Ep. vm_compute. reflexivity.
Defined.
